(* ===== verification/_CoqProject ===== *)
-Q . S2P
Prelude.v
RbTree.v
IdTree.v
IdTreeProps.v
IdTreeRemove.v
Jenkins.v
TdbFile.v
TdbLayout.v
TdbChain.v
TdbStore.v
TdbAlloc.v
TdbUpdate.v
TdbTraverse.v
TdbProps.v
TdbTxn.v
TdbTxnView.v
TdbCrash.v
TdbCommit.v
TdbAtomic.v
TdbInterrupted.v
TdbLock.v
TdbLockProps.v
Protocol.v
Queue.v
Marshal.v
Ltdb.v
TdbInstance.v
LockSched.v
LockSchedProps.v
Node.v
Call.v
Freeze.v
Persist.v
PersistProps.v
Recovery.v
RecoveryMerge.v
RecoverySeqnum.v
RecoveryProps.v
RecoveryLive.v
Election.v
Vacuum.v
Owner.v
VacuumProps.v
VacuumRun.v
VacuumRunProps.v
VacuumLive.v
Cluster.v
CallProps.v
Takeover.v
TakeoverProps.v
