(* ===== verification/Prelude.v ===== *)
(** * ctdb: a Rocq model of the clustered trivial database daemon

    ctdb keeps one tdb file per database on every node of a cluster and moves
    the right to write a record, the role of data master, between the nodes.
    This library translates the parts of the daemon and of the tdb library that
    this rests on and proves what they promise.  Paths are relative to [src/].

    ** The parts and how they interact

    - A record is stored in a local tdb file behind a [ctdb_ltdb_header] that names
      its data master.  A client takes the chainlock of the record and, when its
      node is not the data master, has the daemon fetch it: the request goes to the
      location master of the key (by a hash) or the data master, which hands over
      the role in DMASTER packets.
    - Packets travel through queues on TCP connections, which cut a byte stream
      into packets.
    - Empty records are deleted by vacuuming, in rounds over all nodes.
    - When nodes come or go, the recovery daemons elect a recovery master; it
      freezes all databases, merges the copies of each record and pushes the
      result to all nodes, inside a tdb transaction on every node.
    - The recovery master then distributes the public addresses.

    ** Files

    - [Prelude.v]: notations for the bit operations of C, little-endian numbers,
      32 and 64 bit wrap-around, lists, tactics and hint databases.
    - [RbTree.v]: common/rb_tree.c.  [Jenkins.v]: lib/tdb/common/hash.c and
      [ctdb_hash].
    - [TdbFile.v]: lib/tdb/common/io.c, freelist.c, tdb.c, traverse.c and the new
      file of open.c on the bytes of the file; [TdbLayout.v], [TdbChain.v],
      [TdbStore.v], [TdbAlloc.v], [TdbUpdate.v], [TdbTraverse.v]: what these bytes
      mean and what every operation does to them; [TdbProps.v]: the theorems.
    - [TdbTxn.v]: lib/tdb/common/transaction.c; [TdbTxnView.v]: what a transaction
      sees; [TdbCrash.v]: the disk after a power failure and recovery;
      [TdbCommit.v], [TdbAtomic.v]: the steps of a commit and their atomicity;
      [TdbInterrupted.v]: a second power failure during recovery.
    - [Protocol.v]: include/ctdb_protocol.h.  [Queue.v]: common/ctdb_io.c and the
      packet checks of tcp/tcp_io.c.  [Marshal.v]: the marshalling functions of
      common/ctdb_util.c.
    - [Ltdb.v]: common/ctdb_ltdb.c, [ctdb_ltdb_store_server] and the delete queue,
      over an interface [TdbOps]/[TdbLaws] of the tdb library; [TdbInstance.v]
      shows that a tdb file as modelled in [TdbFile.v] implements this interface.
    - [Node.v]: state of a daemon, packet queueing and request ids of
      server/ctdb_server.c and common/ctdb_util.c.  [Call.v], [CallProps.v]:
      server/ctdb_call.c and the dispatch of packets.
    - [Owner.v], [Cluster.v]: the data master role as a token, and the cluster as
      a step relation over all daemons, the network and the clients.
    - [Freeze.v]: server/ctdb_freeze.c.  [Recovery.v], [RecoveryProps.v],
      [RecoveryLive.v]: the controls of server/ctdb_recover.c and the recovery of
      server/ctdb_recoverd.c.  [Election.v]: the elections in ctdb_recoverd.c.
    - [Vacuum.v], [VacuumProps.v], [VacuumRun.v], [VacuumRunProps.v],
      [VacuumLive.v]: server/ctdb_vacuum.c.
    - [Takeover.v], [TakeoverProps.v]: the allocation of server/ctdb_takeover.c.

    ** How the code is represented

    A C function is a Rocq function with the same name; a [struct] is a record; an
    object that is changed through a pointer is passed in and returned.  Numbers
    are [Z] with the reduction to their width written out ([u32], [u64]); bytes
    are lists of numbers.  Handlers of the daemon run in a state and error monad
    ([Node.v]).  What the code gets from outside (whether a lock is granted, a
    system call fails, a packet is lost, in which order replies come) is an
    argument.  Loops that are not structural take fuel; the theorems show that
    the fuel given is enough, by a number that decreases: the length of what is
    left to read, the number of records of the file, the sum of squared distances
    (LCP2), the size of the table.

    ** What is shown

    - Cluster: in every reachable state a record has at most one data master, and
      a client that gets the lock on a record reads what was written last, under
      any interleaving of deliveries, losses, crashes, timeouts and vacuuming.
    - Calls: handlers release the locks they take; a revocation waits for all
      nodes that hold a delegation; the store function keeps header, data and
      delete queue as documented.
    - tdb: the file stays well formed and behaves like a finite map, whatever is
      refused; calls succeed when nothing is refused.  Transactions are
      transparent, commits are atomic under power failures, and they succeed when
      nothing fails.
    - Queues are FIFO channels that lose no wake-up; marshalling is a round trip;
      red-black trees are finite maps; the hash does not depend on alignment.
    - Recovery leaves the newest copy of each record on all nodes, undoes itself
      when it is abandoned, and completes when controls are answered; elections
      converge; freezing keeps its invariant.
    - Vacuuming deletes a record only when it is gone everywhere, completes, and
      runs one at a time.
    - Address allocation ends with every address on a node that may host it.
    - Where the code does not do what it means to, the behaviour itself is a
      theorem (kind "error" in the manifest).

    ** Assumptions

    - Little-endian LP64 machine; memory allocation does not fail (except where
      talloc's limit is part of the code).
    - [Owner.v] and [Cluster.v]: databases without read-only delegations, clients
      that use the chainlock ([admissible] steps), and for the last theorem stores
      that do not fail.
    - Recovery: nodes stay in the state in which the nodemap has them during one
      recovery; the election theorem assumes that messages arrive before the
      election timer.
    - Vacuuming runs are followed without interference on the same records; each
      single operation is safe between any other steps.
    - tdb: one process works on the file under its locks; past 4 GiB the sums of
      the source wrap around and the model stops ([tdb_overflow]).
    - Power failures: aligned words of four bytes are not torn, the size of the
      file is not lost, and what was synced stays.

    ** Not modelled

    - The client library and the command line tools (client/ctdb_client.c beyond
      record access, tools/, utils/): they build controls, wait for replies and
      print them.
    - talloc, tevent, popt, libreplace, socket_wrapper, zlib and the test
      suites: libraries the daemon calls; allocation and the event loop appear as
      the environment.
    - The Infiniband transport, system_*.c, event scripts and their helper
      processes, logging, statistics that are only reported.
    - Monitoring, keepalive, local clients, takeover controls and TCP tickles,
      traversal over the cluster.
    - tdb: byte order conversion, opening an existing file, check, dump, summary
      and rescue.
*)
From stdpp Require Export base list list_numbers numbers gmap strings.
From Stdlib Require Export ZArith Lia.

#[global] Open Scope Z_scope.

(** ** Notations *)

Declare Scope ctdb_scope.
Delimit Scope ctdb_scope with ctdb.

(** [f &? m]: the C test [if (f & m)]. *)
Definition has_flag (f m : Z) : bool := negb (Z.land f m =? 0).
Notation "f &? m" := (has_flag f m) (at level 40, no associativity) : ctdb_scope.
(** [f &~ m]: the C expression [f & ~m] on unsigned operands. *)
Notation "f &~ m" := (Z.ldiff f m) (at level 40, no associativity) : ctdb_scope.
(** [f |+ m]: the C expression [f | m]. *)
Notation "f |+ m" := (Z.lor f m) (at level 50, left associativity) : ctdb_scope.
Open Scope ctdb_scope.

(** Unsigned machine integers: values are kept reduced. *)
Definition u32 (z : Z) : Z := z mod 2 ^ 32.
Definition u64 (z : Z) : Z := z mod 2 ^ 64.
(** Reading a 32-bit pattern as a C [int]. *)
Definition s32 (z : Z) : Z := if u32 z <? 2 ^ 31 then u32 z else u32 z - 2 ^ 32.

Definition is_u8 (z : Z) : Prop := 0 <= z < 2 ^ 8.
Definition is_u32 (z : Z) : Prop := 0 <= z < 2 ^ 32.
Definition is_u64 (z : Z) : Prop := 0 <= z < 2 ^ 64.

(** A byte string: the [TDB_DATA] of the source.  [dsize] is the length; the
    [NULL] pointer with [dsize] 0 is the empty list. *)
Abbreviation bytes := (list Z).
Definition dsize (d : bytes) : Z := Z.of_nat (length d).

(** ** Automation *)

Create HintDb ctdb.

(** Case analysis on the scrutinee of the first [if]/[match] of the goal. *)
Ltac case_goal :=
  match goal with
  | |- context [if ?b then _ else _] => destruct b eqn:?
  | |- context [match ?x with _ => _ end] => destruct x eqn:?
  end.

(** Case analysis on a scrutinee inside a hypothesis. *)
Ltac case_hyp H :=
  match type of H with
  | context [if ?b then _ else _] => destruct b eqn:?
  | context [match ?x with _ => _ end] => destruct x eqn:?
  end.

(** Boolean hypotheses on integers as propositions. *)
Ltac zbool :=
  repeat match goal with
  | H : andb _ _ = true |- _ => apply andb_prop in H as [? ?]
  | H : orb _ _ = false |- _ => apply orb_false_elim in H as [? ?]
  | H : negb _ = true |- _ => apply negb_true_iff in H
  | H : negb _ = false |- _ => apply negb_false_iff in H
  | H : bool_decide _ = true |- _ => apply bool_decide_eq_true in H
  | H : bool_decide _ = false |- _ => apply bool_decide_eq_false in H
  | H : (_ =? _) = true |- _ => apply Z.eqb_eq in H
  | H : (_ =? _) = false |- _ => apply Z.eqb_neq in H
  | H : (_ <? _) = true |- _ => apply Z.ltb_lt in H
  | H : (_ <? _) = false |- _ => apply Z.ltb_ge in H
  | H : (_ <=? _) = true |- _ => apply Z.leb_le in H
  | H : (_ <=? _) = false |- _ => apply Z.leb_gt in H
  end.

(** ** Machine integers *)

Lemma u32_range z : is_u32 (u32 z).
Proof. unfold is_u32, u32. apply Z.mod_pos_bound. lia. Qed.

Lemma u64_range z : is_u64 (u64 z).
Proof. unfold is_u64, u64. apply Z.mod_pos_bound. lia. Qed.

Lemma u32_id z : is_u32 z → u32 z = z.
Proof. intros. by apply Z.mod_small. Qed.

Lemma s32_id z : 0 <= z < 2 ^ 31 → s32 z = z.
Proof.
  intros Hz. unfold s32. rewrite u32_id by (unfold is_u32; lia). by rewrite (proj2 (Z.ltb_lt _ _)) by lia.
Qed.

Lemma s32_neg z : 2 ^ 31 <= z < 2 ^ 32 → s32 z = z - 2 ^ 32.
Proof.
  intros Hz. unfold s32. rewrite u32_id by (unfold is_u32; lia). by rewrite (proj2 (Z.ltb_ge _ _)) by lia.
Qed.

Lemma u64_id z : is_u64 z → u64 z = z.
Proof. intros. by apply Z.mod_small. Qed.

#[export] Hint Resolve u32_range u64_range : ctdb.

(** Bounds of the bit operations: a set of bits below [n] stays below [n]. *)
Lemma bits_bounded n z :
  0 <= n → 0 <= z → (∀ i, n <= i → Z.testbit z i = false) → z < 2 ^ n.
Proof.
  intros Hn Hz Hb. destruct (Z.lt_ge_cases z (2 ^ n)) as [|Hge]; [done|].
  assert (0 < z) as Hpos by (pose proof (Z.pow_pos_nonneg 2 n); lia).
  pose proof (Z.bit_log2 z Hpos) as Hl.
  rewrite Hb in Hl; [done|]. by apply Z.log2_le_pow2.
Qed.

Lemma testbit_above n z i : 0 <= z < 2 ^ n → n <= i → Z.testbit z i = false.
Proof.
  intros [H0 Hlt] Hi. destruct (Z.eq_dec z 0) as [->|]; [by apply Z.bits_0|].
  apply Z.bits_above_log2; [done|].
  assert (Z.log2 z < n); [|lia]. apply Z.log2_lt_pow2; lia.
Qed.

Lemma lor_range n a b :
  0 <= n → 0 <= a < 2 ^ n → 0 <= b < 2 ^ n → 0 <= Z.lor a b < 2 ^ n.
Proof.
  intros Hn Ha Hb. assert (0 <= Z.lor a b) by (apply Z.lor_nonneg; lia).
  split; [done|]. apply bits_bounded; [lia..|]. intros i Hi.
  by rewrite Z.lor_spec, (testbit_above n a), (testbit_above n b).
Qed.

Lemma ldiff_range n a b : 0 <= n → 0 <= a < 2 ^ n → 0 <= Z.ldiff a b < 2 ^ n.
Proof.
  intros Hn Ha. assert (0 <= Z.ldiff a b) by (apply Z.ldiff_nonneg; lia).
  split; [done|]. apply bits_bounded; [lia..|]. intros i Hi.
  by rewrite Z.ldiff_spec, (testbit_above n a).
Qed.

(** ** Flag algebra *)

Lemma has_flag_false f m : has_flag f m = false ↔ Z.land f m = 0.
Proof. unfold has_flag. rewrite negb_false_iff. apply Z.eqb_eq. Qed.

Lemma has_flag_ldiff_self f m : has_flag (Z.ldiff f m) m = false.
Proof.
  apply has_flag_false. apply Z.bits_inj'. intros i Hi.
  rewrite Z.land_spec, Z.ldiff_spec, Z.bits_0. by destruct (Z.testbit f i), (Z.testbit m i).
Qed.

(** Clearing bits [m] clears every mask [m'] contained in [m]. *)
Lemma has_flag_ldiff_sub f m m' :
  Z.ldiff m' m = 0 → has_flag (Z.ldiff f m) m' = false.
Proof.
  intros Hsub. apply has_flag_false. apply Z.bits_inj'. intros i Hi.
  rewrite Z.land_spec, Z.ldiff_spec, Z.bits_0.
  assert (Z.testbit (Z.ldiff m' m) i = false) as H by (rewrite Hsub; apply Z.bits_0).
  rewrite Z.ldiff_spec in H.
  by destruct (Z.testbit f i), (Z.testbit m i), (Z.testbit m' i).
Qed.

(** Clearing bits [m] leaves a disjoint mask alone. *)
Lemma has_flag_ldiff_disj f m m' :
  Z.land m m' = 0 → has_flag (Z.ldiff f m) m' = has_flag f m'.
Proof.
  intros Hd. unfold has_flag. f_equal. f_equal. apply Z.bits_inj'. intros i Hi.
  rewrite !Z.land_spec, Z.ldiff_spec.
  assert (Z.testbit (Z.land m m') i = false) as H by (rewrite Hd; apply Z.bits_0).
  rewrite Z.land_spec in H.
  by destruct (Z.testbit f i), (Z.testbit m i), (Z.testbit m' i).
Qed.

(** A flag of a group of flags is one of the group. *)
Lemma has_flag_sup f m M : Z.land m M = m → has_flag f m = true → has_flag f M = true.
Proof.
  unfold has_flag. intros Hm. rewrite !negb_true_iff, !Z.eqb_neq. intros Hf E. apply Hf.
  rewrite <- Hm, (Z.land_comm m M), Z.land_assoc, E. apply Z.land_0_l.
Qed.

Lemma has_flag_lor_self f m : m ≠ 0 → has_flag (Z.lor f m) m = true.
Proof.
  intros Hm. unfold has_flag. rewrite negb_true_iff, Z.eqb_neq.
  rewrite Z.land_lor_distr_l, Z.land_diag, Z.lor_eq_0_iff. by intros [_ ?].
Qed.

Lemma has_flag_lor f m m' :
  has_flag (Z.lor f m) m' = has_flag f m' || has_flag m m'.
Proof.
  unfold has_flag. rewrite Z.land_lor_distr_l.
  destruct (Z.eqb_spec (Z.land f m') 0) as [->|H1];
    destruct (Z.eqb_spec (Z.land m m') 0) as [->|H2]; simpl; try done.
  - by rewrite Z.lor_0_l; apply Z.eqb_neq in H2; rewrite H2.
  - by rewrite Z.lor_0_r; apply Z.eqb_neq in H1; rewrite H1.
  - destruct (Z.eqb_spec (Z.lor (Z.land f m') (Z.land m m')) 0) as [H|]; [|done].
    by apply Z.lor_eq_0_iff in H as [? ?].
Qed.

(** ** Little-endian byte strings *)

Fixpoint le_bytes (n : nat) (z : Z) : bytes :=
  match n with
  | O => []
  | S n => z mod 256 :: le_bytes n (z / 256)
  end.

Fixpoint le_val (l : bytes) : Z :=
  match l with
  | [] => 0
  | b :: l => b + 256 * le_val l
  end.

Lemma length_le_bytes n z : length (le_bytes n z) = n.
Proof. revert z. induction n; intros; simpl; auto. Qed.

Lemma le_val_bytes n z : le_val (le_bytes n z) = z mod 256 ^ Z.of_nat n.
Proof.
  revert z. induction n as [|n IH]; intros z; [by rewrite Z.mod_1_r|].
  cbn [le_bytes le_val]. rewrite IH, Nat2Z.inj_succ, Z.pow_succ_r by lia.
  rewrite Z.rem_mul_r by lia. lia.
Qed.

Lemma le_val_bytes_small n z : 0 <= z < 256 ^ Z.of_nat n → le_val (le_bytes n z) = z.
Proof. intros. rewrite le_val_bytes. by apply Z.mod_small. Qed.

Lemma le_bytes_u8 n z : Forall is_u8 (le_bytes n z).
Proof.
  revert z. induction n; intros; simpl; constructor; [|done].
  unfold is_u8. apply Z.mod_pos_bound. lia.
Qed.

Lemma le_val_range l :
  Forall is_u8 l → 0 <= le_val l < 256 ^ Z.of_nat (length l).
Proof.
  induction 1 as [|b l Hb _ IH]; [done|].
  cbn [le_val length]. rewrite Nat2Z.inj_succ, Z.pow_succ_r by lia.
  unfold is_u8 in Hb. lia.
Qed.

(** ** List slices *)

Definition slice (off len : nat) (l : bytes) : bytes := take len (drop off l).

Lemma slice_app_first a b n : n = length a → slice 0 n (a ++ b) = a.
Proof. intros ->. unfold slice. by rewrite drop_0, take_app_length. Qed.

Lemma slice_app_skip a b off len n :
  off = (length a + n)%nat → slice off len (a ++ b) = slice n len b.
Proof. intros ->. unfold slice. by rewrite <- drop_drop, drop_app_length. Qed.

Lemma slice_all l n : n = length l → slice 0 n l = l.
Proof. intros ->. unfold slice. by rewrite drop_0, firstn_all. Qed.

Lemma take_drop_length {A} k (l : list A) : take k l ++ drop (length (take k l)) l = l.
Proof.
  rewrite length_take. destruct (Nat.le_ge_cases k (length l)).
  - rewrite Nat.min_l by done. apply take_drop.
  - rewrite Nat.min_r, take_ge, drop_all by done. apply app_nil_r.
Qed.

(** ** Lengths of byte strings *)

Lemma dsize_app (a b : bytes) : dsize (a ++ b) = dsize a + dsize b.
Proof. unfold dsize. rewrite length_app. lia. Qed.
Lemma dsize_nonneg (a : bytes) : 0 <= dsize a.
Proof. unfold dsize. lia. Qed.
