(* ===== verification/RbTree.v ===== *)
(** * Red-black trees

    [common/rb_tree.c].  A node is reached from the root through its parent
    pointers, so a pointer to a node of a tree is the subtree at that node
    together with the path of its ancestors: [node->parent] is the first frame
    of the path, [node == node->parent->left] is the side of that frame, and
    writing through the pointers is rebuilding the frames.  The routines below
    work on such locations, one definition per function.

    Shown: insertion and deletion keep the colour invariant and the order of
    the keys, never dereference NULL, and are insertion and deletion of the
    finite map the tree stands for; the routines with an array of integers as
    the key are lookups and insertions in the nested trees, and the traversal
    visits the data in increasing order of the keys. *)
From stdpp Require Import sorting.
From S2P Require Import Prelude.

(** ** Data *)

Inductive rb_color := TRBT_RED | TRBT_BLACK.

#[global] Instance rb_color_eq_dec : EqDecision rb_color.
Proof. solve_decision. Defined.

(** [trbt_node_t]; [NULL] is the null pointer. *)
Inductive trbt_node (V : Type) :=
  | NULL
  | NODE (rb_color : rb_color) (left : trbt_node V) (key32 : Z) (data : V)
         (right : trbt_node V).
Arguments NULL {V}.
Arguments NODE {V}.

Inductive side := LEFT | RIGHT.

(** One ancestor: the side on which its child on the path hangs, its members,
    and its other child. *)
Record frame (V : Type) := mk_frame {
  fr_side : side;
  fr_color : rb_color;
  fr_key : Z;
  fr_data : V;
  fr_other : trbt_node V;
}.
Arguments mk_frame {V}.
Arguments fr_side {V}.
Arguments fr_color {V}.
Arguments fr_key {V}.
Arguments fr_data {V}.
Arguments fr_other {V}.

Section rb_tree.
Context {V : Type}.
Implicit Types (t : trbt_node V) (f : frame V) (p : list (frame V)).

(** The parent with its child on the path being [t]. *)
Definition link f t : trbt_node V :=
  match fr_side f with
  | LEFT => NODE (fr_color f) t (fr_key f) (fr_data f) (fr_other f)
  | RIGHT => NODE (fr_color f) (fr_other f) (fr_key f) (fr_data f) t
  end.

(** The root of the tree in which [t] hangs below the path [p]. *)
Fixpoint plug t p : trbt_node V :=
  match p with [] => t | f :: p => plug (link f t) p end.

Definition set_fr_color f (c : rb_color) : frame V :=
  mk_frame (fr_side f) c (fr_key f) (fr_data f) (fr_other f).
Definition set_fr_other f t : frame V :=
  mk_frame (fr_side f) (fr_color f) (fr_key f) (fr_data f) t.

(** ** Colours and rotations *)

Definition trbt_get_color t : rb_color :=
  match t with NULL => TRBT_BLACK | NODE c _ _ _ _ => c end.
Definition trbt_get_color_left t : rb_color :=
  match t with NULL => TRBT_BLACK | NODE _ l _ _ _ => trbt_get_color l end.
Definition trbt_get_color_right t : rb_color :=
  match t with NULL => TRBT_BLACK | NODE _ _ _ _ r => trbt_get_color r end.

(** [None] is a write through the null pointer. *)
Definition trbt_set_color t (color : rb_color) : option (trbt_node V) :=
  match t with
  | NULL => if decide (color = TRBT_BLACK) then Some NULL else None
  | NODE _ l k d r => Some (NODE color l k d r)
  end.
Definition trbt_set_color_left t (color : rb_color) : option (trbt_node V) :=
  match t with
  | NULL => if decide (color = TRBT_BLACK) then Some NULL else None
  | NODE c l k d r => l ← trbt_set_color l color; Some (NODE c l k d r)
  end.
Definition trbt_set_color_right t (color : rb_color) : option (trbt_node V) :=
  match t with
  | NULL => if decide (color = TRBT_BLACK) then Some NULL else None
  | NODE c l k d r => r ← trbt_set_color r color; Some (NODE c l k d r)
  end.

(** The rotations at a node; [None] when the child that moves up is null. *)
Definition trbt_rotate_left t : option (trbt_node V) :=
  match t with
  | NODE c a k d (NODE c' b k' d' e) => Some (NODE c' (NODE c a k d b) k' d' e)
  | _ => None
  end.
Definition trbt_rotate_right t : option (trbt_node V) :=
  match t with
  | NODE c (NODE c' a k' d' b) k d e => Some (NODE c' a k' d' (NODE c b k d e))
  | _ => None
  end.

(** ** Insertion *)

(** The cases of the insertion, at the node [t] with parent [f1] and grandparent
    [f2]; the result is the subtree that takes the place of the grandparent. *)
Definition trbt_insert_case5 t f1 f2 : option (trbt_node V) :=
  let grandparent := link (set_fr_color f2 TRBT_RED) (link (set_fr_color f1 TRBT_BLACK) t) in
  match fr_side f1, fr_side f2 with
  | LEFT, LEFT => trbt_rotate_right grandparent
  | _, _ => trbt_rotate_left grandparent
  end.

(** After the rotation at the parent the parent is the node, and the node its
    parent; [trbt_insert_case5] is called with the frames that describe this. *)
Definition trbt_insert_case4 t f1 f2 : option (trbt_node V) :=
  match fr_side f1, fr_side f2 with
  | RIGHT, LEFT =>
      match t with
      | NULL => None
      | NODE c a k d b =>
          trbt_insert_case5 (NODE (fr_color f1) (fr_other f1) (fr_key f1) (fr_data f1) a)
            (mk_frame LEFT c k d b) f2
      end
  | LEFT, RIGHT =>
      match t with
      | NULL => None
      | NODE c a k d b =>
          trbt_insert_case5 (NODE (fr_color f1) b (fr_key f1) (fr_data f1) (fr_other f1))
            (mk_frame RIGHT c k d a) f2
      end
  | _, _ => trbt_insert_case5 t f1 f2
  end.

Section insert.
Variable insert_case1 : trbt_node V → list (frame V) → option (trbt_node V).

(** The uncle is the other child of the grandparent. *)
Definition insert_case3 t f1 p : option (trbt_node V) :=
  match p with
  | [] => Some (plug t [f1])
  | f2 :: p2 =>
      match fr_other f2 with
      | NODE TRBT_RED l k d r =>
          insert_case1
            (link (set_fr_other (set_fr_color f2 TRBT_RED) (NODE TRBT_BLACK l k d r))
               (link (set_fr_color f1 TRBT_BLACK) t)) p2
      | _ => t' ← trbt_insert_case4 t f1 f2; Some (plug t' p2)
      end
  end.

Definition insert_case2 t f1 p : option (trbt_node V) :=
  match fr_color f1 with
  | TRBT_BLACK => Some (plug t (f1 :: p))
  | TRBT_RED => insert_case3 t f1 p
  end.

End insert.

Fixpoint trbt_insert_case1 t p {struct p} : option (trbt_node V) :=
  match p with
  | [] => trbt_set_color t TRBT_BLACK
  | f1 :: p1 => insert_case2 trbt_insert_case1 t f1 p1
  end.

(** The walk of [trbt_insert32] and [trbt_insert32_callback] from the node [t] at
    path [p]: (the old data, the root).  The callback gets the data of the key or
    NULL and may itself fail. *)
Fixpoint insert_walk t p (key : Z) (callback : option V → option V)
    : option (option V * trbt_node V) :=
  match t with
  | NULL =>
      data ← callback None;
      root ← trbt_insert_case1 (NODE TRBT_RED NULL key data NULL) p;
      Some (None, root)
  | NODE c l k d r =>
      if key =? k then data ← callback (Some d); Some (Some d, plug (NODE c l k data r) p)
      else if key <? k then insert_walk l (mk_frame LEFT c k d r :: p) key callback
      else insert_walk r (mk_frame RIGHT c k d l :: p) key callback
  end.

(** The first node is created black. *)
Definition insert_root t (key : Z) (callback : option V → option V)
    : option (option V * trbt_node V) :=
  match t with
  | NULL => data ← callback None; Some (None, NODE TRBT_BLACK NULL key data NULL)
  | _ => insert_walk t [] key callback
  end.

(** The root after the insertion. *)
Definition trbt_insert32_callback t (key : Z) (callback : option V → option V)
    : option (trbt_node V) :=
  snd <$> insert_root t key callback.

(** [trbt_insert32]: (the old data, the root). *)
Definition trbt_insert32 t (key : Z) (data : V) : option (option V * trbt_node V) :=
  insert_root t key (λ _, Some data).

(** ** Lookup *)

Fixpoint trbt_lookup32 t (key : Z) : option V :=
  match t with
  | NULL => None
  | NODE _ l k d r =>
      if key =? k then Some d
      else if key <? k then trbt_lookup32 l key
      else trbt_lookup32 r key
  end.

(** ** Deletion *)

(** The cases of the deletion at the node [t] with parent [f] and ancestors [p].
    The results are roots; [None] is a null pointer dereference. *)
Definition trbt_delete_case6 t f p : option (trbt_node V) :=
  sibling ← trbt_set_color (fr_other f) (fr_color f);
  match fr_side f with
  | LEFT =>
      sibling ← trbt_set_color_right sibling TRBT_BLACK;
      t' ← trbt_rotate_left (link (set_fr_other (set_fr_color f TRBT_BLACK) sibling) t);
      Some (plug t' p)
  | RIGHT =>
      sibling ← trbt_set_color_left sibling TRBT_BLACK;
      t' ← trbt_rotate_right (link (set_fr_other (set_fr_color f TRBT_BLACK) sibling) t);
      Some (plug t' p)
  end.

Definition trbt_delete_case5 t f p : option (trbt_node V) :=
  let sibling := fr_other f in
  match fr_side f, trbt_get_color sibling, trbt_get_color_left sibling,
        trbt_get_color_right sibling with
  | LEFT, TRBT_BLACK, TRBT_RED, TRBT_BLACK =>
      sibling ← trbt_set_color sibling TRBT_RED;
      sibling ← trbt_set_color_left sibling TRBT_BLACK;
      sibling ← trbt_rotate_right sibling;
      trbt_delete_case6 t (set_fr_other f sibling) p
  | RIGHT, TRBT_BLACK, TRBT_BLACK, TRBT_RED =>
      sibling ← trbt_set_color sibling TRBT_RED;
      sibling ← trbt_set_color_right sibling TRBT_BLACK;
      sibling ← trbt_rotate_left sibling;
      trbt_delete_case6 t (set_fr_other f sibling) p
  | _, _, _, _ => trbt_delete_case6 t f p
  end.

Definition trbt_delete_case4 t f p : option (trbt_node V) :=
  let sibling := fr_other f in
  match fr_color f, trbt_get_color sibling, trbt_get_color_left sibling,
        trbt_get_color_right sibling with
  | TRBT_RED, TRBT_BLACK, TRBT_BLACK, TRBT_BLACK =>
      sibling ← trbt_set_color sibling TRBT_RED;
      Some (plug t (set_fr_other (set_fr_color f TRBT_BLACK) sibling :: p))
  | _, _, _, _ => trbt_delete_case5 t f p
  end.

Section delete.
Variable delete_case1 : trbt_node V → list (frame V) → option (trbt_node V).

Definition delete_case3 t f p : option (trbt_node V) :=
  let sibling := fr_other f in
  match fr_color f, trbt_get_color sibling, trbt_get_color_left sibling,
        trbt_get_color_right sibling with
  | TRBT_BLACK, TRBT_BLACK, TRBT_BLACK, TRBT_BLACK =>
      sibling ← trbt_set_color sibling TRBT_RED;
      delete_case1 (link (set_fr_other f sibling) t) p
  | _, _, _, _ => trbt_delete_case4 t f p
  end.

(** A red sibling is rotated to the place of the parent; it becomes the
    grandparent of [t], and the child of it next to [t] the sibling. *)
Definition delete_case2 t f p : option (trbt_node V) :=
  match fr_other f with
  | NODE TRBT_RED l k d r =>
      match fr_side f with
      | LEFT =>
          delete_case3 t (set_fr_other (set_fr_color f TRBT_RED) l)
            (mk_frame LEFT TRBT_BLACK k d r :: p)
      | RIGHT =>
          delete_case3 t (set_fr_other (set_fr_color f TRBT_RED) r)
            (mk_frame RIGHT TRBT_BLACK k d l :: p)
      end
  | _ => delete_case3 t f p
  end.

End delete.

(** Each recursive call is one ancestor further up: as many steps as ancestors
    are enough. *)
Fixpoint trbt_delete_case1 (fuel : nat) t p : option (trbt_node V) :=
  match p with
  | [] => Some t
  | f :: p =>
      match fuel with
      | O => None
      | S fuel => delete_case2 (trbt_delete_case1 fuel) t f p
      end
  end.

(** The end of [delete_node] for a node with at most one child: the child (or
    the black dummy node, which is [NULL] again in the end) takes its place. *)
Definition delete_unlink (color : rb_color) (child : trbt_node V) p : option (trbt_node V) :=
  match color with
  | TRBT_RED => Some (plug child p)
  | TRBT_BLACK =>
      match trbt_get_color child with
      | TRBT_RED => child ← trbt_set_color child TRBT_BLACK; Some (plug child p)
      | TRBT_BLACK => trbt_delete_case1 (length p) child p
      end
  end.

(** The walk to the predecessor, the rightmost node below [t]: its location. *)
Fixpoint rightmost (c : rb_color) (l : trbt_node V) (k : Z) (d : V) (r : trbt_node V) p
    : rb_color * trbt_node V * Z * V * list (frame V) :=
  match r with
  | NULL => (c, l, k, d, p)
  | NODE c' l' k' d' r' => rightmost c' l' k' d' r' (mk_frame RIGHT c k d l :: p)
  end.

(** [delete_node(node, true)]: what is left of the tree.  With two children the
    key and data of the predecessor move to the node and the predecessor's node
    is unlinked. *)
Definition delete_node (c : rb_color) (l : trbt_node V) (k : Z) (d : V) (r : trbt_node V) p
    : option (trbt_node V) :=
  match l, r with
  | NODE cl ll kl dl rl, NODE _ _ _ _ _ =>
      let '(c', l', k', d', _) := rightmost cl ll kl dl rl [] in
      let '(c1, l1, _, _, p1) := rightmost cl ll kl dl rl (mk_frame LEFT c k' d' r :: p) in
      delete_unlink c1 l1 p1
  | _, NULL => delete_unlink c l p
  | NULL, _ => delete_unlink c r p
  end.

(** The location of a key. *)
Fixpoint locate t (key : Z) p
    : option (rb_color * trbt_node V * Z * V * trbt_node V * list (frame V)) :=
  match t with
  | NULL => None
  | NODE c l k d r =>
      if key =? k then Some (c, l, k, d, r, p)
      else if key <? k then locate l key (mk_frame LEFT c k d r :: p)
      else locate r key (mk_frame RIGHT c k d l :: p)
  end.

(** [node_destructor] of the node of [key]: the data stored there was freed. *)
Definition node_destructor t (key : Z) : option (trbt_node V) :=
  match locate t key [] with
  | None => Some t
  | Some (c, l, k, d, r, p) => delete_node c l k d r p
  end.

End rb_tree.

(** ** Arrays of integers as keys *)

(** A tree whose keys have [n] words: the data of a tree for the first word are
    the trees for the rest. *)
Fixpoint trbt_array (n : nat) (V : Type) : Type :=
  match n with O => V | S n => trbt_node (trbt_array n V) end.

Section array.
Context {V : Type}.

(** [array_insert_callback] with [keylen] = [n] words of the key left. *)
Fixpoint array_insert_callback (n : nat) (key : list Z) (callback : option V → option V)
    : option (trbt_array n V) → option (trbt_array n V) :=
  match n with
  | O => callback
  | S n => λ data,
      let tree := default NULL data in
      trbt_insert32_callback tree (nth 0 key 0) (array_insert_callback n (drop 1 key) callback)
  end.

Definition trbt_insertarray32_callback (n : nat) (tree : trbt_array (S n) V) (key : list Z)
    (callback : option V → option V) : option (trbt_array (S n) V) :=
  trbt_insert32_callback tree (nth 0 key 0) (array_insert_callback n (drop 1 key) callback).

Fixpoint trbt_lookuparray32 (n : nat) (key : list Z) : trbt_array n V → option V :=
  match n with
  | O => λ data, Some data
  | S n => λ tree, sub ← trbt_lookup32 tree (nth 0 key 0); trbt_lookuparray32 n (drop 1 key) sub
  end.

(** [trbt_traversearray32_node] with the traversal of the data. *)
Fixpoint trbt_traverse_node {S A : Type} (visit : S → A → S * Z) (s : S) (node : trbt_node A)
    : S * Z :=
  match node with
  | NULL => (s, 0)
  | NODE _ l _ data r =>
      let '(s, ret) := trbt_traverse_node visit s l in
      if negb (ret =? 0) then (s, ret)
      else
        let '(s, ret) := visit s data in
        if negb (ret =? 0) then (s, ret)
        else trbt_traverse_node visit s r
  end.

Fixpoint trbt_traversearray32 {S : Type} (n : nat) (callback : S → V → S * Z) (s : S)
    : trbt_array n V → S * Z :=
  match n with
  | O => λ data, callback s data
  | Datatypes.S n => λ tree, trbt_traverse_node (trbt_traversearray32 n callback) s tree
  end.

Fixpoint leftmost {A : Type} (data : A) (l : trbt_node A) : A :=
  match l with NULL => data | NODE _ l _ d _ => leftmost d l end.

Fixpoint trbt_findfirstarray32 (n : nat) : trbt_array n V → option V :=
  match n with
  | O => λ data, Some data
  | S n => λ tree,
      match tree with
      | NULL => None
      | NODE _ l _ d _ => trbt_findfirstarray32 n (leftmost d l)
      end
  end.

End array.

(** ** The order of the keys *)

Section order.
Context {V : Type}.
Implicit Types (t : trbt_node V) (f : frame V) (p : list (frame V)) (l : list (Z * V)).

(** The bindings of a tree from left to right. *)
Fixpoint elements t : list (Z * V) :=
  match t with NULL => [] | NODE _ l k d r => elements l ++ (k, d) :: elements r end.

(** The bindings to the left and to the right of the end of a path. *)
Fixpoint before p : list (Z * V) :=
  match p with
  | [] => []
  | f :: p => before p ++
      match fr_side f with LEFT => [] | RIGHT => elements (fr_other f) ++ [(fr_key f, fr_data f)] end
  end.
Fixpoint after p : list (Z * V) :=
  match p with
  | [] => []
  | f :: p =>
      match fr_side f with LEFT => (fr_key f, fr_data f) :: elements (fr_other f) | RIGHT => [] end
      ++ after p
  end.

Lemma elements_plug t p : elements (plug t p) = before p ++ elements t ++ after p.
Proof.
  revert t. induction p as [|f p IH]; intros t; simpl; [by rewrite app_nil_r|].
  rewrite IH. unfold link. destruct (fr_side f); simpl; by rewrite <- ?app_assoc.
Qed.

Definition key_lt (a b : Z * V) : Prop := a.1 < b.1.
Definition ordered l : Prop := StronglySorted key_lt l.
Definition all_lt l (k : Z) : Prop := Forall (λ e, e.1 < k) l.
Definition all_gt l (k : Z) : Prop := Forall (λ e, k < e.1) l.

Lemma ordered_mid l1 k d l2 :
  ordered (l1 ++ (k, d) :: l2) ↔ ordered l1 ∧ ordered l2 ∧ all_lt l1 k ∧ all_gt l2 k.
Proof.
  unfold ordered, all_lt, all_gt. rewrite StronglySorted_app, !Forall_forall. unfold key_lt. split.
  - intros (H1 & H2 & H3). apply StronglySorted_inv in H3 as [H3 H4]. rewrite Forall_forall in H4.
    split_and!; [done..| |done]. intros x Hx. apply (H1 x (k, d)); [done|constructor].
  - intros (H1 & H2 & H3 & H4). split_and!; [|done|].
    + intros x y Hx [->|Hy]%elem_of_cons; [by apply H3|].
      specialize (H3 x Hx). specialize (H4 y Hy). simpl in *. lia.
    + constructor; [done|]. by apply Forall_forall.
Qed.

Lemma ordered_cut l1 l2 k d d' :
  ordered (l1 ++ (k, d) :: l2) → ordered (l1 ++ (k, d') :: l2).
Proof. by rewrite !ordered_mid. Qed.

Lemma ordered_drop l1 k d l2 : ordered (l1 ++ (k, d) :: l2) → ordered (l1 ++ l2).
Proof.
  rewrite ordered_mid. intros (H1 & H2 & H3 & H4). unfold ordered.
  rewrite StronglySorted_app. split_and!; [|done..]. intros x y Hx Hy.
  unfold all_lt, all_gt in *. rewrite Forall_forall in H3, H4. unfold key_lt.
  specialize (H3 x Hx). specialize (H4 y Hy). simpl in *. lia.
Qed.

(** The bindings as a finite map. *)
Fixpoint assoc (k : Z) l : option V :=
  match l with [] => None | (k', d) :: l => if k =? k' then Some d else assoc k l end.

Lemma assoc_app k l1 l2 :
  assoc k (l1 ++ l2) = match assoc k l1 with Some d => Some d | None => assoc k l2 end.
Proof. induction l1 as [|[k' d] l1 IH]; simpl; [done|]. by destruct (k =? k'). Qed.

Lemma assoc_lt k k' l : all_lt l k' → k' <= k → assoc k l = None.
Proof.
  intros Hl Hk. induction Hl as [|[k1 d] l Hx _ IH]; [done|]. simpl in *.
  by rewrite (proj2 (Z.eqb_neq k k1)) by lia.
Qed.

Lemma assoc_gt k k' l : all_gt l k' → k <= k' → assoc k l = None.
Proof.
  intros Hl Hk. induction Hl as [|[k1 d] l Hx _ IH]; [done|]. simpl in *.
  by rewrite (proj2 (Z.eqb_neq k k1)) by lia.
Qed.

Lemma assoc_mid k k' d l1 l2 : k' ≠ k → assoc k' (l1 ++ (k, d) :: l2) = assoc k' (l1 ++ l2).
Proof. intros Hk. rewrite !assoc_app. simpl. by rewrite (proj2 (Z.eqb_neq k' k)). Qed.

Lemma assoc_here k d l1 l2 : all_lt l1 k → assoc k (l1 ++ (k, d) :: l2) = Some d.
Proof. intros Hl. rewrite assoc_app, (assoc_lt k k) by done. simpl. by rewrite Z.eqb_refl. Qed.

Lemma lookup_elements t k : ordered (elements t) → trbt_lookup32 t k = assoc k (elements t).
Proof.
  induction t as [|c l IHl k' d r IHr]; [done|]. simpl. rewrite ordered_mid.
  intros (Hl & Hr & Hlt & Hgt). rewrite assoc_app. simpl.
  destruct (Z.eqb_spec k k') as [->|Hne].
  - by rewrite (assoc_lt k' k').
  - destruct (Z.ltb_spec k k').
    + rewrite IHl by done. destruct (assoc k (elements l)) eqn:E; [done|].
      by rewrite (assoc_gt k k' (elements r)) by (done || lia).
    + rewrite IHr by done. by rewrite (assoc_lt k k' (elements l)) by (done || lia).
Qed.

End order.

(** ** The colours *)

Section colour.
Context {V : Type}.
Implicit Types (t : trbt_node V) (f : frame V) (p : list (frame V)).

(** [wf c n t]: [t] has colour [c] and [n] black nodes on every way down, and no
    red node of it has a red child. *)
Inductive wf : rb_color → nat → trbt_node V → Prop :=
  | wf_null : wf TRBT_BLACK 0 NULL
  | wf_red n l k d r :
      wf TRBT_BLACK n l → wf TRBT_BLACK n r → wf TRBT_RED n (NODE TRBT_RED l k d r)
  | wf_black cl cr n l k d r :
      wf cl n l → wf cr n r → wf TRBT_BLACK (S n) (NODE TRBT_BLACK l k d r).

(** [wf_path c n p]: a tree of colour [c] and black height [n] fits below [p]. *)
Inductive wf_path : rb_color → nat → list (frame V) → Prop :=
  | wf_root n : wf_path TRBT_BLACK n []
  | wf_path_red s n k d t p :
      wf TRBT_BLACK n t → wf_path TRBT_RED n p →
      wf_path TRBT_BLACK n (mk_frame s TRBT_RED k d t :: p)
  | wf_path_black c c' s n k d t p :
      wf c' n t → wf_path TRBT_BLACK (S n) p →
      wf_path c n (mk_frame s TRBT_BLACK k d t :: p).

(** A whole tree. *)
Definition rb_tree t : Prop := ∃ n, wf TRBT_BLACK n t.

Lemma wf_color c n t : wf c n t → trbt_get_color t = c.
Proof. by destruct 1. Qed.

Lemma wf_plug c n t p : wf c n t → wf_path c n p → rb_tree (plug t p).
Proof.
  intros Ht Hp. revert t Ht. induction Hp as [n|s n k d t1 p H1 Hp IH|c c' s n k d t1 p H1 Hp IH];
    intros t Ht; simpl; [by exists n| |]; apply IH; destruct s; by econstructor.
Qed.

(** What a routine that rebalances has to give: a whole tree with the bindings
    [l]. *)
Definition rebuilt (o : option (trbt_node V)) (l : list (Z * V)) : Prop :=
  ∃ t', o = Some t' ∧ rb_tree t' ∧ elements t' = l.

Lemma rebuilt_plug c n t p l :
  wf c n t → wf_path c n p → l = before p ++ elements t ++ after p →
  rebuilt (Some (plug t p)) l.
Proof.
  intros Ht Hp ->. exists (plug t p). split_and!; [done|by eapply wf_plug|apply elements_plug].
Qed.

Ltac solve_wf :=
  repeat first [eassumption | eapply wf_red | eapply wf_black | eapply wf_null].

Ltac solve_elements :=
  unfold link; simpl; repeat (rewrite <- app_assoc; simpl); rewrite ?app_nil_r; done.

Lemma insert_case4_wf n t s1 k1 d1 t1 s2 k2 d2 t2 :
  wf TRBT_RED n t → wf TRBT_BLACK n t1 → wf TRBT_BLACK n t2 →
  ∃ t', trbt_insert_case4 t (mk_frame s1 TRBT_RED k1 d1 t1) (mk_frame s2 TRBT_BLACK k2 d2 t2) = Some t'
  ∧ wf TRBT_BLACK (S n) t'
  ∧ elements t' = elements (link (mk_frame s2 TRBT_BLACK k2 d2 t2)
                             (link (mk_frame s1 TRBT_RED k1 d1 t1) t)).
Proof.
  intros Ht H1 H2. inversion Ht as [|? l k d r Hl Hr|]; subst.
  destruct s1, s2; (eexists; split; [reflexivity|split]; simpl;
    [solve_wf|solve_elements]).
Qed.

Lemma insert_case1_wf m : ∀ p n t,
  (length p ≤ m)%nat → wf TRBT_RED n t → wf_path TRBT_BLACK n p →
  rebuilt (trbt_insert_case1 t p) (before p ++ elements t ++ after p).
Proof.
  induction m as [|m IH]; intros p n t Hm Ht Hp;
    inversion Hp as [|s1 ? k1 d1 t1 p1 H1 Hp1|c c1 s1 ? k1 d1 t1 p1 H1 Hp1]; subst;
    simpl in Hm; try lia.
  1,2: inversion Ht; subst; eexists; (split_and!; [reflexivity| |]);
    [eexists; by econstructor|simpl; by rewrite app_nil_r].
  - inversion Hp1 as [| |c c2 s2 ? k2 d2 t2 p2 H2 Hp2]; subst. simpl in Hm.
    simpl trbt_insert_case1. unfold insert_case2, insert_case3. simpl fr_color. cbv iota.
    simpl fr_other. destruct c2.
    + inversion H2 as [|? l k d r Hl Hr|]; subst.
      destruct (IH p2 (S n) (link (mk_frame s2 TRBT_RED k2 d2 (NODE TRBT_BLACK l k d r))
        (link (mk_frame s1 TRBT_BLACK k1 d1 t1) t))) as (t' & E & Hw & El); [lia| |done|].
      { destruct s1, s2; simpl; solve_wf. }
      exists t'. split_and!; [done..|]. rewrite El. destruct s1, s2; solve_elements.
    + destruct (insert_case4_wf n t s1 k1 d1 t1 s2 k2 d2 t2) as (t' & E & Hw & El); [done..|].
      rewrite E. assert (rebuilt (Some (plug t' p2)) (before p2 ++ elements t' ++ after p2)) as Hr
        by (by eapply rebuilt_plug).
      replace (before _ ++ elements t ++ after _) with (before p2 ++ elements t' ++ after p2);
        [by inversion H2; subst|]. rewrite El. destruct s1, s2; solve_elements.
  - eapply (rebuilt_plug TRBT_RED n _ (mk_frame s1 TRBT_BLACK k1 d1 t1 :: p1)); [done| |done].
    by econstructor.
Qed.

(** ** Insertion is insertion in the map *)

(** What inserting a binding does to the list of bindings. *)
Definition inserted (l : list (Z * V)) (key : Z) (old : option V) (new : V)
    (l' : list (Z * V)) : Prop :=
  ∃ l1 l2, l = l1 ++ match old with Some d => [(key, d)] | None => [] end ++ l2
  ∧ l' = l1 ++ (key, new) :: l2 ∧ all_lt l1 key ∧ all_gt l2 key.

Lemma wf_down c n c0 l k d r p :
  wf c n (NODE c0 l k d r) → wf_path c n p →
  ∃ cl cr m, wf cl m l ∧ wf cr m r ∧ wf_path cl m (mk_frame LEFT c0 k d r :: p)
  ∧ wf_path cr m (mk_frame RIGHT c0 k d l :: p) ∧ ∀ k' d', wf c n (NODE c0 l k' d' r).
Proof.
  intros Ht Hp. inversion Ht; subst; eexists _, _, _; (split_and!; [eassumption..| | |]);
    try (by econstructor); intros; by econstructor.
Qed.

(** The bindings around a node of an ordered tree. *)
Lemma ordered_node c l k d r p :
  ordered (elements (plug (NODE c l k d r) p)) →
  all_lt (before p ++ elements l) k ∧ all_gt (elements r ++ after p) k.
Proof.
  rewrite elements_plug. simpl. rewrite <- app_assoc. simpl. rewrite app_assoc, ordered_mid.
  tauto.
Qed.

Lemma all_lt_mono (l : list (Z * V)) k k' : all_lt l k → k <= k' → all_lt l k'.
Proof. intros Hl Hk. eapply (Forall_impl _ _ _ Hl). intros x. simpl. lia. Qed.
Lemma all_gt_mono (l : list (Z * V)) k k' : all_gt l k → k' <= k → all_gt l k'.
Proof. intros Hl Hk. eapply (Forall_impl _ _ _ Hl). intros x. simpl. lia. Qed.

Lemma before_right c k d l r p key :
  ordered (elements (plug (NODE c l k d r) p)) → k < key →
  all_lt (before (mk_frame RIGHT c k d l :: p)) key.
Proof.
  intros Ho Hk. apply ordered_node in Ho as [Ho _]. simpl. rewrite app_assoc.
  apply Forall_app. split; [apply (all_lt_mono _ k); [done|lia]|]. by repeat constructor.
Qed.

Lemma after_left c k d l r p key :
  ordered (elements (plug (NODE c l k d r) p)) → key < k →
  all_gt (after (mk_frame LEFT c k d r :: p)) key.
Proof.
  intros Ho Hk. apply ordered_node in Ho as [_ Ho]. simpl. constructor; [done|].
  apply (all_gt_mono _ k); [done|lia].
Qed.

Lemma insert_walk_wf t : ∀ c n p key cb new,
  wf c n t → wf_path c n p →
  ordered (elements (plug t p)) → all_lt (before p) key → all_gt (after p) key →
  cb (assoc key (elements (plug t p))) = Some new →
  ∃ t' old, insert_walk t p key cb = Some (old, t') ∧ rb_tree t'
  ∧ inserted (elements (plug t p)) key old new (elements t').
Proof.
  induction t as [|c0 l IHl k d r IHr]; intros c n p key cb new Ht Hp Ho Hlt Hgt Hcb; simpl.
  - rewrite elements_plug, assoc_app, (assoc_lt key key), (assoc_gt key key) in Hcb by done.
    inversion Ht; subst. rewrite Hcb. simpl.
    destruct (insert_case1_wf (length p) p 0 (NODE TRBT_RED NULL key new NULL))
      as (t' & E & Hw & El); [done|solve_wf|done|]. rewrite E.
    exists t', None. split_and!; [done..|]. exists (before p), (after p).
    rewrite elements_plug, El. split_and!; solve_elements || done.
  - destruct (wf_down _ _ _ _ _ _ _ _ Ht Hp) as (cl & cr & m & Hl & Hr & Hpl & Hpr & Hn).
    destruct (Z.eqb_spec key k) as [->|Hne]; [|destruct (Z.ltb_spec key k)].
    + apply ordered_node in Ho as [H1 H2].
      assert (elements (plug (NODE c0 l k d r) p)
        = (before p ++ elements l) ++ (k, d) :: elements r ++ after p) as El
        by (rewrite elements_plug; solve_elements).
      rewrite El, assoc_here in Hcb by done. rewrite Hcb. simpl.
      exists (plug (NODE c0 l k new r) p), (Some d). split_and!; [done|by eapply wf_plug|].
      exists (before p ++ elements l), (elements r ++ after p). rewrite !elements_plug.
      split_and!; solve_elements || done.
    + apply (IHl cl m _ key cb new Hl Hpl); [done| |by apply after_left with (l := l)|done].
      simpl. by rewrite app_nil_r.
    + apply (IHr cr m _ key cb new Hr Hpr); [done| |done|done].
      apply (before_right _ _ _ _ r); [done|lia].
Qed.

Lemma insert_root_wf t key cb new :
  rb_tree t → ordered (elements t) → cb (assoc key (elements t)) = Some new →
  ∃ t' old, insert_root t key cb = Some (old, t') ∧ rb_tree t'
  ∧ inserted (elements t) key old new (elements t').
Proof.
  intros [n Hn] Ho Hcb. destruct t as [|c0 l k d r].
  - simpl in *. rewrite Hcb. simpl. eexists _, None. split_and!; [done|eexists; solve_wf|].
    exists [], []. by split_and!; [done|done|constructor|constructor].
  - apply (insert_walk_wf _ TRBT_BLACK n [] key cb new);
      [done|constructor|done|constructor..|done].
Qed.

Lemma inserted_spec (l : list (Z * V)) key old new l' :
  ordered l → inserted l key old new l' →
  ordered l' ∧ old = assoc key l ∧ ∀ k, assoc k l' = if k =? key then Some new else assoc k l.
Proof.
  intros Ho (l1 & l2 & -> & -> & Hlt & Hgt).
  assert (ordered l1 ∧ ordered l2) as [H1 H2].
  { unfold ordered in *. rewrite !StronglySorted_app in Ho. tauto. }
  split_and!; [by apply ordered_mid| |].
  - destruct old as [d|]; simpl; [by rewrite assoc_here|].
    by rewrite assoc_app, (assoc_lt key key), (assoc_gt key key).
  - intros k. destruct (Z.eqb_spec k key) as [->|Hk]; [by rewrite assoc_here|].
    rewrite assoc_mid by done. destruct old as [d|]; simpl; [by rewrite assoc_mid|done].
Qed.

(** ** Deletion *)

(** The black height of a node of colour [c] whose children have height [n]. *)
Definition up (c : rb_color) (n : nat) : nat :=
  match c with TRBT_RED => n | TRBT_BLACK => S n end.

(** A node can take the place of another with the same height and colour, or a
    black one of a red one. *)
Lemma wf_path_black_ok c n p : wf_path c n p → wf_path TRBT_BLACK n p.
Proof. inversion 1; subst; by econstructor. Qed.

(** [t] has one black node less than its sibling [NODE TRBT_BLACK l k2 d2 r]; the
    child of the sibling that is away from [t] is red. *)
Lemma delete_case6_wf n t s c k d l k2 d2 r cl cr p :
  wf TRBT_BLACK n t → wf cl n l → wf cr n r → match s with LEFT => cr | RIGHT => cl end = TRBT_RED →
  wf_path c (up c (S n)) p →
  let f := mk_frame s c k d (NODE TRBT_BLACK l k2 d2 r) in
  rebuilt (trbt_delete_case6 t f p) (before (f :: p) ++ elements t ++ after (f :: p)).
Proof.
  intros Ht Hl Hr Hred Hp f. subst f. destruct s; subst.
  - inversion Hr; subst. unfold trbt_delete_case6. simpl.
    eapply rebuilt_plug; [|exact Hp|solve_elements]. destruct c; simpl; solve_wf.
  - inversion Hl; subst. unfold trbt_delete_case6. simpl.
    eapply rebuilt_plug; [|exact Hp|solve_elements]. destruct c; simpl; solve_wf.
Qed.

Lemma delete_case5_wf n t s c k d l k2 d2 r cl cr p :
  wf TRBT_BLACK n t → wf cl n l → wf cr n r → cl = TRBT_RED ∨ cr = TRBT_RED →
  wf_path c (up c (S n)) p →
  let f := mk_frame s c k d (NODE TRBT_BLACK l k2 d2 r) in
  rebuilt (trbt_delete_case5 t f p) (before (f :: p) ++ elements t ++ after (f :: p)).
Proof.
  intros Ht Hl Hr Hred Hp f. unfold trbt_delete_case5. simpl.
  rewrite (wf_color _ _ _ Hl), (wf_color _ _ _ Hr).
  destruct s, cl, cr; try (by destruct Hred); subst f;
    try (by eapply delete_case6_wf).
  - inversion Hl as [|? a k3 d3 b Ha Hb|]; subst. simpl.
    destruct (delete_case6_wf n t LEFT c k d a k3 d3 (NODE TRBT_RED b k2 d2 r)
      TRBT_BLACK TRBT_RED p) as (t' & E & Hw & El); [done..|solve_wf|done|done|].
    exists t'. split_and!; [done..|]. rewrite El. solve_elements.
  - inversion Hr as [|? a k3 d3 b Ha Hb|]; subst. simpl.
    destruct (delete_case6_wf n t RIGHT c k d (NODE TRBT_RED l k2 d2 a) k3 d3 b
      TRBT_RED TRBT_BLACK p) as (t' & E & Hw & El); [done|solve_wf|done|done|done|].
    exists t'. split_and!; [done..|]. rewrite El. solve_elements.
Qed.

Lemma delete_case4_wf n t s c k d l k2 d2 r cl cr p :
  wf TRBT_BLACK n t → wf cl n l → wf cr n r →
  c = TRBT_RED ∨ cl = TRBT_RED ∨ cr = TRBT_RED →
  wf_path c (up c (S n)) p →
  let f := mk_frame s c k d (NODE TRBT_BLACK l k2 d2 r) in
  rebuilt (trbt_delete_case4 t f p) (before (f :: p) ++ elements t ++ after (f :: p)).
Proof.
  intros Ht Hl Hr Hred Hp f. unfold trbt_delete_case4. simpl.
  rewrite (wf_color _ _ _ Hl), (wf_color _ _ _ Hr).
  assert (c = TRBT_RED ∧ cl = TRBT_BLACK ∧ cr = TRBT_BLACK ∨ cl = TRBT_RED ∨ cr = TRBT_RED)
    as [(-> & -> & ->)|Hcase].
  { destruct c, cl, cr; destruct Hred as [?|[?|?]]; try done; auto. }
  - subst f. simpl in *. change (plug _ p) with
      (plug t (mk_frame s TRBT_BLACK k d (NODE TRBT_RED l k2 d2 r) :: p)).
    eapply rebuilt_plug; [exact Ht| |destruct s; solve_elements].
    econstructor; [solve_wf|]. by apply wf_path_black_ok in Hp.
  - assert (rebuilt (trbt_delete_case5 t f p) (before (f :: p) ++ elements t ++ after (f :: p)))
      as H5 by (by eapply delete_case5_wf).
    destruct c, cl, cr; try done; by destruct Hcase.
Qed.

Lemma delete_case3_wf fuel n t s c k d l k2 d2 r cl cr p :
  (∀ p n t, (length p ≤ fuel)%nat → wf TRBT_BLACK n t → wf_path TRBT_BLACK (S n) p →
     rebuilt (trbt_delete_case1 fuel t p) (before p ++ elements t ++ after p)) →
  c = TRBT_RED ∨ (length p ≤ fuel)%nat →
  wf TRBT_BLACK n t → wf cl n l → wf cr n r → wf_path c (up c (S n)) p →
  let f := mk_frame s c k d (NODE TRBT_BLACK l k2 d2 r) in
  rebuilt (delete_case3 (trbt_delete_case1 fuel) t f p)
    (before (f :: p) ++ elements t ++ after (f :: p)).
Proof.
  intros IH Hfuel Ht Hl Hr Hp f. unfold delete_case3. simpl.
  rewrite (wf_color _ _ _ Hl), (wf_color _ _ _ Hr).
  destruct (decide (c = TRBT_BLACK ∧ cl = TRBT_BLACK ∧ cr = TRBT_BLACK)) as [(-> & -> & ->)|Hc].
  - subst f. destruct Hfuel as [?|Hfuel]; [done|]. simpl in Hp.
    destruct (IH p (S n) (link (mk_frame s TRBT_BLACK k d (NODE TRBT_RED l k2 d2 r)) t))
      as (t' & E & Hw & El); [done|destruct s; simpl; solve_wf|done|].
    exists t'. split_and!; [done..|]. rewrite El. destruct s; solve_elements.
  - assert (rebuilt (trbt_delete_case4 t f p) (before (f :: p) ++ elements t ++ after (f :: p)))
      as H4.
    { eapply delete_case4_wf; try eassumption. destruct c, cl, cr; auto. by destruct Hc. }
    destruct c, cl, cr; try exact H4. by destruct Hc.
Qed.

Lemma delete_case1_wf fuel : ∀ p n t,
  (length p ≤ fuel)%nat → wf TRBT_BLACK n t → wf_path TRBT_BLACK (S n) p →
  rebuilt (trbt_delete_case1 fuel t p) (before p ++ elements t ++ after p).
Proof.
  induction fuel as [|fuel IH]; intros p n t Hf Ht Hp;
    inversion Hp as [|s1 ? k1 d1 t1 p1 H1 Hp1|c c1 s1 ? k1 d1 t1 p1 H1 Hp1]; subst;
    simpl in Hf; try lia.
  1,2: exists t; split_and!; [done|by eexists|solve_elements].
  - inversion H1 as [| |cl cr ? l k2 d2 r Hl Hr]; subst. simpl trbt_delete_case1.
    unfold delete_case2. simpl. eapply delete_case3_wf; try eassumption; by left.
  - simpl trbt_delete_case1. unfold delete_case2. simpl. destruct c1.
    + inversion H1 as [|? l k2 d2 r Hl Hr|]; subst. destruct s1.
      * inversion Hl as [| |cl cr ? ll kl dl rl Hll Hrl]; subst.
        destruct (delete_case3_wf fuel n t LEFT TRBT_RED k1 d1 ll kl dl rl cl cr
          (mk_frame LEFT TRBT_BLACK k2 d2 r :: p1)) as (t' & E & Hw & El);
          [done|by left|done..|by econstructor|].
        exists t'. split_and!; [done..|]. rewrite El. solve_elements.
      * inversion Hr as [| |cl cr ? ll kl dl rl Hll Hrl]; subst.
        destruct (delete_case3_wf fuel n t RIGHT TRBT_RED k1 d1 ll kl dl rl cl cr
          (mk_frame RIGHT TRBT_BLACK k2 d2 l :: p1)) as (t' & E & Hw & El);
          [done|by left|done..|by econstructor|].
        exists t'. split_and!; [done..|]. rewrite El. solve_elements.
    + inversion H1 as [| |cl cr ? l k2 d2 r Hl Hr]; subst.
      eapply delete_case3_wf; try eassumption; right; lia.
Qed.

(** A node of colour [c] with at most the one child [t] is unlinked. *)
Lemma delete_unlink_wf c n t p :
  match c with TRBT_RED => wf TRBT_BLACK n t | TRBT_BLACK => ∃ c', wf c' n t end →
  wf_path c (up c n) p →
  rebuilt (delete_unlink c t p) (before p ++ elements t ++ after p).
Proof.
  destruct c; simpl; intros Ht Hp.
  - eapply rebuilt_plug; [exact Ht| |done]. by eapply wf_path_black_ok.
  - destruct Ht as [c' Ht]. unfold delete_unlink. rewrite (wf_color _ _ _ Ht). destruct c'.
    + inversion Ht; subst. simpl. eapply rebuilt_plug; [|exact Hp|done]. solve_wf.
    + by apply (delete_case1_wf _ _ n).
Qed.

(** What [delete_unlink_wf] asks of a node with the one child [t]. *)
Definition one_child (c : rb_color) (n : nat) t : Prop :=
  match c with TRBT_RED => wf TRBT_BLACK n t | TRBT_BLACK => ∃ c', wf c' n t end.

Lemma node_left_only c0 n c l k d p :
  wf c0 n (NODE c l k d NULL) → wf_path c0 n p →
  ∃ m, one_child c m l ∧ wf_path c (up c m) p.
Proof.
  intros Ht Hp. inversion Ht; subst; simpl; eexists; (split; [|eassumption]); [done|by eexists].
Qed.

Lemma node_right_only c0 n c k d r p :
  wf c0 n (NODE c NULL k d r) → wf_path c0 n p →
  ∃ m, one_child c m r ∧ wf_path c (up c m) p.
Proof.
  intros Ht Hp. inversion Ht; subst; simpl; eexists; (split; [|eassumption]); [done|by eexists].
Qed.

(** The predecessor: the last binding of the subtree. *)
Lemma rightmost_wf r : ∀ c0 n c l k d p c1 l1 k1 d1 p1,
  wf c0 n (NODE c l k d r) → wf_path c0 n p →
  rightmost c l k d r p = (c1, l1, k1, d1, p1) →
  (∃ m, one_child c1 m l1 ∧ wf_path c1 (up c1 m) p1)
  ∧ before p1 ++ elements l1 ++ [(k1, d1)] = before p ++ elements (NODE c l k d r)
  ∧ after p1 = after p.
Proof.
  induction r as [|c' l' _ k' d' r' IH]; intros c0 n c l k d p c1 l1 k1 d1 p1 Ht Hp E; simpl in E.
  - injection E as -> -> -> -> ->. split_and!; [by eapply node_left_only|solve_elements|done].
  - destruct (wf_down _ _ _ _ _ _ _ _ Ht Hp) as (cl & cr & m & _ & Hr & _ & Hpr & _).
    destruct (IH _ _ _ _ _ _ _ _ _ _ _ _ Hr Hpr E) as (H1 & H2 & H3).
    split_and!; [done| |done]. rewrite H2. solve_elements.
Qed.

Lemma rightmost_path r : ∀ c l k d p p',
  (rightmost c l k d r p).1 = (rightmost c l k d r p').1.
Proof. induction r as [|c' l' _ k' d' r' IH]; intros; simpl; [done|apply IH]. Qed.

Lemma wf_path_data c n s c' k d k' d' t p :
  wf_path c n (mk_frame s c' k d t :: p) → wf_path c n (mk_frame s c' k' d' t :: p).
Proof. inversion 1; subst; by econstructor. Qed.

Lemma delete_node_wf c0 n c l k d r p :
  wf c0 n (NODE c l k d r) → wf_path c0 n p →
  rebuilt (delete_node c l k d r p) ((before p ++ elements l) ++ elements r ++ after p).
Proof.
  intros Ht Hp. destruct l as [|cl ll kl dl rl].
  - assert (delete_node c NULL k d r p = delete_unlink c r p) as -> by (by destruct r).
    destruct (node_right_only _ _ _ _ _ _ _ Ht Hp) as (m & Hm & Hp').
    simpl. rewrite app_nil_r. by apply (delete_unlink_wf _ m).
  - destruct r as [|cr lr kr dr rr].
    + destruct (node_left_only _ _ _ _ _ _ _ Ht Hp) as (m & Hm & Hp').
      simpl delete_node. rewrite <- app_assoc. by apply (delete_unlink_wf _ m).
    + destruct (wf_down _ _ _ _ _ _ _ _ Ht Hp) as (c1 & c2 & m & Hl & Hr & Hpl & _ & _).
      simpl delete_node. set (r := NODE cr lr kr dr rr) in *.
      destruct (rightmost cl ll kl dl rl []) as [[[[c3 l3] k3] d3] p3] eqn:E3.
      apply (wf_path_data _ _ _ _ _ _ k3 d3) in Hpl.
      pose proof (rightmost_path rl cl ll kl dl [] (mk_frame LEFT c k3 d3 r :: p)) as Hpath.
      destruct (rightmost cl ll kl dl rl (mk_frame LEFT c k3 d3 r :: p))
        as [[[[c4 l4] k4] d4] p4] eqn:E4.
      rewrite E3 in Hpath. simpl in Hpath. injection Hpath as <- <- <- <-.
      destruct (rightmost_wf _ _ _ _ _ _ _ _ _ _ _ _ _ Hl Hpl E4) as ((m' & Hm & Hp') & H2 & H3).
      destruct (delete_unlink_wf c3 m' l3 p4 Hm Hp') as (t' & E & Hw & El).
      exists t'. split_and!; [done..|]. rewrite El, H3. simpl in H2 |- *.
      rewrite app_nil_r in H2. rewrite <- H2. solve_elements.
Qed.

Lemma locate_spec t : ∀ c n p key,
  wf c n t → wf_path c n p → ordered (elements (plug t p)) →
  match locate t key p with
  | Some (c1, l1, k1, d1, r1, p1) =>
      k1 = key ∧ plug (NODE c1 l1 k1 d1 r1) p1 = plug t p
      ∧ ∃ c' m, wf c' m (NODE c1 l1 k1 d1 r1) ∧ wf_path c' m p1
  | None => trbt_lookup32 t key = None
  end.
Proof.
  induction t as [|c0 l IHl k d r IHr]; intros c n p key Ht Hp Ho; simpl; [done|].
  destruct (wf_down _ _ _ _ _ _ _ _ Ht Hp) as (cl & cr & m & Hl & Hr & Hpl & Hpr & _).
  destruct (Z.eqb_spec key k) as [->|Hne]; [by eauto 10|]. destruct (key <? k).
  - by apply (IHl cl m).
  - by apply (IHr cr m).
Qed.

(** The destructor of the node of [key] removes its binding. *)
Lemma node_destructor_wf t key :
  rb_tree t → ordered (elements t) →
  ∃ t', node_destructor t key = Some t' ∧ rb_tree t' ∧ ordered (elements t')
  ∧ ∀ k, assoc k (elements t') = if k =? key then None else assoc k (elements t).
Proof.
  intros [n Hn] Ho. unfold node_destructor.
  pose proof (locate_spec t TRBT_BLACK n [] key Hn ltac:(constructor) Ho) as Hloc.
  destruct (locate t key []) as [[[[[[c l] k] d] r] p]|].
  - destruct Hloc as (-> & Hplug & c' & m & Hw & Hp). simpl in Hplug.
    destruct (delete_node_wf _ _ _ _ _ _ _ _ Hw Hp) as (t' & E & Hrb & El).
    assert (elements t = (before p ++ elements l) ++ (key, d) :: elements r ++ after p) as Et
      by (rewrite <- Hplug, elements_plug; solve_elements).
    rewrite Et in Ho |- *. pose proof Ho as Ho'. apply ordered_mid in Ho' as (_ & _ & Hlt & Hgt).
    exists t'. rewrite El. split_and!; [done..|by eapply ordered_drop|].
    intros k. destruct (Z.eqb_spec k key) as [->|Hk]; [|by rewrite assoc_mid].
    by rewrite assoc_app, (assoc_lt key key), (assoc_gt key key).
  - rewrite lookup_elements in Hloc by done. exists t. split_and!; [done|by eexists|done|].
    intros k. by destruct (Z.eqb_spec k key) as [->|].
Qed.

End colour.

(** ** A tree is a finite map *)

Definition trbt_ok {V} (t : trbt_node V) : Prop := rb_tree t ∧ ordered (elements t).

Section map.
Context {V : Type}.
Implicit Types (t : trbt_node V).

Lemma insert_root_map t key cb new :
  trbt_ok t → cb (trbt_lookup32 t key) = Some new →
  ∃ t', insert_root t key cb = Some (trbt_lookup32 t key, t') ∧ trbt_ok t'
  ∧ ∀ k, trbt_lookup32 t' k = if k =? key then Some new else trbt_lookup32 t k.
Proof.
  intros [Hrb Ho] Hcb. rewrite (lookup_elements t) in Hcb |- * by done.
  destruct (insert_root_wf t key cb new Hrb Ho Hcb) as (t' & old & E & Hrb' & Hins).
  apply inserted_spec in Hins as (Ho' & -> & Hk); [|done].
  exists t'. split_and!; [done..|]. intros k. by rewrite !lookup_elements.
Qed.

(** [trbt_insert32] on a well-formed tree never dereferences NULL; it
    returns the data the key had before, the tree is well-formed again (colours
    and order of the keys), and looking a key up gives the new data for the key
    inserted and what it gave before for every other key. *)
Theorem trbt_insert32_correct t key data (Hok : trbt_ok t) :
  ∃ t', trbt_insert32 t key data = Some (trbt_lookup32 t key, t') ∧ trbt_ok t'
  ∧ ∀ k, trbt_lookup32 t' k = if k =? key then Some data else trbt_lookup32 t k.
Proof. by apply (insert_root_map t key (λ _, Some data) data). Qed.

(** C14: removing the node of a key (its data was freed) never dereferences
    NULL, keeps the tree well-formed, and removes exactly the binding of that
    key, whichever of the rebalancing cases applies. *)
Theorem node_destructor_correct t key (Hok : trbt_ok t) :
  ∃ t', node_destructor t key = Some t' ∧ trbt_ok t'
  ∧ ∀ k, trbt_lookup32 t' k = if k =? key then None else trbt_lookup32 t k.
Proof.
  destruct Hok as [Hrb Ho].
  destruct (node_destructor_wf t key Hrb Ho) as (t' & E & Hrb' & Ho' & Hk).
  exists t'. split_and!; [done..|]. intros k. by rewrite !lookup_elements.
Qed.

(** The length of the longest way down. *)
Fixpoint height t : nat :=
  match t with NULL => 0 | NODE _ l _ _ r => S (height l `max` height r) end.

Lemma wf_height c n t : wf c n t → (height t ≤ 2 * n + match c with TRBT_RED => 1 | _ => 0 end)%nat.
Proof.
  induction 1 as [|n l k d r _ IHl _ IHr|cl cr n l k d r _ IHl _ IHr]; simpl; [lia|lia|].
  destruct cl, cr; lia.
Qed.

Lemma wf_size c n t : wf c n t → (2 ^ n ≤ length (elements t) + 1)%nat.
Proof.
  induction 1 as [|n l k d r _ IHl _ IHr|cl cr n l k d r _ IHl _ IHr]; simpl; [done| |];
    rewrite length_app; simpl; lia.
Qed.

(** the tree is balanced: a walk down a well-formed tree with [m] entries
    meets at most 2 log2 (m + 1) nodes. *)
Theorem trbt_height_bound t (Hok : trbt_ok t) :
  (height t ≤ 2 * Nat.log2 (length (elements t) + 1))%nat.
Proof.
  destruct Hok as [[n Hn] _]. pose proof (wf_height _ _ _ Hn) as Hh.
  pose proof (wf_size _ _ _ Hn). cbv iota in Hh.
  assert (n ≤ Nat.log2 (length (elements t) + 1))%nat; [|lia].
  by apply Nat.log2_le_pow2; [lia|].
Qed.

End map.

(** ** Arrays *)

Section arrays.
Context {V : Type}.

(** Every subtree is well-formed, and not empty: an empty one is freed. *)
Fixpoint array_ok (n : nat) : trbt_array n V → Prop :=
  match n with
  | O => λ _, True
  | S n => λ t, trbt_ok t ∧ elements t ≠ [] ∧ Forall (λ e, array_ok n e.2) (elements t)
  end.

(** The same for the root, which may be empty. *)
Definition array_root_ok (n : nat) (t : trbt_array (S n) V) : Prop :=
  trbt_ok t ∧ Forall (λ e, array_ok n e.2) (elements t).

(** The bindings in the order of the traversal. *)
Fixpoint array_elements (n : nat) : trbt_array n V → list (list Z * V) :=
  match n with
  | O => λ d, [([], d)]
  | S n => λ t, e ← elements t; (λ x, (e.1 :: x.1, x.2)) <$> array_elements n e.2
  end.

(** Lookup in the bindings of a level is a member of the list. *)
Lemma assoc_elem (A : Type) k (d : A) l : assoc k l = Some d → (k, d) ∈ l.
Proof.
  induction l as [|[k' d'] l IH]; simpl; [done|]. destruct (Z.eqb_spec k k') as [->|].
  - intros [= ->]. constructor.
  - intros E. constructor. by apply IH.
Qed.

Lemma elem_assoc (A : Type) k (d : A) l : ordered l → (k, d) ∈ l → assoc k l = Some d.
Proof.
  intros Ho (l1 & l2 & ->)%list_elem_of_split. apply ordered_mid in Ho as (_ & _ & Hlt & _).
  by apply assoc_here.
Qed.

Lemma lookup_elem (A : Type) (t : trbt_node A) k d :
  trbt_ok t → trbt_lookup32 t k = Some d ↔ (k, d) ∈ elements t.
Proof.
  intros [_ Ho]. rewrite lookup_elements by done. split; [apply assoc_elem|by apply elem_assoc].
Qed.

Lemma array_lookup_ok n (t : trbt_node (trbt_array n V)) k sub :
  trbt_ok t → Forall (λ e, array_ok n e.2) (elements t) →
  trbt_lookup32 t k = Some sub → array_ok n sub.
Proof.
  intros Hok Hall Hk. apply lookup_elem in Hk; [|done].
  rewrite Forall_forall in Hall. by apply (Hall (k, sub)).
Qed.

Lemma array_root_lookup n (t : trbt_node (trbt_array n V)) :
  trbt_ok t → (∀ k sub, trbt_lookup32 t k = Some sub → array_ok n sub) → array_root_ok n t.
Proof.
  intros Hok Hall. split; [done|]. apply Forall_forall. intros [k sub] Hin.
  apply (Hall k). by apply lookup_elem.
Qed.

Lemma lookup_nonempty (A : Type) (t : trbt_node A) k d : trbt_lookup32 t k = Some d → elements t ≠ [].
Proof. destruct t; simpl; [done|]. intros _ E. by apply app_eq_nil in E as [_ ?]. Qed.

(** Looking a key up in the data of a level, which may be missing. *)
Definition lookup_data (n : nat) (key : list Z) (o : option (trbt_array n V)) : option V :=
  o ≫= trbt_lookuparray32 n key.

Lemma nil_root_ok n : array_root_ok n (NULL : trbt_node (trbt_array n V)).
Proof. split; [|constructor]. split; [exists 0%nat; constructor|constructor]. Qed.

Lemma array_insert_ok n : ∀ key o cb new,
  length key = n → (∀ sub, o = Some sub → array_ok n sub) →
  cb (lookup_data n key o) = Some new →
  ∃ t', array_insert_callback n key cb o = Some t' ∧ array_ok n t'
  ∧ ∀ k, length k = n →
      trbt_lookuparray32 n k t' = if bool_decide (k = key) then Some new else lookup_data n k o.
Proof.
  induction n as [|n IH]; intros key o cb new Hlen Hsub Hcb.
  - apply nil_length_inv in Hlen as ->. simpl in *. exists new. split_and!; [|done|].
    + rewrite <- Hcb. by destruct o.
    + intros k ->%nil_length_inv. by rewrite bool_decide_eq_true_2.
  - destruct key as [|k0 key]; [done|]. injection Hlen as Hlen. simpl.
    rewrite skipn_O. set (t := default NULL o).
    assert (array_root_ok n t) as [Hok Hall].
    { subst t. destruct o as [t|]; simpl; [|apply nil_root_ok].
      by destruct (Hsub t eq_refl) as (? & _ & ?). }
    assert (∀ k, lookup_data (S n) k o
      = lookup_data n (drop 1 k) (trbt_lookup32 t (nth 0 k 0))) as Hdata
      by (intros k; subst t; by destruct o).
    destruct (IH key (trbt_lookup32 t k0) cb new) as (sub' & Esub & Hsub' & Hk); [done|..].
    { intros sub. by apply array_lookup_ok. }
    { by rewrite <- Hcb, Hdata. }
    destruct (insert_root_map t k0 (array_insert_callback n key cb) sub' Hok Esub)
      as (t' & E & Hok' & Hl').
    exists t'. unfold trbt_insert32_callback. rewrite E. split; [done|]. split.
    + split; [done|]. split; [by eapply lookup_nonempty; rewrite Hl', Z.eqb_refl|].
      apply array_root_lookup; [done|]. intros k sub. rewrite Hl'.
      destruct (k =? k0); [by intros [= <-]|by apply array_lookup_ok].
    + intros k Hkl. destruct k as [|k1 k]; [done|]. injection Hkl as Hkl.
      rewrite Hdata. simpl. rewrite skipn_O, Hl'. destruct (Z.eqb_spec k1 k0) as [->|Hne]; simpl.
      * rewrite (Hk k Hkl). by rewrite (bool_decide_ext (k0 :: k = k0 :: key) (k = key)) by naive_solver.
      * by rewrite bool_decide_eq_false_2 by congruence.
Qed.

Lemma insertarray_ok n (t : trbt_array (S n) V) key cb new :
  array_root_ok n t → length key = S n →
  cb (trbt_lookuparray32 (S n) key t) = Some new →
  ∃ t', trbt_insertarray32_callback n t key cb = Some t' ∧ array_root_ok n t'
  ∧ ∀ k, length k = S n →
      trbt_lookuparray32 (S n) k t'
      = if bool_decide (k = key) then Some new else trbt_lookuparray32 (S n) k t.
Proof.
  intros Hok Hlen Hcb.
  set (o := match t with NULL => None | _ => Some t end : option (trbt_array (S n) V)).
  assert (∀ k, lookup_data (S n) k o = trbt_lookuparray32 (S n) k t) as Ho
    by (intros k; by destruct t).
  destruct (array_insert_ok (S n) key o cb new) as (t' & E & Hok' & Hk); [done|..].
  - intros sub E. destruct Hok as [Hok Hall]. destruct t; [done|]. injection E as <-.
    split; [done|]. split; [|done]. intros E%app_eq_nil. by destruct E.
  - by rewrite Ho.
  - exists t'. split_and!.
    + rewrite <- E. unfold trbt_insertarray32_callback. simpl. by destruct t.
    + by destruct Hok' as (? & _ & ?).
    + intros k Hl. by rewrite (Hk k Hl), Ho.
Qed.

(** [trbt_insertarray32_callback] on well-formed nested trees calls the
    callback with the data of the key (or NULL) and files its result under that
    key; every other key of the same length keeps its data. *)
Theorem trbt_insertarray32_correct n (t : trbt_array (S n) V) key cb new
    (Hok : array_root_ok n t) (Hlen : length key = S n)
    (Hcb : cb (trbt_lookuparray32 (S n) key t) = Some new) :
  ∃ t', trbt_insertarray32_callback n t key cb = Some t' ∧ array_root_ok n t'
  ∧ ∀ k, length k = S n →
      trbt_lookuparray32 (S n) k t'
      = if bool_decide (k = key) then Some new else trbt_lookuparray32 (S n) k t.
Proof. by apply insertarray_ok. Qed.

(** Calling the callback on the data of a list, until it returns non-zero. *)
Fixpoint visit {S : Type} (callback : S → V → S * Z) (s : S) (l : list V) : S * Z :=
  match l with
  | [] => (s, 0)
  | d :: l => let '(s, ret) := callback s d in
      if negb (ret =? 0) then (s, ret) else visit callback s l
  end.

Lemma visit_app {S : Type} (cb : S → V → S * Z) s l1 l2 :
  visit cb s (l1 ++ l2)
  = let '(s, ret) := visit cb s l1 in if negb (ret =? 0) then (s, ret) else visit cb s l2.
Proof.
  revert s. induction l1 as [|d l1 IH]; intros s; simpl; [done|].
  destruct (cb s d) as [s1 ret]. destruct (ret =? 0) eqn:E; simpl; [apply IH|by rewrite E].
Qed.

Lemma traverse_node_visit {S A : Type} (cb : S → V → S * Z) (vis : S → A → S * Z) (f : A → list V) :
  (∀ s a, vis s a = visit cb s (f a)) →
  ∀ t s, trbt_traverse_node vis s t = visit cb s (elements t ≫= λ e, f e.2).
Proof.
  intros Hv t. induction t as [|c l IHl k d r IHr]; intros s; simpl; [done|].
  rewrite bind_app, visit_app, IHl. simpl. destruct (visit cb s _) as [s1 ret].
  destruct (ret =? 0); simpl; [|done]. rewrite visit_app, Hv. destruct (visit cb s1 _) as [s2 ret2].
  destruct (ret2 =? 0); simpl; [|done]. apply IHr.
Qed.

Lemma array_data n (l : list (Z * trbt_array n V)) :
  (l ≫= λ e, (array_elements n e.2).*2)
  = (l ≫= λ e, (λ x, (e.1 :: x.1, x.2)) <$> array_elements n e.2).*2.
Proof.
  induction l as [|e l IHl]; [done|].
  rewrite !bind_cons, fmap_app, <- IHl. f_equal. by rewrite <- list_fmap_compose.
Qed.

Lemma traverse_visit {S : Type} (cb : S → V → S * Z) n : ∀ s (t : trbt_array n V),
  trbt_traversearray32 n cb s t = visit cb s (array_elements n t).*2.
Proof.
  induction n as [|n IH]; intros s t; simpl.
  - destruct (cb s t) as [s1 ret]. destruct (ret =? 0) eqn:E; [|done].
    apply Z.eqb_eq in E. by subst.
  - rewrite (traverse_node_visit cb _ (λ a, (array_elements n a).*2)) by apply IH.
    apply (f_equal (visit cb s)). apply array_data.
Qed.

(** The order of the keys: lexicographic. *)
Fixpoint lex_lt (a b : list Z) : Prop :=
  match a, b with
  | x :: a, y :: b => x < y ∨ x = y ∧ lex_lt a b
  | _, _ => False
  end.

Lemma array_elements_length n : ∀ (t : trbt_array n V) e,
  e ∈ array_elements n t → length e.1 = n.
Proof.
  induction n as [|n IH]; intros t e; simpl.
  - by intros ->%list_elem_of_singleton.
  - intros ([k sub] & (x & -> & Hx)%list_elem_of_fmap & _)%list_elem_of_bind. simpl.
    f_equal. by eapply IH.
Qed.

Lemma array_level_sorted n (l : list (Z * trbt_array n V)) :
  ordered l → (∀ e, e ∈ l → StronglySorted lex_lt (array_elements n e.2).*1) →
  StronglySorted lex_lt (l ≫= λ e, (λ x, (e.1 :: x.1, x.2)) <$> array_elements n e.2).*1.
Proof.
  induction l as [|[k sub] l IHl]; intros Ho Hall; simpl; [constructor|].
  apply StronglySorted_inv in Ho as [Ho Hk].
  rewrite fmap_app. apply StronglySorted_app. split_and!.
  - intros a b (x & -> & (y & -> & Hy)%list_elem_of_fmap)%list_elem_of_fmap
      (z & -> & ([k' sub'] & (w & -> & Hw)%list_elem_of_fmap & He)%list_elem_of_bind)%list_elem_of_fmap.
    simpl. left. rewrite Forall_forall in Hk. apply (Hk (k', sub') He).
  - rewrite <- list_fmap_compose. specialize (Hall (k, sub) ltac:(constructor)). simpl in Hall.
    induction (array_elements n sub) as [|e m IHm]; simpl; [constructor|].
    apply StronglySorted_inv in Hall as [Hm He]. constructor; [by apply IHm|].
    apply Forall_forall. intros x (y & -> & Hy)%list_elem_of_fmap. simpl. right. split; [done|].
    rewrite Forall_forall in He. apply He. by apply list_elem_of_fmap_2.
  - apply IHl; [done|]. intros e He. apply Hall. by constructor.
Qed.

Lemma array_elements_sorted n : ∀ t : trbt_array n V,
  array_ok n t → StronglySorted lex_lt (array_elements n t).*1.
Proof.
  induction n as [|n IH]; intros t Hok; simpl; [by repeat constructor|].
  destruct Hok as ([_ Ho] & _ & Hall). apply array_level_sorted; [done|].
  intros e He. apply IH. rewrite Forall_forall in Hall. by apply Hall.
Qed.

(** Membership in the bindings of one level. *)
Lemma array_level_elem n (t : trbt_node (trbt_array n V)) k key d :
  trbt_ok t →
  (k :: key, d) ∈ (elements t ≫= λ e, (λ x, (e.1 :: x.1, x.2)) <$> array_elements n e.2) ↔
  ∃ sub, trbt_lookup32 t k = Some sub ∧ (key, d) ∈ array_elements n sub.
Proof.
  intros Hok. rewrite list_elem_of_bind. split.
  - intros ([k' sub] & ([key' d'] & [= -> -> ->] & Hx)%list_elem_of_fmap & He).
    exists sub. split; [by apply lookup_elem|done].
  - intros (sub & Hk & Hx). exists (k, sub). split; [|by apply lookup_elem].
    apply list_elem_of_fmap. by exists (key, d).
Qed.

Lemma array_elem n : ∀ (t : trbt_array n V) key d,
  array_ok n t → length key = n →
  (key, d) ∈ array_elements n t ↔ trbt_lookuparray32 n key t = Some d.
Proof.
  induction n as [|n IH]; intros t key d Hok Hlen.
  - apply nil_length_inv in Hlen as ->. simpl. rewrite list_elem_of_singleton. naive_solver.
  - destruct key as [|k key]; [done|]. injection Hlen as Hlen. destruct Hok as (Hok & _ & Hall).
    simpl. rewrite array_level_elem by done. rewrite skipn_O, bind_Some. split.
    + intros (sub & Hk & Hx). exists sub. split; [done|].
      apply IH; [by eapply array_lookup_ok|done..].
    + intros (sub & Hk & Hx). exists sub. split; [done|].
      apply IH; [by eapply array_lookup_ok|done..].
Qed.

Lemma leftmost_head {A : Type} (l : trbt_node A) : ∀ c k (d : A) r,
  snd <$> head (elements (NODE c l k d r)) = Some (leftmost d l).
Proof.
  induction l as [|c' l' IH k' d' r' _]; intros c k d r; [done|].
  simpl leftmost. rewrite <- (IH c' k' d' r'). simpl.
  by destruct (elements l').
Qed.

(** The first binding of a level is the first one below its first entry. *)
Lemma array_level_head n (l : list (Z * trbt_array n V)) d :
  snd <$> head l = Some d → array_elements n d ≠ [] →
  snd <$> head (l ≫= λ e, (λ x, (e.1 :: x.1, x.2)) <$> array_elements n e.2)
  = snd <$> head (array_elements n d).
Proof.
  destruct l as [|[k d'] l]; [done|]. intros [= ->] Hne. simpl.
  by destruct (array_elements n d).
Qed.

Lemma array_level_nonempty n (l : list (Z * trbt_array n V)) :
  l ≠ [] → Forall (λ e, array_elements n e.2 ≠ []) l →
  (l ≫= λ e, (λ x, (e.1 :: x.1, x.2)) <$> array_elements n e.2) ≠ [].
Proof.
  destruct l as [|[k d] l]; [done|]. intros _ [Hd _]%Forall_cons. simpl in *.
  by destruct (array_elements n d).
Qed.

Lemma array_nonempty n : ∀ t : trbt_array n V, array_ok n t → array_elements n t ≠ [].
Proof.
  induction n as [|n IH]; intros t Hok; [done|]. destruct Hok as (_ & Hne & Hall).
  apply array_level_nonempty; [done|]. eapply (Forall_impl _ _ _ Hall). intros e. apply IH.
Qed.

Lemma findfirst_level n (t : trbt_node (trbt_array n V)) :
  Forall (λ e, array_ok n e.2) (elements t) →
  (∀ s, array_ok n s → trbt_findfirstarray32 n s = snd <$> head (array_elements n s)) →
  trbt_findfirstarray32 (S n) t = snd <$> head (array_elements (S n) t).
Proof.
  intros Hall IH. destruct t as [|c l k d r]; [done|].
  pose proof (leftmost_head l c k d r) as Hl.
  assert (array_ok n (leftmost d l)) as Hd.
  { rewrite Forall_forall in Hall. apply fmap_Some in Hl as (e & He & ->). apply Hall.
    by apply head_Some_elem_of. }
  change (trbt_findfirstarray32 (S n) (NODE c l k d r))
    with (trbt_findfirstarray32 n (leftmost d l)).
  rewrite IH by done. symmetry. apply array_level_head; [done|by apply array_nonempty].
Qed.

Lemma findfirst_head n : ∀ t : trbt_array n V,
  array_ok n t → trbt_findfirstarray32 n t = snd <$> head (array_elements n t).
Proof.
  induction n as [|n IH]; intros t Hok; [done|]. destruct Hok as (_ & _ & Hall).
  by apply findfirst_level.
Qed.

(** The bindings below a root. *)
Lemma root_sorted n (t : trbt_array (S n) V) :
  array_root_ok n t → StronglySorted lex_lt (array_elements (S n) t).*1.
Proof.
  intros [Hok Hall]. apply array_level_sorted; [apply Hok|]. intros e He.
  apply array_elements_sorted. rewrite Forall_forall in Hall. by apply Hall.
Qed.

Lemma root_elem n (t : trbt_array (S n) V) key d :
  array_root_ok n t → length key = S n →
  (key, d) ∈ array_elements (S n) t ↔ trbt_lookuparray32 (S n) key t = Some d.
Proof.
  intros [Hok Hall] Hlen. destruct key as [|k key]; [done|]. injection Hlen as Hlen. simpl.
  rewrite array_level_elem, skipn_O, bind_Some by done.
  split; intros (sub & Hk & Hx); exists sub; (split; [done|]);
    (apply array_elem; [by eapply array_lookup_ok|done..]).
Qed.

(** [trbt_traversearray32] calls the callback on the data of every key, in
    increasing lexicographic order of the keys, until it returns non-zero;
    [trbt_findfirstarray32] returns the data of the smallest key. *)
Theorem trbt_traversearray32_correct {S : Type} n (t : trbt_array (Datatypes.S n) V)
    (callback : S → V → S * Z) s (Hok : array_root_ok n t) :
  ∃ l : list (list Z * V),
    StronglySorted lex_lt l.*1
    ∧ (∀ key d, length key = Datatypes.S n →
         (key, d) ∈ l ↔ trbt_lookuparray32 (Datatypes.S n) key t = Some d)
    ∧ trbt_traversearray32 (Datatypes.S n) callback s t = visit callback s l.*2
    ∧ trbt_findfirstarray32 (Datatypes.S n) t = snd <$> head l.
Proof.
  exists (array_elements (Datatypes.S n) t). split_and!.
  - by apply root_sorted.
  - intros key d. by apply root_elem.
  - apply traverse_visit.
  - apply findfirst_level; [apply Hok|apply findfirst_head].
Qed.

End arrays.

(** *** A concrete tree *)

Definition insert_keys (ks : list Z) : trbt_node Z :=
  foldl (λ t k, default t (trbt_insert32_callback t k (λ _, Some k))) NULL ks.

Lemma insert_keys_ok ks : trbt_ok (insert_keys ks).
Proof.
  unfold insert_keys. assert (trbt_ok (V := Z) NULL) as Hok.
  { split; [exists 0%nat; constructor|constructor]. }
  revert Hok. generalize (NULL (V := Z)). induction ks as [|k ks IH]; intros t Hok; simpl; [done|].
  apply IH. destruct (insert_root_map t k (λ _, Some k) k Hok eq_refl) as (t' & E & Hok' & _).
  unfold trbt_insert32_callback. by rewrite E.
Qed.

Lemma trbt_insert32_correct_witness :
  ∃ t', trbt_insert32 (insert_keys [5; 2; 8; 9]) 7 70 = Some (None, t')
  ∧ trbt_lookup32 t' 7 = Some 70 ∧ trbt_lookup32 t' 8 = Some 8.
Proof.
  destruct (trbt_insert32_correct (insert_keys [5; 2; 8; 9]) 7 70 (insert_keys_ok _))
    as (t' & E & _ & Hk).
  exists t'. split_and!; [exact E| |]; rewrite Hk; reflexivity.
Defined.

Lemma node_destructor_correct_witness :
  ∃ t', node_destructor (insert_keys [5; 2; 8; 9]) 5 = Some t'
  ∧ trbt_lookup32 t' 5 = None ∧ trbt_lookup32 t' 9 = Some 9.
Proof.
  destruct (node_destructor_correct (insert_keys [5; 2; 8; 9]) 5 (insert_keys_ok _))
    as (t' & E & _ & Hk).
  exists t'. split_and!; [exact E| |]; rewrite Hk; reflexivity.
Defined.

Lemma trbt_height_bound_witness : (height (insert_keys [1; 2; 3; 4; 5; 6; 7]%Z) ≤ 6)%nat.
Proof. apply (trbt_height_bound (insert_keys [1; 2; 3; 4; 5; 6; 7]) (insert_keys_ok _)). Defined.

(** Two keys of two words that share the first one. *)
Definition array_tree : trbt_array 2 Z :=
  let ins t key v := default t (trbt_insertarray32_callback 1 t key (λ _, Some v)) in
  ins (ins (NULL : trbt_array 2 Z) [3; 4] 34) [3; 1] 31.

Lemma array_tree_ok : array_root_ok 1 array_tree.
Proof.
  unfold array_tree. set (t0 := NULL : trbt_array 2 Z).
  destruct (array_insert_ok 2 [3; 4] (None : option (trbt_array 2 Z)) (λ _, Some 34) 34)
    as (t1 & E1 & Hok1 & _); [done..|].
  destruct (array_insert_ok 2 [3; 1] (Some t1) (λ _, Some 31) 31)
    as (t2 & E2 & Hok2 & _); [done|by intros ? [= <-]|done|].
  change (trbt_insertarray32_callback 1 t0 [3; 4] (λ _, Some 34))
    with (array_insert_callback 2 [3; 4] (λ _, Some 34) (None : option (trbt_array 2 Z))).
  rewrite E1. simpl default.
  change (trbt_insertarray32_callback 1 t1 [3; 1] (λ _, Some 31))
    with (array_insert_callback 2 [3; 1] (λ _, Some 31) (Some t1)).
  rewrite E2. by destruct Hok2 as (? & _ & ?).
Qed.

Lemma trbt_insertarray32_correct_witness :
  ∃ t', trbt_insertarray32_callback 1 array_tree [3; 4] (option_map (λ v, v + 1)) = Some t'
  ∧ trbt_lookuparray32 2 [3; 4] t' = Some 35 ∧ trbt_lookuparray32 2 [3; 1] t' = Some 31.
Proof.
  destruct (trbt_insertarray32_correct 1 array_tree [3; 4] (option_map (λ v, v + 1)) 35
    array_tree_ok eq_refl eq_refl) as (t' & E & _ & Hk).
  exists t'. split_and!; [exact E|rewrite Hk; reflexivity|rewrite Hk; reflexivity].
Defined.

Lemma trbt_traversearray32_correct_witness :
  trbt_findfirstarray32 2 array_tree = Some 31
  ∧ ∃ l, trbt_traversearray32 2 (λ s v, (v :: s, 0)) [] array_tree
         = visit (λ s v, (v :: s, 0)) [] l.
Proof.
  destruct (trbt_traversearray32_correct 1 array_tree (λ s v, (v :: s, 0)) [] array_tree_ok)
    as (l & _ & _ & E & _).
  split; [reflexivity|]. exists l.*2. exact E.
Defined.
