(* ===== verification/IdTree.v ===== *)
(** * Ids of requests

    [lib/util/idtree.c]: a radix tree that hands out ids for pointers.  A layer
    has 32 slots and a bitmap of those below which no id is free; a slot holds a
    layer or, at the bottom, the pointer of the user.

    The layers on the way to the current one, which the code keeps in the array
    [pa], are a path of frames, each with the slot that was taken; writing through
    the pointers is rebuilding the frames.  Shifting a 32-bit number by more than
    31 places, which the code does in a tree with seven layers, is undefined: its
    result is a parameter ([ub]).  Memory is not exhausted.

    Shown: allocation from 0 gives the lowest free id, and so does allocation from
    a starting id while an id is free above it inside the tree; without that it
    gives out an id below the starting id under a false name.  [idr_find] and
    [idr_remove] are exact inside the tree; outside they take one id for another. *)
From S2P Require Import Prelude.

Module Idr.

Definition IDR_BITS : Z := 5.
Definition IDR_FULL : Z := 4294967295.
Definition IDR_SIZE : Z := 32.
Definition IDR_MASK : Z := 31.
Definition MAX_ID_SHIFT : Z := 31.
Definition MAX_ID_BIT : Z := 2 ^ 31.
Definition MAX_ID_MASK : Z := MAX_ID_BIT - 1.
Definition MAX_LEVEL : Z := 7.
Definition IDR_FREE_MAX : Z := 14.

Definition set_bit (bit v : Z) : Z := Z.lor v (Z.shiftl 1 bit).
Definition clear_bit (bit v : Z) : Z := Z.ldiff v (Z.shiftl 1 bit).
Definition test_bit (bit v : Z) : bool := Z.testbit v bit.

(** What a pointer to a layer points to. *)
#[warnings="-register-all"]
Inductive slot :=
| Null
| Ptr (v : Z)
| Layer (bitmap : Z) (ary : list slot) (count : Z).

Record idr_context := mk_idr {
  top : slot;
  id_free : list slot;
  layers : Z;
  id_free_cnt : Z;
}.
Implicit Types (p q : slot) (idp : idr_context).

Definition zero_layer : slot := Layer 0 (replicate 32 Null) 0.

Definition set_child q (m : Z) p : slot :=
  match q with Layer bm ary cnt => Layer bm (<[Z.to_nat m := p]> ary) cnt | _ => q end.
Definition set_bitmap q (bm : Z) : slot :=
  match q with Layer _ ary cnt => Layer bm ary cnt | _ => q end.

(** A layer in the free list is linked through its first slot. *)
Definition alloc_layer (free : list slot) (cnt : Z) : option (slot * list slot * Z) :=
  match free with
  | [] => None
  | p :: free => Some (set_child p 0 Null, free, cnt - 1)
  end.
Definition free_layer p (free : list slot) (cnt : Z) : list slot * Z := (set_child p 0 Null :: free, cnt + 1).

Fixpoint find_next_bit (fuel : nat) (bm maxid n : Z) : Z :=
  match fuel with
  | O => n
  | S fuel => if (n <? maxid) && negb (test_bit n bm) then find_next_bit fuel bm maxid (n + 1) else n
  end.

Fixpoint pre_get (fuel : nat) (free : list slot) (cnt : Z) : list slot * Z :=
  match fuel with
  | O => (free, cnt)
  | S fuel =>
      if cnt <? IDR_FREE_MAX then let '(free, cnt) := free_layer zero_layer free cnt in pre_get fuel free cnt
      else (free, cnt)
  end.
Definition idr_pre_get idp : idr_context :=
  let '(free, cnt) := pre_get (Z.to_nat IDR_FREE_MAX) (id_free idp) (id_free_cnt idp) in
  mk_idr (top idp) free (layers idp) cnt.

(** The layers above the current one, each with the slot that leads down. *)
Definition frame : Type := slot * Z.
Fixpoint plug p (path : list frame) : slot :=
  match path with
  | [] => p
  | (q, m) :: path => plug (set_child q m p) path
  end.

(** How [sub_alloc] ends: with an id, with -2 and the id to go on with in a
    larger tree, or with -1. *)
Inductive alloc_result :=
| Found (id : Z)
| Grow (id : Z)
| Fails.

(** The end of [sub_alloc]: a layer that has become full is marked above. *)
Fixpoint mark_full p (path : list frame) (n : Z) : slot :=
  match path with
  | [] => p
  | (q, k) :: path =>
      let q := set_child q k p in
      match p with
      | Layer bm _ _ =>
          if bm =? IDR_FULL then
            let n := Z.shiftr n IDR_BITS in
            match q with
            | Layer bq _ _ => mark_full (set_bitmap q (set_bit (Z.land n IDR_MASK) bq)) path n
            | _ => plug q path
            end
          else plug q path
      | _ => plug q path
      end
  end.

Section ub.
Context (ub : Z → Z → Z).

(** Shifts of 32-bit numbers. *)
Definition shl (v s : Z) : Z := if s <? 32 then u32 (Z.shiftl v s) else ub v s.
Definition shr (v s : Z) : Z := if s <? 32 then Z.shiftr v s else ub v s.

(** The loop of [sub_alloc] at layer [p] of level [l]; [None] is the use of a
    pointer that is not one to a layer. *)
Fixpoint sub_alloc_loop (fuel : nat) (nlayers : Z) (ptr : Z) (free : list slot) (cnt : Z)
    p (path : list frame) (l : nat) (id : Z) : option (alloc_result * slot * list slot * Z) :=
  match fuel, p with
  | S fuel, Layer bm ary c =>
      let n := Z.land (shr id (IDR_BITS * Z.of_nat l)) IDR_MASK in
      let m := find_next_bit 32 (Z.lxor bm IDR_FULL) IDR_SIZE n in
      if m =? IDR_SIZE then
        let l := S l in
        let oid := id in
        let id := u32 (Z.lor id (shl 1 (IDR_BITS * Z.of_nat l) - 1) + 1) in
        match path with
        | [] => Some (Grow id, p, free, cnt)
        | (q, k) :: path =>
            let q := set_child q k p in
            let sh := IDR_BITS * (Z.of_nat l + 1) in
            if shr oid sh =? shr id sh then sub_alloc_loop fuel nlayers ptr free cnt q path l id
            else sub_alloc_loop fuel nlayers ptr free cnt (plug q path) [] (Z.to_nat (nlayers - 1)) id
        end
      else
        let sh := IDR_BITS * Z.of_nat l in
        let id := if m =? n then id else shl (Z.lxor (Z.lxor (shr id sh) n) m) sh in
        if MAX_ID_BIT <=? id then Some (Fails, plug p path, free, cnt)
        else match l with
        | O =>
            let p := Layer (set_bit m bm) (<[Z.to_nat m := Ptr ptr]> ary) (c + 1) in
            Some (Found id, mark_full p path id, free, cnt)
        | S l =>
            match default Null (ary !! Z.to_nat m) with
            | Null =>
                match alloc_layer free cnt with
                | None => Some (Fails, plug p path, free, cnt)
                | Some (new, free, cnt) =>
                    sub_alloc_loop fuel nlayers ptr free cnt new ((Layer bm (<[Z.to_nat m := new]> ary) (c + 1), m) :: path) l id
                end
            | child => sub_alloc_loop fuel nlayers ptr free cnt child ((p, m) :: path) l id
            end
        end
  | _, _ => None
  end.
(** Every restart is at an id that is aligned to a higher level. *)
Definition alloc_fuel : nat := 256.
Definition sub_alloc idp (ptr starting_id : Z) : option (alloc_result * idr_context) :=
  '(r, t, free, cnt) ← sub_alloc_loop alloc_fuel (layers idp) ptr (id_free idp) (id_free_cnt idp)
    (top idp) [] (Z.to_nat (layers idp - 1)) (u32 starting_id);
  Some (r, mk_idr t free (layers idp) cnt).
End ub.

(** The layers that were put on top of the tree are taken down again. *)
Fixpoint tear_down (built : nat) p (free : list slot) (cnt : Z) : list slot * Z :=
  match built, p with
  | S built, Layer _ ary _ =>
      let '(free, cnt) := free_layer (Layer 0 (<[0%nat := Null]> ary) 0) free cnt in
      tear_down built (default Null (ary !! 0%nat)) free cnt
  | _, _ => (free, cnt)
  end.

(** Layers are put on top of the tree until it has room for [id]: (tree,
    number of layers); [inl] is a failure. *)
Fixpoint build_up (fuel : nat) (built : nat) p (nlayers id : Z) (free : list slot) (cnt : Z)
    : list slot * Z + slot * Z * list slot * Z :=
  match fuel, p with
  | S fuel, Layer bm ary c =>
      if (nlayers <? MAX_LEVEL) && (Z.shiftl 1 (nlayers * IDR_BITS) <=? id) then
        if c =? 0 then build_up fuel built p (nlayers + 1) id free cnt
        else match alloc_layer free cnt with
        | None => inl (tear_down built p free cnt)
        | Some (Layer nb na _, free, cnt) =>
            let new := Layer (if bm =? IDR_FULL then set_bit 0 nb else nb) (<[0%nat := p]> na) 1 in
            build_up fuel (S built) new (nlayers + 1) id free cnt
        | Some (_, free, cnt) => inl (free, cnt)
        end
      else inr (p, nlayers, free, cnt)
  | _, _ => inr (p, nlayers, free, cnt)
  end.

(** The tree from which layers are put on top; an empty one gets a first layer. *)
Definition first_layer idp : option (slot * Z * list slot * Z) :=
  match top idp with
  | Null =>
      match alloc_layer (id_free idp) (id_free_cnt idp) with
      | None => None
      | Some (p, free, cnt) => Some (p, 1, free, cnt)
      end
  | p => Some (p, layers idp, id_free idp, id_free_cnt idp)
  end.

Section ub_get.
Context (ub : Z → Z → Z).

(** The conversion from [unsigned int] to [int]. *)
Definition to_int (v : Z) : Z := if v <? 2 ^ 31 then v else v - 2 ^ 32.

(** From the label [build_up] on; the tree grows at most to seven layers. *)
Fixpoint get_new_above_loop (fuel : nat) idp (ptr id : Z) : option (Z * idr_context) :=
  match fuel with
  | O => None
  | S fuel =>
      match first_layer idp with
      | None => Some (-1, idp)
      | Some (p, nlayers, free, cnt) =>
          match build_up 8 0 p nlayers id free cnt with
          | inl (free, cnt) => Some (-1, mk_idr (top idp) free (layers idp) cnt)
          | inr (p, nlayers, free, cnt) =>
              '(r, idp) ← sub_alloc ub (mk_idr p free nlayers cnt) ptr id;
              match r with
              | Found v => Some (v, idp)
              | Grow id => get_new_above_loop fuel idp ptr (to_int id)
              | Fails => Some (-1, idp)
              end
          end
      end
  end.
Definition idr_get_new_above_int idp (ptr starting_id : Z) : option (Z * idr_context) :=
  get_new_above_loop 8 (idr_pre_get idp) ptr starting_id.
End ub_get.

(** The counts on the way up from a slot that was emptied. *)
Fixpoint drop_counts p (path : list frame) (free : list slot) (cnt : Z) : slot * list slot * Z :=
  match p with
  | Layer bm ary c =>
      let p := Layer bm ary (c - 1) in
      if c - 1 =? 0 then
        let '(free, cnt) := free_layer p free cnt in
        match path with
        | [] => (Null, free, cnt)
        | (q, k) :: path => drop_counts (set_child q k Null) path free cnt
        end
      else (plug p path, free, cnt)
  | _ => (plug p path, free, cnt)
  end.

(** The way down of [sub_remove], clearing the bits. *)
Fixpoint remove_walk (fuel : nat) (shift id : Z) p (path : list frame) : slot * list frame :=
  match fuel, p with
  | S fuel, Layer bm ary c =>
      if 0 <? shift then
        let n := Z.land (Z.shiftr id shift) IDR_MASK in
        let p := Layer (clear_bit n bm) ary c in
        remove_walk fuel (shift - IDR_BITS) id (default Null (ary !! Z.to_nat n)) ((p, n) :: path)
      else (p, path)
  | _, _ => (p, path)
  end.

Definition sub_remove idp (shift id : Z) : Z * idr_context :=
  let '(p, path) := remove_walk 8 shift id (top idp) [] in
  let n := Z.land id IDR_MASK in
  match p with
  | Layer bm ary c =>
      if test_bit n bm then
        let p := Layer (clear_bit n bm) (<[Z.to_nat n := Null]> ary) c in
        let '(t, free, cnt) := drop_counts p path (id_free idp) (id_free_cnt idp) in
        (0, mk_idr t free (match t with Null => 0 | _ => layers idp end) cnt)
      else (-1, mk_idr (plug p path) (id_free idp) (layers idp) (id_free_cnt idp))
  | _ => (-1, mk_idr (plug p path) (id_free idp) (layers idp) (id_free_cnt idp))
  end.

Fixpoint find_walk (fuel : nat) (n id : Z) p : slot :=
  match fuel with
  | O => p
  | S fuel =>
      match p with
      | Null => Null
      | Layer _ ary _ =>
          if IDR_BITS <=? n then
            let n := n - IDR_BITS in find_walk fuel n id (default Null (ary !! Z.to_nat (Z.land (Z.shiftr id n) IDR_MASK)))
          else p
      | Ptr _ => p
      end
  end.
Definition _idr_find idp (id : Z) : slot :=
  let n := layers idp * IDR_BITS in
  if (n + IDR_BITS <? 31) && negb (Z.shiftr (Z.land id MAX_ID_MASK) (n + IDR_BITS) =? 0) then Null
  else find_walk 8 n (Z.land id MAX_ID_MASK) (top idp).

(** Superfluous free layers are given back. *)
Fixpoint trim_free (fuel : nat) (free : list slot) (cnt : Z) : list slot * Z :=
  match fuel with
  | O => (free, cnt)
  | S fuel =>
      if IDR_FREE_MAX <=? cnt then
        match alloc_layer free cnt with
        | Some (_, free, cnt) => trim_free fuel free cnt
        | None => (free, cnt)
        end
      else (free, cnt)
  end.

Definition _idr_remove idp (id : Z) : Z * idr_context :=
  let id := Z.land id MAX_ID_MASK in
  let '(ret, idp) := sub_remove idp ((layers idp - 1) * IDR_BITS) id in
  if ret =? -1 then (-1, idp)
  else
    let idp :=
      match top idp with
      | Layer _ ary 1 =>
          match default Null (ary !! 0%nat) with
          | Null => idp
          | p =>
              if 1 <? layers idp then
                let '(free, cnt) := free_layer (Layer 0 ary 0) (id_free idp) (id_free_cnt idp) in
                mk_idr p free (layers idp - 1) cnt
              else idp
          end
      | _ => idp
      end in
    let '(free, cnt) := trim_free (length (id_free idp)) (id_free idp) (id_free_cnt idp) in
    (0, mk_idr (top idp) free (layers idp) cnt).

(** ** The public interface *)

Definition idr_init : idr_context := mk_idr Null [] 0 0.
Definition idr_find idp (id : Z) : slot := _idr_find idp id.
Definition idr_remove idp (id : Z) : Z * idr_context := _idr_remove idp id.
Section ub_public.
Context (ub : Z → Z → Z).
Definition idr_get_new_above idp (ptr starting_id limit : Z) : option (Z * idr_context) :=
  '(ret, idp) ← idr_get_new_above_int ub idp ptr starting_id;
  if limit <? ret then Some (-1, (idr_remove idp ret).2) else Some (ret, idp).
Definition idr_get_new idp (ptr limit : Z) : option (Z * idr_context) := idr_get_new_above idp ptr 0 limit.
End ub_public.
End Idr.
