(* ===== verification/IdTreeProps.v ===== *)
(** * Properties of the id tree

    A tree stands for a finite map from ids to pointers ([entry]).  The invariant
    [wf] says that counts are exact and that a layer is marked full exactly when
    all ids below it are taken. *)
From S2P Require Import Prelude IdTree.
Import Idr.

Implicit Types (p q : slot) (idp : idr_context) (k id : Z) (l : nat).

(** ** Bits *)

Lemma find_next_bit_ok fuel bm n :
  0 <= n <= 32 → Z.of_nat fuel = 32 - n → is_u32 bm →
  let m := find_next_bit fuel (Z.lxor bm IDR_FULL) IDR_SIZE n in
  n <= m <= 32 ∧ (∀ j, n <= j < m → Z.testbit bm j = true) ∧ (m < 32 → Z.testbit bm m = false).
Proof.
  intros Hn Hf Hb. revert n Hn Hf. induction fuel as [|fuel IH]; intros n Hn Hf; cbn [find_next_bit].
  { split; [lia|]. split; lia. }
  unfold IDR_SIZE, test_bit in *. rewrite (proj2 (Z.ltb_lt _ _)) by lia. cbn [andb].
  assert (Z.testbit (Z.lxor bm IDR_FULL) n = negb (Z.testbit bm n)) as ->.
  { rewrite Z.lxor_spec. change IDR_FULL with (Z.ones 32). rewrite Z.ones_spec_low by lia. by destruct (Z.testbit bm n). }
  rewrite negb_involutive. destruct (Z.testbit bm n) eqn:E.
  - destruct (IH (n + 1)) as (H1 & H2 & H3); [lia|lia|]. split; [lia|]. split; [|done]. intros j Hj. destruct (decide (j = n)) as [->|]; [done|]. apply H2. lia.
  - split; [lia|]. split; [lia|done].
Qed.

(** The search starts with as many rounds as there are slots, more than enough. *)
Lemma find_next_bit_more fuel fuel' bm n :
  (Z.to_nat (32 - n) <= fuel)%nat → (Z.to_nat (32 - n) <= fuel')%nat →
  find_next_bit fuel bm IDR_SIZE n = find_next_bit fuel' bm IDR_SIZE n.
Proof.
  revert fuel' n. induction fuel as [|fuel IH]; intros fuel' n H1 H2.
  - destruct fuel' as [|fuel']; [done|]. cbn. unfold IDR_SIZE. by rewrite (proj2 (Z.ltb_ge _ _)) by lia.
  - destruct fuel' as [|fuel']; cbn [find_next_bit]; unfold IDR_SIZE in *.
    + by rewrite (proj2 (Z.ltb_ge _ _)) by lia.
    + destruct (Z.ltb_spec n 32); cbn [andb]; [|done]. destruct (negb _); [|done]. apply IH; lia.
Qed.

Lemma find_next_ok bm n :
  0 <= n < 32 → is_u32 bm →
  let m := find_next_bit 32 (Z.lxor bm IDR_FULL) IDR_SIZE n in
  n <= m <= 32 ∧ (∀ j, n <= j < m → Z.testbit bm j = true) ∧ (m < 32 → Z.testbit bm m = false).
Proof.
  intros Hn Hb. rewrite (find_next_bit_more 32 (Z.to_nat (32 - n))) by lia. apply find_next_bit_ok; [lia|lia|done].
Qed.

(** Ids are numbers to the base 32. *)
Definition pw (l : nat) : Z := 32 ^ Z.of_nat l.
Lemma pw_pos l : 0 < pw l.
Proof. unfold pw. apply Z.pow_pos_nonneg; lia. Qed.
Lemma pw_S l : pw (S l) = 32 * pw l.
Proof. unfold pw. rewrite Nat2Z.inj_succ, Z.pow_succ_r by lia. done. Qed.
Lemma pw_bits l : pw l = 2 ^ (5 * Z.of_nat l).
Proof. unfold pw. change 32 with (2 ^ 5). rewrite <- Z.pow_mul_r by lia. done. Qed.
Definition digit (l : nat) (k : Z) : Z := k / pw l mod 32.
Lemma digit_range l k : 0 <= digit l k < 32.
Proof. apply Z.mod_pos_bound. lia. Qed.

Lemma shiftr_pw l k : Z.shiftr k (5 * Z.of_nat l) = k / pw l.
Proof. rewrite Z.shiftr_div_pow2, pw_bits by lia. done. Qed.
Lemma land_mask k : Z.land k IDR_MASK = k mod 32.
Proof. change IDR_MASK with (Z.ones 5). rewrite Z.land_ones by lia. done. Qed.

(** The end of the range of ids below a layer. *)
Lemma add_lor a b : Z.land a b = 0 → a + b = Z.lor a b.
Proof. intros H. by rewrite Z.add_nocarry_lxor, Z.lxor_lor. Qed.
Lemma land_high_low k s b : 0 <= s → 0 <= b < 2 ^ s → Z.land (Z.shiftl k s) b = 0.
Proof.
  intros Hs Hb. apply Z.bits_inj'. intros i Hi. rewrite Z.land_spec, Z.bits_0. destruct (Z.ltb_spec i s).
  - by rewrite Z.shiftl_spec_low.
  - rewrite (testbit_above s b i) by done. by rewrite andb_false_r.
Qed.
Lemma lor_next k s : 0 <= s → Z.lor k (2 ^ s - 1) + 1 = (k / 2 ^ s + 1) * 2 ^ s.
Proof.
  intros Hs. assert (Z.lor k (2 ^ s - 1) = k / 2 ^ s * 2 ^ s + (2 ^ s - 1)); [|lia].
  rewrite <- Z.shiftl_mul_pow2, <- Z.shiftr_div_pow2 by done. rewrite add_lor by (apply land_high_low; lia).
  replace (2 ^ s - 1) with (Z.ones s) by (rewrite Z.ones_equiv; lia). apply Z.bits_inj'. intros i Hi. rewrite !Z.lor_spec.
  destruct (Z.ltb_spec i s); [rewrite Z.ones_spec_low by lia; by rewrite !orb_true_r|].
  rewrite Z.shiftl_spec_high, Z.shiftr_spec by lia. by replace (i - s + s) with i by lia.
Qed.
Lemma lxor_digit y m : 0 <= y → 0 <= m < 32 → Z.lxor (Z.lxor y (y mod 32)) m = y / 32 * 32 + m.
Proof.
  intros Hy Hm. assert (Z.lxor y (y mod 32) = y / 32 * 32) as ->.
  { rewrite (Z.div_mod y 32) at 1 by lia. rewrite (Z.mul_comm 32). rewrite Z.add_nocarry_lxor, Z.lxor_assoc, Z.lxor_nilpotent, Z.lxor_0_r; [done|].
    change 32 with (2 ^ 5). rewrite <- Z.shiftl_mul_pow2 by lia. apply land_high_low; [lia|]. apply Z.mod_pos_bound. lia. }
  symmetry. apply Z.add_nocarry_lxor. change 32 with (2 ^ 5). rewrite <- Z.shiftl_mul_pow2 by lia. by apply land_high_low.
Qed.

(** ** The map that a tree stands for *)

Definition is_null p : bool := match p with Null => true | _ => false end.
Definition is_full p : bool := match p with Layer bm _ _ => bm =? IDR_FULL | _ => false end.
Definition count_of p : Z := match p with Layer _ _ c => c | _ => 0 end.
Definition used (ary : list slot) : Z := Z.of_nat (length (filter (λ s, is_null s = false) ary)).
Definition child_of (ary : list slot) (m : Z) : slot := default Null (ary !! Z.to_nat m).

(** The pointer of id [k] below layer [p] of level [l]; only the last [S l] digits
    of [k] matter. *)
Fixpoint entry (l : nat) p k : option Z :=
  match p with
  | Layer _ ary _ =>
      match l, child_of ary (digit l k) with
      | O, Ptr v => Some v
      | S l, s => entry l s k
      | _, _ => None
      end
  | _ => None
  end.

Fixpoint wf (l : nat) p : Prop :=
  match p with
  | Layer bm ary c =>
      length ary = 32%nat ∧ is_u32 bm ∧ c = used ary
      ∧ ∀ m, 0 <= m < 32 →
          match l with
          | O => match child_of ary m with Null => Z.testbit bm m = false | Ptr _ => Z.testbit bm m = true | _ => False end
          | S l => child_of ary m = Null ∧ Z.testbit bm m = false
                   ∨ wf l (child_of ary m) ∧ 0 < count_of (child_of ary m) ∧ Z.testbit bm m = is_full (child_of ary m)
          end
  | _ => False
  end.

Lemma full_bits bm : is_u32 bm → (bm =? IDR_FULL) = true ↔ ∀ m, 0 <= m < 32 → Z.testbit bm m = true.
Proof.
  intros Hb. rewrite Z.eqb_eq. change IDR_FULL with (Z.ones 32). split; [intros ->; intros; by apply Z.ones_spec_low|].
  intros H. apply Z.bits_inj'. intros i Hi. destruct (decide (i < 32)); [rewrite H, Z.ones_spec_low by lia; done|].
  rewrite Z.ones_spec_high by lia. apply (testbit_above 32); [done|lia].
Qed.

(** Leading digits and the rest. *)
Lemma quot_step l k : k / pw l = 32 * (k / pw (S l)) + digit l k.
Proof.
  unfold digit. pose proof (pw_pos l). replace (pw (S l)) with (pw l * 32) by (rewrite pw_S; lia). rewrite <- Z.div_div by lia. apply Z.div_mod. lia.
Qed.

Lemma quot_split l k id : k / pw l = id / pw l ↔ digit l k = digit l id ∧ k / pw (S l) = id / pw (S l).
Proof. rewrite (quot_step l k), (quot_step l id). pose proof (digit_range l k). pose proof (digit_range l id). lia. Qed.

(** A path from level [l] to the top of a tree with [n] layers, along the digits
    of [id]. *)
Fixpoint path_at (l : nat) (path : list frame) (n : nat) id : Prop :=
  match path with
  | [] => n = S l
  | (q, k) :: path =>
      match q with Layer _ ary _ => length ary = 32%nat | _ => False end
      ∧ k = digit (S l) id ∧ path_at (S l) path n id
  end.

Lemma child_insert ary m m' s : length ary = 32%nat → 0 <= m < 32 → 0 <= m' < 32 →
  child_of (<[Z.to_nat m := s]> ary) m' = if decide (m' = m) then s else child_of ary m'.
Proof.
  intros Hl Hm Hm'. unfold child_of. case_decide as E.
  - subst. by rewrite list_lookup_insert_eq by lia.
  - rewrite list_lookup_insert_ne by lia. done.
Qed.

Lemma path_same l path n id k : path_at l path n id → k / pw (S l) = id / pw (S l) → path_at l path n k.
Proof.
  revert l. induction path as [|[q m] path IH]; intros l Hp E; cbn [path_at] in *; [done|]. destruct Hp as (H1 & -> & H3).
  apply quot_split in E as [E1 E2].
  split; [done|]. split; [done|]. by apply IH.
Qed.

Lemma entry_on_path l path n id p k :
  path_at l path n id → k / pw (S l) = id / pw (S l) → entry (pred n) (plug p path) k = entry l p k.
Proof.
  revert l p. induction path as [|[q m] path IH]; intros l p Hp E; cbn [path_at plug] in *; [by subst|]. destruct Hp as (H1 & -> & H3).
  destruct q as [| |bm ary c]; [done..|].
  apply quot_split in E as [E1 E2].
  rewrite (IH (S l)) by done. cbn [set_child entry]. rewrite child_insert by (done || apply digit_range). by rewrite decide_True.
Qed.
Lemma entry_off_path l path n id p p' k :
  path_at l path n id → 0 <= id < pw n → 0 <= k < pw n → k / pw (S l) ≠ id / pw (S l) → entry (pred n) (plug p path) k = entry (pred n) (plug p' path) k.
Proof.
  intros Hp Hid Hk. revert l p p' Hp. induction path as [|[q m] path IH]; intros l p p' Hp E; cbn [path_at plug] in *.
  { subst. rewrite !Z.div_small in E by lia. done. }
  destruct Hp as (H1 & -> & H3). destruct q as [| |bm ary c]; [done..|].
  destruct (decide (k / pw (S (S l)) = id / pw (S (S l)))) as [E2|E2]; [|by apply (IH (S l))].
  rewrite !(entry_on_path (S l) path n id) by done. cbn [set_child entry]. rewrite !child_insert by (done || apply digit_range).
  rewrite !decide_False by (rewrite quot_split in E; tauto). done.
Qed.

(** Only the last digits matter. *)
Lemma entry_mod l p k j : k mod pw (S l) = j mod pw (S l) → entry l p k = entry l p j.
Proof.
  revert p. induction l as [|l IH]; intros p E; (destruct p as [| |bm ary c]; [done..|]); cbn [entry].
  - change (pw 1) with 32 in E. unfold digit. change (pw 0) with 1. by rewrite !Z.div_1_r, E.
  - assert (digit (S l) k = digit (S l) j ∧ k mod pw (S l) = j mod pw (S l)) as [-> E2]; [|by apply IH].
    pose proof (pw_pos (S l)) as Hp. rewrite (pw_S (S l)), (Z.mul_comm 32), !Z.rem_mul_r in E by lia. unfold digit.
    pose proof (Z.mod_pos_bound k _ Hp). pose proof (Z.mod_pos_bound j _ Hp).
    apply (Z.div_mod_unique (pw (S l))); lia.
Qed.

(** ** Layers *)

Definition weight p : Z := if is_null p then 0 else 1.
Lemma used_insert ary m s : length ary = 32%nat → 0 <= m < 32 → used (<[Z.to_nat m := s]> ary) = used ary - weight (child_of ary m) + weight s.
Proof.
  intros Hl Hm. unfold used, child_of, weight. assert (Z.to_nat m < length ary)%nat as Hlt by lia. clear Hl Hm. revert Hlt. generalize (Z.to_nat m). clear m.
  induction ary as [|a ary IH]; intros m Hlt; [cbn in Hlt; lia|]. destruct m as [|m].
  - change (<[0%nat:=s]> (a :: ary)) with (s :: ary). change ((a :: ary) !! 0%nat) with (Some a). rewrite !filter_cons. cbn [default from_option id]. destruct (is_null a), (is_null s); repeat case_decide; try done; cbn [length]; lia.
  - change (<[S m:=s]> (a :: ary)) with (a :: <[m:=s]> ary). change ((a :: ary) !! S m) with (ary !! m).
    cbn in Hlt. specialize (IH m ltac:(lia)). rewrite !filter_cons. destruct (is_null a); repeat case_decide; try done; cbn [length]. lia.
Qed.

Lemma wf_full_entry l p k : wf l p → is_full p = true → is_Some (entry l p k).
Proof.
  revert p. induction l as [|l IH]; intros [| |bm ary c]; cbn [wf is_full entry]; try done; intros (_ & Hb & _ & Hs) Hf; rewrite full_bits in Hf by done.
  - specialize (Hs _ (digit_range 0 k)). specialize (Hf _ (digit_range 0 k)). destruct (child_of _ _); [congruence|by eexists|done].
  - specialize (Hs _ (digit_range (S l) k)). specialize (Hf _ (digit_range (S l) k)). destruct Hs as [[_ ?]|(Hw & _ & E)]; [congruence|]. apply IH; [done|congruence].
Qed.

(** A layer in which slot [k] can be filled with any layer of the level below. *)
Definition close q (k : Z) p : slot :=
  match set_child q k p with
  | Layer bm ary c => Layer (if is_full p then set_bit k bm else bm) ary c
  | s => s
  end.
Definition hole (l : nat) q (k : Z) : Prop :=
  match q with Layer bm _ _ => Z.testbit bm k = false | _ => False end
  ∧ 0 <= k < 32 ∧ ∀ p, wf l p → 0 < count_of p → wf (S l) (close q k p) ∧ 0 < count_of (close q k p).

Lemma set_bit_spec bm k i : 0 <= k → Z.testbit (set_bit k bm) i = Z.testbit bm i || (i =? k).
Proof.
  intros Hk. unfold set_bit. rewrite Z.lor_spec, Z.shiftl_1_l. destruct (Z.eqb_spec i k) as [->|Hne].
  - by rewrite Z.pow2_bits_true.
  - by rewrite Z.pow2_bits_false by done.
Qed.
Lemma clear_bit_spec bm k i : 0 <= k → Z.testbit (clear_bit k bm) i = Z.testbit bm i && negb (i =? k).
Proof.
  intros Hk. unfold clear_bit. rewrite Z.ldiff_spec, Z.shiftl_1_l. destruct (Z.eqb_spec i k) as [->|Hne].
  - by rewrite Z.pow2_bits_true.
  - by rewrite Z.pow2_bits_false by done.
Qed.
Lemma u32_bits v : is_u32 v ↔ ∀ i, 32 <= i → Z.testbit v i = false.
Proof.
  split; [intros Hv i Hi; by apply (testbit_above 32)|]. intros H. assert (v = Z.land v (Z.ones 32)) as ->.
  { apply Z.bits_inj'. intros i Hi. rewrite Z.land_spec. destruct (decide (i < 32)); [by rewrite Z.ones_spec_low, andb_true_r by lia|]. by rewrite H by lia. }
  rewrite Z.land_ones by lia. apply Z.mod_pos_bound. lia.
Qed.
Lemma set_bit_u32 bm k : is_u32 bm → 0 <= k < 32 → is_u32 (set_bit k bm).
Proof. rewrite !u32_bits. intros Hb Hk i Hi. rewrite set_bit_spec, Hb by lia. apply Z.eqb_neq. lia. Qed.
Lemma clear_bit_u32 bm k : is_u32 bm → 0 <= k < 32 → is_u32 (clear_bit k bm).
Proof. rewrite !u32_bits. intros Hb Hk i Hi. by rewrite clear_bit_spec, Hb by lia. Qed.

Lemma hole_any l bm ary c k s :
  wf (S l) (Layer bm ary c) → 0 <= k < 32 → Z.testbit bm k = false → is_null s = false →
  hole l (Layer bm (<[Z.to_nat k := s]> ary) (c + 1 - weight (child_of ary k))) k.
Proof.
  intros (Hl & Hb & Hc & Hs) Hk Hbit Hn. split; [done|]. split; [done|]. intros p Hp Hcp. cbn [close set_child].
  rewrite list_insert_insert_eq. assert (is_null p = false) as Hnp by (by destruct p, l).
  assert (c + 1 - weight (child_of ary k) = used (<[Z.to_nat k := p]> ary)) as Hu by (rewrite used_insert, Hc by done; unfold weight at 3; rewrite Hnp; lia).
  split.
  - cbn [wf]. split; [by rewrite length_insert|]. split; [case_match; [by apply set_bit_u32|done]|]. split; [done|].
    intros m Hm. rewrite child_insert by done. case_decide as E.
    + subst m. right. split; [done|]. split; [done|]. destruct (is_full p); [|done]. rewrite set_bit_spec by lia. rewrite Z.eqb_refl. by rewrite orb_true_r.
    + destruct (Hs m Hm) as [[? Hbm]|(? & ? & Hbm)]; [left|right]; (split; [done|]); [|split; [done|]];
        (destruct (is_full p); [rewrite set_bit_spec by lia; rewrite (proj2 (Z.eqb_neq _ _)) by done; by rewrite orb_false_r|done]).
  - cbn [count_of]. rewrite Hu. unfold used. assert (p ∈ filter (λ s, is_null s = false) (<[Z.to_nat k := p]> ary)) as Hin.
    { apply list_elem_of_filter. split; [done|]. apply list_elem_of_insert. lia. }
    destruct (filter _ _); [by apply not_elem_of_nil in Hin|]. cbn [length]. lia.
Qed.

Lemma hole_here l bm ary c k :
  wf (S l) (Layer bm ary c) → 0 <= k < 32 → Z.testbit bm k = false → is_null (child_of ary k) = false → hole l (Layer bm ary c) k.
Proof.
  intros Hw Hk Hb Hn. pose proof (hole_any l bm ary c k (child_of ary k) Hw Hk Hb Hn) as H. destruct Hw as (Hl & _).
  unfold weight in H. rewrite Hn in H. replace (c + 1 - 1) with c in H by lia. rewrite list_insert_id in H; [done|].
  unfold child_of. destruct (lookup_lt_is_Some_2 ary (Z.to_nat k)) as [s Hs]; [lia|]. by rewrite Hs.
Qed.

(** ** Paths whose layers can be closed again *)

Fixpoint path_ok (l : nat) (path : list frame) : Prop :=
  match path with
  | [] => True
  | (q, k) :: path => hole l q k ∧ path_ok (S l) path
  end.

Lemma close_open q k p : is_full p = false → close q k p = set_child q k p.
Proof. intros H. unfold close. rewrite H. by destruct q. Qed.
Lemma hole_open l q k p : hole l q k → wf l p → 0 < count_of p → is_full p = false →
  wf (S l) (set_child q k p) ∧ 0 < count_of (set_child q k p) ∧ is_full (set_child q k p) = false.
Proof.
  intros (Hb & Hk & H) Hw Hc Hf. destruct (H p Hw Hc) as [H1 H2]. rewrite close_open in H1, H2 by done. split; [done|]. split; [done|].
  destruct q as [| |bm ary c]; [done..|]. cbn [set_child wf is_full] in *. destruct (bm =? IDR_FULL) eqn:E; [|done].
  rewrite full_bits in E by tauto. rewrite (E k Hk) in Hb. done.
Qed.

Lemma plug_ok l path n id p :
  path_at l path n id → path_ok l path → wf l p → 0 < count_of p → is_full p = false → wf (pred n) (plug p path) ∧ 0 < count_of (plug p path).
Proof.
  revert l p. induction path as [|[q k] path IH]; intros l p Ha Ho Hw Hc Hf; cbn [path_at path_ok plug] in *; [by subst|].
  destruct Ha as (_ & _ & Ha). destruct Ho as [Hh Ho]. destruct (hole_open l q k p) as (? & ? & ?); [done..|]. by apply (IH (S l)).
Qed.

Lemma plug_entries l path n id p p' k :
  path_at l path n id → 0 <= id < pw n → 0 <= k < pw n → (∀ j, entry l p j = entry l p' j) →
  entry (pred n) (plug p path) k = entry (pred n) (plug p' path) k.
Proof.
  intros Ha Hid Hk He. destruct (decide (k / pw (S l) = id / pw (S l))) as [E|E].
  - by rewrite !(entry_on_path l path n id).
  - by apply (entry_off_path l path n id).
Qed.

(** Marking the full layers gives a sound tree with the same entries. *)
Lemma mark_full_ok l path n id p :
  path_at l path n id → path_ok l path → 0 <= id < pw n → wf l p → 0 < count_of p →
  wf (pred n) (mark_full p path (id / pw l)) ∧ 0 < count_of (mark_full p path (id / pw l))
  ∧ ∀ k, 0 <= k < pw n → entry (pred n) (mark_full p path (id / pw l)) k = entry (pred n) (plug p path) k.
Proof.
  revert l p. induction path as [|[q m] path IH]; intros l p Ha Ho Hid Hw Hc; cbn [path_ok] in *; [cbn [path_at] in Ha; by subst|].
  destruct Ho as [Hh Ho]. destruct p as [| |bm ary c]; [by destruct l..|]. cbn [mark_full]. destruct (bm =? IDR_FULL) eqn:Ef.
  - cbn [path_at] in Ha. destruct Ha as (Hq & -> & Ha). destruct Hh as (Hb & Hm & H). destruct (H _ Hw Hc) as [H1 H2].
    destruct q as [| |bq aq cq]; [done..|]. cbn [set_child set_bitmap close is_full] in *. rewrite Ef in H1, H2.
    change IDR_BITS with (5 * Z.of_nat 1). rewrite shiftr_pw. change (pw 1) with 32. pose proof (pw_pos l).
    rewrite Z.div_div by lia. replace (pw l * 32) with (pw (S l)) by (rewrite pw_S; lia). rewrite land_mask. fold (digit (S l) id).
    destruct (IH (S l) _ Ha Ho Hid H1 H2) as (I1 & I2 & I3). split; [done|]. split; [done|]. intros k Hk. rewrite I3 by done.
    cbn [plug set_child]. apply (plug_entries (S l) path n id); try done.
  - change (plug (set_child q m (Layer bm ary c)) path) with (plug (Layer bm ary c) ((q, m) :: path)).
    destruct (plug_ok l ((q, m) :: path) n id (Layer bm ary c)); try done.
Qed.

(** ** Allocation *)

Definition clean (free : list slot) (cnt : Z) : Prop := Forall (λ p, p = zero_layer) free ∧ cnt = Z.of_nat (length free).

Lemma wf_zero l : wf l zero_layer.
Proof.
  assert (∀ m, child_of (replicate 32 Null) m = Null) as Hn.
  { intros m. unfold child_of. destruct (replicate 32 Null !! Z.to_nat m) eqn:E; [|done]. by apply lookup_replicate in E as [-> _]. }
  destruct l; cbn [wf zero_layer]; (split; [done|]); (split; [done|]); (split; [done|]); intros m Hm; rewrite Hn; [|left; split; [done|]]; apply Z.bits_0.
Qed.
Lemma entry_zero l k : entry l zero_layer k = None.
Proof.
  assert (∀ m, child_of (replicate 32 Null) m = Null) as Hn.
  { intros m. unfold child_of. destruct (replicate 32 Null !! Z.to_nat m) eqn:E; [|done]. by apply lookup_replicate in E as [-> _]. }
  destruct l; cbn [entry zero_layer]; rewrite Hn; [done|]. by destruct l.
Qed.

Lemma set_entry l bm ary c k : wf l (Layer bm ary c) → Z.testbit bm (digit l k) = true → is_Some (entry l (Layer bm ary c) k).
Proof.
  destruct l as [|l]; cbn [wf entry]; intros (_ & Hb & _ & Hs) Hf.
  - specialize (Hs _ (digit_range 0 k)). destruct (child_of _ _); [congruence|by eexists|done].
  - specialize (Hs _ (digit_range (S l) k)). destruct Hs as [[_ ?]|(Hw & _ & E)]; [congruence|]. apply wf_full_entry; [done|congruence].
Qed.

(** The ids below the slots that are skipped are taken. *)
Definition next_id (l : nat) (id m : Z) : Z := (id / pw (S l) * 32 + m) * pw l.
Lemma next_id_quot l id m : 0 <= m < 32 → next_id l id m / pw l = id / pw (S l) * 32 + m.
Proof. intros. unfold next_id. apply Z.div_mul. pose proof (pw_pos l). lia. Qed.
Lemma skipped l bm ary c id m j :
  wf l (Layer bm ary c) → (∀ i, digit l id <= i < m → Z.testbit bm i = true) → m <= 32 →
  id <= j < next_id l id m → j / pw (S l) = id / pw (S l) ∧ is_Some (entry l (Layer bm ary c) j).
Proof.
  intros Hw Hb Hm Hj. pose proof (pw_pos l). pose proof (pw_pos (S l)).
  assert (j / pw l < id / pw (S l) * 32 + m) as Hq by (apply Z.div_lt_upper_bound; [lia|unfold next_id in Hj; lia]).
  assert (id / pw l <= j / pw l) as Hq' by (apply Z.div_le_mono; lia).
  rewrite (quot_step l id), (quot_step l j) in *. pose proof (digit_range l id). pose proof (digit_range l j).
  assert (j / pw (S l) = id / pw (S l)) as E by lia. split; [done|]. apply set_entry; [done|]. apply Hb. lia.
Qed.

(** What the code computes with shifts. *)
Lemma shr_quot ub id l : (l ≤ 6)%nat → shr ub id (IDR_BITS * Z.of_nat l) = id / pw l.
Proof. intros Hl. unfold shr, IDR_BITS. rewrite (proj2 (Z.ltb_lt _ _)) by lia. apply shiftr_pw. Qed.
Lemma shl_quot ub v l : (l ≤ 6)%nat → 0 <= v * pw l < 2 ^ 32 → shl ub v (IDR_BITS * Z.of_nat l) = v * pw l.
Proof.
  intros Hl Hv. unfold shl, IDR_BITS. rewrite (proj2 (Z.ltb_lt _ _)) by lia. rewrite Z.shiftl_mul_pow2, <- pw_bits by lia. by apply u32_id.
Qed.

Section alloc.
Context (ub : Z → Z → Z) (L : nat) (M : Z → option Z) (start j0 ptr : Z).
Hypothesis HL : (1 ≤ L ≤ 7)%nat.
Hypothesis Hj0 : 0 <= start <= j0 ∧ j0 < pw L ∧ j0 < 2 ^ 31 ∧ M j0 = None.

(** The loop is at layer [p] of level [l]: the tree still stands for [M]. *)
Definition at_layer p (path : list frame) (l : nat) id : Prop :=
  path_at l path L id ∧ path_ok l path ∧ wf l p
  ∧ (p = zero_layer ∨ path = [] ∨ 0 < count_of p ∧ is_full p = false)
  ∧ ∀ k, 0 <= k < pw L → entry (pred L) (plug p path) k = M k.
Definition reached id : Prop := start <= id <= j0 ∧ ∀ j, start <= j < id → is_Some (M j).
Definition allocated id (t : slot) (free : list slot) (cnt : Z) : Prop :=
  start <= id <= j0 ∧ M id = None ∧ (∀ j, start <= j < id → is_Some (M j))
  ∧ wf (pred L) t ∧ 0 < count_of t ∧ clean free cnt
  ∧ ∀ k, 0 <= k < pw L → entry (pred L) t k = if decide (k = id) then Some ptr else M k.

Lemma at_layer_level p path l id : at_layer p path l id → L = (S l + length path)%nat.
Proof.
  intros (H & _). revert l H. clear. induction path as [|[q k] path IH]; intros l; cbn [path_at length]; [lia|]. intros (_ & _ & H). apply IH in H. lia.
Qed.
Lemma at_layer_same p path l id k : at_layer p path l id → k / pw (S l) = id / pw (S l) → at_layer p path l k.
Proof. intros (H & H') E. split; [by apply (path_same l path L id)|done]. Qed.
Lemma at_layer_top p path l id k : at_layer p path l id → 0 < count_of p → is_full p = false → at_layer (plug p path) [] (pred L) k.
Proof.
  intros (Ha & Ho & Hw & _ & He) Hc Hf. destruct (plug_ok l path L id p) as [H1 H2]; [done..|].
  split; [cbn [path_at]; lia|]. split; [done|]. split; [done|]. split; [by right; left|done].
Qed.
Lemma at_layer_entry p path l id k : at_layer p path l id → 0 <= k < pw L → k / pw (S l) = id / pw (S l) → M k = entry l p k.
Proof. intros (Ha & _ & _ & _ & He) Hk E. rewrite <- He by done. by apply (entry_on_path l path L id). Qed.

Lemma reached_next bm ary c path l id m :
  at_layer (Layer bm ary c) path l id → reached id → (∀ i, digit l id <= i < m → Z.testbit bm i = true) → m <= 32 →
  id <= next_id l id m → reached (next_id l id m).
Proof.
  intros Hat Hr Hb Hm Hle. assert (∀ j, start <= j < next_id l id m → j < pw L → is_Some (M j)) as Hs.
  { intros j Hj HjL. destruct (decide (j < id)); [apply Hr; lia|]. pose proof Hat as (_ & _ & Hw & _).
    destruct (skipped l bm ary c id m j) as [Hq Hs]; [done..|lia|]. rewrite (at_layer_entry (Layer bm ary c) path l id); [done|done|lia|done]. }
  destruct Hj0 as (? & ? & ? & Hn). assert (next_id l id m <= j0) as Hj.
  { destruct (decide (next_id l id m <= j0)) as [|Hgt]; [done|]. destruct (Hs j0) as [? E]; [lia|done|]. congruence. }
  split; [destruct Hr; lia|]. intros j Hjj. apply Hs; lia.
Qed.

(** An exhausted layer: the loop goes on above, past all of its ids. *)
Lemma exhausted bm ary c path l id :
  at_layer (Layer bm ary c) path l id → reached id → (∀ i, digit l id <= i < 32 → Z.testbit bm i = true) →
  ¬ (pw (S l) | id) ∧ reached (next_id l id 32)
  ∧ ∃ q k path', path = (q, k) :: path' ∧ at_layer (set_child q k (Layer bm ary c)) path' (S l) id
                 ∧ 0 < count_of (set_child q k (Layer bm ary c)) ∧ is_full (set_child q k (Layer bm ary c)) = false.
Proof.
  intros Hat Hr Hb. pose proof (pw_pos l) as Hp. pose proof (pw_pos (S l)) as Hp'. pose proof (pw_S l) as HpS.
  assert (next_id l id 32 = (id / pw (S l) + 1) * pw (S l)) as Hnx by (unfold next_id; rewrite HpS; lia).
  assert (id <= next_id l id 32) as Hle by (pose proof (Z.mod_pos_bound id (pw (S l)) Hp'); pose proof (Z.div_mod id (pw (S l))); lia).
  pose proof (reached_next _ _ _ _ _ _ 32 Hat Hr Hb (Z.le_refl _) Hle) as Hr'. destruct Hat as (Ha & Ho & Hw & Hm & He).
  destruct Hm as [Hz|[->|[Hc Hf]]].
  - exfalso. injection Hz as -> -> ->. pose proof (Hb _ (conj (Z.le_refl _) (proj2 (digit_range l id)))) as H. by rewrite Z.bits_0 in H.
  - exfalso. cbn [path_at] in Ha. destruct Hj0 as (? & ? & _), Hr as [? _], Hr' as [Hr' _]. rewrite Hnx, <- Ha, Z.div_small in Hr' by lia. lia.
  - split.
    { intros [z Hz]. cbn [is_full] in Hf. rewrite (proj2 (full_bits bm ltac:(by destruct l; cbn [wf] in Hw; apply Hw))) in Hf; [done|].
      intros i Hi. apply Hb. unfold digit. subst id. replace (z * pw (S l)) with (z * 32 * pw l) by lia. rewrite Z.div_mul, Z.mod_mul by lia. lia. }
    split; [done|]. destruct path as [|[q k] path]; [exfalso|].
    { cbn [path_at] in Ha. destruct Hj0 as (? & ? & _), Hr as [? _], Hr' as [Hr' _]. rewrite Hnx, <- Ha, Z.div_small in Hr' by lia. lia. }
    exists q, k, path. split; [done|]. cbn [path_at path_ok] in *. destruct Ha as (_ & _ & Ha). destruct Ho as [Hh Ho].
    destruct (hole_open l q k (Layer bm ary c)) as (? & ? & ?); [done..|]. split; [|done].
    split; [done|]. split; [done|]. split; [done|]. split; [by right; right|done].
Qed.

(** A free slot: the loop goes down there, with the id that it stands for. *)
Lemma below_id l id m : 0 <= m < 32 → digit l id <= m →
  let id' := if m =? digit l id then id else next_id l id m in
  digit l id' = m ∧ id' / pw (S l) = id / pw (S l) ∧ id <= id' ∧ (m ≠ digit l id → (pw l | id') ∧ id' = next_id l id m).
Proof.
  intros Hm Hle. pose proof (pw_pos l) as Hp. pose proof (pw_S l) as HpS. cbn. destruct (Z.eqb_spec m (digit l id)) as [->|Hne]; [split_and!; done || lia|].
  pose proof (next_id_quot l id m Hm) as Hq. rewrite (quot_step l) in Hq. pose proof (digit_range l (next_id l id m)).
  split; [lia|]. split; [lia|]. split; [|intros _; split; [by eexists|done]].
  pose proof (quot_step l id) as Hi. pose proof (Z.div_mod id (pw l)). pose proof (Z.mod_pos_bound id (pw l) Hp). unfold next_id. nia.
Qed.

Lemma code_next id l : (l ≤ 5)%nat → 0 <= id → next_id l id 32 < 2 ^ 32 →
  u32 (Z.lor id (shl ub 1 (IDR_BITS * Z.of_nat (S l)) - 1) + 1) = next_id l id 32.
Proof.
  intros Hl Hid Hn. assert (pw (S l) <= pw 6) by (unfold pw; apply Z.pow_le_mono_r; lia). pose proof (pw_pos (S l)). change (pw 6) with (2 ^ 30) in *.
  rewrite shl_quot by lia. rewrite Z.mul_1_l, pw_bits. rewrite lor_next by lia. rewrite <- pw_bits.
  assert (next_id l id 32 = (id / pw (S l) + 1) * pw (S l)) as <- by (unfold next_id; rewrite pw_S; lia).
  apply u32_id. split; [|done]. unfold next_id. apply Z.mul_nonneg_nonneg; [|pose proof (pw_pos l); lia]. pose proof (Z.div_pos id (pw (S l))). lia.
Qed.
Lemma code_below id l m : (l ≤ 6)%nat → 0 <= id → 0 <= m < 32 → next_id l id m < 2 ^ 32 ∨ m = digit l id →
  (if m =? digit l id then id else shl ub (Z.lxor (Z.lxor (id / pw l) (digit l id)) m) (IDR_BITS * Z.of_nat l))
  = if m =? digit l id then id else next_id l id m.
Proof.
  intros Hl Hid Hm Hn. destruct (Z.eqb_spec m (digit l id)) as [|Hne]; [done|]. destruct Hn as [Hn|]; [|done].
  pose proof (pw_pos l). pose proof (pw_pos (S l)). pose proof (Z.div_pos id (pw l)). pose proof (Z.div_pos id (pw (S l))).
  unfold digit. rewrite lxor_digit by lia. rewrite Z.div_div by lia. replace (pw l * 32) with (pw (S l)) by (rewrite pw_S; lia).
  rewrite shl_quot; [done|done|]. unfold next_id in Hn. split; [|done]. apply Z.mul_nonneg_nonneg; lia.
Qed.

(** The slot at the bottom is taken. *)
Lemma take_slot bm ary c path id free cnt :
  at_layer (Layer bm ary c) path 0 id → reached id → Z.testbit bm (digit 0 id) = false → clean free cnt →
  allocated id (mark_full (Layer (set_bit (digit 0 id) bm) (<[Z.to_nat (digit 0 id) := Ptr ptr]> ary) (c + 1)) path id) free cnt.
Proof.
  intros Hat Hr Hb Hf. pose proof Hat as (Ha & Ho & Hw & _ & He). destruct Hw as (Hl & Hu & Hc & Hs). pose proof (digit_range 0 id) as Hd.
  assert (child_of ary (digit 0 id) = Null) as Hn by (specialize (Hs _ Hd); destruct (child_of _ _); congruence || done).
  set (p' := Layer _ _ _). assert (0 <= id < pw L) as Hid by (destruct Hr, Hj0 as (? & ? & _); lia).
  assert (c + 1 = used (<[Z.to_nat (digit 0 id) := Ptr ptr]> ary)) as Hc' by (rewrite used_insert, Hn by done; cbn [weight is_null]; lia).
  assert (wf 0 p') as Hw'.
  { split; [by rewrite length_insert|]. split; [by apply set_bit_u32|]. split; [done|]. intros m Hm. rewrite child_insert, set_bit_spec by (done || lia).
    case_decide as E; [subst m; rewrite Z.eqb_refl; by rewrite orb_true_r|]. rewrite (proj2 (Z.eqb_neq _ _)), orb_false_r by done. by apply Hs. }
  assert (0 < count_of p') as Hc2 by (subst p'; cbn [count_of]; unfold used in Hc; lia).
  destruct (mark_full_ok 0 path L id p') as (H1 & H2 & H3); [done..|]. change (pw 0) with 1 in *. rewrite Z.div_1_r in *.
  destruct Hr as [Hr1 Hr2]. split; [done|]. split; [rewrite (at_layer_entry _ _ _ id id Hat) by done; cbn [entry]; by rewrite Hn|].
  split; [done|]. split; [done|]. split; [done|]. split; [done|]. intros k Hk. rewrite H3 by done.
  destruct (decide (k / pw 1 = id / pw 1)) as [E|E].
  - rewrite (entry_on_path 0 path L id) by done. subst p'. cbn [entry]. rewrite child_insert by (done || apply digit_range).
    case_decide as E2; case_decide as E3; [done| |subst; done|rewrite (at_layer_entry _ _ _ id k Hat) by done; done].
    exfalso. apply E3. assert (k / pw 0 = id / pw 0) as E4 by (by rewrite quot_split). change (pw 0) with 1 in E4. by rewrite !Z.div_1_r in E4.
  - rewrite (entry_off_path 0 path L id p' (Layer bm ary c)) by done. rewrite decide_False by congruence. by apply He.
Qed.

Lemma child_zero m : child_of (replicate 32 Null) m = Null.
Proof. unfold child_of. destruct (replicate 32 Null !! Z.to_nat m) eqn:E; [|done]. by apply lookup_replicate in E as [-> _]. Qed.

(** The layer below a free slot, which may have to be made. *)
Lemma descend_old bm ary c path l id :
  at_layer (Layer bm ary c) path (S l) id → Z.testbit bm (digit (S l) id) = false → child_of ary (digit (S l) id) ≠ Null →
  at_layer (child_of ary (digit (S l) id)) ((Layer bm ary c, digit (S l) id) :: path) l id.
Proof.
  intros Hat Hb Hn. pose proof Hat as (Ha & Ho & Hw & _ & He). pose proof Hw as (Hl & Hu & Hc & Hs). pose proof (digit_range (S l) id) as Hd.
  destruct (Hs _ Hd) as [[? _]|(H1 & H2 & H3)]; [done|]. assert (is_null (child_of ary (digit (S l) id)) = false) as Hnn by (by destruct (child_of _ _)).
  split; [done|]. split; [split; [by apply hole_here|done]|]. split; [done|]. split; [right; right; split; [done|congruence]|].
  intros k Hk. cbn [plug set_child]. rewrite list_insert_id; [by apply He|].
  unfold child_of. destruct (lookup_lt_is_Some_2 ary (Z.to_nat (digit (S l) id))) as [s E]; [lia|]. by rewrite E.
Qed.
Lemma descend_new bm ary c path l id :
  at_layer (Layer bm ary c) path (S l) id → reached id → Z.testbit bm (digit (S l) id) = false → child_of ary (digit (S l) id) = Null →
  at_layer zero_layer ((Layer bm (<[Z.to_nat (digit (S l) id) := zero_layer]> ary) (c + 1), digit (S l) id) :: path) l id.
Proof.
  intros Hat Hr Hb Hn. pose proof Hat as (Ha & Ho & Hw & _ & He). pose proof Hw as (Hl & Hu & Hc & Hs). pose proof (digit_range (S l) id) as Hd.
  pose proof (hole_any l bm ary c (digit (S l) id) zero_layer Hw Hd Hb eq_refl) as Hh. rewrite Hn in Hh. cbn [weight is_null] in Hh. rewrite Z.sub_0_r in Hh.
  split; [split; [by rewrite length_insert|done]|]. split; [done|]. split; [apply wf_zero|]. split; [by left|].
  intros k Hk. cbn [plug set_child]. rewrite list_insert_insert_eq, <- He by done.
  apply (plug_entries (S l) path L id); [done|destruct Hr, Hj0 as (? & ? & _); lia|done|].
  intros j. cbn [entry]. rewrite child_insert by (done || apply digit_range). case_decide as E; [|done]. rewrite E, Hn, entry_zero. by destruct l.
Qed.

(** There is room for the layers that are missing. *)
Definition room p (l : nat) (free : list slot) : Prop := p = zero_layer ∧ (l ≤ length free)%nat ∨ (L ≤ S (length free))%nat.
Definition steps (a l : nat) : nat := if (a <=? l)%nat then (L - a) * (L + 2) + l + 1 else l + 1.

Lemma steps_down (a l fuel : nat) : (a ≤ L)%nat → (steps a (S l) ≤ S fuel)%nat → (steps a l ≤ fuel)%nat.
Proof. intros Ha. unfold steps. generalize ((L - a) * (L + 2))%nat. intros. destruct (Nat.leb_spec a (S l)), (Nat.leb_spec a l); lia. Qed.
Lemma steps_aligned (a l fuel : nat) : (steps a (S l) ≤ S fuel)%nat → (steps (S l) l ≤ fuel)%nat.
Proof. unfold steps. generalize ((L - a) * (L + 2))%nat. intros. destruct (Nat.leb_spec a (S l)), (Nat.leb_spec (S l) l); lia. Qed.
Lemma steps_up (a l l' fuel : nat) : (a ≤ l)%nat → (S l ≤ l' < L)%nat → (steps a l ≤ S fuel)%nat → (steps (S l) l' ≤ fuel)%nat.
Proof.
  intros Ha Hl. unfold steps. rewrite (proj2 (Nat.leb_le a l)), (proj2 (Nat.leb_le (S l) l')) by lia. intros H.
  assert ((L - S l) * (L + 2) + (L + 2) ≤ (L - a) * (L + 2))%nat; [|lia].
  replace (L - a)%nat with ((L - S l) + (S l - a))%nat by lia. rewrite Nat.mul_add_distr_r. nia.
Qed.

(** The loop finds the first free id from [start] on. *)
Definition loop_finds fuel p (path : list frame) (l : nat) id (free : list slot) (cnt : Z) : Prop :=
  ∃ id' t free' cnt', sub_alloc_loop ub fuel (Z.of_nat L) ptr free cnt p path l id = Some (Found id', t, free', cnt') ∧ allocated id' t free' cnt'.
Definition loop_ok (fuel : nat) : Prop := ∀ p path l id free cnt a,
  at_layer p path l id → reached id → clean free cnt → room p l free → (pw a | id) → (a ≤ L)%nat → (steps a l ≤ fuel)%nat →
  loop_finds fuel p path l id free cnt.

Lemma aligned_less (a b : nat) id : (b ≤ a)%nat → (pw a | id) → (pw b | id).
Proof. intros Hle Ha. etrans; [|exact Ha]. unfold pw. exists (32 ^ Z.of_nat (a - b)). rewrite <- Z.pow_add_r by lia. f_equal. lia. Qed.

(** From an exhausted layer the loop goes on in the layer above, or from the top. *)
Lemma loop_up fuel bm ary c path l id free cnt a :
  loop_ok fuel → at_layer (Layer bm ary c) path l id → reached id → clean free cnt → room (Layer bm ary c) l free → (pw a | id) → (steps a l ≤ S fuel)%nat →
  (∀ i, digit l id <= i < 32 → Z.testbit bm i = true) →
  reached (next_id l id 32) ∧ (S l < L)%nat
  ∧ ∃ q k path', path = (q, k) :: path'
    ∧ (path' = [] ∨ id / pw (S (S l)) = next_id l id 32 / pw (S (S l)) → loop_finds fuel (set_child q k (Layer bm ary c)) path' (S l) (next_id l id 32) free cnt)
    ∧ loop_finds fuel (plug (set_child q k (Layer bm ary c)) path') [] (pred L) (next_id l id 32) free cnt.
Proof.
  intros IH Hat Hr Hc Hroom Hal Hs Hb. destruct (exhausted _ _ _ _ _ _ Hat Hr Hb) as (Hna & Hr' & q & k & path' & -> & Hat' & Hcq & Hfq).
  pose proof (at_layer_level _ _ _ _ Hat') as HlL. split; [done|]. split; [lia|]. exists q, k, path'. split; [done|].
  assert (pw (S l) | next_id l id 32) as Hal' by (exists (id / pw (S l) + 1); unfold next_id; rewrite pw_S; lia).
  assert (a ≤ l)%nat as Hal2 by (destruct (decide (a ≤ l)%nat); [done|]; exfalso; apply Hna, (aligned_less a); [lia|done]).
  assert (L ≤ S (length free))%nat as Hro.
  { destruct Hroom as [[E _]|Hroom]; [exfalso|done]. injection E as -> -> ->. pose proof (digit_range l id). specialize (Hb 31 ltac:(lia)). by rewrite Z.bits_0 in Hb. }
  split; [intros E|]; apply (IH _ _ _ _ _ _ (S l)); try done; try (by right); try lia; try (apply (steps_up a l); [done|lia|done]).
  - destruct E as [->|E]; [by destruct Hat' as (Hat' & ?); split|]. by apply (at_layer_same _ _ _ id).
  - by apply (at_layer_top _ _ (S l) id).
Qed.

(** Below a free slot the loop goes on in the layer there, or in a new one. *)
Lemma loop_down fuel bm ary c path l id free cnt a :
  loop_ok fuel → at_layer (Layer bm ary c) path (S l) id → reached id → clean free cnt → room (Layer bm ary c) (S l) free → (pw a | id) → (a ≤ L)%nat →
  (steps a l ≤ fuel)%nat → Z.testbit bm (digit (S l) id) = false →
  match child_of ary (digit (S l) id) with
  | Null => ∃ free' cnt', alloc_layer free cnt = Some (zero_layer, free', cnt')
      ∧ loop_finds fuel zero_layer ((Layer bm (<[Z.to_nat (digit (S l) id) := zero_layer]> ary) (c + 1), digit (S l) id) :: path) l id free' cnt'
  | child => loop_finds fuel child ((Layer bm ary c, digit (S l) id) :: path) l id free cnt
  end.
Proof.
  intros IH Hat Hr Hc Hroom Hal HaL Hs Hb. pose proof (at_layer_level _ _ _ _ Hat) as HlL. assert (child_of ary (digit (S l) id) = Null ∨ child_of ary (digit (S l) id) ≠ Null) as [E|E] by (destruct (child_of _ _); [by left|by right..]).
  - rewrite E. assert (S l ≤ length free)%nat as Hlen by (destruct Hroom as [[_ ?]|?]; lia). destruct Hc as [Hc1 Hc2].
    destruct free as [|f free]; [cbn in Hlen; lia|]. apply Forall_cons in Hc1 as [-> Hc1]. cbn [alloc_layer]. change (set_child zero_layer 0 Null) with zero_layer.
    eexists _, _. split; [done|]. apply (IH _ _ _ _ _ _ a); try done; [by apply descend_new|split; [done|cbn [length] in Hc2; lia]|].
    left. split; [done|]. cbn [length] in Hlen. lia.
  - pose proof (descend_old _ _ _ _ _ _ Hat Hb E) as Hat'. assert (room (child_of ary (digit (S l) id)) l free) as Hr'.
    { destruct Hroom as [[Ez _]|?]; [|by right]. exfalso. injection Ez as -> -> ->. apply E, child_zero. }
    assert (loop_finds fuel (child_of ary (digit (S l) id)) ((Layer bm ary c, digit (S l) id) :: path) l id free cnt) as H by by apply (IH _ _ _ _ _ _ a).
    by destruct (child_of ary (digit (S l) id)).
Qed.

Lemma alloc_loop_ok fuel : loop_ok fuel.
Proof.
  induction fuel as [|fuel IH]; intros p path l id free cnt a Hat Hr Hc Hroom Hal HaL Hs.
  { exfalso. revert Hs. unfold steps. generalize ((L - a) * (L + 2))%nat. intros. destruct (a <=? l)%nat; lia. }
  pose proof (at_layer_level _ _ _ _ Hat) as HlL. pose proof Hat as (_ & _ & Hw & _ & _). destruct p as [| |bm ary c]; [by destruct l..|].
  assert (is_u32 bm) as Hu by (by destruct l; apply Hw). assert (0 <= id < 2 ^ 31) as Hid by (destruct Hr as [? _], Hj0 as (? & ? & ? & _); lia).
  unfold loop_finds. cbn [sub_alloc_loop]. rewrite !shr_quot, land_mask by lia. fold (digit l id). pose proof (digit_range l id) as Hd.
  destruct (find_next_ok bm (digit l id) Hd Hu) as (Hm1 & Hm2 & Hm3). set (m := find_next_bit _ _ _ _) in *. change IDR_SIZE with 32.
  destruct (Z.eqb_spec m 32) as [Em|Em].
  - clear Hm3. rewrite Em in Hm2. destruct (loop_up fuel bm ary c path l id free cnt a) as (Hr' & HSl & q & k & path' & -> & H1 & H2); [done..|].
    rewrite code_next; [|lia|lia|destruct Hr' as [? _], Hj0 as (? & ? & ? & _); lia].
    replace (Z.to_nat (Z.of_nat L - 1)) with (pred L) by lia. destruct (_ =? _) eqn:Eb; [|exact H2]. apply H1.
    destruct path' as [|f path']; [by left|right]. cbn [length] in HlL. apply Z.eqb_eq in Eb.
    replace (Z.of_nat (S l) + 1) with (Z.of_nat (S (S l))) in Eb by lia. by rewrite !shr_quot in Eb by lia.
  - destruct (below_id l id m) as (Hd1 & Hd2 & Hd3 & Hd4); [lia|lia|]. specialize (Hm3 ltac:(lia)).
    assert (reached (if m =? digit l id then id else next_id l id m)) as Hr'.
    { revert Hd3. cbn zeta. destruct (Z.eqb_spec m (digit l id)); [done|]. intros Hd3. apply (reached_next _ _ _ _ _ _ m Hat); done || lia. }
    rewrite code_below; [|lia|lia|lia|]; cycle 1.
    { destruct (Z.eqb_spec m (digit l id)) as [|]; [by right|left]. destruct Hr' as [? _], Hj0 as (? & ? & ? & _). lia. }
    assert (∃ a', (pw a' | (if m =? digit l id then id else next_id l id m)) ∧ (a' ≤ L)%nat ∧ ∀ l', l = S l' → (steps a' l' ≤ fuel)%nat) as (a' & Ha1 & Ha2 & Ha3).
    { destruct (decide (m = digit l id)) as [->|Hne]; [exists a; rewrite Z.eqb_refl; split_and!; [done..|]; intros l' ->; by apply steps_down|].
      exists l. split; [by apply Hd4|]. split; [lia|]. intros l' ->. by apply (steps_aligned a). }
    apply (at_layer_same _ _ _ id _ Hat) in Hd2. revert Hd1 Hd2 Hr' Ha1. generalize (if m =? digit l id then id else next_id l id m). clear Hd3 Hd4.
    intros id' Hd1 Hat' Hr' Ha1. rewrite <- Hd1 in *. change MAX_ID_BIT with (2 ^ 31). rewrite (proj2 (Z.leb_gt _ _)) by (destruct Hr' as [? _], Hj0 as (? & ? & ? & _); lia).
    destruct l as [|l].
    + eexists _, _, _, _. split; [done|]. by apply take_slot.
    + pose proof (loop_down fuel bm ary c path l id' free cnt a' IH Hat' Hr' Hc Hroom Ha1 Ha2 (Ha3 l eq_refl) Hm3) as H. unfold child_of in H.
      destruct (default Null _); [|exact H..]. destruct H as (free' & cnt' & -> & H). exact H.
Qed.
End alloc.

(** ** The invariant of a tree and the map that it stands for *)

Definition height idp : nat := Z.to_nat (layers idp).
Definition lookup_id idp k : option Z := if (0 <=? k) && (k <? pw (height idp)) then entry (pred (height idp)) (top idp) k else None.
Record idr_ok idp : Prop := {
  ok_tree : top idp = Null ∧ layers idp = 0 ∨ 1 <= layers idp <= 7 ∧ wf (pred (height idp)) (top idp);
  ok_ids : ∀ k, 2 ^ 31 <= k → lookup_id idp k = None;
  ok_free : clean (id_free idp) (id_free_cnt idp);
}.

Lemma pw_mono (a b : nat) : (a ≤ b)%nat → pw a <= pw b.
Proof. intros. unfold pw. apply Z.pow_le_mono_r; lia. Qed.

Lemma pre_get_ok fuel free cnt : clean free cnt → 14 - cnt <= Z.of_nat fuel →
  clean (pre_get fuel free cnt).1 (pre_get fuel free cnt).2 ∧ 14 <= (pre_get fuel free cnt).2.
Proof.
  revert free cnt. induction fuel as [|fuel IH]; intros free cnt Hc Hf; cbn [pre_get]; [split; [done|cbn; lia]|].
  change IDR_FREE_MAX with 14. destruct (Z.ltb_spec cnt 14); [|split; [done|cbn; lia]].
  cbn [free_layer]. change (set_child zero_layer 0 Null) with zero_layer. apply IH; [|lia].
  destruct Hc as [Hc ->]. split; [by apply Forall_cons|cbn [length]; lia].
Qed.

(** [sub_alloc] in a tree that has a free id at or above the starting id. *)
Lemma sub_alloc_ok ub idp ptr start j0 :
  idr_ok idp → 1 <= layers idp → 7 <= id_free_cnt idp → 0 <= start <= j0 → j0 < pw (height idp) → j0 < 2 ^ 31 → lookup_id idp j0 = None →
  ∃ id idp', sub_alloc ub idp ptr start = Some (Found id, idp') ∧ idr_ok idp' ∧ start <= id <= j0
    ∧ layers idp' = layers idp ∧ lookup_id idp id = None ∧ (∀ j, start <= j < id → is_Some (lookup_id idp j))
    ∧ ∀ k, lookup_id idp' k = if decide (k = id) then Some ptr else lookup_id idp k.
Proof.
  intros Hok Hl Hf Hs Hj Hj31 Hn. destruct (ok_tree idp Hok) as [[_ ?]|[Hl7 Hw]]; [lia|]. destruct (ok_free idp Hok) as [Hfr Hcnt].
  set (L := height idp) in *. assert (Z.of_nat L = layers idp) as HL by (unfold L, height; lia).
  destruct (alloc_loop_ok ub L (lookup_id idp) start j0 ptr ltac:(lia) ltac:(done) alloc_fuel (top idp) [] (pred L) start (id_free idp) (id_free_cnt idp) 0%nat) as (id & t & free & cnt & E & Ha); try done; try lia.
  - split; [cbn [path_at]; lia|]. split; [done|]. split; [done|]. split; [by right; left|]. intros k Hk. cbn [plug]. unfold lookup_id. fold L.
    rewrite (proj2 (Z.leb_le _ _)), (proj2 (Z.ltb_lt _ _)) by lia. done.
  - split; [lia|]. intros; lia.
  - right. lia.
  - exists start. change (pw 0) with 1. lia.
  - unfold steps, alloc_fuel. cbn [Nat.leb]. assert (L ≤ 7)%nat by lia. nia.
  - destruct Ha as (H1 & H2 & H3 & H4 & H5 & H6 & H7). exists id, (mk_idr t free (layers idp) cnt).
    unfold sub_alloc. rewrite u32_id by (unfold is_u32; lia). replace (Z.to_nat (layers idp - 1)) with (pred L) by lia. rewrite <- HL at 1. rewrite E. cbn [mbind option_bind].
    assert (∀ k, lookup_id (mk_idr t free (layers idp) cnt) k = if decide (k = id) then Some ptr else lookup_id idp k) as Hlk.
    { intros k. unfold lookup_id at 1. cbn [top]. change (height (mk_idr t free (layers idp) cnt)) with L.
      destruct (Z.leb_spec 0 k), (Z.ltb_spec k (pw L)); cbn [andb]; [by apply H7|..]; (rewrite decide_False by lia); unfold lookup_id; fold L.
      - by rewrite (proj2 (Z.ltb_ge _ _)), andb_false_r by lia.
      - by rewrite (proj2 (Z.leb_gt _ _)) by lia.
      - by rewrite (proj2 (Z.leb_gt _ _)) by lia. }
    split; [done|]. split; [|split_and!; done || lia]. constructor; cbn [top layers id_free id_free_cnt]; [by right| |done].
    intros k Hk. rewrite Hlk. rewrite decide_False by lia. by apply (ok_ids idp Hok).
Qed.

(** *** Growing *)

Lemma used_zero ary m : used ary = 0 → child_of ary m = Null.
Proof.
  unfold used, child_of. intros H. destruct (ary !! Z.to_nat m) as [s|] eqn:E; [|done]. cbn.
  destruct (is_null s) eqn:En; [by destruct s|]. exfalso. apply list_elem_of_lookup_2 in E.
  assert (s ∈ filter (λ s, is_null s = false) ary) as Hin by (by apply list_elem_of_filter). destruct (filter _ _); [by apply not_elem_of_nil in Hin|cbn in H; lia].
Qed.
Lemma empty_is_zero l p : wf l p → count_of p = 0 → p = zero_layer.
Proof.
  destruct p as [| |bm ary c]; [by destruct l..|]. cbn [count_of]. intros Hw ->.
  assert (length ary = 32%nat ∧ is_u32 bm ∧ 0 = used ary ∧ ∀ m, 0 <= m < 32 → Z.testbit bm m = false) as (Hl & Hu & Hc & Hb).
  { destruct l; destruct Hw as (? & ? & Hc & Hs); (split; [done|]); (split; [done|]); (split; [done|]); intros m Hm; specialize (Hs m Hm);
      rewrite (used_zero ary m) in Hs by done; [done|]. by destruct Hs as [[_ ?]|(? & _)]; [|destruct l]. }
  unfold zero_layer. f_equal.
  - apply Z.bits_inj'. intros i Hi. rewrite Z.bits_0. destruct (decide (i < 32)); [by apply Hb|]. rewrite u32_bits in Hu. apply Hu. lia.
  - symmetry. apply replicate_as_Forall. split; [done|]. apply Forall_lookup. intros i s E. pose proof (used_zero ary (Z.of_nat i) ltac:(done)) as Hn.
    unfold child_of in Hn. by rewrite Nat2Z.id, E in Hn.
Qed.
Lemma empty_wf l l' p : wf l p → count_of p = 0 → wf l' p ∧ ∀ k, entry l' p k = None.
Proof. intros Hw Hc. rewrite (empty_is_zero l p) by done. split; [apply wf_zero|intros; apply entry_zero]. Qed.

(** A layer on top of a tree. *)
Lemma new_top_ok l p : wf l p → 0 < count_of p →
  let new := Layer (if is_full p then set_bit 0 0 else 0) (<[0%nat := p]> (replicate 32 Null)) 1 in
  wf (S l) new ∧ ∀ k, 0 <= k < pw (S (S l)) → entry (S l) new k = if k <? pw (S l) then entry l p k else None.
Proof.
  intros Hw Hc new. assert (hole l (Layer 0 (<[0%nat := zero_layer]> (replicate 32 Null)) 1) 0) as Hh.
  { apply (hole_any l 0 (replicate 32 Null) 0 0 zero_layer); [apply (wf_zero (S l))|lia|apply Z.bits_0|done]. }
  destruct Hh as (_ & _ & Hh). destruct (Hh p Hw Hc) as [H1 _]. cbn [close set_child] in H1. change (Z.to_nat 0) with 0%nat in H1. rewrite list_insert_insert_eq in H1.
  split; [done|]. intros k Hk. subst new. cbn [entry]. change 0%nat with (Z.to_nat 0) at 1. rewrite child_insert by (done || apply digit_range || lia). rewrite child_zero.
  pose proof (pw_pos (S l)). pose proof (pw_S (S l)). unfold digit. destruct (Z.ltb_spec k (pw (S l))).
  - rewrite Z.div_small by lia. by rewrite decide_True.
  - rewrite decide_False; [by destruct l|]. assert (1 <= k / pw (S l)) by (apply Z.div_le_lower_bound; lia). assert (k / pw (S l) < 32) by (apply Z.div_lt_upper_bound; lia).
    rewrite Z.mod_small by lia. lia.
Qed.

Lemma build_up_ok fuel built p (n : nat) id free cnt :
  wf (pred n) p → (1 ≤ n ≤ 7)%nat → (7 - n < fuel)%nat → 0 <= id < 2 ^ 31 → clean free cnt → 7 - Z.of_nat n <= cnt →
  ∃ p' n' free' cnt', build_up fuel built p (Z.of_nat n) id free cnt = inr (p', Z.of_nat n', free', cnt')
    ∧ (n ≤ n' ≤ 7)%nat ∧ (n' = n ∨ pw n <= id) ∧ id < pw n' ∧ wf (pred n') p' ∧ clean free' cnt' ∧ cnt - (Z.of_nat n' - Z.of_nat n) <= cnt'
    ∧ ∀ k, 0 <= k < pw n' → entry (pred n') p' k = if k <? pw n then entry (pred n) p k else None.
Proof.
  revert built p n free cnt. induction fuel as [|fuel IH]; intros built p n free cnt Hw Hn Hfu Hid Hc Hcnt; [lia|].
  destruct p as [| |bm ary c]; [by destruct (pred n)..|]. cbn [build_up]. change MAX_LEVEL with 7. change IDR_BITS with 5. rewrite Z.shiftl_1_l, Z.mul_comm, <- pw_bits.
  destruct (Z.ltb_spec (Z.of_nat n) 7) as [H7|H7]; cycle 1.
  { assert (n = 7%nat) as -> by lia. exists (Layer bm ary c), 7%nat, free, cnt. change (pw 7) with (2 ^ 35). split_and!; done || lia || (by left) || idtac.
    intros k Hk. by rewrite (proj2 (Z.ltb_lt _ _)) by lia. }
  destruct (Z.leb_spec (pw n) id) as [Hle|Hlt]; cbn [andb]; cycle 1.
  { exists (Layer bm ary c), n, free, cnt. split_and!; done || lia || (by left) || idtac. intros k Hk. by rewrite (proj2 (Z.ltb_lt _ _)) by lia. }
  replace (Z.of_nat n + 1) with (Z.of_nat (S n)) by lia. pose proof (pw_mono n (S n) ltac:(lia)).
  destruct (Z.eqb_spec c 0) as [->|Hc0].
  - destruct (empty_wf (pred n) (pred (S n)) _ Hw eq_refl) as [Hw' Hnone]. destruct (empty_wf (pred n) (pred n) _ Hw eq_refl) as [_ Hnone'].
    destruct (IH built _ (S n) free cnt Hw') as (p' & n' & free' & cnt' & E & H1 & H2 & H3 & H4 & H5 & H6 & H7'); [lia|lia|done|done|lia|].
    exists p', n', free', cnt'. split; [done|]. split; [lia|]. split; [by right|]. split; [done|]. split; [done|]. split; [done|]. split; [lia|].
    intros k Hk. rewrite H7' by done. rewrite Hnone, Hnone'. by repeat case_match.
  - destruct Hc as [Hc ->]. destruct free as [|f free]; [cbn in Hcnt; lia|]. apply Forall_cons in Hc as [-> Hc]. cbn [alloc_layer].
    change (set_child zero_layer 0 Null) with (Layer 0 (replicate 32 Null) 0). cbn iota beta. assert (0 < c) as Hcpos by (destruct n as [|[|n]]; cbn in Hw; [lia|..]; unfold used in Hw; lia).
    destruct (new_top_ok (pred n) (Layer bm ary c) Hw Hcpos) as [Hw' He]. replace (S (pred n)) with n in * by lia. cbn [is_full] in *.
    destruct (IH (S built) _ (S n) free (Z.of_nat (length (zero_layer :: free)) - 1) Hw') as (p' & n' & free' & cnt' & E & H1 & H2 & H3 & H4 & H5 & H6 & H7'); [lia|lia|done|split; [done|cbn [length]; lia]|cbn [length] in *; lia|].
    exists p', n', free', cnt'. split; [done|]. split; [lia|]. split; [by right|]. split; [done|]. split; [done|]. split; [done|]. split; [cbn [length] in *; lia|].
    intros k Hk. rewrite H7' by done. cbn [pred]. destruct (Z.ltb_spec k (pw (S n))).
    + by rewrite He by lia.
    + by rewrite (proj2 (Z.ltb_ge _ _)) by lia.
Qed.

Definition after_alloc ub fuel ptr (r : option (alloc_result * idr_context)) : option (Z * idr_context) :=
  '(r, idp) ← r;
  match r with
  | Found v => Some (v, idp)
  | Grow id => get_new_above_loop ub fuel idp ptr (to_int id)
  | Fails => Some (-1, idp)
  end.

Lemma get_new_above_S ub fuel idp ptr id p n free cnt p' n' free' cnt' :
  first_layer idp = Some (p, n, free, cnt) → build_up 8 0 p n id free cnt = inr (p', n', free', cnt') →
  get_new_above_loop ub (S fuel) idp ptr id = after_alloc ub fuel ptr (sub_alloc ub (mk_idr p' free' n' cnt') ptr id).
Proof. intros E1 E2. cbn [get_new_above_loop]. rewrite E1. cbv iota beta. rewrite E2. unfold after_alloc. by generalize (sub_alloc ub (mk_idr p' free' n' cnt') ptr id). Qed.

Lemma lookup_grown idp p (n : nat) free cnt :
  (height idp ≤ n)%nat →
  (∀ k, 0 <= k < pw n → entry (pred n) p k = if k <? pw (height idp) then entry (pred (height idp)) (top idp) k else None) →
  ∀ k, lookup_id (mk_idr p free (Z.of_nat n) cnt) k = lookup_id idp k.
Proof.
  intros Hn He k. pose proof (pw_mono _ _ Hn). unfold lookup_id at 1, height at 1 2. cbn [layers top]. rewrite Nat2Z.id. unfold lookup_id.
  destruct (Z.leb_spec 0 k), (Z.ltb_spec k (pw n)); cbn [andb]; [by apply He|..]; try done. by rewrite (proj2 (Z.ltb_ge _ _)) by lia.
Qed.

(** The tree is given room for the starting id; the map stays. *)
Lemma grow_ok ub idp id :
  idr_ok idp → 14 <= id_free_cnt idp → 0 <= id < 2 ^ 31 →
  ∃ idp1, (∀ fuel ptr, get_new_above_loop ub (S fuel) idp ptr id = after_alloc ub fuel ptr (sub_alloc ub idp1 ptr id))
    ∧ idr_ok idp1 ∧ (∀ k, lookup_id idp1 k = lookup_id idp k) ∧ id < pw (height idp1) ∧ 1 <= layers idp1 ∧ 7 <= id_free_cnt idp1
    ∧ (lookup_id idp id = None ∨ layers idp1 = layers idp ∧ id_free_cnt idp <= id_free_cnt idp1).
Proof.
  intros Hok Hc Hid. pose proof (ok_free idp Hok) as Hf. destruct (ok_tree idp Hok) as [[Ht Hl]|[Hl Hw]].
  - destruct (id_free idp) as [|f free] eqn:Ef; [destruct Hf as [_ Hf]; cbn [length] in Hf; lia|]. destruct Hf as [Hf1 Hf2]. apply Forall_cons in Hf1 as [-> Hf1]. cbn [length] in Hf2.
    assert (∀ k, lookup_id idp k = None) as Hnone by (intros k; unfold lookup_id; rewrite Ht; destruct (pred _); by case_match).
    destruct (build_up_ok 8 0 zero_layer 1 id free (id_free_cnt idp - 1)) as (p & n & free' & cnt' & E & H1 & H2 & H3 & H4 & H5 & H6 & H7);
      [apply wf_zero|lia|lia|done|split; [done|lia]|lia|].
    exists (mk_idr p free' (Z.of_nat n) cnt'). assert (∀ k, lookup_id (mk_idr p free' (Z.of_nat n) cnt') k = lookup_id idp k) as Hlk.
    { apply lookup_grown; [unfold height; lia|]. intros k Hk. rewrite H7 by done. rewrite Ht, !entry_zero. destruct (pred (height idp)); by repeat case_match. }
    split.
    { intros fuel ptr. apply (get_new_above_S ub fuel idp ptr id zero_layer (Z.of_nat 1) free (id_free_cnt idp - 1)); [|done]. unfold first_layer. by rewrite Ht, Ef. }
    assert (height (mk_idr p free' (Z.of_nat n) cnt') = n) as Hh by (unfold height; cbn [layers]; lia). cbn [layers id_free_cnt].
    split; [|split_and!; try done; try lia; [by rewrite Hh|left; by apply Hnone]].
    constructor; rewrite ?Hh; cbn [top layers id_free id_free_cnt]; [right; split; [lia|done]|intros; by rewrite Hlk|done].
  - assert (Z.of_nat (height idp) = layers idp) as HL by (unfold height; lia).
    destruct (build_up_ok 8 0 (top idp) (height idp) id (id_free idp) (id_free_cnt idp)) as (p & n & free' & cnt' & E & H1 & H2 & H3 & H4 & H5 & H6 & H7); [done|lia|lia|done|done|lia|].
    exists (mk_idr p free' (Z.of_nat n) cnt'). assert (∀ k, lookup_id (mk_idr p free' (Z.of_nat n) cnt') k = lookup_id idp k) as Hlk by (apply lookup_grown; [lia|done]).
    assert (height (mk_idr p free' (Z.of_nat n) cnt') = n) as Hh by (unfold height; cbn [layers]; lia).
    split. { intros fuel ptr. apply (get_new_above_S ub fuel idp ptr id _ _ _ _ _ _ _ _) with (2 := E). unfold first_layer. rewrite HL. by destruct (top idp); [destruct (pred (height idp))|..]. }
    cbn [layers id_free_cnt]. split; [|split_and!; try done; try lia; [by rewrite Hh|]].
    + constructor; rewrite ?Hh; cbn [top layers id_free id_free_cnt]; [right; split; [lia|done]| |done].
      intros. rewrite Hlk. by apply (ok_ids idp Hok).
    + destruct H2 as [->|H2]; cycle 1. { left. unfold lookup_id. by rewrite (proj2 (Z.ltb_ge _ _)), andb_false_r by lia. }
      right. lia.
Qed.

(** *** Allocating *)

(** [id] was allocated for [ptr]: it is the first free one from [start] on. *)
Record new_id (start : Z) idp (ptr id : Z) idp' : Prop := {
  new_ok : idr_ok idp';
  new_range : start <= id < 2 ^ 31;
  new_inside : id < pw (height idp');
  new_free : lookup_id idp id = None;
  new_first : ∀ j, start <= j < id → is_Some (lookup_id idp j);
  new_map : ∀ k, lookup_id idp' k = if decide (k = id) then Some ptr else lookup_id idp k;
}.

Lemma new_id_same start idp idp1 ptr id idp' : (∀ k, lookup_id idp1 k = lookup_id idp k) → new_id start idp1 ptr id idp' → new_id start idp ptr id idp'.
Proof.
  intros E [H1 H2 H3 H4 H5 H6]. constructor; [done|done|done|by rewrite <- E|intros; rewrite <- E; by apply H5|]. intros k. rewrite H6. by rewrite E.
Qed.

Lemma idr_pre_get_ok idp : idr_ok idp →
  idr_ok (idr_pre_get idp) ∧ 14 <= id_free_cnt (idr_pre_get idp) ∧ layers (idr_pre_get idp) = layers idp ∧ ∀ k, lookup_id (idr_pre_get idp) k = lookup_id idp k.
Proof.
  intros [H1 H2 H3]. unfold idr_pre_get. destruct (pre_get_ok (Z.to_nat IDR_FREE_MAX) _ _ H3) as [Hc Hn]; [destruct H3; change IDR_FREE_MAX with 14; lia|].
  destruct (pre_get _ _ _) as [free cnt]. cbn [fst snd] in *. split; [|done]. by constructor.
Qed.

Lemma above_first ub fuel idp ptr start j0 :
  idr_ok idp → 14 <= id_free_cnt idp → 0 <= start <= j0 → j0 < 2 ^ 31 → lookup_id idp j0 = None → j0 = start ∨ j0 < pw (height idp) →
  ∃ id idp', get_new_above_loop ub (S fuel) idp ptr start = Some (id, idp') ∧ new_id start idp ptr id idp' ∧ id <= j0.
Proof.
  intros Hok Hc Hs Hj Hn Hin. destruct (grow_ok ub idp start Hok Hc) as (idp1 & E & Hok1 & Hlk & Hst & Hl1 & Hc1 & Hor); [lia|].
  assert (∃ j1, start <= j1 <= j0 ∧ j1 < pw (height idp1) ∧ lookup_id idp1 j1 = None) as (j1 & Hj1 & Hj1' & Hj1n).
  { destruct Hor as [Hor|[El _]]; [exists start; rewrite Hlk; split_and!; done || lia|]. exists j0. rewrite Hlk. split; [lia|]. split; [|done].
    destruct Hin as [->|Hin]; [done|]. unfold height in *. by rewrite El. }
  destruct (sub_alloc_ok ub idp1 ptr start j1) as (id & idp' & E' & Hok' & Hr & Hl & Hf & Hu & Hm); [done|done|done|lia|done|lia|done|].
  exists id, idp'. rewrite E, E'. split; [done|]. split; [|lia]. apply (new_id_same _ _ idp1); [done|]. constructor; try done; [lia|]. unfold height in *. rewrite Hl. lia.
Qed.

(** A layer below which every id is taken is marked full. *)
Lemma all_taken_full l p : wf l p → (∀ k, 0 <= k < pw (S l) → is_Some (entry l p k)) → is_full p = true.
Proof.
  revert p. induction l as [|l IH]; intros [| |bm ary c] Hw Hall; try done; cbn [is_full]; apply full_bits; try (by apply Hw); intros m Hm; destruct Hw as (_ & _ & _ & Hs); specialize (Hs m Hm).
  - destruct (Hall m) as [v Hv]; [change (pw 1) with 32; lia|]. cbn [entry] in Hv. unfold digit in Hv. change (pw 0) with 1 in Hv. rewrite Z.div_1_r, Z.mod_small in Hv by lia.
    by destruct (child_of ary m).
  - pose proof (pw_pos (S l)). pose proof (pw_S (S l)). assert (∀ k, 0 <= k < pw (S l) → is_Some (entry l (child_of ary m) k)) as Hall'.
    { intros k Hk. destruct (Hall (m * pw (S l) + k)) as [v Hv]; [nia|]. cbn [entry] in Hv. unfold digit in Hv. rewrite Z.div_add_l, Z.div_small, Z.add_0_r, Z.mod_small in Hv by lia.
      exists v. rewrite <- Hv. symmetry. apply entry_mod. by rewrite Z.add_comm, Z.mod_add by lia. }
    destruct Hs as [[E _]|(Hw & _ & ->)]; [|by apply IH]. destruct (Hall' 0) as [v Hv]; [lia|]. rewrite E in Hv. by destruct l.
Qed.

(** In a full tree the search from 0 asks for one more layer. *)
Lemma full_tree_grows ub idp ptr :
  idr_ok idp → 1 <= layers idp <= 6 → (∀ k, 0 <= k < pw (height idp) → is_Some (lookup_id idp k)) →
  sub_alloc ub idp ptr 0 = Some (Grow (pw (height idp)), idp).
Proof.
  intros Hok Hl Hall. destruct (ok_tree idp Hok) as [[_ ?]|[_ Hw]]; [lia|]. set (L := height idp) in *. assert (Z.of_nat L = layers idp) as HL by (unfold L, height; lia).
  assert (is_full (top idp) = true) as Hf.
  { apply (all_taken_full (pred L)); [done|]. replace (S (pred L)) with L by lia. intros k Hk. destruct (Hall k Hk) as [v Hv]. unfold lookup_id in Hv.
    rewrite (proj2 (Z.leb_le _ _)), (proj2 (Z.ltb_lt _ _)) in Hv by (done || apply Hk). by eexists. }
  unfold sub_alloc, alloc_fuel. rewrite u32_id by done. replace (Z.to_nat (layers idp - 1)) with (pred L) by lia.
  destruct idp as [t free n cnt]. cbn [top id_free layers id_free_cnt] in *. destruct t as [| |bm ary c]; [done..|]. cbn [is_full] in Hf. apply Z.eqb_eq in Hf as ->.
  change 256%nat with (S 255). generalize 255%nat. intros fuel. cbn [sub_alloc_loop]. rewrite shr_quot, land_mask by lia. rewrite Z.div_0_l by (pose proof (pw_pos (pred L)); lia).
  change (find_next_bit 32 (Z.lxor IDR_FULL IDR_FULL) IDR_SIZE (0 mod 32)) with 32. change (32 =? IDR_SIZE) with true. cbv iota. cbn [mbind option_bind].
  replace (S (pred L)) with L by lia. assert (u32 (Z.lor 0 (shl ub 1 (IDR_BITS * Z.of_nat L) - 1) + 1) = pw L) as ->; [|done].
  pose proof (pw_mono L 6 ltac:(lia)). pose proof (pw_pos L). change (pw 6) with (2 ^ 30) in *. rewrite shl_quot, Z.mul_1_l, Z.lor_0_l by lia. rewrite u32_id by (unfold is_u32; lia). lia.
Qed.

Lemma free_or_full idp n : (∃ j, 0 <= j < n ∧ lookup_id idp j = None) ∨ ∀ j, 0 <= j < n → is_Some (lookup_id idp j).
Proof.
  destruct (decide (n < 0)) as [|Hn]; [right; lia|]. assert (0 <= n) as Hn' by lia. clear Hn. revert n Hn'. apply natlike_ind; [right; lia|].
  intros n Hn [(j & Hj & E)|Hall]; [left; exists j; split; [lia|done]|]. destruct (lookup_id idp n) eqn:E; [right|left; exists n; split; [lia|done]].
  intros j Hj. destruct (decide (j = n)) as [->|]; [by eexists|]. apply Hall. lia.
Qed.

(** Allocation from 0 gives the lowest free id. *)
Lemma get_new_int_ok ub idp ptr j0 :
  idr_ok idp → 0 <= j0 < 2 ^ 31 → lookup_id idp j0 = None →
  ∃ id idp', idr_get_new_above_int ub idp ptr 0 = Some (id, idp') ∧ new_id 0 idp ptr id idp'.
Proof.
  intros Hok Hj Hn. destruct (idr_pre_get_ok idp Hok) as (Hok1 & Hc1 & Hl1 & Hlk1). unfold idr_get_new_above_int. rewrite <- Hlk1 in Hn.
  enough (∃ id idp', get_new_above_loop ub 8 (idr_pre_get idp) ptr 0 = Some (id, idp') ∧ new_id 0 (idr_pre_get idp) ptr id idp') as (id & idp' & E & Hnew).
  { exists id, idp'. split; [done|]. by apply (new_id_same _ _ (idr_pre_get idp)). }
  revert Hok1 Hc1 Hn. generalize (idr_pre_get idp). clear idp Hok Hl1 Hlk1. intros idp Hok Hc Hn.
  destruct (free_or_full idp (Z.min (2 ^ 31) (pw (height idp)))) as [(j & Hj1 & Hj2)|Hfull].
  { destruct (above_first ub 7 idp ptr 0 j) as (id & idp' & ? & ? & _); [done|done|lia|lia|done|right; lia|]. by exists id, idp'. }
  assert (pw (height idp) <= j0) as Hge. { destruct (decide (pw (height idp) <= j0)); [done|]. destruct (Hfull j0) as [v Hv]; [lia|congruence]. }
  assert (1 <= layers idp <= 6) as Hl.
  { destruct (ok_tree idp Hok) as [[Ht Hl]|[Hl _]].
    - exfalso. destruct (Hfull 0) as [v Hv]; [pose proof (pw_pos (height idp)); lia|]. unfold lookup_id in Hv. rewrite Ht in Hv. by case_match; [destruct (pred _)|].
    - split; [lia|]. destruct (decide (layers idp = 7)) as [E|]; [|lia]. exfalso. unfold height in Hge. rewrite E in Hge. change (pw _) with (2 ^ 35) in Hge. lia. }
  rewrite Z.min_r in Hfull by lia. pose proof (pw_pos (height idp)) as Hpos.
  destruct (grow_ok ub idp 0 Hok Hc) as (idp1 & E & Hok1 & Hlk & _ & Hl1 & _ & [Hor|[El Hc1]]); [lia|destruct (Hfull 0) as [v Hv]; [lia|congruence]|].
  assert (height idp1 = height idp) as Hh by (unfold height; by rewrite El).
  rewrite E, full_tree_grows; [|done|lia|intros k Hk; rewrite Hlk; apply Hfull; by rewrite <- Hh]. unfold after_alloc. cbn [mbind option_bind]. rewrite Hh.
  assert (to_int (pw (height idp)) = pw (height idp)) as -> by (unfold to_int; by rewrite (proj2 (Z.ltb_lt _ _)) by lia).
  destruct (above_first ub 6 idp1 ptr (pw (height idp)) (pw (height idp))) as (id & idp' & E' & [H1 H2 H3 H4 H5 H6] & _);
    [done|lia|lia|lia|unfold lookup_id; by rewrite Hh, Z.ltb_irrefl, andb_false_r|by left|].
  exists id, idp'. split; [done|]. apply (new_id_same _ _ idp1); [done|]. constructor; try done; [lia|].
  intros j Hjj. destruct (decide (j < pw (height idp))); [rewrite Hlk; apply Hfull; lia|apply H5; lia].
Qed.
