(* ===== verification/IdTreeRemove.v ===== *)
(** * Finding and removing ids

    [_idr_find] and [_idr_remove] follow the digits of the id from the top of the
    tree.  Neither checks that the tree is tall enough for the id: the digits above
    its top are ignored.  The interface of the tree is put together at the end:
    what a sequence of calls does to the map that the tree stands for. *)
From S2P Require Import Prelude IdTree IdTreeProps.
Import Idr.

Implicit Types (p q : slot) (idp : idr_context) (k id : Z) (l : nat).

Definition slot_of (v : option Z) : slot := match v with Some v => Ptr v | None => Null end.

(** ** Finding *)

Lemma find_walk_end fuel n id v : n < 5 → find_walk fuel n id (slot_of v) = slot_of v.
Proof. intros Hn. destruct fuel; [done|]. by destruct v. Qed.
Lemma find_walk_ok fuel l p id : wf l p → (l < fuel)%nat → find_walk fuel (5 * Z.of_nat (S l)) id p = slot_of (entry l p id).
Proof.
  revert fuel p. induction l as [|l IH]; intros [|fuel] [| |bm ary c] Hw Hf; try done; try lia; cbn [find_walk entry]; change IDR_BITS with 5;
    rewrite (proj2 (Z.leb_le _ _)) by lia; [replace (5 * Z.of_nat 1 - 5) with (5 * Z.of_nat 0) by lia|replace (5 * Z.of_nat (S (S l)) - 5) with (5 * Z.of_nat (S l)) by lia];
    rewrite shiftr_pw, land_mask; destruct Hw as (_ & _ & _ & Hs).
  - specialize (Hs _ (digit_range 0 id)). fold (digit 0 id). change (default Null (ary !! Z.to_nat (digit 0 id))) with (child_of ary (digit 0 id)).
    destruct (child_of _ _) eqn:E; [by apply (find_walk_end _ _ _ None)|by apply (find_walk_end _ _ _ (Some v))|done].
  - specialize (Hs _ (digit_range (S l) id)). fold (digit (S l) id). change (default Null (ary !! Z.to_nat (digit (S l) id))) with (child_of ary (digit (S l) id)).
    destruct Hs as [[-> _]|(Hw & _)]; [|by apply IH; [|lia]]. destruct fuel; [lia|]. by destruct l.
Qed.

(** The check of the code leaves one digit too many. *)
Lemma find_spec idp id : idr_ok idp → 0 <= id < 2 ^ 31 →
  _idr_find idp id = if (layers idp <? 6) && (pw (S (height idp)) <=? id) then Null else slot_of (lookup_id idp (id mod pw (height idp))).
Proof.
  intros Hok Hid. unfold _idr_find. change IDR_BITS with 5. assert (Z.land id MAX_ID_MASK = id) as ->.
  { change MAX_ID_MASK with (Z.ones 31). rewrite Z.land_ones by lia. apply Z.mod_small. lia. }
  set (L := height idp). assert (0 <= layers idp <= 7) as HlL by (destruct (ok_tree idp Hok) as [[_ ?]|[? _]]; lia).
  assert (Z.of_nat L = layers idp) as HL by (unfold L, height; lia). pose proof (pw_pos (S L)). pose proof (pw_pos L).
  replace (layers idp * 5 + 5) with (5 * Z.of_nat (S L)) by lia. rewrite shiftr_pw. replace (5 * Z.of_nat (S L) <? 31) with (layers idp <? 6) by (destruct (Z.ltb_spec (layers idp) 6), (Z.ltb_spec (5 * Z.of_nat (S L)) 31); lia).
  assert (negb (id / pw (S L) =? 0) = (pw (S L) <=? id)) as ->.
  { destruct (Z.leb_spec (pw (S L)) id) as [Hle|Hlt]; [|by rewrite Z.div_small by lia]. assert (1 <= id / pw (S L)) by (apply Z.div_le_lower_bound; lia). by rewrite (proj2 (Z.eqb_neq _ _)) by lia. }
  destruct (_ && _); [done|]. pose proof (Z.mod_pos_bound id (pw L)). unfold lookup_id. fold L. rewrite (proj2 (Z.leb_le _ _)), (proj2 (Z.ltb_lt _ _)) by lia. cbn [andb].
  destruct (ok_tree idp Hok) as [[-> _]|[_ Hw]]; [by destruct (pred L)|]. fold L in Hw.
  assert (1 <= layers idp) by (destruct (ok_tree idp Hok) as [[Ht _]|[? _]]; [rewrite Ht in Hw; by destruct (pred L)|lia]).
  replace (layers idp * 5) with (5 * Z.of_nat (S (pred L))) by lia. rewrite find_walk_ok by (done || lia). f_equal. apply entry_mod. replace (S (pred L)) with L by lia. by rewrite Z.mod_mod by lia.
Qed.

(** ** Removing *)

Lemma child_here ary n : length ary = 32%nat → 0 <= n < 32 → <[Z.to_nat n := child_of ary n]> ary = ary.
Proof.
  intros Hl Hn. apply list_insert_id. unfold child_of. destruct (lookup_lt_is_Some_2 ary (Z.to_nat n)) as [s E]; [lia|]. by rewrite E.
Qed.
Lemma clear_unset bm n : 0 <= n → Z.testbit bm n = false → clear_bit n bm = bm.
Proof.
  intros Hn Hb. apply Z.bits_inj'. intros i Hi. rewrite clear_bit_spec by done. destruct (Z.eqb_spec i n) as [->|]; [by rewrite Hb|apply andb_true_r].
Qed.
Lemma low_digit id : Z.land id IDR_MASK = digit 0 id.
Proof. rewrite land_mask. unfold digit. change (pw 0) with 1. by rewrite Z.div_1_r. Qed.

(** The way to an id that is not there changes nothing. *)
Lemma walk_absent fuel l p path id : wf l p → (l < fuel)%nat → entry l p id = None →
  ∃ p' path', remove_walk fuel (5 * Z.of_nat l) id p path = (p', path') ∧ plug p' path' = plug p path
    ∧ match p' with Layer bm _ _ => Z.testbit bm (digit 0 id) = false | _ => True end.
Proof.
  revert fuel p path. induction l as [|l IH]; intros [|fuel] [| |bm ary c] path Hw Hf He; try done; try lia; pose proof Hw as (Hl & Hu & _ & Hs); cbn [remove_walk entry] in *.
  - exists (Layer bm ary c), path. split; [done|]. split; [done|]. specialize (Hs _ (digit_range 0 id)). by destruct (child_of _ _).
  - rewrite (proj2 (Z.ltb_lt _ _)) by lia. rewrite shiftr_pw, land_mask. fold (digit (S l) id). change IDR_BITS with 5. replace (5 * Z.of_nat (S l) - 5) with (5 * Z.of_nat l) by lia.
    change (default Null (ary !! Z.to_nat (digit (S l) id))) with (child_of ary (digit (S l) id)). pose proof (digit_range (S l) id) as Hd. specialize (Hs _ Hd).
    assert (Z.testbit bm (digit (S l) id) = false) as Hb.
    { destruct Hs as [[_ ?]|(Hw' & _ & ->)]; [done|]. destruct (is_full _) eqn:E; [|done]. destruct (wf_full_entry _ _ id Hw' E) as [? ?]. congruence. }
    rewrite clear_unset by (done || lia).
    assert (plug (child_of ary (digit (S l) id)) ((Layer bm ary c, digit (S l) id) :: path) = plug (Layer bm ary c) path) as Hp by (cbn [plug set_child]; by rewrite child_here).
    destruct Hs as [[E _]|(Hw' & _)].
    + rewrite E in *. destruct fuel; [lia|]. cbn [remove_walk]. by eexists _, _.
    + destruct (IH fuel (child_of ary (digit (S l) id)) ((Layer bm ary c, digit (S l) id) :: path)) as (p' & path' & E & E2 & H3); [done|lia|done|].
      exists p', path'. split; [done|]. split; [congruence|done].
Qed.

(** Emptying a slot of a layer. *)
Definition emptied bm ary c (n : Z) : slot := Layer (clear_bit n bm) (<[Z.to_nat n := Null]> ary) c.
Lemma emptied_ok l bm ary c n : wf l (Layer bm ary c) → 0 <= n < 32 → child_of ary n ≠ Null →
  wf l (emptied bm ary (c - 1) n) ∧ is_full (emptied bm ary (c - 1) n) = false ∧ 0 < c.
Proof.
  intros Hw Hn Hc. assert (weight (child_of ary n) = 1) as Hwt by (unfold weight; by destruct (child_of ary n)).
  assert (length ary = 32%nat ∧ is_u32 bm ∧ c = used ary) as (Hl & Hu & Hcu) by (destruct l; split_and!; apply Hw).
  pose proof (used_insert ary n Null Hl Hn) as Hus. rewrite Hwt in Hus. cbn [weight is_null] in Hus.
  assert (0 < c) as Hpos by (unfold used in *; lia).
  assert (is_full (emptied bm ary (c - 1) n) = false) as Hnf.
  { unfold emptied, is_full. destruct (_ =? _) eqn:E; [|done]. rewrite full_bits in E by (by apply clear_bit_u32). specialize (E n Hn). rewrite clear_bit_spec, Z.eqb_refl, andb_false_r in E by lia. done. }
  split; [|done]. unfold emptied. destruct l; cbn [wf] in *; (split; [by rewrite length_insert|]); (split; [by apply clear_bit_u32|]); (split; [lia|]); intros m Hm;
    rewrite child_insert, clear_bit_spec by (done || lia); destruct Hw as (_ & _ & _ & Hs); specialize (Hs m Hm); case_decide as E.
  - subst. by rewrite Z.eqb_refl, andb_false_r.
  - by rewrite (proj2 (Z.eqb_neq _ _)), andb_true_r by done.
  - subst. left. by rewrite Z.eqb_refl, andb_false_r.
  - by rewrite (proj2 (Z.eqb_neq _ _)), andb_true_r by done.
Qed.

(** What is left of layer [p] after [id] was removed below it: a layer without
    [id], or nothing, and then the slot above it is emptied as well. *)
Definition same_below l k id : Prop := k mod pw (S l) = id mod pw (S l).
#[export] Instance same_below_dec l k id : Decision (same_below l k id).
Proof. unfold same_below. apply _. Defined.
Definition left_over l p id (path : list frame) (r : slot * list slot * Z) : Prop :=
  (∃ p2 free cnt, r = (plug p2 path, free, cnt) ∧ clean free cnt ∧ wf l p2 ∧ 0 < count_of p2 ∧ is_full p2 = false
     ∧ ∀ k, entry l p2 k = if decide (same_below l k id) then None else entry l p k)
  ∨ ∃ free cnt, r = match path with [] => (Null, free, cnt) | (q, m) :: path => drop_counts (set_child q m Null) path free cnt end
     ∧ clean free cnt ∧ ∀ k, ¬ same_below l k id → entry l p k = None.

Lemma same_digit l k id : same_below l k id → digit l k = digit l id.
Proof.
  unfold same_below, digit. pose proof (pw_pos l) as Hp. rewrite (pw_S l), (Z.mul_comm 32), !Z.rem_mul_r by lia. intros E.
  pose proof (Z.mod_pos_bound k _ Hp). pose proof (Z.mod_pos_bound id _ Hp). apply (Z.div_mod_unique (pw l) _ _ (k mod pw l) (id mod pw l)); lia.
Qed.
Lemma emptied_entry l bm ary c n k : length ary = 32%nat → 0 <= n < 32 →
  entry l (emptied bm ary c n) k = if decide (digit l k = n) then None else entry l (Layer bm ary c) k.
Proof.
  intros Hl Hn. unfold emptied. destruct l; cbn [entry]; rewrite child_insert by (done || apply digit_range); case_decide; try done. by destruct l.
Qed.

Lemma drop_step bm ary c path free cnt :
  drop_counts (Layer bm ary c) path free cnt
  = if c - 1 =? 0 then
      let '(free, cnt) := free_layer (Layer bm ary (c - 1)) free cnt in
      match path with [] => (Null, free, cnt) | (q, k) :: path => drop_counts (set_child q k Null) path free cnt end
    else (plug (Layer bm ary (c - 1)) path, free, cnt).
Proof. by destruct path as [|[]]. Qed.

Lemma drop_ok l bm ary c id path free cnt :
  wf l (Layer bm ary c) → child_of ary (digit l id) ≠ Null → clean free cnt →
  (∀ k, digit l k = digit l id → ¬ same_below l k id → entry l (Layer bm ary c) k = None) →
  left_over l (Layer bm ary c) id path (drop_counts (emptied bm ary c (digit l id)) path free cnt).
Proof.
  intros Hw Hc Hf Ho. pose proof (digit_range l id) as Hd. destruct (emptied_ok l bm ary c (digit l id) Hw Hd Hc) as (Hw' & Hnf & Hpos).
  assert (length ary = 32%nat) as Hl by (destruct l; apply Hw).
  assert (∀ k, entry l (emptied bm ary (c - 1) (digit l id)) k = if decide (same_below l k id) then None else entry l (Layer bm ary c) k) as He.
  { intros k. rewrite emptied_entry by done. case_decide as E1; case_decide as E2; try done; [by rewrite (Ho k)|by apply same_digit in E2|by destruct l]. }
  unfold emptied at 1. rewrite drop_step. fold (emptied bm ary (c - 1) (digit l id)). destruct (Z.eqb_spec (c - 1) 0) as [E|E].
  - right. rewrite (empty_is_zero l (emptied bm ary (c - 1) (digit l id)) Hw' E) in *. cbn [free_layer]. change (set_child zero_layer 0 Null) with zero_layer.
    exists (zero_layer :: free), (cnt + 1). split; [done|]. destruct Hf as [Hf ->]. split; [split; [by apply Forall_cons|cbn [length]; lia]|].
    intros k Hk. specialize (He k). rewrite decide_False in He by done. by rewrite <- He, entry_zero.
  - left. exists (emptied bm ary (c - 1) (digit l id)), free, cnt. split; [done|]. split; [done|]. split; [done|]. split; [cbn; lia|done].
Qed.

(** A layer in which the layer below a slot lost an id. *)
Lemma replaced_ok l bm ary c n p2 : wf (S l) (Layer bm ary c) → 0 <= n < 32 → child_of ary n ≠ Null → wf l p2 → 0 < count_of p2 → is_full p2 = false →
  let q := Layer (clear_bit n bm) (<[Z.to_nat n := p2]> ary) c in wf (S l) q ∧ 0 < count_of q ∧ is_full q = false.
Proof.
  intros Hw Hn Hc Hw2 Hc2 Hf2 q. destruct (emptied_ok (S l) bm ary c n Hw Hn Hc) as (Hw' & _ & _). assert (length ary = 32%nat) as Hl by apply Hw.
  assert (hole l (Layer (clear_bit n bm) (<[Z.to_nat n := p2]> (<[Z.to_nat n := Null]> ary)) (c - 1 + 1 - weight (child_of (<[Z.to_nat n := Null]> ary) n))) n) as Hh.
  { apply hole_any; [done|done|by rewrite clear_bit_spec, Z.eqb_refl, andb_false_r by lia|by destruct p2, l]. }
  destruct (hole_open _ _ _ p2 Hh) as (H1 & H2 & H3); [done..|]. cbn [set_child] in *. rewrite !list_insert_insert_eq, child_insert, decide_True in * by done.
  cbn [weight is_null] in *. subst q. replace (c - 1 + 1 - 0) with c in * by lia. done.
Qed.

Definition remove_below fuel l id p (path : list frame) (free : list slot) (cnt : Z) : slot * list slot * Z :=
  let '(p, path) := remove_walk fuel (5 * Z.of_nat l) id p path in
  match p with Layer bm ary c => drop_counts (emptied bm ary c (digit 0 id)) path free cnt | _ => (plug p path, free, cnt) end.

Lemma same_down l k id : digit (S l) k = digit (S l) id → ¬ same_below (S l) k id → ¬ same_below l k id.
Proof.
  unfold same_below, digit. pose proof (pw_pos (S l)) as Hp. rewrite (pw_S (S l)), (Z.mul_comm 32), !Z.rem_mul_r by lia. congruence.
Qed.

Lemma same_up l k id : same_below (S l) k id → same_below l k id.
Proof.
  unfold same_below. intros E. assert (∀ j, j mod pw (S l) = (j mod pw (S (S l))) mod pw (S l)) as H; [|by rewrite (H k), E, <- H].
  intros j. pose proof (pw_pos (S l)). rewrite (pw_S (S l)), (Z.mul_comm 32), Z.rem_mul_r by lia. by rewrite Z.mul_comm, Z.mod_add, Z.mod_mod by lia.
Qed.

Lemma remove_present fuel l p path id v free cnt : wf l p → (l < fuel)%nat → entry l p id = Some v → clean free cnt →
  (∃ bm ary c path', remove_walk fuel (5 * Z.of_nat l) id p path = (Layer bm ary c, path') ∧ Z.testbit bm (digit 0 id) = true)
  ∧ left_over l p id path (remove_below fuel l id p path free cnt).
Proof.
  revert fuel p path. induction l as [|l IH]; intros [|fuel] [| |bm ary c] path Hw Hf He Hc; try done; try lia; pose proof Hw as (Hl & Hu & _ & Hs).
  - unfold remove_below. cbn [remove_walk]. change (0 <? 5 * Z.of_nat 0) with false. cbv iota. cbn [entry] in He. specialize (Hs _ (digit_range 0 id)).
    destruct (child_of ary (digit 0 id)) eqn:E; [done| |done]. split; [by eexists bm, ary, c, path|].
    apply drop_ok; [done|congruence|done|]. intros k Hk Hn. exfalso. apply Hn. unfold same_below. change (pw 1) with 32. unfold digit in Hk. change (pw 0) with 1 in Hk. by rewrite !Z.div_1_r in Hk.
  - unfold remove_below. cbn [remove_walk entry] in *. rewrite (proj2 (Z.ltb_lt _ _)) by lia. rewrite shiftr_pw, land_mask. fold (digit (S l) id).
    change IDR_BITS with 5. replace (5 * Z.of_nat (S l) - 5) with (5 * Z.of_nat l) by lia.
    change (default Null (ary !! Z.to_nat (digit (S l) id))) with (child_of ary (digit (S l) id)). pose proof (digit_range (S l) id) as Hd. specialize (Hs _ Hd).
    destruct Hs as [[E _]|(Hw' & Hc' & Hb)]; [rewrite E in He; by destruct l|].
    destruct (IH fuel (child_of ary (digit (S l) id)) ((Layer (clear_bit (digit (S l) id) bm) ary c, digit (S l) id) :: path)) as [H1 H2]; [done|lia|done|done|].
    split; [done|]. fold (remove_below fuel l id (child_of ary (digit (S l) id)) ((Layer (clear_bit (digit (S l) id) bm) ary c, digit (S l) id) :: path) free cnt).
    destruct H2 as [(p2 & free' & cnt' & -> & Hf' & Hw2 & Hc2 & Hn2 & He2)|(free' & cnt' & -> & Hf' & He2)].
    + left. cbn [plug set_child]. assert (child_of ary (digit (S l) id) ≠ Null) as Hcn by (destruct (child_of _ _); [by destruct l|done..]).
      destruct (replaced_ok l bm ary c (digit (S l) id) p2) as (R1 & R2 & R3); [done..|].
      eexists _, _, _. split; [reflexivity|]. split; [done|]. split; [done|]. split; [done|]. split; [done|]. intros k. cbn [entry]. rewrite child_insert by (done || apply digit_range).
      case_decide as E1; case_decide as E2; try done; rewrite ?E1, ?He2.
      * by rewrite decide_True by (by apply same_up).
      * by rewrite decide_False by (by apply same_down).
      * exfalso. by apply E1, same_digit.
    + change (set_child (Layer (clear_bit (digit (S l) id) bm) ary c) (digit (S l) id) Null) with (emptied bm ary c (digit (S l) id)).
      apply drop_ok; [done| |done|]; [destruct (child_of _ _); [by destruct l|done..]|]. intros k Hk Hn. cbn [entry]. rewrite Hk. apply He2. by apply same_down.
Qed.

Lemma trim_free_ok fuel free cnt : clean free cnt → clean (trim_free fuel free cnt).1 (trim_free fuel free cnt).2.
Proof.
  revert free cnt. induction fuel as [|fuel IH]; intros free cnt Hc; cbn [trim_free]; [done|]. case_match; [|done]. destruct free as [|f free]; [done|]. cbn [alloc_layer].
  apply IH. destruct Hc as [Hc ->]. apply Forall_cons in Hc as [_ Hc]. split; [done|cbn [length]; lia].
Qed.

Lemma entry_null l k : entry l Null k = None.
Proof. by destruct l. Qed.

(** [sub_remove] looks at the digits that the tree has. *)
Lemma sub_remove_ok idp id :
  idr_ok idp → 0 <= id < 2 ^ 31 →
  match lookup_id idp (id mod pw (height idp)) with
  | None => sub_remove idp ((layers idp - 1) * IDR_BITS) id = (-1, idp)
  | Some _ => ∃ idp', sub_remove idp ((layers idp - 1) * IDR_BITS) id = (0, idp') ∧ idr_ok idp'
      ∧ ∀ j, lookup_id idp' j = if decide (j = id mod pw (height idp)) then None else lookup_id idp j
  end.
Proof.
  intros Hok Hid. pose proof (pw_pos (height idp)) as Hpos. pose proof (Z.mod_pos_bound id _ Hpos) as Hk. unfold lookup_id at 1.
  rewrite (proj2 (Z.leb_le _ _)), (proj2 (Z.ltb_lt _ _)) by lia. cbn [andb]. destruct (ok_tree idp Hok) as [[Ht Hl]|[Hl Hw]].
  { destruct idp as [t free n cnt]. cbn [top] in Ht |- *. subst t. by destruct (pred (height _)). }
  set (L := height idp) in *. assert (Z.of_nat L = layers idp) as HL by (unfold L, height; lia).
  rewrite (entry_mod (pred L) (top idp) _ id) by (replace (S (pred L)) with L by lia; by rewrite Z.mod_mod by lia).
  unfold sub_remove. change IDR_BITS with 5. replace ((layers idp - 1) * 5) with (5 * Z.of_nat (pred L)) by lia. rewrite low_digit.
  destruct (entry (pred L) (top idp) id) as [v|] eqn:E.
  - destruct (remove_present 8 (pred L) (top idp) [] id v (id_free idp) (id_free_cnt idp)) as [(bm & ary & c & path & Ew & Hb) Hlo]; [done|lia|done|apply Hok|].
    unfold remove_below in Hlo. rewrite Ew in *. unfold test_bit. rewrite Hb. fold (emptied bm ary c (digit 0 id)).
    assert (∀ j, 0 <= j < pw L → same_below (pred L) j id ↔ j = id mod pw L) as Hsame.
    { intros j Hj. unfold same_below. replace (S (pred L)) with L by lia. by rewrite (Z.mod_small j) by lia. }
    destruct Hlo as [(p2 & free & cnt & -> & Hf & Hw2 & Hc2 & _ & He)|(free & cnt & -> & Hf & He)]; cbn [plug].
    + assert (match p2 with Null => 0 | _ => layers idp end = layers idp) as -> by (by destruct p2, (pred L)). eexists. split; [done|].
      assert (∀ j, lookup_id (mk_idr p2 free (layers idp) cnt) j = if decide (j = id mod pw L) then None else lookup_id idp j) as Hlk.
      { intros j. unfold lookup_id. change (height (mk_idr p2 free (layers idp) cnt)) with L. fold L. cbn [top]. destruct (Z.leb_spec 0 j), (Z.ltb_spec j (pw L)); cbn [andb]; try (by case_decide).
        rewrite He. by rewrite (decide_ext _ _ None (entry (pred L) (top idp) j) (Hsame j ltac:(lia))). }
      split; [|done]. constructor; [by right|intros j Hj; rewrite Hlk; case_decide; [done|by apply Hok]|done].
    + eexists. split; [done|]. assert (∀ t free cnt j, lookup_id (mk_idr Null free t cnt) j = None) as Hlk by (intros; unfold lookup_id; cbn [top]; destruct (_ && _); [apply entry_null|done]).
      split; [constructor; [by left|intros; by rewrite Hlk|done]|]. intros j. rewrite Hlk. case_decide as Ej; [done|].
      unfold lookup_id. fold L. destruct (Z.leb_spec 0 j), (Z.ltb_spec j (pw L)); cbn [andb]; try done. symmetry. apply He. by rewrite Hsame.
  - destruct (walk_absent 8 (pred L) (top idp) [] id) as (p' & path' & -> & Hp & Hb); [done|lia|done|]. cbn [plug] in Hp. rewrite Hp.
    destruct p'; try (by destruct idp). unfold test_bit. rewrite Hb. by destruct idp.
Qed.

(** A tree whose top has only its first slot in use loses the top. *)
Lemma shrink_ok bm ary free (n cnt : Z) : idr_ok (mk_idr (Layer bm ary 1) free n cnt) → 1 < n → child_of ary 0 ≠ Null →
  let idp' := mk_idr (child_of ary 0) (free_layer (Layer 0 ary 0) free cnt).1 (n - 1) (free_layer (Layer 0 ary 0) free cnt).2 in
  idr_ok idp' ∧ ∀ j, lookup_id idp' j = lookup_id (mk_idr (Layer bm ary 1) free n cnt) j.
Proof.
  intros Hok Hn Hc idp'. destruct (ok_tree _ Hok) as [[? _]|[Hl Hw]]; [done|]. destruct (ok_free _ Hok) as [Hf Hcnt]. cbn [layers top id_free id_free_cnt] in *.
  unfold height in Hw. cbn [layers] in Hw. destruct (Z.to_nat n) as [|[|l]] eqn:El; [lia|lia|]. cbn [pred] in Hw. pose proof Hw as (Hlen & _ & Hcu & Hs).
  destruct (emptied_ok (S l) bm ary 1 0 Hw ltac:(lia) Hc) as (Hwe & _ & _). pose proof (empty_is_zero _ _ Hwe eq_refl) as Hz. unfold emptied, zero_layer in Hz. injection Hz as _ Hz.
  change (Z.to_nat 0) with 0%nat in Hz. destruct (Hs 0 ltac:(lia)) as [[? _]|(Hw0 & _)]; [done|].
  assert (height idp' = S l) as Hh by (unfold height, idp'; cbn [layers]; lia).
  assert (∀ j, lookup_id idp' j = lookup_id (mk_idr (Layer bm ary 1) free n cnt) j) as Hlk.
  { intros j. unfold lookup_id. rewrite Hh. unfold height. cbn [layers top]. rewrite El. cbn [pred entry]. pose proof (pw_S (S l)). pose proof (pw_pos (S l)).
    destruct (Z.leb_spec 0 j), (Z.ltb_spec j (pw (S l))), (Z.ltb_spec j (pw (S (S l)))); cbn [andb]; try done; try lia.
    - unfold digit. by rewrite Z.div_small by lia.
    - assert (digit (S l) j ≠ 0) as Hd.
      { unfold digit. assert (1 <= j / pw (S l)) by (apply Z.div_le_lower_bound; lia). assert (j / pw (S l) < 32) by (apply Z.div_lt_upper_bound; lia). rewrite Z.mod_small; lia. }
      assert (child_of ary (digit (S l) j) = child_of (<[Z.to_nat 0 := Null]> ary) (digit (S l) j)) as ->.
      { rewrite child_insert by (done || lia || apply digit_range). by rewrite decide_False. }
      change (Z.to_nat 0) with 0%nat. rewrite Hz, child_zero. by destruct l. }
  split; [|done]. constructor.
  - right. rewrite Hh. split; [unfold idp'; cbn [layers]; lia|done].
  - intros k Hk. rewrite Hlk. by apply Hok.
  - cbn [id_free id_free_cnt idp' free_layer set_child fst snd]. change (Z.to_nat 0) with 0%nat. rewrite Hz. split; [by apply Forall_cons|cbn [length]; lia].
Qed.

Lemma remove_spec idp id :
  idr_ok idp → 0 <= id < 2 ^ 31 →
  match lookup_id idp (id mod pw (height idp)) with
  | None => idr_remove idp id = (-1, idp)
  | Some _ => ∃ idp', idr_remove idp id = (0, idp') ∧ idr_ok idp'
      ∧ ∀ j, lookup_id idp' j = if decide (j = id mod pw (height idp)) then None else lookup_id idp j
  end.
Proof.
  intros Hok Hid. unfold idr_remove, _idr_remove. assert (Z.land id MAX_ID_MASK = id) as ->.
  { change MAX_ID_MASK with (Z.ones 31). rewrite Z.land_ones by lia. apply Z.mod_small. lia. }
  pose proof (sub_remove_ok idp id Hok Hid) as H. destruct (lookup_id _ _); [|by rewrite H].
  destruct H as (idp1 & -> & Hok1 & Hlk). change (0 =? -1) with false. cbv iota.
  enough (∀ idp2, idr_ok idp2 → (∀ j, lookup_id idp2 j = lookup_id idp1 j) →
    ∃ idp', (let '(free, cnt) := trim_free (length (id_free idp2)) (id_free idp2) (id_free_cnt idp2) in (0, mk_idr (top idp2) free (layers idp2) cnt)) = (0, idp') ∧ idr_ok idp'
      ∧ ∀ j, lookup_id idp' j = if decide (j = id mod pw (height idp)) then None else lookup_id idp j) as Hfin.
  { destruct idp1 as [t free n cnt]. cbn [top layers id_free id_free_cnt] in *. destruct t as [| |bm ary [|[c|c|]|c]]; try (by apply Hfin).
    change (default Null (ary !! 0%nat)) with (child_of ary 0). destruct (child_of ary 0) eqn:E; try (by apply Hfin); (destruct (Z.ltb_spec 1 n); [|by apply Hfin]);
      (destruct (shrink_ok bm ary free n cnt) as [H1 H2]; [done|done|congruence|]); rewrite E in *; by apply Hfin. }
  intros idp2 Hok2 Hlk2. pose proof (trim_free_ok (length (id_free idp2)) _ _ (ok_free idp2 Hok2)) as Hf. destruct (trim_free _ _ _) as [free cnt]. cbn [fst snd] in Hf.
  assert (∀ j, lookup_id (mk_idr (top idp2) free (layers idp2) cnt) j = lookup_id idp2 j) as Hsame by done.
  eexists. split; [done|]. split; [|intros j; by rewrite Hsame, Hlk2, Hlk]. constructor; [apply Hok2|intros; rewrite Hsame; by apply Hok2|done].
Qed.

(** ** The interface *)

Lemma lookup_inside idp k v : lookup_id idp k = Some v → 0 <= k < pw (height idp).
Proof. unfold lookup_id. destruct (Z.leb_spec 0 k), (Z.ltb_spec k (pw (height idp))); done || lia. Qed.

(** What the allocation of an id from [start] on may do, for a limit. *)
Definition allocates (start : Z) idp (ptr limit r : Z) idp' : Prop :=
  idr_ok idp' ∧
  ((start <= r <= limit ∧ r < 2 ^ 31 ∧ lookup_id idp r = None ∧ (∀ j, start <= j < r → is_Some (lookup_id idp j))
    ∧ ∀ k, lookup_id idp' k = if decide (k = r) then Some ptr else lookup_id idp k)
   ∨ (r = -1 ∧ (∀ j, start <= j <= limit → is_Some (lookup_id idp j)) ∧ ∀ k, lookup_id idp' k = lookup_id idp k)).

Lemma limit_ok start idp ptr limit id idp1 : 0 <= start → new_id start idp ptr id idp1 →
  ∃ r idp', (if limit <? id then Some (-1, (idr_remove idp1 id).2) else Some (id, idp1)) = Some (r, idp') ∧ allocates start idp ptr limit r idp'.
Proof.
  intros Hs [H1 H2 H3 H4 H5 H6]. destruct (Z.ltb_spec limit id).
  - pose proof (remove_spec idp1 id H1 ltac:(lia)) as Hr. rewrite Z.mod_small in Hr by lia. rewrite (H6 id), decide_True in Hr by done.
    destruct Hr as (idp' & -> & Hok' & Hlk). eexists _, _. split; [done|]. split; [done|]. right. split; [done|]. split; [intros; apply H5; lia|].
    intros k. cbn [snd]. rewrite Hlk, H6. case_decide; [by subst|done].
  - eexists _, _. split; [done|]. split; [done|]. left. split; [lia|]. split; [lia|done].
Qed.

Lemma get_new_ok ub idp ptr limit j0 : idr_ok idp → 0 <= j0 < 2 ^ 31 → lookup_id idp j0 = None →
  ∃ r idp', idr_get_new ub idp ptr limit = Some (r, idp') ∧ allocates 0 idp ptr limit r idp'.
Proof.
  intros Hok Hj Hn. unfold idr_get_new, idr_get_new_above. destruct (get_new_int_ok ub idp ptr j0 Hok Hj Hn) as (id & idp1 & -> & Hnew). cbn [mbind option_bind].
  by apply limit_ok.
Qed.
Lemma get_new_above_ok ub idp ptr start limit j0 : idr_ok idp → 0 <= start <= j0 → j0 < 2 ^ 31 → lookup_id idp j0 = None → j0 = start ∨ j0 < pw (height idp) →
  ∃ r idp', idr_get_new_above ub idp ptr start limit = Some (r, idp') ∧ allocates start idp ptr limit r idp'.
Proof.
  intros Hok Hj Hj' Hn Hor. destruct (idr_pre_get_ok idp Hok) as (Hok1 & Hc1 & Hl1 & Hlk1). unfold idr_get_new_above, idr_get_new_above_int.
  destruct (above_first ub 7 (idr_pre_get idp) ptr start j0) as (id & idp1 & -> & Hnew & _); [done|done|done|done|by rewrite Hlk1|unfold height in *; by rewrite Hl1|].
  cbn [mbind option_bind]. apply limit_ok; [lia|]. by apply (new_id_same _ _ (idr_pre_get idp)).
Qed.

(** *** The contract: a map from ids to pointers *)

Inductive call :=
| New (ptr limit : Z)
| NewAbove (ptr start limit : Z)
| Find (id : Z)
| Remove (id : Z).
Inductive reply :=
| NewId (r : Z)
| Pointer (s : slot)
| Status (r : Z).
Implicit Types (m : gmap Z Z) (c : call) (r : reply).

Definition exec ub idp c : option (reply * idr_context) :=
  match c with
  | New ptr limit => '(r, idp) ← idr_get_new ub idp ptr limit; Some (NewId r, idp)
  | NewAbove ptr start limit => '(r, idp) ← idr_get_new_above ub idp ptr start limit; Some (NewId r, idp)
  | Find id => Some (Pointer (idr_find idp id), idp)
  | Remove id => let '(r, idp) := idr_remove idp id in Some (Status r, idp)
  end.
Fixpoint exec_all ub idp (cs : list call) : option (list reply * idr_context) :=
  match cs with
  | [] => Some ([], idp)
  | c :: cs =>
      '(r, idp) ← exec ub idp c;
      '(rs, idp) ← exec_all ub idp cs;
      Some (r :: rs, idp)
  end.

Inductive spec_step m : call → reply → gmap Z Z → Prop :=
| spec_new ptr limit id :
    m !! id = None → 0 <= id <= limit → (∀ j, 0 <= j < id → is_Some (m !! j)) → spec_step m (New ptr limit) (NewId id) (<[id := ptr]> m)
| spec_full ptr limit :
    (∀ j, 0 <= j <= limit → is_Some (m !! j)) → spec_step m (New ptr limit) (NewId (-1)) m
| spec_above ptr start limit :
    start <= limit → spec_step m (NewAbove ptr start limit) (NewId start) (<[start := ptr]> m)
| spec_above_limit ptr start limit :
    limit < start → spec_step m (NewAbove ptr start limit) (NewId (-1)) m
| spec_find id v :
    m !! id = Some v → spec_step m (Find id) (Pointer (Ptr v)) m
| spec_remove id v :
    m !! id = Some v → spec_step m (Remove id) (Status 0) (delete id m).
Inductive spec_steps : gmap Z Z → list call → list reply → gmap Z Z → Prop :=
| spec_nil m : spec_steps m [] [] m
| spec_cons m c r m1 cs rs m2 : spec_step m c r m1 → spec_steps m1 cs rs m2 → spec_steps m (c :: cs) (r :: rs) m2.

(** Callers start from a free id, and use ids that they were given. *)
Definition legal m c : Prop :=
  match c with
  | New _ _ => True
  | NewAbove _ start _ => 0 <= start < 2 ^ 31 ∧ m !! start = None
  | Find id | Remove id => is_Some (m !! id)
  end.
Fixpoint legal_all m (cs : list call) : Prop :=
  match cs with
  | [] => True
  | c :: cs => legal m c ∧ ∀ r m', spec_step m c r m' → legal_all m' cs
  end.

Definition stands_for idp m : Prop := idr_ok idp ∧ ∀ k, lookup_id idp k = m !! k.

Lemma pigeonhole m n : 0 <= n → (∀ j, 0 <= j < n → is_Some (m !! j)) → n <= Z.of_nat (size m).
Proof.
  intros Hn. revert m. pattern n. apply natlike_ind; [lia| |done]. clear n Hn. intros n Hn IH m Hall.
  destruct (Hall n) as [v Hv]; [lia|]. specialize (IH (delete n m)). rewrite map_size_delete, Hv in IH.
  assert (size m ≠ 0%nat) by (intros E; apply map_size_empty_inv in E; subst; by rewrite lookup_empty in Hv).
  assert (n <= Z.of_nat (Nat.pred (size m))); [|lia]. apply IH. intros j Hj. rewrite lookup_delete_ne by lia. apply Hall. lia.
Qed.
Lemma room_for_id idp m : stands_for idp m → Z.of_nat (size m) < 2 ^ 31 → ∃ j, 0 <= j < 2 ^ 31 ∧ lookup_id idp j = None.
Proof.
  intros [_ Hm] Hs. destruct (free_or_full idp (2 ^ 31)) as [?|Hall]; [done|]. exfalso.
  assert (2 ^ 31 <= Z.of_nat (size m)); [|lia]. apply pigeonhole; [lia|]. intros j Hj. rewrite <- Hm. by apply Hall.
Qed.

Lemma find_ok idp id v : idr_ok idp → lookup_id idp id = Some v → idr_find idp id = Ptr v.
Proof.
  intros Hok Hv. pose proof (lookup_inside _ _ _ Hv) as Hin. assert (0 <= id < 2 ^ 31) as Hid.
  { destruct (decide (id < 2 ^ 31)); [lia|]. rewrite (ok_ids idp Hok) in Hv by lia. done. }
  unfold idr_find. rewrite find_spec by done. rewrite Z.mod_small, Hv by done. pose proof (pw_mono (height idp) (S (height idp)) ltac:(lia)).
  by rewrite (proj2 (Z.leb_gt _ _)), andb_false_r by lia.
Qed.
Lemma remove_ok idp id v : idr_ok idp → lookup_id idp id = Some v →
  ∃ idp', idr_remove idp id = (0, idp') ∧ idr_ok idp' ∧ ∀ j, lookup_id idp' j = if decide (j = id) then None else lookup_id idp j.
Proof.
  intros Hok Hv. pose proof (lookup_inside _ _ _ Hv) as Hin. assert (0 <= id < 2 ^ 31) as Hid.
  { destruct (decide (id < 2 ^ 31)); [lia|]. rewrite (ok_ids idp Hok) in Hv by lia. done. }
  pose proof (remove_spec idp id Hok Hid) as H. rewrite Z.mod_small, Hv in H by done. exact H.
Qed.

Lemma exec_refines ub idp m c : stands_for idp m → legal m c → Z.of_nat (size m) < 2 ^ 31 →
  ∃ r idp' m', exec ub idp c = Some (r, idp') ∧ spec_step m c r m' ∧ stands_for idp' m' ∧ (size m' ≤ S (size m))%nat.
Proof.
  intros Hst Hle Hs. pose proof Hst as [Hok Hm]. destruct c as [ptr limit|ptr start limit|id|id]; cbn [exec legal] in *.
  - destruct (room_for_id idp m Hst Hs) as (j & Hj & Hn). destruct (get_new_ok ub idp ptr limit j) as (r & idp' & -> & Hok' & [(H1 & H2 & H3 & H4 & H5)|(-> & H2 & H3)]); [done..|cbn [mbind option_bind]|cbn [mbind option_bind]].
    + exists (NewId r), idp', (<[r := ptr]> m). rewrite Hm in H3. split; [done|]. split; [constructor; [done|lia|intros; rewrite <- Hm; by apply H4]|].
      split; [split; [done|]; intros k; rewrite H5, lookup_insert; rewrite Hm; repeat case_decide; congruence|]. by rewrite map_size_insert_None.
    + exists (NewId (-1)), idp', m. split; [done|]. split; [constructor; intros; rewrite <- Hm; by apply H2|]. split; [split; [done|]; intros; by rewrite H3|lia].
  - destruct Hle as [Hst' Hn]. rewrite <- Hm in Hn. destruct (get_new_above_ok ub idp ptr start limit start) as (r & idp' & -> & Hok' & [(H1 & H2 & H3 & H4 & H5)|(-> & H2 & H3)]); [done|lia|lia|done|by left|cbn [mbind option_bind]|cbn [mbind option_bind]].
    + assert (r = start) as ->. { destruct (decide (r = start)); [done|]. destruct (H4 start) as [? ?]; [lia|congruence]. }
      rewrite Hm in H3. exists (NewId start), idp', (<[start := ptr]> m). split; [done|]. split; [constructor; lia|].
      split; [split; [done|]; intros k; rewrite H5, lookup_insert; rewrite Hm; repeat case_decide; congruence|]. by rewrite map_size_insert_None.
    + exists (NewId (-1)), idp', m. split; [done|]. split; [|split; [split; [done|]; intros; by rewrite H3|lia]].
      constructor. destruct (decide (limit < start)); [done|]. destruct (H2 start) as [? ?]; [lia|congruence].
  - destruct Hle as [v Hv]. exists (Pointer (Ptr v)), idp, m. rewrite (find_ok idp id v) by (done || by rewrite Hm). split; [done|]. split; [by constructor|]. split; [done|lia].
  - destruct Hle as [v Hv]. destruct (remove_ok idp id v) as (idp' & -> & Hok' & Hlk); [done|by rewrite Hm|].
    exists (Status 0), idp', (delete id m). split; [done|]. split; [by econstructor|]. split; [|rewrite map_size_delete, Hv; lia].
    split; [done|]. intros k. rewrite Hlk, lookup_delete, Hm. repeat case_decide; congruence.
Qed.

Lemma init_stands_for : stands_for idr_init ∅.
Proof. split; [|intros k; unfold lookup_id; cbn; rewrite lookup_empty; by case_match]. constructor; [by left|intros; unfold lookup_id; cbn; by case_match|by split]. Qed.
Lemma exec_all_refines ub cs idp m : stands_for idp m → legal_all m cs → Z.of_nat (size m) + Z.of_nat (length cs) <= 2 ^ 31 →
  ∃ rs idp' m', exec_all ub idp cs = Some (rs, idp') ∧ spec_steps m cs rs m' ∧ stands_for idp' m'.
Proof.
  revert idp m. induction cs as [|c cs IH]; intros idp m Hst Hle Hs; cbn [exec_all legal_all length] in *.
  { eexists [], idp, m. split; [done|]. split; [constructor|done]. }
  destruct Hle as [Hc Hle]. destruct (exec_refines ub idp m c) as (r & idp1 & m1 & -> & Hsp & Hst1 & Hs1); [done|done|lia|]. cbn [mbind option_bind].
  destruct (IH idp1 m1) as (rs & idp' & m' & -> & Hsps & Hst'); [done|by apply (Hle r)|lia|]. cbn [mbind option_bind].
  exists (r :: rs), idp', m'. split; [done|]. split; [by econstructor|done].
Qed.

(** C23: from an empty tree on, any sequence of fewer than 2^31 calls of
    [idr_get_new], [idr_get_new_above] (from a free id), [idr_find] and
    [idr_remove] (of ids in use) returns, with the results of a map from ids to
    pointers in which a new id is the lowest free one up to the limit and -1 says
    that there is none; the undefined shifts play no role. *)
Theorem idr_refines_map ub cs :
  legal_all ∅ cs → Z.of_nat (length cs) <= 2 ^ 31 →
  ∃ rs idp m, exec_all ub idr_init cs = Some (rs, idp) ∧ spec_steps ∅ cs rs m ∧ stands_for idp m.
Proof. intros Hle Hn. apply exec_all_refines; [apply init_stands_for|done|by rewrite map_size_empty]. Qed.
Lemma idr_refines_map_witness :
  let ub := λ _ _, 0 in
  let cs := [NewAbove 100 40 50; New 7 50; Find 40; Remove 40] in
  ∃ rs idp m, exec_all ub idr_init cs = Some (rs, idp) ∧ spec_steps ∅ cs rs m ∧ stands_for idp m.
Proof.
  intros ub cs. apply (idr_refines_map ub cs); [|done]. subst cs. cbn [legal_all legal]. split; [done|]. intros r m Hr. inversion Hr; subst; [|lia]. clear Hr.
  split; [done|]. intros r m Hr. inversion Hr; subst; clear Hr.
  - split; [|intros r m Hr; inversion Hr; subst; clear Hr; split; [|done]]; rewrite lookup_insert_ne by (intros ->; done); by eexists.
  - match goal with H : ∀ j, _ |- _ => destruct (H 0) as [? E]; [lia|] end. vm_compute in E. done.
Defined.

(** C24: [idr_get_new] returns, for any number of ids in use below 2^31, and gives
    the lowest free id if that is within the limit; otherwise it gives -1, and
    every id up to the limit is taken.  No id outside [0, limit] is ever given, and
    no pointer of another id changes. *)
Theorem idr_get_new_lowest ub idp ptr limit j0 :
  idr_ok idp → 0 <= j0 < 2 ^ 31 → lookup_id idp j0 = None →
  ∃ v idp', idr_get_new ub idp ptr limit = Some (v, idp') ∧ allocates 0 idp ptr limit v idp'.
Proof. apply get_new_ok. Qed.
Lemma idr_get_new_lowest_witness : ∃ v idp', idr_get_new (λ _ _, 0) idr_init 7 0 = Some (v, idp') ∧ allocates 0 idr_init 7 0 v idp'.
Proof. apply (idr_get_new_lowest (λ _ _, 0) idr_init 7 0 12); [apply init_stands_for|lia|done]. Defined.

(** A tree with the id 3. *)
Definition one_id : idr_context := match idr_get_new_above (λ _ _, 0) idr_init 7 3 100 with Some (_, idp) => idp | None => idr_init end.
Lemma one_id_ok : idr_ok one_id.
Proof.
  destruct (get_new_above_ok (λ _ _, 0) idr_init 7 3 100 3) as (v & idp & E & Hok & _); [apply init_stands_for|lia|lia|done|by left|].
  unfold one_id. rewrite E. exact Hok.
Qed.

(** C36: [idr_find] and [idr_remove] take an id that is too large for the tree for
    the one that has its last digits: the check of [_idr_find] allows one digit
    more than the tree has, and [sub_remove] has no check.  The id of another
    request is found, and is freed. *)
Theorem idr_outside_aliases idp id v :
  idr_ok idp → pw (height idp) <= id < pw (S (height idp)) → id < 2 ^ 31 → lookup_id idp (id mod pw (height idp)) = Some v →
  lookup_id idp id = None ∧ idr_find idp id = Ptr v
  ∧ ∃ idp', idr_remove idp id = (0, idp') ∧ lookup_id idp' (id mod pw (height idp)) = None.
Proof.
  intros Hok Hid H31 Hv. pose proof (pw_pos (height idp)) as Hp. split; [unfold lookup_id; by rewrite (proj2 (Z.ltb_ge id _)), andb_false_r by lia|].
  split; [unfold idr_find; rewrite find_spec by (done || lia); by rewrite (proj2 (Z.leb_gt _ _)), andb_false_r, Hv by lia|].
  pose proof (remove_spec idp id Hok ltac:(lia)) as H. rewrite Hv in H. destruct H as (idp' & E & _ & Hlk). exists idp'. split; [done|]. by rewrite Hlk, decide_True.
Qed.
Lemma idr_outside_aliases_witness :
  lookup_id one_id 35 = None ∧ idr_find one_id 35 = Ptr 7 ∧ ∃ idp', idr_remove one_id 35 = (0, idp') ∧ lookup_id idp' (35 mod pw (height one_id)) = None.
Proof. apply (idr_outside_aliases one_id 35 7); [apply one_id_ok|vm_compute; split; congruence|lia|vm_compute; reflexivity]. Defined.

(** [idr_get_new_above] can give out an id twice.  When every id from the
    starting id to the end of the tree is taken, the search goes on at the top
    with an id that is too large for the tree: it gives out 1024 but enters the
    pointer under 0, and a later call gives out 1024 again. *)
Theorem idr_get_new_above_duplicates ub :
  fst <$> exec_all ub idr_init
    [NewAbove 1 1020 (2 ^ 31 - 1); NewAbove 2 1021 (2 ^ 31 - 1); NewAbove 3 1022 (2 ^ 31 - 1); NewAbove 4 1023 (2 ^ 31 - 1);
     NewAbove 5 1021 (2 ^ 31 - 1); Find 0; NewAbove 6 1024 (2 ^ 31 - 1); Find 1024; Find 0]
  = Some [NewId 1020; NewId 1021; NewId 1022; NewId 1023; NewId 1024; Pointer (Ptr 5); NewId 1024; Pointer (Ptr 6); Pointer (Ptr 5)].
Proof. vm_compute. reflexivity. Qed.
