(* ===== verification/Jenkins.v ===== *)
(** * The key hash: Jenkins' lookup3 as used by tdb and ctdb

    [lib/tdb/common/hash.c] hashes a key twelve bytes at a time; it has three
    copies of the loop, selected by the alignment of the key pointer, which
    read the key as 32-bit words, 16-bit words or bytes.  [ctdb_hash]
    ([common/ctdb_util.c]) is this function, and it decides which node is the
    location master of a record, so all nodes must agree on it whatever the
    alignment their buffers happen to have. *)
From S2P Require Import Prelude.

Module Jenkins.

(** [#define rot(x,k)] on 32-bit operands. *)
Definition rot (x k : Z) : Z := u32 (Z.lor (Z.shiftl x k) (Z.shiftr x (32 - k))).

Definition sub32 (a b : Z) : Z := u32 (a - b).
Definition add32 (a b : Z) : Z := u32 (a + b).
Definition state : Type := Z * Z * Z.

(** [#define mix(a,b,c)] *)
Definition mix (s : state) : state :=
  let '(a, b, c) := s in
  let a := sub32 a c in let a := Z.lxor a (rot c 4) in let c := add32 c b in
  let b := sub32 b a in let b := Z.lxor b (rot a 6) in let a := add32 a c in
  let c := sub32 c b in let c := Z.lxor c (rot b 8) in let b := add32 b a in
  let a := sub32 a c in let a := Z.lxor a (rot c 16) in let c := add32 c b in
  let b := sub32 b a in let b := Z.lxor b (rot a 19) in let a := add32 a c in
  let c := sub32 c b in let c := Z.lxor c (rot b 4) in let b := add32 b a in
  (a, b, c).

(** [#define final(a,b,c)] *)
Definition final (s : state) : state :=
  let '(a, b, c) := s in
  let c := Z.lxor c b in let c := sub32 c (rot b 14) in
  let a := Z.lxor a c in let a := sub32 a (rot c 11) in
  let b := Z.lxor b a in let b := sub32 b (rot a 25) in
  let c := Z.lxor c b in let c := sub32 c (rot b 16) in
  let a := Z.lxor a c in let a := sub32 a (rot c 4) in
  let b := Z.lxor b a in let b := sub32 b (rot a 14) in
  let c := Z.lxor c b in let c := sub32 c (rot b 24) in
  (a, b, c).

(** Reads through the pointers [k8], [(uint16_t * )k] and [(uint32_t * )k] on a
    little-endian machine. *)
Definition rd8 (k : bytes) (i : nat) : Z := nth i k 0.
Definition rd16 (k : bytes) (i : nat) : Z := le_val (slice (2 * i) 2 k).
Definition rd32 (k : bytes) (i : nat) : Z := le_val (slice (4 * i) 4 k).

(** The body of each of the three [while (length > 12)] loops before [mix]. *)
Definition block32 (k : bytes) (s : state) : state :=
  let '(a, b, c) := s in
  (add32 a (rd32 k 0), add32 b (rd32 k 1), add32 c (rd32 k 2)).

Definition pair16 (k : bytes) (i : nat) : Z :=
  add32 (rd16 k i) (u32 (Z.shiftl (rd16 k (S i)) 16)).

Definition block16 (k : bytes) (s : state) : state :=
  let '(a, b, c) := s in
  (add32 a (pair16 k 0), add32 b (pair16 k 2), add32 c (pair16 k 4)).

Definition shl8 (k : bytes) (i : nat) (n : Z) : Z := u32 (Z.shiftl (rd8 k i) n).

Definition block8 (k : bytes) (s : state) : state :=
  let '(a, b, c) := s in
  let a := add32 a (rd8 k 0) in let a := add32 a (shl8 k 1 8) in
  let a := add32 a (shl8 k 2 16) in let a := add32 a (shl8 k 3 24) in
  let b := add32 b (rd8 k 4) in let b := add32 b (shl8 k 5 8) in
  let b := add32 b (shl8 k 6 16) in let b := add32 b (shl8 k 7 24) in
  let c := add32 c (rd8 k 8) in let c := add32 c (shl8 k 9 8) in
  let c := add32 c (shl8 k 10 16) in let c := add32 c (shl8 k 11 24) in
  (a, b, c).

(** The three [switch(length)] statements: [None] is the early [return c] of
    [case 0]. *)
Definition tail32 (k : bytes) (s : state) : option state :=
  let '(a, b, c) := s in
  let ab '(a, b) := (add32 a (rd32 k 0), add32 b (rd32 k 1)) in
  match length k with
  | 12%nat => let c := add32 c (rd32 k 2) in let '(a, b) := ab (a, b) in Some (a, b, c)
  | 11%nat => let c := add32 c (shl8 k 10 16) in let c := add32 c (shl8 k 9 8) in
              let c := add32 c (rd8 k 8) in let '(a, b) := ab (a, b) in Some (a, b, c)
  | 10%nat => let c := add32 c (shl8 k 9 8) in
              let c := add32 c (rd8 k 8) in let '(a, b) := ab (a, b) in Some (a, b, c)
  | 9%nat => let c := add32 c (rd8 k 8) in let '(a, b) := ab (a, b) in Some (a, b, c)
  | 8%nat => let '(a, b) := ab (a, b) in Some (a, b, c)
  | 7%nat => let b := add32 b (shl8 k 6 16) in let b := add32 b (shl8 k 5 8) in
             let b := add32 b (rd8 k 4) in Some (add32 a (rd32 k 0), b, c)
  | 6%nat => let b := add32 b (shl8 k 5 8) in
             let b := add32 b (rd8 k 4) in Some (add32 a (rd32 k 0), b, c)
  | 5%nat => let b := add32 b (rd8 k 4) in Some (add32 a (rd32 k 0), b, c)
  | 4%nat => Some (add32 a (rd32 k 0), b, c)
  | 3%nat => let a := add32 a (shl8 k 2 16) in let a := add32 a (shl8 k 1 8) in
             Some (add32 a (rd8 k 0), b, c)
  | 2%nat => let a := add32 a (shl8 k 1 8) in Some (add32 a (rd8 k 0), b, c)
  | 1%nat => Some (add32 a (rd8 k 0), b, c)
  | 0%nat => None
  | _ => Some (a, b, c)
  end.

Definition tail16 (k : bytes) (s : state) : option state :=
  let '(a, b, c) := s in
  let ab '(a, b) := (add32 a (pair16 k 0), add32 b (pair16 k 2)) in
  match length k with
  | 12%nat => let c := add32 c (pair16 k 4) in let '(a, b) := ab (a, b) in Some (a, b, c)
  | 11%nat => let c := add32 c (shl8 k 10 16) in let c := add32 c (rd16 k 4) in
              let '(a, b) := ab (a, b) in Some (a, b, c)
  | 10%nat => let c := add32 c (rd16 k 4) in let '(a, b) := ab (a, b) in Some (a, b, c)
  | 9%nat => let c := add32 c (rd8 k 8) in let '(a, b) := ab (a, b) in Some (a, b, c)
  | 8%nat => let '(a, b) := ab (a, b) in Some (a, b, c)
  | 7%nat => let b := add32 b (shl8 k 6 16) in let b := add32 b (rd16 k 2) in
             Some (add32 a (pair16 k 0), b, c)
  | 6%nat => let b := add32 b (rd16 k 2) in Some (add32 a (pair16 k 0), b, c)
  | 5%nat => let b := add32 b (rd8 k 4) in Some (add32 a (pair16 k 0), b, c)
  | 4%nat => Some (add32 a (pair16 k 0), b, c)
  | 3%nat => let a := add32 a (shl8 k 2 16) in Some (add32 a (rd16 k 0), b, c)
  | 2%nat => Some (add32 a (rd16 k 0), b, c)
  | 1%nat => Some (add32 a (rd8 k 0), b, c)
  | 0%nat => None
  | _ => Some (a, b, c)
  end.

(** Every case of the byte-wise switch falls through to the next one. *)
Definition tail8 (k : bytes) (s : state) : option state :=
  let '(a, b, c) := s in
  let len := length k in
  let from i v x := if Nat.leb i len then add32 x v else x in
  if Nat.eqb len 0 then None else
  let c := from 12%nat (shl8 k 11 24) c in let c := from 11%nat (shl8 k 10 16) c in
  let c := from 10%nat (shl8 k 9 8) c in let c := from 9%nat (rd8 k 8) c in
  let b := from 8%nat (shl8 k 7 24) b in let b := from 7%nat (shl8 k 6 16) b in
  let b := from 6%nat (shl8 k 5 8) b in let b := from 5%nat (rd8 k 4) b in
  let a := from 4%nat (shl8 k 3 24) a in let a := from 3%nat (shl8 k 2 16) a in
  let a := from 2%nat (shl8 k 1 8) a in let a := from 1%nat (rd8 k 0) a in
  Some (a, b, c).

(** One alignment's loop, then its switch, then [final].  Each round drops
    twelve bytes, so [length k] rounds are always enough
    ([hash_loop_fuel_enough]). *)
Fixpoint hash_loop (block : bytes → state → state) (tail : bytes → state → option state)
    (fuel : nat) (k : bytes) (s : state) : option Z :=
  if Nat.ltb 12 (length k) then
    match fuel with
    | O => None
    | S fuel => hash_loop block tail fuel (drop 12 k) (mix (block k s))
    end
  else
    match tail k s with
    | None => let '(_, _, c) := s in Some c
    | Some s => let '(_, _, c) := final s in Some c
    end.

(** [hashlittle(key, length)]; [addr] is the numeric value of the pointer. *)
Definition hashlittle (addr : Z) (key : bytes) : option Z :=
  let v := add32 3735928559 (u32 (dsize key)) in
  let s := (v, v, v) in
  if Z.land addr 3 =? 0 then hash_loop block32 tail32 (length key) key s
  else if Z.land addr 1 =? 0 then hash_loop block16 tail16 (length key) key s
  else hash_loop block8 tail8 (length key) key s.

Definition tdb_jenkins_hash (addr : Z) (key : bytes) : Z := default 0 (hashlittle addr key).

(** ** Lemmas *)

Definition state_ok (s : state) : Prop :=
  let '(a, b, c) := s in is_u32 a ∧ is_u32 b ∧ is_u32 c.

Lemma lxor_u32 a b : is_u32 a → is_u32 b → is_u32 (Z.lxor a b).
Proof.
  unfold is_u32. intros Ha Hb.
  assert (0 <= Z.lxor a b) by (apply Z.lxor_nonneg; lia).
  split; [done|]. apply bits_bounded; [lia..|]. intros i Hi.
  by rewrite Z.lxor_spec, (testbit_above 32 a), (testbit_above 32 b).
Qed.

Lemma add32_u32 a b : is_u32 (add32 a b).
Proof. apply u32_range. Qed.

Lemma sub32_u32 a b : is_u32 (sub32 a b).
Proof. apply u32_range. Qed.

Lemma rot_u32 a k : is_u32 (rot a k).
Proof. apply u32_range. Qed.

#[local] Hint Resolve lxor_u32 add32_u32 sub32_u32 rot_u32 : ctdb.
#[local] Opaque add32 sub32 rot.

Lemma mix_ok s : state_ok (mix s).
Proof. destruct s as [[a b] c]. unfold mix, state_ok. auto with ctdb. Qed.

Lemma final_ok s : state_ok s → is_u32 (final s).2.
Proof. destruct s as [[a b] c]. unfold final, state_ok. simpl. auto with ctdb. Qed.

#[local] Transparent add32 sub32 rot.

Lemma add32_add32 a x y : add32 (add32 a x) y = add32 a (x + y).
Proof. unfold add32, u32. by rewrite Zplus_mod_idemp_l, Z.add_assoc. Qed.

Lemma add32_mod_r a x : add32 a (u32 x) = add32 a x.
Proof. unfold add32, u32. by rewrite Zplus_mod_idemp_r. Qed.

Lemma add32_shl8 a k i n : add32 a (shl8 k i n) = add32 a (Z.shiftl (rd8 k i) n).
Proof. apply add32_mod_r. Qed.

Lemma add32_pair16 a k i :
  add32 a (pair16 k i) = add32 a (rd16 k i + Z.shiftl (rd16 k (S i)) 16).
Proof.
  unfold pair16, add32, u32.
  by rewrite Zplus_mod_idemp_r, Z.add_assoc, Zplus_mod_idemp_r, <- Z.add_assoc.
Qed.

(** Rewriting every sum into the form [add32 x (linear combination of bytes)]. *)
Ltac norm_sums :=
  repeat first [rewrite add32_shl8 | rewrite add32_pair16 | rewrite add32_add32];
  rewrite ?Z.shiftl_mul_pow2 by lia;
  unfold rd8, rd16, rd32, slice; simpl.

Ltac same_sums :=
  norm_sums;
  repeat match goal with
  | |- Some _ = Some _ => apply (f_equal Some)
  | |- (_, _) = (_, _) => apply (f_equal2 pair)
  | |- ?x = ?x => reflexivity
  | |- add32 ?a ?x = add32 ?a ?y => replace x with y by lia; reflexivity
  end.

Lemma block32_block8 k s : (12 <= length k)%nat → block32 k s = block8 k s.
Proof.
  intros Hl. destruct s as [[a b] c]. do 12 (destruct k as [|? k]; [simpl in Hl; lia|]).
  unfold block32, block8. same_sums.
Qed.

Lemma block16_block8 k s : (12 <= length k)%nat → block16 k s = block8 k s.
Proof.
  intros Hl. destruct s as [[a b] c]. do 12 (destruct k as [|? k]; [simpl in Hl; lia|]).
  unfold block16, block8. same_sums.
Qed.

(** Case analysis on a key of at most twelve bytes. *)
Ltac by_length k :=
  do 12 (destruct k as [|? k]; [simpl length; cbv iota beta zeta;
    simpl Nat.leb; simpl Nat.eqb; cbv iota; same_sums|]);
  destruct k; [|simpl in *; lia];
  simpl length; cbv iota beta zeta; simpl Nat.leb; simpl Nat.eqb; cbv iota; same_sums.

Lemma tail32_tail8 k s : (length k <= 12)%nat → tail32 k s = tail8 k s.
Proof. intros Hl. destruct s as [[a b] c]. unfold tail32, tail8. by_length k. Qed.

Lemma tail16_tail8 k s : (length k <= 12)%nat → tail16 k s = tail8 k s.
Proof. intros Hl. destruct s as [[a b] c]. unfold tail16, tail8. by_length k. Qed.

Lemma hash_loop_ext block block' tail tail' :
  (∀ k s, (12 <= length k)%nat → block k s = block' k s) →
  (∀ k s, (length k <= 12)%nat → tail k s = tail' k s) →
  ∀ fuel k s, hash_loop block tail fuel k s = hash_loop block' tail' fuel k s.
Proof.
  intros Hb Ht fuel. induction fuel as [|fuel IH]; intros k s; simpl;
    destruct (Nat.leb_spec (length k) 12) as [Hl|Hl].
  1, 3: replace (Nat.ltb 12 (length k)) with false by (symmetry; apply Nat.ltb_ge; lia);
        by rewrite Ht.
  - by replace (Nat.ltb 12 (length k)) with true by (symmetry; apply Nat.ltb_lt; lia).
  - replace (Nat.ltb 12 (length k)) with true by (symmetry; apply Nat.ltb_lt; lia).
    rewrite IH, Hb by lia. done.
Qed.

(** [length k] rounds are enough, and the result is a 32-bit value. *)
Lemma hash_loop_fuel_enough block tail fuel k s :
  (∀ k s s', tail k s = Some s' → state_ok s → state_ok s') →
  (length k <= fuel)%nat → state_ok s →
  ∃ c, hash_loop block tail fuel k s = Some c ∧ is_u32 c.
Proof.
  intros Ht. revert k s. induction fuel as [|fuel IH]; intros k s Hf Hs; simpl;
    (destruct (Nat.ltb_spec 12 (length k)) as [Hl|Hl]; [try lia|]).
  2: { apply IH; [rewrite length_drop; lia|apply mix_ok]. }
  all: destruct (tail k s) as [s'|] eqn:E.
  all: try (pose proof (final_ok s' (Ht _ _ _ E Hs)) as Hc;
            destruct (final s') as [[? ?] c]; eauto).
  all: destruct s as [[a b] c]; exists c; split; [done|apply Hs].
Qed.

Lemma cond_add32_ok (b : bool) x v : is_u32 x → is_u32 (if b then add32 x v else x).
Proof. destruct b; auto with ctdb. Qed.

Lemma tail8_ok k s s' : tail8 k s = Some s' → state_ok s → state_ok s'.
Proof.
  destruct s as [[a b] c]. unfold tail8, state_ok. intros E (Ha & Hb & Hc).
  destruct (Nat.eqb (length k) 0); [done|]. injection E as <-.
  repeat split; repeat apply cond_add32_ok; done.
Qed.

Lemma hashlittle_bytewise addr key :
  hashlittle addr key = hashlittle 1 key.
Proof.
  unfold hashlittle at 2. simpl. unfold hashlittle.
  case_match; [|case_match]; [| |done]; apply hash_loop_ext;
    auto using block32_block8, block16_block8, tail32_tail8, tail16_tail8.
Qed.

(** ** Properties *)

(** C32: the hash of a key does not depend on the alignment of the buffer that
    holds it: the 32-bit and 16-bit reading loops of [hashlittle] compute the
    same value as the byte-wise loop, for every key and every pair of
    addresses.  (Nodes of a cluster compute a record's location master from
    this hash, each on its own copy of the key.) *)
Theorem hashlittle_alignment (addr addr' : Z) (key : bytes) :
  hashlittle addr key = hashlittle addr' key.
Proof. rewrite (hashlittle_bytewise addr), (hashlittle_bytewise addr'). done. Qed.

(** [hashlittle] always returns, and returns a 32-bit value, for a key of
    any length. *)
Theorem hashlittle_total (addr : Z) (key : bytes) :
  ∃ h, hashlittle addr key = Some h ∧ is_u32 h.
Proof.
  rewrite hashlittle_bytewise. unfold hashlittle. simpl.
  apply hash_loop_fuel_enough; [apply tail8_ok|done|].
  unfold state_ok. auto with ctdb.
Qed.


Lemma tdb_jenkins_hash_range addr key : is_u32 (tdb_jenkins_hash addr key).
Proof.
  destruct (hash_loop_fuel_enough block8 tail8 (length key) key
    (let v := add32 3735928559 (u32 (dsize key)) in (v, v, v))) as (c & Hc & Hr);
    [apply tail8_ok|done|unfold state_ok; auto with ctdb|].
  unfold tdb_jenkins_hash. rewrite hashlittle_bytewise.
  unfold hashlittle. simpl. cbv zeta in Hc. by rewrite Hc.
Qed.

(** The published check values of lookup3 with a zero seed. *)
Example hash_four_score :
  tdb_jenkins_hash 0 (map (λ a, Z.of_N (Ascii.N_of_ascii a))
    (String.list_ascii_of_string "Four score and seven years ago")) = 393676113.
Proof. vm_compute. reflexivity. Qed.

End Jenkins.
