(* ===== verification/TdbFile.v ===== *)
(** * The tdb file

    The trivial database library in [lib/tdb/common]: [io.c], [freelist.c],
    [tdb.c], the read-only traversal of [traverse.c] and the creation of a file
    in [open.c], down to the bytes of the memory-mapped file.

    A file is a header, a table with the head of the free list and of every hash
    chain, and records that tile the rest; each record has a header and, in its
    last four bytes, its size (the tailer), by which a record that is freed finds
    its left neighbour.

    One process works on the file under the chain locks; whether a lock is
    granted, whether the lock on a single record is free, whether the file can be
    extended and how far an extension gets that fails are answers of the
    environment.  The byte order is that of
    the machine ([TDB_CONVERT] is not set).  The offsets of the source are 32-bit:
    a request that would take the file past 4 GiB makes the C code overwrite or
    truncate it; the model stops there, sets [tdb_overflow] and fails. *)
From Stdlib Require Import SpecFloat.
From S2P Require Import Prelude.

Module Tdb.

(** ** Bytes of a file *)

Definition read_at (off len : Z) (m : bytes) : bytes := slice (Z.to_nat off) (Z.to_nat len) m.
Definition write_at (off : Z) (buf m : bytes) : bytes :=
  take (Z.to_nat off) m ++ buf ++ drop (Z.to_nat off + length buf) m.

Definition TDB_MAGIC : Z := 637606297. (* 0x26011999 *)
Definition TDB_FREE_MAGIC : Z := 3657360998. (* ~TDB_MAGIC *)
Definition TDB_DEAD_MAGIC : Z := 4276215469. (* 0xFEE1DEAD *)
Definition TDB_VERSION : Z := 637606253. (* 0x26011967 + 6 *)
Definition TDB_HASH_RWLOCK_MAGIC : Z := 195893841. (* 0xbad1a51 *)
Definition TDB_PAD_BYTE : Z := 66.
Definition TDB_PAD_U32 : Z := 1111638594. (* 0x42424242 *)
Definition FREELIST_TOP : Z := 168.
Definition TDB_RECOVERY_HEAD : Z := 44.
Definition TDB_SEQNUM_OFS : Z := 48.

(** [struct tdb_record] *)
Record tdb_record := mk_rec {
  next : Z;
  rec_len : Z;
  key_len : Z;
  data_len : Z;
  full_hash : Z;
  magic : Z;
}.
Definition sizeof_rec : Z := 24.

Definition rec_bytes (r : tdb_record) : bytes :=
  le_bytes 4 (next r) ++ le_bytes 4 (rec_len r) ++ le_bytes 4 (key_len r)
  ++ le_bytes 4 (data_len r) ++ le_bytes 4 (full_hash r) ++ le_bytes 4 (magic r).
Definition rec_of_bytes (p : bytes) : tdb_record :=
  mk_rec (le_val (slice 0 4 p)) (le_val (slice 4 4 p)) (le_val (slice 8 4 p))
    (le_val (slice 12 4 p)) (le_val (slice 16 4 p)) (le_val (slice 20 4 p)).

Definition set_next (r : tdb_record) v :=
  mk_rec v (rec_len r) (key_len r) (data_len r) (full_hash r) (magic r).
Definition set_rec_len (r : tdb_record) v :=
  mk_rec (next r) v (key_len r) (data_len r) (full_hash r) (magic r).
Definition set_data_len (r : tdb_record) v :=
  mk_rec (next r) (rec_len r) (key_len r) v (full_hash r) (magic r).
Definition set_magic (r : tdb_record) v :=
  mk_rec (next r) (rec_len r) (key_len r) (data_len r) (full_hash r) v.

Definition TDB_DEAD (r : tdb_record) : bool := magic r =? TDB_DEAD_MAGIC.
Definition TDB_BAD_MAGIC (r : tdb_record) : bool := negb (magic r =? TDB_MAGIC) && negb (TDB_DEAD r).
(** [TDB_ALIGN(x, a)] for a power of two [a]. *)
Definition TDB_ALIGN (x a : Z) : Z := (x + a - 1) / a * a.

(** The part of [struct tdb_context] that matters: [tdb_map] is the mapped file,
    [tdb_env] the answers of the environment still to come (everything is
    granted when they run out). *)
Record tdb_context := mk_tdb {
  tdb_map : bytes;
  tdb_hash_size : Z;
  tdb_flag_seqnum : bool;
  tdb_max_dead_records : Z;
  tdb_page_size : Z;
  tdb_read_only : bool;
  tdb_env : list bool;
  tdb_overflow : bool;
}.

Definition set_tdb_map t v : tdb_context := mk_tdb v (tdb_hash_size t) (tdb_flag_seqnum t)
  (tdb_max_dead_records t) (tdb_page_size t) (tdb_read_only t) (tdb_env t) (tdb_overflow t).
Definition set_tdb_env t v : tdb_context := mk_tdb (tdb_map t) (tdb_hash_size t) (tdb_flag_seqnum t)
  (tdb_max_dead_records t) (tdb_page_size t) (tdb_read_only t) v (tdb_overflow t).
Definition set_tdb_overflow t : tdb_context := mk_tdb (tdb_map t) (tdb_hash_size t) (tdb_flag_seqnum t)
  (tdb_max_dead_records t) (tdb_page_size t) (tdb_read_only t) (tdb_env t) true.
Definition set_tdb_flag_seqnum t v : tdb_context := mk_tdb (tdb_map t) (tdb_hash_size t) v
  (tdb_max_dead_records t) (tdb_page_size t) (tdb_read_only t) (tdb_env t) (tdb_overflow t).

Implicit Types (t : tdb_context) (r : tdb_record).

Definition tdb_map_size t : Z := dsize (tdb_map t).
Definition BUCKET t (hash : Z) : Z := hash mod tdb_hash_size t.
Definition TDB_HASH_TOP t (hash : Z) : Z := FREELIST_TOP + (BUCKET t hash + 1) * 4.
Definition TDB_DATA_START t : Z := FREELIST_TOP + tdb_hash_size t * 4 + 4.

(** ** [io.c] *)

(** The next answer of the environment. *)
Definition ask t : bool * tdb_context :=
  match tdb_env t with
  | [] => (true, t)
  | b :: env => (b, set_tdb_env t env)
  end.

(** [tdb_lock] on a chain or on the free list; a lock that the process holds
    already ([held]) is nested and always granted. *)
Definition tdb_lock (held : bool) t : bool * tdb_context := if held then (true, t) else ask t.

Definition tdb_oob t (off len : Z) : bool :=
  if u32 (len + off) <? len then false else u32 (off + len) <=? tdb_map_size t.

Definition tdb_read t (off len : Z) : option bytes :=
  if tdb_oob t off len then Some (read_at off len (tdb_map t)) else None.

(** (success, file) *)
Definition tdb_write t (off : Z) (buf : bytes) : bool * tdb_context :=
  if dsize buf =? 0 then (true, t)
  else if tdb_read_only t then (false, t)
  else if negb (tdb_oob t off (dsize buf)) then (false, t)
  else (true, set_tdb_map t (write_at off buf (tdb_map t))).

Definition tdb_ofs_read t (off : Z) : option Z :=
  d ← tdb_read t off 4; Some (le_val d).
Definition tdb_ofs_write t (off d : Z) : bool * tdb_context := tdb_write t off (le_bytes 4 d).

Definition tdb_rec_read t (off : Z) : option tdb_record :=
  d ← tdb_read t off sizeof_rec;
  let r := rec_of_bytes d in
  if TDB_BAD_MAGIC r then None
  else if tdb_oob t (next r) sizeof_rec then Some r else None.
Definition tdb_rec_write t (off : Z) r : bool * tdb_context := tdb_write t off (rec_bytes r).

(** Double precision: the value truncated to an integer. *)
Definition sf_trunc (f : spec_float) : Z :=
  match f with
  | S754_finite s m e => (if s then -1 else 1) * Z.shiftl (Zpos m) e
  | _ => 0
  end.
Definition sf_of_Z (prec emax z : Z) : spec_float := binary_normalize prec emax z 0 false.
(** [1.10] and [1.05] as doubles. *)
Definition sf_1_10 : spec_float := S754_finite false 4953959590107546 (-52).
Definition sf_1_05 : spec_float := S754_finite false 4728779608739021 (-52).

(** The new size of the file before the reduction to 32 bits. *)
Definition expand_top (map_size size : Z) : Z :=
  if 100 * 1024 <? size then map_size + size * 2 else map_size + size * 100.
Definition expand_new (map_size : Z) : Z :=
  if 100 * 1024 * 1024 <? map_size then sf_trunc (SFmul 53 1024 (sf_of_Z 53 1024 map_size) sf_1_10)
  else map_size * 5 / 4.
Definition tdb_expand_adjust (map_size size page_size : Z) : Z :=
  let new_size := Z.max (u32 (expand_top map_size size)) (u32 (expand_new map_size)) in
  u32 (u32 (TDB_ALIGN new_size page_size) - map_size).

(** Whether a step of this computation does not fit into 32 bits. *)
Definition expand_overflows (map_size size page_size : Z) : bool :=
  (2 ^ 32 <=? expand_top map_size size) || (2 ^ 32 <=? expand_new map_size)
  || (2 ^ 32 <=? TDB_ALIGN (Z.max (u32 (expand_top map_size size)) (u32 (expand_new map_size))) page_size).

(** ** [freelist.c] *)

(** A record of the free list; a record that a process has left half deleted is
    repaired. *)
Definition tdb_rec_free_read t (off : Z) : option tdb_record * tdb_context :=
  match tdb_read t off sizeof_rec with
  | None => (None, t)
  | Some d =>
      let r := rec_of_bytes d in
      let '(ok, r, t) :=
        if magic r =? TDB_MAGIC then
          let r := set_magic r TDB_FREE_MAGIC in
          let '(ok, t) := tdb_write t off (rec_bytes r) in (ok, r, t)
        else (true, r, t) in
      if negb ok then (None, t)
      else if negb (magic r =? TDB_FREE_MAGIC) then (None, t)
      else if tdb_oob t (next r) sizeof_rec then (Some r, t) else (None, t)
  end.

Definition update_tailer t (off : Z) r : bool * tdb_context :=
  let totalsize := u32 (sizeof_rec + rec_len r) in
  tdb_ofs_write t (u32 (off + totalsize - 4)) totalsize.

(** The record to the left, if it is free. *)
Definition left_free t (off : Z) : option (Z * tdb_record) :=
  if negb (TDB_DATA_START t <? u64 (off - 4)) then None
  else
    leftsize ← tdb_ofs_read t (u32 (off - 4));
    if (leftsize =? 0) || (leftsize =? TDB_PAD_U32) then None
    else
      let lft := u32 (off - leftsize) in
      if (off <? leftsize) || (lft <? TDB_DATA_START t) then None
      else
        d ← tdb_read t lft sizeof_rec;
        let l := rec_of_bytes d in
        if magic l =? TDB_FREE_MAGIC then Some (lft, l) else None.

Definition tdb_free (held : bool) t (off : Z) r : bool * tdb_context :=
  let '(ok, t) := tdb_lock held t in
  if negb ok then (false, t)
  else
    let '(ok, t) := update_tailer t off r in
    if negb ok then (false, t)
    else match left_free t off with
    | Some (lft, l) =>
        let l := set_rec_len l (u32 (rec_len l + (sizeof_rec + rec_len r))) in
        let '(ok, t) := tdb_rec_write t lft l in
        if negb ok then (false, t) else update_tailer t lft l
    | None =>
        match tdb_ofs_read t FREELIST_TOP with
        | None => (false, t)
        | Some top =>
            let r := set_next (set_magic r TDB_FREE_MAGIC) top in
            let '(ok, t) := tdb_rec_write t off r in
            if negb ok then (false, t) else tdb_ofs_write t FREELIST_TOP off
        end
    end.

Definition MIN_REC_SIZE : Z := sizeof_rec + 4 + 8.

(** (offset or 0, record, file) *)
Definition tdb_allocate_ofs t (length rec_ptr : Z) r (last_ptr : Z) : Z * tdb_record * tdb_context :=
  if rec_len r <? length + MIN_REC_SIZE then
    let '(ok, t) := tdb_ofs_write t last_ptr (next r) in
    if negb ok then (0, r, t)
    else
      let r := set_magic r TDB_MAGIC in
      let '(ok, t) := tdb_rec_write t rec_ptr r in
      (if ok then rec_ptr else 0, r, t)
  else
    let r := set_rec_len r (u32 (rec_len r - (length + sizeof_rec))) in
    let '(ok, t) := tdb_rec_write t rec_ptr r in
    if negb ok then (0, r, t)
    else
      let '(ok, t) := update_tailer t rec_ptr r in
      if negb ok then (0, r, t)
      else
        let rec_ptr := u32 (rec_ptr + (sizeof_rec + rec_len r)) in
        let r := mk_rec 0 length 0 0 0 TDB_MAGIC in
        let '(ok, t) := tdb_rec_write t rec_ptr r in
        if negb ok then (0, r, t)
        else
          let '(ok, t) := update_tailer t rec_ptr r in
          (if ok then rec_ptr else 0, r, t).

(** The float arithmetic of the search: [multiplier *= 1.05] and
    [rec_len < length * multiplier]. *)
Definition next_multiplier (m : spec_float) : spec_float :=
  match SFmul 53 1024 m sf_1_05 with
  | S754_finite s m e => binary_normalize 24 128 (cond_Zopp s (Zpos m)) e s
  | f => f
  end.
Definition fits_well (len length : Z) (multiplier : spec_float) : bool :=
  SFltb (sf_of_Z 24 128 len) (SFmul 24 128 (sf_of_Z 24 128 length) multiplier).

(** The best fit so far: record, the one before it, and its length. *)
Record bestfit := mk_best { best_rec_ptr : Z; best_last_ptr : Z; best_rec_len : Z }.

(** The search through the free list: the best fit and the multiplier reached;
    [None] is a failure.  There are no more records than bytes in the file: [fuel] is the size of the map. *)
Fixpoint search_free (fuel : nat) t (length rec_ptr last_ptr : Z) (best : bestfit)
    (multiplier : spec_float) : option (bestfit * spec_float) * tdb_context :=
  match fuel with
  | O => (None, t)
  | S fuel =>
      if rec_ptr =? 0 then (Some (best, multiplier), t)
      else
        match tdb_rec_free_read t rec_ptr with
        | (None, t) => (None, t)
        | (Some r, t) =>
            let best :=
              if (length <=? rec_len r)
                 && ((best_rec_ptr best =? 0) || (rec_len r <? best_rec_len best))
              then mk_best rec_ptr last_ptr (rec_len r) else best in
            if (0 <? best_rec_len best) && fits_well (best_rec_len best) length multiplier
            then (Some (best, multiplier), t)
            else search_free fuel t length (next r) rec_ptr best (next_multiplier multiplier)
        end
  end.

(** A number, as many as the environment grants in a row. *)
Fixpoint granted (env : list bool) : Z * list bool :=
  match env with
  | [] => (0, [])
  | false :: env => (0, env)
  | true :: env => let '(n, env) := granted env in (n + 1, env)
  end.

(** [ftruncate], or else [pwrite] of the last byte, makes the file larger, with
    zeros; then it is filled.  When a write fails, the file stays larger, with the
    bytes that were written.  Blocks of a file system are larger than a word: the
    writes stop before the last word of the file. *)
Definition tdb_expand_file t (addition : Z) : bool * tdb_context :=
  if tdb_read_only t then (false, t)
  else
    let '(ok, t) := ask t in
    if negb ok then (false, t)
    else
      let '(ok, t) := ask t in
      let '(size, t) := if ok then (addition, t)
        else let '(n, env) := granted (tdb_env t) in (Z.min n (addition - 4), set_tdb_env t env) in
      (ok, set_tdb_map t (tdb_map t ++ replicate (Z.to_nat size) TDB_PAD_BYTE ++ replicate (Z.to_nat (addition - size)) 0)).

(** The size of the file that an extension finds is the one that the last has left,
    even one that failed ([tdb_oob] asks for the size of the file). *)
Definition tdb_expand (held : bool) t (size : Z) : bool * tdb_context :=
  let '(ok, t) := tdb_lock held t in
  if negb ok then (false, t)
  else if expand_overflows (tdb_map_size t) size (tdb_page_size t) then (false, set_tdb_overflow t)
  else
    let size := tdb_expand_adjust (tdb_map_size t) size (tdb_page_size t) in
    let offset := tdb_map_size t in
    let '(ok, t) := tdb_expand_file t size in
    if negb ok then (false, t)
    else tdb_free true t offset (mk_rec 0 (u32 (size - sizeof_rec)) 0 0 0 0).

Definition float_one : spec_float := S754_finite false 8388608 (-23).

(** The loop of [tdb_allocate]: search, expand, and search again with the
    multiplier that the last search has reached.  After an expansion the search finds room, so two rounds are enough. *)
Fixpoint allocate_again (rounds : nat) t (length : Z) (multiplier : spec_float) : Z * tdb_record * tdb_context :=
  let none := mk_rec 0 0 0 0 0 0 in
  match rounds with
  | O => (0, none, t)
  | S rounds =>
      match tdb_ofs_read t FREELIST_TOP with
      | None => (0, none, t)
      | Some top =>
          match search_free (S (Datatypes.length (tdb_map t))) t length top FREELIST_TOP (mk_best 0 0 0) multiplier with
          | (None, t) => (0, none, t)
          | (Some (best, multiplier), t) =>
              if negb (best_rec_ptr best =? 0) then
                match tdb_rec_free_read t (best_rec_ptr best) with
                | (None, t) => (0, none, t)
                | (Some r, t) => tdb_allocate_ofs t length (best_rec_ptr best) r (best_last_ptr best)
                end
              else
                let '(ok, t) := tdb_expand true t (length + sizeof_rec) in
                if ok then allocate_again rounds t length multiplier else (0, none, t)
          end
      end
  end.

(** [size] is the size of key and data; the length asked for is a quarter more,
    with a tailer, aligned. *)
Definition allocate_length (size : Z) : Z := TDB_ALIGN (size * 5 / 4 + 4) 4.
Definition tdb_allocate (held : bool) t (size : Z) : Z * tdb_record * tdb_context :=
  let none := mk_rec 0 0 0 0 0 0 in
  let '(ok, t) := tdb_lock held t in
  if negb ok then (0, none, t)
  else if 2 ^ 32 <=? allocate_length size + sizeof_rec then (0, none, set_tdb_overflow t)
  else allocate_again 2 t (allocate_length size) float_one.

(** [tdb_freelist_size]: the loop, whose [ptr] is the record read last. *)
Fixpoint freelist_from (fuel : nat) t (ptr : Z) : Z :=
  match fuel with
  | O => 0
  | S fuel =>
      match tdb_ofs_read t ptr with
      | Some p => if p =? 0 then 0 else 1 + freelist_from fuel t p
      | None => 0
      end
  end.
Definition tdb_freelist_size t : Z * tdb_context :=
  let '(ok, t) := tdb_lock false t in
  if ok then (freelist_from (S (length (tdb_map t))) t FREELIST_TOP, t) else (-1, t).

(** ** [tdb.c] *)

Definition tdb_increment_seqnum_nonblock t : tdb_context :=
  if tdb_flag_seqnum t then
    let seqnum := default 0 (tdb_ofs_read t TDB_SEQNUM_OFS) in
    (tdb_ofs_write t TDB_SEQNUM_OFS (u32 (seqnum + 1))).2
  else t.
Definition tdb_increment_seqnum t : tdb_context :=
  if tdb_flag_seqnum t then
    let '(ok, t) := ask t in
    if ok then tdb_increment_seqnum_nonblock t else t
  else t.
Definition tdb_get_seqnum t : Z := default 0 (tdb_ofs_read t TDB_SEQNUM_OFS).

(** [tdb_parse_data]: the bytes handed to the parser. *)
Definition tdb_parse_data t (off len : Z) : option bytes := tdb_read t (u32 off) len.

(** [tdb_find]: a record, [TDB_ERR_NOEXIST], or a damaged file. *)
Inductive find_result :=
| FindAt (rec_ptr : Z) (r : tdb_record)
| FindNoexist
| FindError.

Fixpoint find_from (fuel : nat) t (key : bytes) (hash rec_ptr : Z) : find_result :=
  match fuel with
  | O => FindError
  | S fuel =>
      if rec_ptr =? 0 then FindNoexist
      else match tdb_rec_read t rec_ptr with
      | None => FindError
      | Some r =>
          if negb (TDB_DEAD r) && (hash =? full_hash r) && (dsize key =? key_len r)
             && bool_decide (tdb_parse_data t (rec_ptr + sizeof_rec) (key_len r) = Some key)
          then FindAt rec_ptr r
          else if rec_ptr =? next r then FindError
          else find_from fuel t key hash (next r)
      end
  end.

(** A chain has no more records than the file has bytes. *)
Definition chain_fuel t : nat := S (length (tdb_map t)).

Definition tdb_find t (key : bytes) (hash : Z) : find_result :=
  match tdb_ofs_read t (TDB_HASH_TOP t hash) with
  | None => FindError
  | Some p => find_from (chain_fuel t) t key hash p
  end.

Section hash_fn.
(** [tdb->hash_fn], which returns an [unsigned int]. *)
Context (hash_fn : bytes → Z).
Definition key_hash (key : bytes) : Z := u32 (hash_fn key).

(** The value under a key, read under the chain lock; [None] is [tdb_null]. *)
Definition fetch_locked t (key : bytes) : option bytes :=
  match tdb_find t key (key_hash key) with
  | FindAt p r => tdb_read t (u32 (p + sizeof_rec + key_len r)) (data_len r)
  | _ => None
  end.
Definition _tdb_fetch (held : bool) t (key : bytes) : option bytes * tdb_context :=
  let '(ok, t) := tdb_lock held t in
  (if ok then fetch_locked t key else None, t).
Definition tdb_fetch t key := _tdb_fetch false t key.

(** [tdb_parse_record]: [None] stands for -1 without a call of the parser. *)
Definition tdb_parse_record (held : bool) t (key : bytes) : option bytes * tdb_context :=
  let '(ok, t) := tdb_lock held t in
  (if ok then
     match tdb_find t key (key_hash key) with
     | FindAt p r => tdb_parse_data t (p + sizeof_rec + key_len r) (data_len r)
     | _ => None
     end
   else None, t).

Definition exists_locked t (key : bytes) (hash : Z) : bool :=
  match tdb_find t key hash with FindAt _ _ => true | _ => false end.
Definition tdb_exists_hash (held : bool) t (key : bytes) (hash : Z) : bool * tdb_context :=
  let '(ok, t) := tdb_lock held t in (ok && exists_locked t key hash, t).
Definition tdb_exists t (key : bytes) : bool * tdb_context :=
  tdb_exists_hash false t key (key_hash key).

(** [tdb_update_hash]: updated, no such record, or no update in place. *)
Inductive update_result := UpdDone | UpdNoexist | UpdFail.

Definition tdb_update_hash t (key : bytes) (hash : Z) (dbuf : bytes) : update_result * tdb_context :=
  match tdb_find t key hash with
  | FindNoexist => (UpdNoexist, t)
  | FindError => (UpdFail, t)
  | FindAt p r =>
      let '(old, t) :=
        if (key_len r =? dsize key) && (data_len r =? dsize dbuf) && (full_hash r =? hash)
        then tdb_parse_record true t key else (None, t) in
      if bool_decide (old = Some dbuf) then (UpdDone, t)
      else if rec_len r <? dsize key + dsize dbuf + 4 then (UpdFail, t)
      else
        let '(ok, t) := tdb_write t (u32 (p + sizeof_rec + key_len r)) dbuf in
        if negb ok then (UpdFail, t)
        else if dsize dbuf =? data_len r then (UpdDone, t)
        else
          let '(ok, t) := tdb_rec_write t p (set_data_len r (dsize dbuf)) in
          (if ok then UpdDone else UpdFail, t)
  end.

(** The loop of [tdb_do_delete]: the record before [rec_ptr] in its chain, 0 if
    it is the first. *)
Fixpoint find_prev (fuel : nat) t (rec_ptr last_ptr i : Z) : option Z :=
  match fuel with
  | O => None
  | S fuel =>
      if i =? rec_ptr then Some last_ptr
      else lastrec ← tdb_rec_read t i; find_prev fuel t rec_ptr i (next lastrec)
  end.

(** The unlocking of a record that was just locked does not fail. *)
Definition tdb_do_delete (held : bool) t (rec_ptr : Z) r : bool * tdb_context :=
  if tdb_read_only t then (false, t)
  else
    let '(ok, t) := ask t in
    if negb ok then tdb_rec_write t rec_ptr (set_magic r TDB_DEAD_MAGIC)
    else
      match tdb_ofs_read t (TDB_HASH_TOP t (full_hash r)) with
      | None => (false, t)
      | Some i =>
          match find_prev (chain_fuel t) t rec_ptr 0 i with
          | None => (false, t)
          | Some last_ptr =>
              let last_ptr := if last_ptr =? 0 then TDB_HASH_TOP t (full_hash r) else last_ptr in
              let '(ok, t) := tdb_ofs_write t last_ptr (next r) in
              if negb ok then (false, t) else tdb_free held t rec_ptr r
          end
      end.

Fixpoint count_dead_from (fuel : nat) t (rec_ptr : Z) : option Z :=
  match fuel with
  | O => None
  | S fuel =>
      if rec_ptr =? 0 then Some 0
      else
        r ← tdb_rec_read t rec_ptr;
        n ← count_dead_from fuel t (next r);
        Some (if magic r =? TDB_DEAD_MAGIC then n + 1 else n)
  end.
Definition tdb_count_dead t (hash : Z) : Z :=
  default 0 (p ← tdb_ofs_read t (TDB_HASH_TOP t hash); count_dead_from (chain_fuel t) t p).

Fixpoint purge_from (fuel : nat) t (rec_ptr : Z) : bool * tdb_context :=
  match fuel with
  | O => (false, t)
  | S fuel =>
      if rec_ptr =? 0 then (true, t)
      else
        match tdb_rec_read t rec_ptr with
        | None => (false, t)
        | Some r =>
            let '(ok, t) :=
              if magic r =? TDB_DEAD_MAGIC then tdb_do_delete true t rec_ptr r else (true, t) in
            if ok then purge_from fuel t (next r) else (false, t)
        end
  end.
Definition tdb_purge_dead (held : bool) t (hash : Z) : bool * tdb_context :=
  let '(ok, t) := tdb_lock held t in
  if negb ok then (false, t)
  else match tdb_ofs_read t (TDB_HASH_TOP t hash) with
  | None => (false, t)
  | Some p => purge_from (chain_fuel t) t p
  end.

(** The part of [tdb_delete_hash] under the chain lock. *)
Definition delete_locked t (key : bytes) (hash : Z) : bool * tdb_context :=
  if negb (tdb_max_dead_records t =? 0) then
    let t :=
      if tdb_max_dead_records t <=? tdb_count_dead t hash
      then (tdb_purge_dead false t hash).2 else t in
    match tdb_find t key hash with
    | FindAt p r => tdb_rec_write t p (set_magic r TDB_DEAD_MAGIC)
    | _ => (false, t)
    end
  else
    match tdb_find t key hash with
    | FindAt p r => tdb_do_delete false t p r
    | _ => (false, t)
    end.
Definition tdb_delete_hash (held : bool) t (key : bytes) (hash : Z) : bool * tdb_context :=
  let '(ok, t) := tdb_lock held t in
  if negb ok then (false, t)
  else
    let '(ok, t) := delete_locked t key hash in
    (ok, if ok then tdb_increment_seqnum t else t).
Definition tdb_delete t (key : bytes) : bool * tdb_context :=
  tdb_delete_hash false t key (key_hash key).

Fixpoint find_dead_from (fuel : nat) t (len rec_ptr : Z) : option (Z * tdb_record) :=
  match fuel with
  | O => None
  | S fuel =>
      if rec_ptr =? 0 then None
      else
        r ← tdb_rec_read t rec_ptr;
        if TDB_DEAD r && (len <=? rec_len r) then Some (rec_ptr, r)
        else find_dead_from fuel t len (next r)
  end.
Definition tdb_find_dead t (hash len : Z) : option (Z * tdb_record) :=
  p ← tdb_ofs_read t (TDB_HASH_TOP t hash); find_dead_from (chain_fuel t) t len p.

(** Header, key and data of a record, in this order; stops at a failure. *)
Definition write_record t (rec_ptr : Z) r (key dbuf : bytes) : bool * tdb_context :=
  let '(ok, t) := tdb_rec_write t rec_ptr r in
  if negb ok then (false, t)
  else
    let '(ok, t) := tdb_write t (u32 (rec_ptr + sizeof_rec)) key in
    if negb ok then (false, t)
    else tdb_write t (u32 (rec_ptr + sizeof_rec + dsize key)) dbuf.

Definition record_of r (key dbuf : bytes) (hash : Z) : tdb_record :=
  mk_rec (next r) (rec_len r) (dsize key) (dsize dbuf) hash TDB_MAGIC.

Inductive store_flag := TDB_REPLACE | TDB_INSERT | TDB_MODIFY.

(** The last part of [_tdb_store]: a new record from the free list. *)
Definition store_allocate t (key dbuf : bytes) (hash : Z) : bool * tdb_context :=
  let '(ok, t) := tdb_lock false t in
  if negb ok then (false, t)
  else
    let '(ok, t) :=
      if negb (tdb_max_dead_records t =? 0) then tdb_purge_dead true t hash else (true, t) in
    if negb ok then (false, t)
    else
      let '(rec_ptr, r, t) := tdb_allocate true t (dsize key + dsize dbuf) in
      if rec_ptr =? 0 then (false, t)
      else match tdb_ofs_read t (TDB_HASH_TOP t hash) with
      | None => (false, t)
      | Some top =>
          let '(ok, t) := write_record t rec_ptr (record_of (set_next r top) key dbuf hash) key dbuf in
          if negb ok then (false, t) else tdb_ofs_write t (TDB_HASH_TOP t hash) rec_ptr
      end.

(** A dead record of the chain that is large enough is used again. *)
Definition store_dead t (key dbuf : bytes) (hash : Z) : bool * tdb_context :=
  if 2 ^ 32 <=? dsize key + dsize dbuf + 4 then (false, set_tdb_overflow t)
  else match (if negb (tdb_max_dead_records t =? 0)
              then tdb_find_dead t hash (dsize key + dsize dbuf + 4) else None) with
  | Some (rec_ptr, r) => write_record t rec_ptr (record_of r key dbuf hash) key dbuf
  | None => store_allocate t key dbuf hash
  end.

Definition store_body t (key dbuf : bytes) (flag : store_flag) (hash : Z) : bool * tdb_context :=
  match flag with
  | TDB_INSERT =>
      let '(e, t) := tdb_exists_hash true t key hash in
      if e then (false, t) else store_dead t key dbuf hash
  | _ =>
      let '(u, t) := tdb_update_hash t key hash dbuf in
      match u, flag with
      | UpdDone, _ => (true, t)
      | UpdNoexist, TDB_MODIFY => (false, t)
      | _, _ => store_dead (tdb_delete_hash true t key hash).2 key dbuf hash
      end
  end.
Definition _tdb_store t (key dbuf : bytes) (flag : store_flag) (hash : Z) : bool * tdb_context :=
  let '(ok, t) := store_body t key dbuf flag hash in
  (ok, if ok then tdb_increment_seqnum t else t).

Definition tdb_store t (key dbuf : bytes) (flag : store_flag) : bool * tdb_context :=
  if tdb_read_only t then (false, t)
  else
    let '(ok, t) := tdb_lock false t in
    if negb ok then (false, t) else _tdb_store t key dbuf flag (key_hash key).

Definition tdb_append t (key new_dbuf : bytes) : bool * tdb_context :=
  let '(ok, t) := tdb_lock false t in
  if negb ok then (false, t)
  else
    let '(old, t) := _tdb_fetch true t key in
    _tdb_store t key (default [] old ++ new_dbuf) TDB_REPLACE (key_hash key).

(** *** [tdb_wipe_all] *)

(** The chain heads from [i] on. *)
Fixpoint wipe_heads (n : nat) t (i : Z) : bool * tdb_context :=
  match n with
  | O => (true, t)
  | S n =>
      let '(ok, t) := tdb_ofs_write t (TDB_HASH_TOP t i) 0 in
      if ok then wipe_heads n t (i + 1) else (false, t)
  end.

(** [ssize_t length] *)
Definition tdb_free_region t (off len : Z) : bool * tdb_context :=
  if u64 len <=? sizeof_rec then (true, t)
  else if tdb_map_size t <? len + off then (false, t)
  else tdb_free true t off (mk_rec 0 (u32 (len - sizeof_rec)) 0 0 0 0).

Definition tdb_wipe_all t : bool * tdb_context :=
  let '(ok, t) := ask t in
  if negb ok then (false, t)
  else match tdb_ofs_read t TDB_RECOVERY_HEAD with
  | None => (false, t)
  | Some recovery_head =>
      match (if recovery_head =? 0 then Some 0
             else d ← tdb_read t recovery_head sizeof_rec;
                  Some (u32 (rec_len (rec_of_bytes d) + sizeof_rec))) with
      | None => (false, t)
      | Some recovery_size =>
          let '(ok, t) := wipe_heads (Z.to_nat (tdb_hash_size t)) t 0 in
          if negb ok then (false, t)
          else
            let '(ok, t) := tdb_ofs_write t FREELIST_TOP 0 in
            if negb ok then (false, t)
            else
              let '(ok, t) :=
                if recovery_size =? 0
                then tdb_free_region t (TDB_DATA_START t) (tdb_map_size t - TDB_DATA_START t)
                else
                  let '(ok, t) := tdb_free_region t (TDB_DATA_START t) (recovery_head - TDB_DATA_START t) in
                  if negb ok then (false, t)
                  else
                    let e := u32 (recovery_head + recovery_size) in
                    tdb_free_region t e (u32 (tdb_map_size t - e)) in
              if negb ok then (false, t) else (true, tdb_increment_seqnum_nonblock t)
      end
  end.

(** ** [traverse.c] *)

(** The position of a traversal: the record it stands on (0: none) and the
    chain. *)
Record tdb_traverse_lock := mk_tlock { tl_off : Z; tl_hash : Z }.

Inductive next_result := NextAt (off : Z) (r : tdb_record) | NextDone | NextErr.

(** The inner loop of [tdb_next_lock]: the next live record of the chain from
    [off] on; dead ones are deleted on the way unless the traversal only reads. *)
Fixpoint next_in_chain (fuel : nat) (traverse_read : bool) t (off : Z) : next_result * tdb_context :=
  match fuel with
  | O => (NextErr, t)
  | S fuel =>
      if off =? 0 then (NextDone, t)
      else match tdb_rec_read t off with
      | None => (NextErr, t)
      | Some r =>
          if off =? next r then (NextErr, t)
          else if negb (TDB_DEAD r) then
            let '(ok, t) := ask t in (if ok then NextAt off r else NextErr, t)
          else
            let '(ok, t) :=
              if negb (tdb_read_only t || traverse_read)
              then tdb_do_delete false t off r else (true, t) in
            if ok then next_in_chain fuel traverse_read t (next r) else (NextErr, t)
      end
  end.

(** [next_hash_chain]: the first chain from [h] on that is not empty. *)
Fixpoint next_hash_chain (fuel : nat) t (h : Z) : Z :=
  match fuel with
  | O => h
  | S fuel =>
      if h <? tdb_hash_size t then
        if bool_decide (tdb_ofs_read t (TDB_HASH_TOP t h) = Some 0)
        then next_hash_chain fuel t (h + 1) else h
      else h
  end.

Fixpoint tdb_next_lock (fuel : nat) (traverse_read : bool) t (tl : tdb_traverse_lock)
    : next_result * tdb_traverse_lock * tdb_context :=
  match fuel with
  | O => (NextErr, tl, t)
  | S fuel =>
      if negb (tl_hash tl <? tdb_hash_size t) then (NextDone, tl, t)
      else
        let hash :=
          if (tl_off tl =? 0) && negb (tl_hash tl =? 0)
          then next_hash_chain (Z.to_nat (tdb_hash_size t)) t (tl_hash tl) else tl_hash tl in
        if hash =? tdb_hash_size t then (NextDone, mk_tlock 0 hash, t)
        else
          let '(ok, t) := ask t in
          if negb ok then (NextErr, mk_tlock (tl_off tl) hash, t)
          else
            let start :=
              if tl_off tl =? 0 then tdb_ofs_read t (TDB_HASH_TOP t hash)
              else r ← tdb_rec_read t (tl_off tl); Some (next r) in
            match start with
            | None => (NextErr, mk_tlock 0 hash, t)
            | Some off =>
                match next_in_chain (chain_fuel t) traverse_read t off with
                | (NextAt off r, t) => (NextAt off r, mk_tlock off hash, t)
                | (NextDone, t) => tdb_next_lock fuel traverse_read t (mk_tlock 0 (hash + 1))
                | (NextErr, t) => (NextErr, mk_tlock 0 hash, t)
                end
            end
  end.

(** The traversal with a callback that folds the records into a state and says
    whether to stop (a non-zero return value). The callback does not use the
    database itself. *)
Section traverse.
Context {St : Type} (fn : bytes → bytes → St → bool * St).

(** (-1 or the number of records, state, file) *)
Fixpoint traverse_internal (fuel : nat) (traverse_read : bool) t (tl : tdb_traverse_lock) (count : Z)
    (s : St) : Z * St * tdb_context :=
  match fuel with
  | O => (-1, s, t)
  | S fuel =>
      match tdb_next_lock (S (Z.to_nat (tdb_hash_size t))) traverse_read t tl with
      | (NextErr, _, t) => (-1, s, t)
      | (NextDone, _, t) => (count, s, t)
      | (NextAt off r, tl, t) =>
          match tdb_read t (u32 (off + sizeof_rec)) (u32 (key_len r + data_len r)) with
          | None => (-1, s, t)
          | Some d =>
              let '(stop, s) := fn (take (Z.to_nat (key_len r)) d) (drop (Z.to_nat (key_len r)) d) s in
              if stop then (count + 1, s, t)
              else traverse_internal fuel traverse_read t tl (count + 1) s
          end
      end
  end.

Definition tdb_traverse_read t (s : St) : Z * St * tdb_context :=
  let '(ok, t) := ask t in
  if negb ok then (-1, s, t)
  else traverse_internal (chain_fuel t) true t (mk_tlock 0 0) 0 s.
Definition tdb_traverse t (s : St) : Z * St * tdb_context :=
  if tdb_read_only t then tdb_traverse_read t s
  else
    let '(ok, t) := ask t in
    if negb ok then (-1, s, t)
    else traverse_internal (chain_fuel t) false t (mk_tlock 0 0) 0 s.
End traverse.

(** ** [open.c] *)

Definition TDB_MAGIC_FOOD : bytes := (* TDB file, newline *)
  [84; 68; 66; 32; 102; 105; 108; 101; 10].

Definition tdb_header_hash : Z * Z :=
  let magic1_hash := key_hash (TDB_MAGIC_FOOD ++ [0]) in
  let magic2_hash := key_hash (le_bytes 4 TDB_MAGIC) in
  if (magic1_hash =? 0) && (magic2_hash =? 0) then (1, magic2_hash) else (magic1_hash, magic2_hash).

(** The header of a file: [struct tdb_header]. *)
Definition header_bytes_tdb (hash_size rwlocks recovery_start sequence_number : Z) : bytes :=
  TDB_MAGIC_FOOD ++ replicate 23 0
  ++ le_bytes 4 TDB_VERSION ++ le_bytes 4 hash_size ++ le_bytes 4 rwlocks
  ++ le_bytes 4 recovery_start ++ le_bytes 4 sequence_number
  ++ le_bytes 4 tdb_header_hash.1 ++ le_bytes 4 tdb_header_hash.2 ++ replicate 108 0.

Definition tdb_new_database (hash_size : Z) (incompatible_hash : bool) : bytes :=
  header_bytes_tdb hash_size (if incompatible_hash then TDB_HASH_RWLOCK_MAGIC else 0) 0 0
  ++ replicate (Z.to_nat ((hash_size + 1) * 4)) 0.

(** The context of a new file: the part of [tdb_open_ex] that matters here. *)
Definition tdb_open_new (hash_size : Z) (incompatible_hash seqnum : bool) (max_dead page_size : Z) (env : list bool)
    : tdb_context :=
  mk_tdb (tdb_new_database hash_size incompatible_hash) hash_size seqnum max_dead page_size false env false.
End hash_fn.

(** [hash.c]: the hash of files that are not opened with
    [TDB_INCOMPATIBLE_HASH]. *)
Definition tdb_old_hash (key : bytes) : Z :=
  let value := foldl (λ v '(i, b), u32 (v + b * 2 ^ (i * 5 mod 24)))
    (u32 (596579247 * dsize key)) (zip (Z.of_nat <$> seq 0 (length key)) key) in
  u32 (1103515243 * value + 12345).

End Tdb.
