(* ===== verification/TdbLayout.v ===== *)
(** * The layout of a tdb file

    What the bytes of a tdb file mean: an [image] has the header, the head of the
    free list, the heads of the hash chains and the records by their offset.
    [repr m A] says that the bytes [m] are the image [A], where records, and what
    is left of extensions that failed, tile the data area; [gap_repr m A off n]
    allows [n] unformatted bytes at [off].  Every read and
    write the library does is described here once, at the level of images; the
    other files never look at bytes again. *)
From S2P Require Import Prelude TdbFile.
Import Tdb.

(** ** Lists of bytes *)

Lemma read_at_app pre d post off len :
  off = dsize pre → len = dsize d → read_at off len (pre ++ d ++ post) = d.
Proof.
  intros -> ->. unfold read_at, dsize, slice. rewrite !Nat2Z.id, drop_app_length. by rewrite take_app_length.
Qed.

Lemma write_at_app pre old buf post off :
  off = dsize pre → length old = length buf →
  write_at off buf (pre ++ old ++ post) = pre ++ buf ++ post.
Proof.
  intros -> Hl. unfold write_at, dsize. rewrite Nat2Z.id, take_app_length.
  by rewrite <- Hl, <- drop_drop, drop_app_length, drop_app_length.
Qed.

Lemma dsize_le_bytes n z : dsize (le_bytes n z) = Z.of_nat n.
Proof. unfold dsize. by rewrite length_le_bytes. Qed.

(** ** Records *)

Record rec_ok (r : tdb_record) : Prop := {
  rec_ok_next : is_u32 (next r);
  rec_ok_len : is_u32 (rec_len r);
  rec_ok_klen : is_u32 (key_len r);
  rec_ok_dlen : is_u32 (data_len r);
  rec_ok_hash : is_u32 (full_hash r);
  rec_ok_magic : is_u32 (magic r);
}.

Lemma le_val_u32 z : is_u32 z → le_val (le_bytes 4 z) = z.
Proof. intros. apply le_val_bytes_small. unfold is_u32 in *. lia. Qed.

Lemma length_rec_bytes r : length (rec_bytes r) = 24%nat.
Proof. unfold rec_bytes. rewrite !length_app, !length_le_bytes. done. Qed.
Lemma dsize_rec_bytes r : dsize (rec_bytes r) = 24.
Proof. unfold dsize. by rewrite length_rec_bytes. Qed.

Lemma rec_of_rec_bytes r : rec_ok r → rec_of_bytes (rec_bytes r) = r.
Proof.
  intros [H1 H2 H3 H4 H5 H6]. destruct r as [a b c d e f]; cbn in H1, H2, H3, H4, H5, H6.
  apply le_val_u32 in H1, H2, H3, H4, H5, H6.
  unfold rec_of_bytes, rec_bytes. cbn [next rec_len key_len data_len full_hash magic].
  f_equal; [exact H1|exact H2|exact H3|exact H4|exact H5|exact H6].
Qed.

(** A record of the file: its header and its body without the tailer. *)
Record block := mk_block { b_rec : tdb_record; b_body : bytes }.
Definition block_bytes (b : block) : bytes :=
  rec_bytes (b_rec b) ++ b_body b ++ le_bytes 4 (sizeof_rec + rec_len (b_rec b)).
Definition b_size (b : block) : Z := 28 + dsize (b_body b).
Record block_ok (b : block) : Prop := {
  block_ok_rec : rec_ok (b_rec b);
  block_ok_len : rec_len (b_rec b) = dsize (b_body b) + 4;
}.
#[export] Hint Resolve rec_ok_next rec_ok_len rec_ok_klen rec_ok_dlen rec_ok_hash rec_ok_magic
  block_ok_rec : ctdb.

Lemma dsize_block_bytes b : dsize (block_bytes b) = b_size b.
Proof. unfold block_bytes, b_size. rewrite !dsize_app, dsize_rec_bytes, dsize_le_bytes. lia. Qed.
Lemma b_size_pos b : 28 <= b_size b.
Proof. unfold b_size. pose proof (dsize_nonneg (b_body b)). lia. Qed.

(** A piece of the data area: a record, or what is left of an extension of the
    file that failed, which ends in a word that is not the size of a record. *)
Inductive seg := Rec (b : block) | Rest (raw : bytes).
Definition seg_bytes (s : seg) : bytes := match s with Rec b => block_bytes b | Rest raw => raw end.
Definition rest_ok (raw : bytes) : Prop :=
  28 <= dsize raw ∧ ∃ body tl, raw = body ++ le_bytes 4 tl ∧ (tl = 0 ∨ tl = TDB_PAD_U32).
Definition seg_ok (s : seg) : Prop := match s with Rec b => block_ok b | Rest raw => rest_ok raw end.
Lemma seg_size_pos s : seg_ok s → 28 <= dsize (seg_bytes s).
Proof. destruct s as [b|raw]; cbn [seg_ok seg_bytes]; [rewrite dsize_block_bytes; intros _; apply b_size_pos|by intros [? _]]. Qed.

Definition segs_bytes (ss : list seg) : bytes := mjoin (seg_bytes <$> ss).
Lemma segs_bytes_app a b : segs_bytes (a ++ b) = segs_bytes a ++ segs_bytes b.
Proof. unfold segs_bytes. by rewrite fmap_app, join_app. Qed.
Lemma segs_bytes_cons s ss : segs_bytes (s :: ss) = seg_bytes s ++ segs_bytes ss.
Proof. done. Qed.
Lemma segs_bytes_rec b ss : segs_bytes (Rec b :: ss) = block_bytes b ++ segs_bytes ss.
Proof. done. Qed.
Lemma segs_bytes_one b : segs_bytes [Rec b] = block_bytes b.
Proof. apply app_nil_r. Qed.

(** ** The records by offset *)

Fixpoint heap (base : Z) (ss : list seg) : gmap Z block :=
  match ss with
  | [] => ∅
  | Rec b :: ss => <[base := b]> (heap (base + b_size b) ss)
  | Rest raw :: ss => heap (base + dsize raw) ss
  end.

Lemma heap_range base ss p b :
  heap base ss !! p = Some b → base <= p ∧ p + b_size b <= base + dsize (segs_bytes ss).
Proof.
  revert base. induction ss as [|[c|raw] ss IH]; intros base; cbn [heap]; [done|..];
    rewrite segs_bytes_cons, dsize_app; cbn [seg_bytes]; pose proof (dsize_nonneg (segs_bytes ss)).
  - rewrite lookup_insert_Some, dsize_block_bytes. pose proof (b_size_pos c). intros [[-> ->]|[_ Hl]]; [lia|]. apply IH in Hl. lia.
  - intros Hl. apply IH in Hl. pose proof (dsize_nonneg raw). lia.
Qed.

(** Records do not overlap. *)
Lemma heap_disjoint base ss p b q c :
  heap base ss !! p = Some b → heap base ss !! q = Some c → p < q → p + b_size b <= q.
Proof.
  revert base. induction ss as [|[d|raw] ss IH]; intros base; cbn [heap]; [done| |by apply IH]. rewrite !lookup_insert_Some.
  intros [[<- <-]|[_ Hp]] [[<- <-]|[_ Hq]] Hlt.
  - lia.
  - apply heap_range in Hq. lia.
  - apply heap_range in Hp. pose proof (b_size_pos d). lia.
  - by eapply IH.
Qed.

Lemma heap_lookup_split base ss p b :
  heap base ss !! p = Some b → ∃ pre post, ss = pre ++ Rec b :: post ∧ p = base + dsize (segs_bytes pre).
Proof.
  revert base. induction ss as [|s ss IH]; intros base; [done|].
  assert (∀ base', base' = base + dsize (seg_bytes s) → heap base' ss !! p = Some b →
    ∃ pre post, s :: ss = pre ++ Rec b :: post ∧ p = base + dsize (segs_bytes pre)) as Hs.
  { intros base' Eb (pre & post & -> & ->)%IH. exists (s :: pre), post. split; [done|]. rewrite segs_bytes_cons, dsize_app. lia. }
  destruct s as [c|raw]; cbn [heap]; [|by apply Hs].
  rewrite lookup_insert_Some. intros [[-> ->]|[_ Hl]]; [|apply (Hs (base + b_size c)); [cbn [seg_bytes]; by rewrite dsize_block_bytes|done]].
  exists [], ss. split; [done|]. change (dsize (segs_bytes [])) with 0. lia.
Qed.

Lemma heap_app base a b : heap base (a ++ b) = heap base a ∪ heap (base + dsize (segs_bytes a)) b.
Proof.
  revert base. induction a as [|[c|raw] a IH]; intros base; cbn [heap app].
  { change (dsize (segs_bytes [])) with 0. rewrite Z.add_0_r. by rewrite (left_id_L ∅ (∪)). }
  all: rewrite IH, ?insert_union_l; rewrite segs_bytes_cons, dsize_app; cbn [seg_bytes]; by rewrite ?dsize_block_bytes, !Z.add_assoc.
Qed.

Lemma heap_below base ss p : p < base → heap base ss !! p = None.
Proof. intros Hp. destruct (heap base ss !! p) eqn:E; [|done]. apply heap_range in E. lia. Qed.
Lemma heap_above base ss p : base + dsize (segs_bytes ss) <= p → heap base ss !! p = None.
Proof.
  intros Hp. destruct (heap base ss !! p) as [b|] eqn:E; [|done]. apply heap_range in E.
  pose proof (b_size_pos b). lia.
Qed.

(** The heap around a place: what lies before, and what lies behind it. *)
Lemma heap_middle base pre mid post :
  heap base (pre ++ mid ++ post)
  = heap (base + dsize (segs_bytes pre)) mid
    ∪ (heap base pre ∪ heap (base + dsize (segs_bytes pre) + dsize (segs_bytes mid)) post).
Proof.
  rewrite !heap_app, (assoc_L (∪)). rewrite (map_union_comm (heap base pre)); [by rewrite (assoc_L (∪))|].
  apply map_disjoint_spec. intros p b c Hb Hc. apply heap_range in Hb, Hc.
  pose proof (b_size_pos b). lia.
Qed.

(** ** Images *)

Record image := mk_image {
  im_hdr : bytes;
  im_free : Z;
  im_heads : list Z;
  im_heap : gmap Z block;
}.
Implicit Types (A : image) (H : gmap Z block).

Definition set_free A v := mk_image (im_hdr A) v (im_heads A) (im_heap A).
Definition set_heads A v := mk_image (im_hdr A) (im_free A) v (im_heap A).
Definition set_heap A v := mk_image (im_hdr A) (im_free A) (im_heads A) v.

Definition heads_bytes (heads : list Z) : bytes := mjoin (le_bytes 4 <$> heads).
(** Header, head of the free list, heads of the chains. *)
Definition table_bytes A : bytes := im_hdr A ++ le_bytes 4 (im_free A) ++ heads_bytes (im_heads A).
Definition data_start A : Z := 172 + 4 * Z.of_nat (length (im_heads A)).

Record image_ok A : Prop := {
  image_hdr : length (im_hdr A) = 168%nat;
  image_free : is_u32 (im_free A);
  image_heads : Forall is_u32 (im_heads A);
}.

Definition gap_repr (m : bytes) A (off n : Z) : Prop :=
  ∃ pre raw post,
    m = table_bytes A ++ segs_bytes pre ++ raw ++ segs_bytes post
    ∧ off = data_start A + dsize (segs_bytes pre) ∧ n = dsize raw
    ∧ im_heap A = heap (data_start A) pre ∪ heap (off + n) post
    ∧ Forall seg_ok pre ∧ Forall seg_ok post
    ∧ image_ok A ∧ dsize m < 2 ^ 32.

Definition repr (m : bytes) A : Prop :=
  ∃ bs,
    m = table_bytes A ++ segs_bytes bs ∧ im_heap A = heap (data_start A) bs
    ∧ Forall seg_ok bs ∧ image_ok A ∧ dsize m < 2 ^ 32.

Lemma heads_bytes_cons x l : heads_bytes (x :: l) = le_bytes 4 x ++ heads_bytes l.
Proof. done. Qed.
Lemma length_heads_bytes l : length (heads_bytes l) = (4 * length l)%nat.
Proof.
  induction l as [|x l IH]; [done|]. rewrite heads_bytes_cons, length_app, length_le_bytes, IH.
  cbn [length]. lia.
Qed.

Lemma dsize_table_bytes A : image_ok A → dsize (table_bytes A) = data_start A.
Proof.
  intros [Hh _ _]. unfold table_bytes, data_start, dsize.
  rewrite !length_app, length_le_bytes, length_heads_bytes, Hh. lia.
Qed.

Lemma repr_size m A :
  repr m A → data_start A <= dsize m < 2 ^ 32.
Proof.
  intros (bs & -> & _ & _ & Hok & Hs). rewrite dsize_app, dsize_table_bytes in * by done.
  pose proof (dsize_nonneg (segs_bytes bs)). lia.
Qed.

Lemma repr_block m A p b :
  repr m A → im_heap A !! p = Some b →
  block_ok b ∧ data_start A <= p ∧ p + b_size b <= dsize m ∧ dsize m < 2 ^ 32.
Proof.
  intros (bs & -> & Hh & Hf & Hok & Hs) Hp. rewrite Hh in Hp.
  pose proof (heap_range _ _ _ _ Hp). apply heap_lookup_split in Hp as (pre & post & -> & ->).
  rewrite dsize_app, dsize_table_bytes in * by done.
  apply Forall_app in Hf as [_ [Hb _]%Forall_cons]. split; [done|]. lia.
Qed.

(** Taking a record out of the image leaves a gap. *)
Lemma repr_gap m A p b :
  repr m A → im_heap A !! p = Some b → gap_repr m (set_heap A (delete p (im_heap A))) p (b_size b).
Proof.
  intros (bs & -> & Hh & Hf & Hok & Hs) Hp. pose proof Hp as Hp'. rewrite Hh in Hp'.
  apply heap_lookup_split in Hp' as (pre & post & -> & ->).
  apply Forall_app in Hf as [Hpre [_ Hpost]%Forall_cons].
  exists pre, (block_bytes b), post. split; [|split; [done|]].
  { by rewrite segs_bytes_app, segs_bytes_rec. }
  split; [by rewrite dsize_block_bytes|]. cbn [im_heap set_heap].
  split; [|by destruct Hok].
  rewrite Hh. change (Rec b :: post) with ([Rec b] ++ post). rewrite heap_middle. cbn [heap].
  rewrite segs_bytes_one, dsize_block_bytes, <- insert_union_l, (left_id_L ∅ (∪)), delete_insert_id; [done|].
  apply lookup_union_None. split; [by apply heap_above|apply heap_below]. pose proof (b_size_pos b). lia.
Qed.

(** A gap can be filled with any record of its size. *)
Lemma gap_focus m A p n :
  gap_repr m A p n →
  ∃ pre raw post, m = pre ++ raw ++ post ∧ dsize pre = p ∧ dsize raw = n ∧ dsize m < 2 ^ 32
    ∧ (∀ raw', dsize raw' = n → gap_repr (pre ++ raw' ++ post) A p n)
    ∧ ∀ b, block_ok b → b_size b = n →
        repr (pre ++ block_bytes b ++ post) (set_heap A (<[p := b]> (im_heap A))).
Proof.
  intros (pre & raw & post & -> & -> & -> & Hh & Hpre & Hpost & Hok & Hs).
  exists (table_bytes A ++ segs_bytes pre), raw, (segs_bytes post).
  split; [by rewrite <- app_assoc|]. split; [by rewrite dsize_app, dsize_table_bytes|].
  split; [done|]. split; [done|]. split.
  { intros raw' Hr. exists pre, raw', post. rewrite <- app_assoc. split; [done|]. split; [done|]. split; [done|].
    split; [done|]. split; [done|]. split; [done|]. split; [done|]. rewrite !dsize_app in *. lia. }
  intros b Hbok Hb.
  exists (pre ++ [Rec b] ++ post). split; [|split; [|split; [|split]]].
  - by rewrite !segs_bytes_app, <- !app_assoc, segs_bytes_one.
  - cbn [im_heap set_heap]. change (data_start (set_heap _ _)) with (data_start A).
    rewrite heap_middle. cbn [heap].
    by rewrite <- insert_union_l, (left_id_L ∅ (∪)), Hh, segs_bytes_one, dsize_block_bytes, Hb.
  - apply Forall_app; split; [done|]. by apply Forall_cons.
  - by destruct Hok.
  - rewrite !dsize_app in *. rewrite dsize_block_bytes. lia.
Qed.

(** A record of the image can be exchanged for one of the same size. *)
Lemma repr_focus m A p b :
  repr m A → im_heap A !! p = Some b →
  ∃ pre post, m = pre ++ block_bytes b ++ post ∧ dsize pre = p ∧ dsize m < 2 ^ 32
    ∧ ∀ b', block_ok b' → b_size b' = b_size b →
        repr (pre ++ block_bytes b' ++ post) (set_heap A (<[p := b']> (im_heap A))).
Proof.
  intros (bs & -> & Hh & Hf & Hok & Hs) Hp. pose proof Hp as Hp'. rewrite Hh in Hp'.
  apply heap_lookup_split in Hp' as (pre & post & -> & ->).
  apply Forall_app in Hf as [Hpre [_ Hpost]%Forall_cons].
  exists (table_bytes A ++ segs_bytes pre), (segs_bytes post).
  split; [by rewrite segs_bytes_app, segs_bytes_rec, <- app_assoc|].
  split; [by rewrite dsize_app, dsize_table_bytes|]. split; [done|]. intros b' Hb' Hsz.
  exists (pre ++ [Rec b'] ++ post). split; [|split; [|split; [|split]]].
  - by rewrite !segs_bytes_app, <- !app_assoc, segs_bytes_one.
  - cbn [im_heap set_heap]. change (data_start (set_heap _ _)) with (data_start A).
    rewrite Hh. change (Rec b :: post) with ([Rec b] ++ post). rewrite !heap_middle. cbn [heap].
    rewrite !segs_bytes_one, !dsize_block_bytes, Hsz, <- !insert_union_l, insert_insert_eq. done.
  - apply Forall_app; split; [done|]. by apply Forall_cons.
  - by destruct Hok.
  - rewrite segs_bytes_app, segs_bytes_rec in Hs. rewrite !dsize_app, !dsize_block_bytes in *. lia.
Qed.

(** The tables can be exchanged for tables of the same size. *)
Lemma repr_table m A :
  repr m A →
  ∃ post, m = table_bytes A ++ post ∧ dsize m < 2 ^ 32
    ∧ ∀ A', image_ok A' → length (im_heads A') = length (im_heads A) → im_heap A' = im_heap A →
        repr (table_bytes A' ++ post) A'.
Proof.
  intros (bs & -> & Hh & Hf & Hok & Hs). exists (segs_bytes bs). split; [done|]. split; [done|].
  intros A' Hok' Hl Hh'. exists bs. split; [done|].
  assert (data_start A' = data_start A) as Hd by (unfold data_start; by rewrite Hl).
  rewrite Hh', Hd. split; [done|]. split; [done|]. split; [done|].
  rewrite dsize_app, dsize_table_bytes, Hd in * by done. done.
Qed.

(** ** Reads and writes *)

Implicit Types (t : tdb_context) (r : tdb_record).

Lemma set_tdb_map_id t : set_tdb_map t (tdb_map t) = t.
Proof. by destruct t. Qed.

Lemma tdb_oob_in t off len :
  0 <= off → 0 <= len → off + len <= tdb_map_size t → tdb_map_size t < 2 ^ 32 → tdb_oob t off len = true.
Proof.
  intros. unfold tdb_oob. rewrite !u32_id by (unfold is_u32; lia).
  rewrite (proj2 (Z.ltb_ge _ _)) by lia. apply Z.leb_le. lia.
Qed.

Lemma tdb_read_app t pre d post off len :
  tdb_map t = pre ++ d ++ post → dsize (tdb_map t) < 2 ^ 32 → off = dsize pre → len = dsize d →
  tdb_read t off len = Some d.
Proof.
  intros Hm Hs -> ->. unfold tdb_read. pose proof (dsize_nonneg pre). pose proof (dsize_nonneg d). pose proof (dsize_nonneg post).
  rewrite tdb_oob_in; unfold tdb_map_size; [|lia|lia| |done].
  - rewrite Hm. by rewrite read_at_app.
  - rewrite Hm, !dsize_app. lia.
Qed.

Lemma tdb_write_app t pre old buf post off :
  tdb_map t = pre ++ old ++ post → dsize (tdb_map t) < 2 ^ 32 → off = dsize pre →
  length old = length buf → tdb_read_only t = false →
  tdb_write t off buf = (true, set_tdb_map t (pre ++ buf ++ post)).
Proof.
  intros Hm Hs -> Hl Hro. unfold tdb_write. rewrite Hro.
  destruct (dsize buf =? 0) eqn:Hz; zbool.
  { assert (buf = []) as -> by (apply length_zero_iff_nil; unfold dsize in *; lia).
    apply length_zero_iff_nil in Hl as ->. by rewrite <- Hm, set_tdb_map_id. }
  pose proof (dsize_nonneg pre). pose proof (dsize_nonneg buf). pose proof (dsize_nonneg post).
  rewrite tdb_oob_in; unfold tdb_map_size; [|lia|lia| |done].
  - cbn [negb]. rewrite Hm. by rewrite (write_at_app pre old).
  - rewrite Hm, !dsize_app. unfold dsize at 4. rewrite Hl. fold (dsize buf). lia.
Qed.

(** The file of a context is the image [A]. *)
Record is_repr t A : Prop := {
  ir_repr : repr (tdb_map t) A;
  ir_heads : tdb_hash_size t = Z.of_nat (length (im_heads A));
  ir_pos : 0 < tdb_hash_size t;
}.

Lemma is_repr_data_start t A : is_repr t A → TDB_DATA_START t = data_start A.
Proof. intros [_ Hh _]. unfold TDB_DATA_START, data_start, FREELIST_TOP. lia. Qed.

Lemma is_repr_map t A m A' :
  is_repr t A → repr m A' → length (im_heads A') = length (im_heads A) → is_repr (set_tdb_map t m) A'.
Proof. intros [H1 H2 H3] Hr Hl. split; [done| |done]. cbn. by rewrite Hl. Qed.

Lemma read_rec t A p b :
  is_repr t A → im_heap A !! p = Some b → tdb_read t p sizeof_rec = Some (rec_bytes (b_rec b)).
Proof.
  intros [Hr _ _] Hp. destruct (repr_focus _ _ _ _ Hr Hp) as (pre & post & Hm & <- & Hs & _).
  unfold block_bytes in Hm. rewrite <- !app_assoc in Hm.
  by apply (tdb_read_app t _ _ _ _ _ Hm Hs); [|rewrite dsize_rec_bytes].
Qed.

(** [len] bytes at offset [o] of the body of a record. *)
Lemma read_body t A p b o len :
  is_repr t A → im_heap A !! p = Some b → 0 <= o → 0 <= len → o + len <= dsize (b_body b) →
  tdb_read t (p + sizeof_rec + o) len = Some (slice (Z.to_nat o) (Z.to_nat len) (b_body b)).
Proof.
  intros [Hr _ _] Hp Ho Hl Hle. destruct (repr_focus _ _ _ _ Hr Hp) as (pre & post & Hm & <- & Hs & _).
  unfold block_bytes in Hm.
  assert (b_body b = take (Z.to_nat o) (b_body b) ++ slice (Z.to_nat o) (Z.to_nat len) (b_body b)
    ++ drop (Z.to_nat o + Z.to_nat len) (b_body b)) as Hb.
  { unfold slice. by rewrite <- drop_drop, take_drop, take_drop. }
  rewrite Hb, <- !app_assoc in Hm. rewrite (app_assoc (rec_bytes _)), (app_assoc pre) in Hm.
  apply (tdb_read_app t _ _ _ _ _ Hm Hs).
  - rewrite !dsize_app, dsize_rec_bytes. unfold sizeof_rec, dsize in *. rewrite length_take. lia.
  - unfold slice, dsize in *. rewrite length_take, length_drop. lia.
Qed.

(** [writes op t A] : the operation [op] on [t] succeeds and leaves the image [A]. *)
Definition writes (op : tdb_context → bool * tdb_context) t A : Prop :=
  ∃ m, op t = (true, set_tdb_map t m) ∧ is_repr (set_tdb_map t m) A.

Lemma write_rec t A p b r :
  is_repr t A → tdb_read_only t = false → im_heap A !! p = Some b →
  rec_ok r → rec_len r = rec_len (b_rec b) →
  writes (λ t, tdb_rec_write t p r) t (set_heap A (<[p := mk_block r (b_body b)]> (im_heap A))).
Proof.
  intros Hir Hro Hp Hok Hl. pose proof (repr_block _ _ _ _ (ir_repr _ _ Hir) Hp) as [[_ Hbl] _].
  destruct (repr_focus _ _ _ _ (ir_repr _ _ Hir) Hp) as (pre & post & Hm & <- & Hs & Hw).
  eexists. split.
  - unfold block_bytes in Hm. rewrite <- !app_assoc in Hm.
    apply (tdb_write_app t pre _ _ _ _ Hm Hs); [done| |done]. by rewrite !length_rec_bytes.
  - refine (is_repr_map _ _ _ _ Hir _ _); [|done].
    specialize (Hw (mk_block r (b_body b))). unfold block_bytes in Hw. cbn [b_rec b_body] in Hw.
    rewrite Hl, <- !app_assoc in Hw. apply Hw; [|done]. split; [done|]. cbn. by rewrite Hl.
Qed.

Lemma rec_bytes_next r v :
  ∃ rest, rec_bytes r = le_bytes 4 (next r) ++ rest ∧ rec_bytes (set_next r v) = le_bytes 4 v ++ rest.
Proof. destruct r. by eexists. Qed.

Lemma write_next t A p b v :
  is_repr t A → tdb_read_only t = false → im_heap A !! p = Some b → is_u32 v →
  writes (λ t, tdb_ofs_write t p v) t
    (set_heap A (<[p := mk_block (set_next (b_rec b) v) (b_body b)]> (im_heap A))).
Proof.
  intros Hir Hro Hp Hv. pose proof (repr_block _ _ _ _ (ir_repr _ _ Hir) Hp) as [[Hro' Hbl] _].
  destruct (repr_focus _ _ _ _ (ir_repr _ _ Hir) Hp) as (pre & post & Hm & <- & Hs & Hw).
  destruct (rec_bytes_next (b_rec b) v) as (rest & H1 & H2).
  eexists. split.
  - unfold block_bytes in Hm. rewrite H1, <- !app_assoc in Hm.
    apply (tdb_write_app t pre _ _ _ _ Hm Hs); [done| |done]. by rewrite !length_le_bytes.
  - refine (is_repr_map _ _ _ _ Hir _ _); [|done].
    specialize (Hw (mk_block (set_next (b_rec b) v) (b_body b))). unfold block_bytes in Hw. cbn [b_rec b_body] in Hw.
    rewrite H2, <- !app_assoc in Hw. destruct (b_rec b); cbn in *. apply Hw; [|done].
    split; [|done]. destruct Hro'. by split.
Qed.

Lemma length_write_at o buf l :
  0 <= o → o + dsize buf <= dsize l → length (write_at o buf l) = length l.
Proof. intros. unfold write_at, dsize in *. rewrite !length_app, length_take, length_drop. lia. Qed.

Lemma write_body t A p b o buf :
  is_repr t A → tdb_read_only t = false → im_heap A !! p = Some b →
  0 <= o → o + dsize buf <= dsize (b_body b) →
  writes (λ t, tdb_write t (p + sizeof_rec + o) buf) t
    (set_heap A (<[p := mk_block (b_rec b) (write_at o buf (b_body b))]> (im_heap A))).
Proof.
  intros Hir Hro Hp Ho Hle. pose proof (repr_block _ _ _ _ (ir_repr _ _ Hir) Hp) as [[Hro' Hbl] _].
  destruct (repr_focus _ _ _ _ (ir_repr _ _ Hir) Hp) as (pre & post & Hm & <- & Hs & Hw).
  assert (b_body b = take (Z.to_nat o) (b_body b) ++ slice (Z.to_nat o) (length buf) (b_body b)
    ++ drop (Z.to_nat o + length buf) (b_body b)) as Hb.
  { unfold slice. by rewrite <- drop_drop, take_drop, take_drop. }
  unfold block_bytes in Hm. rewrite Hb, <- !app_assoc in Hm. rewrite (app_assoc (rec_bytes _)), (app_assoc pre) in Hm.
  eexists. split.
  - apply (tdb_write_app t _ _ _ _ _ Hm Hs); [| |done].
    + rewrite !dsize_app, dsize_rec_bytes. unfold sizeof_rec, dsize in *. rewrite length_take. lia.
    + unfold slice, dsize in *. rewrite length_take, length_drop. lia.
  - refine (is_repr_map _ _ _ _ Hir _ _); [|done].
    specialize (Hw (mk_block (b_rec b) (write_at o buf (b_body b)))).
    assert (length (write_at o buf (b_body b)) = length (b_body b)) as Hlw by by apply length_write_at.
    unfold block_bytes, write_at in *. cbn [b_rec b_body] in Hw. rewrite <- !app_assoc in Hw.
    rewrite <- !app_assoc. apply Hw.
    + split; [done|]. unfold dsize. cbn. by rewrite Hlw.
    + unfold b_size, dsize. cbn [b_body]. by rewrite Hlw.
Qed.

(** *** The tables *)

Lemma read_free t A : is_repr t A → tdb_ofs_read t FREELIST_TOP = Some (im_free A).
Proof.
  intros [Hr _ _]. destruct (repr_table _ _ Hr) as (post & Hm & Hs & _). destruct Hr as (_ & _ & _ & _ & [Hh Hf _] & _).
  unfold table_bytes in Hm. rewrite <- !app_assoc in Hm. unfold tdb_ofs_read.
  rewrite (tdb_read_app t _ _ _ _ _ Hm Hs); [cbn [mbind option_bind]; by rewrite le_val_u32| |done].
  unfold dsize. by rewrite Hh.
Qed.

Lemma write_free t A v :
  is_repr t A → tdb_read_only t = false → is_u32 v →
  writes (λ t, tdb_ofs_write t FREELIST_TOP v) t (set_free A v).
Proof.
  intros Hir Hro Hv. destruct (repr_table _ _ (ir_repr _ _ Hir)) as (post & Hm & Hs & Hw).
  destruct (ir_repr _ _ Hir) as (_ & _ & _ & _ & [Hh Hf Hhs] & _).
  unfold table_bytes in Hm. rewrite <- !app_assoc in Hm. eexists. split.
  - apply (tdb_write_app t _ _ _ _ _ Hm Hs); [|by rewrite !length_le_bytes|done]. unfold dsize. by rewrite Hh.
  - refine (is_repr_map _ _ _ _ Hir _ _); [|done]. specialize (Hw (set_free A v)).
    unfold table_bytes in Hw. rewrite <- !app_assoc in Hw. by apply Hw.
Qed.

Lemma heads_split heads i v :
  heads !! i = Some v →
  ∃ a b, heads_bytes heads = a ++ le_bytes 4 v ++ b ∧ length a = (4 * i)%nat
    ∧ ∀ v', heads_bytes (<[i := v']> heads) = a ++ le_bytes 4 v' ++ b.
Proof.
  revert i. induction heads as [|x l IH]; intros [|i]; cbn [lookup list_lookup]; [done|done| |].
  - intros [= ->]. by exists [], (heads_bytes l).
  - intros (a & b & E & Hl & Hw)%IH. exists (le_bytes 4 x ++ a), b.
    split; [|split]; [by rewrite heads_bytes_cons, E, <- app_assoc|rewrite length_app, length_le_bytes; lia|].
    intros v'. cbn [insert list_insert]. change (list_insert i v' l) with (<[i := v']> l).
    by rewrite heads_bytes_cons, Hw, <- app_assoc.
Qed.

(** The chain of a hash. *)
Definition bucket t (hash : Z) : nat := Z.to_nat (BUCKET t hash).

Lemma bucket_lookup t A hash : is_repr t A → is_Some (im_heads A !! bucket t hash).
Proof.
  intros [_ Hh Hp]. apply lookup_lt_is_Some_2. unfold bucket, BUCKET.
  pose proof (Z.mod_pos_bound hash (tdb_hash_size t) Hp). lia.
Qed.

Lemma TDB_HASH_TOP_bucket t A hash : is_repr t A → TDB_HASH_TOP t hash = 172 + 4 * Z.of_nat (bucket t hash).
Proof.
  intros [_ Hh Hp]. unfold TDB_HASH_TOP, FREELIST_TOP, bucket, BUCKET.
  pose proof (Z.mod_pos_bound hash (tdb_hash_size t) Hp). lia.
Qed.

Lemma read_head t A hash v :
  is_repr t A → im_heads A !! bucket t hash = Some v → tdb_ofs_read t (TDB_HASH_TOP t hash) = Some v.
Proof.
  intros Hir Hv. rewrite (TDB_HASH_TOP_bucket _ _ _ Hir). destruct Hir as [Hr _ _].
  destruct (repr_table _ _ Hr) as (post & Hm & Hs & _). destruct Hr as (_ & _ & _ & _ & [Hh Hf Hhs] & _).
  destruct (heads_split _ _ _ Hv) as (a & b & E & Hl & _).
  unfold table_bytes in Hm. rewrite E, <- !app_assoc in Hm. rewrite (app_assoc (le_bytes 4 (im_free A))), (app_assoc (im_hdr A)) in Hm.
  unfold tdb_ofs_read. rewrite (tdb_read_app t _ _ _ _ _ Hm Hs); [| |done].
  - cbn [mbind option_bind]. rewrite le_val_u32; [done|]. by eapply (Forall_lookup_1 is_u32).
  - unfold dsize. rewrite !length_app, length_le_bytes, Hh, Hl. lia.
Qed.

Lemma write_head t A hash v :
  is_repr t A → tdb_read_only t = false → is_u32 v →
  writes (λ t, tdb_ofs_write t (TDB_HASH_TOP t hash) v) t
    (set_heads A (<[bucket t hash := v]> (im_heads A))).
Proof.
  intros Hir Hro Hv. destruct (bucket_lookup _ _ hash Hir) as [v0 Hv0]. unfold writes.
  rewrite (TDB_HASH_TOP_bucket _ _ _ Hir).
  destruct (repr_table _ _ (ir_repr _ _ Hir)) as (post & Hm & Hs & Hw).
  destruct (ir_repr _ _ Hir) as (_ & _ & _ & _ & [Hh Hf Hhs] & _).
  destruct (heads_split _ _ _ Hv0) as (a & b & E & Hl & Hw').
  unfold table_bytes in Hm. rewrite E, <- !app_assoc in Hm. rewrite (app_assoc (le_bytes 4 (im_free A))), (app_assoc (im_hdr A)) in Hm.
  eexists. split.
  - apply (tdb_write_app t _ _ _ _ _ Hm Hs); [|by rewrite !length_le_bytes|done].
    unfold dsize. rewrite !length_app, length_le_bytes, Hh, Hl. lia.
  - refine (is_repr_map _ _ _ _ Hir _ _); [|cbn; by rewrite length_insert].
    specialize (Hw (set_heads A (<[bucket t hash := v]> (im_heads A)))).
    unfold table_bytes in Hw. cbn [im_hdr im_free im_heads set_heads] in Hw.
    rewrite Hw', <- !app_assoc in Hw. rewrite <- !app_assoc. apply Hw; [|by rewrite length_insert|done].
    split; [done|done|]. cbn. by apply Forall_insert.
Qed.

(** ** Gaps *)

(** No record ends where the rest of a failed extension does. *)
Lemma heap_rest base pre raw off n post p b :
  (heap base (pre ++ [Rest raw]) ∪ heap (off + n) post) !! p = Some b → off = base + dsize (segs_bytes (pre ++ [Rest raw])) →
  0 < dsize raw → 0 <= n → p + b_size b ≠ off.
Proof.
  intros Hp Ho Hr Hn E. pose proof (b_size_pos b). apply lookup_union_Some_raw in Hp as [Hp|[_ Hp]]; [|apply heap_range in Hp; lia].
  rewrite heap_app in Hp. cbn [heap] in Hp. rewrite (right_id_L ∅ (∪)) in Hp. apply heap_range in Hp.
  rewrite segs_bytes_app, dsize_app, (segs_bytes_cons (Rest raw)), dsize_app in Ho. cbn [seg_bytes] in Ho.
  pose proof (dsize_nonneg (segs_bytes [])). lia.
Qed.
(** What lies to the left of a gap: the tables, the rest of a failed extension,
    or a record that can be joined with the gap to a larger record. *)
Lemma gap_left m A off n :
  gap_repr m A off n →
  off = data_start A
  ∨ (∃ pre rest raw post, m = pre ++ rest ++ raw ++ post ∧ rest_ok rest ∧ dsize pre + dsize rest = off ∧ data_start A <= dsize pre
     ∧ ∀ p b, im_heap A !! p = Some b → p + b_size b ≠ off)
  ∨ ∃ lft l pre raw post, im_heap A !! lft = Some l ∧ block_ok l ∧ lft + b_size l = off
    ∧ m = pre ++ block_bytes l ++ raw ++ post ∧ dsize pre = lft ∧ dsize raw = n
    ∧ data_start A <= lft
    ∧ ∀ b, block_ok b → b_size b = b_size l + n →
        repr (pre ++ block_bytes b ++ post) (set_heap A (<[lft := b]> (im_heap A))).
Proof.
  intros (pre & raw & post & -> & -> & -> & Hh & Hpre & Hpost & Hok & Hs).
  destruct pre as [|[l|rest] pre _] using rev_ind; [left; change (dsize (segs_bytes [])) with 0; lia|right; right|right; left].
  2:{ apply Forall_app in Hpre as [_ [Hrest _]%Forall_cons]. pose proof (dsize_nonneg raw). pose proof Hrest as [Hr _].
    exists (table_bytes A ++ segs_bytes pre), rest, raw, (segs_bytes post).
    rewrite segs_bytes_app, (segs_bytes_cons (Rest rest)), !dsize_app, dsize_table_bytes by done. cbn [seg_bytes].
    change (segs_bytes []) with (@nil Z). rewrite app_nil_r, <- !app_assoc. pose proof (dsize_nonneg (segs_bytes pre)).
    split; [done|]. split; [done|]. change (dsize []) with 0. split; [lia|]. split; [lia|]. intros p b Hp. rewrite Hh in Hp.
    eapply heap_rest in Hp; [|reflexivity|lia|lia]. rewrite segs_bytes_app, (segs_bytes_cons (Rest rest)), !dsize_app in Hp. exact Hp. }
  rewrite segs_bytes_app, segs_bytes_one, dsize_app, dsize_block_bytes in *.
  apply Forall_app in Hpre as [Hpre [Hl _]%Forall_cons].
  pose proof (dsize_nonneg (segs_bytes pre)).
  exists (data_start A + dsize (segs_bytes pre)), l, (table_bytes A ++ segs_bytes pre), raw, (segs_bytes post).
  split; [|split; [done|split; [lia|split; [by rewrite <- !app_assoc|split]]]].
  { rewrite Hh, heap_app. cbn [heap]. rewrite lookup_union_l'; [|].
    - rewrite lookup_union_r by by apply heap_above. by rewrite lookup_insert_eq.
    - exists l. rewrite lookup_union_r by by apply heap_above. by rewrite lookup_insert_eq. }
  { by rewrite dsize_app, dsize_table_bytes. }
  split; [done|]. split; [lia|]. intros b Hbok Hb.
  exists (pre ++ [Rec b] ++ post). split; [|split; [|split; [|split]]].
  - by rewrite !segs_bytes_app, <- !app_assoc, segs_bytes_one.
  - cbn [im_heap set_heap]. change (data_start (set_heap _ _)) with (data_start A).
    rewrite heap_middle, Hh, heap_app. cbn [heap].
    rewrite segs_bytes_one, dsize_block_bytes, Hb, <- insert_union_l, (left_id_L ∅ (∪)).
    rewrite <- insert_union_r by by apply heap_above. rewrite (right_id_L ∅ (∪)), <- insert_union_l, insert_insert_eq.
    do 3 f_equal. lia.
  - apply Forall_app; split; [done|]. by apply Forall_cons.
  - by destruct Hok.
  - rewrite !dsize_app, !dsize_block_bytes in *. lia.
Qed.

Record is_gap t A (off n : Z) : Prop := {
  ig_repr : gap_repr (tdb_map t) A off n;
  ig_heads : tdb_hash_size t = Z.of_nat (length (im_heads A));
  ig_pos : 0 < tdb_hash_size t;
}.
(** The last four bytes of the gap are the tailer of a record of that size. *)
Definition has_tail (m : bytes) (off n : Z) : Prop :=
  ∃ pre raw post, m = pre ++ raw ++ le_bytes 4 n ++ post ∧ dsize pre = off ∧ dsize raw = n - 4.

Lemma gap_start m A off n : gap_repr m A off n → 172 <= data_start A <= off ∧ 0 <= n ∧ off + n <= dsize m < 2 ^ 32.
Proof.
  intros (pre & raw & post & -> & -> & -> & _ & _ & _ & Hok & Hs).
  rewrite !dsize_app, dsize_table_bytes in * by done. unfold data_start in *.
  pose proof (dsize_nonneg (segs_bytes pre)). pose proof (dsize_nonneg (segs_bytes post)). pose proof (dsize_nonneg raw).
  lia.
Qed.

Lemma is_repr_gap t A p b :
  is_repr t A → im_heap A !! p = Some b → is_gap t (set_heap A (delete p (im_heap A))) p (b_size b).
Proof. intros [Hr Hh Hp] Hb. split; [by apply repr_gap|done|done]. Qed.

Lemma update_tailer_gap t A off r :
  is_gap t A off (24 + rec_len r) → tdb_read_only t = false → 4 <= rec_len r →
  ∃ m, update_tailer t off r = (true, set_tdb_map t m)
    ∧ is_gap (set_tdb_map t m) A off (24 + rec_len r) ∧ has_tail m off (24 + rec_len r).
Proof.
  intros [Hg Hh Hp] Hro Hl. pose proof (gap_start _ _ _ _ Hg).
  destruct (gap_focus _ _ _ _ Hg) as (pre & raw & post & Hm & Hpre & Hraw & Hs & Hw & _).
  set (k := (length raw - 4)%nat).
  assert (raw = take k raw ++ drop k raw) as Hsp by by rewrite take_drop.
  assert (Z.of_nat k = 20 + rec_len r) by (unfold k, dsize in *; lia).
  rewrite Hsp, <- app_assoc, app_assoc in Hm.
  assert (dsize (take k raw) = 20 + rec_len r) by (unfold dsize; rewrite length_take; unfold k in *; lia).
  unfold update_tailer, sizeof_rec. rewrite (u32_id (24 + rec_len r)), u32_id by (unfold is_u32; lia).
  eexists. split; [|split].
  - apply (tdb_write_app t _ _ _ _ _ Hm Hs); [rewrite dsize_app; lia| |done].
    rewrite length_le_bytes, length_drop. unfold k, dsize in *. lia.
  - split; [|done|done]. cbn [tdb_map set_tdb_map]. rewrite <- app_assoc, (app_assoc (take k raw)). apply Hw.
    rewrite dsize_app, dsize_le_bytes. lia.
  - exists pre, (take k raw), post. rewrite <- app_assoc. split; [done|]. split; [done|]. lia.
Qed.

(** Two decompositions of a file that agree on a prefix. *)
Lemma app_split_at {pre1 pre2 r1 r2 : bytes} :
  pre1 ++ r1 = pre2 ++ r2 → dsize pre1 = dsize pre2 → pre1 = pre2 ∧ r1 = r2.
Proof. unfold dsize. intros E Hl. apply app_inj_1; [lia|done]. Qed.

Lemma left_free_gap t A off n :
  is_gap t A off n →
  left_free t off = None ∨
  ∃ lft l, left_free t off = Some (lft, b_rec l) ∧ im_heap A !! lft = Some l
    ∧ magic (b_rec l) = TDB_FREE_MAGIC ∧ lft + b_size l = off.
Proof.
  intros [Hg Hh Hp]. assert (TDB_DATA_START t = data_start A) as Hd.
  { unfold TDB_DATA_START, data_start, FREELIST_TOP. lia. }
  pose proof (gap_start _ _ _ _ Hg). unfold left_free. rewrite Hd.
  rewrite u64_id, u32_id by (unfold is_u32, is_u64; lia).
  destruct (gap_left _ _ _ _ Hg) as [->|[(pre & rest & raw & post & Hm & [Hr (body & tl & -> & Htl)] & Hpre & Hds & _)
    |(lft & l & pre & raw & post & Hl & [Hlok Hll] & Hoff & Hm & Hpre & Hraw & Hds & _)]].
  { rewrite (proj2 (Z.ltb_ge _ _)) by lia. by left. }
  { left. rewrite dsize_app, dsize_le_bytes in Hr, Hpre. rewrite (proj2 (Z.ltb_lt _ _)) by lia. cbn [negb].
    unfold tdb_ofs_read. rewrite <- app_assoc, (app_assoc pre) in Hm. rewrite (tdb_read_app t _ _ _ _ _ Hm); [|lia|rewrite dsize_app; lia|done].
    cbn [mbind option_bind]. by destruct Htl as [-> | ->]. }
  pose proof (b_size_pos l). rewrite (proj2 (Z.ltb_lt _ _)) by lia. cbn [negb].
  assert (sizeof_rec + rec_len (b_rec l) = b_size l) as Hsz by (unfold b_size, sizeof_rec; lia).
  assert (tdb_ofs_read t (off - 4) = Some (b_size l)) as ->.
  { unfold tdb_ofs_read. pose proof Hm as Hm'. unfold block_bytes in Hm'.
    rewrite Hsz, <- !app_assoc, (app_assoc (rec_bytes _)), (app_assoc pre) in Hm'.
    rewrite (tdb_read_app t _ _ _ _ _ Hm'); [|lia| |done].
    - cbn [mbind option_bind]. rewrite le_val_u32; [done|]. unfold is_u32. lia.
    - rewrite !dsize_app, dsize_rec_bytes. unfold b_size in *. lia. }
  cbn [mbind option_bind]. destruct (_ || _); [by left|].
  rewrite u32_id by (unfold is_u32; lia). replace (off - b_size l) with lft by lia.
  rewrite (proj2 (Z.ltb_ge _ _)), (proj2 (Z.ltb_ge _ _)) by lia. cbn [orb].
  assert (tdb_read t lft sizeof_rec = Some (rec_bytes (b_rec l))) as ->.
  { unfold block_bytes in Hm. rewrite <- !app_assoc in Hm.
    by apply (tdb_read_app t _ _ _ _ _ Hm); [lia| |rewrite dsize_rec_bytes]. }
  cbn [mbind option_bind]. rewrite rec_of_rec_bytes by done.
  destruct (magic (b_rec l) =? TDB_FREE_MAGIC) eqn:E; zbool; [right|by left].
  by exists lft, l.
Qed.

Lemma gap_disjoint m A off n p b q c :
  gap_repr m A off n → im_heap A !! p = Some b → im_heap A !! q = Some c → p < q → p + b_size b <= q.
Proof.
  intros (pre & raw & post & _ & Ho & Hn & -> & _) Hp Hq Hlt. pose proof (dsize_nonneg raw).
  apply lookup_union_Some_raw in Hp as [Hp|[_ Hp]]; apply lookup_union_Some_raw in Hq as [Hq|[_ Hq]];
    [by eapply heap_disjoint| | |by eapply heap_disjoint];
    apply heap_range in Hp, Hq; pose proof (b_size_pos b); pose proof (b_size_pos c); lia.
Qed.

(** The header of a record that fills a gap. *)
Lemma write_gap t A off r :
  is_gap t A off (24 + rec_len r) → has_tail (tdb_map t) off (24 + rec_len r) →
  tdb_read_only t = false → 4 <= rec_len r → rec_ok r →
  ∃ body, block_ok (mk_block r body) ∧
    writes (λ t, tdb_rec_write t off r) t (set_heap A (<[off := mk_block r body]> (im_heap A))).
Proof.
  intros [Hg Hh Hp] (pre & raw & post & Hm & Hpre & Hraw) Hro Hl Hok. pose proof (gap_start _ _ _ _ Hg).
  destruct (gap_focus _ _ _ _ Hg) as (pre' & raw' & post' & Hm' & Hpre' & Hraw' & Hs & _ & Hw).
  pose proof Hm as E. rewrite Hm' in E. destruct (app_split_at E) as [-> E2]; [lia|].
  rewrite (app_assoc raw) in E2. destruct (app_split_at E2) as [-> ->].
  { rewrite dsize_app, dsize_le_bytes. lia. }
  assert (raw = take 24 raw ++ drop 24 raw) as Hsp by by rewrite take_drop.
  exists (drop 24 raw).
  assert (block_ok (mk_block r (drop 24 raw))) as Hbok.
  { split; [done|]. cbn. unfold dsize in *. rewrite length_drop. lia. }
  split; [done|]. eexists. split.
  - rewrite Hsp, <- app_assoc in Hm. apply (tdb_write_app t _ _ _ _ _ Hm Hs); [done| |done].
    rewrite length_rec_bytes, length_take. unfold dsize in *. lia.
  - specialize (Hw _ Hbok). unfold block_bytes in Hw. cbn [b_rec b_body] in Hw.
    rewrite <- !app_assoc in Hw. split; [|done|done]. cbn [tdb_map set_tdb_map]. apply Hw.
    unfold b_size, dsize in *. cbn. rewrite length_drop. lia.
Qed.

(** The join of a gap with the record to its left. *)
Definition merged l r : tdb_record := set_rec_len l (rec_len l + (sizeof_rec + rec_len r)).

Lemma merge_gap t A off r lft l :
  is_gap t A off (24 + rec_len r) → tdb_read_only t = false → 4 <= rec_len r →
  im_heap A !! lft = Some l → lft + b_size l = off → is_u32 (rec_len (merged (b_rec l) r)) ∧
  ∃ body m m', block_ok (mk_block (merged (b_rec l) r) body) ∧
    tdb_rec_write t lft (merged (b_rec l) r) = (true, set_tdb_map t m)
    ∧ update_tailer (set_tdb_map t m) lft (merged (b_rec l) r) = (true, set_tdb_map t m')
    ∧ is_repr (set_tdb_map t m') (set_heap A (<[lft := mk_block (merged (b_rec l) r) body]> (im_heap A))).
Proof.
  intros [Hg Hh Hp] Hro Hlr Hl Hoff. pose proof (gap_start _ _ _ _ Hg).
  destruct (gap_left _ _ _ _ Hg) as [->|[(? & ? & ? & ? & _ & _ & _ & _ & Hno)|(lft' & l' & pre & raw & post & Hl' & [Hlok Hll] & Hoff' & Hm & Hpre & Hraw & Hds & Hw)]];
    [|by apply Hno in Hl|].
  { exfalso. destruct Hg as (? & ? & ? & _ & _ & _ & Hheap & _). rewrite Hheap in Hl.
    apply lookup_union_Some_raw in Hl as [Hl|[_ Hl]]; apply heap_range in Hl; pose proof (b_size_pos l); lia. }
  assert (lft' = lft) as ->.
  { pose proof (b_size_pos l). pose proof (b_size_pos l').
    pose proof (gap_disjoint _ _ _ _ _ _ _ _ Hg Hl Hl'). pose proof (gap_disjoint _ _ _ _ _ _ _ _ Hg Hl' Hl). lia. }
  simplify_eq. pose proof (dsize_nonneg (b_body l)).
  set (k := (length raw - 4)%nat).
  assert (raw = take k raw ++ drop k raw) as Hsp by by rewrite take_drop.
  assert (dsize (take k raw) = 20 + rec_len r) as Hk by (unfold dsize in *; rewrite length_take; unfold k; lia).
  assert (rec_len (merged (b_rec l) r) = rec_len (b_rec l) + 24 + rec_len r) as Hml by (cbn; unfold sizeof_rec; lia).
  assert (b_size l = 24 + rec_len (b_rec l)) as Hbl by (unfold b_size; lia).
  assert (is_u32 (rec_len (merged (b_rec l) r))) as Hu32 by (unfold is_u32; lia).
  split; [done|]. exists (b_body l ++ le_bytes 4 (sizeof_rec + rec_len (b_rec l)) ++ take k raw).
  do 2 eexists.
  assert (block_ok (mk_block (merged (b_rec l) r) (b_body l ++ le_bytes 4 (sizeof_rec + rec_len (b_rec l)) ++ take k raw))) as Hbok.
  { split; [destruct Hlok; by split|]. cbn [b_rec b_body]. rewrite Hml, !dsize_app, dsize_le_bytes. lia. }
  split; [done|]. unfold block_bytes in Hm. rewrite <- !app_assoc in Hm. split; [|split].
  - apply (tdb_write_app t _ _ _ _ _ Hm); [lia|done| |done]. by rewrite !length_rec_bytes.
  - unfold update_tailer. rewrite (u32_id (sizeof_rec + _)), u32_id by (unfold is_u32, sizeof_rec; lia).
    set (m1 := pre ++ rec_bytes (merged (b_rec l) r) ++ b_body l ++ le_bytes 4 (sizeof_rec + rec_len (b_rec l)) ++ raw ++ post).
    assert (m1 = (pre ++ rec_bytes (merged (b_rec l) r) ++ b_body l ++ le_bytes 4 (sizeof_rec + rec_len (b_rec l)) ++ take k raw) ++ drop k raw ++ post) as Hm1.
    { unfold m1. rewrite Hsp at 1. by rewrite <- !app_assoc. }
    apply (tdb_write_app (set_tdb_map t m1) _ _ _ _ _ Hm1); [| | |done].
    + unfold tdb_map, set_tdb_map, m1. rewrite Hm in *. rewrite !dsize_app, !dsize_rec_bytes in *. lia.
    + rewrite !dsize_app, dsize_rec_bytes, dsize_le_bytes. unfold sizeof_rec. lia.
    + rewrite length_le_bytes, length_drop. unfold k, dsize in *. lia.
  - refine (Build_is_repr _ _ _ _ _); [|done|done]. specialize (Hw _ Hbok).
    unfold block_bytes in Hw. cbn [b_rec b_body] in Hw. rewrite <- !app_assoc in Hw.
    cbn [tdb_map set_tdb_map]. rewrite <- !app_assoc. apply Hw.
    unfold b_size. cbn [b_body]. rewrite !dsize_app, dsize_le_bytes. unfold b_size in *. lia.
Qed.

(** *** [tdb_free] *)

(** The image after the [rec_len r + 24] bytes at [off] are freed: a new record
    at the head of the free list, or a larger record to the left. *)
Inductive freed A (off : Z) r : image → Prop :=
| freed_push body :
    block_ok (mk_block (set_next (set_magic r TDB_FREE_MAGIC) (im_free A)) body) →
    freed A off r
      (set_free (set_heap A
        (<[off := mk_block (set_next (set_magic r TDB_FREE_MAGIC) (im_free A)) body]> (im_heap A))) off)
| freed_merge lft l body :
    im_heap A !! lft = Some l → magic (b_rec l) = TDB_FREE_MAGIC → lft + b_size l = off →
    block_ok (mk_block (merged (b_rec l) r) body) →
    freed A off r (set_heap A (<[lft := mk_block (merged (b_rec l) r) body]> (im_heap A))).

Lemma tdb_free_lock held t off r :
  tdb_free held t off r =
    let '(ok, t) := tdb_lock held t in if ok then tdb_free true t off r else (false, t).
Proof. unfold tdb_free. by destruct (tdb_lock held t) as [[] t']. Qed.

Lemma tdb_free_gap t A off r :
  is_gap t A off (24 + rec_len r) → tdb_read_only t = false → 4 <= rec_len r → rec_ok r →
  ∃ A', freed A off r A' ∧ writes (λ t, tdb_free true t off r) t A'.
Proof.
  intros Hg Hro Hl Hok. unfold tdb_free. cbn [tdb_lock negb].
  destruct (update_tailer_gap _ _ _ _ Hg Hro Hl) as (m1 & E1 & Hg1 & Htl).
  pose proof (gap_start _ _ _ _ (ig_repr _ _ _ _ Hg1)).
  unfold writes. rewrite E1. cbn [negb].
  destruct (left_free_gap _ _ _ _ Hg1) as [->|(lft & l & -> & Hlk & Hmg & Hoff)].
  - assert (tdb_ofs_read (set_tdb_map t m1) FREELIST_TOP = Some (im_free A) ∧ is_u32 (im_free A)) as [-> Hfu].
    { destruct Hg1 as [(pre & raw & post & Hm & _ & _ & _ & _ & _ & [Hh Hf Hhs] & Hs) _ _].
      split; [|done]. unfold table_bytes in Hm. rewrite <- !app_assoc in Hm. unfold tdb_ofs_read.
      rewrite (tdb_read_app _ _ _ _ _ _ Hm Hs); [cbn [mbind option_bind]; by rewrite le_val_u32| |done].
      unfold dsize. by rewrite Hh. }
    assert (rec_ok (set_next (set_magic r TDB_FREE_MAGIC) (im_free A))) as Hok' by (destruct Hok; by split).
    destruct (write_gap (set_tdb_map t m1) A off (set_next (set_magic r TDB_FREE_MAGIC) (im_free A)))
      as (body & Hb & m2 & E2 & H2); [done..|].
    rewrite E2. cbn [negb]. eexists. split; [by apply freed_push|].
    destruct (write_free (set_tdb_map t m2) _ off H2) as (m3 & E3 & H3); [done|unfold is_u32; lia|].
    exists m3. by split.
  - destruct (merge_gap _ _ _ _ _ _ Hg1 Hro Hl Hlk Hoff) as (Hu & body & m2 & m3 & Hb & E2 & E3 & H3).
    cbn [merged set_rec_len rec_len] in Hu.
    replace (set_rec_len (b_rec l) (u32 (rec_len (b_rec l) + (sizeof_rec + rec_len r)))) with (merged (b_rec l) r).
    2:{ unfold merged. by rewrite u32_id. }
    rewrite E2. cbn [negb]. eexists. split; [by apply freed_merge|]. exists m3. by split.
Qed.

(** ** Splitting a record, extending and wiping the file *)

Lemma repr_split m A p b :
  repr m A → im_heap A !! p = Some b →
  ∃ pre post, m = pre ++ block_bytes b ++ post ∧ dsize pre = p ∧ dsize m < 2 ^ 32
    ∧ ∀ b1 b2, block_ok b1 → block_ok b2 → b_size b1 + b_size b2 = b_size b →
        repr (pre ++ (block_bytes b1 ++ block_bytes b2) ++ post)
          (set_heap A (<[p := b1]> (<[p + b_size b1 := b2]> (im_heap A)))).
Proof.
  intros (bs & -> & Hh & Hf & Hok & Hs) Hp. pose proof Hp as Hp'. rewrite Hh in Hp'.
  apply heap_lookup_split in Hp' as (pre & post & -> & ->).
  apply Forall_app in Hf as [Hpre [_ Hpost]%Forall_cons].
  exists (table_bytes A ++ segs_bytes pre), (segs_bytes post).
  split; [by rewrite segs_bytes_app, segs_bytes_rec, <- app_assoc|].
  split; [by rewrite dsize_app, dsize_table_bytes|]. split; [done|]. intros b1 b2 Hb1 Hb2 Hsz.
  exists (pre ++ [Rec b1; Rec b2] ++ post). split; [|split; [|split; [|split]]].
  - by rewrite !segs_bytes_app, (segs_bytes_rec b1), segs_bytes_one, <- !app_assoc.
  - cbn [im_heap set_heap]. change (data_start (set_heap _ _)) with (data_start A).
    rewrite Hh. change (Rec b :: post) with ([Rec b] ++ post). rewrite !heap_middle. cbn [heap].
    rewrite (segs_bytes_rec b1), !segs_bytes_one, !dsize_app, !dsize_block_bytes.
    rewrite <- !insert_union_l, !(left_id_L ∅ (∪)), Hsz. pose proof (b_size_pos b1).
    set (q := data_start A + dsize (segs_bytes pre)). set (X := _ ∪ _).
    assert (q + b_size b1 ≠ q) as Hne by lia.
    by rewrite (insert_insert_ne X (q + b_size b1) q _ _ Hne), insert_insert_eq.
  - apply Forall_app; split; [done|]. apply Forall_app; split; [|done].
    apply Forall_cons; split; [done|]. by apply Forall_singleton.
  - by destruct Hok.
  - rewrite segs_bytes_app, segs_bytes_rec in Hs. rewrite !dsize_app, !dsize_block_bytes in *. lia.
Qed.

(** Five pieces of a list. *)
Lemma split_body (l : bytes) a b c :
  0 <= a → 0 <= b → 0 <= c → a + b + c <= dsize l →
  ∃ x1 x2 x3 x4, l = x1 ++ x2 ++ x3 ++ x4 ∧ dsize x1 = a ∧ dsize x2 = b ∧ dsize x3 = c ∧ dsize x4 = dsize l - a - b - c.
Proof.
  intros. exists (take (Z.to_nat a) l), (take (Z.to_nat b) (drop (Z.to_nat a) l)),
    (take (Z.to_nat c) (drop (Z.to_nat b) (drop (Z.to_nat a) l))),
    (drop (Z.to_nat c) (drop (Z.to_nat b) (drop (Z.to_nat a) l))).
  split; [by rewrite !take_drop|]. unfold dsize in *. rewrite !length_take, !length_drop. lia.
Qed.

(** The four writes that cut a record in two: header and tailer of the first,
    header and tailer of the second. *)
Lemma write_four t (pre h h' x1 x2 y x3 h2 x4 tl tl' post : bytes) :
  tdb_map t = pre ++ h ++ x1 ++ x2 ++ x3 ++ x4 ++ tl ++ post →
  dsize (tdb_map t) < 2 ^ 32 → tdb_read_only t = false →
  length h = length h' → length x2 = length y → length x3 = length h2 → length tl = length tl' →
  let m1 := pre ++ h' ++ x1 ++ x2 ++ x3 ++ x4 ++ tl ++ post in
  let m2 := pre ++ h' ++ x1 ++ y ++ x3 ++ x4 ++ tl ++ post in
  let m3 := pre ++ h' ++ x1 ++ y ++ h2 ++ x4 ++ tl ++ post in
  let m4 := pre ++ h' ++ x1 ++ y ++ h2 ++ x4 ++ tl' ++ post in
  tdb_write t (dsize pre) h' = (true, set_tdb_map t m1)
  ∧ tdb_write (set_tdb_map t m1) (dsize pre + dsize h + dsize x1) y = (true, set_tdb_map t m2)
  ∧ tdb_write (set_tdb_map t m2) (dsize pre + dsize h + dsize x1 + dsize x2) h2 = (true, set_tdb_map t m3)
  ∧ tdb_write (set_tdb_map t m3) (dsize pre + dsize h + dsize x1 + dsize x2 + dsize x3 + dsize x4) tl'
    = (true, set_tdb_map t m4).
Proof.
  intros Hm Hs Hro Lh Lx Ly Lt m1 m2 m3 m4.
  assert (dsize m1 = dsize (tdb_map t)) as D1 by (rewrite Hm; unfold m1, dsize; rewrite !length_app; lia).
  assert (dsize m2 = dsize (tdb_map t)) as D2 by (rewrite Hm; unfold m2, dsize; rewrite !length_app; lia).
  assert (dsize m3 = dsize (tdb_map t)) as D3 by (rewrite Hm; unfold m3, dsize; rewrite !length_app; lia).
  split; [|split; [|split]].
  - by apply (tdb_write_app t pre h h' (x1 ++ x2 ++ x3 ++ x4 ++ tl ++ post)).
  - pose proof (tdb_write_app (set_tdb_map t m1) (pre ++ h' ++ x1) x2 y (x3 ++ x4 ++ tl ++ post)) as W.
    rewrite <- !app_assoc in W. apply W; [done|cbn; lia| |done|done]. unfold dsize. rewrite !length_app. lia.
  - pose proof (tdb_write_app (set_tdb_map t m2) (pre ++ h' ++ x1 ++ y) x3 h2 (x4 ++ tl ++ post)) as W.
    rewrite <- !app_assoc in W. apply W; [done|cbn; lia| |done|done]. unfold dsize. rewrite !length_app. lia.
  - pose proof (tdb_write_app (set_tdb_map t m3) (pre ++ h' ++ x1 ++ y ++ h2 ++ x4) tl tl' post) as W.
    rewrite <- !app_assoc in W. apply W; [done|cbn; lia| |done|done]. unfold dsize. rewrite !length_app. lia.
Qed.

(** The record that [tdb_allocate_ofs] cuts off the end of a free record. *)
Definition cut_rec (len : Z) : tdb_record := mk_rec 0 len 0 0 0 TDB_MAGIC.
Definition shortened r (len : Z) : tdb_record := set_rec_len r (rec_len r - (len + sizeof_rec)).

Lemma allocate_split t A p b len last_ptr :
  is_repr t A → tdb_read_only t = false → im_heap A !! p = Some b →
  4 <= len → len + MIN_REC_SIZE <= rec_len (b_rec b) →
  ∃ p' body1 body2 m,
    let b1 := mk_block (shortened (b_rec b) len) body1 in
    let b2 := mk_block (cut_rec len) body2 in
    p' = p + b_size b1 ∧ block_ok b1 ∧ block_ok b2 ∧ b_size b1 + b_size b2 = b_size b
    ∧ tdb_allocate_ofs t len p (b_rec b) last_ptr = (p', cut_rec len, set_tdb_map t m)
    ∧ is_repr (set_tdb_map t m) (set_heap A (<[p := b1]> (<[p' := b2]> (im_heap A)))).
Proof.
  intros Hir Hro Hp Hlen Hfit. unfold MIN_REC_SIZE, sizeof_rec in Hfit.
  pose proof (repr_block _ _ _ _ (ir_repr _ _ Hir) Hp) as ([Hrok Hbl] & Hds & Hend & _).
  assert (172 <= p) by (unfold data_start in Hds; lia).
  destruct (repr_split _ _ _ _ (ir_repr _ _ Hir) Hp) as (pre & post & Hm & Hpre & Hs & Hw).
  set (R := rec_len (b_rec b) - (len + 24)).
  destruct (split_body (b_body b) (R - 4) 4 24) as (x1 & x2 & x3 & x4 & Hb & L1 & L2 & L3 & L4); [lia..|].
  unfold b_size in Hend.
  exists (p + 24 + R), x1, x4. eexists. intros b1 b2.
  assert (b_size b1 = 24 + R) as Hb1 by (unfold b_size; cbn; lia).
  assert (b_size b2 = 24 + len) as Hb2 by (unfold b_size; cbn; lia).
  assert (block_ok b1) as Hok1.
  { split; [|cbn; unfold sizeof_rec; lia]. destruct Hrok. split; try done. cbn. unfold is_u32, sizeof_rec. lia. }
  assert (block_ok b2) as Hok2.
  { split; [|cbn; lia]. split; cbn; unfold is_u32, TDB_MAGIC; lia. }
  assert (b_size b1 + b_size b2 = b_size b) as Hsum by (unfold b_size at 3; lia).
  split; [lia|]. split; [done|]. split; [done|]. split; [done|].
  specialize (Hw b1 b2 Hok1 Hok2 Hsum). unfold block_bytes in Hw, Hm. rewrite Hb in Hm. cbn [b_rec b_body b1 b2] in Hw.
  assert (rec_len (shortened (b_rec b) len) = R) as HR by done.
  rewrite HR in Hw. rewrite <- !app_assoc in Hw, Hm.
  edestruct (write_four t pre _ (rec_bytes (shortened (b_rec b) len)) x1 x2 (le_bytes 4 (sizeof_rec + R)) x3
    (rec_bytes (cut_rec len)) x4 _ (le_bytes 4 (sizeof_rec + len)) post Hm Hs Hro) as (E1 & E2 & E3 & E4).
  { by rewrite !length_rec_bytes. } { rewrite length_le_bytes. unfold dsize in *. lia. }
  { rewrite length_rec_bytes. unfold dsize in *. lia. } { by rewrite !length_le_bytes. }
  rewrite Hpre in E1, E2, E3, E4. rewrite dsize_rec_bytes, L1 in E2, E3, E4. rewrite L2 in E3, E4.
  rewrite L3, L4 in E4. split.
  - unfold tdb_allocate_ofs. rewrite (proj2 (Z.ltb_ge _ _)) by (unfold MIN_REC_SIZE, sizeof_rec; lia).
    replace (set_rec_len (b_rec b) (u32 _)) with (shortened (b_rec b) len).
    2:{ unfold shortened. rewrite u32_id; [done|]. unfold is_u32, sizeof_rec. lia. }
    unfold tdb_rec_write, update_tailer, tdb_ofs_write. rewrite E1. cbn [negb].
    rewrite HR, (u32_id (sizeof_rec + R)) by (unfold is_u32, sizeof_rec; lia).
    replace (u32 (p + (sizeof_rec + R) - 4)) with (p + 24 + (R - 4)).
    2:{ rewrite u32_id; unfold is_u32, sizeof_rec; lia. }
    rewrite E2. cbn [negb]. replace (u32 (p + (sizeof_rec + R))) with (p + 24 + (R - 4) + 4).
    2:{ rewrite u32_id; unfold is_u32, sizeof_rec; lia. }
    fold (cut_rec len). rewrite E3. cbn [negb rec_len cut_rec]. fold (cut_rec len).
    rewrite (u32_id (sizeof_rec + len)) by (unfold is_u32, sizeof_rec; lia).
    match goal with |- context [tdb_write _ ?o _] => replace o with (p + 24 + (R - 4) + 4 + 24 + (dsize (b_body b) - (R - 4) - 4 - 24)) end.
    2:{ rewrite u32_id; unfold is_u32, sizeof_rec; lia. }
    rewrite E4. replace (p + 24 + (R - 4) + 4) with (p + 24 + R) by lia. reflexivity.
  - refine (is_repr_map _ _ _ _ Hir _ _); [|done].
    replace (p + 24 + R) with (p + b_size b1) by lia. exact Hw.
Qed.

(** The file with [raw] bytes more. *)
Lemma extend_gap t A raw :
  is_repr t A → dsize (tdb_map t) + dsize raw < 2 ^ 32 →
  is_gap (set_tdb_map t (tdb_map t ++ raw)) A (tdb_map_size t) (dsize raw).
Proof.
  intros [(bs & Hm & Hh & Hf & Hok & Hs) Hhs Hp] Hlt. split; [|done|done]. cbn [tdb_map set_tdb_map].
  exists bs, raw, []. unfold tdb_map_size. rewrite Hm in *. cbn [heap]. rewrite (right_id_L ∅ (∪)).
  change (segs_bytes []) with (@nil Z). rewrite app_nil_r, <- app_assoc.
  split; [done|]. split; [by rewrite dsize_app, dsize_table_bytes|]. do 5 (split; [done|]).
  rewrite !dsize_app in *. lia.
Qed.

(** The file with the rest of a failed extension. *)
Lemma extend_rest t A raw :
  is_repr t A → dsize (tdb_map t) + dsize raw < 2 ^ 32 → rest_ok raw → is_repr (set_tdb_map t (tdb_map t ++ raw)) A.
Proof.
  intros [(bs & Hm & Hh & Hf & Hok & Hs) Hhs Hp] Hlt Hr. split; [|done|done]. cbn [tdb_map set_tdb_map].
  exists (bs ++ [Rest raw]). rewrite Hm in *. rewrite segs_bytes_app, heap_app. cbn [heap]. rewrite (right_id_L ∅ (∪)).
  split; [by rewrite <- app_assoc, (segs_bytes_cons (Rest raw)), app_nil_r|]. split; [done|].
  split; [apply Forall_app; split; [done|by apply Forall_singleton]|]. split; [done|]. rewrite !dsize_app in *. lia.
Qed.

(** The whole data area as one gap. *)
Lemma wipe_gap t A :
  is_repr t A → is_gap t (set_heap A ∅) (data_start A) (tdb_map_size t - data_start A).
Proof.
  intros [(bs & Hm & Hh & Hf & Hok & Hs) Hhs Hp]. split; [|done|done].
  exists [], (segs_bytes bs), []. unfold tdb_map_size. rewrite Hm in *. cbn [heap]. rewrite (right_id_L ∅ (∪)).
  change (segs_bytes []) with (@nil Z). rewrite app_nil_r.
  split; [done|]. split; [change (data_start (set_heap A ∅)) with (data_start A); change (dsize []) with 0; lia|].
  split; [rewrite dsize_app, dsize_table_bytes by done; lia|]. by destruct Hok.
Qed.

Definition set_hdr A v := mk_image v (im_free A) (im_heads A) (im_heap A).

(** A word of the header. *)
Definition hdr_word A (o : nat) : Z := le_val (slice o 4 (im_hdr A)).

Lemma hdr_split (hdr : bytes) (o : nat) :
  hdr = take o hdr ++ slice o 4 hdr ++ drop (o + 4) hdr.
Proof. unfold slice. by rewrite <- drop_drop, !take_drop. Qed.

Lemma read_hdr t A (o : nat) :
  is_repr t A → (o + 4 <= 168)%nat → tdb_ofs_read t (Z.of_nat o) = Some (hdr_word A o).
Proof.
  intros [Hr _ _] Ho. destruct (repr_table _ _ Hr) as (post & Hm & Hs & _). destruct Hr as (_ & _ & _ & _ & [Hh Hf _] & _).
  unfold table_bytes in Hm. rewrite (hdr_split (im_hdr A) o), <- !app_assoc in Hm. unfold tdb_ofs_read.
  by rewrite (tdb_read_app t _ _ _ _ _ Hm Hs); [|unfold dsize; rewrite length_take; lia
    |unfold slice, dsize; rewrite length_take, length_drop; lia].
Qed.

Lemma write_hdr t A (o : nat) v :
  is_repr t A → (o + 4 <= 168)%nat → tdb_read_only t = false →
  writes (λ t, tdb_ofs_write t (Z.of_nat o) v) t (set_hdr A (write_at (Z.of_nat o) (le_bytes 4 v) (im_hdr A))).
Proof.
  intros Hir Ho Hro. destruct (repr_table _ _ (ir_repr _ _ Hir)) as (post & Hm & Hs & Hw).
  destruct (ir_repr _ _ Hir) as (_ & _ & _ & _ & [Hh Hf Hhs] & _).
  unfold table_bytes in Hm. rewrite (hdr_split (im_hdr A) o), <- !app_assoc in Hm. eexists. split.
  - apply (tdb_write_app t _ _ _ _ _ Hm Hs); [unfold dsize; rewrite length_take; lia| |done].
    rewrite length_le_bytes. unfold slice. rewrite length_take, length_drop. lia.
  - refine (is_repr_map _ _ _ _ Hir _ _); [|done].
    assert (length (write_at (Z.of_nat o) (le_bytes 4 v) (im_hdr A)) = length (im_hdr A)) as Hl.
    { apply length_write_at; [lia|]. rewrite dsize_le_bytes. unfold dsize. lia. }
    specialize (Hw (set_hdr A (write_at (Z.of_nat o) (le_bytes 4 v) (im_hdr A)))).
    unfold table_bytes, write_at in *. cbn [im_hdr im_free im_heads set_hdr] in Hw.
    rewrite Nat2Z.id, length_le_bytes, <- !app_assoc in *. apply Hw; [|done|done].
    split; [|done|done]. cbn [im_hdr set_hdr]. by rewrite Hl.
Qed.
