(* ===== verification/TdbChain.v ===== *)
(** * Chains of records

    The free list and the hash chains of a tdb file, and the invariant [wf] that
    the library maintains on an image: the free list is a chain of free records;
    every hash chain is a chain of live and dead records that belong to its
    bucket, each large enough for its key, data and tailer, with no key live
    twice.  Records on no list are allowed: an operation that fails half way
    leaves such records behind.  The lemmas say what the steps of the library
    (change a record, unlink, link, free, allocate) do to the invariant and to
    the records that are stored. *)
From S2P Require Import Prelude TdbFile TdbLayout.
Import Tdb.

Implicit Types (H : gmap Z block) (A : image) (l : list Z) (b : block).

(** Membership in a list with a record in the middle. *)
Ltac elem_solve := rewrite ?elem_of_app, ?elem_of_cons in *; tauto.

(** ** Chains *)

Inductive chain H : Z → list Z → Prop :=
| chain_nil : chain H 0 []
| chain_cons p b l : p ≠ 0 → H !! p = Some b → chain H (next (b_rec b)) l → chain H p (p :: l).

Lemma chain_det H p l l' : chain H p l → chain H p l' → l = l'.
Proof.
  intros Hc. revert l'. induction Hc as [|p b l Hp Hb _ IH]; intros l' Hc'; inversion Hc'; simplify_eq; [done..|].
  f_equal. by apply IH.
Qed.

Lemma chain_app H v l1 p l2 : chain H v (l1 ++ p :: l2) → chain H p (p :: l2).
Proof.
  revert v. induction l1 as [|q l1 IH]; intros v Hc; inversion Hc; simplify_eq/=; [by econstructor|by eapply IH].
Qed.

Lemma chain_NoDup H v l : chain H v l → NoDup l.
Proof.
  induction 1 as [|p b l Hp Hb Hc IH]; [constructor|]. constructor; [|done].
  intros (l1 & l2 & ->)%list_elem_of_split. apply chain_app in Hc as Hc'.
  assert (chain H p (p :: l1 ++ p :: l2)) as Hc2 by by econstructor.
  pose proof (chain_det _ _ _ _ Hc' Hc2) as E. apply (f_equal length) in E.
  cbn in E. rewrite length_app in E. cbn in E. lia.
Qed.

Lemma chain_lookup H v l p : chain H v l → p ∈ l → p ≠ 0 ∧ ∃ b, H !! p = Some b.
Proof.
  induction 1 as [|q b l Hq Hb _ IH]; [by intros ?%not_elem_of_nil|].
  intros [->|?]%elem_of_cons; [by eauto|by apply IH].
Qed.

Lemma chain_next H v l1 p l2 b :
  chain H v (l1 ++ p :: l2) → H !! p = Some b → chain H (next (b_rec b)) l2.
Proof. intros Hc Hb. apply chain_app in Hc. inversion Hc; simplify_eq. done. Qed.

(** A chain survives every change of the records that keeps the links. *)
Lemma chain_frame H H' v l :
  (∀ q b, q ∈ l → H !! q = Some b → ∃ b', H' !! q = Some b' ∧ next (b_rec b') = next (b_rec b)) →
  chain H v l → chain H' v l.
Proof.
  intros Hf. induction 1 as [|q b l Hq Hb _ IH]; [constructor|].
  destruct (Hf q b) as (b' & Hb' & Hn); [by apply list_elem_of_here|done|].
  econstructor; [done..|]. rewrite Hn. apply IH. intros q' c Hq'. apply Hf. by apply list_elem_of_further.
Qed.

Lemma chain_insert_ne H v l p b : chain H v l → p ∉ l → chain (<[p := b]> H) v l.
Proof.
  intros Hc Hp. eapply chain_frame; [|done]. intros q c Hq Hc'. exists c.
  rewrite lookup_insert_ne; [done|]. by intros ->.
Qed.
Lemma chain_delete_ne H v l p : chain H v l → p ∉ l → chain (delete p H) v l.
Proof.
  intros Hc Hp. eapply chain_frame; [|done]. intros q c Hq Hc'. exists c.
  rewrite lookup_delete_ne; [done|]. by intros ->.
Qed.
Lemma chain_insert_next H v l p b b' :
  chain H v l → H !! p = Some b → next (b_rec b') = next (b_rec b) → chain (<[p := b']> H) v l.
Proof.
  intros Hc Hb Hn. eapply chain_frame; [|done]. intros q c Hq Hc'.
  destruct (decide (p = q)) as [<-|].
  - exists b'. simplify_eq. by rewrite lookup_insert_eq.
  - exists c. by rewrite lookup_insert_ne.
Qed.

(** Unlinking a record behind its predecessor [q]. *)
Lemma chain_unlink H v l1 q p l2 b bq b' :
  chain H v (l1 ++ q :: p :: l2) → H !! p = Some b → H !! q = Some bq →
  next (b_rec b') = next (b_rec b) → chain (<[q := b']> H) v (l1 ++ q :: l2).
Proof.
  revert v. induction l1 as [|x l1 IH]; intros v Hc Hb Hq Hn.
  - inversion Hc as [|? ? ? Hv Hbv Hc']; simplify_eq/=. econstructor; [done|by rewrite lookup_insert_eq|].
    rewrite Hn. apply (chain_next H _ [] p l2 b) in Hc' as Hc2; [|done]. apply chain_insert_ne; [done|].
    apply chain_NoDup in Hc. apply NoDup_cons in Hc as [Hni _]. by apply not_elem_of_cons in Hni as [_ ?].
  - inversion Hc as [|? bx ? Hv Hbv Hc']; simplify_eq/=.
    assert (x ≠ q).
    { apply chain_NoDup in Hc. apply NoDup_cons in Hc as [Hni _]. intros ->. apply Hni.
      apply elem_of_app. right. apply list_elem_of_here. }
    econstructor; [done|by rewrite lookup_insert_ne|]. by apply IH.
Qed.

(** A file has no more records than bytes. *)
Lemma offsets_fuel t A l :
  is_repr t A → NoDup l → (∀ p, p ∈ l → ∃ b, im_heap A !! p = Some b) → (length l < chain_fuel t)%nat.
Proof.
  intros Hir Hnd Hl. unfold chain_fuel.
  enough (length (Z.to_nat <$> l) <= length (seq 0 (length (tdb_map t))))%nat by (rewrite length_fmap, length_seq in *; lia).
  assert (∀ p, p ∈ l → 172 <= p < dsize (tdb_map t)) as Hr.
  { intros p [b Hb]%Hl. apply (repr_block _ _ _ _ (ir_repr _ _ Hir)) in Hb as (_ & ? & ? & _). unfold data_start in *.
    pose proof (b_size_pos b). lia. }
  apply NoDup_incl_length.
  - apply NoDup_ListNoDup, NoDup_fmap_2_strong; [|done]. intros x y Hx%Hr Hy%Hr. lia.
  - intros n Hn. apply list_elem_of_In, list_elem_of_fmap in Hn as (x & -> & Hx%Hr). apply in_seq. unfold dsize in *. lia.
Qed.

Lemma chain_fuel_enough t A v l : is_repr t A → chain (im_heap A) v l → (length l < chain_fuel t)%nat.
Proof.
  intros Hir Hc. eapply offsets_fuel; [done|by eapply chain_NoDup|]. intros p Hp. by eapply chain_lookup.
Qed.

(** ** The invariant *)

Definition block_key b : bytes := take (Z.to_nat (key_len (b_rec b))) (b_body b).
Definition block_data b : bytes :=
  slice (Z.to_nat (key_len (b_rec b))) (Z.to_nat (data_len (b_rec b))) (b_body b).
Definition live_of b : option (bytes * bytes) :=
  if magic (b_rec b) =? TDB_MAGIC then Some (block_key b, block_data b) else None.

(** [q] is on a hash chain; it holds the pair (k, d). *)
Definition used (ls : list (list Z)) (q : Z) : Prop := ∃ i l, ls !! i = Some l ∧ q ∈ l.
Definition entry A (ls : list (list Z)) (q : Z) (k d : bytes) : Prop :=
  used ls q ∧ ∃ b, im_heap A !! q = Some b ∧ live_of b = Some (k, d).

(** Every free record is on the free list. *)
Definition all_free A (fl : list Z) : Prop :=
  ∀ p b, im_heap A !! p = Some b → magic (b_rec b) = TDB_FREE_MAGIC → p ∈ fl.

Lemma all_free_insert A fl p b :
  all_free A fl → (magic (b_rec b) = TDB_FREE_MAGIC → p ∈ fl) → all_free (set_heap A (<[p := b]> (im_heap A))) fl.
Proof.
  intros Ha Hb q c Hq Hm. cbn in Hq. apply lookup_insert_Some in Hq as [[<- <-]|[_ Hq]]; [by apply Hb|by eapply Ha].
Qed.
Lemma all_free_delete A fl p : all_free A fl → all_free (set_heap A (delete p (im_heap A))) fl.
Proof. intros Ha q c Hq. cbn in Hq. apply lookup_delete_Some in Hq as [_ Hq]. by eapply Ha. Qed.
Lemma all_free_push A fl p b : all_free A fl → all_free (set_free (set_heap A (<[p := b]> (im_heap A))) p) (p :: fl).
Proof.
  intros Ha q c Hq Hm. cbn in Hq. apply elem_of_cons.
  apply lookup_insert_Some in Hq as [[<- <-]|[_ Hq]]; [by left|right; by eapply Ha].
Qed.

Section wf.
Context (hash_fn : bytes → Z) (hs : Z).

Record used_ok (i : nat) b : Prop := {
  uo_magic : magic (b_rec b) = TDB_MAGIC ∨ magic (b_rec b) = TDB_DEAD_MAGIC;
  uo_hash : magic (b_rec b) = TDB_MAGIC → full_hash (b_rec b) = key_hash hash_fn (block_key b);
  uo_bucket : Z.to_nat (full_hash (b_rec b) mod hs) = i;
  uo_fit : key_len (b_rec b) + data_len (b_rec b) + 4 <= rec_len (b_rec b);
}.

Record wf A (fl : list Z) (ls : list (list Z)) : Prop := {
  wf_free : chain (im_heap A) (im_free A) fl;
  wf_free_magic p : p ∈ fl → ∃ b, im_heap A !! p = Some b ∧ magic (b_rec b) = TDB_FREE_MAGIC;
  wf_len : length ls = length (im_heads A);
  wf_chain i v l : im_heads A !! i = Some v → ls !! i = Some l → chain (im_heap A) v l;
  wf_used i l p : ls !! i = Some l → p ∈ l → ∃ b, im_heap A !! p = Some b ∧ used_ok i b;
  wf_unique q q' k d d' : entry A ls q k d → entry A ls q' k d' → q = q';
}.

Implicit Types (fl : list Z) (ls : list (list Z)).

Lemma used_not_free i b : used_ok i b → magic (b_rec b) ≠ TDB_FREE_MAGIC.
Proof. intros [[->| ->] _ _ _]; done. Qed.

Lemma wf_disjoint A fl ls i j l l' p :
  wf A fl ls → ls !! i = Some l → ls !! j = Some l' → p ∈ l → p ∈ l' → i = j.
Proof.
  intros W Hi Hj Hp Hp'. destruct (wf_used _ _ _ W _ _ _ Hi Hp) as (b & Hb & [_ _ <- _]).
  destruct (wf_used _ _ _ W _ _ _ Hj Hp') as (b' & Hb' & [_ _ <- _]). congruence.
Qed.

Lemma wf_free_used A fl ls p : wf A fl ls → p ∈ fl → used ls p → False.
Proof.
  intros W Hp (i & l & Hl & Hp'). destruct (wf_free_magic _ _ _ W _ Hp) as (b & Hb & Hm).
  destruct (wf_used _ _ _ W _ _ _ Hl Hp') as (b' & Hb' & Hu). simplify_eq. by apply used_not_free in Hu.
Qed.

(** A record on no list may change or disappear. *)
Lemma wf_float A fl ls p H' :
  wf A fl ls → p ∉ fl → ¬ used ls p → (∀ q, q ≠ p → H' !! q = im_heap A !! q) →
  wf (set_heap A H') fl ls ∧ ∀ q k d, entry (set_heap A H') ls q k d ↔ entry A ls q k d.
Proof.
  intros W Hfl Hu HH.
  assert (∀ q k d, entry (set_heap A H') ls q k d ↔ entry A ls q k d) as He.
  { intros q k d. unfold entry. cbn [im_heap set_heap]. split; intros [Hq Hb]; (split; [done|]);
      [rewrite <- HH|rewrite HH]; [done|by intros ->|done|by intros ->]. }
  assert (∀ v l, p ∉ l → chain (im_heap A) v l → chain H' v l) as Hc.
  { intros v l Hp Hc. eapply chain_frame; [|done]. intros q b Hq Hb. exists b. rewrite HH; [done|]. by intros ->. }
  split; [|done]. split; cbn [im_heap im_free im_heads set_heap].
  - apply Hc; [done|]. by apply W.
  - intros q Hq. rewrite HH by (by intros ->). by eapply wf_free_magic.
  - apply W.
  - intros i v l Hv Hl. apply Hc; [|by eapply wf_chain]. intros Hp. apply Hu. by exists i, l.
  - intros i l q Hl Hq. rewrite HH; [by eapply wf_used|]. intros ->. apply Hu. by exists i, l.
  - intros q q' k d d' E1 E2. apply (wf_unique _ _ _ W _ _ k d d'); by apply He.
Qed.

(** A record of a chain changes, but not its link. *)
Lemma wf_set_block A fl ls i l p b b' :
  wf A fl ls → ls !! i = Some l → p ∈ l → im_heap A !! p = Some b →
  next (b_rec b') = next (b_rec b) → used_ok i b' →
  (∀ q k d d', live_of b' = Some (k, d) → entry A ls q k d' → q = p) →
  let A' := set_heap A (<[p := b']> (im_heap A)) in
  wf A' fl ls
  ∧ ∀ q k d, entry A' ls q k d ↔ (q = p ∧ live_of b' = Some (k, d)) ∨ (q ≠ p ∧ entry A ls q k d).
Proof.
  intros W Hl Hp Hb Hn Hu Hk A'.
  assert (∀ q k d, entry A' ls q k d ↔ (q = p ∧ live_of b' = Some (k, d)) ∨ (q ≠ p ∧ entry A ls q k d)) as He.
  { intros q k d. unfold entry, A'. cbn [im_heap set_heap]. destruct (decide (q = p)) as [->|Hne].
    - rewrite lookup_insert_eq. split; [intros [_ (? & ? & ?)]; simplify_eq; by left|].
      intros [[_ ?]|[? _]]; [|done]. split; [by exists i, l|]. by exists b'.
    - rewrite lookup_insert_ne by done. split; [right; done|]. by intros [[? _]|[_ ?]]. }
  split; [|done]. split; unfold A'; cbn [im_heap im_free im_heads set_heap].
  - eapply chain_insert_next; [by apply W|done..].
  - intros q Hq. rewrite lookup_insert_ne; [by eapply wf_free_magic|]. intros <-.
    eapply wf_free_used; [done..|]. by exists i, l.
  - apply W.
  - intros j v l' Hv Hl'. eapply chain_insert_next; [by eapply wf_chain|done..].
  - intros j l' q Hl' Hq. destruct (decide (p = q)) as [<-|].
    + rewrite lookup_insert_eq. exists b'. by rewrite <- (wf_disjoint _ _ _ _ _ _ _ _ W Hl Hl' Hp Hq).
    + rewrite lookup_insert_ne by done. by eapply wf_used.
  - intros q q' k d d' [[-> E1]|[Hq E1]]%He [[-> E2]|[Hq' E2]]%He; [done| | |by eapply wf_unique].
    + symmetry. by eapply Hk.
    + by eapply Hk.
Qed.

(** The chains without [p]. *)
Lemma used_unlink A fl ls i l1 l2 p :
  wf A fl ls → ls !! i = Some (l1 ++ p :: l2) →
  ∀ q, used (<[i := l1 ++ l2]> ls) q ↔ q ≠ p ∧ used ls q.
Proof.
  intros W Hl. assert (i < length ls)%nat as Hlt by by eapply lookup_lt_Some.
  destruct (lookup_lt_is_Some_2 (im_heads A) i) as [v0 Hv0]; [by rewrite <- (wf_len _ _ _ W)|].
  assert (NoDup (l1 ++ p :: l2)) as Hnd by (eapply chain_NoDup, (wf_chain _ _ _ W); done).
  intros q. split.
    - intros (j & l & Hj & Hq). apply list_lookup_insert_Some in Hj as [(<- & <- & _)|[Hne Hj]].
      + split; [|exists i, (l1 ++ p :: l2); split; [done|elem_solve]]. intros ->.
        apply NoDup_app in Hnd as (_ & Hd & [Hp _]%NoDup_cons). apply elem_of_app in Hq as [Hq|Hq]; [|done].
        apply (Hd _ Hq). apply list_elem_of_here.
      + split; [|by exists j, l]. intros ->. apply Hne. eapply (wf_disjoint _ _ _ _ _ _ _ p W Hl Hj); [elem_solve|done].
    - intros [Hne (j & l & Hj & Hq)]. destruct (decide (i = j)) as [<-|Hij].
      + exists i, (l1 ++ l2). rewrite list_lookup_insert_eq by done. split; [done|]. simplify_eq. elem_solve.
      + exists j, l. by rewrite list_lookup_insert_ne.
Qed.

(** [p] leaves chain [i]; the links of the others stay or skip [p]. *)
Lemma wf_unlink_generic A A' fl ls i l1 l2 p v :
  wf A fl ls → ls !! i = Some (l1 ++ p :: l2) →
  length (im_heads A') = length (im_heads A) → im_free A' = im_free A →
  (∀ j, j ≠ i → im_heads A' !! j = im_heads A !! j) → im_heads A' !! i = Some v →
  chain (im_heap A') v (l1 ++ l2) →
  (∀ q b, im_heap A !! q = Some b →
    ∃ r, im_heap A' !! q = Some (mk_block r (b_body b)) ∧ (r = set_next (b_rec b) (next r))
      ∧ (q ∉ l1 → r = b_rec b)) →
  wf A' fl (<[i := l1 ++ l2]> ls)
  ∧ (∀ q k d, entry A' (<[i := l1 ++ l2]> ls) q k d ↔ q ≠ p ∧ entry A ls q k d)
  ∧ ¬ used (<[i := l1 ++ l2]> ls) p.
Proof.
  intros W Hl Hlen Hfree Hheads Hi Hc HH.
  assert (i < length ls)%nat as Hlt by by eapply lookup_lt_Some.
  pose proof (used_unlink _ _ _ _ _ _ _ W Hl) as Hused.
  assert (∀ q b, im_heap A !! q = Some b → ∃ b', im_heap A' !! q = Some b' ∧ live_of b' = live_of b
      ∧ (∀ j, used_ok j b → used_ok j b') ∧ magic (b_rec b') = magic (b_rec b)) as HH'.
  { intros q b Hb. destruct (HH q b Hb) as (r & Hr & Er & _). eexists. split; [done|].
    destruct b as [rb body]. cbn in *. rewrite Er. unfold live_of, block_key, block_data. cbn.
    split; [done|]. split; [|done]. intros j [? ? ? ?]. by split. }
  assert (∀ q k d, entry A' (<[i := l1 ++ l2]> ls) q k d ↔ q ≠ p ∧ entry A ls q k d) as He.
  { intros q k d. unfold entry. rewrite Hused. split.
    - intros ([Hne (j & l & Hj & Hq)] & b & Hb & Hlv). split; [done|]. split; [by exists j, l|].
      destruct (wf_used _ _ _ W _ _ _ Hj Hq) as (b0 & Hb0 & _). destruct (HH' _ _ Hb0) as (b1 & Hb1 & E & _).
      exists b0. simplify_eq. split; [done|]. by rewrite <- E.
    - intros [Hne [Hu (b & Hb & Hlv)]]. split; [done|]. destruct (HH' _ _ Hb) as (b1 & Hb1 & E & _).
      exists b1. split; [done|]. by rewrite E. }
  split; [|split; [done|by intros [? _]%Hused]]. split.
  - rewrite Hfree. eapply chain_frame; [|by apply W]. intros q b Hq Hb. destruct (HH _ _ Hb) as (r & Hr & _ & Hn).
    eexists. split; [done|]. cbn. rewrite Hn; [done|]. intros Hq1. eapply wf_free_used; [done..|].
    exists i, (l1 ++ p :: l2). split; [done|elem_solve].
  - intros q Hq. destruct (wf_free_magic _ _ _ W _ Hq) as (b & Hb & Hm).
    destruct (HH' _ _ Hb) as (b' & ? & _ & _ & Hm'). exists b'. split; [done|]. by rewrite Hm'.
  - by rewrite length_insert, Hlen, (wf_len _ _ _ W).
  - intros j w l Hw Hj. destruct (decide (i = j)) as [<-|Hij].
    + rewrite list_lookup_insert_eq in Hj by done. by simplify_eq.
    + rewrite list_lookup_insert_ne in Hj by done. rewrite Hheads in Hw by done.
      eapply chain_frame; [|by eapply wf_chain]. intros q b Hq Hb. destruct (HH _ _ Hb) as (r & Hr & _ & Hn).
      eexists. split; [done|]. cbn. rewrite Hn; [done|]. intros Hq1. apply Hij.
      eapply (wf_disjoint _ _ _ _ _ _ _ q W Hl Hj); [elem_solve|done].
  - intros j l q Hj Hq. assert (used ls q) as (j' & l' & Hj' & Hq') by (apply Hused; by exists j, l).
    assert (j' = j) as ->.
    { apply list_lookup_insert_Some in Hj as [(<- & <- & _)|[Hne Hj]]; [|by eapply wf_disjoint].
      eapply (wf_disjoint _ _ _ _ _ _ _ q W Hj' Hl); [done|elem_solve]. }
    destruct (wf_used _ _ _ W _ _ _ Hj' Hq') as (b & Hb & Hu). destruct (HH' _ _ Hb) as (b' & ? & _ & Hu' & _). eauto.
  - intros q q' k d d' [_ E1]%He [_ E2]%He. by eapply wf_unique.
Qed.

Lemma set_next_id r : r = set_next r (next r).
Proof. by destruct r. Qed.
Lemma block_eta b : mk_block (b_rec b) (b_body b) = b.
Proof. by destruct b. Qed.

Lemma wf_unlink_head A fl ls i l2 p b :
  wf A fl ls → ls !! i = Some (p :: l2) → im_heap A !! p = Some b →
  let A' := set_heads A (<[i := next (b_rec b)]> (im_heads A)) in
  wf A' fl (<[i := l2]> ls)
  ∧ (∀ q k d, entry A' (<[i := l2]> ls) q k d ↔ q ≠ p ∧ entry A ls q k d)
  ∧ ¬ used (<[i := l2]> ls) p.
Proof.
  intros W Hl Hb A'. assert (i < length (im_heads A))%nat as Hlt.
  { rewrite <- (wf_len _ _ _ W). by eapply lookup_lt_Some. }
  destruct (lookup_lt_is_Some_2 (im_heads A) i Hlt) as [v Hv].
  apply (wf_unlink_generic A A' fl ls i [] l2 p (next (b_rec b))); [done..|by cbn; rewrite length_insert|done| | | |].
  - intros j Hj. cbn. by rewrite list_lookup_insert_ne.
  - cbn. by apply list_lookup_insert_eq.
  - cbn [im_heap set_heads A' app]. eapply (chain_next _ v [] p); [by eapply wf_chain|done].
  - intros q c Hc. exists (b_rec c). rewrite block_eta. split; [done|]. split; [apply set_next_id|done].
Qed.

Lemma wf_unlink_prev A fl ls i l0 q l2 p b bq :
  wf A fl ls → ls !! i = Some (l0 ++ q :: p :: l2) → im_heap A !! p = Some b → im_heap A !! q = Some bq →
  let A' := set_heap A (<[q := mk_block (set_next (b_rec bq) (next (b_rec b))) (b_body bq)]> (im_heap A)) in
  wf A' fl (<[i := l0 ++ q :: l2]> ls)
  ∧ (∀ q' k d, entry A' (<[i := l0 ++ q :: l2]> ls) q' k d ↔ q' ≠ p ∧ entry A ls q' k d)
  ∧ ¬ used (<[i := l0 ++ q :: l2]> ls) p.
Proof.
  intros W Hl Hb Hq A'. assert (i < length (im_heads A))%nat as Hlt.
  { rewrite <- (wf_len _ _ _ W). by eapply lookup_lt_Some. }
  destruct (lookup_lt_is_Some_2 (im_heads A) i Hlt) as [v Hv].
  replace (l0 ++ q :: l2) with ((l0 ++ [q]) ++ l2) by by rewrite <- app_assoc.
  apply (wf_unlink_generic A A' fl ls i (l0 ++ [q]) l2 p v); [done| |done|done|done|done| |].
  - by rewrite <- app_assoc.
  - rewrite <- app_assoc. eapply chain_unlink; [by eapply wf_chain|done..].
  - intros x c Hc. cbn [im_heap set_heap A']. destruct (decide (q = x)) as [<-|Hne].
    + rewrite lookup_insert_eq. simplify_eq. eexists. split; [done|]. split; [done|]. intros []. elem_solve.
    + rewrite lookup_insert_ne by done. exists (b_rec c). rewrite block_eta. split; [done|]. split; [apply set_next_id|done].
Qed.

(** A record on no list becomes the head of chain [i]. *)
Lemma wf_link A fl ls i l p b v :
  wf A fl ls → ls !! i = Some l → im_heads A !! i = Some v → p ≠ 0 → p ∉ fl → ¬ used ls p →
  im_heap A !! p = Some b → next (b_rec b) = v → used_ok i b →
  (∀ q k d d', live_of b = Some (k, d) → ¬ entry A ls q k d') →
  let A' := set_heads A (<[i := p]> (im_heads A)) in
  wf A' fl (<[i := p :: l]> ls)
  ∧ ∀ q k d, entry A' (<[i := p :: l]> ls) q k d ↔ (q = p ∧ live_of b = Some (k, d)) ∨ entry A ls q k d.
Proof.
  intros W Hl Hv Hp Hfl Hu Hb Hn Huo Hk A'.
  assert (i < length ls)%nat as Hlt by by eapply lookup_lt_Some.
  assert (∀ q, used (<[i := p :: l]> ls) q ↔ q = p ∨ used ls q) as Hused.
  { intros q. split.
    - intros (j & l' & Hj & Hq). apply list_lookup_insert_Some in Hj as [(<- & <- & _)|[Hne Hj]]; [|right; by exists j, l'].
      apply elem_of_cons in Hq as [->|Hq]; [by left|right; by exists i, l].
    - intros [->|(j & l' & Hj & Hq)]; [exists i, (p :: l); rewrite list_lookup_insert_eq by done; split; [done|elem_solve]|].
      destruct (decide (i = j)) as [<-|]; [|exists j, l'; by rewrite list_lookup_insert_ne].
      exists i, (p :: l). rewrite list_lookup_insert_eq by done. split; [done|]. simplify_eq. elem_solve. }
  assert (∀ q k d, entry A' (<[i := p :: l]> ls) q k d ↔ (q = p ∧ live_of b = Some (k, d)) ∨ entry A ls q k d) as He.
  { intros q k d. unfold entry. rewrite Hused. cbn [im_heap set_heads A']. split.
    - intros [[->|Hq] (c & Hc & Hlv)]; [simplify_eq; by left|right; eauto].
    - intros [[-> Hlv]|[Hq Hc]]; eauto. }
  split; [|done]. split; unfold A'; cbn [im_heap im_free im_heads set_heads].
  - apply W.
  - by eapply wf_free_magic.
  - by rewrite !length_insert, (wf_len _ _ _ W).
  - intros j w l' Hw Hj. apply list_lookup_insert_Some in Hj as [(<- & <- & _)|[Hne Hj]].
    + rewrite list_lookup_insert_eq in Hw by (by rewrite <- (wf_len _ _ _ W)). simplify_eq.
      econstructor; [done..|]. by eapply wf_chain.
    + rewrite list_lookup_insert_ne in Hw by done. by eapply wf_chain.
  - intros j l' q Hj Hq. apply list_lookup_insert_Some in Hj as [(<- & <- & _)|[Hne Hj]]; [|by eapply wf_used].
    apply elem_of_cons in Hq as [->|Hq]; [eauto|by eapply wf_used].
  - intros q q' k d d' [[-> E1]|E1]%He [[-> E2]|E2]%He; [done| | |by eapply wf_unique]; by edestruct Hk.
Qed.

(** A free record on no list becomes the head of the free list. *)
Lemma wf_push A fl ls p b :
  wf A fl ls → p ∉ fl → ¬ used ls p → p ≠ 0 → next (b_rec b) = im_free A → magic (b_rec b) = TDB_FREE_MAGIC →
  let A' := set_free (set_heap A (<[p := b]> (im_heap A))) p in
  wf A' (p :: fl) ls ∧ ∀ q k d, entry A' ls q k d ↔ entry A ls q k d.
Proof.
  intros W Hfl Hu Hp Hn Hm A'.
  destruct (wf_float A fl ls p (<[p := b]> (im_heap A))) as [[F FM FL FC FU FQ] He]; [done..|by intros; apply lookup_insert_ne|].
  split; [|done]. split; [|intros q Hq|done..].
  - econstructor; [done|apply lookup_insert_eq|]. by rewrite Hn.
  - apply elem_of_cons in Hq as [->|Hq]; [|by apply FM]. exists b. split; [apply lookup_insert_eq|done].
Qed.

(** A free record changes its size. *)
Lemma wf_resize A fl ls p b b' :
  wf A fl ls → im_heap A !! p = Some b → magic (b_rec b) = TDB_FREE_MAGIC →
  next (b_rec b') = next (b_rec b) → magic (b_rec b') = TDB_FREE_MAGIC →
  let A' := set_heap A (<[p := b']> (im_heap A)) in
  wf A' fl ls ∧ ∀ q k d, entry A' ls q k d ↔ entry A ls q k d.
Proof.
  intros W Hb Hm Hn Hm' A'.
  assert (∀ i l q, ls !! i = Some l → q ∈ l → q ≠ p) as Hnu.
  { intros i l q Hl Hq ->. destruct (wf_used _ _ _ W _ _ _ Hl Hq) as (c & Hc & Hu). simplify_eq. by apply used_not_free in Hu. }
  assert (∀ q k d, entry A' ls q k d ↔ entry A ls q k d) as He.
  { intros q k d. unfold entry, A'. cbn [im_heap set_heap]. split; intros [Hq Hc]; (split; [done|]); destruct Hq as (i & l & Hl & Hq).
    - rewrite lookup_insert_ne in Hc; [done|]. by intros <-; eapply Hnu.
    - rewrite lookup_insert_ne; [done|]. by intros <-; eapply Hnu. }
  split; [|done]. split; unfold A'; cbn [im_heap im_free im_heads set_heap].
  - eapply chain_insert_next; [by apply W|done..].
  - intros q Hq. destruct (decide (p = q)) as [<-|]; [rewrite lookup_insert_eq; eauto|].
    rewrite lookup_insert_ne by done. by eapply wf_free_magic.
  - apply W.
  - intros j v l' Hv Hl'. eapply chain_insert_next; [by eapply wf_chain|done..].
  - intros i l q Hl Hq. rewrite lookup_insert_ne; [by eapply wf_used|]. by intros <-; eapply Hnu.
  - intros q q' k d d' E1 E2. apply (wf_unique _ _ _ W _ _ k d d'); by apply He.
Qed.

(** [p] leaves the free list. *)
Lemma wf_free_unlink_head A fl ls p b :
  wf A (p :: fl) ls → im_heap A !! p = Some b →
  let A' := set_free A (next (b_rec b)) in
  wf A' fl ls ∧ (∀ q k d, entry A' ls q k d ↔ entry A ls q k d) ∧ p ∉ fl.
Proof.
  intros [F FM FL FC FU FQ] Hb A'. split; [|split; [done|]].
  - split; [|intros q Hq; apply FM; elem_solve|done..]. by eapply (chain_next _ _ []).
  - apply chain_NoDup in F. by apply NoDup_cons in F as [? _].
Qed.

Lemma wf_free_unlink_prev A ls l0 q l2 p b bq :
  wf A (l0 ++ q :: p :: l2) ls → im_heap A !! p = Some b → im_heap A !! q = Some bq →
  let A' := set_heap A (<[q := mk_block (set_next (b_rec bq) (next (b_rec b))) (b_body bq)]> (im_heap A)) in
  wf A' (l0 ++ q :: l2) ls ∧ (∀ q k d, entry A' ls q k d ↔ entry A ls q k d) ∧ p ∉ l0 ++ q :: l2.
Proof.
  intros W Hb Hq A'. set (bq' := mk_block (set_next (b_rec bq) (next (b_rec b))) (b_body bq)) in *.
  assert (magic (b_rec bq) = TDB_FREE_MAGIC) as Hm.
  { destruct (wf_free_magic _ _ _ W q) as (c & Hc & ?); [elem_solve|congruence]. }
  pose proof (chain_NoDup _ _ _ (wf_free _ _ _ W)) as Hnd.
  assert (¬ used ls q) as Hnu. { intros Hu. eapply wf_free_used; [done| |done]. elem_solve. }
  (* the chains do not see the free list *)
  assert (wf (set_free A 0) [] ls) as W0.
  { destruct W. split; [constructor|by intros ? ?%not_elem_of_nil|done..]. }
  destruct (wf_float (set_free A 0) [] ls q (<[q := bq']> (im_heap A)) W0) as [[_ _ FL FC FU FQ] He];
    [by intros ?%not_elem_of_nil|done|by intros; apply lookup_insert_ne|].
  split; [|split; [done|]].
  - split; [|intros x Hx|done..].
    + eapply chain_unlink; [by apply W|done..].
    + cbn [im_heap set_heap A']. destruct (decide (q = x)) as [<-|].
      * exists bq'. split; [apply lookup_insert_eq|done].
      * rewrite lookup_insert_ne by done. eapply wf_free_magic; [done|]. elem_solve.
  - apply NoDup_app in Hnd as (_ & Hd & Hnd). intros [Hp|Hp]%elem_of_app; [apply (Hd _ Hp); elem_solve|].
    apply NoDup_cons in Hnd as [Hq' Hnd]. apply NoDup_cons in Hnd as [Hnd _]. apply elem_of_cons in Hp as [->|Hp]; [elem_solve|done].
Qed.
End wf.
