(* ===== verification/TdbStore.v ===== *)
(** * Operations on well-formed files

    Every operation of the library keeps the invariant of a tdb file, whatever
    locks are refused and whether or not the file can be extended; the lemmas say
    which records it finds, adds and removes. *)
From S2P Require Import Prelude TdbFile TdbLayout TdbChain.
Import Tdb.

Implicit Types (t : tdb_context) (A : image) (b : block) (fl : list Z) (ls : list (list Z)).

(** What an operation does not change: the parameters of the context.  Requests
    are granted once the answers have run out, and the overflow mark stays. *)
Definition params t := (tdb_hash_size t, tdb_flag_seqnum t, tdb_max_dead_records t, tdb_page_size t, tdb_read_only t).
Record frame t t' : Prop := {
  frame_params : params t' = params t;
  frame_env : tdb_env t = [] → tdb_env t' = [];
  frame_overflow : tdb_overflow t = true → tdb_overflow t' = true;
}.
#[export] Instance frame_preorder : PreOrder frame.
Proof.
  split; [by split|]. intros t1 t2 t3 [P1 E1 O1] [P2 E2 O2]. split; [by rewrite P2|auto..].
Qed.

Lemma frame_hash_size t t' : frame t t' → tdb_hash_size t' = tdb_hash_size t.
Proof. intros [[=] _ _]. done. Qed.
Lemma frame_read_only t t' : frame t t' → tdb_read_only t' = tdb_read_only t.
Proof. intros [[=] _ _]. done. Qed.
Lemma frame_max_dead t t' : frame t t' → tdb_max_dead_records t' = tdb_max_dead_records t.
Proof. intros [[=] _ _]. done. Qed.
Lemma frame_flag t t' : frame t t' → tdb_flag_seqnum t' = tdb_flag_seqnum t.
Proof. intros [[=] _ _]. done. Qed.
Lemma frame_page_size t t' : frame t t' → tdb_page_size t' = tdb_page_size t.
Proof. intros [[=] _ _]. done. Qed.
Lemma frame_map t m : frame t (set_tdb_map t m).
Proof. by split. Qed.

(** A request changes nothing but the answers to come. *)
Lemma ask_inv t (ok : bool) t' :
  ask t = (ok, t') → frame t t' ∧ tdb_map t' = tdb_map t ∧ (tdb_env t = [] → ok = true).
Proof.
  unfold ask. destruct (tdb_env t) eqn:E; intros [= <- <-]; [done|].
  split; [split; [done|congruence|done]|done].
Qed.
Lemma tdb_lock_inv held t (ok : bool) t' :
  tdb_lock held t = (ok, t') → frame t t' ∧ tdb_map t' = tdb_map t ∧ (tdb_env t = [] → ok = true).
Proof. destruct held; [|apply ask_inv]. by intros [= <- <-]. Qed.

(** The header of the file. *)
Definition hdr t : bytes := take 168 (tdb_map t).
Lemma hdr_repr t A : is_repr t A → hdr t = im_hdr A.
Proof.
  intros [(bs & Hm & _ & _ & [Hh _ _] & _) _ _]. unfold hdr. rewrite Hm. unfold table_bytes.
  rewrite <- Hh, <- !app_assoc. by rewrite take_app_length.
Qed.
Lemma hdr_map t t' : tdb_map t' = tdb_map t → hdr t' = hdr t.
Proof. unfold hdr. by intros ->. Qed.

Section store.
Context (hash_fn : bytes → Z).
Local Abbreviation key_hash := (key_hash hash_fn).

Record good t A fl ls : Prop := {
  good_repr : is_repr t A;
  good_wf : wf hash_fn (tdb_hash_size t) A fl ls;
  good_all : all_free A fl;
}.

Lemma good_frame t t' A fl ls :
  good t A fl ls → frame t t' → tdb_map t' = tdb_map t → good t' A fl ls.
Proof.
  intros [[R1 R2 R3] W F] Hf Hm. split; [split| |done]; rewrite ?Hm, ?(frame_hash_size _ _ Hf); done.
Qed.
Lemma good_map t m A' fl' ls' :
  is_repr (set_tdb_map t m) A' → wf hash_fn (tdb_hash_size t) A' fl' ls' → all_free A' fl' → good (set_tdb_map t m) A' fl' ls'.
Proof. by split. Qed.

(** The result of an operation: the invariant holds, and [P] of the new image. *)
Definition post t (P : image → list Z → list (list Z) → Prop) t' : Prop :=
  frame t t' ∧ hdr t' = hdr t ∧ ∃ A fl ls, good t' A fl ls ∧ P A fl ls.

Lemma post_mono t0 t t' P Q :
  frame t0 t → hdr t = hdr t0 → post t P t' → (∀ A fl ls, P A fl ls → Q A fl ls) → post t0 Q t'.
Proof.
  intros H0 Hh [Hf (Hh' & A & fl & ls & Hg & HP)] Hi. split; [by transitivity t|]. split; [by rewrite Hh'|].
  exists A, fl, ls. auto.
Qed.

Lemma post_map t A fl ls m A' fl' ls' (P : image → list Z → list (list Z) → Prop) :
  good t A fl ls → good (set_tdb_map t m) A' fl' ls' → im_hdr A' = im_hdr A → P A' fl' ls' →
  post t P (set_tdb_map t m).
Proof.
  intros Hg Hg' Hh HP. split; [apply frame_map|].
  split; [by rewrite (hdr_repr _ _ (good_repr _ _ _ _ Hg)), (hdr_repr _ _ (good_repr _ _ _ _ Hg'))|]. by exists A', fl', ls'.
Qed.
Lemma post_refl t A fl ls (P : image → list Z → list (list Z) → Prop) : good t A fl ls → P A fl ls → post t P t.
Proof. intros Hg HP. split; [done|]. split; [done|]. by exists A, fl, ls. Qed.

(** ** Reading records *)

Lemma repr_pos t A p b :
  is_repr t A → im_heap A !! p = Some b → block_ok b ∧ 172 <= p ∧ p + b_size b <= dsize (tdb_map t) ∧ dsize (tdb_map t) < 2 ^ 32.
Proof.
  intros Hir Hp. destruct (repr_block _ _ _ _ (ir_repr _ _ Hir) Hp) as (? & ? & ? & ?).
  unfold data_start in *. split; [done|]. lia.
Qed.

(** The link of a record on a chain is in the file. *)
Lemma next_oob t A v l : is_repr t A → chain (im_heap A) v l → tdb_oob t v sizeof_rec = true.
Proof.
  intros Hir Hc. destruct (repr_size _ _ (ir_repr _ _ Hir)) as [? ?]. unfold data_start in *.
  inversion Hc as [|? b ? ? Hb]; subst.
  - apply tdb_oob_in; unfold tdb_map_size, sizeof_rec; lia.
  - destruct (repr_pos _ _ _ _ Hir Hb) as (_ & ? & ? & ?). pose proof (b_size_pos b).
    apply tdb_oob_in; unfold tdb_map_size, sizeof_rec; lia.
Qed.

Lemma rec_read_used t A p l b i :
  is_repr t A → chain (im_heap A) p (p :: l) → im_heap A !! p = Some b →
  used_ok hash_fn (tdb_hash_size t) i b → tdb_rec_read t p = Some (b_rec b).
Proof.
  intros Hir Hc Hb Hu. unfold tdb_rec_read. rewrite (read_rec _ _ _ _ Hir Hb). cbn [mbind option_bind].
  destruct (repr_pos _ _ _ _ Hir Hb) as ([Hok _] & _). rewrite rec_of_rec_bytes by done.
  assert (TDB_BAD_MAGIC (b_rec b) = false) as ->.
  { unfold TDB_BAD_MAGIC, TDB_DEAD. destruct (uo_magic _ _ _ _ Hu) as [-> | ->]; done. }
  by rewrite (next_oob t A _ l Hir) by (by eapply (chain_next _ _ [])).
Qed.

Lemma rec_free_read t A p l b :
  is_repr t A → chain (im_heap A) p (p :: l) → im_heap A !! p = Some b →
  magic (b_rec b) = TDB_FREE_MAGIC → tdb_rec_free_read t p = (Some (b_rec b), t).
Proof.
  intros Hir Hc Hb Hm. unfold tdb_rec_free_read. rewrite (read_rec _ _ _ _ Hir Hb).
  destruct (repr_pos _ _ _ _ Hir Hb) as ([Hok _] & _). rewrite rec_of_rec_bytes by done.
  rewrite Hm. change (TDB_FREE_MAGIC =? TDB_MAGIC) with false. cbn [negb]. rewrite Hm, Z.eqb_refl. cbn [negb].
  by rewrite (next_oob t A _ l Hir) by (by eapply (chain_next _ _ [])).
Qed.

(** Key and data of a record. *)
Lemma read_key t A p b :
  is_repr t A → im_heap A !! p = Some b → key_len (b_rec b) + data_len (b_rec b) + 4 <= rec_len (b_rec b) →
  tdb_parse_data t (p + sizeof_rec) (key_len (b_rec b)) = Some (block_key b)
  ∧ dsize (block_key b) = key_len (b_rec b).
Proof.
  intros Hir Hb Hfit. destruct (repr_pos _ _ _ _ Hir Hb) as ([[? ? Hk Hd ? ?] Hbl] & ? & ? & ?).
  unfold is_u32, b_size in *. split.
  - unfold tdb_parse_data. rewrite u32_id by (unfold is_u32, sizeof_rec; lia).
    pose proof (read_body t A p b 0 (key_len (b_rec b)) Hir Hb) as R. rewrite Z.add_0_r in R. apply R; lia.
  - unfold block_key, dsize in *. rewrite length_take. lia.
Qed.
Lemma read_data t A p b :
  is_repr t A → im_heap A !! p = Some b → key_len (b_rec b) + data_len (b_rec b) + 4 <= rec_len (b_rec b) →
  tdb_read t (u32 (p + sizeof_rec + key_len (b_rec b))) (data_len (b_rec b)) = Some (block_data b)
  ∧ dsize (block_data b) = data_len (b_rec b).
Proof.
  intros Hir Hb Hfit. destruct (repr_pos _ _ _ _ Hir Hb) as ([[? ? Hk Hd ? ?] Hbl] & ? & ? & ?).
  unfold is_u32, b_size in *. split.
  - rewrite u32_id by (unfold is_u32, sizeof_rec; lia). apply (read_body t A p b); [done|done|lia..].
  - unfold block_data, slice, dsize in *. rewrite length_take, length_drop. lia.
Qed.

(** ** [tdb_find] *)

Inductive found A ls (i : nat) (key : bytes) : find_result → Prop :=
| found_at l1 p l2 b d :
    ls !! i = Some (l1 ++ p :: l2) → im_heap A !! p = Some b → live_of b = Some (key, d) →
    found A ls i key (FindAt p (b_rec b))
| found_none :
    (∀ q d, ¬ entry A ls q key d) → found A ls i key FindNoexist.

(** The test of the loop: is this the live record of the key? *)
Lemma find_test t A p b i key :
  is_repr t A → im_heap A !! p = Some b → used_ok hash_fn (tdb_hash_size t) i b →
  negb (TDB_DEAD (b_rec b)) && (key_hash key =? full_hash (b_rec b)) && (dsize key =? key_len (b_rec b))
    && bool_decide (tdb_parse_data t (p + sizeof_rec) (key_len (b_rec b)) = Some key)
  = bool_decide (fst <$> live_of b = Some key).
Proof.
  intros Hir Hb Hu. destruct (read_key _ _ _ _ Hir Hb (uo_fit _ _ _ _ Hu)) as [-> Hsz].
  destruct Hu as [Hm Hh _ _]. unfold TDB_DEAD. unfold live_of. destruct Hm as [Hm|Hm]; rewrite Hm.
  - specialize (Hh Hm). change (TDB_MAGIC =? TDB_DEAD_MAGIC) with false. rewrite Z.eqb_refl. cbn [negb andb].
    destruct (decide (key = block_key b)) as [->|Hne].
    + by rewrite <- Hh, Hsz, !Z.eqb_refl.
    + cbn [fmap option_fmap option_map fst]. rewrite (bool_decide_false (Some _ = Some _)) by congruence. apply andb_false_r.
  - change (TDB_DEAD_MAGIC =? TDB_MAGIC) with false. rewrite Z.eqb_refl. cbn [negb andb].
    done.
Qed.

Lemma find_from_found fuel t A fl ls i l1 l2 v key :
  good t A fl ls → ls !! i = Some (l1 ++ l2) → i = bucket t (key_hash key) → chain (im_heap A) v l2 →
  (length l2 < fuel)%nat → (∀ q d, q ∈ l1 → ¬ entry A ls q key d) →
  found A ls i key (find_from fuel t key (key_hash key) v).
Proof.
  intros Hg Hl Hi. revert l1 l2 v Hl. induction fuel as [|fuel IH]; intros l1 l2 v Hl Hc Hlen Hno; [lia|]. cbn [find_from].
  inversion Hc as [|p b l Hp Hb Hc']; subst.
  - apply found_none. intros q d He. apply (Hno q d); [|done]. destruct He as [(j & l & Hj & Hq) (b & Hb & Hlv)].
    rewrite app_nil_r in Hl. destruct (wf_used _ _ _ _ _ (good_wf _ _ _ _ Hg) _ _ _ Hj Hq) as (b' & Hb' & [Hm Hh Hbk _]).
    simplify_eq. unfold live_of in Hlv. case_hyp Hlv; [|done]. zbool. apply (inj Some) in Hlv. injection Hlv as <- <-.
    rewrite Hh in Hj by done. unfold bucket, BUCKET in Hl. by simplify_eq.
  - rewrite (proj2 (Z.eqb_neq _ _)) by done.
    destruct (wf_used _ _ _ _ _ (good_wf _ _ _ _ Hg) _ _ v Hl) as (b' & Hb' & Hu); [elem_solve|]. simplify_eq.
    rewrite (rec_read_used _ _ _ _ _ _ (good_repr _ _ _ _ Hg) Hc Hb Hu).
    rewrite (find_test _ _ _ _ _ _ (good_repr _ _ _ _ Hg) Hb Hu).
    destruct (bool_decide _) eqn:E; zbool; [apply fmap_Some in E as ([k d] & Hd & ->); by eapply found_at|].
    assert (v ≠ next (b_rec b)).
    { intros En. rewrite <- En in Hc'. inversion Hc'; subst; [done|]. apply chain_NoDup in Hc as Hnd.
      apply NoDup_cons in Hnd as [Hn _]. elem_solve. }
    rewrite (proj2 (Z.eqb_neq _ _)) by done. apply (IH (l1 ++ [v]) l); [by rewrite <- app_assoc|done|cbn in Hlen; lia|].
    intros q d [Hq| ->%list_elem_of_singleton]%elem_of_app; [by apply Hno|].
    intros [_ (c & Hc2 & Hlv)]. simplify_eq. by rewrite Hlv in E.
Qed.

Lemma tdb_find_found t A fl ls key :
  good t A fl ls → found A ls (bucket t (key_hash key)) key (tdb_find t key (key_hash key)).
Proof.
  intros Hg. unfold tdb_find. destruct (bucket_lookup _ _ (key_hash key) (good_repr _ _ _ _ Hg)) as [v Hv].
  rewrite (read_head _ _ _ _ (good_repr _ _ _ _ Hg) Hv).
  destruct (lookup_lt_is_Some_2 ls (bucket t (key_hash key))) as [l Hl].
  { rewrite (wf_len _ _ _ _ _ (good_wf _ _ _ _ Hg)). by eapply lookup_lt_Some. }
  assert (chain (im_heap A) v l) as Hc by (eapply wf_chain; [by apply Hg|done..]).
  eapply (find_from_found _ _ _ _ _ _ [] l); [done..| |by intros ? ? ?%not_elem_of_nil].
  by eapply chain_fuel_enough; [apply Hg|].
Qed.

(** What a file holds: the value [fetch_locked] finds. *)
Lemma fetch_entry t A fl ls key d :
  good t A fl ls → fetch_locked hash_fn t key = Some d ↔ ∃ q, entry A ls q key d.
Proof.
  intros Hg. unfold fetch_locked. destruct (tdb_find_found t A fl ls key Hg) as [l1 p l2 b d0 Hl Hb Hd|Hno].
  - destruct (wf_used _ _ _ _ _ (good_wf _ _ _ _ Hg) _ _ p Hl) as (b' & Hb' & Hu); [elem_solve|]. simplify_eq.
    destruct (read_data _ _ _ _ (good_repr _ _ _ _ Hg) Hb (uo_fit _ _ _ _ Hu)) as [-> _].
    assert (block_data b = d0) as ->.
    { unfold live_of in Hd. case_hyp Hd; [|done]. apply (inj Some) in Hd. by injection Hd. }
    assert (entry A ls p key d0) as He.
    { split; [exists (bucket t (key_hash key)), (l1 ++ p :: l2); split; [done|elem_solve]|]. by exists b. }
    split; [intros [= ->]; by exists p|]. intros [q Hq]. f_equal.
    pose proof (wf_unique _ _ _ _ _ (good_wf _ _ _ _ Hg) _ _ _ _ _ He Hq) as <-.
    destruct He as [_ (? & ? & ?)], Hq as [_ (? & ? & ?)]. congruence.
  - split; [done|]. intros [q Hq]. by apply Hno in Hq.
Qed.

Lemma exists_entry t A fl ls key :
  good t A fl ls → exists_locked t key (key_hash key) = true ↔ ∃ q d, entry A ls q key d.
Proof.
  intros Hg. unfold exists_locked. destruct (tdb_find_found t A fl ls key Hg) as [l1 p l2 b d0 Hl Hb Hd|Hno].
  - split; [intros _|done]. exists p, d0. split; [|by exists b].
    exists (bucket t (key_hash key)), (l1 ++ p :: l2). split; [done|elem_solve].
  - split; [done|]. intros (q & d & Hq). by apply Hno in Hq.
Qed.

(** ** Deleting a record *)

Lemma find_prev_found fuel t A fl ls i a c p l2 v :
  good t A fl ls → ls !! i = Some (a ++ c ++ p :: l2) → chain (im_heap A) v (c ++ p :: l2) →
  (length c < fuel)%nat →
  find_prev fuel t p (default 0 (last a)) v = Some (default 0 (last (a ++ c))).
Proof.
  intros Hg. revert a c v. induction fuel as [|fuel IH]; intros a c v Hl Hc Hlen; [lia|]. cbn [find_prev].
  destruct c as [|x c].
  - inversion Hc; subst. by rewrite Z.eqb_refl, app_nil_r.
  - inversion Hc as [|? b ? ? Hb Hc']; subst.
    assert (x ≠ p). { apply chain_NoDup, NoDup_cons in Hc as [Hn _]. intros ->. apply Hn. elem_solve. }
    rewrite (proj2 (Z.eqb_neq _ _)) by done.
    destruct (wf_used _ _ _ _ _ (good_wf _ _ _ _ Hg) _ _ x Hl) as (b' & Hb' & Hu); [elem_solve|]. simplify_eq.
    rewrite (rec_read_used _ _ _ _ _ _ (good_repr _ _ _ _ Hg) Hc Hb Hu). cbn [mbind option_bind].
    specialize (IH (a ++ [x]) c (next (b_rec b))). rewrite last_snoc in IH. cbn [default id from_option] in IH. rewrite <- !app_assoc in IH.
    cbn [app] in IH. apply IH; [done|done|cbn in Hlen; lia].
Qed.

(** The word that links to the record behind [l1] in the chain of [hash]. *)
Definition link_ptr t (hash : Z) (l1 : list Z) : Z :=
  if default 0 (last l1) =? 0 then TDB_HASH_TOP t hash else default 0 (last l1).

Lemma unlink_record t A fl ls i l1 p l2 b :
  good t A fl ls → tdb_read_only t = false → ls !! i = Some (l1 ++ p :: l2) → im_heap A !! p = Some b →
  ∃ m A', tdb_ofs_write t (link_ptr t (full_hash (b_rec b)) l1) (next (b_rec b)) = (true, set_tdb_map t m)
    ∧ good (set_tdb_map t m) A' fl (<[i := l1 ++ l2]> ls)
    ∧ im_hdr A' = im_hdr A ∧ (∀ q k d, entry A' (<[i := l1 ++ l2]> ls) q k d ↔ q ≠ p ∧ entry A ls q k d)
    ∧ im_heap A' !! p = Some b ∧ ¬ used (<[i := l1 ++ l2]> ls) p ∧ p ∉ fl.
Proof.
  intros [Hir W Fa] Hro Hl Hb. assert (p ∉ fl) as Hfl.
  { intros Hp. eapply wf_free_used; [done..|]. exists i, (l1 ++ p :: l2). split; [done|elem_solve]. }
  destruct (wf_used _ _ _ _ _ W _ _ p Hl) as (b' & Hb' & Hu); [elem_solve|]. simplify_eq.
  destruct (repr_pos _ _ _ _ Hir Hb) as ([[Hnx _ _ _ _ _] _] & _).
  unfold link_ptr. destruct l1 as [|q l1 _] using rev_ind.
  - cbn [last default id from_option]. rewrite Z.eqb_refl.
    assert (bucket t (full_hash (b_rec b)) = i) as Hbk by apply Hu.
    destruct (write_head t A (full_hash (b_rec b)) (next (b_rec b)) Hir Hro Hnx) as (m & E & Hir').
    rewrite Hbk in Hir'. destruct (wf_unlink_head _ _ _ _ _ _ _ _ _ W Hl Hb) as (W' & He & Hnu).
    exists m. eexists. split; [done|]. split; [by apply good_map|]. done.
  - rewrite last_snoc. cbn [default id from_option]. rewrite <- app_assoc in Hl. cbn [app] in Hl.
    destruct (lookup_lt_is_Some_2 (im_heads A) i) as [v Hv].
    { rewrite <- (wf_len _ _ _ _ _ W). by eapply lookup_lt_Some. }
    pose proof (wf_chain _ _ _ _ _ W _ _ _ Hv Hl) as Hc.
    destruct (chain_lookup _ _ _ q Hc) as [Hq0 [bq Hq]]; [elem_solve|]. rewrite (proj2 (Z.eqb_neq _ _)) by done.
    destruct (write_next t A q bq (next (b_rec b)) Hir Hro Hq Hnx) as (m & E & Hir').
    destruct (wf_unlink_prev _ _ _ _ _ _ _ _ _ _ _ _ W Hl Hb Hq) as (W' & He & Hnu).
    destruct (wf_used _ _ _ _ _ W _ _ q Hl) as (bq' & Hbq' & Huq); [elem_solve|]. simplify_eq.
    rewrite <- !app_assoc. cbn [app]. exists m. eexists. split; [done|]. split.
    { apply good_map; [done..|]. apply all_free_insert; [done|]. by intros []%(used_not_free _ _ _ _ Huq). }
    split; [done|].
    split; [done|]. split; [|done]. cbn. apply chain_NoDup in Hc. rewrite lookup_insert_ne; [done|]. intros ->.
    apply NoDup_app in Hc as (_ & _ & [Hn _]%NoDup_cons). elem_solve.
Qed.

(** The invariant after [tdb_free]: the space is on the free list. *)
Lemma freed_good t A fl ls off r A' m :
  wf hash_fn (tdb_hash_size t) A fl ls → all_free A fl → off ∉ fl → ¬ used ls off → off ≠ 0 → 0 <= rec_len r →
  (∀ p b, im_heap A !! p = Some b → block_ok b) → freed A off r A' → is_repr (set_tdb_map t m) A' →
  im_hdr A' = im_hdr A ∧ (∀ q k d, entry A' ls q k d ↔ entry A ls q k d)
  ∧ ∃ fl' p b, good (set_tdb_map t m) A' fl' ls ∧ p ∈ fl' ∧ im_heap A' !! p = Some b ∧ rec_len r <= rec_len (b_rec b).
Proof.
  intros W Fa Hfl Hnu H0 Hr Hok Hfr Hir. destruct Hfr as [body Hb'|lft l body Hl Hm Hoff Hb'].
  - destruct (wf_push _ _ _ _ _ off (mk_block (set_next (set_magic r TDB_FREE_MAGIC) (im_free A)) body) W) as [W' He']; [done..|].
    split; [done|]. split; [done|]. do 3 eexists. split; [apply good_map; [done..|by apply all_free_push]|].
    split; [apply list_elem_of_here|]. split; [apply lookup_insert_eq|]. cbn. lia.
  - destruct (wf_resize _ _ _ _ _ lft l (mk_block (merged (b_rec l) r) body) W Hl Hm) as [W' He']; [done|done|].
    split; [done|]. split; [done|]. pose proof (Fa _ _ Hl Hm) as Hin. destruct (Hok _ _ Hl) as [_ Hll]. pose proof (dsize_nonneg (b_body l)).
    do 3 eexists. split; [apply good_map; [done..|by apply all_free_insert]|].
    split; [done|]. split; [apply lookup_insert_eq|]. cbn. unfold sizeof_rec. lia.
Qed.

(** A record on no list is freed. *)
Lemma free_record held t A fl ls p b r ok t' :
  good t A fl ls → tdb_read_only t = false → im_heap A !! p = Some b → ¬ used ls p → p ∉ fl →
  rec_ok r → rec_len r = rec_len (b_rec b) → tdb_free held t p r = (ok, t') →
  post t (λ A' _ ls', ls' = ls ∧ ∀ q k d, entry A' ls q k d ↔ entry A ls q k d) t'
  ∧ (tdb_env t = [] → ok = true).
Proof.
  intros Hg Hro Hb Hnu Hfl Hok Hlen. rewrite tdb_free_lock.
  destruct (tdb_lock held t) as [ok1 t1] eqn:El. apply tdb_lock_inv in El as (Hf1 & Hm1 & Hok1).
  pose proof (good_frame _ _ _ _ _ Hg Hf1 Hm1) as Hg1.
  destruct ok1; intros E.
  2:{ apply pair_eq in E as [<- <-]. split; [|by intros ?%Hok1]. split; [done|]. split; [by apply hdr_map|]. by exists A, fl, ls. }
  destruct (repr_pos _ _ _ _ (good_repr _ _ _ _ Hg) Hb) as ([Hbok Hbl] & Hp & _). pose proof (dsize_nonneg (b_body b)).
  destruct (wf_float _ _ _ _ _ p (delete p (im_heap A)) (good_wf _ _ _ _ Hg1)) as [W0 He0]; [done..|by intros; apply lookup_delete_ne|].
  pose proof (is_repr_gap _ _ _ _ (good_repr _ _ _ _ Hg1) Hb) as Hgap.
  replace (b_size b) with (24 + rec_len r) in Hgap by (unfold b_size; lia).
  destruct (tdb_free_gap _ _ _ _ Hgap) as (A' & Hfr & m & E2 & Hir'); [by rewrite (frame_read_only _ _ Hf1)|lia|done|].
  rewrite E2 in E. apply pair_eq in E as [<- <-]. split; [|done].
  eapply (post_mono t t1 _ (λ A' _ ls', ls' = ls ∧ ∀ q k d, entry A' ls q k d ↔ entry A ls q k d)); [done|by apply hdr_map| |done].
  destruct (freed_good t1 _ fl ls p r A' m W0) as (Hh & He & fl' & _ & _ & Hg' & _);
    [apply all_free_delete, Hg1|done|done|lia|lia| |done|done|].
  { intros q c Hq. cbn in Hq. apply lookup_delete_Some in Hq as [_ Hq]. by apply (repr_pos _ _ _ _ (good_repr _ _ _ _ Hg) Hq). }
  eapply post_map; [done..|]. split; [done|]. intros q k d. by rewrite He, He0.
Qed.

(** A record is marked dead. *)
Lemma mark_dead t A fl ls i l1 p l2 b :
  good t A fl ls → tdb_read_only t = false → ls !! i = Some (l1 ++ p :: l2) → im_heap A !! p = Some b →
  ∃ m A', tdb_rec_write t p (set_magic (b_rec b) TDB_DEAD_MAGIC) = (true, set_tdb_map t m)
    ∧ good (set_tdb_map t m) A' fl ls ∧ im_hdr A' = im_hdr A
    ∧ ∀ q k d, entry A' ls q k d ↔ q ≠ p ∧ entry A ls q k d.
Proof.
  intros Hg Hro Hl Hb.
  destruct (wf_used _ _ _ _ _ (good_wf _ _ _ _ Hg) _ _ p Hl) as (b0 & Hb' & Hu); [elem_solve|]. simplify_eq.
  destruct (repr_pos _ _ _ _ (good_repr _ _ _ _ Hg) Hb) as ([Hbok Hbl] & Hp & _).
  set (b' := mk_block (set_magic (b_rec b) TDB_DEAD_MAGIC) (b_body b)).
  destruct (write_rec t A p b (set_magic (b_rec b) TDB_DEAD_MAGIC) (good_repr _ _ _ _ Hg)) as (m & E2 & Hir'); [done..| |done|].
  { destruct Hbok. by split. }
  destruct (wf_set_block _ _ _ _ _ i (l1 ++ p :: l2) p b b' (good_wf _ _ _ _ Hg)) as [W' He']; [done|elem_solve|done|done| | |].
  { destruct Hu as [_ _ ? ?]. split; cbn; [by right|done|done|done]. }
  { intros q k d d'. unfold live_of. cbn. done. }
  exists m, (set_heap A (<[p := b']> (im_heap A))). split; [done|].
  split; [by apply good_map; [..|apply all_free_insert; [apply Hg|]]|]. split; [done|]. intros q k d. rewrite He'. split; [by intros [[_ [=]]|?]|by right].
Qed.

(** [tdb_do_delete] removes the record from its chain or marks it dead; the rest
    of the chain stays behind it. *)
Lemma do_delete_record held t A fl ls i l1 p l2 b ok t' :
  good t A fl ls → tdb_read_only t = false → ls !! i = Some (l1 ++ p :: l2) → im_heap A !! p = Some b →
  tdb_do_delete held t p (b_rec b) = (ok, t') →
  post t (λ A' _ ls', (∃ l1', ls' = <[i := l1' ++ l2]> ls) ∧ ∀ q k d, entry A' ls' q k d ↔ q ≠ p ∧ entry A ls q k d) t'
  ∧ (tdb_env t = [] → ok = true).
Proof.
  intros Hg Hro Hl Hb. unfold tdb_do_delete. rewrite Hro.
  destruct (ask t) as [ok1 t1] eqn:Ea. apply ask_inv in Ea as (Hf1 & Hm1 & Hok1).
  pose proof (good_frame _ _ _ _ _ Hg Hf1 Hm1) as Hg1. pose proof Hro as Hro1. rewrite <- (frame_read_only _ _ Hf1) in Hro1.
  destruct (wf_used _ _ _ _ _ (good_wf _ _ _ _ Hg1) _ _ p Hl) as (b' & Hb' & Hu); [elem_solve|]. simplify_eq.
  destruct (repr_pos _ _ _ _ (good_repr _ _ _ _ Hg) Hb) as ([Hbok _] & _).
  destruct ok1; cbn [negb].
  2:{ intros E. split; [|by intros ?%Hok1].
    destruct (mark_dead _ _ _ _ _ _ _ _ _ Hg1 Hro1 Hl Hb) as (m & A' & E2 & Hg2 & Hh2 & He2).
    rewrite E2 in E. apply pair_eq in E as [<- <-].
    eapply (post_mono t t1); [done|by apply hdr_map|by apply (post_map t1 A fl ls m A' fl ls (λ A0 _ ls0, A0 = A' ∧ ls0 = ls))|].
    intros ? ? ? [-> ->]. split; [exists (l1 ++ [p])|done]. rewrite <- app_assoc. cbn [app]. by rewrite list_insert_id. }
  destruct (bucket_lookup _ _ (full_hash (b_rec b)) (good_repr _ _ _ _ Hg1)) as [v Hv].
  rewrite (read_head _ _ _ _ (good_repr _ _ _ _ Hg1) Hv).
  assert (bucket t1 (full_hash (b_rec b)) = i) as Hbk by apply Hu. rewrite Hbk in Hv.
  pose proof (wf_chain _ _ _ _ _ (good_wf _ _ _ _ Hg1) _ _ _ Hv Hl) as Hc.
  pose proof (chain_fuel_enough _ _ _ _ (good_repr _ _ _ _ Hg1) Hc) as Hfu. rewrite length_app in Hfu.
  pose proof (find_prev_found (chain_fuel t1) t1 A fl ls i [] l1 p l2 v Hg1 Hl Hc ltac:(lia)) as Hfp. cbn [last default id from_option app] in Hfp.
  rewrite Hfp. destruct (unlink_record t1 A fl ls i l1 p l2 b Hg1 Hro1 Hl Hb) as (m & A' & E2 & Hg2 & Hh2 & He2 & Hb2 & Hnu & Hnf).
  unfold link_ptr in E2. rewrite E2. cbn [negb]. intros E.
  destruct (free_record held _ _ _ _ _ _ _ _ _ Hg2 Hro1 Hb2 Hnu Hnf Hbok eq_refl E) as [Hpost Hok2].
  split; [|intros He; apply Hok2; by apply Hf1].
  eapply (post_mono t); [transitivity t1; [done|apply frame_map]| |done|].
  { rewrite (hdr_repr _ _ (good_repr _ _ _ _ Hg2)), Hh2. symmetry. apply (hdr_repr _ _ (good_repr _ _ _ _ Hg)). }
  intros A2 fl2 ls2 [-> He3]. split; [by exists l1|]. intros q k d. by rewrite He3, He2.
Qed.

(** ** Purging dead records *)

(** The new image stores the same pairs at the same places. *)
Definition same_entries A ls : image → list Z → list (list Z) → Prop :=
  λ A' _ ls', ∀ q k d, entry A' ls' q k d ↔ entry A ls q k d.

Lemma post_trans t A fl ls t1 t2 :
  post t (same_entries A ls) t1 →
  (∀ A1 fl1 ls1, good t1 A1 fl1 ls1 → post t1 (same_entries A1 ls1) t2) → post t (same_entries A ls) t2.
Proof.
  intros [Hf (Hh & A1 & fl1 & ls1 & Hg1 & He1)] H2.
  eapply post_mono; [done|done|exact (H2 _ _ _ Hg1)|].
  intros A2 fl2 ls2 He2 q k d. unfold same_entries in *. by rewrite He2, He1.
Qed.

(** The end of a chain starts where it did. *)
Lemma chain_suffix t A fl ls i l1 l H x :
  good t A fl ls → ls !! i = Some (l1 ++ l) → chain H x l → chain (im_heap A) x l.
Proof.
  intros Hg Hl Hc. destruct (lookup_lt_is_Some_2 (im_heads A) i) as [w Hw].
  { rewrite <- (wf_len _ _ _ _ _ (good_wf _ _ _ _ Hg)). by eapply lookup_lt_Some. }
  pose proof (wf_chain _ _ _ _ _ (good_wf _ _ _ _ Hg) _ _ _ Hw Hl) as Hcw.
  inversion Hc; subst; [constructor|]. by eapply chain_app.
Qed.

Lemma purge_from_entries fuel t A fl ls i l1 l2 v ok t' :
  good t A fl ls → tdb_read_only t = false → ls !! i = Some (l1 ++ l2) → chain (im_heap A) v l2 →
  (length l2 < fuel)%nat → purge_from fuel t v = (ok, t') →
  post t (same_entries A ls) t' ∧ (tdb_env t = [] → ok = true).
Proof.
  revert t A fl ls l1 l2 v. induction fuel as [|fuel IH]; intros t A fl ls l1 l2 v Hg Hro Hl Hc Hlen; [lia|]. cbn [purge_from].
  inversion Hc as [|p b l Hp Hb Hc']; subst.
  { intros [= <- <-]. split; [|done]. by eapply post_refl. }
  rewrite (proj2 (Z.eqb_neq _ _)) by done.
  destruct (wf_used _ _ _ _ _ (good_wf _ _ _ _ Hg) _ _ v Hl) as (b' & Hb' & Hu); [elem_solve|]. simplify_eq.
  rewrite (rec_read_used _ _ _ _ _ _ (good_repr _ _ _ _ Hg) Hc Hb Hu). cbn [length] in Hlen.
  destruct (magic (b_rec b) =? TDB_DEAD_MAGIC) eqn:Em; zbool.
  2:{ intros E. apply (IH t A fl ls (l1 ++ [v]) l (next (b_rec b))); [done|done|by rewrite <- app_assoc|done|lia|done]. }
  destruct (tdb_do_delete true t v (b_rec b)) as [ok1 t1] eqn:Ed.
  eapply (do_delete_record true t A fl ls i l1 v l b) in Ed as [Hpost Hok1]; [|done..].
  assert (∀ k d, ¬ entry A ls v k d) as Hdead.
  { intros k d [_ (c & Hc2 & Hlv)]. simplify_eq. unfold live_of in Hlv. by rewrite Em in Hlv. }
  destruct Hpost as [Hf (Hh & A1 & fl1 & ls1 & Hg1 & [l1' Els1] & He1)].
  assert (ls1 !! i = Some (l1' ++ l)) as Hl1'.
  { rewrite Els1. apply list_lookup_insert_eq. by eapply lookup_lt_Some. }
  assert (post t (same_entries A ls) t1) as Hpost.
  { split; [done|]. split; [done|]. exists A1, fl1, ls1. split; [done|]. intros q k d. rewrite He1.
    split; [tauto|]. intros He. split; [|done]. intros ->. by eapply Hdead. }
  destruct ok1.
  2:{ intros [= <- <-]. split; [done|]. intros He. by apply Hok1 in He. }
  intros E. pose proof (chain_suffix _ _ _ _ _ _ _ _ _ Hg1 Hl1' Hc') as Hc1.
  edestruct (IH t1 A1 fl1 ls1 l1' l) as [Hpost2 Hok2]; [done|by rewrite (frame_read_only _ _ Hf)|done|done|lia|done|].
  split.
  - eapply post_mono; [apply Hf|apply Hh|apply Hpost2|]. intros A2 fl2 ls2 He2 q k d.
    unfold same_entries in He2. rewrite He2, He1. split; [tauto|]. intros He. split; [|done]. intros ->. by eapply Hdead.
  - intros He. apply Hok2. by apply Hf.
Qed.

Lemma purge_dead_entries held t A fl ls hash ok t' :
  good t A fl ls → tdb_read_only t = false → tdb_purge_dead held t hash = (ok, t') →
  post t (same_entries A ls) t' ∧ (tdb_env t = [] → ok = true).
Proof.
  intros Hg Hro. unfold tdb_purge_dead. destruct (tdb_lock held t) as [ok1 t1] eqn:El.
  apply tdb_lock_inv in El as (Hf1 & Hm1 & Hok1). pose proof (good_frame _ _ _ _ _ Hg Hf1 Hm1) as Hg1.
  assert (∀ t2, post t1 (same_entries A ls) t2 → post t (same_entries A ls) t2) as Hmono.
  { intros t2 Hp. eapply post_mono; [done|by apply hdr_map|done|done]. }
  destruct ok1; cbn [negb].
  2:{ intros [= <- <-]. split; [apply Hmono; by eapply post_refl|by intros ?%Hok1]. }
  destruct (bucket_lookup _ _ hash (good_repr _ _ _ _ Hg1)) as [v Hv].
  rewrite (read_head _ _ _ _ (good_repr _ _ _ _ Hg1) Hv).
  destruct (lookup_lt_is_Some_2 ls (bucket t1 hash)) as [l Hl].
  { rewrite (wf_len _ _ _ _ _ (good_wf _ _ _ _ Hg1)). by eapply lookup_lt_Some. }
  pose proof (wf_chain _ _ _ _ _ (good_wf _ _ _ _ Hg1) _ _ _ Hv Hl) as Hc. intros E.
  eapply (purge_from_entries _ t1 A fl ls _ [] l) in E as [Hp Hok2]; [|done|by rewrite (frame_read_only _ _ Hf1)|done|done|by eapply chain_fuel_enough; [apply Hg1|]].
  split; [by apply Hmono|]. intros He. apply Hok2. by apply Hf1.
Qed.

(** ** The sequence number *)

Lemma wf_set_hdr hs A fl ls h : wf hash_fn hs A fl ls → wf hash_fn hs (set_hdr A h) fl ls.
Proof. intros [? ? ? ? ? ?]. by split. Qed.

Lemma seqnum_hdr t A : is_repr t A → tdb_get_seqnum t = hdr_word A 48.
Proof. intros Hir. unfold tdb_get_seqnum. change TDB_SEQNUM_OFS with (Z.of_nat 48). by rewrite (read_hdr _ _ _ Hir) by lia. Qed.

Lemma hdr_word_write A (o o' : nat) v :
  length (im_hdr A) = 168%nat → (o + 4 <= 168)%nat → is_u32 v →
  hdr_word (set_hdr A (write_at (Z.of_nat o) (le_bytes 4 v) (im_hdr A))) o = v
  ∧ ((o' + 4 <= o)%nat → hdr_word (set_hdr A (write_at (Z.of_nat o) (le_bytes 4 v) (im_hdr A))) o' = hdr_word A o').
Proof.
  intros Hl Ho Hv. unfold hdr_word. cbn [im_hdr set_hdr]. unfold write_at. rewrite Nat2Z.id. split.
  - rewrite (slice_app_skip _ _ _ _ 0) by (rewrite length_take; lia).
    rewrite slice_app_first by (by rewrite length_le_bytes). by apply le_val_u32.
  - intros Ho'. f_equal. unfold slice. rewrite drop_app_le by (rewrite length_take; lia).
    rewrite take_app_le by (rewrite length_drop, length_take; lia).
    rewrite skipn_firstn_comm, take_take. f_equal. lia.
Qed.

(** The sequence number changes nothing else; without the flag it stays. *)
Record bumped t t' : Prop := {
  bumped_frame : frame t t';
  bumped_flag : tdb_flag_seqnum t = false → t' = t;
  bumped_set : tdb_flag_seqnum t = true → tdb_env t = [] → tdb_read_only t = false →
    tdb_get_seqnum t' = u32 (tdb_get_seqnum t + 1);
}.

Lemma increment_nonblock t A fl ls :
  good t A fl ls →
  ∃ A', good (tdb_increment_seqnum_nonblock t) A' fl ls ∧ bumped t (tdb_increment_seqnum_nonblock t)
    ∧ im_heap A' = im_heap A ∧ hdr_word A' 44 = hdr_word A 44.
Proof.
  intros Hg. unfold tdb_increment_seqnum_nonblock. destruct (tdb_flag_seqnum t) eqn:Ef.
  2:{ exists A. split; [done|]. split; [|done]. split; [done|done|by rewrite Ef]. }
  fold (tdb_get_seqnum t). rewrite (seqnum_hdr _ _ (good_repr _ _ _ _ Hg)).
  destruct (tdb_read_only t) eqn:Ero.
  { exists A. assert (tdb_ofs_write t TDB_SEQNUM_OFS (u32 (hdr_word A 48 + 1)) = (false, t)) as ->.
    { unfold tdb_ofs_write, tdb_write. by rewrite Ero, dsize_le_bytes. }
    split; [done|]. split; [|done]. split; [done|by rewrite Ef|by rewrite Ero]. }
  change TDB_SEQNUM_OFS with (Z.of_nat 48).
  destruct (write_hdr t A 48 (u32 (hdr_word A 48 + 1)) (good_repr _ _ _ _ Hg)) as (m & -> & Hir'); [lia|done|].
  destruct (ir_repr _ _ (good_repr _ _ _ _ Hg)) as (_ & _ & _ & _ & [Hhl _ _] & _).
  destruct (hdr_word_write A 48 44 (u32 (hdr_word A 48 + 1)) Hhl) as [H1 H2]; [lia|apply u32_range|].
  eexists. cbn [snd]. split; [apply good_map; [exact Hir'|apply wf_set_hdr, Hg|apply Hg]|].
  split; [|split; [done|apply H2; lia]].
  split; [apply frame_map|by rewrite Ef|]. intros _ _ _.
  rewrite (seqnum_hdr _ _ Hir'), H1. by rewrite (seqnum_hdr _ _ (good_repr _ _ _ _ Hg)).
Qed.

Lemma increment_seqnum t A fl ls :
  good t A fl ls →
  ∃ A', good (tdb_increment_seqnum t) A' fl ls ∧ bumped t (tdb_increment_seqnum t)
    ∧ im_heap A' = im_heap A ∧ hdr_word A' 44 = hdr_word A 44.
Proof.
  intros Hg. unfold tdb_increment_seqnum. destruct (tdb_flag_seqnum t) eqn:Ef.
  2:{ exists A. split; [done|]. split; [|done]. split; [done|done|by rewrite Ef]. }
  destruct (ask t) as [ok t1] eqn:Ea. apply ask_inv in Ea as (Hf1 & Hm1 & Hok1).
  pose proof (good_frame _ _ _ _ _ Hg Hf1 Hm1) as Hg1. destruct ok.
  2:{ exists A. split; [done|]. split; [|done]. split; [done|by rewrite Ef|]. by intros _ ?%Hok1. }
  destruct (increment_nonblock _ _ _ _ Hg1) as (A' & Hg' & [Hb1 Hb2 Hb3] & Hx). exists A'. split; [done|]. split; [|done].
  split; [by transitivity t1|by rewrite Ef|]. intros _ He Hro.
  rewrite Hb3; [|by rewrite (frame_flag _ _ Hf1)|by apply Hf1|by rewrite (frame_read_only _ _ Hf1)].
  by rewrite (seqnum_hdr _ _ (good_repr _ _ _ _ Hg)), (seqnum_hdr _ _ (good_repr _ _ _ _ Hg1)).
Qed.

(** ** [tdb_delete] *)

(** The pairs of [A] but those of the key. *)
Definition without A ls (key : bytes) : image → list Z → list (list Z) → Prop :=
  λ A' _ ls', ∀ q k d, entry A' ls' q k d ↔ k ≠ key ∧ entry A ls q k d.

(** The entry that [tdb_find] found is the only one of the key. *)
Lemma entry_only t A fl ls i l1 p l2 b key d0 q k d :
  good t A fl ls → ls !! i = Some (l1 ++ p :: l2) → im_heap A !! p = Some b → live_of b = Some (key, d0) →
  entry A ls q k d → q ≠ p ↔ k ≠ key.
Proof.
  intros Hg Hl Hb Hd He. assert (entry A ls p key d0) as Hp.
  { split; [exists i, (l1 ++ p :: l2); split; [done|elem_solve]|]. by exists b. }
  split.
  - intros Hne ->. apply Hne. by eapply wf_unique; [apply Hg|..].
  - intros Hne ->. destruct He as [_ (? & ? & ?)], Hp as [_ (? & ? & ?)]. congruence.
Qed.

Lemma delete_locked_entries t A fl ls key ok t' :
  good t A fl ls → tdb_read_only t = false → delete_locked t key (key_hash key) = (ok, t') →
  post t (without A ls key) t' ∧ (ok = true → ∃ q d, entry A ls q key d)
  ∧ (tdb_env t = [] → (∃ q d, entry A ls q key d) → ok = true).
Proof.
  intros Hg Hro. unfold delete_locked. destruct (tdb_max_dead_records t =? 0); cbn [negb].
  - destruct (tdb_find_found t A fl ls key Hg) as [l1 p l2 b d0 Hl Hb Hd|Hno].
    + intros E. eapply do_delete_record in E as [Hp Hok]; [|done..]. split; [|split; [|by intros ?%Hok _]].
      * eapply post_mono; [done|done|done|]. intros A' fl' ls' [_ He] q k d. rewrite He.
        split; intros [Hne Hx]; pose proof (entry_only _ _ _ _ _ _ _ _ _ _ _ _ _ _ Hg Hl Hb Hd Hx); tauto.
      * intros _. exists p, d0. split; [|by exists b]. exists (bucket t (key_hash key)), (l1 ++ p :: l2). split; [done|elem_solve].
    + intros [= <- <-]. split; [|split; [done|]].
      * eapply post_refl; [done|]. intros q k d. split; [|tauto]. intros He. split; [|done]. intros ->. by eapply Hno.
      * intros _ (q & d & He). by apply Hno in He.
  - set (t1 := if _ <=? _ then _ else t).
    assert (post t (same_entries A ls) t1) as [Hf1 (Hh1 & A1 & fl1 & ls1 & Hg1 & He1)].
    { unfold t1. destruct (_ <=? _); [|by eapply post_refl].
      destruct (tdb_purge_dead false t (key_hash key)) as [ok2 t2] eqn:Ep. by eapply purge_dead_entries in Ep as [? _]. }
    unfold same_entries in He1. clearbody t1.
    assert (tdb_read_only t1 = false) as Hro1 by by rewrite (frame_read_only _ _ Hf1).
    destruct (tdb_find_found t1 A1 fl1 ls1 key Hg1) as [l1 p l2 b d0 Hl Hb Hd|Hno].
    + destruct (mark_dead _ _ _ _ _ _ _ _ _ Hg1 Hro1 Hl Hb) as (m & A' & -> & Hg2 & Hh2 & He2).
      intros [= <- <-]. split; [|split; [|done]].
      * eapply post_mono; [done|done|by apply (post_map t1 A1 fl1 ls1 m A' fl1 ls1 (λ A0 _ ls0, A0 = A' ∧ ls0 = ls1))|].
        intros ? ? ? [-> ->] q k d. rewrite He2, <- He1.
        split; intros [Hne Hx]; pose proof (entry_only _ _ _ _ _ _ _ _ _ _ _ _ _ _ Hg1 Hl Hb Hd Hx); tauto.
      * intros _. exists p, d0. apply He1. split; [|by exists b].
        exists (bucket t1 (key_hash key)), (l1 ++ p :: l2). split; [done|elem_solve].
    + intros [= <- <-]. split; [|split; [done|]].
      * split; [done|]. split; [done|]. exists A1, fl1, ls1. split; [done|]. intros q k d. rewrite He1. split; [|tauto].
        intros He. split; [|done]. intros ->. by eapply Hno, He1.
      * intros _ (q & d & He). by apply He1, Hno in He.
Qed.

Lemma entry_heap A A' ls q k d : im_heap A' = im_heap A → entry A' ls q k d ↔ entry A ls q k d.
Proof. intros E. unfold entry. by rewrite E. Qed.

(** The offset of the recovery area. *)
Definition recovery_head t : Z := le_val (slice 44 4 (hdr t)).
Lemma hdr_word_44 t A : is_repr t A → hdr_word A 44 = recovery_head t.
Proof. intros Hir. unfold recovery_head. by rewrite (hdr_repr _ _ Hir). Qed.

(** The result of an operation that may also raise the sequence number. *)
Definition posts t (P : image → list (list Z) → Prop) t' : Prop :=
  frame t t' ∧ (tdb_flag_seqnum t = false → hdr t' = hdr t) ∧ recovery_head t' = recovery_head t
  ∧ ∃ A fl ls, good t' A fl ls ∧ P A ls.

Lemma post_posts t P t' : post t (λ A _ ls, P A ls) t' → posts t P t'.
Proof.
  intros [Hf (Hh & A & fl & ls & Hg & HP)]. split; [done|]. split; [done|]. split; [unfold recovery_head; by rewrite Hh|].
  by exists A, fl, ls.
Qed.

Lemma posts_mono t0 t t' (P Q : image → list (list Z) → Prop) :
  frame t0 t → (tdb_flag_seqnum t0 = false → hdr t = hdr t0) → recovery_head t = recovery_head t0 →
  posts t P t' → (∀ A ls, P A ls → Q A ls) → posts t0 Q t'.
Proof.
  intros H0 Hh0 Hr0 [Hf (Hh & Hr & A & fl & ls & Hg & HP)] Hi. split; [by transitivity t|].
  split. { intros E. rewrite Hh, Hh0; [done|done|]. by rewrite (frame_flag _ _ H0). }
  split; [by rewrite Hr|]. exists A, fl, ls. auto.
Qed.

(** [P] is about the records only. *)
Lemma posts_increment t (P : image → list (list Z) → Prop) t' :
  (∀ A A' ls, im_heap A' = im_heap A → P A ls → P A' ls) →
  posts t P t' → posts t P (tdb_increment_seqnum t').
Proof.
  intros HP [Hf (Hh & Hr & A & fl & ls & Hg & HA)]. destruct (increment_seqnum _ _ _ _ Hg) as (A' & Hg' & [Hf' Hfl _] & Eh & Er).
  split; [by transitivity t'|]. split.
  { intros E. rewrite Hfl; [by apply Hh|]. by rewrite (frame_flag _ _ Hf). }
  split. { rewrite <- Hr, <- (hdr_word_44 _ _ (good_repr _ _ _ _ Hg)), <- (hdr_word_44 _ _ (good_repr _ _ _ _ Hg')). done. }
  exists A', fl, ls. split; [done|]. by eapply HP.
Qed.

Lemma delete_hash_entries held t A fl ls key ok t' :
  good t A fl ls → tdb_read_only t = false → tdb_delete_hash held t key (key_hash key) = (ok, t') →
  (posts t (λ A' ls', without A ls key A' [] ls') t'
   ∨ (held = false ∧ ok = false ∧ posts t (λ A' ls', same_entries A ls A' [] ls') t'))
  ∧ (ok = true → ∃ q d, entry A ls q key d)
  ∧ (tdb_env t = [] → (∃ q d, entry A ls q key d) → ok = true).
Proof.
  intros Hg Hro. unfold tdb_delete_hash. destruct (tdb_lock held t) as [ok1 t1] eqn:El.
  pose proof El as El'. apply tdb_lock_inv in El as (Hf1 & Hm1 & Hok1). pose proof (good_frame _ _ _ _ _ Hg Hf1 Hm1) as Hg1.
  destruct ok1; cbn [negb].
  2:{ intros [= <- <-]. split; [right|split; [done|by intros ?%Hok1]]. split; [by destruct held|]. split; [done|].
    apply post_posts. split; [done|]. split; [by apply hdr_map|]. by exists A, fl, ls. }
  destruct (delete_locked t1 key (key_hash key)) as [ok2 t2] eqn:Ed.
  eapply delete_locked_entries in Ed as (Hp & Hex & Hok2); [|done|by rewrite (frame_read_only _ _ Hf1)].
  intros [= <- <-]. split; [left|split; [done|]].
  - assert (post t (without A ls key) t2) as Hp' by (eapply post_mono; [done|by apply hdr_map|done|done]).
    destruct ok2; [apply posts_increment; [|by apply post_posts]|by apply post_posts].
    intros B B' ls' EB HB q k d. rewrite (entry_heap _ _ _ _ _ _ EB). apply HB.
  - intros He. apply Hok2. by apply Hf1.
Qed.
End store.
