(* ===== verification/TdbAlloc.v ===== *)
(** * Allocation and [tdb_store]

    The free list gives out a record that is on no list and large enough, after
    an extension of the file if it must; a store replaces the value of its key
    and touches no other. *)
From S2P Require Import Prelude TdbFile TdbLayout TdbChain TdbStore.
Import Tdb.

Implicit Types (t : tdb_context) (A : image) (b : block) (fl : list Z) (ls : list (list Z)).

Section alloc.
Context (hash_fn : bytes → Z).
Local Abbreviation key_hash := (key_hash hash_fn).
Local Abbreviation good := (good hash_fn).
Local Abbreviation post := (post hash_fn).
Local Abbreviation posts := (posts hash_fn).

(** ** The search through the free list *)

(** The word that links to the record behind [l1] in the free list. *)
Definition free_link (l1 : list Z) : Z := default FREELIST_TOP (last l1).

Definition best_ok A fl (len : Z) (best : bestfit) : Prop :=
  best = mk_best 0 0 0 ∨
  ∃ l1 p l2 b, fl = l1 ++ p :: l2 ∧ best = mk_best p (free_link l1) (rec_len (b_rec b))
    ∧ im_heap A !! p = Some b ∧ len <= rec_len (b_rec b).

Lemma search_free_best fuel t A fl ls l1 l2 v len best mult :
  good t A fl ls → fl = l1 ++ l2 → chain (im_heap A) v l2 → (length l2 < fuel)%nat → best_ok A fl len best →
  ∃ best' mult', search_free fuel t len v (free_link l1) best mult = (Some (best', mult'), t) ∧ best_ok A fl len best'
    ∧ (best_rec_ptr best ≠ 0 ∨ (∃ p b, p ∈ l2 ∧ im_heap A !! p = Some b ∧ len <= rec_len (b_rec b)) →
       best_rec_ptr best' ≠ 0).
Proof.
  intros Hg. revert l1 l2 v best mult. induction fuel as [|fuel IH]; intros l1 l2 v best mult Hfl Hc Hlen Hb; [lia|]. cbn [search_free].
  inversion Hc as [|p b l Hp Hbk Hc']; subst.
  { exists best, mult. split; [done|]. split; [done|]. intros [?|(p & b & Hp & _)]; [done|by apply not_elem_of_nil in Hp]. }
  rewrite (proj2 (Z.eqb_neq _ _)) by done.
  destruct (wf_free_magic _ _ _ _ _ (good_wf _ _ _ _ _ Hg) v) as (b' & Hb' & Hm); [elem_solve|]. simplify_eq.
  rewrite (rec_free_read _ _ _ _ _ (good_repr _ _ _ _ _ Hg) Hc Hbk Hm).
  set (best1 := if _ && _ then _ else best).
  assert (best_ok A (l1 ++ v :: l) len best1
    ∧ (best_rec_ptr best ≠ 0 ∨ len <= rec_len (b_rec b) → best_rec_ptr best1 ≠ 0)) as [Hb1 Hne1].
  { unfold best1. destruct (len <=? rec_len (b_rec b)) eqn:El; zbool; cbn [andb].
    - destruct (best_rec_ptr best =? 0) eqn:Ez; zbool; cbn [orb].
      + split; [right; by exists l1, v, l, b|done].
      + destruct (_ <? _); [split; [right; by exists l1, v, l, b|done]|done].
    - split; [done|]. intros [?|?]; [done|lia]. }
  clearbody best1. destruct ((0 <? best_rec_len best1) && _) eqn:Ef; zbool.
  - exists best1, mult. split; [done|]. split; [done|]. intros _.
    destruct Hb1 as [->|(? & p & ? & c & E & -> & Hc1 & ?)]; [cbn in *; lia|]. cbn.
    eapply chain_lookup; [by apply (wf_free _ _ _ _ _ (good_wf _ _ _ _ _ Hg))|]. rewrite E. elem_solve.
  - cbn [length] in Hlen. destruct (IH (l1 ++ [v]) l (next (b_rec b)) best1 (next_multiplier mult)) as (best' & mult' & E & Hb2 & Hne2);
      [by rewrite <- app_assoc|done|lia|done|].
    unfold free_link in E at 1. rewrite last_snoc in E. cbn [default id from_option] in E.
    exists best', mult'. split; [done|]. split; [done|]. intros Hx. apply Hne2. destruct Hx as [Hx|(p & c & Hp' & Hc1 & Hle)]; [left; by apply Hne1; left|].
    apply elem_of_cons in Hp' as [->|Hp']; [simplify_eq; left; by apply Hne1; right|right; by exists p, c].
Qed.

(** ** A whole record of the free list *)

Lemma all_free_take A l1 p l2 b :
  all_free A (l1 ++ p :: l2) → magic (b_rec b) ≠ TDB_FREE_MAGIC →
  all_free (set_heap A (<[p := b]> (im_heap A))) (l1 ++ l2).
Proof.
  intros Ha Hb q c Hq Hm. cbn in Hq. apply lookup_insert_Some in Hq as [[<- <-]|[Hne Hq]]; [done|].
  specialize (Ha q c Hq Hm). rewrite elem_of_app, elem_of_cons in Ha. apply elem_of_app.
  destruct Ha as [?|[?|?]]; [by left|by subst|by right].
Qed.

(** A record that was allocated: on no list, large enough, the others as before. *)
Definition allocated A0 ls0 (len p : Z) (r : tdb_record) : image → list Z → list (list Z) → Prop :=
  λ A fl ls, ls = ls0 ∧ (∀ q k d, entry A ls0 q k d ↔ entry A0 ls0 q k d) ∧ (p ∉ fl) ∧ (¬ used ls0 p) ∧ p ≠ 0
    ∧ ∃ b, im_heap A !! p = Some b ∧ b_rec b = r ∧ len <= rec_len r ∧ magic r = TDB_MAGIC.

Lemma take_free t A l1 p l2 ls b len :
  good t A (l1 ++ p :: l2) ls → tdb_read_only t = false → im_heap A !! p = Some b → len <= rec_len (b_rec b) →
  let r := set_magic (b_rec b) TDB_MAGIC in
  ∃ m1 m2, tdb_ofs_write t (free_link l1) (next (b_rec b)) = (true, set_tdb_map t m1)
    ∧ tdb_rec_write (set_tdb_map t m1) p r = (true, set_tdb_map t m2)
    ∧ post t (allocated A ls len p r) (set_tdb_map t m2).
Proof.
  intros Hg Hro Hb Hle r. pose proof Hg as [Hir W Fa].
  destruct (repr_pos _ _ _ _ Hir Hb) as ([Hbok Hbl] & Hp & _).
  assert (¬ used ls p) as Hnu. { intros Hu. eapply wf_free_used; [done| |done]. elem_solve. }
  assert (rec_ok r) as Hrok by (destruct Hbok; by split).
  assert (∀ A1 m1, is_repr (set_tdb_map t m1) A1 → wf hash_fn (tdb_hash_size t) A1 (l1 ++ l2) ls →
    all_free A1 (l1 ++ p :: l2) → im_hdr A1 = im_hdr A → (∀ q k d, entry A1 ls q k d ↔ entry A ls q k d) →
    p ∉ l1 ++ l2 → im_heap A1 !! p = Some b →
    ∃ m2, tdb_rec_write (set_tdb_map t m1) p r = (true, set_tdb_map t m2) ∧ post t (allocated A ls len p r) (set_tdb_map t m2)) as Hstep.
  { intros A1 m1 Hir1 W1 Fa1 Hh1 He1 Hfl1 Hb1.
    destruct (write_rec (set_tdb_map t m1) A1 p b r Hir1 Hro Hb1 Hrok eq_refl) as (m2 & E2 & Hir2).
    destruct (wf_float _ _ _ _ _ p (<[p := mk_block r (b_body b)]> (im_heap A1)) W1 Hfl1 Hnu) as [W2 He2];
      [by intros; apply lookup_insert_ne|].
    exists m2. split; [done|].
    eapply (post_map _ _ _ _ _ _ (set_heap A1 (<[p := mk_block r (b_body b)]> (im_heap A1)))); [done| |done|].
    - apply good_map; [done|done|]. by apply all_free_take.
    - split; [done|]. split; [intros q k d; by rewrite He2, He1|]. split; [done|]. split; [done|]. split; [lia|].
      exists (mk_block r (b_body b)). split; [apply lookup_insert_eq|done]. }
  destruct l1 as [|q l1 _] using rev_ind.
  - destruct (write_free t A (next (b_rec b)) Hir Hro) as (m1 & E1 & Hir1); [apply Hbok|].
    destruct (wf_free_unlink_head _ _ _ _ _ _ _ W Hb) as (W1 & He1 & Hni).
    destruct (Hstep _ _ Hir1 W1 Fa eq_refl He1 Hni Hb) as (m2 & E2 & Hp2). by exists m1, m2.
  - rewrite <- !app_assoc in *. cbn [app] in *.
    destruct (wf_free_magic _ _ _ _ _ W q) as (bq & Hq & Hmq); [elem_solve|].
    destruct (write_next t A q bq (next (b_rec b)) Hir Hro Hq) as (m1 & E1 & Hir1); [apply Hbok|].
    destruct (wf_free_unlink_prev _ _ _ _ _ _ _ _ _ _ W Hb Hq) as (W1 & He1 & Hni).
    destruct (Hstep _ _ Hir1 W1) as (m2 & E2 & Hp2); [|done|exact He1|exact Hni| |].
    + apply all_free_insert; [done|]. intros _. elem_solve.
    + cbn. rewrite lookup_insert_ne; [done|]. intros ->. apply Hni. elem_solve.
    + exists m1, m2. unfold free_link. rewrite last_snoc. done.
Qed.

(** ** The end of a free record *)

Lemma repr_disjoint t A p b q c :
  is_repr t A → im_heap A !! p = Some b → im_heap A !! q = Some c → p < q → p + b_size b <= q.
Proof. intros [(bs & _ & -> & _) _ _]. apply heap_disjoint. Qed.

(** An offset without a record is on no list. *)
Lemma no_record t A fl ls p : good t A fl ls → im_heap A !! p = None → (p ∉ fl) ∧ ¬ used ls p.
Proof.
  intros Hg Hp. split.
  - intros Hin. destruct (wf_free_magic _ _ _ _ _ (good_wf _ _ _ _ _ Hg) _ Hin) as (c & ? & _). congruence.
  - intros (i & l & Hl & Hin). destruct (wf_used _ _ _ _ _ (good_wf _ _ _ _ _ Hg) _ _ _ Hl Hin) as (c & ? & _). congruence.
Qed.

Lemma split_free t A fl ls p b len last_ptr :
  good t A fl ls → tdb_read_only t = false → p ∈ fl → im_heap A !! p = Some b →
  4 <= len → len + MIN_REC_SIZE <= rec_len (b_rec b) →
  ∃ p' r m, tdb_allocate_ofs t len p (b_rec b) last_ptr = (p', r, set_tdb_map t m)
    ∧ p' ≠ 0 ∧ post t (allocated A ls len p' r) (set_tdb_map t m).
Proof.
  intros Hg Hro Hin Hb Hlen Hfit. pose proof Hg as [Hir W Fa].
  destruct (wf_free_magic _ _ _ _ _ W p Hin) as (b0 & Hb0 & Hm). simplify_eq.
  destruct (repr_pos _ _ _ _ Hir Hb) as (_ & Hp & _).
  destruct (allocate_split t A p b len last_ptr Hir Hro Hb Hlen Hfit) as (p' & body1 & body2 & m & Ep' & Hb1 & Hb2 & Hsum & E & Hir').
  set (b1 := mk_block (shortened (b_rec b) len) body1) in *. set (b2 := mk_block (cut_rec len) body2) in *.
  pose proof (b_size_pos b1). pose proof (b_size_pos b2).
  assert (im_heap A !! p' = None) as Hnone.
  { destruct (im_heap A !! p') as [c|] eqn:Ec; [|done]. pose proof (repr_disjoint _ _ _ _ _ _ Hir Hb Ec). lia. }
  destruct (no_record _ _ _ _ _ Hg Hnone) as [Hnf Hnu].
  destruct (wf_float _ _ _ _ _ p' (<[p' := b2]> (im_heap A)) W Hnf Hnu) as [W1 He1]; [by intros; apply lookup_insert_ne|].
  destruct (wf_resize _ _ _ _ _ p b b1 W1) as [W2 He2]; [cbn; rewrite lookup_insert_ne; [done|lia]|done..|].
  exists p', (cut_rec len), m. split; [done|]. split; [lia|].
  eapply (post_map _ _ _ _ _ _ (set_heap A (<[p := b1]> (<[p' := b2]> (im_heap A))))); [done| |done|].
  - apply good_map; [done|done|]. 
    assert (all_free (set_heap A (<[p' := b2]> (im_heap A))) fl) as F1 by by apply all_free_insert.
    exact (all_free_insert _ _ p b1 F1 (λ _, Hin)).
  - split; [done|]. split; [intros q k d; by rewrite (He2 q k d), He1|]. split; [done|]. split; [done|]. split; [lia|].
    exists b2. split; [|split; [done|split; [cbn; lia|done]]]. cbn. rewrite lookup_insert_ne by lia. apply lookup_insert_eq.
Qed.

(** [tdb_allocate_ofs] on a record that the search found. *)
Lemma allocate_ofs_ok t A l1 p l2 ls b len :
  good t A (l1 ++ p :: l2) ls → tdb_read_only t = false → im_heap A !! p = Some b →
  4 <= len → len <= rec_len (b_rec b) →
  ∃ p' r m, tdb_allocate_ofs t len p (b_rec b) (free_link l1) = (p', r, set_tdb_map t m)
    ∧ p' ≠ 0 ∧ post t (allocated A ls len p' r) (set_tdb_map t m).
Proof.
  intros Hg Hro Hb Hlen Hle. destruct (Z.lt_ge_cases (rec_len (b_rec b)) (len + MIN_REC_SIZE)) as [Hlt|Hge].
  - unfold tdb_allocate_ofs. rewrite (proj2 (Z.ltb_lt _ _)) by done.
    destruct (take_free _ _ _ _ _ _ _ len Hg Hro Hb Hle) as (m1 & m2 & E1 & E2 & Hp). rewrite E1. cbn [negb]. rewrite E2.
    do 3 eexists. split; [done|]. split; [|done].
    destruct (repr_pos _ _ _ _ (good_repr _ _ _ _ _ Hg) Hb) as (_ & ? & _). lia.
  - eapply split_free; [done..| |done|done|done]. elem_solve.
Qed.

(** ** Extending the file *)

Lemma TDB_ALIGN_le x a : 0 < a → x <= TDB_ALIGN x a.
Proof. intros. unfold TDB_ALIGN. pose proof (Z.div_mod (x + a - 1) a). pose proof (Z.mod_pos_bound (x + a - 1) a). lia. Qed.

(** The file grows by at least the size that is needed. *)
Lemma expand_adjust_size ms size page :
  0 < page → 0 <= ms < 2 ^ 32 → 0 < size → expand_overflows ms size page = false →
  size + 24 <= tdb_expand_adjust ms size page ∧ ms + tdb_expand_adjust ms size page < 2 ^ 32.
Proof.
  intros Hpage Hms Hsize. unfold expand_overflows. rewrite !orb_false_iff. intros [[Ht Hn] Ha]. zbool.
  unfold tdb_expand_adjust. set (new_size := Z.max _ _) in *.
  assert (ms + (size + 24) <= expand_top ms size) as Htop by (unfold expand_top; destruct (Z.ltb_spec (100 * 1024) size); lia).
  pose proof (u32_id (expand_top ms size) ltac:(unfold is_u32; lia)) as Hid.
  assert (expand_top ms size <= new_size) by (unfold new_size; lia).
  pose proof (u32_range (expand_new ms)) as [? ?]. pose proof (TDB_ALIGN_le new_size page Hpage).
  rewrite (u32_id (TDB_ALIGN _ _)) by (unfold is_u32; lia). rewrite u32_id by (unfold is_u32; lia). lia.
Qed.

(** The new bytes become a free record. *)
Lemma expanded_free t t1 A fl ls len size raw ok t' :
  good t A fl ls → tdb_read_only t = false → frame t t1 → dsize raw = size → len + 48 <= size → 4 <= len → dsize (tdb_map t) + size < 2 ^ 32 →
  tdb_map t1 = tdb_map t ++ raw →
  tdb_free true t1 (tdb_map_size t) (mk_rec 0 (u32 (size - sizeof_rec)) 0 0 0 0) = (ok, t') →
  post t (λ A' fl' ls', ls' = ls ∧ (∀ q k d, entry A' ls q k d ↔ entry A ls q k d)
    ∧ (ok = true → ∃ p b, p ∈ fl' ∧ im_heap A' !! p = Some b ∧ len <= rec_len (b_rec b))) t'
  ∧ (tdb_env t = [] → ok = true ∨ tdb_overflow t' = true).
Proof.
  intros Hg Hro Hf1 Hraw Hs1 Hlen Hs2 Hm1. set (t0 := set_tdb_map t1 (tdb_map t)).
  assert (frame t t0) as Hf0 by (by destruct Hf1). pose proof (good_frame _ _ _ _ _ _ Hg Hf0 eq_refl) as Hg0.
  destruct (repr_size _ _ (ir_repr _ _ (good_repr _ _ _ _ _ Hg))) as [Hds _]. unfold data_start in Hds.
  set (r := mk_rec 0 (u32 (size - sizeof_rec)) 0 0 0 0).
  assert (rec_len r = size - 24) as Hr by (cbn; rewrite u32_id; unfold is_u32, sizeof_rec; lia).
  assert (rec_ok r) as Hrok. { split; cbn; try (unfold is_u32; lia). apply u32_range. }
  pose proof (extend_gap t0 A raw (good_repr _ _ _ _ _ Hg0)) as Hgap. rewrite Hraw in Hgap.
  replace size with (24 + rec_len r) in Hgap by lia. specialize (Hgap ltac:(change (tdb_map t0) with (tdb_map t); lia)).
  assert (set_tdb_map t0 (tdb_map t0 ++ raw) = t1) as E0 by (unfold t0; destruct t1; cbn in *; by rewrite Hm1).
  rewrite E0 in Hgap. change (tdb_map_size t0) with (tdb_map_size t) in Hgap.
  destruct (tdb_free_gap _ _ _ _ Hgap) as (A' & Hfr & m & E & Hir'); [by rewrite (frame_read_only _ _ Hf1)|lia|done|].
  fold r. rewrite E. intros [= <- <-]. split; [|intros _; by left].
  assert (im_heap A !! tdb_map_size t = None) as Hnone.
  { destruct (im_heap A !! tdb_map_size t) as [c|] eqn:Ec; [|done].
    destruct (repr_pos _ _ _ _ (good_repr _ _ _ _ _ Hg) Ec) as (_ & _ & ? & _). pose proof (b_size_pos c). unfold tdb_map_size in *. lia. }
  destruct (no_record _ _ _ _ _ Hg Hnone) as [Hnf Hnu]. pose proof Hg0 as [_ W1 Fa1].
  change (set_tdb_map t1 m) with (set_tdb_map t0 m) in *.
  destruct (freed_good _ t0 A fl ls (tdb_map_size t) r A' m W1 Fa1) as (Hh & He & fl' & p & b & Hg' & Hin & Hb & Hle);
    [done|done|unfold tdb_map_size in *; lia|lia| |done|done|].
  { intros q c Hq. by apply (repr_pos _ _ _ _ (good_repr _ _ _ _ _ Hg) Hq). }
  eapply (post_mono _ t t0); [done|done| |intros ? ? ? Hx; exact Hx].
  eapply post_map; [done..|]. split; [done|]. split; [done|]. intros _. exists p, b. split; [done|]. split; [done|]. lia.
Qed.
(** What an extension leaves that fails. *)
Lemma granted_nonneg env : 0 <= (granted env).1.
Proof. induction env as [|[] env IH]; cbn; [lia| |lia]. destruct (granted env). cbn in *. lia. Qed.
Lemma rest_of_extension n addition :
  0 <= n <= addition - 4 → 28 <= addition →
  rest_ok (replicate (Z.to_nat n) TDB_PAD_BYTE ++ replicate (Z.to_nat (addition - n)) 0).
Proof.
  intros Hn Ha. split; [unfold dsize; rewrite length_app, !length_replicate; lia|].
  exists (replicate (Z.to_nat n) TDB_PAD_BYTE ++ replicate (Z.to_nat (addition - n - 4)) 0), 0. split; [|by left].
  rewrite <- app_assoc. f_equal. change (le_bytes 4 0) with (replicate 4 0). rewrite <- replicate_add. f_equal. lia.
Qed.
(** The file grows by [addition] bytes and is filled, or what is left is no record. *)
Lemma expand_file_map t A addition ok t' :
  is_repr t A → tdb_read_only t = false → 28 <= addition → dsize (tdb_map t) + addition < 2 ^ 32 →
  tdb_expand_file t addition = (ok, t') →
  frame t t' ∧ (tdb_env t = [] → ok = true)
  ∧ if ok then tdb_map t' = tdb_map t ++ replicate (Z.to_nat addition) TDB_PAD_BYTE
    else tdb_map t' = tdb_map t ∨ ∃ raw, rest_ok raw ∧ dsize raw = addition ∧ tdb_map t' = tdb_map t ++ raw.
Proof.
  intros Hir Hro Ha Hs. unfold tdb_expand_file. rewrite Hro. destruct (ask t) as [ok1 t1] eqn:E1. apply ask_inv in E1 as (Hf1 & Hm1 & Hok1).
  destruct ok1; cbn [negb]; [|intros [= <- <-]; split; [done|]; split; [done|by left]].
  destruct (ask t1) as [ok2 t2] eqn:E2. apply ask_inv in E2 as (Hf2 & Hm2 & Hok2).
  assert (frame t t2) as Hf by (by transitivity t1). destruct ok2.
  { intros [= <- <-]. split; [by destruct Hf|]. split; [done|]. cbn. by rewrite Z.sub_diag, app_nil_r, Hm2, Hm1. }
  pose proof (granted_nonneg (tdb_env t2)) as Hn. destruct (granted (tdb_env t2)) as [n env] eqn:En. cbn [fst] in Hn. intros [= <- <-].
  assert (tdb_env t = [] → False) as Hno by (intros He; by specialize (Hok2 (frame_env _ _ Hf1 He))).
  split; [destruct Hf as [P _ O]; split; [exact P|by intros ?%Hno|exact O]|]. split; [by intros ?%Hno|]. right. cbn [tdb_map set_tdb_map set_tdb_env].
  exists (replicate (Z.to_nat (Z.min n (addition - 4))) TDB_PAD_BYTE ++ replicate (Z.to_nat (addition - Z.min n (addition - 4))) 0).
  split; [apply rest_of_extension; lia|]. split; [unfold dsize; rewrite length_app, !length_replicate; lia|by rewrite Hm2, Hm1].
Qed.

(** A list of zeros and pad bytes behind the file changes no record. *)
Lemma good_rest t A fl ls t' raw :
  good t A fl ls → frame t t' → rest_ok raw → dsize (tdb_map t) + dsize raw < 2 ^ 32 → tdb_map t' = tdb_map t ++ raw → good t' A fl ls.
Proof.
  intros [Hir W Fa] Hf Hr Hs Hm. apply (good_frame _ (set_tdb_map t (tdb_map t ++ raw)) t'); [|by destruct Hf|done].
  split; [by apply extend_rest|done|done].
Qed.

Lemma expand_file t A fl ls len ok t' :
  good t A fl ls → tdb_read_only t = false → 0 < tdb_page_size t → 4 <= len →
  tdb_expand true t (len + sizeof_rec) = (ok, t') →
  post t (λ A' fl' ls', ls' = ls ∧ (∀ q k d, entry A' ls q k d ↔ entry A ls q k d)
    ∧ (ok = true → ∃ p b, p ∈ fl' ∧ im_heap A' !! p = Some b ∧ len <= rec_len (b_rec b))) t'
  ∧ (tdb_env t = [] → ok = true ∨ tdb_overflow t' = true).
Proof.
  intros Hg Hro Hpage Hlen. unfold tdb_expand. cbn [tdb_lock negb].
  destruct (expand_overflows _ _ _) eqn:Eo.
  { intros [= <- <-]. split; [|intros _; by right]. split; [by split|]. split; [done|]. exists A, fl, ls. split; [|done].
    by eapply good_frame. }
  destruct (repr_size _ _ (ir_repr _ _ (good_repr _ _ _ _ _ Hg))) as [Hds Hms]. unfold data_start in Hds.
  destruct (expand_adjust_size (tdb_map_size t) (len + sizeof_rec) (tdb_page_size t)) as [Hs1 Hs2]; [done|unfold tdb_map_size; lia|unfold sizeof_rec; lia|done|].
  set (size := tdb_expand_adjust _ _ _) in *. clearbody size. unfold sizeof_rec in Hs1. unfold tdb_map_size in Hs2.
  destruct (tdb_expand_file t size) as [ok1 t1] eqn:Ea.
  eapply expand_file_map in Ea as (Hf1 & Hok1 & Hm1); [|by apply (good_repr _ _ _ _ _ Hg)|done|lia|lia].
  destruct ok1; cbn [negb].
  2:{ intros [= <- <-]. split; [|by intros ?%Hok1]. split; [done|]. destruct Hm1 as [Hm1|(raw & Hr & Hraw & Hm1)].
    - split; [by apply hdr_map|]. exists A, fl, ls. split; [by eapply good_frame|done].
    - assert (good t1 A fl ls) as Hg1 by (eapply good_rest; [done..|lia|done]).
      split; [rewrite (hdr_repr _ _ (good_repr _ _ _ _ _ Hg1)), (hdr_repr _ _ (good_repr _ _ _ _ _ Hg)); done|]. by exists A, fl, ls. }
  set (raw := replicate (Z.to_nat size) TDB_PAD_BYTE) in *.
  assert (dsize raw = size) as Hraw by (unfold raw, dsize; rewrite length_replicate; lia).
  eapply (expanded_free t t1 A fl ls len size raw); [done|done|done|done|lia|done|lia|done].
Qed.

(** ** [tdb_allocate] *)

(** One round of the loop: a record, or the file must grow. *)
Lemma allocate_round n t A fl ls len mult :
  good t A fl ls → tdb_read_only t = false → 4 <= len →
  (∃ p r m, allocate_again (S n) t len mult = (p, r, set_tdb_map t m) ∧ p ≠ 0
     ∧ post t (allocated A ls len p r) (set_tdb_map t m))
  ∨ ((∃ mult', allocate_again (S n) t len mult
       = (let '(ok, t) := tdb_expand true t (len + sizeof_rec) in
          if ok then allocate_again n t len mult' else (0, mk_rec 0 0 0 0 0 0, t)))
     ∧ ∀ p b, p ∈ fl → im_heap A !! p = Some b → rec_len (b_rec b) < len).
Proof.
  intros Hg Hro Hlen. cbn [allocate_again]. rewrite (read_free _ _ (good_repr _ _ _ _ _ Hg)).
  pose proof (wf_free _ _ _ _ _ (good_wf _ _ _ _ _ Hg)) as Hc.
  pose proof (chain_fuel_enough _ _ _ _ (good_repr _ _ _ _ _ Hg) Hc) as Hfu.
  destruct (search_free_best (chain_fuel t) t A fl ls [] fl (im_free A) len (mk_best 0 0 0) mult) as (best & mult' & E & Hb & Hne); [done|done|done|done|by left|].
  change FREELIST_TOP with (free_link []). fold (chain_fuel t). rewrite E.
  destruct (best_rec_ptr best =? 0) eqn:Ez; zbool; cbn [negb].
  - right. split; [by exists mult'|]. intros p b Hp Hbk. destruct (Z.lt_ge_cases (rec_len (b_rec b)) len) as [|Hge]; [done|].
    exfalso. apply Hne; [right; exists p, b; done|done].
  - left. destruct Hb as [->|(l1 & p & l2 & b & -> & -> & Hbk & Hle)]; [done|]. cbn [best_rec_ptr best_last_ptr].
    destruct (wf_free_magic _ _ _ _ _ (good_wf _ _ _ _ _ Hg) p) as (b' & Hb' & Hm); [elem_solve|]. simplify_eq.
    rewrite (rec_free_read _ _ _ _ _ (good_repr _ _ _ _ _ Hg) (chain_app _ _ _ _ _ Hc) Hbk Hm).
    by eapply allocate_ofs_ok.
Qed.

Lemma allocate_again_ok t A fl ls len mult p r t' :
  good t A fl ls → tdb_read_only t = false → 0 < tdb_page_size t → 4 <= len →
  allocate_again 2 t len mult = (p, r, t') →
  (p ≠ 0 ∧ post t (allocated A ls len p r) t')
  ∨ (p = 0 ∧ post t (λ A' _ ls', same_entries A ls A' [] ls' ∧ ls' = ls) t' ∧ (tdb_env t = [] → tdb_overflow t' = true)).
Proof.
  intros Hg Hro Hpage Hlen.
  destruct (allocate_round 1 t A fl ls len mult Hg Hro Hlen) as [(p1 & r1 & m & -> & Hp1 & Hpost)|[[mult' ->] _]].
  { intros [= <- <- <-]. by left. }
  destruct (tdb_expand true t (len + sizeof_rec)) as [ok t1] eqn:Ee.
  eapply expand_file in Ee as [[Hf1 (Hh1 & A1 & fl1 & ls1 & Hg1 & -> & He1 & Hfree)] Hok]; [|done..].
  destruct ok.
  2:{ intros [= <- <- <-]. right. split; [done|]. split; [|intros He; by destruct (Hok He)].
    split; [done|]. split; [done|]. by exists A1, fl1, ls. }
  assert (tdb_read_only t1 = false) as Hro1 by by rewrite (frame_read_only _ _ Hf1).
  destruct (allocate_round 0 t1 A1 fl1 ls len mult' Hg1 Hro1 Hlen) as [(p1 & r1 & m & -> & Hp1 & Hpost)|[_ Hno]].
  - intros [= <- <- <-]. left. split; [done|]. eapply post_mono; [done|done|done|].
    intros A2 fl2 ls2 (-> & He2 & Hx). split; [done|]. split; [|done]. intros q k d. by rewrite He2, He1.
  - destruct (Hfree eq_refl) as (q & b & Hq & Hb & Hle). specialize (Hno q b Hq Hb). lia.
Qed.

Lemma allocate_length_le size : 0 <= size → size + 4 <= allocate_length size.
Proof.
  intros Hs. unfold allocate_length. pose proof (TDB_ALIGN_le (size * 5 / 4 + 4) 4 ltac:(lia)).
  assert (size <= size * 5 / 4) by (apply Z.div_le_lower_bound; lia). lia.
Qed.

Lemma tdb_allocate_ok t A fl ls size p r t' :
  good t A fl ls → tdb_read_only t = false → 0 < tdb_page_size t → 0 <= size →
  tdb_allocate true t size = (p, r, t') →
  (p ≠ 0 ∧ post t (allocated A ls (size + 4) p r) t')
  ∨ (p = 0 ∧ post t (λ A' _ ls', same_entries A ls A' [] ls' ∧ ls' = ls) t' ∧ (tdb_env t = [] → tdb_overflow t' = true)).
Proof.
  intros Hg Hro Hpage Hs. unfold tdb_allocate. cbn [tdb_lock negb]. pose proof (allocate_length_le size Hs).
  destruct (_ <=? _).
  { intros [= <- <- <-]. right. split; [done|]. split; [|done]. split; [by split|]. split; [done|]. exists A, fl, ls.
    split; [by eapply good_frame|done]. }
  intros E. eapply allocate_again_ok in E as [[Hp Hpost]|E]; [|by right|done..|lia]. left. split; [done|].
  eapply post_mono; [done|done|done|]. intros A' fl' ls' (-> & He & H1 & H2 & H3 & b & Hb & Hr & Hle & Hm).
  split; [done|]. split; [done|]. do 3 (split; [done|]). exists b. split; [done|]. split; [done|]. split; [lia|done].
Qed.

(** ** Writing a record *)

Lemma write_at_read (o : Z) buf l :
  0 <= o → o + dsize buf <= dsize l → slice (Z.to_nat o) (length buf) (write_at o buf l) = buf.
Proof.
  intros. unfold write_at, dsize in *. rewrite (slice_app_skip _ _ _ _ 0) by (rewrite length_take; lia).
  by apply slice_app_first.
Qed.
Lemma write_at_take (o : Z) buf l n :
  (n <= Z.to_nat o)%nat → o <= dsize l → take n (write_at o buf l) = take n l.
Proof.
  intros. unfold write_at, dsize in *. rewrite take_app_le by (rewrite length_take; lia).
  rewrite take_take. f_equal. lia.
Qed.

Lemma write_record_ok t A p b r key dbuf :
  is_repr t A → tdb_read_only t = false → im_heap A !! p = Some b → rec_ok r → rec_len r = rec_len (b_rec b) →
  dsize key + dsize dbuf + 4 <= rec_len r →
  ∃ m body, write_record t p r key dbuf = (true, set_tdb_map t m)
    ∧ is_repr (set_tdb_map t m) (set_heap A (<[p := mk_block r body]> (im_heap A)))
    ∧ take (length key) body = key ∧ slice (length key) (length dbuf) body = dbuf.
Proof.
  intros Hir Hro Hb Hrok Hrl Hfit. destruct (repr_pos _ _ _ _ Hir Hb) as ([_ Hbl] & Hp & Hend & Hs). unfold b_size in Hend.
  pose proof (dsize_nonneg key). pose proof (dsize_nonneg dbuf).
  unfold write_record. destruct (write_rec t A p b r Hir Hro Hb Hrok Hrl) as (m1 & -> & Hir1). cbn [negb].
  set (b1 := mk_block r (b_body b)) in *. set (A1 := set_heap A (<[p := b1]> (im_heap A))) in *.
  assert (im_heap A1 !! p = Some b1) as Hb1 by apply lookup_insert_eq.
  destruct (write_body (set_tdb_map t m1) A1 p b1 0 key Hir1 Hro Hb1) as (m2 & E2 & Hir2); [lia|cbn; lia|].
  change (set_tdb_map (set_tdb_map t m1) m2) with (set_tdb_map t m2) in E2, Hir2.
  rewrite Z.add_0_r in E2. rewrite u32_id by (unfold is_u32, sizeof_rec; lia). rewrite E2. cbn [negb].
  set (b2 := mk_block r (write_at 0 key (b_body b))) in *. set (A2 := set_heap A1 (<[p := b2]> (im_heap A1))) in *.
  assert (im_heap A2 !! p = Some b2) as Hb2 by apply lookup_insert_eq.
  assert (dsize (b_body b2) = dsize (b_body b)) as Hl2 by (unfold dsize; cbn; by rewrite length_write_at by lia).
  destruct (write_body (set_tdb_map t m2) A2 p b2 (dsize key) dbuf Hir2 Hro Hb2) as (m3 & E3 & Hir3); [lia|lia|].
  change (set_tdb_map (set_tdb_map t m2) m3) with (set_tdb_map t m3) in E3, Hir3.
  rewrite u32_id by (unfold is_u32, sizeof_rec; lia). rewrite E3.
  exists m3, (write_at (dsize key) dbuf (b_body b2)). split; [done|]. split; [|split].
  - cbn [im_heap set_heap A2 A1] in Hir3. rewrite !insert_insert_eq in Hir3. exact Hir3.
  - unfold dsize in *. rewrite write_at_take by (unfold dsize; lia). cbn [b_body b2].
    change (take (length key) (write_at 0 key (b_body b))) with (slice (Z.to_nat 0) (length key) (write_at 0 key (b_body b))).
    apply write_at_read; unfold dsize; lia.
  - replace (length key) with (Z.to_nat (dsize key)) by (unfold dsize; lia). apply write_at_read; lia.
Qed.

(** The record that was written holds the pair. *)
Lemma record_live r0 key dbuf hash body :
  take (length key) body = key → slice (length key) (length dbuf) body = dbuf →
  live_of (mk_block (record_of r0 key dbuf hash) body) = Some (key, dbuf)
  ∧ block_key (mk_block (record_of r0 key dbuf hash) body) = key.
Proof.
  intros Hk Hd. unfold live_of, block_key, block_data. cbn. unfold dsize. by rewrite !Nat2Z.id, Hk, Hd.
Qed.

Definition holds A ls (k d : bytes) : Prop := ∃ q, entry A ls q k d.
(** The pairs of [A] with the value of [key] replaced; removed. *)
Definition put A ls (key v : bytes) : image → list (list Z) → Prop :=
  λ A' ls', ∀ k d, holds A' ls' k d ↔ (k = key ∧ d = v) ∨ (k ≠ key ∧ holds A ls k d).
Definition gone A ls (key : bytes) : image → list (list Z) → Prop :=
  λ A' ls', ∀ k d, holds A' ls' k d ↔ k ≠ key ∧ holds A ls k d.

Definition absent A ls (key : bytes) : Prop := ∀ q d, ¬ entry A ls q key d.
Lemma absent_same A ls key A' ls' :
  absent A ls key → (∀ q k d, entry A' ls' q k d ↔ entry A ls q k d) → gone A ls key A' ls'.
Proof.
  intros Ha He k d. unfold holds. split.
  - intros [q Hq]. apply He in Hq. split; [|by exists q]. intros ->. by apply Ha in Hq.
  - intros [_ [q Hq]]. exists q. by apply He.
Qed.

(** The rest of [rec_ok] for a record with room for its contents. *)
Lemma record_of_ok r key dbuf hash :
  rec_ok r → is_u32 hash → dsize key + dsize dbuf + 4 <= rec_len r → rec_ok (record_of r key dbuf hash).
Proof.
  intros [? [? ?] ? ? ? ?] Hh Hfit. pose proof (dsize_nonneg key). pose proof (dsize_nonneg dbuf).
  split; cbn; [done|done| | |done|]; unfold is_u32, TDB_MAGIC in *; lia.
Qed.

(** *** A record that was allocated *)

Lemma link_record t A fl ls p b key dbuf :
  good t A fl ls → tdb_read_only t = false → absent A ls key →
  p ∉ fl → ¬ used ls p → p ≠ 0 → im_heap A !! p = Some b → dsize key + dsize dbuf + 4 <= rec_len (b_rec b) →
  ∃ top m1 m2, tdb_ofs_read t (TDB_HASH_TOP t (key_hash key)) = Some top
    ∧ write_record t p (record_of (set_next (b_rec b) top) key dbuf (key_hash key)) key dbuf = (true, set_tdb_map t m1)
    ∧ tdb_ofs_write (set_tdb_map t m1) (TDB_HASH_TOP t (key_hash key)) p = (true, set_tdb_map t m2)
    ∧ post t (λ A' _ ls', put A ls key dbuf A' ls') (set_tdb_map t m2).
Proof.
  intros Hg Hro Ha Hfl Hnu Hp0 Hb Hfit. pose proof Hg as [Hir W Fa].
  destruct (bucket_lookup _ _ (key_hash key) Hir) as [top Htop]. exists top.
  destruct (lookup_lt_is_Some_2 ls (bucket t (key_hash key))) as [l Hl].
  { rewrite (wf_len _ _ _ _ _ W). by eapply lookup_lt_Some. }
  assert (is_u32 top) as Htu.
  { destruct (ir_repr _ _ Hir) as (_ & _ & _ & _ & [_ _ Hhs] & _). by eapply (Forall_lookup_1 is_u32). }
  destruct (repr_pos _ _ _ _ Hir Hb) as ([Hbok Hbl] & Hp & Hend & Hs). pose proof (b_size_pos b).
  set (r := record_of (set_next (b_rec b) top) key dbuf (key_hash key)).
  assert (rec_ok r) as Hrok by (apply record_of_ok; [destruct Hbok; by split|apply u32_range|done]).
  destruct (write_record_ok t A p b r key dbuf Hir Hro Hb Hrok eq_refl Hfit) as (m1 & body & E1 & Hir1 & Hk & Hd).
  exists m1. set (b1 := mk_block r body) in *.
  destruct (record_live (set_next (b_rec b) top) key dbuf (key_hash key) body Hk Hd) as [Hlv Hbk]. fold r in Hlv, Hbk. fold b1 in Hlv, Hbk.
  destruct (wf_float _ _ _ _ _ p (<[p := b1]> (im_heap A)) W Hfl Hnu) as [W1 He1]; [by intros; apply lookup_insert_ne|].
  destruct (write_head (set_tdb_map t m1) _ (key_hash key) p Hir1 Hro) as (m2 & E2 & Hir2); [unfold is_u32; lia|].
  change (set_tdb_map (set_tdb_map t m1) m2) with (set_tdb_map t m2) in E2, Hir2.
  assert (used_ok hash_fn (tdb_hash_size t) (bucket t (key_hash key)) b1) as Hu.
  { split; [by left|intros _; by rewrite Hbk|done|done]. }
  destruct (wf_link _ _ _ _ _ (bucket t (key_hash key)) l p b1 top W1) as [W2 He2]; [done|done|done|done|done|by apply lookup_insert_eq|done|done| |].
  { intros q k d d' E. rewrite Hlv in E. apply (inj Some) in E. injection E as <- <-. rewrite He1. apply Ha. }
  exists m2. split; [by eapply read_head|]. split; [done|]. split; [done|].
  assert (all_free (set_heap A (<[p := b1]> (im_heap A))) fl) as Fa1 by by apply all_free_insert.
  pose proof (good_map hash_fn t m2 _ _ _ Hir2 W2 Fa1) as Hg2.
  eapply (post_map _ _ _ _ _ _ _ _ _ _ Hg Hg2 eq_refl).
  intros k d. unfold holds. split.
  - intros [q [[-> E]|Hq]%He2]; [rewrite Hlv in E; apply (inj Some) in E; injection E as <- <-; by left|].
    apply He1 in Hq. right. split; [|by exists q]. intros ->. by apply Ha in Hq.
  - intros [[-> ->]|[_ [q Hq]]]; [exists p; apply He2; by left|exists q; apply He2; right; by apply He1].
Qed.
End alloc.
