(* ===== verification/TdbUpdate.v ===== *)
(** * [tdb_store], [tdb_append] and [tdb_wipe_all] on well-formed files *)
From S2P Require Import Prelude TdbFile TdbLayout TdbChain TdbStore TdbAlloc.
Import Tdb.

Implicit Types (t : tdb_context) (A : image) (b : block) (fl : list Z) (ls : list (list Z)).

Section update.
Context (hash_fn : bytes → Z).
Local Abbreviation key_hash := (key_hash hash_fn).
Local Abbreviation good := (good hash_fn).
Local Abbreviation post := (post hash_fn).
Local Abbreviation posts := (posts hash_fn).

(** ** A new record *)

(** The outcome of a store of an absent key. *)
Definition outcome t A ls (key dbuf : bytes) (ok : bool) t' : Prop :=
  post t (λ A' _ ls', if ok then put A ls key dbuf A' ls' else gone A ls key A' ls') t'.

Lemma outcome_same t A ls A1 ls1 key dbuf ok t1 t' :
  (∀ q k d, entry A1 ls1 q k d ↔ entry A ls q k d) → frame t t1 → hdr t1 = hdr t →
  outcome t1 A1 ls1 key dbuf ok t' → outcome t A ls key dbuf ok t'.
Proof.
  intros He Hf Hh Ho. eapply post_mono; [done|done|exact Ho|]. intros A' fl' ls' HP.
  assert (∀ k d, holds A1 ls1 k d ↔ holds A ls k d) as Hh1.
  { intros k d. unfold holds. split; intros [q Hq]; exists q; by apply He. }
  destruct ok; intros k d; rewrite <- Hh1; apply HP.
Qed.

Lemma outcome_posts t A ls key dbuf ok t' :
  outcome t A ls key dbuf ok t' →
  posts t (λ A' ls', if ok then put A ls key dbuf A' ls' else gone A ls key A' ls') t'.
Proof. intros Ho. by apply post_posts. Qed.

Lemma outcome_fail t A fl ls key dbuf : good t A fl ls → absent A ls key → outcome t A ls key dbuf false t.
Proof. intros Hg Ha. eapply post_refl; [done|]. by apply absent_same. Qed.

Lemma store_allocate_ok t A fl ls key dbuf ok t' :
  good t A fl ls → tdb_read_only t = false → 0 < tdb_page_size t → absent A ls key →
  store_allocate t key dbuf (key_hash key) = (ok, t') →
  outcome t A ls key dbuf ok t' ∧ (tdb_env t = [] → ok = true ∨ tdb_overflow t' = true).
Proof.
  intros Hg Hro Hpage Ha. unfold store_allocate. destruct (tdb_lock false t) as [ok1 t1] eqn:El.
  apply tdb_lock_inv in El as (Hf1 & Hm1 & Hok1). pose proof (good_frame _ _ _ _ _ _ Hg Hf1 Hm1) as Hg1.
  pose proof (hdr_map _ _ Hm1) as Hh1. destruct ok1; cbn [negb].
  2:{ intros [= <- <-]. split; [|by intros ?%Hok1]. eapply outcome_same; [by intros|done|done|by eapply outcome_fail]. }
  destruct (if negb _ then _ else _) as [ok2 t2] eqn:Ep.
  assert (post t1 (same_entries A ls) t2 ∧ (tdb_env t1 = [] → ok2 = true)) as [[Hf2 (Hh2 & A2 & fl2 & ls2 & Hg2 & He2)] Hok2].
  { case_hyp Ep; [|injection Ep as <- <-; split; [by eapply post_refl|done]].
    eapply purge_dead_entries in Ep; [done|done|]. by rewrite (frame_read_only _ _ Hf1). }
  unfold same_entries in He2. assert (frame t t2) as Hf by by transitivity t1.
  assert (absent A2 ls2 key) as Ha2 by (intros q d Hq; by apply He2, Ha in Hq).
  destruct ok2; cbn [negb].
  2:{ intros [= <- <-]. split; [|intros He; specialize (Hok2 (frame_env _ _ Hf1 He)); done].
    eapply outcome_same; [exact He2|done|by rewrite Hh2|by eapply outcome_fail]. }
  assert (tdb_read_only t2 = false) as Hro2 by by rewrite (frame_read_only _ _ Hf).
  destruct (tdb_allocate true t2 (dsize key + dsize dbuf)) as [[p r] t3] eqn:Ea.
  pose proof (dsize_nonneg key). pose proof (dsize_nonneg dbuf).
  eapply tdb_allocate_ok in Ea; [|exact Hg2|done|by rewrite (frame_page_size _ _ Hf)|lia].
  destruct Ea as [[Hp [Hf3 (Hh3 & A3 & fl3 & ls3 & Hg3 & -> & He3 & Hfl & Hnu & _ & b & Hb & <- & Hle & _)]]|(-> & [Hf3 (Hh3 & A3 & fl3 & ls3 & Hg3 & He3 & ->)] & Hov)].
  - rewrite (proj2 (Z.eqb_neq _ _)) by done. assert (frame t t3) as Hft by by transitivity t2.
    assert (absent A3 ls2 key) as Ha3 by (intros q d Hq; by apply He3, Ha2 in Hq).
    destruct (link_record hash_fn t3 A3 fl3 ls2 p b key dbuf) as (top & m1 & m2 & -> & -> & E2 & Hpost); [done|by rewrite (frame_read_only _ _ Hft)|done..|].
    cbn [negb]. change (TDB_HASH_TOP (set_tdb_map t3 m1) (key_hash key)) with (TDB_HASH_TOP t3 (key_hash key)). rewrite E2.
    intros [= <- <-]. split; [|intros _; by left].
    eapply (outcome_same t A ls A3 ls2 key dbuf true t3); [intros q k d; by rewrite He3, He2|done|by rewrite Hh3, Hh2|exact Hpost].
  - rewrite Z.eqb_refl. intros [= <- <-]. split; [|intros He; right; by apply Hov, Hf].
    eapply (outcome_same t A ls A3 ls2 key dbuf false t3); [intros q k d; unfold same_entries in He3; by rewrite He3, He2|by transitivity t2|by rewrite Hh3, Hh2|].
    eapply outcome_fail; [done|]. intros q d Hq. by apply He3, Ha2 in Hq.
Qed.

(** ** A dead record that is used again *)

Lemma find_dead_found fuel t A fl ls i l1 l2 v len :
  good t A fl ls → ls !! i = Some (l1 ++ l2) → chain (im_heap A) v l2 → (length l2 < fuel)%nat →
  match find_dead_from fuel t len v with
  | Some (p, r) => p ∈ l2 ∧ ∃ b, im_heap A !! p = Some b ∧ r = b_rec b ∧ magic r = TDB_DEAD_MAGIC ∧ len <= rec_len r
  | None => True
  end.
Proof.
  intros Hg. revert l1 l2 v. induction fuel as [|fuel IH]; intros l1 l2 v Hl Hc Hlen; [lia|]. cbn [find_dead_from].
  inversion Hc as [|p b l Hp Hb Hc']; subst; [done|]. rewrite (proj2 (Z.eqb_neq _ _)) by done.
  destruct (wf_used _ _ _ _ _ (good_wf _ _ _ _ _ Hg) _ _ v Hl) as (b' & Hb' & Hu); [elem_solve|]. simplify_eq.
  rewrite (rec_read_used _ _ _ _ _ _ _ (good_repr _ _ _ _ _ Hg) Hc Hb Hu). cbn [mbind option_bind].
  destruct (TDB_DEAD (b_rec b) && _) eqn:E.
  - unfold TDB_DEAD in E. zbool. split; [apply list_elem_of_here|]. by exists b.
  - cbn [length] in Hlen. specialize (IH (l1 ++ [v]) l (next (b_rec b))). rewrite <- app_assoc in IH.
    specialize (IH Hl Hc' ltac:(lia)). destruct (find_dead_from _ _ _ _) as [[q r]|]; [|done].
    destruct IH as [Hq ?]. split; [elem_solve|done].
Qed.

Lemma store_dead_ok t A fl ls key dbuf ok t' :
  good t A fl ls → tdb_read_only t = false → 0 < tdb_page_size t → absent A ls key →
  store_dead t key dbuf (key_hash key) = (ok, t') →
  outcome t A ls key dbuf ok t' ∧ (tdb_env t = [] → ok = true ∨ tdb_overflow t' = true).
Proof.
  intros Hg Hro Hpage Ha. unfold store_dead. destruct (_ <=? _).
  { intros [= <- <-]. split; [|intros _; by right].
    eapply (outcome_same t A ls A ls key dbuf false (set_tdb_overflow t)); [done|by split|done|].
    eapply outcome_fail; [|done]. by eapply good_frame. }
  destruct (if negb _ then _ else None) as [[p r]|] eqn:Ef.
  2: by apply (store_allocate_ok t A fl ls).
  case_hyp Ef; [|done]. unfold tdb_find_dead in Ef.
  destruct (bucket_lookup _ _ (key_hash key) (good_repr _ _ _ _ _ Hg)) as [v Hv].
  rewrite (read_head _ _ _ _ (good_repr _ _ _ _ _ Hg) Hv) in Ef. cbn [mbind option_bind] in Ef.
  destruct (lookup_lt_is_Some_2 ls (bucket t (key_hash key))) as [l Hl].
  { rewrite (wf_len _ _ _ _ _ (good_wf _ _ _ _ _ Hg)). by eapply lookup_lt_Some. }
  pose proof (wf_chain _ _ _ _ _ (good_wf _ _ _ _ _ Hg) _ _ _ Hv Hl) as Hc.
  pose proof (find_dead_found (chain_fuel t) t A fl ls _ [] l v (dsize key + dsize dbuf + 4) Hg Hl Hc (chain_fuel_enough _ _ _ _ (good_repr _ _ _ _ _ Hg) Hc)) as Hfd.
  rewrite Ef in Hfd. destruct Hfd as (Hp & b & Hb & -> & Hdead & Hle).
  destruct (repr_pos _ _ _ _ (good_repr _ _ _ _ _ Hg) Hb) as ([Hbok _] & _).
  set (r := record_of (b_rec b) key dbuf (key_hash key)).
  destruct (write_record_ok t A p b r key dbuf (good_repr _ _ _ _ _ Hg) Hro Hb) as (m & body & -> & Hir' & Hk & Hd);
    [apply record_of_ok; [done|apply u32_range|done]|done|done|].
  destruct (record_live (b_rec b) key dbuf (key_hash key) body Hk Hd) as [Hlv Hbk]. fold r in Hlv, Hbk.
  destruct (wf_set_block _ _ _ _ _ (bucket t (key_hash key)) l p b (mk_block r body) (good_wf _ _ _ _ _ Hg)) as [W' He']; [done..| | |].
  { split; [by left|intros _; by rewrite Hbk|done|done]. }
  { intros q k d d' E He. rewrite Hlv in E. apply (inj Some) in E. injection E as <- <-. by apply Ha in He. }
  intros [= <- <-]. split; [|intros _; by left].
  assert (all_free (set_heap A (<[p := mk_block r body]> (im_heap A))) fl) as Fa by (apply all_free_insert; [apply Hg|done]).
  eapply (post_map _ _ _ _ _ _ _ _ _ _ Hg (good_map _ _ _ _ _ _ Hir' W' Fa) eq_refl).
  intros k d. unfold holds. split.
  - intros [q [[-> E]|[_ Hq]]%He']; [rewrite Hlv in E; apply (inj Some) in E; injection E as <- <-; by left|].
    right. split; [|by exists q]. intros ->. by apply Ha in Hq.
  - intros [[-> ->]|[_ [q Hq]]]; [exists p; apply He'; by left|exists q; apply He'; right; split; [|done]].
    intros ->. destruct Hq as [_ (c & Hc1 & Hlc)]. simplify_eq. unfold live_of in Hlc. by rewrite Hdead in Hlc.
Qed.

(** ** An update in place *)

Lemma live_of_Some b k d :
  live_of b = Some (k, d) → magic (b_rec b) = TDB_MAGIC ∧ k = block_key b ∧ d = block_data b.
Proof. unfold live_of. case_goal; [|done]. zbool. intros E. apply (inj Some) in E. by injection E as <- <-. Qed.

Lemma set_data_len_id r : set_data_len r (data_len r) = r.
Proof. by destruct r. Qed.

(** The bytes of the new value, and its length if it changed. *)
Lemma write_value t A p b dbuf :
  is_repr t A → tdb_read_only t = false → im_heap A !! p = Some b →
  key_len (b_rec b) + dsize dbuf + 4 <= rec_len (b_rec b) →
  let b' := mk_block (set_data_len (b_rec b) (dsize dbuf)) (write_at (key_len (b_rec b)) dbuf (b_body b)) in
  ∃ m, (let '(ok, t) := tdb_write t (u32 (p + sizeof_rec + key_len (b_rec b))) dbuf in
        if negb ok then (UpdFail, t)
        else if dsize dbuf =? data_len (b_rec b) then (UpdDone, t)
        else
          let '(ok, t) := tdb_rec_write t p (set_data_len (b_rec b) (dsize dbuf)) in
          (if ok then UpdDone else UpdFail, t)) = (UpdDone, set_tdb_map t m)
    ∧ is_repr (set_tdb_map t m) (set_heap A (<[p := b']> (im_heap A))).
Proof.
  intros Hir Hro Hb Hfit b'. destruct (repr_pos _ _ _ _ Hir Hb) as ([Hrok Hbl] & Hp & Hend & Hs). unfold b_size in Hend.
  pose proof (rec_ok_klen _ Hrok) as [? ?]. pose proof (dsize_nonneg dbuf).
  rewrite u32_id by (unfold is_u32, sizeof_rec; lia).
  destruct (write_body t A p b (key_len (b_rec b)) dbuf Hir Hro Hb) as (m1 & -> & Hir1); [lia|lia|]. cbn [negb].
  destruct (dsize dbuf =? data_len (b_rec b)) eqn:E; zbool.
  - exists m1. split; [done|]. unfold b'. by rewrite E, set_data_len_id.
  - set (A1 := set_heap A _) in Hir1.
    destruct (write_rec (set_tdb_map t m1) A1 p (mk_block (b_rec b) (write_at (key_len (b_rec b)) dbuf (b_body b)))
      (set_data_len (b_rec b) (dsize dbuf)) Hir1 Hro) as (m2 & -> & Hir2); [apply lookup_insert_eq| |done|].
    { pose proof (rec_ok_len _ Hrok) as [? ?]. destruct Hrok. split; try done. unfold is_u32. cbn. lia. }
    exists m2. split; [done|]. cbn [im_heap set_heap A1] in Hir2. rewrite insert_insert_eq in Hir2. exact Hir2.
Qed.

(** The record of a key with another value. *)
Lemma set_value t A fl ls i l1 p l2 b key d0 dbuf m :
  good t A fl ls → ls !! i = Some (l1 ++ p :: l2) → im_heap A !! p = Some b → live_of b = Some (key, d0) →
  key_len (b_rec b) + dsize dbuf + 4 <= rec_len (b_rec b) →
  let b' := mk_block (set_data_len (b_rec b) (dsize dbuf)) (write_at (key_len (b_rec b)) dbuf (b_body b)) in
  is_repr (set_tdb_map t m) (set_heap A (<[p := b']> (im_heap A))) →
  post t (λ A' _ ls', put A ls key dbuf A' ls') (set_tdb_map t m).
Proof.
  intros Hg Hl Hb Hd Hfit b' Hir'.
  destruct (wf_used _ _ _ _ _ (good_wf _ _ _ _ _ Hg) _ _ p Hl) as (b0 & Hb' & Hu); [elem_solve|]. simplify_eq.
  apply live_of_Some in Hd as Hd'. destruct Hd' as (Hm & Hkey & ->).
  assert (∀ q k d, entry A ls q k d → q ≠ p ↔ k ≠ key) as Honly by (intros q k d; by eapply entry_only).
  destruct (repr_pos _ _ _ _ (good_repr _ _ _ _ _ Hg) Hb) as ([Hrok Hbl] & _). pose proof (rec_ok_klen _ Hrok) as [? ?].
  pose proof (dsize_nonneg dbuf).
  assert (block_key b' = block_key b) as Hbk by (apply write_at_take; cbn; lia).
  assert (live_of b' = Some (key, dbuf)) as Hlv.
  { unfold live_of. cbn [b_rec b' set_data_len magic]. rewrite Hm, Z.eqb_refl, Hbk, <- Hkey. do 2 f_equal.
    unfold block_data. cbn [b_rec b' set_data_len data_len key_len b_body].
    replace (Z.to_nat (dsize dbuf)) with (length dbuf) by (unfold dsize; lia). apply write_at_read; lia. }
  destruct (wf_set_block _ _ _ _ _ i _ p b b' (good_wf _ _ _ _ _ Hg) Hl) as [W' He'];
    [elem_solve|done|done| | |].
  { destruct Hu as [Hu1 Hu2 Hu3 Hu4]. split; [done|rewrite Hbk; done|done|cbn; lia]. }
  { intros q k d d' E Hq. rewrite Hlv in E. apply (inj Some) in E. injection E as <- <-.
    destruct (decide (q = p)) as [|Hne]; [done|]. by apply (Honly _ _ _ Hq) in Hne. }
  assert (all_free (set_heap A (<[p := b']> (im_heap A))) fl) as Fa.
  { apply all_free_insert; [apply Hg|]. intros E. cbn in E. by rewrite Hm in E. }
  eapply (post_map _ _ _ _ _ _ _ _ _ _ Hg (good_map _ _ _ _ _ _ Hir' W' Fa) eq_refl).
  intros k d. unfold holds. split.
  - intros [q [[-> E]|[Hne Hq]]%He']; [rewrite Hlv in E; apply (inj Some) in E; injection E as <- <-; by left|].
    right. split; [by apply (Honly _ _ _ Hq)|by exists q].
  - intros [[-> ->]|[Hne [q Hq]]]; [exists p; apply He'; by left|exists q; apply He'; right; split; [|done]].
    by apply (Honly _ _ _ Hq).
Qed.

Lemma update_hash_ok t A fl ls key dbuf u t' :
  good t A fl ls → tdb_read_only t = false → tdb_update_hash hash_fn t key (key_hash key) dbuf = (u, t') →
  match u with
  | UpdDone => post t (λ A' _ ls', put A ls key dbuf A' ls') t' ∧ ∃ d, holds A ls key d
  | UpdNoexist => t' = t ∧ absent A ls key
  | UpdFail => t' = t ∧ ∃ d, holds A ls key d
  end.
Proof.
  intros Hg Hro. unfold tdb_update_hash, tdb_parse_record. cbn [tdb_lock].
  destruct (tdb_find_found _ t A fl ls key Hg) as [l1 p l2 b d0 Hl Hb Hd|Hno].
  2:{ intros [= <- <-]. done. }
  destruct (wf_used _ _ _ _ _ (good_wf _ _ _ _ _ Hg) _ _ p Hl) as (b' & Hb' & Hu); [elem_solve|]. simplify_eq.
  apply live_of_Some in Hd as Hd'. destruct Hd' as (Hm & Hkey & ->). pose proof (uo_fit _ _ _ _ Hu) as Hfit.
  destruct (read_key _ _ _ _ (good_repr _ _ _ _ _ Hg) Hb Hfit) as [_ Hks]. rewrite <- Hkey in Hks.
  destruct (read_data _ _ _ _ (good_repr _ _ _ _ _ Hg) Hb Hfit) as [Hrd Hds]. unfold tdb_parse_data. rewrite Hrd.
  assert (entry A ls p key (block_data b)) as He.
  { split; [exists (bucket t (key_hash key)), (l1 ++ p :: l2); split; [done|elem_solve]|]. by exists b. }
  set (same := (_ =? _) && _ && _). destruct (if same then _ else _) as [old t1] eqn:Eo.
  assert (t1 = t ∧ (old = Some dbuf → block_data b = dbuf)) as [-> Hold].
  { case_hyp Eo; injection Eo as <- <-; split; [done|congruence|done|done]. }
  destruct (bool_decide (old = Some dbuf)) eqn:Eb; zbool.
  { specialize (Hold Eb) as <-. intros [= <- <-]. split; [|by exists (block_data b), p]. eapply post_refl; [done|].
    intros k d. split; [|intros [[-> ->]|[_ ?]]; [by exists p|done]].
    intros [q Hq]. destruct (decide (k = key)) as [->|]; [left; split; [done|]|right; split; [done|by exists q]].
    pose proof (wf_unique _ _ _ _ _ (good_wf _ _ _ _ _ Hg) _ _ _ _ _ He Hq) as <-. destruct Hq as [_ (? & ? & ?)]. congruence. }
  destruct (rec_len (b_rec b) <? _) eqn:El; zbool.
  { intros [= <- <-]. split; [done|]. by exists (block_data b), p. }
  destruct (write_value t A p b dbuf (good_repr _ _ _ _ _ Hg) Hro Hb ltac:(lia)) as (m & -> & Hir').
  intros [= <- <-]. split; [|by exists (block_data b), p]. eapply set_value; [done..|lia|done].
Qed.

(** ** [tdb_store] *)

(** What a store does: the pair is there; or the key is gone; or, for an insert
    of a key that is there and a modification of one that is not, nothing. *)
Definition stored A ls (key dbuf : bytes) (flag : store_flag) (ok : bool) : image → list (list Z) → Prop :=
  λ A' ls',
    if ok then put A ls key dbuf A' ls'
      ∧ match flag with
        | TDB_REPLACE => True
        | TDB_INSERT => absent A ls key
        | TDB_MODIFY => ∃ d, holds A ls key d
        end
    else gone A ls key A' ls'
      ∨ (∀ k d, holds A' ls' k d ↔ holds A ls k d)
        ∧ match flag with
          | TDB_REPLACE => False
          | TDB_INSERT => ∃ d, holds A ls key d
          | TDB_MODIFY => absent A ls key
          end.

Lemma without_holds A ls key A' fl' ls' : without A ls key A' fl' ls' → gone A ls key A' ls' ∧ absent A' ls' key.
Proof.
  intros Hw. split.
  - intros k d. unfold holds. split; [intros [q [? ?]%Hw]; split; [done|by exists q]|].
    intros [Hne [q Hq]]. exists q. by apply Hw.
  - intros q d [? _]%Hw. done.
Qed.

(** Delete the old record, then store the new one. *)
Lemma delete_store_ok t A fl ls key dbuf ok t' :
  good t A fl ls → tdb_read_only t = false → 0 < tdb_page_size t →
  store_dead (tdb_delete_hash true t key (key_hash key)).2 key dbuf (key_hash key) = (ok, t') →
  posts t (λ A' ls', if ok then put A ls key dbuf A' ls' else gone A ls key A' ls') t'
  ∧ (tdb_env t = [] → ok = true ∨ tdb_overflow t' = true).
Proof.
  intros Hg Hro Hpage. destruct (tdb_delete_hash true t key (key_hash key)) as [ok1 t1] eqn:Ed. cbn [snd].
  eapply delete_hash_entries in Ed as [[[Hf1 (Hh1 & Hr1 & A1 & fl1 & ls1 & Hg1 & Hw)]|[[=] _]] _]; [|done..].
  apply without_holds in Hw as [Hgone Ha]. intros E.
  eapply store_dead_ok in E as [Ho Hok]; [|exact Hg1|by rewrite (frame_read_only _ _ Hf1)|by rewrite (frame_page_size _ _ Hf1)|done].
  split; [|intros He; apply Hok; by apply Hf1].
  eapply (posts_mono _ t t1 t'); [done|done|done|by apply outcome_posts|]. intros A2 ls2 H2. unfold gone in Hgone.
  destruct ok; intros k d; rewrite (H2 k d), Hgone; tauto.
Qed.

Lemma exists_holds t A fl ls key :
  good t A fl ls → if exists_locked t key (key_hash key) then ∃ d, holds A ls key d else absent A ls key.
Proof.
  intros Hg. pose proof (exists_entry _ t A fl ls key Hg) as He. destruct (exists_locked _ _ _).
  - destruct (proj1 He eq_refl) as (q & d & Hq). by exists d, q.
  - intros q d Hq. destruct He as [_ He]. by discriminate He; exists q, d.
Qed.

Lemma store_body_ok t A fl ls key dbuf flag ok t' :
  good t A fl ls → tdb_read_only t = false → 0 < tdb_page_size t →
  store_body hash_fn t key dbuf flag (key_hash key) = (ok, t') →
  posts t (stored A ls key dbuf flag ok) t'
  ∧ (tdb_env t = [] → flag = TDB_REPLACE → ok = true ∨ tdb_overflow t' = true).
Proof.
  intros Hg Hro Hpage.
  assert (flag ≠ TDB_INSERT →
    store_dead (tdb_delete_hash true t key (key_hash key)).2 key dbuf (key_hash key) = (ok, t') →
    (flag = TDB_MODIFY → ∃ d, holds A ls key d) →
    posts t (stored A ls key dbuf flag ok) t'
    ∧ (tdb_env t = [] → flag = TDB_REPLACE → ok = true ∨ tdb_overflow t' = true)) as Hds.
  { intros Hni E Hm. eapply delete_store_ok in E as [Hp Hok]; [|done..]. split; [|by intros ?%Hok _].
    eapply posts_mono; [done|done|done|done|]. intros A' ls' HP. destruct ok; [split; [done|]|by left].
    destruct flag; [done|done|by apply Hm]. }
  assert (posts t (λ A' ls', ∀ k d, holds A' ls' k d ↔ holds A ls k d) t) as Hsame.
  { apply post_posts. by eapply post_refl. }
  unfold store_body. destruct flag.
  1,3: destruct (tdb_update_hash hash_fn t key (key_hash key) dbuf) as [u t1] eqn:Eu; eapply update_hash_ok in Eu; [|done..]; destruct u.
  - intros [= <- <-]. destruct Eu as [Hp _]. split; [|intros _ _; by left]. eapply posts_mono; [done|done|done|by apply post_posts|]. done.
  - destruct Eu as [-> _]. intros E. by apply Hds.
  - destruct Eu as [-> _]. intros E. by apply Hds.
  - intros [= <- <-]. destruct Eu as [Hp Hh]. split; [|done]. eapply posts_mono; [done|done|done|by apply post_posts|]. done.
  - destruct Eu as [-> Ha]. intros [= <- <-]. split; [|done]. eapply posts_mono; [done|done|done|done|]. intros A' ls' HP. by right.
  - destruct Eu as [-> Hh]. intros E. by apply Hds.
  - unfold tdb_exists_hash. cbn [tdb_lock andb]. pose proof (exists_holds t A fl ls key Hg) as He.
    destruct (exists_locked t key (key_hash key)).
    + intros [= <- <-]. split; [|done]. eapply posts_mono; [done|done|done|done|]. intros A' ls' HP. by right.
    + intros E. eapply store_dead_ok in E as [Ho Hok]; [|done..]. split; [|done].
      eapply posts_mono; [done|done|done|by apply outcome_posts|]. intros A' ls' HP. destruct ok; [done|by left].
Qed.

Lemma holds_heap A A' ls k d : im_heap A' = im_heap A → holds A' ls k d ↔ holds A ls k d.
Proof. intros E. unfold holds. split; intros [q Hq]; exists q; by eapply entry_heap. Qed.

Lemma store_hash_ok t A fl ls key dbuf flag ok t' :
  good t A fl ls → tdb_read_only t = false → 0 < tdb_page_size t →
  _tdb_store hash_fn t key dbuf flag (key_hash key) = (ok, t') →
  posts t (stored A ls key dbuf flag ok) t'
  ∧ (tdb_env t = [] → flag = TDB_REPLACE → ok = true ∨ tdb_overflow t' = true).
Proof.
  intros Hg Hro Hpage. unfold _tdb_store. destruct (store_body _ _ _ _ _ _) as [ok1 t1] eqn:Eb.
  eapply store_body_ok in Eb as [Hp Hok]; [|done..]. intros [= <- <-]. destruct ok1; [|done].
  split; [|intros _ _; by left]. apply posts_increment; [|done].
  intros B B' ls' EB [HP Hf]. split; [|done]. intros k d. by rewrite (holds_heap _ _ _ _ _ EB), (HP k d).
Qed.
End update.
