(* ===== verification/TdbTraverse.v ===== *)
(** * [tdb_wipe_all] and the traversals on well-formed files *)
From S2P Require Import Prelude TdbFile TdbLayout TdbChain TdbStore TdbAlloc TdbUpdate.
Import Tdb.

Implicit Types (t : tdb_context) (A : image) (b : block) (fl : list Z) (ls : list (list Z)).

Section traverse.
Context (hash_fn : bytes → Z).
Local Abbreviation key_hash := (key_hash hash_fn).
Local Abbreviation good := (good hash_fn).
Local Abbreviation post := (post hash_fn).
Local Abbreviation posts := (posts hash_fn).

(** ** [tdb_wipe_all] *)

(** The chain heads from [i] on become empty. *)
Definition zero_heads (i : nat) (heads : list Z) : list Z := take i heads ++ replicate (length heads - i) 0.

Lemma zero_heads_S i heads :
  (i < length heads)%nat → zero_heads (S i) (<[i := 0]> heads) = zero_heads i heads.
Proof.
  intros Hi. unfold zero_heads. rewrite length_insert.
  rewrite (take_S_r _ _ 0) by (by apply list_lookup_insert_eq). rewrite take_insert_ge, <- app_assoc by lia.
  f_equal. change ([0] ++ replicate (length heads - S i) 0) with (replicate (S (length heads - S i)) 0). f_equal. lia.
Qed.

Lemma wipe_heads_ok n t A i :
  is_repr t A → tdb_read_only t = false → (i + n = length (im_heads A))%nat →
  writes (λ t, wipe_heads n t (Z.of_nat i)) t (set_heads A (zero_heads i (im_heads A))).
Proof.
  revert t A i. induction n as [|n IH]; intros t A i Hir Hro Hn; cbn [wipe_heads].
  - exists (tdb_map t). rewrite set_tdb_map_id. split; [done|]. unfold zero_heads.
    rewrite take_ge by lia. replace (length (im_heads A) - i)%nat with 0%nat by lia. rewrite app_nil_r. by destruct A.
  - destruct (write_head t A (Z.of_nat i) 0 Hir Hro) as (m & E & Hir1); [unfold is_u32; lia|].
    assert (bucket t (Z.of_nat i) = i) as Hb.
    { unfold bucket, BUCKET. rewrite (ir_heads _ _ Hir), Z.mod_small by lia. lia. }
    unfold writes. rewrite E. rewrite Hb in Hir1.
    destruct (IH (set_tdb_map t m) _ (S i) Hir1 Hro) as (m2 & E2 & Hir2); [cbn; rewrite length_insert; lia|].
    exists m2. replace (Z.of_nat i + 1) with (Z.of_nat (S i)) by lia. rewrite E2. split; [done|].
    cbn [im_heads set_heads] in Hir2. rewrite zero_heads_S in Hir2 by lia. exact Hir2.
Qed.

(** The data area is empty or has room for a record. *)
Lemma data_area t A :
  is_repr t A → (tdb_map_size t = data_start A ∧ im_heap A = ∅) ∨ data_start A + 28 <= tdb_map_size t.
Proof.
  intros [(ss & Hm & Hh & Hf & Hok & _) _ _]. unfold tdb_map_size. rewrite Hm, dsize_app, dsize_table_bytes by done.
  destruct ss as [|s ss]; [left; split; [change (dsize (segs_bytes [])) with 0; lia|done]|right]. apply Forall_cons in Hf as [Hs _].
  rewrite segs_bytes_cons, dsize_app. pose proof (seg_size_pos s Hs). pose proof (dsize_nonneg (segs_bytes ss)). lia.
Qed.

(** A file whose lists are all empty. *)
Lemma wf_empty hs A n :
  im_free A = 0 → im_heads A = replicate n 0 → wf hash_fn hs A [] (replicate n [])
  ∧ ∀ q k d, ¬ entry A (replicate n []) q k d.
Proof.
  intros Hf Hh. assert (∀ i l p, replicate n (@nil Z) !! i = Some l → p ∈ l → False) as Hno.
  { intros i l p [-> _]%lookup_replicate Hp. by apply not_elem_of_nil in Hp. }
  assert (∀ q k d, ¬ entry A (replicate n []) q k d) as He by (intros q k d [(i & l & Hl & Hq) _]; by eapply Hno).
  split; [|done]. split.
  - rewrite Hf. constructor.
  - by intros p ?%not_elem_of_nil.
  - by rewrite Hh, !length_replicate.
  - intros i v l Hv Hl. rewrite Hh in Hv. apply lookup_replicate in Hv as [-> _], Hl as [-> _]. constructor.
  - intros i l p Hl Hp. by edestruct Hno.
  - intros q q' k d d' Hq. by apply He in Hq.
Qed.

Lemma free_region_all t A n :
  is_repr t A → tdb_read_only t = false → im_free A = 0 → im_heads A = replicate n 0 →
  ∃ m A', tdb_free_region t (TDB_DATA_START t) (tdb_map_size t - TDB_DATA_START t) = (true, set_tdb_map t m)
    ∧ im_hdr A' = im_hdr A ∧ (∀ q k d, ¬ entry A' (replicate n []) q k d)
    ∧ ∃ fl, good (set_tdb_map t m) A' fl (replicate n []).
Proof.
  intros Hir Hro Hf Hh. rewrite (is_repr_data_start _ _ Hir). unfold tdb_free_region.
  destruct (repr_size _ _ (ir_repr _ _ Hir)) as [Hds Hms]. fold (tdb_map_size t) in Hds, Hms.
  assert (172 <= data_start A) as H172 by (unfold data_start; lia).
  rewrite u64_id by (unfold is_u64; lia).
  destruct (data_area _ _ Hir) as [[Hz He]|Hge].
  - rewrite (proj2 (Z.leb_le _ _)) by (unfold sizeof_rec; lia). exists (tdb_map t), A. rewrite set_tdb_map_id.
    destruct (wf_empty (tdb_hash_size t) A n Hf Hh) as [W Hno]. split; [done|]. split; [done|]. split; [done|].
    exists []. split; [done|done|]. intros p b Hp. by rewrite He in Hp.
  - rewrite (proj2 (Z.leb_gt _ _)), (proj2 (Z.ltb_ge _ _)) by (unfold sizeof_rec; lia).
    set (r := mk_rec 0 (u32 _) 0 0 0 0).
    assert (rec_len r = tdb_map_size t - data_start A - 24) as Hr.
    { cbn [rec_len r]. rewrite u32_id; unfold is_u32, sizeof_rec; lia. }
    assert (rec_ok r) as Hrok by (split; try apply u32_range; unfold is_u32; cbn; lia).
    pose proof (wipe_gap _ _ Hir) as Hgap. replace (tdb_map_size t - data_start A) with (24 + rec_len r) in Hgap by lia.
    destruct (tdb_free_gap _ _ _ _ Hgap Hro) as (A' & Hfr & m & E & Hir'); [lia|done|].
    destruct (wf_empty (tdb_hash_size t) (set_heap A ∅) n Hf Hh) as [W Hno].
    destruct (freed_good hash_fn t (set_heap A ∅) [] (replicate n []) (data_start A) r A' m) as (Hh' & He' & fl' & _ & _ & Hg' & _); [done|..|done|done|].
    + intros p b Hp. cbn in Hp. done.
    + by intros ?%not_elem_of_nil.
    + intros (i & l & [-> _]%lookup_replicate & Hp). by apply not_elem_of_nil in Hp.
    + unfold data_start. lia.
    + lia.
    + intros p b Hp. cbn in Hp. done.
    + exists m, A'. split; [done|]. split; [done|]. split; [|by exists fl']. intros q k d ?%He'. by eapply Hno.
Qed.

Lemma wipe_all_ok t A fl ls ok t' :
  good t A fl ls → tdb_read_only t = false → recovery_head t = 0 → tdb_wipe_all t = (ok, t') →
  posts t (λ A' ls', if ok then ∀ q k d, ¬ entry A' ls' q k d else ∀ q k d, entry A' ls' q k d ↔ entry A ls q k d) t'
  ∧ (tdb_env t = [] → ok = true).
Proof.
  intros Hg Hro Hrh. unfold tdb_wipe_all. destruct (ask t) as [ok1 t1] eqn:Ea. apply ask_inv in Ea as (Hf1 & Hm1 & Hok1).
  pose proof (good_frame _ _ _ _ _ _ Hg Hf1 Hm1) as Hg1. pose proof (hdr_map _ _ Hm1) as Hh1.
  destruct ok1; cbn [negb].
  2:{ intros [= <- <-]. split; [|by intros ?%Hok1]. apply post_posts. split; [done|]. split; [done|]. by exists A, fl, ls. }
  pose proof Hg1 as [Hir1 W1 _]. change TDB_RECOVERY_HEAD with (Z.of_nat 44). rewrite (read_hdr _ _ _ Hir1) by lia.
  rewrite (hdr_word_44 _ _ Hir1). unfold recovery_head in *. rewrite Hh1, Hrh. cbn [Z.eqb].
  assert (tdb_read_only t1 = false) as Hro1 by by rewrite (frame_read_only _ _ Hf1).
  destruct (wipe_heads_ok (Z.to_nat (tdb_hash_size t1)) t1 A 0 Hir1 Hro1) as (m2 & E2 & Hir2).
  { rewrite (ir_heads _ _ Hir1). lia. }
  change (Z.of_nat 0) with 0 in E2. rewrite E2. cbn [negb]. set (A2 := set_heads A _) in Hir2.
  destruct (write_free (set_tdb_map t1 m2) A2 0 Hir2 Hro1) as (m3 & -> & Hir3); [unfold is_u32; lia|]. cbn [negb].
  change (set_tdb_map (set_tdb_map t1 m2) m3) with (set_tdb_map t1 m3) in *.
  destruct (free_region_all (set_tdb_map t1 m3) (set_free A2 0) (length (im_heads A)) Hir3 Hro1) as (m4 & A4 & -> & Hh4 & Hno & fl4 & Hg4); [done| |].
  { cbn. unfold zero_heads. by rewrite Nat.sub_0_r. }
  cbn [negb]. change (set_tdb_map (set_tdb_map t1 m3) m4) with (set_tdb_map t1 m4) in *.
  intros [= <- <-]. split; [|done].
  destruct (increment_nonblock _ _ _ _ _ Hg4) as (A5 & Hg5 & [Hf5 Hfl _] & Eh & Er).
  split; [transitivity t1; [done|]; by transitivity (set_tdb_map t1 m4); [apply frame_map|]|].
  assert (hdr (set_tdb_map t1 m4) = hdr t1) as Hh14.
  { rewrite (hdr_repr _ _ (good_repr _ _ _ _ _ Hg4)), Hh4. symmetry. apply (hdr_repr _ _ Hir1). }
  split. { intros E. rewrite Hfl; [by rewrite Hh14|]. cbn. by rewrite (frame_flag _ _ Hf1). }
  split.
  { unfold recovery_head. fold (recovery_head (tdb_increment_seqnum_nonblock (set_tdb_map t1 m4))).
    rewrite <- (hdr_word_44 _ _ (good_repr _ _ _ _ _ Hg5)), Er, (hdr_word_44 _ _ (good_repr _ _ _ _ _ Hg4)).
    unfold recovery_head. by rewrite Hh14, Hh1. }
  exists A5, fl4, (replicate (length (im_heads A)) []). split; [done|]. intros q k d He. apply (Hno q k d).
  by eapply entry_heap.
Qed.

(** ** Traversals *)

(** The pairs in the live records of a list of offsets, in order. *)
Definition live_list A (l : list Z) : list (bytes * bytes) := omap (λ q, im_heap A !! q ≫= live_of) l.
Definition live_lists A ls : list (bytes * bytes) := mjoin (live_list A <$> ls).

Lemma live_list_same A A' l :
  (∀ q, q ∈ l → im_heap A !! q ≫= live_of = im_heap A' !! q ≫= live_of) → live_list A l = live_list A' l.
Proof.
  intros Hs. induction l as [|q l IH]; [done|]. unfold live_list in *. cbn [omap list_omap].
  rewrite (Hs q) by apply list_elem_of_here. rewrite IH; [done|]. intros q' Hq'. apply Hs. elem_solve.
Qed.

(** A used record that holds the same pairs has the same live value. *)
Lemma same_live A ls A' ls' q :
  (∀ k d, entry A' ls' q k d ↔ entry A ls q k d) → used ls q → used ls' q →
  im_heap A !! q ≫= live_of = im_heap A' !! q ≫= live_of.
Proof.
  intros He Hu Hu'.
  assert (∀ B lsB p, used lsB p → ∀ kd, im_heap B !! p ≫= live_of = Some kd ↔ entry B lsB p kd.1 kd.2) as Hx.
  { intros B lsB p HuB [k d]. unfold entry. cbn [fst snd]. destruct (im_heap B !! p) as [b|] eqn:Eb; cbn [mbind option_bind].
    - split; [intros; split; [done|]; by exists b|]. intros [_ (c & [= <-] & ?)]. done.
    - split; [done|]. by intros [_ (c & [=] & _)]. }
  apply option_eq. intros kd. rewrite (Hx A ls q Hu), (Hx A' ls' q Hu'). by rewrite He.
Qed.

(** What happens to the image during a traversal. *)
Definition cleaned A ls (i : nat) : image → list (list Z) → Prop :=
  λ A' ls', (∀ q k d, entry A' ls' q k d ↔ entry A ls q k d) ∧ ∃ l, ls' = <[i := l]> ls.

Definition next_ok A (i : nat) (l2 : list Z) (res : next_result) : image → list (list Z) → Prop :=
  λ A' ls',
    match res with
    | NextAt off r => ∃ l1' l2' b, ls' !! i = Some (l1' ++ off :: l2') ∧ im_heap A' !! off = Some b ∧ r = b_rec b
        ∧ live_list A l2 = (block_key b, block_data b) :: live_list A' l2' ∧ ∀ q, q ∈ l2' → q ∈ l2
    | NextDone => live_list A l2 = []
    | NextErr => True
    end.

Lemma live_list_cons A q l :
  live_list A (q :: l) = match im_heap A !! q ≫= live_of with Some kd => kd :: live_list A l | None => live_list A l end.
Proof. done. Qed.

(** A dead record is deleted on the way. *)
Lemma clean_dead t A fl ls i l1 v l b ok t1 :
  good t A fl ls → tdb_read_only t = false → ls !! i = Some (l1 ++ v :: l) → im_heap A !! v = Some b →
  magic (b_rec b) = TDB_DEAD_MAGIC → tdb_do_delete false t v (b_rec b) = (ok, t1) →
  frame t t1 ∧ hdr t1 = hdr t ∧ (tdb_env t = [] → ok = true)
  ∧ ∃ A1 fl1 ls1 l1', good t1 A1 fl1 ls1 ∧ ls1 !! i = Some (l1' ++ l) ∧ cleaned A ls i A1 ls1 ∧ live_list A l = live_list A1 l.
Proof.
  intros Hg Hro Hl Hb Hm E.
  eapply do_delete_record in E as [[Hf1 (Hh1 & A1 & fl1 & ls1 & Hg1 & [l1' Els1] & He1)] Hok1]; [|done..].
  assert (∀ q k d, entry A1 ls1 q k d ↔ entry A ls q k d) as He.
  { intros q k d. rewrite He1. split; [tauto|]. intros Hq. split; [|done]. intros ->. destruct Hq as [_ (c & Hc2 & Hlv)].
    simplify_eq. unfold live_of in Hlv. by rewrite Hm in Hlv. }
  assert (ls1 !! i = Some (l1' ++ l)) as Hl1 by (rewrite Els1; apply list_lookup_insert_eq; by eapply lookup_lt_Some).
  split; [done|]. split; [done|]. split; [done|]. exists A1, fl1, ls1, l1'. split; [done|]. split; [done|].
  split; [split; [done|by exists (l1' ++ l)]|].
  apply live_list_same. intros q Hq. apply (same_live A ls A1 ls1); [apply He| |].
  - exists i, (l1 ++ v :: l). split; [done|elem_solve].
  - exists i, (l1' ++ l). split; [done|elem_solve].
Qed.

(** Cleaning twice; a larger list to look in. *)
Lemma cleaned_trans A ls i A1 ls1 A2 ls2 : cleaned A ls i A1 ls1 → cleaned A1 ls1 i A2 ls2 → cleaned A ls i A2 ls2.
Proof.
  intros [He [l ->]] [He' [l' ->]]. split; [intros q k d; by rewrite He', He|]. exists l'. by rewrite list_insert_insert_eq.
Qed.
Lemma next_ok_cons A A1 i v l res A' ls' :
  live_list A (v :: l) = live_list A1 l → next_ok A1 i l res A' ls' → next_ok A i (v :: l) res A' ls'.
Proof.
  intros E Hn. unfold next_ok in *. rewrite E. destruct res; [|done|done]. destruct Hn as (l1' & l2' & c & ? & ? & ? & ? & Hsub).
  exists l1', l2', c. do 4 (split; [done|]). intros q ?%Hsub. elem_solve.
Qed.

Lemma next_in_chain_ok fuel (traverse_read : bool) t A fl ls i l1 l2 v res t' :
  good t A fl ls → tdb_read_only t = false → ls !! i = Some (l1 ++ l2) → chain (im_heap A) v l2 →
  (length l2 < fuel)%nat → next_in_chain fuel traverse_read t v = (res, t') →
  post t (λ A' _ ls', cleaned A ls i A' ls' ∧ next_ok A i l2 res A' ls') t' ∧ (tdb_env t = [] → res ≠ NextErr).
Proof.
  revert t A fl ls l1 l2 v. induction fuel as [|fuel IH]; intros t A fl ls l1 l2 v Hg Hro Hl Hc Hlen; [lia|]. cbn [next_in_chain].
  assert (cleaned A ls i A ls) as Hcl0 by (split; [done|]; exists (l1 ++ l2); by rewrite list_insert_id).
  inversion Hc as [|p b l Hp Hb Hc']; subst.
  { intros [= <- <-]. split; [|done]. by eapply post_refl. }
  rewrite (proj2 (Z.eqb_neq _ _)) by done.
  destruct (wf_used _ _ _ _ _ (good_wf _ _ _ _ _ Hg) _ _ v Hl) as (b' & Hb' & Hu); [elem_solve|]. simplify_eq.
  rewrite (rec_read_used _ _ _ _ _ _ _ (good_repr _ _ _ _ _ Hg) Hc Hb Hu). cbn [length] in Hlen.
  assert (v ≠ next (b_rec b)) as Hloop.
  { intros En. rewrite <- En in Hc'. inversion Hc'; subst; [done|]. apply chain_NoDup, NoDup_cons in Hc as [Hn _]. elem_solve. }
  rewrite (proj2 (Z.eqb_neq _ _)) by done.
  destruct (TDB_DEAD (b_rec b)) eqn:Ed; unfold TDB_DEAD in Ed; zbool; cbn [negb].
  2:{ destruct (ask t) as [ok t1] eqn:Ea. apply ask_inv in Ea as (Hf1 & Hm1 & Hok1).
    pose proof (good_frame _ _ _ _ _ _ Hg Hf1 Hm1) as Hg1. intros [= <- <-].
    split; [|intros ?%Hok1; by destruct ok]. split; [done|]. split; [by apply hdr_map|]. exists A, fl, ls. split; [done|]. split; [done|].
    destruct ok; [|done]. exists l1, l, b. split; [done|]. split; [done|]. split; [done|]. split; [|intros; elem_solve].
    rewrite live_list_cons, Hb. cbn [mbind option_bind]. unfold live_of.
    destruct (uo_magic _ _ _ _ Hu) as [-> |?]; [by rewrite Z.eqb_refl|done]. }
  assert (im_heap A !! v ≫= live_of = None) as Hdead.
  { rewrite Hb. cbn [mbind option_bind]. unfold live_of. by rewrite Ed. }
  assert (live_list A (v :: l) = live_list A l) as Hll by by rewrite live_list_cons, Hdead.
  destruct (negb (tdb_read_only t || traverse_read)).
  2:{ intros E. eapply (IH t A fl ls (l1 ++ [v]) l) in E as [Hpost Hne]; [|done|done|by rewrite <- app_assoc|done|lia].
    split; [|done]. eapply post_mono; [done|done|done|]. intros A' fl' ls' [Hcl Hn]. split; [done|]. by eapply next_ok_cons. }
  destruct (tdb_do_delete false t v (b_rec b)) as [ok1 t1] eqn:Edel.
  eapply clean_dead in Edel as (Hf1 & Hh1 & Hok1 & A1 & fl1 & ls1 & l1' & Hg1 & Hl1 & Hcl & Hll1); [|done..].
  destruct ok1.
  2:{ intros [= <- <-]. split; [|intros ?%Hok1; done]. split; [done|]. split; [done|]. by exists A1, fl1, ls1. }
  pose proof (chain_suffix _ _ _ _ _ _ _ _ _ _ Hg1 Hl1 Hc') as Hc1.
  intros E. eapply (IH t1 A1 fl1 ls1 l1' l) in E as [Hpost Hne]; [|done|by rewrite (frame_read_only _ _ Hf1)|done|done|lia].
  split; [|intros Henv; by apply Hne, Hf1]. eapply post_mono; [done|done|done|].
  intros A' fl' ls' [Hcl' Hn]. split; [by eapply cleaned_trans|]. eapply next_ok_cons; [|done]. by rewrite Hll.
Qed.

(** The pairs that a traversal at record [off] of chain [h] has still to visit. *)
Definition remaining A ls (off : Z) (h : nat) (R : list (bytes * bytes)) : Prop :=
  (h <= length ls)%nat
  ∧ ((off = 0 ∧ R = live_lists A (drop h ls))
     ∨ (off ≠ 0 ∧ ∃ l1 l2, ls !! h = Some (l1 ++ off :: l2) ∧ R = live_list A l2 ++ live_lists A (drop (S h) ls))).

Lemma live_lists_drop A ls h l :
  ls !! h = Some l → live_lists A (drop h ls) = live_list A l ++ live_lists A (drop (S h) ls).
Proof. intros Hl. by rewrite (drop_S ls l h Hl). Qed.

(** Cleaning one chain keeps what the others hold. *)
Lemma live_lists_cleaned A ls i A' ls' :
  cleaned A ls i A' ls' → live_lists A (drop (S i) ls) = live_lists A' (drop (S i) ls').
Proof.
  intros [He [l ->]]. rewrite drop_insert_lt by lia. unfold live_lists. f_equal. apply list_fmap_ext.
  intros j l' Hj. apply live_list_same. intros q Hq. rewrite lookup_drop in Hj. apply (same_live A ls A' (<[i := l]> ls)); [apply He| |].
  - by exists (S i + j)%nat, l'.
  - exists (S i + j)%nat, l'. rewrite list_lookup_insert_ne by lia. done.
Qed.

Lemma next_hash_chain_ok fuel t A fl ls h :
  good t A fl ls → (h <= length ls)%nat → (length ls - h <= fuel)%nat →
  ∃ h', next_hash_chain fuel t (Z.of_nat h) = Z.of_nat h' ∧ (h <= h' <= length ls)%nat
    ∧ live_lists A (drop h ls) = live_lists A (drop h' ls).
Proof.
  intros Hg. assert (tdb_hash_size t = Z.of_nat (length ls)) as Hs.
  { by rewrite (wf_len _ _ _ _ _ (good_wf _ _ _ _ _ Hg)), (ir_heads _ _ (good_repr _ _ _ _ _ Hg)). }
  revert h. induction fuel as [|fuel IH]; intros h Hh Hf; cbn [next_hash_chain].
  { exists h. split; [done|]. split; [lia|done]. }
  rewrite Hs. destruct (Z.of_nat h <? Z.of_nat (length ls)) eqn:Elt; zbool; [|exists h; split; [done|]; split; [lia|done]].
  destruct (bool_decide _) eqn:Eb; zbool; [|exists h; split; [done|]; split; [lia|done]].
  destruct (IH (S h)) as (h' & E & Hr & El); [lia|lia|]. exists h'.
  replace (Z.of_nat h + 1) with (Z.of_nat (S h)) by lia. split; [done|]. split; [lia|]. rewrite <- El.
  destruct (lookup_lt_is_Some_2 ls h) as [l Hl]; [lia|]. rewrite (live_lists_drop _ _ _ _ Hl).
  destruct (bucket_lookup _ _ (Z.of_nat h) (good_repr _ _ _ _ _ Hg)) as [v Hv].
  rewrite (read_head _ _ _ _ (good_repr _ _ _ _ _ Hg) Hv) in Eb. injection Eb as ->.
  assert (bucket t (Z.of_nat h) = h) as Hb by (unfold bucket, BUCKET; rewrite Hs, Z.mod_small by lia; lia).
  rewrite Hb in Hv. pose proof (wf_chain _ _ _ _ _ (good_wf _ _ _ _ _ Hg) _ _ _ Hv Hl) as Hc.
  inversion Hc; [done|congruence].
Qed.

(** Where [tdb_next_lock] starts to look in chain [h]. *)
Lemma next_start t A fl ls off h R :
  good t A fl ls → remaining A ls off h R → (h < length ls)%nat →
  ∃ v l1 l2,
    (if off =? 0 then tdb_ofs_read t (TDB_HASH_TOP t (Z.of_nat h)) else r ← tdb_rec_read t off; Some (next r)) = Some v
    ∧ ls !! h = Some (l1 ++ l2) ∧ chain (im_heap A) v l2 ∧ R = live_list A l2 ++ live_lists A (drop (S h) ls).
Proof.
  intros Hg [_ HR] Hh. assert (tdb_hash_size t = Z.of_nat (length ls)) as Hs.
  { by rewrite (wf_len _ _ _ _ _ (good_wf _ _ _ _ _ Hg)), (ir_heads _ _ (good_repr _ _ _ _ _ Hg)). }
  destruct (bucket_lookup _ _ (Z.of_nat h) (good_repr _ _ _ _ _ Hg)) as [v Hv].
  pose proof (read_head _ _ _ _ (good_repr _ _ _ _ _ Hg) Hv) as Hrd.
  assert (bucket t (Z.of_nat h) = h) as Hb by (unfold bucket, BUCKET; rewrite Hs, Z.mod_small by lia; lia).
  rewrite Hb in Hv. destruct HR as [[-> ->]|(Hne & l1 & l2 & Hl & ->)].
  - destruct (lookup_lt_is_Some_2 ls h) as [l Hl]; [done|]. rewrite Z.eqb_refl, Hrd.
    exists v, [], l. split; [done|]. split; [done|]. split; [by eapply wf_chain; [apply Hg|..]|]. by apply live_lists_drop.
  - rewrite (proj2 (Z.eqb_neq _ _)) by done.
    pose proof (wf_chain _ _ _ _ _ (good_wf _ _ _ _ _ Hg) _ _ _ Hv Hl) as Hc.
    destruct (wf_used _ _ _ _ _ (good_wf _ _ _ _ _ Hg) _ _ off Hl) as (b & Hb' & Hu); [elem_solve|].
    rewrite (rec_read_used _ _ _ _ _ _ _ (good_repr _ _ _ _ _ Hg) (chain_app _ _ _ _ _ Hc) Hb' Hu). cbn [mbind option_bind].
    exists (next (b_rec b)), (l1 ++ [off]), l2. split; [done|]. split; [by rewrite <- app_assoc|].
    split; [by eapply chain_next|done].
Qed.

Definition visit A ls (R : list (bytes * bytes)) (res : next_result) (tl : tdb_traverse_lock) : image → list (list Z) → Prop :=
  λ A' ls', (∀ q k d, entry A' ls' q k d ↔ entry A ls q k d)
  ∧ match res with
    | NextAt off r => ∃ h b R', tl = mk_tlock off (Z.of_nat h) ∧ im_heap A' !! off = Some b ∧ r = b_rec b
        ∧ (used ls' off) ∧ R = (block_key b, block_data b) :: R' ∧ remaining A' ls' off h R'
    | NextDone => R = []
    | NextErr => True
    end.

Lemma tdb_next_lock_ok fuel (traverse_read : bool) t A fl ls off h R res tl t' :
  good t A fl ls → tdb_read_only t = false → remaining A ls off h R → (length ls - h < fuel)%nat →
  tdb_next_lock fuel traverse_read t (mk_tlock off (Z.of_nat h)) = (res, tl, t') →
  post t (λ A' _ ls', visit A ls R res tl A' ls') t' ∧ (tdb_env t = [] → res ≠ NextErr).
Proof.
  revert t A fl ls off h R. induction fuel as [|fuel IH]; intros t A fl ls off h R Hg Hro HR Hf; [lia|]. cbn [tdb_next_lock tl_off tl_hash].
  assert (tdb_hash_size t = Z.of_nat (length ls)) as Hs.
  { by rewrite (wf_len _ _ _ _ _ (good_wf _ _ _ _ _ Hg)), (ir_heads _ _ (good_repr _ _ _ _ _ Hg)). }
  rewrite Hs. destruct (Z.of_nat h <? Z.of_nat (length ls)) eqn:Elt; zbool; cbn [negb].
  2:{ intros [= <- <- <-]. split; [|done]. eapply post_refl; [done|]. split; [done|]. destruct HR as [Hh [[_ ->]|(_ & l1 & l2 & Hl & _)]].
    - by rewrite drop_ge by lia.
    - apply lookup_lt_Some in Hl. lia. }
  set (hash := if _ && _ then _ else _).
  assert (∃ h', hash = Z.of_nat h' ∧ (h <= h' <= length ls)%nat ∧ remaining A ls off h' R) as (h' & -> & Hh' & HR').
  { unfold hash. destruct ((off =? 0) && negb (Z.of_nat h =? 0)) eqn:Ec; [|exists h; split; [done|]; split; [lia|done]].
    zbool. destruct (next_hash_chain_ok (Z.to_nat (Z.of_nat (length ls))) t A fl ls h Hg) as (h' & E & Hr & El); [lia|lia|].
    exists h'. split; [done|]. split; [done|]. destruct HR as [_ [[_ ->]|[? _]]]; [|done]. split; [lia|]. left. split; [done|]. by rewrite El. }
  destruct (Z.of_nat h' =? Z.of_nat (length ls)) eqn:Eend; zbool.
  { intros [= <- <- <-]. split; [|done]. eapply post_refl; [done|]. split; [done|]. destruct HR' as [_ [[_ ->]|(_ & l1 & l2 & Hl & _)]].
    - by rewrite drop_ge by lia.
    - apply lookup_lt_Some in Hl. lia. }
  destruct (ask t) as [ok t1] eqn:Ea. apply ask_inv in Ea as (Hf1 & Hm1 & Hok1).
  pose proof (good_frame _ _ _ _ _ _ Hg Hf1 Hm1) as Hg1. pose proof (hdr_map _ _ Hm1) as Hh1. destruct ok; cbn [negb].
  2:{ intros [= <- <- <-]. split; [|by intros ?%Hok1]. split; [done|]. split; [done|]. by exists A, fl, ls. }
  destruct (next_start t1 A fl ls off h' R Hg1 HR') as (v & l1 & l2 & -> & Hl & Hc & ER); [lia|].
  destruct (next_in_chain (chain_fuel t1) traverse_read t1 v) as [res1 t2] eqn:En.
  eapply next_in_chain_ok in En as [[Hf2 (Hh2 & A2 & fl2 & ls2 & Hg2 & Hcl & Hn)] Hne];
    [|done|by rewrite (frame_read_only _ _ Hf1)|done|done| ].
  2:{ pose proof (wf_used _ _ _ _ _ (good_wf _ _ _ _ _ Hg1)). eapply Nat.le_lt_trans; [|by eapply chain_fuel_enough; [apply Hg1|]]. done. }
  assert (frame t t2) as Hft by by transitivity t1. pose proof (live_lists_cleaned _ _ _ _ _ Hcl) as Hcll.
  destruct res1 as [off' r| |].
  - intros [= <- <- <-]. split; [|done]. split; [done|]. split; [by rewrite Hh2|]. exists A2, fl2, ls2. split; [done|]. split; [apply Hcl|].
    destruct Hn as (l1' & l2' & b & Hl2 & Hb & -> & Ell & Hsub). exists h', b, (live_list A2 l2' ++ live_lists A2 (drop (S h') ls2)).
    split; [done|]. split; [done|]. split; [done|]. split; [exists h', (l1' ++ off' :: l2'); split; [done|elem_solve]|].
    split; [by rewrite ER, Ell, Hcll|]. split; [apply lookup_lt_Some in Hl2; lia|]. right.
    split; [|by exists l1', l2']. destruct (repr_pos _ _ _ _ (good_repr _ _ _ _ _ Hg2) Hb) as (_ & ? & _). lia.
  - cbn in Hn. rewrite Hn in ER. cbn [app] in ER. rewrite Hcll in ER. intros E.
    replace (Z.of_nat h' + 1) with (Z.of_nat (S h')) in E by lia.
    assert (length ls2 = length ls) as Hlen by (destruct Hcl as [_ [l ->]]; apply length_insert).
    eapply (IH t2 A2 fl2 ls2 0 (S h') R) in E as [Hp Hne2]; [|done|by rewrite (frame_read_only _ _ Hft)| |lia].
    + split; [|intros He; apply Hne2; by apply Hft]. eapply post_mono; [done|by rewrite Hh2|done|].
      intros A3 fl3 ls3 [He Hv]. split; [|done]. intros q k d. rewrite He. apply Hcl.
    + split; [lia|]. by left.
  - intros [= <- <- <-]. split; [|intros He; apply Hne; by apply Hf1]. split; [done|]. split; [by rewrite Hh2|]. exists A2, fl2, ls2. split; [done|].
    split; [apply Hcl|done].
Qed.

(** The callback over a list of pairs, until it asks to stop; (count, state). *)
Fixpoint visit_all {St} (fn : bytes → bytes → St → bool * St) (l : list (bytes * bytes)) (count : Z) (s : St) : Z * St :=
  match l with
  | [] => (count, s)
  | (k, d) :: l =>
      let '(stop, s) := fn k d s in
      if stop then (count + 1, s) else visit_all fn l (count + 1) s
  end.

(** Key and data of a record in one read. *)
Lemma read_pair t A p b :
  is_repr t A → im_heap A !! p = Some b → key_len (b_rec b) + data_len (b_rec b) + 4 <= rec_len (b_rec b) →
  ∃ d, tdb_read t (u32 (p + sizeof_rec)) (u32 (key_len (b_rec b) + data_len (b_rec b))) = Some d
    ∧ take (Z.to_nat (key_len (b_rec b))) d = block_key b ∧ drop (Z.to_nat (key_len (b_rec b))) d = block_data b.
Proof.
  intros Hir Hb Hfit. destruct (repr_pos _ _ _ _ Hir Hb) as ([[? ? Hk Hd ? ?] Hbl] & ? & ? & ?).
  unfold is_u32, b_size in *. rewrite !u32_id by (unfold is_u32, sizeof_rec; lia).
  pose proof (read_body t A p b 0 (key_len (b_rec b) + data_len (b_rec b)) Hir Hb) as R. rewrite Z.add_0_r in R.
  eexists. split; [apply R; lia|]. unfold block_key, block_data, slice. rewrite drop_0, take_take. split.
  - f_equal. lia.
  - rewrite skipn_firstn_comm. f_equal. lia.
Qed.

Lemma traverse_internal_ok {St} (fn : bytes → bytes → St → bool * St) fuel (traverse_read : bool) t A fl ls off h R count s n s' t' :
  good t A fl ls → tdb_read_only t = false → remaining A ls off h R → (length R < fuel)%nat →
  traverse_internal fn fuel traverse_read t (mk_tlock off (Z.of_nat h)) count s = (n, s', t') →
  post t (same_entries A ls) t' ∧ ((n = -1 ∧ tdb_env t ≠ []) ∨ (n, s') = visit_all fn R count s).
Proof.
  revert t A fl ls off h R count s. induction fuel as [|fuel IH]; intros t A fl ls off h R count s Hg Hro HR Hf; [lia|]. cbn [traverse_internal].
  destruct (tdb_next_lock _ _ _ _) as [[res tl] t1] eqn:En.
  eapply tdb_next_lock_ok in En as [[Hf1 (Hh1 & A1 & fl1 & ls1 & Hg1 & He1 & Hv)] Hne]; [|done|done|done|].
  2:{ rewrite (ir_heads _ _ (good_repr _ _ _ _ _ Hg)), <- (wf_len _ _ _ _ _ (good_wf _ _ _ _ _ Hg)). lia. }
  assert (post t (same_entries A ls) t1) as Hp1 by (split; [done|]; split; [done|]; by exists A1, fl1, ls1).
  destruct res as [off' r| |].
  - destruct Hv as (h' & b & R' & -> & Hb & -> & (j & l & Hj & Hoff) & -> & HR').
    destruct (wf_used _ _ _ _ _ (good_wf _ _ _ _ _ Hg1) _ _ _ Hj Hoff) as (b' & Hb' & Hu). simplify_eq.
    destruct (read_pair _ _ _ _ (good_repr _ _ _ _ _ Hg1) Hb (uo_fit _ _ _ _ Hu)) as (d & -> & -> & ->). cbn [visit_all].
    destruct (fn (block_key b) (block_data b) s) as [stop s1]. destruct stop.
    + intros [= <- <- <-]. split; [done|by right].
    + intros E. cbn [length] in Hf. eapply IH in E as [Hp Hx]; [|exact Hg1|by rewrite (frame_read_only _ _ Hf1)|exact HR'|lia].
      split; [|destruct Hx as [[? Hx]|?]; [left; split; [done|]; intros He; by apply Hx, Hf1|by right]].
      eapply post_mono; [done|done|done|]. intros A2 fl2 ls2 He2 q k d0. unfold same_entries in He2. by rewrite He2, He1.
  - intros [= <- <- <-]. rewrite Hv. split; [done|by right].
  - intros [= <- <- <-]. split; [done|]. left. split; [done|]. intros He. by apply Hne.
Qed.

(** ** All records *)

(** The pairs of the file in the order of a traversal. *)
Lemma live_lists_elem A ls k d : (k, d) ∈ live_lists A ls ↔ ∃ q, entry A ls q k d.
Proof.
  unfold live_lists. rewrite list_elem_of_join. split.
  - intros (x & Hx & (l & -> & Hl)%list_elem_of_fmap). apply list_elem_of_omap in Hx as (q & Hq & E).
    apply bind_Some in E as (b & Hb & Hlv). exists q. apply list_elem_of_lookup in Hl as [i Hi].
    split; [by exists i, l|by exists b].
  - intros (q & (i & l & Hi & Hq) & b & Hb & Hlv). exists (live_list A l). split.
    + apply list_elem_of_omap. exists q. split; [done|]. by rewrite Hb.
    + apply list_elem_of_fmap. exists l. split; [done|]. by eapply list_elem_of_lookup_2.
Qed.

Lemma chains_NoDup A fl ls hs : wf hash_fn hs A fl ls → NoDup (mjoin ls).
Proof.
  intros W.
  assert (∀ i l, ls !! i = Some l → NoDup l) as Hnd.
  { intros i l Hl. destruct (lookup_lt_is_Some_2 (im_heads A) i) as [v Hv]; [rewrite <- (wf_len _ _ _ _ _ W); by eapply lookup_lt_Some|].
    eapply chain_NoDup. by eapply wf_chain. }
  assert (∀ i j l l' p, ls !! i = Some l → ls !! j = Some l' → p ∈ l → p ∈ l' → i = j) as Hd.
  { intros i j l l' p. by eapply wf_disjoint. }
  clear W. induction ls as [|l ls IH]; [constructor|]. cbn [mjoin list_join]. apply NoDup_app. split; [by apply (Hnd 0%nat)|]. split.
  - intros p Hp (l' & Hp' & Hl')%list_elem_of_join. apply list_elem_of_lookup in Hl' as [i Hi].
    by specialize (Hd 0%nat (S i) l l' p eq_refl Hi Hp Hp').
  - apply IH; [intros i l' Hl'; by apply (Hnd (S i))|]. intros i j l1 l2 p H1 H2 Hp1 Hp2. specialize (Hd (S i) (S j) l1 l2 p H1 H2 Hp1 Hp2). lia.
Qed.

Lemma live_lists_join A ls : live_lists A ls = live_list A (mjoin ls).
Proof.
  induction ls as [|l ls IH]; [done|].
  change (live_list A l ++ live_lists A ls = live_list A (l ++ mjoin ls)). rewrite IH. unfold live_list. by rewrite omap_app.
Qed.

Lemma length_live_list A l : (length (live_list A l) <= length l)%nat.
Proof. induction l as [|q l IH]; [done|]. rewrite live_list_cons. case_goal; cbn [length]; lia. Qed.

Lemma live_lists_NoDup A fl ls hs : wf hash_fn hs A fl ls → NoDup ((live_lists A ls).*1).
Proof.
  intros W. rewrite live_lists_join. pose proof (chains_NoDup _ _ _ _ W) as Hnd.
  assert (∀ q, q ∈ mjoin ls → used ls q) as Hu.
  { intros q (l & Hq & [i Hi]%list_elem_of_lookup)%list_elem_of_join. by exists i, l. }
  induction (mjoin ls) as [|q l IH]; [constructor|]. apply NoDup_cons in Hnd as [Hq Hnd]. rewrite live_list_cons.
  assert (NoDup ((live_list A l).*1)) as Hl by (apply IH; [done|]; intros p Hp; apply Hu; elem_solve).
  destruct (im_heap A !! q ≫= live_of) as [[k d]|] eqn:E; [|done]. cbn. constructor; [|done].
  intros ([k' d'] & -> & Hin)%list_elem_of_fmap. apply list_elem_of_omap in Hin as (p & Hp & Ep). cbn in E.
  apply bind_Some in E as (b & Hb & Hlv), Ep as (b' & Hb' & Hlv').
  assert (q = p) as ->; [|done].
  eapply (wf_unique _ _ _ _ _ W); (split; [apply Hu; elem_solve|]); eauto.
Qed.
End traverse.
