(* ===== verification/TdbProps.v ===== *)
(** * What the tdb library promises

    The calls of the library as a whole: they keep a file well-formed ([tdb_ok]),
    and they implement a finite map from keys to values whose updates may be
    refused.  A store fails only when the environment refuses a request or the
    file would outgrow 4 GiB. *)
From S2P Require Import Prelude Jenkins TdbFile TdbLayout TdbChain TdbStore TdbAlloc TdbUpdate TdbTraverse.
Import Tdb.

Implicit Types (t : tdb_context) (A : image) (fl : list Z) (ls : list (list Z)) (m : gmap bytes bytes).

(** ** Calls *)

Inductive tdb_call :=
| CallFetch (k : bytes)
| CallExists (k : bytes)
| CallStore (k v : bytes) (flag : store_flag)
| CallAppend (k v : bytes)
| CallDelete (k : bytes)
| CallWipe
| CallTraverse (write : bool).

Inductive tdb_result :=
| ResData (d : option bytes)
| ResBool (b : bool)
| ResRecords (count : Z) (l : list (bytes * bytes)).

(** The callback of the traversals: collect the records. *)
Definition collect (k d : bytes) (l : list (bytes * bytes)) : bool * list (bytes * bytes) := (false, l ++ [(k, d)]).

Section calls.
Context (hash_fn : bytes → Z).

Definition run_call t (c : tdb_call) : tdb_result * tdb_context :=
  match c with
  | CallFetch k => let '(d, t) := tdb_fetch hash_fn t k in (ResData d, t)
  | CallExists k => let '(b, t) := tdb_exists hash_fn t k in (ResBool b, t)
  | CallStore k v flag => let '(b, t) := tdb_store hash_fn t k v flag in (ResBool b, t)
  | CallAppend k v => let '(b, t) := tdb_append hash_fn t k v in (ResBool b, t)
  | CallDelete k => let '(b, t) := tdb_delete hash_fn t k in (ResBool b, t)
  | CallWipe => let '(b, t) := tdb_wipe_all t in (ResBool b, t)
  | CallTraverse w =>
      let '(n, l, t) := if w then tdb_traverse collect t [] else tdb_traverse_read collect t [] in
      (ResRecords n l, t)
  end.

Fixpoint run_calls t (cs : list tdb_call) : tdb_context :=
  match cs with [] => t | c :: cs => run_calls (run_call t c).2 cs end.

(** A well-formed file, open for writing, without a recovery area. *)
Record tdb_ok t : Prop := {
  tdb_ok_image : ∃ A fl ls, good hash_fn t A fl ls;
  tdb_ok_rw : tdb_read_only t = false;
  tdb_ok_page : 0 < tdb_page_size t;
  tdb_ok_recovery : recovery_head t = 0;
}.

(** The map that a file represents. *)
Definition represents t (m : gmap bytes bytes) : Prop := ∀ k, fetch_locked hash_fn t k = m !! k.

(** ** The specification: a finite map whose updates may be refused *)

Definition call_spec (m : gmap bytes bytes) (c : tdb_call) (r : tdb_result) (m' : gmap bytes bytes) : Prop :=
  match c, r with
  | CallFetch k, ResData d => m' = m ∧ (d = m !! k ∨ d = None)
  | CallExists k, ResBool b => m' = m ∧ (b = true → is_Some (m !! k))
  | CallStore k v flag, ResBool ok =>
      if ok then m' = <[k := v]> m
        ∧ match flag with
          | TDB_REPLACE => True
          | TDB_INSERT => m !! k = None
          | TDB_MODIFY => is_Some (m !! k)
          end
      else m' = m ∨ m' = delete k m
  | CallAppend k v, ResBool ok =>
      if ok then m' = <[k := default [] (m !! k) ++ v]> m else m' = m ∨ m' = delete k m
  | CallDelete k, ResBool ok =>
      if ok then is_Some (m !! k) ∧ m' = delete k m else m' = m ∨ m' = delete k m
  | CallWipe, ResBool ok => m' = if ok then ∅ else m
  | CallTraverse _, ResRecords n l => m' = m ∧ (n = -1 ∨ (n = Z.of_nat (length l) ∧ l ≡ₚ map_to_list m))
  | _, _ => False
  end.

(** ** Files and maps *)

Lemma good_represents t A fl ls : good hash_fn t A fl ls → represents t (list_to_map (live_lists A ls)).
Proof.
  intros Hg k. apply option_eq. intros d. rewrite (fetch_entry _ _ _ _ _ _ _ Hg), <- live_lists_elem.
  apply elem_of_list_to_map. exact (live_lists_NoDup _ _ _ _ _ (good_wf _ _ _ _ _ Hg)).
Qed.

Lemma represents_holds t A fl ls m k d :
  good hash_fn t A fl ls → represents t m → m !! k = Some d ↔ holds A ls k d.
Proof. intros Hg Hm. rewrite <- Hm. by eapply fetch_entry. Qed.

Lemma represents_unique t m m' : represents t m → represents t m' → m = m'.
Proof. intros H1 H2. apply map_eq. intros k. by rewrite <- H1, <- H2. Qed.

(** The map of the new image, from the pairs it holds. *)
Lemma represents_intro t A fl ls (m : gmap bytes bytes) :
  good hash_fn t A fl ls → (∀ k d, holds A ls k d ↔ m !! k = Some d) → represents t m.
Proof. intros Hg Hh k. apply option_eq. intros d. by rewrite (fetch_entry _ _ _ _ _ _ _ Hg), <- Hh. Qed.

Lemma posts_ok t P t' : tdb_ok t → posts hash_fn t P t' → tdb_ok t' ∧ ∃ A fl ls, good hash_fn t' A fl ls ∧ P A ls.
Proof.
  intros [_ Hro Hpg Hrec] [Hf (_ & Hr & A & fl & ls & Hg & HP)]. split; [|by exists A, fl, ls].
  split; [by exists A, fl, ls|by rewrite (frame_read_only _ _ Hf)|by rewrite (frame_page_size _ _ Hf)|by rewrite Hr].
Qed.

Lemma frame_ok t t' : tdb_ok t → frame t t' → tdb_map t' = tdb_map t →
  tdb_ok t' ∧ ∀ m, represents t m → represents t' m.
Proof.
  intros [(A & fl & ls & Hg) Hro Hpg Hrec] Hf Hm. pose proof (good_frame _ _ _ _ _ _ Hg Hf Hm) as Hg'. split.
  - split; [by exists A, fl, ls|by rewrite (frame_read_only _ _ Hf)|by rewrite (frame_page_size _ _ Hf)|].
    unfold recovery_head. by rewrite (hdr_map _ _ Hm).
  - intros m Hr. apply (represents_intro _ _ _ _ _ Hg'). intros k d. by rewrite (represents_holds _ _ _ _ _ _ _ Hg Hr).
Qed.

(** The pairs of an image as a map. *)
Lemma put_map A ls m k v A' ls' :
  (∀ k d, m !! k = Some d ↔ holds A ls k d) → put A ls k v A' ls' →
  ∀ k' d, holds A' ls' k' d ↔ <[k := v]> m !! k' = Some d.
Proof.
  intros Hm Hp k' d. rewrite (Hp k' d), lookup_insert_Some, Hm. split.
  - intros [[-> ->]|[? ?]]; [by left|right; split; [congruence|done]].
  - intros [[<- <-]|[? ?]]; [by left|right; split; [congruence|done]].
Qed.
Lemma gone_map A ls m k A' ls' :
  (∀ k d, m !! k = Some d ↔ holds A ls k d) → gone A ls k A' ls' →
  ∀ k' d, holds A' ls' k' d ↔ delete k m !! k' = Some d.
Proof.
  intros Hm Hp k' d. rewrite (Hp k' d), lookup_delete_Some, Hm. split; intros [? ?]; (split; [congruence|done]).
Qed.
Lemma absent_map A ls m k : (∀ k d, m !! k = Some d ↔ holds A ls k d) → absent A ls k → m !! k = None.
Proof.
  intros Hm Ha. apply eq_None_not_Some. intros [d Hd]. apply Hm in Hd as [q Hq]. by apply Ha in Hq.
Qed.

(** The outcome of a store, as a step of the map. *)
Lemma stored_step t A fl ls m k v flag ok t' :
  tdb_ok t → good hash_fn t A fl ls → represents t m → posts hash_fn t (stored A ls k v flag ok) t' →
  tdb_ok t' ∧ ∃ m', represents t' m' ∧ call_spec m (CallStore k v flag) (ResBool ok) m'.
Proof.
  intros Hok Hg Hm Hp. apply (posts_ok _ _ _ Hok) in Hp as (Hok' & A' & fl' & ls' & Hg' & HP). split; [done|].
  assert (∀ k d, m !! k = Some d ↔ holds A ls k d) as Hmh by (intros; by eapply represents_holds).
  destruct ok.
  - destruct HP as [HP Hfl]. exists (<[k := v]> m). split; [by eapply represents_intro, put_map|]. split; [done|].
    destruct flag; [done|by eapply absent_map|]. destruct Hfl as [d Hd]. exists d. by apply Hmh.
  - destruct HP as [HP|[HP _]].
    + exists (delete k m). split; [by eapply represents_intro, gone_map|by right].
    + exists m. split; [|by left]. eapply represents_intro; [done|]. intros k' d. by rewrite HP, Hmh.
Qed.

Lemma same_map t A fl ls m t' A' fl' ls' :
  good hash_fn t A fl ls → good hash_fn t' A' fl' ls' → represents t m →
  (∀ q k d, entry A' ls' q k d ↔ entry A ls q k d) → represents t' m.
Proof.
  intros Hg Hg' Hm He. apply (represents_intro _ _ _ _ _ Hg'). intros k d. rewrite (represents_holds _ _ _ _ _ _ _ Hg Hm).
  unfold holds. split; intros [q Hq]; exists q; by apply He.
Qed.

(** The chain lock of a call: refused, or the rest runs on the same file. *)
Lemma lock_step (held : bool) t b t1 :
  tdb_ok t → tdb_lock held t = (b, t1) → tdb_ok t1 ∧ (∀ m, represents t m → represents t1 m) ∧ (tdb_env t = [] → b = true ∧ tdb_env t1 = []).
Proof.
  intros Hok El. apply tdb_lock_inv in El as (Hf & Hm & Hb). destruct (frame_ok _ _ Hok Hf Hm) as [Hok1 Hr1].
  split; [done|]. split; [done|]. intros He. split; [by apply Hb|by apply Hf].
Qed.

Lemma visit_collect l n s : visit_all collect l n s = (n + Z.of_nat (length l), s ++ l).
Proof.
  revert n s. induction l as [|[k d] l IH]; intros n s; cbn [visit_all collect].
  - rewrite app_nil_r. f_equal. cbn. lia.
  - rewrite IH, <- app_assoc. f_equal. cbn [length]. lia.
Qed.

Lemma traverse_step (traverse_read : bool) t m n l t' :
  tdb_ok t → represents t m →
  traverse_internal collect (chain_fuel t) traverse_read t (mk_tlock 0 0) 0 [] = (n, l, t') →
  tdb_ok t' ∧ represents t' m ∧ ((n = -1 ∧ tdb_env t ≠ []) ∨ (n = Z.of_nat (length l) ∧ l ≡ₚ map_to_list m)).
Proof.
  intros Hok Hm E. pose proof Hok as [(A & fl & ls & Hg) Hro _ _].
  pose proof (good_represents _ _ _ _ Hg) as Hr. pose proof (represents_unique _ _ _ Hm Hr) as ->.
  pose proof (live_lists_NoDup _ _ _ _ _ (good_wf _ _ _ _ _ Hg)) as Hnd.
  assert (length (live_lists A ls) < chain_fuel t)%nat as Hfu.
  { rewrite live_lists_join. eapply Nat.le_lt_trans; [apply length_live_list|].
    eapply offsets_fuel; [apply Hg|by eapply chains_NoDup, good_wf|].
    intros p (l' & Hp & [i Hi]%list_elem_of_lookup)%list_elem_of_join.
    destruct (wf_used _ _ _ _ _ (good_wf _ _ _ _ _ Hg) _ _ _ Hi Hp) as (b & ? & _). by exists b. }
  eapply (traverse_internal_ok hash_fn collect _ _ t A fl ls 0 0 (live_lists A ls)) in E as [Hp Hx]; [|done|done|split; [lia|by left]|done].
  destruct Hp as [Hf (Hh & A' & fl' & ls' & Hg' & He)]. split; [|split; [exact (same_map _ _ _ _ _ _ _ _ _ Hg Hg' Hm He)|]].
  - split; [by exists A', fl', ls'|by rewrite (frame_read_only _ _ Hf)|rewrite (frame_page_size _ _ Hf); apply Hok|].
    unfold recovery_head. rewrite Hh. apply Hok.
  - destruct Hx as [?|Hx]; [by left|right]. rewrite visit_collect in Hx. injection Hx as -> ->. cbn [app]. split; [lia|].
    symmetry. by apply map_to_list_to_map.
Qed.

(** *** Each call *)

Lemma fetch_call t m k d t' :
  tdb_ok t → represents t m → tdb_fetch hash_fn t k = (d, t') →
  tdb_ok t' ∧ represents t' m ∧ (d = m !! k ∨ d = None) ∧ (tdb_env t = [] → d = m !! k).
Proof.
  intros Hok Hm. unfold tdb_fetch, _tdb_fetch. destruct (tdb_lock false t) as [b t1] eqn:El.
  destruct (lock_step _ _ _ _ Hok El) as (Hok1 & Hr1 & He1). intros [= <- <-]. specialize (Hr1 m Hm).
  split; [done|]. split; [done|]. destruct b; [|split; [by right|by intros [? _]%He1]].
  rewrite (Hr1 k). split; [by left|done].
Qed.

Lemma exists_call t m k b t' :
  tdb_ok t → represents t m → tdb_exists hash_fn t k = (b, t') →
  tdb_ok t' ∧ represents t' m ∧ (b = true → is_Some (m !! k)) ∧ (tdb_env t = [] → is_Some (m !! k) → b = true).
Proof.
  intros Hok Hm. unfold tdb_exists, tdb_exists_hash. destruct (tdb_lock false t) as [b1 t1] eqn:El.
  destruct (lock_step _ _ _ _ Hok El) as (Hok1 & Hr1 & He1). intros [= <- <-]. specialize (Hr1 m Hm).
  split; [done|]. split; [done|]. pose proof Hok1 as [(A & fl & ls & Hg) _ _ _].
  pose proof (exists_holds _ t1 A fl ls k Hg) as Hx.
  assert (∀ d, m !! k = Some d ↔ holds A ls k d) as Hmh by (intros; by eapply represents_holds).
  destruct (exists_locked t1 k (key_hash hash_fn k)).
  - rewrite andb_true_r. split; [intros _; destruct Hx as [d Hd]; exists d; by apply Hmh|by intros [? _]%He1 _].
  - rewrite andb_false_r. split; [done|]. intros _ [d Hd]. apply Hmh in Hd as [q Hq]. by apply Hx in Hq.
Qed.

Lemma store_call t m k v flag ok t' :
  tdb_ok t → represents t m → tdb_store hash_fn t k v flag = (ok, t') →
  tdb_ok t' ∧ (∃ m', represents t' m' ∧ call_spec m (CallStore k v flag) (ResBool ok) m')
  ∧ (tdb_env t = [] → flag = TDB_REPLACE → ok = true ∨ tdb_overflow t' = true).
Proof.
  intros Hok Hm. unfold tdb_store. rewrite (tdb_ok_rw _ Hok). destruct (tdb_lock false t) as [b t1] eqn:El.
  destruct (lock_step _ _ _ _ Hok El) as (Hok1 & Hr1 & He1). specialize (Hr1 m Hm). destruct b; cbn [negb].
  2:{ intros [= <- <-]. split; [done|]. split; [exists m; split; [done|by left]|by intros [? _]%He1]. }
  pose proof Hok1 as [(A & fl & ls & Hg) Hro Hpg _]. intros E.
  eapply store_hash_ok in E as [Hp Hx]; [|done..]. destruct (stored_step _ _ _ _ _ _ _ _ _ _ Hok1 Hg Hr1 Hp) as [Hok' Hm'].
  split; [done|]. split; [done|]. intros [_ He]%He1. by apply Hx.
Qed.

Lemma append_call t m k v ok t' :
  tdb_ok t → represents t m → tdb_append hash_fn t k v = (ok, t') →
  tdb_ok t' ∧ (∃ m', represents t' m' ∧ call_spec m (CallAppend k v) (ResBool ok) m')
  ∧ (tdb_env t = [] → ok = true ∨ tdb_overflow t' = true).
Proof.
  intros Hok Hm. unfold tdb_append, _tdb_fetch. destruct (tdb_lock false t) as [b t1] eqn:El.
  destruct (lock_step _ _ _ _ Hok El) as (Hok1 & Hr1 & He1). specialize (Hr1 m Hm). destruct b; cbn [negb tdb_lock].
  2:{ intros [= <- <-]. split; [done|]. split; [exists m; split; [done|by left]|by intros [? _]%He1]. }
  pose proof Hok1 as [(A & fl & ls & Hg) Hro Hpg _]. rewrite (Hr1 k). intros E.
  eapply store_hash_ok in E as [Hp Hx]; [|done..]. destruct (stored_step _ _ _ _ _ _ _ _ _ _ Hok1 Hg Hr1 Hp) as [Hok' (m' & Hm' & Hs)].
  split; [done|]. split; [|intros [_ He]%He1; by apply Hx].
  exists m'. split; [done|]. cbn in Hs |- *. destruct ok; [by destruct Hs|done].
Qed.

Lemma delete_call t m k ok t' :
  tdb_ok t → represents t m → tdb_delete hash_fn t k = (ok, t') →
  tdb_ok t' ∧ (∃ m', represents t' m' ∧ call_spec m (CallDelete k) (ResBool ok) m')
  ∧ (tdb_env t = [] → is_Some (m !! k) → ok = true).
Proof.
  intros Hok Hm E. pose proof Hok as [(A & fl & ls & Hg) Hro _ _].
  assert (∀ k d, m !! k = Some d ↔ holds A ls k d) as Hmh by (intros; by eapply represents_holds).
  unfold tdb_delete in E. eapply delete_hash_entries in E as (Hp & Hex & Hgr); [|done..].
  assert (tdb_ok t' ∧ ∃ m', represents t' m' ∧ (m' = delete k m ∨ (ok = false ∧ m' = m))) as [Hok' (m' & Hm' & Hc)].
  { destruct Hp as [Hp|(_ & -> & Hp)]; apply (posts_ok _ _ _ Hok) in Hp as (Hok' & A' & fl' & ls' & Hg' & HP); (split; [done|]).
    - apply without_holds in HP as [HP _]. exists (delete k m). split; [by eapply represents_intro, gone_map|by left].
    - exists m. split; [exact (same_map _ _ _ _ _ _ _ _ _ Hg Hg' Hm HP)|by right]. }
  split; [done|]. split.
  - exists m'. split; [done|]. cbn. destruct ok; [|destruct Hc as [->|[_ ->]]; [by right|by left]].
    destruct Hc as [->|[? _]]; [|done]. split; [|done]. destruct (Hex eq_refl) as (q & d & Hq). exists d. apply Hmh. by exists q.
  - intros He [d [q Hq]%Hmh]. apply Hgr; [done|]. by exists q, d.
Qed.

Lemma wipe_call t m ok t' :
  tdb_ok t → represents t m → tdb_wipe_all t = (ok, t') →
  tdb_ok t' ∧ represents t' (if ok then ∅ else m) ∧ (tdb_env t = [] → ok = true).
Proof.
  intros Hok Hm E. pose proof Hok as [(A & fl & ls & Hg) Hro _ Hrec].
  eapply wipe_all_ok in E as [Hp Hx]; [|done..]. apply (posts_ok _ _ _ Hok) in Hp as (Hok' & A' & fl' & ls' & Hg' & HP).
  split; [done|]. split; [|done]. destruct ok.
  - apply (represents_intro _ _ _ _ _ Hg'). intros k d. rewrite lookup_empty. split; [|done]. intros [q Hq]. by apply HP in Hq.
  - exact (same_map _ _ _ _ _ _ _ _ _ Hg Hg' Hm HP).
Qed.

Lemma traverse_call (write : bool) t m n l t' :
  tdb_ok t → represents t m →
  (if write then tdb_traverse collect t [] else tdb_traverse_read collect t []) = (n, l, t') →
  tdb_ok t' ∧ represents t' m ∧ ((n = -1 ∧ tdb_env t ≠ []) ∨ (n = Z.of_nat (length l) ∧ l ≡ₚ map_to_list m)).
Proof.
  intros Hok Hm.
  assert (∀ rd : bool, (let '(ok, t) := ask t in
      if negb ok then (-1, [], t) else traverse_internal collect (chain_fuel t) rd t (mk_tlock 0 0) 0 []) = (n, l, t') →
    tdb_ok t' ∧ represents t' m ∧ ((n = -1 ∧ tdb_env t ≠ []) ∨ (n = Z.of_nat (length l) ∧ l ≡ₚ map_to_list m))) as Hx.
  { intros rd. destruct (ask t) as [b t1] eqn:Ea. destruct (lock_step false t b t1 Hok Ea) as (Hok1 & Hr1 & He1). specialize (Hr1 m Hm).
    destruct b; cbn [negb].
    - intros E. destruct (traverse_step _ _ _ _ _ _ Hok1 Hr1 E) as (? & ? & Hx). split; [done|]. split; [done|].
      destruct Hx as [[? Hne]|?]; [left; split; [done|]; by intros [_ ?]%He1|by right].
    - intros [= <- <- <-]. split; [done|]. split; [done|]. left. split; [done|]. by intros [? _]%He1. }
  destruct write; [unfold tdb_traverse; rewrite (tdb_ok_rw _ Hok)|unfold tdb_traverse_read]; apply Hx.
Qed.

Lemma call_step t m c r t' :
  tdb_ok t → represents t m → run_call t c = (r, t') →
  tdb_ok t' ∧ ∃ m', represents t' m' ∧ call_spec m c r m'.
Proof.
  intros Hok Hm. destruct c as [k|k|k v flag|k v|k| |w]; cbn [run_call].
  - destruct (tdb_fetch hash_fn t k) as [d t1] eqn:E. intros [= <- <-]. destruct (fetch_call _ _ _ _ _ Hok Hm E) as (? & ? & ? & _).
    split; [done|]. by exists m.
  - destruct (tdb_exists hash_fn t k) as [d t1] eqn:E. intros [= <- <-]. destruct (exists_call _ _ _ _ _ Hok Hm E) as (? & ? & ? & _).
    split; [done|]. by exists m.
  - destruct (tdb_store hash_fn t k v flag) as [b t1] eqn:E. intros [= <- <-]. by destruct (store_call _ _ _ _ _ _ _ Hok Hm E) as (? & ? & _).
  - destruct (tdb_append hash_fn t k v) as [b t1] eqn:E. intros [= <- <-]. by destruct (append_call _ _ _ _ _ _ Hok Hm E) as (? & ? & _).
  - destruct (tdb_delete hash_fn t k) as [b t1] eqn:E. intros [= <- <-]. by destruct (delete_call _ _ _ _ _ Hok Hm E) as (? & ? & _).
  - destruct (tdb_wipe_all t) as [b t1] eqn:E. intros [= <- <-]. destruct (wipe_call _ _ _ _ Hok Hm E) as (? & ? & _).
    split; [done|]. by eexists.
  - destruct (if w then _ else _) as [[n l] t1] eqn:E. intros [= <- <-]. destruct (traverse_call _ _ _ _ _ _ Hok Hm E) as (? & ? & Hx).
    split; [done|]. exists m. split; [done|]. split; [done|]. destruct Hx as [[? _]|?]; [by left|by right].
Qed.

(** ** A new file *)

Lemma heads_bytes_zero n : heads_bytes (replicate n 0) = replicate (4 * n) 0.
Proof.
  induction n as [|n IH]; [done|]. cbn [replicate]. rewrite heads_bytes_cons, IH.
  replace (4 * S n)%nat with (4 + 4 * n)%nat by lia. done.
Qed.

Lemma new_file_ok hash_size incompatible seqnum max_dead page_size env :
  0 < hash_size → 172 + 4 * hash_size < 2 ^ 32 → 0 < page_size →
  let t := tdb_open_new hash_fn hash_size incompatible seqnum max_dead page_size env in
  tdb_ok t ∧ represents t ∅.
Proof.
  intros Hh Hs Hp t. set (hdr0 := header_bytes_tdb hash_fn hash_size (if incompatible then TDB_HASH_RWLOCK_MAGIC else 0) 0 0).
  set (A := mk_image hdr0 0 (replicate (Z.to_nat hash_size) 0) ∅).
  assert (length hdr0 = 168%nat) as Hlen.
  { unfold hdr0, header_bytes_tdb. rewrite !length_app, !length_le_bytes, !length_replicate. done. }
  assert (image_ok A) as HA.
  { split; [done|unfold is_u32; cbn; lia|]. cbn. apply Forall_replicate. unfold is_u32. lia. }
  assert (tdb_map t = table_bytes A) as Hm.
  { change (hdr0 ++ replicate (Z.to_nat ((hash_size + 1) * 4)) 0 = table_bytes A). unfold table_bytes. cbn [im_hdr im_free im_heads A].
    f_equal. rewrite heads_bytes_zero. replace (Z.to_nat ((hash_size + 1) * 4)) with (4 + 4 * Z.to_nat hash_size)%nat by lia. done. }
  assert (dsize (tdb_map t) < 2 ^ 32) as Hsz.
  { rewrite Hm, dsize_table_bytes by done. unfold data_start. cbn [im_heads A]. rewrite length_replicate. lia. }
  assert (is_repr t A) as Hir.
  { split; [|cbn; rewrite length_replicate; lia|done]. exists []. rewrite app_nil_r. by do 4 (split; [done|]). }
  destruct (wf_empty hash_fn hash_size A (Z.to_nat hash_size) eq_refl eq_refl) as [W Hno].
  assert (good hash_fn t A [] (replicate (Z.to_nat hash_size) [])) as Hg.
  { split; [done|done|]. intros p b Hp'. cbn in Hp'. done. }
  split.
  - split; [by do 3 eexists|done|done|]. unfold recovery_head. rewrite (hdr_repr _ _ Hir). by destruct incompatible.
  - apply (represents_intro _ _ _ _ _ Hg). intros k d. rewrite lookup_empty. split; [|done]. intros [q Hq]. by apply Hno in Hq.
Qed.

(** ** Sequences of calls *)

Fixpoint run_results t (cs : list tdb_call) : list tdb_result :=
  match cs with [] => [] | c :: cs => (run_call t c).1 :: run_results (run_call t c).2 cs end.

Fixpoint map_run m (cs : list tdb_call) (rs : list tdb_result) m' : Prop :=
  match cs, rs with
  | [], [] => m' = m
  | c :: cs, r :: rs => ∃ m1, call_spec m c r m1 ∧ map_run m1 cs rs m'
  | _, _ => False
  end.

Lemma run_calls_ok cs t m :
  tdb_ok t → represents t m →
  tdb_ok (run_calls t cs) ∧ ∃ m', represents (run_calls t cs) m' ∧ map_run m cs (run_results t cs) m'.
Proof.
  revert t m. induction cs as [|c cs IH]; intros t m Hok Hm; cbn [run_calls run_results map_run].
  { split; [done|]. by exists m. }
  destruct (run_call t c) as [r t1] eqn:E. destruct (call_step _ _ _ _ _ Hok Hm E) as [Hok1 (m1 & Hm1 & Hs)].
  destruct (IH t1 m1 Hok1 Hm1) as [Hok2 (m2 & Hm2 & Hr)]. split; [done|]. exists m2. split; [done|]. by exists m1.
Qed.
End calls.

(** ** Theorems *)

(** C7: a tdb file is well-formed in every state that calls of the library can reach
    from a new file, whatever locks are refused and however the file fails to grow
    (a request that would take it past 4 GiB is refused): its records, and the bytes
    that failed extensions leave, which no record covers, tile the data area, the
    records carry their size at both ends, the free list
    and the hash chains are finite and disjoint, every record of a chain has room
    for its key, its data and its tailer and lies in the chain of its hash, and
    no key is live twice. *)
Theorem tdb_file_invariant hash_fn hash_size incompatible seqnum max_dead page_size env cs
    (Hhash : 0 < hash_size) (Hsize : 172 + 4 * hash_size < 2 ^ 32) (Hpage : 0 < page_size) :
  tdb_ok hash_fn (run_calls hash_fn (tdb_open_new hash_fn hash_size incompatible seqnum max_dead page_size env) cs).
Proof.
  destruct (new_file_ok hash_fn hash_size incompatible seqnum max_dead page_size env Hhash Hsize Hpage) as [Hok Hm].
  by apply (run_calls_ok _ cs _ _ Hok Hm).
Qed.

(** C4: the library refines a finite map: any sequence of calls on a new file answers
    like the map, where a fetch reads the last value stored, a traversal visits
    every record exactly once, and an update that fails leaves the map as it was
    or without the key it was about. *)
Theorem tdb_refines_map hash_fn hash_size incompatible seqnum max_dead page_size env cs
    (Hhash : 0 < hash_size) (Hsize : 172 + 4 * hash_size < 2 ^ 32) (Hpage : 0 < page_size) :
  let t := tdb_open_new hash_fn hash_size incompatible seqnum max_dead page_size env in
  ∃ m, map_run ∅ cs (run_results hash_fn t cs) m ∧ represents hash_fn (run_calls hash_fn t cs) m.
Proof.
  intros t. destruct (new_file_ok hash_fn hash_size incompatible seqnum max_dead page_size env Hhash Hsize Hpage) as [Hok Hm].
  destruct (run_calls_ok _ cs _ _ Hok Hm) as [_ (m & Hr & Hs)]. by exists m.
Qed.

(** C12: when no request is refused, every call does its work: a store puts the value
    (or the file would outgrow 4 GiB), a delete removes a key that is there, a
    fetch finds what the file holds, a wipe empties it and a traversal visits all
    records. *)
Theorem tdb_calls_succeed hash_fn t m k v
    (Hok : tdb_ok hash_fn t) (Hm : represents hash_fn t m) (Henv : tdb_env t = []) :
  let '(ok, t1) := tdb_store hash_fn t k v TDB_REPLACE in
  (ok = true ∧ represents hash_fn t1 (<[k := v]> m) ∨ tdb_overflow t1 = true)
  ∧ (tdb_fetch hash_fn t k).1 = m !! k
  ∧ (is_Some (m !! k) → (tdb_delete hash_fn t k).1 = true ∧ represents hash_fn (tdb_delete hash_fn t k).2 (delete k m))
  ∧ (tdb_wipe_all t).1 = true ∧ represents hash_fn (tdb_wipe_all t).2 ∅
  ∧ (tdb_traverse collect t []).1.2 ≡ₚ map_to_list m.
Proof.
  destruct (tdb_store hash_fn t k v TDB_REPLACE) as [ok t1] eqn:Es.
  destruct (store_call _ _ _ _ _ _ _ _ Hok Hm Es) as (_ & (m' & Hm' & Hs) & Hg).
  destruct (tdb_fetch hash_fn t k) as [d t2] eqn:Ef. destruct (fetch_call _ _ _ _ _ _ Hok Hm Ef) as (_ & _ & _ & Hf).
  destruct (tdb_delete hash_fn t k) as [dok t3] eqn:Ed. destruct (delete_call _ _ _ _ _ _ Hok Hm Ed) as (_ & (m3 & Hm3 & Hd) & Hgd).
  destruct (tdb_wipe_all t) as [wok t4] eqn:Ew. destruct (wipe_call _ _ _ _ _ Hok Hm Ew) as (_ & Hw & Hgw).
  destruct (tdb_traverse collect t []) as [[n l] t5] eqn:Et. destruct (traverse_call _ true _ _ _ _ _ Hok Hm Et) as (_ & _ & Hx).
  split; [|split; [by apply Hf|split; [|]]].
  - destruct (Hg Henv eq_refl) as [->|]; [left|by right]. split; [done|]. by destruct Hs as [-> _].
  - intros Hk. specialize (Hgd Henv Hk). cbn. subst dok. split; [done|]. by destruct Hd as [_ ->].
  - specialize (Hgw Henv) as ->. split; [done|]. split; [done|]. cbn. by destruct Hx as [[_ []]|[_ ?]].
Qed.

(** *** Witnesses *)

(** A file with two hash chains; the second lock is refused. *)
Definition example_tdb : tdb_context := tdb_open_new tdb_old_hash 2 false true 0 16 [true; true; true; true; false].
Definition example_calls : list tdb_call :=
  [CallStore [1] [5; 6] TDB_REPLACE; CallStore [2] [7] TDB_INSERT; CallFetch [1]; CallDelete [1]].

Lemma tdb_file_invariant_witness : tdb_ok tdb_old_hash (run_calls tdb_old_hash example_tdb example_calls).
Proof. apply (tdb_file_invariant tdb_old_hash 2 false true 0 16 _ example_calls); lia. Defined.

Lemma tdb_refines_map_witness :
  ∃ m, map_run ∅ example_calls (run_results tdb_old_hash example_tdb example_calls) m
    ∧ represents tdb_old_hash (run_calls tdb_old_hash example_tdb example_calls) m.
Proof. apply (tdb_refines_map tdb_old_hash 2 false true 0 16 _ example_calls); lia. Defined.

(** A file that holds one record, in which nothing is refused. *)
Definition example_new : tdb_context := tdb_open_new tdb_old_hash 2 false true 0 16 [].
Definition example_one : tdb_context := (tdb_store tdb_old_hash example_new [1] [5; 6] TDB_REPLACE).2.

Lemma example_one_ok : tdb_ok tdb_old_hash example_one ∧ represents tdb_old_hash example_one {[ [1] := [5; 6] ]}.
Proof.
  destruct (new_file_ok tdb_old_hash 2 false true 0 16 []) as [Hok Hm]; [lia..|].
  destruct (store_call _ _ _ [1] [5; 6] TDB_REPLACE _ _ Hok Hm (surjective_pairing _)) as (Hok1 & (m & Hr & Hs) & _).
  split; [exact Hok1|].
  assert ((tdb_store tdb_old_hash example_new [1] [5; 6] TDB_REPLACE).1 = true) as E by (vm_compute; reflexivity).
  unfold example_new in E. rewrite E in Hs. destruct Hs as [-> _]. exact Hr.
Qed.

Lemma tdb_calls_succeed_witness :
  represents tdb_old_hash (tdb_store tdb_old_hash example_one [2] [7] TDB_REPLACE).2 {[ [2] := [7]; [1] := [5; 6] ]}
  ∧ (tdb_fetch tdb_old_hash example_one [1]).1 = Some [5; 6]
  ∧ represents tdb_old_hash (tdb_delete tdb_old_hash example_one [1]).2 ∅.
Proof.
  destruct example_one_ok as [Hok Hm].
  assert (tdb_env example_one = []) as Henv by (vm_compute; reflexivity).
  pose proof (tdb_calls_succeed tdb_old_hash example_one _ [2] [7] Hok Hm Henv) as H2.
  pose proof (tdb_calls_succeed tdb_old_hash example_one _ [1] [7] Hok Hm Henv) as H1.
  assert (tdb_overflow (tdb_store tdb_old_hash example_one [2] [7] TDB_REPLACE).2 = false) as Ho by (vm_compute; reflexivity).
  destruct (tdb_store tdb_old_hash example_one [2] [7] TDB_REPLACE) as [ok2 t2].
  destruct (tdb_store tdb_old_hash example_one [1] [7] TDB_REPLACE) as [ok1 t1].
  destruct H2 as ([[_ H2]|H2] & _); [|cbn in Ho; congruence]. destruct H1 as (_ & H1 & Hd & _).
  split; [exact H2|]. split; [rewrite H1; reflexivity|].
  destruct Hd as [_ Hd]; [exists [5; 6]; reflexivity|]. rewrite delete_singleton_eq in Hd. exact Hd.
Defined.
