(* ===== verification/TdbTxn.v ===== *)
(** * Transactions on a tdb file

    [lib/tdb/common/transaction.c].  While a transaction is open all writes go to
    copies of the blocks of the file in memory.  The commit saves the old content
    of these blocks to a recovery area of the file, marks it as valid, writes the
    blocks and removes the mark; after a crash [tdb_transaction_recover] writes the
    old content back when it finds the mark.

    The file is memory-mapped: what the process sees is [tc_file].  Everything it
    does to the file is also noted in [tc_log], from which the disk after a power
    failure is defined (TdbCrash.v).  Whether locks are granted, the file can be
    extended and a sync succeeds are answers of the environment ([tc_env]).  A
    page of the mapping that lies behind the end of the file cannot be read.
    Memory allocation does not fail.  A commit whose recovery area would take the
    file past 4 GiB is refused here; the 32-bit sums of the source wrap around. *)
From S2P Require Import Prelude TdbFile.

Module Txn.
Import Tdb.

Definition TDB_RECOVERY_MAGIC : Z := 4114333927. (* 0xf53bc0e7 *)
Definition TDB_RECOVERY_INVALID_MAGIC : Z := 0.

(** What reaches the file. *)
Inductive disk_op :=
| DWrite (off : Z) (buf : bytes)
| DExpand (size addition : Z)
| DSync.

(** [struct tdb_transaction]; [num_blocks] is the length of the list. *)
Record tdb_transaction := mk_txn {
  hash_heads : list Z;
  blocks : list (option bytes);
  block_size : Z;
  last_block_size : Z;
  transaction_error : bool;
  nesting : Z;
  prepared : bool;
  magic_offset : Z;
  old_map_size : Z;
  expanded : bool;
}.

Definition set_hash_heads x v := mk_txn v (blocks x) (block_size x) (last_block_size x) (transaction_error x) (nesting x) (prepared x) (magic_offset x) (old_map_size x) (expanded x).
Definition set_blocks x v := mk_txn (hash_heads x) v (block_size x) (last_block_size x) (transaction_error x) (nesting x) (prepared x) (magic_offset x) (old_map_size x) (expanded x).
Definition set_last_block_size x v := mk_txn (hash_heads x) (blocks x) (block_size x) v (transaction_error x) (nesting x) (prepared x) (magic_offset x) (old_map_size x) (expanded x).
Definition set_error x := mk_txn (hash_heads x) (blocks x) (block_size x) (last_block_size x) true (nesting x) (prepared x) (magic_offset x) (old_map_size x) (expanded x).
Definition set_nesting x v := mk_txn (hash_heads x) (blocks x) (block_size x) (last_block_size x) (transaction_error x) v (prepared x) (magic_offset x) (old_map_size x) (expanded x).
Definition set_prepared x := mk_txn (hash_heads x) (blocks x) (block_size x) (last_block_size x) (transaction_error x) (nesting x) true (magic_offset x) (old_map_size x) (expanded x).
Definition set_magic_offset x v := mk_txn (hash_heads x) (blocks x) (block_size x) (last_block_size x) (transaction_error x) (nesting x) (prepared x) v (old_map_size x) (expanded x).
Definition set_old_map_size x v := mk_txn (hash_heads x) (blocks x) (block_size x) (last_block_size x) (transaction_error x) (nesting x) (prepared x) (magic_offset x) v (expanded x).
Definition set_expanded x := mk_txn (hash_heads x) (blocks x) (block_size x) (last_block_size x) (transaction_error x) (nesting x) (prepared x) (magic_offset x) (old_map_size x) true.

(** The part of [struct tdb_context] that transactions use. *)
Record txn_context := mk_tc {
  tc_file : bytes;
  tc_map_size : Z;
  tc_log : list disk_op;
  tc_transaction : option tdb_transaction;
  tc_hash_size : Z;
  tc_page_size : Z;
  tc_read_only : bool;
  tc_allow_nesting : bool;
  tc_nosync : bool;
  tc_env : list bool;
}.
Implicit Types (c : txn_context) (x : tdb_transaction).

Definition set_tc_file c v l := mk_tc v (tc_map_size c) l (tc_transaction c) (tc_hash_size c) (tc_page_size c) (tc_read_only c) (tc_allow_nesting c) (tc_nosync c) (tc_env c).
Definition set_tc_map_size c v := mk_tc (tc_file c) v (tc_log c) (tc_transaction c) (tc_hash_size c) (tc_page_size c) (tc_read_only c) (tc_allow_nesting c) (tc_nosync c) (tc_env c).
Definition set_tc_transaction c v := mk_tc (tc_file c) (tc_map_size c) (tc_log c) v (tc_hash_size c) (tc_page_size c) (tc_read_only c) (tc_allow_nesting c) (tc_nosync c) (tc_env c).
Definition set_tc_env c v := mk_tc (tc_file c) (tc_map_size c) (tc_log c) (tc_transaction c) (tc_hash_size c) (tc_page_size c) (tc_read_only c) (tc_allow_nesting c) (tc_nosync c) v.
Definition with_txn c x := set_tc_transaction c (Some x).

(** The next answer of the environment. *)
Definition tc_ask c : bool * txn_context :=
  match tc_env c with
  | [] => (true, c)
  | b :: env => (b, set_tc_env c env)
  end.

(** ** The methods on the file itself *)

(** [transaction_oob] *)
Definition transaction_oob c (off len : Z) : bool :=
  (off <=? u32 (off + len)) && (u32 (off + len) <=? tc_map_size c).

Definition io_read c (off len : Z) : option bytes :=
  if transaction_oob c off len && (off + len <=? dsize (tc_file c))
  then Some (read_at off len (tc_file c)) else None.

Definition io_write c (off : Z) (buf : bytes) : bool * txn_context :=
  if dsize buf =? 0 then (true, c)
  else if tc_read_only c then (false, c)
  else if negb (transaction_oob c off (dsize buf) && (off + dsize buf <=? dsize (tc_file c))) then (false, c)
  else (true, set_tc_file c (write_at off buf (tc_file c)) (tc_log c ++ [DWrite off buf])).

(** [tdb_expand_file]: it grows to [size + addition] bytes, filled from [size]
    on. *)
Definition grow (size addition : Z) (f : bytes) : bytes :=
  take (Z.to_nat size) f ++ replicate (Z.to_nat addition) TDB_PAD_BYTE.
Definition io_expand_file c (size addition : Z) : bool * txn_context :=
  if tc_read_only c then (false, c)
  else
    let '(ok, c) := tc_ask c in
    if negb ok then (false, c)
    else (true, set_tc_file c (grow size addition (tc_file c)) (tc_log c ++ [DExpand size addition])).

(** [methods->tdb_oob(tdb, tdb->map_size, 1, 1)]: look at the size of the file. *)
Definition io_probe c : txn_context := set_tc_map_size c (dsize (tc_file c)).

Definition transaction_sync c : bool * txn_context :=
  if tc_nosync c then (true, c)
  else
    let '(ok, c) := tc_ask c in
    if negb ok then (false, c) else (true, set_tc_file c (tc_file c) (tc_log c ++ [DSync])).

(** ** The methods of a transaction *)

(** The part of [transaction_read] within one block. *)
Definition read_block c x (off len : Z) : option bytes * tdb_transaction :=
  let blk := Z.to_nat (off / block_size x) in
  match blocks x !! blk with
  | Some (Some b) =>
      if (S blk =? length (blocks x))%nat && (last_block_size x <? len) then (None, set_error x)
      else (Some (read_at (off mod block_size x) len b), x)
  | _ =>
      match io_read c off len with
      | Some d => (Some d, x)
      | None => (None, set_error x)
      end
  end.

(** The loop shortens [len] every time: [len] rounds are enough. *)
Fixpoint read_blocks (fuel : nat) c x (off len : Z) : option bytes * tdb_transaction :=
  match fuel with
  | O => (None, x)
  | S fuel =>
      if block_size x <? len + off mod block_size x then
        let len2 := block_size x - off mod block_size x in
        match read_block c x off len2 with
        | (None, x) => (None, x)
        | (Some a, x) =>
            match read_blocks fuel c x (off + len2) (len - len2) with
            | (Some b, x) => (Some (a ++ b), x)
            | (None, x) => (None, x)
            end
        end
      else if len =? 0 then (Some [], x)
      else read_block c x off len
  end.
Definition transaction_read c x (off len : Z) : option bytes * tdb_transaction :=
  read_blocks (S (Z.to_nat len)) c x off len.

(** A write to a hash head is mirrored. *)
Definition mirror_head c x (off : Z) (buf : bytes) : tdb_transaction :=
  if (dsize buf =? 4) && (FREELIST_TOP <=? off) && (off <? FREELIST_TOP + (tc_hash_size c + 1) * 4)
  then set_hash_heads x (<[Z.to_nat ((off - FREELIST_TOP) / 4) := le_val buf]> (hash_heads x))
  else x.

(** The array of blocks grows to hold block [blk]. *)
Definition extend_blocks x (blk : nat) : tdb_transaction :=
  if (length (blocks x) <=? blk)%nat
  then set_last_block_size (set_blocks x (blocks x ++ replicate (S blk - length (blocks x)) None)) 0
  else x.

(** Block [blk] as it is in memory, or copied from the file for the first time. *)
Definition get_block c x (blk : nat) : option (bytes * tdb_transaction) :=
  match blocks x !! blk with
  | Some (Some b) => Some (b, x)
  | _ =>
      let base := Z.of_nat blk * block_size x in
      if base <? old_map_size x then
        let len2 := if old_map_size x <? block_size x + base then old_map_size x - base else block_size x in
        d ← io_read c base len2;
        Some (d ++ replicate (Z.to_nat (block_size x - len2)) 0,
              if (S blk =? length (blocks x))%nat then set_last_block_size x len2 else x)
      else Some (replicate (Z.to_nat (block_size x)) 0, x)
  end.

Definition put_block x (blk : nat) (o : Z) (buf b : bytes) : tdb_transaction :=
  let x := set_blocks x (<[blk := Some (write_at o buf b)]> (blocks x)) in
  if (S blk =? length (blocks x))%nat && (last_block_size x <? dsize buf + o)
  then set_last_block_size x (dsize buf + o) else x.

(** The part of [transaction_write] within one block. *)
Definition write_block c x (off : Z) (buf : bytes) : bool * tdb_transaction :=
  let blk := Z.to_nat (off / block_size x) in
  let x := extend_blocks x blk in
  match get_block c x blk with
  | None => (false, set_error x)
  | Some (b, x) => (true, put_block x blk (off mod block_size x) buf b)
  end.

Fixpoint write_blocks (fuel : nat) c x (off : Z) (buf : bytes) : bool * tdb_transaction :=
  match fuel with
  | O => (false, x)
  | S fuel =>
      if block_size x <? dsize buf + off mod block_size x then
        let len2 := block_size x - off mod block_size x in
        let piece := take (Z.to_nat len2) buf in
        match write_block c (mirror_head c x off piece) off piece with
        | (false, x) => (false, x)
        | (true, x) => write_blocks fuel c x (off + len2) (drop (Z.to_nat len2) buf)
        end
      else if dsize buf =? 0 then (true, x)
      else write_block c x off buf
  end.
Definition transaction_write c x (off : Z) (buf : bytes) : bool * tdb_transaction :=
  if prepared x then (false, set_error x)
  else write_blocks (S (length buf)) c (mirror_head c x off buf) off buf.

(** The part of [transaction_write_existing] within one block. *)
Definition write_existing_block x (off : Z) (buf : bytes) : tdb_transaction :=
  let blk := Z.to_nat (off / block_size x) in
  let o := off mod block_size x in
  match blocks x !! blk with
  | Some (Some b) =>
      let buf :=
        if (S blk =? length (blocks x))%nat && (last_block_size x <? o + dsize buf)
        then take (Z.to_nat (last_block_size x - o)) buf else buf in
      set_blocks x (<[blk := Some (write_at o buf b)]> (blocks x))
  | _ => x
  end.
Fixpoint write_existing_blocks (fuel : nat) x (off : Z) (buf : bytes) : tdb_transaction :=
  match fuel with
  | O => x
  | S fuel =>
      if block_size x <? dsize buf + off mod block_size x then
        let len2 := block_size x - off mod block_size x in
        write_existing_blocks fuel (write_existing_block x off (take (Z.to_nat len2) buf))
          (off + len2) (drop (Z.to_nat len2) buf)
      else if dsize buf =? 0 then x
      else write_existing_block x off buf
  end.
Definition transaction_write_existing x (off : Z) (buf : bytes) : tdb_transaction :=
  write_existing_blocks (S (length buf)) x off buf.

(** [transaction_next_hash_chain] *)
Fixpoint transaction_next_hash_chain (fuel : nat) c x (h : Z) : Z :=
  match fuel with
  | O => h
  | S fuel =>
      if h <? tc_hash_size c then
        if default 0 (hash_heads x !! Z.to_nat (h + 1)) =? 0
        then transaction_next_hash_chain fuel c x (h + 1) else h
      else h
  end.

(** The new part of the file reads as zero. *)
Definition transaction_expand_file c x (size addition : Z) : bool * tdb_transaction :=
  let '(ok, x) := transaction_write c x size (replicate (Z.to_nat addition) 0) in
  if negb ok then (false, x) else (true, set_expanded x).

(** ** Start and cancel *)

(** The copy of the hash heads. *)
Definition heads_from (n : nat) (d : bytes) : list Z := (λ i, le_val (slice (4 * i) 4 d)) <$> seq 0 n.

(** [_tdb_transaction_start]; holding locks or a traversal in progress is an
    answer of the environment. *)
Definition tdb_transaction_start c : bool * txn_context :=
  if tc_read_only c then (false, c)
  else match tc_transaction c with
  | Some x =>
      if tc_allow_nesting c then (true, with_txn c (set_nesting x (nesting x + 1))) else (false, c)
  | None =>
      let '(ok, c) := tc_ask c in (* no extra locks, no traversal *)
      if negb ok then (false, c)
      else
        let '(ok, c) := tc_ask c in (* tdb_transaction_lock *)
        if negb ok then (false, c)
        else
          let '(ok, c) := tc_ask c in (* tdb_allrecord_lock *)
          if negb ok then (false, c)
          else match io_read c FREELIST_TOP ((tc_hash_size c + 1) * 4) with
          | None => (false, c)
          | Some d =>
              let heads := heads_from (S (Z.to_nat (tc_hash_size c))) d in
              let c := io_probe c in
              (true, with_txn c (mk_txn heads [] (tc_page_size c) 0 false 0 false 0 (tc_map_size c) false))
          end
  end.

Definition tdb_transaction_cancel c : bool * txn_context :=
  match tc_transaction c with
  | None => (false, c)
  | Some x =>
      if negb (nesting x =? 0) then (true, with_txn c (set_nesting (set_error x) (nesting x - 1)))
      else
        let c := set_tc_map_size c (old_map_size x) in
        let '(ok, c) :=
          if magic_offset x =? 0 then (true, c)
          else
            let '(ok, c) := io_write c (magic_offset x) (le_bytes 4 TDB_RECOVERY_INVALID_MAGIC) in
            if negb ok then (false, c) else transaction_sync c in
        (ok, set_tc_transaction c None)
  end.

(** ** The recovery area *)

(** Number of bytes that block [i] stands for. *)
Definition block_length x (i : nat) : Z :=
  if (S i =? length (blocks x))%nat then last_block_size x else block_size x.

(** [tdb_recovery_size]: the loop from block [i] on. *)
Fixpoint recovery_size_from x (i : nat) (bs : list (option bytes)) : Z :=
  match bs with
  | [] => 0
  | b :: bs =>
      if old_map_size x <=? Z.of_nat i * block_size x then 0
      else
        match b with None => 0 | Some _ => 8 + block_length x i end
        + recovery_size_from x (S i) bs
  end.
Definition tdb_recovery_size x : Z := 4 + recovery_size_from x 0 (blocks x).

(** [tdb_ofs_read] and [tdb_ofs_write] in a transaction. *)
Definition txn_ofs_read c x (off : Z) : option Z * tdb_transaction :=
  let '(d, x) := transaction_read c x off 4 in (le_val <$> d, x).
Definition txn_ofs_write c x (off v : Z) : bool * tdb_transaction := transaction_write c x off (le_bytes 4 v).

(** Offset (0: none) and record of the recovery area; [None] is a failure. *)
Definition tdb_recovery_area c x : option (Z * tdb_record) * tdb_transaction :=
  match txn_ofs_read c x TDB_RECOVERY_HEAD with
  | (None, x) => (None, x)
  | (Some off, x) =>
      let none := mk_rec 0 0 0 0 0 0 in
      if off =? 0 then (Some (0, none), x)
      else match io_read c off sizeof_rec with
      | None => (None, x)
      | Some d =>
          let r := rec_of_bytes d in
          if negb (magic r =? TDB_RECOVERY_MAGIC) && negb (magic r =? TDB_RECOVERY_INVALID_MAGIC)
          then (Some (0, set_rec_len r 0), x) else (Some (off, r), x)
      end
  end.

(** [tdb_free] in a transaction; the locks are held. *)
Definition txn_update_tailer c x (off : Z) (r : tdb_record) : bool * tdb_transaction :=
  let totalsize := u32 (sizeof_rec + rec_len r) in
  txn_ofs_write c x (u32 (off + totalsize - 4)) totalsize.
Definition txn_data_start c : Z := FREELIST_TOP + tc_hash_size c * 4 + 4.
Definition txn_left_free c x (off : Z) : option (Z * tdb_record) * tdb_transaction :=
  if negb (txn_data_start c <? u64 (off - 4)) then (None, x)
  else match txn_ofs_read c x (u32 (off - 4)) with
  | (None, x) => (None, x)
  | (Some leftsize, x) =>
      if (leftsize =? 0) || (leftsize =? TDB_PAD_U32) then (None, x)
      else
        let lft := u32 (off - leftsize) in
        if (off <? leftsize) || (lft <? txn_data_start c) then (None, x)
        else match transaction_read c x lft sizeof_rec with
        | (None, x) => (None, x)
        | (Some d, x) =>
            let l := rec_of_bytes d in
            (if magic l =? TDB_FREE_MAGIC then Some (lft, l) else None, x)
        end
  end.
Definition txn_free c x (off : Z) (r : tdb_record) : bool * tdb_transaction :=
  let '(ok, x) := txn_update_tailer c x off r in
  if negb ok then (false, x)
  else match txn_left_free c x off with
  | (Some (lft, l), x) =>
      let l := set_rec_len l (u32 (rec_len l + (sizeof_rec + rec_len r))) in
      let '(ok, x) := transaction_write c x lft (rec_bytes l) in
      if negb ok then (false, x) else txn_update_tailer c x lft l
  | (None, x) =>
      match txn_ofs_read c x FREELIST_TOP with
      | (None, x) => (false, x)
      | (Some top, x) =>
          let '(ok, x) := transaction_write c x off (rec_bytes (set_next (set_magic r TDB_FREE_MAGIC) top)) in
          if negb ok then (false, x) else txn_ofs_write c x FREELIST_TOP off
      end
  end.

(** The end of [tdb_recovery_allocate]: the file is extended for an area at
    [recovery_head], which becomes the recovery head. *)
Definition recovery_extend c x (recovery_size recovery_head : Z) : option (Z * Z * Z) * tdb_transaction * txn_context :=
  let size := tdb_expand_adjust (tc_map_size c) recovery_size (tc_page_size c) in
  if expand_overflows (tc_map_size c) recovery_size (tc_page_size c) || (2 ^ 32 <=? recovery_head + size)
  then (None, x, c)
  else
    let recovery_max_size := u32 (size - sizeof_rec) in
    let new_end := u32 (recovery_head + sizeof_rec + recovery_max_size) in
    let '(ok, c) := io_expand_file c (old_map_size x) (u32 (new_end - old_map_size x)) in
    if negb ok then (None, x, c)
    else
      let c := io_probe c in
      let x := set_old_map_size x (tc_map_size c) in
      let '(ok, c) := io_write c TDB_RECOVERY_HEAD (le_bytes 4 recovery_head) in
      if negb ok then (None, x, c)
      else (Some (recovery_size, recovery_head, recovery_max_size),
            transaction_write_existing x TDB_RECOVERY_HEAD (le_bytes 4 recovery_head), c).

(** [tdb_recovery_allocate]: (recovery_size, recovery_offset, recovery_max_size). *)
Definition tdb_recovery_allocate c x : option (Z * Z * Z) * tdb_transaction * txn_context :=
  match tdb_recovery_area c x with
  | (None, x) => (None, x, c)
  | (Some (recovery_head, r), x) =>
      let recovery_size := tdb_recovery_size x in
      if negb (recovery_head =? 0) && (recovery_size <=? rec_len r)
      then (Some (recovery_size, recovery_head, rec_len r), x, c)
      else if (recovery_head =? 0) || negb (recovery_head + sizeof_rec + rec_len r =? tc_map_size c) then
        let '(ok, x) := if negb (recovery_head =? 0) then txn_free c x recovery_head r else (true, x) in
        if negb ok then (None, x, c)
        else recovery_extend c x (tdb_recovery_size x) (tc_map_size c)
      else recovery_extend c x recovery_size recovery_head
  end.

(** The old content of the blocks from [i] on, each with offset and length. *)
Fixpoint recovery_blocks c x (old_size : Z) (i : nat) (bs : list (option bytes)) : option bytes :=
  match bs with
  | [] => Some []
  | b :: bs =>
      let offset := Z.of_nat i * block_size x in
      let length := block_length x i in
      match b with
      | None => recovery_blocks c x old_size (S i) bs
      | Some _ =>
          if old_size <=? offset then recovery_blocks c x old_size (S i) bs
          else if old_map_size x <? offset + length then None
          else
            d ← io_read c offset length;
            rest ← recovery_blocks c x old_size (S i) bs;
            Some (le_bytes 4 offset ++ le_bytes 4 length ++ d ++ rest)
      end
  end.

(** The end of [transaction_setup_recovery]: the area is written and then marked. *)
Definition recovery_write c x (recovery_offset : Z) (data : bytes) : bool * tdb_transaction * txn_context :=
  let '(ok, c) := io_write c recovery_offset data in
  if negb ok then (false, x, c)
  else
    let x := transaction_write_existing x recovery_offset data in
    let '(ok, c) := transaction_sync c in
    if negb ok then (false, x, c)
    else
      let x := set_magic_offset x (u32 (recovery_offset + 20)) in
      let '(ok, c) := io_write c (magic_offset x) (le_bytes 4 TDB_RECOVERY_MAGIC) in
      if negb ok then (false, x, c)
      else
        let x := transaction_write_existing x (magic_offset x) (le_bytes 4 TDB_RECOVERY_MAGIC) in
        let '(ok, c) := transaction_sync c in (ok, x, c).

Definition transaction_setup_recovery c x : bool * tdb_transaction * txn_context :=
  let old_size := old_map_size x in
  match tdb_recovery_allocate c x with
  | (None, x, c) => (false, x, c)
  | (Some (recovery_size, recovery_offset, recovery_max_size), x, c) =>
      match recovery_blocks c x old_size 0 (blocks x) with
      | None => (false, x, c)
      | Some saved =>
          let r := mk_rec 0 recovery_max_size old_size recovery_size 0 TDB_RECOVERY_INVALID_MAGIC in
          recovery_write c x recovery_offset
            (rec_bytes r ++ saved ++ le_bytes 4 (u32 (sizeof_rec + recovery_max_size)))
      end
  end.

(** ** Commit *)

Definition failed c : bool * txn_context := (false, (tdb_transaction_cancel c).2).

Definition tdb_transaction_prepare_commit c : bool * txn_context :=
  match tc_transaction c with
  | None => (false, c)
  | Some x =>
      if prepared x then failed c
      else if transaction_error x then failed c
      else if negb (nesting x =? 0) then (true, c)
      else if bool_decide (blocks x = []) then (true, c)
      else
        let '(ok, c) := tc_ask c in (* no extra locks *)
        if negb ok then failed c
        else
          let '(ok, c) := tc_ask c in (* tdb_allrecord_upgrade *)
          if negb ok then failed c
          else
            let '(ok, c) := tc_ask c in (* tdb_nest_lock *)
            if negb ok then failed c
            else
              let '(ok, x, c) := transaction_setup_recovery c x in
              if negb ok then failed (with_txn c x)
              else
                let x := set_prepared x in
                if tc_map_size c =? old_map_size x then (true, with_txn c x)
                else
                  let '(ok, c) := io_expand_file c (old_map_size x) (u32 (tc_map_size c - old_map_size x)) in
                  if negb ok then failed (with_txn c x)
                  else (true, io_probe (with_txn c x))
  end.

(** The blocks from [i] on are written. *)
Fixpoint write_out c x (i : nat) (bs : list (option bytes)) : bool * txn_context :=
  match bs with
  | [] => (true, c)
  | None :: bs => write_out c x (S i) bs
  | Some b :: bs =>
      let '(ok, c) := io_write c (Z.of_nat i * block_size x) (take (Z.to_nat (block_length x i)) b) in
      if negb ok then (false, c) else write_out c x (S i) bs
  end.

(** The loop of [repack_worthwhile]: (total, largest).  A record that is not
    marked free ends it; its mark cannot be repaired in a prepared transaction. *)
Fixpoint repack_from (fuel : nat) c x (ptr total largest : Z) : Z * Z :=
  match fuel with
  | O => (total, largest)
  | S fuel =>
      if ptr =? 0 then (total, largest)
      else match transaction_read c x ptr sizeof_rec with
      | (None, _) => (total, largest)
      | (Some d, _) =>
          let r := rec_of_bytes d in
          if negb (magic r =? TDB_FREE_MAGIC) || negb (transaction_oob c (next r) sizeof_rec) then (total, largest)
          else repack_from fuel c x (next r) (u32 (total + rec_len r)) (Z.max largest (rec_len r))
      end
  end.
Definition repack_worthwhile c x : bool :=
  match txn_ofs_read c x FREELIST_TOP with
  | (None, _) => false
  | (Some ptr, _) =>
      let '(total, largest) := repack_from (S (length (tc_file c))) c x ptr 0 0 in
      u32 (largest * 2) <? total
  end.

(** ** Recovery after a crash *)

(** The loop over the saved data: [ofs], [len] and the old bytes. *)
Fixpoint restore (fuel : nat) c (p : bytes) : bool * txn_context :=
  match fuel with
  | O => (false, c)
  | S fuel =>
      if dsize p <=? 8 then (true, c)
      else
        let ofs := le_val (slice 0 4 p) in
        let len := le_val (slice 4 4 p) in
        let '(ok, c) := io_write c ofs (slice 8 (Z.to_nat len) p) in
        if negb ok then (false, c) else restore fuel c (drop (8 + Z.to_nat len) p)
  end.

Definition tdb_transaction_recover c : bool * txn_context :=
  match io_read c TDB_RECOVERY_HEAD 4 with
  | None => (false, c)
  | Some d =>
      let recovery_head := le_val d in
      if recovery_head =? 0 then (true, c)
      else match io_read c recovery_head sizeof_rec with
      | None => (false, c)
      | Some d =>
          let r := rec_of_bytes d in
          if negb (magic r =? TDB_RECOVERY_MAGIC) then (true, c)
          else if tc_read_only c then (false, c)
          else match io_read c (u32 (recovery_head + sizeof_rec)) (data_len r) with
          | None => (false, c)
          | Some data =>
              let '(ok, c) := restore (S (length data)) c data in
              if negb ok then (false, c)
              else
                let '(ok, c) := transaction_sync c in
                if negb ok then (false, c)
                else
                  let '(ok, c) :=
                    if key_len r <=? recovery_head then io_write c TDB_RECOVERY_HEAD (le_bytes 4 0) else (true, c) in
                  if negb ok then (false, c)
                  else
                    let '(ok, c) := io_write c (u32 (recovery_head + 20)) (le_bytes 4 0) in
                    if negb ok then (false, c) else transaction_sync c
          end
      end
  end.

Definition tdb_needs_recovery c : bool :=
  match io_read c TDB_RECOVERY_HEAD 4 with
  | None => true
  | Some d =>
      if le_val d =? 0 then false
      else match io_read c (le_val d) sizeof_rec with
      | None => true
      | Some d => magic (rec_of_bytes d) =? TDB_RECOVERY_MAGIC
      end
  end.

(** [tdb_transaction_commit] up to its last statement: (success, [need_repack],
    context).  With [need_repack] the function ends with [return tdb_repack(tdb)] in
    this context, which is a transaction of its own. *)
Definition tdb_transaction_commit c : bool * bool * txn_context :=
  match tc_transaction c with
  | None => (false, false, c)
  | Some x =>
      if transaction_error x then (false, false, (tdb_transaction_cancel c).2)
      else if negb (nesting x =? 0) then (true, false, with_txn c (set_nesting x (nesting x - 1)))
      else if bool_decide (blocks x = []) then (true, false, (tdb_transaction_cancel c).2)
      else
        let '(ok, c) := if prepared x then (true, c) else tdb_transaction_prepare_commit c in
        match ok, tc_transaction c with
        | true, Some x =>
            let '(ok, c) := write_out c x 0 (blocks x) in
            if negb ok then
              let '(_, c) := tdb_transaction_recover c in (false, false, (tdb_transaction_cancel c).2)
            else
              let x := set_blocks x ((λ _, None) <$> blocks x) in
              let need_repack := expanded x && repack_worthwhile c x in
              let x := set_blocks x [] in
              let '(ok, c) := transaction_sync (with_txn c x) in
              if negb ok then (false, false, c)
              else (true, need_repack, (tdb_transaction_cancel c).2)
        | _, _ => (false, false, c)
        end
  end.
End Txn.
