(* ===== verification/TdbTxnView.v ===== *)
(** * What a transaction sees

    The content of a tdb file inside a transaction: the blocks in memory over the
    file ([vbyte]).  The reads and writes of a transaction are those of a flat file
    with that content, and the file itself is not touched. *)
From S2P Require Import Prelude TdbFile TdbLayout TdbTxn.
Import Tdb Txn.

Implicit Types (c : txn_context) (x : tdb_transaction) (f : bytes).

(** ** Bytes by offset *)

Definition byte_at f (o : Z) : option Z := f !! Z.to_nat o.

Lemma byte_at_lt f o : 0 <= o → is_Some (byte_at f o) ↔ o < dsize f.
Proof. intros Ho. unfold byte_at, dsize. rewrite lookup_lt_is_Some. lia. Qed.
Lemma byte_at_ge f o : dsize f <= o → byte_at f o = None.
Proof. intros Ho. apply lookup_ge_None. unfold dsize in Ho. lia. Qed.

Lemma byte_ext f g : dsize f = dsize g → (∀ o, 0 <= o < dsize f → byte_at f o = byte_at g o) → f = g.
Proof.
  unfold dsize. intros Hl Hb. apply list_eq. intros i. destruct (Nat.lt_ge_cases i (length f)).
  - specialize (Hb (Z.of_nat i)). unfold byte_at in Hb. rewrite Nat2Z.id in Hb. apply Hb. lia.
  - rewrite !lookup_ge_None_2 by lia. done.
Qed.

Lemma byte_at_app f g o :
  0 <= o → byte_at (f ++ g) o = if decide (o < dsize f) then byte_at f o else byte_at g (o - dsize f).
Proof.
  intros Ho. unfold byte_at, dsize. case_decide.
  - rewrite lookup_app_l by lia. done.
  - rewrite lookup_app_r by lia. f_equal. lia.
Qed.

Lemma dsize_take n f : 0 <= n <= dsize f → dsize (take (Z.to_nat n) f) = n.
Proof. unfold dsize. intros. rewrite length_take. lia. Qed.
Lemma dsize_drop n f : 0 <= n <= dsize f → dsize (drop (Z.to_nat n) f) = dsize f - n.
Proof. unfold dsize. intros. rewrite length_drop. lia. Qed.
Lemma dsize_replicate n (v : Z) : 0 <= n → dsize (replicate (Z.to_nat n) v) = n.
Proof. unfold dsize. intros. rewrite length_replicate. lia. Qed.
Lemma byte_take n f o : 0 <= o < n → byte_at (take (Z.to_nat n) f) o = byte_at f o.
Proof. intros. unfold byte_at. apply lookup_take_lt. lia. Qed.
Lemma byte_drop n f o : 0 <= n → 0 <= o → byte_at (drop (Z.to_nat n) f) o = byte_at f (n + o).
Proof. intros. unfold byte_at. rewrite lookup_drop. f_equal. lia. Qed.
Lemma byte_replicate n (v : Z) o : 0 <= o < n → byte_at (replicate (Z.to_nat n) v) o = Some v.
Proof. intros. unfold byte_at. apply lookup_replicate_2. lia. Qed.

Lemma dsize_read off len f : 0 <= off → 0 <= len → off + len <= dsize f → dsize (read_at off len f) = len.
Proof. unfold read_at, slice, dsize. intros. rewrite length_take, length_drop. lia. Qed.
Lemma byte_read off len f o : 0 <= off → 0 <= o < len → byte_at (read_at off len f) o = byte_at f (off + o).
Proof.
  intros. unfold read_at, slice, byte_at. rewrite lookup_take_lt by lia. rewrite lookup_drop. f_equal. lia.
Qed.

Lemma dsize_write off buf f : 0 <= off → off + dsize buf <= dsize f → dsize (write_at off buf f) = dsize f.
Proof. unfold write_at, dsize. intros. rewrite !length_app, length_take, length_drop. lia. Qed.
Lemma byte_write off buf f o :
  0 <= off → off + dsize buf <= dsize f → 0 <= o →
  byte_at (write_at off buf f) o
  = if decide (off <= o < off + dsize buf) then byte_at buf (o - off) else byte_at f o.
Proof.
  intros Ho Hs Hp. pose proof (dsize_nonneg buf). unfold write_at. rewrite byte_at_app, dsize_take by lia. case_decide as H1.
  { rewrite byte_take by lia. rewrite decide_False by lia. done. }
  rewrite byte_at_app by lia. case_decide as H2; [rewrite decide_True by lia; done|].
  rewrite decide_False by lia. unfold byte_at, dsize in *. rewrite lookup_drop. f_equal. lia.
Qed.

(** ** The content inside a transaction *)

Definition vbyte c x (o : Z) : option Z :=
  match blocks x !! Z.to_nat (o / block_size x) with
  | Some (Some b) => byte_at b (o mod block_size x)
  | _ => byte_at (tc_file c) o
  end.

Lemma io_read_in c off len :
  0 <= off → 0 <= len → off + len <= dsize (tc_file c) → dsize (tc_file c) <= tc_map_size c < 2 ^ 32 →
  io_read c off len = Some (read_at off len (tc_file c)).
Proof.
  intros H1 H2 H3 H4. unfold io_read, transaction_oob. rewrite u32_id by (unfold is_u32; lia).
  rewrite !(proj2 (Z.leb_le _ _)) by lia. done.
Qed.

(** The blocks of a transaction whose file has [sz] bytes by now. *)
Record overlay (sz : Z) c x : Prop := {
  ov_block_size : 0 < block_size x;
  ov_file : dsize (tc_file c) = old_map_size x;
  ov_old : old_map_size x <= tc_map_size c;
  ov_size : old_map_size x <= sz < 2 ^ 32;
  ov_map_size : tc_map_size c < 2 ^ 32;
  ov_blocks i b : blocks x !! i = Some (Some b) → dsize b = block_size x;
  ov_new o : old_map_size x <= o < sz → ∃ b, blocks x !! Z.to_nat (o / block_size x) = Some (Some b);
  ov_last : blocks x = [] ∨ ∃ n b, length (blocks x) = S n ∧ blocks x !! n = Some (Some b)
    ∧ Z.of_nat n * block_size x < sz
    ∧ last_block_size x = Z.min (block_size x) (sz - Z.of_nat n * block_size x);
}.

(** Splitting of offsets into blocks. *)
Lemma block_of bs n o : 0 < bs → 0 <= o < bs → (n * bs + o) / bs = n ∧ (n * bs + o) mod bs = o.
Proof.
  intros Hb Ho. rewrite Z.add_comm, Z.mul_comm, Z.mul_comm, Z.div_add, Z.mod_add by lia.
  rewrite Z.div_small, Z.mod_small by lia. lia.
Qed.
Lemma block_split bs o : 0 < bs → o = o / bs * bs + o mod bs ∧ 0 <= o mod bs < bs.
Proof. intros Hb. pose proof (Z.div_mod o bs). pose proof (Z.mod_pos_bound o bs). lia. Qed.
Lemma block_same bs off o : 0 < bs → off <= o → o - off + off mod bs < bs → o / bs = off / bs ∧ o mod bs = o - off + off mod bs.
Proof.
  intros Hb Ho Hlt. destruct (block_split bs off Hb) as [E ?].
  destruct (block_of bs (off / bs) (o - off + off mod bs)) as [H1 H2]; [lia..|].
  replace (off / bs * bs + (o - off + off mod bs)) with o in H1, H2 by lia. done.
Qed.

Section overlay.
Context (sz : Z) c x (Ho : overlay sz c x).
#[local] Abbreviation bs := (block_size x).

(** A place that is not in memory lies in the file. *)
Lemma overlay_in_file o :
  0 <= o < sz → (∀ b, blocks x !! Z.to_nat (o / bs) ≠ Some (Some b)) → o < old_map_size x.
Proof.
  intros Hr Hn. destruct (Z.lt_ge_cases o (old_map_size x)) as [|Hge]; [done|].
  destruct (ov_new _ _ _ Ho o) as [b Hb]; [lia|]. by destruct (Hn b).
Qed.

Lemma vbyte_some o : 0 <= o < sz → is_Some (vbyte c x o).
Proof.
  intros Hr. pose proof (ov_block_size _ _ _ Ho). unfold vbyte. destruct (block_split bs o) as [_ Hm]; [done|].
  destruct (blocks x !! Z.to_nat (o / bs)) as [[b|]|] eqn:E.
  - apply byte_at_lt; [lia|]. rewrite (ov_blocks _ _ _ Ho _ _ E). lia.
  - apply byte_at_lt; [lia|]. rewrite (ov_file _ _ _ Ho). apply overlay_in_file; [done|]. by rewrite E.
  - apply byte_at_lt; [lia|]. rewrite (ov_file _ _ _ Ho). apply overlay_in_file; [done|]. by rewrite E.
Qed.

Lemma io_read_ok off len :
  0 <= off → 0 <= len → off + len <= old_map_size x →
  io_read c off len = Some (read_at off len (tc_file c)).
Proof.
  intros H1 H2 H3. pose proof (ov_file _ _ _ Ho). pose proof (ov_old _ _ _ Ho). pose proof (ov_map_size _ _ _ Ho).
  apply io_read_in; lia.
Qed.

(** The blocks that are in memory reach to the end of their part of the file. *)
Lemma overlay_block_length i b :
  blocks x !! i = Some (Some b) → Z.of_nat i * bs < sz ∧ block_length x i = Z.min bs (sz - Z.of_nat i * bs).
Proof.
  intros Hi. pose proof (ov_block_size _ _ _ Ho). destruct (ov_last _ _ _ Ho) as [E|(n & b' & Hn & _ & Hlt & Hl)]; [by rewrite E in Hi|].
  apply lookup_lt_Some in Hi as Hi'. unfold block_length. destruct (Nat.eqb_spec (S i) (length (blocks x))) as [E|E].
  - assert (i = n) as -> by lia. done.
  - assert (i < n)%nat by lia. nia.
Qed.

(** ** Reading *)

Lemma read_block_ok off len :
  0 <= off → 0 < len → off + len <= sz → len + off mod bs <= bs →
  ∃ d, read_block c x off len = (Some d, x) ∧ dsize d = len ∧ ∀ i, 0 <= i < len → byte_at d i = vbyte c x (off + i).
Proof.
  intros H0 Hl Hs Hb. pose proof (ov_block_size _ _ _ Ho) as Hbs. destruct (block_split bs off Hbs) as [Eo Hm].
  assert (∀ i, 0 <= i < len → (off + i) / bs = off / bs ∧ (off + i) mod bs = off mod bs + i) as Hblk.
  { intros i Hi. destruct (block_same bs off (off + i)) as [-> ->]; lia. }
  unfold read_block. destruct (blocks x !! Z.to_nat (off / bs)) as [[b|]|] eqn:E.
  { assert (0 <= off / bs) by (apply Z.div_pos; lia).
    destruct (overlay_block_length _ _ E) as [_ Hlen]. rewrite Z2Nat.id in Hlen by done. unfold block_length in Hlen.
    destruct (_ =? _)%nat; cbn [andb]; [rewrite (proj2 (Z.ltb_ge _ _)) by lia|];
      (eexists; split; [done|]; rewrite dsize_read by (rewrite ?(ov_blocks _ _ _ Ho _ _ E); lia); split; [done|]; intros i Hi;
       rewrite byte_read by lia; unfold vbyte; destruct (Hblk i Hi) as [-> ->]; by rewrite E). }
  all: assert (off + len <= old_map_size x) as Hold;
    [destruct (Hblk (len - 1)) as [Hd _]; [lia|]; assert (off + (len - 1) < old_map_size x); [|lia];
     apply overlay_in_file; [lia|]; rewrite Hd, E; done|].
  all: rewrite io_read_ok by lia; eexists; split; [done|]; rewrite dsize_read by (rewrite ?(ov_file _ _ _ Ho); lia); split; [done|];
    intros i Hi; rewrite byte_read by lia; unfold vbyte; destruct (Hblk i Hi) as [-> _]; by rewrite E.
Qed.

Lemma read_blocks_ok fuel off len :
  0 <= off → 0 <= len → off + len <= sz → (Z.to_nat len < fuel)%nat →
  ∃ d, read_blocks fuel c x off len = (Some d, x) ∧ dsize d = len ∧ ∀ i, 0 <= i < len → byte_at d i = vbyte c x (off + i).
Proof.
  pose proof (ov_block_size _ _ _ Ho) as Hbs. revert off len. induction fuel as [|fuel IH]; intros off len H0 Hl Hs Hf; [lia|].
  cbn [read_blocks]. destruct (block_split bs off Hbs) as [_ Hm]. destruct (Z.ltb_spec bs (len + off mod bs)) as [Hlt|Hge].
  - set (len2 := bs - off mod bs). destruct (read_block_ok off len2) as (a & -> & Ha & Hba); [lia..|].
    destruct (IH (off + len2) (len - len2)) as (b & -> & Hb & Hbb); [lia..|]. exists (a ++ b). split; [done|].
    rewrite dsize_app. split; [lia|]. intros i Hi. rewrite byte_at_app by lia. case_decide.
    + apply Hba. lia.
    + rewrite Hbb by lia. f_equal. lia.
  - destruct (Z.eqb_spec len 0) as [->|]; [exists []; split; [done|]; split; [done|]; lia|]. apply read_block_ok; lia.
Qed.

(** A read inside the file gives what the transaction sees. *)
Lemma transaction_read_ok off len :
  0 <= off → 0 <= len → off + len <= sz →
  ∃ d, transaction_read c x off len = (Some d, x) ∧ dsize d = len ∧ ∀ i, 0 <= i < len → byte_at d i = vbyte c x (off + i).
Proof. intros. apply read_blocks_ok; lia. Qed.
End overlay.

(** ** Writing *)

(** What a write leaves alone. *)
Definition tx_params x := (block_size x, transaction_error x, nesting x, prepared x, magic_offset x, old_map_size x).

(** The byte at [o] after a write of [buf] at [off]. *)
Definition over (off : Z) (buf : bytes) (old : Z → option Z) (o : Z) : option Z :=
  if decide (off <= o < off + dsize buf) then byte_at buf (o - off) else old o.

Lemma over_skip off buf old o : ¬ off <= o < off + dsize buf → over off buf old o = old o.
Proof. intros. unfold over. by rewrite decide_False. Qed.

(** The array after [extend_blocks]: the last block may not be there yet. *)
Record extended sz c x (blk : nat) : Prop := {
  ex_block_size : 0 < block_size x;
  ex_blk : (blk < length (blocks x))%nat;
  ex_base : Z.of_nat blk * block_size x <= sz;
  ex_blocks i b : blocks x !! i = Some (Some b) → dsize b = block_size x;
  ex_new o : old_map_size x <= o < sz → ∃ b, blocks x !! Z.to_nat (o / block_size x) = Some (Some b);
  ex_last : last_block_size x
    = if decide (blocks x !! blk = Some None ∧ length (blocks x) = S blk) then 0
      else Z.min (block_size x) (sz - (Z.of_nat (length (blocks x)) - 1) * block_size x);
  ex_end : length (blocks x) = S blk ∨
    (Z.of_nat (length (blocks x)) - 1) * block_size x < sz ∧ ∃ b, blocks x !! pred (length (blocks x)) = Some (Some b);
}.

Lemma extend_ok sz c x blk :
  overlay sz c x → Z.of_nat blk * block_size x <= sz →
  extended sz c (extend_blocks x blk) blk ∧ (∀ o, vbyte c (extend_blocks x blk) o = vbyte c x o)
  ∧ tx_params (extend_blocks x blk) = tx_params x ∧ hash_heads (extend_blocks x blk) = hash_heads x.
Proof.
  intros Ho Hb. unfold extend_blocks. destruct (Nat.leb_spec (length (blocks x)) blk) as [Hle|Hgt].
  - assert (∀ i b, (blocks x ++ replicate (S blk - length (blocks x)) None) !! i = Some (Some b) ↔ blocks x !! i = Some (Some b)) as Hi.
    { intros i b. rewrite lookup_app. destruct (blocks x !! i) as [e|] eqn:E; [tauto|].
      split; [|done]. by intros [? _]%lookup_replicate. }
    split; [|split; [|done]].
    + split; cbn [blocks block_size last_block_size old_map_size set_last_block_size set_blocks].
      * apply Ho.
      * rewrite length_app, length_replicate. lia.
      * done.
      * intros i b ?%Hi. by eapply Ho.
      * intros o Hr. destruct (ov_new _ _ _ Ho o Hr) as [b Hb']. exists b. by apply Hi.
      * rewrite decide_True; [done|]. rewrite length_app, length_replicate. split; [|lia].
        rewrite lookup_app_r by lia. apply lookup_replicate_2. lia.
      * left. rewrite length_app, length_replicate. lia.
    + intros o. unfold vbyte. cbn [blocks block_size set_last_block_size set_blocks].
      destruct (blocks x !! Z.to_nat (o / block_size x)) as [[b|]|] eqn:E.
      * apply Hi in E. by rewrite E.
      * rewrite lookup_app, E. done.
      * destruct ((blocks x ++ _) !! _) as [[b|]|] eqn:E'; [apply Hi in E'; congruence|done..].
  - destruct (ov_last _ _ _ Ho) as [E|(n & b & Hn & Hb' & Hlt & Hl)]; [rewrite E in Hgt; cbn in Hgt; lia|].
    split; [|done]. split; try done; try apply Ho.
    + rewrite Hl, Hn. rewrite decide_False; [do 2 f_equal; lia|]. intros [H1 H2]. assert (blk = n) as -> by lia. congruence.
    + right. rewrite Hn. cbn [pred]. split; [nia|by exists b].
Qed.

Lemma get_block_ok sz c x blk :
  extended sz c x blk → dsize (tc_file c) = old_map_size x → old_map_size x <= tc_map_size c < 2 ^ 32 → old_map_size x <= sz →
  ∃ b x', get_block c x blk = Some (b, x') ∧ dsize b = block_size x
  ∧ (∀ o, 0 <= o < block_size x → Z.of_nat blk * block_size x + o < sz →
     byte_at b o = vbyte c x (Z.of_nat blk * block_size x + o))
  ∧ blocks x' = blocks x ∧ tx_params x' = tx_params x ∧ hash_heads x' = hash_heads x
  ∧ last_block_size x' = Z.min (block_size x) (sz - (Z.of_nat (length (blocks x)) - 1) * block_size x).
Proof.
  intros He Hf Hm Hsz. pose proof (ex_block_size _ _ _ _ He) as Hbs. pose proof (ex_blk _ _ _ _ He) as Hblk. pose proof (ex_base _ _ _ _ He) as Hbase.
  set (base := Z.of_nat blk * block_size x) in *.
  assert (∀ o, 0 <= o < block_size x → (base + o) / block_size x = Z.of_nat blk ∧ (base + o) mod block_size x = o) as Hdm.
  { intros o ?. by apply block_of. }
  unfold get_block. destruct (blocks x !! blk) as [[b|]|] eqn:E.
  3:{ apply lookup_ge_None in E. lia. }
  { exists b, x. split; [done|]. split; [by eapply ex_blocks|]. split.
    - intros o Hr _. unfold vbyte. destruct (Hdm o Hr) as [-> ->]. by rewrite Nat2Z.id, E.
    - do 3 (split; [done|]). rewrite (ex_last _ _ _ _ He), decide_False; [done|]. intros [? _]; congruence. }
  (* places of this block behind the old end do not exist yet *)
  assert (∀ o, 0 <= o < block_size x → base + o < sz → base + o < old_map_size x) as Hin.
  { intros o Hr Hlt. destruct (Z.lt_ge_cases (base + o) (old_map_size x)) as [|Hge]; [done|].
    destruct (ex_new _ _ _ _ He (base + o)) as [b Hb]; [lia|]. destruct (Hdm o Hr) as [Hd _]. rewrite Hd, Nat2Z.id in Hb. congruence. }
  assert (∀ o, 0 <= o < block_size x → vbyte c x (base + o) = byte_at (tc_file c) (base + o)) as Hv.
  { intros o Hr. unfold vbyte. destruct (Hdm o Hr) as [-> _]. by rewrite Nat2Z.id, E. }
  fold base. pose proof (ex_last _ _ _ _ He) as Hl. destruct (Z.ltb_spec base (old_map_size x)) as [Hlt|Hge].
  - set (len2 := if _ <? _ then _ else _).
    assert (0 < len2 <= block_size x ∧ base + len2 <= old_map_size x ∧ (len2 = block_size x ∨ base + len2 = old_map_size x)) as (H1 & H2 & H3).
    { unfold len2. destruct (Z.ltb_spec (old_map_size x) (block_size x + base)); lia. }
    rewrite io_read_in by lia. cbn [mbind option_bind]. eexists _, _. split; [done|].
    rewrite dsize_app, dsize_read, dsize_replicate by lia. split; [lia|]. split.
    + intros o Hr Hlt'. rewrite byte_at_app, dsize_read by lia. specialize (Hin o Hr Hlt'). rewrite decide_True by lia.
      rewrite byte_read by lia. by rewrite Hv.
    + assert (Z.min (block_size x) (sz - base) = len2) as Hmin.
      { destruct (Z.lt_ge_cases len2 (block_size x)); [|lia]. specialize (Hin len2). lia. }
      destruct (Nat.eqb_spec (S blk) (length (blocks x))) as [El|El]; cbn [blocks tx_params hash_heads last_block_size set_last_block_size].
      * do 3 (split; [done|]). rewrite <- El, <- Hmin. f_equal. unfold base. lia.
      * do 3 (split; [done|]). rewrite Hl, decide_False; [done|]. intros [_ ?]. lia.
  - (* a new block starts exactly at the end *)
    assert (sz = base) as ->. { destruct (Z.lt_ge_cases base sz); [|lia]. specialize (Hin 0). lia. }
    eexists _, _. split; [done|]. rewrite dsize_replicate by lia. split; [done|]. split; [intros; lia|]. do 3 (split; [done|]).
    destruct (ex_end _ _ _ _ He) as [El|[El _]].
    + rewrite Hl, decide_True by (split; [done|lia]). rewrite El. unfold base. lia.
    + rewrite Hl, decide_False; [done|]. intros [_ ?]. unfold base in El. nia.
Qed.

Lemma write_block_ok sz c x off buf :
  overlay sz c x → 0 <= off <= sz → 0 < dsize buf → dsize buf + off mod block_size x <= block_size x → off + dsize buf < 2 ^ 32 →
  ∃ x', write_block c x off buf = (true, x') ∧ overlay (Z.max sz (off + dsize buf)) c x'
  ∧ (∀ o, 0 <= o < Z.max sz (off + dsize buf) → vbyte c x' o = over off buf (vbyte c x) o)
  ∧ tx_params x' = tx_params x ∧ hash_heads x' = hash_heads x.
Proof.
  intros Ho Hoff Hlen Hfit Hov. pose proof (ov_block_size _ _ _ Ho) as Hbs. destruct (block_split (block_size x) off Hbs) as [Eoff Hmod].
  assert (0 <= off / block_size x) as Hd0 by (apply Z.div_pos; lia).
  unfold write_block. set (blk := Z.to_nat (off / block_size x)). set (o0 := off mod block_size x) in *.
  assert (Z.of_nat blk = off / block_size x) as Hblk by (unfold blk; lia).
  destruct (extend_ok sz c x blk Ho) as (He & Hv & Hp & Hh); [lia|]. set (xe := extend_blocks x blk) in *.
  assert (block_size xe = block_size x ∧ old_map_size xe = old_map_size x) as [Ebs Eold] by (unfold tx_params in Hp; by simplify_eq).
  destruct Ho as [_ Hfile Hold Hsz Hmap _ _ _].
  destruct (get_block_ok sz c xe blk He) as (b & x1 & -> & Hb & Hbytes & Hbl & Hp1 & Hh1 & Hl1); [by rewrite Eold|by rewrite Eold|by rewrite Eold; lia|].
  eexists. split; [done|]. rewrite Ebs in *.
  assert (block_size x1 = block_size x) as -> by (rewrite <- Ebs; unfold tx_params in Hp1; by simplify_eq). fold o0. set (nb := write_at o0 buf b).
  assert (dsize nb = block_size x) as Hnb by (unfold nb; rewrite dsize_write; lia).
  set (x' := put_block x1 blk o0 buf b).
  assert (blocks x' = <[blk := Some nb]> (blocks xe)) as Ebl.
  { unfold x', put_block. rewrite Hbl. cbn. by destruct (_ && _). }
  assert (tx_params x' = tx_params x ∧ hash_heads x' = hash_heads x) as [Hp' Hh'].
  { rewrite <- Hp, <- Hh, <- Hp1, <- Hh1. unfold x', put_block. cbv zeta. case_match; done. }
  assert (block_size x' = block_size x ∧ old_map_size x' = old_map_size x) as [Ebs' Eold'] by (unfold tx_params in Hp'; by simplify_eq).
  assert (last_block_size x' = if decide (length (blocks xe) = S blk) then Z.max (last_block_size x1) (dsize buf + o0) else last_block_size x1) as Hlast.
  { unfold x', put_block. cbn [blocks last_block_size set_blocks]. rewrite length_insert, Hbl. case_decide as Hd.
    - rewrite (proj2 (Nat.eqb_eq _ _)) by lia. cbn [andb]. destruct (Z.ltb_spec (last_block_size x1) (dsize buf + o0)); cbn; lia.
    - rewrite (proj2 (Nat.eqb_neq _ _)) by lia. done. }
  pose proof (ex_blk _ _ _ _ He) as Hlt. clearbody x' xe. split; [|split; [|done]].
  - split; [lia|by rewrite Eold'|by rewrite Eold'|rewrite Eold'; lia|done|..]; rewrite ?Ebs', ?Eold', ?Ebl.
    + intros i b'. rewrite list_lookup_insert_Some. intros [(_ & [= <-] & _)|[_ Hi]]; [done|]. rewrite <- Ebs. by eapply ex_blocks.
    + intros o Hr. destruct (decide (Z.to_nat (o / block_size x) = blk)) as [E|E].
      { rewrite E. exists nb. by apply list_lookup_insert_eq. }
      rewrite list_lookup_insert_ne by done. rewrite <- Ebs. apply (ex_new _ _ _ _ He). rewrite Eold.
      destruct (Z.lt_ge_cases o sz); [lia|]. exfalso. apply E. destruct (block_same (block_size x) off o) as [-> _]; lia.
    + right. exists (pred (length (blocks xe))). rewrite length_insert, Hlast, Hl1. destruct (ex_end _ _ _ _ He) as [El|[El [bl Hbl']]].
      * exists nb. rewrite El. cbn [pred]. split; [done|]. split; [by apply list_lookup_insert_eq|]. split; [lia|].
        rewrite decide_True by done. lia.
      * destruct (decide (length (blocks xe) = S blk)) as [El'|El'].
        { exists nb. rewrite El'. cbn [pred]. split; [done|]. split; [by apply list_lookup_insert_eq|]. split; lia. }
        exists bl. split; [lia|]. split; [rewrite list_lookup_insert_ne by lia; done|]. rewrite Ebs in El. split; [nia|].
        assert ((Z.of_nat blk + 1) * block_size x <= (Z.of_nat (length (blocks xe)) - 1) * block_size x) by (apply Z.mul_le_mono_nonneg_r; lia).
        rewrite Z.max_l by lia. do 3 f_equal. lia.
  - intros o Hr. unfold vbyte at 1. unfold over. rewrite Ebs', Ebl. destruct (block_split (block_size x) o Hbs) as [Eo Hom].
    assert (0 <= o / block_size x) by (apply Z.div_pos; lia).
    destruct (decide (Z.to_nat (o / block_size x) = blk)) as [E|E].
    + rewrite E, list_lookup_insert_eq by done. unfold nb. rewrite byte_write by lia.
      assert (o / block_size x = off / block_size x) as E' by lia.
      destruct (decide (off <= o < off + dsize buf)) as [Hin|Hout]; [rewrite decide_True by lia; f_equal; lia|].
      rewrite decide_False by lia. rewrite Hbytes by lia. rewrite Hv. f_equal. lia.
    + rewrite list_lookup_insert_ne by done. rewrite decide_False.
      * rewrite <- Hv. unfold vbyte. by rewrite Ebs.
      * intros Hin. apply E. destruct (block_same (block_size x) off o) as [-> _]; lia.
Qed.

(** The table with the head of the free list and of the chains. *)
Definition table_end c : Z := FREELIST_TOP + (tc_hash_size c + 1) * 4.
Definition off_table c (off len : Z) : Prop := off + len <= FREELIST_TOP ∨ table_end c <= off.

Lemma mirror_overlay sz c x off buf : overlay sz c x → overlay sz c (mirror_head c x off buf).
Proof. intros []. unfold mirror_head. case_match; by split. Qed.
Lemma mirror_vbyte c x off buf o : vbyte c (mirror_head c x off buf) o = vbyte c x o.
Proof. unfold mirror_head. by case_match. Qed.
Lemma mirror_params c x off buf : tx_params (mirror_head c x off buf) = tx_params x.
Proof. unfold mirror_head. by case_match. Qed.
Lemma mirror_none c x off buf : dsize buf ≠ 4 ∨ off < FREELIST_TOP ∨ table_end c <= off → mirror_head c x off buf = x.
Proof. intros Hn. unfold mirror_head. destruct (_ && _) eqn:E; [|done]. zbool. unfold table_end in Hn. lia. Qed.

Lemma over_app off a b old o :
  over off (a ++ b) old o = over (off + dsize a) b (over off a old) o.
Proof.
  pose proof (dsize_nonneg a). pose proof (dsize_nonneg b). unfold over. rewrite dsize_app.
  destruct (decide (off + dsize a <= o < off + dsize a + dsize b)).
  { rewrite decide_True by lia. rewrite byte_at_app by lia. rewrite decide_False by lia. f_equal. lia. }
  destruct (decide (off <= o < off + dsize a)).
  - rewrite decide_True by lia. rewrite byte_at_app by lia. rewrite decide_True by lia. done.
  - rewrite decide_False by lia. done.
Qed.

(** What a write does to the transaction. *)
Record written sz c x (off : Z) (buf : bytes) x' : Prop := {
  wr_overlay : overlay (Z.max sz (off + dsize buf)) c x';
  wr_vbyte o : 0 <= o < Z.max sz (off + dsize buf) → vbyte c x' o = over off buf (vbyte c x) o;
  wr_params : tx_params x' = tx_params x;
}.

Lemma write_blocks_ok fuel sz c x off buf :
  overlay sz c x → 0 <= off <= sz → off + dsize buf < 2 ^ 32 → (length buf < fuel)%nat →
  ∃ x', write_blocks fuel c x off buf = (true, x') ∧ written sz c x off buf x'
  ∧ (off_table c off (dsize buf) ∨ dsize buf <= 4 → hash_heads x' = hash_heads x).
Proof.
  revert sz x off buf. induction fuel as [|fuel IH]; intros sz x off buf Ho Hoff Hov Hf; [lia|].
  cbn [write_blocks]. pose proof (ov_block_size _ _ _ Ho) as Hbs. destruct (block_split (block_size x) off Hbs) as [_ Hm].
  destruct (Z.ltb_spec (block_size x) (dsize buf + off mod block_size x)) as [Hlt|Hge].
  - set (len2 := block_size x - off mod block_size x). set (a := take (Z.to_nat len2) buf). set (b := drop (Z.to_nat len2) buf).
    assert (dsize a = len2 ∧ dsize b = dsize buf - len2) as [Ea Eb] by (split; [apply dsize_take|apply dsize_drop]; lia).
    assert (buf = a ++ b) as Eab by (symmetry; apply take_drop).
    pose proof (mirror_overlay _ _ _ off a Ho) as Hmo.
    assert (block_size (mirror_head c x off a) = block_size x) as Emb by (pose proof (mirror_params c x off a); unfold tx_params in *; by simplify_eq).
    destruct (write_block_ok sz c _ off a Hmo) as (x1 & -> & Ho1 & Hv1 & Hp1 & Hh1); [lia|lia|rewrite Emb; lia|lia|].
    destruct (IH (Z.max sz (off + dsize a)) x1 (off + len2) b) as (x2 & -> & [Ho2 Hv2 Hp2] & Hh2); [done|lia|lia|unfold dsize in *; lia|].
    replace (Z.max (Z.max sz (off + dsize a)) (off + len2 + dsize b)) with (Z.max sz (off + dsize buf)) in * by lia.
    exists x2. split; [done|]. split; [split; [done| |by rewrite Hp2, Hp1, mirror_params]|].
    + intros o Hr. rewrite Hv2 by done. rewrite Eab, over_app, Ea. unfold over at 1 2. case_decide; [done|].
      rewrite Hv1 by (rewrite Ea; lia). unfold over. case_decide; [done|]. apply mirror_vbyte.
    + intros Hc. rewrite Hh2, Hh1, mirror_none; [done| |]; unfold off_table in *; lia.
  - destruct (Z.eqb_spec (dsize buf) 0) as [E|E].
    + exists x. split; [done|]. split; [|done]. split; [by rewrite E, Z.max_l by lia| |done]. intros o Hr. unfold over. by rewrite decide_False by lia.
    + destruct (write_block_ok sz c x off buf Ho) as (x1 & -> & ? & ? & ? & ?); [lia|pose proof (dsize_nonneg buf); lia|lia|lia|].
      exists x1. split; [done|]. split; [by split|done].
Qed.

Lemma transaction_write_ok sz c x off buf :
  overlay sz c x → prepared x = false → 0 <= off <= sz → off + dsize buf < 2 ^ 32 →
  ∃ x', transaction_write c x off buf = (true, x') ∧ written sz c x off buf x'
  ∧ (off_table c off (dsize buf) ∨ dsize buf <= 4 → hash_heads x' = hash_heads (mirror_head c x off buf)).
Proof.
  intros Ho Hp Hoff Hov. unfold transaction_write. rewrite Hp.
  destruct (write_blocks_ok (S (length buf)) sz c (mirror_head c x off buf) off buf) as (x' & -> & [Ho' Hv Hpp] & Hh); [by apply mirror_overlay|lia..|].
  exists x'. split; [done|]. split; [|done]. split; [done| |by rewrite Hpp, mirror_params].
  intros o Hr. rewrite Hv by done. unfold over. case_decide; [done|]. apply mirror_vbyte.
Qed.

(** ** A transaction and the flat file that it stands for *)

Lemma read_at_ext off len f g :
  0 <= off → 0 <= len → off + len <= dsize f → off + len <= dsize g →
  (∀ o, off <= o < off + len → byte_at f o = byte_at g o) → read_at off len f = read_at off len g.
Proof.
  intros H1 H2 H3 H4 Hb. apply byte_ext; rewrite !dsize_read by lia; [done|]. intros o Hr.
  rewrite !byte_read by lia. apply Hb. lia.
Qed.
Lemma read_write_other off len o buf f :
  0 <= off → 0 <= len → off + len <= dsize f → 0 <= o → o + dsize buf <= dsize f →
  off + len <= o ∨ o + dsize buf <= off → read_at off len (write_at o buf f) = read_at off len f.
Proof.
  intros. apply read_at_ext; rewrite ?dsize_write by lia; try lia. intros p Hp. rewrite byte_write by lia. by rewrite decide_False by lia.
Qed.
Lemma read_write_same off buf f : 0 <= off → off + dsize buf <= dsize f → read_at off (dsize buf) (write_at off buf f) = buf.
Proof.
  intros H1 H2. pose proof (dsize_nonneg buf). apply byte_ext; rewrite dsize_read; rewrite ?dsize_write; try lia.
  intros o Hr. rewrite byte_read, byte_write by lia. rewrite decide_True by lia. f_equal. lia.
Qed.

Definition heads_of c f (heads : list Z) : Prop :=
  length heads = S (Z.to_nat (tc_hash_size c))
  ∧ ∀ i, 0 <= i <= tc_hash_size c → heads !! Z.to_nat i = Some (le_val (read_at (FREELIST_TOP + 4 * i) 4 f)).

(** Inside the transaction [x] the file reads like [f]. *)
Record sees c x f : Prop := {
  sees_overlay : overlay (tc_map_size c) c x;
  sees_size : dsize f = tc_map_size c;
  sees_bytes o : 0 <= o < dsize f → vbyte c x o = byte_at f o;
  sees_heads : heads_of c f (hash_heads x);
  sees_hash_size : 0 <= tc_hash_size c;
  sees_table : table_end c <= dsize f;
  sees_open : prepared x = false;
  sees_rw : tc_read_only c = false;
}.

(** Writes to the table are those of single heads. *)
Definition table_write c (off : Z) (buf : bytes) : Prop :=
  off_table c off (dsize buf)
  ∨ dsize buf = 4 ∧ ∃ i, 0 <= i <= tc_hash_size c ∧ off = FREELIST_TOP + 4 * i.

Lemma sees_read c x f off len :
  sees c x f → 0 <= off → 0 <= len → off + len <= dsize f →
  transaction_read c x off len = (Some (read_at off len f), x).
Proof.
  intros [Ho Hs Hb _ _ _ _ _] H1 H2 H3. destruct (transaction_read_ok _ _ _ Ho off len) as (d & -> & Hd & Hbd); [lia..|].
  do 2 f_equal. apply byte_ext; [by rewrite dsize_read by lia|]. intros o Hr. rewrite byte_read, Hbd, Hb by lia. done.
Qed.

Lemma heads_write c f heads off buf :
  heads_of c f heads → 0 <= off → off + dsize buf <= dsize f → table_end c <= dsize f → table_write c off buf →
  heads_of c (write_at off buf f)
    (if decide (off_table c off (dsize buf)) then heads else <[Z.to_nat ((off - FREELIST_TOP) / 4) := le_val buf]> heads).
Proof.
  intros [Hlen Hh] H0 Hs Ht Hw. unfold table_write, off_table, table_end, FREELIST_TOP in *. case_decide as Hd.
  - split; [done|]. intros i Hi. rewrite Hh by done. do 2 f_equal. symmetry. apply read_write_other; lia.
  - destruct Hw as [?|[H4 (j & Hj & ->)]]; [done|].
    replace ((168 + 4 * j - 168) / 4) with j by (replace (168 + 4 * j - 168) with (j * 4) by lia; by rewrite Z.div_mul).
    split; [by rewrite length_insert|]. intros i Hi. destruct (decide (i = j)) as [->|Hne].
    + rewrite list_lookup_insert_eq by lia. do 2 f_equal. rewrite <- H4. symmetry. apply read_write_same; lia.
    + rewrite list_lookup_insert_ne by lia. rewrite Hh by done. do 2 f_equal. symmetry. apply read_write_other; lia.
Qed.

Lemma sees_write c x f off buf :
  sees c x f → 0 <= off → off + dsize buf <= dsize f → table_write c off buf →
  ∃ x', transaction_write c x off buf = (true, x') ∧ sees c x' (write_at off buf f) ∧ tx_params x' = tx_params x.
Proof.
  intros [Ho Hs Hb Hh Hhs Ht Hp Hro] H0 H1 Hw. pose proof (dsize_nonneg buf). pose proof (ov_size _ _ _ Ho).
  destruct (transaction_write_ok _ _ _ off buf Ho Hp) as (x' & -> & [Ho' Hv Hpp] & Hh'); [lia..|].
  rewrite Z.max_l in Ho', Hv by lia. exists x'. split; [done|]. split; [|done].
  assert (prepared x' = false) as Hp' by (injection Hpp; congruence).
  split; rewrite ?dsize_write by lia; try done.
  - intros o Hr. rewrite Hv, byte_write by lia. unfold over. case_decide; [done|]. apply Hb. lia.
  - pose proof (heads_write c f _ off buf Hh H0 H1 Ht Hw) as Hhw. rewrite Hh' by (destruct Hw as [?|[? _]]; [by left|right; lia]).
    case_decide as Hd.
    + rewrite mirror_none; [done|]. unfold off_table, table_end in *. lia.
    + destruct Hw as [?|[H4 (j & Hj & Ej)]]; [done|]. unfold mirror_head. rewrite (proj2 (Z.eqb_eq _ _)) by done.
      rewrite (proj2 (Z.leb_le _ _)) by lia. rewrite (proj2 (Z.ltb_lt _ _)) by lia. exact Hhw.
Qed.

(** The flat file grows by zeros. *)
Lemma sees_expand c x f n :
  sees c x f → 0 <= n → dsize f + n < 2 ^ 32 →
  ∃ x', transaction_expand_file c x (tc_map_size c) n = (true, x')
  ∧ sees (set_tc_map_size c (tc_map_size c + n)) x' (f ++ replicate (Z.to_nat n) 0).
Proof.
  intros [Ho Hs Hb Hh Hhs Ht Hp Hro] H0 H1. unfold transaction_expand_file.
  set (zs := replicate (Z.to_nat n) 0). assert (dsize zs = n) as Hz by (by apply dsize_replicate).
  destruct (transaction_write_ok _ _ _ (tc_map_size c) zs Ho Hp) as (x' & -> & [Ho' Hv Hpp] & Hh').
  { pose proof (ov_size _ _ _ Ho). pose proof (dsize_nonneg (tc_file c)). pose proof (ov_file _ _ _ Ho). lia. }
  { lia. }
  rewrite Z.max_r in Ho', Hv by lia. rewrite Hz in Ho', Hv.
  exists (set_expanded x'). split; [done|].
  assert (prepared x' = false) as Hp' by (injection Hpp; congruence).
  split; try done; rewrite ?dsize_app, ?Hz; try (cbn; lia).
  - destruct Ho' as [A1 A2 A3 A4 A5 A6 A7 A8]. split; try done; cbn [tc_map_size set_tc_map_size old_map_size set_expanded]; lia.
  - intros o Hr. change (vbyte (set_tc_map_size c (tc_map_size c + n)) (set_expanded x') o) with (vbyte c x' o).
    rewrite Hv by lia. rewrite byte_at_app by lia. unfold over. rewrite Hz.
    destruct (decide (o < dsize f)); [rewrite decide_False by lia; by apply Hb; lia|]. rewrite decide_True by lia. f_equal. lia.
  - cbn [hash_heads set_expanded]. rewrite Hh', mirror_none by (unfold off_table, table_end in *; lia).
    destruct Hh as [Hl Hh]. split; [done|]. intros i Hi. cbn in Hi. rewrite Hh by done. do 2 f_equal.
    unfold table_end in Ht. apply read_at_ext; rewrite ?dsize_app; try (unfold FREELIST_TOP in *; lia).
    intros o Hr. rewrite byte_at_app by (unfold FREELIST_TOP in *; lia). rewrite decide_True by (unfold FREELIST_TOP in *; lia). done.
  - unfold table_end in *. cbn. lia.
Qed.

Lemma sees_txn c x f o : sees c x f → sees (set_tc_transaction c o) x f.
Proof. intros [[] ? ? ? ? ? ? ?]. by split; [split|..]. Qed.

(** A file that is open and mapped. *)
Record open_file c : Prop := {
  open_none : tc_transaction c = None;
  open_size : tc_map_size c = dsize (tc_file c);
  open_table : table_end c <= dsize (tc_file c) < 2 ^ 32;
  open_hash : 0 <= tc_hash_size c;
  open_page : 0 < tc_page_size c;
  open_rw : tc_read_only c = false;
}.

Lemma heads_from_ok c f :
  0 <= tc_hash_size c → table_end c <= dsize f →
  heads_of c f (heads_from (S (Z.to_nat (tc_hash_size c))) (read_at FREELIST_TOP ((tc_hash_size c + 1) * 4) f)).
Proof.
  intros Hh Ht. unfold table_end in Ht. unfold heads_from. split; [by rewrite length_fmap, length_seq|].
  intros i Hi. rewrite list_lookup_fmap, lookup_seq_lt by lia. cbn [fmap option_fmap option_map]. do 2 f_equal.
  replace (slice (4 * (0 + Z.to_nat i)) 4 (read_at FREELIST_TOP ((tc_hash_size c + 1) * 4) f))
    with (read_at (4 * i) 4 (read_at FREELIST_TOP ((tc_hash_size c + 1) * 4) f)) by (unfold read_at at 1; do 2 f_equal; lia).
  unfold FREELIST_TOP in *. apply byte_ext; rewrite !dsize_read by (rewrite ?dsize_read; lia); [done|].
  intros o Hr. rewrite !byte_read by lia. f_equal. lia.
Qed.

(** A transaction begins with the content of the file. *)
Lemma start_sees c c' :
  open_file c → tdb_transaction_start c = (true, c') →
  ∃ x env, tc_transaction c' = Some x ∧ sees c' x (tc_file c) ∧ magic_offset x = 0 ∧ nesting x = 0
  ∧ transaction_error x = false ∧ old_map_size x = dsize (tc_file c) ∧ blocks x = []
  ∧ c' = with_txn (set_tc_env c env) x ∧ (tc_env c = [] → env = []).
Proof.
  intros [Hn Hs Ht Hh Hp Hro]. unfold tdb_transaction_start. rewrite Hro, Hn.
  assert (∀ c b c1, tc_ask c = (b, c1) → ∃ env, c1 = set_tc_env c env ∧ (tc_env c = [] → env = [])) as Hask.
  { intros d b d1. unfold tc_ask. destruct d as [????????? [|b' env]]; intros [= <- <-]; [by exists []|by exists env]. }
  destruct (tc_ask c) as [b1 c1] eqn:E1. apply Hask in E1 as (e1 & -> & L1). destruct b1; cbn [negb]; [|done].
  destruct (tc_ask _) as [b2 c2] eqn:E2. apply Hask in E2 as (e2 & -> & L2). destruct b2; cbn [negb]; [|done].
  destruct (tc_ask _) as [b3 c3] eqn:E3. apply Hask in E3 as (e3 & -> & L3). destruct b3; cbn [negb]; [|done]. clear Hask.
  change (set_tc_env (set_tc_env (set_tc_env c e1) e2) e3) with (set_tc_env c e3). unfold table_end in Ht.
  rewrite io_read_in; cbn [tc_hash_size set_tc_env tc_file tc_map_size]; [|unfold FREELIST_TOP in *; lia..].
  intros [= <-]. unfold io_probe. cbn [tc_file set_tc_env]. eexists _, e3. split; [reflexivity|]. split; [|done || idtac].
  - apply sees_txn. split; try done; cbn [tc_map_size set_tc_map_size hash_heads]; try lia.
    + split; cbn; try done; try lia. by left.
    + apply (heads_from_ok c); [done|unfold table_end; lia].
    + unfold table_end. cbn. lia.
  - repeat (split; [done|]). split; [unfold with_txn, io_probe, set_tc_map_size, set_tc_transaction, set_tc_env; cbn; by rewrite Hs|auto].
Qed.

(** ** Sequences of accesses *)

(** What the rest of the library does to a file. *)
Inductive txn_op :=
| TRead (off len : Z)
| TWrite (off : Z) (buf : bytes)
| TGrow (n : Z)
| TNextChain (h : Z).

Inductive txn_result :=
| TData (d : option bytes)
| TOk (b : bool)
| TChain (h : Z).

Definition run_op c (op : txn_op) : txn_result * txn_context :=
  match tc_transaction c with
  | None => (TOk false, c)
  | Some x =>
      match op with
      | TRead off len => let '(d, x) := transaction_read c x off len in (TData d, with_txn c x)
      | TWrite off buf => let '(b, x) := transaction_write c x off buf in (TOk b, with_txn c x)
      | TGrow n =>
          let '(b, x) := transaction_expand_file c x (tc_map_size c) n in
          (TOk b, with_txn (if b then set_tc_map_size c (tc_map_size c + n) else c) x)
      | TNextChain h => (TChain (transaction_next_hash_chain (Z.to_nat (tc_hash_size c)) c x h), c)
      end
  end.

(** The same on the flat file that the transaction stands for, which is also what a
    commit writes: a growth appends zeros, as [transaction_expand_file] does. *)
Definition flat c f : tdb_context := mk_tdb f (tc_hash_size c) false 0 (tc_page_size c) false [] false.
Definition flat_op c f (op : txn_op) : txn_result * bytes :=
  match op with
  | TRead off len => (TData (tdb_read (flat c f) off len), f)
  | TWrite off buf => let '(b, t) := tdb_write (flat c f) off buf in (TOk b, tdb_map t)
  | TGrow n => (TOk true, f ++ replicate (Z.to_nat n) 0)
  | TNextChain h => (TChain (next_hash_chain (Z.to_nat (tc_hash_size c)) (flat c f) h), f)
  end.

(** The same on the file itself, outside of a transaction: [tdb_expand_file] fills
    what it appends with TDB_PAD_BYTE. *)
Definition direct_op c f (op : txn_op) : txn_result * bytes :=
  match op with
  | TGrow n => (TOk true, f ++ replicate (Z.to_nat n) TDB_PAD_BYTE)
  | op => flat_op c f op
  end.

(** Accesses stay inside the file, and the table is written head by head. *)
Definition valid_op c f (op : txn_op) : Prop :=
  match op with
  | TRead off len => 0 <= off ∧ 0 <= len ∧ off + len <= dsize f
  | TWrite off buf => 0 <= off ∧ off + dsize buf <= dsize f ∧ table_write c off buf
  | TGrow n => 0 <= n ∧ dsize f + n < 2 ^ 32
  | TNextChain h => 0 <= h
  end.

Fixpoint run_ops c (ops : list txn_op) : list txn_result * txn_context :=
  match ops with
  | [] => ([], c)
  | op :: ops => let '(r, c) := run_op c op in let '(rs, c) := run_ops c ops in (r :: rs, c)
  end.
Fixpoint flat_ops c f (ops : list txn_op) : list txn_result * bytes :=
  match ops with
  | [] => ([], f)
  | op :: ops => let '(r, f) := flat_op c f op in let '(rs, f) := flat_ops c f ops in (r :: rs, f)
  end.
Fixpoint valid_ops c f (ops : list txn_op) : Prop :=
  match ops with
  | [] => True
  | op :: ops => valid_op c f op ∧ valid_ops c (flat_op c f op).2 ops
  end.

Fixpoint direct_ops c f (ops : list txn_op) : list txn_result * bytes :=
  match ops with
  | [] => ([], f)
  | op :: ops => let '(r, f) := direct_op c f op in let '(rs, f) := direct_ops c f ops in (r :: rs, f)
  end.

(** The bytes that were appended and not written since: [size] is the size of the
    file. *)
Definition fresh_after (size : Z) (fresh : Z → bool) (op : txn_op) : Z * (Z → bool) :=
  match op with
  | TGrow n => (size + n, λ i, fresh i || (size <=? i))
  | TWrite off buf => (size, λ i, fresh i && negb ((off <=? i) && (i <? off + dsize buf)))
  | _ => (size, fresh)
  end.
(** No read touches such a byte. *)
Fixpoint reads_written (size : Z) (fresh : Z → bool) (ops : list txn_op) : Prop :=
  match ops with
  | [] => True
  | op :: ops =>
      match op with TRead off len => ∀ i, off <= i < off + len → fresh i = false | _ => True end
      ∧ let '(size, fresh) := fresh_after size fresh op in reads_written size fresh ops
  end.

Lemma next_chain_ok c x f fuel h :
  sees c x f → 0 <= h → transaction_next_hash_chain fuel c x h = next_hash_chain fuel (flat c f) h.
Proof.
  intros Hs. revert h. induction fuel as [|fuel IH]; intros h Hh; [done|].
  cbn [transaction_next_hash_chain next_hash_chain]. cbn [tdb_hash_size flat]. destruct (Z.ltb_spec h (tc_hash_size c)); [|done].
  destruct Hs as [Ho Hsz _ [_ Hheads] _ Ht _ _]. rewrite Hheads by lia. cbn [default id from_option].
  unfold tdb_ofs_read, tdb_read, TDB_HASH_TOP, BUCKET, tdb_oob, tdb_map_size. cbn [tdb_map tdb_hash_size flat].
  rewrite Z.mod_small by lia. pose proof (ov_size _ _ _ Ho). unfold table_end in Ht.
  replace (FREELIST_TOP + (h + 1) * 4) with (FREELIST_TOP + 4 * (h + 1)) by lia.
  rewrite !u32_id by (unfold is_u32, FREELIST_TOP in *; lia).
  rewrite (proj2 (Z.ltb_ge _ _)), (proj2 (Z.leb_le _ _)) by (unfold FREELIST_TOP in *; lia). cbn [mbind option_bind].
  destruct (Z.eqb_spec (le_val (read_at (FREELIST_TOP + 4 * (h + 1)) 4 f)) 0) as [E|E].
  - rewrite bool_decide_true by (by rewrite E). apply IH. lia.
  - rewrite bool_decide_false by congruence. done.
Qed.

Lemma flat_read c f off len :
  0 <= off → 0 <= len → off + len <= dsize f → dsize f < 2 ^ 32 → tdb_read (flat c f) off len = Some (read_at off len f).
Proof.
  intros. unfold tdb_read, tdb_oob, tdb_map_size. cbn [tdb_map flat]. rewrite !u32_id by (unfold is_u32; lia).
  by rewrite (proj2 (Z.ltb_ge _ _)), (proj2 (Z.leb_le _ _)) by lia.
Qed.
Lemma flat_write c f off buf :
  0 <= off → off + dsize buf <= dsize f → dsize f < 2 ^ 32 → tdb_write (flat c f) off buf = (true, flat c (write_at off buf f)).
Proof.
  intros. pose proof (dsize_nonneg buf). unfold tdb_write. destruct (Z.eqb_spec (dsize buf) 0) as [E|E].
  { destruct buf; [|unfold dsize in E; cbn in E; lia]. unfold write_at. cbn [app length]. by rewrite Nat.add_0_r, take_drop. }
  unfold tdb_oob, tdb_map_size. cbn [tdb_map tdb_read_only flat]. rewrite !u32_id by (unfold is_u32; lia).
  by rewrite (proj2 (Z.ltb_ge _ _)), (proj2 (Z.leb_le _ _)) by lia.
Qed.

(** What stays the same through the accesses of a transaction. *)
Definition tc_params c := (tc_file c, tc_log c, tc_hash_size c, tc_page_size c, tc_read_only c, tc_nosync c, tc_allow_nesting c, tc_env c).

Definition in_txn c f (old magic : Z) : Prop :=
  ∃ x, tc_transaction c = Some x ∧ sees c x f ∧ magic_offset x = magic ∧ nesting x = 0 ∧ old_map_size x = old ∧ transaction_error x = false.

Lemma run_op_ok c f old magic op :
  in_txn c f old magic → valid_op c f op →
  (run_op c op).1 = (flat_op c f op).1 ∧ in_txn (run_op c op).2 (flat_op c f op).2 old magic
  ∧ tc_params (run_op c op).2 = tc_params c.
Proof.
  intros (x & Hx & Hs & Hm & Hn & Hold & Her) Hv. unfold run_op. rewrite Hx. pose proof (sees_size _ _ _ Hs) as Hsz.
  pose proof (ov_size _ _ _ (sees_overlay _ _ _ Hs)) as Hov. destruct op as [off len|off buf|n|h]; cbn [valid_op flat_op] in *.
  - rewrite (sees_read _ _ _ _ _ Hs) by lia. rewrite flat_read by lia. split; [done|]. split; [|done]. exists x. split; [done|]. by split; [apply sees_txn|].
  - destruct Hv as (H1 & H2 & H3). destruct (sees_write _ _ _ _ _ Hs H1 H2 H3) as (x' & -> & Hs' & Hp). rewrite flat_write by lia.
    split; [done|]. split; [|done]. exists x'. split; [done|]. split; [by apply sees_txn|]. injection Hp. intros. split_and!; congruence.
  - destruct Hv as [H1 H2]. destruct (sees_expand _ _ _ n Hs H1 H2) as (x' & Hx' & Hs'). rewrite Hx'.
    split; [done|]. split; [|done]. exists x'. split; [done|]. split; [by apply sees_txn|].
    unfold transaction_expand_file in Hx'. destruct (transaction_write _ _ _ _) as [b x1] eqn:Ew.
    destruct (transaction_write_ok _ _ _ (tc_map_size c) (replicate (Z.to_nat n) 0) (sees_overlay _ _ _ Hs) (sees_open _ _ _ Hs)) as (x2 & Ew2 & [_ _ Hp] & _).
    { pose proof (dsize_nonneg f). lia. } { rewrite dsize_replicate; lia. }
    rewrite Ew in Ew2. injection Ew2 as -> ->. injection Hx' as <-. injection Hp. intros. cbn. split_and!; congruence.
  - rewrite (next_chain_ok _ _ _ _ _ Hs Hv). split; [done|]. split; [|done]. by exists x.
Qed.

(** The flat file depends on the sizes only. *)
Lemma flat_ops_same c c1 ops f :
  tc_hash_size c1 = tc_hash_size c → tc_page_size c1 = tc_page_size c →
  flat_ops c1 f ops = flat_ops c f ops ∧ (valid_ops c f ops → valid_ops c1 f ops).
Proof.
  intros E1 E2. assert (∀ f op, flat_op c1 f op = flat_op c f op) as Hf1.
  { intros g [| | |]; cbn [flat_op]; unfold flat; by rewrite ?E1, ?E2. }
  assert (∀ f op, valid_op c f op → valid_op c1 f op) as Hv1.
  { intros g [| | |]; cbn [valid_op]; try done. unfold table_write, off_table, table_end. by rewrite E1. }
  revert f. induction ops as [|o l IHl]; intros g; cbn [flat_ops valid_ops]; [done|]. rewrite Hf1. destruct (flat_op c g o) as [r1 g1].
  cbn [snd]. destruct (IHl g1) as [-> Hw]. split; [done|]. intros [? ?]. split; [by apply Hv1|by apply Hw].
Qed.

Lemma run_ops_ok ops c f old magic :
  in_txn c f old magic → valid_ops c f ops →
  (run_ops c ops).1 = (flat_ops c f ops).1 ∧ in_txn (run_ops c ops).2 (flat_ops c f ops).2 old magic
  ∧ tc_params (run_ops c ops).2 = tc_params c.
Proof.
  revert c f. induction ops as [|op ops IH]; intros c f Hi Hv; cbn [run_ops flat_ops]; [done|]. destruct Hv as [Hv Hvs].
  destruct (run_op_ok _ _ _ _ _ Hi Hv) as (Hr & Hi' & Hp). destruct (run_op c op) as [r c1]. cbn [fst snd] in *.
  destruct (flat_op c f op) as [r' f1]. cbn [fst snd] in *.
  destruct (flat_ops_same c c1 ops f1) as [He Hval]; [by injection Hp..|].
  destruct (IH c1 f1 Hi' (Hval Hvs)) as (Hrs & Hi2 & Hp2). rewrite He in Hrs, Hi2.
  destruct (run_ops c1 ops) as [rs c2]. destruct (flat_ops c f1 ops) as [rs' f2]. cbn [fst snd] in *.
  split; [by rewrite Hr, Hrs|]. split; [done|]. by rewrite Hp2.
Qed.

Lemma cancel_ok c f old :
  in_txn c f old 0 → tdb_transaction_cancel c = (true, set_tc_transaction (set_tc_map_size c old) None).
Proof. intros (x & Hx & _ & Hm & Hn & Ho & _). unfold tdb_transaction_cancel. by rewrite Hx, Hn, Hm, Ho. Qed.

(** *** The file itself *)

Record agree c (size : Z) (fresh : Z → bool) f g : Prop := {
  ag_size : dsize f = size ∧ dsize g = size;
  ag_bytes i : 0 <= i → fresh i = false → byte_at f i = byte_at g i;
  ag_table : table_end c <= size;
  ag_old i : i < table_end c → fresh i = false;
}.

Lemma agree_chain c size fresh f g fuel h :
  agree c size fresh f g → 0 <= h → size < 2 ^ 32 →
  next_hash_chain fuel (flat c f) h = next_hash_chain fuel (flat c g) h.
Proof.
  intros [[S1 S2] Hb Ht Ho] Hh Hlt. revert h Hh. induction fuel as [|fuel IH]; intros h Hh; [done|].
  cbn [next_hash_chain]. change (tdb_hash_size (flat c f)) with (tc_hash_size c). change (tdb_hash_size (flat c g)) with (tc_hash_size c).
  destruct (Z.ltb_spec h (tc_hash_size c)); [|done]. rewrite IH by lia.
  assert (tdb_ofs_read (flat c f) (TDB_HASH_TOP (flat c f) h) = tdb_ofs_read (flat c g) (TDB_HASH_TOP (flat c g) h)) as ->; [|done].
  unfold tdb_ofs_read, TDB_HASH_TOP, BUCKET. cbn [tdb_hash_size flat]. rewrite Z.mod_small by lia. unfold table_end, FREELIST_TOP in *.
  rewrite !flat_read by lia. do 2 f_equal. apply read_at_ext; [lia..|]. intros o Hr. apply Hb; [lia|]. apply Ho. lia.
Qed.

Lemma agree_step c size fresh f g op :
  agree c size fresh f g → size < 2 ^ 32 → valid_op c f op →
  match op with TRead off len => ∀ i, off <= i < off + len → fresh i = false | _ => True end →
  (flat_op c f op).1 = (direct_op c g op).1
  ∧ let '(size', fresh') := fresh_after size fresh op in
    agree c size' fresh' (flat_op c f op).2 (direct_op c g op).2 ∧ size' < 2 ^ 32.
Proof.
  intros Ha Hlt Hv Hr. pose proof Ha as [[S1 S2] Hb Ht Ho].
  destruct op as [off len|off buf|n|h]; cbn [flat_op direct_op fresh_after valid_op] in *.
  - rewrite !flat_read by lia. cbn [fst snd]. split; [|done]. do 2 f_equal. apply read_at_ext; [lia..|].
    intros o Hin. apply Hb; [lia|by apply Hr].
  - rewrite !flat_write by lia. cbn [fst snd tdb_map flat]. split; [done|]. split; [|done]. pose proof (dsize_nonneg buf).
    split; [by rewrite !dsize_write by lia| |done|intros i Hi; by rewrite (Ho i Hi)].
    intros i Hi Hf. rewrite !byte_write by lia. case_decide as Hd; [done|]. apply Hb; [done|].
    destruct (fresh i); [|done]. cbn in Hf. apply negb_false_iff, andb_prop in Hf as [?%Z.leb_le ?%Z.ltb_lt]. lia.
  - cbn [fst snd]. split; [done|]. split; [|lia]. destruct Hv as [Hn _].
    split; [rewrite !dsize_app, !dsize_replicate by done; lia| |lia|].
    + intros i Hi Hf. apply orb_false_iff in Hf as [Hf ?%Z.leb_gt]. rewrite !byte_at_app, !decide_True by lia. by apply Hb.
    + intros i Hi. rewrite (Ho i Hi). cbn [orb]. apply Z.leb_gt. lia.
  - cbn [fst snd]. split; [|done]. f_equal. by eapply agree_chain.
Qed.

(** As long as no byte is read that was appended and not written, it makes no
    difference with what the file is filled. *)
Lemma direct_ops_ok ops c size fresh f g :
  agree c size fresh f g → size < 2 ^ 32 → valid_ops c f ops → reads_written size fresh ops →
  (flat_ops c f ops).1 = (direct_ops c g ops).1.
Proof.
  revert size fresh f g. induction ops as [|op ops IH]; intros size fresh f g Ha Hlt Hv Hr; [done|].
  cbn [flat_ops direct_ops valid_ops reads_written] in *. destruct Hv as [Hv Hvs], Hr as [Hr Hrs].
  pose proof (agree_step _ _ _ _ _ _ Ha Hlt Hv Hr) as [E Hn].
  destruct (fresh_after size fresh op) as [size' fresh']. destruct Hn as [Ha' Hlt'].
  destruct (flat_op c f op) as [r f1], (direct_op c g op) as [r' g1]. cbn [fst snd] in *. subst r'.
  specialize (IH _ _ _ _ Ha' Hlt' Hvs Hrs). destruct (flat_ops c f1 ops), (direct_ops c g1 ops). cbn [fst] in *. by rewrite IH.
Qed.

(** ** Theorem *)

(** C8: a transaction is transparent and leaves no trace until it is committed: any
    sequence of reads, writes, growths and searches for a used hash chain inside
    a transaction gives the results that it would give on a flat file which grows
    by zeros, and the same results as on the file itself, whose growth is filled
    with TDB_PAD_BYTE, when no read touches a byte that was appended and not
    written since.  The file is not touched meanwhile, and when the transaction is
    cancelled everything is as before.  (The accesses stay inside of the file, a
    write into the hash table writes one head, and the file stays below 4 GiB.) *)
Theorem transaction_transparent c c1 ops
    (Hc : open_file c) (Hstart : tdb_transaction_start c = (true, c1)) (Hv : valid_ops c (tc_file c) ops) :
  let '(results, c2) := run_ops c1 ops in
  let '(results', f) := flat_ops c (tc_file c) ops in
  results = results' ∧ (∃ x, tc_transaction c2 = Some x ∧ sees c2 x f)
  ∧ (reads_written (dsize (tc_file c)) (λ _, false) ops → results = (direct_ops c (tc_file c) ops).1)
  ∧ tc_file c2 = tc_file c ∧ tc_log c2 = tc_log c
  ∧ (tdb_transaction_cancel c2).1 = true
  ∧ tc_file (tdb_transaction_cancel c2).2 = tc_file c ∧ tc_log (tdb_transaction_cancel c2).2 = tc_log c
  ∧ tc_map_size (tdb_transaction_cancel c2).2 = tc_map_size c ∧ tc_transaction (tdb_transaction_cancel c2).2 = None.
Proof.
  destruct (start_sees _ _ Hc Hstart) as (x & env & Hx & Hs & Hm & Hn & He & Ho & _ & -> & _).
  assert (in_txn (with_txn (set_tc_env c env) x) (tc_file c) (dsize (tc_file c)) 0) as Hi by (by exists x).
  destruct (flat_ops_same c (with_txn (set_tc_env c env) x) ops (tc_file c)) as [Hfl Hval]; [done..|].
  destruct (run_ops_ok ops _ _ _ _ Hi (Hval Hv)) as (Hr & Hi2 & Hp). rewrite Hfl in Hr, Hi2.
  pose proof (direct_ops_ok ops c (dsize (tc_file c)) (λ _, false) (tc_file c) (tc_file c)) as Hd.
  destruct (run_ops _ ops) as [rs c2]. destruct (flat_ops c _ ops) as [rs' f]. cbn [fst snd] in *.
  rewrite (cancel_ok _ _ _ Hi2). injection Hp as Hf Hl _ _ _ _ _ _. pose proof (open_size _ Hc).
  split; [done|]. split; [destruct Hi2 as (y & ? & ? & _); by exists y|].
  split; [|by repeat (split; [done|])]. intros Hw. rewrite Hr. pose proof (open_table _ Hc) as Htab.
  apply Hd; [|lia|done|done]. by split; [|done|lia|].
Qed.

(** *** Witness: a file with one chain and blocks of 16 bytes *)

Definition example_txn : txn_context :=
  mk_tc (replicate 176 0) 176 [] None 1 16 false true false [].
Definition example_started : txn_context := (tdb_transaction_start example_txn).2.
Definition example_ops : list txn_op :=
  [TWrite 172 (le_bytes 4 200); TRead 170 6; TGrow 40; TWrite 190 [1; 2; 3; 4; 5; 6]; TRead 185 12; TNextChain 0].

Lemma example_txn_open : open_file example_txn.
Proof. by split. Qed.

Lemma transaction_transparent_witness :
  (run_ops example_started example_ops).1
  = [TOk true; TData (Some [0; 0; 200; 0; 0; 0]); TOk true; TOk true;
     TData (Some [0; 0; 0; 0; 0; 1; 2; 3; 4; 5; 6; 0]); TChain 0].
Proof.
  assert (tdb_transaction_start example_txn = (true, example_started)) as E by (vm_compute; reflexivity).
  assert (valid_ops example_txn (tc_file example_txn) example_ops) as V.
  { vm_compute. repeat split; try discriminate; try (by left; left); try (by left; right). right. split; [done|]. by exists 1. }
  pose proof (transaction_transparent example_txn example_started example_ops example_txn_open E V) as H.
  destruct (run_ops example_started example_ops) as [rs c2]. destruct (flat_ops _ _ _) as [rs' f] eqn:Ef.
  destruct H as [-> _]. vm_compute in Ef. injection Ef as <- _. reflexivity.
Defined.
