(* ===== verification/TdbCrash.v ===== *)
(** * Power failures

    What is on the disk when the machine stops in the middle of the writes of a
    transaction, and what [tdb_transaction_recover] makes of it.

    Writes reach the disk in any order until the file is synced.  A word of four
    bytes at an aligned offset is never torn: after the crash it has one of the
    values it had since the last sync.  The size of the file is not lost. *)
From S2P Require Import Prelude TdbFile TdbLayout TdbTxn TdbTxnView.
Import Tdb Txn.

Implicit Types (c : txn_context) (x : tdb_transaction) (f s : bytes).

(** ** The disk *)

Definition apply_op (op : disk_op) f : bytes :=
  match op with
  | DWrite off buf => write_at off buf f
  | DExpand size addition => grow size addition f
  | DSync => f
  end.
Definition apply_ops (log : list disk_op) f : bytes := foldl (λ f op, apply_op op f) f log.

(** The contents the file had since the last sync. *)
Fixpoint since_sync (seen : list bytes) f (log : list disk_op) : list bytes :=
  match log with
  | [] => seen
  | DSync :: log => since_sync [f] f log
  | op :: log => since_sync (apply_op op f :: seen) (apply_op op f) log
  end.

Definition torn (seen : list bytes) (cur f : bytes) : Prop :=
  dsize f = dsize cur
  ∧ ∀ w, ∃ s, s ∈ seen ∧ ∀ o, o / 4 = w → 0 <= o < dsize f → byte_at f o = byte_at s o.

(** The machine stops after the operations [log] on a file that was [f0]. *)
Definition crash f0 (log : list disk_op) f : Prop := torn (since_sync [f0] f0 log) (apply_ops log f0) f.

(** ** Properties of all states that a crash may leave *)

Section safe.
Context (G : bytes → Prop).

(** [G] holds wherever the operations of [log] are interrupted. *)
Definition safe (seen : list bytes) (cur : bytes) (log : list disk_op) : Prop :=
  ∀ n f, torn (since_sync seen cur (take n log)) (apply_ops (take n log) cur) f → G f.

Lemma safe_nil seen cur : (∀ f, torn seen cur f → G f) → safe seen cur [].
Proof. intros H n f. rewrite take_nil. apply H. Qed.
Lemma safe_op seen cur op log :
  (∀ f, torn seen cur f → G f) →
  safe (match op with DSync => [cur] | _ => apply_op op cur :: seen end) (apply_op op cur) log →
  safe seen cur (op :: log).
Proof.
  intros H Hs [|n] f; [apply H|]. specialize (Hs n f). cbn [take since_sync apply_ops foldl]. destruct op; exact Hs.
Qed.
Lemma safe_app seen cur l1 l2 :
  safe seen cur l1 → safe (since_sync seen cur l1) (apply_ops l1 cur) l2 → safe seen cur (l1 ++ l2).
Proof.
  revert seen cur. induction l1 as [|op l1 IH]; intros seen cur H1 H2; [done|]. cbn [app]. apply safe_op.
  - intros f Hf. by apply (H1 0%nat).
  - apply IH.
    + intros n f Hf. apply (H1 (S n)). cbn [take since_sync]. destruct op; exact Hf.
    + cbn [since_sync] in H2. destruct op; exact H2.
Qed.
End safe.

(** The bytes of a torn file are bytes of the states it is made of. *)
Lemma torn_byte seen cur f (P : option Z → Prop) o :
  torn seen cur f → 0 <= o < dsize f → (∀ s, s ∈ seen → P (byte_at s o)) → P (byte_at f o).
Proof.
  intros [_ Ht] Ho Hs. destruct (Ht (o / 4)) as (s & Hin & Hb). rewrite (Hb o) by done. by apply Hs.
Qed.
Lemma torn_word seen cur f off :
  torn seen cur f → 0 <= off → off mod 4 = 0 → off + 4 <= dsize f →
  ∃ s, s ∈ seen ∧ off + 4 <= dsize s ∧ read_at off 4 f = read_at off 4 s.
Proof.
  intros [Hsz Ht] H0 Hm Hs. destruct (Ht (off / 4)) as (s & Hin & Hb).
  assert (∀ o, off <= o < off + 4 → byte_at f o = byte_at s o) as Hw.
  { intros o Hr. apply Hb; [|lia]. pose proof (Z.div_mod off 4). pose proof (Z.div_mod o 4). pose proof (Z.mod_pos_bound o 4). lia. }
  assert (off + 4 <= dsize s).
  { assert (off + 3 < dsize s); [|lia]. apply byte_at_lt; [lia|]. rewrite <- Hw by lia. apply byte_at_lt; lia. }
  exists s. split; [done|]. split; [done|]. apply read_at_ext; lia || done.
Qed.

(** Bytes that a file must have. *)
Definition fits (P : Z → Z → Prop) f : Prop := ∀ o v, P o v → byte_at f o = Some v.

Lemma fits_torn P seen cur f :
  torn seen cur f → (∀ o v, P o v → 0 <= o < dsize cur) → (∀ s, s ∈ seen → fits P s) → fits P f.
Proof.
  intros Ht HP Hs o v Ho. apply (torn_byte seen cur f (λ b, b = Some v)); [done| |intros s Hin; by apply Hs].
  destruct Ht as [-> _]. by eapply HP.
Qed.
Lemma fits_write P off buf f :
  0 <= off → off + dsize buf <= dsize f → (∀ o v, P o v → 0 <= o) → fits P f →
  (∀ o v, P o v → off <= o < off + dsize buf → byte_at buf (o - off) = Some v) → fits P (write_at off buf f).
Proof.
  intros H0 Hs HP Hf Hb o v Ho. rewrite byte_write by (done || by eapply HP). case_decide; [by apply Hb|by apply Hf].
Qed.
Lemma fits_grow P n f :
  0 <= n → fits P f → fits P (grow (dsize f) n f).
Proof.
  intros Hn Hf o v Ho. specialize (Hf o v Ho). unfold grow. unfold dsize. rewrite Nat2Z.id, firstn_all. unfold byte_at in *. by apply lookup_app_l_Some.
Qed.

(** ** Recovery *)

(** A process that opens the file. *)
Definition reopen c f : txn_context :=
  mk_tc f (dsize f) [] None (tc_hash_size c) (tc_page_size c) false (tc_allow_nesting c) (tc_nosync c) [].

Definition head_of f : Z := le_val (read_at TDB_RECOVERY_HEAD 4 f).
Definition rec_at f (o : Z) : tdb_record := rec_of_bytes (read_at o sizeof_rec f).

Lemma io_write_ok c off buf :
  tc_read_only c = false → 0 <= off → 0 < dsize buf → off + dsize buf <= dsize (tc_file c) → dsize (tc_file c) <= tc_map_size c < 2 ^ 32 →
  io_write c off buf = (true, set_tc_file c (write_at off buf (tc_file c)) (tc_log c ++ [DWrite off buf])).
Proof.
  intros Hr H0 Hl Hs Hm. unfold io_write, transaction_oob. rewrite Hr, u32_id by (unfold is_u32; lia).
  rewrite (proj2 (Z.eqb_neq _ _)) by lia. rewrite !(proj2 (Z.leb_le _ _)) by lia. done.
Qed.

(** Nothing to recover. *)
Definition idle f : Prop :=
  48 <= dsize f < 2 ^ 32
  ∧ (head_of f = 0 ∨ 0 <= head_of f ∧ head_of f + 24 <= dsize f ∧ magic (rec_at f (head_of f)) ≠ TDB_RECOVERY_MAGIC).

Lemma recover_idle c :
  tc_map_size c = dsize (tc_file c) → idle (tc_file c) →
  tdb_transaction_recover c = (true, c) ∧ tdb_needs_recovery c = false.
Proof.
  intros Hm [Hs Hh]. unfold tdb_transaction_recover, tdb_needs_recovery. set (f := tc_file c) in *.
  rewrite io_read_in by (fold f; unfold TDB_RECOVERY_HEAD; lia). fold f. fold (head_of f).
  destruct Hh as [->|(H0 & H1 & Hmg)]; [done|]. destruct (Z.eqb_spec (head_of f) 0); [done|].
  rewrite io_read_in by (fold f; unfold sizeof_rec; lia). fold f. fold (rec_at f (head_of f)).
  rewrite (proj2 (Z.eqb_neq _ _)) by done. done.
Qed.

(** The saved blocks: offset and old content. *)
Definition saved_bytes (l : list (Z * bytes)) : bytes :=
  mjoin ((λ '(o, d), le_bytes 4 o ++ le_bytes 4 (dsize d) ++ d) <$> l).
Lemma saved_bytes_cons o d l : saved_bytes ((o, d) :: l) = le_bytes 4 o ++ le_bytes 4 (dsize d) ++ d ++ saved_bytes l.
Proof. unfold saved_bytes. cbn [fmap list_fmap mjoin list_join]. by rewrite <- !app_assoc. Qed.

Definition covered (l : list (Z * bytes)) (o : Z) : Prop := Exists (λ e, e.1 <= o < e.1 + dsize e.2) l.

(** The saved blocks are those of the file [g]. *)
Definition saved_from g (size : Z) (l : list (Z * bytes)) : Prop :=
  Forall (λ '(o, d), 0 <= o ∧ 0 < dsize d ∧ o + dsize d <= size ∧ d = read_at o (dsize d) g) l.

Lemma slice_app_at a b d n : n = length a → slice n (length b) (a ++ b ++ d) = b.
Proof. intros ->. unfold slice. rewrite drop_app_length. by rewrite take_app_length. Qed.

Lemma restore_ok l g tail fuel c :
  tc_read_only c = false → dsize (tc_file c) <= tc_map_size c < 2 ^ 32 → saved_from g (dsize (tc_file c)) l → dsize tail = 4 →
  (length (saved_bytes l ++ tail) < fuel)%nat →
  ∃ f' log, restore fuel c (saved_bytes l ++ tail) = (true, set_tc_file c f' log) ∧ dsize f' = dsize (tc_file c)
  ∧ ∀ o, 0 <= o < dsize f' → (covered l o → byte_at f' o = byte_at g o) ∧ (¬ covered l o → byte_at f' o = byte_at (tc_file c) o).
Proof.
  revert fuel c. induction l as [|[q d] l IH]; intros fuel c Hro Hm Hl Ht Hf; (destruct fuel as [|fuel]; [lia|]); cbn [restore].
  - change (saved_bytes [] ++ tail) with tail. rewrite Ht. exists (tc_file c), (tc_log c). split; [by destruct c|]. split; [done|].
    intros o _. split; [|done]. by intros ?%Exists_nil.
  - apply Forall_cons in Hl as [(H0 & Hd & Hb & Ed) Hl]. rewrite saved_bytes_cons in *. rewrite <- !app_assoc in *.
    assert (is_u32 q ∧ is_u32 (dsize d)) as [Hq Hdd] by (unfold is_u32; lia).
    assert (dsize (le_bytes 4 q ++ le_bytes 4 (dsize d) ++ d ++ saved_bytes l ++ tail) = 8 + dsize d + dsize (saved_bytes l) + 4) as Hlen.
    { rewrite !dsize_app, !dsize_le_bytes, Ht. lia. }
    pose proof (dsize_nonneg (saved_bytes l)). rewrite (proj2 (Z.leb_gt _ _)) by lia.
    assert (slice 0 4 (le_bytes 4 q ++ le_bytes 4 (dsize d) ++ d ++ saved_bytes l ++ tail) = le_bytes 4 q) as ->
      by (by apply slice_app_first; rewrite length_le_bytes).
    assert (slice 4 4 (le_bytes 4 q ++ le_bytes 4 (dsize d) ++ d ++ saved_bytes l ++ tail) = le_bytes 4 (dsize d)) as ->.
    { rewrite <- (length_le_bytes 4 (dsize d)) at 2. apply slice_app_at. by rewrite length_le_bytes. }
    rewrite !le_val_u32 by done. assert (Z.to_nat (dsize d) = length d) as -> by apply Nat2Z.id.
    assert (slice 8 (length d) (le_bytes 4 q ++ le_bytes 4 (dsize d) ++ d ++ saved_bytes l ++ tail) = d) as ->.
    { rewrite (app_assoc (le_bytes 4 q)). apply slice_app_at. by rewrite length_app, !length_le_bytes. }
    rewrite io_write_ok by done. cbn [negb].
    assert (drop (8 + length d) (le_bytes 4 q ++ le_bytes 4 (dsize d) ++ d ++ saved_bytes l ++ tail) = saved_bytes l ++ tail) as ->.
    { rewrite !app_assoc. rewrite <- (app_assoc _ (saved_bytes l)). apply drop_app_length'. rewrite !length_app, !length_le_bytes. done. }
    set (c1 := set_tc_file c _ _). assert (dsize (tc_file c1) = dsize (tc_file c)) as Hs1 by (cbn; by apply dsize_write).
    destruct (IH fuel c1) as (f' & log & -> & Hsz & Hby); [done|by rewrite Hs1|by rewrite Hs1|done|clear -Hf Hd; rewrite !length_app in *; unfold dsize in Hd; lia|].
    exists f', log. split; [done|]. split; [lia|]. intros o Ho. destruct (Hby o Ho) as [Hc Hn]. split.
    + intros Hcov. destruct (decide (covered l o)) as [|Hnc]; [by apply Hc|].
      rewrite Hn by done. cbn [tc_file set_tc_file c1]. apply Exists_cons in Hcov as [Hr|Hcov]; [|done]. cbn in Hr.
      rewrite byte_write by lia. rewrite decide_True by lia. rewrite Ed at 1. rewrite byte_read by lia. f_equal. lia.
    + intros Hnc. unfold covered in Hnc. rewrite Exists_cons in Hnc. cbn in Hnc. rewrite Hn by tauto.
      cbn [tc_file set_tc_file c1]. rewrite byte_write by lia. rewrite decide_False by tauto. done.
Qed.

Definition in_head (o : Z) : Prop := TDB_RECOVERY_HEAD <= o < TDB_RECOVERY_HEAD + 4.
Definition in_area (ro len o : Z) : Prop := ro <= o < ro + len.

Lemma transaction_sync_ok c : tc_env c = [] → ∃ log, transaction_sync c = (true, set_tc_file c (tc_file c) log).
Proof.
  intros He. unfold transaction_sync, tc_ask. rewrite He. destruct (tc_nosync c); [|by eexists].
  exists (tc_log c). by destruct c.
Qed.

(** Parts of what was read. *)
Lemma read_read o n p k f :
  0 <= o → 0 <= p → 0 <= k → p + k <= n → o + n <= dsize f → read_at p k (read_at o n f) = read_at (o + p) k f.
Proof.
  intros. apply byte_ext; rewrite ?dsize_read by (rewrite ?dsize_read; lia); [done|]. intros q Hq. rewrite !byte_read by lia. f_equal. lia.
Qed.

(** The bytes of a file outside of a region are those of another. *)
Definition agree (P : Z → Prop) f g : Prop := dsize f = dsize g ∧ ∀ o, 0 <= o < dsize f → ¬ P o → byte_at f o = byte_at g o.

Lemma agree_write off n v f :
  0 <= off → off + Z.of_nat n <= dsize f → agree (in_area off (Z.of_nat n)) (write_at off (le_bytes n v) f) f.
Proof.
  intros H0 Hs. split; [rewrite dsize_write; rewrite ?dsize_le_bytes; lia|]. intros o Ho Hn.
  rewrite byte_write; rewrite ?dsize_le_bytes; [|lia..]. by rewrite decide_False.
Qed.
Lemma word_write off v f : 0 <= off → off + 4 <= dsize f → is_u32 v → le_val (read_at off 4 (write_at off (le_bytes 4 v) f)) = v.
Proof.
  intros H0 Hs Hv. change 4 with (dsize (le_bytes 4 v)) at 1.
  rewrite read_write_same by (rewrite ?dsize_le_bytes; lia). by apply le_val_u32.
Qed.

(** The end of a recovery: the pointer to the area and the mark are removed. *)
Lemma recover_finish c ro (old : Z) :
  tc_read_only c = false → tc_env c = [] → tc_map_size c = dsize (tc_file c) →
  48 <= ro → ro + 24 <= dsize (tc_file c) < 2 ^ 32 → head_of (tc_file c) = ro →
  ∃ c', (let '(ok, c) := if old <=? ro then io_write c TDB_RECOVERY_HEAD (le_bytes 4 0) else (true, c) in
         if negb ok then (false, c)
         else let '(ok, c) := io_write c (u32 (ro + 20)) (le_bytes 4 0) in
              if negb ok then (false, c) else transaction_sync c) = (true, c')
  ∧ tdb_needs_recovery c' = false
  ∧ agree (λ o, in_head o ∨ in_area (ro + 20) 4 o) (tc_file c') (tc_file c).
Proof.
  intros Hr He Hm Hro Hs Hh. set (f := tc_file c) in *.
  assert (∃ f1 log, (if old <=? ro then io_write c TDB_RECOVERY_HEAD (le_bytes 4 0) else (true, c)) = (true, set_tc_file c f1 log)
    ∧ agree in_head f1 f ∧ (head_of f1 = 0 ∨ head_of f1 = ro)) as (f1 & log1 & -> & [Hs1 Hb1] & Hh1).
  { destruct (old <=? ro).
    - rewrite io_write_ok by (fold f; rewrite ?dsize_le_bytes; unfold TDB_RECOVERY_HEAD; lia || done). fold f. eexists _, _. split; [done|].
      split; [apply (agree_write TDB_RECOVERY_HEAD 4 0); unfold TDB_RECOVERY_HEAD; lia|]. left.
      apply (word_write TDB_RECOVERY_HEAD 0 f); unfold TDB_RECOVERY_HEAD, is_u32; lia.
    - exists f, (tc_log c). split; [by destruct c|]. split; [done|]. by right. }
  cbn [negb]. rewrite u32_id by (unfold is_u32; lia). rewrite io_write_ok by (cbn [tc_file set_tc_file tc_map_size tc_read_only]; rewrite ?dsize_le_bytes; lia || done).
  cbn [negb tc_file set_tc_file]. edestruct transaction_sync_ok as [log2 ->]; [done|]. eexists. split; [done|].
  set (f2 := write_at (ro + 20) (le_bytes 4 0) f1). destruct (agree_write (ro + 20) 4 0 f1) as [Hs2 Hb2]; [lia..|]. fold f2 in Hs2, Hb2.
  split.
  - apply recover_idle; cbn [tc_file tc_map_size set_tc_file]; [fold f2; lia|]. fold f2. split; [lia|].
    assert (head_of f2 = head_of f1) as ->.
    { unfold head_of. f_equal. unfold f2, TDB_RECOVERY_HEAD. apply read_write_other; rewrite ?dsize_le_bytes; lia. }
    destruct Hh1 as [Hh1|Hh1]; [by left|right]. rewrite Hh1. split; [lia|]. split; [lia|].
    assert (magic (rec_at f2 ro) = 0) as ->; [|done]. unfold rec_at, rec_of_bytes. cbn [magic].
    change (slice 20 4 (read_at ro sizeof_rec f2)) with (read_at 20 4 (read_at ro 24 f2)). rewrite read_read by lia.
    unfold f2. rewrite word_write by (unfold is_u32; lia). done.
  - cbn [tc_file set_tc_file]. fold f2. split; [lia|]. intros o Ho Hn. rewrite Hb2 by (tauto || lia). apply Hb1; [lia|tauto].
Qed.

(** The recovery area with its mark and the saved blocks [l]. *)
Definition area_bytes (mx old : Z) (l : list (Z * bytes)) (tail : bytes) (mark : Z) : bytes :=
  rec_bytes (mk_rec 0 mx old (dsize (saved_bytes l) + 4) 0 mark) ++ saved_bytes l ++ tail.
Definition area_len (l : list (Z * bytes)) : Z := 24 + dsize (saved_bytes l) + 4.

Lemma area_parts ro mx old l tail mark f :
  0 <= ro → ro + area_len l <= dsize f → dsize tail = 4 → read_at ro (area_len l) f = area_bytes mx old l tail mark →
  read_at ro 24 f = rec_bytes (mk_rec 0 mx old (dsize (saved_bytes l) + 4) 0 mark)
  ∧ read_at (ro + 24) (dsize (saved_bytes l) + 4) f = saved_bytes l ++ tail.
Proof.
  intros Hro Hs Ht Hb. pose proof (dsize_nonneg (saved_bytes l)). unfold area_len in *. split.
  - rewrite <- (Z.add_0_r ro) at 1. rewrite <- (read_read ro (24 + dsize (saved_bytes l) + 4) 0) by lia. rewrite Hb.
    unfold area_bytes. apply (read_at_app []); [done|by rewrite dsize_rec_bytes].
  - rewrite <- (read_read ro (24 + dsize (saved_bytes l) + 4) 24) by lia. rewrite Hb. unfold area_bytes.
    rewrite <- (app_nil_r (saved_bytes l ++ tail)) at 1. apply read_at_app; [by rewrite dsize_rec_bytes|]. rewrite dsize_app. lia.
Qed.

(** The mark is valid: the saved blocks are written back, and no mark is left. *)
Lemma recover_undo c f g ro mx old l tail :
  48 <= ro → ro + area_len l <= dsize f < 2 ^ 32 → is_u32 mx → is_u32 old → dsize tail = 4 →
  read_at TDB_RECOVERY_HEAD 4 f = le_bytes 4 ro → read_at TDB_RECOVERY_HEAD 4 g = le_bytes 4 ro →
  read_at ro (area_len l) f = area_bytes mx old l tail TDB_RECOVERY_MAGIC →
  saved_from g (dsize f) l →
  ∃ c', tdb_transaction_recover (reopen c f) = (true, c') ∧ dsize (tc_file c') = dsize f ∧ tdb_needs_recovery c' = false
  ∧ ∀ o, 0 <= o < dsize f → ¬ in_head o → ¬ in_area (ro + 20) 4 o →
    (covered l o → byte_at (tc_file c') o = byte_at g o) ∧ (¬ covered l o → byte_at (tc_file c') o = byte_at f o).
Proof.
  intros Hro Hs Hmx Hold Ht Hh Hg Hblob Hl. pose proof (dsize_nonneg (saved_bytes l)) as Hsb.
  destruct (area_parts ro mx old l tail TDB_RECOVERY_MAGIC f) as [Hrec Hdata]; [lia|lia|done|done|]. unfold area_len in *.
  set (rs := dsize (saved_bytes l) + 4) in *. set (r := mk_rec 0 mx old rs 0 TDB_RECOVERY_MAGIC) in *.
  assert (is_u32 ro ∧ is_u32 rs) as [Hu1 Hu2] by (unfold is_u32 in *; lia).
  assert (rec_ok r) as Hr by (split; cbn; try done; unfold is_u32; lia).
  unfold tdb_transaction_recover. rewrite io_read_in by (cbn; unfold TDB_RECOVERY_HEAD; lia). cbn [tc_file reopen]. rewrite Hh, le_val_u32 by done.
  rewrite (proj2 (Z.eqb_neq _ _)) by lia. rewrite io_read_in by (cbn; unfold sizeof_rec in *; lia). cbn [tc_file reopen].
  change sizeof_rec with 24. rewrite Hrec, rec_of_rec_bytes by done. cbn [magic data_len key_len r]. rewrite Z.eqb_refl. cbn [negb tc_read_only reopen].
  rewrite u32_id by (unfold is_u32 in *; lia). rewrite io_read_in by (cbn; lia). cbn [tc_file reopen]. rewrite Hdata.
  destruct (restore_ok l g tail (S (length (saved_bytes l ++ tail))) (reopen c f)) as (f1 & log1 & -> & Hs1 & Hb1); [done|cbn; lia|done|done|lia|].
  cbn [negb]. edestruct (transaction_sync_ok (set_tc_file (reopen c f) f1 log1)) as [log2 ->]; [done|]. cbn [negb tc_file set_tc_file reopen] in *.
  set (c2 := set_tc_file (set_tc_file (reopen c f) f1 log1) f1 log2).
  destruct (recover_finish c2 ro old) as (c3 & -> & Hn & [Hs3 Hb3]); try done; cbn [tc_file tc_map_size set_tc_file c2 reopen]; [lia| |].
  { unfold head_of. rewrite <- (le_val_u32 ro Hu1), <- Hh. f_equal. apply read_at_ext; [unfold TDB_RECOVERY_HEAD; lia..|]. intros o Ho.
    destruct (Hb1 o) as [H1 H2]; [unfold TDB_RECOVERY_HEAD in *; lia|]. destruct (decide (covered l o)) as [Hc|Hc]; [rewrite H1 by done|by rewrite H2].
    assert (byte_at (read_at TDB_RECOVERY_HEAD 4 g) (o - TDB_RECOVERY_HEAD) = byte_at (read_at TDB_RECOVERY_HEAD 4 f) (o - TDB_RECOVERY_HEAD)) as E by (by rewrite Hg, Hh).
    rewrite !byte_read in E by (unfold TDB_RECOVERY_HEAD in *; lia). by replace (TDB_RECOVERY_HEAD + (o - TDB_RECOVERY_HEAD)) with o in E by lia. }
  exists c3. split; [done|]. cbn [tc_file set_tc_file c2] in Hs3, Hb3. split; [lia|]. split; [done|]. intros o Ho Hnh Hna.
  rewrite Hb3 by (tauto || lia). apply Hb1. lia.
Qed.

(** ** The phases of a commit *)

(** Before the mark: the head points to one of [H], where no mark is. *)
Definition quiet (H : list Z) (size : Z) s : Prop :=
  48 <= dsize s ∧ (head_of s = 0 ∨ head_of s ∈ H ∧ head_of s + 24 <= size)
  ∧ ∀ h, h ∈ H → h + 24 <= dsize s → magic (rec_at s h) ≠ TDB_RECOVERY_MAGIC.

Lemma magic_at f h : magic (rec_at f h) = le_val (read_at 20 4 (read_at h 24 f)).
Proof. done. Qed.

Lemma torn_idle H seen cur f :
  torn seen cur f → 48 <= dsize cur < 2 ^ 32 → (∀ h, h ∈ H → 0 <= h ∧ h mod 4 = 0) →
  (∀ s, s ∈ seen → quiet H (dsize cur) s) → idle f.
Proof.
  intros Ht Hsz HH Hq. pose proof Ht as [Hs _]. split; [lia|].
  destruct (torn_word _ _ _ TDB_RECOVERY_HEAD Ht) as (s & Hin & _ & E); [unfold TDB_RECOVERY_HEAD; lia || done..|].
  destruct (Hq s Hin) as (_ & Hh & _). unfold head_of in *. rewrite E. destruct Hh as [->|[Hh Hle]]; [by left|right].
  set (h := le_val _) in *. destruct (HH h Hh) as [H0 Hm]. split; [done|]. split; [lia|].
  destruct (torn_word _ _ _ (h + 20) Ht) as (s' & Hin' & Hs' & E'); [lia|by rewrite Z.add_mod, Hm by lia|lia|].
  destruct (Hq s' Hin') as (_ & _ & Hmg). specialize (Hmg h Hh). rewrite magic_at in *. rewrite read_read in * by lia.
  rewrite E'. apply Hmg. lia.
Qed.

Section phases.
Context c f0 (g : bytes) (ro mx : Z) (l : list (Z * bytes)) (tail : bytes).
#[local] Abbreviation old := (dsize f0).
#[local] Abbreviation len := (area_len l).
Context (Hro : 48 <= ro) (Hal : ro mod 4 = 0) (Hmx : is_u32 mx) (Hold : is_u32 old) (Htail : dsize tail = 4)
  (Hg : read_at TDB_RECOVERY_HEAD 4 g = le_bytes 4 ro).

(** The old content, and the new content [f1], seen by one who ignores the
    recovery area. *)
Definition old_like f : Prop :=
  old <= dsize f ∧ ∀ o, 0 <= o < old → ¬ in_head o → ¬ in_area ro len o → byte_at f o = byte_at f0 o.
Definition new_like (f1 f : bytes) : Prop := agree (in_area (ro + 20) 4) f f1.

(** A crash that leaves [f] is repaired by the next process. *)
Definition repaired (f1 f : bytes) : Prop :=
  ∃ c', tdb_transaction_recover (reopen c f) = (true, c') ∧ tdb_needs_recovery c' = false
  ∧ (old_like (tc_file c') ∨ new_like f1 (tc_file c')).

Definition p_head (o v : Z) : Prop := in_head o ∧ byte_at (le_bytes 4 ro) (o - TDB_RECOVERY_HEAD) = Some v.
Definition p_area (mark : Z) (o v : Z) : Prop := in_area ro len o ∧ byte_at (area_bytes mx old l tail mark) (o - ro) = Some v.
Definition p_old (cov : Z → Prop) (o v : Z) : Prop :=
  0 <= o < old ∧ ¬ in_head o ∧ ¬ in_area ro len o ∧ ¬ cov o ∧ byte_at f0 o = Some v.

Lemma dsize_area mark : dsize (area_bytes mx old l tail mark) = len.
Proof. unfold area_bytes, area_len. rewrite !dsize_app, dsize_rec_bytes, Htail. lia. Qed.

Lemma fits_head f : 48 <= dsize f → fits p_head f → read_at TDB_RECOVERY_HEAD 4 f = le_bytes 4 ro.
Proof.
  intros Hs Hf. unfold TDB_RECOVERY_HEAD. apply byte_ext; rewrite dsize_read by lia; rewrite ?dsize_le_bytes; [done|].
  intros o Ho. rewrite byte_read by lia. destruct (byte_at_lt (le_bytes 4 ro) o) as [_ Hb]; [lia|]. rewrite dsize_le_bytes in Hb.
  destruct Hb as [v Hv]; [lia|]. rewrite Hv. apply Hf. unfold p_head, in_head, TDB_RECOVERY_HEAD. split; [lia|]. rewrite <- Hv. f_equal. lia.
Qed.
Lemma fits_area mark f : ro + len <= dsize f → fits (p_area mark) f → read_at ro len f = area_bytes mx old l tail mark.
Proof.
  intros Hs Hf. assert (0 <= len) by (unfold area_len; pose proof (dsize_nonneg (saved_bytes l)); lia).
  apply byte_ext; rewrite dsize_read by lia; rewrite ?dsize_area; [done|]. intros o Ho. rewrite byte_read by lia.
  destruct (byte_at_lt (area_bytes mx old l tail mark) o) as [_ Hb]; [lia|]. rewrite dsize_area in Hb.
  destruct Hb as [v Hv]; [lia|]. rewrite Hv. apply Hf. split; [unfold in_area; lia|]. rewrite <- Hv. f_equal. lia.
Qed.
Lemma fits_old cov f : old <= dsize f → fits (p_old cov) f →
  ∀ o, 0 <= o < old → ¬ in_head o → ¬ in_area ro len o → ¬ cov o → byte_at f o = byte_at f0 o.
Proof.
  intros Hs Hf o Ho H1 H2 H3. destruct (byte_at_lt f0 o) as [_ [v Hv]]; [lia..|]. rewrite Hv. by apply Hf.
Qed.

(** The saved blocks restore the old content of every place that is covered. *)
Definition restores : Prop := ∀ o, 0 <= o < old → ¬ in_head o → ¬ in_area ro len o → byte_at g o = byte_at f0 o.

Lemma repaired_old f1 f : idle f → old_like f → repaired f1 f.
Proof. intros Hi Ho. destruct (recover_idle (reopen c f)) as [E Hn]; [done|done|]. exists (reopen c f). split_and!; [done|done|by left]. Qed.
Lemma repaired_new f1 f : idle f → new_like f1 f → repaired f1 f.
Proof. intros Hi Ho. destruct (recover_idle (reopen c f)) as [E Hn]; [done|done|]. exists (reopen c f). split_and!; [done|done|by right]. Qed.

Lemma repaired_undo f1 f :
  restores → old <= dsize f → ro + len <= dsize f < 2 ^ 32 → saved_from g (dsize f) l →
  fits p_head f → fits (p_area TDB_RECOVERY_MAGIC) f → fits (p_old (covered l)) f → repaired f1 f.
Proof.
  intros Hres Hso Hs Hl Hh Ha Ho. destruct (recover_undo c f g ro mx old l tail) as (c' & E & Hsz & Hn & Hb); try done.
  { apply fits_head; [|done]. unfold area_len in Hs. pose proof (dsize_nonneg (saved_bytes l)). lia. }
  { apply fits_area; [lia|done]. }
  exists c'. split; [done|]. split; [done|]. left. split; [lia|]. intros o Hr H1 H2.
  destruct (Hb o) as [Hc Hu]; [lia|done|unfold in_area, area_len in *; pose proof (dsize_nonneg (saved_bytes l)); lia|].
  destruct (decide (covered l o)) as [Hcov|Hcov]; [rewrite Hc by done; by apply Hres|]. rewrite Hu by done. by eapply fits_old.
Qed.

(** States in which the area is complete and its mark is set or not. *)
Definition marked s : Prop :=
  ro + len <= dsize s ∧ fits p_head s ∧ fits (p_old (covered l)) s
  ∧ ∃ mark, (mark = TDB_RECOVERY_INVALID_MAGIC ∨ mark = TDB_RECOVERY_MAGIC) ∧ fits (p_area mark) s.

Lemma area_unmarked m1 m2 i : 0 <= i → ¬ 20 <= i < 24 → byte_at (area_bytes mx old l tail m1) i = byte_at (area_bytes mx old l tail m2) i.
Proof.
  intros H0 Hi. unfold area_bytes.
  rewrite (byte_at_app (rec_bytes (mk_rec _ _ _ _ _ m1))), (byte_at_app (rec_bytes (mk_rec _ _ _ _ _ m2))), !dsize_rec_bytes by lia. case_decide; [|done].
  unfold rec_bytes. cbn [next rec_len key_len data_len full_hash magic]. rewrite !app_assoc.
  rewrite (byte_at_app _ (le_bytes 4 m1)), (byte_at_app _ (le_bytes 4 m2)) by lia. rewrite !dsize_app, !dsize_le_bytes.
  by rewrite !decide_True by lia.
Qed.

Lemma area_mark mark i : 20 <= i < 24 → byte_at (area_bytes mx old l tail mark) i = byte_at (le_bytes 4 mark) (i - 20).
Proof.
  intros Hi. unfold area_bytes. rewrite byte_at_app, dsize_rec_bytes by lia. rewrite decide_True by lia.
  unfold rec_bytes. cbn [next rec_len key_len data_len full_hash magic]. rewrite !app_assoc.
  rewrite (byte_at_app _ (le_bytes 4 mark)) by lia. rewrite !dsize_app, !dsize_le_bytes. by rewrite decide_False by lia.
Qed.

Lemma len_ge : 28 <= len.
Proof. unfold area_len. pose proof (dsize_nonneg (saved_bytes l)). lia. Qed.

(** The mark is changed. *)
Lemma set_mark m1 m2 s :
  ro + len <= dsize s → fits (p_area m1) s → fits (p_area m2) (write_at (ro + 20) (le_bytes 4 m2) s).
Proof.
  intros Hs Hf o v [Ho Hv]. unfold in_area in Ho. pose proof len_ge. rewrite byte_write; rewrite ?dsize_le_bytes; [|lia..].
  case_decide as Hd.
  - rewrite area_mark in Hv by lia. rewrite <- Hv. f_equal. lia.
  - apply Hf. split; [done|]. rewrite <- Hv. apply area_unmarked; lia.
Qed.
Lemma keep_head off buf s : 48 <= off → off + dsize buf <= dsize s → fits p_head s → fits p_head (write_at off buf s).
Proof.
  intros H1 H2 Hf. apply fits_write; [lia|done| |done|]; intros o v [Ho _]; unfold in_head, TDB_RECOVERY_HEAD in Ho; lia.
Qed.
Lemma keep_old cov off buf s :
  ro <= off → off + dsize buf <= ro + len → off + dsize buf <= dsize s → fits (p_old cov) s → fits (p_old cov) (write_at off buf s).
Proof.
  intros H1 H2 H3 Hf. apply fits_write; [lia|done| |done|]; intros o v (Ho & _ & Ha & _); [lia|]. unfold in_area in Ha. lia.
Qed.

Lemma torn_mark seen cur f :
  torn seen cur f → ro + len <= dsize cur → (∀ s, s ∈ seen → marked s) →
  ∃ mark, (mark = TDB_RECOVERY_INVALID_MAGIC ∨ mark = TDB_RECOVERY_MAGIC) ∧ fits (p_area mark) f.
Proof.
  intros Ht Hs Hm. pose proof len_ge. pose proof Ht as [Hsz _].
  destruct (torn_word _ _ _ (ro + 20) Ht) as (s & Hin & Hss & E); [lia|by rewrite Z.add_mod, Hal by lia|lia|].
  destruct (Hm s Hin) as (_ & _ & _ & mark & Hmark & Hfs). exists mark. split; [done|]. intros o v [Ho Hv]. unfold in_area in Ho.
  destruct (decide (ro + 20 <= o < ro + 24)) as [Hw|Hw].
  - rewrite <- (Hfs o v (conj Ho Hv)).
    assert (byte_at (read_at (ro + 20) 4 f) (o - (ro + 20)) = byte_at (read_at (ro + 20) 4 s) (o - (ro + 20))) as Eb by (by rewrite E).
    rewrite !byte_read in Eb by lia. by replace (ro + 20 + (o - (ro + 20))) with o in Eb by lia.
  - apply (torn_byte seen cur f (λ b, b = Some v)); [done|lia|]. intros s' Hin'. destruct (Hm s' Hin') as (_ & _ & _ & m' & _ & Hf').
    apply Hf'. split; [done|]. rewrite <- Hv. apply area_unmarked; lia.
Qed.

Lemma marked_phase seen cur f1 f :
  torn seen cur f → restores → old <= dsize cur → ro + len <= dsize cur < 2 ^ 32 → saved_from g (dsize cur) l →
  (∀ s, s ∈ seen → marked s) → (fits (p_area TDB_RECOVERY_INVALID_MAGIC) f → old_like f ∨ new_like f1 f) → repaired f1 f.
Proof.
  intros Ht Hres Hso Hs Hl Hm Hun. pose proof len_ge as Hlen. pose proof Ht as [Hsz _].
  assert (fits p_head f) as Hh.
  { apply (fits_torn _ seen cur); [done| |intros s Hin; by apply Hm]. intros o v [Ho _]. unfold in_head, TDB_RECOVERY_HEAD in Ho. lia. }
  assert (fits (p_old (covered l)) f) as Hol.
  { apply (fits_torn _ seen cur); [done| |intros s Hin; by apply Hm]. intros o v [Ho _]. lia. }
  destruct (torn_mark _ _ _ Ht) as (mark & [-> | ->] & Ha); [lia|done| |].
  - assert (idle f) as Hi.
    { split; [lia|]. right. unfold head_of. rewrite (fits_head f) by (done || lia). rewrite le_val_u32 by (unfold is_u32; lia).
      split; [lia|]. split; [lia|]. pose proof (fits_area _ f ltac:(lia) Ha) as Hb.
      apply area_parts in Hb as [Hb _]; [|lia..|done]. unfold rec_at. change sizeof_rec with 24. rewrite Hb.
      rewrite rec_of_rec_bytes; [done|]. pose proof (dsize_nonneg (saved_bytes l)). unfold area_len in *.
      split; cbn; try done; unfold is_u32; lia. }
    destruct (Hun Ha); [by apply repaired_old|by apply repaired_new].
  - apply repaired_undo; rewrite ?Hsz; done.
Qed.

(** The two parts of the marked phase in which the mark may be missing. *)
Lemma marked_old seen cur f1 f :
  torn seen cur f → restores → old <= dsize cur → ro + len <= dsize cur < 2 ^ 32 → saved_from g (dsize cur) l →
  (∀ s, s ∈ seen → marked s ∧ fits (p_old (λ _, False)) s) → repaired f1 f.
Proof.
  intros Ht Hres Hso Hs Hl Hm. pose proof Ht as [Hsz _]. apply (marked_phase seen cur); try done; [intros s Hin; by apply Hm|].
  intros _. left. split; [lia|]. intros o Ho H1 H2. apply (fits_old (λ _, False)); [lia| |done..|tauto].
  apply (fits_torn _ seen cur); [done|intros ? ? [? _]; lia|]. intros s Hin. by apply Hm.
Qed.
Lemma marked_new seen cur f1 f :
  torn seen cur f → restores → old <= dsize cur → ro + len <= dsize cur < 2 ^ 32 → saved_from g (dsize cur) l →
  dsize f1 = dsize cur → (∀ s, s ∈ seen → marked s ∧ new_like f1 s) → repaired f1 f.
Proof.
  intros Ht Hres Hso Hs Hl H1 Hm. pose proof Ht as [Hsz _]. apply (marked_phase seen cur); try done; [intros s Hin; by apply Hm|].
  intros _. right. split; [lia|]. intros o Ho Hn. apply (torn_byte seen cur f (λ b, b = byte_at f1 o)); [done|done|].
  intros s Hin. destruct (Hm s Hin) as [_ [Hs1 Hb]]. apply Hb; [lia|done].
Qed.
(** All states have the mark. *)
Lemma marked_set seen cur f1 f :
  torn seen cur f → restores → old <= dsize cur → ro + len <= dsize cur < 2 ^ 32 → saved_from g (dsize cur) l →
  (∀ s, s ∈ seen → fits p_head s ∧ fits (p_area TDB_RECOVERY_MAGIC) s ∧ fits (p_old (covered l)) s) → repaired f1 f.
Proof.
  intros Ht Hres Hso Hs Hl Hm. pose proof Ht as [Hsz _]. pose proof len_ge.
  apply repaired_undo; rewrite ?Hsz; try done; (apply (fits_torn _ seen cur); [done| |intros s Hin; by apply Hm]).
  - intros o v [Ho _]. unfold in_head, TDB_RECOVERY_HEAD in Ho. lia.
  - intros o v [Ho _]. unfold in_area in Ho. lia.
  - intros o v [Ho _]. lia.
Qed.
End phases.
