(* ===== verification/TdbCommit.v ===== *)
(** * Commit and crash

    The steps of [tdb_transaction_commit], what each of them writes to the file,
    and that the file can be repaired wherever they are interrupted. *)
From S2P Require Import Prelude TdbFile TdbLayout TdbAlloc TdbTxn TdbTxnView TdbCrash.
Import Tdb Txn.

Implicit Types (c : txn_context) (x : tdb_transaction) (f s : bytes).

(** ** The blocks in memory *)

(** The byte that the blocks hold for offset [o], if any. *)
Definition bbyte x (o : Z) : option Z :=
  match blocks x !! Z.to_nat (o / block_size x) with
  | Some (Some b) =>
      if o mod block_size x <? block_length x (Z.to_nat (o / block_size x)) then byte_at b (o mod block_size x) else None
  | _ => None
  end.

Record blocks_ok (lim : Z) x : Prop := {
  bk_size : 0 < block_size x;
  bk_blocks i b : blocks x !! i = Some (Some b) →
    dsize b = block_size x ∧ 0 < block_length x i <= block_size x ∧ Z.of_nat i * block_size x + block_length x i <= lim;
}.

Lemma overlay_blocks sz c x : overlay sz c x → blocks_ok sz x.
Proof.
  intros Ho. pose proof (ov_block_size _ _ _ Ho). split; [done|]. intros i b Hi. destruct (overlay_block_length _ _ _ Ho _ _ Hi) as [H1 ->].
  split; [by eapply ov_blocks|]. lia.
Qed.

(** What the transaction sees is in a block or, unchanged, in the file. *)
Lemma overlay_bbyte sz c x o :
  overlay sz c x → 0 <= o < sz →
  bbyte x o = vbyte c x o ∨ bbyte x o = None ∧ o < old_map_size x ∧ byte_at (tc_file c) o = vbyte c x o.
Proof.
  intros Ho Hr. unfold bbyte, vbyte. pose proof (ov_block_size _ _ _ Ho) as Hbs. destruct (block_split (block_size x) o Hbs) as [Eo Hm].
  pose proof (Z.div_pos o (block_size x)). destruct (blocks x !! _) as [[b|]|] eqn:E.
  - left. destruct (overlay_block_length _ _ _ Ho _ _ E) as [H1 ->]. by rewrite (proj2 (Z.ltb_lt _ _)) by lia.
  - right. split_and!; [done| |done]. destruct (decide (o < old_map_size x)) as [|Hn]; [done|].
    destruct (ov_new _ _ _ Ho o) as [b Hb]; [lia|congruence].
  - right. split_and!; [done| |done]. destruct (decide (o < old_map_size x)) as [|Hn]; [done|].
    destruct (ov_new _ _ _ Ho o) as [b Hb]; [lia|congruence].
Qed.
Lemma blocks_ok_mono l1 l2 x : blocks_ok l1 x → l1 <= l2 → blocks_ok l2 x.
Proof. intros [H1 H2] Hle. split; [done|]. intros i b Hi. destruct (H2 i b Hi) as (? & ? & ?). split_and!; lia. Qed.

(** A block has its place and its length, whatever is in it. *)
Record same_shape x x' : Prop := {
  ss_params : tx_params x' = tx_params x;
  ss_last : last_block_size x' = last_block_size x;
  ss_len : length (blocks x') = length (blocks x);
  ss_none i : blocks x' !! i = Some None ↔ blocks x !! i = Some None;
}.
#[export] Instance same_shape_preorder : PreOrder same_shape.
Proof.
  split; [by split|]. intros x y z [P1 L1 N1 S1] [P2 L2 N2 S2]. split; [congruence..|]. intros i. by rewrite S2.
Qed.
Lemma shape_block_size x x' : same_shape x x' → block_size x' = block_size x.
Proof. intros [Hp _ _ _]. by injection Hp. Qed.
Lemma shape_length x x' i : same_shape x x' → block_length x' i = block_length x i.
Proof. intros Hs. unfold block_length. by rewrite (ss_len _ _ Hs), (ss_last _ _ Hs), (shape_block_size _ _ Hs). Qed.

Lemma shape_forall2 x x' : same_shape x x' → Forall2 (λ a b, a = None ↔ b = None) (blocks x') (blocks x).
Proof.
  intros [_ _ Hl Hn]. apply Forall2_same_length_lookup_2; [done|]. intros i a b Ha Hb. specialize (Hn i). rewrite Ha, Hb in Hn.
  split; intros ->; [by apply proj1 in Hn; specialize (Hn eq_refl) as [= ->]|by apply proj2 in Hn; specialize (Hn eq_refl) as [= ->]].
Qed.

(** The effect of a write on the blocks that are there. *)
Definition overwritten x x' (off : Z) (buf : bytes) : Prop :=
  ∀ o, 0 <= o → bbyte x' o =
    if decide (off <= o < off + dsize buf ∧ is_Some (bbyte x o)) then byte_at buf (o - off) else bbyte x o.

Lemma write_existing_block_ok lim x off buf :
  blocks_ok lim x → 0 <= off → dsize buf + off mod block_size x <= block_size x →
  blocks_ok lim (write_existing_block x off buf) ∧ same_shape x (write_existing_block x off buf)
  ∧ overwritten x (write_existing_block x off buf) off buf.
Proof.
  intros [Hbs Hb] H0 Hfit. destruct (block_split (block_size x) off Hbs) as [Eoff Hm]. unfold write_existing_block.
  set (blk := Z.to_nat (off / block_size x)). set (o0 := off mod block_size x) in *.
  assert (Z.of_nat blk = off / block_size x) as Eblk by (pose proof (Z.div_pos off (block_size x)); lia).
  destruct (blocks x !! blk) as [[b|]|] eqn:E.
  2,3: split; [by split|]; split; [done|]; intros o Ho; case_decide as Hd; [|done]; exfalso; destruct Hd as [Hr [w Hw]];
    unfold bbyte in Hw; destruct (block_same (block_size x) off o) as [Hd _]; [lia|lia|fold o0; lia|]; rewrite Hd in Hw; fold blk in Hw; by rewrite E in Hw.
  destruct (Hb blk b E) as (Hsz & Hl & Hlim).
  set (buf' := if _ && _ then _ else buf).
  assert (0 <= dsize buf' ∧ dsize buf' + o0 <= Z.max o0 (block_length x blk) ∧ dsize buf' <= dsize buf
    ∧ (∀ o, 0 <= o < dsize buf' → byte_at buf' o = byte_at buf o)
    ∧ (∀ o, 0 <= o < dsize buf → o + o0 < block_length x blk → o < dsize buf')) as (Hn & Hbl & Hle & Hby & Hin).
  { pose proof (dsize_nonneg buf). unfold buf', block_length in *. destruct (S blk =? _)%nat; cbn [andb].
    - destruct (Z.ltb_spec (last_block_size x) (o0 + dsize buf)) as [Hlt|Hge].
      + destruct (Z.le_gt_cases (last_block_size x) o0).
        * replace (Z.to_nat (last_block_size x - o0)) with 0%nat by lia. rewrite take_0. change (dsize []) with 0. split_and!; intros; lia.
        * rewrite dsize_take by lia. split_and!; [lia..| |intros; lia]. intros o Ho. by rewrite byte_take by lia.
      + split_and!; [lia..|done|intros; lia].
    - split_and!; [lia..|done|intros; lia]. }
  clearbody buf'. set (nb := write_at o0 buf' b). assert (dsize nb = block_size x) as Hnb by (unfold nb; rewrite dsize_write; lia).
  set (x' := set_blocks x _). assert (same_shape x x') as Hss.
  { split; [done|done|by apply length_insert|]. intros i. cbn. rewrite list_lookup_insert_Some. split.
    - intros [(_ & [=] & _)|[_ ?]]; done.
    - intros Hi. right. split; [|done]. intros ->. congruence. }
  split; [|split; [done|]].
  - split; [done|]. intros i b'. rewrite (shape_length _ _ _ Hss). cbn. rewrite list_lookup_insert_Some.
    intros [(<- & [= <-] & _)|[_ Hi]]; [by split|by apply Hb].
  - intros o Ho. unfold bbyte. rewrite !(shape_length _ _ _ Hss), !(shape_block_size _ _ Hss). cbn [blocks x' set_blocks].
    apply lookup_lt_Some in E as Hlt. destruct (decide (Z.to_nat (o / block_size x) = blk)) as [Ei|Ei].
    + rewrite Ei, list_lookup_insert_eq by done. rewrite E. destruct (block_split (block_size x) o Hbs) as [Eo Hom].
      assert (o / block_size x = off / block_size x) as Eq by (pose proof (Z.div_pos o (block_size x)); lia).
      destruct (Z.ltb_spec (o mod block_size x) (block_length x blk)) as [Hv|Hv].
      2:{ by case_decide as Hd; [destruct Hd as [_ [? ?]]|]. }
      assert (is_Some (byte_at b (o mod block_size x))) as Hsm by (apply byte_at_lt; lia).
      destruct (decide (off <= o < off + dsize buf)) as [Hr|Hr].
      * rewrite decide_True by (by split). unfold nb. rewrite byte_write by lia.
        specialize (Hin (o - off)). rewrite decide_True by lia. rewrite Hby by lia. f_equal. lia.
      * rewrite decide_False by tauto. unfold nb. rewrite byte_write by lia. rewrite decide_False by lia. done.
    + rewrite list_lookup_insert_ne by done. rewrite decide_False; [done|]. intros [Hr _]. apply Ei.
      destruct (block_same (block_size x) off o) as [-> _]; [lia|lia|fold o0; lia|done].
Qed.

Lemma overwritten_app x x1 x2 off a b :
  overwritten x x1 off a → overwritten x1 x2 (off + dsize a) b → 0 <= off → overwritten x x2 off (a ++ b).
Proof.
  intros H1 H2 H0 o Ho. rewrite (H2 o Ho), dsize_app. pose proof (dsize_nonneg a). pose proof (dsize_nonneg b).
  assert (is_Some (bbyte x1 o) ↔ is_Some (bbyte x o)) as Hs.
  { rewrite (H1 o Ho). case_decide as Hd; [|done]. split; [tauto|]. intros _. apply byte_at_lt; lia. }
  destruct (decide (is_Some (bbyte x o))) as [Hb|Hb].
  - destruct (decide (off + dsize a <= o < off + dsize a + dsize b)) as [Hr|Hr].
    + rewrite !decide_True by (split; [lia|tauto]). rewrite byte_at_app by lia. rewrite decide_False by lia. f_equal. lia.
    + rewrite decide_False by tauto. rewrite (H1 o Ho). destruct (decide (off <= o < off + dsize a)) as [Hr'|Hr'].
      * rewrite !decide_True by (split; [lia|done]). rewrite byte_at_app by lia. rewrite decide_True by lia. done.
      * rewrite !decide_False by (intros [? _]; lia). done.
  - rewrite !decide_False by tauto. rewrite (H1 o Ho). by rewrite decide_False by tauto.
Qed.

Lemma write_existing_blocks_ok fuel lim x off buf :
  blocks_ok lim x → 0 <= off → (length buf < fuel)%nat →
  blocks_ok lim (write_existing_blocks fuel x off buf) ∧ same_shape x (write_existing_blocks fuel x off buf)
  ∧ overwritten x (write_existing_blocks fuel x off buf) off buf.
Proof.
  revert x off buf. induction fuel as [|fuel IH]; intros x off buf Hb H0 Hf; [lia|]. cbn [write_existing_blocks].
  pose proof (bk_size _ _ Hb) as Hbs. destruct (block_split (block_size x) off Hbs) as [_ Hm].
  destruct (Z.ltb_spec (block_size x) (dsize buf + off mod block_size x)) as [Hlt|Hge].
  - set (len2 := block_size x - off mod block_size x). set (a := take (Z.to_nat len2) buf). set (b := drop (Z.to_nat len2) buf).
    assert (dsize a = len2 ∧ dsize b = dsize buf - len2) as [Ea Eb] by (split; [apply dsize_take|apply dsize_drop]; lia).
    destruct (write_existing_block_ok lim x off a Hb) as (Hb1 & Hs1 & Ho1); [lia|lia|].
    destruct (IH (write_existing_block x off a) (off + len2) b Hb1) as (Hb2 & Hs2 & Ho2); [lia|unfold dsize in *; lia|].
    split; [done|]. split; [by etransitivity|]. assert (a ++ b = buf) as Eab by apply take_drop.
    rewrite <- Ea in Ho2 at 2. pose proof (overwritten_app _ _ _ _ _ _ Ho1 Ho2 H0) as Hw. rewrite Eab in Hw. exact Hw.
  - destruct (Z.eqb_spec (dsize buf) 0) as [E|E]; [|by apply write_existing_block_ok]. split; [done|]. split; [done|].
    intros o Ho. rewrite decide_False; [done|]. intros [? _]. lia.
Qed.
Lemma write_existing_ok lim x off buf :
  blocks_ok lim x → 0 <= off →
  blocks_ok lim (transaction_write_existing x off buf) ∧ same_shape x (transaction_write_existing x off buf)
  ∧ overwritten x (transaction_write_existing x off buf) off buf.
Proof. intros. apply write_existing_blocks_ok; [done|done|lia]. Qed.

(** ** The saved blocks *)

(** The blocks from [i] on that exist in the old file. *)
Fixpoint saved_list f x (old : Z) (i : nat) (bs : list (option bytes)) : list (Z * bytes) :=
  match bs with
  | [] => []
  | b :: bs =>
      let rest := saved_list f x old (S i) bs in
      match b with
      | Some _ => if old <=? Z.of_nat i * block_size x then rest
                  else (Z.of_nat i * block_size x, read_at (Z.of_nat i * block_size x) (block_length x i) f) :: rest
      | None => rest
      end
  end.

Lemma recovery_blocks_saved c x old i bs saved :
  dsize (tc_file c) = old_map_size x → old_map_size x <= tc_map_size c < 2 ^ 32 → 0 < block_size x →
  (∀ j b, bs !! j = Some (Some b) → 0 < block_length x (i + j)) →
  recovery_blocks c x old i bs = Some saved →
  saved = saved_bytes (saved_list (tc_file c) x old i bs)
  ∧ saved_from (tc_file c) (dsize (tc_file c)) (saved_list (tc_file c) x old i bs).
Proof.
  intros Hf Hm Hbs. revert i saved. induction bs as [|b bs IH]; intros i saved Hl; cbn [recovery_blocks saved_list].
  { intros [= <-]. split; [done|constructor]. }
  assert (∀ j b, bs !! j = Some (Some b) → 0 < block_length x (S i + j)) as Hl'.
  { intros j b' Hj. replace (S i + j)%nat with (i + S j)%nat by lia. by eapply Hl. }
  destruct b as [b|]; [|by apply IH]. destruct (_ <=? _); [by apply IH|].
  specialize (Hl 0%nat b eq_refl). rewrite Nat.add_0_r in Hl.
  destruct (Z.ltb_spec (old_map_size x) (Z.of_nat i * block_size x + block_length x i)); [done|].
  rewrite io_read_in by lia. cbn [mbind option_bind]. destruct (recovery_blocks c x old (S i) bs) as [rest|] eqn:E; [|done]. intros [= <-].
  destruct (IH _ _ Hl' E) as [-> Hs]. set (d := read_at _ _ _). assert (dsize d = block_length x i) as Hd by (apply dsize_read; lia). split.
  - by rewrite saved_bytes_cons, Hd.
  - apply Forall_cons. split; [|done]. rewrite Hd. split_and!; try lia. done.
Qed.

(** Their size is what was reserved for them. *)
Lemma saved_list_size f x xr old i bs bsr :
  0 < block_size x → old_map_size xr = old → block_size xr = block_size x → (∀ j, block_length xr j = block_length x j) →
  Forall2 (λ a b, a = None ↔ b = None) bs bsr →
  (∀ j b, bs !! j = Some (Some b) → 0 < block_length x (i + j) ∧
    (Z.of_nat (i + j) * block_size x < old → Z.of_nat (i + j) * block_size x + block_length x (i + j) <= dsize f)) →
  dsize (saved_bytes (saved_list f x old i bs)) = recovery_size_from xr i bsr.
Proof.
  intros Hbs Hold Eb El Hsh. revert i. induction Hsh as [|b br bs bsr Hb Hsh IH]; intros i Hl; cbn [saved_list recovery_size_from]; [done|].
  rewrite Hold, Eb, El. destruct (Z.leb_spec old (Z.of_nat i * block_size x)) as [Hge|Hlt].
  - assert (∀ k bs, (S i <= k)%nat → saved_list f x old k bs = []) as Hn.
    { intros k bs'. revert k. induction bs' as [|[b'|] bs' IHb]; intros k Hk; cbn [saved_list]; [done| |by apply IHb; lia].
      rewrite (proj2 (Z.leb_le _ _)) by nia. apply IHb. lia. }
    destruct b; by rewrite Hn by lia.
  - assert (dsize (saved_bytes (saved_list f x old (S i) bs)) = recovery_size_from xr (S i) bsr) as IH'.
    { apply IH. intros j b' Hj. replace (S i + j)%nat with (i + S j)%nat by lia. by eapply Hl. }
    destruct b as [b|]; [|by rewrite (proj1 Hb eq_refl)]. destruct br as [br|]; [|by pose proof (proj2 Hb eq_refl)].
    destruct (Hl 0%nat b eq_refl) as [H1 H2]. rewrite Nat.add_0_r in *.
    rewrite saved_bytes_cons, !dsize_app, !dsize_le_bytes, IH', dsize_read by lia. lia.
Qed.

(** Every place of a saved block is covered, and nothing else. *)
Lemma saved_list_covered f x old i bs o :
  0 < block_size x →
  (∀ j b, bs !! j = Some (Some b) → 0 < block_length x (i + j) ∧
    (Z.of_nat (i + j) * block_size x < old → Z.of_nat (i + j) * block_size x + block_length x (i + j) <= dsize f)) →
  covered (saved_list f x old i bs) o ↔
  ∃ j b, bs !! j = Some (Some b) ∧ Z.of_nat (i + j) * block_size x < old
    ∧ Z.of_nat (i + j) * block_size x <= o < Z.of_nat (i + j) * block_size x + block_length x (i + j).
Proof.
  intros Hbs. revert i. induction bs as [|b bs IH]; intros i Hl; cbn [saved_list].
  { split; [by intros ?%Exists_nil|]. by intros (j & b & Hj & _). }
  assert (∀ j b, bs !! j = Some (Some b) → 0 < block_length x (S i + j) ∧
    (Z.of_nat (S i + j) * block_size x < old → Z.of_nat (S i + j) * block_size x + block_length x (S i + j) <= dsize f)) as Hl'.
  { intros j b' Hj. replace (S i + j)%nat with (i + S j)%nat by lia. by eapply Hl. }
  specialize (IH (S i) Hl').
  assert (covered (saved_list f x old (S i) bs) o ↔ ∃ j b', (b :: bs) !! S j = Some (Some b') ∧ Z.of_nat (i + S j) * block_size x < old
    ∧ Z.of_nat (i + S j) * block_size x <= o < Z.of_nat (i + S j) * block_size x + block_length x (i + S j)) as IH'.
  { rewrite IH. split; intros (j & b' & Hj); exists j, b'; by replace (i + S j)%nat with (S i + j)%nat in * by lia. }
  clear IH. assert (∀ (P : nat → Prop), (∃ j, P j) ↔ P 0%nat ∨ ∃ j, P (S j)) as Hsplit.
  { intros P. split; [intros [[|j] ?]; [by left|right; by exists j]|]. intros [?|[j ?]]; eexists; done. }
  rewrite (Hsplit (λ j, ∃ b', _ ∧ _)), <- IH'. rewrite Nat.add_0_r. cbn [lookup list_lookup].
  destruct b as [b|]; [destruct (Z.leb_spec old (Z.of_nat i * block_size x)) as [Hge|Hlt]|].
  - split; [by right|]. intros [(b' & _ & ? & _)|?]; [lia|done].
  - destruct (Hl 0%nat b eq_refl) as [H1 H2]. rewrite Nat.add_0_r in *. unfold covered at 1. rewrite Exists_cons. cbn [fst snd].
    rewrite dsize_read by lia. split; (intros [Hr|?]; [left|by right]); [by exists b|]. by destruct Hr as (_ & _ & _ & ?).
  - split; [by right|]. intros [(b' & ? & _)|?]; done.
Qed.

(** ** Freeing the old recovery area *)

(** Like [sees_write], at the end of which the flat file is the one that the flat
    call leaves. *)
Lemma sees_put c x f off buf :
  sees c x f → FREELIST_TOP <= off → off + dsize buf <= dsize f → 0 < dsize buf → table_write c off buf →
  ∃ x' f', transaction_write c x off buf = (true, x') ∧ tdb_write (flat c f) off buf = (true, flat c f') ∧ sees c x' f'
  ∧ tx_params x' = tx_params x ∧ dsize f' = dsize f ∧ head_of f' = head_of f ∧ f' = write_at off buf f.
Proof.
  intros Hs H0 H1 Hl Ht. unfold FREELIST_TOP in H0. pose proof (sees_size _ _ _ Hs). pose proof (ov_size _ _ _ (sees_overlay _ _ _ Hs)).
  destruct (sees_write _ _ _ off buf Hs) as (x' & -> & Hs' & Hp); [lia|lia|done|]. exists x', (write_at off buf f).
  rewrite flat_write by lia. split_and!; try done; [apply dsize_write; lia|].
  unfold head_of, TDB_RECOVERY_HEAD. f_equal. apply read_write_other; lia.
Qed.

Definition tailer_pos (off : Z) (r : tdb_record) : Z := off + (sizeof_rec + rec_len r) - 4.

Lemma txn_update_tailer_ok c x f off r :
  sees c x f → table_end c <= off → is_u32 (rec_len r) → off + 24 + rec_len r <= dsize f →
  ∃ x' f', txn_update_tailer c x off r = (true, x') ∧ update_tailer (flat c f) off r = (true, flat c f') ∧ sees c x' f'
  ∧ tx_params x' = tx_params x ∧ dsize f' = dsize f ∧ head_of f' = head_of f
  ∧ f' = write_at (tailer_pos off r) (le_bytes 4 (sizeof_rec + rec_len r)) f.
Proof.
  intros Hs H0 Hr H1. pose proof (sees_size _ _ _ Hs). pose proof (ov_size _ _ _ (sees_overlay _ _ _ Hs)). pose proof (sees_hash_size _ _ _ Hs).
  unfold txn_update_tailer, update_tailer, txn_ofs_write, tdb_ofs_write, tailer_pos. unfold sizeof_rec, table_end, FREELIST_TOP, is_u32 in *.
  rewrite (u32_id (24 + rec_len r)) by (unfold is_u32; lia). rewrite u32_id by (unfold is_u32; lia).
  apply sees_put; unfold FREELIST_TOP; rewrite ?dsize_le_bytes; [done|lia..|]. left. right. unfold table_end, FREELIST_TOP. lia.
Qed.

(** A record of the free list to the left of [off] ends there. *)
Definition left_tiled c f (off : Z) : Prop :=
  Forall is_u8 (read_at (off - 4) 4 f) ∧ ∀ lft l, left_free (flat c f) off = Some (lft, l) → lft + 24 + rec_len l = off.

Lemma txn_left_free_ok c x f off :
  sees c x f → table_end c <= off → off + 24 <= dsize f → left_tiled c f off →
  txn_left_free c x off = (left_free (flat c f) off, x)
  ∧ ∀ lft l, left_free (flat c f) off = Some (lft, l) → table_end c <= lft < off.
Proof.
  intros Hs H0 H1 [Hu _]. pose proof (sees_size _ _ _ Hs). pose proof (ov_size _ _ _ (sees_overlay _ _ _ Hs)). pose proof (sees_hash_size _ _ _ Hs).
  assert (txn_data_start c = table_end c ∧ TDB_DATA_START (flat c f) = table_end c) as [E1 E2].
  { unfold txn_data_start, TDB_DATA_START, table_end. cbn. lia. }
  unfold txn_left_free, left_free, txn_ofs_read, tdb_ofs_read. rewrite E1, E2. unfold table_end, FREELIST_TOP, sizeof_rec in *.
  rewrite u64_id by (unfold is_u64; lia). destruct (Z.ltb_spec (168 + (tc_hash_size c + 1) * 4) (off - 4)) as [Hd|Hd]; cbn [negb]; [|done].
  rewrite u32_id by (unfold is_u32; lia). rewrite (sees_read _ _ _ _ _ Hs), flat_read by lia. cbn [fmap option_fmap option_map mbind option_bind].
  pose proof (le_val_range _ Hu) as Hr. set (ls := le_val _) in *. destruct ((ls =? 0) || _) eqn:Ez; [done|]. zbool.
  destruct (Z.ltb_spec off ls) as [Hlt|Hge]; cbn [orb]; [done|]. rewrite u32_id by (unfold is_u32; lia).
  destruct (Z.ltb_spec (off - ls) (168 + (tc_hash_size c + 1) * 4)) as [Hl|Hl]; [done|].
  rewrite (sees_read _ _ _ _ _ Hs), flat_read by lia. cbn [mbind option_bind].
  split; [by destruct (_ =? _)|]. intros lft l. destruct (_ =? _); [|done]. intros [= <- _]. lia.
Qed.

Lemma txn_free_ok c x f off r :
  sees c x f → table_end c <= off → rec_ok r → off + 24 + rec_len r <= dsize f →
  left_tiled c (write_at (tailer_pos off r) (le_bytes 4 (sizeof_rec + rec_len r)) f) off →
  ∃ x' f', txn_free c x off r = (true, x') ∧ tdb_free true (flat c f) off r = (true, flat c f') ∧ sees c x' f'
  ∧ tx_params x' = tx_params x ∧ dsize f' = dsize f ∧ head_of f' = head_of f.
Proof.
  intros Hs H0 Hr H1 Hl. pose proof (sees_size _ _ _ Hs). pose proof (ov_size _ _ _ (sees_overlay _ _ _ Hs)). pose proof (sees_hash_size _ _ _ Hs).
  pose proof (rec_ok_len _ Hr) as Hrl. unfold txn_free, tdb_free. cbn [tdb_lock]. cbn [negb].
  destruct (txn_update_tailer_ok _ _ _ off r Hs) as (x1 & f1 & -> & -> & Hs1 & Hp1 & Hz1 & Hh1 & E1); [done..|]. cbn [negb]. rewrite <- E1 in Hl.
  unfold is_u32 in Hrl. destruct (txn_left_free_ok _ _ _ off Hs1) as [-> Hlt]; [done|lia|done|].
  destruct (left_free (flat c f1) off) as [[lft l]|] eqn:El.
  - destruct (Hlt _ _ eq_refl) as [Ht Hlo]. pose proof (proj2 Hl _ _ El) as Hsum.
    set (l' := set_rec_len l _).
    assert (rec_len l' = rec_len l + (24 + rec_len r)) as El' by (apply u32_id; unfold is_u32, sizeof_rec, table_end, FREELIST_TOP in *; lia).
    destruct (sees_put c x1 f1 lft (rec_bytes l')) as (x2 & f2 & -> & E2 & Hs2 & Hp2 & Hz2 & Hh2 & _);
      [done|unfold table_end, FREELIST_TOP in *; lia|rewrite dsize_rec_bytes; lia|by rewrite dsize_rec_bytes|left; right; done|].
    unfold tdb_rec_write. rewrite E2. cbn [negb].
    destruct (txn_update_tailer_ok _ _ _ lft l' Hs2) as (x3 & f3 & -> & -> & Hs3 & Hp3 & Hz3 & Hh3 & _); [done|unfold is_u32, table_end, FREELIST_TOP in *; lia|lia|].
    exists x3, f3. split_and!; try done; congruence.
  - unfold txn_ofs_read, tdb_ofs_read. unfold table_end, FREELIST_TOP in H0.
    rewrite (sees_read _ _ _ _ _ Hs1), flat_read by (unfold FREELIST_TOP; lia). cbn [fmap option_fmap option_map mbind option_bind].
    destruct (sees_put c x1 f1 off (rec_bytes (set_next (set_magic r TDB_FREE_MAGIC) (le_val (read_at FREELIST_TOP 4 f1))))) as (x2 & f2 & -> & E2 & Hs2 & Hp2 & Hz2 & Hh2 & _);
      [done|unfold FREELIST_TOP in *; lia|rewrite dsize_rec_bytes; lia|by rewrite dsize_rec_bytes|left; right; unfold table_end, FREELIST_TOP; lia|].
    unfold tdb_rec_write. rewrite E2. cbn [negb]. unfold txn_ofs_write, tdb_ofs_write.
    destruct (sees_put c x2 f2 FREELIST_TOP (le_bytes 4 off)) as (x3 & f3 & -> & -> & Hs3 & Hp3 & Hz3 & Hh3 & _);
      [done|done|rewrite dsize_le_bytes; unfold FREELIST_TOP; lia|by rewrite dsize_le_bytes|right; rewrite dsize_le_bytes; split; [done|]; exists 0; lia|].
    exists x3, f3. split_and!; try done; congruence.
Qed.

(** ** What a step does to the file *)

Record runs c (log : list disk_op) c' : Prop := {
  rn_file : tc_file c' = apply_ops log (tc_file c);
  rn_log : tc_log c' = tc_log c ++ log;
  rn_nosync : tc_nosync c' = tc_nosync c;
  rn_rw : tc_read_only c' = tc_read_only c;
}.
Lemma runs_same c c' :
  tc_file c' = tc_file c → tc_log c' = tc_log c → tc_nosync c' = tc_nosync c → tc_read_only c' = tc_read_only c → runs c [] c'.
Proof. intros. split; rewrite ?app_nil_r; done. Qed.
Lemma runs_trans c l1 c1 l2 c2 : runs c l1 c1 → runs c1 l2 c2 → runs c (l1 ++ l2) c2.
Proof.
  intros [F1 L1 N1 R1] [F2 L2 N2 R2]. split; [|by rewrite L2, L1, app_assoc|congruence..].
  rewrite F2, F1. unfold apply_ops. by rewrite foldl_app.
Qed.
Lemma runs_ask c ok c' : tc_ask c = (ok, c') → runs c [] c' ∧ tc_map_size c' = tc_map_size c ∧ tc_transaction c' = tc_transaction c ∧ (tc_env c = [] → ok = true ∧ tc_env c' = []).
Proof.
  unfold tc_ask. destruct (tc_env c) eqn:E; intros [= <- <-]; (split; [by apply runs_same|]); cbn; by rewrite ?E.
Qed.
Lemma runs_write c off buf :
  tc_read_only c = false → 0 <= off → 0 < dsize buf → off + dsize buf <= dsize (tc_file c) → off + dsize buf <= tc_map_size c < 2 ^ 32 →
  ∃ c', io_write c off buf = (true, c') ∧ runs c [DWrite off buf] c' ∧ tc_map_size c' = tc_map_size c ∧ tc_transaction c' = tc_transaction c ∧ tc_env c' = tc_env c.
Proof.
  intros Hr H0 Hl Hs Hm. unfold io_write, transaction_oob. rewrite Hr, u32_id by (unfold is_u32; lia).
  rewrite (proj2 (Z.eqb_neq _ _)) by lia. rewrite !(proj2 (Z.leb_le _ _)) by lia. by eexists.
Qed.
Lemma runs_sync c ok c' :
  transaction_sync c = (ok, c') → tc_nosync c = false →
  runs c (if ok then [DSync] else []) c' ∧ tc_map_size c' = tc_map_size c ∧ tc_transaction c' = tc_transaction c ∧ (tc_env c = [] → ok = true ∧ tc_env c' = []).
Proof.
  unfold transaction_sync. intros H Hns. rewrite Hns in H. destruct (tc_ask c) as [b c1] eqn:E. apply runs_ask in E as ([F L N R] & Hm & Ht & He).
  destruct b; injection H as <- <-; [|by split].
  split; [|by rewrite <- Hm]. split; cbn [tc_file tc_log set_tc_file tc_nosync tc_read_only]; try done.
  by rewrite L, app_nil_r.
Qed.
Lemma runs_expand c size n ok c' :
  io_expand_file c size n = (ok, c') → tc_read_only c = false →
  runs c (if ok then [DExpand size n] else []) c' ∧ tc_map_size c' = tc_map_size c ∧ tc_transaction c' = tc_transaction c ∧ (tc_env c = [] → ok = true ∧ tc_env c' = []).
Proof.
  unfold io_expand_file. intros H Hr. rewrite Hr in H. destruct (tc_ask c) as [b c1] eqn:E. apply runs_ask in E as ([F L N R] & Hm & Ht & He).
  destruct b; injection H as <- <-; [|by split].
  split; [|by rewrite <- Hm]. split; cbn [tc_file tc_log set_tc_file tc_nosync tc_read_only]; try done.
  - by rewrite F.
  - by rewrite L, app_nil_r.
Qed.
Lemma dsize_grow n f : 0 <= n → dsize (grow (dsize f) n f) = dsize f + n.
Proof. intros. unfold grow. rewrite dsize_app, dsize_replicate by done. unfold dsize. rewrite Nat2Z.id, firstn_all. done. Qed.
Lemma byte_grow n f o : 0 <= o → byte_at (grow (dsize f) n f) o = if decide (o < dsize f) then byte_at f o else byte_at (replicate (Z.to_nat n) TDB_PAD_BYTE) (o - dsize f).
Proof. intros. unfold grow. replace (take _ f) with f by (unfold dsize; by rewrite Nat2Z.id, firstn_all). by rewrite byte_at_app. Qed.

(** ** The state in which a transaction is committed *)

(** The recovery area at [h], if there is one, lies between the records of the
    file and carries no mark. *)
Record area_ready c f (h : Z) : Prop := {
  ar_start : table_end c <= h;
  ar_aligned : h mod 4 = 0;
  ar_end : h + 24 <= dsize (tc_file c);
  ar_unmarked : magic (rec_at (tc_file c) h) ≠ TDB_RECOVERY_MAGIC;
  ar_rec : rec_ok (rec_at (tc_file c) h);
  ar_area : magic (rec_at (tc_file c) h) = TDB_RECOVERY_INVALID_MAGIC →
    h + 24 + rec_len (rec_at (tc_file c) h) <= dsize (tc_file c)
    ∧ left_tiled c (write_at (tailer_pos h (rec_at (tc_file c) h)) (le_bytes 4 (sizeof_rec + rec_len (rec_at (tc_file c) h))) f) h;
}.

Record commit_ready c x f : Prop := {
  cr_sees : sees c x f;
  cr_table : table_end c <= dsize (tc_file c);
  cr_sync : tc_nosync c = false;
  cr_magic : magic_offset x = 0;
  cr_nesting : nesting x = 0;
  cr_head : read_at TDB_RECOVERY_HEAD 4 f = read_at TDB_RECOVERY_HEAD 4 (tc_file c);
  cr_head_bytes : Forall is_u8 (read_at TDB_RECOVERY_HEAD 4 (tc_file c));
  cr_aligned : tc_map_size c mod 4 = 0;
  cr_page : 0 < tc_page_size c;
  cr_area : head_of (tc_file c) = 0 ∨ area_ready c f (head_of (tc_file c));
}.

(** The part of the old file that belongs to the recovery area. *)
Definition reserved f (o : Z) : Prop :=
  in_head o ∨ head_of f ≠ 0 ∧ magic (rec_at f (head_of f)) = TDB_RECOVERY_INVALID_MAGIC
    ∧ in_area (head_of f) (24 + rec_len (rec_at f (head_of f))) o.

Lemma le_bytes_val n l : Forall is_u8 l → length l = n → le_bytes n (le_val l) = l.
Proof.
  intros Hl. revert n. induction Hl as [|b l Hb _ IH]; intros [|n] [=]; [done|]. cbn [le_bytes le_val]. unfold is_u8 in Hb.
  rewrite (Z.mul_comm 256), Z.mod_add, Z.div_add, Z.mod_small, Z.div_small by lia. f_equal. by apply IH.
Qed.

Section allocate.
Context c x f (Hr : commit_ready c x f).
#[local] Abbreviation f0 := (tc_file c).
#[local] Abbreviation old := (old_map_size x).

(** What [tdb_recovery_allocate] leaves: an area of [mx] bytes at [ro]. *)
Record allocated (log : list disk_op) (rs ro mx : Z) x' c' f' : Prop := {
  al_runs : runs c log c';
  al_env : tc_env c = [] → tc_env c' = [];
  al_log : log = [] ∧ ro = head_of f0 ∧ head_of f0 ≠ 0 ∧ tc_map_size c' = tc_map_size c
    ∨ ∃ n, 0 <= n ∧ log = [DExpand old n; DWrite TDB_RECOVERY_HEAD (le_bytes 4 ro)] ∧ old + n = tc_map_size c' ∧ old_map_size x' = tc_map_size c';
  al_place : ro = head_of f0 ∧ head_of f0 ≠ 0 ∧ magic (rec_at f0 ro) = TDB_RECOVERY_INVALID_MAGIC
      ∧ (∀ o, ro <= o < tc_map_size c → o < ro + 24 + mx → reserved f0 o)
    ∨ tc_map_size c <= ro;
  al_size : dsize (tc_file c') = old_map_size x';
  al_map_size : tc_map_size c <= tc_map_size c' < 2 ^ 32;
  al_old : old <= old_map_size x' <= tc_map_size c';
  al_start : table_end c <= ro;
  al_aligned : ro mod 4 = 0;
  al_fit : ro + 24 + mx <= old_map_size x' ∧ rs <= mx;
  al_mx : 0 <= mx;
  al_blocks : blocks_ok (tc_map_size c') x';
  al_need : ∃ xr, rs = tdb_recovery_size xr ∧ old_map_size xr = old ∧ block_size xr = block_size x' ∧ (∀ j, block_length xr j = block_length x' j)
    ∧ Forall2 (λ a b, a = None ↔ b = None) (blocks x') (blocks xr);
  al_head : read_at TDB_RECOVERY_HEAD 4 (tc_file c') = le_bytes 4 ro;
  al_head_blocks o : in_head o → is_Some (bbyte x' o) → bbyte x' o = byte_at (le_bytes 4 ro) (o - TDB_RECOVERY_HEAD);
  al_magic : magic_offset x' = 0;
  al_nesting : nesting x' = 0;
  al_block_size : block_size x' = block_size x;
  al_seen : dsize f' = tc_map_size c;
  al_view o : 0 <= o < dsize f' → ¬ in_head o → bbyte x' o = byte_at f' o ∨ bbyte x' o = None ∧ o < old ∧ byte_at f0 o = byte_at f' o;
  al_freed : f' = f ∨ head_of f0 ≠ 0 ∧ tdb_free true (flat c f) (head_of f0) (rec_at f0 (head_of f0)) = (true, flat c f');
}.
#[local] Abbreviation h0 := (head_of (tc_file c)).

Lemma ready_sizes : table_end c <= dsize f ∧ 168 < table_end c ∧ dsize f = tc_map_size c ∧ dsize f0 = old ∧ old <= tc_map_size c < 2 ^ 32.
Proof.
  pose proof (cr_sees _ _ _ Hr) as Hs. pose proof (sees_overlay _ _ _ Hs) as Ho. pose proof (ov_size _ _ _ Ho). pose proof (sees_hash_size _ _ _ Hs).
  pose proof (sees_table _ _ _ Hs). split_and!; try lia; [unfold table_end, FREELIST_TOP; lia|by apply sees_size in Hs|apply (ov_file _ _ _ Ho)].
Qed.

Lemma recovery_area_ok :
  ∃ h r, tdb_recovery_area c x = (Some (h, r), x)
  ∧ (h = 0 ∨ h = h0 ∧ h0 ≠ 0 ∧ area_ready c f h0 ∧ r = rec_at f0 h0 ∧ magic r = TDB_RECOVERY_INVALID_MAGIC).
Proof.
  destruct ready_sizes as (H1 & H2 & H3 & H4 & H5). unfold tdb_recovery_area, txn_ofs_read.
  rewrite (sees_read _ _ _ _ _ (cr_sees _ _ _ Hr)) by (unfold TDB_RECOVERY_HEAD; lia). cbn [fmap option_fmap option_map].
  rewrite (cr_head _ _ _ Hr). fold h0. destruct (Z.eqb_spec h0 0) as [E|E]; [by eexists _, _; split; [done|left]|].
  destruct (cr_area _ _ _ Hr) as [|Ha]; [done|]. rewrite io_read_in by (pose proof (ar_start _ _ _ Ha); pose proof (ar_end _ _ _ Ha); unfold sizeof_rec; lia).
  fold (rec_at f0 h0). rewrite (proj2 (Z.eqb_neq _ _)) by apply (ar_unmarked _ _ _ Ha). cbn [negb andb].
  destruct (Z.eqb_spec (magic (rec_at f0 h0)) TDB_RECOVERY_INVALID_MAGIC) as [Em|Em]; cbn [negb]; eexists _, _; (split; [done|]); [right|by left].
  done.
Qed.

(** The file after the head of the recovery area has been written. *)
Lemma extended_file n ro :
  0 <= n →
  let f2 := apply_ops [DExpand old n; DWrite TDB_RECOVERY_HEAD (le_bytes 4 ro)] f0 in
  dsize f2 = old + n ∧ read_at TDB_RECOVERY_HEAD 4 f2 = le_bytes 4 ro
  ∧ ∀ o, 0 <= o → ¬ in_head o → byte_at f2 o = byte_at (grow old n f0) o.
Proof.
  intros Hn f2. destruct ready_sizes as (H1 & H2 & H3 & H4 & H5).
  pose proof (cr_table _ _ _ Hr) as Hte.
  assert (dsize (grow old n f0) = old + n) as Hg by (rewrite <- H4; by apply dsize_grow).
  unfold f2. cbn [apply_ops foldl apply_op]. unfold TDB_RECOVERY_HEAD. split_and!.
  - rewrite dsize_write; rewrite ?dsize_le_bytes; lia.
  - change 4 with (dsize (le_bytes 4 ro)) at 1. apply read_write_same; rewrite ?dsize_le_bytes; lia.
  - intros o Ho Hnh. rewrite byte_write; rewrite ?dsize_le_bytes; [|lia..]. rewrite decide_False; [done|]. unfold in_head, TDB_RECOVERY_HEAD in Hnh. lia.
Qed.

Definition too_big (x1 : tdb_transaction) (ro : Z) : Prop :=
  expand_overflows (tc_map_size c) (tdb_recovery_size x1) (tc_page_size c) = true
  ∨ 2 ^ 32 <= ro + tdb_expand_adjust (tc_map_size c) (tdb_recovery_size x1) (tc_page_size c).

(** Where the area may be extended: at the end of the file. *)
Definition at_end (x1 : tdb_transaction) (ro : Z) : Prop :=
  ro = tc_map_size c
  ∨ ro = h0 ∧ h0 ≠ 0 ∧ area_ready c f h0 ∧ magic (rec_at f0 h0) = TDB_RECOVERY_INVALID_MAGIC
    ∧ rec_len (rec_at f0 h0) < tdb_recovery_size x1 ∧ h0 + 24 + rec_len (rec_at f0 h0) = tc_map_size c.

Lemma recovery_size_pos x1 : blocks_ok (tc_map_size c) x1 → 4 <= tdb_recovery_size x1.
Proof.
  intros Hb. unfold tdb_recovery_size. assert (0 <= recovery_size_from x1 0 (blocks x1)); [|lia].
  assert (∀ bs i, (∀ j b, bs !! j = Some (Some b) → 0 < block_length x1 (i + j)) → 0 <= recovery_size_from x1 i bs) as H.
  { induction bs as [|b bs IH]; intros i Hl; cbn [recovery_size_from]; [done|]. case_match; [done|].
    specialize (IH (S i)). assert (0 <= recovery_size_from x1 (S i) bs).
    { apply IH. intros j b' Hj. replace (S i + j)%nat with (i + S j)%nat by lia. by eapply Hl. }
    destruct b as [b|]; [|lia]. specialize (Hl 0%nat b eq_refl). rewrite Nat.add_0_r in Hl. lia. }
  apply H. intros j b Hj. destruct (bk_blocks _ _ Hb j b Hj) as (_ & [? _] & _). done.
Qed.

(** The blocks after the head of the recovery area has been written to them. *)
Lemma extended_blocks x1 f1 ro size :
  sees c x1 f1 → old_map_size x1 = old → tc_map_size c <= size →
  let x3 := transaction_write_existing (set_old_map_size x1 size) TDB_RECOVERY_HEAD (le_bytes 4 ro) in
  blocks_ok size x3
  ∧ tx_params x3 = tx_params (set_old_map_size x1 size)
  ∧ (∀ j, block_length x1 j = block_length x3 j) ∧ Forall2 (λ a b, a = None ↔ b = None) (blocks x3) (blocks x1)
  ∧ (∀ o, in_head o → is_Some (bbyte x3 o) → bbyte x3 o = byte_at (le_bytes 4 ro) (o - TDB_RECOVERY_HEAD))
  ∧ ∀ o, 0 <= o < dsize f1 → ¬ in_head o → bbyte x3 o = byte_at f1 o ∨ bbyte x3 o = None ∧ o < old ∧ byte_at f0 o = byte_at f1 o.
Proof.
  intros Hs Eold Hsz x3. pose proof (sees_overlay _ _ _ Hs) as Ho. pose proof (overlay_blocks _ _ _ Ho) as Hb.
  destruct (write_existing_ok size (set_old_map_size x1 size) TDB_RECOVERY_HEAD (le_bytes 4 ro)) as (Hbk & Hsh & Hov); [|done|].
  { eapply blocks_ok_mono; [split; [apply (bk_size _ _ Hb)|apply (bk_blocks _ _ Hb)]|lia]. }
  fold x3 in Hbk, Hsh, Hov. split; [done|]. split; [apply Hsh|]. split; [intros j; by rewrite (shape_length _ _ j Hsh)|].
  split; [exact (shape_forall2 _ _ Hsh)|]. unfold overwritten in Hov. rewrite dsize_le_bytes in Hov. unfold in_head, TDB_RECOVERY_HEAD in *. split.
  - intros o Hh. rewrite Hov by lia. case_decide as Hd; [done|]. intros Hi. tauto.
  - intros o Hr' Hnh. rewrite Hov by lia. rewrite decide_False by lia. change (bbyte (set_old_map_size x1 size) o) with (bbyte x1 o).
    rewrite <- (sees_bytes _ _ _ Hs o Hr'), <- Eold. apply (overlay_bbyte _ _ _ _ Ho). pose proof (sees_size _ _ _ Hs). lia.
Qed.

Lemma recovery_extend_ok x1 f1 ro :
  sees c x1 f1 → tx_params x1 = tx_params x → at_end x1 ro →
  (f1 = f ∨ h0 ≠ 0 ∧ tdb_free true (flat c f) h0 (rec_at f0 h0) = (true, flat c f1)) →
  match recovery_extend c x1 (tdb_recovery_size x1) ro with
  | (Some (rs, ro', mx), x', c') => ro' = ro ∧ ∃ log, allocated log rs ro mx x' c' f1
  | (None, x', c') => x' = x1 ∧ runs c [] c' ∧ (tc_env c = [] → too_big x1 ro)
  end.
Proof.
  intros Hs1 Hp Hend Hfr. destruct ready_sizes as (H1 & H2 & H3 & H4 & H5). pose proof (sees_overlay _ _ _ Hs1) as Ho1.
  pose proof (dsize_nonneg f0). pose proof (overlay_blocks _ _ _ Ho1) as Hb1. pose proof (recovery_size_pos _ Hb1) as Hrs. unfold recovery_extend, too_big.
  assert (block_size x1 = block_size x ∧ old_map_size x1 = old ∧ magic_offset x1 = 0 ∧ nesting x1 = 0) as (Ebs & Eold & Emg & Ens).
  { pose proof (cr_magic _ _ _ Hr). pose proof (cr_nesting _ _ _ Hr). injection Hp. intros. split_and!; congruence. }
  set (rs := tdb_recovery_size x1) in *. destruct (expand_overflows _ _ _) eqn:Eov; cbn [orb].
  { split_and!; [done|by apply runs_same|by left]. }
  set (size := tdb_expand_adjust _ _ _). destruct (Z.leb_spec (2 ^ 32) (ro + size)) as [Hbig|Hbig].
  { split_and!; [done|by apply runs_same|by right]. }
  destruct (expand_adjust_size (tc_map_size c) rs (tc_page_size c)) as [Hsz _]; [apply (cr_page _ _ _ Hr)|lia|lia|done|]. fold size in Hsz.
  assert (table_end c <= ro ∧ ro mod 4 = 0 ∧ tc_map_size c <= ro + size) as (Hro & Hal & Hms).
  { destruct Hend as [->|(-> & _ & Ha & _ & Hl & He)]; [pose proof (cr_aligned _ _ _ Hr); split_and!; lia|]. split; [apply Ha|]. split; [apply Ha|]. lia. }
  rewrite (u32_id (size - sizeof_rec)) by (unfold is_u32, sizeof_rec; lia). rewrite (u32_id (ro + _ + _)) by (unfold is_u32, sizeof_rec; lia).
  replace (ro + sizeof_rec + (size - sizeof_rec)) with (ro + size) by lia. rewrite Eold. rewrite (u32_id (ro + size - old)) by (unfold is_u32; lia).
  set (n := ro + size - old). destruct (io_expand_file c old n) as [ok c1] eqn:Ee.
  apply runs_expand in Ee as (Hrun & Hm & Ht & He); [|apply (sees_rw _ _ _ Hs1)]. destruct ok; cbn [negb].
  2:{ split_and!; [done|done|]. intros E. by destruct (He E). }
  assert (0 <= n) as Hn by lia. destruct (extended_file n ro Hn) as (Hd2 & Hh2 & Hb2).
  pose proof (rn_file _ _ _ Hrun) as Hf1. cbn [apply_ops foldl apply_op] in Hf1.
  assert (dsize (tc_file c1) = old + n) as Hd1 by (rewrite Hf1; rewrite <- H4; by apply dsize_grow).
  destruct (runs_write (io_probe c1) TDB_RECOVERY_HEAD (le_bytes 4 ro)) as (c2 & -> & Hw & Hm2 & _ & He2);
    try (cbn [io_probe tc_file set_tc_map_size tc_map_size tc_read_only]; rewrite ?dsize_le_bytes; unfold TDB_RECOVERY_HEAD; lia).
  { cbn. rewrite (rn_rw _ _ _ Hrun). apply (sees_rw _ _ _ Hs1). }
  cbn [negb]. split; [done|]. exists [DExpand old n; DWrite TDB_RECOVERY_HEAD (le_bytes 4 ro)].
  change (tc_map_size (io_probe c1)) with (dsize (tc_file c1)) in *. rewrite Hd1 in *.
  assert (runs c [DExpand old n; DWrite TDB_RECOVERY_HEAD (le_bytes 4 ro)] c2) as Hrun2.
  { apply (runs_trans c [DExpand old n] c1 [DWrite TDB_RECOVERY_HEAD (le_bytes 4 ro)] c2); [done|]. by destruct Hw. }
  destruct (extended_blocks x1 f1 ro (old + n) Hs1 Eold) as (Hbk & Hp3 & Hlen & Hsh & Hhb & Hv); [lia|].
  set (x3 := transaction_write_existing _ _ _) in *. rewrite <- (rn_file _ _ _ Hrun2) in *.
  assert (old_map_size x3 = old + n ∧ block_size x3 = block_size x1 ∧ magic_offset x3 = 0 ∧ nesting x3 = 0) as (E1 & E2 & E3 & E4).
  { injection Hp3. intros. split_and!; try done; congruence. }
  split; rewrite ?E1, ?E2, ?E3, ?E4; try done; try lia.
  - rewrite He2. intros E. by apply He.
  - right. exists n. split_and!; done || lia.
  - destruct Hend as [->|(-> & Hne & Ha & Hmg & Hl & He')]; [right; lia|left]. split_and!; try done. intros o Hro' _. right. split_and!; try done.
    unfold in_area. lia.
  - unfold sizeof_rec. lia.
  - unfold sizeof_rec. lia.
  - by rewrite Hm2.
  - by exists x1.
  - apply (sees_size _ _ _ Hs1).
Qed.

Lemma head_bytes : read_at TDB_RECOVERY_HEAD 4 f0 = le_bytes 4 h0.
Proof.
  destruct ready_sizes as (H1 & H2 & H3 & H4 & H5). pose proof (cr_table _ _ _ Hr). symmetry. apply le_bytes_val; [apply (cr_head_bytes _ _ _ Hr)|].
  assert (dsize (read_at TDB_RECOVERY_HEAD 4 f0) = 4) as E by (apply dsize_read; unfold TDB_RECOVERY_HEAD; lia). unfold dsize in E. lia.
Qed.

Lemma recovery_reuse_ok :
  h0 ≠ 0 → area_ready c f h0 → magic (rec_at f0 h0) = TDB_RECOVERY_INVALID_MAGIC → tdb_recovery_size x <= rec_len (rec_at f0 h0) →
  allocated [] (tdb_recovery_size x) h0 (rec_len (rec_at f0 h0)) x c f.
Proof.
  intros Hne Ha Hmg Hfit. destruct ready_sizes as (H1 & H2 & H3 & H4 & H5). pose proof (sees_overlay _ _ _ (cr_sees _ _ _ Hr)) as Ho.
  destruct (ar_area _ _ _ Ha Hmg) as [He _]. pose proof (ar_start _ _ _ Ha). pose proof (ar_aligned _ _ _ Ha). pose proof (ar_end _ _ _ Ha).
  split; try done; try lia; [by apply runs_same|by left| | | | |by apply head_bytes| |by apply (cr_magic _ _ _ Hr)|by apply (cr_nesting _ _ _ Hr)| |by left].
  - left. split_and!; try done. intros o Ho1 Ho2. right. split_and!; try done. unfold in_area. lia.
  - pose proof (recovery_size_pos x (overlay_blocks _ _ _ Ho)). lia.
  - by apply overlay_blocks in Ho.
  - exists x. split_and!; try done. by apply (shape_forall2 x x).
  - intros o Hh Hs. unfold in_head, TDB_RECOVERY_HEAD in Hh. destruct (overlay_bbyte _ _ _ o Ho) as [->|[E _]]; [lia| |rewrite E in Hs; by destruct Hs].
    rewrite (sees_bytes _ _ _ (cr_sees _ _ _ Hr)) by lia. rewrite <- head_bytes, <- (cr_head _ _ _ Hr).
    unfold TDB_RECOVERY_HEAD. rewrite byte_read by lia. f_equal. lia.
  - intros o Hr' _. rewrite <- (sees_bytes _ _ _ (cr_sees _ _ _ Hr)) by lia. apply (overlay_bbyte _ _ _ _ Ho). lia.
Qed.

Lemma recovery_allocate_ok :
  match tdb_recovery_allocate c x with
  | (Some (rs, ro, mx), x', c') => ∃ log f', allocated log rs ro mx x' c' f'
  | (None, x', c') => tx_params x' = tx_params x ∧ runs c [] c' ∧ (tc_env c = [] → h0 = 0 → too_big x (tc_map_size c))
  end.
Proof.
  destruct ready_sizes as (H1 & H2 & H3 & H4 & H5). pose proof (cr_sees _ _ _ Hr) as Hs. unfold tdb_recovery_allocate.
  destruct recovery_area_ok as (h & r & -> & Hh).
  destruct (Z.eqb_spec h 0) as [->|Hne]; cbn [negb andb orb].
  { pose proof (recovery_extend_ok x f (tc_map_size c) Hs) as H. destruct (recovery_extend _ _ _ _) as [[[[[rs ro] mx]|] x'] c'].
    - destruct H as [-> [log Hl]]; [done|by left|by left|by eexists _, _].
    - destruct H as (-> & Hrun & Hb); [done|by left|by left|]. split_and!; [done|done|auto]. }
  destruct Hh as [->|(-> & Hn0 & Ha & -> & Hmg)]; [done|]. destruct (ar_area _ _ _ Ha Hmg) as [Hin Htile].
  destruct (Z.leb_spec (tdb_recovery_size x) (rec_len (rec_at f0 h0))) as [Hfit|Hfit].
  { by eexists _, _; apply recovery_reuse_ok. }
  unfold sizeof_rec. destruct (Z.eqb_spec (h0 + 24 + rec_len (rec_at f0 h0)) (tc_map_size c)) as [Hend|Hend]; cbn [negb].
  - pose proof (recovery_extend_ok x f h0 Hs) as H. destruct (recovery_extend _ _ _ _) as [[[[[rs ro] mx]|] x'] c'].
    + destruct H as [-> [log Hl]]; [done|by right|by left|by eexists _, _].
    + destruct H as (-> & Hrun & Hb); [done|by right|by left|]. split_and!; [done|done|by intros _ ?].
  - destruct (txn_free_ok c x f h0 (rec_at f0 h0)) as (x1 & f1 & -> & Hfree & Hs1 & Hp1 & _ & Hhd); [done|apply Ha|apply Ha|lia|done|]. cbn [negb].
    pose proof (recovery_extend_ok x1 f1 (tc_map_size c) Hs1) as H. destruct (recovery_extend _ _ _ _) as [[[[[rs ro] mx]|] x'] c'].
    + destruct H as [-> [log Hl]]; [done|by left|by right|by eexists _, _].
    + destruct H as (-> & Hrun & Hb); [done|by left|by right|]. split_and!; [done|done|by intros _ ?].
Qed.
End allocate.

(** ** Atomicity *)

(** The next process finds the old content or the new content [fe], and no mark. *)
Definition restored f0 f : Prop :=
  dsize f0 <= dsize f ∧ ∀ o, 0 <= o < dsize f0 → ¬ reserved f0 o → byte_at f o = byte_at f0 o.
Definition atomic c f0 fe f : Prop :=
  ∃ c', tdb_transaction_recover (reopen c f) = (true, c') ∧ tdb_needs_recovery c' = false
  ∧ (restored f0 (tc_file c') ∨ agree (in_area (head_of fe + 20) 4) (tc_file c') fe).

(** A run of operations that all keep [Q], on a file of at least [m] bytes. *)
Fixpoint keeps (Q : bytes → Prop) (m : Z) (cur : bytes) (log : list disk_op) : Prop :=
  match log with
  | [] => True
  | op :: log => Q (apply_op op cur) ∧ m <= dsize (apply_op op cur) < 2 ^ 32 ∧ keeps Q m (apply_op op cur) log
  end.
Lemma safe_keeps (G Q : bytes → Prop) m seen cur log :
  (∀ seen cur f, (∀ s, s ∈ seen → Q s) → Q cur → m <= dsize cur < 2 ^ 32 → torn seen cur f → G f) →
  (∀ s, s ∈ seen → Q s) → Q cur → m <= dsize cur < 2 ^ 32 → keeps Q m cur log →
  safe G seen cur log ∧ (∀ s, s ∈ since_sync seen cur log → Q s) ∧ Q (apply_ops log cur) ∧ m <= dsize (apply_ops log cur) < 2 ^ 32.
Proof.
  intros HG. revert seen cur. induction log as [|op log IH]; intros seen cur Hs Hc Hm Hk.
  { split; [|by split]. apply safe_nil. intros f. by apply HG. }
  destruct Hk as (Hq & Hm' & Hk).
  assert (∀ s, s ∈ (match op with DSync => [cur] | _ => apply_op op cur :: seen end) → Q s) as Hs'.
  { intros s Hin. destruct op; [| |by apply list_elem_of_singleton in Hin as ->]; (apply elem_of_cons in Hin as [->|?]; [done|by apply Hs]). }
  destruct (IH _ _ Hs' Hq Hm' Hk) as (I1 & I2 & I3). split; [apply safe_op; [intros f; by apply HG|done]|].
  split; [|done]. destruct op; exact I2.
Qed.
Lemma safe_prefix G seen cur l1 l2 : safe G seen cur (l1 ++ l2) → safe G seen cur l1.
Proof.
  intros H n f Ht. apply (H (min n (length l1)) f). rewrite take_app_le by lia.
  destruct (decide (n <= length l1)%nat); [by rewrite Nat.min_l|]. rewrite Nat.min_r by lia. rewrite firstn_all. by rewrite take_ge in Ht by lia.
Qed.
Lemma safe_end G seen cur l f : safe G seen cur l → torn (since_sync seen cur l) (apply_ops l cur) f → G f.
Proof. intros H Ht. apply (H (length l)). by rewrite firstn_all. Qed.
Lemma safe_sync G seen cur l1 l2 :
  safe G seen cur l1 → safe G [apply_ops l1 cur] (apply_ops l1 cur) l2 → safe G seen cur (l1 ++ DSync :: l2).
Proof. intros H1 H2. apply safe_app; [done|]. apply safe_op; [|done]. intros f. by apply safe_end. Qed.

Lemma magic_word s h : 0 <= h → h + 24 <= dsize s → magic (rec_at s h) = le_val (read_at (h + 20) 4 s).
Proof. intros. rewrite magic_at, read_read by lia. done. Qed.

Section setup.
Context c x f (Hr : commit_ready c x f) log (rs ro mx : Z) x1 c1 f1 (A : allocated c x f log rs ro mx x1 c1 f1).
#[local] Abbreviation f0 := (tc_file c).
#[local] Abbreviation old := (old_map_size x).
#[local] Abbreviation h0 := (head_of (tc_file c)).
#[local] Abbreviation g := (tc_file c1).

Definition heads : list Z := ro :: (if decide (h0 = 0) then [] else [h0]).
Lemma elem_of_heads h : h ∈ heads ↔ h = ro ∨ h = h0 ∧ h0 ≠ 0.
Proof. unfold heads. case_decide; rewrite !elem_of_cons, elem_of_nil; tauto. Qed.

Lemma setup_sizes : 168 < table_end c ∧ table_end c <= ro ∧ table_end c <= old ∧ dsize f0 = old ∧ old <= tc_map_size c < 2 ^ 32
  ∧ dsize g = old_map_size x1 ∧ old <= dsize g < 2 ^ 32 ∧ ro + 24 + mx <= dsize g ∧ rs <= mx ∧ (h0 ≠ 0 → table_end c <= h0 ∧ h0 + 24 <= old).
Proof.
  destruct (ready_sizes _ _ _ Hr) as (H1 & H2 & H3 & H4 & H5). pose proof (cr_table _ _ _ Hr). pose proof (al_start _ _ _ _ _ _ _ _ _ _ A).
  pose proof (al_size _ _ _ _ _ _ _ _ _ _ A). pose proof (al_map_size _ _ _ _ _ _ _ _ _ _ A). pose proof (al_old _ _ _ _ _ _ _ _ _ _ A).
  pose proof (al_fit _ _ _ _ _ _ _ _ _ _ A). assert (h0 ≠ 0 → table_end c <= h0 ∧ h0 + 24 <= old).
  { intros Hn. destruct (cr_area _ _ _ Hr) as [?|Ha]; [done|]. pose proof (ar_start _ _ _ Ha). pose proof (ar_end _ _ _ Ha). lia. }
  split_and!; lia || done || (intros; lia).
Qed.

(** No mark, and the old content. *)
Definition calm (m : Z) s : Prop := quiet heads m s ∧ restored f0 s.

Lemma atomic_calm fe m seen cur ff :
  (∀ s, s ∈ seen → calm m s) → Z.max 48 m <= dsize cur < 2 ^ 32 → dsize f0 <= dsize cur → torn seen cur ff → atomic c f0 fe ff.
Proof.
  intros Hs Hm Hf Ht. destruct setup_sizes as (S1 & S2 & S3 & S4 & S5 & S6 & S7 & S8 & S9 & S10). pose proof Ht as [Hd _].
  assert (idle ff) as Hi.
  { apply (torn_idle heads seen cur); [done|lia| |].
    - intros h [->|[-> Hn]]%elem_of_heads; [split; [lia|apply (al_aligned _ _ _ _ _ _ _ _ _ _ A)]|].
      destruct (cr_area _ _ _ Hr) as [?|Ha]; [done|]. split; [pose proof (ar_start _ _ _ Ha); lia|apply Ha].
    - intros s Hin. destruct (Hs s Hin) as [(Q1 & Q2 & Q3) _]. split; [done|]. split; [|done]. destruct Q2 as [?|[? ?]]; [by left|right; split; [done|lia]]. }
  destruct (recover_idle (reopen c ff)) as [E Hn]; [done|done|]. exists (reopen c ff). split_and!; [done|done|]. left. split; [cbn; lia|].
  intros o Ho Hres. apply (torn_byte seen cur ff (λ b, b = byte_at f0 o)); [done|lia|]. intros s Hin. by apply (Hs s Hin).
Qed.

Lemma unmarked_old : h0 ≠ 0 → magic (rec_at f0 h0) ≠ TDB_RECOVERY_MAGIC.
Proof. intros Hn. destruct (cr_area _ _ _ Hr) as [?|Ha]; [done|]. apply Ha. Qed.
Lemma place_cases : ro = h0 ∧ h0 ≠ 0 ∨ old <= ro.
Proof.
  destruct setup_sizes as (S1 & S2 & S3 & S4 & S5 & S6 & S7 & S8 & S9 & S10).
  destruct (al_place _ _ _ _ _ _ _ _ _ _ A) as [(? & ? & _)|?]; [by left|right; lia].
Qed.

Lemma calm_start : calm old f0.
Proof.
  destruct setup_sizes as (S1 & S2 & S3 & S4 & S5 & S6 & S7 & S8 & S9 & S10). split; [|by split; [lia|]]. split; [lia|]. split.
  - destruct (decide (h0 = 0)) as [|Hn]; [by left|right]. split; [apply elem_of_heads; by right|]. by apply S10.
  - intros h [->|[-> Hn]]%elem_of_heads; [|intros _; by apply unmarked_old].
    destruct place_cases as [[-> Hn]|?]; [intros _; by apply unmarked_old|lia].
Qed.

Lemma calm_grow n : 0 <= n → calm old (grow old n f0).
Proof.
  intros Hn. destruct setup_sizes as (S1 & S2 & S3 & S4 & S5 & S6 & S7 & S8 & S9 & S10). destruct calm_start as [(Q1 & Q2 & Q3) _].
  rewrite <- S4. assert (dsize (grow (dsize f0) n f0) = old + n) as Hd by (rewrite dsize_grow; lia).
  assert (∀ o k, 0 <= o → 0 <= k → o + k <= old → read_at o k (grow (dsize f0) n f0) = read_at o k f0) as Hsame.
  { intros o k ? ? ?. apply read_at_ext; [lia..|]. intros o' Ho'. rewrite byte_grow by lia. by rewrite decide_True by lia. }
  split; [|split; [lia|intros o Ho _; rewrite byte_grow by lia; by rewrite decide_True by lia]]. split; [lia|].
  assert (head_of (grow (dsize f0) n f0) = h0) as -> by (unfold head_of; by rewrite Hsame by (unfold TDB_RECOVERY_HEAD; lia)).
  split; [by rewrite S4|]. intros h Hh Hin. apply elem_of_heads in Hh as Hh'.
  destruct (decide (h + 24 <= old)) as [Hle|Hle].
  { unfold rec_at. rewrite Hsame by (unfold sizeof_rec; destruct Hh' as [->|[-> Hn0]]; [|pose proof (S10 Hn0)]; lia). apply Q3; [done|lia]. }
  destruct Hh' as [->|[-> Hn0]]; [|destruct (S10 Hn0); lia]. destruct place_cases as [[-> Hn0]|Hp]; [destruct (S10 Hn0); lia|].
  rewrite magic_word by lia. assert (read_at (ro + 20) 4 (grow (dsize f0) n f0) = replicate 4 TDB_PAD_BYTE) as ->; [|done].
  apply byte_ext; rewrite dsize_read by lia; [done|]. intros o Ho. rewrite byte_read by lia. rewrite byte_grow by lia. rewrite decide_False by lia.
  unfold byte_at. rewrite !lookup_replicate_2 by lia. done.
Qed.

Lemma calm_head s : calm old s → ro + 24 <= dsize s < 2 ^ 32 → calm (dsize s) (write_at TDB_RECOVERY_HEAD (le_bytes 4 ro) s).
Proof.
  intros [(Q1 & Q2 & Q3) [R1 R2]] Hs. destruct setup_sizes as (S1 & S2 & S3 & S4 & S5 & S6 & S7 & S8 & S9 & S10).
  set (s' := write_at _ _ s). assert (dsize s' = dsize s) as Hd by (apply dsize_write; rewrite ?dsize_le_bytes; unfold TDB_RECOVERY_HEAD; lia).
  split; [split; [lia|split]|split; [lia|]].
  - right. assert (head_of s' = ro) as ->; [|split; [apply elem_of_heads; by left|lia]].
    apply (word_write TDB_RECOVERY_HEAD); unfold TDB_RECOVERY_HEAD, is_u32; lia.
  - intros h Hh Hle. rewrite Hd in Hle. specialize (Q3 h Hh Hle). unfold rec_at in *. unfold s', TDB_RECOVERY_HEAD. rewrite read_write_other; [done|..];
      rewrite ?dsize_le_bytes; unfold sizeof_rec in *; apply elem_of_heads in Hh as [->|[-> Hn0]]; try destruct (S10 Hn0); lia.
  - intros o Ho Hres. unfold s'. rewrite byte_write; rewrite ?dsize_le_bytes; [|unfold TDB_RECOVERY_HEAD; lia..].
    rewrite decide_False; [by apply R2|]. intros Hi. apply Hres. by left.
Qed.

(** The area is written without a mark. *)
Lemma calm_area m s buf :
  calm m s → ro + dsize buf <= dsize s → 24 <= dsize buf <= 24 + mx → le_val (read_at 20 4 buf) ≠ TDB_RECOVERY_MAGIC →
  calm m (write_at ro buf s).
Proof.
  intros [(Q1 & Q2 & Q3) [R1 R2]] Hs Hb Hm. destruct setup_sizes as (S1 & S2 & S3 & S4 & S5 & S6 & S7 & S8 & S9 & S10).
  set (s' := write_at _ _ s). assert (dsize s' = dsize s) as Hd by (apply dsize_write; lia).
  split; [split; [lia|split]|split; [lia|]].
  - assert (head_of s' = head_of s) as ->; [|done]. unfold head_of, s', TDB_RECOVERY_HEAD. f_equal. apply read_write_other; lia.
  - intros h Hh Hle. rewrite Hd in Hle. apply elem_of_heads in Hh as Hh'.
    destruct (decide (h = ro)) as [->|Hne].
    + rewrite magic_word by lia. assert (read_at (ro + 20) 4 s' = read_at 20 4 buf) as ->; [|done].
      apply byte_ext; rewrite !dsize_read by lia; [done|]. intros o Ho. rewrite !byte_read by lia. unfold s'. rewrite byte_write by lia.
      rewrite decide_True by lia. f_equal. lia.
    + destruct Hh' as [->|[-> Hn0]]; [done|]. destruct (S10 Hn0). destruct place_cases as [[-> _]|Hp]; [done|].
      specialize (Q3 h0 Hh Hle). unfold rec_at, s' in *. by rewrite read_write_other by (unfold sizeof_rec; lia).
  - intros o Ho Hres. unfold s'. rewrite byte_write by lia. rewrite decide_False; [by apply R2|]. intros Hi. apply Hres.
    destruct (al_place _ _ _ _ _ _ _ _ _ _ A) as [(_ & _ & _ & Hp)|?]; [|lia]. apply Hp; lia.
Qed.

Lemma safe_unmarked fe buf :
  24 <= dsize buf <= 24 + mx → le_val (read_at 20 4 buf) ≠ TDB_RECOVERY_MAGIC →
  safe (atomic c f0 fe) [f0] f0 (log ++ [DWrite ro buf]).
Proof.
  intros Hb Hm. destruct setup_sizes as (S1 & S2 & S3 & S4 & S5 & S6 & S7 & S8 & S9 & S10). pose proof calm_start as C0.
  assert (∀ m, old <= m → ∀ seen cur ff, (∀ s, s ∈ seen → calm m s) → m <= dsize cur < 2 ^ 32 → torn seen cur ff → atomic c f0 fe ff) as HG.
  { intros m Hm' seen cur ff Hs Hd Ht. apply (atomic_calm fe m seen cur); [done|lia|lia|done]. }
  pose proof (rn_file _ _ _ (al_runs _ _ _ _ _ _ _ _ _ _ A)) as Eg.
  destruct (al_log _ _ _ _ _ _ _ _ _ _ A) as [(El & _)|(n & Hn & El & Hon & Hox)]; rewrite El in Eg |- *; cbn [app].
  - cbn in Eg. apply (safe_keeps _ (calm old) old); [intros ? ? ? ? _; by apply HG|by intros s ->%list_elem_of_singleton|done|lia|].
    rewrite Eg in S6, S7, S8. cbn [keeps apply_op]. split_and!; [|rewrite dsize_write; lia..|done]. apply calm_area; [done|lia|done|done].
  - cbn [apply_ops foldl apply_op] in Eg. pose proof (calm_grow n Hn) as C1. assert (dsize (grow old n f0) = old + n) as Hd1 by (rewrite <- S4; rewrite dsize_grow; lia).
    assert (dsize g = old + n) as Hdg by lia. pose proof (calm_head _ C1) as C2. rewrite <- Eg, Hd1 in C2.
    assert (∀ s, calm old s → calm (old + n) s) as Hmono.
    { intros s [(Q1 & Q2 & Q3) HR]. split; [|done]. split; [done|]. split; [|done]. destruct Q2 as [?|[? ?]]; [by left|right; split; [done|lia]]. }
    apply safe_op; [intros ff; apply (HG old); [done|by intros s ->%list_elem_of_singleton|lia]|]. cbn [apply_op].
    apply safe_op; [intros ff; apply (HG old); [done|by intros s [->| ->%list_elem_of_singleton]%elem_of_cons|lia]|]. cbn [apply_op]. rewrite <- Eg.
    apply (safe_keeps _ (calm (old + n)) (old + n)); [intros seen cur ff Hin _; apply (HG (old + n)); [lia|done]| |by apply C2; lia|lia|].
    { intros s [->|[->| ->%list_elem_of_singleton]%elem_of_cons]%elem_of_cons; [apply C2; lia|by apply Hmono..]. }
    cbn [keeps apply_op]. split_and!; [|rewrite dsize_write; lia..|done]. apply calm_area; [apply C2; lia|lia|done|done].
Qed.
End setup.
