(* ===== verification/TdbAtomic.v ===== *)
(** * Commits are atomic

    Wherever [tdb_transaction_commit] is interrupted, the next process that opens
    the file finds the old content or the new content. *)
From S2P Require Import Prelude TdbFile TdbLayout TdbTxn TdbTxnView TdbCrash TdbCommit.
Import Tdb Txn.

Implicit Types (c : txn_context) (x : tdb_transaction) (f s : bytes).

(** A block that is saved lies in the file. *)
Lemma recovery_blocks_inside c x old i bs saved :
  recovery_blocks c x old i bs = Some saved →
  ∀ j b, bs !! j = Some (Some b) → Z.of_nat (i + j) * block_size x < old →
    Z.of_nat (i + j) * block_size x + block_length x (i + j) <= old_map_size x.
Proof.
  revert i saved. induction bs as [|b bs IH]; intros i saved; cbn [recovery_blocks]; [done|]. intros Hs j b' Hj Hlt.
  assert (∀ s', recovery_blocks c x old (S i) bs = Some s' → ∀ j', j = S j' → Z.of_nat (i + j) * block_size x + block_length x (i + j) <= old_map_size x) as Hnext.
  { intros s' E j' ->. specialize (IH (S i) s' E j' b' Hj). replace (i + S j')%nat with (S i + j')%nat in * by lia. by apply IH. }
  destruct b as [b|].
  - destruct (Z.leb_spec old (Z.of_nat i * block_size x)).
    + destruct j as [|j]; [rewrite Nat.add_0_r in *; lia|by eapply Hnext].
    + destruct (Z.ltb_spec (old_map_size x) (Z.of_nat i * block_size x + block_length x i)); [done|].
      destruct j as [|j]; [rewrite Nat.add_0_r; lia|].
      destruct (io_read _ _ _); [|done]. cbn in Hs. destruct (recovery_blocks c x old (S i) bs) as [rest|] eqn:E; [|done]. by eapply Hnext.
  - destruct j as [|j]; [done|by eapply Hnext].
Qed.

(** Bytes that are those of the blocks of [x]. *)
Definition from_blocks x (off : Z) (buf : bytes) : Prop :=
  0 <= off ∧ ∀ o, off <= o < off + dsize buf → bbyte x o = byte_at buf (o - off).

Lemma bbyte_block x i o :
  0 < block_size x → Z.of_nat i * block_size x <= o < Z.of_nat (S i) * block_size x →
  bbyte x o = match blocks x !! i with
              | Some (Some b) => if o - Z.of_nat i * block_size x <? block_length x i then byte_at b (o - Z.of_nat i * block_size x) else None
              | _ => None
              end.
Proof.
  intros Hbs Ho. destruct (block_of (block_size x) (Z.of_nat i) (o - Z.of_nat i * block_size x)) as [E1 E2]; [done|lia|].
  replace (Z.of_nat i * block_size x + (o - Z.of_nat i * block_size x)) with o in E1, E2 by lia.
  unfold bbyte. by rewrite E1, E2, Nat2Z.id.
Qed.

Lemma write_out_ok (Q : bytes → Prop) lim x :
  blocks_ok lim x →
  (∀ off buf s, Q s → from_blocks x off buf → off + dsize buf <= dsize s → Q (write_at off buf s)) →
  ∀ bs i c, (∀ j, bs !! j = blocks x !! (i + j)%nat) → tc_read_only c = false → lim <= dsize (tc_file c) → dsize (tc_file c) <= tc_map_size c < 2 ^ 32 →
  Q (tc_file c) →
  ∃ ws c', write_out c x i bs = (true, c') ∧ runs c ws c' ∧ keeps Q (dsize (tc_file c)) (tc_file c) ws
  ∧ tc_map_size c' = tc_map_size c ∧ tc_transaction c' = tc_transaction c ∧ tc_env c' = tc_env c ∧ dsize (tc_file c') = dsize (tc_file c)
  ∧ ∀ o, 0 <= o → byte_at (tc_file c') o =
      if decide (Z.of_nat i * block_size x <= o ∧ is_Some (bbyte x o)) then bbyte x o else byte_at (tc_file c) o.
Proof.
  intros Hb HQ. pose proof (bk_size _ _ Hb) as Hbs. induction bs as [|b bs IH]; intros i c Hi Hro Hlim Hm Hq; cbn [write_out].
  { exists [], c. split_and!; try done; [by apply runs_same|]. intros o Ho. rewrite decide_False; [done|]. intros [Hle [v Hv]].
    unfold bbyte in Hv. assert (i <= Z.to_nat (o / block_size x))%nat as Hd.
    { pose proof (Z.div_le_lower_bound o (block_size x) (Z.of_nat i)). lia. }
    specialize (Hi (Z.to_nat (o / block_size x) - i)%nat). rewrite lookup_nil in Hi. replace (i + _)%nat with (Z.to_nat (o / block_size x)) in Hi by lia. by rewrite <- Hi in Hv. }
  assert (∀ j, bs !! j = blocks x !! (S i + j)%nat) as Hi'. { intros j. replace (S i + j)%nat with (i + S j)%nat by lia. apply (Hi (S j)). }
  specialize (Hi 0%nat). rewrite Nat.add_0_r in Hi. cbn in Hi. symmetry in Hi. destruct b as [b|].
  - destruct (bk_blocks _ _ Hb i b Hi) as (Hsz & Hl & Hle). set (off := Z.of_nat i * block_size x) in *. set (buf := take _ b).
    assert (dsize buf = block_length x i) as Hd by (apply dsize_take; lia).
    assert (from_blocks x off buf) as Hfb.
    { split; [lia|]. intros o Ho. rewrite (bbyte_block x i) by (fold off; lia). fold off. rewrite Hi, (proj2 (Z.ltb_lt _ _)) by lia. unfold buf. by rewrite byte_take by lia. }
    destruct (runs_write c off buf) as (c1 & -> & Hrun & Hm1 & Ht1 & He1); [done|lia..|]. cbn [negb].
    pose proof (rn_file _ _ _ Hrun) as Ef. cbn [apply_ops foldl apply_op] in Ef.
    assert (dsize (tc_file c1) = dsize (tc_file c)) as Hd1 by (rewrite Ef; apply dsize_write; lia).
    assert (Q (tc_file c1)) as Hq1 by (rewrite Ef; apply HQ; [done|done|lia]).
    destruct (IH (S i) c1) as (ws & c' & E & Hrun' & Hk & Hm' & Ht' & He' & Hd' & Hby); rewrite ?Hd1, ?Hm1; try done; [by rewrite (rn_rw _ _ _ Hrun)|].
    exists (DWrite off buf :: ws), c'. split_and!; try done; try congruence; [by apply (runs_trans _ [_] _ _ _ Hrun)| |].
    { cbn [keeps apply_op]. rewrite <- Ef, Hd1. split_and!; try done; [lia..|]. by rewrite <- Hd1. }
    intros o Ho. rewrite Hby by done. destruct (decide (off <= o < Z.of_nat (S i) * block_size x)) as [Hin|Hin].
    + rewrite decide_False by lia. rewrite Ef, byte_write by lia. rewrite (bbyte_block x i o) by done. rewrite Hi. fold off.
      destruct (Z.ltb_spec (o - off) (block_length x i)).
      * rewrite !decide_True; [unfold buf; by rewrite byte_take by lia|split; [lia|]; apply byte_at_lt; lia|lia].
      * rewrite !decide_False; [done| |lia]. intros [_ [? [=]]].
    + rewrite Ef, byte_write by lia. destruct (decide (off <= o ∧ is_Some (bbyte x o))) as [Hd2|Hd2].
      * rewrite decide_True by (split; [lia|tauto]). done.
      * rewrite decide_False by (intros [? ?]; apply Hd2; split; [lia|done]). by rewrite decide_False by lia.
  - destruct (IH (S i) c) as (ws & c' & E & Hrun' & Hk & Hm' & Ht' & He' & Hd' & Hby); try done. exists ws, c'. split_and!; try done.
    intros o Ho. rewrite Hby by done. destruct (decide (Z.of_nat i * block_size x <= o < Z.of_nat (S i) * block_size x)) as [Hin|Hin].
    + assert (bbyte x o = None) as En by (rewrite (bbyte_block x i o) by done; by rewrite Hi).
      rewrite En, !decide_False by (intros [_ [? [=]]]). done.
    + destruct (decide (Z.of_nat i * block_size x <= o ∧ _)) as [Hd2|Hd2]; [rewrite decide_True by (split; [lia|tauto]); done|].
      rewrite decide_False by (intros [? ?]; apply Hd2; split; [lia|done]). done.
Qed.

Section marked.
Context c x f (Hr : commit_ready c x f) log (rs ro mx : Z) x1 c1 f1 (A : allocated c x f log rs ro mx x1 c1 f1).
#[local] Abbreviation f0 := (tc_file c).
#[local] Abbreviation old := (old_map_size x).
#[local] Abbreviation h0 := (head_of (tc_file c)).
#[local] Abbreviation g := (tc_file c1).
Context saved (Hsv : recovery_blocks c1 x1 old 0 (blocks x1) = Some saved).
#[local] Abbreviation l := (saved_list g x1 old 0 (blocks x1)).
#[local] Abbreviation tail := (le_bytes 4 (u32 (sizeof_rec + mx))).
#[local] Abbreviation len := (area_len l).

Lemma block_inside j b :
  blocks x1 !! j = Some (Some b) →
  0 < block_length x1 j ∧ (Z.of_nat j * block_size x1 < old → Z.of_nat j * block_size x1 + block_length x1 j <= dsize g).
Proof.
  intros Hj. destruct (bk_blocks _ _ (al_blocks _ _ _ _ _ _ _ _ _ _ A) j b Hj) as (_ & [? _] & _). split; [done|].
  rewrite (al_size _ _ _ _ _ _ _ _ _ _ A). exact (recovery_blocks_inside _ _ _ _ _ _ Hsv j b Hj).
Qed.

Lemma saved_facts : saved = saved_bytes l ∧ saved_from g (dsize g) l ∧ rs = dsize (saved_bytes l) + 4.
Proof.
  pose proof (al_map_size _ _ _ _ _ _ _ _ _ _ A). pose proof (al_old _ _ _ _ _ _ _ _ _ _ A). pose proof (bk_size _ _ (al_blocks _ _ _ _ _ _ _ _ _ _ A)) as Hbs.
  destruct (recovery_blocks_saved c1 x1 old 0 (blocks x1) saved) as [E1 E2]; try done; [apply (al_size _ _ _ _ _ _ _ _ _ _ A)|lia|intros j b Hj; exact (proj1 (block_inside j b Hj))|].
  split; [done|]. split; [done|]. destruct (al_need _ _ _ _ _ _ _ _ _ _ A) as (xr & E0 & E3 & E4 & E5 & E6). rewrite E0. unfold tdb_recovery_size.
  rewrite (saved_list_size g x1 xr old 0 (blocks x1) (blocks xr)); try done; [lia|]. intros j b. apply block_inside.
Qed.

Lemma marked_sizes : 48 <= ro ∧ ro mod 4 = 0 ∧ is_u32 mx ∧ is_u32 (dsize f0) ∧ dsize tail = 4 ∧ len <= 24 + mx ∧ ro + len <= dsize g ∧ old <= dsize g < 2 ^ 32 ∧ dsize f0 = old.
Proof.
  destruct (setup_sizes _ _ _ Hr _ _ _ _ _ _ _ A) as (S1 & S2 & S3 & S4 & S5 & S6 & S7 & S8 & S9 & S10). destruct saved_facts as (_ & _ & E).
  pose proof (dsize_nonneg (saved_bytes l)). pose proof (dsize_nonneg f0). unfold area_len, is_u32.
  split_and!; try lia; [apply (al_aligned _ _ _ _ _ _ _ _ _ _ A)|by rewrite dsize_le_bytes].
Qed.

(** The old content, in the file with the extended area. *)
Lemma saved_restores : restores f0 g ro l.
Proof.
  intros o Ho Hh _. destruct marked_sizes as (_ & _ & _ & _ & _ & _ & _ & _ & S4). pose proof (rn_file _ _ _ (al_runs _ _ _ _ _ _ _ _ _ _ A)) as Eg.
  destruct (al_log _ _ _ _ _ _ _ _ _ _ A) as [(El & _)|(n & Hn & El & _)]; rewrite El in Eg; [by rewrite Eg|].
  destruct (extended_file _ _ _ Hr n ro Hn) as (_ & _ & Hb). rewrite Eg, Hb by (done || lia). rewrite <- S4, byte_grow by lia. by rewrite decide_True by lia.
Qed.

Lemma repaired_atomic fe ff : head_of fe = ro → repaired c f0 ro l fe ff → atomic c f0 fe ff.
Proof.
  intros Hfe (c' & E & Hn & Hc). exists c'. split_and!; [done|done|]. destruct Hc as [[Hs Ho]|Hc]; [left|right; unfold new_like in Hc; by rewrite Hfe].
  destruct marked_sizes as (S1 & S2 & S3 & S4 & S5 & S6 & S7 & S8 & S9). split; [done|]. intros o Hr' Hres. apply Ho; [done|intros ?; apply Hres; by left|].
  intros Ha. apply Hres. unfold in_area in Ha. destruct (al_place _ _ _ _ _ _ _ _ _ _ A) as [(_ & _ & _ & Hp)|?]; [|pose proof (ready_sizes _ _ _ Hr); lia]. pose proof (ready_sizes _ _ _ Hr). apply Hp; lia.
Qed.

(** The area is complete and carries [mark]; what [cov] does not cover is old. *)
Record full (cov : Z → Prop) (mark : Z) s : Prop := {
  fu_size : ro + len <= dsize s;
  fu_head : fits (p_head ro) s;
  fu_area : fits (p_area f0 ro mx l tail mark) s;
  fu_old : fits (p_old f0 ro l cov) s;
}.
Definition no_mark : Z := TDB_RECOVERY_INVALID_MAGIC.
Definition valid_mark : Z := TDB_RECOVERY_MAGIC.

Lemma full_covered mark s : full (λ _, False) mark s → full (covered l) mark s.
Proof. intros [F1 F2 F3 F4]. split; try done. intros o v (H1 & H2 & H3 & _ & H5). apply F4. split; [done|]. split; [done|]. split; [done|]. split; [by intros []|done]. Qed.
Lemma full_marked mark s : mark = no_mark ∨ mark = valid_mark → full (covered l) mark s → marked f0 ro mx l tail s.
Proof. intros Hm [F1 F2 F3 F4]. split_and!; try done. by exists mark. Qed.
Lemma full_head cov mark s : full cov mark s → head_of s = ro.
Proof.
  intros [F1 F2 F3 F4]. destruct marked_sizes as (S1 & S2 & S3 & S4 & S5 & S6 & S7 & S8 & S9). pose proof (len_ge l). unfold head_of.
  rewrite (fits_head ro s) by (done || lia). apply le_val_u32. unfold is_u32. lia.
Qed.
Lemma full_mark cov m1 m2 s : full cov m1 s → full cov m2 (write_at (ro + 20) (le_bytes 4 m2) s).
Proof.
  intros [F1 F2 F3 F4]. destruct marked_sizes as (S1 & S2 & S3 & S4 & S5 & S6 & S7 & S8 & S9). pose proof (len_ge l). split.
  - rewrite dsize_write; rewrite ?dsize_le_bytes; lia.
  - apply keep_head; rewrite ?dsize_le_bytes; done || lia.
  - eapply set_mark; done || lia.
  - apply keep_old; rewrite ?dsize_le_bytes; done || lia.
Qed.
Lemma full_grow cov m n s : 0 <= n → full cov m s → full cov m (grow (dsize s) n s).
Proof. intros Hn [F1 F2 F3 F4]. split; [rewrite dsize_grow by done; lia|by apply fits_grow..]. Qed.
Lemma full_first : full (λ _, False) no_mark (write_at ro (area_bytes mx (dsize f0) l tail no_mark) g).
Proof.
  destruct marked_sizes as (S1 & S2 & S3 & S4 & S5 & S6 & S7 & S8 & S9). pose proof (dsize_area f0 mx l tail S5 no_mark) as Hd. pose proof (len_ge l). split.
  - rewrite dsize_write; lia.
  - apply keep_head; [done|lia|]. intros o v [Ho Hv]. unfold in_head, TDB_RECOVERY_HEAD in *. rewrite <- Hv, <- (al_head _ _ _ _ _ _ _ _ _ _ A).
    unfold TDB_RECOVERY_HEAD. rewrite byte_read by lia. f_equal. lia.
  - intros o v [Ho Hv]. unfold in_area in Ho. rewrite byte_write by lia. by rewrite decide_True by lia.
  - apply keep_old; [done|lia..|]. intros o v (Ho & Hh & Ha & _ & Hv). rewrite <- Hv. apply saved_restores; lia || done.
Qed.

(** The phases from the complete area to the mark, from there to the last block,
    and to the end. *)
Definition phase_old s : Prop := full (λ _, False) no_mark s ∨ full (λ _, False) valid_mark s.
Definition phase_mixed s : Prop := full (covered l) valid_mark s.
Definition phase_new fe s : Prop := (full (covered l) no_mark s ∨ full (covered l) valid_mark s) ∧ new_like ro fe s.

Lemma saved_any size : dsize g <= size → saved_from g size l.
Proof.
  intros Hs. destruct saved_facts as (_ & Hf & _). eapply Forall_impl; [exact Hf|]. intros [o d] (? & ? & ? & ?). split_and!; done || lia.
Qed.

Lemma atomic_old fe seen cur ff :
  head_of fe = ro → (∀ s, s ∈ seen → phase_old s) → dsize g <= dsize cur < 2 ^ 32 → torn seen cur ff → atomic c f0 fe ff.
Proof.
  intros Hfe Hs Hc Ht. destruct marked_sizes as (S1 & S2 & S3 & S4 & S5 & S6 & S7 & S8 & S9). apply repaired_atomic; [done|].
  eapply (marked_old c f0 g ro mx l tail); [done..|apply (al_head _ _ _ _ _ _ _ _ _ _ A)|done|apply saved_restores|lia|lia|apply saved_any; lia|].
  intros s Hin. destruct (Hs s Hin) as [Hf|Hf]; (split; [eapply full_marked; [|by apply full_covered]; tauto|apply Hf]).
Qed.
Lemma atomic_mixed fe seen cur ff :
  head_of fe = ro → (∀ s, s ∈ seen → phase_mixed s) → dsize g <= dsize cur < 2 ^ 32 → torn seen cur ff → atomic c f0 fe ff.
Proof.
  intros Hfe Hs Hc Ht. destruct marked_sizes as (S1 & S2 & S3 & S4 & S5 & S6 & S7 & S8 & S9). apply repaired_atomic; [done|].
  eapply (marked_set c f0 g ro mx l tail); [done..|apply (al_head _ _ _ _ _ _ _ _ _ _ A)|done|apply saved_restores|lia|lia|apply saved_any; lia|].
  intros s Hin. by destruct (Hs s Hin).
Qed.
Lemma atomic_new fe seen cur ff :
  head_of fe = ro → (∀ s, s ∈ seen → phase_new fe s) → dsize fe = dsize cur → dsize g <= dsize cur < 2 ^ 32 → torn seen cur ff → atomic c f0 fe ff.
Proof.
  intros Hfe Hs Hd Hc Ht. destruct marked_sizes as (S1 & S2 & S3 & S4 & S5 & S6 & S7 & S8 & S9). apply repaired_atomic; [done|].
  eapply (marked_new c f0 g ro mx l tail); [done..|apply (al_head _ _ _ _ _ _ _ _ _ _ A)|done|apply saved_restores|lia|lia|apply saved_any; lia|done|].
  intros s Hin. destruct (Hs s Hin) as [Hf Hn]. split; [|done]. destruct Hf as [Hf|Hf]; (eapply full_marked; [|done]; tauto).
Qed.

(** The blocks when the area and the mark are in them. *)
Definition x2 : tdb_transaction :=
  set_magic_offset (transaction_write_existing x1 ro (area_bytes mx (dsize f0) l tail no_mark)) (ro + 20).
Definition x3 : tdb_transaction := transaction_write_existing x2 (ro + 20) (le_bytes 4 valid_mark).

Lemma marked_blocks :
  blocks_ok (tc_map_size c1) x3 ∧ tx_params x3 = tx_params (set_magic_offset x1 (ro + 20))
  ∧ (∀ o, 0 <= o → ¬ in_area ro len o → bbyte x3 o = bbyte x1 o)
  ∧ (∀ o, in_area ro len o → bbyte x3 o = if decide (is_Some (bbyte x1 o)) then byte_at (area_bytes mx (dsize f0) l tail valid_mark) (o - ro) else None).
Proof.
  destruct marked_sizes as (S1 & S2 & S3 & S4 & S5 & S6 & S7 & S8 & S9). pose proof (len_ge l). set (buf := area_bytes mx (dsize f0) l tail no_mark).
  pose proof (dsize_area f0 mx l tail S5 no_mark) as Hd. fold buf in Hd.
  destruct (write_existing_ok _ x1 ro buf (al_blocks _ _ _ _ _ _ _ _ _ _ A)) as (B1 & T1 & O1); [lia|].
  assert (blocks_ok (tc_map_size c1) x2) as B2 by (split; [apply (bk_size _ _ B1)|apply (bk_blocks _ _ B1)]).
  destruct (write_existing_ok _ x2 (ro + 20) (le_bytes 4 valid_mark) B2) as (B3 & T3 & O3); [lia|]. fold x3 in B3, T3, O3.
  assert (∀ o, bbyte x2 o = bbyte (transaction_write_existing x1 ro buf) o) as E2 by done.
  unfold overwritten in O1, O3. rewrite dsize_le_bytes in O3. rewrite Hd in O1. unfold in_area. split; [done|]. split; [|split].
  - pose proof (ss_params _ _ T1) as P1. rewrite (ss_params _ _ T3). unfold x2. fold buf. revert P1. generalize (transaction_write_existing x1 ro buf). clear.
    intros W P1. injection P1. intros. unfold tx_params, set_magic_offset. cbn [block_size transaction_error nesting prepared magic_offset old_map_size]. congruence.
  - intros o Ho Hn. rewrite O3, E2, O1 by lia. by rewrite !decide_False by lia.
  - intros o Ho. rewrite O3, E2, O1 by lia. destruct (decide (is_Some (bbyte x1 o))) as [Hs|Hs].
    + rewrite (decide_True _ _ (conj Ho Hs)). destruct (decide (ro + 20 <= o < ro + 24)) as [Hm|Hm].
      * rewrite decide_True by (split; [lia|]; apply byte_at_lt; lia). rewrite (area_mark f0 mx l tail valid_mark) by lia. f_equal. lia.
      * rewrite decide_False by lia. apply area_unmarked; lia.
    + rewrite (decide_False (P := _ ∧ is_Some (bbyte x1 o))) by tauto. rewrite decide_False by tauto.
      destruct (bbyte x1 o); [|done]. exfalso. apply Hs. by eexists.
Qed.

Lemma block_covered o : is_Some (bbyte x1 o) → 0 <= o < old → covered l o.
Proof.
  intros [v Hv] Ho. pose proof (bk_size _ _ (al_blocks _ _ _ _ _ _ _ _ _ _ A)) as Hbs. apply saved_list_covered; [done|intros j b; apply block_inside|].
  unfold bbyte in Hv. destruct (block_split (block_size x1) o Hbs) as [Eo Hm]. pose proof (Z.div_pos o (block_size x1)).
  destruct (blocks x1 !! Z.to_nat (o / block_size x1)) as [[b|]|] eqn:E; [|done..].
  destruct (Z.ltb_spec (o mod block_size x1) (block_length x1 (Z.to_nat (o / block_size x1)))); [|done].
  exists (Z.to_nat (o / block_size x1)), b. split; [done|]. cbn [Nat.add]. lia.
Qed.

Lemma mixed_write off buf s : phase_mixed s → from_blocks x3 off buf → off + dsize buf <= dsize s → phase_mixed (write_at off buf s).
Proof.
  intros [F1 F2 F3 F4] [H0 Hb] Hs. destruct marked_sizes as (S1 & S2 & S3 & S4 & S5 & S6 & S7 & S8 & S9). pose proof (len_ge l).
  destruct marked_blocks as (_ & _ & Bout & Bin). split; [rewrite dsize_write; lia|..];
    (apply fits_write; [done|done| |done|]; intros o v Hp).
  - destruct Hp as [Ho _]. unfold in_head, TDB_RECOVERY_HEAD in Ho. lia.
  - intros Hr'. destruct Hp as [Ho Hv]. rewrite <- Hb by done. unfold in_head, TDB_RECOVERY_HEAD in *.
    assert (is_Some (bbyte x3 o)) as Hsm by (rewrite Hb by done; apply byte_at_lt; lia). rewrite Bout in * by (unfold in_area; lia).
    rewrite <- Hv. by apply (al_head_blocks _ _ _ _ _ _ _ _ _ _ A).
  - destruct Hp as [Ho _]. unfold in_area in Ho. lia.
  - intros Hr'. destruct Hp as [Ho Hv]. rewrite <- Hb by done.
    assert (is_Some (bbyte x3 o)) as Hsm by (rewrite Hb by done; apply byte_at_lt; lia). rewrite Bin in * by done.
    case_decide; [done|]. by destruct Hsm.
  - destruct Hp as [Ho _]. lia.
  - intros Hr'. exfalso. destruct Hp as (Ho & _ & Ha & Hc & _). apply Hc, block_covered; [|lia].
    rewrite <- Bout by (done || lia). rewrite Hb by done. apply byte_at_lt; lia.
Qed.

(** *** The operations up to the mark, and after it *)

#[local] Abbreviation area := (area_bytes mx (dsize f0) l tail no_mark).
Definition file2 : bytes := write_at ro area g.
Definition file3 : bytes := write_at (ro + 20) (le_bytes 4 valid_mark) file2.
Definition mark (m : Z) : disk_op := DWrite (ro + 20) (le_bytes 4 m).

Lemma file_sizes : dsize file2 = dsize g ∧ dsize file3 = dsize g.
Proof.
  destruct marked_sizes as (S1 & S2 & S3 & S4 & S5 & S6 & S7 & S8 & S9). pose proof (len_ge l). pose proof (dsize_area f0 mx l tail S5 no_mark) as Hd.
  assert (dsize file2 = dsize g) as E by (apply dsize_write; lia). split; [done|]. unfold file3. rewrite dsize_write; rewrite ?dsize_le_bytes; lia.
Qed.
Lemma phase_old_2 : phase_old file2.
Proof. left. exact full_first. Qed.
Lemma phase_old_3 : phase_old file3.
Proof. right. eapply full_mark, full_first. Qed.
Lemma phase_mixed_3 : phase_mixed file3.
Proof. eapply full_covered, full_mark, full_first. Qed.

Lemma phase_old_mark m s : m = no_mark ∨ m = valid_mark → phase_old s → phase_old (write_at (ro + 20) (le_bytes 4 m) s).
Proof. intros [-> | ->] [Hf|Hf]; [left|left|right|right]; by eapply full_mark. Qed.
Lemma phase_size s : phase_old s → ro + len <= dsize s.
Proof. by intros [[]|[]]. Qed.

Lemma area_unset : le_val (read_at 20 4 area) ≠ TDB_RECOVERY_MAGIC.
Proof.
  assert (read_at 20 4 area = le_bytes 4 no_mark) as ->; [|done]. destruct marked_sizes as (S1 & S2 & S3 & S4 & S5 & S6 & S7 & S8 & S9).
  pose proof (dsize_area f0 mx l tail S5 no_mark) as Hd. pose proof (len_ge l).
  apply byte_ext; rewrite dsize_read by lia; rewrite ?dsize_le_bytes; [done|]. intros o Ho. rewrite byte_read by lia.
  rewrite (area_mark f0 mx l tail no_mark) by lia. f_equal. lia.
Qed.

Lemma safe_start fe : safe (atomic c f0 fe) [f0] f0 (log ++ [DWrite ro area]).
Proof.
  destruct marked_sizes as (S1 & S2 & S3 & S4 & S5 & S6 & S7 & S8 & S9). pose proof (dsize_area f0 mx l tail S5 no_mark) as Hd. pose proof (len_ge l).
  eapply safe_unmarked; [done|done|lia|apply area_unset].
Qed.
Lemma start_file : apply_ops (log ++ [DWrite ro area]) f0 = file2.
Proof. unfold apply_ops. rewrite foldl_app. fold (apply_ops log f0). by rewrite <- (rn_file _ _ _ (al_runs _ _ _ _ _ _ _ _ _ _ A)). Qed.

(** The commit is given up after the mark: nothing but the mark has changed. *)
Lemma safe_given_up fe rest :
  head_of fe = ro → keeps phase_old (dsize g) file2 rest →
  safe (atomic c f0 fe) [f0] f0 ((log ++ [DWrite ro area]) ++ DSync :: rest).
Proof.
  intros Hfe Hk. destruct marked_sizes as (S1 & S2 & S3 & S4 & S5 & S6 & S7 & S8 & S9). destruct file_sizes as [Z2 Z3].
  apply safe_sync; [apply safe_start|]. rewrite start_file.
  apply (safe_keeps _ phase_old (dsize g)); [|by intros s ->%list_elem_of_singleton; apply phase_old_2|apply phase_old_2|lia|done].
  intros seen cur ff Hs _. by apply atomic_old.
Qed.

(** The commit goes on to the blocks and perhaps to the end. *)
Lemma safe_blocks fe mid :
  head_of fe = ro → keeps phase_mixed (dsize g) file3 mid →
  safe (atomic c f0 fe) [f0] f0 ((log ++ [DWrite ro area]) ++ DSync :: ([mark valid_mark] ++ DSync :: mid)).
Proof.
  intros Hfe Hk. destruct marked_sizes as (S1 & S2 & S3 & S4 & S5 & S6 & S7 & S8 & S9). destruct file_sizes as [Z2 Z3].
  apply safe_sync; [apply safe_start|]. rewrite start_file. apply safe_sync.
  - apply (safe_keeps _ phase_old (dsize g)); [|by intros s ->%list_elem_of_singleton; apply phase_old_2|apply phase_old_2|lia|].
    { intros seen cur ff Hs _. by apply atomic_old. }
    cbn [keeps mark apply_op]. fold file3. split; [apply phase_old_3|]. split; [lia|done].
  - change (apply_ops [mark valid_mark] file2) with file3.
    apply (safe_keeps _ phase_mixed (dsize g)); [|by intros s ->%list_elem_of_singleton; apply phase_mixed_3|apply phase_mixed_3|lia|done].
    intros seen cur ff Hs _. by apply atomic_mixed.
Qed.
Lemma blocks_file mid : apply_ops ((log ++ [DWrite ro area]) ++ DSync :: ([mark valid_mark] ++ DSync :: mid)) f0 = apply_ops mid file3.
Proof. unfold apply_ops. rewrite foldl_app. fold (apply_ops (log ++ [DWrite ro area]) f0). by rewrite start_file. Qed.

Lemma safe_done mid fin :
  keeps phase_mixed (dsize g) file3 mid → fin = [] ∨ fin = [DSync] → dsize g <= dsize (apply_ops mid file3) < 2 ^ 32 →
  phase_mixed (apply_ops mid file3) →
  let fe := write_at (ro + 20) (le_bytes 4 no_mark) (apply_ops mid file3) in
  safe (atomic c f0 fe) [f0] f0 (((log ++ [DWrite ro area]) ++ DSync :: ([mark valid_mark] ++ DSync :: mid)) ++ DSync :: mark no_mark :: fin).
Proof.
  intros Hk Hfin Hd Hm fe. destruct marked_sizes as (S1 & S2 & S3 & S4 & S5 & S6 & S7 & S8 & S9). pose proof (len_ge l). set (fm := apply_ops mid file3) in *.
  assert (full (covered l) no_mark fe) as Hfu by (by eapply full_mark). pose proof (full_head _ _ _ Hfu) as Hh.
  destruct (agree_write (ro + 20) 4 no_mark fm) as [Ed Eb]; [lia..|]. fold fe in Ed, Eb.
  assert (phase_new fe fm) as P1. { split; [by right|]. split; [done|]. intros o Ho Hn. symmetry. apply Eb; [lia|done]. }
  assert (phase_new fe fe) as P2 by (split; [by left|by split]).
  apply safe_sync; [by apply safe_blocks|]. rewrite blocks_file. fold fm.
  apply (safe_keeps _ (phase_new fe) (dsize g)); [|by intros s ->%list_elem_of_singleton|done|lia|].
  - intros seen cur ff Hs [_ [Hc _]] Hcur. by apply atomic_new.
  - cbn [keeps mark apply_op]. fold fe. split; [done|]. split; [lia|]. destruct Hfin as [-> | ->]; [done|]. cbn [keeps apply_op]. split; [done|]. split; [lia|done].
Qed.
End marked.

(** ** The functions *)

#[local] Abbreviation area_of c x mx x1 c1 :=
  (area_bytes mx (dsize (tc_file c)) (saved_list (tc_file c1) x1 (old_map_size x) 0 (blocks x1)) (le_bytes 4 (u32 (sizeof_rec + mx))) no_mark).
#[local] Abbreviation log_area c x log ro mx x1 c1 := (log ++ [DWrite ro (area_of c x mx x1 c1)]).

(** How [transaction_setup_recovery] ends: before the mark is written, or after. *)
Inductive setup_end c x f : bool → tdb_transaction → txn_context → Prop :=
| setup_early x' c' lg :
    nesting x' = 0 → magic_offset x' = 0 → runs c lg c' → (∀ fe : bytes, safe (atomic c (tc_file c) fe) [tc_file c] (tc_file c) lg) →
    setup_end c x f false x' c'
| setup_late (ok : bool) log rs ro mx x1 c1 f1 saved c' :
    allocated c x f log rs ro mx x1 c1 f1 → recovery_blocks c1 x1 (old_map_size x) 0 (blocks x1) = Some saved →
    runs c (log_area c x log ro mx x1 c1 ++ DSync :: mark ro valid_mark :: (if ok then [DSync] else [])) c' →
    tc_map_size c' = tc_map_size c1 →
    setup_end c x f ok (x3 c x ro mx x1 c1) c'.

Lemma atomic_start c x f (fe ff : bytes) : commit_ready c x f → torn [tc_file c] (tc_file c) ff → atomic c (tc_file c) fe ff.
Proof.
  intros Hr [Hd Hb]. assert (ff = tc_file c) as ->.
  { apply byte_ext; [done|]. intros o Ho. destruct (Hb (o / 4)) as (s & ->%list_elem_of_singleton & Hs). by apply Hs. }
  destruct (ready_sizes _ _ _ Hr) as (H1 & H2 & H3 & H4 & H5). pose proof (cr_table _ _ _ Hr).
  assert (idle (tc_file c)) as Hi.
  { split; [lia|]. destruct (cr_area _ _ _ Hr) as [?|Ha]; [by left|right]. pose proof (ar_start _ _ _ Ha). split; [lia|]. split; apply Ha. }
  destruct (recover_idle (reopen c (tc_file c))) as [E Hn]; [done|done|]. eexists. split_and!; [done|done|]. left. by split.
Qed.

(** Nothing keeps the blocks from being saved when the file has been extended. *)
Lemma recovery_blocks_total c x old i bs :
  dsize (tc_file c) = old_map_size x → old_map_size x <= tc_map_size c < 2 ^ 32 → 0 < block_size x →
  (∀ j b, bs !! j = Some (Some b) → 0 < block_length x (i + j) ∧ Z.of_nat (i + j) * block_size x + block_length x (i + j) <= old_map_size x) →
  is_Some (recovery_blocks c x old i bs).
Proof.
  intros Hd Hm Hbs. revert i. induction bs as [|b bs IH]; intros i Hl; cbn [recovery_blocks]; [by eexists|].
  assert (is_Some (recovery_blocks c x old (S i) bs)) as [rest Er].
  { apply IH. intros j b' Hj. replace (S i + j)%nat with (i + S j)%nat by lia. by eapply Hl. }
  rewrite Er. destruct b as [b|]; [|by eexists]. destruct (_ <=? _); [by eexists|]. destruct (Hl 0%nat b eq_refl) as [H1 H2]. rewrite Nat.add_0_r in *.
  rewrite (proj2 (Z.ltb_ge _ _)) by lia. rewrite io_read_in by lia. by eexists.
Qed.

Lemma recovery_write_ok c x f (Hr : commit_ready c x f) log rs ro mx x1 c1 f1 (A : allocated c x f log rs ro mx x1 c1 f1) saved
    (Hsv : recovery_blocks c1 x1 (old_map_size x) 0 (blocks x1) = Some saved) ok x' c' :
  recovery_write c1 x1 ro (area_of c x mx x1 c1) = (ok, x', c') →
  setup_end c x f ok x' c' ∧ (tc_env c1 = [] → ok = true ∧ tc_env c' = []).
Proof.
  destruct (marked_sizes _ _ _ Hr _ _ _ _ _ _ _ A _ Hsv) as (S1 & S2 & S3 & S4 & S5 & S6 & S7 & S8 & S9).
  pose proof (al_map_size _ _ _ _ _ _ _ _ _ _ A) as Hms. pose proof (al_old _ _ _ _ _ _ _ _ _ _ A) as Hold.
  pose proof (al_size _ _ _ _ _ _ _ _ _ _ A) as Hsz. pose proof (al_runs _ _ _ _ _ _ _ _ _ _ A) as Hrun.
  unfold recovery_write. set (l := saved_list _ _ _ _ _) in *. pose proof (dsize_area (tc_file c) mx l _ S5 no_mark) as Hd. pose proof (len_ge l) as Hlen.
  set (ar := area_bytes _ _ _ _ _) in *.
  assert (tc_read_only c1 = false) as Hro1 by (rewrite (rn_rw _ _ _ Hrun); apply (sees_rw _ _ _ (cr_sees _ _ _ Hr))).
  destruct (runs_write c1 ro ar) as (c2 & -> & Hrun2 & Hm2 & _ & He2); [done|lia..|]. cbn [negb].
  pose proof (runs_trans _ _ _ _ _ Hrun Hrun2) as R2. pose proof (start_file _ _ _ _ _ _ _ _ _ _ A) as E2. fold l in E2. fold ar in E2.
  pose proof (rn_file _ _ _ R2) as F2. rewrite E2 in F2.
  destruct (file_sizes _ _ _ Hr _ _ _ _ _ _ _ A _ Hsv) as [Z2 _].
  destruct (transaction_sync c2) as [ok3 c3] eqn:E3. apply runs_sync in E3 as (Hrun3 & Hm3 & _ & He3); [|rewrite (rn_nosync _ _ _ R2); apply (cr_sync _ _ _ Hr)].
  pose proof (runs_trans _ _ _ _ _ R2 Hrun3) as R3. destruct ok3; cbn [negb].
  2:{ intros [= <- <- <-]. split; [|intros E; rewrite <- He2 in E; by destruct (He3 E)]. rewrite app_nil_r in R3.
      destruct (write_existing_ok _ x1 ro ar (al_blocks _ _ _ _ _ _ _ _ _ _ A)) as (_ & [Hp _ _ _] & _); [lia|].
      pose proof (al_nesting _ _ _ _ _ _ _ _ _ _ A). pose proof (al_magic _ _ _ _ _ _ _ _ _ _ A).
      eapply setup_early; [injection Hp; congruence|injection Hp; congruence|exact R3|]. intros fe. by eapply safe_start. }
  cbn [magic_offset set_magic_offset]. rewrite u32_id by (unfold is_u32; lia). pose proof (rn_file _ _ _ Hrun3) as F3. cbn in F3.
  destruct (runs_write c3 (ro + 20) (le_bytes 4 TDB_RECOVERY_MAGIC)) as (c4 & -> & Hrun4 & Hm4 & _ & He4); rewrite ?dsize_le_bytes, ?F3, ?F2, ?Z2; try lia.
  { rewrite (rn_rw _ _ _ Hrun3), (rn_rw _ _ _ Hrun2). done. }
  pose proof (runs_trans _ _ _ _ _ R3 Hrun4) as R4. cbn [negb].
  destruct (transaction_sync c4) as [ok5 c5] eqn:E5. apply runs_sync in E5 as (Hrun5 & Hm5 & _ & He5); [|rewrite (rn_nosync _ _ _ R4); apply (cr_sync _ _ _ Hr)].
  pose proof (runs_trans _ _ _ _ _ R4 Hrun5) as R5. intros [= <- <- <-]. split.
  - eapply setup_late; [done|done| |congruence]. rewrite <- !app_assoc in R5. rewrite <- app_assoc. exact R5.
  - intros E. rewrite <- He2 in E. destruct (He3 E) as [_ E']. rewrite <- He4 in E'. by apply He5.
Qed.

Lemma setup_recovery_ok c x f ok x' c' :
  commit_ready c x f → transaction_setup_recovery c x = (ok, x', c') →
  setup_end c x f ok x' c'
  ∧ (tc_env c = [] → head_of (tc_file c) = 0 → ¬ too_big c x (tc_map_size c) → ok = true ∧ tc_env c' = []).
Proof.
  intros Hr. pose proof (recovery_allocate_ok c x f Hr) as Hal. unfold transaction_setup_recovery.
  destruct (tdb_recovery_allocate c x) as [[[[[rs ro] mx]|] x1] c1].
  2:{ intros [= <- <- <-]. destruct Hal as (Hp & Hrun & Hb). split; [|intros; exfalso; auto]. pose proof (cr_nesting _ _ _ Hr). pose proof (cr_magic _ _ _ Hr).
      eapply setup_early; [injection Hp; congruence|injection Hp; congruence|done|]. intros fe. apply safe_nil. intros ff. by eapply atomic_start. }
  destruct Hal as (log & f1 & A). pose proof (al_map_size _ _ _ _ _ _ _ _ _ _ A) as Hms. pose proof (al_old _ _ _ _ _ _ _ _ _ _ A) as Hold.
  pose proof (al_size _ _ _ _ _ _ _ _ _ _ A) as Hsz. pose proof (al_runs _ _ _ _ _ _ _ _ _ _ A) as Hrun. pose proof (al_env _ _ _ _ _ _ _ _ _ _ A) as Henv.
  destruct (recovery_blocks c1 x1 (old_map_size x) 0 (blocks x1)) as [saved|] eqn:Hsv.
  2:{ intros [= <- <- <-]. split.
      - eapply setup_early; [apply (al_nesting _ _ _ _ _ _ _ _ _ _ A)|apply (al_magic _ _ _ _ _ _ _ _ _ _ A)|done|].
        intros fe. eapply safe_prefix, (safe_unmarked _ _ _ Hr _ _ _ _ _ _ _ A _ (replicate 24 0)); [|done]. pose proof (al_mx _ _ _ _ _ _ _ _ _ _ A).
        change (dsize (replicate 24 0)) with 24. lia.
      - intros _ H0 _. exfalso. destruct (al_log _ _ _ _ _ _ _ _ _ _ A) as [(_ & _ & Hn & _)|(n & _ & _ & _ & Eo)]; [done|].
        pose proof (al_blocks _ _ _ _ _ _ _ _ _ _ A) as Hb. destruct (recovery_blocks_total c1 x1 (old_map_size x) 0 (blocks x1)) as [? E]; [done|lia|apply Hb| |congruence].
        intros j b Hj. destruct (bk_blocks _ _ Hb j b Hj) as (_ & ? & ?). cbn [Nat.add]. lia. }
  destruct (saved_facts _ _ _ _ _ _ _ _ _ _ A _ Hsv) as (Es & _ & Er). pose proof (ov_file _ _ _ (sees_overlay _ _ _ (cr_sees _ _ _ Hr))) as Ef.
  assert (rec_bytes (mk_rec 0 mx (old_map_size x) rs 0 TDB_RECOVERY_INVALID_MAGIC) ++ saved ++ le_bytes 4 (u32 (sizeof_rec + mx)) = area_of c x mx x1 c1) as ->
    by (unfold area_bytes; by rewrite Es, Er, Ef).
  intros E. pose proof (recovery_write_ok _ _ _ Hr _ _ _ _ _ _ _ A _ Hsv _ _ _ E) as [H1 H2]. split; [done|auto].
Qed.

(** Giving up a transaction. *)
Lemma cancel_early c x :
  tc_transaction c = Some x → nesting x = 0 → magic_offset x = 0 →
  ∃ c', tdb_transaction_cancel c = (true, c') ∧ runs c [] c' ∧ tc_transaction c' = None.
Proof.
  intros Ht Hn Hm. unfold tdb_transaction_cancel. rewrite Ht, Hn, Hm. cbn [Z.eqb negb]. eexists. split; [done|]. split; [by apply runs_same|done].
Qed.
Lemma cancel_late c x (mk : Z) :
  tc_transaction c = Some x → nesting x = 0 → magic_offset x = mk → 0 < mk → mk + 4 <= old_map_size x < 2 ^ 32 → mk + 4 <= dsize (tc_file c) →
  tc_read_only c = false → tc_nosync c = false →
  ∃ fin, runs c (DWrite mk (le_bytes 4 no_mark) :: fin) (tdb_transaction_cancel c).2 ∧ (fin = [] ∨ fin = [DSync])
  ∧ tc_transaction (tdb_transaction_cancel c).2 = None.
Proof.
  intros Ht Hn Hm H0 H1 H2 Hro Hns. unfold tdb_transaction_cancel. rewrite Ht, Hn, Hm. cbn [Z.eqb negb]. rewrite (proj2 (Z.eqb_neq _ _)) by lia.
  destruct (runs_write (set_tc_map_size c (old_map_size x)) mk (le_bytes 4 no_mark)) as (c1 & E & R1 & M1 & _ & _);
    cbn [tc_file tc_map_size tc_read_only set_tc_map_size]; rewrite ?dsize_le_bytes; try lia; [done|]. change TDB_RECOVERY_INVALID_MAGIC with no_mark. rewrite E. cbn [negb].
  destruct (transaction_sync c1) as [ok c2] eqn:E2. apply runs_sync in E2 as (R2 & _); [|by rewrite (rn_nosync _ _ _ R1)]. cbn [snd].
  pose proof (runs_trans _ _ _ _ _ R1 R2) as [F L N R]. exists (if ok then [DSync] else []). split; [by split|]. split; [|done]. destruct ok; auto.
Qed.

Lemma keeps_app Q m cur l1 l2 : keeps Q m cur (l1 ++ l2) ↔ keeps Q m cur l1 ∧ keeps Q m (apply_ops l1 cur) l2.
Proof.
  revert cur. induction l1 as [|op l1 IH]; intros cur; cbn [app keeps apply_ops foldl]; [tauto|]. rewrite IH. unfold apply_ops. tauto.
Qed.
Lemma keeps_mono Q m1 m2 cur log : m2 <= m1 → keeps Q m1 cur log → keeps Q m2 cur log.
Proof. intros Hm. revert cur. induction log as [|op log IH]; intros cur; cbn [keeps]; [done|]. intros (? & ? & ?). split_and!; [done|lia|lia|by apply IH]. Qed.
Lemma keeps_last Q m cur log : Q cur → keeps Q m cur log → Q (apply_ops log cur).
Proof. revert cur. induction log as [|op log IH]; intros cur Hc; cbn [keeps]; [done|]. intros (H1 & _ & H2). cbn [apply_ops foldl]. by apply IH. Qed.

Section finish.
Context c x f (Hr : commit_ready c x f) log (rs ro mx : Z) x1 c1 f1 (A : allocated c x f log rs ro mx x1 c1 f1).
Context saved (Hsv : recovery_blocks c1 x1 (old_map_size x) 0 (blocks x1) = Some saved).
#[local] Abbreviation f0 := (tc_file c).
#[local] Abbreviation g := (tc_file c1).
#[local] Abbreviation F2 := (file2 c x ro mx x1 c1).
#[local] Abbreviation F3 := (file3 c x ro mx x1 c1).
#[local] Abbreviation old_phase := (phase_old c x ro mx x1 c1).
#[local] Abbreviation mixed := (phase_mixed c x ro mx x1 c1).
#[local] Abbreviation X3 := (x3 c x ro mx x1 c1).
#[local] Abbreviation start := (log_area c x log ro mx x1 c1).

Lemma given_up_ok (s1 fin : list disk_op) c' :
  s1 = [] ∨ s1 = [DSync] → fin = [] ∨ fin = [DSync] →
  runs c (start ++ DSync :: mark ro valid_mark :: s1 ++ mark ro no_mark :: fin) c' →
  safe (atomic c f0 (tc_file c')) [f0] f0 (start ++ DSync :: mark ro valid_mark :: s1 ++ mark ro no_mark :: fin).
Proof.
  intros Hs1 Hfin Hrun. destruct (marked_sizes _ _ _ Hr _ _ _ _ _ _ _ A _ Hsv) as (S1 & S2 & S3 & S4 & S5 & S6 & S7 & S8 & S9).
  destruct (file_sizes _ _ _ Hr _ _ _ _ _ _ _ A _ Hsv) as [Z2 Z3]. set (F4 := write_at (ro + 20) (le_bytes 4 no_mark) F3).
  pose proof (len_ge (saved_list g x1 (old_map_size x) 0 (blocks x1))).
  pose proof (phase_old_3 _ _ _ Hr _ _ _ _ _ _ _ A _ Hsv) as P3.
  assert (old_phase F4) as P4 by (apply (phase_old_mark _ _ _ Hr _ _ _ _ _ _ _ A _ Hsv); [by left|done]).
  assert (dsize F4 = dsize g) as Z4 by (unfold F4; rewrite dsize_write; rewrite ?dsize_le_bytes; lia).
  assert (tc_file c' = F4) as Efe.
  { rewrite (rn_file _ _ _ Hrun). unfold apply_ops. rewrite foldl_app. fold (apply_ops start f0). rewrite (start_file _ _ _ _ _ _ _ _ _ _ A).
    by destruct Hs1 as [-> | ->], Hfin as [-> | ->]. }
  apply (safe_given_up _ _ _ Hr _ _ _ _ _ _ _ A _ Hsv).
  - rewrite Efe. destruct P4 as [P|P]; exact (full_head _ _ _ Hr _ _ _ _ _ _ _ A _ Hsv _ _ _ P).
  - cbn [keeps mark apply_op]. fold F3. split; [done|]. split; [lia|].
    assert (keeps old_phase (dsize g) F4 fin) as Hk.
    { destruct Hfin as [-> | ->]; [done|]. cbn [keeps apply_op]. split; [done|]. split; [lia|done]. }
    destruct Hs1 as [-> | ->]; cbn [app keeps apply_op mark]; fold F4.
    + split; [done|]. split; [lia|]. exact Hk.
    + split; [done|]. split; [lia|]. split; [done|]. split; [lia|]. exact Hk.
Qed.

(** The blocks are written to a file [c2] that is marked and long enough. *)
Context (ex : list disk_op) c2
  (Hrun2 : runs c (start ++ DSync :: ([mark ro valid_mark] ++ DSync :: ex)) c2)
  (Hex : keeps mixed (dsize g) F3 ex) (Hfull : full c x ro mx x1 c1 (λ _, False) valid_mark (tc_file c2))
  (Hsize : tc_map_size c1 <= dsize (tc_file c2)) (Hmap : tc_map_size c2 = dsize (tc_file c2)) (Hmap' : tc_map_size c2 < 2 ^ 32).

Lemma write_out_marked xp :
  blocks xp = blocks X3 → block_size xp = block_size X3 → (∀ i, block_length xp i = block_length X3 i) →
  ∃ ws c3, write_out c2 xp 0 (blocks xp) = (true, c3) ∧ runs c (start ++ DSync :: ([mark ro valid_mark] ++ DSync :: (ex ++ ws))) c3
  ∧ keeps mixed (dsize g) F3 (ex ++ ws) ∧ mixed (tc_file c3) ∧ tc_file c3 = apply_ops (ex ++ ws) F3
  ∧ tc_map_size c3 = tc_map_size c2 ∧ tc_transaction c3 = tc_transaction c2 ∧ tc_env c3 = tc_env c2 ∧ dsize (tc_file c3) = dsize (tc_file c2)
  ∧ ∀ o, 0 <= o < dsize f1 → ¬ reserved f0 o → byte_at (tc_file c3) o = byte_at f1 o.
Proof.
  intros Eb Es El. destruct (marked_sizes _ _ _ Hr _ _ _ _ _ _ _ A _ Hsv) as (S1 & S2 & S3 & S4 & S5 & S6 & S7 & S8 & S9).
  destruct (marked_blocks _ _ _ Hr _ _ _ _ _ _ _ A _ Hsv) as (Bk & _ & Bout & _).
  assert (∀ o, bbyte xp o = bbyte X3 o) as Ebb by (intros o; unfold bbyte; by rewrite Eb, Es, El).
  assert (blocks_ok (tc_map_size c1) xp) as Bkp.
  { split; [rewrite Es; apply Bk|]. intros i b. rewrite Eb, El, Es. apply (bk_blocks _ _ Bk). }
  pose proof (rn_file _ _ _ Hrun2) as F2'. rewrite (blocks_file _ _ _ _ _ _ _ _ _ _ A) in F2'.
  pose proof (phase_mixed_3 _ _ _ Hr _ _ _ _ _ _ _ A _ Hsv) as P3. pose proof (keeps_last _ _ _ _ P3 Hex) as P4. rewrite <- F2' in P4.
  destruct (write_out_ok mixed (tc_map_size c1) xp Bkp) with (bs := blocks xp) (i := 0%nat) (c := c2)
    as (ws & c3 & E & Hrun3 & Hk3 & Hm3 & Ht3 & He3 & Hd3 & Hb3); try done; try lia.
  { intros off buf s Hs [H0 Hfb] Hle. apply (mixed_write _ _ _ Hr _ _ _ _ _ _ _ A _ Hsv); [done| |done]. split; [done|]. intros o Ho. by rewrite <- Ebb, Hfb. }
  { rewrite (rn_rw _ _ _ Hrun2). apply (sees_rw _ _ _ (cr_sees _ _ _ Hr)). }
  exists ws, c3. split; [done|]. pose proof (keeps_last _ _ _ _ P4 Hk3) as P5. pose proof (rn_file _ _ _ Hrun3) as F3'. rewrite <- F3' in P5.
  assert (dsize g <= dsize (tc_file c2)) as Hg. { pose proof (al_old _ _ _ _ _ _ _ _ _ _ A). pose proof (al_size _ _ _ _ _ _ _ _ _ _ A). lia. }
  split_and!; try done.
  - pose proof (runs_trans _ _ _ _ _ Hrun2 Hrun3) as R. rewrite <- !app_assoc in R. rewrite <- !app_assoc. exact R.
  - apply keeps_app. split; [done|]. rewrite <- F2'. eapply keeps_mono; [|done]. lia.
  - rewrite F3', F2'. unfold apply_ops. by rewrite foldl_app.
  - intros o Ho Hres. pose proof (al_seen _ _ _ _ _ _ _ _ _ _ A) as Hd1.
    assert (¬ in_head o) as Hnh by (intros ?; apply Hres; by left).
    assert (¬ in_area ro (area_len (saved_list g x1 (old_map_size x) 0 (blocks x1))) o) as Hna.
    { intros Ha. unfold in_area in Ha. destruct (al_place _ _ _ _ _ _ _ _ _ _ A) as [(_ & _ & _ & Hp)|Hp]; [apply Hres, Hp; lia|lia]. }
    rewrite Hb3 by lia. rewrite Ebb, Bout by (done || lia). destruct (al_view _ _ _ _ _ _ _ _ _ _ A o Ho Hnh) as [E1|(E1 & E2 & E3)].
    + rewrite decide_True; [done|]. split; [lia|]. rewrite E1. apply byte_at_lt; lia.
    + rewrite E1, decide_False by (intros [_ [? [=]]]). rewrite <- E3. destruct (byte_at_lt f0 o) as [_ [v Hv]]; [lia..|].
      rewrite Hv. apply (fu_old _ _ _ _ _ _ _ _ _ Hfull). split; [lia|]. split; [done|]. split; [done|]. split; [by intros []|done].
Qed.
End finish.

(** How [tdb_transaction_prepare_commit] ends. *)
Inductive prepare_end c x f : bool → txn_context → Prop :=
| prepare_failed c' lg :
    runs c lg c' → safe (atomic c (tc_file c) (tc_file c')) [tc_file c] (tc_file c) lg → prepare_end c x f false c'
| prepare_done log rs ro mx x1 c1 f1 saved ex c' :
    allocated c x f log rs ro mx x1 c1 f1 → recovery_blocks c1 x1 (old_map_size x) 0 (blocks x1) = Some saved →
    runs c (log_area c x log ro mx x1 c1 ++ DSync :: ([mark ro valid_mark] ++ DSync :: ex)) c' →
    keeps (phase_mixed c x ro mx x1 c1) (dsize (tc_file c1)) (file3 c x ro mx x1 c1) ex →
    full c x ro mx x1 c1 (λ _, False) valid_mark (tc_file c') →
    tc_map_size c1 <= dsize (tc_file c') → tc_map_size c' = dsize (tc_file c') → tc_map_size c' < 2 ^ 32 →
    tc_transaction c' = Some (set_prepared (x3 c x ro mx x1 c1)) →
    prepare_end c x f true c'.

Definition prepare_tail c x : bool * txn_context :=
  let '(ok, x, c) := transaction_setup_recovery c x in
  if negb ok then failed (with_txn c x)
  else
    let x := set_prepared x in
    if tc_map_size c =? old_map_size x then (true, with_txn c x)
    else
      let '(ok, c) := io_expand_file c (old_map_size x) (u32 (tc_map_size c - old_map_size x)) in
      if negb ok then failed (with_txn c x) else (true, io_probe (with_txn c x)).

(** Giving up after the mark. *)
Lemma failed_late c x f (Hr : commit_ready c x f) log rs ro mx x1 c1 f1 (A : allocated c x f log rs ro mx x1 c1 f1) saved
    (Hsv : recovery_blocks c1 x1 (old_map_size x) 0 (blocks x1) = Some saved) (s1 : list disk_op) c2 xp :
  runs c (log_area c x log ro mx x1 c1 ++ DSync :: mark ro valid_mark :: s1) c2 → s1 = [] ∨ s1 = [DSync] →
  nesting xp = 0 → magic_offset xp = ro + 20 → old_map_size xp = old_map_size x1 →
  prepare_end c x f false (tdb_transaction_cancel (with_txn c2 xp)).2.
Proof.
  intros Hrun Hs1 Hn Hm Ho. destruct (marked_sizes _ _ _ Hr _ _ _ _ _ _ _ A _ Hsv) as (S1 & S2 & S3 & S4 & S5 & S6 & S7 & S8 & S9).
  destruct (file_sizes _ _ _ Hr _ _ _ _ _ _ _ A _ Hsv) as [Z2 Z3]. pose proof (len_ge (saved_list (tc_file c1) x1 (old_map_size x) 0 (blocks x1))).
  pose proof (al_size _ _ _ _ _ _ _ _ _ _ A).
  assert (tc_file c2 = file3 c x ro mx x1 c1) as Ef.
  { rewrite (rn_file _ _ _ Hrun). unfold apply_ops. rewrite foldl_app. fold (apply_ops (log_area c x log ro mx x1 c1) (tc_file c)).
    rewrite (start_file _ _ _ _ _ _ _ _ _ _ A). by destruct Hs1 as [-> | ->]. }
  destruct (cancel_late (with_txn c2 xp) xp (ro + 20)) as (fin & R3 & Hfin & _); try done; try lia.
  { change (tc_file (with_txn c2 xp)) with (tc_file c2). rewrite Ef. lia. }
  { change (tc_read_only c2 = false). rewrite (rn_rw _ _ _ Hrun). apply (sees_rw _ _ _ (cr_sees _ _ _ Hr)). }
  { change (tc_nosync c2 = false). rewrite (rn_nosync _ _ _ Hrun). apply (cr_sync _ _ _ Hr). }
  assert (runs c (log_area c x log ro mx x1 c1 ++ DSync :: mark ro valid_mark :: s1 ++ mark ro no_mark :: fin) (tdb_transaction_cancel (with_txn c2 xp)).2) as R.
  { assert (runs c2 (mark ro no_mark :: fin) (tdb_transaction_cancel (with_txn c2 xp)).2) as R4 by (by destruct R3).
    pose proof (runs_trans _ _ _ _ _ Hrun R4) as R. rewrite <- app_assoc in R. exact R. }
  eapply prepare_failed; [exact R|]. by eapply given_up_ok.
Qed.

Lemma prepare_tail_ok c x f ok c' :
  commit_ready c x f → prepare_tail c x = (ok, c') →
  prepare_end c x f ok c'
  ∧ (tc_env c = [] → head_of (tc_file c) = 0 → ¬ too_big c x (tc_map_size c) → ok = true ∧ tc_env c' = []).
Proof.
  intros Hr. unfold prepare_tail. destruct (transaction_setup_recovery c x) as [[ok1 x'] c2] eqn:Es.
  apply (setup_recovery_ok _ _ f) in Es as [Hend Hlive]; [|done].
  destruct Hend as [x' c2 lg Hn Hm Hrun Hsafe|ok1 log rs ro mx x1 c1 f1 saved c2 A Hsv Hrun Hms].
  { cbn [negb]. unfold failed. destruct (cancel_early (with_txn c2 x') x') as (c3 & -> & R3 & _); [done..|]. intros [= <- <-].
    split; [|intros; by destruct Hlive]. apply (prepare_failed _ _ _ _ lg); [|apply Hsafe].
    rewrite <- (app_nil_r lg). eapply runs_trans; [exact Hrun|]. by destruct R3. }
  destruct (marked_blocks _ _ _ Hr _ _ _ _ _ _ _ A _ Hsv) as (_ & Hp & _). set (X3 := x3 c x ro mx x1 c1) in *.
  assert (nesting X3 = 0 ∧ magic_offset X3 = ro + 20 ∧ old_map_size X3 = old_map_size x1) as (E1 & E2 & E3).
  { pose proof (al_nesting _ _ _ _ _ _ _ _ _ _ A). injection Hp. intros. split_and!; congruence. }
  pose proof (al_size _ _ _ _ _ _ _ _ _ _ A) as Hsz. pose proof (al_old _ _ _ _ _ _ _ _ _ _ A) as Ho1. pose proof (al_map_size _ _ _ _ _ _ _ _ _ _ A) as Hm1.
  destruct (file_sizes _ _ _ Hr _ _ _ _ _ _ _ A _ Hsv) as [_ Z3]. pose proof (full_first _ _ _ Hr _ _ _ _ _ _ _ A _ Hsv) as Fu.
  apply (full_mark _ _ _ Hr _ _ _ _ _ _ _ A _ Hsv _ _ valid_mark) in Fu. change (full c x ro mx x1 c1 (λ _, False) valid_mark (file3 c x ro mx x1 c1)) in Fu.
  destruct ok1; cbn [negb].
  2:{ unfold failed. intros [= <- <-]. split; [|intros; by destruct Hlive]. eapply failed_late; [done|done|done|exact Hrun|by left|done|done|done]. }
  assert (tc_file c2 = file3 c x ro mx x1 c1) as F2 by (rewrite (rn_file _ _ _ Hrun); exact (blocks_file _ _ _ _ _ _ _ _ _ _ A [])).
  change (old_map_size (set_prepared X3)) with (old_map_size X3). rewrite E3, Hms.
  destruct (Z.eqb_spec (tc_map_size c1) (old_map_size x1)) as [Eq|Ne].
  - intros [= <- <-]. split; [|by intros E H0 Hb; destruct (Hlive E H0 Hb)]. 
    eapply (prepare_done _ _ _ log rs ro mx x1 c1 f1 saved []); [done|done|by destruct Hrun|done|..]; change (tc_file (with_txn c2 (set_prepared X3))) with (tc_file c2); change (tc_map_size (with_txn c2 (set_prepared X3))) with (tc_map_size c2); rewrite ?F2; try lia; done.
  - rewrite u32_id by (unfold is_u32; pose proof (dsize_nonneg (tc_file c1)); lia).
    destruct (io_expand_file c2 (old_map_size x1) (tc_map_size c1 - old_map_size x1)) as [ok3 c3] eqn:Ee.
    apply runs_expand in Ee as (R3 & M3 & T3 & He3); [|rewrite (rn_rw _ _ _ Hrun); apply (sees_rw _ _ _ (cr_sees _ _ _ Hr))].
    pose proof (runs_trans _ _ _ _ _ Hrun R3) as R. destruct ok3; cbn [negb]; intros [= <- <-].
    2:{ split; [|intros E H0' Hb; destruct (Hlive E H0' Hb) as [_ E']; by destruct (He3 E')]. rewrite app_nil_r in R.
        eapply failed_late; [done|done|done|exact R|by right|done|done|done]. }
    pose proof (rn_file _ _ _ R3) as F3. cbn [apply_ops foldl apply_op] in F3. rewrite F2 in F3.
    assert (0 <= tc_map_size c1 - old_map_size x1) as Hn by lia. pose proof (full_grow _ _ _ _ _ _ _ _ _ _ Hn Fu) as Fu'.
    rewrite Z3, Hsz, <- F3 in Fu'.
    split; [|intros E H0' Hb; destruct (Hlive E H0' Hb) as [_ E']; by destruct (He3 E')].
    assert (dsize (tc_file c3) = tc_map_size c1) as Z4 by (rewrite F3, <- Hsz, <- Z3, dsize_grow; lia).
    eapply (prepare_done _ _ _ log rs ro mx x1 c1 f1 saved [DExpand (old_map_size x1) (tc_map_size c1 - old_map_size x1)]);
      try done; change (tc_file (io_probe (with_txn c3 (set_prepared X3)))) with (tc_file c3); try lia.
    + rewrite <- app_assoc in R. by destruct R.
    + cbn [keeps apply_op]. rewrite <- F3. split; [by apply full_covered|]. split; [lia|done].
    + change (dsize (tc_file c3) < 2 ^ 32). lia.
Qed.

(** The rest of [tdb_transaction_commit]. *)
Definition commit_tail (ok : bool) c : bool * bool * txn_context :=
  match ok, tc_transaction c with
  | true, Some x =>
      let '(ok, c) := write_out c x 0 (blocks x) in
      if negb ok then
        let '(_, c) := tdb_transaction_recover c in (false, false, (tdb_transaction_cancel c).2)
      else
        let x := set_blocks x ((λ _, None) <$> blocks x) in
        let need_repack := expanded x && repack_worthwhile c x in
        let x := set_blocks x [] in
        let '(ok, c) := transaction_sync (with_txn c x) in
        if negb ok then (false, false, c)
        else (true, need_repack, (tdb_transaction_cancel c).2)
  | _, _ => (false, false, c)
  end.

(** What a successful commit leaves: the content that the transaction saw, where
    the old recovery area may have been freed. *)
Definition committed c f c' : Prop :=
  tc_transaction c' = None ∧
  ∃ f1, (f1 = f ∨ head_of (tc_file c) ≠ 0 ∧ tdb_free true (flat c f) (head_of (tc_file c)) (rec_at (tc_file c) (head_of (tc_file c))) = (true, flat c f1))
  ∧ dsize f1 = dsize f ∧ dsize f1 <= dsize (tc_file c')
  ∧ ∀ o, 0 <= o < dsize f1 → ¬ reserved (tc_file c) o → byte_at (tc_file c') o = byte_at f1 o.

Definition commit_end c f (ok : bool) c' : Prop :=
  ∃ lg, runs c lg c' ∧ safe (atomic c (tc_file c) (tc_file c')) [tc_file c] (tc_file c) lg ∧ (ok = true → committed c f c').

Lemma commit_tail_ok c x f ok1 c2 ok rp c' :
  commit_ready c x f → prepare_end c x f ok1 c2 → commit_tail ok1 c2 = (ok, rp, c') →
  commit_end c f ok c' ∧ (ok1 = true → tc_env c2 = [] → ok = true).
Proof.
  intros Hr [c'' lg Hrun Hsafe|log rs ro mx x1 c1 f1 saved ex c'' A Hsv Hrun Hk Hfu Hs1 Hs2 Hs3 Ht].
  { intros [= <- _ <-]. split; [|done]. by exists lg. }
  unfold commit_tail. rewrite Ht. set (X3 := x3 c x ro mx x1 c1) in *.
  destruct (write_out_marked _ _ _ Hr _ _ _ _ _ _ _ A _ Hsv ex c'' Hrun Hk Hfu Hs1 Hs2 Hs3 (set_prepared X3))
    as (ws & c3 & -> & R3 & K3 & P3 & F3 & M3 & T3 & E3 & D3 & B3); try done. cbn [negb].
  destruct (marked_sizes _ _ _ Hr _ _ _ _ _ _ _ A _ Hsv) as (S1 & S2 & S3 & S4 & S5 & S6 & S7 & S8 & S9).
  destruct (marked_blocks _ _ _ Hr _ _ _ _ _ _ _ A _ Hsv) as (_ & Hp & _). fold X3 in Hp.
  assert (nesting X3 = 0 ∧ magic_offset X3 = ro + 20 ∧ old_map_size X3 = old_map_size x1) as (N1 & N2 & N3).
  { pose proof (al_nesting _ _ _ _ _ _ _ _ _ _ A). injection Hp. intros. split_and!; congruence. }
  pose proof (al_size _ _ _ _ _ _ _ _ _ _ A) as Hsz. pose proof (al_old _ _ _ _ _ _ _ _ _ _ A). pose proof (len_ge (saved_list (tc_file c1) x1 (old_map_size x) 0 (blocks x1))).
  set (xe := set_blocks _ []). set (need := expanded _ && _). clearbody need.
  destruct (transaction_sync (with_txn c3 xe)) as [ok4 c4] eqn:E4. apply runs_sync in E4 as (R4 & M4 & T4 & He4); [|change (tc_nosync c3 = false); rewrite (rn_nosync _ _ _ R3); apply (cr_sync _ _ _ Hr)].
  assert (runs c3 (if ok4 then [DSync] else []) c4) as R4' by (by destruct R4). pose proof (runs_trans _ _ _ _ _ R3 R4') as R5.
  pose proof (rn_file _ _ _ R4') as F4. destruct ok4; cbn [negb]; intros [= <- _ <-].
  2:{ split; [|intros _ E; rewrite <- E3 in E; by destruct (He4 E)]. rewrite app_nil_r in R5. eexists. split; [exact R5|]. split; [|done].
      apply (safe_blocks _ _ _ Hr _ _ _ _ _ _ _ A _ Hsv); [|done]. rewrite F4. exact (full_head _ _ _ Hr _ _ _ _ _ _ _ A _ Hsv _ _ _ P3). }
  destruct (cancel_late c4 xe (ro + 20)) as (fin & R6 & Hfin & T6); try done; try lia.
  { change (old_map_size xe) with (old_map_size X3). lia. }
  { rewrite F4. change (apply_ops [DSync] (tc_file c3)) with (tc_file c3). lia. }
  { rewrite (rn_rw _ _ _ R5). apply (sees_rw _ _ _ (cr_sees _ _ _ Hr)). }
  { rewrite (rn_nosync _ _ _ R5). apply (cr_sync _ _ _ Hr). }
  split; [|done]. set (ce := (tdb_transaction_cancel c4).2) in *. pose proof (runs_trans _ _ _ _ _ R5 R6) as R7. rewrite <- app_assoc in R7.
  assert (tc_file ce = write_at (ro + 20) (le_bytes 4 no_mark) (tc_file c3)) as Fe by (rewrite (rn_file _ _ _ R6), F4; by destruct Hfin as [-> | ->]).
  destruct (ready_sizes _ _ _ Hr) as (_ & _ & Hdf & _). pose proof (al_seen _ _ _ _ _ _ _ _ _ _ A) as Hd1. pose proof (al_map_size _ _ _ _ _ _ _ _ _ _ A).
  eexists. split; [exact R7|]. split; [|intros _; split; [done|]].
  - rewrite Fe, F3. apply (safe_done _ _ _ Hr _ _ _ _ _ _ _ A _ Hsv); [done|done|rewrite <- F3; lia|by rewrite <- F3].
  - exists f1. split; [apply (al_freed _ _ _ _ _ _ _ _ _ _ A)|]. split; [lia|]. rewrite Fe, dsize_write by (rewrite ?dsize_le_bytes; lia). split; [lia|].
    intros o Ho Hres. rewrite byte_write by (rewrite ?dsize_le_bytes; lia). rewrite dsize_le_bytes, decide_False; [by apply B3|]. intros Hi.
    destruct (al_place _ _ _ _ _ _ _ _ _ _ A) as [(_ & _ & _ & Hpl)|?]; [apply Hres, Hpl; lia|lia].
Qed.

(** The answers of the environment have no part in the state. *)
Lemma ask_env c ok c' : tc_ask c = (ok, c') → ∃ e, c' = set_tc_env c e ∧ (tc_env c = [] → ok = true ∧ e = []).
Proof.
  unfold tc_ask. destruct (tc_env c) as [|b env] eqn:E; intros [= <- <-]; [exists []|by exists env]. split; [|done]. destruct c. cbn in *. by rewrite E.
Qed.
Lemma overlay_env sz c x e : overlay sz c x → overlay sz (set_tc_env c e) x.
Proof. by intros []; split. Qed.
Lemma ready_env c x f e : commit_ready c x f → commit_ready (set_tc_env c e) x f.
Proof.
  intros [[] ? ? ? ? ? ? ? ? Ha]. split; try done.
  - split; try done. by apply overlay_env.
  - destruct Ha as [?|[]]; [by left|right]. by split.
Qed.
Lemma commit_end_env c e f ok c' : commit_end (set_tc_env c e) f ok c' → commit_end c f ok c'.
Proof. intros (lg & [] & Hs & Hc). exists lg. split; [by split|]. split; [exact Hs|exact Hc]. Qed.

Lemma commit_end_failed c x f :
  commit_ready c x f → tc_transaction c = Some x → commit_end c f false (failed c).2.
Proof.
  intros Hr Ht. unfold failed. destruct (cancel_early c x Ht (cr_nesting _ _ _ Hr) (cr_magic _ _ _ Hr)) as (c1 & -> & R & _).
  exists []. split; [done|]. split; [|done]. apply safe_nil. intros ff. by eapply atomic_start.
Qed.

(** Without writes there is nothing to commit. *)
Lemma commit_nothing c x f c' :
  commit_ready c x f → tc_transaction c = Some x → blocks x = [] → tdb_transaction_cancel c = (true, c') → commit_end c f true c'.
Proof.
  intros Hr Ht Hb E. destruct (cancel_early c x Ht (cr_nesting _ _ _ Hr) (cr_magic _ _ _ Hr)) as (c1 & E1 & R & T1). rewrite E in E1. injection E1 as <-.
  exists []. split; [done|]. split; [apply safe_nil; intros ff; by eapply atomic_start|]. intros _. split; [done|]. exists f. split; [by left|]. split; [done|].
  pose proof (cr_sees _ _ _ Hr) as Hs. pose proof (sees_overlay _ _ _ Hs) as Ho. pose proof (rn_file _ _ _ R) as F. cbn in F. rewrite F.
  destruct (ready_sizes _ _ _ Hr) as (H1 & H2 & H3 & H4 & H5). split.
  - destruct (decide (dsize f <= dsize (tc_file c))) as [|Hn]; [done|]. destruct (ov_new _ _ _ Ho (dsize (tc_file c))) as [b Hbl]; [lia|]. by rewrite Hb in Hbl.
  - intros o Hr' _. rewrite <- (sees_bytes _ _ _ Hs o Hr'). unfold vbyte. by rewrite Hb.
Qed.

Lemma prepare_asks c x :
  tc_transaction c = Some x → prepared x = false → transaction_error x = false → nesting x = 0 → blocks x ≠ [] →
  ∃ e, (tdb_transaction_prepare_commit c = failed (set_tc_env c e) ∧ tc_env c ≠ []
        ∨ tdb_transaction_prepare_commit c = prepare_tail (set_tc_env c e) x) ∧ (tc_env c = [] → e = []).
Proof.
  intros Ht Hp Her Hn Hb. unfold tdb_transaction_prepare_commit. rewrite Ht, Hp, Her, Hn. cbn [Z.eqb negb]. rewrite bool_decide_false by done.
  destruct (tc_ask c) as [o1 c1] eqn:E1. apply ask_env in E1 as (e1 & -> & L1).
  destruct o1; cbn [negb]; [|exists e1; split; [left; split; [done|by intros [? ?]%L1]|by intros [? ?]%L1]].
  destruct (tc_ask _) as [o2 c2] eqn:E2. apply ask_env in E2 as (e2 & -> & L2). cbn [tc_env set_tc_env] in L2.
  destruct o2; cbn [negb]; [|exists e2; split; [left; split; [done|by intros [_ [? ?]%L2]%L1]|by intros [_ [? ?]%L2]%L1]].
  destruct (tc_ask _) as [o3 c3] eqn:E3. apply ask_env in E3 as (e3 & -> & L3). cbn [tc_env set_tc_env] in L3.
  destruct o3; cbn [negb]; [|exists e3; split; [left; split; [done|by intros [_ [_ [? ?]%L3]%L2]%L1]|by intros [_ [_ [? ?]%L3]%L2]%L1]].
  exists e3. split; [by right|]. by intros [_ [_ [_ ?]%L3]%L2]%L1.
Qed.

Lemma txn_commit_ok c x f ok rp c' :
  commit_ready c x f → tc_transaction c = Some x → transaction_error x = false → tdb_transaction_commit c = (ok, rp, c') →
  commit_end c f ok c'
  ∧ (tc_env c = [] → head_of (tc_file c) = 0 → ¬ too_big c x (tc_map_size c) → ok = true).
Proof.
  intros Hr Ht Her. pose proof (sees_open _ _ _ (cr_sees _ _ _ Hr)) as Hop. pose proof (cr_nesting _ _ _ Hr) as Hn.
  unfold tdb_transaction_commit. rewrite Ht, Her, Hn, Hop. cbn [Z.eqb negb]. case_bool_decide as Hb.
  { intros [= <- <- <-]. split; [|done]. destruct (tdb_transaction_cancel c) as [o c1] eqn:E.
    destruct (cancel_early c x Ht Hn (cr_magic _ _ _ Hr)) as (c2 & E2 & _). rewrite E in E2. injection E2 as -> ->. by eapply commit_nothing. }
  destruct (prepare_asks c x Ht Hop Her Hn Hb) as (e & Hprep & He). pose proof (ready_env _ _ _ e Hr) as Hr'.
  assert (∀ r : bool * txn_context, (let '(ok, c) := r in commit_tail ok c) = commit_tail r.1 r.2) as Hpair by (by intros []).
  intros E. change ((let '(ok, c) := tdb_transaction_prepare_commit c in commit_tail ok c) = (ok, rp, c')) in E. rewrite Hpair in E.
  destruct Hprep as [[Hp Henv]|Hp]; rewrite Hp in E.
  - injection E as <- _ <-. split; [|done]. apply (commit_end_env c e). by apply (commit_end_failed _ x).
  - destruct (prepare_tail (set_tc_env c e) x) as [ok1 c1] eqn:Et. apply (prepare_tail_ok _ _ f) in Et as [Hend Hl]; [|done].
    destruct (commit_tail_ok _ _ _ _ _ _ _ _ Hr' Hend E) as [H1 H2]. split; [by apply (commit_end_env c e)|].
    intros Henv H0 Hbig. destruct Hl as [? ?]; [by apply He|done|exact Hbig|]. by apply H2.
Qed.

(** ** Whether a repack may follow *)

(** Only [transaction_expand_file] sets [expanded]. *)
Lemma read_expanded c x off len : expanded (transaction_read c x off len).2 = expanded x.
Proof.
  unfold transaction_read. generalize (S (Z.to_nat len)). intros fuel. revert x off len.
  assert (∀ x off len, expanded (read_block c x off len).2 = expanded x) as Hb by (intros; unfold read_block; by repeat case_match).
  induction fuel as [|fuel IH]; intros x off len; cbn [read_blocks]; [done|].
  destruct (_ <? _); [|destruct (len =? 0); [done|apply Hb]].
  pose proof (Hb x off (block_size x - off mod block_size x)) as Hx. destruct (read_block _ _ _ _) as [[a|] x1]; [|done]. cbn [snd] in Hx.
  specialize (IH x1 (off + (block_size x - off mod block_size x)) (len - (block_size x - off mod block_size x))).
  destruct (read_blocks _ _ _ _ _) as [[b|] x2]; cbn [snd] in *; congruence.
Qed.

Lemma mirror_expanded c x off buf : expanded (mirror_head c x off buf) = expanded x.
Proof. unfold mirror_head. by case_match. Qed.

Lemma write_expanded c x off buf : expanded (transaction_write c x off buf).2 = expanded x.
Proof.
  unfold transaction_write. destruct (prepared x); [done|]. rewrite <- (mirror_expanded c x off buf). generalize (mirror_head c x off buf), (S (length buf)).
  assert (∀ x off buf, expanded (write_block c x off buf).2 = expanded x) as Hb.
  { clear. intros x off buf. unfold write_block. set (blk := Z.to_nat _). assert (expanded (extend_blocks x blk) = expanded x) as <- by (unfold extend_blocks; by case_match).
    destruct (get_block c (extend_blocks x blk) blk) as [[b x1]|] eqn:E; [|done]. cbn [snd]. unfold put_block.
    assert (expanded x1 = expanded (extend_blocks x blk)) as <-; [|by case_match]. unfold get_block in E.
    repeat case_match; simplify_option_eq; by repeat case_match. }
  intros x1 fuel. revert x1 off buf. induction fuel as [|fuel IH]; intros x1 off buf; cbn [write_blocks]; [done|].
  destruct (_ <? _); [|destruct (_ =? 0); [done|apply Hb]]. set (piece := take _ buf).
  pose proof (Hb (mirror_head c x1 off piece) off piece) as Hx. rewrite mirror_expanded in Hx. destruct (write_block _ _ _ _) as [[] x2]; cbn [snd] in Hx; [|done]. by rewrite IH.
Qed.

Lemma existing_expanded x off buf : expanded (transaction_write_existing x off buf) = expanded x.
Proof.
  unfold transaction_write_existing. generalize (S (length buf)). intros fuel. revert x off buf.
  assert (∀ x off buf, expanded (write_existing_block x off buf) = expanded x) as Hb by (intros; unfold write_existing_block; by repeat case_match).
  induction fuel as [|fuel IH]; intros x off buf; cbn [write_existing_blocks]; [done|].
  destruct (_ <? _); [by rewrite IH|]. destruct (_ =? 0); [done|apply Hb].
Qed.

Lemma ofs_expanded c x off : expanded (txn_ofs_read c x off).2 = expanded x.
Proof. unfold txn_ofs_read. pose proof (read_expanded c x off 4) as H. by destruct (transaction_read _ _ _ _). Qed.

Lemma free_expanded c x off r : expanded (txn_free c x off r).2 = expanded x.
Proof.
  assert (∀ x off r, expanded (txn_update_tailer c x off r).2 = expanded x) as Ht by (intros; apply write_expanded).
  assert (∀ x off, expanded (txn_left_free c x off).2 = expanded x) as Hl.
  { clear. intros x off. unfold txn_left_free. destruct (negb _); [done|]. pose proof (ofs_expanded c x (u32 (off - 4))) as H.
    destruct (txn_ofs_read _ _ _) as [[l|] x1]; [|done]. cbn [snd] in H. do 2 (case_match; [done|]).
    pose proof (read_expanded c x1 (u32 (off - l)) sizeof_rec) as Hd. destruct (transaction_read _ _ _ _) as [[d|] x2]; cbn [snd] in *; congruence. }
  unfold txn_free. pose proof (Ht x off r) as E1. destruct (txn_update_tailer c x off r) as [[] x1]; cbn [snd negb] in *; [|done].
  pose proof (Hl x1 off) as E2. destruct (txn_left_free c x1 off) as [[[lft l]|] x2]; cbn [snd] in *.
  - set (l' := set_rec_len _ _). pose proof (write_expanded c x2 lft (rec_bytes l')) as E3. destruct (transaction_write _ _ _ _) as [[] x3]; cbn [snd negb] in *; [|congruence].
    rewrite Ht. congruence.
  - pose proof (ofs_expanded c x2 FREELIST_TOP) as E3. destruct (txn_ofs_read _ _ _) as [[top|] x3]; cbn [snd] in *; [|congruence].
    set (rb := rec_bytes _). pose proof (write_expanded c x3 off rb) as E4. destruct (transaction_write _ _ _ _) as [[] x4]; cbn [snd negb] in *; [|congruence].
    unfold txn_ofs_write. rewrite write_expanded. congruence.
Qed.

Lemma extend_expanded c x rs rh : expanded (recovery_extend c x rs rh).1.2 = expanded x.
Proof.
  unfold recovery_extend. case_match; [done|]. destruct (io_expand_file _ _ _) as [[] c1]; [|done]. cbn [negb].
  destruct (io_write _ _ _) as [[] c2]; [|done]. cbn [negb fst snd]. by rewrite existing_expanded.
Qed.

Lemma allocate_expanded c x : expanded (tdb_recovery_allocate c x).1.2 = expanded x.
Proof.
  unfold tdb_recovery_allocate. assert (expanded (tdb_recovery_area c x).2 = expanded x) as Ha.
  { unfold tdb_recovery_area. pose proof (ofs_expanded c x TDB_RECOVERY_HEAD) as H. destruct (txn_ofs_read _ _ _) as [[off|] x1]; [|done]. by repeat case_match. }
  destruct (tdb_recovery_area c x) as [[[rh r]|] x1]; [|done]. cbn [snd] in Ha. case_match; [done|]. case_match; [|by rewrite extend_expanded].
  assert (expanded (if negb (rh =? 0) then txn_free c x1 rh r else (true, x1)).2 = expanded x1) as Hf by (case_match; [apply free_expanded|done]).
  destruct (if negb (rh =? 0) then txn_free c x1 rh r else (true, x1)) as [[] x2]; cbn [fst snd negb] in *; [|congruence]. rewrite extend_expanded. congruence.
Qed.

Lemma setup_expanded c x : expanded (transaction_setup_recovery c x).1.2 = expanded x.
Proof.
  unfold transaction_setup_recovery. pose proof (allocate_expanded c x) as Ha.
  destruct (tdb_recovery_allocate c x) as [[[[[rs ro] mx]|] x1] c1]; [|done]. cbn [fst snd] in Ha. destruct (recovery_blocks _ _ _ _ _); [|done].
  unfold recovery_write. destruct (io_write _ _ _) as [[] c2]; [|done]. cbn [negb]. destruct (transaction_sync c2) as [[] c3]; cbn [negb]; [|cbn [fst snd]; by rewrite existing_expanded].
  set (x2 := set_magic_offset _ _). assert (expanded x2 = expanded x) as Hx2 by (unfold x2; cbn [expanded set_magic_offset]; by rewrite existing_expanded).
  destruct (io_write c3 _ _) as [[] c4]; [|done]. cbn [negb]. destruct (transaction_sync c4). cbn [fst snd]. by rewrite existing_expanded.
Qed.

Lemma commit_expanded c x ok rp c' :
  tc_transaction c = Some x → tdb_transaction_commit c = (ok, rp, c') → rp = true → expanded x = true.
Proof.
  intros Ht E ->. unfold tdb_transaction_commit in E. rewrite Ht in E.
  destruct (transaction_error x) eqn:Eer; [done|]. destruct (negb (nesting x =? 0)) eqn:Ene; [done|]. destruct (bool_decide (blocks x = [])) eqn:Ebl; [done|].
  assert (∀ x', tc_transaction (if prepared x then (true, c) else tdb_transaction_prepare_commit c).2 = Some x' →
    (if prepared x then (true, c) else tdb_transaction_prepare_commit c).1 = true → expanded x' = expanded x) as Hp.
  { intros x'. destruct (prepared x) eqn:Epr; [cbn; congruence|]. unfold tdb_transaction_prepare_commit. rewrite Ht, Epr, Eer, Ene, Ebl.
    do 3 (destruct (tc_ask _) as [[] ?]; [|done]; cbn [negb]).
    match goal with |- context [transaction_setup_recovery ?d x] => pose proof (setup_expanded d x) as Hs; destruct (transaction_setup_recovery d x) as [[[] x1] c1] end; [|done].
    cbn [negb fst snd] in *. destruct (tc_map_size c1 =? old_map_size (set_prepared x1)); [intros E1 _; apply (inj Some) in E1; by subst x'|].
    destruct (io_expand_file _ _ _) as [[] c2]; [|done]. cbn [negb]. intros E1 _. apply (inj Some) in E1. by subst x'. }
  destruct (if prepared x then (true, c) else tdb_transaction_prepare_commit c) as [ok1 c1]. cbn [fst snd] in Hp.
  destruct ok1; [|by simplify_eq]. destruct (tc_transaction c1) as [x1|]; [|by simplify_eq]. rewrite <- (Hp x1) by done.
  destruct (write_out _ _ _ _) as [[] c2]; cbn [negb] in E; [|by repeat case_match; simplify_eq].
  destruct (transaction_sync _) as [[] c3]; cbn [negb] in E; [|by simplify_eq].
  injection E as _ Hr _. cbn [expanded set_blocks] in Hr. by apply andb_prop in Hr as [? _].
Qed.

(** Without a growth no repack follows. *)
Definition grows (op : txn_op) : bool := match op with TGrow _ => true | _ => false end.
Lemma run_ops_expanded ops c x c' x' :
  forallb (λ op, negb (grows op)) ops = true → tc_transaction c = Some x → (run_ops c ops).2 = c' → tc_transaction c' = Some x' →
  expanded x' = expanded x.
Proof.
  revert c x. induction ops as [|op ops IH]; intros c x Hg Ht; cbn [run_ops]; [cbn [snd]; intros <-; congruence|].
  cbn [forallb] in Hg. apply andb_prop in Hg as [Hop Hg].
  assert (∃ x1, tc_transaction (run_op c op).2 = Some x1 ∧ expanded x1 = expanded x) as (x1 & Ht1 & E1).
  { unfold run_op. rewrite Ht. destruct op as [off len|off buf|n|h]; [| |done|by exists x].
    - pose proof (read_expanded c x off len) as H. destruct (transaction_read _ _ _ _) as [d x1]. by exists x1.
    - pose proof (write_expanded c x off buf) as H. destruct (transaction_write _ _ _ _) as [b x1]. by exists x1. }
  destruct (run_op c op) as [r c1]. cbn [snd] in Ht1. specialize (IH c1 x1 Hg Ht1). destruct (run_ops c1 ops) as [rs c2]. cbn [snd] in *.
  intros <- Hx'. rewrite <- E1. by apply IH.
Qed.

(** ** Theorems *)

(** What a commit relies on, of the file before the transaction and the content
    [f] that the transaction has made: files are synced, the transaction has left
    the pointer to the recovery area alone, the size is a multiple of four, and
    the recovery area is a free piece of the file that carries no mark. *)
Record recoverable c f : Prop := {
  rc_sync : tc_nosync c = false;
  rc_head : read_at TDB_RECOVERY_HEAD 4 f = read_at TDB_RECOVERY_HEAD 4 (tc_file c);
  rc_head_bytes : Forall is_u8 (read_at TDB_RECOVERY_HEAD 4 (tc_file c));
  rc_aligned : dsize f mod 4 = 0;
  rc_area : head_of (tc_file c) = 0 ∨ area_ready c f (head_of (tc_file c));
}.

Lemma started_ready c c1 ops f :
  open_file c → recoverable c f → tdb_transaction_start c = (true, c1) → valid_ops c (tc_file c) ops → (flat_ops c (tc_file c) ops).2 = f →
  let c2 := (run_ops c1 ops).2 in
  (∃ x, commit_ready c2 x f ∧ tc_transaction c2 = Some x ∧ transaction_error x = false)
  ∧ tc_file c2 = tc_file c ∧ tc_log c2 = tc_log c ∧ (∀ g, reopen c2 g = reopen c g) ∧ (∀ g, flat c2 g = flat c g)
  ∧ (tc_env c = [] → tc_env c2 = []).
Proof.
  intros Hc [R1 R2 R3 R4 R5] Hstart Hv Hf c2. destruct (start_sees _ _ Hc Hstart) as (x & env & Hx & Hs & Hm & Hn & Her & Ho & _ & -> & Henv).
  assert (in_txn (with_txn (set_tc_env c env) x) (tc_file c) (dsize (tc_file c)) 0) as Hi by (by exists x).
  destruct (flat_ops_same c (with_txn (set_tc_env c env) x) ops (tc_file c)) as [Hfl Hval]; [done..|].
  destruct (run_ops_ok ops _ _ _ _ Hi (Hval Hv)) as (_ & (x' & Ht' & Hs' & Hm' & Hn' & Ho' & He') & Hp). rewrite Hfl, Hf in Hs'. fold c2 in Ht', Hs', Hp.
  injection Hp as P1 P2 P3 P4 P5 P6 P7 P8. cbn in P1, P2, P3, P4, P5, P6, P7, P8.
  assert (∀ g, flat c2 g = flat c g) as Hflat by (intros g; unfold flat; by rewrite P3, P4).
  split; [|split_and!; try done; [intros g; unfold reopen; by rewrite P3, P4, P6, P7|rewrite P8; by apply Henv]].
  exists x'. split; [|done]. pose proof (open_table _ Hc) as Htab. pose proof (sees_size _ _ _ Hs').
  assert (table_end c2 = table_end c) as Et by (unfold table_end; by rewrite P3).
  split; rewrite ?P1, ?P3, ?P4, ?P6, ?Et; try done; [lia|congruence|apply (open_page _ Hc)|].
  destruct R5 as [?|[A1 A2 A3 A4 A5 A6]]; [by left|right]. split; rewrite ?P1, ?Et; try done. unfold left_tiled in *. by rewrite Hflat.
Qed.

(** C5: a commit is atomic: whatever a transaction has done to a file, if the machine
    stops after any of the writes and syncs of [tdb_transaction_commit], with any
    of the writes since the last sync lost, then the next process recovers the file
    without an error, and it then has the old content (outside of the recovery
    area) or exactly the new content; and a commit that reports success has
    written what the transaction saw (before a repack that may follow). *)
Theorem commit_atomic c c1 ops f
    (Hc : open_file c) (Hrec : recoverable c f) (Hstart : tdb_transaction_start c = (true, c1))
    (Hv : valid_ops c (tc_file c) ops) (Hf : (flat_ops c (tc_file c) ops).2 = f) :
  let '(ok, _, c3) := tdb_transaction_commit (run_ops c1 ops).2 in
  ∃ log, tc_log c3 = tc_log c ++ log ∧ tc_file c3 = apply_ops log (tc_file c)
  ∧ (∀ n g, crash (tc_file c) (take n log) g → atomic c (tc_file c) (tc_file c3) g)
  ∧ (ok = true → committed c f c3).
Proof.
  destruct (started_ready _ _ _ _ Hc Hrec Hstart Hv Hf) as ((x & Hr & Ht & He) & E1 & E2 & E3 & E4 & _). set (c2 := (run_ops c1 ops).2) in *.
  destruct (tdb_transaction_commit c2) as [[ok rp] c3] eqn:Ec. destruct (txn_commit_ok _ _ _ _ _ _ Hr Ht He Ec) as [(log & [F L _ _] & Hsafe & Hok) _].
  exists log. split; [by rewrite L, E2|]. split; [by rewrite F, E1|]. split.
  - intros n g Hcr. rewrite E1 in Hsafe. destruct (Hsafe n g Hcr) as (c' & Hrc). rewrite E3 in Hrc. by exists c'.
  - intros Ho. destruct (Hok Ho) as (T & f1 & H). split; [done|]. exists f1. by rewrite !E4, !E1 in H.
Qed.

Lemma commit_repacks c c1 ops x ok c' :
  open_file c → tdb_transaction_start c = (true, c1) → tc_transaction (run_ops c1 ops).2 = Some x →
  tdb_transaction_commit (run_ops c1 ops).2 = (ok, true, c') → ∃ n, TGrow n ∈ ops.
Proof.
  intros Hc Hstart Hx Ec. apply (commit_expanded _ _ _ _ _ Hx) in Ec; [|done].
  destruct (forallb (λ op, negb (grows op)) ops) eqn:Hg.
  - assert (∃ x0, tc_transaction c1 = Some x0 ∧ expanded x0 = false) as (x0 & Hx0 & E0).
    { revert Hstart. unfold tdb_transaction_start. rewrite (open_rw _ Hc), (open_none _ Hc).
      do 3 (destruct (tc_ask _) as [[] ?]; cbn [negb]; [|done]). destruct (io_read _ _ _); [|done]. intros [= <-]. by eexists. }
    rewrite (run_ops_expanded ops c1 x0 _ x Hg Hx0 eq_refl Hx) in Ec. congruence.
  - assert (¬ Forall (λ op, grows op = false) ops) as Hn.
    { intros Hf. rewrite <- not_true_iff_false in Hg. apply Hg, forallb_forall. intros op Hin. rewrite Forall_forall in Hf. by rewrite (Hf op) by (by apply list_elem_of_In). }
    apply not_Forall_Exists in Hn; [|apply _]. apply Exists_exists in Hn as ([off len|off buf|n|h] & Hin & Hgr); [by destruct Hgr..|by exists n|by destruct Hgr].
Qed.


(** *** Witnesses: the transaction of TdbTxnView.v *)

Lemma current_seen seen cur log : cur ∈ seen → apply_ops log cur ∈ since_sync seen cur log.
Proof.
  revert seen cur. induction log as [|op log IH]; intros seen cur Hin; [done|]. cbn [apply_ops foldl since_sync]. destruct op; apply IH; apply elem_of_cons; by left.
Qed.
Lemma crash_current f0 log : crash f0 log (apply_ops log f0).
Proof. split; [done|]. intros w. exists (apply_ops log f0). split; [|done]. apply current_seen. by apply list_elem_of_singleton. Qed.

Definition example_view : bytes := (flat_ops example_txn (tc_file example_txn) example_ops).2.
Definition example_committed : txn_context := (tdb_transaction_commit (run_ops example_started example_ops).2).2.
(** A power failure while the second block is being written. *)
Definition example_crash : bytes := apply_ops (take 8 (tc_log example_committed)) (tc_file example_txn).

Lemma example_start : tdb_transaction_start example_txn = (true, example_started).
Proof. vm_compute. reflexivity. Qed.
Lemma example_valid : valid_ops example_txn (tc_file example_txn) example_ops.
Proof.
  vm_compute. repeat split; try discriminate; try (by left; left); try (by left; right). right. split; [done|]. by exists 1.
Qed.
Lemma example_recoverable : recoverable example_txn example_view.
Proof. split; [done|vm_compute; reflexivity| |vm_compute; reflexivity|left; vm_compute; reflexivity]. by repeat (constructor; [done|]). Qed.

Lemma commit_atomic_witness :
  atomic example_txn (tc_file example_txn) (tc_file example_committed) example_crash.
Proof.
  pose proof (commit_atomic example_txn example_started example_ops example_view example_txn_open example_recoverable example_start example_valid eq_refl) as H.
  unfold example_crash, example_committed. destruct (tdb_transaction_commit _) as [[ok rp] c3]. destruct H as (log & Hl & _ & H & _). cbn [snd]. rewrite Hl.
  apply (H 8%nat). apply crash_current.
Defined.

