(* ===== verification/TdbInterrupted.v ===== *)
(** * A recovery that is interrupted

    [tdb_transaction_recover] writes the saved blocks back before it removes the
    mark.  One of them may contain the head of the recovery area itself, as it was
    before the transaction: without a mark.  A second power failure can then keep
    this block and lose the others. *)
From S2P Require Import Prelude TdbFile TdbLayout TdbTxn TdbTxnView TdbCrash TdbCommit TdbAtomic.
Import Tdb Txn.

(** Of two writes, to different words, only the second reaches the disk. *)
Lemma crash_second f o1 b1 o2 b2 :
  0 <= o1 → o1 + dsize b1 <= o2 → o2 + dsize b2 <= dsize f → o2 mod 4 = 0 → dsize b2 mod 4 = 0 →
  crash f [DWrite o1 b1; DWrite o2 b2] (write_at o2 b2 f).
Proof.
  intros H1 H2 H3 Ha Hb. pose proof (dsize_nonneg b1). pose proof (dsize_nonneg b2).
  unfold crash. cbn [apply_ops foldl apply_op since_sync].
  split; [rewrite !dsize_write; rewrite ?dsize_write; lia|]. intros w. rewrite dsize_write by lia.
  destruct (decide (o2 <= 4 * w < o2 + dsize b2)) as [Hw|Hw].
  - eexists. split; [apply elem_of_cons; by left|]. intros o Eo Ho. rewrite !byte_write; rewrite ?dsize_write; try lia.
    assert (o2 <= o < o2 + dsize b2) by (pose proof (Z.div_mod o 4); pose proof (Z.mod_pos_bound o 4); pose proof (Z.div_mod o2 4); pose proof (Z.div_mod (dsize b2) 4); lia).
    by rewrite !decide_True by lia.
  - exists f. split; [rewrite !elem_of_cons; auto|]. intros o Eo Ho. rewrite byte_write by lia.
    rewrite decide_False; [done|]. pose proof (Z.div_mod o 4); pose proof (Z.mod_pos_bound o 4). pose proof (Z.div_mod o2 4). pose proof (Z.div_mod (dsize b2) 4). lia.
Qed.

(** Pages of 32 bytes.  The first transaction puts the recovery area at offset
    292, into the last page; the second one writes to this page and another one. *)
Definition twice_start : txn_context := mk_tc (replicate 292 0) 292 [] None 1 32 false true false [].
Definition txn_of c (ops : list txn_op) : txn_context :=
  (tdb_transaction_commit (run_ops (tdb_transaction_start c).2 ops).2).2.
Definition twice_once : txn_context := txn_of twice_start [TWrite 180 [1; 1; 1; 1]].
Definition twice_both : txn_context := txn_of (reopen twice_once (tc_file twice_once)) [TWrite 180 [2; 2; 2; 2]; TWrite 288 [2; 2; 2; 2]].
(** The machine stops when the blocks of the second transaction are written, and
    again when the next process has written both of them back; of the latter
    writes, only the second one survives. *)
Definition twice_crash : bytes := apply_ops (take 6 (tc_log twice_both)) (tc_file twice_once).
Definition twice_recover : txn_context := (tdb_transaction_recover (reopen twice_once twice_crash)).2.
Definition twice_lost : bytes := write_at 288 (read_at 288 32 (tc_file twice_once)) twice_crash.

Lemma idle_at f (size h m : Z) :
  dsize f = size → head_of f = h → magic (rec_at f h) = m → 48 <= size < 2 ^ 32 → 0 <= h → h + 24 <= size → m ≠ TDB_RECOVERY_MAGIC → idle f.
Proof. intros <- <- <- ? ? ? ?. split; [done|]. by right. Qed.
Lemma recover_reopen c f : idle f → tdb_transaction_recover (reopen c f) = (true, reopen c f) ∧ tdb_needs_recovery (reopen c f) = false.
Proof. intros. by apply recover_idle. Qed.
Lemma twice_idle : idle twice_lost.
Proof. apply (idle_at twice_lost 4704 292 0); [vm_compute; reflexivity..|lia|lia|lia|discriminate]. Qed.

(** C38: a recovery cannot be interrupted: a transaction that changes 1 to 2 at offset
    180 and 0 to 2 at offset 288 is committed, the machine stops before the commit
    is complete and once more during the recovery, and the next process finds
    nothing to recover although one change is there and the other is not. *)
Theorem recovery_not_restartable :
  crash (tc_file twice_once) (take 6 (tc_log twice_both)) twice_crash
  ∧ crash twice_crash (take 2 (tc_log twice_recover)) twice_lost
  ∧ tdb_transaction_recover (reopen twice_once twice_lost) = (true, reopen twice_once twice_lost)
  ∧ tdb_needs_recovery (reopen twice_once twice_lost) = false
  ∧ read_at 180 4 (tc_file twice_once) = [1; 1; 1; 1] ∧ read_at 180 4 twice_lost = [2; 2; 2; 2]
  ∧ read_at 288 4 (tc_file twice_both) = [2; 2; 2; 2] ∧ read_at 288 4 twice_lost = [0; 0; 0; 0].
Proof.
  split; [unfold twice_crash; apply crash_current|]. split.
  2:{ destruct (recover_reopen twice_once twice_lost twice_idle) as [E1 E2]. split; [exact E1|]. split; [exact E2|].
      do 3 (split; [vm_compute; reflexivity|]). vm_compute. reflexivity. }
  assert (take 2 (tc_log twice_recover)
    = [DWrite 160 (read_at 160 32 (tc_file twice_once)); DWrite 288 (read_at 288 32 (tc_file twice_once))]) as -> by (vm_compute; reflexivity).
  assert (dsize (read_at 160 32 (tc_file twice_once)) = 32) as E1 by (vm_compute; reflexivity).
  assert (dsize (read_at 288 32 (tc_file twice_once)) = 32) as E2 by (vm_compute; reflexivity).
  assert ((320 <=? dsize twice_crash) = true) as E3%Z.leb_le by (vm_compute; reflexivity).
  unfold twice_lost. apply crash_second; rewrite ?E1, ?E2; done || lia.
Qed.
