(* ===== verification/TdbLock.v ===== *)
(** * Locks of a tdb file

    [lib/tdb/common/lock.c]: the chains of a tdb file are locked with byte range
    locks of the kernel ([fcntl]), one byte for each hash chain and one for the
    free list, or all at once.  The locks of the kernel belong to a process and do
    not nest; nesting is counted in [lockrecs] and [allrecord_lock].

    An operation is a program ([prog]) whose steps are the calls of [fcntl] and of
    the recovery code, between which other processes run; it returns its result
    and the new context.  Repeating [fcntl] after an interrupt is part of the
    step.  Whether a recovery is needed, and whether it succeeds, is up to the file,
    which other processes change: both are answers. *)
From S2P Require Import Prelude TdbFile.

Module TdbLock.

Inductive lock_type := F_RDLCK | F_WRLCK.
#[export] Instance lock_type_eq_dec : EqDecision lock_type.
Proof. solve_decision. Defined.
Inductive TDB_ERROR := TDB_SUCCESS | TDB_ERR_LOCK | TDB_ERR_RDONLY.
Implicit Types (ltype rw : lock_type) (off len flags : Z).

Definition OPEN_LOCK : Z := 0.
Definition ACTIVE_LOCK : Z := 4.
Definition TRANSACTION_LOCK : Z := 8.
Definition TDB_LOCK_NOWAIT : Z := 0.
Definition TDB_LOCK_WAIT : Z := 1.
Definition TDB_LOCK_PROBE : Z := 2.
Definition TDB_LOCK_MARK_ONLY : Z := 4.
Definition flag flags (bit : Z) : bool := negb (Z.land flags bit =? 0).

Record tdb_lock_type := mk_lock { lk_off : Z; lk_count : Z; lk_ltype : lock_type }.
Record lock_context := mk_lc {
  lc_read_only : bool;
  lc_traverse_read : bool;
  lc_nolock : bool;               (* TDB_NOLOCK *)
  lc_hash_size : Z;
  lc_transaction : bool;
  lc_travlocks : list Z;
  lc_allrecord : tdb_lock_type;   (* [lk_off]: upgradable *)
  lc_lockrecs : list tdb_lock_type;
  lc_ecode : TDB_ERROR;
  lc_edeadlk : bool;              (* errno is EDEADLK *)
}.
Implicit Types (c : lock_context).
Definition set_allrecord c (a : tdb_lock_type) : lock_context :=
  mk_lc (lc_read_only c) (lc_traverse_read c) (lc_nolock c) (lc_hash_size c) (lc_transaction c) (lc_travlocks c) a (lc_lockrecs c) (lc_ecode c) (lc_edeadlk c).
Definition set_lockrecs c (l : list tdb_lock_type) : lock_context :=
  mk_lc (lc_read_only c) (lc_traverse_read c) (lc_nolock c) (lc_hash_size c) (lc_transaction c) (lc_travlocks c) (lc_allrecord c) l (lc_ecode c) (lc_edeadlk c).
Definition set_ecode c (e : TDB_ERROR) : lock_context :=
  mk_lc (lc_read_only c) (lc_traverse_read c) (lc_nolock c) (lc_hash_size c) (lc_transaction c) (lc_travlocks c) (lc_allrecord c) (lc_lockrecs c) e (lc_edeadlk c).
Definition set_edeadlk c (b : bool) : lock_context :=
  mk_lc (lc_read_only c) (lc_traverse_read c) (lc_nolock c) (lc_hash_size c) (lc_transaction c) (lc_travlocks c) (lc_allrecord c) (lc_lockrecs c) (lc_ecode c) b.

(** ** Programs *)

Inductive fcntl_result := Granted | Refused (edeadlk : bool).
Inductive prog (A : Type) :=
| Ret (a : A)
| Setlk (rw : lock_type) (off len : Z) (wait : bool) (k : fcntl_result → prog A)
| Unlk (off len : Z) (k : bool → prog A)
| NeedsRecovery (k : bool → prog A)
| Recover (k : Z → prog A)
| Stuck.
Arguments Ret {A}.
Arguments Setlk {A}.
Arguments Unlk {A}.
Arguments NeedsRecovery {A}.
Arguments Recover {A}.
Arguments Stuck {A}.
Fixpoint pbind {A B} (p : prog A) (f : A → prog B) : prog B :=
  match p with
  | Ret a => f a
  | Setlk rw off len wait k => Setlk rw off len wait (λ r, pbind (k r) f)
  | Unlk off len k => Unlk off len (λ r, pbind (k r) f)
  | NeedsRecovery k => NeedsRecovery (λ r, pbind (k r) f)
  | Recover k => Recover (λ r, pbind (k r) f)
  | Stuck => Stuck
  end.
(** A call that changes the context and returns a number. *)
Definition then_do {A} (p : prog (Z * lock_context)) (f : Z → lock_context → prog A) : prog A := pbind p (λ '(r, c), f r c).
Notation "'let*' ( r , c ) := p 'in' f" := (then_do p (λ r c, f)) (at level 10, r name, c name, p at level 100, f at level 200).

(** ** Byte range locks *)

Definition fcntl_lock rw off len (waitflag : bool) (k : fcntl_result → prog (Z * lock_context)) : prog (Z * lock_context) := Setlk rw off len waitflag k.
Definition fcntl_unlock off len (k : bool → prog (Z * lock_context)) : prog (Z * lock_context) := Unlk off len k.

(** list -1 is the free list. *)
Definition lock_offset (list : Z) : Z := u32 (Tdb.FREELIST_TOP + 4 * list).

Definition tdb_brlock c rw_type off len flags : prog (Z * lock_context) :=
  if lc_nolock c then Ret (0, c)
  else if flag flags TDB_LOCK_MARK_ONLY then Ret (0, c)
  else if bool_decide (rw_type = F_WRLCK) && (lc_read_only c || lc_traverse_read c) then Ret (-1, set_ecode c TDB_ERR_RDONLY)
  else fcntl_lock rw_type off len (flag flags TDB_LOCK_WAIT) (λ r,
    match r with
    | Granted => Ret (0, c)
    | Refused e => Ret (-1, set_ecode (set_edeadlk c e) TDB_ERR_LOCK)
    end).

Definition tdb_brunlock c off len : prog (Z * lock_context) :=
  if lc_nolock c then Ret (0, c)
  else fcntl_unlock off len (λ ok, Ret ((if ok then 0 else -1), c)).

Fixpoint upgrade_loop (count : nat) c : prog (Z * lock_context) :=
  match count with
  | O => Ret (-1, c)
  | S count =>
      let* (r, c) := tdb_brlock c F_WRLCK Tdb.FREELIST_TOP 0 (Z.lor TDB_LOCK_WAIT TDB_LOCK_PROBE) in
      if r =? 0 then Ret (0, set_allrecord c (mk_lock 0 (lk_count (lc_allrecord c)) F_WRLCK))
      else if lc_edeadlk c then upgrade_loop count c else Ret (-1, c)
  end.
Definition tdb_allrecord_upgrade c : prog (Z * lock_context) :=
  if negb (lk_count (lc_allrecord c) =? 1) then Ret (-1, c)
  else if negb (lk_off (lc_allrecord c) =? 1) then Ret (-1, c)
  else upgrade_loop 1000 c.

Definition find_nestlock c off : option nat := fst <$> list_find (λ l, lk_off l = off) (lc_lockrecs c).
Definition set_count (n : Z) (l : tdb_lock_type) : tdb_lock_type := mk_lock (lk_off l) n (lk_ltype l).

Definition tdb_nest_lock c off ltype flags : prog (Z * lock_context) :=
  if lock_offset (lc_hash_size c) <=? off then Ret (-1, set_ecode c TDB_ERR_LOCK)
  else if lc_nolock c then Ret (0, c)
  else match find_nestlock c off with
  | Some i => Ret (0, set_lockrecs c (alter (λ l, set_count (lk_count l + 1) l) i (lc_lockrecs c)))
  | None =>
      let* (r, c) := tdb_brlock c ltype off 1 flags in
      if negb (r =? 0) then Ret (-1, c)
      else Ret (0, set_lockrecs c (lc_lockrecs c ++ [mk_lock off 1 ltype]))
  end.

Definition tdb_lock_and_recover c : prog (Z * lock_context) :=
  let* (r, c) := tdb_brlock c F_WRLCK Tdb.FREELIST_TOP 0 TDB_LOCK_WAIT in
  if negb (r =? 0) then Ret (-1, c)
  else
    let* (r, c) := tdb_brlock c F_WRLCK OPEN_LOCK 1 TDB_LOCK_WAIT in
    if negb (r =? 0) then
      let* (_r, c) := tdb_brunlock c Tdb.FREELIST_TOP 0 in Ret (-1, c)
    else Recover (λ ret,
      let* (_r, c) := tdb_brunlock c OPEN_LOCK 1 in
      let* (_s, c) := tdb_brunlock c Tdb.FREELIST_TOP 0 in
      Ret (ret, c)).

Definition have_data_locks c : bool := existsb (λ l, lock_offset (-1) <=? lk_off l) (lc_lockrecs c).

(** The last element takes the place of the one that is removed. *)
Definition remove_lockrec (i : nat) (l : list tdb_lock_type) : list tdb_lock_type :=
  match last l with
  | Some x => take (pred (length l)) (<[i := x]> l)
  | None => l
  end.

Definition tdb_nest_unlock c off ltype (mark_lock : bool) : prog (Z * lock_context) :=
  if lc_nolock c then Ret (0, c)
  else if lock_offset (lc_hash_size c) <=? off then Ret (-1, c)
  else match find_nestlock c off with
  | None => Ret (-1, c)
  | Some i =>
      let count := default 0 (lk_count <$> lc_lockrecs c !! i) in
      if count =? 0 then Ret (-1, c)
      else if 1 <? count then Ret (0, set_lockrecs c (alter (λ l, set_count (lk_count l - 1) l) i (lc_lockrecs c)))
      else
        let* (ret, c) := (if mark_lock then Ret (0, c) else tdb_brunlock c off 1) in
        Ret (ret, set_lockrecs c (remove_lockrec i (lc_lockrecs c)))
  end.

(** A recovery is tried again and again while other processes crash; [fuel] bounds
    how often. *)
Fixpoint tdb_lock_list (fuel : nat) c (list : Z) ltype (waitflag : Z) : prog (Z * lock_context) :=
  if negb (lk_count (lc_allrecord c) =? 0) && (bool_decide (ltype = lk_ltype (lc_allrecord c)) || bool_decide (ltype = F_RDLCK)) then Ret (0, c)
  else if negb (lk_count (lc_allrecord c) =? 0) then Ret (-1, set_ecode c TDB_ERR_LOCK)
  else
    let check := negb (have_data_locks c) in
    let* (ret, c) := tdb_nest_lock c (lock_offset list) ltype waitflag in
    if (ret =? 0) && check then
      NeedsRecovery (λ needs,
        if needs then
          let* (_r, c) := tdb_nest_unlock c (lock_offset list) ltype false in
          let* (r, c) := tdb_lock_and_recover c in
          if r =? -1 then Ret (-1, c)
          else match fuel with
          | O => Stuck
          | S fuel => tdb_lock_list fuel c list ltype waitflag
          end
        else Ret (ret, c))
    else Ret (ret, c).

Definition tdb_lock (fuel : nat) c (list : Z) ltype : prog (Z * lock_context) := tdb_lock_list fuel c list ltype TDB_LOCK_WAIT.
Definition tdb_lock_nonblock (fuel : nat) c (list : Z) ltype : prog (Z * lock_context) := tdb_lock_list fuel c list ltype TDB_LOCK_NOWAIT.

Definition tdb_unlock c (list : Z) ltype : prog (Z * lock_context) :=
  if negb (lk_count (lc_allrecord c) =? 0) && (bool_decide (ltype = lk_ltype (lc_allrecord c)) || bool_decide (ltype = F_RDLCK)) then Ret (0, c)
  else if negb (lk_count (lc_allrecord c) =? 0) then Ret (-1, set_ecode c TDB_ERR_LOCK)
  else tdb_nest_unlock c (lock_offset list) ltype false.

Definition tdb_transaction_lock c ltype (lockflags : Z) : prog (Z * lock_context) := tdb_nest_lock c TRANSACTION_LOCK ltype lockflags.
Definition tdb_transaction_unlock c ltype : prog (Z * lock_context) := tdb_nest_unlock c TRANSACTION_LOCK ltype false.

(** ** The lock on all records *)

Definition tdb_have_extra_locks c : bool :=
  if negb (lc_transaction c) && negb (lk_count (lc_allrecord c) =? 0) then true
  else
    let extra := Z.of_nat (length (lc_lockrecs c)) in
    let extra := if bool_decide (is_Some (find_nestlock c ACTIVE_LOCK)) then extra - 1 else extra in
    let extra := if lc_transaction c && bool_decide (is_Some (find_nestlock c TRANSACTION_LOCK)) then extra - 1 else extra in
    negb (extra =? 0).

(** 0: all done, -1: an error, 1: go on. *)
Definition tdb_allrecord_check c ltype (upgradable : bool) : Z * lock_context :=
  let a := lc_allrecord c in
  if lc_read_only c || lc_traverse_read c then (-1, set_ecode c TDB_ERR_LOCK)
  else if negb (lk_count a =? 0) && bool_decide (lk_ltype a = ltype) then (0, set_allrecord c (set_count (lk_count a + 1) a))
  else if negb (lk_count a =? 0) then (-1, set_ecode c TDB_ERR_LOCK)
  else if tdb_have_extra_locks c then (-1, set_ecode c TDB_ERR_LOCK)
  else if upgradable && bool_decide (ltype ≠ F_RDLCK) then (-1, set_ecode c TDB_ERR_LOCK)
  else (1, c).

(** [fuel] bounds the depth, the logarithm of the length. *)
Fixpoint tdb_chainlock_gradual (fuel : nat) c ltype flags off len : prog (Z * lock_context) :=
  let nb_flags := Z.ldiff flags TDB_LOCK_WAIT in
  if len <=? 4 then tdb_brlock c ltype off len flags
  else
    let* (ret, c) := tdb_brlock c ltype off len nb_flags in
    if ret =? 0 then Ret (0, c)
    else match fuel with
    | O => Stuck
    | S fuel =>
        let* (ret, c) := tdb_chainlock_gradual fuel c ltype flags off (len / 2) in
        if ret =? -1 then Ret (-1, c)
        else
          let* (ret, c) := tdb_chainlock_gradual fuel c ltype flags (off + len / 2) (len - len / 2) in
          if ret =? -1 then
            let* (_r, c) := tdb_brunlock c off (len / 2) in Ret (-1, c)
          else Ret (0, c)
    end.

Definition tdb_allrecord_unlock c ltype (mark_lock : bool) : prog (Z * lock_context) :=
  let a := lc_allrecord c in
  if lc_read_only c || lc_traverse_read c then Ret (-1, set_ecode c TDB_ERR_LOCK)
  else if lk_count a =? 0 then Ret (-1, set_ecode c TDB_ERR_LOCK)
  else if bool_decide (lk_ltype a ≠ ltype) && ((lk_off a =? 0) || bool_decide (ltype ≠ F_RDLCK)) then Ret (-1, set_ecode c TDB_ERR_LOCK)
  else if 1 <? lk_count a then Ret (0, set_allrecord c (set_count (lk_count a - 1) a))
  else
    let* (r, c) := (if mark_lock then Ret (0, c) else tdb_brunlock c Tdb.FREELIST_TOP 0) in
    if negb (r =? 0) then Ret (-1, c)
    else Ret (0, set_allrecord c (mk_lock (lk_off (lc_allrecord c)) 0 F_RDLCK)).

(** After the checks; [F_RDLCK] is the number 0 to which the type is reset. *)
Definition allrecord_take (retry : lock_context → prog (Z * lock_context)) c ltype flags (upgradable : bool) : prog (Z * lock_context) :=
  let hash_len := u32 (lc_hash_size c * 4) in
  let* (r, c) := tdb_chainlock_gradual 32 c ltype flags Tdb.FREELIST_TOP hash_len in
  if r =? -1 then Ret (-1, c)
  else
    let* (r, c) := tdb_brlock c ltype (lock_offset (lc_hash_size c)) 0 flags in
    if r =? -1 then
      let* (_r, c) := tdb_brunlock c Tdb.FREELIST_TOP hash_len in Ret (-1, c)
    else
      let c := set_allrecord c (mk_lock (if upgradable then 1 else 0) 1 (if upgradable then F_WRLCK else ltype)) in
      NeedsRecovery (λ needs,
        if needs then
          let mark := flag flags TDB_LOCK_MARK_ONLY in
          let* (_r, c) := tdb_allrecord_unlock c ltype mark in
          if mark then Ret (-1, set_ecode c TDB_ERR_LOCK)
          else
            let* (r, c) := tdb_lock_and_recover c in
            if r =? -1 then Ret (-1, c) else retry c
        else Ret (0, c)).
Fixpoint tdb_allrecord_lock (fuel : nat) c ltype flags (upgradable : bool) : prog (Z * lock_context) :=
  let '(r, c) := tdb_allrecord_check c ltype upgradable in
  if r =? -1 then Ret (-1, c)
  else if r =? 0 then Ret (0, c)
  else
    allrecord_take (λ c, match fuel with O => Stuck | S fuel => tdb_allrecord_lock fuel c ltype flags upgradable end) c ltype flags upgradable.

Definition tdb_lockall fuel c := tdb_allrecord_lock fuel c F_WRLCK TDB_LOCK_WAIT false.
Definition tdb_lockall_mark fuel c := tdb_allrecord_lock fuel c F_WRLCK TDB_LOCK_MARK_ONLY false.
Definition tdb_lockall_unmark c := tdb_allrecord_unlock c F_WRLCK true.
Definition tdb_lockall_nonblock fuel c := tdb_allrecord_lock fuel c F_WRLCK TDB_LOCK_NOWAIT false.
Definition tdb_unlockall c := tdb_allrecord_unlock c F_WRLCK false.
Definition tdb_lockall_read fuel c := tdb_allrecord_lock fuel c F_RDLCK TDB_LOCK_WAIT false.
Definition tdb_lockall_read_nonblock fuel c := tdb_allrecord_lock fuel c F_RDLCK TDB_LOCK_NOWAIT false.
Definition tdb_unlockall_read c := tdb_allrecord_unlock c F_RDLCK false.

(** ** Chains of keys and records *)

Section keys.
Context (hash_fn : list Z → Z).
Definition bucket c (key : list Z) : Z := hash_fn key mod lc_hash_size c.
Definition tdb_chainlock fuel c key := tdb_lock fuel c (bucket c key) F_WRLCK.
Definition tdb_chainlock_nonblock fuel c key := tdb_lock_nonblock fuel c (bucket c key) F_WRLCK.
Definition tdb_chainlock_mark c key := tdb_nest_lock c (lock_offset (bucket c key)) F_WRLCK TDB_LOCK_MARK_ONLY.
Definition tdb_chainlock_unmark c key := tdb_nest_unlock c (lock_offset (bucket c key)) F_WRLCK true.
Definition tdb_chainunlock c key := tdb_unlock c (bucket c key) F_WRLCK.
Definition tdb_chainlock_read fuel c key := tdb_lock fuel c (bucket c key) F_RDLCK.
Definition tdb_chainunlock_read c key := tdb_unlock c (bucket c key) F_RDLCK.
End keys.

Definition tdb_lock_record c off : prog (Z * lock_context) :=
  if negb (lk_count (lc_allrecord c) =? 0) then Ret (0, c)
  else if off =? 0 then Ret (0, c) else tdb_brlock c F_RDLCK off 1 TDB_LOCK_WAIT.
Definition tdb_write_lock_record c off : prog (Z * lock_context) :=
  if existsb (Z.eqb off) (lc_travlocks c) then Ret (-1, c)
  else if negb (lk_count (lc_allrecord c) =? 0) then Ret ((if bool_decide (lk_ltype (lc_allrecord c) = F_WRLCK) then 0 else -1), c)
  else tdb_brlock c F_WRLCK off 1 (Z.lor TDB_LOCK_NOWAIT TDB_LOCK_PROBE).
Definition tdb_write_unlock_record c off : prog (Z * lock_context) :=
  if negb (lk_count (lc_allrecord c) =? 0) then Ret (0, c) else tdb_brunlock c off 1.
Definition tdb_unlock_record c off : prog (Z * lock_context) :=
  if negb (lk_count (lc_allrecord c) =? 0) then Ret (0, c)
  else if off =? 0 then Ret (0, c)
  else if (length (filter (λ o, o = off) (lc_travlocks c)) =? 1)%nat then tdb_brunlock c off 1 else Ret (0, c).

(** ** Locks of a transaction *)

Fixpoint release_all c (l : list tdb_lock_type) (active : list tdb_lock_type) : prog (Z * lock_context) :=
  match l with
  | [] => Ret (0, set_lockrecs c active)
  | lck :: l =>
      if lk_off lck =? ACTIVE_LOCK then release_all c l (active ++ [lck])
      else let* (_r, c) := tdb_brunlock c (lk_off lck) 1 in release_all c l active
  end.
Definition tdb_release_transaction_locks c : prog (Z * lock_context) :=
  let* (_r, c) := (if negb (lk_count (lc_allrecord c) =? 0) then
                     let* (_r, c) := tdb_brunlock c Tdb.FREELIST_TOP 0 in Ret (0, set_allrecord c (set_count 0 (lc_allrecord c)))
                   else Ret (0, c)) in
  release_all c (lc_lockrecs c) [].

Definition tdb_transaction_write_lock_mark c := tdb_transaction_lock c F_WRLCK TDB_LOCK_MARK_ONLY.
Definition tdb_transaction_write_lock_unmark c := tdb_nest_unlock c TRANSACTION_LOCK F_WRLCK true.
End TdbLock.
