(* ===== verification/TdbLockProps.v ===== *)
(** * Mutual exclusion by the locks of a tdb file

    Processes call the lock functions of [TdbLock.v]; their steps are interleaved,
    and the kernel grants a byte range when no other process has a conflicting lock
    on it.  What a process may rely on is the number of its calls that were
    successful and not undone ([given]).  [wp] says what holds when a program
    returns, whatever the kernel answers to
    a request for a lock (releasing one does not fail); other processes do not change the locks
    of this one. *)
From S2P Require Import Prelude TdbFile TdbLock.
Import TdbLock.

Implicit Types (ltype rw : lock_type) (off len flags : Z) (c : lock_context) (l : tdb_lock_type).

(** The locks that the kernel has for one process. *)
Definition own_locks : Type := Z → option lock_type.
Implicit Types (h : own_locks).
Definition in_range off len (b : Z) : Prop := off <= b ∧ (len = 0 ∨ b < off + len).
#[export] Instance in_range_dec off len b : Decision (in_range off len b).
Proof. unfold in_range. apply _. Defined.
Definition upd h off len (v : option lock_type) : own_locks := λ b, if decide (in_range off len b) then v else h b.
Definition covers h (b : Z) ltype : Prop :=
  match h b with Some F_WRLCK => True | Some F_RDLCK => ltype = F_RDLCK | None => False end.

Fixpoint wp {A} (p : prog A) (Q : A → own_locks → Prop) h : Prop :=
  match p with
  | Ret a => Q a h
  | Setlk rw off len _ k => wp (k Granted) Q (upd h off len (Some rw)) ∧ ∀ e, wp (k (Refused e)) Q h
  | Unlk off len k => wp (k true) Q (upd h off len None)
  | NeedsRecovery k => ∀ b, wp (k b) Q h
  | Recover k => ∀ r, wp (k r) Q h
  | Stuck => True
  end.
Lemma lk_wp_mono {A} (p : prog A) (Q Q' : A → own_locks → Prop) h : (∀ a h, Q a h → Q' a h) → wp p Q h → wp p Q' h.
Proof. intros HQ. revert h. induction p as [a|rw off len w k IH|off len k IH|k IH|k IH|]; intros h; cbn [wp]; intuition eauto. Qed.
Lemma lk_wp_bind {A B} (p : prog A) (f : A → prog B) Q h : wp p (λ a h, wp (f a) Q h) h → wp (pbind p f) Q h.
Proof. revert h. induction p as [a|rw off len w k IH|off len k IH|k IH|k IH|]; intros h; cbn [wp pbind]; intuition eauto. Qed.
Lemma wp_then {A} p (f : Z → lock_context → prog A) (Q : A → own_locks → Prop) (R : Z → lock_context → own_locks → Prop) h :
  wp p (λ '(r, c) h, R r c h) h → (∀ r c h, R r c h → wp (f r c) Q h) → wp (then_do p f) Q h.
Proof. intros Hp Hf. apply lk_wp_bind. eapply lk_wp_mono; [|exact Hp]. intros [r c] h'. apply Hf. Qed.

(** Error numbers do not matter. *)
Definition alike c c' : Prop := ∃ e d, c' = set_ecode (set_edeadlk c d) e.
Lemma alike_refl c : alike c c.
Proof. destruct c as [? ? ? ? ? ? ? ? e d]. by exists e, d. Qed.
Lemma alike_ecode c e : alike c (set_ecode c e).
Proof. destruct c as [? ? ? ? ? ? ? ? ? d]. by exists e, d. Qed.
Lemma alike_trans c1 c2 c3 : alike c1 c2 → alike c2 c3 → alike c1 c3.
Proof. intros (e & d & ->) (e' & d' & ->). by exists e', d'. Qed.

Lemma brlock_wp c rw off len flags h : lc_nolock c = false → flag flags TDB_LOCK_MARK_ONLY = false →
  wp (tdb_brlock c rw off len flags) (λ '(r, c') h', r = 0 ∧ c' = c ∧ h' = upd h off len (Some rw) ∨ r = -1 ∧ alike c c' ∧ h' = h) h.
Proof.
  intros Hn Hm. unfold tdb_brlock, fcntl_lock. rewrite Hn, Hm. destruct (_ && _); cbn [wp]; [right; split; [done|]; split; [apply alike_ecode|done]|].
  split; [by left|]. intros e. right. split; [done|]. split; [by eexists _, _|done].
Qed.
Lemma brunlock_wp c off len h : lc_nolock c = false →
  wp (tdb_brunlock c off len) (λ '(r, c') h', r = 0 ∧ c' = c ∧ h' = upd h off len None) h.
Proof. intros Hn. unfold tdb_brunlock, fcntl_unlock. by rewrite Hn. Qed.

(** *** What a process was given *)

(** [Some list]: a chain, [None]: all records. *)
Definition given : Type := option Z → lock_type → nat.
Implicit Types (g : given).
Definition gset g (x : option Z) ltype (n : nat) : given := λ y t, if decide (y = x ∧ t = ltype) then n else g y t.
Definition gadd g x ltype : given := gset g x ltype (S (g x ltype)).
Definition gsub g x ltype : given := gset g x ltype (pred (g x ltype)).
Definition total g x : nat := g x F_RDLCK + g x F_WRLCK.

(** The entries of [lockrecs] are covered by locks of the kernel ... *)
Definition data_off (hs off : Z) : Prop := ∃ list, -1 <= list < hs ∧ off = lock_offset list.
Record recs_real (hs : Z) (recs : list tdb_lock_type) h : Prop := {
  real_recs : ∀ l, l ∈ recs → 0 < lk_count l ∧ lk_off l ≠ OPEN_LOCK ∧ covers h (lk_off l) (lk_ltype l) ∧ (lk_off l < lock_offset (-1) ∨ data_off hs (lk_off l));
  real_nodup : NoDup (lk_off <$> recs);
}.
(** ... and count the calls. *)
Record recs_count (hs : Z) (recs : list tdb_lock_type) g : Prop := {
  count_recs : ∀ l list, l ∈ recs → -1 <= list < hs → lk_off l = lock_offset list →
    lk_count l = Z.of_nat (total g (Some list)) ∧ ((0 < g (Some list) F_WRLCK)%nat → lk_ltype l = F_WRLCK);
  count_given : ∀ list, (0 < total g (Some list))%nat → -1 <= list < hs ∧ ∃ l, l ∈ recs ∧ lk_off l = lock_offset list;
}.
(** The context of a process and the kernel justify what the process was given. *)
Record coh (hs : Z) c g h : Prop := {
  coh_lock : lc_nolock c = false;
  coh_size : lc_hash_size c = hs;
  coh_recs : recs_real hs (lc_lockrecs c) h;
  coh_all : lk_count (lc_allrecord c) = Z.of_nat (total g None);
  coh_chains : lk_count (lc_allrecord c) = 0 → recs_count hs (lc_lockrecs c) g;
  coh_held : lk_count (lc_allrecord c) ≠ 0 →
    lk_off (lc_allrecord c) = 0 ∧ (∀ b, Tdb.FREELIST_TOP <= b → covers h b (lk_ltype (lc_allrecord c))) ∧ (∀ l, l ∈ lc_lockrecs c → lk_off l < lock_offset (-1))
    ∧ ∀ x ltype, (0 < g x ltype)%nat → (ltype = lk_ltype (lc_allrecord c) ∨ ltype = F_RDLCK ∧ x ≠ None) ∧ ∀ list, x = Some list → -1 <= list < hs;
}.

Lemma recs_real_perm hs recs recs' h : recs ≡ₚ recs' → recs_real hs recs h → recs_real hs recs' h.
Proof. intros Hp [H1 H2]. constructor; [intros l; rewrite <- Hp; apply H1|by rewrite <- Hp]. Qed.
Lemma recs_count_perm hs recs recs' g : recs ≡ₚ recs' → recs_count hs recs g → recs_count hs recs' g.
Proof.
  intros Hp [H1 H2]. constructor; [intros l list; rewrite <- Hp; apply H1|]. intros list Ht. destruct (H2 list Ht) as (Hr & l & Hl & E).
  split; [done|]. exists l. by rewrite <- Hp.
Qed.

Section size.
Context (hs : Z) (Hhs : 0 < hs < 2 ^ 29).

Lemma lock_offset_eq list : -1 <= list <= hs → lock_offset list = Tdb.FREELIST_TOP + 4 * list.
Proof. intros H. unfold lock_offset. apply u32_id. unfold is_u32, Tdb.FREELIST_TOP. lia. Qed.
Lemma lock_offset_inj list list' : -1 <= list <= hs → -1 <= list' <= hs → lock_offset list = lock_offset list' → list = list'.
Proof. intros H H'. rewrite !lock_offset_eq by done. lia. Qed.

Lemma total_add g x y ltype : total (gadd g x ltype) y = if decide (y = x) then S (total g y) else total g y.
Proof. unfold total, gadd, gset. destruct ltype; repeat case_decide; intuition (subst; congruence || lia). Qed.
Lemma total_sub g x y ltype : (0 < g x ltype)%nat → total (gsub g x ltype) y = if decide (y = x) then pred (total g y) else total g y.
Proof. intros Hg. unfold total, gsub, gset. destruct ltype; repeat case_decide; intuition (subst; congruence || lia). Qed.
Lemma gadd_pos g x y ltype t : (0 < gadd g x ltype y t)%nat → y = x ∧ t = ltype ∨ (0 < g y t)%nat.
Proof. unfold gadd, gset. case_decide; auto. Qed.
Lemma gsub_pos g x y ltype t : (0 < gsub g x ltype y t)%nat → (0 < g y t)%nat.
Proof. unfold gsub, gset. case_decide as E; [destruct E as [-> ->]; lia|done]. Qed.

(** *** Entries *)

Lemma covers_other h off len v b ltype : covers h b ltype → ¬ in_range off len b → covers (upd h off len v) b ltype.
Proof. intros H Hr. unfold covers, upd. by rewrite decide_False. Qed.
Lemma covers_new h off len b ltype : in_range off len b → covers (upd h off len (Some ltype)) b ltype.
Proof. intros Hr. unfold covers, upd. rewrite decide_True by done. by destruct ltype. Qed.
Lemma in_range_one off b : in_range off 1 b ↔ b = off.
Proof. unfold in_range. lia. Qed.

Lemma real_other recs h off len v : recs_real hs recs h → (∀ l, l ∈ recs → ¬ in_range off len (lk_off l)) → recs_real hs recs (upd h off len v).
Proof.
  intros [H1 H2] Hr. constructor; [|done]. intros l Hl. destruct (H1 l Hl) as (? & ? & ? & ?). split_and!; try done. by apply covers_other; [|apply Hr].
Qed.
Lemma real_add recs h list ltype : recs_real hs recs h → -1 <= list < hs → (∀ l, l ∈ recs → lk_off l ≠ lock_offset list) →
  recs_real hs (mk_lock (lock_offset list) 1 ltype :: recs) (upd h (lock_offset list) 1 (Some ltype)).
Proof.
  intros H Hr Hn. assert (recs_real hs recs (upd h (lock_offset list) 1 (Some ltype))) as [H1 H2].
  { apply real_other; [done|]. intros l Hl. rewrite in_range_one. by apply Hn. }
  constructor.
  - intros l [->|Hl]%elem_of_cons; [|by apply H1]. cbn [lk_count lk_off lk_ltype]. split; [lia|].
    split; [rewrite lock_offset_eq by lia; unfold OPEN_LOCK, Tdb.FREELIST_TOP; lia|]. split; [by apply covers_new, in_range_one|]. right. by exists list.
  - cbn [fmap list_fmap lk_off]. constructor; [|done]. intros (l & E & Hl)%list_elem_of_fmap. by apply (Hn l Hl).
Qed.
Lemma real_set_count recs h l (n : Z) : recs_real hs (l :: recs) h → 0 < n → recs_real hs (set_count n l :: recs) h.
Proof.
  intros [H1 H2] Hn. constructor; [|done]. intros l' [->|Hl]%elem_of_cons; [|by apply H1, elem_of_cons; right].
  destruct (H1 l) as (? & ? & ? & ?); [by left|]. by split_and!.
Qed.
Lemma real_del recs h l off : recs_real hs (l :: recs) h → lk_off l = off → recs_real hs recs h ∧ recs_real hs recs (upd h off 1 None).
Proof.
  intros [H1 H2] E. cbn [fmap list_fmap] in H2. apply NoDup_cons in H2 as [Hn H2].
  assert (recs_real hs recs h) as H by (constructor; [intros l' Hl'; apply H1; by right|done]). split; [done|]. apply real_other; [done|].
  intros l' Hl'. rewrite in_range_one. intros E'. apply Hn. apply list_elem_of_fmap. exists l'. split; [congruence|done].
Qed.

Lemma count_change recs g g' l (n : Z) list : recs_count hs (l :: recs) g → NoDup (lk_off <$> l :: recs) → lk_off l = lock_offset list → -1 <= list < hs →
  (∀ y t, y ≠ Some list → g' y t = g y t) → n = Z.of_nat (total g' (Some list)) → ((0 < g' (Some list) F_WRLCK)%nat → lk_ltype l = F_WRLCK) →
  recs_count hs (set_count n l :: recs) g'.
Proof.
  intros [H1 H2] Hnd E Hr Hg Hn Hw. cbn [fmap list_fmap] in Hnd. apply NoDup_cons in Hnd as [Hnd _].
  assert (∀ y, y ≠ list → total g' (Some y) = total g (Some y)) as Ht by (intros y Hy; unfold total; by rewrite !Hg by congruence).
  constructor.
  - intros l' y [->|Hl]%elem_of_cons Hy Ey.
    + cbn [set_count lk_off lk_count lk_ltype] in *. assert (y = list) as -> by (apply lock_offset_inj; [lia|lia|congruence]). done.
    + destruct (decide (y = list)) as [->|Hne]; [exfalso; apply Hnd, list_elem_of_fmap; exists l'; split; [congruence|done]|].
      rewrite Ht, Hg by congruence. apply H1; [by right|done|done].
  - intros y Hy. destruct (decide (y = list)) as [->|Hne]; [split; [done|]; exists (set_count n l); split; [by left|done]|].
    rewrite Ht in Hy by done. destruct (H2 y Hy) as (? & l' & Hl & Ey). split; [done|]. apply elem_of_cons in Hl as [->|Hl].
    + exfalso. apply Hne. apply lock_offset_inj; [lia|lia|congruence].
    + exists l'. split; [by right|done].
Qed.
Lemma count_add recs g list ltype : recs_count hs recs g → -1 <= list < hs → (∀ l, l ∈ recs → lk_off l ≠ lock_offset list) →
  recs_count hs (mk_lock (lock_offset list) 1 ltype :: recs) (gadd g (Some list) ltype).
Proof.
  intros [H1 H2] Hr Hn. assert (total g (Some list) = 0%nat) as H0.
  { destruct (total g (Some list)) eqn:E; [done|]. destruct (H2 list) as (_ & l & Hl & El); [lia|]. by apply (Hn l) in El. }
  constructor.
  - intros l y [->|Hl]%elem_of_cons Hy Ey.
    + cbn [lk_count lk_off lk_ltype] in *. apply lock_offset_inj in Ey as <-; [|lia..]. rewrite total_add, decide_True, H0 by done. split; [done|].
      intros Hp%gadd_pos. unfold total in H0. destruct Hp as [[_ ?]|?]; [done|lia].
    + assert (y ≠ list) as Hne by (intros ->; by apply (Hn l)). rewrite total_add, decide_False by congruence. destruct (H1 l y Hl Hy Ey) as [? Hw]. split; [done|].
      intros [[? _]|Hp]%gadd_pos; [congruence|by apply Hw].
  - intros y Hy. rewrite total_add in Hy. case_decide as E; [injection E as ->|].
    + split; [done|]. eexists. split; [by left|done].
    + destruct (H2 y Hy) as (? & l & Hl & El). split; [done|]. exists l. split; [by right|done].
Qed.
Lemma count_del recs g list l ltype : recs_count hs (l :: recs) g → NoDup (lk_off <$> l :: recs) → lk_off l = lock_offset list → -1 <= list < hs →
  (0 < g (Some list) ltype)%nat → total g (Some list) = 1%nat → recs_count hs recs (gsub g (Some list) ltype).
Proof.
  intros [H1 H2] Hnd E Hr Hg Ht. cbn [fmap list_fmap] in Hnd. apply NoDup_cons in Hnd as [Hnd _]. constructor.
  - intros l' y Hl Hy Ey. assert (y ≠ list) as Hne. { intros ->. apply Hnd, list_elem_of_fmap. exists l'. split; [congruence|done]. }
    rewrite total_sub, decide_False by (done || congruence). destruct (H1 l' y) as [? Hw]; [by right|done|done|]. split; [done|]. intros Hp%gsub_pos. by apply Hw.
  - intros y Hy. rewrite total_sub in Hy by done. case_decide as E'; [injection E' as ->; lia|]. destruct (H2 y Hy) as (? & l' & Hl & El). split; [done|].
    apply elem_of_cons in Hl as [->|Hl]; [|by exists l']. exfalso. apply E'. f_equal. apply lock_offset_inj; [lia|lia|congruence].
Qed.

(** *** The array *)

Lemma find_some c off i : find_nestlock c off = Some i → ∃ l, lc_lockrecs c !! i = Some l ∧ lk_off l = off.
Proof. unfold find_nestlock. destruct (list_find _ _) as [[j l]|] eqn:E; [|done]. cbn. intros [= ->]. apply list_find_Some in E as (? & ? & _). by exists l. Qed.
Lemma find_none c off l : find_nestlock c off = None → l ∈ lc_lockrecs c → lk_off l ≠ off.
Proof.
  unfold find_nestlock. destruct (list_find _ _) as [[j l']|] eqn:E; [done|]. intros _ Hl. apply list_find_None in E. by eapply Forall_forall in E.
Qed.
Lemma alter_perm (f : tdb_lock_type → tdb_lock_type) i recs l : recs !! i = Some l → ∃ rest, recs ≡ₚ l :: rest ∧ alter f i recs ≡ₚ f l :: rest.
Proof.
  intros H. apply list_elem_of_split_length in H as (r1 & r2 & -> & ->). exists (r1 ++ r2). split; [by rewrite Permutation_middle|].
  rewrite <- (Nat.add_0_r (length r1)), alter_app_r. cbn. by rewrite Permutation_middle.
Qed.
Lemma remove_perm i recs l : recs !! i = Some l → recs ≡ₚ l :: remove_lockrec i recs.
Proof.
  intros H. unfold remove_lockrec. destruct recs as [|y r _] using rev_ind; [done|]. rewrite last_snoc, length_app. cbn [length]. rewrite Nat.add_1_r. cbn [pred].
  destruct (decide (i < length r)%nat) as [Hi|Hi].
  - rewrite lookup_app_l in H by done. rewrite insert_app_l, take_app_length' by (done || by rewrite length_insert).
    apply list_elem_of_split_length in H as (r1 & r2 & -> & ->). rewrite <- (Nat.add_0_r (length r1)), insert_app_r. cbn. rewrite <- app_assoc. cbn. rewrite <- Permutation_middle. apply perm_skip.
    apply Permutation_app_head. by rewrite Permutation_app_comm.
  - rewrite lookup_app_r in H by lia. destruct (i - length r)%nat eqn:E; [|done]. injection H as ->. replace i with (length r + 0)%nat by lia.
    rewrite insert_app_r. rewrite take_app_length. by rewrite Permutation_app_comm.
Qed.

(** *** Chain locks *)

(** No lock on all records is held. *)
Record chains c g h : Prop := {
  ch_lock : lc_nolock c = false;
  ch_size : lc_hash_size c = hs;
  ch_none : lk_count (lc_allrecord c) = 0;
  ch_given : total g None = 0%nat;
  ch_real : recs_real hs (lc_lockrecs c) h;
  ch_count : recs_count hs (lc_lockrecs c) g;
}.
Lemma chains_coh c g h : chains c g h → coh hs c g h.
Proof. intros []. constructor; try done; lia. Qed.
Lemma coh_chains_of c g h : coh hs c g h → lk_count (lc_allrecord c) = 0 → chains c g h.
Proof. intros [H1 H2 H3 H4 H5 H6] H0. constructor; try done; [lia|by apply H5]. Qed.
Lemma chains_alike c c' g h : alike c c' → chains c g h → chains c' g h.
Proof. intros (e & d & ->) []. by constructor. Qed.
Lemma coh_alike c c' g h : alike c c' → coh hs c g h → coh hs c' g h.
Proof. intros (e & d & ->) []. by constructor. Qed.
Lemma chains_recs c g h recs : chains c g h → ∀ g' h', total g' None = 0%nat → recs_real hs recs h' → recs_count hs recs g' → chains (set_lockrecs c recs) g' h'.
Proof. intros [] g' h' ???. by constructor. Qed.

Lemma nest_lock_wp c g h list ltype flags :
  chains c g h → -1 <= list < hs → flag flags TDB_LOCK_MARK_ONLY = false →
  (ltype = F_WRLCK → g (Some list) F_RDLCK = 0%nat ∨ (0 < g (Some list) F_WRLCK)%nat) →
  wp (tdb_nest_lock c (lock_offset list) ltype flags) (λ '(r, c') h', r = 0 ∧ chains c' (gadd g (Some list) ltype) h' ∨ r = -1 ∧ chains c' g h') h.
Proof.
  intros Hc Hl Hf Hw. pose proof Hc as [Hno Hsz Hnone Hgn Hreal Hcnt]. unfold tdb_nest_lock. rewrite Hsz, Hno.
  rewrite (proj2 (Z.leb_gt _ _)) by (rewrite !lock_offset_eq by lia; lia).
  assert (total (gadd g (Some list) ltype) None = 0%nat) as Hg' by (by rewrite total_add, decide_False).
  destruct (find_nestlock c (lock_offset list)) as [i|] eqn:E.
  - cbn [wp]. left. split; [done|]. destruct (find_some _ _ _ E) as (l & Hi & El). destruct (alter_perm (λ l, set_count (lk_count l + 1) l) _ _ _ Hi) as (rest & Hp & Hp').
    apply (recs_real_perm _ _ _ _ Hp) in Hreal. apply (recs_count_perm _ _ _ _ Hp) in Hcnt. destruct (real_recs _ _ _ Hreal l) as (Hpos & _); [by left|].
    destruct (count_recs _ _ _ Hcnt l list) as [Hn Hwr]; [by left|done|done|].
    apply (chains_recs _ _ _ _ Hc); [done|apply (recs_real_perm _ _ _ _ (symmetry Hp')), real_set_count; [done|lia]|].
    apply (recs_count_perm _ _ _ _ (symmetry Hp')), (count_change _ g _ l _ list); try done; [apply Hreal|intros y t Hy; unfold gadd, gset; rewrite decide_False; [done|by intros [? _]]| |].
    + rewrite total_add, decide_True by done. lia.
    + intros [[_ <-]|Hp0]%gadd_pos; [|by apply Hwr]. destruct (Hw eq_refl) as [H0|H0]; [|by apply Hwr]. apply Hwr. unfold total in Hn. lia.
  - eapply wp_then; [by apply brlock_wp|]. intros r c' h' [(-> & -> & ->)|(-> & Ha & ->)]; cbn [Z.eqb negb wp]; [|right; split; [done|by apply (chains_alike c)]].
    left. split; [done|]. assert (lc_lockrecs c ++ [mk_lock (lock_offset list) 1 ltype] ≡ₚ mk_lock (lock_offset list) 1 ltype :: lc_lockrecs c) as Hp by (by rewrite Permutation_app_comm).
    assert (∀ l, l ∈ lc_lockrecs c → lk_off l ≠ lock_offset list) as Hn by (intros l; by apply find_none).
    apply (chains_recs _ _ _ _ Hc); [done|by apply (recs_real_perm _ _ _ _ (symmetry Hp)), real_add|by apply (recs_count_perm _ _ _ _ (symmetry Hp)), count_add].
Qed.

Lemma nest_unlock_wp c g h list ltype t :
  chains c g h → -1 <= list < hs → (0 < g (Some list) ltype)%nat →
  wp (tdb_nest_unlock c (lock_offset list) t false) (λ '(r, c') h', chains c' (gsub g (Some list) ltype) h') h.
Proof.
  intros Hc Hl Hg. pose proof Hc as [Hno Hsz Hnone Hgn Hreal Hcnt]. unfold tdb_nest_unlock. rewrite Hsz, Hno.
  rewrite (proj2 (Z.leb_gt _ _)) by (rewrite !lock_offset_eq by lia; lia).
  assert (total (gsub g (Some list) ltype) None = 0%nat) as Hg' by (by rewrite total_sub, decide_False).
  destruct (count_given _ _ _ Hcnt list) as (_ & l0 & Hl0 & El0); [unfold total; destruct ltype; lia|].
  destruct (find_nestlock c (lock_offset list)) as [i|] eqn:E; [|by apply (find_none _ _ l0) in E].
  destruct (find_some _ _ _ E) as (l & Hi & El). rewrite Hi. cbn [fmap option_fmap option_map default].
  destruct (real_recs _ _ _ Hreal l) as (Hpos & _); [by eapply list_elem_of_lookup_2|].
  destruct (count_recs _ _ _ Hcnt l list) as [Hn Hwr]; [by eapply list_elem_of_lookup_2|done|done|].
  rewrite (proj2 (Z.eqb_neq _ _)) by (cbn; lia). cbn [from_option id].
  destruct (Z.ltb_spec 1 (lk_count l)).
  - cbn [wp]. destruct (alter_perm (λ l, set_count (lk_count l - 1) l) _ _ _ Hi) as (rest & Hp & Hp').
    apply (recs_real_perm _ _ _ _ Hp) in Hreal. apply (recs_count_perm _ _ _ _ Hp) in Hcnt.
    apply (chains_recs _ _ _ _ Hc); [done|apply (recs_real_perm _ _ _ _ (symmetry Hp')), real_set_count; [done|lia]|].
    apply (recs_count_perm _ _ _ _ (symmetry Hp')), (count_change _ g _ l _ list); try done; [apply Hreal|intros y t' Hy; unfold gsub, gset; rewrite decide_False; [done|by intros [? _]]| |].
    + rewrite total_sub, decide_True by done. lia.
    + intros Hp0%gsub_pos. by apply Hwr.
  - assert (total g (Some list) = 1%nat) as H1 by lia. pose proof (remove_perm _ _ _ Hi) as Hp.
    apply (recs_real_perm _ _ _ _ Hp) in Hreal. apply (recs_count_perm _ _ _ _ Hp) in Hcnt. destruct (real_del _ _ _ _ Hreal El) as [R1 R2].
    pose proof (count_del _ _ _ _ _ Hcnt (real_nodup _ _ _ Hreal) El Hl Hg H1) as C1.
    eapply wp_then; [by apply brunlock_wp|]. intros r c' h' (-> & -> & ->). cbn [wp]. by apply (chains_recs _ _ _ _ Hc).
Qed.

(** A process without locks on chains may recover the file. *)
Lemma lock_and_recover_wp c g h :
  chains c g h → (∀ l, l ∈ lc_lockrecs c → lk_off l < lock_offset (-1)) →
  wp (tdb_lock_and_recover c) (λ '(r, c') h', chains c' g h' ∧ lc_lockrecs c' = lc_lockrecs c) h.
Proof.
  intros Hc Hlow. assert (lock_offset (-1) = 164) as H164 by (rewrite lock_offset_eq by lia; done).
  assert (∀ c' h' off len v, alike c c' → (∀ l, l ∈ lc_lockrecs c → ¬ in_range off len (lk_off l)) → chains c' g h' → chains c' g (upd h' off len v)) as Hupd.
  { intros c' h' off len v (e & d & ->) Hr [? ? ? ? Hre ?]. constructor; try done. by apply real_other. }
  assert (∀ l, l ∈ lc_lockrecs c → ¬ in_range Tdb.FREELIST_TOP 0 (lk_off l)) as Hr1 by (intros l Hl; specialize (Hlow l Hl); unfold in_range, Tdb.FREELIST_TOP; lia).
  assert (∀ l, l ∈ lc_lockrecs c → ¬ in_range OPEN_LOCK 1 (lk_off l)) as Hr2.
  { intros l Hl. rewrite in_range_one. by apply (real_recs _ _ _ (ch_real _ _ _ Hc) l Hl). }
  pose proof (ch_lock _ _ _ Hc) as Hno. unfold tdb_lock_and_recover. eapply wp_then; [by apply brlock_wp|].
  intros r c' h' [(-> & -> & ->)|(-> & Ha & ->)]; cbn [Z.eqb negb wp]; [|split; [by apply (chains_alike c)|by destruct Ha as (? & ? & ->)]].
  eapply wp_then; [by apply brlock_wp|]. intros r c' h' [(-> & -> & ->)|(-> & Ha & ->)]; cbn [Z.eqb negb wp].
  - intros ret. pose proof (alike_refl c) as Hrefl. eapply wp_then; [by apply brunlock_wp|]. intros r c' h' (-> & -> & ->).
    eapply wp_then; [by apply brunlock_wp|]. intros r' c' h'' (-> & -> & ->). cbn [wp]. split; [|done]. repeat (apply Hupd; [done|done|]); done.
  - eapply wp_then; [apply brunlock_wp; by destruct Ha as (? & ? & ->)|]. intros r c'' h' (-> & -> & ->). cbn [wp]. split; [|by destruct Ha as (? & ? & ->)].
    repeat (apply Hupd; [done|done|]); by apply (chains_alike c).
Qed.

Lemma no_data_locks c g h : chains c g h → have_data_locks c = false → ∀ l, l ∈ lc_lockrecs c → lk_off l < lock_offset (-1).
Proof.
  intros _ H l Hl. unfold have_data_locks in H. destruct (Z.leb_spec (lock_offset (-1)) (lk_off l)) as [Hle|]; [|done].
  assert (existsb (λ l, lock_offset (-1) <=? lk_off l) (lc_lockrecs c) = true) as E; [|congruence].
  apply existsb_exists. exists l. split; [by apply list_elem_of_In|]. by apply Z.leb_le.
Qed.
Lemma gsub_gadd g x ltype y t : gsub (gadd g x ltype) x ltype y t = g y t.
Proof.
  unfold gsub, gset at 1. case_decide as E.
  - destruct E as [-> ->]. unfold gadd, gset. by rewrite decide_True.
  - unfold gadd, gset. by rewrite decide_False.
Qed.
Lemma chains_ext c g g' h : (∀ y t, g y t = g' y t) → chains c g h → chains c g' h.
Proof.
  intros E [? ? ? ? ? [H1 H2]]. assert (∀ y, total g' y = total g y) as Et by (intros y; unfold total; by rewrite !E).
  constructor; try done; [by rewrite Et|]. constructor; intros; rewrite <- ?E, ?Et in *; [by apply H1|by apply H2].
Qed.

(** A process takes a chain lock only for writing when it did not take it for
    reading first. *)
Definition no_upgrade g (list : Z) ltype : Prop := ltype = F_WRLCK → g (Some list) F_RDLCK = 0%nat ∨ (0 < g (Some list) F_WRLCK)%nat.

Lemma low_none c g h list : chains c g h → (∀ l, l ∈ lc_lockrecs c → lk_off l < lock_offset (-1)) → total g (Some list) = 0%nat.
Proof.
  intros Hc Hlow. destruct (total g (Some list)) eqn:E; [done|]. destruct (count_given _ _ _ (ch_count _ _ _ Hc) list) as (Hr & l & Hl & El); [lia|].
  specialize (Hlow l Hl). rewrite El, !lock_offset_eq in Hlow by lia. lia.
Qed.
Lemma none_low c g h : chains c g h → (∀ list, total g (Some list) = 0%nat) → ∀ l, l ∈ lc_lockrecs c → lk_off l < lock_offset (-1).
Proof.
  intros Hc Hn l Hl. destruct (real_recs _ _ _ (ch_real _ _ _ Hc) l Hl) as (Hpos & _ & _ & [?|(list & Hr & El)]); [done|].
  destruct (count_recs _ _ _ (ch_count _ _ _ Hc) l list Hl Hr El) as [E _]. rewrite Hn in E. lia.
Qed.
(** What follows a recovery. *)
Lemma recover_then (k : lock_context → prog (Z * lock_context)) (Q : Z * lock_context → own_locks → Prop) c g h :
  chains c g h → (∀ list, total g (Some list) = 0%nat) → (∀ c h, chains c g h → Q (-1, c) h ∧ wp (k c) Q h) →
  wp (then_do (tdb_lock_and_recover c) (λ r c, if r =? -1 then Ret (-1, c) else k c)) Q h.
Proof.
  intros Hc Hn Hk. eapply wp_then; [apply lock_and_recover_wp; [done|by apply (none_low c g h)]|]. cbn beta. intros r c' h' [Hc' _].
  destruct (r =? -1); cbn [wp]; by apply Hk.
Qed.

Lemma lock_list_chains fuel c g h list ltype flags :
  chains c g h → -1 <= list < hs → flag flags TDB_LOCK_MARK_ONLY = false → no_upgrade g list ltype →
  wp (tdb_lock_list fuel c list ltype flags) (λ '(r, c') h', r = 0 ∧ chains c' (gadd g (Some list) ltype) h' ∨ r = -1 ∧ chains c' g h') h.
Proof.
  revert c h. induction fuel as [|fuel IH]; intros c h Hc Hl Hf Hw; cbn [tdb_lock_list]; rewrite (ch_none _ _ _ Hc); cbn [Z.eqb negb andb].
  all: eapply wp_then; [by apply nest_lock_wp|]; intros r c1 h1 [[-> H1]|[-> H1]]; cbn [Z.eqb andb wp]; [|by right].
  all: destruct (have_data_locks c) eqn:Ed; cbn [negb wp]; [by left|]; intros [|]; [|by left].
  all: eapply (wp_then _ _ _ (λ _ c h, chains c g h)); [eapply lk_wp_mono; [|apply (nest_unlock_wp c1 (gadd g (Some list) ltype) h1 list ltype ltype); [exact H1|done|]]|].
  all: try (intros [r c2] h2; apply chains_ext, gsub_gadd).
  all: try (unfold gadd, gset; rewrite decide_True by done; lia).
  all: intros r c2 h2 H2; apply (recover_then _ _ _ g); [done|intros y; by apply (low_none c g h), no_data_locks with g h|].
  all: intros c3 h3 H3; (split; [by right|]); cbn [wp]; done || by apply IH.
Qed.

(** *** The lock on all records *)

(** In parts or at once, a range is locked, and bytes outside keep their locks. *)
Definition range_locked ltype off len c h : Z → lock_context → own_locks → Prop := λ r c' h',
  alike c c' ∧ (∀ b, ¬ in_range off len b → h' b = h b) ∧ (r = 0 ∧ (∀ b, in_range off len b → h' b = Some ltype) ∨ r = -1).
Lemma brlock_range c ltype off len flags h :
  lc_nolock c = false → flag flags TDB_LOCK_MARK_ONLY = false → wp (tdb_brlock c ltype off len flags) (λ '(r, c') h', range_locked ltype off len c h r c' h') h.
Proof.
  intros Hn Hf. eapply lk_wp_mono; [|by apply brlock_wp]. cbn beta. intros [r c'] h' [(-> & -> & ->)|(-> & Ha & ->)].
  - split; [apply alike_refl|]. unfold upd. split; [intros b Hb; by rewrite decide_False|]. left. split; [done|]. intros b Hb. by rewrite decide_True.
  - split; [done|]. split; [done|by right].
Qed.
Lemma gradual_wp fuel c ltype flags off len h :
  lc_nolock c = false → flag flags TDB_LOCK_MARK_ONLY = false → flag (Z.ldiff flags TDB_LOCK_WAIT) TDB_LOCK_MARK_ONLY = false → 0 < len →
  wp (tdb_chainlock_gradual fuel c ltype flags off len) (λ '(r, c') h', range_locked ltype off len c h r c' h') h.
Proof.
  revert c off len h. induction fuel as [|fuel IH]; intros c off len h Hn Hf Hf' Hlen; cbn [tdb_chainlock_gradual]; (destruct (Z.leb_spec len 4); [by apply brlock_range|]).
  all: eapply wp_then; [by apply brlock_range|]; cbn beta; intros r c1 h1 (Ha & Ho & [[-> Hi]| ->]); cbn [Z.eqb wp]; [by split; [|split; [|left]]|].
  - done.
  - assert (0 < len / 2 < len) as Hh by (split; [apply Z.div_str_pos; lia|apply Z.div_lt; lia]). assert (lc_nolock c1 = false) as Hn1 by (by destruct Ha as (? & ? & ->)).
    eapply wp_then; [apply IH; [done|done|done|lia]|]. cbn beta. intros r c2 h2 (Ha2 & Ho2 & Hr2).
    assert (alike c c2) as Ha3 by (by eapply alike_trans). assert (lc_nolock c2 = false) as Hn2 by (by destruct Ha3 as (? & ? & ->)).
    assert (∀ b, ¬ in_range off len b → h2 b = h b) as Ho3 by (intros b Hb; rewrite Ho2, Ho; [done|done|unfold in_range in *; lia]).
    destruct Hr2 as [[-> Hi2]| ->]; cbn [Z.eqb wp]; [|by split; [|split; [|right]]].
    eapply wp_then; [apply IH; [done|done|done|lia]|]. cbn beta. intros r c4 h4 (Ha4 & Ho4 & Hr4).
    assert (alike c c4) as Ha5 by (by eapply alike_trans). assert (lc_nolock c4 = false) as Hn4 by (by destruct Ha5 as (? & ? & ->)).
    assert (∀ b, ¬ in_range off len b → h4 b = h b) as Ho5 by (intros b Hb; rewrite Ho4, Ho3; [done|done|unfold in_range in *; lia]).
    destruct Hr4 as [[-> Hi4]| ->]; cbn [Z.eqb wp].
    + split; [done|]. split; [done|]. left. split; [done|]. intros b Hb. destruct (decide (in_range (off + len / 2) (len - len / 2) b)); [by apply Hi4|].
      rewrite Ho4 by done. apply Hi2. unfold in_range in *. lia.
    + eapply wp_then; [by apply brunlock_wp|]. cbn beta. intros r c5 h5 (-> & -> & ->). cbn [wp]. split; [done|]. split; [|by right]. intros b Hb. unfold upd. rewrite decide_False by (unfold in_range in *; lia). by apply Ho5.
Qed.

Lemma extra_locks_low c h : recs_real hs (lc_lockrecs c) h → tdb_have_extra_locks c = false → ∀ l, l ∈ lc_lockrecs c → lk_off l < lock_offset (-1).
Proof.
  intros Hreal He l Hl. unfold tdb_have_extra_locks in He. destruct (negb (lc_transaction c) && _); [done|]. apply negb_false_iff, Z.eqb_eq in He.
  destruct (decide (lk_off l < lock_offset (-1))) as [|Hge]; [done|exfalso]. rewrite lock_offset_eq in Hge by lia. unfold Tdb.FREELIST_TOP in Hge.
  set (a := if bool_decide (is_Some (find_nestlock c ACTIVE_LOCK)) then [ACTIVE_LOCK] else []).
  set (t := if lc_transaction c && bool_decide (is_Some (find_nestlock c TRANSACTION_LOCK)) then [TRANSACTION_LOCK] else []).
  assert (Z.of_nat (length (lc_lockrecs c)) = Z.of_nat (length a) + Z.of_nat (length t)) as Hlen by (subst a t; repeat case_match; cbn [length] in *; lia).
  assert (∀ off, is_Some (find_nestlock c off) → off ∈ lk_off <$> lc_lockrecs c) as Hf.
  { intros off [i Hi]. destruct (find_some _ _ _ Hi) as (l' & Hl' & <-). apply list_elem_of_fmap_2. by eapply list_elem_of_lookup_2. }
  assert ((length (lk_off l :: a ++ t) ≤ length (lk_off <$> lc_lockrecs c))%nat) as Hle; [|rewrite length_fmap in Hle; cbn [length] in Hle; rewrite length_app in Hle; lia].
  apply submseteq_length, NoDup_submseteq.
  - subst a t. repeat case_match; cbn [app]; repeat constructor; rewrite ?elem_of_cons, ?elem_of_nil; unfold ACTIVE_LOCK, TRANSACTION_LOCK in *; lia.
  - intros x [->|[Hx|Hx]%elem_of_app]%elem_of_cons; [by apply list_elem_of_fmap_2|..]; subst a t; (case_match eqn:E; [|by apply elem_of_nil in Hx]);
      apply list_elem_of_singleton in Hx as ->; apply Hf; [by apply bool_decide_eq_true in E|]. apply andb_true_iff in E as [_ E]. by apply bool_decide_eq_true in E.
Qed.

Lemma coh_bump c g h ltype : coh hs c g h → lk_count (lc_allrecord c) ≠ 0 → lk_ltype (lc_allrecord c) = ltype →
  coh hs (set_allrecord c (set_count (lk_count (lc_allrecord c) + 1) (lc_allrecord c))) (gadd g None ltype) h.
Proof.
  intros [H1 H2 H3 H4 H5 H6] Hn Ht. destruct (H6 Hn) as (A1 & A2 & A3 & A4). constructor; try done; cbn [lc_allrecord set_allrecord set_count lk_count lk_off lk_ltype].
  - rewrite total_add, decide_True by done. lia.
  - lia.
  - intros _. split; [done|]. split; [done|]. split; [done|]. intros x t [[-> ->]|Hp]%gadd_pos; [split; [by left|done]|by apply A4].
Qed.

(** The whole range from the free list on is locked. *)
Lemma all_locked c g h h' ltype :
  chains c g h → (∀ l, l ∈ lc_lockrecs c → lk_off l < lock_offset (-1)) → (∀ b, b < Tdb.FREELIST_TOP → h' b = h b) → (∀ b, Tdb.FREELIST_TOP <= b → h' b = Some ltype) →
  coh hs (set_allrecord c (mk_lock 0 1 ltype)) (gadd g None ltype) h'.
Proof.
  intros Hc Hlow Ho Hi. pose proof (low_none c g h) as Hnone. destruct Hc as [H1 H2 H3 H4 H5 H6].
  assert (recs_real hs (lc_lockrecs c) h') as Hreal.
  { destruct H5 as [R1 R2]. constructor; [|done]. intros l Hl. destruct (R1 l Hl) as (? & ? & Hcv & ?). split_and!; try done. unfold covers in *. rewrite Ho; [done|].
    specialize (Hlow l Hl). rewrite lock_offset_eq in Hlow by lia. lia. }
  constructor; try done; cbn [lc_allrecord set_allrecord lk_count lk_off lk_ltype]; [by rewrite total_add, decide_True, H4 by done|].
  intros _. split; [done|]. split; [intros b Hb; unfold covers; rewrite Hi by done; by destruct ltype|]. split; [done|].
  intros x t [[-> ->]|Hp]%gadd_pos; [split; [by left|done]|]. exfalso. destruct x as [list|].
  - specialize (Hnone list ltac:(by constructor) Hlow). unfold total in Hnone. destruct t; lia.
  - unfold total in H4. destruct t; lia.
Qed.

(** The last one is given back. *)
Lemma all_released c g h ltype :
  coh hs c g h → lk_count (lc_allrecord c) = 1 → (0 < g None ltype)%nat → (∀ list, total g (Some list) = 0%nat) →
  chains (set_allrecord c (mk_lock (lk_off (lc_allrecord c)) 0 F_RDLCK)) (gsub g None ltype) (upd h Tdb.FREELIST_TOP 0 None).
Proof.
  intros [H1 H2 H3 H4 H5 H6] Hn Hg Hz. destruct (H6 ltac:(lia)) as (_ & _ & Hlow & _). constructor; try done; cbn [lc_lockrecs set_allrecord].
  - rewrite total_sub, decide_True by done. lia.
  - apply real_other; [done|]. intros l Hl. specialize (Hlow l Hl). rewrite lock_offset_eq in Hlow by lia. unfold in_range. lia.
  - constructor.
    + intros l list Hl Hr El. specialize (Hlow l Hl). rewrite El, !lock_offset_eq in Hlow by lia. lia.
    + intros list. rewrite total_sub, decide_False, Hz by done. lia.
Qed.

Lemma allrecord_unlock_wp c g h ltype :
  coh hs c g h → (0 < g None ltype)%nat → (total g None = 1%nat → ∀ list, total g (Some list) = 0%nat) →
  wp (tdb_allrecord_unlock c ltype false)
    (λ '(r, c') h', r = 0 ∧ coh hs c' (gsub g None ltype) h' ∧ (total g None = 1%nat → chains c' (gsub g None ltype) h') ∨ r = -1 ∧ coh hs c' g h' ∧ (lc_read_only c || lc_traverse_read c) = true) h.
Proof.
  intros Hc Hg Hz. pose proof Hc as [H1 H2 H3 H4 H5 H6]. unfold tdb_allrecord_unlock.
  assert (0 < lk_count (lc_allrecord c)) as Hpos by (rewrite H4; unfold total; destruct ltype; lia). destruct (H6 ltac:(lia)) as (A1 & A2 & A3 & A4).
  assert (lk_ltype (lc_allrecord c) = ltype) as Ht by (destruct (A4 None ltype Hg) as [[?|[_ ?]] _]; done).
  destruct (lc_read_only c || lc_traverse_read c) eqn:Er; cbn [wp]; [right; split; [done|]; split; [apply (coh_alike c); [apply alike_ecode|done]|done]|].
  rewrite (proj2 (Z.eqb_neq _ _)) by lia. rewrite (bool_decide_false (lk_ltype (lc_allrecord c) ≠ ltype)) by tauto. cbn [andb].
  destruct (Z.ltb_spec 1 (lk_count (lc_allrecord c))); cbn [wp].
  - left. split; [done|]. split; [|lia]. constructor; try done; cbn [lc_allrecord set_allrecord set_count lk_count lk_off lk_ltype].
    + rewrite total_sub, decide_True by done. lia.
    + lia.
    + intros _. split; [done|]. split; [done|]. split; [done|]. intros x t Hp%gsub_pos. by apply A4.
  - eapply wp_then; [by apply brunlock_wp|]. cbn beta. intros r c' h' (-> & -> & ->). cbn [Z.eqb negb wp]. left. split; [done|].
    assert (total g None = 1%nat) as E by lia. assert (lk_count (lc_allrecord c) = 1) as E' by lia. pose proof (all_released c g h ltype Hc E' Hg (Hz E)) as Hr.
    split; [by apply chains_coh|done].
Qed.

Lemma allrecord_take_wp (retry : lock_context → prog (Z * lock_context)) c g h ltype flags :
  chains c g h → (∀ l, l ∈ lc_lockrecs c → lk_off l < lock_offset (-1)) → (lc_read_only c || lc_traverse_read c) = false →
  flag flags TDB_LOCK_MARK_ONLY = false → flag (Z.ldiff flags TDB_LOCK_WAIT) TDB_LOCK_MARK_ONLY = false →
  (∀ c h, coh hs c g h → wp (retry c) (λ '(r, c') h', r = 0 ∧ coh hs c' (gadd g None ltype) h' ∨ r = -1 ∧ coh hs c' g h') h) →
  wp (allrecord_take retry c ltype flags false) (λ '(r, c') h', r = 0 ∧ coh hs c' (gadd g None ltype) h' ∨ r = -1 ∧ coh hs c' g h') h.
Proof.
  intros Hc Hlow Hro Hf Hf' Hk. unfold allrecord_take. pose proof Hc as [Hno Hsz Hnone Hgn Hreal Hcnt].
  assert (u32 (lc_hash_size c * 4) = hs * 4) as -> by (rewrite Hsz; apply u32_id; unfold is_u32; lia).
  assert (∀ c' h', alike c c' → (∀ b, b < Tdb.FREELIST_TOP → h' b = h b) → chains c' g h') as Hkeep.
  { intros c' h' (e & d & ->) Ho. constructor; try done. destruct Hreal as [R1 R2]. constructor; [|done]. intros l Hl. destruct (R1 l Hl) as (? & ? & Hcv & ?). split_and!; try done.
    unfold covers in *. rewrite Ho; [done|]. specialize (Hlow l Hl). rewrite lock_offset_eq in Hlow by lia. lia. }
  eapply wp_then; [apply gradual_wp; [done|done|done|lia]|]. cbn beta. intros r c1 h1 (Ha & Ho & Hr).
  assert (∀ b, b < Tdb.FREELIST_TOP → h1 b = h b) as Ho' by (intros b Hb; apply Ho; unfold in_range; lia). assert (lc_nolock c1 = false) as Hn1 by (by destruct Ha as (? & ? & ->)).
  assert (lc_hash_size c1 = hs) as Hs1 by (by destruct Ha as (? & ? & ->)). destruct Hr as [[-> Hi]| ->]; cbn [Z.eqb wp]; [|right; split; [done|]; by apply chains_coh, Hkeep].
  rewrite Hs1, lock_offset_eq by lia. eapply wp_then; [by apply brlock_range|]. cbn beta. intros r c2 h2 (Ha2 & Ho2 & Hr2).
  assert (alike c c2) as Ha3 by (by eapply alike_trans). assert (lc_nolock c2 = false) as Hn2 by (by destruct Ha3 as (? & ? & ->)).
  assert (∀ b, b < Tdb.FREELIST_TOP → h2 b = h b) as Ho3 by (intros b Hb; rewrite Ho2; [by apply Ho'|unfold in_range; lia]).
  destruct Hr2 as [[-> Hi2]| ->]; cbn [Z.eqb wp].
  - assert (coh hs (set_allrecord c2 (mk_lock 0 1 ltype)) (gadd g None ltype) h2) as Hco.
    { apply (all_locked c2 g h2); [by apply Hkeep|by destruct Ha3 as (? & ? & ->)|done|]. intros b Hb.
      destruct (decide (b < Tdb.FREELIST_TOP + 4 * hs)); [rewrite Ho2 by (unfold in_range; lia); apply Hi|apply Hi2]; unfold in_range; lia. }
    intros [|]; cbn [wp]; [|by left]. rewrite Hf. eapply wp_then.
    { apply (allrecord_unlock_wp _ (gadd g None ltype) h2 ltype); [done|unfold gadd, gset; rewrite decide_True by done; lia|]. intros _ list. rewrite total_add, decide_False by done. by apply (low_none c g h). }
    cbn beta. intros r c3 h3 [(-> & _ & H3)|(_ & _ & H3)]; [|exfalso; destruct Ha3 as (? & ? & ->); cbn in H3; congruence].
    assert (chains c3 g h3) as Hc3 by (apply (chains_ext _ (gsub (gadd g None ltype) None ltype)); [apply gsub_gadd|apply H3; by rewrite total_add, decide_True, Hgn]).
    apply (recover_then _ _ _ g); [done|intros list; by apply (low_none c g h)|]. intros c4 h4 H4. split; [right; split; [done|by apply chains_coh]|]. by apply Hk, chains_coh.
  - eapply wp_then; [by apply brunlock_wp|]. cbn beta. intros r c3 h3 (-> & -> & ->). cbn [wp]. right. split; [done|]. apply chains_coh, Hkeep; [done|].
    intros b Hb. unfold upd. rewrite decide_False by (unfold in_range; lia). by apply Ho3.
Qed.

Lemma allrecord_lock_wp fuel c g h ltype flags :
  coh hs c g h → flag flags TDB_LOCK_MARK_ONLY = false → flag (Z.ldiff flags TDB_LOCK_WAIT) TDB_LOCK_MARK_ONLY = false →
  wp (tdb_allrecord_lock fuel c ltype flags false) (λ '(r, c') h', r = 0 ∧ coh hs c' (gadd g None ltype) h' ∨ r = -1 ∧ coh hs c' g h') h.
Proof.
  revert c h. induction fuel as [|fuel IH]; intros c h Hc Hf Hf'; cbn [tdb_allrecord_lock].
  all: destruct (tdb_allrecord_check c ltype false) as [r c0] eqn:Ec; unfold tdb_allrecord_check in Ec.
  all: destruct (lc_read_only c || lc_traverse_read c) eqn:Er; [injection Ec as <- <-; cbn [Z.eqb wp]; right; split; [done|]; by apply (coh_alike c); [apply alike_ecode|]|].
  all: destruct (Z.eqb_spec (lk_count (lc_allrecord c)) 0) as [E0|E0]; cbn [negb andb] in Ec; cycle 1.
  all: try (destruct (bool_decide_reflect (lk_ltype (lc_allrecord c) = ltype)) as [Et|Et]; injection Ec as <- <-; cbn [Z.eqb wp]; [left; split; [done|by apply coh_bump]|right; split; [done|]; by apply (coh_alike c); [apply alike_ecode|]]).
  all: destruct (tdb_have_extra_locks c) eqn:Ex; injection Ec as <- <-; cbn [Z.eqb wp]; [right; split; [done|]; by apply (coh_alike c); [apply alike_ecode|]|].
  all: apply allrecord_take_wp; [by apply coh_chains_of|by apply (extra_locks_low c h (coh_recs _ _ _ _ Hc) Ex)|done|done|done|].
  all: intros c1 h1 H1; cbn [wp]; done || by apply IH.
Qed.

(** ** Calls of a process *)

Inductive call :=
| CLock (list : Z) (ltype : lock_type) (wait : bool)
| CUnlock (list : Z) (ltype : lock_type)
| CLockAll (ltype : lock_type) (wait : bool)
| CUnlockAll (ltype : lock_type).
Definition exec (fuel : nat) c (x : call) : prog (Z * lock_context) :=
  match x with
  | CLock list ltype true => tdb_lock fuel c list ltype
  | CLock list ltype false => tdb_lock_nonblock fuel c list ltype
  | CUnlock list ltype => tdb_unlock c list ltype
  | CLockAll F_WRLCK true => tdb_lockall fuel c
  | CLockAll F_WRLCK false => tdb_lockall_nonblock fuel c
  | CLockAll F_RDLCK true => tdb_lockall_read fuel c
  | CLockAll F_RDLCK false => tdb_lockall_read_nonblock fuel c
  | CUnlockAll F_WRLCK => tdb_unlockall c
  | CUnlockAll F_RDLCK => tdb_unlockall_read c
  end.
(** What a caller must respect: it gives back what it was given, chains before the
    lock on all records, and does not ask for writing what it has for reading. *)
Definition proper g (x : call) : Prop :=
  match x with
  | CLock list ltype _ => -1 <= list < hs ∧ no_upgrade g list ltype
  | CUnlock list ltype => (0 < g (Some list) ltype)%nat
  | CLockAll _ _ => True
  | CUnlockAll ltype => (0 < g None ltype)%nat ∧ (total g None = 1%nat → ∀ list, total g (Some list) = 0%nat)
  end.
Definition after g (x : call) (r : Z) : given :=
  match x with
  | CLock list ltype _ => if r =? 0 then gadd g (Some list) ltype else g
  | CUnlock list ltype => gsub g (Some list) ltype
  | CLockAll ltype _ => if r =? 0 then gadd g None ltype else g
  | CUnlockAll ltype => if r =? 0 then gsub g None ltype else g
  end.

Lemma held_lock c g h list ltype : coh hs c g h → lk_count (lc_allrecord c) ≠ 0 → -1 <= list < hs →
  ltype = lk_ltype (lc_allrecord c) ∨ ltype = F_RDLCK → coh hs c (gadd g (Some list) ltype) h.
Proof.
  intros [H1 H2 H3 H4 H5 H6] Hn Hl Ht. destruct (H6 Hn) as (A1 & A2 & A3 & A4). constructor; try done.
  intros _. split; [done|]. split; [done|]. split; [done|]. intros x t [[-> ->]|Hp]%gadd_pos; [|by apply A4].
  split; [|by intros ? [= <-]]. destruct Ht; [by left|by right].
Qed.
Lemma held_unlock c g h list ltype : coh hs c g h → lk_count (lc_allrecord c) ≠ 0 → (0 < g (Some list) ltype)%nat → coh hs c (gsub g (Some list) ltype) h.
Proof.
  intros [H1 H2 H3 H4 H5 H6] Hn Hg. destruct (H6 Hn) as (A1 & A2 & A3 & A4). constructor; try done.
  intros _. split; [done|]. split; [done|]. split; [done|]. intros x t Hp%gsub_pos. by apply A4.
Qed.
Lemma lock_list_wp fuel c g h list ltype flags :
  coh hs c g h → -1 <= list < hs → flag flags TDB_LOCK_MARK_ONLY = false → no_upgrade g list ltype →
  wp (tdb_lock_list fuel c list ltype flags) (λ '(r, c') h', coh hs c' (if r =? 0 then gadd g (Some list) ltype else g) h') h.
Proof.
  intros Hc Hl Hf Hu. destruct (decide (lk_count (lc_allrecord c) = 0)) as [E0|E0].
  - eapply lk_wp_mono; [|apply lock_list_chains; [by apply coh_chains_of|done..]]. cbn beta. intros [r c'] h' [[-> H]|[-> H]]; by apply chains_coh.
  - assert (wp (tdb_lock_list fuel c list ltype flags) (λ '(r, c') h', r = 0 ∧ c' = c ∧ h' = h ∧ (ltype = lk_ltype (lc_allrecord c) ∨ ltype = F_RDLCK) ∨ r = -1 ∧ alike c c' ∧ h' = h) h) as Hw.
    { destruct fuel; cbn [tdb_lock_list]; rewrite (proj2 (Z.eqb_neq _ _) E0); cbn [negb andb];
        destruct (bool_decide_reflect (ltype = lk_ltype (lc_allrecord c))); cbn [orb wp]; try (left; by auto);
        destruct (bool_decide_reflect (ltype = F_RDLCK)); cbn [wp]; try (left; by auto); (right; split; [done|]; split; [apply alike_ecode|done]). }
    eapply lk_wp_mono; [|exact Hw]. cbn beta. intros [r c'] h' [(-> & -> & -> & Ht)|(-> & Ha & ->)]; cbn [Z.eqb]; [by apply held_lock|by apply (coh_alike c)].
Qed.
Lemma unlock_wp c g h list ltype : coh hs c g h → (0 < g (Some list) ltype)%nat →
  wp (tdb_unlock c list ltype) (λ '(r, c') h', coh hs c' (gsub g (Some list) ltype) h') h.
Proof.
  intros Hc Hg. unfold tdb_unlock. destruct (Z.eqb_spec (lk_count (lc_allrecord c)) 0) as [E0|E0]; cbn [negb andb].
  - pose proof (coh_chains_of _ _ _ Hc E0) as Hch. destruct (count_given _ _ _ (ch_count _ _ _ Hch) list) as (Hl & _); [unfold total; destruct ltype; lia|].
    eapply lk_wp_mono; [|by apply (nest_unlock_wp c g h list ltype ltype)]. cbn beta. intros [r c'] h' H. by apply chains_coh.
  - destruct (coh_held _ _ _ _ Hc E0) as (_ & _ & _ & A4). destruct (A4 _ _ Hg) as [Ht _].
    assert (bool_decide (ltype = lk_ltype (lc_allrecord c)) || bool_decide (ltype = F_RDLCK) = true) as ->.
    { destruct Ht as [Ht|[Ht _]]; [by rewrite (bool_decide_true _ Ht)|rewrite (bool_decide_true _ Ht); apply orb_true_r]. }
    cbn [wp]. by apply held_unlock.
Qed.
Lemma exec_wp fuel c g h x : coh hs c g h → proper g x → wp (exec fuel c x) (λ '(r, c') h', coh hs c' (after g x r) h') h.
Proof.
  intros Hc Hp. destruct x as [list ltype w|list ltype|ltype w|ltype]; cbn [exec proper after] in *.
  - destruct Hp as [Hl Hu]. destruct w; by apply lock_list_wp.
  - by apply unlock_wp.
  - destruct ltype, w; (eapply lk_wp_mono; [|by apply (allrecord_lock_wp fuel c g h)]); cbn beta; intros [r c'] h' [[-> H]|[-> H]]; exact H.
  - destruct Hp as [Hg Hz]. destruct ltype; (eapply lk_wp_mono; [|by apply (allrecord_unlock_wp c g h)]); cbn beta; intros [r c'] h' [(-> & H & _)|(-> & H & _)]; exact H.
Qed.
End size.

(** ** Processes *)

Inductive process :=
| Idle (c : lock_context) (g : given)
| Busy (x : call) (g : given) (p : prog (Z * lock_context)).
Record system := mk_sys { kernel : nat → own_locks; procs : nat → process }.
Implicit Types (s : system) (i j : nat).
Definition set_proc s i (p : process) : system := mk_sys (kernel s) (λ j, if decide (j = i) then p else procs s j).
Definition set_kernel s i h : system := mk_sys (λ j, if decide (j = i) then h else kernel s j) (procs s).

(** The kernel may give a lock when no other process has a conflicting one. *)
Definition compatible s i rw off len : Prop :=
  ∀ j b, j ≠ i → in_range off len b → match kernel s j b with None => True | Some t => t = F_RDLCK ∧ rw = F_RDLCK end.

Inductive step (hs : Z) s : system → Prop :=
| step_call i c g x fuel : procs s i = Idle c g → proper hs g x → step hs s (set_proc s i (Busy x g (exec fuel c x)))
| step_granted i x g rw off len w k :
    procs s i = Busy x g (Setlk rw off len w k) → compatible s i rw off len →
    step hs s (set_proc (set_kernel s i (upd (kernel s i) off len (Some rw))) i (Busy x g (k Granted)))
| step_refused i x g rw off len w k e : procs s i = Busy x g (Setlk rw off len w k) → step hs s (set_proc s i (Busy x g (k (Refused e))))
| step_unlock i x g off len k :
    procs s i = Busy x g (Unlk off len k) → step hs s (set_proc (set_kernel s i (upd (kernel s i) off len None)) i (Busy x g (k true)))
| step_needs i x g k b : procs s i = Busy x g (NeedsRecovery k) → step hs s (set_proc s i (Busy x g (k b)))
| step_recover i x g k r : procs s i = Busy x g (Recover k) → step hs s (set_proc s i (Busy x g (k r)))
| step_return i x g r c : procs s i = Busy x g (Ret (r, c)) → step hs s (set_proc s i (Idle c (after g x r))).

Definition fresh_context (hs : Z) : lock_context := mk_lc false false false hs false [] (mk_lock 0 0 F_RDLCK) [] TDB_SUCCESS false.
Definition start (hs : Z) : system := mk_sys (λ _ _, None) (λ _, Idle (fresh_context hs) (λ _ _, 0%nat)).

Record sys_ok (hs : Z) s : Prop := {
  sys_kernel : ∀ i j b, i ≠ j → kernel s i b = Some F_WRLCK → kernel s j b = None;
  sys_procs : ∀ i, match procs s i with
    | Idle c g => coh hs c g (kernel s i)
    | Busy x g p => wp p (λ '(r, c) h, coh hs c (after g x r) h) (kernel s i)
    end;
}.
Lemma lock_start_ok hs : sys_ok hs (start hs).
Proof.
  constructor; [done|]. intros i. cbn. constructor; try done; cbn.
  - constructor; [intros l Hl; by apply elem_of_nil in Hl|constructor].
  - intros _. constructor; [intros l list Hl; by apply elem_of_nil in Hl|]. unfold total. intros; lia.
Qed.
Lemma sys_busy hs s i x g p h :
  sys_ok hs s → (∀ j b, i ≠ j → (h b = Some F_WRLCK → kernel s j b = None) ∧ (kernel s j b = Some F_WRLCK → h b = None)) →
  wp p (λ '(r, c) h, coh hs c (after g x r) h) h → sys_ok hs (set_proc (set_kernel s i h) i (Busy x g p)).
Proof.
  intros [H1 H2] Hk Hw. constructor; cbn [kernel procs set_proc set_kernel].
  - intros j j' b Hne. repeat case_decide; subst; try done; [by apply Hk|by apply Hk|by apply H1].
  - intros j. case_decide; [done|]. apply H2.
Qed.
Lemma sys_same hs s i p : sys_ok hs s →
  match p with Idle c g => coh hs c g (kernel s i) | Busy x g p => wp p (λ '(r, c) h, coh hs c (after g x r) h) (kernel s i) end → sys_ok hs (set_proc s i p).
Proof.
  intros [H1 H2] Hw. constructor; cbn [kernel procs set_proc]; [done|]. intros j. case_decide; [by subst|apply H2].
Qed.
Lemma step_ok hs s s' : 0 < hs < 2 ^ 29 → sys_ok hs s → step hs s s' → sys_ok hs s'.
Proof.
  intros Hhs Hok Hstep. destruct Hstep as [i c g x fuel Hp Hpr|i x g rw off len w k Hp Hcomp|i x g rw off len w k e Hp|i x g off len k Hp|i x g k b Hp|i x g k r Hp|i x g r c Hp];
    pose proof (sys_procs _ _ Hok i) as Hi; rewrite Hp in Hi; cbn [wp] in Hi.
  - apply sys_same; [done|]. by apply exec_wp.
  - apply (sys_busy hs s); [done| |by apply Hi]. intros j b Hne. pose proof (sys_kernel _ _ Hok) as Hk. unfold upd. case_decide as Hr; [|split; [by apply Hk|apply Hk; congruence]].
    specialize (Hcomp j b ltac:(congruence) Hr). destruct (kernel s j b) as [[]|]; [destruct Hcomp as [_ ->]|destruct Hcomp|]; by split.
  - apply sys_same; [done|]. by apply Hi.
  - apply (sys_busy hs s); [done| |done]. intros j b Hne. pose proof (sys_kernel _ _ Hok) as Hk. unfold upd. case_decide; [done|split; [by apply Hk|apply Hk; congruence]].
  - by apply sys_same.
  - by apply sys_same.
  - by apply sys_same.
Qed.
Lemma steps_ok hs s s' : 0 < hs < 2 ^ 29 → rtc (step hs) s s' → sys_ok hs s → sys_ok hs s'.
Proof. intros Hhs. induction 1 as [|s s1 s' Hs _ IH]; [done|]. intros Hok. apply IH. by apply (step_ok hs s). Qed.

(** What a process was given is covered by the kernel. *)
Lemma chain_covers hs c g h list ltype : coh hs c g h → lk_count (lc_allrecord c) = 0 → (0 < g (Some list) ltype)%nat → covers h (lock_offset list) ltype.
Proof.
  intros Hc E0 Hg. pose proof (coh_chains _ _ _ _ Hc E0) as Hcnt. destruct (count_given _ _ _ Hcnt list) as (Hr & l & Hin & El); [unfold total; destruct ltype; lia|].
  destruct (count_recs _ _ _ Hcnt l list Hin Hr El) as [_ Hw]. destruct (real_recs _ _ _ (coh_recs _ _ _ _ Hc) l Hin) as (_ & _ & Hcv & _). rewrite El in Hcv.
  unfold covers in *. destruct (h (lock_offset list)) as [[]|]; [|done|done]. destruct ltype; [done|]. rewrite Hw in Hcv by done. done.
Qed.
Lemma given_covers hs c g h list ltype : 0 < hs < 2 ^ 29 → coh hs c g h → 0 <= list < hs → (0 < g (Some list) ltype)%nat ∨ (0 < g None ltype)%nat → covers h (lock_offset list) ltype.
Proof.
  intros Hhs Hc Hl Hg. destruct (decide (lk_count (lc_allrecord c) = 0)) as [E0|E0].
  - destruct Hg as [Hg|Hg]; [by eapply chain_covers|]. pose proof (coh_all _ _ _ _ Hc) as E. unfold total in E. destruct ltype; lia.
  - destruct (coh_held _ _ _ _ Hc E0) as (_ & A2 & _ & A4). specialize (A2 (lock_offset list)). rewrite (lock_offset_eq hs) in * by lia. specialize (A2 ltac:(lia)).
    assert (ltype = lk_ltype (lc_allrecord c) ∨ ltype = F_RDLCK) as Ht by (destruct Hg as [Hg|Hg]; destruct (A4 _ _ Hg) as [[?|[? _]] _]; auto).
    unfold covers in *. destruct (h _) as [[]|]; [|done|done]. by destruct Ht as [->|].
Qed.

(** C20: mutual exclusion of the chain locks of a tdb file.  Processes call
    [tdb_lock], [tdb_lock_nonblock], [tdb_unlock], [tdb_lockall] and its variants in
    any order and interleaving, blocking, failing and recovering the file; they
    give back only what they have and do not ask for writing a chain they have for
    reading.  Then, between its calls, a process that has a chain for writing,
    through its own lock or the lock on all records, is the only one that has it. *)
Theorem chain_lock_exclusion hs s i j ci gi cj gj list :
  0 < hs < 2 ^ 29 → rtc (step hs) (start hs) s → i ≠ j → procs s i = Idle ci gi → procs s j = Idle cj gj → 0 <= list < hs →
  (0 < gi (Some list) F_WRLCK)%nat ∨ (0 < gi None F_WRLCK)%nat → total gj (Some list) = 0%nat ∧ total gj None = 0%nat.
Proof.
  intros Hhs Hsteps Hne Hi Hj Hl Hw. pose proof (steps_ok hs _ _ Hhs Hsteps (lock_start_ok hs)) as [Hk Hp].
  pose proof (Hp i) as Hci. pose proof (Hp j) as Hcj. rewrite Hi in Hci. rewrite Hj in Hcj.
  pose proof (given_covers hs ci gi _ list F_WRLCK Hhs Hci Hl Hw) as Hcov. unfold covers in Hcov. destruct (kernel s i (lock_offset list)) as [[]|] eqn:E; try done.
  specialize (Hk i j _ Hne E). assert (∀ t, ¬ ((0 < gj (Some list) t)%nat ∨ (0 < gj None t)%nat)) as Hno.
  { intros t Ht. pose proof (given_covers hs cj gj _ list t Hhs Hcj Hl Ht) as H. unfold covers in H. by rewrite Hk in H. }
  pose proof (Hno F_RDLCK). pose proof (Hno F_WRLCK). unfold total. lia.
Qed.
(** A call that the kernel grants at once. *)
Lemma quick_call hs s i c g x fuel rw off len w k c' :
  procs s i = Idle c g → proper hs g x → exec fuel c x = Setlk rw off len w k → compatible s i rw off len →
  (k Granted = Ret (0, c') ∨ ∃ k', k Granted = NeedsRecovery k' ∧ k' false = Ret (0, c')) →
  ∃ s', rtc (step hs) s s' ∧ procs s' i = Idle c' (after g x 0) ∧ kernel s' i = upd (kernel s i) off len (Some rw)
    ∧ (∀ j, j ≠ i → procs s' j = procs s j ∧ kernel s' j = kernel s j).
Proof.
  intros Hi Hp He Hc Hk. set (s1 := set_proc s i (Busy x g (exec fuel c x))). set (s2 := set_proc (set_kernel s1 i (upd (kernel s1 i) off len (Some rw))) i (Busy x g (k Granted))).
  assert (∀ j p, procs (set_proc s j p) j = p) as Hset by (intros; cbn; by rewrite decide_True).
  assert (step hs s s1) as H1 by (by apply (step_call hs s i c)). assert (step hs s1 s2) as H2.
  { apply (step_granted hs s1 i x g rw off len w k); [subst s1; cbn; by rewrite decide_True, He|done]. }
  assert (∃ s3, rtc (step hs) s2 s3 ∧ procs s3 i = Busy x g (Ret (0, c')) ∧ (∀ j, kernel s3 j = kernel s2 j) ∧ ∀ j, j ≠ i → procs s3 j = procs s j) as (s3 & H3 & E3 & K3 & O3).
  { destruct Hk as [Hk|(k' & Hk & Hk')].
    - exists s2. split; [done|]. subst s2 s1. cbn. rewrite Hk, decide_True by done. split; [done|]. split; [done|]. intros j Hj. by rewrite !decide_False.
    - exists (set_proc s2 i (Busy x g (k' false))). split; [apply rtc_once, (step_needs hs s2 i x g k' false); subst s2; cbn; by rewrite decide_True, Hk|].
      cbn. rewrite !decide_True by done. rewrite Hk'. split; [done|]. split; [done|]. intros j Hj. by rewrite !decide_False. }
  exists (set_proc s3 i (Idle c' (after g x 0))). split.
  { eapply rtc_l; [exact H1|]. eapply rtc_l; [exact H2|]. eapply rtc_r; [exact H3|]. by apply step_return. }
  cbn. rewrite decide_True by done. split; [done|]. rewrite K3. subst s2 s1. cbn. rewrite decide_True by done. split; [done|].
  intros j Hj. rewrite K3. cbn. rewrite !decide_False by done. by rewrite O3.
Qed.
Lemma chain_lock_exclusion_witness : ∃ s ci gi cj gj, procs s 0%nat = Idle ci gi ∧ procs s 1%nat = Idle cj gj ∧ (0 < gi (Some 3%Z) F_WRLCK)%nat ∧ total gj (Some 3%Z) = 0%nat ∧ total gj None = 0%nat.
Proof.
  edestruct (quick_call 10 (start 10) 0%nat (fresh_context 10) (λ _ _, 0%nat) (CLock 3 F_WRLCK true) 0%nat) as (s & Hs & Hi & _ & Ho).
  - reflexivity.
  - split; [lia|]. by left.
  - reflexivity.
  - done.
  - right. eexists. split; reflexivity.
  - destruct (Ho 1%nat) as [Hj _]; [done|]. eexists s, _, _, _, _. split; [exact Hi|]. split; [exact Hj|]. split; [vm_compute; lia|].
    eapply (chain_lock_exclusion 10 s 0%nat 1%nat); [lia|exact Hs|done|exact Hi|exact Hj|lia|left; vm_compute; lia].
Defined.

(** ** Waiting for locks *)

(** Every run returns in [Q] when the requests that wait are granted, those that
    do not wait have any answer, and the file needs no recovery.  [h] are the locks
    that the kernel has for the process. *)
Fixpoint patient {A} (p : prog A) (Q : A → own_locks → Prop) h : Prop :=
  match p with
  | Ret a => Q a h
  | Setlk rw off len wait k => patient (k Granted) Q (upd h off len (Some rw)) ∧ (wait = false → ∀ e, patient (k (Refused e)) Q h)
  | Unlk off len k => patient (k true) Q (upd h off len None)
  | NeedsRecovery k => patient (k false) Q h
  | Recover k => ∀ r, patient (k r) Q h
  | Stuck => False
  end.
Lemma patient_mono {A} (p : prog A) (Q Q' : A → own_locks → Prop) h : (∀ a h, Q a h → Q' a h) → patient p Q h → patient p Q' h.
Proof. intros HQ. revert h. induction p as [a|rw off len w k IH|off len k IH|k IH|k IH|]; intros h; cbn [patient]; intuition eauto. Qed.
(** [wp] says what holds after every run, [patient] that there is an end. *)
Lemma patient_wp {A} (p : prog A) (Q Q' : A → own_locks → Prop) h : wp p Q h → patient p Q' h → patient p (λ a h, Q a h ∧ Q' a h) h.
Proof. revert h. induction p as [a|rw off len w k IH|off len k IH|k IH|k IH|]; intros h; cbn [wp patient]; intuition eauto. Qed.
Lemma patient_then {A} p (f : Z → lock_context → prog A) (Q : A → own_locks → Prop) (R : Z → lock_context → Prop) h :
  patient p (λ '(r, c) _, R r c) h → (∀ r c h, R r c → patient (f r c) Q h) → patient (then_do p f) Q h.
Proof.
  intros Hp Hf. unfold then_do. revert h Hp. induction p as [[r c]|rw off len w k IH|off len k IH|k IH|k IH|]; intros h; cbn [patient pbind] in *; intuition eauto.
Qed.
Definition writable c ltype : Prop := ltype = F_WRLCK → (lc_read_only c || lc_traverse_read c) = false.
Lemma brlock_patient c rw off len flags h : lc_nolock c = false → writable c rw →
  patient (tdb_brlock c rw off len flags) (λ '(r, c') _, alike c c' ∧ (flag flags TDB_LOCK_WAIT = true → r = 0) ∧ (r = 0 ∨ r = -1)) h.
Proof.
  intros Hn Hw. unfold tdb_brlock, fcntl_lock. rewrite Hn. destruct (flag flags TDB_LOCK_MARK_ONLY); cbn [patient]; [split; [apply alike_refl|auto]|].
  assert (bool_decide (rw = F_WRLCK) && (lc_read_only c || lc_traverse_read c) = false) as ->.
  { destruct (bool_decide_reflect (rw = F_WRLCK)) as [E|]; [by apply Hw|done]. }
  cbn [patient]. split; [split; [apply alike_refl|auto]|]. intros -> e. split; [by eexists _, _|]. split; [done|auto].
Qed.
Lemma writable_alike c c' rw : alike c c' → writable c rw → writable c' rw.
Proof. by intros (? & ? & ->). Qed.
Lemma nolock_alike c c' : alike c c' → lc_nolock c' = lc_nolock c.
Proof. by intros (? & ? & ->). Qed.

(** Halving a range ends at single chains, for which the process waits. *)
Lemma gradual_patient fuel c rw flags off len h : lc_nolock c = false → writable c rw → flag flags TDB_LOCK_WAIT = true → 0 < len <= 4 * 2 ^ Z.of_nat fuel →
  patient (tdb_chainlock_gradual fuel c rw flags off len) (λ '(r, c') _, alike c c' ∧ r = 0) h.
Proof.
  revert c off len h. induction fuel as [|fuel IH]; intros c off len h Hn Hw Hf Hlen; cbn [tdb_chainlock_gradual];
    (destruct (Z.leb_spec len 4); [eapply patient_mono; [|by apply brlock_patient]; intros [r c'] h' (? & ? & _); auto|]); [cbn in Hlen; lia|].
  eapply patient_then; [by apply brlock_patient|]. cbn beta. intros r c1 h1 (Ha & _ & [-> | ->]); cbn [Z.eqb patient]; [done|].
  rewrite Nat2Z.inj_succ, Z.pow_succ_r in Hlen by lia. pose proof (Z.div_mod len 2). pose proof (Z.mod_pos_bound len 2).
  eapply patient_then; [apply IH; [by rewrite (nolock_alike c)|by apply (writable_alike c)|done|lia]|]. cbn beta. intros r c2 h2 [Ha2 ->]. cbn [Z.eqb].
  assert (alike c c2) as Ha3 by (by eapply alike_trans).
  eapply patient_then; [apply IH; [by rewrite (nolock_alike c)|by apply (writable_alike c)|done|lia]|]. cbn beta. intros r c3 h3 [Ha4 ->]. cbn [Z.eqb patient].
  split; [by eapply alike_trans|done].
Qed.

Lemma lock_patient hs fuel c g h ltype list : 0 < hs < 2 ^ 29 → coh hs c g h → lk_count (lc_allrecord c) = 0 → writable c ltype → -1 <= list < hs →
  patient (tdb_lock fuel c list ltype) (λ '(r, _) _, r = 0) h.
Proof.
  intros Hhs Hc H0 Hw Hl. pose proof (coh_lock _ _ _ _ Hc) as Hn. pose proof (coh_size _ _ _ _ Hc) as Hsz.
  assert (patient (tdb_nest_lock c (lock_offset list) ltype TDB_LOCK_WAIT) (λ '(r, _) _, r = 0) h) as Hnest.
  { unfold tdb_nest_lock. rewrite Hsz, Hn, (proj2 (Z.leb_gt _ _)) by (rewrite !(lock_offset_eq hs) by lia; lia). destruct (find_nestlock _ _); [done|].
    eapply patient_then; [by apply brlock_patient|]. cbn beta. intros r c' h' (_ & -> & _); done. }
  unfold tdb_lock. destruct fuel; cbn [tdb_lock_list]; rewrite H0; cbn [Z.eqb negb andb]; (eapply patient_then; [exact Hnest|]); cbn beta; intros r c' h' ->; cbn [Z.eqb andb]; by destruct (have_data_locks c).
Qed.
Lemma lockall_patient hs fuel c g h ltype : 0 < hs < 2 ^ 29 → coh hs c g h → lk_count (lc_allrecord c) = 0 →
  (lc_read_only c || lc_traverse_read c) = false → tdb_have_extra_locks c = false →
  patient (tdb_allrecord_lock fuel c ltype TDB_LOCK_WAIT false) (λ '(r, c') _, r = 0 ∧ lc_allrecord c' = mk_lock 0 1 ltype) h.
Proof.
  intros Hhs Hc H0 Hro Hex. pose proof (coh_lock _ _ _ _ Hc) as Hn. pose proof (coh_size _ _ _ _ Hc) as Hsz.
  assert (tdb_allrecord_check c ltype false = (1, c)) as Hchk by (unfold tdb_allrecord_check; by rewrite Hro, H0, Hex).
  assert (u32 (lc_hash_size c * 4) = hs * 4) as Hlen by (rewrite Hsz; apply u32_id; unfold is_u32; lia).
  destruct fuel; cbn [tdb_allrecord_lock]; rewrite Hchk; cbn [Z.eqb]; unfold allrecord_take; rewrite Hlen;
    (eapply patient_then; [apply gradual_patient; [done|by intros _|done|cbn; lia]|]); cbn beta; intros r c1 h1 [Ha ->]; cbn [Z.eqb];
    (eapply patient_then; [apply brlock_patient; [by rewrite (nolock_alike c)|by apply (writable_alike c); [|intros _]]|]); cbn beta; intros r c2 h2 (_ & -> & _); done.
Qed.

(** C29: a process that waits for its locks gets them, if each waiting [fcntl] is
    granted in the end (no other process keeps a conflicting lock and there is no
    deadlock) and the file needs no recovery.  The process may write, or asks for
    reading only, and has no lock on all records.  Then [tdb_lock] on a chain that
    it does not hold for reading returns 0 and the kernel has the byte of the chain
    locked for it.  [tdb_lockall], of a process without chain locks on a file opened
    for writing, however the kernel refuses its first attempts on ranges of chains,
    returns 0, counts one lock, and the kernel has every byte from the first hash
    chain on locked for it: all chains and all records. *)
Theorem waiting_gets_lock hs fuel c g h ltype list :
  0 < hs < 2 ^ 29 → coh hs c g h → lk_count (lc_allrecord c) = 0 → writable c ltype → -1 <= list < hs →
  (no_upgrade g list ltype → patient (tdb_lock fuel c list ltype) (λ '(r, _) h', r = 0 ∧ covers h' (lock_offset list) ltype) h)
  ∧ ((lc_read_only c || lc_traverse_read c) = false → tdb_have_extra_locks c = false →
     patient (exec fuel c (CLockAll ltype true))
       (λ '(r, c') h', r = 0 ∧ lc_allrecord c' = mk_lock 0 1 ltype ∧ ∀ b, Tdb.FREELIST_TOP <= b → covers h' b ltype) h).
Proof.
  intros Hhs Hc H0 Hw Hl. split.
  - intros Hu. eapply patient_mono; [|eapply patient_wp; [apply (lock_list_chains hs Hhs fuel c g h list ltype TDB_LOCK_WAIT); [by apply coh_chains_of|done..]|by eapply lock_patient]].
    cbn beta. intros [r c'] h' [[[_ Hco]|[-> _]] Hr]; [|done]. split; [done|]. eapply chain_covers; [by apply chains_coh|apply Hco|]. unfold gadd, gset. rewrite decide_True by done. lia.
  - intros Hro Hex. replace (exec fuel c (CLockAll ltype true)) with (tdb_allrecord_lock fuel c ltype TDB_LOCK_WAIT false) by (by destruct ltype).
    eapply patient_mono; [|eapply patient_wp; [apply (allrecord_lock_wp hs Hhs fuel c g h ltype TDB_LOCK_WAIT); done|by eapply lockall_patient]].
    cbn beta. intros [r c'] h' [Hco [-> Ha]]. split; [done|]. split; [done|]. destruct Hco as [[_ Hco]|[? _]]; [|done].
    destruct (coh_held _ _ _ _ Hco) as (_ & Hcv & _); [by rewrite Ha|]. by rewrite Ha in Hcv.
Qed.
Lemma waiting_gets_lock_witness :
  let c := fresh_context 10 in
  patient (tdb_lock 0 c 3 F_WRLCK) (λ '(r, _) h', r = 0 ∧ covers h' (lock_offset 3) F_WRLCK) (λ _, None)
  ∧ patient (exec 0 c (CLockAll F_WRLCK true))
      (λ '(r, c') h', r = 0 ∧ lc_allrecord c' = mk_lock 0 1 F_WRLCK ∧ ∀ b, Tdb.FREELIST_TOP <= b → covers h' b F_WRLCK) (λ _, None).
Proof.
  intros c. destruct (waiting_gets_lock 10 0 c (λ _ _, 0%nat) (λ _, None) F_WRLCK 3) as [H1 H2]; [lia|apply (sys_procs 10 _ (lock_start_ok 10) 0%nat)|done|done|lia|].
  split; [apply H1; by left|by apply H2].
Defined.

(** C37: a chain lock for reading that is held already answers a request for
    writing: [tdb_lock] counts it and does not ask the kernel.  Two processes that
    read a chain both get the lock for writing. *)
Theorem read_lock_not_upgraded :
  ∃ s c0 g0 c1 g1, rtc (step 10) (start 10) s ∧ procs s 0%nat = Idle c0 g0 ∧ procs s 1%nat = Idle c1 g1
    ∧ ∀ fuel, ∃ c0' c1', exec fuel c0 (CLock 3 F_WRLCK true) = Ret (0, c0') ∧ exec fuel c1 (CLock 3 F_WRLCK true) = Ret (0, c1').
Proof.
  edestruct (quick_call 10 (start 10) 0%nat (fresh_context 10) (λ _ _, 0%nat) (CLock 3 F_RDLCK true) 0%nat) as (s & Hs & Hi & Hk & Ho);
    [reflexivity|split; [lia|done]|reflexivity|done|right; eexists; split; reflexivity|].
  destruct (Ho 1%nat) as [Hj _]; [done|].
  edestruct (quick_call 10 s 1%nat (fresh_context 10) (λ _ _, 0%nat) (CLock 3 F_RDLCK true) 0%nat) as (s' & Hs' & Hj' & _ & Ho');
    [exact Hj|split; [lia|done]|reflexivity| |right; eexists; split; reflexivity|].
  { intros j b Hne Hr. destruct (decide (j = 0%nat)) as [->|Hj0]; [|destruct (Ho j Hj0) as [_ ->]; done].
    rewrite Hk. unfold upd. by case_decide. }
  destruct (Ho' 0%nat) as [Hi' _]; [done|]. rewrite Hi in Hi'. eexists s', _, _, _, _. split; [by transitivity s|]. split; [exact Hi'|]. split; [exact Hj'|].
  intros [|fuel]; eexists _, _; split; reflexivity.
Qed.
