(* ===== verification/Protocol.v ===== *)
(** * Wire and disk formats

    The record header that ctdb puts in front of every record of a local tdb
    ([struct ctdb_ltdb_header]), the packets the daemons exchange
    ([include/ctdb_protocol.h]) and the constants of the protocol.  Layouts are
    those of a little-endian LP64 machine. *)
From S2P Require Import Prelude.

(** ** Constants *)

Definition CTDB_NULL_FUNC : Z := 4278190081.              (* 0xFF000001 *)
Definition CTDB_FETCH_FUNC : Z := 4278190082.             (* 0xFF000002 *)
Definition CTDB_FETCH_WITH_HEADER_FUNC : Z := 4278190083. (* 0xFF000003 *)

Definition CTDB_IMMEDIATE_MIGRATION : Z := 1.
Definition CTDB_CALL_FLAG_VACUUM_MIGRATION : Z := 2.
Definition CTDB_WANT_READONLY : Z := 4.

Definition CTDB_REC_FLAG_MIGRATED_WITH_DATA : Z := 2 ^ 16.
Definition CTDB_REC_FLAG_VACUUM_MIGRATED : Z := 2 ^ 17.
Definition CTDB_REC_FLAG_AUTOMATIC : Z := 2 ^ 18.
Definition CTDB_REC_RO_HAVE_DELEGATIONS : Z := 2 ^ 24.
Definition CTDB_REC_RO_HAVE_READONLY : Z := 2 ^ 25.
Definition CTDB_REC_RO_REVOKING_READONLY : Z := 2 ^ 26.
Definition CTDB_REC_RO_REVOKE_COMPLETE : Z := 2 ^ 27.
Definition CTDB_REC_RO_FLAGS : Z :=
  CTDB_REC_RO_HAVE_DELEGATIONS |+ CTDB_REC_RO_HAVE_READONLY
  |+ CTDB_REC_RO_REVOKING_READONLY |+ CTDB_REC_RO_REVOKE_COMPLETE.

Definition CTDB_CURRENT_NODE : Z := 4026531841.         (* 0xF0000001 *)
Definition CTDB_BROADCAST_ALL : Z := 4026531842.        (* 0xF0000002 *)
Definition CTDB_BROADCAST_VNNMAP : Z := 4026531843.     (* 0xF0000003 *)
Definition CTDB_BROADCAST_CONNECTED : Z := 4026531844.  (* 0xF0000004 *)

Definition NODE_FLAGS_DISCONNECTED : Z := 1.
Definition NODE_FLAGS_UNHEALTHY : Z := 2.
Definition NODE_FLAGS_PERMANENTLY_DISABLED : Z := 4.
Definition NODE_FLAGS_BANNED : Z := 8.
Definition NODE_FLAGS_DELETED : Z := 16.
Definition NODE_FLAGS_STOPPED : Z := 32.
Definition NODE_FLAGS_DISABLED : Z :=
  NODE_FLAGS_UNHEALTHY |+ NODE_FLAGS_PERMANENTLY_DISABLED.
Definition NODE_FLAGS_INACTIVE : Z :=
  NODE_FLAGS_DELETED |+ NODE_FLAGS_DISCONNECTED |+ NODE_FLAGS_BANNED |+ NODE_FLAGS_STOPPED.

Definition INVALID_GENERATION : Z := 1.
Definition MAX_COUNT_BUCKETS : nat := 16.
Definition MAX_HOT_KEYS : nat := 10.

(** ** The record header *)

(** [struct ctdb_ltdb_header] *)
Record ctdb_ltdb_header := mk_header {
  rsn : Z;
  dmaster : Z;
  reserved1 : Z;
  flags : Z;
}.

#[global] Instance ctdb_ltdb_header_eq_dec : EqDecision ctdb_ltdb_header.
Proof. solve_decision. Defined.

Definition set_rsn (h : ctdb_ltdb_header) (v : Z) : ctdb_ltdb_header :=
  mk_header v (dmaster h) (reserved1 h) (flags h).
Definition set_dmaster (h : ctdb_ltdb_header) (v : Z) : ctdb_ltdb_header :=
  mk_header (rsn h) v (reserved1 h) (flags h).
Definition set_flags (h : ctdb_ltdb_header) (v : Z) : ctdb_ltdb_header :=
  mk_header (rsn h) (dmaster h) (reserved1 h) v.

(** [ZERO_STRUCT(header)] *)
Definition zero_header : ctdb_ltdb_header := mk_header 0 0 0 0.

Definition header_ok (h : ctdb_ltdb_header) : Prop :=
  is_u64 (rsn h) ∧ is_u32 (dmaster h) ∧ is_u32 (reserved1 h) ∧ is_u32 (flags h).

(** [sizeof(struct ctdb_ltdb_header)]: 20 bytes of members, aligned to 8. *)
Definition sizeof_header : nat := 24.

(** The bytes [memcpy(dst, header, sizeof( *header))] writes; the four trailing
    alignment bytes are those of a zeroed structure. *)
Definition header_bytes (h : ctdb_ltdb_header) : bytes :=
  le_bytes 8 (rsn h) ++ le_bytes 4 (dmaster h) ++ le_bytes 4 (reserved1 h)
  ++ le_bytes 4 (flags h) ++ le_bytes 4 0.

(** [*(struct ctdb_ltdb_header * )p] *)
Definition header_of_bytes (p : bytes) : ctdb_ltdb_header :=
  mk_header (le_val (slice 0 8 p)) (le_val (slice 8 4 p))
            (le_val (slice 12 4 p)) (le_val (slice 16 4 p)).

#[global] Arguments header_bytes : simpl never.
#[global] Arguments header_of_bytes : simpl never.
#[global] Arguments sizeof_header : simpl never.

(** ** Packets *)

(** [struct ctdb_req_header], less the magic and version words that the
    transport checks. *)
Record ctdb_req_header := mk_hdr {
  hdr_length : Z;
  hdr_generation : Z;
  hdr_destnode : Z;
  hdr_srcnode : Z;
  hdr_reqid : Z;
}.

(** [struct ctdb_req_call]: [data] is the key followed by the call data. *)
Record ctdb_req_call := mk_req_call {
  rc_hdr : ctdb_req_header;
  rc_flags : Z;
  rc_db_id : Z;
  rc_callid : Z;
  rc_hopcount : Z;
  rc_keylen : nat;
  rc_calldatalen : nat;
  rc_data : bytes;
}.

(** [struct ctdb_reply_call] *)
Record ctdb_reply_call := mk_reply_call {
  rp_hdr : ctdb_req_header;
  rp_status : Z;
  rp_datalen : nat;
  rp_data : bytes;
}.

(** [struct ctdb_req_dmaster]: [data] is the key, the record data and the
    32-bit record flags. *)
Record ctdb_req_dmaster := mk_req_dmaster {
  rd_hdr : ctdb_req_header;
  rd_db_id : Z;
  rd_rsn : Z;
  rd_dmaster : Z;
  rd_keylen : nat;
  rd_datalen : nat;
  rd_data : bytes;
}.

(** [struct ctdb_reply_dmaster] *)
Record ctdb_reply_dmaster := mk_reply_dmaster {
  ry_hdr : ctdb_req_header;
  ry_db_id : Z;
  ry_rsn : Z;
  ry_keylen : nat;
  ry_datalen : nat;
  ry_data : bytes;
}.

(** [struct ctdb_reply_error] *)
Record ctdb_reply_error := mk_reply_error {
  re_hdr : ctdb_req_header;
  re_status : Z;
  re_msg : string;
}.

(** [enum ctdb_operation]; messages, controls and keepalives carry payloads the
    model leaves opaque. *)
Inductive packet :=
  | CTDB_REQ_CALL (c : ctdb_req_call)
  | CTDB_REPLY_CALL (c : ctdb_reply_call)
  | CTDB_REQ_DMASTER (c : ctdb_req_dmaster)
  | CTDB_REPLY_DMASTER (c : ctdb_reply_dmaster)
  | CTDB_REPLY_ERROR (c : ctdb_reply_error)
  | CTDB_REQ_MESSAGE (hdr : ctdb_req_header) (payload : bytes)
  | CTDB_REQ_CONTROL (hdr : ctdb_req_header) (payload : bytes)
  | CTDB_REPLY_CONTROL (hdr : ctdb_req_header) (payload : bytes)
  | CTDB_REQ_KEEPALIVE (hdr : ctdb_req_header)
  | CTDB_UNKNOWN_OPERATION (hdr : ctdb_req_header).

Definition packet_hdr (p : packet) : ctdb_req_header :=
  match p with
  | CTDB_REQ_CALL c => rc_hdr c
  | CTDB_REPLY_CALL c => rp_hdr c
  | CTDB_REQ_DMASTER c => rd_hdr c
  | CTDB_REPLY_DMASTER c => ry_hdr c
  | CTDB_REPLY_ERROR c => re_hdr c
  | CTDB_REQ_MESSAGE h _ | CTDB_REQ_CONTROL h _ | CTDB_REPLY_CONTROL h _
  | CTDB_REQ_KEEPALIVE h | CTDB_UNKNOWN_OPERATION h => h
  end.

Definition set_destnode (h : ctdb_req_header) (d : Z) : ctdb_req_header :=
  mk_hdr (hdr_length h) (hdr_generation h) d (hdr_srcnode h) (hdr_reqid h).

(** [hdr->destnode = d] on a whole packet. *)
Definition packet_set_dest (p : packet) (d : Z) : packet :=
  match p with
  | CTDB_REQ_CALL (mk_req_call h a b c e f g i) =>
      CTDB_REQ_CALL (mk_req_call (set_destnode h d) a b c e f g i)
  | CTDB_REPLY_CALL (mk_reply_call h a b c) =>
      CTDB_REPLY_CALL (mk_reply_call (set_destnode h d) a b c)
  | CTDB_REQ_DMASTER (mk_req_dmaster h a b c e f g) =>
      CTDB_REQ_DMASTER (mk_req_dmaster (set_destnode h d) a b c e f g)
  | CTDB_REPLY_DMASTER (mk_reply_dmaster h a b c e f) =>
      CTDB_REPLY_DMASTER (mk_reply_dmaster (set_destnode h d) a b c e f)
  | CTDB_REPLY_ERROR (mk_reply_error h a b) =>
      CTDB_REPLY_ERROR (mk_reply_error (set_destnode h d) a b)
  | CTDB_REQ_MESSAGE h x => CTDB_REQ_MESSAGE (set_destnode h d) x
  | CTDB_REQ_CONTROL h x => CTDB_REQ_CONTROL (set_destnode h d) x
  | CTDB_REPLY_CONTROL h x => CTDB_REPLY_CONTROL (set_destnode h d) x
  | CTDB_REQ_KEEPALIVE h => CTDB_REQ_KEEPALIVE (set_destnode h d)
  | CTDB_UNKNOWN_OPERATION h => CTDB_UNKNOWN_OPERATION (set_destnode h d)
  end.

(** [offsetof(struct ..., data)] of the variable-length packets. *)
Definition offsetof_req_call_data : Z := 56.
Definition offsetof_reply_call_data : Z := 40.
Definition offsetof_req_dmaster_data : Z := 60.
Definition offsetof_reply_dmaster_data : Z := 56.
Definition offsetof_reply_error_msg : Z := 40.

(** Key, data and trailing flags of a dmaster packet.  The flags are read only
    when the packet is long enough to hold them; packets of older daemons end
    after the data. *)
Definition blob_key (keylen : nat) (data : bytes) : bytes := slice 0 keylen data.
Definition blob_data (keylen datalen : nat) (data : bytes) : bytes := slice keylen datalen data.
Definition blob_flags (off len : Z) (keylen datalen : nat) (data : bytes) : Z :=
  if off + Z.of_nat keylen + Z.of_nat datalen + 4 <=? len
  then le_val (slice (keylen + datalen) 4 data) else 0.

(** What the sender puts in the blob. *)
Definition dmaster_blob (key data : bytes) (flags : Z) : bytes :=
  key ++ data ++ le_bytes 4 flags.

(** ** Lemmas *)

Lemma length_header_bytes h : length (header_bytes h) = sizeof_header.
Proof. unfold header_bytes. by rewrite !length_app, !length_le_bytes. Qed.

Lemma header_of_bytes_app h d :
  header_ok h → header_of_bytes (header_bytes h ++ d) = h.
Proof.
  intros (H1 & H2 & H3 & H4). unfold header_of_bytes, header_bytes.
  rewrite <- !app_assoc.
  rewrite (slice_app_first (le_bytes 8 (rsn h))) by by rewrite length_le_bytes.
  rewrite (slice_app_skip _ _ 8 4 0) by by rewrite length_le_bytes.
  rewrite (slice_app_skip _ _ 12 4 4) by by rewrite length_le_bytes.
  rewrite (slice_app_skip _ _ 16 4 8) by by rewrite length_le_bytes.
  rewrite (slice_app_first (le_bytes 4 (dmaster h))) by by rewrite length_le_bytes.
  rewrite (slice_app_skip _ _ 4 4 0) by by rewrite length_le_bytes.
  rewrite (slice_app_skip _ _ 8 4 4) by by rewrite length_le_bytes.
  rewrite (slice_app_first (le_bytes 4 (reserved1 h))) by by rewrite length_le_bytes.
  rewrite (slice_app_skip _ _ 4 4 0) by by rewrite length_le_bytes.
  rewrite (slice_app_first (le_bytes 4 (flags h))) by by rewrite length_le_bytes.
  rewrite !le_val_bytes_small by (unfold is_u64, is_u32 in *; simpl Z.of_nat; lia).
  by destruct h.
Qed.

Lemma drop_header_bytes h d : drop sizeof_header (header_bytes h ++ d) = d.
Proof. rewrite <- (length_header_bytes h). apply drop_app_length. Qed.

Lemma blob_key_app key data fl :
  blob_key (length key) (dmaster_blob key data fl) = key.
Proof. unfold blob_key, dmaster_blob. by apply slice_app_first. Qed.

Lemma blob_data_app key data fl :
  blob_data (length key) (length data) (dmaster_blob key data fl) = data.
Proof.
  unfold blob_data, dmaster_blob.
  rewrite (slice_app_skip _ _ _ _ 0) by lia. by apply slice_app_first.
Qed.

Lemma blob_flags_app off len key data fl :
  is_u32 fl → off + dsize key + dsize data + 4 <= len →
  blob_flags off len (length key) (length data) (dmaster_blob key data fl) = fl.
Proof.
  intros Hf Hl. unfold blob_flags, dmaster_blob, dsize in *.
  rewrite (proj2 (Z.leb_le _ _)) by lia.
  rewrite (slice_app_skip _ _ _ _ (length data)) by lia.
  rewrite (slice_app_skip _ _ _ _ 0) by lia.
  rewrite slice_all by by rewrite length_le_bytes.
  apply le_val_bytes_small. unfold is_u32 in Hf. simpl Z.of_nat. lia.
Qed.

(** ** Properties *)

(** a record header written in front of record data and read back is the
    same header, and the data behind it is the same data, for every header
    whose fields fit their C types. *)
Theorem header_roundtrip (h : ctdb_ltdb_header) (data : bytes) (Hok : header_ok h) :
  header_of_bytes (header_bytes h ++ data) = h
  ∧ drop sizeof_header (header_bytes h ++ data) = data
  ∧ length (header_bytes h ++ data) = (sizeof_header + length data)%nat.
Proof.
  split; [by apply header_of_bytes_app|]. split; [apply drop_header_bytes|].
  by rewrite length_app, length_header_bytes.
Qed.

Lemma header_roundtrip_witness :
  header_of_bytes (header_bytes (mk_header 7 2 0 65536) ++ [1; 2; 3]) = mk_header 7 2 0 65536
  ∧ drop sizeof_header (header_bytes (mk_header 7 2 0 65536) ++ [1; 2; 3]) = [1; 2; 3]
  ∧ length (header_bytes (mk_header 7 2 0 65536) ++ [1; 2; 3]) = (sizeof_header + 3)%nat.
Proof.
  apply (header_roundtrip (mk_header 7 2 0 65536) [1; 2; 3]).
  unfold header_ok, is_u64, is_u32. simpl. lia.
Defined.
