(* ===== verification/Queue.v ===== *)
(** * Packet queues on byte streams

    [common/ctdb_io.c]: the input buffer that cuts the bytes read from a socket
    into packets, and the queue of packets waiting to be written; with the
    checks that [tcp/tcp_io.c] makes on a packet that has come in.  The socket
    and the scheduler are the environment: how many bytes are ready, how many a
    [read] or [write] transfers and whether it fails are arguments.  Memory
    allocations succeed below talloc's limit and fail from it on. *)
From S2P Require Import Prelude Protocol.

(** ** State *)

Definition QUEUE_BUFFER_SIZE : Z := 16 * 1024.
Definition MAX_TALLOC_SIZE : Z := 0x10000000.
Definition CTDB_TCP_ALIGNMENT : Z := 8.
Definition CTDB_MAGIC : Z := 0x43544442.
Definition CTDB_VERSION : Z := 1.
Definition sizeof_req_header : Z := 32.

(** [struct ctdb_buffer]: whether [data] is NULL, the first [length] bytes of it,
    [size] and [extend]. *)
Record ctdb_buffer := mk_buffer {
  bf_null : bool;
  bf_data : bytes;
  bf_size : Z;
  bf_extend : Z;
}.

(** [struct ctdb_queue_pkt]: the bytes still to be written and [full_length]. *)
Record ctdb_queue_pkt := mk_pkt {
  pk_data : bytes;
  pk_full_length : Z;
}.

(** What the immediate event of a queue is scheduled to call. *)
Inductive im_event :=
  | queue_process_event
  | queue_dead.

(** [struct ctdb_queue].  [q_writeable] is whether the descriptor waits for
    EVENT_FD_WRITE; [q_calls] are the calls of the callback so far, [None] for
    the call without data that reports a failure. *)
Record ctdb_queue := mk_queue {
  q_buffer : ctdb_buffer;
  q_out : list ctdb_queue_pkt;
  q_out_length : Z;
  q_fd : Z;
  q_writeable : bool;
  q_alignment : Z;
  q_im : option im_event;
  q_calls : list (option bytes);
}.

Definition set_q_buffer q v := mk_queue v (q_out q) (q_out_length q) (q_fd q)
  (q_writeable q) (q_alignment q) (q_im q) (q_calls q).
Definition set_q_out q v := mk_queue (q_buffer q) v (q_out_length q) (q_fd q)
  (q_writeable q) (q_alignment q) (q_im q) (q_calls q).
Definition set_q_out_length q v := mk_queue (q_buffer q) (q_out q) v (q_fd q)
  (q_writeable q) (q_alignment q) (q_im q) (q_calls q).
Definition set_q_fd q v := mk_queue (q_buffer q) (q_out q) (q_out_length q) v
  (q_writeable q) (q_alignment q) (q_im q) (q_calls q).
Definition set_q_writeable q v := mk_queue (q_buffer q) (q_out q) (q_out_length q) (q_fd q)
  v (q_alignment q) (q_im q) (q_calls q).
Definition set_q_im q v := mk_queue (q_buffer q) (q_out q) (q_out_length q) (q_fd q)
  (q_writeable q) (q_alignment q) v (q_calls q).
Definition callback q (data : option bytes) := mk_queue (q_buffer q) (q_out q) (q_out_length q)
  (q_fd q) (q_writeable q) (q_alignment q) (q_im q) (q_calls q ++ [data]).

Definition ctdb_queue_length q : Z := q_out_length q.

(** ** Reading *)

(** The length field in front of a packet. *)
Definition pkt_size_of (data : bytes) : Z := le_val (take 4 data).

(** At most one packet is taken out; an event is scheduled for the rest. *)
Definition queue_process (q : ctdb_queue) : ctdb_queue :=
  let b := q_buffer q in
  if dsize (bf_data b) <? 4 then q
  else
    let pkt_size := pkt_size_of (bf_data b) in
    if pkt_size =? 0 then callback q None
    else if dsize (bf_data b) <? pkt_size then
      if QUEUE_BUFFER_SIZE <? pkt_size
      then set_q_buffer q (mk_buffer (bf_null b) (bf_data b) (bf_size b) pkt_size)
      else q
    else
      let data := take (Z.to_nat pkt_size) (bf_data b) in
      let rest := drop (Z.to_nat pkt_size) (bf_data b) in
      let q :=
        if 0 <? dsize rest then
          set_q_im (set_q_buffer q (mk_buffer (bf_null b) rest (bf_size b) (bf_extend b)))
            (Some queue_process_event)
        else if QUEUE_BUFFER_SIZE <? bf_size b then
          set_q_buffer q (mk_buffer true rest 0 (bf_extend b))
        else set_q_buffer q (mk_buffer (bf_null b) rest (bf_size b) (bf_extend b)) in
      callback q (Some data).

(** The room [queue_io_read] makes: [None] when the allocation fails. *)
Definition queue_make_room (b : ctdb_buffer) : option ctdb_buffer :=
  if bf_null b then Some (mk_buffer false (bf_data b) QUEUE_BUFFER_SIZE (bf_extend b))
  else if 0 <? bf_extend b then
    if MAX_TALLOC_SIZE <=? bf_extend b then None
    else Some (mk_buffer false (bf_data b) (bf_extend b) 0)
  else Some b.

(** [num_ready] is what FIONREAD reports ([None]: the call fails); a [read] of
    [n] bytes returns at most [limit] of the bytes [sock] of the socket.  The
    result is the queue and what is left in the socket. *)
Definition queue_io_read (num_ready : option Z) (limit : nat) (sock : bytes) (q : ctdb_queue)
    : ctdb_queue * bytes :=
  match num_ready with
  | None => (q, sock)
  | Some num_ready =>
      if num_ready =? 0 then (callback q None, sock)
      else match queue_make_room (q_buffer q) with
      | None => (callback q None, sock)
      | Some b =>
          let navail := s32 (bf_size b - dsize (bf_data b)) in
          let num_ready := if navail <? num_ready then navail else num_ready in
          if 0 <? num_ready then
            let got := take (Nat.min limit (Z.to_nat num_ready)) sock in
            if dsize got <=? 0 then (callback (set_q_buffer q b) None, sock)
            else
              let b := mk_buffer (bf_null b) (bf_data b ++ got) (bf_size b) (bf_extend b) in
              (queue_process (set_q_buffer q b), drop (length got) sock)
          else (queue_process (set_q_buffer q b), sock)
      end
  end.

(** The scheduled immediate event runs. *)
Definition queue_immediate (q : ctdb_queue) : ctdb_queue :=
  match q_im q with
  | None => q
  | Some queue_process_event => queue_process (set_q_im q None)
  | Some queue_dead => callback (set_q_im q None) None
  end.

(** ** Writing *)

(** The outcome of a [write]: it takes at most [n] bytes, would block, or fails. *)
Inductive write_result :=
  | Wrote (n : nat)
  | WouldBlock
  | WriteFailed.

(** (return value, bytes that reach the socket). *)
Definition sys_write (w : write_result) (data : bytes) : Z * bytes :=
  match w with
  | Wrote n => (dsize (take n data), take n data)
  | _ => (-1, [])
  end.

(** The descriptor is given up and [queue_dead] scheduled. *)
Definition queue_fail (q : ctdb_queue) : ctdb_queue :=
  set_q_im (set_q_fd (set_q_writeable q false) (-1)) (Some queue_dead).

(** [writes] are the outcomes of the calls of [write]; after them it would
    block.  The result is the queue and the bytes written. *)
Fixpoint queue_io_write (torture : bool) (writes : list write_result) (q : ctdb_queue)
    : ctdb_queue * bytes :=
  match q_out q with
  | [] => (set_q_writeable q false, [])
  | pkt :: out =>
      match writes with
      | [] => (q, [])
      | w :: writes =>
          let '(n, sent) := sys_write w (if torture then take 1 (pk_data pkt) else pk_data pkt) in
          let unlink := set_q_out_length (set_q_out q out) (u32 (q_out_length q - 1)) in
          match w with
          | WriteFailed =>
              (queue_fail (if negb (dsize (pk_data pkt) =? pk_full_length pkt)
                           then unlink else q), sent)
          | _ =>
              if n <=? 0 then (q, sent)
              else if negb (n =? dsize (pk_data pkt)) then
                (set_q_out q (mk_pkt (drop (Z.to_nat n) (pk_data pkt)) (pk_full_length pkt) :: out),
                 sent)
              else
                let '(q, sent') := queue_io_write torture writes unlink in
                (q, sent ++ sent')
          end
      end
  end.

(** The packet as it goes over the wire: its length is rounded up to the
    alignment, stored in front, and the end is filled with zeros. *)
Definition aligned_length (alignment length : Z) : Z :=
  if alignment =? 0 then length else u32 ((length + (alignment - 1)) &~ (alignment - 1)).

Definition aligned_packet (alignment : Z) (data : bytes) : bytes :=
  let length2 := aligned_length alignment (dsize data) in
  let data := if alignment =? 0 then data else le_bytes 4 length2 ++ drop 4 data in
  data ++ replicate (Z.to_nat (length2 - dsize data)) 0.

(** What is left of the packet goes to the end of the queue. *)
Definition queue_append (data : bytes) (full_length : Z) (q : ctdb_queue) : ctdb_queue :=
  let writeable := if bool_decide (q_out q = []) && negb (q_fd q =? -1)
                   then true else q_writeable q in
  let q := set_q_writeable q writeable in
  let q := set_q_out q (q_out q ++ [mk_pkt data full_length]) in
  set_q_out_length q (u32 (q_out_length q + 1)).

(** The result is the queue and the bytes written at once; [w] is the outcome of
    the immediate [write]. *)
Definition ctdb_queue_send (torture : bool) (w : write_result) (data : bytes) (q : ctdb_queue)
    : ctdb_queue * bytes :=
  let data := aligned_packet (q_alignment q) data in
  let full_length := dsize data in
  if bool_decide (q_out q = []) && negb (q_fd q =? -1) && negb torture then
    match w with
    | WriteFailed => (queue_fail q, [])
    | _ =>
        let sent := (sys_write w data).2 in
        let data := drop (length sent) data in
        if dsize data =? 0 then (q, sent) else (queue_append data full_length q, sent)
    end
  else (queue_append data full_length q, []).

Definition ctdb_queue_set_fd (fd : Z) (q : ctdb_queue) : ctdb_queue :=
  set_q_writeable (set_q_fd q fd) (negb (fd =? -1) && negb (bool_decide (q_out q = []))).

(** A new queue. *)
Definition ctdb_queue_setup (fd alignment : Z) : ctdb_queue :=
  let q := mk_queue (mk_buffer true [] 0 0) [] 0 fd false alignment None [] in
  if negb (fd =? -1) then ctdb_queue_set_fd fd q else q.

(** ** The TCP transport *)

Definition ctdb_tcp_allocate_pkt (size : Z) : Z :=
  (size + (CTDB_TCP_ALIGNMENT - 1)) &~ (CTDB_TCP_ALIGNMENT - 1).

Definition hdr_word (i : nat) (data : bytes) : Z := le_val (slice (4 * i) 4 data).

(** Whether [ctdb_tcp_read_cb] hands the packet to the daemon; otherwise the
    connection is dropped. *)
Definition ctdb_tcp_read_cb (data : option bytes) : bool :=
  match data with
  | None => false
  | Some data =>
      let cnt := dsize data in
      if cnt <? sizeof_req_header then false
      else if negb (Z.land cnt (CTDB_TCP_ALIGNMENT - 1) =? 0) then false
      else if negb (cnt =? hdr_word 0 data) then false
      else if negb (hdr_word 1 data =? CTDB_MAGIC) then false
      else if negb (hdr_word 2 data =? CTDB_VERSION) then false
      else true
  end.

(** ** Channels

    A queue that sends, the bytes in the socket, and a queue that receives.
    Nothing fails: the connection stays up. *)

Record channel := mk_channel {
  ch_tx : ctdb_queue;
  ch_sock : bytes;
  ch_rx : ctdb_queue;
}.

Inductive event :=
  | Sent (data : bytes)
  | Delivered (data : option bytes).

(** A packet as the daemon hands it to the transport. *)
Definition sendable (data : bytes) : Prop :=
  sizeof_req_header <= dsize data ∧ dsize data + CTDB_TCP_ALIGNMENT <= MAX_TALLOC_SIZE
  ∧ hdr_word 1 data = CTDB_MAGIC ∧ hdr_word 2 data = CTDB_VERSION.

(** The calls of the callback that a step of the receiver made. *)
Definition new_calls (q q' : ctdb_queue) : list event :=
  Delivered <$> drop (length (q_calls q)) (q_calls q').

Inductive chan_step (torture : bool) : channel → list event → channel → Prop :=
  | chan_send tx sock rx data w tx' out :
      sendable data → w ≠ WriteFailed →
      ctdb_queue_send torture w data tx = (tx', out) →
      chan_step torture (mk_channel tx sock rx)
        [Sent (aligned_packet CTDB_TCP_ALIGNMENT data)] (mk_channel tx' (sock ++ out) rx)
  | chan_write tx sock rx writes tx' out :
      q_writeable tx = true → WriteFailed ∉ writes →
      queue_io_write torture writes tx = (tx', out) →
      chan_step torture (mk_channel tx sock rx) [] (mk_channel tx' (sock ++ out) rx)
  | chan_read tx sock rx num_ready limit rx' sock' :
      0 < num_ready <= dsize sock → (0 < limit)%nat →
      queue_io_read (Some num_ready) limit sock rx = (rx', sock') →
      chan_step torture (mk_channel tx sock rx) (new_calls rx rx') (mk_channel tx sock' rx')
  | chan_immediate tx sock rx :
      is_Some (q_im rx) →
      chan_step torture (mk_channel tx sock rx) (new_calls rx (queue_immediate rx))
        (mk_channel tx sock (queue_immediate rx)).

Inductive chan_steps (torture : bool) : channel → list event → channel → Prop :=
  | chan_steps_nil c : chan_steps torture c [] c
  | chan_steps_snoc c evs c1 ev c2 :
      chan_steps torture c evs c1 → chan_step torture c1 ev c2 →
      chan_steps torture c (evs ++ ev) c2.

(** Both queues are set up on a connection. *)
Definition new_channel (fd fd' : Z) : channel :=
  mk_channel (ctdb_queue_setup fd CTDB_TCP_ALIGNMENT) [] (ctdb_queue_setup fd' CTDB_TCP_ALIGNMENT).

(** No event is pending. *)
Definition idle (c : channel) : Prop :=
  q_writeable (ch_tx c) = false ∧ ch_sock c = [] ∧ q_im (ch_rx c) = None.

(** The specification: packets are delivered in the order in which they were
    sent, each once; [fifo evs ps] holds when [ps] is in transit after [evs]. *)
Inductive fifo : list event → list bytes → Prop :=
  | fifo_nil : fifo [] []
  | fifo_send evs ps p : fifo evs ps → fifo (evs ++ [Sent p]) (ps ++ [p])
  | fifo_deliver evs ps p : fifo evs (p :: ps) → fifo (evs ++ [Delivered (Some p)]) ps.

(** ** Packets on the wire *)

Definition framed (p : bytes) : Prop :=
  4 <= dsize p < MAX_TALLOC_SIZE ∧ pkt_size_of p = dsize p.

Lemma aligned_length_spec l :
  0 <= l → l + 8 <= MAX_TALLOC_SIZE →
  aligned_length CTDB_TCP_ALIGNMENT l = (l + 7) / 8 * 8.
Proof.
  intros H0 H1. unfold aligned_length, CTDB_TCP_ALIGNMENT, MAX_TALLOC_SIZE in *. simpl (8 =? 0).
  cbv iota. change (8 - 1) with (Z.ones 3). change (Z.ones 3) with 7 at 1.
  rewrite Z.ldiff_ones_r, Z.shiftr_div_pow2, Z.shiftl_mul_pow2 by lia.
  change (2 ^ 3) with 8. apply u32_id. unfold is_u32.
  pose proof (Z.mul_div_le (l + 7) 8). pose proof (Z.div_pos (l + 7) 8). lia.
Qed.

Lemma pkt_size_app p r : 4 <= dsize p → pkt_size_of (p ++ r) = pkt_size_of p.
Proof. intros. unfold pkt_size_of, dsize in *. by rewrite take_app_le by lia. Qed.


Lemma aligned_packet_spec data :
  sizeof_req_header <= dsize data → dsize data + CTDB_TCP_ALIGNMENT <= MAX_TALLOC_SIZE →
  ∃ pad, aligned_packet CTDB_TCP_ALIGNMENT data
    = le_bytes 4 (aligned_length CTDB_TCP_ALIGNMENT (dsize data)) ++ drop 4 data ++ pad
  ∧ dsize (aligned_packet CTDB_TCP_ALIGNMENT data) = (dsize data + 7) / 8 * 8.
Proof.
  unfold sizeof_req_header. intros H0 H1.
  pose proof (aligned_length_spec (dsize data)) as El.
  unfold aligned_packet. simpl (CTDB_TCP_ALIGNMENT =? 0). cbv iota.
  eexists. split; [by rewrite <- app_assoc|].
  rewrite dsize_app. unfold dsize in *. rewrite length_app, length_replicate, length_le_bytes, length_drop.
  rewrite El by (unfold CTDB_TCP_ALIGNMENT in H1; lia).
  pose proof (Z.div_mod (Z.of_nat (length data) + 7) 8).
  pose proof (Z.mod_pos_bound (Z.of_nat (length data) + 7) 8). lia.
Qed.

Lemma aligned_packet_framed data : sendable data → framed (aligned_packet CTDB_TCP_ALIGNMENT data).
Proof.
  intros (H0 & H1 & _ & _). destruct (aligned_packet_spec data H0 H1) as (pad & E & El).
  unfold framed. rewrite El. unfold sizeof_req_header, CTDB_TCP_ALIGNMENT, MAX_TALLOC_SIZE in *.
  pose proof (Z.div_mod (dsize data + 7) 8). pose proof (Z.mod_pos_bound (dsize data + 7) 8).
  split; [lia|]. rewrite E, pkt_size_app by (unfold dsize; rewrite length_le_bytes; lia).
  unfold pkt_size_of. rewrite take_ge by (rewrite length_le_bytes; lia).
  rewrite le_val_bytes_small; rewrite aligned_length_spec; unfold MAX_TALLOC_SIZE; lia.
Qed.

(** A word behind the first is the one the caller stored. *)
Lemma hdr_word_aligned i data :
  (0 < i)%nat → (4 * i + 4 ≤ 32)%nat → sizeof_req_header <= dsize data →
  dsize data + CTDB_TCP_ALIGNMENT <= MAX_TALLOC_SIZE →
  hdr_word i (aligned_packet CTDB_TCP_ALIGNMENT data) = hdr_word i data.
Proof.
  intros Hi Hi' H0 H1. destruct (aligned_packet_spec data H0 H1) as (pad & E & _).
  unfold hdr_word, sizeof_req_header, dsize in *. f_equal. rewrite E.
  rewrite (slice_app_skip _ _ _ _ (4 * i - 4)) by (rewrite length_le_bytes; lia).
  unfold slice. rewrite skipn_app, drop_drop, length_drop.
  replace (4 + (4 * i - 4))%nat with (4 * i)%nat by lia.
  apply take_app_le. rewrite length_drop. lia.
Qed.

Lemma sendable_accepted data :
  sendable data → ctdb_tcp_read_cb (Some (aligned_packet CTDB_TCP_ALIGNMENT data)) = true.
Proof.
  intros Hs. pose proof (aligned_packet_framed data Hs) as [_ Hsz].
  destruct Hs as (H0 & H1 & Hm & Hv). destruct (aligned_packet_spec data H0 H1) as (pad & _ & El).
  unfold ctdb_tcp_read_cb. rewrite (hdr_word_aligned 1), (hdr_word_aligned 2), Hm, Hv by (done || lia).
  unfold hdr_word. change (slice (4 * 0) 4 ?p) with (take 4 (drop 0 p)). rewrite drop_0.
  unfold pkt_size_of in Hsz. rewrite Hsz, El, Z.eqb_refl.
  unfold sizeof_req_header, CTDB_TCP_ALIGNMENT in *.
  pose proof (Z.div_mod (dsize data + 7) 8). pose proof (Z.mod_pos_bound (dsize data + 7) 8).
  rewrite (proj2 (Z.ltb_ge _ _)) by lia. change (8 - 1) with (Z.ones 3).
  rewrite Z.land_ones by lia. change (2 ^ 3) with 8. by rewrite Z.mod_mul by lia.
Qed.

(** The first packet of a framed stream is found from any prefix that has its
    length field, and is complete in a prefix that has its length. *)
Lemma stream_head buf tail rest :
  Forall framed rest → buf ++ tail = concat rest → 4 <= dsize buf →
  ∃ p rest', rest = p :: rest' ∧ framed p ∧ Forall framed rest' ∧ pkt_size_of buf = dsize p
  ∧ (dsize p <= dsize buf →
     take (length p) buf = p ∧ drop (length p) buf ++ tail = concat rest').
Proof.
  intros Hf E Hb. destruct Hf as [|p rest' [Hp1 Hp2] Hf].
  { apply app_eq_nil in E as [-> _]. by unfold dsize in Hb. }
  exists p, rest'. simpl in E. split; [done|]. split; [done|]. split; [done|]. split.
  - rewrite <- Hp2, <- (pkt_size_app buf tail), E by done. apply pkt_size_app. lia.
  - intros Hle. unfold dsize in *.
    assert (buf = p ++ drop (length p) buf) as Eb.
    { rewrite <- (take_drop (length p) buf) at 1. f_equal.
      rewrite <- (take_app_le buf tail), E by lia. apply take_app_length. }
    split.
    + rewrite Eb at 1. apply take_app_length.
    + apply (app_inv_head p). by rewrite app_assoc, <- Eb.
Qed.

(** ** The receiver *)

(** What [queue_process] relies on. *)
Record rx_pre (q : ctdb_queue) : Prop := {
  rp_null : bf_null (q_buffer q) = true → bf_data (q_buffer q) = [] ∧ bf_extend (q_buffer q) = 0;
  rp_size : bf_null (q_buffer q) = false →
    QUEUE_BUFFER_SIZE <= bf_size (q_buffer q) < MAX_TALLOC_SIZE
    ∧ dsize (bf_data (q_buffer q)) <= bf_size (q_buffer q);
  rp_extend : bf_extend (q_buffer q) = 0
    ∨ QUEUE_BUFFER_SIZE < bf_extend (q_buffer q)
      ∧ 4 <= dsize (bf_data (q_buffer q)) < bf_extend (q_buffer q)
      ∧ bf_extend (q_buffer q) = pkt_size_of (bf_data (q_buffer q));
  rp_im : q_im q ≠ Some queue_dead;
}.

(** Between events there is also room for more, and a complete packet in the
    buffer has an event scheduled. *)
Record rx_ok (q : ctdb_queue) : Prop := {
  ro_pre : rx_pre q;
  ro_room : bf_null (q_buffer q) = true ∨ 0 < bf_extend (q_buffer q)
    ∨ dsize (bf_data (q_buffer q)) < bf_size (q_buffer q);
  ro_wake : 4 <= dsize (bf_data (q_buffer q)) →
    pkt_size_of (bf_data (q_buffer q)) <= dsize (bf_data (q_buffer q)) →
    q_im q = Some queue_process_event;
}.

(** Nothing happened, or the first packet of the stream was delivered. *)
Definition progress (q : ctdb_queue) (tail : bytes) (rest : list bytes) (q' : ctdb_queue)
    (tail' : bytes) : Prop :=
  (q_calls q' = q_calls q ∧ bf_data (q_buffer q') ++ tail' = concat rest)
  ∨ ∃ p rest', rest = p :: rest' ∧ q_calls q' = q_calls q ++ [Some p]
    ∧ bf_data (q_buffer q') ++ tail' = concat rest'.

(** The bytes of the buffer and the socket, and the scheduled event, weighted so
    that each step of the receiver loses some. *)
Definition rx_left (q : ctdb_queue) (sock : bytes) : nat :=
  4 * length sock + 2 * length (bf_data (q_buffer q))
  + match q_im q with Some _ => 1 | None => 0 end.

Lemma process_short q :
  rx_pre q → dsize (bf_data (q_buffer q)) < 4 → rx_ok q.
Proof.
  intros Hq Hs. split; [done| |lia].
  destruct (bf_null (q_buffer q)) eqn:En; [by left|right; right].
  destruct (rp_size q Hq En) as [[? _] _]. unfold QUEUE_BUFFER_SIZE in *. lia.
Qed.

Lemma process_ok q tail rest :
  rx_pre q → Forall framed rest → bf_data (q_buffer q) ++ tail = concat rest →
  rx_ok (queue_process q) ∧ progress q tail rest (queue_process q) tail
  ∧ (rx_left (queue_process q) tail ≤ rx_left q tail)%nat.
Proof.
  intros Hq Hf E. unfold queue_process. destruct (Z.ltb_spec (dsize (bf_data (q_buffer q))) 4).
  { split; [by apply process_short|]. split; [by left|done]. }
  destruct (stream_head _ _ _ Hf E) as (p & rest' & -> & [[Hp _] _] & Hf' & Hsz & Hc); [done|].
  rewrite Hsz. rewrite (proj2 (Z.eqb_neq _ _)) by lia.
  destruct (bf_null (q_buffer q)) eqn:En.
  { apply rp_null in En as [Ed _]; [|done]. rewrite Ed in *. by unfold dsize in *. }
  destruct (rp_size q Hq En) as [[Hs1 Hs2] Hs3].
  destruct (Z.ltb_spec (dsize (bf_data (q_buffer q))) (dsize p)) as [Hlt|Hge].
  - destruct (Z.ltb_spec QUEUE_BUFFER_SIZE (dsize p)) as [Hbig|Hsmall].
    + split; [|split; [by left|done]]. split; [split|..]; simpl.
      * done.
      * done.
      * right. lia.
      * apply Hq.
      * right; left. unfold QUEUE_BUFFER_SIZE in *. lia.
      * lia.
    + split; [|split; [by left|done]]. split; [done|right; right; lia|lia].
  - destruct (Hc Hge) as [Ht Hd]. replace (Z.to_nat (dsize p)) with (length p) by (unfold dsize; lia).
    rewrite Ht.
    set (rest0 := drop (length p) (bf_data (q_buffer q))) in *.
    assert (length rest0 = (length (bf_data (q_buffer q)) - length p)%nat) as Hl
      by apply length_drop.
    assert (bf_extend (q_buffer q) = 0) as He by (destruct (rp_extend q Hq); lia).
    unfold dsize in Hp, Hge, Hs3.
    destruct (Z.ltb_spec 0 (dsize rest0)) as [Hr|Hr];
      [|destruct (Z.ltb_spec QUEUE_BUFFER_SIZE (bf_size (q_buffer q)))].
    + split; [|split; [right; by exists p, rest'|unfold rx_left; simpl; lia]].
      split; [split|..]; simpl; unfold dsize.
      * done.
      * intros _. lia.
      * by left.
      * done.
      * right; right. lia.
      * done.
    + assert (rest0 = []) as E0 by (apply nil_length_inv; unfold dsize in Hr; lia).
      split; [|split; [right; by exists p, rest'|unfold rx_left; simpl; rewrite E0; simpl; lia]].
      split; [split|..]; simpl; rewrite ?E0; [done|done|by left|apply Hq|by left|done].
    + assert (rest0 = []) as E0 by (apply nil_length_inv; unfold dsize in Hr; lia).
      split; [|split; [right; by exists p, rest'|unfold rx_left; simpl; rewrite E0; simpl; lia]].
      unfold QUEUE_BUFFER_SIZE in *.
      split; [split|..]; simpl; rewrite ?E0; unfold dsize; simpl;
        [done|intros _; unfold QUEUE_BUFFER_SIZE; lia|by left|apply Hq|right; right; lia|done].
Qed.

(** The room made for a read: at least one byte, and no extension pending. *)
Lemma make_room_ok q rest tail :
  rx_ok q → Forall framed rest → bf_data (q_buffer q) ++ tail = concat rest →
  ∃ size, queue_make_room (q_buffer q) = Some (mk_buffer false (bf_data (q_buffer q)) size 0)
  ∧ QUEUE_BUFFER_SIZE <= size < MAX_TALLOC_SIZE ∧ dsize (bf_data (q_buffer q)) < size.
Proof.
  intros [Hq Hroom _] Hf E. unfold queue_make_room.
  destruct (bf_null (q_buffer q)) eqn:En.
  { apply rp_null in En as [-> ->]; [|done]. by eexists. }
  destruct (rp_size q Hq En) as [Hs1 Hs2].
  destruct (rp_extend q Hq) as [He|(He1 & He2 & He3)].
  - rewrite He. simpl. destruct Hroom as [?|[?|?]]; [done|lia|].
    destruct (q_buffer q) as [n d sz ex]; simpl in *. subst. by exists sz.
  - rewrite (proj2 (Z.ltb_lt _ _)) by (unfold QUEUE_BUFFER_SIZE in *; lia).
    destruct (stream_head _ _ _ Hf E) as (p & rest' & -> & [Hp _] & _ & Hsz & _); [lia|].
    rewrite (proj2 (Z.leb_gt _ _)) by lia. eexists. split; [done|]. lia.
Qed.

Lemma read_ok q num_ready limit sock tail rest q' sock' :
  rx_ok q → Forall framed rest → bf_data (q_buffer q) ++ sock ++ tail = concat rest →
  0 < num_ready <= dsize sock → (0 < limit)%nat →
  queue_io_read (Some num_ready) limit sock q = (q', sock') →
  rx_ok q' ∧ progress q (sock ++ tail) rest q' (sock' ++ tail)
  ∧ (rx_left q' sock' < rx_left q sock)%nat.
Proof.
  intros Hq Hf E Hs Hlim. unfold queue_io_read.
  destruct (make_room_ok q rest (sock ++ tail)) as (size & -> & Hsz & Hroom); [done..|].
  rewrite (proj2 (Z.eqb_neq _ _)) by lia. simpl.
  rewrite s32_id by (unfold MAX_TALLOC_SIZE, dsize in *; lia).
  set (n := if _ <? num_ready then _ else _).
  assert (0 < n ∧ n <= size - dsize (bf_data (q_buffer q))) as [Hn0 Hn1].
  { unfold n. case_goal; zbool; lia. }
  assert (n <= dsize sock) by (unfold n; case_goal; zbool; lia).
  rewrite (proj2 (Z.ltb_lt _ _)) by done.
  set (got := take (limit `min` Z.to_nat n) sock).
  assert (0 < length got)%nat as Hg0 by (unfold got, dsize in *; rewrite length_take; lia).
  assert (length got ≤ Z.to_nat n)%nat as Hg1 by (unfold got; rewrite length_take; lia).
  rewrite (proj2 (Z.leb_gt _ _)) by (unfold dsize; lia).
  intros [= <- <-]. set (q1 := set_q_buffer q _).
  assert (sock = got ++ drop (length got) sock) as Eg.
  { symmetry. apply take_drop_length. }
  destruct (process_ok q1 (drop (length got) sock ++ tail) rest) as (Hok & Hp & Hl).
  - split; simpl; [done|intros _..|by left|apply Hq].
    rewrite dsize_app. split; [done|]. unfold dsize in *. lia.
  - done.
  - rewrite <- E. simpl (bf_data _). by rewrite <- app_assoc, (app_assoc got), <- Eg.
  - split; [done|]. split.
    + destruct Hp as [[Hc Hb]|(p & rest' & -> & Hc & Hb)]; [by left|right; by exists p, rest'].
    + apply (f_equal length) in Eg. rewrite length_app in Eg.
      unfold rx_left in *. rewrite length_app in Hl. simpl (q_im q1) in Hl.
      simpl (bf_data (q_buffer q1)) in Hl. rewrite length_app in *. lia.
Qed.

Lemma immediate_ok q tail rest :
  rx_ok q → Forall framed rest → bf_data (q_buffer q) ++ tail = concat rest → is_Some (q_im q) →
  rx_ok (queue_immediate q) ∧ progress q tail rest (queue_immediate q) tail
  ∧ (rx_left (queue_immediate q) [] < rx_left q [])%nat.
Proof.
  intros Hq Hf E [ev Hev]. unfold queue_immediate. rewrite Hev.
  destruct ev; [|by destruct (rp_im q (ro_pre q Hq))].
  destruct (process_ok (set_q_im q None) tail rest) as (H1 & H2 & H3); [|done..|].
  - by destruct Hq as [[] _ _]; split.
  - split; [done|]. split; [done|]. unfold rx_left in *. rewrite Hev. simpl in *. lia.
Qed.

(** ** The sender *)

Definition pending (q : ctdb_queue) : bytes := concat (pk_data <$> q_out q).

Record tx_ok (q : ctdb_queue) : Prop := {
  to_fd : q_fd q ≠ -1;
  to_alignment : q_alignment q = CTDB_TCP_ALIGNMENT;
  to_wake : q_out q ≠ [] → q_writeable q = true;
  to_data : Forall (λ pkt, pk_data pkt ≠ []) (q_out q);
}.

Lemma sys_write_spec w data n sent :
  w ≠ WriteFailed → sys_write w data = (n, sent) →
  sent = take (length sent) data ∧ (n <= 0 ∧ sent = [] ∨ 0 < n ∧ n = dsize sent).
Proof.
  intros Hw [= <- <-] || intros Hw. destruct w as [k| |]; intros [= <- <-]; [|split; [done|by left]|done].
  split.
  - rewrite length_take. destruct (Nat.le_ge_cases k (length data)).
    + by rewrite Nat.min_l.
    + by rewrite Nat.min_r, !take_ge by done.
  - destruct (take k data) as [|x l]; [left|right]; [done|]. split; [unfold dsize; simpl; lia|done].
Qed.

Lemma append_ok data full_length q :
  tx_ok q → data ≠ [] →
  tx_ok (queue_append data full_length q)
  ∧ pending (queue_append data full_length q) = pending q ++ data.
Proof.
  intros [Hfd Ha Hwk Hd] Hne. unfold queue_append, pending. simpl.
  rewrite fmap_app, concat_app. simpl. rewrite app_nil_r. split; [|done]. split; simpl.
  - done.
  - done.
  - intros _. apply Z.eqb_neq in Hfd as ->. case_bool_decide; [done|]. by apply Hwk.
  - apply Forall_app. split; [done|]. by constructor.
Qed.

Lemma send_ok torture w data q q' out :
  tx_ok q → sendable data → w ≠ WriteFailed → ctdb_queue_send torture w data q = (q', out) →
  tx_ok q' ∧ out ++ pending q' = pending q ++ aligned_packet CTDB_TCP_ALIGNMENT data.
Proof.
  intros Hq Hs Hw. unfold ctdb_queue_send. rewrite (to_alignment q Hq).
  pose proof (aligned_packet_framed data Hs) as [Hfr _].
  set (p := aligned_packet _ data) in *.
  assert (p ≠ []) as Hp by (intros E; rewrite E in Hfr; unfold dsize in Hfr; simpl in Hfr; lia).
  destruct (bool_decide (q_out q = []) && negb (q_fd q =? -1) && negb torture) eqn:Ei.
  - zbool. destruct (sys_write w p) as [n sent] eqn:Ew. simpl.
    assert (pending q = []) as Epq.
    { unfold pending. by match goal with Ho : q_out q = [] |- _ => rewrite Ho end. }
    apply sys_write_spec in Ew as [Et _]; [|done].
    assert (p = sent ++ drop (length sent) p) as Ep by (rewrite Et at 1; by rewrite take_drop).
    intros E. assert ((if dsize (drop (length sent) p) =? 0 then (q, sent)
      else (queue_append (drop (length sent) p) (dsize p) q, sent)) = (q', out)) as E'
      by (by destruct w). clear E. case_hyp E'; zbool; injection E' as <- <-.
    + assert (drop (length sent) p = []) as Er
        by (apply nil_length_inv; unfold dsize in *; lia).
      split; [done|]. rewrite Er, app_nil_r in Ep. by rewrite Epq, app_nil_r.
    + destruct (append_ok (drop (length sent) p) (dsize p) q Hq) as [Ha1 Ha2].
      { intros Er. by rewrite Er in *. }
      split; [done|]. by rewrite Ha2, Epq.
  - intros [= <- <-]. by apply append_ok.
Qed.

Lemma write_ok torture writes q q' out :
  tx_ok q → q_writeable q = true → WriteFailed ∉ writes →
  queue_io_write torture writes q = (q', out) →
  tx_ok q' ∧ pending q = out ++ pending q'.
Proof.
  revert q q' out. induction writes as [|w writes IH]; intros q q' out Hq Hwr Hnf;
    destruct q as [b qout len fd wr al im calls]; simpl in *;
    (destruct qout as [|pkt rest]; [intros [= <- <-]; destruct Hq; by split|]).
  - intros [= <- <-]. by split.
  - apply not_elem_of_cons in Hnf as [Hw Hnf].
    set (data := if torture then _ else _).
    destruct (sys_write w data) as [n sent] eqn:Ew. apply sys_write_spec in Ew as [Et Hn]; [|done].
    assert (sent = take (length sent) (pk_data pkt)) as Es.
    { rewrite Et at 1. unfold data. destruct torture; [|done].
      rewrite take_take, Nat.min_l; [done|]. rewrite Et, length_take. unfold data.
      rewrite length_take. lia. }
    pose (unlink := mk_queue b rest (u32 (len - 1)) fd wr al im calls).
    intros E. assert ((if n <=? 0 then (mk_queue b (pkt :: rest) len fd wr al im calls, sent)
      else if negb (n =? dsize (pk_data pkt)) then
        (mk_queue b (mk_pkt (drop (Z.to_nat n) (pk_data pkt)) (pk_full_length pkt) :: rest)
          len fd wr al im calls, sent)
      else let '(q1, sent') := queue_io_write torture writes unlink in (q1, sent ++ sent'))
      = (q', out)) as E' by (by destruct w). clear E.
    destruct Hq as [Hfd Ha Hwk Hd]; simpl in *. inversion Hd as [|? ? Hd1 Hd2]; subst.
    destruct Hn as [[Hn ->]|[Hn Hnn]].
    + rewrite (proj2 (Z.leb_le _ _)) in E' by done. injection E' as <- <-. by split.
    + rewrite (proj2 (Z.leb_gt _ _)) in E' by done.
      assert (pk_data pkt = sent ++ drop (length sent) (pk_data pkt)) as Ep
        by (rewrite Es at 1; by rewrite take_drop).
      destruct (Z.eqb_spec n (dsize (pk_data pkt))) as [En|En]; simpl in E'.
      * destruct (queue_io_write torture writes unlink) as [q1 sent'] eqn:Er.
        injection E' as <- <-. apply IH in Er as [H1 H2]; [|by split|done|done].
        split; [done|]. change (pk_data pkt ++ pending unlink = (sent ++ sent') ++ pending q1).
        rewrite H2, app_assoc. f_equal. f_equal.
        rewrite Ep at 1. rewrite drop_ge, app_nil_r; [done|]. unfold dsize in *. lia.
      * injection E' as <- <-. replace (Z.to_nat n) with (length sent) by (unfold dsize in *; lia).
        split; [split; simpl; try done|].
        -- constructor; [|done]. simpl. intros E0. rewrite E0, app_nil_r in Ep.
           apply En. by rewrite Hnn, <- Ep.
        -- unfold pending. simpl. by rewrite app_assoc, <- Ep.
Qed.

(** Writing whatever a single [write] takes makes progress. *)
Lemma write_progress torture q :
  tx_ok q → q_writeable q = true →
  ∃ writes, (WriteFailed ∉ writes)
  ∧ ((length (pending (queue_io_write torture writes q).1) < length (pending q))%nat
     ∨ pending (queue_io_write torture writes q).1 = pending q
       ∧ q_writeable (queue_io_write torture writes q).1 = false).
Proof.
  intros Hq Hw. destruct (q_out q) as [|pkt out] eqn:Eo.
  { exists []. split; [by apply not_elem_of_nil|]. right. unfold pending. simpl. rewrite Eo. simpl. by rewrite Eo. }
  exists [Wrote 1]. assert (WriteFailed ∉ [Wrote 1]) as Hnf.
  { rewrite not_elem_of_cons. split; [done|by apply not_elem_of_nil]. }
  split; [done|]. left.
  destruct (queue_io_write torture [Wrote 1] q) as [q' sent] eqn:E.
  destruct (write_ok _ _ _ _ _ Hq Hw Hnf E) as [_ Ep]. simpl. rewrite Ep, length_app.
  assert (sent ≠ []) as Hs; [|destruct sent; [done|simpl; lia]].
  pose proof (to_data q Hq) as Hd. rewrite Eo in Hd. inversion Hd as [|? ? Hd1 _]; subst.
  simpl in E. rewrite Eo in E. destruct (pk_data pkt) as [|x l] eqn:El; [done|].
  intros ->. by destruct torture; simpl in E; repeat case_hyp E; simplify_eq/=.
Qed.

(** ** The channel as a whole *)

Definition good_packet (p : bytes) : Prop := framed p ∧ ctdb_tcp_read_cb (Some p) = true.

Definition accepted (ev : event) : Prop :=
  match ev with Sent _ => True | Delivered d => ctdb_tcp_read_cb d = true end.

Definition in_transit (c : channel) (rest : list bytes) : Prop :=
  Forall good_packet rest
  ∧ bf_data (q_buffer (ch_rx c)) ++ ch_sock c ++ pending (ch_tx c) = concat rest
  ∧ rx_ok (ch_rx c) ∧ tx_ok (ch_tx c).

Definition chan_inv (evs : list event) (c : channel) : Prop :=
  ∃ rest, fifo evs rest ∧ Forall accepted evs ∧ in_transit c rest.

Lemma good_framed rest : Forall good_packet rest → Forall framed rest.
Proof. intros H. apply (Forall_impl _ _ _ H). by intros p [? _]. Qed.

(** A step of the receiver that makes progress. *)
Lemma inv_progress evs tx sock rx rest sock' rx' :
  fifo evs rest → Forall accepted evs → in_transit (mk_channel tx sock rx) rest →
  rx_ok rx' → progress rx (sock ++ pending tx) rest rx' (sock' ++ pending tx) →
  chan_inv (evs ++ new_calls rx rx') (mk_channel tx sock' rx').
Proof.
  intros Hfifo Hacc (Hg & E & Hrx & Htx) Hrx' [[Hc Hb]|(p & rest' & -> & Hc & Hb)];
    unfold new_calls; rewrite Hc.
  - rewrite drop_all, app_nil_r. by exists rest.
  - rewrite drop_app_length. simpl. inversion Hg as [|? ? [Hp1 Hp2] Hg']; subst.
    exists rest'. split; [by constructor|]. split; [|done].
    apply Forall_app. split; [done|]. by constructor.
Qed.

Lemma chan_step_inv torture evs c ev c' :
  chan_inv evs c → chan_step torture c ev c' → chan_inv (evs ++ ev) c'.
Proof.
  intros (rest & Hfifo & Hacc & Hin) Hstep. pose proof Hin as (Hg & E & Hrx & Htx).
  destruct Hstep as [tx sock rx data w tx' out Hs Hw Eq|tx sock rx writes tx' out Hwr Hnf Eq
    |tx sock rx num_ready limit rx' sock' Hready Hlim Eq|tx sock rx Him]; simpl in *.
  - destruct (send_ok _ _ _ _ _ _ Htx Hs Hw Eq) as [Htx' Ep].
    exists (rest ++ [aligned_packet CTDB_TCP_ALIGNMENT data]).
    split; [by constructor|]. split; [apply Forall_app; split; [done|by repeat constructor]|].
    split; [|split; [|by split]].
    + apply Forall_app. split; [done|]. constructor; [|done].
      split; [by apply aligned_packet_framed|by apply sendable_accepted].
    + simpl. rewrite concat_app. simpl. rewrite app_nil_r, <- E, <- !app_assoc. by rewrite Ep.
  - destruct (write_ok _ _ _ _ _ Htx Hwr Hnf Eq) as [Htx' Ep]. rewrite app_nil_r.
    exists rest. split; [done|]. split; [done|]. split; [done|]. split; [|by split].
    simpl. by rewrite <- E, Ep, <- !app_assoc.
  - destruct (read_ok rx num_ready limit sock (pending tx) rest rx' sock') as (H1 & H2 & _);
      [done|by apply good_framed|done..|]. by apply (inv_progress _ _ sock _ rest).
  - destruct (immediate_ok rx (sock ++ pending tx) rest) as (H1 & H2 & _);
      [done|by apply good_framed|done..|]. by apply (inv_progress _ _ sock _ rest).
Qed.

Lemma chan_steps_inv torture c evs0 evs c' :
  chan_inv evs0 c → chan_steps torture c evs c' → chan_inv (evs0 ++ evs) c'.
Proof.
  intros Hi. induction 1 as [c|c evs c1 ev c2 _ IH Hstep]; [by rewrite app_nil_r|].
  rewrite app_assoc. eapply chan_step_inv; [by apply IH|done].
Qed.

Lemma new_channel_inv fd fd' : fd ≠ -1 → chan_inv [] (new_channel fd fd').
Proof.
  intros Hfd. exists []. split; [constructor|]. split; [done|]. split; [done|].
  unfold new_channel, ctdb_queue_setup. apply Z.eqb_neq in Hfd as Hfd'. simpl. rewrite Hfd'.
  split; [by destruct (negb (fd' =? -1))|]. split.
  - destruct (negb (fd' =? -1)); (split; [split|..]; simpl; [done|done|by left|done|by left|by intros]).
  - split; simpl; [done..|].  constructor.
Qed.

(** The work left: what the events still to come will process. *)
Definition chan_left (c : channel) : nat :=
  6 * length (pending (ch_tx c)) + rx_left (ch_rx c) (ch_sock c)
  + (if q_writeable (ch_tx c) then 1 else 0).

Definition not_sent (ev : event) : Prop := match ev with Sent _ => False | Delivered _ => True end.

(** Some event is enabled unless the channel is idle, and handling it leaves
    less to do. *)
Lemma chan_progress torture evs c :
  chan_inv evs c → idle c ∨
  ∃ ev c', chan_step torture c ev c' ∧ Forall not_sent ev ∧ (chan_left c' < chan_left c)%nat.
Proof.
  intros (rest & Hfifo & Hacc & (Hg & E & Hrx & Htx)). destruct c as [tx sock rx]; simpl in *.
  destruct (q_writeable tx) eqn:Hw; [right|destruct sock as [|x sock]].
  - destruct (write_progress torture tx Htx Hw) as (writes & Hnf & Hp).
    destruct (queue_io_write torture writes tx) as [tx' out] eqn:Eq; simpl in Hp.
    exists [], (mk_channel tx' (sock ++ out) rx).
    split; [by apply chan_write with writes|]. split; [done|].
    destruct (write_ok _ _ _ _ _ Htx Hw Hnf Eq) as [_ Ep].
    unfold chan_left, rx_left; simpl. rewrite Hw, length_app.
    apply (f_equal length) in Ep. rewrite length_app in Ep.
    destruct Hp as [Hp|[Hp1 Hp2]]; [destruct (q_writeable tx'); lia|rewrite Hp1, Hp2 in *; lia].
  - destruct (q_im rx) as [im|] eqn:Him; [right|left; by split].
    destruct (immediate_ok rx ([] ++ pending tx) rest) as (_ & _ & Hl);
      [done|by apply good_framed|done|by eexists|].
    eexists _, _. split; [apply chan_immediate; by eexists|]. split.
    + unfold new_calls. apply Forall_fmap. by apply Forall_true.
    + unfold chan_left. simpl. lia.
  - right. destruct (queue_io_read (Some 1) 1 (x :: sock) rx) as [rx' sock'] eqn:Eq.
    assert (0 < 1 <= dsize (x :: sock)) as Hr by (unfold dsize; simpl; lia).
    destruct (read_ok rx 1 1 (x :: sock) (pending tx) rest rx' sock') as (_ & _ & Hl);
      [done|by apply good_framed|done|done|lia|done|].
    eexists _, (mk_channel tx sock' rx').
    split; [by apply chan_read with 1 1%nat; [done|lia|]|]. split.
    + unfold new_calls. apply Forall_fmap. by apply Forall_true.
    + unfold chan_left. simpl. lia.
Qed.

Lemma idle_empty c rest : in_transit c rest → idle c → rest = [].
Proof.
  intros (Hg & E & Hrx & Htx) (Hw & Hs & Him). destruct c as [tx sock rx]; simpl in *. subst sock.
  assert (pending tx = []) as Ep.
  { unfold pending. destruct (q_out tx) eqn:Eo; [done|].
    rewrite (to_wake tx Htx) in Hw; [done|by rewrite Eo]. }
  rewrite Ep, app_nil_r in E. destruct Hg as [|p rest [[Hp1 Hp2] _] _]; [done|]. simpl in E.
  exfalso. assert (dsize p <= dsize (bf_data (q_buffer rx))) as Hle.
  { rewrite E. rewrite dsize_app. unfold dsize. lia. }
  rewrite (ro_wake rx Hrx) in Him; [done|lia|]. rewrite E at 1.
  rewrite pkt_size_app by lia. lia.
Qed.

Lemma chan_steps_app torture c evs c1 evs' c2 :
  chan_steps torture c evs c1 → chan_steps torture c1 evs' c2 →
  chan_steps torture c (evs ++ evs') c2.
Proof.
  intros H1. induction 1 as [c1|c1 evs' c3 ev c4 _ IH Hstep]; [by rewrite app_nil_r|].
  rewrite app_assoc. eapply chan_steps_snoc; [by apply IH|done].
Qed.

Lemma chan_drains torture n evs c :
  (chan_left c ≤ n)%nat → chan_inv evs c →
  ∃ evs' c', chan_steps torture c evs' c' ∧ Forall not_sent evs' ∧ idle c'.
Proof.
  revert evs c. induction n as [|n IH]; intros evs c Hn Hi;
    (destruct (chan_progress torture evs c Hi) as [Hidle|(ev & c1 & Hstep & Hns & Hl)];
     [exists [], c; split; [constructor|by split]|]); [lia|].
  destruct (IH (evs ++ ev) c1) as (evs' & c' & Hs & Hns' & Hid);
    [lia|by eapply chan_step_inv|].
  exists (ev ++ evs'), c'. split; [|split; [by apply Forall_app|done]].
  eapply chan_steps_app; [|done]. rewrite <- (app_nil_l ev).
  by apply chan_steps_snoc with c; [constructor|].
Qed.

(** C11: two packet queues connected by a byte stream are a FIFO channel of
    packets: however sends, partial writes, reads of any size and scheduled
    events are interleaved, the packets handed to the callback are the packets
    sent, whole, in order and without duplicates; no failure is reported, the
    TCP transport accepts each of them, and when no event is pending nothing is
    left behind. *)
Theorem channel_fifo torture fd fd' evs c
    (Hfd : fd ≠ -1) (Hs : chan_steps torture (new_channel fd fd') evs c) :
  ∃ ps, fifo evs ps ∧ Forall accepted evs ∧ (idle c → ps = []).
Proof.
  destruct (chan_steps_inv _ _ [] _ _ (new_channel_inv fd fd' Hfd) Hs)
    as (ps & Hfifo & Hacc & Hin).
  exists ps. split; [done|]. split; [done|]. by apply idle_empty.
Qed.

(** no wake-up is lost: from every state of the channel its own events alone
    lead to a state where every packet sent has been delivered. *)
Theorem channel_delivers torture fd fd' evs c
    (Hfd : fd ≠ -1) (Hs : chan_steps torture (new_channel fd fd') evs c) :
  ∃ evs' c', chan_steps torture c evs' c' ∧ Forall not_sent evs' ∧ idle c' ∧ fifo (evs ++ evs') [].
Proof.
  pose proof (chan_steps_inv _ _ [] _ _ (new_channel_inv fd fd' Hfd) Hs) as Hi.
  destruct (chan_drains torture _ _ c (le_n _) Hi) as (evs' & c' & Hs' & Hns & Hid).
  exists evs', c'. split; [done|]. split; [done|]. split; [done|].
  destruct (chan_steps_inv _ _ _ _ _ Hi Hs') as (ps & Hfifo & _ & Hin). simpl in Hfifo.
  by rewrite (idle_empty _ _ Hin Hid) in Hfifo.
Qed.

(** when a connection is stopped while a packet is partly written and set up
    again, the queue goes on with the middle of that packet: the first bytes on
    the new connection are not the start of a packet. *)
Theorem reconnect_splits_packet q data n fd
    (Ho : q_out q = []) (Hfd : q_fd q ≠ -1) (Hfd' : fd ≠ -1)
    (Hn : (0 < n < length (aligned_packet (q_alignment q) data))%nat) :
  let p := aligned_packet (q_alignment q) data in
  let '(q1, sent1) := ctdb_queue_send false (Wrote n) data q in
  let q2 := ctdb_queue_set_fd fd (ctdb_queue_set_fd (-1) q1) in
  q_writeable q2 = true ∧ sent1 = take n p
  ∧ (queue_io_write false [Wrote (length p)] q2).2 = drop n p.
Proof.
  destruct q as [b o len ofd wr al im calls]; simpl in *. subst o.
  unfold ctdb_queue_send. apply Z.eqb_neq in Hfd, Hfd'. simpl. rewrite Hfd. simpl.
  set (p := aligned_packet _ data) in *.
  rewrite length_take, Nat.min_l by lia.
  rewrite (proj2 (Z.eqb_neq _ _)) by (unfold dsize; rewrite length_drop; lia).
  unfold ctdb_queue_set_fd, queue_append. simpl. rewrite Hfd, Hfd'. simpl.
  rewrite (take_ge (drop n p)) by (rewrite length_drop; lia).
  rewrite (proj2 (Z.leb_gt _ _)) by (unfold dsize; rewrite length_drop; lia).
  rewrite Z.eqb_refl. simpl. by rewrite app_nil_r.
Qed.

(** ** A run: a packet of 36 bytes written in two parts and read in two parts *)

Definition example_packet : bytes :=
  le_bytes 4 0 ++ le_bytes 4 CTDB_MAGIC ++ le_bytes 4 CTDB_VERSION ++ replicate 24 7.
Definition example0 : channel := new_channel 5 6.
Definition example_send := ctdb_queue_send false (Wrote 5) example_packet (ch_tx example0).
Definition example_write := queue_io_write false [Wrote 50] example_send.1.
Definition example_sock : bytes := ([] ++ example_send.2) ++ example_write.2.
Definition example_read := queue_io_read (Some 40) 7 example_sock (ch_rx example0).
Definition example_read' := queue_io_read (Some 33) 50 example_read.2 example_read.1.
Definition example_channel : channel := mk_channel example_write.1 example_read'.2 example_read'.1.
Definition example_events : list event :=
  [Sent (aligned_packet CTDB_TCP_ALIGNMENT example_packet);
   Delivered (Some (aligned_packet CTDB_TCP_ALIGNMENT example_packet))].

Lemma example_run : chan_steps false example0 example_events example_channel.
Proof.
  change example_events with (((([] ++ [Sent (aligned_packet CTDB_TCP_ALIGNMENT example_packet)])
    ++ []) ++ []) ++ [Delivered (Some (aligned_packet CTDB_TCP_ALIGNMENT example_packet))]).
  apply chan_steps_snoc with (mk_channel example_write.1 example_read.2 example_read.1).
  - apply chan_steps_snoc with (mk_channel example_write.1 example_sock (ch_rx example0)).
    + apply chan_steps_snoc with (mk_channel example_send.1 ([] ++ example_send.2) (ch_rx example0)).
      * apply chan_steps_snoc with example0; [constructor|].
        by apply chan_send with (Wrote 5); [vm_compute; repeat split; done|done|].
      * apply (chan_write _ _ _ _ [Wrote 50]); [done| |apply surjective_pairing].
        rewrite not_elem_of_cons. split; [done|by apply not_elem_of_nil].
    + change (@nil event) with (new_calls (ch_rx example0) example_read.1).
      by apply chan_read with 40 7%nat; [done|lia|].
  - change [Delivered _] with (new_calls example_read.1 example_read'.1).
    by apply chan_read with 33 50%nat; [done|lia|].
Qed.

Lemma channel_fifo_witness :
  example_packet ≠ [] ∧ idle example_channel
  ∧ ∃ ps, fifo example_events ps ∧ Forall accepted example_events ∧ (idle example_channel → ps = []).
Proof.
  split; [done|]. split; [by repeat split|].
  apply (channel_fifo false 5 6); [done|]. apply example_run.
Defined.

Lemma channel_delivers_witness :
  ∃ evs' c', chan_steps false example_channel evs' c' ∧ Forall not_sent evs' ∧ idle c'
    ∧ fifo (example_events ++ evs') [].
Proof. apply (channel_delivers false 5 6); [done|]. apply example_run. Defined.

Lemma reconnect_splits_packet_witness :
  let p := aligned_packet CTDB_TCP_ALIGNMENT example_packet in
  let '(q1, sent1) := ctdb_queue_send false (Wrote 5) example_packet (ch_tx example0) in
  let q2 := ctdb_queue_set_fd 8 (ctdb_queue_set_fd (-1) q1) in
  q_writeable q2 = true ∧ sent1 = take 5 p
  ∧ (queue_io_write false [Wrote (length p)] q2).2 = drop 5 p.
Proof.
  apply (reconnect_splits_packet (ch_tx example0) example_packet 5 8); [done..|].
  vm_compute. lia.
Defined.
