(* ===== verification/Marshal.v ===== *)
(** * Marshalled records

    [struct ctdb_rec_data] and [struct ctdb_marshall_buffer] of
    [include/ctdb_protocol.h] and [include/ctdb_private.h] with the functions of
    [common/ctdb_util.c] that build and walk them.  Recovery, vacuuming,
    transactions and traverses send records in this form.

    A pointer to a record is the rest of the buffer from there on. *)
From S2P Require Import Prelude Protocol Queue.

(** ** Fields *)

Definition get32 (off : nat) (p : bytes) : Z := le_val (slice off 4 p).
Definition set32 (off : nat) (v : Z) (p : bytes) : bytes :=
  take off p ++ le_bytes 4 v ++ drop (off + 4) p.

(** [struct ctdb_rec_data]: length, reqid, keylen, datalen, data[] *)
Definition offsetof_rec_data : nat := 16.
Definition rec_length (rec : bytes) : Z := get32 0 rec.
Definition rec_reqid (rec : bytes) : Z := get32 4 rec.
Definition rec_keylen (rec : bytes) : Z := get32 8 rec.
Definition rec_datalen (rec : bytes) : Z := get32 12 rec.
Definition rec_key (rec : bytes) : bytes :=
  slice offsetof_rec_data (Z.to_nat (rec_keylen rec)) rec.
Definition rec_data (rec : bytes) : bytes :=
  slice (offsetof_rec_data + Z.to_nat (rec_keylen rec)) (Z.to_nat (rec_datalen rec)) rec.
(** The record [rec->length] bytes further on. *)
Definition rec_next (rec : bytes) : bytes := drop (Z.to_nat (rec_length rec)) rec.

(** [struct ctdb_marshall_buffer]: db_id, count, data[] *)
Definition offsetof_marshall_data : nat := 8.
Definition mb_db_id (m : bytes) : Z := get32 0 m.
Definition mb_count (m : bytes) : Z := get32 4 m.
Definition mb_data (m : bytes) : bytes := drop offsetof_marshall_data m.
Definition set_mb_count (m : bytes) (v : Z) : bytes := set32 4 v m.

(** An empty buffer. *)
Definition mb_empty (db_id : Z) : bytes := le_bytes 4 db_id ++ le_bytes 4 0.

(** ** Building *)

(** [None] when the allocation fails. *)
Definition ctdb_marshall_record (reqid : Z) (key : bytes) (header : option ctdb_ltdb_header)
    (data : bytes) : option bytes :=
  let hlen := match header with Some _ => Z.of_nat sizeof_header | None => 0 end in
  let length := Z.of_nat offsetof_rec_data + dsize key + dsize data + hlen in
  if MAX_TALLOC_SIZE <=? length then None
  else
    let datalen := dsize data + hlen in
    Some (le_bytes 4 length ++ le_bytes 4 reqid ++ le_bytes 4 (dsize key) ++ le_bytes 4 datalen
          ++ key ++ match header with Some h => header_bytes h | None => [] end ++ data).

(** Append a record and count it; the buffer grows by [talloc_realloc]. *)
Definition mb_append (m r : bytes) : option bytes :=
  if MAX_TALLOC_SIZE <=? dsize m + dsize r then None
  else Some (set_mb_count (m ++ r) (u32 (mb_count m + 1))).

Definition ctdb_marshall_add (m : option bytes) (db_id reqid : Z) (key : bytes)
    (header : option ctdb_ltdb_header) (data : bytes) : option bytes :=
  r ← ctdb_marshall_record reqid key header data;
  let m := default (mb_empty (u32 db_id)) m in
  mb_append m r.

Definition ctdb_marshall_finish (m : bytes) : bytes := m.

(** ** Walking *)

(** The next record and what is read from it; [None] for the record pointer is
    the start.  With [want_header] the data is what follows the record header,
    and the result is [None] (the NULL pointer) when there is no room for one. *)
Definition ctdb_marshall_loop_next (m : bytes) (r : option bytes) (want_header : bool)
    : option (bytes * (Z * option ctdb_ltdb_header * bytes * bytes)) :=
  let r := match r with None => mb_data m | Some r => rec_next r end in
  let data := rec_data r in
  if want_header then
    if rec_datalen r <? Z.of_nat sizeof_header then None
    else Some (r, (rec_reqid r, Some (header_of_bytes data), rec_key r, drop sizeof_header data))
  else Some (r, (rec_reqid r, None, rec_key r, data)).

(** The loop of the callers, [n] times from a record on. *)
Fixpoint marshall_loop (n : nat) (m : bytes) (r : option bytes) (want_header : bool)
    : option (list (Z * option ctdb_ltdb_header * bytes * bytes)) :=
  match n with
  | O => Some []
  | S n =>
      '(r, rec) ← ctdb_marshall_loop_next m r want_header;
      recs ← marshall_loop n m (Some r) want_header;
      Some (rec :: recs)
  end.

(** The records of a buffer as (key, data), by the loops that follow
    [rec->length] themselves. *)
Fixpoint records_from (n : nat) (rec : bytes) : list (bytes * bytes) :=
  match n with
  | O => []
  | S n => (rec_key rec, rec_data rec) :: records_from n (rec_next rec)
  end.
Definition mb_records (m : bytes) : list (bytes * bytes) :=
  records_from (Z.to_nat (mb_count m)) (mb_data m).

(** ** Lemmas *)

Lemma get32_app_first v r : is_u32 v → get32 0 (le_bytes 4 v ++ r) = v.
Proof.
  intros Hv. unfold get32. rewrite slice_app_first by by rewrite length_le_bytes.
  by apply le_val_bytes_small.
Qed.

Lemma get32_app_skip off a r : get32 (length a + off) (a ++ r) = get32 off r.
Proof. unfold get32. by rewrite (slice_app_skip a r _ 4 off). Qed.

Lemma length_set32 off v p : (off + 4 <= length p)%nat → length (set32 off v p) = length p.
Proof.
  intros Hl. unfold set32. rewrite !length_app, length_take, length_le_bytes, length_drop. lia.
Qed.

Lemma slice_set32_same off v p :
  (off + 4 <= length p)%nat → slice off 4 (set32 off v p) = le_bytes 4 v.
Proof.
  intros Hl. unfold set32. rewrite (slice_app_skip _ _ _ _ 0) by (rewrite length_take; lia).
  apply slice_app_first. by rewrite length_le_bytes.
Qed.

Lemma slice_set32_before off v p o n :
  (off + 4 <= length p)%nat → (o + n <= off)%nat → slice o n (set32 off v p) = slice o n p.
Proof.
  intros Hl Ho. unfold slice, set32.
  rewrite drop_app_le by (rewrite length_take; lia).
  rewrite take_app_le by (rewrite length_drop, length_take; lia).
  rewrite <- (take_drop off p) at 2. rewrite drop_app_le by (rewrite length_take; lia).
  by rewrite take_app_le by (rewrite length_drop, length_take; lia).
Qed.

Lemma drop_set32 off v p o :
  (off + 4 <= length p)%nat → (off + 4 <= o)%nat → drop o (set32 off v p) = drop o p.
Proof.
  intros Hl Ho. unfold set32. rewrite app_assoc.
  assert (length (take off p ++ le_bytes 4 v) = (off + 4)%nat) as E.
  { rewrite length_app, length_take, length_le_bytes. lia. }
  rewrite drop_app_ge by lia. rewrite E, drop_drop. f_equal. lia.
Qed.

Lemma slice_set32_after off v p o n :
  (off + 4 <= length p)%nat → (off + 4 <= o)%nat → slice o n (set32 off v p) = slice o n p.
Proof. intros Hl Ho. unfold slice. by rewrite drop_set32. Qed.

Lemma set32_u8 off v p : Forall is_u8 p → Forall is_u8 (set32 off v p).
Proof.
  intros Hp. unfold set32. rewrite !Forall_app.
  split_and!; [by apply Forall_take|apply le_bytes_u8|by apply Forall_drop].
Qed.

(** Changing fields of a record header in place. *)
Lemma header_set_dmaster v p :
  is_u32 v → (sizeof_header <= length p)%nat →
  header_of_bytes (set32 8 v p) = set_dmaster (header_of_bytes p) v.
Proof.
  unfold sizeof_header. intros Hv Hl. unfold header_of_bytes, set_dmaster. simpl.
  rewrite slice_set32_same, (slice_set32_before _ _ _ 0 8), !slice_set32_after by lia.
  by rewrite le_val_bytes_small.
Qed.

Lemma header_set_flags v p :
  is_u32 v → (sizeof_header <= length p)%nat →
  header_of_bytes (set32 16 v p) = set_flags (header_of_bytes p) v.
Proof.
  unfold sizeof_header. intros Hv Hl. unfold header_of_bytes, set_flags. simpl.
  rewrite slice_set32_same, !slice_set32_before by lia. by rewrite le_val_bytes_small.
Qed.

(** A marshalled record in front of [rest]. *)
Definition record_at (reqid : Z) (key data rest p : bytes) : Prop :=
  is_u32 reqid
  ∧ Z.of_nat offsetof_rec_data + dsize key + dsize data < MAX_TALLOC_SIZE
  ∧ p = le_bytes 4 (Z.of_nat offsetof_rec_data + dsize key + dsize data)
        ++ le_bytes 4 reqid ++ le_bytes 4 (dsize key) ++ le_bytes 4 (dsize data)
        ++ key ++ data ++ rest.

Lemma record_at_read reqid key data rest p :
  record_at reqid key data rest p →
  rec_reqid p = reqid ∧ rec_keylen p = dsize key ∧ rec_datalen p = dsize data
  ∧ rec_key p = key ∧ rec_data p = data ∧ rec_next p = rest.
Proof.
  intros (Hr & Hl & ->). unfold MAX_TALLOC_SIZE in Hl.
  assert (∀ z, length (le_bytes 4 z) = 4%nat) as L by (intros; apply length_le_bytes).
  assert (is_u32 (dsize key) ∧ is_u32 (dsize data)) as [Hk Hd].
  { unfold is_u32, dsize, offsetof_rec_data in *. lia. }
  set (a := le_bytes 4 (Z.of_nat offsetof_rec_data + dsize key + dsize data)).
  set (b := le_bytes 4 reqid). set (c := le_bytes 4 (dsize key)). set (d := le_bytes 4 (dsize data)).
  assert (length a = 4%nat) as La by apply L. assert (length b = 4%nat) as Lb by apply L.
  assert (length c = 4%nat) as Lc by apply L. assert (length d = 4%nat) as Ld by apply L.
  set (p := a ++ b ++ c ++ d ++ key ++ data ++ rest).
  assert (rec_reqid p = reqid) as E1.
  { unfold rec_reqid, p. replace 4%nat with (length a + 0)%nat by (by rewrite La). rewrite get32_app_skip.
    by apply get32_app_first. }
  assert (rec_keylen p = dsize key) as E2.
  { unfold rec_keylen, p. rewrite app_assoc.
    replace 8%nat with (length (a ++ b) + 0)%nat by (by rewrite length_app, La, Lb).
    rewrite get32_app_skip. by apply get32_app_first. }
  assert (rec_datalen p = dsize data) as E3.
  { unfold rec_datalen. replace p with ((a ++ b ++ c) ++ d ++ key ++ data ++ rest)
      by (unfold p; by rewrite <- !app_assoc).
    replace 12%nat with (length (a ++ b ++ c) + 0)%nat by (by rewrite !length_app, La, Lb, Lc).
    rewrite get32_app_skip. by apply get32_app_first. }
  assert (p = ((a ++ b) ++ c ++ d) ++ key ++ data ++ rest) as Ep by (unfold p; by rewrite <- !app_assoc).
  assert (length ((a ++ b) ++ c ++ d) = 16%nat) as L16 by (by rewrite !length_app, La, Lb, Lc, Ld).
  split; [done|]. split; [done|]. split; [done|]. split; [|split].
  - unfold rec_key. rewrite E2, Ep. unfold dsize. rewrite Nat2Z.id.
    rewrite (slice_app_skip _ _ _ _ 0) by (rewrite L16; done). by apply slice_app_first.
  - unfold rec_data. rewrite E2, E3, Ep. unfold dsize. rewrite !Nat2Z.id.
    rewrite (slice_app_skip _ _ _ _ (length key)) by (by rewrite L16).
    rewrite (slice_app_skip key _ _ _ 0) by lia. by apply slice_app_first.
  - unfold rec_next, rec_length. assert (get32 0 p = Z.of_nat offsetof_rec_data + dsize key + dsize data) as E0.
    { unfold p, a. apply get32_app_first. unfold is_u32, dsize, offsetof_rec_data in *. lia. }
    rewrite E0, Ep, (app_assoc key), (app_assoc _ (key ++ data)).
    apply drop_app_length'. rewrite length_app, L16, length_app.
    unfold dsize, offsetof_rec_data. lia.
Qed.

Definition opt_header (header : option ctdb_ltdb_header) : bytes :=
  match header with Some h => header_bytes h | None => [] end.

Lemma marshall_record_at reqid key header data r rest :
  is_u32 reqid → ctdb_marshall_record reqid key header data = Some r →
  record_at reqid key (opt_header header ++ data) rest (r ++ rest)
  ∧ dsize r = Z.of_nat offsetof_rec_data + dsize key + dsize (opt_header header ++ data).
Proof.
  intros Hr. unfold ctdb_marshall_record. case_goal; [done|]. zbool.
  intros E. apply (inj Some) in E. subst r.
  assert (dsize (opt_header header ++ data)
          = dsize data + match header with Some _ => Z.of_nat sizeof_header | None => 0 end) as El.
  { rewrite dsize_app. destruct header as [h|]; simpl; unfold dsize;
      rewrite ?length_header_bytes; simpl; lia. }
  split.
  - split; [done|]. rewrite El. split; [lia|]. rewrite <- !app_assoc, Z.add_assoc.
    by destruct header.
  - unfold dsize. rewrite !length_app, !length_le_bytes. fold (opt_header header).
    unfold offsetof_rec_data. lia.
Qed.

(** A buffer that holds the given records, each with its marshalled form. *)
Definition buffer_of (db_id : Z) (recs : list bytes) (m : bytes) : Prop :=
  is_u32 db_id ∧ dsize m < MAX_TALLOC_SIZE
  ∧ Forall (λ r, Z.of_nat offsetof_rec_data <= dsize r) recs
  ∧ m = le_bytes 4 db_id ++ le_bytes 4 (Z.of_nat (length recs)) ++ concat recs.

Lemma buffer_count_bound db_id recs m :
  buffer_of db_id recs m → 16 * Z.of_nat (length recs) + 8 <= dsize m.
Proof.
  intros (_ & _ & Hr & ->). rewrite !dsize_app. unfold dsize at 1 2. rewrite !length_le_bytes.
  assert (16 * Z.of_nat (length recs) <= dsize (concat recs)); [|lia].
  induction Hr as [|r recs Hr _ IH]; simpl; [done|]. rewrite dsize_app.
  unfold offsetof_rec_data in Hr. lia.
Qed.

Lemma buffer_read db_id recs m :
  buffer_of db_id recs m →
  mb_db_id m = db_id ∧ mb_count m = Z.of_nat (length recs) ∧ mb_data m = concat recs.
Proof.
  intros Hb. pose proof (buffer_count_bound _ _ _ Hb) as Hc. destruct Hb as (Hd & Hl & _ & ->).
  unfold MAX_TALLOC_SIZE in Hl. split; [by apply get32_app_first|]. split.
  - unfold mb_count. replace 4%nat with (length (le_bytes 4 db_id) + 0)%nat
      by (by rewrite length_le_bytes).
    rewrite get32_app_skip. apply get32_app_first. unfold is_u32. lia.
  - unfold mb_data. rewrite app_assoc. apply drop_app_length'. by rewrite length_app, !length_le_bytes.
Qed.

Lemma buffer_empty db_id : is_u32 db_id → buffer_of db_id [] (mb_empty db_id).
Proof. intros. split; [done|]. split; [unfold dsize; simpl; unfold MAX_TALLOC_SIZE; lia|]. done. Qed.

Lemma drop_app2 (a b x : bytes) n : n = (length a + length b)%nat → drop n (a ++ b ++ x) = x.
Proof. intros ->. rewrite app_assoc. apply drop_app_length'. by rewrite length_app. Qed.

Lemma buffer_append db_id recs m r m' :
  buffer_of db_id recs m → Z.of_nat offsetof_rec_data <= dsize r → mb_append m r = Some m' →
  buffer_of db_id (recs ++ [r]) m'.
Proof.
  intros Hb Hr. destruct (buffer_read _ _ _ Hb) as (_ & Ec & _).
  pose proof (buffer_count_bound _ _ _ Hb) as Hc.
  unfold mb_append. case_goal; [done|]. zbool. intros E. apply (inj Some) in E. subst m'.
  destruct Hb as (Hd & Hl & Hrs & ->). rewrite Ec. unfold MAX_TALLOC_SIZE in *.
  rewrite u32_id by (unfold is_u32; lia).
  assert (set_mb_count ((le_bytes 4 db_id ++ le_bytes 4 (Z.of_nat (length recs)) ++ concat recs) ++ r)
    (Z.of_nat (length recs) + 1)
    = le_bytes 4 db_id ++ le_bytes 4 (Z.of_nat (length (recs ++ [r]))) ++ concat (recs ++ [r])) as ->.
  { unfold set_mb_count, set32. rewrite <- !app_assoc, (take_app_length' (le_bytes 4 db_id))
      by (by rewrite length_le_bytes).
    rewrite (drop_app2 (le_bytes 4 db_id)) by (by rewrite !length_le_bytes).
    rewrite length_app, concat_app, Nat2Z.inj_add. simpl (concat [r]). by rewrite app_nil_r. }
  split; [done|]. split; [|split; [|done]].
  - unfold dsize in *. rewrite concat_app. simpl (concat [r]). rewrite app_nil_r.
    rewrite !length_app, !length_le_bytes in *. unfold MAX_TALLOC_SIZE. lia.
  - apply Forall_app. split; [done|]. by constructor.
Qed.

(** ** Round trip *)

(** A record as the callers pass it to [ctdb_marshall_add]. *)
Definition mrec : Type := Z * option ctdb_ltdb_header * bytes * bytes.

Fixpoint marshall_all (m : option bytes) (db_id : Z) (recs : list mrec) : option bytes :=
  match recs with
  | [] => m
  | (reqid, header, key, data) :: recs =>
      m ← ctdb_marshall_add m db_id reqid key header data;
      marshall_all (Some m) db_id recs
  end.

(** Request ids and headers fit their fields, and either all records have a
    header or none has. *)
Definition mrec_ok (want_header : bool) (rec : mrec) : Prop :=
  let '(reqid, header, key, data) := rec in
  is_u32 reqid
  ∧ if want_header then ∃ h, header = Some h ∧ header_ok h else header = None.

Definition marshalled (rec : mrec) (r : bytes) : Prop :=
  let '(reqid, header, key, data) := rec in
  ctdb_marshall_record reqid key header data = Some r.

Lemma marshall_all_buffer want recs rs m db_id recs' m' :
  is_u32 db_id → Forall2 marshalled recs rs → Forall (mrec_ok want) recs' →
  buffer_of db_id rs (default (mb_empty db_id) m) → marshall_all m db_id recs' = Some m' →
  ∃ rs', Forall2 marshalled (recs ++ recs') rs' ∧ buffer_of db_id rs' m'.
Proof.
  intros Hd. revert recs rs m. induction recs' as [|[[[reqid h] key] data] recs' IH];
    intros recs rs m Hrs Hok Hb; simpl.
  { intros ->. exists rs. by rewrite app_nil_r. }
  apply Forall_cons in Hok as [Hx Hok']. pose proof Hx as [Hr _].
  unfold ctdb_marshall_add.
  destruct (ctdb_marshall_record reqid key h data) as [r|] eqn:Er; [|done]. simpl.
  rewrite u32_id by done.
  destruct (mb_append _ r) as [m1|] eqn:Ea; [|done]. simpl. intros E.
  destruct (marshall_record_at _ _ _ _ _ [] Hr Er) as [_ Hl].
  destruct (IH (recs ++ [(reqid, h, key, data)]) (rs ++ [r]) (Some m1)) as (rs' & H1 & H2).
  - apply Forall2_app; [done|]. by repeat constructor.
  - done.
  - simpl. apply (buffer_append _ _ _ _ _ Hb); [|done]. rewrite Hl. unfold dsize. lia.
  - done.
  - exists rs'. split; [|done]. by rewrite <- app_assoc in H1.
Qed.

Lemma marshall_loop_records want recs rs m r rest :
  Forall (mrec_ok want) recs → Forall2 marshalled recs rs →
  match r with None => mb_data m | Some r => rec_next r end = concat rs ++ rest →
  marshall_loop (length rs) m r want = Some recs.
Proof.
  intros Hok Hrs. revert r Hok. induction Hrs as [|[[[reqid h] key] data] p recs rs Hp _ IH];
    intros r Hok E; [done|].
  apply Forall_cons in Hok as [Hx Hok']. destruct Hx as [Hr Hh]. simpl in Hp, E.
  rewrite <- app_assoc in E.
  destruct (marshall_record_at _ _ _ _ _ (concat rs ++ rest) Hr Hp) as [Hat _].
  destruct (record_at_read _ _ _ _ _ Hat) as (E1 & E2 & E3 & E4 & E5 & E6).
  simpl. unfold ctdb_marshall_loop_next. rewrite E, E1, E3, E4, E5.
  destruct want.
  - destruct Hh as (hd & -> & Hhd). simpl (opt_header _).
    rewrite (proj2 (Z.ltb_ge _ _)).
    2:{ rewrite dsize_app. unfold dsize. rewrite length_header_bytes. lia. }
    rewrite header_of_bytes_app, drop_header_bytes by done. simpl.
    by rewrite (IH (Some (p ++ concat rs ++ rest))).
  - subst h. simpl. by rewrite (IH (Some (p ++ concat rs ++ rest))).
Qed.

(** C28: records marshalled one after the other into a buffer come out of the
    loop over the buffer unchanged and in order (request id, record header, key
    and data, with any bytes), and the buffer tells its database and their
    number. *)
Theorem marshall_roundtrip want db_id recs m
    (Hid : is_u32 db_id) (Hok : Forall (mrec_ok want) recs)
    (E : marshall_all None db_id recs = Some m) :
  mb_db_id (ctdb_marshall_finish m) = db_id
  ∧ mb_count (ctdb_marshall_finish m) = Z.of_nat (length recs)
  ∧ marshall_loop (Z.to_nat (mb_count (ctdb_marshall_finish m))) (ctdb_marshall_finish m) None want
    = Some recs.
Proof.
  destruct (marshall_all_buffer want [] [] None db_id recs m) as (rs & Hrs & Hb);
    [done|done|done|by apply buffer_empty|done|].
  destruct (buffer_read _ _ _ Hb) as (E1 & E2 & E3). unfold ctdb_marshall_finish.
  simpl in Hrs. rewrite E2, Nat2Z.id, (Forall2_length _ _ _ Hrs). split; [done|]. split; [done|].
  apply (marshall_loop_records want recs rs m None []); [done|done|]. by rewrite app_nil_r.
Qed.

Lemma marshall_roundtrip_witness :
  let recs := [(7, Some (mk_header 3 1 0 0), [1; 2; 3], [9; 8]); (0, Some zero_header, [], [])] in
  ∃ m, marshall_all None 5 recs = Some m ∧ mb_db_id (ctdb_marshall_finish m) = 5
  ∧ mb_count (ctdb_marshall_finish m) = Z.of_nat (length recs)
  ∧ marshall_loop (Z.to_nat (mb_count (ctdb_marshall_finish m))) (ctdb_marshall_finish m) None true
    = Some recs.
Proof.
  intros recs. eexists. split; [vm_compute; reflexivity|].
  apply (marshall_roundtrip true 5 recs).
  - unfold is_u32. lia.
  - repeat constructor; unfold is_u32; try lia; eexists; (split; [done|]);
      unfold header_ok, is_u64, is_u32; simpl; lia.
  - vm_compute. reflexivity.
Defined.
