(* ===== verification/Ltdb.v ===== *)
(** * The local tdb layer

    [common/ctdb_ltdb.c] and the server's store function in
    [server/ctdb_ltdb_server.c]: how a node reads and writes its own copy of a
    record.  A record on disk is a [struct ctdb_ltdb_header] followed by the
    data.  Also here: the delete queue of [server/ctdb_vacuum.c] that the store
    function feeds, and the read-only tracking bitmaps.

    The tdb library below is an interface ([TdbOps] with its documented
    behaviour [TdbLaws]); [memtdb] is an in-memory instance. *)
From S2P Require Import Prelude Jenkins Protocol.

(** ** The tdb interface *)

(** The part of the tdb API the ltdb layer calls.  [tdb_fetch] returns the
    empty string when the key does not exist; store ([TDB_REPLACE]) and delete
    return 0 on success.  [tdb_seqnum_flag] is whether [TDB_SEQNUM] is set;
    [tdb_exists] tells an empty record from a missing one (a NULL pointer). *)
Class TdbOps (T : Type) := {
  tdb_fetch : T → bytes → bytes;
  tdb_store : T → bytes → bytes → T * Z;
  tdb_delete : T → bytes → T * Z;
  tdb_seqnum_flag : T → bool;
  tdb_set_seqnum_flag : T → bool → T;
  tdb_get_seqnum : T → Z;
  tdb_exists : T → bytes → bool;
}.

(** What the callers rely on.  A failed store may have dropped the old record
    of that key (tdb deletes before it allocates), and so may a failed delete
    (it unlinks the record before it frees it); other keys are not touched. *)
Class TdbLaws (T : Type) `{TdbOps T} := {
  tdb_store_ok t k v t' :
    tdb_store t k v = (t', 0) → tdb_fetch t' k = v;
  tdb_store_other t k v t' r k' :
    tdb_store t k v = (t', r) → k' ≠ k → tdb_fetch t' k' = tdb_fetch t k';
  tdb_store_fail t k v t' r :
    tdb_store t k v = (t', r) → r ≠ 0 → tdb_fetch t' k = tdb_fetch t k ∨ tdb_fetch t' k = [];
  tdb_delete_ok t k t' :
    tdb_delete t k = (t', 0) → tdb_fetch t' k = [];
  tdb_delete_fail t k t' r :
    tdb_delete t k = (t', r) → r ≠ 0 → tdb_fetch t' k = tdb_fetch t k ∨ tdb_fetch t' k = [];
  tdb_delete_other t k t' r k' :
    tdb_delete t k = (t', r) → k' ≠ k → tdb_fetch t' k' = tdb_fetch t k';
  tdb_set_flag_fetch t b k : tdb_fetch (tdb_set_seqnum_flag t b) k = tdb_fetch t k;
  tdb_set_flag_flag t b : tdb_seqnum_flag (tdb_set_seqnum_flag t b) = b;
  tdb_set_flag_seqnum t b : tdb_get_seqnum (tdb_set_seqnum_flag t b) = tdb_get_seqnum t;
  tdb_store_flag t k v t' r :
    tdb_store t k v = (t', r) → tdb_seqnum_flag t' = tdb_seqnum_flag t;
  tdb_delete_flag t k t' r :
    tdb_delete t k = (t', r) → tdb_seqnum_flag t' = tdb_seqnum_flag t;
  tdb_store_seqnum t k v t' r :
    tdb_store t k v = (t', r) → tdb_seqnum_flag t = false →
    tdb_get_seqnum t' = tdb_get_seqnum t;
  tdb_delete_seqnum t k t' r :
    tdb_delete t k = (t', r) → tdb_seqnum_flag t = false →
    tdb_get_seqnum t' = tdb_get_seqnum t;
  tdb_exists_fetch t k : tdb_exists t k = false → tdb_fetch t k = [];
  tdb_store_exists t k v t' : tdb_store t k v = (t', 0) → tdb_exists t' k = true;
  tdb_store_exists_other t k v t' r k' :
    tdb_store t k v = (t', r) → k' ≠ k → tdb_exists t' k' = tdb_exists t k';
  tdb_delete_exists t k t' : tdb_delete t k = (t', 0) → tdb_exists t' k = false;
  tdb_delete_exists_other t k t' r k' :
    tdb_delete t k = (t', r) → k' ≠ k → tdb_exists t' k' = tdb_exists t k';
  tdb_set_flag_exists t b k : tdb_exists (tdb_set_seqnum_flag t b) k = tdb_exists t k;
}.

(** The sequence number moves at every store when its lock is always granted. *)
Class TdbSeqnum (T : Type) `{TdbOps T} : Prop :=
  tdb_store_seqnum_bump t k v t' :
    tdb_store t k v = (t', 0) → tdb_seqnum_flag t = true → tdb_get_seqnum t' ≠ tdb_get_seqnum t.

(** ** Contexts *)

(** [struct ctdb_vnn_map] *)
Record ctdb_vnn_map := mk_vnn_map {
  vm_generation : Z;
  vm_size : Z;
  vm_map : list Z;
}.

Definition vnn_map_ok (vm : ctdb_vnn_map) : Prop :=
  vm_size vm = Z.of_nat (length (vm_map vm)) ∧ 0 < vm_size vm ∧ Forall is_u32 (vm_map vm).

(** The fields of [struct ctdb_context] the ltdb layer reads.  [lc_vnn_map] is
    [None] in a client process; [lc_main_daemon] is [ctdbd_pid == getpid()];
    [lc_ctrl_result] is what [ctdb_control] to the local daemon returns
    (return value, status). *)
Record ltdb_ctx := mk_ltdb_ctx {
  lc_pnn : Z;
  lc_vnn_map : option ctdb_vnn_map;
  lc_main_daemon : bool;
  lc_can_send_controls : bool;
  lc_ctrl_result : Z * Z;
}.

(** [struct ctdb_call_info], the argument of a registered call. *)
Record ctdb_call_info := mk_call_info {
  ci_key : bytes;
  ci_header : ctdb_ltdb_header;
  ci_record_data : bytes;
  ci_new_data : option bytes;
  ci_call_data : bytes;
  ci_reply_data : option bytes;
  ci_status : Z;
}.

(** [ctdb_fn_t]: returns the C return value and the updated structure. *)
Definition ctdb_fn : Type := ctdb_call_info → Z * ctdb_call_info.

(** [struct delete_record_data] *)
Record delete_record_data := mk_dd {
  dd_hdr : ctdb_ltdb_header;
  dd_key : bytes;
}.

(** One entry of [hot_keys] of [struct ctdb_db_statistics]. *)
Record hot_key := mk_hot_key {
  hk_count : Z;
  hk_key : bytes;
}.

(** [struct revokechild_handle]: the key being revoked, what the child process
    was started with (tracking data, header, record data) and the calls
    waiting for the revoke to finish (its talloc children). *)
Record revokechild := mk_revokechild {
  rv_key : bytes;
  rv_job : bytes * ctdb_ltdb_header * bytes;
  rv_deferred : list ctdb_req_call;
}.

(** [struct ctdb_sticky_record]: [sr_pindown] is [Some ds] while the record is
    pinned down, [ds] being the requests deferred on the pindown context. *)
Record ctdb_sticky_record := mk_sticky {
  sr_pindown : option (list ctdb_req_call);
}.

(** The part of [struct ctdb_db_context] the modelled code uses.
    [db_seqnum_update] is [seqnum_update != NULL], [db_server_store] is
    [ctdb_ltdb_store_fn == ctdb_ltdb_store_server], [db_persistent_state] is
    [persistent_state != NULL].  The trees [delete_queue] (by key hash) and
    [sticky_records] (by padded key) are finite maps.  [db_chainlocks] are the hash
    chain locks this process holds, innermost first; [db_ctrl_sent] the
    SCHEDULE_FOR_DELETION controls it sent to the local daemon. *)
Record ctdb_db_context (T : Type) := mk_db {
  db_id : Z;
  db_persistent : bool;
  db_readonly : bool;
  db_sticky : bool;
  db_ltdb : T;
  db_rottdb : T;
  db_calls : list (Z * ctdb_fn);
  db_seqnum_update : bool;
  db_server_store : bool;
  db_persistent_state : bool;
  db_revokechild_active : list revokechild;
  db_delete_queue : gmap Z delete_record_data;
  db_sticky_records : gmap bytes ctdb_sticky_record;
  db_num_hot_keys : nat;
  db_hot_keys : list hot_key;
  db_ro_delegations : Z;
  db_ro_revokes : Z;
  db_hop_count_bucket : list Z;
  db_chainlocks : list bytes;
  db_ctrl_sent : list delete_record_data;
}.

Arguments mk_db {T}.
Arguments db_id {T}.
Arguments db_persistent {T}.
Arguments db_readonly {T}.
Arguments db_sticky {T}.
Arguments db_ltdb {T}.
Arguments db_rottdb {T}.
Arguments db_calls {T}.
Arguments db_seqnum_update {T}.
Arguments db_server_store {T}.
Arguments db_persistent_state {T}.
Arguments db_revokechild_active {T}.
Arguments db_delete_queue {T}.
Arguments db_sticky_records {T}.
Arguments db_num_hot_keys {T}.
Arguments db_hot_keys {T}.
Arguments db_ro_delegations {T}.
Arguments db_ro_revokes {T}.
Arguments db_hop_count_bucket {T}.
Arguments db_chainlocks {T}.
Arguments db_ctrl_sent {T}.

(** Field updates. *)
Section setters.
Context {T : Type}.
Implicit Types db : ctdb_db_context T.

Definition set_db_ltdb db (v : T) : ctdb_db_context T :=
  mk_db (db_id db) (db_persistent db) (db_readonly db) (db_sticky db) v (db_rottdb db)
    (db_calls db) (db_seqnum_update db) (db_server_store db) (db_persistent_state db)
    (db_revokechild_active db) (db_delete_queue db) (db_sticky_records db) (db_num_hot_keys
    db) (db_hot_keys db) (db_ro_delegations db) (db_ro_revokes db) (db_hop_count_bucket db)
    (db_chainlocks db) (db_ctrl_sent db).
Definition set_db_rottdb db (v : T) : ctdb_db_context T :=
  mk_db (db_id db) (db_persistent db) (db_readonly db) (db_sticky db) (db_ltdb db) v
    (db_calls db) (db_seqnum_update db) (db_server_store db) (db_persistent_state db)
    (db_revokechild_active db) (db_delete_queue db) (db_sticky_records db) (db_num_hot_keys
    db) (db_hot_keys db) (db_ro_delegations db) (db_ro_revokes db) (db_hop_count_bucket db)
    (db_chainlocks db) (db_ctrl_sent db).
Definition set_db_revokechild_active db (v : list revokechild) : ctdb_db_context T :=
  mk_db (db_id db) (db_persistent db) (db_readonly db) (db_sticky db) (db_ltdb db)
    (db_rottdb db) (db_calls db) (db_seqnum_update db) (db_server_store db)
    (db_persistent_state db) v (db_delete_queue db) (db_sticky_records db) (db_num_hot_keys
    db) (db_hot_keys db) (db_ro_delegations db) (db_ro_revokes db) (db_hop_count_bucket db)
    (db_chainlocks db) (db_ctrl_sent db).
Definition set_db_delete_queue db (v : gmap Z delete_record_data) : ctdb_db_context T :=
  mk_db (db_id db) (db_persistent db) (db_readonly db) (db_sticky db) (db_ltdb db)
    (db_rottdb db) (db_calls db) (db_seqnum_update db) (db_server_store db)
    (db_persistent_state db) (db_revokechild_active db) v (db_sticky_records db)
    (db_num_hot_keys db) (db_hot_keys db) (db_ro_delegations db) (db_ro_revokes db)
    (db_hop_count_bucket db) (db_chainlocks db) (db_ctrl_sent db).
Definition set_db_sticky_records db (v : gmap bytes ctdb_sticky_record) : ctdb_db_context T :=
  mk_db (db_id db) (db_persistent db) (db_readonly db) (db_sticky db) (db_ltdb db)
    (db_rottdb db) (db_calls db) (db_seqnum_update db) (db_server_store db)
    (db_persistent_state db) (db_revokechild_active db) (db_delete_queue db) v
    (db_num_hot_keys db) (db_hot_keys db) (db_ro_delegations db) (db_ro_revokes db)
    (db_hop_count_bucket db) (db_chainlocks db) (db_ctrl_sent db).
Definition set_db_num_hot_keys db (v : nat) : ctdb_db_context T :=
  mk_db (db_id db) (db_persistent db) (db_readonly db) (db_sticky db) (db_ltdb db)
    (db_rottdb db) (db_calls db) (db_seqnum_update db) (db_server_store db)
    (db_persistent_state db) (db_revokechild_active db) (db_delete_queue db)
    (db_sticky_records db) v (db_hot_keys db) (db_ro_delegations db) (db_ro_revokes db)
    (db_hop_count_bucket db) (db_chainlocks db) (db_ctrl_sent db).
Definition set_db_hot_keys db (v : list hot_key) : ctdb_db_context T :=
  mk_db (db_id db) (db_persistent db) (db_readonly db) (db_sticky db) (db_ltdb db)
    (db_rottdb db) (db_calls db) (db_seqnum_update db) (db_server_store db)
    (db_persistent_state db) (db_revokechild_active db) (db_delete_queue db)
    (db_sticky_records db) (db_num_hot_keys db) v (db_ro_delegations db) (db_ro_revokes db)
    (db_hop_count_bucket db) (db_chainlocks db) (db_ctrl_sent db).
Definition set_db_ro_delegations db (v : Z) : ctdb_db_context T :=
  mk_db (db_id db) (db_persistent db) (db_readonly db) (db_sticky db) (db_ltdb db)
    (db_rottdb db) (db_calls db) (db_seqnum_update db) (db_server_store db)
    (db_persistent_state db) (db_revokechild_active db) (db_delete_queue db)
    (db_sticky_records db) (db_num_hot_keys db) (db_hot_keys db) v (db_ro_revokes db)
    (db_hop_count_bucket db) (db_chainlocks db) (db_ctrl_sent db).
Definition set_db_ro_revokes db (v : Z) : ctdb_db_context T :=
  mk_db (db_id db) (db_persistent db) (db_readonly db) (db_sticky db) (db_ltdb db)
    (db_rottdb db) (db_calls db) (db_seqnum_update db) (db_server_store db)
    (db_persistent_state db) (db_revokechild_active db) (db_delete_queue db)
    (db_sticky_records db) (db_num_hot_keys db) (db_hot_keys db) (db_ro_delegations db) v
    (db_hop_count_bucket db) (db_chainlocks db) (db_ctrl_sent db).
Definition set_db_hop_count_bucket db (v : list Z) : ctdb_db_context T :=
  mk_db (db_id db) (db_persistent db) (db_readonly db) (db_sticky db) (db_ltdb db)
    (db_rottdb db) (db_calls db) (db_seqnum_update db) (db_server_store db)
    (db_persistent_state db) (db_revokechild_active db) (db_delete_queue db)
    (db_sticky_records db) (db_num_hot_keys db) (db_hot_keys db) (db_ro_delegations db)
    (db_ro_revokes db) v (db_chainlocks db) (db_ctrl_sent db).
Definition set_db_chainlocks db (v : list bytes) : ctdb_db_context T :=
  mk_db (db_id db) (db_persistent db) (db_readonly db) (db_sticky db) (db_ltdb db)
    (db_rottdb db) (db_calls db) (db_seqnum_update db) (db_server_store db)
    (db_persistent_state db) (db_revokechild_active db) (db_delete_queue db)
    (db_sticky_records db) (db_num_hot_keys db) (db_hot_keys db) (db_ro_delegations db)
    (db_ro_revokes db) (db_hop_count_bucket db) v (db_ctrl_sent db).
Definition set_db_ctrl_sent db (v : list delete_record_data) : ctdb_db_context T :=
  mk_db (db_id db) (db_persistent db) (db_readonly db) (db_sticky db) (db_ltdb db)
    (db_rottdb db) (db_calls db) (db_seqnum_update db) (db_server_store db)
    (db_persistent_state db) (db_revokechild_active db) (db_delete_queue db)
    (db_sticky_records db) (db_num_hot_keys db) (db_hot_keys db) (db_ro_delegations db)
    (db_ro_revokes db) (db_hop_count_bucket db) (db_chainlocks db) v.

End setters.

(** ** Operations *)

(** [ctdb_hash] of [common/ctdb_util.c]: by [hashlittle_alignment] the address
    of the key is irrelevant. *)
Definition ctdb_hash (key : bytes) : Z := Jenkins.tdb_jenkins_hash 0 key.

#[global] Arguments ctdb_hash : simpl never.

(** Return the lmaster given a key. *)
Definition ctdb_lmaster (vm : ctdb_vnn_map) (key : bytes) : Z :=
  let idx := ctdb_hash key mod vm_size vm in
  nth (Z.to_nat idx) (vm_map vm) 0.

(** Construct an initial header for a record with no ltdb header yet. *)
Definition ltdb_initial_header (vm : ctdb_vnn_map) (key : bytes) : ctdb_ltdb_header :=
  let header := zero_header in
  let header := set_dmaster header (ctdb_lmaster vm key) in
  set_flags header CTDB_REC_FLAG_AUTOMATIC.

Section ltdb.
Context {T : Type} `{!TdbOps T}.
Implicit Types (db : ctdb_db_context T) (lc : ltdb_ctx) (key data : bytes).
Implicit Types (header : ctdb_ltdb_header).

(** *** The delete queue ([server/ctdb_vacuum.c]) *)

(** Store key and header in a tree, indexed by the key hash. *)
Definition insert_delete_record_data_into_tree (tree : gmap Z delete_record_data)
    header key : gmap Z delete_record_data :=
  <[ctdb_hash key := mk_dd header key]> tree.

(** Insert a record into the delete queue, handling hash collisions. *)
Definition insert_record_into_delete_queue db header key : Z * ctdb_db_context T :=
  let hash := ctdb_hash key in
  let insert := set_db_delete_queue db
    (insert_delete_record_data_into_tree (db_delete_queue db) header key) in
  match db_delete_queue db !! hash with
  | Some kd => if decide (dd_key kd = key) then (0, insert) else (0, db)
  | None => (0, insert)
  end.

(** [talloc_free(kd)] removes the tree node that hangs off the data. *)
Definition remove_record_from_delete_queue db key : ctdb_db_context T :=
  let hash := ctdb_hash key in
  match db_delete_queue db !! hash with
  | None => db
  | Some kd =>
      if decide (dd_key kd = key)
      then set_db_delete_queue db (delete hash (db_delete_queue db))
      else db
  end.

Definition ctdb_local_schedule_for_deletion lc db header key : Z * ctdb_db_context T :=
  if lc_main_daemon lc then insert_record_into_delete_queue db header key
  else if negb (lc_can_send_controls lc) then (-1, db)
  else
    let db := set_db_ctrl_sent db (db_ctrl_sent db ++ [mk_dd header key]) in
    let '(ret, status) := lc_ctrl_result lc in
    (if negb (ret =? 0) || negb (status =? 0)
     then if negb (status =? 0) then -1 else ret
     else ret, db).

Definition ctdb_local_remove_from_delete_queue lc db key : ctdb_db_context T :=
  if negb (lc_main_daemon lc) then db
  else remove_record_from_delete_queue db key.

(** *** Storing a record *)

(** Databases with seqnum updates enabled only get their seqnum changes when the
    data behind the header is modified. *)
Definition seqnum_unmodified db key (rec : bytes) : bool :=
  db_seqnum_update db &&
  (let old := tdb_fetch (db_ltdb db) key in
   (dsize old =? dsize rec)
   && bool_decide (drop sizeof_header old = drop sizeof_header rec)).

(** [ctdb_ltdb_store] without a store function (client processes): the write
    itself. *)
Definition ltdb_store_plain db key header data : Z * ctdb_db_context T :=
  let rec := header_bytes header ++ data in
  let seqnum_suppressed := seqnum_unmodified db key rec in
  let t := if seqnum_suppressed then tdb_set_seqnum_flag (db_ltdb db) false else db_ltdb db in
  let '(t, ret) := tdb_store t key rec in
  let t := if seqnum_suppressed then tdb_set_seqnum_flag t true else t in
  (ret, set_db_ltdb db t).

(** The decision of [ctdb_ltdb_store_server] whether the record is stored or
    deleted: (keep, schedule_for_deletion). *)
Definition store_keep lc db (vm : ctdb_vnn_map) key header data : bool * bool :=
  let lmaster := ctdb_lmaster vm key in
  if negb (dsize data =? 0) then (true, false)
  else if flags header &? CTDB_REC_RO_FLAGS then (true, false)
  else if db_persistent db then (true, false)
  else if flags header &? CTDB_REC_FLAG_AUTOMATIC then (true, true)
  else if flags header &? CTDB_REC_FLAG_MIGRATED_WITH_DATA then (true, false)
  else if lc_pnn lc =? lmaster then
    if negb (flags header &? CTDB_REC_FLAG_VACUUM_MIGRATED) then (true, false)
    else if negb (lc_pnn lc =? dmaster header) then (true, false)
    else (false, false)
  else if lc_pnn lc =? dmaster header then (true, false)
  else (false, false).

(** The dmaster bumps the sequence number of a record it keeps, and queues an
    empty one for deletion: (header, schedule, remove_from_delete_queue). *)
Definition store_bump lc db header data (schedule : bool) : ctdb_ltdb_header * bool * bool :=
  if negb (db_persistent db) && (lc_pnn lc =? dmaster header)
     && negb (flags header &? CTDB_REC_RO_FLAGS)
  then
    let header := set_rsn header (u64 (rsn header + 1)) in
    let schedule := if dsize data =? 0 then true else schedule in
    (header, schedule, negb schedule)
  else (header, schedule, negb schedule).

(** [ctdb_ltdb_store_server].  The header is passed by pointer: the result
    carries its new value.  (The CTDB_FLAG_TORTURE check only logs.) *)
Definition ctdb_ltdb_store_server lc db key header data
    : Z * ctdb_ltdb_header * ctdb_db_context T :=
  let '(keep, header, schedule_for_deletion, remove_from_delete_queue) :=
    match lc_vnn_map lc with
    | None => (true, header, false, false)
    | Some vm =>
        let '(keep, schedule) := store_keep lc db vm key header data in
        if keep then
          let '(header, schedule, remove) := store_bump lc db header data schedule in
          (true, header, schedule, remove)
        else (false, header, schedule, false)
    end in
  let header := set_flags header (flags header &~ CTDB_REC_FLAG_VACUUM_MIGRATED) in
  let header := set_flags header (flags header &~ CTDB_REC_FLAG_AUTOMATIC) in
  let rec := header_bytes header ++ data in
  let seqnum_suppressed := seqnum_unmodified db key rec in
  let t := if seqnum_suppressed then tdb_set_seqnum_flag (db_ltdb db) false else db_ltdb db in
  let '(t, ret) := if keep then tdb_store t key rec else tdb_delete t key in
  let '(schedule_for_deletion, remove_from_delete_queue) :=
    if negb (ret =? 0) then (false, false)
    else (schedule_for_deletion, remove_from_delete_queue) in
  let t := if seqnum_suppressed then tdb_set_seqnum_flag t true else t in
  let db := set_db_ltdb db t in
  let db := if schedule_for_deletion
            then (ctdb_local_schedule_for_deletion lc db header key).2 else db in
  let db := if remove_from_delete_queue
            then ctdb_local_remove_from_delete_queue lc db key else db in
  (ret, header, db).

(** [ctdb_ltdb_store] *)
Definition ctdb_ltdb_store lc db key header data
    : Z * ctdb_ltdb_header * ctdb_db_context T :=
  if db_server_store db then ctdb_ltdb_store_server lc db key header data
  else let '(ret, db) := ltdb_store_plain db key header data in (ret, header, db).

(** *** Fetching a record *)

(** [ctdb_ltdb_fetch]: (return value, header, data, database).  [header0] is the
    previous content of the caller's header variable. *)
Definition ctdb_ltdb_fetch lc db key (header0 : ctdb_ltdb_header)
    : Z * ctdb_ltdb_header * bytes * ctdb_db_context T :=
  let rec := tdb_fetch (db_ltdb db) key in
  if Nat.ltb (length rec) sizeof_header then
    match lc_vnn_map lc with
    | None => (-1, set_dmaster header0 (2 ^ 32 - 1), [], db)
    | Some vm =>
        let header := ltdb_initial_header vm key in
        if db_persistent db || (dmaster header =? lc_pnn lc) then
          let '(_, header, db) := ctdb_ltdb_store lc db key header [] in
          (0, header, [], db)
        else (0, header, [], db)
    end
  else (0, header_of_bytes rec, drop sizeof_header rec, db).

(** [ctdb_ltdb_fetch_with_header]: no header is made up for a missing record. *)
Definition ctdb_ltdb_fetch_with_header db key (header0 : ctdb_ltdb_header)
    : Z * ctdb_ltdb_header * bytes :=
  let rec := tdb_fetch (db_ltdb db) key in
  if Nat.ltb (length rec) sizeof_header then (-1, header0, [])
  else (0, header_of_bytes rec, drop sizeof_header rec).

(** [ctdb_ltdb_delete] *)
Definition ctdb_ltdb_delete db key : Z * ctdb_db_context T :=
  if db_persistent db then (0, db)
  else
    let '(t, ret) := tdb_delete (db_ltdb db) key in
    if negb (ret =? 0) then (-1, set_db_ltdb db t) else (0, set_db_ltdb db t).

(** [ctdb_ltdb_unlock]: release one hold of the chain lock. *)
Definition ctdb_ltdb_unlock db key : Z * ctdb_db_context T :=
  match list_find (λ k, k = key) (db_chainlocks db) with
  | Some (i, _) => (0, set_db_chainlocks db (delete i (db_chainlocks db)))
  | None => (-1, db)
  end.

End ltdb.

(** *** Read-only delegations: the tracking bitmap *)

(** [ctdb_trackingdb_add_pnn]: set the bit of a node, growing the bitmap. *)
Definition ctdb_trackingdb_add_pnn (data : bytes) (pnn : Z) : bytes :=
  let byte_pos := Z.to_nat (pnn / 8) in
  let bit_mask := Z.shiftl 1 (pnn mod 8) in
  let data := if Nat.ltb (length data) (byte_pos + 1)
              then data ++ replicate (byte_pos + 1 - length data) 0 else data in
  <[byte_pos := Z.lor (nth byte_pos data 0) bit_mask]> data.

(** The inner loop of [ctdb_trackingdb_traverse]: the nodes of byte [i]. *)
Definition tracking_byte (i : nat) (b : Z) : list Z :=
  flat_map (λ j, if b &? Z.shiftl 1 (Z.of_nat j) then [Z.of_nat i * 8 + Z.of_nat j] else [])
    (seq 0 8).

(** [ctdb_trackingdb_traverse]: the sequence of nodes the callback is called
    with, from byte [i] on. *)
Fixpoint trackingdb_traverse_from (i : nat) (data : bytes) : list Z :=
  match data with
  | [] => []
  | b :: data => tracking_byte i b ++ trackingdb_traverse_from (S i) data
  end.

Definition ctdb_trackingdb_traverse (data : bytes) : list Z := trackingdb_traverse_from 0 data.

(** *** The calls every database supports *)

Definition ctdb_null_func : ctdb_fn := λ c, (0, c).

Definition ctdb_fetch_func : ctdb_fn := λ c,
  (0, mk_call_info (ci_key c) (ci_header c) (ci_record_data c) (ci_new_data c)
        (ci_call_data c) (Some (ci_record_data c)) (ci_status c)).

Definition ctdb_fetch_with_header_func : ctdb_fn := λ c,
  (0, mk_call_info (ci_key c) (ci_header c) (ci_record_data c) (ci_new_data c)
        (ci_call_data c) (Some (header_bytes (ci_header c) ++ ci_record_data c))
        (ci_status c)).

(** ** What a node sees of a record *)

Section views.
Context {T : Type} `{!TdbOps T}.
Implicit Types (db : ctdb_db_context T) (key : bytes).

(** The dmaster a fetch reports: the header's, or the lmaster of a missing
    record. *)
Definition view_dmaster (vm : ctdb_vnn_map) db key : Z :=
  let rec := tdb_fetch (db_ltdb db) key in
  if Nat.ltb (length rec) sizeof_header then ctdb_lmaster vm key
  else dmaster (header_of_bytes rec).

(** The data a fetch reports. *)
Definition view_data db key : bytes :=
  let rec := tdb_fetch (db_ltdb db) key in
  if Nat.ltb (length rec) sizeof_header then [] else drop sizeof_header rec.

(** The sequence number a fetch reports (before any bump of its own). *)
Definition view_rsn db key : Z :=
  let rec := tdb_fetch (db_ltdb db) key in
  if Nat.ltb (length rec) sizeof_header then 0 else rsn (header_of_bytes rec).

(** Some store of the tdb below fails (say, when the disk is full), or some
    delete fails after it took the record out. *)
Definition store_may_fail (U : Type) `{!TdbOps U} : Prop :=
  (∃ (t : U) k v, (tdb_store t k v).2 ≠ 0)
  ∨ (∃ (t : U) k, (tdb_delete t k).2 ≠ 0 ∧ tdb_fetch (tdb_delete t k).1 k ≠ tdb_fetch t k).

(** Records on disk are made of bytes. *)
Definition db_ok db : Prop := ∀ key, Forall is_u8 (tdb_fetch (db_ltdb db) key).

(** Entries of the delete queue sit under the hash of their key. *)
Definition delete_queue_ok db : Prop :=
  map_Forall (λ hash kd, hash = ctdb_hash (dd_key kd)) (db_delete_queue db).

(** The record is waiting for deletion. *)
Definition queued db key : Prop :=
  ∃ kd, db_delete_queue db !! ctdb_hash key = Some kd ∧ dd_key kd = key.

(** A database context in which only the tdb, the delete queue and the control
    log differ: all that the store operations touch. *)
Definition ltdb_write db (t : T) (q : gmap Z delete_record_data)
    (c : list delete_record_data) : ctdb_db_context T :=
  set_db_ctrl_sent (set_db_delete_queue (set_db_ltdb db t) q) c.

End views.

(** ** An in-memory tdb *)

Record memtdb := mk_memtdb {
  mt_map : gmap bytes bytes;
  mt_seqnum_flag : bool;
  mt_seqnum : Z;
}.

#[global] Instance memtdb_ops : TdbOps memtdb := {|
  tdb_fetch t k := default [] (mt_map t !! k);
  tdb_store t k v :=
    (mk_memtdb (<[k := v]> (mt_map t)) (mt_seqnum_flag t)
       (if mt_seqnum_flag t then mt_seqnum t + 1 else mt_seqnum t), 0);
  tdb_delete t k :=
    match mt_map t !! k with
    | None => (t, -1)
    | Some _ =>
        (mk_memtdb (delete k (mt_map t)) (mt_seqnum_flag t)
           (if mt_seqnum_flag t then mt_seqnum t + 1 else mt_seqnum t), 0)
    end;
  tdb_seqnum_flag := mt_seqnum_flag;
  tdb_set_seqnum_flag t b := mk_memtdb (mt_map t) b (mt_seqnum t);
  tdb_get_seqnum := mt_seqnum;
  tdb_exists t k := match mt_map t !! k with Some _ => true | None => false end;
|}.

#[global] Instance memtdb_laws : TdbLaws memtdb.
Proof.
  split; simpl; intros; repeat (case_match; simplify_eq/=; try done);
    simplify_map_eq; auto; lia.
Qed.

#[global] Instance memtdb_seqnum : TdbSeqnum memtdb.
Proof. intros [m f n] k v t'. simpl. intros [= <-] ->. simpl. lia. Qed.

(** Its stores and deletes do what they say. *)
Lemma memtdb_no_failure : ¬ store_may_fail memtdb.
Proof.
  intros [(t & k & v & Hf)|(t & k & Hf & Hne)]; simpl in *; [done|].
  by destruct (mt_map t !! k) eqn:E; simpl in *; rewrite ?E in *.
Qed.

(** ** Lemmas *)

Lemma initial_header_ok vm key :
  Forall is_u32 (vm_map vm) → header_ok (ltdb_initial_header vm key).
Proof.
  intros Hm. unfold header_ok, ltdb_initial_header. simpl.
  split; [unfold is_u64; lia|]. split; [|unfold is_u32, CTDB_REC_FLAG_AUTOMATIC; lia].
  unfold ctdb_lmaster. destruct (nth_in_or_default
    (Z.to_nat (ctdb_hash key mod vm_size vm)) (vm_map vm) 0) as [Hin| ->].
  - by eapply Forall_forall in Hm; [|by apply list_elem_of_In].
  - unfold is_u32. lia.
Qed.

Lemma set_flags_ok h m :
  header_ok h → header_ok (set_flags h (flags h &~ m)).
Proof.
  unfold header_ok, is_u64, is_u32. intros (? & ? & ? & ?). simpl.
  repeat split; try lia; apply (ldiff_range 32); lia.
Qed.

Section ltdb_lemmas.
Context {T : Type} `{TdbLaws T}.
Implicit Types (db : ctdb_db_context T) (lc : ltdb_ctx) (key data : bytes).

Lemma ltdb_write_id db : ltdb_write db (db_ltdb db) (db_delete_queue db) (db_ctrl_sent db) = db.
Proof. by destruct db. Qed.

Lemma schedule_writes lc db h key :
  ∃ q c, (ctdb_local_schedule_for_deletion lc db h key).2 = ltdb_write db (db_ltdb db) q c.
Proof.
  unfold ctdb_local_schedule_for_deletion, insert_record_into_delete_queue.
  repeat case_match; simplify_eq/=;
    first [by eexists _, _|eexists _, _; symmetry; apply ltdb_write_id].
Qed.

Lemma remove_writes lc db key :
  ∃ q, ctdb_local_remove_from_delete_queue lc db key
       = ltdb_write db (db_ltdb db) q (db_ctrl_sent db).
Proof.
  unfold ctdb_local_remove_from_delete_queue, remove_record_from_delete_queue.
  repeat case_match; simplify_eq/=;
    first [by eexists|eexists; symmetry; apply ltdb_write_id].
Qed.

Lemma ltdb_write_write db t q c t' q' c' :
  ltdb_write (ltdb_write db t q c) t' q' c' = ltdb_write db t' q' c'.
Proof. done. Qed.

(** The tdb side of a store or delete under a possibly suppressed seqnum. *)
Lemma tdb_op_spec (t t' : T) key rec (keep sup : bool) r :
  (let t0 := if sup then tdb_set_seqnum_flag t false else t in
   if keep then tdb_store t0 key rec else tdb_delete t0 key) = (t', r) →
  let t1 := if sup then tdb_set_seqnum_flag t' true else t' in
  (r = 0 → tdb_fetch t1 key = if keep then rec else [])
  ∧ (r ≠ 0 → tdb_fetch t1 key = tdb_fetch t key
             ∨ tdb_fetch t1 key = [] ∧ store_may_fail T)
  ∧ (∀ k, k ≠ key → tdb_fetch t1 k = tdb_fetch t k).
Proof.
  intros E t1.
  assert (∀ k, tdb_fetch t1 k = tdb_fetch t' k) as Ht1.
  { intros k. subst t1. destruct sup; [apply tdb_set_flag_fetch|done]. }
  assert (∀ k, tdb_fetch (if sup then tdb_set_seqnum_flag t false else t) k = tdb_fetch t k) as Ht0.
  { intros k. destruct sup; [apply tdb_set_flag_fetch|done]. }
  cbv zeta in E. rewrite !Ht1, <- !Ht0. split; [|split].
  - intros ->. destruct keep; [by eapply tdb_store_ok|by eapply tdb_delete_ok].
  - intros Hr. destruct keep.
    + destruct (tdb_store_fail _ _ _ _ _ E Hr) as [|]; [by left|right].
      split; [done|]. left. eexists _, _, _. by rewrite E.
    + destruct (tdb_delete_fail _ _ _ _ E Hr) as [|Hn]; [by left|].
      destruct (decide (tdb_fetch t' key = tdb_fetch (if sup then tdb_set_seqnum_flag t false else t) key)) as [|Hne]; [by left|right].
      split; [done|]. right. eexists _, _. by rewrite E.
  - intros k Hk. rewrite Ht1, <- Ht0.
    destruct keep; [by eapply tdb_store_other|by eapply tdb_delete_other].
Qed.

Lemma store_bump_spec lc db h data sched h' s r :
  store_bump lc db h data sched = (h', s, r) →
  dmaster h' = dmaster h ∧ flags h' = flags h ∧ (header_ok h → header_ok h').
Proof.
  unfold store_bump. case_match; intros; simplify_eq/=; [|done].
  split_and!; try done. unfold header_ok. simpl. intros (? & ? & ? & ?).
  auto with ctdb.
Qed.

(** The tdb call of a server-side store, and what else it changes. *)
Lemma store_server_run lc vm db key h data ret h' db' :
  lc_vnn_map lc = Some vm →
  ctdb_ltdb_store_server lc db key h data = (ret, h', db') →
  let rec := header_bytes h' ++ data in
  let sup := seqnum_unmodified db key rec in
  let t0 := if sup then tdb_set_seqnum_flag (db_ltdb db) false else db_ltdb db in
  ∃ t q c, (if (store_keep lc db vm key h data).1 then tdb_store t0 key rec else tdb_delete t0 key) = (t, ret)
  ∧ db' = ltdb_write db (if sup then tdb_set_seqnum_flag t true else t) q c
  ∧ dmaster h' = dmaster h
  ∧ flags h' = flags h &~ CTDB_REC_FLAG_VACUUM_MIGRATED &~ CTDB_REC_FLAG_AUTOMATIC
  ∧ (header_ok h → header_ok h').
Proof.
  intros Hvm. unfold ctdb_ltdb_store_server. rewrite Hvm.
  destruct (store_keep lc db vm key h data) as [keep sched] eqn:Hk. cbn [fst].
  set (hb := if keep then _ else _).
  destruct hb as [[[keep' h1] s] r] eqn:Hb.
  assert (keep' = keep ∧ dmaster h1 = dmaster h ∧ flags h1 = flags h
          ∧ (header_ok h → header_ok h1)) as (-> & Hd & Hf & Hok).
  { subst hb. destruct keep; [|by simplify_eq].
    destruct (store_bump lc db h data sched) as [[h2 s2] r2] eqn:E.
    simplify_eq. by apply store_bump_spec in E. }
  clear hb Hb. set (h2 := set_flags (set_flags h1 _) _).
  set (sup := seqnum_unmodified db key (header_bytes h2 ++ data)).
  destruct (if keep then _ else _) as [t ret0] eqn:Et.
  set (t1 := if sup then tdb_set_seqnum_flag t true else t).
  set (sr := if negb (ret0 =? 0) then _ else _). destruct sr as [s' r'] eqn:Esr.
  intros [= <- <- <-].
  destruct (schedule_writes lc (set_db_ltdb db t1) h2 key) as (q & c & Hs).
  set (dbs := if s' then _ else _).
  assert (∃ q c, dbs = ltdb_write db t1 q c) as (q1 & c1 & Hdbs).
  { subst dbs. destruct s'; [rewrite Hs; by eauto|].
    by exists (db_delete_queue db), (db_ctrl_sent db). }
  rewrite Hdbs. clearbody dbs.
  destruct (remove_writes lc (ltdb_write db t1 q1 c1) key) as (q2 & Hr).
  set (dbr := if r' then _ else _).
  assert (∃ q c, dbr = ltdb_write db t1 q c) as (q3 & c3 & ->).
  { subst dbr. destruct r'; [rewrite Hr; by eauto|by eauto]. }
  exists t, q3, c3. split; [done|]. split; [done|]. split; [done|]. split; [simpl; by rewrite Hf|].
  intros Ho. subst h2. by apply set_flags_ok, set_flags_ok, Hok.
Qed.

(** A record of a persistent database is always kept, and its header is stored as
    it is, without the flags that only travel. *)
Definition clean (h : ctdb_ltdb_header) : ctdb_ltdb_header :=
  set_flags (set_flags h (flags h &~ CTDB_REC_FLAG_VACUUM_MIGRATED))
    (flags (set_flags h (flags h &~ CTDB_REC_FLAG_VACUUM_MIGRATED)) &~ CTDB_REC_FLAG_AUTOMATIC).
Lemma persistent_keep lc db vm key h data : db_persistent db = true → (store_keep lc db vm key h data).1 = true.
Proof. intros Hp. unfold store_keep. rewrite Hp. by repeat case_match. Qed.
Lemma persistent_bump lc db h data sched : db_persistent db = true → (store_bump lc db h data sched).1.1 = h.
Proof. intros Hp. unfold store_bump. by rewrite Hp. Qed.

Lemma store_server_clean lc vm db key h data ret h' db' :
  lc_vnn_map lc = Some vm → db_persistent db = true →
  ctdb_ltdb_store_server lc db key h data = (ret, h', db') → h' = clean h.
Proof.
  intros Hvm Hp. unfold ctdb_ltdb_store_server. rewrite Hvm.
  pose proof (persistent_keep lc db vm key h data Hp) as Hk.
  destruct (store_keep lc db vm key h data) as [keep sched]. cbn in Hk. subst keep.
  pose proof (persistent_bump lc db h data sched Hp) as Hb.
  destruct (store_bump lc db h data sched) as [[h1 s1] r1]. cbn in Hb. subst h1.
  destruct (tdb_store _ _ _) as [t r]. by repeat case_match; intros [= <- <- <-].
Qed.

(** Everything the properties need to know about a server-side store. *)
Lemma store_server_inv lc vm db key h data ret h' db' :
  lc_vnn_map lc = Some vm →
  ctdb_ltdb_store_server lc db key h data = (ret, h', db') →
  (ret = 0 → tdb_fetch (db_ltdb db') key
             = if (store_keep lc db vm key h data).1 then header_bytes h' ++ data else [])
  ∧ (ret ≠ 0 → tdb_fetch (db_ltdb db') key = tdb_fetch (db_ltdb db) key
               ∨ tdb_fetch (db_ltdb db') key = [] ∧ store_may_fail T)
  ∧ (∀ k, k ≠ key → tdb_fetch (db_ltdb db') k = tdb_fetch (db_ltdb db) k)
  ∧ dmaster h' = dmaster h
  ∧ flags h' = flags h &~ CTDB_REC_FLAG_VACUUM_MIGRATED &~ CTDB_REC_FLAG_AUTOMATIC
  ∧ (header_ok h → header_ok h')
  ∧ ∃ t q c, db' = ltdb_write db t q c.
Proof.
  intros Hvm E. apply (store_server_run _ vm) in E as (t & q & c & Et & -> & Hd & Hf & Hok); [|done].
  apply tdb_op_spec in Et as (E1 & E2 & E3). simpl. split_and!; [done..|by eauto].
Qed.

Lemma view_dmaster_eq vm db db' key :
  tdb_fetch (db_ltdb db') key = tdb_fetch (db_ltdb db) key →
  view_dmaster vm db' key = view_dmaster vm db key.
Proof. unfold view_dmaster. by intros ->. Qed.

Lemma view_data_eq db db' key :
  tdb_fetch (db_ltdb db') key = tdb_fetch (db_ltdb db) key →
  view_data db' key = view_data db key.
Proof. unfold view_data. by intros ->. Qed.

Lemma view_stored vm db key h data :
  header_ok h → tdb_fetch (db_ltdb db) key = header_bytes h ++ data →
  view_dmaster vm db key = dmaster h ∧ view_data db key = data ∧ view_rsn db key = rsn h.
Proof.
  intros Hok E. unfold view_dmaster, view_data, view_rsn. rewrite E.
  rewrite length_app, length_header_bytes, header_of_bytes_app, drop_header_bytes by done.
  by rewrite (proj2 (Nat.ltb_ge _ _)) by lia.
Qed.

Lemma view_missing vm db key :
  (length (tdb_fetch (db_ltdb db) key) < sizeof_header)%nat →
  view_dmaster vm db key = ctdb_lmaster vm key ∧ view_data db key = [] ∧ view_rsn db key = 0.
Proof.
  intros E. unfold view_dmaster, view_data, view_rsn.
  by rewrite (proj2 (Nat.ltb_lt _ _)).
Qed.

Lemma view_empty vm db key :
  tdb_fetch (db_ltdb db) key = [] →
  view_dmaster vm db key = ctdb_lmaster vm key ∧ view_data db key = [] ∧ view_rsn db key = 0.
Proof. intros E. apply view_missing. rewrite E. simpl. unfold sizeof_header. lia. Qed.

(** A record is deleted only when it is empty and forgetting it does not
    change whether this node is its dmaster. *)
Lemma store_keep_false lc db vm key h data sched :
  store_keep lc db vm key h data = (false, sched) →
  data = [] ∧ (lc_pnn lc = ctdb_lmaster vm key ↔ lc_pnn lc = dmaster h)
  ∧ db_persistent db = false ∧ (flags h &? CTDB_REC_RO_FLAGS) = false
  ∧ (flags h &? CTDB_REC_FLAG_AUTOMATIC) = false ∧ sched = false.
Proof.
  unfold store_keep, dsize.
  repeat case_goal; intros; simplify_eq; zbool; split_and!; try done; try lia;
    destruct data; done.
Qed.

Lemma store_keep_data lc db vm key h data :
  data ≠ [] → store_keep lc db vm key h data = (true, false).
Proof. unfold store_keep. by destruct data. Qed.

Lemma header_of_bytes_ok p :
  Forall is_u8 p → (sizeof_header <= length p)%nat → header_ok (header_of_bytes p).
Proof.
  intros Hp Hl. assert (∀ off len, (off + len <= length p)%nat →
    0 <= le_val (slice off len p) < 256 ^ Z.of_nat len) as Hs.
  { intros off len Hlen. unfold slice.
    assert (length (take len (drop off p)) = len) as El.
    { rewrite length_take, length_drop. lia. }
    rewrite <- El at 3. apply le_val_range. by apply Forall_take, Forall_drop. }
  unfold sizeof_header in Hl. unfold header_ok, header_of_bytes, is_u64, is_u32. simpl.
  pose proof (Hs 0 8)%nat. pose proof (Hs 8 4)%nat. pose proof (Hs 12 4)%nat.
  pose proof (Hs 16 4)%nat. simpl Z.of_nat in *. lia.
Qed.

Lemma header_bytes_u8 h : Forall is_u8 (header_bytes h).
Proof. unfold header_bytes. rewrite !Forall_app. split_and!; apply le_bytes_u8. Qed.

(** A store keeps the records made of bytes. *)
Lemma store_server_ok lc vm db key h data ret h' db' :
  lc_vnn_map lc = Some vm → db_ok db → Forall is_u8 data →
  ctdb_ltdb_store_server lc db key h data = (ret, h', db') → db_ok db'.
Proof.
  intros Hvm Hdb Hdata E. apply (store_server_inv _ vm) in E as (E1 & E2 & E3 & _); [|done].
  intros k. destruct (decide (k = key)) as [->|Hne]; [|by rewrite E3].
  destruct (decide (ret = 0)) as [Hr|Hr].
  - rewrite E1 by done. case_match; [|constructor].
    apply Forall_app. split; [apply header_bytes_u8|done].
  - destruct (E2 Hr) as [-> | [-> _]]; [apply Hdb|constructor].
Qed.

(** The record views after a successful store. *)
Lemma store_server_view lc vm db key h data h' db' :
  lc_vnn_map lc = Some vm → header_ok h →
  ctdb_ltdb_store_server lc db key h data = (0, h', db') →
  (view_dmaster vm db' key = lc_pnn lc ↔ dmaster h = lc_pnn lc) ∧ view_data db' key = data.
Proof.
  intros Hvm Hok E. apply (store_server_inv _ vm) in E as (E1 & _ & _ & Hd & _ & Hok' & _);
    [|done]. specialize (E1 eq_refl).
  destruct (store_keep lc db vm key h data) as [[|] sched] eqn:Hk; simpl in E1.
  - apply (view_stored vm) in E1 as (-> & -> & _); [|by auto]. by rewrite Hd.
  - apply store_keep_false in Hk as (-> & Hlm & _).
    apply (view_empty vm) in E1 as (-> & -> & _). split; [|done]. split; intros; symmetry; apply Hlm; done.
Qed.

(** Without a vnn map or a store function the record is written as it is. *)
Lemma store_plain_inv db key h data ret db' :
  ltdb_store_plain db key h data = (ret, db') →
  (ret = 0 → tdb_fetch (db_ltdb db') key = header_bytes h ++ data)
  ∧ (ret ≠ 0 → tdb_fetch (db_ltdb db') key = tdb_fetch (db_ltdb db) key
               ∨ tdb_fetch (db_ltdb db') key = [] ∧ store_may_fail T)
  ∧ (∀ k, k ≠ key → tdb_fetch (db_ltdb db') k = tdb_fetch (db_ltdb db) k)
  ∧ ∃ t, db' = set_db_ltdb db t.
Proof.
  unfold ltdb_store_plain.
  set (sup := seqnum_unmodified db key (header_bytes h ++ data)).
  destruct (tdb_store _ _ _) as [t r] eqn:E. intros [= <- <-].
  pose proof (tdb_op_spec (db_ltdb db) t key (header_bytes h ++ data) true sup r E)
    as (E1 & E2 & E3). split_and!; [done..|by eauto].
Qed.

Lemma initial_keep lc db vm key :
  (store_keep lc db vm key (ltdb_initial_header vm key) []).1 = true.
Proof.
  unfold store_keep.
  change (flags (ltdb_initial_header vm key)) with CTDB_REC_FLAG_AUTOMATIC.
  change (CTDB_REC_FLAG_AUTOMATIC &? CTDB_REC_RO_FLAGS) with false.
  by destruct (db_persistent db).
Qed.

(** Storing the initial header of a missing record changes no view. *)
Lemma store_initial lc vm db key ret h' db' :
  lc_vnn_map lc = Some vm → vnn_map_ok vm → db_ok db →
  (length (tdb_fetch (db_ltdb db) key) < sizeof_header)%nat →
  ctdb_ltdb_store lc db key (ltdb_initial_header vm key) [] = (ret, h', db') →
  view_dmaster vm db' key = ctdb_lmaster vm key ∧ view_data db' key = []
  ∧ dmaster h' = ctdb_lmaster vm key ∧ header_ok h' ∧ db_ok db'
  ∧ (∀ k, k ≠ key → tdb_fetch (db_ltdb db') k = tdb_fetch (db_ltdb db) k)
  ∧ ∃ t q c, db' = ltdb_write db t q c.
Proof.
  intros Hvm (_ & _ & Hm) Hdb Hshort.
  pose proof (initial_header_ok vm key Hm) as Hok. unfold ctdb_ltdb_store.
  assert (∀ h', header_ok h' → dmaster h' = ctdb_lmaster vm key →
    (ret = 0 → tdb_fetch (db_ltdb db') key = header_bytes h' ++ []) →
    (ret ≠ 0 → tdb_fetch (db_ltdb db') key = tdb_fetch (db_ltdb db) key
               ∨ tdb_fetch (db_ltdb db') key = [] ∧ store_may_fail T) →
    view_dmaster vm db' key = ctdb_lmaster vm key ∧ view_data db' key = []) as Hview.
  { intros h2 Hok2 Hd2 E1 E2. destruct (decide (ret = 0)) as [Hr|Hr].
    - apply E1, (view_stored vm) in Hr as (-> & -> & _); done.
    - destruct (E2 Hr) as [E|[E _]]; [|by apply (view_empty vm) in E as (-> & -> & _)].
      destruct (view_missing vm db' key) as (-> & -> & _); [by rewrite E|done]. }
  destruct (db_server_store db).
  - intros E. pose proof E as Eok. apply (store_server_ok _ vm) in Eok; [|done..|constructor].
    apply (store_server_inv _ vm) in E as (E1 & E2 & E3 & Hd & _ & Hok' & Hw); [|done].
    rewrite initial_keep in E1. specialize (Hok' Hok).
    destruct (Hview h') as [Hv1 Hv2]; [done..|]. by split_and!.
  - destruct (ltdb_store_plain _ _ _ _) as [r d] eqn:E. intros [= <- <- <-].
    apply store_plain_inv in E as (E1 & E2 & E3 & t & ->).
    destruct (Hview (ltdb_initial_header vm key)) as [Hv1 Hv2]; [done..|].
    split_and!; try done; [|by exists t, (db_delete_queue db), (db_ctrl_sent db)].
    intros k. destruct (decide (k = key)) as [->|Hne]; [|by rewrite E3].
    destruct (decide (r = 0)) as [Hr|Hr].
    + rewrite E1 by done. apply Forall_app. split; [apply header_bytes_u8|constructor].
    + destruct (E2 Hr) as [-> | [-> _]]; [apply Hdb|constructor].
Qed.

(** Everything the properties need to know about a fetch. *)
Lemma fetch_inv lc vm db key h0 ret h data db' :
  lc_vnn_map lc = Some vm → vnn_map_ok vm → db_ok db →
  ctdb_ltdb_fetch lc db key h0 = (ret, h, data, db') →
  ret = 0 ∧ dmaster h = view_dmaster vm db key ∧ data = view_data db key ∧ header_ok h
  ∧ (∀ k, view_dmaster vm db' k = view_dmaster vm db k)
  ∧ (∀ k, view_data db' k = view_data db k)
  ∧ db_ok db' ∧ ∃ t q c, db' = ltdb_write db t q c.
Proof.
  intros Hvm Hmap Hdb. unfold ctdb_ltdb_fetch. rewrite Hvm.
  destruct (Nat.ltb_spec (length (tdb_fetch (db_ltdb db) key)) sizeof_header) as [Hl|Hl].
  - destruct (view_missing vm db key Hl) as (-> & -> & _).
    case_match.
    + destruct (ctdb_ltdb_store _ _ _ _ _) as [[r h1] d] eqn:E. intros [= <- <- <- <-].
      apply (store_initial _ vm) in E as (V1 & V2 & Hd & Hok & Hdb' & Ho & Hw); [|done..].
      split_and!; try done; intros k; destruct (decide (k = key)) as [->|Hne].
      * rewrite V1. by destruct (view_missing vm db key Hl) as (-> & _).
      * by apply view_dmaster_eq, Ho.
      * rewrite V2. by destruct (view_missing vm db key Hl) as (_ & -> & _).
      * by apply view_data_eq, Ho.
    + intros [= <- <- <- <-]. split_and!; try done; [by apply initial_header_ok, Hmap|].
      exists (db_ltdb db), (db_delete_queue db), (db_ctrl_sent db).
      symmetry. apply ltdb_write_id.
  - intros [= <- <- <- <-]. unfold view_dmaster, view_data.
    rewrite (proj2 (Nat.ltb_ge _ _)) by done.
    split_and!; try done; [by apply header_of_bytes_ok|].
    exists (db_ltdb db), (db_delete_queue db), (db_ctrl_sent db).
    symmetry. apply ltdb_write_id.
Qed.

Lemma store_bump_remove lc db h data sched :
  (store_bump lc db h data sched).2 = negb (store_bump lc db h data sched).1.2.
Proof. unfold store_bump. by case_match. Qed.

(** The delete queue after a successful store by the main daemon. *)
Lemma store_server_queue lc vm db key h data h' db' :
  lc_vnn_map lc = Some vm → lc_main_daemon lc = true →
  ctdb_ltdb_store_server lc db key h data = (0, h', db') →
  db_delete_queue db' =
    (let '(keep, sched) := store_keep lc db vm key h data in
     if keep then
       if (store_bump lc db h data sched).1.2
       then db_delete_queue (insert_record_into_delete_queue db h' key).2
       else db_delete_queue (remove_record_from_delete_queue db key)
     else db_delete_queue db).
Proof.
  intros Hvm Hmain. unfold ctdb_ltdb_store_server, ctdb_local_schedule_for_deletion,
    ctdb_local_remove_from_delete_queue. rewrite Hvm, Hmain. cbn [negb].
  destruct (store_keep lc db vm key h data) as [keep sched] eqn:Hk.
  set (hb := if keep then _ else _). destruct hb as [[[keep' h1] s] r] eqn:Hb.
  destruct (if keep' then _ else _) as [t ret] eqn:Et.
  set (t1 := if seqnum_unmodified _ _ _ then _ else _). clearbody t1. clear Et.
  set (h2 := set_flags (set_flags h1 _) _).
  set (sr := if negb (ret =? 0) then _ else _). destruct sr as [s' r'] eqn:Esr.
  intros [= -> <- <-]. subst sr hb. cbn in Esr. simplify_eq.
  destruct keep.
  - pose proof (store_bump_remove lc db h data sched) as Hr.
    destruct (store_bump lc db h data sched) as [[h3 s3] r3]. simpl in *. simplify_eq.
    unfold insert_record_into_delete_queue, remove_record_from_delete_queue.
    destruct s'; simpl; repeat case_match; simplify_eq/=; done.
  - apply store_keep_false in Hk as (_ & _ & _ & _ & _ & ->). by simplify_eq/=.
Qed.

Lemma insert_queue_spec db h key :
  let q := db_delete_queue (insert_record_into_delete_queue db h key).2 in
  (∃ kd, q !! ctdb_hash key = Some kd ∧ (dd_key kd = key → dd_hdr kd = h))
  ∧ (∀ hash, hash ≠ ctdb_hash key → q !! hash = db_delete_queue db !! hash)
  ∧ (delete_queue_ok db → delete_queue_ok (insert_record_into_delete_queue db h key).2).
Proof.
  unfold insert_record_into_delete_queue, insert_delete_record_data_into_tree, delete_queue_ok.
  destruct (db_delete_queue db !! ctdb_hash key) as [kd|] eqn:E; [destruct decide|]; simpl;
    (split_and!; [|intros; by simplify_map_eq|try (intros; by apply map_Forall_insert_2)]).
  - eexists. by simplify_map_eq.
  - by eexists.
  - eauto.
  - eexists. by simplify_map_eq.
Qed.

Lemma remove_queue_spec db key :
  let q := db_delete_queue (remove_record_from_delete_queue db key) in
  ¬ queued (remove_record_from_delete_queue db key) key
  ∧ (∀ hash, hash ≠ ctdb_hash key → q !! hash = db_delete_queue db !! hash)
  ∧ (delete_queue_ok db → delete_queue_ok (remove_record_from_delete_queue db key)).
Proof.
  unfold remove_record_from_delete_queue, delete_queue_ok, queued.
  destruct (db_delete_queue db !! ctdb_hash key) as [kd|] eqn:E; [destruct decide|]; simpl;
    (split_and!; [|intros; by simplify_map_eq|try (intros; by apply map_Forall_delete)]);
    try (intros (kd' & ? & ?); by simplify_map_eq); done.
Qed.

(** The tdb after a successful store of a record with data. *)
Lemma store_server_tdb lc vm db key h data h' db' :
  lc_vnn_map lc = Some vm → data ≠ [] →
  ctdb_ltdb_store_server lc db key h data = (0, h', db') →
  ∃ t, tdb_store (if seqnum_unmodified db key (header_bytes h' ++ data)
                  then tdb_set_seqnum_flag (db_ltdb db) false else db_ltdb db)
         key (header_bytes h' ++ data) = (t, 0)
  ∧ db_ltdb db' = (if seqnum_unmodified db key (header_bytes h' ++ data)
                   then tdb_set_seqnum_flag t true else t)
  ∧ rsn h' = rsn (store_bump lc db h data false).1.1.
Proof.
  intros Hvm Hdata. unfold ctdb_ltdb_store_server. rewrite Hvm, store_keep_data by done.
  destruct (store_bump lc db h data false) as [[h1 s] r].
  set (h2 := set_flags (set_flags h1 _) _).
  set (sup := seqnum_unmodified db key (header_bytes h2 ++ data)).
  destruct (tdb_store _ _ _) as [t ret] eqn:Et.
  set (t1 := if sup then tdb_set_seqnum_flag t true else t).
  set (sr := if negb (ret =? 0) then _ else _). destruct sr as [s' r'].
  intros [= -> <- <-]. exists t. fold sup. split; [done|]. split; [|done].
  destruct (schedule_writes lc (set_db_ltdb db t1) h2 key) as (q & c & Hs).
  set (dbs := if s' then _ else _).
  assert (db_ltdb dbs = t1) as Hdbs by (subst dbs; destruct s'; [by rewrite Hs|done]).
  destruct (remove_writes lc dbs key) as (q2 & Hr).
  destruct r'; [by rewrite Hr|done].
Qed.

End ltdb_lemmas.

(** *** The tracking bitmap *)

Lemma tracking_byte_elem i b q :
  q ∈ tracking_byte i b
  ↔ Z.of_nat i * 8 <= q < Z.of_nat i * 8 + 8 ∧ Z.testbit b (q - Z.of_nat i * 8) = true.
Proof.
  unfold tracking_byte. rewrite list_elem_of_In, in_flat_map.
  assert (∀ j : nat, (b &? Z.shiftl 1 (Z.of_nat j)) = Z.testbit b (Z.of_nat j)) as Hbit.
  { intros j. unfold has_flag. rewrite Z.shiftl_1_l.
    destruct (Z.testbit b (Z.of_nat j)) eqn:E.
    - apply negb_true_iff, Z.eqb_neq. intros H0.
      assert (Z.testbit (Z.land b (2 ^ Z.of_nat j)) (Z.of_nat j) = false)
        by (by rewrite H0, Z.bits_0).
      rewrite Z.land_spec, E, Z.pow2_bits_true in *; [done|lia].
    - apply negb_false_iff, Z.eqb_eq, Z.bits_inj'. intros n Hn.
      rewrite Z.land_spec, Z.bits_0. destruct (decide (n = Z.of_nat j)) as [->|Hne].
      + by rewrite E.
      + rewrite Z.pow2_bits_false by lia. apply andb_false_r. }
  split.
  - intros (j & Hj & Hq). apply in_seq in Hj. rewrite Hbit in Hq.
    destruct (Z.testbit b (Z.of_nat j)) eqn:E; [|by destruct Hq].
    destruct Hq as [<-|[]]. split; [lia|].
    by replace (_ - _) with (Z.of_nat j) by lia.
  - intros [Hr Ht]. exists (Z.to_nat (q - Z.of_nat i * 8)). split; [apply in_seq; lia|].
    rewrite Hbit, Z2Nat.id, Ht by lia. left. lia.
Qed.

Lemma traverse_from_elem i data q :
  q ∈ trackingdb_traverse_from i data
  ↔ Z.of_nat i * 8 <= q
    ∧ Z.testbit (nth (Z.to_nat (q / 8) - i) data 0) (q mod 8) = true.
Proof.
  revert i. induction data as [|b data IH]; intros i; cbn [trackingdb_traverse_from].
  - rewrite elem_of_nil. destruct (Z.to_nat (q / 8) - i)%nat; rewrite Z.bits_0;
      (split; [by intros []|by intros [_ ?]]).
  - rewrite elem_of_app, tracking_byte_elem, IH.
    pose proof (Z.div_mod q 8 ltac:(lia)). pose proof (Z.mod_pos_bound q 8 ltac:(lia)).
    destruct (decide (q < Z.of_nat i * 8)); [split; [intros [?|?]|intros ?]; lia|].
    destruct (decide (q < Z.of_nat i * 8 + 8)).
    + replace (Z.to_nat (q / 8) - i)%nat with 0%nat by lia. cbn [nth].
      replace (q - Z.of_nat i * 8) with (q mod 8) by lia.
      split; [intros [[_ ?]|[? _]]; [split; [lia|done]|lia]|intros [_ ?]; left; split; [lia|done]].
    + replace (Z.to_nat (q / 8) - i)%nat with (S (Z.to_nat (q / 8) - S i))%nat by lia.
      cbn [nth].
      split; [intros [[? _]|[_ ?]]; [lia|split; [lia|done]]
             |intros [_ ?]; right; split; [lia|done]].
Qed.

Lemma traverse_elem data q :
  q ∈ ctdb_trackingdb_traverse data
  ↔ 0 <= q ∧ Z.testbit (nth (Z.to_nat (q / 8)) data 0) (q mod 8) = true.
Proof.
  unfold ctdb_trackingdb_traverse. rewrite traverse_from_elem.
  by replace (Z.to_nat (q / 8) - 0)%nat with (Z.to_nat (q / 8)) by lia.
Qed.

Lemma nth_grow (data : bytes) n i : nth i (data ++ replicate n 0) 0 = nth i data 0.
Proof.
  destruct (decide (i < length data)%nat) as [Hi|Hi]; [by apply app_nth1|].
  rewrite app_nth2 by lia. rewrite (nth_overflow data) by lia.
  rewrite nth_lookup. destruct (replicate n 0 !! (i - length data)%nat) eqn:E; [|done].
  by apply lookup_replicate in E as [-> _].
Qed.

Lemma nth_insert (l : bytes) i v j :
  (i < length l)%nat → nth j (<[i := v]> l) 0 = if decide (j = i) then v else nth j l 0.
Proof.
  intros Hi. rewrite !nth_lookup. destruct (decide (j = i)) as [->|Hne].
  - by rewrite list_lookup_insert_eq.
  - by rewrite list_lookup_insert_ne.
Qed.

(** ** Properties *)

Section ltdb_properties.
Context {T : Type} `{TdbLaws T}.
Implicit Types (db : ctdb_db_context T) (lc : ltdb_ctx) (key data : bytes).

(** C15: a successful [ctdb_ltdb_store_server], whether it writes the record or
    decides to delete it, leaves this node the dmaster exactly when the stored
    header says so, leaves the stored data to the next fetch, and touches no
    other record. *)
Theorem store_server_correct lc vm db key h data h' db'
    (Hvm : lc_vnn_map lc = Some vm) (Hok : header_ok h)
    (E : ctdb_ltdb_store_server lc db key h data = (0, h', db')) :
  (view_dmaster vm db' key = lc_pnn lc ↔ dmaster h = lc_pnn lc)
  ∧ view_data db' key = data
  ∧ (∀ k, k ≠ key → tdb_fetch (db_ltdb db') k = tdb_fetch (db_ltdb db) k).
Proof.
  destruct (store_server_view lc vm db key h data h' db') as [Hd Hv]; [done..|].
  apply (store_server_inv _ vm) in E as (_ & _ & Ho & _); [|done]. by split_and!.
Qed.

(** the header that reaches the disk never carries the VACUUM_MIGRATED or
    AUTOMATIC flag, and its RSN is the caller's plus one (modulo 2^64) exactly
    for a record of a volatile database stored by its dmaster outside of the
    read-only protocol. *)
Theorem store_server_header lc vm db key h data h' db'
    (Hvm : lc_vnn_map lc = Some vm) (Hok : header_ok h)
    (E : ctdb_ltdb_store_server lc db key h data = (0, h', db'))
    (Hdata : data ≠ []) :
  tdb_fetch (db_ltdb db') key = header_bytes h' ++ data
  ∧ (flags h' &? CTDB_REC_FLAG_VACUUM_MIGRATED) = false
  ∧ (flags h' &? CTDB_REC_FLAG_AUTOMATIC) = false
  ∧ (flags h' &? CTDB_REC_RO_FLAGS) = (flags h &? CTDB_REC_RO_FLAGS)
  ∧ view_rsn db' key =
      if negb (db_persistent db) && (lc_pnn lc =? dmaster h)
         && negb (flags h &? CTDB_REC_RO_FLAGS)
      then u64 (rsn h + 1) else rsn h.
Proof.
  pose proof (store_keep_data lc db vm key h data Hdata) as Hk.
  pose proof E as E0. apply (store_server_inv _ vm) in E0 as (E1 & _ & _ & Hd & Hf & Hok' & _);
    [|done]. rewrite Hk in E1. specialize (E1 eq_refl). simpl in E1.
  rewrite !Hf. split_and!; [done|..].
  - rewrite has_flag_ldiff_disj by done. apply has_flag_ldiff_self.
  - apply has_flag_ldiff_self.
  - by rewrite !has_flag_ldiff_disj by done.
  - destruct (view_stored vm db' key h' data) as (_ & _ & ->); [by auto..|].
    apply (store_server_tdb _ vm) in E as (_ & _ & _ & ->); [|done..].
    unfold store_bump. by case_goal.
Qed.

(** a fetch succeeds, reports the record as this node sees it (a record
    without a header belongs to its lmaster and is empty), hands out a
    well-formed header, and changes the view of no record, even where it
    stores an initial header. *)
Theorem fetch_correct lc vm db key h0 ret h data db'
    (Hvm : lc_vnn_map lc = Some vm) (Hmap : vnn_map_ok vm) (Hdb : db_ok db)
    (E : ctdb_ltdb_fetch lc db key h0 = (ret, h, data, db')) :
  ret = 0 ∧ dmaster h = view_dmaster vm db key ∧ data = view_data db key ∧ header_ok h
  ∧ (∀ k, view_dmaster vm db' k = view_dmaster vm db k)
  ∧ (∀ k, view_data db' k = view_data db k)
  ∧ db_ok db'.
Proof. by apply (fetch_inv _ vm) in E as (? & ? & ? & ? & ? & ? & ? & _). Qed.

(** the delete queue of the main daemon after a successful store that keeps
    the record: a record with data is not queued; an empty one the node is
    dmaster of has an entry under its hash, with the header just stored unless
    another key with that hash was queued first; other hashes are untouched and
    entries stay under the hash of their key. *)
Theorem store_server_delete_queue lc vm db key h data h' db'
    (Hvm : lc_vnn_map lc = Some vm) (Hmain : lc_main_daemon lc = true)
    (Hq : delete_queue_ok db)
    (E : ctdb_ltdb_store_server lc db key h data = (0, h', db'))
    (Hkept : tdb_fetch (db_ltdb db') key ≠ []) :
  (data ≠ [] → ¬ queued db' key)
  ∧ (data = [] → db_persistent db = false → (flags h &? CTDB_REC_RO_FLAGS) = false →
     dmaster h = lc_pnn lc →
     ∃ kd, db_delete_queue db' !! ctdb_hash key = Some kd ∧ (dd_key kd = key → dd_hdr kd = h'))
  ∧ (∀ hash, hash ≠ ctdb_hash key → db_delete_queue db' !! hash = db_delete_queue db !! hash)
  ∧ delete_queue_ok db'.
Proof.
  pose proof E as E0. apply (store_server_inv _ vm) in E0 as (E1 & _); [|done].
  pose proof (store_server_queue _ _ _ _ _ _ _ _ Hvm Hmain E) as Eq.
  destruct (store_keep lc db vm key h data) as [[|] sched] eqn:Hk; [|by rewrite E1 in Hkept].
  destruct (insert_queue_spec db h' key) as (I1 & I2 & I3).
  destruct (remove_queue_spec db key) as (R1 & R2 & R3).
  assert (data ≠ [] → (store_bump lc db h data sched).1.2 = false) as Hb1.
  { intros Hd. rewrite store_keep_data in Hk by done. simplify_eq.
    unfold store_bump, dsize. destruct data; [done|]. by case_goal. }
  assert (data = [] → db_persistent db = false → (flags h &? CTDB_REC_RO_FLAGS) = false →
    dmaster h = lc_pnn lc → (store_bump lc db h data sched).1.2 = true) as Hb2.
  { intros -> Hp Hro Hd. unfold store_bump. by rewrite Hp, Hro, Hd, Z.eqb_refl. }
  split_and!.
  - intros Hd. rewrite (Hb1 Hd) in Eq. unfold queued. by rewrite Eq.
  - intros Hd Hp Hro Hm. rewrite (Hb2 Hd Hp Hro Hm) in Eq. by rewrite Eq.
  - rewrite Eq. by case_match.
  - unfold delete_queue_ok. rewrite Eq. case_match; [by apply I3|by apply R3].
Qed.

(** on a database with sequence numbers enabled, storing a record that is
    kept moves the tdb sequence number exactly when the data behind the header
    differs from what was on disk: rewriting the header alone is invisible. *)
Theorem store_server_seqnum `{!TdbSeqnum T} lc vm db key h data h' db'
    (Hvm : lc_vnn_map lc = Some vm) (Hdata : data ≠ [])
    (Hupd : db_seqnum_update db = true) (Hflag : tdb_seqnum_flag (db_ltdb db) = true)
    (E : ctdb_ltdb_store_server lc db key h data = (0, h', db')) :
  (tdb_get_seqnum (db_ltdb db') = tdb_get_seqnum (db_ltdb db)
   ↔ length (tdb_fetch (db_ltdb db) key) = (sizeof_header + length data)%nat
     ∧ drop sizeof_header (tdb_fetch (db_ltdb db) key) = data)
  ∧ tdb_seqnum_flag (db_ltdb db') = true.
Proof.
  apply (store_server_tdb _ vm) in E as (t & Et & -> & _); [|done..].
  unfold seqnum_unmodified in *. rewrite Hupd in *. cbn [andb] in *.
  unfold dsize in *. rewrite drop_header_bytes, length_app, length_header_bytes in *.
  destruct (Z.of_nat _ =? _) eqn:El; [case_bool_decide as Hd|]; cbn [andb] in *; zbool.
  - rewrite tdb_set_flag_seqnum, tdb_set_flag_flag.
    split; [|done]. split; [intros _; split; [lia|done]|intros _].
    rewrite (tdb_store_seqnum _ _ _ _ _ Et); [apply tdb_set_flag_seqnum|apply tdb_set_flag_flag].
  - split; [|by rewrite (tdb_store_flag _ _ _ _ _ Et)].
    split; [|by intros [_ ?]]. intros Hs. by destruct (tdb_store_seqnum_bump _ _ _ _ Et Hflag).
  - split; [|by rewrite (tdb_store_flag _ _ _ _ _ Et)].
    split; [|intros [? _]; lia]. intros Hs.
    by destruct (tdb_store_seqnum_bump _ _ _ _ Et Hflag).
Qed.

End ltdb_properties.

(** with a well-formed vnn map the lmaster of a key is an entry of the map:
    every key has a location master that is a node the map lists. *)
Theorem lmaster_in_map vm key (Hvm : vnn_map_ok vm) :
  ctdb_lmaster vm key ∈ vm_map vm.
Proof.
  destruct Hvm as (Hs & Hpos & _). unfold ctdb_lmaster.
  apply list_elem_of_In, nth_In.
  pose proof (Z.mod_pos_bound (ctdb_hash key) (vm_size vm) Hpos). lia.
Qed.

(** adding a node to a tracking bitmap adds exactly that node to the nodes
    the traversal calls back, whatever the length of the old bitmap. *)
Theorem trackingdb_add_traverse data pnn q (Hp : 0 <= pnn) :
  q ∈ ctdb_trackingdb_traverse (ctdb_trackingdb_add_pnn data pnn)
  ↔ q = pnn ∨ q ∈ ctdb_trackingdb_traverse data.
Proof.
  rewrite !traverse_elem. unfold ctdb_trackingdb_add_pnn.
  set (pos := Z.to_nat (pnn / 8)).
  set (data1 := if Nat.ltb _ _ then _ else _).
  assert (∀ i, nth i data1 0 = nth i data 0) as Hn.
  { intros i. subst data1. case_match; [apply nth_grow|done]. }
  assert (pos < length data1)%nat as Hl.
  { subst data1. destruct (Nat.ltb_spec (length data) (pos + 1)); [|lia].
    rewrite length_app, length_replicate. lia. }
  rewrite nth_insert by done. rewrite !Hn.
  pose proof (Z.div_mod pnn 8 ltac:(lia)). pose proof (Z.mod_pos_bound pnn 8 ltac:(lia)).
  pose proof (Z.div_mod q 8 ltac:(lia)). pose proof (Z.mod_pos_bound q 8 ltac:(lia)).
  destruct (decide (Z.to_nat (q / 8) = pos)) as [Ep|Ep]; subst pos.
  - rewrite Z.lor_spec, Ep, Z.shiftl_1_l, Z.pow2_bits_eqb, orb_true_iff, Z.eqb_eq by lia.
    split.
    + intros (Hq & [?|Hm]); [by right|]. left. lia.
    + intros [->|[? ?]]; auto.
  - split; [intros [? ?]; by right|]. intros [->|[? ?]]; [done|done].
Qed.

(** *** Witnesses: a three-node cluster seen from node 1 *)

Definition example_vm : ctdb_vnn_map := mk_vnn_map 5 3 [0; 1; 2].
Definition example_tdb : memtdb := mk_memtdb ∅ true 0.
Definition example_db : ctdb_db_context memtdb :=
  mk_db 1 false false false example_tdb example_tdb [] true true false [] ∅ ∅ 0 [] 0 0 [] [] [].
Definition example_lc : ltdb_ctx := mk_ltdb_ctx 1 (Some example_vm) true false (0, 0).
Definition example_header : ctdb_ltdb_header := mk_header 3 1 0 (2 ^ 16 + 2 ^ 17).

Lemma example_header_ok : header_ok example_header.
Proof. unfold header_ok, is_u64, is_u32, example_header. simpl. lia. Qed.

Lemma example_vm_ok : vnn_map_ok example_vm.
Proof. split_and!; [done..|]. repeat constructor; unfold is_u32; lia. Qed.

Lemma example_db_ok : db_ok example_db.
Proof. intros k. simpl. rewrite lookup_empty. constructor. Qed.

Lemma example_queue_ok : delete_queue_ok example_db.
Proof. apply map_Forall_empty. Qed.

Lemma store_server_correct_witness :
  let r := ctdb_ltdb_store_server example_lc example_db [9] example_header [7] in
  view_dmaster example_vm r.2 [9] = 1 ∧ view_data r.2 [9] = [7].
Proof.
  assert (ctdb_ltdb_store_server example_lc example_db [9] example_header [7]
    = (0, mk_header 4 1 0 (2 ^ 16),
       (ctdb_ltdb_store_server example_lc example_db [9] example_header [7]).2)) as E by (vm_compute; reflexivity).
  destruct (store_server_correct example_lc example_vm example_db [9] example_header [7]
    (mk_header 4 1 0 (2 ^ 16))
    (ctdb_ltdb_store_server example_lc example_db [9] example_header [7]).2
    eq_refl example_header_ok E) as (Hd & Hv & _).
  split; [by apply Hd|done].
Defined.

Lemma store_server_header_witness :
  let r := ctdb_ltdb_store_server example_lc example_db [9] example_header [7] in
  view_rsn r.2 [9] = 4.
Proof.
  assert (ctdb_ltdb_store_server example_lc example_db [9] example_header [7]
    = (0, mk_header 4 1 0 (2 ^ 16),
       (ctdb_ltdb_store_server example_lc example_db [9] example_header [7]).2)) as E by (vm_compute; reflexivity).
  apply (store_server_header example_lc example_vm example_db [9] example_header [7]
    (mk_header 4 1 0 (2 ^ 16))
    (ctdb_ltdb_store_server example_lc example_db [9] example_header [7]).2
    eq_refl example_header_ok E). done.
Defined.

Lemma fetch_correct_witness :
  let r := ctdb_ltdb_fetch example_lc example_db [9] zero_header in
  r.1.1.1 = 0 ∧ r.1.2 = [] ∧ db_ok r.2.
Proof.
  assert (ctdb_ltdb_fetch example_lc example_db [9] zero_header
    = ((ctdb_ltdb_fetch example_lc example_db [9] zero_header).1.1.1,
       (ctdb_ltdb_fetch example_lc example_db [9] zero_header).1.1.2,
       (ctdb_ltdb_fetch example_lc example_db [9] zero_header).1.2,
       (ctdb_ltdb_fetch example_lc example_db [9] zero_header).2)) as E by (vm_compute; reflexivity).
  destruct (fetch_correct example_lc example_vm example_db [9] zero_header
    (ctdb_ltdb_fetch example_lc example_db [9] zero_header).1.1.1
    (ctdb_ltdb_fetch example_lc example_db [9] zero_header).1.1.2
    (ctdb_ltdb_fetch example_lc example_db [9] zero_header).1.2
    (ctdb_ltdb_fetch example_lc example_db [9] zero_header).2
    eq_refl example_vm_ok example_db_ok
    E) as (Hr & _ & Hd & _ & _ & _ & Hok).
  split_and!; done.
Defined.

Lemma store_server_delete_queue_witness :
  let r := ctdb_ltdb_store_server example_lc example_db [9] (mk_header 3 1 0 (2 ^ 16)) [] in
  ∃ kd, db_delete_queue r.2 !! ctdb_hash [9] = Some kd ∧ dd_key kd = [9].
Proof.
  assert (ctdb_ltdb_store_server example_lc example_db [9] (mk_header 3 1 0 (2 ^ 16)) []
    = (0, mk_header 4 1 0 (2 ^ 16),
       (ctdb_ltdb_store_server example_lc example_db [9] (mk_header 3 1 0 (2 ^ 16)) []).2)) as E by (vm_compute; reflexivity).
  destruct (store_server_delete_queue example_lc example_vm example_db [9]
    (mk_header 3 1 0 (2 ^ 16)) [] (mk_header 4 1 0 (2 ^ 16))
    (ctdb_ltdb_store_server example_lc example_db [9] (mk_header 3 1 0 (2 ^ 16)) []).2
    eq_refl eq_refl example_queue_ok E
    ltac:(by vm_compute)) as (_ & Hq & _).
  destruct (Hq eq_refl eq_refl eq_refl eq_refl) as (kd & Hkd & _).
  exists kd. split; [done|]. vm_compute in Hkd. by injection Hkd as <-.
Defined.

Lemma store_server_seqnum_witness :
  let r := ctdb_ltdb_store_server example_lc example_db [9] example_header [7] in
  tdb_get_seqnum (db_ltdb r.2) ≠ tdb_get_seqnum (db_ltdb example_db).
Proof.
  assert (ctdb_ltdb_store_server example_lc example_db [9] example_header [7]
    = (0, mk_header 4 1 0 (2 ^ 16),
       (ctdb_ltdb_store_server example_lc example_db [9] example_header [7]).2)) as E by (vm_compute; reflexivity).
  destruct (store_server_seqnum example_lc example_vm example_db [9] example_header [7]
    (mk_header 4 1 0 (2 ^ 16))
    (ctdb_ltdb_store_server example_lc example_db [9] example_header [7]).2
    eq_refl ltac:(done) eq_refl eq_refl E) as [Hs _].
  intros r He. apply Hs in He as [He _]. vm_compute in He. discriminate He.
Defined.

Lemma lmaster_in_map_witness : ctdb_lmaster example_vm [9] ∈ [0; 1; 2].
Proof. apply (lmaster_in_map example_vm [9] example_vm_ok). Defined.

Lemma trackingdb_add_traverse_witness :
  10 ∈ ctdb_trackingdb_traverse (ctdb_trackingdb_add_pnn [5] 10).
Proof. apply (trackingdb_add_traverse [5] 10 10); [lia|by left]. Defined.
