(* ===== verification/TdbInstance.v ===== *)
(** * Tdb files as ctdb databases

    The daemon is verified against an interface of a local database
    ([TdbOps]/[TdbLaws] in Ltdb.v).  A well-formed tdb file, with the calls of the
    library as they are translated in TdbFile.v, implements it; the locks that the
    library takes may be refused at any time. *)
From S2P Require Import Prelude Jenkins TdbFile TdbLayout TdbChain TdbStore TdbAlloc TdbUpdate TdbTraverse TdbProps Protocol Ltdb.

Section instance.
Context (hash_fn : bytes → Z).
Implicit Types (m : gmap bytes bytes).

(** A file in a state that the library can leave it in. *)
Record tdb_file := mk_file {
  file_tdb : Tdb.tdb_context;
  file_ok : tdb_ok hash_fn file_tdb;
}.

Lemma ok_represents t : tdb_ok hash_fn t → ∃ m, represents hash_fn t m.
Proof. intros [(A & fl & ls & Hg) _ _ _]. eexists. by eapply good_represents. Qed.

Lemma store_keeps_ok (f : tdb_file) k v : tdb_ok hash_fn (Tdb.tdb_store hash_fn (file_tdb f) k v Tdb.TDB_REPLACE).2.
Proof.
  destruct f as [t Hok]. destruct (ok_represents t Hok) as [m Hm]. cbn [file_tdb].
  by destruct (store_call _ _ _ k v Tdb.TDB_REPLACE _ _ Hok Hm (surjective_pairing _)) as [? _].
Qed.
Lemma delete_keeps_ok (f : tdb_file) k : tdb_ok hash_fn (Tdb.tdb_delete hash_fn (file_tdb f) k).2.
Proof.
  destruct f as [t Hok]. destruct (ok_represents t Hok) as [m Hm]. cbn [file_tdb].
  by destruct (delete_call _ _ _ k _ _ Hok Hm (surjective_pairing _)) as [? _].
Qed.

Lemma flag_good t b A fl ls : good hash_fn t A fl ls → good hash_fn (Tdb.set_tdb_flag_seqnum t b) A fl ls.
Proof. intros [[? ? ?] ? ?]. by split. Qed.
Lemma flag_keeps_ok (f : tdb_file) b : tdb_ok hash_fn (Tdb.set_tdb_flag_seqnum (file_tdb f) b).
Proof.
  destruct f as [t [(A & fl & ls & Hg) Hro Hpg Hr]]. split; [|done..]. exists A, fl, ls. by apply flag_good.
Qed.

Definition result_code (ok : bool) : Z := if ok then 0 else -1.

#[global] Instance file_ops : TdbOps tdb_file := {
  tdb_fetch f k := default [] (Tdb.fetch_locked hash_fn (file_tdb f) k);
  tdb_store f k v := (mk_file _ (store_keeps_ok f k v), result_code (Tdb.tdb_store hash_fn (file_tdb f) k v Tdb.TDB_REPLACE).1);
  tdb_delete f k := (mk_file _ (delete_keeps_ok f k), result_code (Tdb.tdb_delete hash_fn (file_tdb f) k).1);
  tdb_seqnum_flag f := Tdb.tdb_flag_seqnum (file_tdb f);
  tdb_set_seqnum_flag f b := mk_file _ (flag_keeps_ok f b);
  tdb_get_seqnum f := Tdb.tdb_get_seqnum (file_tdb f);
  tdb_exists f k := Tdb.exists_locked (file_tdb f) k (Tdb.key_hash hash_fn k);
}.

(** What a store and a delete do to the map of the file. *)
Lemma file_store f k v m f' r :
  represents hash_fn (file_tdb f) m → tdb_store f k v = (f', r) →
  ∃ m', represents hash_fn (file_tdb f') m'
    ∧ (if decide (r = 0) then m' = <[k := v]> m else m' = m ∨ m' = delete k m).
Proof.
  intros Hm [= <- <-]. destruct (store_call _ _ _ k v Tdb.TDB_REPLACE _ _ (file_ok f) Hm (surjective_pairing _)) as (_ & (m' & Hm' & Hs) & _).
  exists m'. split; [exact Hm'|]. destruct (Tdb.tdb_store hash_fn (file_tdb f) k v Tdb.TDB_REPLACE) as [[] t']; [by destruct Hs|exact Hs].
Qed.
Lemma file_delete f k m f' r :
  represents hash_fn (file_tdb f) m → tdb_delete f k = (f', r) →
  ∃ m', represents hash_fn (file_tdb f') m'
    ∧ (if decide (r = 0) then m' = delete k m else m' = m ∨ m' = delete k m).
Proof.
  intros Hm [= <- <-]. destruct (delete_call _ _ _ k _ _ (file_ok f) Hm (surjective_pairing _)) as (_ & (m' & Hm' & Hs) & _).
  exists m'. split; [exact Hm'|]. destruct (Tdb.tdb_delete hash_fn (file_tdb f) k) as [[] t']; [by destruct Hs|exact Hs].
Qed.

Lemma file_fetch f m k : represents hash_fn (file_tdb f) m → tdb_fetch f k = default [] (m !! k).
Proof. intros Hm. cbn. by rewrite Hm. Qed.
Lemma file_exists f m k : represents hash_fn (file_tdb f) m → tdb_exists f k = bool_decide (is_Some (m !! k)).
Proof.
  intros Hm. pose proof (file_ok f) as [(A & fl & ls & Hg) _ _ _].
  pose proof (exists_holds _ _ _ _ _ k Hg) as He. cbn. destruct (Tdb.exists_locked _ _ _).
  - destruct He as [d Hd]. rewrite bool_decide_true; [done|]. exists d. by rewrite (represents_holds _ _ _ _ _ _ _ _ Hg Hm).
  - rewrite bool_decide_false; [done|]. intros [d Hd]. rewrite (represents_holds _ _ _ _ _ _ _ _ Hg Hm) in Hd.
    destruct Hd as [q Hq]. by apply He in Hq.
Qed.

(** The header is not written while the flag of the sequence number is off. *)
Lemma posts_seqnum t P t' : tdb_ok hash_fn t → posts hash_fn t P t' →
  Tdb.tdb_flag_seqnum t' = Tdb.tdb_flag_seqnum t
  ∧ (Tdb.tdb_flag_seqnum t = false → Tdb.tdb_get_seqnum t' = Tdb.tdb_get_seqnum t).
Proof.
  intros [(A & fl & ls & Hg) _ _ _] (Hf & Hh & _ & A' & fl' & ls' & Hg' & _). split; [by apply frame_flag|]. intros Hflag.
  rewrite (seqnum_hdr _ _ (good_repr _ _ _ _ _ Hg)), (seqnum_hdr _ _ (good_repr _ _ _ _ _ Hg')). unfold hdr_word.
  by rewrite <- (hdr_repr _ _ (good_repr _ _ _ _ _ Hg)), <- (hdr_repr _ _ (good_repr _ _ _ _ _ Hg')), Hh.
Qed.

Definition seqnum_kept (t t' : Tdb.tdb_context) : Prop :=
  Tdb.tdb_flag_seqnum t' = Tdb.tdb_flag_seqnum t
  ∧ (Tdb.tdb_flag_seqnum t = false → Tdb.tdb_get_seqnum t' = Tdb.tdb_get_seqnum t).

Lemma store_seqnum_kept t k v : tdb_ok hash_fn t → seqnum_kept t (Tdb.tdb_store hash_fn t k v Tdb.TDB_REPLACE).2.
Proof.
  intros Hok. unfold Tdb.tdb_store. rewrite (tdb_ok_rw _ _ Hok). destruct (Tdb.tdb_lock false t) as [b t1] eqn:El.
  pose proof El as El'. apply tdb_lock_inv in El as (Hf & Hm & _). destruct (lock_step _ _ _ _ _ Hok El') as [Hok1 _].
  assert (seqnum_kept t t1) as [Hk1 Hk2].
  { split; [by apply frame_flag|]. intros _. unfold Tdb.tdb_get_seqnum, Tdb.tdb_ofs_read, Tdb.tdb_read, Tdb.tdb_oob, Tdb.tdb_map_size. by rewrite Hm. }
  destruct b; cbn [negb]; [|done]. destruct (Tdb._tdb_store _ _ _ _ _ _) as [ok t'] eqn:E.
  pose proof Hok1 as [(A & fl & ls & Hg) Hro Hpg _]. eapply store_hash_ok in E as [Hp _]; [|done..].
  destruct (posts_seqnum _ _ _ Hok1 Hp) as [H1 H2]. cbn [snd]. split; [by rewrite H1|]. intros Hfl. rewrite H2 by congruence. auto.
Qed.
Lemma delete_seqnum_kept t k : tdb_ok hash_fn t → seqnum_kept t (Tdb.tdb_delete hash_fn t k).2.
Proof.
  intros Hok. destruct (Tdb.tdb_delete hash_fn t k) as [ok t'] eqn:E. pose proof Hok as [(A & fl & ls & Hg) Hro _ _].
  eapply delete_hash_entries in E as (Hp & _); [|done..].
  destruct Hp as [Hp|(_ & _ & Hp)]; exact (posts_seqnum _ _ _ Hok Hp).
Qed.

Lemma flag_represents f b m : represents hash_fn (file_tdb f) m → represents hash_fn (file_tdb (tdb_set_seqnum_flag f b)) m.
Proof.
  intros Hm. pose proof (file_ok f) as [(A & fl & ls & Hg) _ _ _].
  apply (represents_intro _ _ _ _ _ _ (flag_good _ b _ _ _ Hg)). intros k d. by rewrite (represents_holds _ _ _ _ _ _ _ _ Hg Hm).
Qed.

(** A call at key [k], seen from the maps: it puts [w] there when it succeeds,
    and otherwise does nothing or removes the key. *)
Definition file_step (k : bytes) (w : option bytes) (f f' : tdb_file) (r : Z) : Prop :=
  ∃ m m', represents hash_fn (file_tdb f) m ∧ represents hash_fn (file_tdb f') m'
    ∧ (∀ k', k' ≠ k → m' !! k' = m !! k')
    ∧ (r = 0 → m' !! k = w) ∧ (r ≠ 0 → m' !! k = m !! k ∨ m' !! k = None).

Lemma store_step f k v f' r : tdb_store f k v = (f', r) → file_step k (Some v) f f' r.
Proof.
  intros E. destruct (ok_represents _ (file_ok f)) as [m Hm]. destruct (file_store _ _ _ _ _ _ Hm E) as (m' & Hm' & Hs).
  exists m, m'. split; [done|]. split; [done|]. destruct (decide (r = 0)) as [->|].
  - subst m'. split; [intros; by apply lookup_insert_ne|]. split; [intros _; apply lookup_insert_eq|done].
  - split; [|split; [done|intros _]]; destruct Hs as [->| ->]; [done|intros; by apply lookup_delete_ne|by left|right; apply lookup_delete_eq].
Qed.
Lemma delete_step f k f' r : tdb_delete f k = (f', r) → file_step k None f f' r.
Proof.
  intros E. destruct (ok_represents _ (file_ok f)) as [m Hm]. destruct (file_delete _ _ _ _ _ Hm E) as (m' & Hm' & Hs).
  exists m, m'. split; [done|]. split; [done|].
  assert (m' = delete k m ∨ (r ≠ 0 ∧ m' = m)) as [->|[Hr ->]].
  { destruct (decide (r = 0)); [by left|]. destruct Hs as [->| ->]; [by right|by left]. }
  2:{ split; [done|]. split; [done|by left]. }
  split; [intros; by apply lookup_delete_ne|]. split; [intros _; apply lookup_delete_eq|right; apply lookup_delete_eq].
Qed.

Lemma step_fetch k w f f' r : file_step k w f f' r →
  (∀ k', k' ≠ k → tdb_fetch f' k' = tdb_fetch f k') ∧ (r = 0 → tdb_fetch f' k = default [] w)
  ∧ (r ≠ 0 → tdb_fetch f' k = tdb_fetch f k ∨ tdb_fetch f' k = []).
Proof.
  intros (m & m' & Hm & Hm' & Ho & Hk & Hf).
  split; [intros k' Hk'; by rewrite (file_fetch _ _ _ Hm'), (file_fetch _ _ _ Hm), Ho|].
  split; [intros Hr; by rewrite (file_fetch _ _ _ Hm'), Hk|]. intros [Hr|Hr]%Hf; rewrite (file_fetch _ _ _ Hm'), Hr; [left|by right].
  by rewrite (file_fetch _ _ _ Hm).
Qed.
Lemma step_exists k w f f' r : file_step k w f f' r →
  (∀ k', k' ≠ k → tdb_exists f' k' = tdb_exists f k') ∧ (r = 0 → tdb_exists f' k = bool_decide (is_Some w)).
Proof.
  intros (m & m' & Hm & Hm' & Ho & Hk & _).
  split; [intros k' Hk'; by rewrite (file_exists _ _ _ Hm'), (file_exists _ _ _ Hm), Ho|].
  intros Hr. by rewrite (file_exists _ _ _ Hm'), Hk.
Qed.

#[global] Instance file_laws : TdbLaws tdb_file.
Proof.
  split.
  - intros f k v f' E%store_step%step_fetch. by apply E.
  - intros f k v f' r k' E%store_step%step_fetch Hk. by apply E.
  - intros f k v f' r E%store_step%step_fetch Hr. by apply E.
  - intros f k f' E%delete_step%step_fetch. by apply E.
  - intros f k f' r E%delete_step%step_fetch Hr. by apply E.
  - intros f k f' r k' E%delete_step%step_fetch Hk. by apply E.
  - intros f b k. destruct (ok_represents _ (file_ok f)) as [m Hm].
    by rewrite (file_fetch _ _ _ Hm), (file_fetch _ _ _ (flag_represents _ b _ Hm)).
  - done.
  - done.
  - intros f k v f' r [= <- _]. by apply store_seqnum_kept, file_ok.
  - intros f k f' r [= <- _]. by apply delete_seqnum_kept, file_ok.
  - intros f k v f' r [= <- _]. by apply store_seqnum_kept, file_ok.
  - intros f k f' r [= <- _]. by apply delete_seqnum_kept, file_ok.
  - intros f k. destruct (ok_represents _ (file_ok f)) as [m Hm]. rewrite (file_exists _ _ _ Hm), (file_fetch _ _ _ Hm).
    intros ?%bool_decide_eq_false. by rewrite (proj2 (eq_None_not_Some (m !! k))) by done.
  - intros f k v f' E%store_step%step_exists. by rewrite (proj2 E).
  - intros f k v f' r k' E%store_step%step_exists Hk. by apply E.
  - intros f k f' E%delete_step%step_exists. by rewrite (proj2 E).
  - intros f k f' r k' E%delete_step%step_exists Hk. by apply E.
  - intros f b k. destruct (ok_represents _ (file_ok f)) as [m Hm].
    by rewrite (file_exists _ _ _ Hm), (file_exists _ _ _ (flag_represents _ b _ Hm)).
Qed.
End instance.

(** ** The store of the daemon, on a tdb file *)

(** C13: the server-side store on a database in a tdb file: when it reports success
    the file holds the record with its new header (or no longer the key, where
    the record is to be deleted) and all other records as before; when it fails
    the key at most lost its record.  With no lock refused, a record that is to be
    kept is stored unless the file would outgrow 4 GiB. *)
Theorem store_server_on_file hash_fn lc vm (db : ctdb_db_context (tdb_file hash_fn)) key h data m ret h' db'
    (Hvm : lc_vnn_map lc = Some vm) (Hm : represents hash_fn (file_tdb _ (db_ltdb db)) m)
    (E : ctdb_ltdb_store_server lc db key h data = (ret, h', db')) :
  let keep := (store_keep lc db vm key h data).1 in
  ∃ m', represents hash_fn (file_tdb _ (db_ltdb db')) m'
  ∧ (ret = 0 → m' = if keep then <[key := header_bytes h' ++ data]> m else delete key m)
  ∧ (ret ≠ 0 → m' = m ∨ m' = delete key m)
  ∧ (keep = true → Tdb.tdb_env (file_tdb _ (db_ltdb db)) = [] →
     ret = 0 ∨ Tdb.tdb_overflow (file_tdb _ (db_ltdb db')) = true).
Proof.
  intros keep. apply (store_server_run _ vm) in E as (t & q & c & Et & -> & _); [|done]. fold keep in Et.
  set (sup := seqnum_unmodified _ _ _) in *. set (f0 := if sup then tdb_set_seqnum_flag (db_ltdb db) false else db_ltdb db) in Et.
  assert (represents hash_fn (file_tdb _ f0) m) as Hm0 by (subst f0; destruct sup; [by apply flag_represents|done]).
  assert (Tdb.tdb_env (file_tdb _ f0) = Tdb.tdb_env (file_tdb _ (db_ltdb db))) as He by (by subst f0; destruct sup).
  set (f1 := db_ltdb _). assert (∀ m', represents hash_fn (file_tdb _ t) m' → represents hash_fn (file_tdb _ f1) m') as H1.
  { intros m' ?. subst f1. cbn. destruct sup; [by apply flag_represents|done]. }
  assert (Tdb.tdb_overflow (file_tdb _ f1) = Tdb.tdb_overflow (file_tdb _ t)) as Ho by (subst f1; cbn; by destruct sup).
  clearbody f0 f1 sup. rewrite <- He, Ho. clear He Ho. destruct keep.
  - destruct (file_store _ _ _ _ _ _ _ Hm0 Et) as (m' & Hm' & Hs). exists m'. split; [by apply H1|].
    destruct (decide (ret = 0)) as [|Hr]; (split; [done|]); (split; [done|]); intros _ Henv; [by left|].
    assert (t = (tdb_store f0 key (header_bytes h' ++ data)).1 ∧ ret = (tdb_store f0 key (header_bytes h' ++ data)).2) as [-> ->] by (by rewrite Et). right.
    destruct (store_call _ _ _ key (header_bytes h' ++ data) Tdb.TDB_REPLACE _ _ (file_ok _ f0) Hm0 (surjective_pairing _)) as (_ & _ & Hg).
    destruct (Hg Henv eq_refl) as [Hok|Hov]; [|exact Hov]. destruct Hr. cbn. by rewrite Hok.
  - destruct (file_delete _ _ _ _ _ _ Hm0 Et) as (m' & Hm' & Hs). exists m'. split; [by apply H1|].
    by destruct (decide (ret = 0)).
Qed.

(** *** Witness: node 1 stores a record into a file that holds another one *)

Definition file_one : tdb_file Tdb.tdb_old_hash := mk_file _ example_one (proj1 example_one_ok).
Definition file_db : ctdb_db_context (tdb_file Tdb.tdb_old_hash) :=
  mk_db 1 false false false file_one file_one [] true true false [] ∅ ∅ 0 [] 0 0 [] [] [].

Lemma store_server_on_file_witness :
  let r := ctdb_ltdb_store_server example_lc file_db [9] example_header [7] in
  represents Tdb.tdb_old_hash (file_tdb _ (db_ltdb r.2))
    {[ [9] := header_bytes (mk_header 4 1 0 (2 ^ 16)) ++ [7]; [1] := [5; 6] ]}.
Proof.
  cbv zeta. set (r := ctdb_ltdb_store_server example_lc file_db [9] example_header [7]).
  assert (r = (r.1.1, r.1.2, r.2)) as Er by (by destruct r as [[]]).
  assert (r.1.1 = 0) as Hret by (vm_compute; reflexivity).
  assert (r.1.2 = mk_header 4 1 0 (2 ^ 16)) as Hh by (vm_compute; reflexivity).
  destruct (store_server_on_file Tdb.tdb_old_hash example_lc example_vm file_db [9] example_header [7] _ _ _ _
    eq_refl (proj2 example_one_ok) Er) as (m' & Hm' & Hs & _).
  rewrite Hh in Hs. rewrite (Hs Hret) in Hm'. exact Hm'.
Defined.
