(* ===== verification/LockSched.v ===== *)
(** * The lock processes of a daemon

    [server/ctdb_lock.c] and [server/ctdb_lock_helper.c]: the daemon does not wait
    for locks itself.  Requests for the same lock share a context; contexts wait in
    [lock_pending] until a child process is started for them, at most
    [MAX_LOCK_PROCESSES_PER_DB] at a time and one for each lock, and then are in
    [lock_current] until they are freed.  The child reports through a pipe.

    Contexts and requests are numbers (their addresses); what talloc frees with a
    context, and its destructor, are written out.  The answer of [fork] (with the
    pipe and the events that are set up with it) is a parameter: the process id,
    or a failure.  Callbacks may ask for further locks and may free their own request
    with its context, as that of a freeze does.  The locks that the children take
    are those of [TdbLock.v].  The statistics of single databases, the
    latencies and the timer that reports long waits are left out. *)
From Stdlib Require Import String.
From S2P Require Import Prelude.
Local Open Scope list_scope.

Module LockSched.

Definition MAX_LOCK_PROCESSES_PER_DB : Z := 100.
Definition NUM_DB_PRIORITIES : Z := 3.

Inductive lock_type := LOCK_RECORD | LOCK_DB | LOCK_ALLDB_PRIO | LOCK_ALLDB.
#[export] Instance lock_type_eq_dec : EqDecision lock_type.
Proof. solve_decision. Defined.

(** ** Databases *)

Record db_context := mk_db { db_id : Z; db_name : string; db_path : string; db_priority : Z }.
Implicit Types (d : db_context).

Definition strstr (name sub : string) : bool := bool_decide (is_Some (String.index 0 sub name)).
Definition later_db (samba3_hack : Z) (name : string) : bool :=
  if samba3_hack =? 0 then false
  else strstr name "brlock" || strstr name "g_lock" || strstr name "notify_onelevel" || strstr name "serverid" || strstr name "xattr_tdb".

(** A handler gets what it works on and returns it with a result. *)
Section iterator.
Context {S : Type} (samba3_hack : Z) (handler : db_context → Z → S → Z * S).
Fixpoint iterate (skip : db_context → bool) (dbs : list db_context) (priority : Z) (x : S) : Z * S :=
  match dbs with
  | [] => (0, x)
  | d :: dbs =>
      if skip d then iterate skip dbs priority x
      else let '(ret, x) := handler d priority x in
           if negb (ret =? 0) then (-1, x) else iterate skip dbs priority x
  end.
Definition ctdb_db_iterator (dbs : list db_context) (priority : Z) (x : S) : Z * S :=
  let '(ret, x) := iterate (λ d, negb (db_priority d =? priority) || later_db samba3_hack (db_name d)) dbs priority x in
  if negb (ret =? 0) then (-1, x)
  else if negb (priority =? 1) then (0, x)
  else iterate (λ d, negb (later_db samba3_hack (db_name d))) dbs priority x.
Fixpoint iterate_priorities (dbs : list db_context) (priorities : list Z) (x : S) : Z * S :=
  match priorities with
  | [] => (0, x)
  | p :: ps =>
      let '(ret, x) := ctdb_db_iterator dbs p x in
      if negb (ret =? 0) then (-1, x) else iterate_priorities dbs ps x
  end.
End iterator.

(** A database has a mark for its transaction lock and one for the lock on all
    records; [refused] says which calls of tdb fail. *)
Inductive mark := TransactionMark (db : Z) | LockallMark (db : Z).
#[export] Instance mark_eq_dec : EqDecision mark.
Proof. solve_decision. Defined.
Section mark.
Context (samba3_hack : Z) (dbs : list db_context) (refused : mark → bool).
Definition db_lock_mark_handler d (priority : Z) (marked : list mark) : Z * list mark :=
  if refused (TransactionMark (db_id d)) then (-1, marked)
  else
    let marked := marked ++ [TransactionMark (db_id d)] in
    if refused (LockallMark (db_id d)) then (-1, marked) else (0, marked ++ [LockallMark (db_id d)]).
Definition ctdb_lockall_mark_prio (frozen : Z → bool) (priority : Z) (marked : list mark) : Z * list mark :=
  if negb (frozen priority) then (-1, marked) else ctdb_db_iterator samba3_hack db_lock_mark_handler dbs priority marked.
Definition ctdb_lockall_mark (marked : list mark) : Z * list mark := iterate_priorities samba3_hack db_lock_mark_handler dbs [1; 2; 3] marked.
Definition db_lock_unmark_handler d (priority : Z) (marked : list mark) : Z * list mark :=
  if refused (TransactionMark (db_id d)) then (-1, marked)
  else
    let marked := filter (λ m, m ≠ TransactionMark (db_id d)) marked in
    if refused (LockallMark (db_id d)) then (-1, marked) else (0, filter (λ m, m ≠ LockallMark (db_id d)) marked).
Definition ctdb_lockall_unmark_prio (frozen : Z → bool) (priority : Z) (marked : list mark) : Z * list mark :=
  if negb (frozen priority) then (-1, marked) else ctdb_db_iterator samba3_hack db_lock_unmark_handler dbs priority marked.
(** The loop runs down from 3; an unsigned number is never negative, so it runs on
    after 0 with 2^32 - 1: it ends only when a handler fails. *)
Fixpoint lockall_unmark_loop (fuel : nat) (priority : Z) (marked : list mark) : option (Z * list mark) :=
  match fuel with
  | O => None
  | S fuel =>
      let '(ret, marked) := ctdb_db_iterator samba3_hack db_lock_unmark_handler dbs priority marked in
      if negb (ret =? 0) then Some (-1, marked) else lockall_unmark_loop fuel (u32 (priority - 1)) marked
  end.
Definition ctdb_lockall_unmark (fuel : nat) (marked : list mark) : option (Z * list mark) := lockall_unmark_loop fuel NUM_DB_PRIORITIES marked.
End mark.

(** ** Contexts and requests *)

Record lock_context := mk_lctx {
  lx_id : Z;
  lx_type : lock_type;
  lx_db : option db_context;
  lx_key : list Z;
  lx_priority : Z;
  lx_auto_mark : bool;
  lx_req_queue : list Z;
  lx_child : Z;
  lx_destructor : bool;
}.
Implicit Types (x : lock_context).
Definition set_queue x (q : list Z) : lock_context :=
  mk_lctx (lx_id x) (lx_type x) (lx_db x) (lx_key x) (lx_priority x) (lx_auto_mark x) q (lx_child x) (lx_destructor x).
Definition set_child x (pid : Z) (destructor : bool) : lock_context :=
  mk_lctx (lx_id x) (lx_type x) (lx_db x) (lx_key x) (lx_priority x) (lx_auto_mark x) (lx_req_queue x) pid destructor.

Inductive event :=
| Kill (pid : Z)
| Mark (x : lock_context)
| Unmark (x : lock_context)
| Callback (req : Z) (locked : bool).
Record lock_state := mk_ls {
  lock_current : list lock_context;
  lock_pending : list lock_context;
  lock_num_current : Z;
  lock_num_pending : Z;
  stat_num_pending : Z;
  stat_num_current : Z;
  stat_num_calls : Z;
  stat_num_failed : Z;
  freed : list Z;
  next_address : Z;
  log : list event;
}.
Implicit Types (s : lock_state).
Definition set_pending s (l : list lock_context) (n stat : Z) : lock_state :=
  mk_ls (lock_current s) l (lock_num_current s) n stat (stat_num_current s) (stat_num_calls s) (stat_num_failed s) (freed s) (next_address s) (log s).
Definition set_current s (l : list lock_context) (n stat : Z) : lock_state :=
  mk_ls l (lock_pending s) n (lock_num_pending s) (stat_num_pending s) stat (stat_num_calls s) (stat_num_failed s) (freed s) (next_address s) (log s).
Definition set_stats s (pending current calls failed : Z) : lock_state :=
  mk_ls (lock_current s) (lock_pending s) (lock_num_current s) (lock_num_pending s) pending current calls failed (freed s) (next_address s) (log s).
Definition set_freed s (l : list Z) : lock_state :=
  mk_ls (lock_current s) (lock_pending s) (lock_num_current s) (lock_num_pending s) (stat_num_pending s) (stat_num_current s) (stat_num_calls s) (stat_num_failed s) l (next_address s) (log s).
Definition set_next s (n : Z) : lock_state :=
  mk_ls (lock_current s) (lock_pending s) (lock_num_current s) (lock_num_pending s) (stat_num_pending s) (stat_num_current s) (stat_num_calls s) (stat_num_failed s) (freed s) n (log s).
Definition add_log s (e : event) : lock_state :=
  mk_ls (lock_current s) (lock_pending s) (lock_num_current s) (lock_num_pending s) (stat_num_pending s) (stat_num_current s) (stat_num_calls s) (stat_num_failed s) (freed s) (next_address s) (log s ++ [e]).

(** [CTDB_DECREMENT_STAT], [k] times. *)
Definition dec_stat (n k : Z) : Z := Z.max 0 (n - k).

(** A context by its address. *)
Definition remove_context (id : Z) (l : list lock_context) : list lock_context := filter (λ x, lx_id x ≠ id) l.

Definition same_lock (db : option db_context) (key : list Z) (priority : Z) (type : lock_type) x : bool :=
  bool_decide (lx_type x = type) &&
  match type with
  | LOCK_RECORD => bool_decide (db_id <$> db = db_id <$> lx_db x) && bool_decide (key = lx_key x)
  | LOCK_DB => bool_decide (db_id <$> db = db_id <$> lx_db x)
  | LOCK_ALLDB_PRIO => priority =? lx_priority x
  | LOCK_ALLDB => true
  end.
Fixpoint find_lock_context (l : list lock_context) (db : option db_context) (key : list Z) (priority : Z) (type : lock_type) : option lock_context :=
  match l with
  | [] => None
  | x :: l => if same_lock db key priority type x then Some x else find_lock_context l db key priority type
  end.

(** ** The helper process *)

Inductive helper_args :=
| HelperRecord (path : string) (key : option (list Z))
| HelperDb (paths : list string).
Definition db_name_handler d (priority : Z) (names : list string) : Z * list string := (0, names ++ [db_path d]).
Definition lock_helper_args (samba3_hack : Z) (dbs : list db_context) x : helper_args :=
  let path := default EmptyString (db_path <$> lx_db x) in
  match lx_type x with
  | LOCK_RECORD => HelperRecord path (if bool_decide (lx_key x = []) then None else Some (lx_key x))
  | LOCK_DB => HelperDb [path]
  | LOCK_ALLDB_PRIO => HelperDb (ctdb_db_iterator samba3_hack db_name_handler dbs (lx_priority x) []).2
  | LOCK_ALLDB => HelperDb (iterate_priorities samba3_hack db_name_handler dbs [1; 2] []).2
  end.

(** [chainlock] and [lockall]: the file is opened and [tdb_chainlock] or
    [tdb_lockall] succeeds. *)
Section helper.
Context (chainlock : string → option (list Z) → bool) (lockall : string → bool).
Definition lock_record (path : string) (key : option (list Z)) : Z := if chainlock path key then 0 else 1.
Definition lock_db (path : string) : Z := if lockall path then 0 else 1.
Fixpoint lock_dbs (paths : list string) : Z :=
  match paths with
  | [] => 0
  | path :: paths => let result := lock_db path in if negb (result =? 0) then result else lock_dbs paths
  end.
Definition helper_main (args : helper_args) : Z :=
  match args with
  | HelperRecord path key => lock_record path key
  | HelperDb paths => lock_dbs paths
  end.
End helper.

(** ** Scheduling *)

Section sched.
Context (fork : Z → Z).

(** The contexts up to the first one that can be scheduled, without those that
    have no requests: what stays, what was removed, and the one found. *)
Fixpoint find_schedulable (current l : list lock_context) : list lock_context * list Z * option lock_context :=
  match l with
  | [] => ([], [], None)
  | x :: l =>
      if bool_decide (lx_req_queue x = []) then
        let '(kept, removed, found) := find_schedulable current l in (kept, lx_id x :: removed, found)
      else match find_lock_context current (lx_db x) (lx_key x) (lx_priority x) (lx_type x) with
      | None => (x :: l, [], Some x)
      | Some _ => let '(kept, removed, found) := find_schedulable current l in (x :: kept, removed, found)
      end
  end.

Definition ctdb_lock_schedule s : lock_state :=
  if MAX_LOCK_PROCESSES_PER_DB <=? lock_num_current s then s
  else
    let '(kept, removed, found) := find_schedulable (lock_current s) (lock_pending s) in
    let n := Z.of_nat (length removed) in
    let s := set_freed (set_pending s kept (lock_num_pending s - n) (dec_stat (stat_num_pending s) n)) (freed s ++ removed) in
    match found with
    | None => s
    | Some x =>
        let pid := fork (lx_id x) in
        if pid <=? 0 then s
        else
          let s := set_pending s (remove_context (lx_id x) (lock_pending s)) (lock_num_pending s - 1) (stat_num_pending s) in
          set_current s (lock_current s ++ [set_child x pid true]) (lock_num_current s + 1) (stat_num_current s)
    end.

Definition ctdb_lock_context_destructor s x : lock_state :=
  let s :=
    if 0 <? lx_child x then
      let s := add_log s (Kill (lx_child x)) in
      set_current s (remove_context (lx_id x) (lock_current s)) (lock_num_current s - 1) (dec_stat (stat_num_current s) 1)
    else set_pending s (remove_context (lx_id x) (lock_pending s)) (lock_num_pending s - 1) (dec_stat (stat_num_pending s) 1) in
  ctdb_lock_schedule s.
Definition free_context s x : lock_state :=
  let s := set_freed s (freed s ++ [lx_id x]) in
  if lx_destructor x then ctdb_lock_context_destructor s x else s.

Definition drop_request (req : Z) x : lock_context := set_queue x (filter (λ r, r ≠ req) (lx_req_queue x)).
Definition ctdb_lock_request_destructor s (req : Z) : lock_state :=
  let s := set_pending s (drop_request req <$> lock_pending s) (lock_num_pending s) (stat_num_pending s) in
  set_current s (drop_request req <$> lock_current s) (lock_num_current s) (stat_num_current s).

Definition context_of s (req : Z) : option lock_context :=
  snd <$> list_find (λ x, req ∈ lx_req_queue x) (lock_current s ++ lock_pending s).
Definition ctdb_lock_free_request_context s (req : Z) : lock_state :=
  match context_of s req with
  | None => s
  | Some x => free_context (ctdb_lock_request_destructor s req) (drop_request req x)
  end.

Definition add_request (id req : Z) x : lock_context := if lx_id x =? id then set_queue x (lx_req_queue x ++ [req]) else x.
Definition ctdb_lock_internal s (db : option db_context) (key : list Z) (priority : Z) (callback : bool) (type : lock_type) (auto_mark : bool)
    : lock_state * option Z :=
  if negb callback then (s, None)
  else
    let '(s, id) :=
      match find_lock_context (lock_pending s) db key priority type with
      | Some x => (s, lx_id x)
      | None =>
          let id := next_address s in
          let x := mk_lctx id type db key priority auto_mark [] (-1) false in
          (set_next (set_pending s (lock_pending s ++ [x]) (lock_num_pending s + 1) (stat_num_pending s + 1)) (id + 1), id)
      end in
    let req := next_address s in
    let s := set_next (set_pending s (add_request id req <$> lock_pending s) (lock_num_pending s) (stat_num_pending s)) (req + 1) in
    (ctdb_lock_schedule s, Some req).

Definition ctdb_lock_record s d (key : list Z) (auto_mark callback : bool) := ctdb_lock_internal s (Some d) key 0 callback LOCK_RECORD auto_mark.
Definition ctdb_lock_db s d (auto_mark callback : bool) := ctdb_lock_internal s (Some d) [] 0 callback LOCK_DB auto_mark.
Definition ctdb_lock_alldb_prio s (priority : Z) (auto_mark callback : bool) :=
  if NUM_DB_PRIORITIES <? priority then (s, None) else ctdb_lock_internal s None [] priority callback LOCK_ALLDB_PRIO auto_mark.
Definition ctdb_lock_alldb s (auto_mark callback : bool) := ctdb_lock_internal s None [] 0 callback LOCK_ALLDB auto_mark.

(** ** Reports of the children *)

(** What the callback of a request asks for, and whether it then frees the request
    with its context ([ctdb_freeze_lock_handler], when it did not get the locks or is
    called again). *)
Record lock_spec := mk_spec { sp_db : option db_context; sp_key : list Z; sp_priority : Z; sp_type : lock_type; sp_auto_mark : bool }.
Definition request_spec s (a : lock_spec) : lock_state := (ctdb_lock_internal s (sp_db a) (sp_key a) (sp_priority a) true (sp_type a) (sp_auto_mark a)).1.
Section handler.
Context (callback : Z → list lock_spec * bool).

Fixpoint run_callbacks s (locked : bool) (queue : list Z) : lock_state :=
  match queue with
  | [] => s
  | req :: queue =>
      let '(asks, release) := callback req in
      let s := foldl request_spec (add_log s (Callback req locked)) asks in
      run_callbacks (if release then ctdb_lock_free_request_context s req else s) locked queue
  end.
Definition process_callbacks s x (locked : bool) : lock_state :=
  let s := if lx_auto_mark x && locked then add_log s (Mark x) else s in
  let s := run_callbacks s locked (lx_req_queue x) in
  if lx_auto_mark x && locked then add_log s (Unmark x) else s.

(** [c]: the byte read from the pipe; when the child died before it wrote one, it
    is whatever the variable had. *)
Definition ctdb_lock_handler s (id c : Z) : lock_state :=
  match list_find (λ x, lx_id x = id) (lock_current s) with
  | None => s
  | Some (_, x) =>
      let locked := c =? 0 in
      let has_db := bool_decide (is_Some (lx_db x)) in
      let s := set_stats s (dec_stat (stat_num_pending s) 1) (if locked && has_db then stat_num_current s + 1 else stat_num_current s)
                 (stat_num_calls s + 1) (if locked then stat_num_failed s else stat_num_failed s + 1) in
      let s := process_callbacks s x locked in
      if lx_auto_mark x then free_context s x else s
  end.
End handler.
End sched.

Definition lock_init : lock_state := mk_ls [] [] 0 0 0 0 0 0 [] 1 [].
End LockSched.
