(* ===== verification/LockSchedProps.v ===== *)
(** * The scheduling of lock processes

    The lists and counters agree, a lock has at most one child and one waiting
    context, no slot is idle while a request could be served, and when the children
    report every request gets its callback exactly once. *)
From Stdlib Require Import String.
From S2P Require Import Prelude LockSched.
Import LockSched.
Local Open Scope list_scope.

Implicit Types (x y : lock_context) (s : lock_state) (l cur pend : list lock_context).

(** ** Locks *)

(** What a context locks. *)
Definition lock_target : Type := lock_type * option Z * list Z * Z.
Definition target (db : option db_context) (key : list Z) (priority : Z) (type : lock_type) : lock_target :=
  match type with
  | LOCK_RECORD => (type, db_id <$> db, key, 0)
  | LOCK_DB => (type, db_id <$> db, [], 0)
  | LOCK_ALLDB_PRIO => (type, None, [], priority)
  | LOCK_ALLDB => (type, None, [], 0)
  end.
Definition target_of x : lock_target := target (lx_db x) (lx_key x) (lx_priority x) (lx_type x).

Lemma same_lock_target db key priority type x : same_lock db key priority type x = true ↔ target_of x = target db key priority type.
Proof.
  unfold same_lock, target_of. destruct (bool_decide_reflect (lx_type x = type)) as [->|Hne]; cbn [andb].
  - destruct type; cbn [target]; rewrite ?andb_true_iff, ?bool_decide_eq_true, ?Z.eqb_eq.
    + split; [intros [-> ->]; done|intros [= -> ->]; done].
    + split; [intros ->; done|intros [= ->]; done].
    + split; [intros ->; done|intros [= ->]; done].
    + done.
  - split; [done|]. intros E. exfalso. apply Hne. destruct (lx_type x), type; cbn [target] in E; congruence.
Qed.
Lemma find_ctx_none l db key priority type : find_lock_context l db key priority type = None ↔ ∀ x, x ∈ l → target_of x ≠ target db key priority type.
Proof.
  induction l as [|x l IH]; cbn [find_lock_context]; [split; [intros _ x Hx; by apply elem_of_nil in Hx|done]|].
  destruct (same_lock db key priority type x) eqn:E.
  - split; [done|]. intros H. exfalso. apply (H x); [by left|by apply same_lock_target].
  - rewrite IH. split; [|intros H y Hy; apply H; by right]. intros H y [->|Hy]%elem_of_cons; [|by apply H]. intros Ht%same_lock_target. congruence.
Qed.
Lemma find_ctx_some l db key priority type x : find_lock_context l db key priority type = Some x → x ∈ l ∧ target_of x = target db key priority type.
Proof.
  induction l as [|y l IH]; cbn [find_lock_context]; [done|]. destruct (same_lock _ _ _ _ y) eqn:E.
  - intros [= ->]. split; [by left|by apply same_lock_target].
  - intros H. destruct (IH H). split; [by right|done].
Qed.

(** ** The invariant *)

Definition requests l : list Z := concat (lx_req_queue <$> l).
Record lists_ok cur pend (next : Z) (fr : list Z) : Prop := {
  lo_ids : NoDup (lx_id <$> cur ++ pend);
  lo_fresh : ∀ x, x ∈ cur ++ pend → lx_id x < next ∧ lx_id x ∉ fr;
  lo_current : NoDup (target_of <$> cur);
  lo_pending : NoDup (target_of <$> pend);
  lo_children : ∀ x, x ∈ cur → 0 < lx_child x ∧ lx_destructor x = true;
  lo_waiting : ∀ x, x ∈ pend → lx_child x = -1 ∧ lx_destructor x = false;
  lo_requests : NoDup (requests (cur ++ pend));
  lo_old : ∀ r, r ∈ requests (cur ++ pend) → r < next;
  lo_freed : ∀ i, i ∈ fr → i < next;
}.
Record lock_ok s : Prop := {
  ok_lists : lists_ok (lock_current s) (lock_pending s) (next_address s) (freed s);
  ok_num_current : lock_num_current s = Z.of_nat (length (lock_current s));
  ok_num_pending : lock_num_pending s = Z.of_nat (length (lock_pending s));
  ok_max : lock_num_current s <= MAX_LOCK_PROCESSES_PER_DB;
}.
(** A waiting context that could get a child. *)
Definition ready cur x : Prop := lx_req_queue x ≠ [] ∧ ∀ y, y ∈ cur → target_of y ≠ target_of x.
Definition busy s : Prop := lock_num_current s < MAX_LOCK_PROCESSES_PER_DB → ∀ x, x ∈ lock_pending s → ¬ ready (lock_current s) x.
Definition almost_busy s : Prop :=
  lock_num_current s < MAX_LOCK_PROCESSES_PER_DB - 1 → ∀ x y, x ∈ lock_pending s → y ∈ lock_pending s → ready (lock_current s) x → ready (lock_current s) y → x = y.

Lemma requests_perm l l' : l ≡ₚ l' → requests l ≡ₚ requests l'.
Proof. unfold requests. intros H. induction H as [|x l l' H IH|x y l|l l' l'' H IH H' IH']; cbn; [done|by rewrite IH|by rewrite !app_assoc, (Permutation_app_comm (lx_req_queue y))|by transitivity (concat (lx_req_queue <$> l'))]. Qed.
Lemma requests_app l l' : requests (l ++ l') = requests l ++ requests l'.
Proof. unfold requests. by rewrite fmap_app, concat_app. Qed.
Lemma lists_ok_perm cur cur' pend pend' next fr : cur ≡ₚ cur' → pend ≡ₚ pend' → lists_ok cur pend next fr → lists_ok cur' pend' next fr.
Proof.
  intros Hc Hp [H1 H2 H3 H4 H5 H6 H7 H8 H9]. assert (cur ++ pend ≡ₚ cur' ++ pend') as Hcp by (by rewrite Hc, Hp).
  constructor; try done; [by rewrite <- Hcp|intros x; rewrite <- Hcp; apply H2|by rewrite <- Hc|by rewrite <- Hp|intros x; rewrite <- Hc; apply H5|intros x; rewrite <- Hp; apply H6| |].
  - by rewrite <- (requests_perm _ _ Hcp).
  - intros r. rewrite <- (requests_perm _ _ Hcp). apply H8.
Qed.
Lemma remove_context_perm x l : NoDup (lx_id <$> l) → x ∈ l → l ≡ₚ x :: remove_context (lx_id x) l.
Proof.
  intros Hnd Hx. apply list_elem_of_split in Hx as (l1 & l2 & ->). rewrite fmap_app in Hnd. cbn in Hnd. apply NoDup_app in Hnd as (Hnd1 & Hd & Hnd2). apply NoDup_cons in Hnd2 as [Hn Hnd2].
  unfold remove_context. rewrite filter_app, filter_cons_False by tauto. rewrite <- Permutation_middle. constructor.
  assert (∀ l', lx_id x ∉ lx_id <$> l' → filter (λ y, lx_id y ≠ lx_id x) l' = l') as Hf.
  { intros l' Hl. induction l' as [|y l' IH]; [done|]. cbn in Hl. rewrite not_elem_of_cons in Hl. destruct Hl as [Hy Hl]. rewrite filter_cons_True by congruence. by rewrite IH. }
  rewrite !Hf; [done|done|]. intros Hin. apply (Hd _ Hin). by left.
Qed.

(** ** Scheduling *)

Lemma scan_spec cur l kept removed found : find_schedulable cur l = (kept, removed, found) →
  ∃ emp, l ≡ₚ kept ++ emp ∧ removed = lx_id <$> emp ∧ (∀ x, x ∈ emp → lx_req_queue x = [])
    ∧ match found with Some x => x ∈ kept ∧ ready cur x | None => ∀ x, x ∈ kept → ¬ ready cur x end.
Proof.
  revert kept removed found. induction l as [|x l IH]; intros kept removed found; cbn [find_schedulable].
  { intros [= <- <- <-]. exists []. split; [done|]. split; [done|]. split; intros x Hx; by apply elem_of_nil in Hx. }
  destruct (find_schedulable cur l) as [[k r] f] eqn:E. destruct (IH _ _ _ eq_refl) as (emp & H1 & H2 & H3 & H4). destruct (bool_decide_reflect (lx_req_queue x = [])) as [Hq|Hq].
  - intros [= <- <- <-]. exists (x :: emp). split; [by rewrite H1, Permutation_middle|]. split; [by rewrite H2|]. split; [|done].
    intros y [->|Hy]%elem_of_cons; [done|by apply H3].
  - destruct (find_lock_context _ _ _ _ _) as [y|] eqn:Ef.
    + intros [= <- <- <-]. apply find_ctx_some in Ef as [Hy Ht]. exists emp. split; [by rewrite H1|]. split; [done|]. split; [done|]. destruct f as [z|].
      * destruct H4. split; [by right|done].
      * intros z [->|Hz]%elem_of_cons; [|by apply H4]. intros [_ Hr]. by apply (Hr y).
    + intros [= <- <- <-]. rewrite find_ctx_none in Ef. exists []. rewrite app_nil_r. split; [done|]. split; [done|]. split; [intros y Hy; by apply elem_of_nil in Hy|].
      split; [by left|]. split; [done|]. intros y Hy. by apply Ef.
Qed.

Lemma lists_ok_drop cur pend emp next fr : lists_ok cur (pend ++ emp) next fr → lists_ok cur pend next (fr ++ (lx_id <$> emp)).
Proof.
  intros [H1 H2 H3 H4 H5 H6 H7 H8 H9]. rewrite app_assoc in *. rewrite fmap_app in H1. apply NoDup_app in H1 as (H1 & Hd & _). rewrite requests_app in *.
  rewrite fmap_app in H4. apply NoDup_app in H4 as (H4 & _). apply NoDup_app in H7 as (H7 & _). constructor; try done.
  - intros x Hx. destruct (H2 x) as [? Hn]; [apply elem_of_app; by left|]. split; [done|]. rewrite elem_of_app. intros [?|Hi]; [done|].
    apply (Hd (lx_id x)); [by apply list_elem_of_fmap_2|done].
  - intros x Hx. apply H6. apply elem_of_app. by left.
  - intros r Hr. apply H8. apply elem_of_app. by left.
  - intros i [?|Hi]%elem_of_app; [by apply H9|]. apply list_elem_of_fmap in Hi as (x & -> & Hx). apply H2. apply elem_of_app. by right.
Qed.
Lemma lists_ok_start cur pend x pid next fr : lists_ok cur (x :: pend) next fr → 0 < pid → (∀ y, y ∈ cur → target_of y ≠ target_of x) →
  lists_ok (cur ++ [set_child x pid true]) pend next fr.
Proof.
  intros [H1 H2 H3 H4 H5 H6 H7 H8 H9] Hpid Ht. assert (cur ++ [set_child x pid true] ≡ₚ set_child x pid true :: cur) as Hp by (by rewrite Permutation_app_comm).
  apply (lists_ok_perm _ _ _ _ _ _ (symmetry Hp) (reflexivity pend)).
  assert ((lx_id <$> cur ++ x :: pend) ≡ₚ lx_id <$> set_child x pid true :: cur ++ pend) as Hids by (rewrite <- Permutation_middle; done).
  assert (requests (cur ++ x :: pend) ≡ₚ requests (set_child x pid true :: cur ++ pend)) as Hreq by (rewrite (requests_perm _ _ (symmetry (Permutation_middle cur pend x))); done).
  constructor; try done; cbn [app].
  - by rewrite <- Hids.
  - intros y [->|Hy]%elem_of_cons; [cbn [set_child lx_id]; apply H2, elem_of_app; right; by left|].
    apply H2. apply elem_of_app in Hy as [Hy|Hy]; apply elem_of_app; [by left|right; by right].
  - cbn. constructor; [|done]. intros (y & E & Hy)%list_elem_of_fmap. by apply (Ht y Hy).
  - cbn in H4. by apply NoDup_cons in H4 as [_ ?].
  - intros y [->|Hy]%elem_of_cons; [done|by apply H5].
  - intros y Hy. apply H6. by right.
  - by rewrite <- Hreq.
  - intros r. rewrite <- Hreq. apply H8.
Qed.

Section sched.
Context (fork : Z → Z).

Lemma schedule_ok s : lock_ok s → lock_ok (ctdb_lock_schedule fork s).
Proof.
  intros [H1 H2 H3 H4]. unfold ctdb_lock_schedule. destruct (Z.leb_spec MAX_LOCK_PROCESSES_PER_DB (lock_num_current s)); [done|].
  destruct (find_schedulable _ _) as [[kept removed] found] eqn:E. destruct (scan_spec _ _ _ _ _ E) as (emp & Hp & -> & He & Hf).
  pose proof (lists_ok_drop _ _ _ _ _ (lists_ok_perm _ _ _ _ _ _ (reflexivity _) Hp H1)) as Hd. pose proof (Permutation_length Hp) as Hlen. rewrite length_app in Hlen.
  set (s1 := set_freed _ _). assert (lock_ok s1) as Hs1 by (subst s1; constructor; cbn; [done|done|rewrite length_fmap; lia|done]).
  destruct found as [x|]; [|done]. destruct (Z.leb_spec (fork (lx_id x)) 0); [done|]. destruct Hf as [Hx [_ Hr]].
  assert (NoDup (lx_id <$> kept)) as Hnd by (pose proof (lo_ids _ _ _ _ Hd) as Hnd; rewrite fmap_app in Hnd; by apply NoDup_app in Hnd as (_ & _ & ?)).
  pose proof (remove_context_perm x kept Hnd Hx) as Hpx. constructor; cbn.
  - apply lists_ok_start; [|done|done]. by apply (lists_ok_perm _ _ _ _ _ _ (reflexivity _) Hpx).
  - rewrite length_app. cbn. lia.
  - pose proof (Permutation_length Hpx) as Hl. cbn in Hl. unfold remove_context in Hl. rewrite length_fmap. lia.
  - lia.
Qed.

Lemma schedule_busy s : (∀ id, 0 < fork id) → lock_ok s → almost_busy s → busy (ctdb_lock_schedule fork s).
Proof.
  intros Hfork [H1 H2 H3 H4] Ha. unfold ctdb_lock_schedule. destruct (Z.leb_spec MAX_LOCK_PROCESSES_PER_DB (lock_num_current s)) as [Hge|Hlt]; [intros ?; lia|].
  destruct (find_schedulable _ _) as [[kept removed] found] eqn:E. destruct (scan_spec _ _ _ _ _ E) as (emp & Hp & -> & He & Hf).
  destruct found as [x|]; [|intros _ y Hy; by apply Hf]. rewrite (proj2 (Z.leb_gt _ _)) by apply Hfork. destruct Hf as [Hx Hrx].
  intros Hn y Hy [Hq Hr]. cbn in *. unfold remove_context in Hy. apply list_elem_of_filter in Hy as [Hne Hy].
  assert (x = y) as ->; [|done]. apply Ha; [lia|rewrite Hp; apply elem_of_app; by left|rewrite Hp; apply elem_of_app; by left|done|].
  split; [done|]. intros z Hz. apply Hr. apply elem_of_app. by left.
Qed.

(** ** Requests *)

Lemma add_request_perm y req l : NoDup (lx_id <$> l) → y ∈ l →
  ∃ rest, l ≡ₚ y :: rest ∧ (add_request (lx_id y) req <$> l) ≡ₚ set_queue y (lx_req_queue y ++ [req]) :: rest.
Proof.
  intros Hnd Hy. apply list_elem_of_split in Hy as (l1 & l2 & ->). rewrite fmap_app in Hnd. cbn in Hnd. apply NoDup_app in Hnd as (Hnd1 & Hd & Hnd2). apply NoDup_cons in Hnd2 as [Hn Hnd2].
  exists (l1 ++ l2). split; [by rewrite Permutation_middle|]. rewrite fmap_app. cbn. unfold add_request at 2. rewrite Z.eqb_refl.
  assert (∀ l', lx_id y ∉ lx_id <$> l' → add_request (lx_id y) req <$> l' = l') as Hf.
  { intros l' Hl. induction l' as [|z l' IH]; [done|]. cbn in *. rewrite not_elem_of_cons in Hl. destruct Hl as [Hz Hl]. rewrite IH by done. unfold add_request. by rewrite (proj2 (Z.eqb_neq _ _)) by congruence. }
  rewrite !Hf; [by rewrite Permutation_middle|done|]. intros Hin. apply (Hd _ Hin). by left.
Qed.
Lemma lists_ok_request cur pend y req next fr : lists_ok cur (y :: pend) next fr → next <= req →
  lists_ok cur (set_queue y (lx_req_queue y ++ [req]) :: pend) (req + 1) fr.
Proof.
  intros [H1 H2 H3 H4 H5 H6 H7 H8 H9] Hreq. set (y' := set_queue y _).
  assert (requests (cur ++ y' :: pend) ≡ₚ req :: requests (cur ++ y :: pend)) as Hr.
  { rewrite !(requests_perm _ _ (symmetry (Permutation_middle cur pend _))). unfold requests. cbn. rewrite <- app_assoc. cbn. by rewrite <- Permutation_middle. }
  constructor; try done.
  - rewrite fmap_app in *. done.
  - intros x [Hx|[->|Hx]%elem_of_cons]%elem_of_app; [destruct (H2 x) as [? ?]; [apply elem_of_app; by left|split; [lia|done]]|destruct (H2 y) as [? ?]; [apply elem_of_app; right; by left|split; [cbn; lia|done]]|].
    destruct (H2 x) as [? ?]; [apply elem_of_app; right; by right|split; [lia|done]].
  - intros x [->|Hx]%elem_of_cons; [apply (H6 y); by left|apply H6; by right].
  - rewrite Hr. constructor; [|done]. intros Hin. apply H8 in Hin. lia.
  - intros r. rewrite Hr. intros [->|Hr']%elem_of_cons; [lia|]. apply H8 in Hr'. lia.
  - intros i Hi. apply H9 in Hi. lia.
Qed.
Lemma lists_ok_context cur pend x next fr : lists_ok cur pend next fr → lx_id x = next → lx_child x = -1 → lx_destructor x = false → lx_req_queue x = [] →
  (∀ y, y ∈ pend → target_of y ≠ target_of x) → lists_ok cur (pend ++ [x]) (next + 1) fr.
Proof.
  intros [H1 H2 H3 H4 H5 H6 H7 H8 H9] Hid Hch Hde Hq Ht. assert (requests (cur ++ pend ++ [x]) = requests (cur ++ pend)) as Hr.
  { rewrite app_assoc, requests_app. unfold requests at 2. cbn. by rewrite Hq, !app_nil_r. }
  constructor; try done.
  - rewrite app_assoc, fmap_app. apply NoDup_app. split; [done|]. split; [|cbn; apply NoDup_singleton].
    intros i Hi. apply list_elem_of_fmap in Hi as (y & -> & Hy). cbn. rewrite list_elem_of_singleton. intros E. apply H2 in Hy. lia.
  - intros y. rewrite app_assoc. intros [Hy|Hy]%elem_of_app; [destruct (H2 y Hy); split; [lia|done]|]. apply list_elem_of_singleton in Hy as ->. split; [lia|]. intros Hf%H9. lia.
  - rewrite fmap_app. apply NoDup_app. split; [done|]. split; [|cbn; apply NoDup_singleton]. intros t Hi. apply list_elem_of_fmap in Hi as (y & -> & Hy). cbn. rewrite list_elem_of_singleton. by apply Ht.
  - intros y [Hy|Hy]%elem_of_app; [by apply H6|]. by apply list_elem_of_singleton in Hy as ->.
  - by rewrite Hr.
  - intros r. rewrite Hr. intros Hin%H8. lia.
  - intros i Hi%H9. lia.
Qed.

(** The context for a request exists or is made; then the request is entered. *)
Definition entered s db key priority type auto_mark : lock_state * Z :=
  match find_lock_context (lock_pending s) db key priority type with
  | Some x => (s, lx_id x)
  | None =>
      let id := next_address s in
      let x := mk_lctx id type db key priority auto_mark [] (-1) false in
      (set_next (set_pending s (lock_pending s ++ [x]) (lock_num_pending s + 1) (stat_num_pending s + 1)) (id + 1), id)
  end.
Lemma internal_eq s db key priority type auto_mark :
  ctdb_lock_internal fork s db key priority true type auto_mark
  = let '(s, id) := entered s db key priority type auto_mark in
    let req := next_address s in
    (ctdb_lock_schedule fork (set_next (set_pending s (add_request id req <$> lock_pending s) (lock_num_pending s) (stat_num_pending s)) (req + 1)), Some req).
Proof. unfold ctdb_lock_internal, entered. cbn [negb]. by destruct (find_lock_context _ _ _ _ _). Qed.

Lemma entered_ok s db key priority type auto_mark s1 id : lock_ok s → entered s db key priority type auto_mark = (s1, id) →
  lock_ok s1 ∧ lock_current s1 = lock_current s ∧ lock_num_current s1 = lock_num_current s
  ∧ ∃ y, y ∈ lock_pending s1 ∧ lx_id y = id ∧ ∀ x, x ∈ lock_pending s1 → x = y ∨ x ∈ lock_pending s.
Proof.
  intros Hok. pose proof Hok as [H1 H2 H3 H4]. unfold entered. destruct (find_lock_context _ _ _ _ _) as [x|] eqn:Ef; intros [= <- <-].
  - apply find_ctx_some in Ef as [Hx _]. split; [done|]. split; [done|]. split; [done|]. exists x. split; [done|]. split; [done|]. auto.
  - rewrite find_ctx_none in Ef. set (x := mk_lctx _ _ _ _ _ _ _ _ _). split; [|split; [done|split; [done|]]].
    + constructor; cbn; [by apply lists_ok_context|done|rewrite length_app; cbn; lia|done].
    + exists x. cbn. split; [apply elem_of_app; right; by left|]. split; [done|]. intros y [Hy|Hy]%elem_of_app; [by right|]. apply list_elem_of_singleton in Hy. by left.
Qed.

Lemma internal_ok s db key priority type auto_mark : lock_ok s →
  let s' := (ctdb_lock_internal fork s db key priority true type auto_mark).1 in
  lock_ok s' ∧ ((∀ id, 0 < fork id) → busy s → busy s').
Proof.
  intros Hok. rewrite internal_eq. destruct (entered s db key priority type auto_mark) as [s1 id] eqn:E. cbn [fst].
  destruct (entered_ok _ _ _ _ _ _ _ _ Hok E) as (Hok1 & Hcur & Hnum & y & Hy & <- & Hold). pose proof Hok1 as [H1 H2 H3 H4].
  assert (NoDup (lx_id <$> lock_pending s1)) as Hnd by (pose proof (lo_ids _ _ _ _ H1) as Hnd; rewrite fmap_app in Hnd; by apply NoDup_app in Hnd as (_ & _ & ?)).
  destruct (add_request_perm y (next_address s1) _ Hnd Hy) as (rest & Hp & Hp'). set (s2 := set_next _ _).
  assert (lock_ok s2) as Hok2.
  { constructor; cbn; [|done|by rewrite length_fmap|done]. apply (lists_ok_perm _ _ _ _ _ _ (reflexivity _) (symmetry Hp')). apply (lists_ok_request _ _ _ _ (next_address s1)); [|lia].
    by apply (lists_ok_perm _ _ _ _ _ _ (reflexivity _) Hp). }
  split; [by apply schedule_ok|]. intros Hfork Hb. apply schedule_busy; [done|done|]. intros Hn. cbn in *.
  assert (∀ x, x ∈ rest → ¬ ready (lock_current s1) x) as Hrest.
  { intros x Hx Hr. rewrite Hcur in Hr. assert (x ∈ lock_pending s1) as Hx1 by (rewrite Hp; by right). destruct (Hold x Hx1) as [->|Hx2]; [|by apply (Hb ltac:(lia) x)].
    rewrite Hp in Hnd. cbn in Hnd. apply NoDup_cons in Hnd as [Hnd _]. apply Hnd. by apply list_elem_of_fmap_2. }
  intros x z. rewrite Hp'. intros [->|Hx]%elem_of_cons [->|Hz]%elem_of_cons Hr Hr'; [done|..]; exfalso; [by apply (Hrest z)|by apply (Hrest x)|by apply (Hrest x)].
Qed.

(** ** Freeing *)

Lemma lists_ok_finish cur pend x next fr : lists_ok (x :: cur) pend next fr → lists_ok cur pend next (fr ++ [lx_id x]).
Proof.
  intros [H1 H2 H3 H4 H5 H6 H7 H8 H9]. cbn in *. apply NoDup_cons in H1 as [Hn H1]. apply NoDup_cons in H3 as [_ H3]. unfold requests in *. cbn in *. apply NoDup_app in H7 as (_ & _ & H7).
  constructor; try done.
  - intros y Hy. destruct (H2 y) as [? Hf]; [by right|]. split; [done|]. rewrite elem_of_app, list_elem_of_singleton. intros [?|E]; [done|]. apply Hn. rewrite <- E. by apply list_elem_of_fmap_2.
  - intros y Hy. apply H5. by right.
  - intros r Hr. apply H8. apply elem_of_app. by right.
  - intros i [Hi|Hi]%elem_of_app; [by apply H9|]. apply list_elem_of_singleton in Hi as ->. apply H2. by left.
Qed.

Definition finished s x : lock_state :=
  let s := add_log (set_freed s (freed s ++ [lx_id x])) (Kill (lx_child x)) in
  set_current s (remove_context (lx_id x) (lock_current s)) (lock_num_current s - 1) (dec_stat (stat_num_current s) 1).
Lemma finished_ok s x : lock_ok s → x ∈ lock_current s →
  lock_current s ≡ₚ x :: remove_context (lx_id x) (lock_current s) ∧ lock_ok (finished s x) ∧ free_context fork s x = ctdb_lock_schedule fork (finished s x).
Proof.
  intros [H1 H2 H3 H4] Hx. destruct (lo_children _ _ _ _ H1 x Hx) as [Hch Hde].
  assert (NoDup (lx_id <$> lock_current s)) as Hnd by (pose proof (lo_ids _ _ _ _ H1) as Hnd; rewrite fmap_app in Hnd; by apply NoDup_app in Hnd as (? & _)).
  pose proof (remove_context_perm x _ Hnd Hx) as Hp. split; [done|]. split.
  - constructor; cbn; [|pose proof (Permutation_length Hp) as Hl; cbn in Hl; unfold remove_context in Hl; lia|done|lia].
    apply lists_ok_finish. by apply (lists_ok_perm _ _ _ _ _ _ Hp (reflexivity _)).
  - unfold free_context, ctdb_lock_context_destructor. by rewrite Hde, (proj2 (Z.ltb_lt _ _)) by done.
Qed.
Lemma free_current s x : lock_ok s → x ∈ lock_current s → lock_ok (free_context fork s x) ∧ ((∀ id, 0 < fork id) → busy s → busy (free_context fork s x)).
Proof.
  intros Hok Hx. destruct (finished_ok s x Hok Hx) as (Hp & Hok1 & ->). destruct Hok as [H1 H2 H3 H4].
  split; [by apply schedule_ok|]. intros Hfork Hb. apply schedule_busy; [done|done|]. intros Hn y z Hy Hz Hry Hrz. cbn in *.
  assert (∀ y, y ∈ lock_pending s → ready (remove_context (lx_id x) (lock_current s)) y → target_of y = target_of x) as Ht.
  { intros y' Hy' [Hq Hr]. destruct (decide (target_of y' = target_of x)) as [|Hne]; [done|]. exfalso. apply (Hb ltac:(lia) y' Hy'). split; [done|].
    intros w Hw. rewrite Hp in Hw. apply elem_of_cons in Hw as [->|Hw]; [congruence|by apply Hr]. }
  pose proof (Ht y Hy Hry) as Ey. pose proof (Ht z Hz Hrz) as Ez. pose proof (lo_pending _ _ _ _ H1) as Hpn.
  apply list_elem_of_lookup in Hy as [i Hi]. apply list_elem_of_lookup in Hz as [j Hj]. assert (i = j) as ->; [|congruence].
  apply (NoDup_lookup _ _ _ (target_of x) Hpn); rewrite list_lookup_fmap; [rewrite Hi|rewrite Hj]; cbn; congruence.
Qed.

Lemma drop_fields req l : (lx_id <$> (drop_request req <$> l)) = lx_id <$> l ∧ (target_of <$> (drop_request req <$> l)) = target_of <$> l
  ∧ requests (drop_request req <$> l) = filter (λ r, r ≠ req) (requests l).
Proof.
  rewrite <- !list_fmap_compose. split; [done|]. split; [done|]. unfold requests. induction l as [|x l IH]; [done|]. cbn. rewrite filter_app. by rewrite IH.
Qed.
Lemma drop_lists_ok s req : lock_ok s → lock_ok (ctdb_lock_request_destructor s req) ∧ (busy s → busy (ctdb_lock_request_destructor s req)).
Proof.
  intros [[H1 H2 H3 H4 H5 H6 H7 H8 H9] N1 N2 N3]. split.
  - constructor; cbn; [|by rewrite length_fmap|by rewrite length_fmap|done]. destruct (drop_fields req (lock_current s)) as (C1 & C2 & C3). destruct (drop_fields req (lock_pending s)) as (P1 & P2 & P3).
    constructor; try done.
    + by rewrite fmap_app, C1, P1, <- fmap_app.
    + intros x. rewrite <- fmap_app. intros (y & -> & Hy)%list_elem_of_fmap. by apply (H2 y).
    + by rewrite C2.
    + by rewrite P2.
    + intros x (y & -> & Hy)%list_elem_of_fmap. by apply (H5 y).
    + intros x (y & -> & Hy)%list_elem_of_fmap. by apply (H6 y).
    + rewrite requests_app, C3, P3, <- filter_app, <- requests_app. by apply NoDup_filter.
    + intros r. rewrite requests_app, C3, P3, <- filter_app, <- requests_app. intros [_ Hr]%list_elem_of_filter. by apply H8.
  - intros Hb Hn x Hx [Hq Hr]. cbn in *. apply list_elem_of_fmap in Hx as (y & -> & Hy). apply (Hb Hn y Hy). split.
    + intros E. apply Hq. cbn. by rewrite E.
    + intros z Hz. specialize (Hr (drop_request req z)). apply Hr. by apply list_elem_of_fmap_2.
Qed.

(** ** Reports *)

Lemma log_ok s e : lock_ok s → lock_ok (add_log s e).
Proof. by intros []. Qed.
Lemma schedule_current s x : x ∈ lock_current s → x ∈ lock_current (ctdb_lock_schedule fork s).
Proof.
  intros Hx. unfold ctdb_lock_schedule. repeat case_match; try done. cbn. apply elem_of_app. by left.
Qed.
Lemma internal_current s db key priority type auto_mark x : x ∈ lock_current s → x ∈ lock_current (ctdb_lock_internal fork s db key priority true type auto_mark).1.
Proof.
  intros Hx. rewrite internal_eq. unfold entered. destruct (find_lock_context _ _ _ _ _); cbn [fst]; by apply schedule_current.
Qed.
Lemma specs_ok s specs x : lock_ok s → x ∈ lock_current s →
  lock_ok (foldl (request_spec fork) s specs) ∧ x ∈ lock_current (foldl (request_spec fork) s specs) ∧ ((∀ id, 0 < fork id) → busy s → busy (foldl (request_spec fork) s specs)).
Proof.
  revert s. induction specs as [|a specs IH]; intros s Hok Hx; [done|]. cbn [foldl].
  destruct (internal_ok s (sp_db a) (sp_key a) (sp_priority a) (sp_type a) (sp_auto_mark a) Hok) as [Hok1 Hb1].
  destruct (IH _ Hok1 (internal_current _ _ _ _ _ _ _ Hx)) as (? & ? & Hb2). split; [done|]. split; [done|]. intros Hf Hb. apply Hb2; [done|]. by apply Hb1.
Qed.
(** The callbacks that keep their context. *)
Lemma callbacks_ok (callback : Z → list lock_spec * bool) s locked queue x :
  lock_ok s → x ∈ lock_current s → (∀ req, req ∈ queue → (callback req).2 = false) →
  let s' := run_callbacks fork callback s locked queue in lock_ok s' ∧ x ∈ lock_current s' ∧ ((∀ id, 0 < fork id) → busy s → busy s').
Proof.
  revert s. induction queue as [|req queue IH]; intros s Hok Hx Hk; [done|]. cbn [run_callbacks]. pose proof (Hk req ltac:(by left)) as Hr. destruct (callback req) as [asks rel]. cbn in Hr. subst rel.
  destruct (specs_ok (add_log s (Callback req locked)) asks x (log_ok _ _ Hok) Hx) as (Hok1 & Hx1 & Hb1).
  destruct (IH _ Hok1 Hx1) as (? & ? & Hb2); [intros r Hin; apply Hk; by right|]. split; [done|]. split; [done|]. intros Hf Hb. apply Hb2; [done|]. by apply Hb1.
Qed.
(** Freeing a request with its context, whose child was started. *)
Lemma free_request_ok s req : lock_ok s → (∀ x, context_of s req = Some x → x ∈ lock_current s) →
  lock_ok (ctdb_lock_free_request_context fork s req) ∧ ((∀ id, 0 < fork id) → busy s → busy (ctdb_lock_free_request_context fork s req)).
Proof.
  intros Hok Ho. unfold ctdb_lock_free_request_context. destruct (context_of s req) as [x|]; [|done]. destruct (drop_lists_ok s req Hok) as [H1 H2].
  destruct (free_current (ctdb_lock_request_destructor s req) (drop_request req x) H1) as [H3 H4]; [apply list_elem_of_fmap_2, Ho; done|].
  split; [done|]. intros Hf Hb. apply H4; [done|]. by apply H2.
Qed.
Lemma context_of_current s x req : lock_ok s → x ∈ lock_current s → req ∈ lx_req_queue x → ∀ y, context_of s req = Some y → y ∈ lock_current s.
Proof.
  intros Hok Hx Hr y. unfold context_of. destruct (list_find _ _) as [[i z]|] eqn:E; [|done]. cbn. intros [= ->]. apply list_find_Some in E as (Hi & _ & Hmin).
  apply list_elem_of_lookup in Hx as [j Hj]. pose proof (lookup_lt_Some _ _ _ Hj) as Hlt. apply lookup_app_Some in Hi as [Hi|[Hge _]]; [by eapply list_elem_of_lookup_2|].
  exfalso. apply (Hmin j x); [by rewrite lookup_app_l|lia|done].
Qed.

(** What a report may do: callbacks that free their context are those of contexts
    that the daemon does not mark and that no other request shares. *)
Definition keeps (callback : Z → list lock_spec * bool) x : Prop := ∀ req, req ∈ lx_req_queue x → (callback req).2 = false.
Definition releases (callback : Z → list lock_spec * bool) x : Prop := lx_auto_mark x = false ∧ ∃ req, lx_req_queue x = [req] ∧ (callback req).2 = true.

Lemma handler_keeps callback s x c : lock_ok s → x ∈ lock_current s → keeps callback x →
  let s' := process_callbacks fork callback s x c in
  let s'' := if lx_auto_mark x then free_context fork s' x else s' in lock_ok s'' ∧ ((∀ id, 0 < fork id) → busy s → busy s'').
Proof.
  intros Hok Hx Hk. unfold process_callbacks.
  set (s1 := if lx_auto_mark x && c then add_log s (Mark x) else s). assert (lock_ok s1 ∧ x ∈ lock_current s1 ∧ (busy s → busy s1)) as (Hok1 & Hx1 & Hb1) by (subst s1; by destruct (lx_auto_mark x && c); (split; [try apply log_ok; exact Hok|])).
  destruct (callbacks_ok callback s1 c (lx_req_queue x) x Hok1 Hx1 Hk) as (Hok2 & Hx2 & Hb2). set (s2 := run_callbacks _ _ _ _ _) in *.
  set (s3 := if lx_auto_mark x && c then add_log s2 (Unmark x) else s2). assert (lock_ok s3 ∧ x ∈ lock_current s3 ∧ (busy s2 → busy s3)) as (Hok3 & Hx3 & Hb3) by (subst s3; by destruct (lx_auto_mark x && c); (split; [try apply log_ok; exact Hok2|])).
  destruct (free_current s3 x Hok3 Hx3) as [H1 H2]. assert ((∀ id, 0 < fork id) → busy s → busy s3) as Hb by (intros Hf Hb; apply Hb3, Hb2; [done|by apply Hb1]).
  cbn zeta. destruct (lx_auto_mark x); [|done]. split; [done|]. intros Hf Hbs. apply H2; [done|by apply Hb].
Qed.
Lemma handler_releases callback s x c : lock_ok s → x ∈ lock_current s → releases callback x →
  let s' := process_callbacks fork callback s x c in lock_ok s' ∧ ((∀ id, 0 < fork id) → busy s → busy s').
Proof.
  intros Hok Hx (Ha & req & Hq & Hr). unfold process_callbacks. rewrite Ha, Hq. cbn [andb run_callbacks]. destruct (callback req) as [asks rel]. cbn in Hr. subst rel.
  destruct (specs_ok (add_log s (Callback req c)) asks x (log_ok _ _ Hok) Hx) as (Hok1 & Hx1 & Hb1). set (s1 := foldl _ _ _) in *.
  destruct (free_request_ok s1 req Hok1) as [Hok2 Hb2]; [eapply context_of_current; [done|done|rewrite Hq; by left]|].
  split; [done|]. intros Hf Hb. apply Hb2; [done|]. by apply Hb1.
Qed.
Lemma handler_ok callback s id c : lock_ok s → (∀ x, x ∈ lock_current s → lx_id x = id → keeps callback x ∨ releases callback x) →
  lock_ok (ctdb_lock_handler fork callback s id c) ∧ ((∀ id, 0 < fork id) → busy s → busy (ctdb_lock_handler fork callback s id c)).
Proof.
  intros Hok Hc. unfold ctdb_lock_handler. destruct (list_find _ _) as [[i x]|] eqn:E; [|done]. apply list_find_Some in E as (Hi & Hid & _). apply list_elem_of_lookup_2 in Hi.
  set (s0 := set_stats _ _ _ _ _). assert (lock_ok s0) as Hok0 by (by destruct Hok). destruct (Hc x Hi Hid) as [Hk|Hr]; [by apply (handler_keeps callback s0)|].
  pose proof Hr as [Ha _]. rewrite Ha. by apply (handler_releases callback s0).
Qed.
End sched.

(** ** Sequences of calls *)

Inductive op :=
| OLock (a : lock_spec)
| OReport (id c : Z) (callback : Z → list lock_spec * bool)
| OFreeRequest (req : Z)
| OFreeContext (req : Z).
Definition exec (fork : Z → Z) (o : op) s : lock_state :=
  match o with
  | OLock a => request_spec fork s a
  | OReport id c callback => ctdb_lock_handler fork callback s id c
  | OFreeRequest req => ctdb_lock_request_destructor s req
  | OFreeContext req => ctdb_lock_free_request_context fork s req
  end.
(** What the users of the locks must respect.  The code does not check it:
    [ctdb_freeze_handle_destructor] may free a context that still waits for a child,
    see [pending_context_dangles]. *)
Definition respects s (o : op) : Prop :=
  match o with
  | OFreeContext req => ∀ x, context_of s req = Some x → x ∈ lock_current s
  | OReport id _ callback => ∀ x, x ∈ lock_current s → lx_id x = id → keeps callback x ∨ releases callback x
  | _ => True
  end.
(** [always]: [fork] does not fail. *)
Inductive step (always : bool) s : lock_state → Prop :=
| step_op fork o : (always = true → ∀ id, 0 < fork id) → respects s o → step always s (exec fork o s).

Lemma sched_step_ok always s s' : lock_ok s → step always s s' → lock_ok s' ∧ (always = true → busy s → busy s').
Proof.
  intros Hok [fork o Hf Ho]. assert (lock_ok (exec fork o s) ∧ ((∀ id, 0 < fork id) → busy s → busy (exec fork o s))) as [H1 H2]; [|split; [done|]; intros Ha; by apply H2, Hf].
  destruct o as [a|id c callback|req|req]; cbn [exec respects] in *.
  - by apply internal_ok.
  - by apply handler_ok.
  - destruct (drop_lists_ok s req Hok). auto.
  - by apply free_request_ok.
Qed.
Lemma init_ok : lock_ok lock_init ∧ busy lock_init.
Proof.
  split; [|intros _ x Hx; by apply elem_of_nil in Hx]. constructor; cbn; [|done|done|done].
  constructor; cbn; try apply NoDup_nil_2; intros ? Hx; by apply elem_of_nil in Hx.
Qed.
Lemma sched_steps_ok always s : rtc (step always) lock_init s → lock_ok s ∧ (always = true → busy s).
Proof.
  assert (∀ s0, rtc (step always) s0 s → lock_ok s0 → (always = true → busy s0) → lock_ok s ∧ (always = true → busy s)) as H.
  { induction 1 as [|s0 s1 s2 Hs _ IH]; intros Ho Hb; [done|]. destruct (sched_step_ok _ _ _ Ho Hs) as [H1 H2]. apply IH; [done|]. intros Ha. by apply H2, Hb. }
  intros Hs. by apply (H lock_init); [|apply init_ok|intros _; apply init_ok].
Qed.

Section reports.
Context (fork : Z → Z).

(** ** Letting the children report *)

Definition called s : list Z := omap (λ e, match e with Callback r _ => Some r | _ => None end) (log s).
Definition all s : list lock_context := lock_current s ++ lock_pending s.
Definition report s s' : Prop := ∃ x c, x ∈ lock_current s ∧ s' = ctdb_lock_handler fork (λ _, ([], false)) s (lx_id x) c.

Lemma schedule_all s : lock_ok s →
  let s' := ctdb_lock_schedule fork s in
  log s' = log s ∧ requests (all s') ≡ₚ requests (all s) ∧ (length (all s') ≤ length (all s))%nat
  ∧ ((∀ x, x ∈ all s → lx_auto_mark x = true) → ∀ x, x ∈ all s' → lx_auto_mark x = true).
Proof.
  intros Hok. cbn zeta.  destruct Hok as [H1 _ _ _]. unfold ctdb_lock_schedule. destruct (MAX_LOCK_PROCESSES_PER_DB <=? lock_num_current s); [done|].
  destruct (find_schedulable _ _) as [[kept removed] found] eqn:E. destruct (scan_spec _ _ _ _ _ E) as (emp & Hp & -> & He & Hf).
  assert (requests emp = []) as Hemp by (clear - He; induction emp as [|x emp IH]; [done|]; unfold requests in *; cbn; rewrite (He x) by (by left); apply IH; intros; apply He; by right).
  assert (requests (lock_current s ++ kept) ≡ₚ requests (all s)) as Hr by (unfold all; rewrite !requests_app, (requests_perm _ _ Hp), requests_app, Hemp; by rewrite app_nil_r).
  assert (length (lock_current s ++ kept) ≤ length (all s))%nat as Hl by (unfold all; rewrite !length_app; apply Permutation_length in Hp; rewrite length_app in Hp; lia).
  assert ((∀ x, x ∈ all s → lx_auto_mark x = true) → ∀ x, x ∈ lock_current s ++ kept → lx_auto_mark x = true) as Ha.
  { intros H x [Hx|Hx]%elem_of_app; apply H; apply elem_of_app; [by left|right; rewrite Hp; apply elem_of_app; by left]. }
  destruct found as [x|]; [|done]. destruct (fork (lx_id x) <=? 0); [done|]. destruct Hf as [Hx _].
  assert (NoDup (lx_id <$> kept)) as Hnd.
  { pose proof (lo_ids _ _ _ _ H1) as Hnd. rewrite fmap_app in Hnd. apply NoDup_app in Hnd as (_ & _ & Hnd). rewrite Hp, fmap_app in Hnd. by apply NoDup_app in Hnd as (? & _). }
  pose proof (remove_context_perm x kept Hnd Hx) as Hpx. set (x' := set_child x (fork (lx_id x)) true). split; [done|].
  set (s' := set_current _ _ _ _). change (all s') with ((lock_current s ++ [x']) ++ remove_context (lx_id x) kept).
  assert (∀ A (f : lock_context → A), f x' = f x → f <$> lock_current s ++ kept ≡ₚ f <$> (lock_current s ++ [x']) ++ remove_context (lx_id x) kept) as Hfm.
  { intros A f Ef. rewrite Hpx at 1. rewrite <- app_assoc. cbn. rewrite !fmap_app. cbn. by rewrite Ef. }
  split; [|split].
  - rewrite <- Hr. rewrite <- app_assoc. cbn. rewrite (requests_perm _ _ (Permutation_app_head (lock_current s) Hpx)). rewrite !requests_app. by unfold requests; cbn.
  - pose proof (Permutation_length (Hfm _ lx_id eq_refl)) as Hle. rewrite !length_fmap in Hle. lia.
  - intros H y Hy. specialize (Ha H). apply (list_elem_of_fmap_2 lx_auto_mark) in Hy. rewrite <- (Hfm _ lx_auto_mark eq_refl) in Hy.
    apply list_elem_of_fmap in Hy as (z & -> & Hz). by apply Ha.
Qed.

Lemma run_callbacks_plain s locked q :
  let s' := run_callbacks fork (λ _, ([], false)) s locked q in
  log s' = log s ++ ((λ r, Callback r locked) <$> q) ∧ lock_current s' = lock_current s ∧ lock_pending s' = lock_pending s ∧ called s' = called s ++ q.
Proof.
  revert s. induction q as [|r q IH]; intros s; cbn [run_callbacks foldl]; [by rewrite !app_nil_r|].
  destruct (IH (add_log s (Callback r locked))) as (-> & -> & -> & ->). cbn. rewrite <- !app_assoc. split; [done|]. split; [done|]. split; [done|].
  unfold called. cbn. rewrite omap_app. cbn. by rewrite <- app_assoc.
Qed.
Lemma report_spec s s' : lock_ok s → (∀ x, x ∈ all s → lx_auto_mark x = true) → report s s' →
  (length (all s') < length (all s))%nat ∧ (∀ x, x ∈ all s' → lx_auto_mark x = true) ∧ called s' ++ requests (all s') ≡ₚ called s ++ requests (all s).
Proof.
  intros Hok Hauto (x0 & c & Hx0 & ->). unfold ctdb_lock_handler. destruct (list_find _ _) as [[i x]|] eqn:E; cycle 1.
  { apply list_find_None in E. rewrite Forall_forall in E. by apply E in Hx0. }
  apply list_find_Some in E as (Hi & _ & _). apply list_elem_of_lookup_2 in Hi. rewrite (Hauto x) by (apply elem_of_app; by left). unfold process_callbacks. rewrite (Hauto x) by (apply elem_of_app; by left). cbn [andb].
  set (s0 := set_stats _ _ _ _ _). set (s1 := if c =? 0 then add_log s0 (Mark x) else s0). set (s2 := run_callbacks _ _ _ _ _).
  set (s3 := if c =? 0 then add_log s2 (Unmark x) else s2). assert (lock_ok s1) as Hok1 by (subst s1; destruct Hok; by destruct (c =? 0)).
  destruct (callbacks_ok fork (λ _, ([], false)) s1 (c =? 0) (lx_req_queue x) x Hok1) as (Hok2 & Hx2 & _); [by subst s1; destruct (c =? 0)|done|]. fold s2 in Hok2, Hx2.
  assert (lock_ok s3) as Hok3 by (subst s3; destruct (c =? 0); [by apply log_ok|done]). assert (x ∈ lock_current s3) as Hx3 by (subst s3; by destruct (c =? 0)).
  destruct (run_callbacks_plain s1 (c =? 0) (lx_req_queue x)) as (_ & Hcur & Hpend & Hcall). fold s2 in Hcur, Hpend, Hcall.
  assert (lock_current s3 = lock_current s ∧ lock_pending s3 = lock_pending s) as [Hc3 Hp3] by (subst s3; destruct (c =? 0); cbn; rewrite Hcur, Hpend; by subst s1; destruct (c =? 0)).
  assert (called s3 = called s ++ lx_req_queue x) as Hcall3.
  { subst s3. destruct (c =? 0); unfold called in *; cbn; rewrite ?omap_app; cbn; rewrite ?app_nil_r, Hcall; subst s1; cbn; rewrite ?omap_app; cbn; by rewrite ?app_nil_r. }
  destruct (finished_ok fork s3 x Hok3 Hx3) as (Hp & Hok4 & ->). destruct (schedule_all (finished s3 x) Hok4) as (Hlog & Hreq & Hlen & Hau).
  assert (all s ≡ₚ x :: all (finished s3 x)) as Hall by (unfold all, finished; cbn; rewrite Hp3, <- Hc3; rewrite Hp at 1; done).
  split; [rewrite (Permutation_length Hall); cbn [length]; lia|]. split; [apply Hau; intros y Hy; apply Hauto; rewrite Hall; by right|].
  assert (called (ctdb_lock_schedule fork (finished s3 x)) = called s ++ lx_req_queue x) as ->.
  { unfold called at 1. rewrite Hlog. cbn. rewrite omap_app. cbn. rewrite app_nil_r. exact Hcall3. }
  rewrite Hreq, (requests_perm _ _ Hall). unfold requests at 2. cbn. by rewrite <- app_assoc.
Qed.

Lemma reports_spec n s s' : lock_ok s → (∀ x, x ∈ all s → lx_auto_mark x = true) → nsteps report n s s' →
  (n + length (all s') ≤ length (all s))%nat ∧ lock_ok s' ∧ (∀ x, x ∈ all s' → lx_auto_mark x = true)
  ∧ called s' ++ requests (all s') ≡ₚ called s ++ requests (all s) ∧ ((∀ id, 0 < fork id) → busy s → busy s').
Proof.
  intros Hok Hauto Hn. induction Hn as [s|n s s1 s2 Hr _ IH]; [done|].
  destruct (report_spec _ _ Hok Hauto Hr) as (Hl & Ha & Hc). pose proof Hr as (x & c & _ & ->). destruct (handler_ok fork (λ _, ([], false)) s (lx_id x) c Hok) as [Hok1 Hb1]; [intros; by left|].
  destruct (IH Hok1 Ha) as (Hl2 & Hok2 & Ha2 & Hc2 & Hb2). split; [lia|]. split; [done|]. split; [done|]. split; [by rewrite Hc2|]. intros Hf Hb. apply Hb2; [done|]. by apply Hb1.
Qed.
End reports.

(** C21: whatever requests are made, freed and called back, in any order and also
    from callbacks, and whether or not [fork] succeeds: the daemon has at most
    [MAX_LOCK_PROCESSES_PER_DB] lock processes, one for each lock, requests for a lock
    that waits share a context, the lists and counters agree and hold no freed
    context ([lock_ok]); and, when no [fork] fails, while a slot is free no request
    waits whose lock nobody is being asked for ([busy]).  The users of the locks
    free a context only after its child was started, and from a callback only their
    own, where the daemon does not mark it and no other request shares it
    ([respects]). *)
Theorem lock_scheduler_invariant always s : rtc (step always) lock_init s → lock_ok s ∧ (always = true → busy s).
Proof. apply sched_steps_ok. Qed.
Definition some_spec : lock_spec := mk_spec None [] 1 LOCK_ALLDB_PRIO true.
Definition freeze_spec : lock_spec := mk_spec None [] 2 LOCK_ALLDB_PRIO false.
(** A callback asks again; the callback of a freeze frees its context. *)
Lemma lock_scheduler_invariant_witness :
  let s1 := exec (λ _, 5) (OLock freeze_spec) (exec (λ _, 5) (OReport 1 0 (λ _, ([some_spec], false))) (exec (λ _, 5) (OLock some_spec) lock_init)) in
  let s := exec (λ _, 6) (OReport 5 1 (λ _, ([], true))) s1 in
  lock_num_current s1 = 2 ∧ lock_num_current s = 1 ∧ lock_ok s ∧ (true = true → busy s).
Proof.
  intros s1 s. split; [vm_compute; reflexivity|]. split; [vm_compute; reflexivity|]. apply (lock_scheduler_invariant true). unfold s, s1.
  eapply rtc_l; [exact (step_op true _ (λ _, 5) (OLock some_spec) (λ _ _, eq_refl) I)|].
  eapply rtc_l; [apply (step_op true _ (λ _, 5) (OReport 1 0 (λ _, ([some_spec], false)))); [done|intros ? _ _; by left]|].
  eapply rtc_l; [exact (step_op true _ (λ _, 5) (OLock freeze_spec) (λ _ _, eq_refl) I)|].
  apply rtc_once. apply (step_op true _ (λ _, 6) (OReport 5 1 (λ _, ([], true)))); [done|]. intros x Hx Hid. right. vm_compute in Hx.
  apply elem_of_cons in Hx as [->|Hx]; [done|]. apply elem_of_cons in Hx as [->|Hx]; [split; [done|by eexists]|by apply elem_of_nil in Hx].
Defined.

(** C22: when the children report, in any order and with any result, every request
    gets its callback: no run of reports is longer than the number of contexts, one
    can go on while a context is current, and at its end no request is left and
    each was called back exactly once.  This is for contexts that the daemon marks
    itself (those of records; the context of a freeze stays until it is freed, and
    its callback may come again), callbacks that ask for no further locks, and when
    [fork] does not fail. *)
Theorem lock_requests_complete fork s n s' :
  (∀ id, 0 < fork id) → lock_ok s → busy s → (∀ x, x ∈ all s → lx_auto_mark x = true) → nsteps (report fork) n s s' →
  (n ≤ length (all s))%nat
  ∧ (lock_current s' ≠ [] → ∃ s'', report fork s' s'')
  ∧ (lock_current s' = [] → requests (all s') = [] ∧ called s' ≡ₚ called s ++ requests (all s) ∧ NoDup (requests (all s))).
Proof.
  intros Hf Hok Hb Ha Hn. destruct (reports_spec fork n s s' Hok Ha Hn) as (Hl & Hok' & _ & Hc & Hb'). specialize (Hb' Hf Hb). split; [lia|]. split.
  - intros Hne. destruct (lock_current s') as [|x l] eqn:E; [done|]. exists (ctdb_lock_handler fork (λ _, ([], false)) s' (lx_id x) 0), x, 0. split; [rewrite E; by left|done].
  - intros E. assert (requests (all s') = []) as Hr.
    { unfold all. rewrite E. cbn. assert (∀ x, x ∈ lock_pending s' → lx_req_queue x = []) as Hq.
      { intros x Hx. destruct (decide (lx_req_queue x = [])) as [|Hq]; [done|]. exfalso. apply (Hb' ltac:(rewrite (ok_num_current _ Hok'), E; done) x Hx). split; [done|]. intros y. rewrite E. intros Hy. by apply elem_of_nil in Hy. }
      clear - Hq. induction (lock_pending s') as [|x l IH]; [done|]. unfold requests in *. cbn. rewrite (Hq x) by (by left). apply IH. intros; apply Hq; by right. }
    split; [done|]. rewrite Hr, app_nil_r in Hc. split; [done|]. apply (lo_requests _ _ _ _ (ok_lists _ Hok)).
Qed.
Lemma lock_requests_complete_witness :
  let s := exec (λ _, 5) (OLock some_spec) (exec (λ _, 5) (OLock some_spec) lock_init) in
  let s1 := ctdb_lock_handler (λ _, 5) (λ _, ([], false)) s 1 0 in
  let s2 := ctdb_lock_handler (λ _, 5) (λ _, ([], false)) s1 3 1 in
  requests (all s2) = [] ∧ called s2 ≡ₚ called s ++ requests (all s) ∧ NoDup (requests (all s)).
Proof.
  intros s s1 s2. assert (lock_ok s ∧ busy s) as [Hok Hb].
  { assert (rtc (step true) lock_init s) as Hs; [|destruct (sched_steps_ok true s Hs) as [? Hb]; auto].
    eapply rtc_l; [exact (step_op true _ (λ _, 5) (OLock some_spec) (λ _ _, eq_refl) I)|]. apply rtc_once. exact (step_op true _ (λ _, 5) (OLock some_spec) (λ _ _, eq_refl) I). }
  assert (nsteps (report (λ _, 5)) 2 s s2) as Hn.
  { econstructor; [|econstructor; [|constructor]].
    - eexists _, 0. split; [left|]. vm_compute. reflexivity.
    - eexists _, 1. split; [left|]. vm_compute. reflexivity. }
  apply (lock_requests_complete (λ _, 5) s 2 s2); [done|done|done| |exact Hn|vm_compute; reflexivity].
  intros x Hx. vm_compute in Hx. repeat (apply elem_of_cons in Hx as [->|Hx]; [reflexivity|]). by apply elem_of_nil in Hx.
Defined.

(** C35: [ctdb_lock_free_request_context] of a request whose context still waits
    for a child frees the context, which has no destructor yet, and leaves it in
    [lock_pending]: the next walk over the list reads freed memory. *)
Theorem pending_context_dangles fork s req x :
  lock_ok s → context_of s req = Some x → x ∈ lock_pending s →
  ∃ y, y ∈ lock_pending (ctdb_lock_free_request_context fork s req) ∧ lx_id y ∈ freed (ctdb_lock_free_request_context fork s req).
Proof.
  intros Hok Hx Hin. unfold ctdb_lock_free_request_context. rewrite Hx. exists (drop_request req x). unfold free_context.
  destruct (lo_waiting _ _ _ _ (ok_lists _ Hok) x Hin) as [_ Hd]. cbn [drop_request set_queue lx_destructor]. rewrite Hd. cbn.
  split; [by apply list_elem_of_fmap_2|]. apply elem_of_app. right. by left.
Qed.
(** No child could be started. *)
Definition waiting_freeze : lock_state := exec (λ _, -1) (OLock (mk_spec None [] 1 LOCK_ALLDB_PRIO false)) lock_init.
Lemma pending_context_dangles_witness :
  ∃ y, y ∈ lock_pending (ctdb_lock_free_request_context (λ _, -1) waiting_freeze 2) ∧ lx_id y ∈ freed (ctdb_lock_free_request_context (λ _, -1) waiting_freeze 2).
Proof.
  assert (lock_ok waiting_freeze) as Hok by (apply (sched_step_ok false lock_init); [apply init_ok|by apply (step_op false lock_init (λ _, -1) (OLock _))]).
  eapply (pending_context_dangles (λ _, -1) waiting_freeze 2); [exact Hok|vm_compute; reflexivity|vm_compute; left].
Defined.

(** ** All databases *)

Section names.
Context {A : Type} (hack : Z) (f : db_context → list A).
Implicit Types (acc : list A).
Variable handler : db_context → Z → list A → Z * list A.
Hypothesis collects : ∀ d priority acc, handler d priority acc = (0, acc ++ f d).
Lemma iterate_collect skip dbs priority acc : iterate handler skip dbs priority acc = (0, acc ++ (filter (λ d, skip d = false) dbs ≫= f)).
Proof.
  revert acc. induction dbs as [|d dbs IH]; intros acc; cbn [iterate]; [by rewrite app_nil_r|]. rewrite filter_cons. destruct (skip d) eqn:E.
  { rewrite decide_False by done. apply IH. }
  rewrite decide_True by done. rewrite collects. cbn [Z.eqb negb]. rewrite IH. cbn. by rewrite <- app_assoc.
Qed.
Definition visited (dbs : list db_context) (priority : Z) : list db_context :=
  filter (λ d, negb (db_priority d =? priority) || later_db hack (db_name d) = false) dbs
  ++ (if priority =? 1 then filter (λ d, negb (later_db hack (db_name d)) = false) dbs else []).
Lemma iterator_collect dbs priority acc : ctdb_db_iterator hack handler dbs priority acc = (0, acc ++ (visited dbs priority ≫= f)).
Proof.
  unfold ctdb_db_iterator, visited. rewrite iterate_collect. cbn [Z.eqb negb]. destruct (priority =? 1); cbn [negb]; [|by rewrite app_nil_r].
  rewrite iterate_collect. by rewrite bind_app, <- app_assoc.
Qed.
Lemma priorities_collect dbs ps acc : iterate_priorities hack handler dbs ps acc = (0, acc ++ ((ps ≫= visited dbs) ≫= f)).
Proof.
  revert acc. induction ps as [|p ps IH]; intros acc; cbn [iterate_priorities]; [by rewrite app_nil_r|]. rewrite iterator_collect. cbn [Z.eqb negb]. rewrite IH. cbn. by rewrite bind_app, <- app_assoc.
Qed.
End names.

(** Going through the three priorities visits every database once, whether or not
    the databases of old Samba versions are put off. *)
Lemma visits_all hack dbs : Forall (λ d, 1 <= db_priority d <= 3) dbs → [1; 2; 3] ≫= visited hack dbs ≡ₚ dbs.
Proof.
  intros Hp. cbn. unfold visited. cbn. rewrite !app_nil_r. induction Hp as [|d dbs Hd _ IH]; [done|]. rewrite !filter_cons. destruct (later_db hack (db_name d)) eqn:E.
  - rewrite decide_False by (rewrite orb_true_r; done). rewrite decide_True by done. repeat rewrite decide_False by (rewrite orb_true_r; done). by rewrite <- Permutation_middle, <- app_comm_cons, IH.
  - rewrite (decide_False (P := negb false = false)) by done. rewrite !orb_false_r.
    assert (db_priority d = 1 ∨ db_priority d = 2 ∨ db_priority d = 3) as [E1|[E1|E1]] by lia; rewrite E1; cbn; repeat first [rewrite decide_True by done|rewrite decide_False by done].
    + cbn. by rewrite IH.
    + by rewrite <- app_comm_cons, <- Permutation_middle, IH.
    + rewrite app_assoc, <- Permutation_middle, <- app_assoc. by rewrite IH.
Qed.

Definition marks_of (d : db_context) : list mark := [TransactionMark (db_id d); LockallMark (db_id d)].
Lemma mark_collects d priority marked : db_lock_mark_handler (λ _, false) d priority marked = (0, marked ++ marks_of d).
Proof. unfold db_lock_mark_handler. by rewrite <- app_assoc. Qed.

(** Unless a call fails, the loop that takes the marks of all databases away never
    ends. *)
Lemma unmark_never_returns hack dbs fuel marked : ctdb_lockall_unmark hack dbs (λ _, false) fuel marked = None.
Proof.
  unfold ctdb_lockall_unmark. generalize NUM_DB_PRIORITIES. revert marked.
  assert (∀ skip p ds marked, (iterate (db_lock_unmark_handler (λ _, false)) skip ds p marked).1 = 0) as Hi.
  { intros skip p ds. induction ds as [|d ds IH]; intros marked; cbn [iterate]; [done|]. destruct (skip d); [apply IH|]. cbn. apply IH. }
  induction fuel as [|fuel IH]; intros marked p; cbn [lockall_unmark_loop]; [done|].
  assert ((ctdb_db_iterator hack (db_lock_unmark_handler (λ _, false)) dbs p marked).1 = 0) as H0.
  { unfold ctdb_db_iterator. pose proof (Hi (λ d, negb (db_priority d =? p) || later_db hack (db_name d)) p dbs marked) as H1.
    destruct (iterate _ _ dbs p marked) as [ret m]. cbn in H1. subst ret. cbn [Z.eqb negb]. destruct (negb (p =? 1)); [done|apply Hi]. }
  destruct (ctdb_db_iterator _ _ dbs p marked) as [ret m]. cbn in H0. subst ret. apply IH.
Qed.

(** locking all databases leaves out those of the last priority: the child
    locks the databases of priorities 1 and 2 only, while the daemon, when the child
    reports, marks all of them as locked. *)
Theorem lock_alldb_misses_last hack dbs d x :
  Forall (λ d, 1 <= db_priority d <= 3) dbs → NoDup (db_path <$> dbs) → d ∈ dbs → db_priority d = 3 → later_db hack (db_name d) = false → lx_type x = LOCK_ALLDB →
  (∃ paths, lock_helper_args hack dbs x = HelperDb paths ∧ db_path d ∉ paths)
  ∧ (ctdb_lockall_mark hack dbs (λ _, false) []).1 = 0 ∧ LockallMark (db_id d) ∈ (ctdb_lockall_mark hack dbs (λ _, false) []).2.
Proof.
  intros Hp Hnd Hd H3 Hl Hx. split.
  - unfold lock_helper_args. rewrite Hx. eexists. split; [done|]. rewrite (priorities_collect hack (λ d, [db_path d])) by done. cbn [snd app].
    intros Hin. apply list_elem_of_bind in Hin as (e & He & Hin). apply list_elem_of_singleton in He. cbn in Hin. unfold visited in Hin. cbn in Hin. rewrite !app_nil_r, !elem_of_app, !list_elem_of_filter in Hin.
    assert (e ∈ dbs) as Hed by tauto. assert (e = d) as ->.
    { apply list_elem_of_lookup in Hed as [i Hi]. apply list_elem_of_lookup in Hd as [j Hj]. assert (i = j) as ->; [|congruence].
      apply (NoDup_lookup _ _ _ (db_path d) Hnd); rewrite list_lookup_fmap; [rewrite Hi|rewrite Hj]; cbn; congruence. }
    rewrite H3, Hl in Hin. cbn in Hin. intuition done.
  - unfold ctdb_lockall_mark. rewrite (priorities_collect hack marks_of) by apply mark_collects. cbn [fst snd app]. split; [done|].
    apply list_elem_of_bind. exists d. split; [right; left|]. by rewrite (visits_all hack dbs Hp).
Qed.
Definition three_dbs : list db_context := [mk_db 1 "a.tdb" "/db/a.tdb" 1; mk_db 2 "b.tdb" "/db/b.tdb" 2; mk_db 3 "c.tdb" "/db/c.tdb" 3].
Lemma lock_alldb_misses_last_witness :
  let x := mk_lctx 1 LOCK_ALLDB None [] 0 true [2] (-1) false in
  (∃ paths, lock_helper_args 0 three_dbs x = HelperDb paths ∧ "/db/c.tdb"%string ∉ paths)
  ∧ (ctdb_lockall_mark 0 three_dbs (λ _, false) []).1 = 0 ∧ LockallMark 3 ∈ (ctdb_lockall_mark 0 three_dbs (λ _, false) []).2.
Proof.
  intros x. apply (lock_alldb_misses_last 0 three_dbs (mk_db 3 "c.tdb" "/db/c.tdb" 3) x); [|apply (bool_decide_unpack _); vm_compute; exact I|right; right; left|reflexivity..].
  apply Forall_cons; split; [cbn; lia|]. apply Forall_cons; split; [cbn; lia|]. apply Forall_cons; split; [cbn; lia|]. by apply Forall_nil.
Defined.
