(* ===== verification/Node.v ===== *)
(** * The state of one daemon

    [struct ctdb_context] as far as the call path uses it, the error monad the
    handlers run in, and the services of [server/ctdb_server.c] they call:
    queueing a packet to another node, to all nodes or to the node itself, and
    request ids. *)
From stdpp Require Import functions.
From S2P Require Import Prelude Protocol Ltdb.

(** ** Data *)

(** [struct ctdb_node] *)
Record ctdb_node := mk_node {
  nd_pnn : Z;
  nd_flags : Z;
  nd_dead_count : Z;
  nd_rx_cnt : Z;
  nd_tx_cnt : Z;
}.

(** [struct ctdb_call] *)
Record ctdb_call := mk_call {
  cl_call_id : Z;
  cl_key : bytes;
  cl_call_data : bytes;
  cl_reply_data : bytes;
  cl_status : Z;
  cl_flags : Z;
}.

(** [enum call_state] *)
Inductive call_state := CTDB_CALL_WAIT | CTDB_CALL_DONE | CTDB_CALL_ERROR.

(** [struct ctdb_call_state]; [cs_async] is whether [async.fn] is set, the
    database is named by its id. *)
Record ctdb_call_state := mk_cs {
  cs_state : call_state;
  cs_reqid : Z;
  cs_c : ctdb_req_call;
  cs_db_id : Z;
  cs_errmsg : string;
  cs_call : ctdb_call;
  cs_generation : Z;
  cs_async : bool;
}.

(** What a request id stands for: a call, or another kind of request that a
    typed lookup rejects. *)
Inductive idr_entry :=
  | IdrCall (cs : ctdb_call_state)
  | IdrOther.

(** [struct lock_fetch_state]: a packet waiting for a record lock. *)
Record lock_fetch_state := mk_lfs {
  lf_hdr : packet;
  lf_generation : Z;
  lf_ignore_generation : bool;
}.

(** The counters of [struct ctdb_statistics] the call path touches. *)
Inductive stat :=
  | node_packets_sent | node_packets_recv
  | keepalive_packets_sent | keepalive_packets_recv
  | node_req_call | node_reply_call | node_req_dmaster | node_reply_dmaster
  | node_reply_error | node_req_message | node_req_control | node_reply_control
  | total_ro_delegations | total_ro_revokes
  | max_hop_count | hop_count_bucket (bucket : nat).

#[global] Instance stat_eq_dec : EqDecision stat.
Proof. solve_decision. Defined.

Definition CTDB_RECOVERY_NORMAL : Z := 0.
Definition CTDB_RECOVERY_ACTIVE : Z := 1.

(** The daemon.  [cx_methods] is [methods != NULL] (the transport is up).
    Pending work is explicit: packets handed to the transport ([cx_net_out]),
    packets to the node itself waiting for the next event loop
    ([cx_deferred]), packets waiting for a record lock ([cx_lock_queue]),
    requeued calls waiting for their timer ([cx_timers]), and the call states
    whose [async.fn] has been called ([cx_done]). *)
Record ctdb_context (T : Type) := mk_ctdb {
  cx_pnn : Z;
  cx_vnn_map : ctdb_vnn_map;
  cx_nodes : list ctdb_node;
  cx_num_connected : Z;
  cx_methods : bool;
  cx_db_list : list (ctdb_db_context T);
  cx_idr : gmap Z idr_entry;
  cx_lastid : Z;
  cx_pending_calls : list Z;
  cx_recovery_mode : Z;
  cx_hopcount_make_sticky : Z;
  cx_statistics : stat → Z;
  cx_statistics_current : stat → Z;
  cx_net_out : list packet;
  cx_deferred : list packet;
  cx_lock_queue : list lock_fetch_state;
  cx_timers : list ctdb_req_call;
  cx_done : list ctdb_call_state;
}.

Arguments mk_ctdb {T}.
Arguments cx_pnn {T}.
Arguments cx_vnn_map {T}.
Arguments cx_nodes {T}.
Arguments cx_num_connected {T}.
Arguments cx_methods {T}.
Arguments cx_db_list {T}.
Arguments cx_idr {T}.
Arguments cx_lastid {T}.
Arguments cx_pending_calls {T}.
Arguments cx_recovery_mode {T}.
Arguments cx_hopcount_make_sticky {T}.
Arguments cx_statistics {T}.
Arguments cx_statistics_current {T}.
Arguments cx_net_out {T}.
Arguments cx_deferred {T}.
Arguments cx_lock_queue {T}.
Arguments cx_timers {T}.
Arguments cx_done {T}.

Section context_setters.
Context {T : Type}.
Implicit Types s : ctdb_context T.

Definition set_cx_vnn_map s (v : ctdb_vnn_map) : ctdb_context T :=
  mk_ctdb (cx_pnn s) v (cx_nodes s) (cx_num_connected s) (cx_methods s) (cx_db_list s)
    (cx_idr s) (cx_lastid s) (cx_pending_calls s) (cx_recovery_mode s)
    (cx_hopcount_make_sticky s) (cx_statistics s) (cx_statistics_current s) (cx_net_out
    s) (cx_deferred s) (cx_lock_queue s) (cx_timers s) (cx_done s).
Definition set_cx_nodes s (v : list ctdb_node) : ctdb_context T :=
  mk_ctdb (cx_pnn s) (cx_vnn_map s) v (cx_num_connected s) (cx_methods s) (cx_db_list s)
    (cx_idr s) (cx_lastid s) (cx_pending_calls s) (cx_recovery_mode s)
    (cx_hopcount_make_sticky s) (cx_statistics s) (cx_statistics_current s) (cx_net_out
    s) (cx_deferred s) (cx_lock_queue s) (cx_timers s) (cx_done s).
Definition set_cx_num_connected s (v : Z) : ctdb_context T :=
  mk_ctdb (cx_pnn s) (cx_vnn_map s) (cx_nodes s) v (cx_methods s) (cx_db_list s) (cx_idr
    s) (cx_lastid s) (cx_pending_calls s) (cx_recovery_mode s) (cx_hopcount_make_sticky
    s) (cx_statistics s) (cx_statistics_current s) (cx_net_out s) (cx_deferred s)
    (cx_lock_queue s) (cx_timers s) (cx_done s).
Definition set_cx_db_list s (v : list (ctdb_db_context T)) : ctdb_context T :=
  mk_ctdb (cx_pnn s) (cx_vnn_map s) (cx_nodes s) (cx_num_connected s) (cx_methods s) v
    (cx_idr s) (cx_lastid s) (cx_pending_calls s) (cx_recovery_mode s)
    (cx_hopcount_make_sticky s) (cx_statistics s) (cx_statistics_current s) (cx_net_out
    s) (cx_deferred s) (cx_lock_queue s) (cx_timers s) (cx_done s).
Definition set_cx_idr s (v : gmap Z idr_entry) : ctdb_context T :=
  mk_ctdb (cx_pnn s) (cx_vnn_map s) (cx_nodes s) (cx_num_connected s) (cx_methods s)
    (cx_db_list s) v (cx_lastid s) (cx_pending_calls s) (cx_recovery_mode s)
    (cx_hopcount_make_sticky s) (cx_statistics s) (cx_statistics_current s) (cx_net_out
    s) (cx_deferred s) (cx_lock_queue s) (cx_timers s) (cx_done s).
Definition set_cx_lastid s (v : Z) : ctdb_context T :=
  mk_ctdb (cx_pnn s) (cx_vnn_map s) (cx_nodes s) (cx_num_connected s) (cx_methods s)
    (cx_db_list s) (cx_idr s) v (cx_pending_calls s) (cx_recovery_mode s)
    (cx_hopcount_make_sticky s) (cx_statistics s) (cx_statistics_current s) (cx_net_out
    s) (cx_deferred s) (cx_lock_queue s) (cx_timers s) (cx_done s).
Definition set_cx_pending_calls s (v : list Z) : ctdb_context T :=
  mk_ctdb (cx_pnn s) (cx_vnn_map s) (cx_nodes s) (cx_num_connected s) (cx_methods s)
    (cx_db_list s) (cx_idr s) (cx_lastid s) v (cx_recovery_mode s)
    (cx_hopcount_make_sticky s) (cx_statistics s) (cx_statistics_current s) (cx_net_out
    s) (cx_deferred s) (cx_lock_queue s) (cx_timers s) (cx_done s).
Definition set_cx_recovery_mode s (v : Z) : ctdb_context T :=
  mk_ctdb (cx_pnn s) (cx_vnn_map s) (cx_nodes s) (cx_num_connected s) (cx_methods s)
    (cx_db_list s) (cx_idr s) (cx_lastid s) (cx_pending_calls s) v
    (cx_hopcount_make_sticky s) (cx_statistics s) (cx_statistics_current s) (cx_net_out
    s) (cx_deferred s) (cx_lock_queue s) (cx_timers s) (cx_done s).
Definition set_cx_statistics s (v : stat → Z) : ctdb_context T :=
  mk_ctdb (cx_pnn s) (cx_vnn_map s) (cx_nodes s) (cx_num_connected s) (cx_methods s)
    (cx_db_list s) (cx_idr s) (cx_lastid s) (cx_pending_calls s) (cx_recovery_mode s)
    (cx_hopcount_make_sticky s) v (cx_statistics_current s) (cx_net_out s) (cx_deferred
    s) (cx_lock_queue s) (cx_timers s) (cx_done s).
Definition set_cx_statistics_current s (v : stat → Z) : ctdb_context T :=
  mk_ctdb (cx_pnn s) (cx_vnn_map s) (cx_nodes s) (cx_num_connected s) (cx_methods s)
    (cx_db_list s) (cx_idr s) (cx_lastid s) (cx_pending_calls s) (cx_recovery_mode s)
    (cx_hopcount_make_sticky s) (cx_statistics s) v (cx_net_out s) (cx_deferred s)
    (cx_lock_queue s) (cx_timers s) (cx_done s).
Definition set_cx_net_out s (v : list packet) : ctdb_context T :=
  mk_ctdb (cx_pnn s) (cx_vnn_map s) (cx_nodes s) (cx_num_connected s) (cx_methods s)
    (cx_db_list s) (cx_idr s) (cx_lastid s) (cx_pending_calls s) (cx_recovery_mode s)
    (cx_hopcount_make_sticky s) (cx_statistics s) (cx_statistics_current s) v
    (cx_deferred s) (cx_lock_queue s) (cx_timers s) (cx_done s).
Definition set_cx_deferred s (v : list packet) : ctdb_context T :=
  mk_ctdb (cx_pnn s) (cx_vnn_map s) (cx_nodes s) (cx_num_connected s) (cx_methods s)
    (cx_db_list s) (cx_idr s) (cx_lastid s) (cx_pending_calls s) (cx_recovery_mode s)
    (cx_hopcount_make_sticky s) (cx_statistics s) (cx_statistics_current s) (cx_net_out
    s) v (cx_lock_queue s) (cx_timers s) (cx_done s).
Definition set_cx_lock_queue s (v : list lock_fetch_state) : ctdb_context T :=
  mk_ctdb (cx_pnn s) (cx_vnn_map s) (cx_nodes s) (cx_num_connected s) (cx_methods s)
    (cx_db_list s) (cx_idr s) (cx_lastid s) (cx_pending_calls s) (cx_recovery_mode s)
    (cx_hopcount_make_sticky s) (cx_statistics s) (cx_statistics_current s) (cx_net_out
    s) (cx_deferred s) v (cx_timers s) (cx_done s).
Definition set_cx_timers s (v : list ctdb_req_call) : ctdb_context T :=
  mk_ctdb (cx_pnn s) (cx_vnn_map s) (cx_nodes s) (cx_num_connected s) (cx_methods s)
    (cx_db_list s) (cx_idr s) (cx_lastid s) (cx_pending_calls s) (cx_recovery_mode s)
    (cx_hopcount_make_sticky s) (cx_statistics s) (cx_statistics_current s) (cx_net_out
    s) (cx_deferred s) (cx_lock_queue s) v (cx_done s).
Definition set_cx_done s (v : list ctdb_call_state) : ctdb_context T :=
  mk_ctdb (cx_pnn s) (cx_vnn_map s) (cx_nodes s) (cx_num_connected s) (cx_methods s)
    (cx_db_list s) (cx_idr s) (cx_lastid s) (cx_pending_calls s) (cx_recovery_mode s)
    (cx_hopcount_make_sticky s) (cx_statistics s) (cx_statistics_current s) (cx_net_out
    s) (cx_deferred s) (cx_lock_queue s) (cx_timers s) v.
End context_setters.

(** Field updates of the smaller structures. *)
Definition set_nd_flags (n : ctdb_node) (v : Z) : ctdb_node :=
  mk_node (nd_pnn n) v (nd_dead_count n) (nd_rx_cnt n) (nd_tx_cnt n).
Definition set_nd_dead_count (n : ctdb_node) (v : Z) : ctdb_node :=
  mk_node (nd_pnn n) (nd_flags n) v (nd_rx_cnt n) (nd_tx_cnt n).
Definition set_nd_rx_cnt (n : ctdb_node) (v : Z) : ctdb_node :=
  mk_node (nd_pnn n) (nd_flags n) (nd_dead_count n) v (nd_tx_cnt n).
Definition set_nd_tx_cnt (n : ctdb_node) (v : Z) : ctdb_node :=
  mk_node (nd_pnn n) (nd_flags n) (nd_dead_count n) (nd_rx_cnt n) v.

Definition set_cl_reply (c : ctdb_call) (data : bytes) (status : Z) : ctdb_call :=
  mk_call (cl_call_id c) (cl_key c) (cl_call_data c) data status (cl_flags c).
Definition set_cl_status (c : ctdb_call) (status : Z) : ctdb_call :=
  mk_call (cl_call_id c) (cl_key c) (cl_call_data c) (cl_reply_data c) status (cl_flags c).

Definition set_cs_call (cs : ctdb_call_state) (v : ctdb_call) : ctdb_call_state :=
  mk_cs (cs_state cs) (cs_reqid cs) (cs_c cs) (cs_db_id cs) (cs_errmsg cs) v
    (cs_generation cs) (cs_async cs).
Definition set_cs_state (cs : ctdb_call_state) (v : call_state) : ctdb_call_state :=
  mk_cs v (cs_reqid cs) (cs_c cs) (cs_db_id cs) (cs_errmsg cs) (cs_call cs)
    (cs_generation cs) (cs_async cs).
Definition set_cs_errmsg (cs : ctdb_call_state) (v : string) : ctdb_call_state :=
  mk_cs (cs_state cs) (cs_reqid cs) (cs_c cs) (cs_db_id cs) v (cs_call cs)
    (cs_generation cs) (cs_async cs).

(** ** The monad *)

(** Why a handler does not return: [ctdb_fatal] aborts the process; a loop
    that never ends. *)
Inductive stop :=
  | Fatal (msg : string)
  | Spin.

Inductive outcome (T A : Type) :=
  | Ret (a : A) (s : ctdb_context T)
  | Stop (why : stop) (s : ctdb_context T).
Arguments Ret {T A}.
Arguments Stop {T A}.

Definition M (T A : Type) : Type := ctdb_context T → outcome T A.

#[global] Instance M_ret {T} : MRet (M T) := λ A a s, Ret a s.
#[global] Instance M_bind {T} : MBind (M T) := λ A B f m s,
  match m s with
  | Ret a s' => f a s'
  | Stop w s' => Stop w s'
  end.

Section monad.
Context {T : Type}.

Definition gets {A} (f : ctdb_context T → A) : M T A := λ s, Ret (f s) s.
Definition modify (f : ctdb_context T → ctdb_context T) : M T () := λ s, Ret () (f s).
Definition ctdb_fatal {A} (msg : string) : M T A := λ s, Stop (Fatal msg) s.
Definition spin {A} : M T A := λ s, Stop Spin s.
Definition when (b : bool) (m : M T ()) : M T () := if b then m else mret ().

Fixpoint mfor {A} (l : list A) (f : A → M T ()) : M T () :=
  match l with
  | [] => mret ()
  | a :: l => f a ;; mfor l f
  end.

End monad.

(** ** What the environment decides during one handler *)

(** [tdb_chainlock_nonblock] with [ctdb_lock_record]: the lock is free; another
    process holds it and a lock request is queued; the lock request could not
    be created; the lock call failed hard. *)
Inductive lock_outcome := LockFree | LockBusy | LockBusyNoRequest | LockError.

(** [ev_queue_pkt] is whether the transport takes a packet for a node;
    [ev_revoke] whether the revoke child could be started. *)
Record node_env := mk_env {
  ev_lock : lock_outcome;
  ev_queue_pkt : Z → bool;
  ev_revoke : bool;
}.

(** ** Operations *)

Section node.
Context {T : Type}.
Variable ev : node_env.
Implicit Types (s : ctdb_context T) (p : packet).

(** The macros [CTDB_INCREMENT_STAT] and [CTDB_UPDATE_STAT]. *)
Definition incr_counter (k : stat) (f : stat → Z) : stat → Z := <[k := u32 (f k + 1)]> f.
Definition CTDB_INCREMENT_STAT (k : stat) : M T () := modify (λ s,
  set_cx_statistics_current
    (set_cx_statistics s (incr_counter k (cx_statistics s)))
    (incr_counter k (cx_statistics_current s))).
Definition update_counter (k : stat) (v : Z) (f : stat → Z) : stat → Z :=
  if f k <? v then <[k := v]> f else f.
Definition CTDB_UPDATE_STAT (k : stat) (v : Z) : M T () := modify (λ s,
  set_cx_statistics_current
    (set_cx_statistics s (update_counter k v (cx_statistics s)))
    (update_counter k v (cx_statistics_current s))).

(** [find_ctdb_db]: first database of the list with that id. *)
Fixpoint find_db (id : Z) (l : list (ctdb_db_context T)) : option (ctdb_db_context T) :=
  match l with
  | [] => None
  | db :: l => if db_id db =? id then Some db else find_db id l
  end.
Definition find_ctdb_db (id : Z) : M T (option (ctdb_db_context T)) :=
  gets (λ s, find_db id (cx_db_list s)).

(** Write back a database context through its pointer. *)
Fixpoint put_db (db : ctdb_db_context T) (l : list (ctdb_db_context T))
    : list (ctdb_db_context T) :=
  match l with
  | [] => []
  | d :: l => if db_id d =? db_id db then db :: l else d :: put_db db l
  end.
Definition put_ctdb_db (db : ctdb_db_context T) : M T () :=
  modify (λ s, set_cx_db_list s (put_db db (cx_db_list s))).

(** Dereference a database pointer held by a call state or a handler. *)
Definition the_db (id : Z) : M T (ctdb_db_context T) :=
  odb ← find_ctdb_db id;
  match odb with
  | Some db => mret db
  | None => ctdb_fatal "no such database"
  end.

(** The daemon as the local tdb layer sees it. *)
Definition daemon_lc s : ltdb_ctx :=
  mk_ltdb_ctx (cx_pnn s) (Some (cx_vnn_map s)) true false (0, 0).

(** [ctdb_transport_allocate] of a packet whose C size is [len], at least
    [slen]; a transport that is down yields NULL, which every caller treats as
    a fatal out of memory. *)
Definition ctdb_transport_allocate (len slen : Z) : M T ctdb_req_header :=
  up ← gets cx_methods;
  if negb up then ctdb_fatal "Out of memory"
  else gets (λ s, mk_hdr (Z.max len slen) (vm_generation (cx_vnn_map s)) 0 (cx_pnn s) 0).

Definition ctdb_validate_pnn s (pnn : Z) : bool := pnn <? Z.of_nat (length (cx_nodes s)).

(** The packet is processed on the next event loop. *)
Definition ctdb_defer_packet p : M T () :=
  modify (λ s, set_cx_deferred s (cx_deferred s ++ [p])).

(** [ctdb_queue_packet] to a single node. *)
Definition queue_unicast p : M T () :=
  CTDB_INCREMENT_STAT node_packets_sent ;;
  let destnode := hdr_destnode (packet_hdr p) in
  s ← gets id;
  if negb (ctdb_validate_pnn s destnode) then mret ()
  else match cx_nodes s !! Z.to_nat destnode with
  | None => mret ()
  | Some node =>
      if nd_flags node &? NODE_FLAGS_DELETED then mret ()
      else if nd_pnn node =? cx_pnn s then ctdb_defer_packet p
      else if negb (cx_methods s) then mret ()
      else
        modify (λ s, set_cx_nodes s
          (<[Z.to_nat destnode := set_nd_tx_cnt node (u32 (nd_tx_cnt node + 1))]> (cx_nodes s))) ;;
        if negb (ev_queue_pkt ev destnode) then ctdb_fatal "Unable to queue packet"
        else modify (λ s, set_cx_net_out s (cx_net_out s ++ [p]))
  end.

Definition ctdb_broadcast_packet_all p : M T () :=
  nodes ← gets cx_nodes;
  mfor nodes (λ node,
    if nd_flags node &? NODE_FLAGS_DELETED then mret ()
    else queue_unicast (packet_set_dest p (nd_pnn node))).

Definition ctdb_broadcast_packet_vnnmap p : M T () :=
  vm ← gets cx_vnn_map;
  mfor (take (Z.to_nat (vm_size vm)) (vm_map vm))
    (λ pnn, queue_unicast (packet_set_dest p pnn)).

Definition ctdb_broadcast_packet_connected p : M T () :=
  nodes ← gets cx_nodes;
  mfor nodes (λ node,
    if nd_flags node &? NODE_FLAGS_DELETED then mret ()
    else if negb (nd_flags node &? NODE_FLAGS_DISCONNECTED)
    then queue_unicast (packet_set_dest p (nd_pnn node))
    else mret ()).

(** [ctdb_queue_packet]: queue a packet or die. *)
Definition ctdb_queue_packet p : M T () :=
  let destnode := hdr_destnode (packet_hdr p) in
  if destnode =? CTDB_BROADCAST_ALL then ctdb_broadcast_packet_all p
  else if destnode =? CTDB_BROADCAST_VNNMAP then ctdb_broadcast_packet_vnnmap p
  else if destnode =? CTDB_BROADCAST_CONNECTED then ctdb_broadcast_packet_connected p
  else queue_unicast p.

(** *** Request ids *)

Definition INT_MAX : Z := 2 ^ 31 - 1.

(** The lowest free id in [start, start + fuel), at most [INT_MAX]. *)
Fixpoint first_free (idr : gmap Z idr_entry) (start : Z) (fuel : nat) : option Z :=
  match fuel with
  | O => None
  | S fuel =>
      if INT_MAX <? start then None
      else match idr !! start with
      | None => Some start
      | Some _ => first_free idr (start + 1) fuel
      end
  end.

(** [idr_get_new_above] with limit [INT_MAX]; among [size idr + 1] candidates
    one is free. *)
Definition idr_get_new_above (idr : gmap Z idr_entry) (start : Z) : option Z :=
  first_free idr start (S (size idr)).

(** [ctdb_reqid_new]: the id, or -1 when all are taken. *)
Definition reqid_pick s : Z :=
  match idr_get_new_above (cx_idr s) (cx_lastid s + 1) with
  | Some id => id
  | None => default (-1) (idr_get_new_above (cx_idr s) 0)
  end.

(** The id the next request gets; its state is entered with [reqid_set]. *)
Definition ctdb_reqid_new : M T Z :=
  id ← gets reqid_pick;
  modify (λ s, set_cx_lastid s id) ;;
  mret (u32 id).

Definition reqid_set (reqid : Z) (e : idr_entry) : M T () :=
  modify (λ s, set_cx_idr s (<[reqid := e]> (cx_idr s))).

(** Ids are masked to 31 bits by the tree; a state of another type is not
    returned. *)
Definition ctdb_reqid_find (reqid : Z) : M T (option ctdb_call_state) :=
  gets (λ s, match cx_idr s !! (reqid mod 2 ^ 31) with
             | Some (IdrCall cs) => Some cs
             | _ => None
             end).

Definition ctdb_reqid_remove (reqid : Z) : M T () :=
  modify (λ s, set_cx_idr s (delete (reqid mod 2 ^ 31) (cx_idr s))).

(** *** Nodes coming and going *)

Definition upd_node (pnn : Z) (f : ctdb_node → ctdb_node) : M T () :=
  modify (λ s, set_cx_nodes s (alter f (Z.to_nat pnn) (cx_nodes s))).

(** [ctdb_node_dead]; cancelling the pending controls and restarting the
    transport are not part of this state. *)
Definition ctdb_node_dead (pnn : Z) : M T () :=
  s ← gets id;
  match cx_nodes s !! Z.to_nat pnn with
  | None => mret ()
  | Some node =>
      if nd_flags node &? NODE_FLAGS_DISCONNECTED then mret ()
      else
        modify (λ s, set_cx_num_connected s (cx_num_connected s - 1)) ;;
        upd_node pnn (λ n, set_nd_dead_count
          (set_nd_rx_cnt
             (set_nd_flags n (nd_flags n |+ (NODE_FLAGS_DISCONNECTED |+ NODE_FLAGS_UNHEALTHY))) 0) 0)
  end.

Definition ctdb_node_connected (pnn : Z) : M T () :=
  s ← gets id;
  match cx_nodes s !! Z.to_nat pnn with
  | None => mret ()
  | Some node =>
      if negb (nd_flags node &? NODE_FLAGS_DISCONNECTED) then mret ()
      else
        modify (λ s, set_cx_num_connected s (cx_num_connected s + 1)) ;;
        upd_node pnn (λ n, set_nd_flags (set_nd_dead_count n 0)
          ((nd_flags n &~ NODE_FLAGS_DISCONNECTED) |+ NODE_FLAGS_UNHEALTHY))
  end.

Definition ctdb_get_num_active_nodes s : Z :=
  Z.of_nat (length (filter (λ n, (nd_flags n &? NODE_FLAGS_INACTIVE) = false) (cx_nodes s))).

End node.

(** ** Lemmas on the list of databases *)

Section db_list.
Context {T : Type}.
Implicit Types (l : list (ctdb_db_context T)) (db : ctdb_db_context T).

Lemma find_db_id id l db : find_db id l = Some db → db_id db = id.
Proof.
  induction l as [|d l IH]; simpl; [done|]. case_match; [|done].
  intros [= <-]. by apply Z.eqb_eq.
Qed.

Lemma find_put_other id db l : db_id db ≠ id → find_db id (put_db db l) = find_db id l.
Proof.
  intros Hne. induction l as [|d l IH]; simpl; [done|].
  destruct (Z.eqb_spec (db_id d) (db_id db)) as [E|E]; simpl.
  - rewrite E. by rewrite (proj2 (Z.eqb_neq (db_id db) id)).
  - by rewrite IH.
Qed.

Lemma find_put db l db0 :
  find_db (db_id db) l = Some db0 → find_db (db_id db) (put_db db l) = Some db.
Proof.
  induction l as [|d l IH]; simpl; [done|].
  destruct (Z.eqb_spec (db_id d) (db_id db)) as [E|E]; simpl.
  - by rewrite Z.eqb_refl.
  - by rewrite (proj2 (Z.eqb_neq _ _)).
Qed.

End db_list.
