(* ===== verification/Call.v ===== *)
(** * The call protocol of one node

    [server/ctdb_call.c] with the packet dispatch of [server/ctdb_server.c],
    the lock requeueing of [server/ctdb_ltdb_server.c] and [ctdb_call_local] of
    [client/ctdb_client.c]: how a node answers, redirects or migrates a record,
    and how it becomes data master.  One definition per C function, in the
    order of the source; a [TDB_DATA] or header passed by pointer is returned
    updated. *)
From stdpp Require Import functions.
From S2P Require Import Prelude Protocol Ltdb Node.

(** ** Pure helpers *)

(** [%08x] *)
Definition hex_digit (d : Z) : Ascii.ascii :=
  Ascii.ascii_of_nat (Z.to_nat (if d <? 10 then 48 + d else 87 + d)).
Fixpoint hex (n : nat) (z : Z) (acc : string) : string :=
  match n with
  | O => acc
  | S n => hex n (z / 16) (String (hex_digit (z mod 16)) acc)
  end.

Definition hdr_to (h : ctdb_req_header) (dest reqid : Z) : ctdb_req_header :=
  mk_hdr (hdr_length h) (hdr_generation h) dest (hdr_srcnode h) reqid.

Definition set_rc_flags (c : ctdb_req_call) (v : Z) : ctdb_req_call :=
  mk_req_call (rc_hdr c) v (rc_db_id c) (rc_callid c) (rc_hopcount c) (rc_keylen c)
    (rc_calldatalen c) (rc_data c).
Definition set_rc_hdr (c : ctdb_req_call) (v : ctdb_req_header) : ctdb_req_call :=
  mk_req_call v (rc_flags c) (rc_db_id c) (rc_callid c) (rc_hopcount c) (rc_keylen c)
    (rc_calldatalen c) (rc_data c).
Definition set_rc_hopcount (c : ctdb_req_call) (v : Z) : ctdb_req_call :=
  mk_req_call (rc_hdr c) (rc_flags c) (rc_db_id c) (rc_callid c) v (rc_keylen c)
    (rc_calldatalen c) (rc_data c).

(** [sizeof] of the packets. *)
Definition sizeof_req_call : Z := 60.
Definition sizeof_reply_call : Z := 44.
Definition sizeof_req_dmaster : Z := 64.
Definition sizeof_reply_dmaster : Z := 64.
Definition sizeof_reply_error : Z := 44.
Definition sizeof_req_keepalive : Z := 32.

Definition rc_key (c : ctdb_req_call) : bytes := slice 0 (rc_keylen c) (rc_data c).
Definition rc_call_data (c : ctdb_req_call) : bytes :=
  slice (rc_keylen c) (rc_calldatalen c) (rc_data c).

(** The key under which a sticky record is filed: the length in words and the
    key padded with zeros to whole words. *)
Definition sticky_key (key : bytes) : bytes :=
  key ++ replicate ((4 - length key mod 4) mod 4) 0.

(** *** Hot keys *)

Definition hot_key_at (l : list hot_key) (i : nat) : hot_key := nth i l (mk_hot_key 0 []).

(** One iteration of the [sort_keys] loop: bring a smaller count to the front. *)
Definition sort_step (l : list hot_key) (i : nat) : list hot_key :=
  let hi := hot_key_at l i in
  let h0 := hot_key_at l 0 in
  if hk_count hi =? 0 then l
  else if hk_count hi <? hk_count h0 then <[0%nat := hi]> (<[i := h0]> l)
  else l.

Definition sort_keys (l : list hot_key) : list hot_key :=
  fold_left sort_step (seq 1 (MAX_HOT_KEYS - 1)) l.

(** The table of [ctdb_update_db_stat_hot_keys]: (num_hot_keys, hot_keys). *)
Definition update_hot_keys (num : nat) (l : list hot_key) (key : bytes) (hopcount : Z)
    : nat * list hot_key :=
  if hopcount <=? hk_count (hot_key_at l 0) then (num, l)
  else match list_find (λ hk, hk_key hk = key) l with
  | Some (i, hk) =>
      if hopcount <=? hk_count hk then (num, l)
      else (num, sort_keys (<[i := mk_hot_key hopcount (hk_key hk)]> l))
  | None =>
      let '(id, num) := if Nat.ltb num MAX_HOT_KEYS then (num, S num) else (0%nat, num) in
      (num, sort_keys (<[id := mk_hot_key hopcount key]> l))
  end.

Definition ctdb_update_db_stat_hot_keys {T} (db : ctdb_db_context T) (key : bytes)
    (hopcount : Z) : ctdb_db_context T :=
  let '(num, l) := update_hot_keys (db_num_hot_keys db) (db_hot_keys db) key hopcount in
  set_db_hot_keys (set_db_num_hot_keys db num) l.

(** *** Hop count buckets *)

(** The loop [while (tmp_count) { tmp_count >>= 2; bucket++; }] on an [int].
    The shift of a negative number never reaches zero: the loop does not end. *)
Fixpoint hop_loop (fuel : nat) (tmp_count : Z) (bucket : nat) : option nat :=
  if tmp_count =? 0 then Some bucket
  else match fuel with
  | O => None
  | S fuel => hop_loop fuel (Z.shiftr tmp_count 2) (S bucket)
  end.

(** Sixteen iterations exhaust a non-negative 32-bit [int]. *)
Definition hop_bucket (hopcount : Z) : option nat :=
  bucket ← hop_loop 16 (s32 hopcount) 0;
  Some (if Nat.leb MAX_COUNT_BUCKETS bucket then (MAX_COUNT_BUCKETS - 1)%nat else bucket).

(** ** Handlers *)

Section call.
Context {T : Type} `{!TdbOps T}.
Variable ev : node_env.
Implicit Types (id : Z) (key data : bytes) (header : ctdb_ltdb_header).

(** *** The local tdb layer on the databases of the daemon *)

Definition db_store id key header data : M T (Z * ctdb_ltdb_header) :=
  db ← the_db id;
  lc ← gets daemon_lc;
  let '(ret, header, db) := ctdb_ltdb_store lc db key header data in
  put_ctdb_db db ;; mret (ret, header).

Definition db_fetch id key : M T (Z * ctdb_ltdb_header * bytes) :=
  db ← the_db id;
  lc ← gets daemon_lc;
  let '(ret, header, data, db) := ctdb_ltdb_fetch lc db key zero_header in
  put_ctdb_db db ;; mret (ret, header, data).

Definition db_unlock id key : M T Z :=
  db ← the_db id;
  let '(ret, db) := ctdb_ltdb_unlock db key in
  put_ctdb_db db ;; mret ret.

Definition upd_db id (f : ctdb_db_context T → ctdb_db_context T) : M T () :=
  db ← the_db id; put_ctdb_db (f db).

(** [ctdb_ltdb_lock_requeue]: 0 with the chainlock held, -2 when the packet
    will come back through [lock_fetch_callback], -1 otherwise. *)
Definition ctdb_ltdb_lock_requeue id key (p : packet) (ignore_generation : bool) : M T Z :=
  match ev_lock ev with
  | LockError => mret (-1)
  | LockFree => upd_db id (λ db, set_db_chainlocks db (key :: db_chainlocks db)) ;; mret 0
  | LockBusyNoRequest => mret (-1)
  | LockBusy =>
      modify (λ s, set_cx_lock_queue s
        (cx_lock_queue s ++ [mk_lfs p (vm_generation (cx_vnn_map s)) ignore_generation])) ;;
      mret (-2)
  end.

(** [ctdb_ltdb_lock_fetch_requeue] *)
Definition ctdb_ltdb_lock_fetch_requeue id key (p : packet) (ignore_generation : bool)
    : M T (Z * ctdb_ltdb_header * bytes) :=
  ret ← ctdb_ltdb_lock_requeue id key p ignore_generation;
  if ret =? 0 then
    '(ret, header, data) ← db_fetch id key;
    if negb (ret =? 0) then db_unlock id key ;; mret (ret, header, data)
    else mret (ret, header, data)
  else mret (ret, zero_header, []).

(** *** [ctdb_call_local]: (return value, call, header) *)
Definition ctdb_call_local id (call : ctdb_call) header data (updatetdb : bool)
    : M T (Z * ctdb_call * ctdb_ltdb_header) :=
  db ← the_db id;
  match list_find (λ f : Z * ctdb_fn, f.1 = cl_call_id call) (db_calls db) with
  | None => mret (-1, call, header)
  | Some (_, (_, fn)) =>
      let '(r, c) :=
        fn (mk_call_info (cl_key call) header data None (cl_call_data call) None 0) in
      if negb (r =? 0) then mret (-1, call, ci_header c)
      else
        let new_data := default (ci_record_data c) (ci_new_data c) in
        '(ret, header) ← (if updatetdb then db_store id (cl_key call) (ci_header c) new_data
                          else mret (0, ci_header c));
        if negb (ret =? 0) then mret (-1, call, header)
        else mret (0, set_cl_reply call (default [] (ci_reply_data c)) (ci_status c), header)
  end.

(** *** Sending *)

Definition ctdb_send_error (hdr : ctdb_req_header) (status : Z) (msg : string) : M T () :=
  up ← gets cx_methods;
  if negb up then mret ()
  else
    h ← ctdb_transport_allocate (offsetof_reply_error_msg + Z.of_nat (String.length msg) + 1)
          sizeof_reply_error;
    ctdb_queue_packet ev (CTDB_REPLY_ERROR
      (mk_reply_error (hdr_to h (hdr_srcnode hdr) (hdr_reqid hdr)) (u32 status) msg)).

Definition ctdb_call_send_redirect key (c : ctdb_req_call) header : M T () :=
  s ← gets (λ s, s);
  let lmaster := ctdb_lmaster (cx_vnn_map s) key in
  let dest := if cx_pnn s =? lmaster then dmaster header else lmaster in
  let c := set_rc_hdr c (set_destnode (rc_hdr c) dest) in
  let c := set_rc_hopcount c (u32 (rc_hopcount c + 1)) in
  ctdb_queue_packet ev (CTDB_REQ_CALL c).

(** The caller has the chainlock and is the lmaster. *)
Definition ctdb_send_dmaster_reply id header key data (new_dmaster reqid : Z) : M T () :=
  s ← gets (λ s, s);
  if negb (cx_pnn s =? ctdb_lmaster (cx_vnn_map s) key) then mret ()
  else
    '(ret, header) ← db_store id key (set_dmaster header new_dmaster) data;
    if negb (ret =? 0) then
      ctdb_fatal "ctdb_send_dmaster_reply unable to update dmaster"
    else
      up ← gets cx_methods;
      if negb up then
        ctdb_fatal "ctdb_send_dmaster_reply cant update dmaster since transport is down"
      else
        h ← ctdb_transport_allocate
              (offsetof_reply_dmaster_data + dsize key + dsize data + 4) sizeof_reply_dmaster;
        db ← the_db id;
        ctdb_queue_packet ev (CTDB_REPLY_DMASTER
          (mk_reply_dmaster (hdr_to h new_dmaster reqid) (db_id db) (rsn header)
             (length key) (length data) (dmaster_blob key data (flags header)))).

(** Give another node the dmaster role, through the lmaster. *)
Definition ctdb_call_send_dmaster id (c : ctdb_req_call) header key data : M T () :=
  s ← gets (λ s, s);
  let lmaster := ctdb_lmaster (cx_vnn_map s) key in
  if negb (cx_methods s) then
    ctdb_fatal "Failed ctdb_call_send_dmaster since transport is down"
  else
    let header := if negb (dsize data =? 0)
                  then set_flags header (flags header |+ CTDB_REC_FLAG_MIGRATED_WITH_DATA)
                  else header in
    if lmaster =? cx_pnn s then
      ctdb_send_dmaster_reply id header key data (hdr_srcnode (rc_hdr c)) (hdr_reqid (rc_hdr c))
    else
      h ← ctdb_transport_allocate (offsetof_req_dmaster_data + dsize key + dsize data + 4)
            sizeof_req_dmaster;
      let r := mk_req_dmaster (hdr_to h lmaster (hdr_reqid (rc_hdr c))) (rc_db_id c)
                 (rsn header) (hdr_srcnode (rc_hdr c)) (length key) (length data)
                 (dmaster_blob key data (flags header)) in
      '(ret, _) ← db_store id key (set_dmaster header (hdr_srcnode (rc_hdr c))) data;
      if negb (ret =? 0) then
        ctdb_fatal "Failed to store record in ctdb_call_send_dmaster"
      else ctdb_queue_packet ev (CTDB_REQ_DMASTER r).

(** *** Sticky records *)

Definition sticky_lookup (db : ctdb_db_context T) key : option ctdb_sticky_record :=
  db_sticky_records db !! sticky_key key.

(** The deferred requests of a freed pindown context go to zero timers. *)
Definition release_pinned (ps : list ctdb_req_call) : M T () :=
  modify (λ s, set_cx_timers s (cx_timers s ++ ps)).

Definition ctdb_sticky_pindown_timeout id (skey : bytes) : M T () :=
  db ← the_db id;
  match db_sticky_records db !! skey with
  | Some (mk_sticky (Some ps)) =>
      put_ctdb_db (set_db_sticky_records db
        (<[skey := mk_sticky None]> (db_sticky_records db))) ;;
      release_pinned ps
  | _ => mret ()
  end.

Definition ctdb_set_sticky_pindown id key : M T Z :=
  db ← the_db id;
  match sticky_lookup db key with
  | None => mret 0
  | Some sr =>
      match sr_pindown sr with
      | None =>
          put_ctdb_db (set_db_sticky_records db
            (<[sticky_key key := mk_sticky (Some [])]> (db_sticky_records db))) ;;
          mret 0
      | Some _ => mret 0
      end
  end.

Definition ctdb_sticky_record_timeout id (skey : bytes) : M T () :=
  db ← the_db id;
  match db_sticky_records db !! skey with
  | Some sr =>
      put_ctdb_db (set_db_sticky_records db (delete skey (db_sticky_records db))) ;;
      release_pinned (default [] (sr_pindown sr))
  | None => mret ()
  end.

Definition ctdb_make_record_sticky id key : M T Z :=
  db ← the_db id;
  match sticky_lookup db key with
  | Some _ => mret 0
  | None =>
      put_ctdb_db (set_db_sticky_records db
        (<[sticky_key key := mk_sticky None]> (db_sticky_records db))) ;;
      mret 0
  end.

(** 0 when the request now waits for the end of the pindown. *)
Definition ctdb_defer_pinned_down_request id key (c : ctdb_req_call) : M T Z :=
  db ← the_db id;
  match sticky_lookup db key with
  | None => mret (-1)
  | Some sr =>
      match sr_pindown sr with
      | None => mret (-1)
      | Some ps =>
          put_ctdb_db (set_db_sticky_records db
            (<[sticky_key key := mk_sticky (Some (c :: ps))]> (db_sticky_records db))) ;;
          mret 0
      end
  end.

(** *** Becoming dmaster *)

(** [state->state = ...; if (state->async.fn) state->async.fn(state)] *)
Definition complete_call (reqid : Z) (cs : ctdb_call_state) : M T () :=
  reqid_set (reqid mod 2 ^ 31) (IdrCall cs) ;;
  when (cs_async cs) (modify (λ s, set_cx_done s (cx_done s ++ [cs]))).

(** Called with the chainlock held, which it releases. *)
Definition ctdb_become_dmaster id (hdr : ctdb_req_header) key data (rsn record_flags : Z)
    : M T () :=
  pnn ← gets cx_pnn;
  let header := mk_header rsn pnn 0 record_flags in
  state ← ctdb_reqid_find (hdr_reqid hdr);
  let header :=
    match state with
    | Some cs =>
        if cl_flags (cs_call cs) &? CTDB_CALL_FLAG_VACUUM_MIGRATION
        then set_flags header (flags header |+ CTDB_REC_FLAG_VACUUM_MIGRATED) else header
    | None => header
    end in
  '(ret, header) ← db_store id key header data;
  if negb (ret =? 0) then ctdb_fatal "ctdb_reply_dmaster store failed"
  else
    db ← the_db id;
    (if db_sticky db then ctdb_set_sticky_pindown id key ;; mret () else mret ()) ;;
    match state with
    | None => db_unlock id key ;; mret ()
    | Some cs =>
        if negb (bool_decide (key = cl_key (cs_call cs))) then db_unlock id key ;; mret ()
        else if negb (hdr_reqid hdr =? cs_reqid cs) then db_unlock id key ;; mret ()
        else
          '(_, call, _) ← ctdb_call_local id (cs_call cs) header data true;
          db_unlock id (cl_key call) ;;
          complete_call (hdr_reqid hdr) (set_cs_state (set_cs_call cs call) CTDB_CALL_DONE)
    end.

Definition unknown_database (id : Z) : string :=
  ("Unknown database in request. db_id==0x" +:+ hex 8 id "")%string.

(** Called when a CTDB_REQ_DMASTER packet comes in. *)
Definition ctdb_request_dmaster (c : ctdb_req_dmaster) : M T () :=
  let hdr := rd_hdr c in
  let key := blob_key (rd_keylen c) (rd_data c) in
  let data := blob_data (rd_keylen c) (rd_datalen c) (rd_data c) in
  let record_flags := blob_flags offsetof_req_dmaster_data (hdr_length hdr)
                        (rd_keylen c) (rd_datalen c) (rd_data c) in
  odb ← find_ctdb_db (rd_db_id c);
  match odb with
  | None => ctdb_send_error hdr (-1) (unknown_database (rd_db_id c))
  | Some db =>
      let id := db_id db in
      '(ret, header, _) ← ctdb_ltdb_lock_fetch_requeue id key (CTDB_REQ_DMASTER c) false;
      if ret =? -1 then ctdb_fatal "ctdb_req_dmaster failed to fetch record"
      else if ret =? -2 then mret ()
      else
        s ← gets (λ s, s);
        if negb (ctdb_lmaster (cx_vnn_map s) key =? cx_pnn s) then
          ctdb_fatal "ctdb_req_dmaster to non-lmaster"
        else if negb (dmaster header =? hdr_srcnode hdr)
                && (negb (rsn header =? 0) || negb (dmaster header =? cx_pnn s)) then
          modify (λ s, set_cx_recovery_mode s CTDB_RECOVERY_ACTIVE) ;;
          db_unlock id key ;; mret ()
        else
          let header := set_rsn header (rd_rsn c) in
          let header := set_flags header record_flags in
          if rd_dmaster c =? cx_pnn s then
            ctdb_become_dmaster id hdr key data (rd_rsn c) record_flags
          else
            ctdb_send_dmaster_reply id header key data (rd_dmaster c) (hdr_reqid hdr) ;;
            db_unlock id key ;; mret ()
  end.

(** *** Revoking read-only delegations: the daemon's side *)

Definition ctdb_start_revoke_ro_record id key header data : M T Z :=
  let header := set_flags header (flags header &~
    (CTDB_REC_RO_REVOKING_READONLY |+ CTDB_REC_RO_HAVE_DELEGATIONS |+ CTDB_REC_RO_HAVE_READONLY)) in
  let header := set_flags header (flags header |+ CTDB_REC_FLAG_MIGRATED_WITH_DATA) in
  let header := set_rsn header (u64 (rsn header - 1)) in
  if negb (ev_revoke ev) then mret (-1)
  else
    db ← the_db id;
    let tdata := tdb_fetch (db_rottdb db) key in
    put_ctdb_db (set_db_revokechild_active db
      (db_revokechild_active db ++ [mk_revokechild key (tdata, header, data) []])) ;;
    mret 0.

(** Add a packet to the first revoke of the key. *)
Fixpoint revoke_defer (l : list revokechild) key (c : ctdb_req_call) : option (list revokechild) :=
  match l with
  | [] => None
  | rc :: l =>
      if negb (dsize (rv_key rc) =? 0) && bool_decide (rv_key rc = key)
      then Some (mk_revokechild (rv_key rc) (rv_job rc) (c :: rv_deferred rc) :: l)
      else l ← revoke_defer l key c; Some (rc :: l)
  end.

Definition ctdb_add_revoke_deferred_call id key (c : ctdb_req_call) : M T Z :=
  db ← the_db id;
  match revoke_defer (db_revokechild_active db) key c with
  | None => mret (-1)
  | Some l => put_ctdb_db (set_db_revokechild_active db l) ;; mret 0
  end.

(** [revokechild_handler] on the [i]-th active revoke: whatever the child
    reports, the handle is freed and its deferred calls are requeued. *)
Definition revokechild_handler id (i : nat) : M T () :=
  db ← the_db id;
  match db_revokechild_active db !! i with
  | None => mret ()
  | Some rc =>
      put_ctdb_db (set_db_revokechild_active db (delete i (db_revokechild_active db))) ;;
      modify (λ s, set_cx_timers s (cx_timers s ++ rv_deferred rc))
  end.

(** *** Answering a call *)

(** [header.flags & CTDB_REC_RO_REVOKE_COMPLETE]: a finished revoke is cleared
    from the record and its tracking data dropped. *)
Definition clear_revoke_complete id key header data : M T ctdb_ltdb_header :=
  if flags header &? CTDB_REC_RO_REVOKE_COMPLETE then
    let header := set_flags header (flags header &~ CTDB_REC_RO_FLAGS) in
    CTDB_INCREMENT_STAT total_ro_revokes ;;
    upd_db id (λ db, set_db_ro_revokes db (u32 (db_ro_revokes db + 1))) ;;
    '(ret, header) ← db_store id key header data;
    if negb (ret =? 0) then ctdb_fatal "Failed to write header with cleared REVOKE flag"
    else
      upd_db id (λ db, set_db_rottdb db (tdb_delete (db_rottdb db) key).1) ;;
      mret header
  else mret header.

(** A write to a record with delegations: mark it, start the revoke and defer
    the call. *)
Definition start_revoke id key (c : ctdb_req_call) header data : M T () :=
  let header := set_flags header (flags header |+ CTDB_REC_RO_REVOKING_READONLY) in
  '(ret, header) ← db_store id key header data;
  if negb (ret =? 0) then ctdb_fatal "Failed to store record with HAVE_DELEGATIONS set"
  else
    db_unlock id key ;;
    ret ← ctdb_start_revoke_ro_record id key header data;
    if negb (ret =? 0) then ctdb_fatal "Failed to start record revoke"
    else
      ret ← ctdb_add_revoke_deferred_call id key c;
      if negb (ret =? 0) then ctdb_fatal "Failed to add deferred call for revoke child"
      else mret ().

(** The first delegation of a record bumps the rsn and sets the flag. *)
Definition first_delegation id key (c : ctdb_req_call) header data : M T ctdb_ltdb_header :=
  if (rc_flags c &? CTDB_WANT_READONLY) && (rc_callid c =? CTDB_FETCH_WITH_HEADER_FUNC)
     && negb (flags header &? CTDB_REC_RO_HAVE_DELEGATIONS)
  then
    let header := set_rsn header (u64 (rsn header + 3)) in
    let header := set_flags header (flags header |+ CTDB_REC_RO_HAVE_DELEGATIONS) in
    '(ret, header) ← db_store id key header data;
    if negb (ret =? 0) then ctdb_fatal "Failed to store record with HAVE_DELEGATIONS set"
    else mret header
  else mret header.

(** Remember in the tracking database which node has a read-only copy. *)
Definition track_delegation id key (pnn : Z) : M T Z :=
  db ← the_db id;
  let tdata := ctdb_trackingdb_add_pnn (tdb_fetch (db_rottdb db) key) pnn in
  let '(t, ret) := tdb_store (db_rottdb db) key tdata in
  put_ctdb_db (set_db_rottdb db t) ;; mret ret.

(** Hand out a read-only copy. *)
Definition delegate id key (c : ctdb_req_call) header data : M T () :=
  ret ← track_delegation id key (hdr_srcnode (rc_hdr c));
  if negb (ret =? 0) then ctdb_fatal "Failed to store trackingdb data"
  else
    db_unlock id key ;;
    h ← ctdb_transport_allocate
          (offsetof_reply_call_data + dsize data + Z.of_nat sizeof_header) sizeof_reply_call;
    let header := set_rsn header (u64 (rsn header - 2)) in
    let header := set_flags header (flags header |+ CTDB_REC_RO_HAVE_READONLY) in
    let header := set_flags header (flags header &~ CTDB_REC_RO_HAVE_DELEGATIONS) in
    ctdb_queue_packet ev (CTDB_REPLY_CALL
      (mk_reply_call (hdr_to h (hdr_srcnode (rc_hdr c)) (hdr_reqid (rc_hdr c))) 0
         (length data + sizeof_header) (header_bytes header ++ data))) ;;
    CTDB_INCREMENT_STAT total_ro_delegations ;;
    upd_db id (λ db, set_db_ro_delegations db (u32 (db_ro_delegations db + 1))).

(** The statistics of a call this node answers. *)
Definition call_statistics id key (c : ctdb_req_call) : M T () :=
  CTDB_UPDATE_STAT max_hop_count (rc_hopcount c) ;;
  match hop_bucket (rc_hopcount c) with
  | None => spin
  | Some bucket =>
      CTDB_INCREMENT_STAT (hop_count_bucket bucket) ;;
      upd_db id (λ db, set_db_hop_count_bucket db
        (alter (λ n, u32 (n + 1)) bucket (db_hop_count_bucket db))) ;;
      upd_db id (λ db, ctdb_update_db_stat_hot_keys db key (rc_hopcount c)) ;;
      db ← the_db id;
      make_sticky ← gets cx_hopcount_make_sticky;
      if db_sticky db && (make_sticky <=? rc_hopcount c)
      then ctdb_make_record_sticky id key ;; mret ()
      else mret ()
  end.

(** The caller is on this node: run the call and reply. *)
Definition answer_local id (call : ctdb_call) (hdr : ctdb_req_header) header data : M T () :=
  '(ret, call, _) ← ctdb_call_local id call header data true;
  let call := if negb (ret =? 0) then set_cl_status call (2 ^ 32 - 1) else call in
  db_unlock id (cl_key call) ;;
  h ← ctdb_transport_allocate (offsetof_reply_call_data + dsize (cl_reply_data call))
        sizeof_reply_call;
  ctdb_queue_packet ev (CTDB_REPLY_CALL
    (mk_reply_call (hdr_to h (hdr_srcnode hdr) (hdr_reqid hdr)) (cl_status call)
       (length (cl_reply_data call)) (cl_reply_data call))).

(** After the record is locked and fetched. *)
Definition request_call_locked id key (c : ctdb_req_call) header data : M T () :=
  db ← the_db id;
  pnn ← gets cx_pnn;
  let c := if (rc_flags c &? CTDB_WANT_READONLY) && negb (db_readonly db)
           then set_rc_flags c (rc_flags c &~ CTDB_WANT_READONLY) else c in
  header ← clear_revoke_complete id key header data;
  if flags header &? CTDB_REC_RO_REVOKING_READONLY then
    db_unlock id key ;;
    ret ← ctdb_add_revoke_deferred_call id key c;
    if negb (ret =? 0) then ctdb_fatal "Failed to add deferred call for revoke child"
    else mret ()
  else if negb (dmaster header =? pnn) && negb (flags header &? CTDB_REC_RO_HAVE_DELEGATIONS) then
    ctdb_call_send_redirect key c header ;;
    db_unlock id key ;; mret ()
  else if negb (rc_flags c &? CTDB_WANT_READONLY)
          && (flags header &? (CTDB_REC_RO_HAVE_DELEGATIONS |+ CTDB_REC_RO_HAVE_READONLY)) then
    start_revoke id key c header data
  else
    header ← first_delegation id key c header data;
    if (rc_flags c &? CTDB_WANT_READONLY) && (rc_callid c =? CTDB_FETCH_WITH_HEADER_FUNC) then
      delegate id key c header data
    else
      call_statistics id key c ;;
      if negb (hdr_srcnode (rc_hdr c) =? pnn) then
        db ← the_db id;
        if db_persistent_state db then mret ()
        else
          ctdb_call_send_dmaster id c header key data ;;
          db_unlock id key ;; mret ()
      else
        answer_local id (mk_call (rc_callid c) key (rc_call_data c) [] 0 0) (rc_hdr c) header data.

(** Called when a CTDB_REQ_CALL packet comes in. *)
Definition ctdb_request_call (c : ctdb_req_call) : M T () :=
  up ← gets cx_methods;
  if negb up then mret ()
  else
    odb ← find_ctdb_db (rc_db_id c);
    match odb with
    | None => ctdb_send_error (rc_hdr c) (-1) (unknown_database (rc_db_id c))
    | Some db =>
        let id := db_id db in
        let key := rc_key c in
        pinned ← (if db_sticky db then
                    ret ← ctdb_defer_pinned_down_request id key c;
                    mret (ret =? 0)
                  else mret false);
        if (pinned : bool) then mret ()
        else
          '(ret, header, data) ← ctdb_ltdb_lock_fetch_requeue id key (CTDB_REQ_CALL c) false;
          if ret =? -1 then
            ctdb_send_error (rc_hdr c) ret "ltdb fetch failed in ctdb_request_call"
          else if ret =? -2 then mret ()
          else request_call_locked id key c header data
    end.

(** *** Replies *)

(** The header of a reply that [ctdb_ltdb_store] updated in place: the four
    members are overwritten, the alignment bytes and the data are not. *)
Definition poke_header (h : ctdb_ltdb_header) (data : bytes) : bytes :=
  take 20 (header_bytes h) ++ drop 20 data.

(** The read-only delegation part of [ctdb_reply_call]: [None] when the packet
    was requeued or dropped, else the (possibly updated) reply data.  Reply
    data shorter than a header reads as zeros. *)
Definition reply_call_ro (cs : ctdb_call_state) (c : ctdb_reply_call) : M T (option bytes) :=
  if rc_callid (cs_c cs) =? CTDB_FETCH_WITH_HEADER_FUNC then
    let header := header_of_bytes (rp_data c) in
    if negb (flags header &? CTDB_REC_RO_HAVE_READONLY) then mret (Some (rp_data c))
    else
      let id := cs_db_id cs in
      let key := rc_key (cs_c cs) in
      ret ← ctdb_ltdb_lock_requeue id key (CTDB_REPLY_CALL c) false;
      if negb (ret =? 0) then mret None
      else
        '(ret, oldheader, _) ← db_fetch id key;
        if negb (ret =? 0) || (rsn header <=? rsn oldheader)
           || Nat.ltb (rp_datalen c) sizeof_header then
          db_unlock id key ;; mret (Some (rp_data c))
        else
          '(_, header) ← db_store id key header
             (slice sizeof_header (rp_datalen c - sizeof_header) (rp_data c));
          db_unlock id key ;; mret (Some (poke_header header (rp_data c)))
  else mret (Some (rp_data c)).

(** Called when a CTDB_REPLY_CALL packet comes in. *)
Definition ctdb_reply_call (c : ctdb_reply_call) : M T () :=
  let hdr := rp_hdr c in
  state ← ctdb_reqid_find (hdr_reqid hdr);
  match state with
  | None => mret ()
  | Some cs =>
      if negb (hdr_reqid hdr =? cs_reqid cs) then mret ()
      else
        odata ← reply_call_ro cs c;
        match odata with
        | None => mret ()
        | Some data =>
            let call := set_cl_reply (cs_call cs) (take (rp_datalen c) data) (rp_status c) in
            complete_call (hdr_reqid hdr) (set_cs_state (set_cs_call cs call) CTDB_CALL_DONE)
        end
  end.

(** Called when a CTDB_REPLY_DMASTER packet comes in. *)
Definition ctdb_reply_dmaster (c : ctdb_reply_dmaster) : M T () :=
  let hdr := ry_hdr c in
  odb ← find_ctdb_db (ry_db_id c);
  match odb with
  | None => mret ()
  | Some db =>
      let id := db_id db in
      let key := blob_key (ry_keylen c) (ry_data c) in
      let data := blob_data (ry_keylen c) (ry_datalen c) (ry_data c) in
      let record_flags := blob_flags offsetof_reply_dmaster_data (hdr_length hdr)
                            (ry_keylen c) (ry_datalen c) (ry_data c) in
      ret ← ctdb_ltdb_lock_requeue id key (CTDB_REPLY_DMASTER c) false;
      if negb (ret =? 0) then mret ()
      else ctdb_become_dmaster id hdr key data (ry_rsn c) record_flags
  end.

(** Called when a CTDB_REPLY_ERROR packet comes in. *)
Definition ctdb_reply_error (c : ctdb_reply_error) : M T () :=
  let hdr := re_hdr c in
  state ← ctdb_reqid_find (hdr_reqid hdr);
  match state with
  | None => mret ()
  | Some cs =>
      if negb (hdr_reqid hdr =? cs_reqid cs) then mret ()
      else complete_call (hdr_reqid hdr)
             (set_cs_errmsg (set_cs_state cs CTDB_CALL_ERROR) (re_msg c))
  end.

(** *** The caller's side *)

Definition ctdb_call_destructor (reqid : Z) : M T () :=
  modify (λ s, set_cx_pending_calls s (filter (λ r, r ≠ reqid) (cx_pending_calls s))) ;;
  ctdb_reqid_remove reqid.

(** Resend a call after a reconfiguration, under a new request id. *)
Definition ctdb_call_resend (reqid : Z) : M T () :=
  state ← ctdb_reqid_find reqid;
  match state with
  | None => mret ()
  | Some cs =>
      generation ← gets (λ s, vm_generation (cx_vnn_map s));
      pnn ← gets cx_pnn;
      ctdb_reqid_remove reqid ;;
      reqid' ← ctdb_reqid_new;
      let c := set_rc_hdr (cs_c cs)
        (mk_hdr (hdr_length (rc_hdr (cs_c cs))) generation pnn
           (hdr_srcnode (rc_hdr (cs_c cs))) reqid') in
      reqid_set reqid' (IdrCall (mk_cs (cs_state cs) reqid' c (cs_db_id cs) (cs_errmsg cs)
        (cs_call cs) generation (cs_async cs))) ;;
      modify (λ s, set_cx_pending_calls s
        ((λ r, if r =? reqid then reqid' else r) <$> cx_pending_calls s)) ;;
      ctdb_queue_packet ev (CTDB_REQ_CALL c)
  end.

Definition ctdb_call_resend_all : M T () :=
  pending ← gets cx_pending_calls;
  mfor pending ctdb_call_resend.

(** [ctdb_call_local_send] returns the finished state; [call_local_trigger]
    calls its [async.fn] from a zero timer. *)
Definition ctdb_call_local_send id (call : ctdb_call) header data : M T ctdb_call_state :=
  '(_, call, _) ← ctdb_call_local id call header data true;
  mret (mk_cs CTDB_CALL_DONE 0
          (mk_req_call (mk_hdr 0 0 0 0 0) 0 0 0 0 0 0 []) id "" call 0 false).

Definition call_local_trigger (cs : ctdb_call_state) : M T () :=
  when (cs_async cs) (modify (λ s, set_cx_done s (cx_done s ++ [cs]))).

(** Send a call to the node the header names; the request id, or [None] when
    the transport is down. *)
Definition ctdb_daemon_call_send_remote id (call : ctdb_call) header : M T (option Z) :=
  up ← gets cx_methods;
  if negb up then mret None
  else
    reqid ← ctdb_reqid_new;
    h ← ctdb_transport_allocate
          (offsetof_req_call_data + dsize (cl_key call) + dsize (cl_call_data call))
          sizeof_req_call;
    let c := mk_req_call (hdr_to h (dmaster header) reqid) (cl_flags call) id (cl_call_id call) 0
               (length (cl_key call)) (length (cl_call_data call))
               (cl_key call ++ cl_call_data call) in
    generation ← gets (λ s, vm_generation (cx_vnn_map s));
    reqid_set reqid (IdrCall (mk_cs CTDB_CALL_WAIT reqid c id "" call generation false)) ;;
    modify (λ s, set_cx_pending_calls s (reqid :: cx_pending_calls s)) ;;
    ctdb_queue_packet ev (CTDB_REQ_CALL c) ;;
    mret (Some reqid).

(** [ctdb_daemon_call_recv] once the call has completed; [None] while it waits. *)
Definition ctdb_daemon_call_recv (cs : ctdb_call_state) (call : ctdb_call)
    : option (Z * ctdb_call) :=
  match cs_state cs with
  | CTDB_CALL_WAIT => None
  | CTDB_CALL_ERROR => Some (-1, call)
  | CTDB_CALL_DONE =>
      Some (0, set_cl_reply call (cl_reply_data (cs_call cs)) (cl_status (cs_call cs)))
  end.

Definition ctdb_send_keepalive (destnode : Z) : M T () :=
  up ← gets cx_methods;
  if negb up then mret ()
  else
    h ← ctdb_transport_allocate sizeof_req_keepalive sizeof_req_keepalive;
    CTDB_INCREMENT_STAT keepalive_packets_sent ;;
    ctdb_queue_packet ev (CTDB_REQ_KEEPALIVE (hdr_to h destnode 0)).

(** *** Dispatch *)

(** The handlers of the other packet types. *)
Variables ctdb_request_message ctdb_request_control ctdb_reply_control : packet → M T ().

(** Packets of the call protocol are dropped while banned or when they belong
    to another generation. *)
Definition call_packet (p : packet) : bool :=
  match p with
  | CTDB_REQ_CALL _ | CTDB_REPLY_CALL _ | CTDB_REQ_DMASTER _ | CTDB_REPLY_DMASTER _ => true
  | _ => false
  end.

Definition node_banned (s : ctdb_context T) : bool :=
  match cx_nodes s !! Z.to_nat (cx_pnn s) with
  | Some n => nd_flags n &? NODE_FLAGS_BANNED
  | None => false
  end.

Definition ctdb_input_pkt (p : packet) : M T () :=
  s ← gets (λ s, s);
  if call_packet p && (node_banned s
       || negb (vm_generation (cx_vnn_map s) =? hdr_generation (packet_hdr p)))
  then mret ()
  else match p with
  | CTDB_REQ_CALL c => CTDB_INCREMENT_STAT node_req_call ;; ctdb_request_call c
  | CTDB_REPLY_CALL c => CTDB_INCREMENT_STAT node_reply_call ;; ctdb_reply_call c
  | CTDB_REPLY_ERROR c => CTDB_INCREMENT_STAT node_reply_error ;; ctdb_reply_error c
  | CTDB_REQ_DMASTER c => CTDB_INCREMENT_STAT node_req_dmaster ;; ctdb_request_dmaster c
  | CTDB_REPLY_DMASTER c => CTDB_INCREMENT_STAT node_reply_dmaster ;; ctdb_reply_dmaster c
  | CTDB_REQ_MESSAGE _ _ => CTDB_INCREMENT_STAT node_req_message ;; ctdb_request_message p
  | CTDB_REQ_CONTROL _ _ => CTDB_INCREMENT_STAT node_req_control ;; ctdb_request_control p
  | CTDB_REPLY_CONTROL _ _ => CTDB_INCREMENT_STAT node_reply_control ;; ctdb_reply_control p
  | CTDB_REQ_KEEPALIVE _ => CTDB_INCREMENT_STAT keepalive_packets_recv
  | CTDB_UNKNOWN_OPERATION _ => mret ()
  end.

(** [ctdb_recv_pkt] of [server/ctdbd.c]: redirected calls do not count as a
    sign of life of their source. *)
Definition ctdb_recv_pkt (p : packet) : M T () :=
  CTDB_INCREMENT_STAT node_packets_recv ;;
  s ← gets (λ s, s);
  let src := hdr_srcnode (packet_hdr p) in
  (if ctdb_validate_pnn s src
      && match p with CTDB_REQ_CALL c => rc_hopcount c =? 0 | _ => true end
   then upd_node src (λ n, set_nd_rx_cnt n (u32 (nd_rx_cnt n + 1)))
   else mret ()) ;;
  ctdb_input_pkt p.

(** [lock_fetch_callback]: retry the packet now that the lock was obtained. *)
Definition lock_fetch_callback (lf : lock_fetch_state) : M T () :=
  generation ← gets (λ s, vm_generation (cx_vnn_map s));
  if negb (lf_ignore_generation lf) && negb (lf_generation lf =? generation) then mret ()
  else ctdb_input_pkt (lf_hdr lf).

End call.

(** ** The revoke child *)

Section revoke.
Context {T : Type} `{!TdbOps T}.
Implicit Types (db : ctdb_db_context T).

(** [struct ctdb_revoke_state] *)
Record ctdb_revoke_state := mk_rs {
  rs_count : Z;
  rs_status : Z;
  rs_finished : bool;
}.

(** What the event loop delivers: the reply (return value, result) of one
    update-record control, or the five second timeout. *)
Inductive revoke_event :=
  | RevokeReply (ret res : Z)
  | RevokeTimeout.

Definition update_record_cb (ret res : Z) (st : ctdb_revoke_state) : ctdb_revoke_state :=
  let status := if negb (ret =? 0) || negb (res =? 0) then -1 else rs_status st in
  let count := rs_count st - 1 in
  mk_rs count status (if count <=? 0 then true else rs_finished st).

(** [sent] is whether [ctdb_ctrl_updaterecord_send] succeeded. *)
Definition revoke_send_cb (sent : bool) (st : ctdb_revoke_state) : ctdb_revoke_state :=
  if sent then mk_rs (rs_count st + 1) (rs_status st) (rs_finished st)
  else mk_rs (rs_count st) (-1) (rs_finished st).

Definition ctdb_revoke_timeout_handler (st : ctdb_revoke_state) : ctdb_revoke_state :=
  mk_rs (rs_count st) (-1) true.

Definition revoke_event_cb (e : revoke_event) : ctdb_revoke_state → ctdb_revoke_state :=
  match e with
  | RevokeReply ret res => update_record_cb ret res
  | RevokeTimeout => ctdb_revoke_timeout_handler
  end.

(** [while (state->finished == 0) event_loop_once(...)]: [None] when the events
    do not finish the revoke. *)
Fixpoint revoke_wait (evs : list revoke_event) (st : ctdb_revoke_state)
    : option ctdb_revoke_state :=
  if rs_finished st then Some st
  else match evs with
  | [] => None
  | e :: evs => revoke_wait evs (revoke_event_cb e st)
  end.

Definition RO_REVOKE_MASK : Z := CTDB_REC_RO_REVOKING_READONLY |+ CTDB_REC_RO_HAVE_DELEGATIONS.

(** [ctdb_revoke_all_delegations], run in the child process with context [lc];
    [lock_ok] is whether the chainlock could be taken. *)
Definition ctdb_revoke_all_delegations (lc : ltdb_ctx) (send_ok : Z → bool) (lock_ok : bool)
    (evs : list revoke_event) db (tdata key : bytes) (header : ctdb_ltdb_header)
    : option (Z * ctdb_db_context T) :=
  let st := foldl (λ st pnn, revoke_send_cb (send_ok pnn) st) (mk_rs 0 0 false)
              (ctdb_trackingdb_traverse tdata) in
  st ← revoke_wait evs st;
  if negb (rs_status st =? 0) then Some (rs_status st, db)
  else if negb lock_ok then Some (-1, db)
  else
    let '(ret, new_header, new_data, db) := ctdb_ltdb_fetch lc db key zero_header in
    if negb (ret =? 0) then Some (-1, db)
    else
      let header := set_rsn header (u64 (rsn header + 1)) in
      if rsn header <? rsn new_header then Some (-1, db)
      else if negb (Z.land (flags new_header) RO_REVOKE_MASK =? RO_REVOKE_MASK) then Some (-1, db)
      else
        let new_header := set_rsn new_header (u64 (rsn new_header + 1)) in
        let new_header := set_flags new_header (flags new_header |+ CTDB_REC_RO_REVOKE_COMPLETE) in
        let '(ret, _, db) := ctdb_ltdb_store lc db key new_header new_data in
        if negb (ret =? 0) then Some (-1, db) else Some (0, db).

End revoke.
