(* ===== verification/Freeze.v ===== *)
(** * Freezing databases

    [server/ctdb_freeze.c]: databases are frozen by priority through a child
    process that holds all their locks; a recovery runs in a transaction on
    every database while all of them are frozen.  Also [setvnnmap] of
    [server/ctdb_recover.c], which a frozen node accepts.

    The lock child is the environment: it reports through
    [ctdb_freeze_lock_handler] when it has the locks, when it failed to get
    them and when it died.  Transactions are those of the tdb library, an
    interface ([TdbTxn] with [TdbTxnLaws]) next to the one of the local tdb
    layer; [txtdb] is an in-memory instance. *)
From stdpp Require Import functions.
From S2P Require Import Prelude Protocol Ltdb Node Call.

(** ** The tdb interface, continued *)

(** [tdb_lookup] is [tdb_fetch] with the NULL pointer as [None];
    [tdb_traverse_read] the records in the order of the traversal, [None] when
    it fails; [tdb_create] a new file.  Transactions: [tdb_in_transaction] is
    whether one is open, [tdb_saved] the content outside of it. *)
Class TdbTxn (T : Type) := {
  tdb_lookup : T → bytes → option bytes;
  tdb_traverse_read : T → option (list (bytes * bytes));
  tdb_wipe_all : T → T * Z;
  tdb_create : T;
  tdb_transaction_start : T → T * Z;
  tdb_transaction_cancel : T → T * Z;
  tdb_transaction_commit : T → T * Z;
  tdb_in_transaction : T → bool;
  tdb_saved : T → bytes → option bytes;
}.

(** What the callers rely on.  The databases are opened with
    TDB_DISALLOW_NESTING: a second start fails.  A cancel ends an open
    transaction also when it reports that it could not remove its recovery
    marker. *)
Class TdbTxnLaws (T : Type) `{TdbOps T, !TdbTxn T} := {
  tdb_fetch_lookup t k : tdb_fetch t k = default [] (tdb_lookup t k);
  tdb_exists_lookup t k : tdb_exists t k = bool_decide (is_Some (tdb_lookup t k));
  tdb_traverse_nodup t l : tdb_traverse_read t = Some l → NoDup l.*1;
  tdb_traverse_spec t l k v :
    tdb_traverse_read t = Some l → (k, v) ∈ l ↔ tdb_lookup t k = Some v;
  tdb_lookup_store t k v t' : tdb_store t k v = (t', 0) → tdb_lookup t' k = Some v;
  tdb_lookup_store_other t k v t' r k' :
    tdb_store t k v = (t', r) → k' ≠ k → tdb_lookup t' k' = tdb_lookup t k';
  tdb_lookup_store_fail t k v t' r :
    tdb_store t k v = (t', r) → r ≠ 0 → tdb_lookup t' k = tdb_lookup t k ∨ tdb_lookup t' k = None;
  tdb_lookup_delete t k t' : tdb_delete t k = (t', 0) → tdb_lookup t' k = None;
  tdb_lookup_delete_fail t k t' r :
    tdb_delete t k = (t', r) → r ≠ 0 → tdb_lookup t' k = tdb_lookup t k ∨ tdb_lookup t' k = None;
  tdb_lookup_delete_other t k t' r k' :
    tdb_delete t k = (t', r) → k' ≠ k → tdb_lookup t' k' = tdb_lookup t k';
  tdb_lookup_set_flag t b k : tdb_lookup (tdb_set_seqnum_flag t b) k = tdb_lookup t k;
  tdb_lookup_wipe t t' k : tdb_wipe_all t = (t', 0) → tdb_lookup t' k = None;
  tdb_lookup_create k : tdb_lookup tdb_create k = None;
  tdb_start_ok t t' :
    tdb_transaction_start t = (t', 0) →
    tdb_in_transaction t = false ∧ tdb_in_transaction t' = true
    ∧ (∀ k, tdb_lookup t' k = tdb_lookup t k) ∧ (∀ k, tdb_saved t' k = tdb_lookup t k);
  tdb_start_fail t t' r : tdb_transaction_start t = (t', r) → r ≠ 0 → t' = t;
  tdb_cancel_open t t' r :
    tdb_transaction_cancel t = (t', r) → tdb_in_transaction t = true →
    tdb_in_transaction t' = false ∧ ∀ k, tdb_lookup t' k = tdb_saved t k;
  tdb_cancel_none t t' r :
    tdb_transaction_cancel t = (t', r) → tdb_in_transaction t = false → t' = t;
  tdb_commit_ok t t' :
    tdb_transaction_commit t = (t', 0) →
    tdb_in_transaction t = true ∧ tdb_in_transaction t' = false
    ∧ ∀ k, tdb_lookup t' k = tdb_lookup t k;
  (** Other operations stay inside of the transaction. *)
  tdb_store_txn t k v t' r :
    tdb_store t k v = (t', r) → tdb_in_transaction t' = tdb_in_transaction t
    ∧ (tdb_in_transaction t = true → ∀ k', tdb_saved t' k' = tdb_saved t k');
  tdb_delete_txn t k t' r :
    tdb_delete t k = (t', r) → tdb_in_transaction t' = tdb_in_transaction t
    ∧ (tdb_in_transaction t = true → ∀ k', tdb_saved t' k' = tdb_saved t k');
  tdb_wipe_txn t t' r :
    tdb_wipe_all t = (t', r) → tdb_in_transaction t' = tdb_in_transaction t
    ∧ (tdb_in_transaction t = true → ∀ k', tdb_saved t' k' = tdb_saved t k');
  tdb_set_flag_txn t b :
    tdb_in_transaction (tdb_set_seqnum_flag t b) = tdb_in_transaction t
    ∧ ∀ k', tdb_saved (tdb_set_seqnum_flag t b) k' = tdb_saved t k';
}.

(** ** State *)

(** [enum ctdb_freeze_mode] *)
Inductive ctdb_freeze_mode := CTDB_FREEZE_NONE | CTDB_FREEZE_PENDING | CTDB_FREEZE_FROZEN.

#[global] Instance ctdb_freeze_mode_eq_dec : EqDecision ctdb_freeze_mode.
Proof. solve_decision. Defined.

Definition NUM_DB_PRIORITIES : Z := 3.
Definition priorities : list Z := [1; 2; 3].

(** The daemon with its freeze state.  [fx_priority] is the [priority] of a
    database; [fx_handles] the freeze handles, each the controls waiting on it
    (most recent first); [fx_replies] the replies sent to such controls, with
    their status. *)
Record freeze_ctx (T : Type) := mk_fx {
  fx_ctdb : ctdb_context T;
  fx_priority : Z → Z;
  fx_mode : Z → ctdb_freeze_mode;
  fx_handles : Z → option (list Z);
  fx_transaction_started : bool;
  fx_transaction_id : Z;
  fx_replies : list (Z * Z);
}.
Arguments mk_fx {T}.
Arguments fx_ctdb {T}.
Arguments fx_priority {T}.
Arguments fx_mode {T}.
Arguments fx_handles {T}.
Arguments fx_transaction_started {T}.
Arguments fx_transaction_id {T}.
Arguments fx_replies {T}.

Section fx_setters.
Context {T : Type}.
Implicit Types s : freeze_ctx T.
Definition set_fx_ctdb s v : freeze_ctx T := mk_fx v (fx_priority s) (fx_mode s) (fx_handles s)
  (fx_transaction_started s) (fx_transaction_id s) (fx_replies s).
Definition set_fx_mode s (p : Z) v : freeze_ctx T := mk_fx (fx_ctdb s) (fx_priority s) (<[p := v]> (fx_mode s))
  (fx_handles s) (fx_transaction_started s) (fx_transaction_id s) (fx_replies s).
Definition set_fx_handle s (p : Z) v : freeze_ctx T := mk_fx (fx_ctdb s) (fx_priority s) (fx_mode s)
  (<[p := v]> (fx_handles s)) (fx_transaction_started s) (fx_transaction_id s) (fx_replies s).
Definition set_fx_transaction s v id : freeze_ctx T := mk_fx (fx_ctdb s) (fx_priority s) (fx_mode s)
  (fx_handles s) v id (fx_replies s).
Definition add_fx_replies s (cs : list Z) (status : Z) : freeze_ctx T := mk_fx (fx_ctdb s) (fx_priority s)
  (fx_mode s) (fx_handles s) (fx_transaction_started s) (fx_transaction_id s)
  (fx_replies s ++ ((λ c, (c, status)) <$> cs)).
Definition fx_dbs s : list (ctdb_db_context T) := cx_db_list (fx_ctdb s).
Definition set_fx_dbs s v : freeze_ctx T := set_fx_ctdb s (set_cx_db_list (fx_ctdb s) v).
End fx_setters.

(** ** Operations *)

Section freeze.
Context {T : Type} `{!TdbOps T, !TdbTxn T}.
Implicit Types (s : freeze_ctx T) (db : ctdb_db_context T).

Definition frozen s (p : Z) : bool := bool_decide (fx_mode s p = CTDB_FREEZE_FROZEN).
Definition all_frozen s : bool := forallb (frozen s) priorities.

(** [tdb_transaction_cancel] on one database; a failure is only logged. *)
Definition cancel_db db : ctdb_db_context T :=
  set_db_ltdb db (tdb_transaction_cancel (db_ltdb db)).1.

(** Freeing a handle: its destructor runs, then the waiters are freed with it
    and answer with the status they were created with. *)
Definition ctdb_freeze_handle_destructor (p : Z) s : freeze_ctx T :=
  let s :=
    if fx_transaction_started s then
      let s := set_fx_dbs s
        ((λ db, if fx_priority s (db_id db) =? p then cancel_db db else db) <$> fx_dbs s) in
      set_fx_transaction s false (fx_transaction_id s)
    else s in
  let waiters := default [] (fx_handles s p) in
  add_fx_replies (set_fx_handle (set_fx_mode s p CTDB_FREEZE_NONE) p None) waiters (-1).

(** The lock child of the handle of priority [p] reports. *)
Definition ctdb_freeze_lock_handler (p : Z) (locked : bool) s : freeze_ctx T :=
  if frozen s p then ctdb_freeze_handle_destructor p s
  else if negb locked then ctdb_freeze_handle_destructor p s
  else
    let s := set_fx_mode s p CTDB_FREEZE_FROZEN in
    let waiters := default [] (fx_handles s p) in
    add_fx_replies (set_fx_handle s p (Some [])) waiters 0.

(** [None]: the daemon aborts.  Stopping the vacuuming children is outside of
    this state. *)
Definition ctdb_start_freeze (p : Z) s : option (freeze_ctx T) :=
  if (p <? 1) || (NUM_DB_PRIORITIES <? p) then None
  else if frozen s p then Some s
  else match fx_handles s p with
  | Some _ => Some s
  | None => Some (set_fx_mode (set_fx_handle s p (Some [])) p CTDB_FREEZE_PENDING)
  end.

(** [event_loop_once] handles one event, [fuel] bounds those it takes to freeze a
    priority; [None]: the daemon aborts, or waits longer. *)
Section blocking.
Context (event_loop_once : freeze_ctx T → freeze_ctx T).
Fixpoint wait_frozen (fuel : nat) (p : Z) s : option (freeze_ctx T) :=
  match fuel with
  | O => None
  | S fuel => if bool_decide (fx_mode s p = CTDB_FREEZE_PENDING) then wait_frozen fuel p (event_loop_once s) else Some s
  end.
Fixpoint blocking_loop (fuel : nat) (ps : list Z) s : option (freeze_ctx T) :=
  match ps with
  | [] => Some s
  | p :: ps => s ← ctdb_start_freeze p s; s ← wait_frozen fuel p s; blocking_loop fuel ps s
  end.
Definition ctdb_blocking_freeze (fuel : nat) s : option (bool * freeze_ctx T) :=
  s ← blocking_loop fuel priorities s; Some (true, s).
End blocking.

(** (status, whether the reply comes later, state) *)
Definition ctdb_control_freeze (srvid c : Z) s : option (Z * bool * freeze_ctx T) :=
  let priority := u32 srvid in
  let priority := if priority =? 0 then 1 else priority in
  if (priority <? 1) || (NUM_DB_PRIORITIES <? priority) then Some (-1, false, s)
  else if frozen s priority then Some (0, false, s)
  else
    s ← ctdb_start_freeze priority s;
    match fx_handles s priority with
    | None => Some (-1, false, s)
    | Some waiters => Some (0, true, set_fx_handle s priority (Some (c :: waiters)))
    end.

Definition thaw_priority (p : Z) s : freeze_ctx T :=
  let s := if fx_transaction_started s then set_fx_dbs s (cancel_db <$> fx_dbs s) else s in
  let s := set_fx_transaction s false (fx_transaction_id s) in
  match fx_handles s p with
  | Some _ => set_fx_handle (ctdb_freeze_handle_destructor p s) p None
  | None => s
  end.

(** [None]: the daemon aborts while it resends the pending calls. *)
Definition ctdb_control_thaw (ev : node_env) (priority : Z) s : option (Z * freeze_ctx T) :=
  if NUM_DB_PRIORITIES <? priority then Some (-1, s)
  else
    let s := if priority =? 0 then foldl (λ s p, thaw_priority p s) s priorities
             else thaw_priority priority s in
    match ctdb_call_resend_all ev (fx_ctdb s) with
    | Ret _ ctdb => Some (0, set_fx_ctdb s ctdb)
    | Stop _ _ => None
    end.

(** *** The recovery transaction *)

(** The loop over the databases: what has been done stays done when one fails. *)
Fixpoint start_dbs (started : bool) (dbs : list (ctdb_db_context T))
    : list (ctdb_db_context T) * Z :=
  match dbs with
  | [] => ([], 0)
  | db :: dbs =>
      let db := if started then cancel_db db else db in
      let '(t, ret) := tdb_transaction_start (db_ltdb db) in
      let db := set_db_ltdb db t in
      if negb (ret =? 0) then (db :: dbs, -1)
      else let '(dbs, ret) := start_dbs started dbs in (db :: dbs, ret)
  end.

Definition ctdb_control_transaction_start (id : Z) s : Z * freeze_ctx T :=
  if negb (all_frozen s) then (-1, s)
  else
    let '(dbs, ret) := start_dbs (fx_transaction_started s) (fx_dbs s) in
    let s := set_fx_dbs s dbs in
    if negb (ret =? 0) then (-1, s) else (0, set_fx_transaction s true id).

Definition ctdb_control_transaction_cancel s : Z * freeze_ctx T :=
  let s := set_fx_dbs s (cancel_db <$> fx_dbs s) in
  (0, set_fx_transaction s false (fx_transaction_id s)).

(** [health] is whether the health record of a database could be updated. *)
Fixpoint commit_dbs (health : Z → bool) (dbs : list (ctdb_db_context T))
    : list (ctdb_db_context T) * Z :=
  match dbs with
  | [] => ([], 0)
  | db :: dbs =>
      let '(t, ret) := tdb_transaction_commit (db_ltdb db) in
      let db := set_db_ltdb db t in
      if negb (ret =? 0) then (db :: dbs, -1)
      else if negb (health (db_id db)) then (db :: dbs, -1)
      else let '(dbs, ret) := commit_dbs health dbs in (db :: dbs, ret)
  end.

Definition ctdb_control_transaction_commit (health : Z → bool) (id : Z) s : Z * freeze_ctx T :=
  if negb (all_frozen s) then (-1, s)
  else if negb (fx_transaction_started s) then (-1, s)
  else if negb (id =? fx_transaction_id s) then (-1, s)
  else
    let '(dbs, ret) := commit_dbs health (fx_dbs s) in
    let s := set_fx_dbs s dbs in
    if negb (ret =? 0) then
      let s := set_fx_dbs s (cancel_db <$> fx_dbs s) in
      (-1, set_fx_transaction s false (fx_transaction_id s))
    else (0, set_fx_transaction s false 0).

(** Wipe a database - only possible when in a frozen transaction. *)
Definition ctdb_control_wipe_database (id transaction_id : Z) s : Z * freeze_ctx T :=
  match find_db id (fx_dbs s) with
  | None => (-1, s)
  | Some db =>
      if negb (frozen s (fx_priority s (db_id db))) then (-1, s)
      else if negb (fx_transaction_started s) then (-1, s)
      else if negb (transaction_id =? fx_transaction_id s) then (-1, s)
      else
        let '(t, ret) := tdb_wipe_all (db_ltdb db) in
        let db := set_db_ltdb db t in
        if negb (ret =? 0) then (-1, set_fx_dbs s (put_db db (fx_dbs s)))
        else
          let db := if negb (db_persistent db) then set_db_delete_queue db ∅ else db in
          (0, set_fx_dbs s (put_db db (fx_dbs s)))
  end.

(** [ctdb_control_setvnnmap] *)
Definition ctdb_control_setvnnmap (map : ctdb_vnn_map) s : Z * freeze_ctx T :=
  if negb (all_frozen s) then (-1, s)
  else (0, set_fx_ctdb s (set_cx_vnn_map (fx_ctdb s)
             (mk_vnn_map (vm_generation map) (vm_size map)
                (take (Z.to_nat (vm_size map)) (vm_map map))))).

End freeze.

(** ** An in-memory tdb with transactions *)

Record txtdb := mk_txtdb {
  tx_tdb : memtdb;
  tx_saved : option memtdb;
}.

#[global] Instance txtdb_ops : TdbOps txtdb := {|
  tdb_fetch t k := tdb_fetch (tx_tdb t) k;
  tdb_store t k v := let '(m, r) := tdb_store (tx_tdb t) k v in (mk_txtdb m (tx_saved t), r);
  tdb_delete t k := let '(m, r) := tdb_delete (tx_tdb t) k in (mk_txtdb m (tx_saved t), r);
  tdb_seqnum_flag t := tdb_seqnum_flag (tx_tdb t);
  tdb_set_seqnum_flag t b := mk_txtdb (tdb_set_seqnum_flag (tx_tdb t) b) (tx_saved t);
  tdb_get_seqnum t := tdb_get_seqnum (tx_tdb t);
  tdb_exists t k := tdb_exists (tx_tdb t) k;
|}.

#[global] Instance txtdb_txn : TdbTxn txtdb := {|
  tdb_lookup t k := mt_map (tx_tdb t) !! k;
  tdb_traverse_read t := Some (map_to_list (mt_map (tx_tdb t)));
  tdb_wipe_all t :=
    (mk_txtdb (mk_memtdb ∅ (mt_seqnum_flag (tx_tdb t)) (mt_seqnum (tx_tdb t))) (tx_saved t), 0);
  tdb_create := mk_txtdb (mk_memtdb ∅ false 0) None;
  tdb_transaction_start t :=
    match tx_saved t with None => (mk_txtdb (tx_tdb t) (Some (tx_tdb t)), 0) | Some _ => (t, -1) end;
  tdb_transaction_cancel t :=
    match tx_saved t with None => (t, -1) | Some m => (mk_txtdb m None, 0) end;
  tdb_transaction_commit t :=
    match tx_saved t with None => (t, -1) | Some _ => (mk_txtdb (tx_tdb t) None, 0) end;
  tdb_in_transaction t := match tx_saved t with None => false | Some _ => true end;
  tdb_saved t k := mt_map (default (tx_tdb t) (tx_saved t)) !! k;
|}.

#[global] Instance txtdb_laws : TdbLaws txtdb.
Proof.
  split; simpl; intros; repeat (case_match; simplify_eq/=; try done);
    simplify_map_eq; auto; lia.
Qed.

#[global] Instance txtdb_txn_laws : TdbTxnLaws txtdb.
Proof.
  split; simpl; intros; repeat (case_match; simplify_eq/=; try done);
    simplify_map_eq; auto.
  - apply NoDup_fst_map_to_list.
  - apply elem_of_map_to_list.
Qed.

(** ** Steps of a node *)

Section freeze_steps.
Context {T : Type} `{TdbLaws T, !TdbTxn T, !TdbTxnLaws T}.
Implicit Types (s : freeze_ctx T).

(** The label lists the freeze controls that will be answered later.  Anything
    else the daemon does leaves its freeze state alone. *)
Inductive freeze_step : list Z → freeze_ctx T → freeze_ctx T → Prop :=
  | freeze_control srvid c s status async s' :
      ctdb_control_freeze srvid c s = Some (status, async, s') →
      freeze_step (if async : bool then [c] else []) s s'
  | freeze_lock p locked s :
      is_Some (fx_handles s p) → freeze_step [] s (ctdb_freeze_lock_handler p locked s)
  | freeze_thaw ev p s status s' :
      ctdb_control_thaw ev p s = Some (status, s') → freeze_step [] s s'
  | freeze_start id s : freeze_step [] s (ctdb_control_transaction_start id s).2
  | freeze_cancel s : freeze_step [] s (ctdb_control_transaction_cancel s).2
  | freeze_commit health id s :
      freeze_step [] s (ctdb_control_transaction_commit health id s).2
  | freeze_wipe id tid s : freeze_step [] s (ctdb_control_wipe_database id tid s).2
  | freeze_setvnnmap vm s : freeze_step [] s (ctdb_control_setvnnmap vm s).2
  | freeze_other s ctdb : freeze_step [] s (set_fx_ctdb s ctdb).

Inductive freeze_steps : list Z → freeze_ctx T → freeze_ctx T → Prop :=
  | freeze_steps_nil s : freeze_steps [] s s
  | freeze_steps_snoc s acc s1 cs s2 :
      freeze_steps acc s s1 → freeze_step cs s1 s2 → freeze_steps (acc ++ cs) s s2.

(** A daemon that has just started. *)
Definition freeze_initial s : Prop :=
  (∀ p, fx_mode s p = CTDB_FREEZE_NONE) ∧ (∀ p, fx_handles s p = None)
  ∧ fx_transaction_started s = false ∧ fx_replies s = [].

(** The controls waiting on the handles. *)
Definition waiting s : list Z := concat ((λ p, default [] (fx_handles s p)) <$> priorities).

Record freeze_inv (acc : list Z) s : Prop := mk_finv {
  fi_handle p : fx_handles s p = None ↔ fx_mode s p = CTDB_FREEZE_NONE;
  fi_range p : is_Some (fx_handles s p) → p ∈ priorities;
  fi_waiters p : fx_mode s p = CTDB_FREEZE_FROZEN → fx_handles s p = Some [];
  fi_transaction : fx_transaction_started s = true → all_frozen s = true;
  fi_replies : acc ≡ₚ waiting s ++ (fx_replies s).*1;
}.

(** The same freeze state. *)
Definition same_freeze s s' : Prop :=
  (∀ p, fx_mode s' p = fx_mode s p) ∧ (∀ p, fx_handles s' p = fx_handles s p)
  ∧ fx_transaction_started s' = fx_transaction_started s ∧ fx_replies s' = fx_replies s.

Lemma inv_same acc s s' : same_freeze s s' → freeze_inv acc s → freeze_inv acc s'.
Proof.
  intros (E1 & E2 & E3 & E4) [H1 H2 H3 H4 H5].
  split; unfold waiting, all_frozen, frozen in *; simpl in *; intros *;
    rewrite ?E1, ?E2, ?E3, ?E4; auto.
Qed.

Lemma inv_stop acc s id : freeze_inv acc s → freeze_inv acc (set_fx_transaction s false id).
Proof. intros [H1 H2 H3 H4 H5]. by split. Qed.

Lemma waiting_insert s p l :
  p ∈ priorities →
  default [] (fx_handles s p) ++ waiting (set_fx_handle s p l) ≡ₚ default [] l ++ waiting s.
Proof.
  intros Hp. unfold waiting, priorities in *. simpl.
  repeat (apply elem_of_cons in Hp as [-> | Hp];
    [rewrite ?fn_lookup_insert, ?fn_lookup_insert_ne by done; solve_Permutation|]).
  by apply elem_of_nil in Hp.
Qed.

Lemma inv_destructor acc s p :
  freeze_inv acc s → is_Some (fx_handles s p) →
  freeze_inv acc (ctdb_freeze_handle_destructor p s).
Proof.
  intros Hi Hp. unfold ctdb_freeze_handle_destructor.
  set (s1 := if fx_transaction_started s then _ else s).
  assert (freeze_inv acc s1 ∧ fx_transaction_started s1 = false ∧ is_Some (fx_handles s1 p))
    as ([H1 H2 H3 H4 H5] & Hf & Hp1).
  { unfold s1. destruct (fx_transaction_started s) eqn:Es; [|done]. split_and!; try done.
    apply inv_stop. by eapply inv_same, Hi. }
  clearbody s1. clear s Hi Hp. rename s1 into s.
  pose proof (waiting_insert (set_fx_mode s p CTDB_FREEZE_NONE) p None (H2 p Hp1)) as Hw.
  split; simpl.
  - intros q. destruct (decide (q = p)) as [->|]; [by rewrite !fn_lookup_insert|].
    by rewrite !fn_lookup_insert_ne by done.
  - intros q. destruct (decide (q = p)) as [->|]; [by rewrite fn_lookup_insert; intros []|].
    rewrite fn_lookup_insert_ne by done. apply H2.
  - intros q. destruct (decide (q = p)) as [->|]; [by rewrite fn_lookup_insert|].
    rewrite !fn_lookup_insert_ne by done. apply H3.
  - by rewrite Hf.
  - rewrite H5, fmap_app, <- list_fmap_compose. simpl. rewrite list_fmap_id.
    change (waiting (add_fx_replies _ _ _)) with (waiting (set_fx_handle (set_fx_mode s p CTDB_FREEZE_NONE) p None)).
    simpl in Hw. change (waiting (set_fx_mode s p CTDB_FREEZE_NONE)) with (waiting s) in Hw.
    rewrite <- Hw. solve_Permutation.
Qed.

(** A handle and its mode change together. *)
Lemma inv_set_handle acc acc' s p m l rs :
  freeze_inv acc s → p ∈ priorities → m ≠ CTDB_FREEZE_NONE →
  (m = CTDB_FREEZE_FROZEN → l = []) → (fx_mode s p = CTDB_FREEZE_FROZEN → m = CTDB_FREEZE_FROZEN) →
  acc' ≡ₚ waiting (set_fx_handle s p (Some l)) ++ (fx_replies rs).*1 →
  (∀ q, fx_mode rs q = <[p := m]> (fx_mode s) q) →
  (∀ q, fx_handles rs q = <[p := Some l]> (fx_handles s) q) →
  fx_transaction_started rs = fx_transaction_started s →
  freeze_inv acc' rs.
Proof.
  intros [H1 H2 H3 H4 H5] Hp Hm Hl Hfr Hacc E1 E2 E3.
  split; [intros q; rewrite E1, E2|intros q; rewrite E2|intros q; rewrite E1, E2| |].
  - destruct (decide (q = p)) as [->|]; [by rewrite !fn_lookup_insert|].
    by rewrite !fn_lookup_insert_ne by done.
  - destruct (decide (q = p)) as [->|]; [done|].
    rewrite fn_lookup_insert_ne by done. apply H2.
  - destruct (decide (q = p)) as [->|].
    + rewrite !fn_lookup_insert. intros E. by rewrite (Hl E).
    + rewrite !fn_lookup_insert_ne by done. apply H3.
  - rewrite E3. intros Hs. apply H4 in Hs. unfold all_frozen, frozen in *.
    rewrite forallb_forall in *. intros q Hq. specialize (Hs q Hq). rewrite E1. zbool.
    apply bool_decide_eq_true. destruct (decide (q = p)) as [->|].
    + rewrite fn_lookup_insert. auto.
    + by rewrite fn_lookup_insert_ne by done.
  - rewrite Hacc. unfold waiting at 1 2. simpl. by rewrite !E2.
Qed.

Lemma inv_lock acc s p locked :
  freeze_inv acc s → is_Some (fx_handles s p) →
  freeze_inv acc (ctdb_freeze_lock_handler p locked s).
Proof.
  intros Hi Hp. unfold ctdb_freeze_lock_handler. case_goal; [by apply inv_destructor|].
  case_goal; [by apply inv_destructor|]. destruct Hi as [H1 H2 H3 H4 H5] eqn:Ei. clear Ei.
  eapply (inv_set_handle acc acc s p CTDB_FREEZE_FROZEN []); try done; [by auto|].
  simpl. rewrite H5, fmap_app, <- list_fmap_compose. simpl. rewrite list_fmap_id.
  pose proof (waiting_insert s p (Some []) (H2 p Hp)) as Hw. simpl in Hw.
  rewrite <- Hw. solve_Permutation.
Qed.

Lemma inv_control acc s srvid c status async s' :
  freeze_inv acc s → ctdb_control_freeze srvid c s = Some (status, async, s') →
  freeze_inv (acc ++ if async : bool then [c] else []) s'.
Proof.
  intros Hi. unfold ctdb_control_freeze.
  set (p := if u32 srvid =? 0 then 1 else u32 srvid).
  destruct ((p <? 1) || (NUM_DB_PRIORITIES <? p)) eqn:Er.
  { intros [= <- <- <-]. by rewrite app_nil_r. }
  assert (p ∈ priorities) as Hp.
  { zbool. unfold NUM_DB_PRIORITIES, priorities in *.
    assert (p = 1 ∨ p = 2 ∨ p = 3) as [-> | [-> | ->]] by lia; set_solver. }
  case_goal; [intros [= <- <- <-]; by rewrite app_nil_r|].
  unfold ctdb_start_freeze. rewrite Er. rewrite Heqb.
  destruct Hi as [H1 H2 H3 H4 H5] eqn:Ei. clear Ei.
  destruct (fx_handles s p) as [l|] eqn:El; simpl; rewrite ?El, ?fn_lookup_insert;
    intros [= <- <- <-].
  - eapply (inv_set_handle acc _ s p CTDB_FREEZE_PENDING (c :: l)); try done.
    + apply bool_decide_eq_false in Heqb. done.
    + simpl. rewrite H5. pose proof (waiting_insert s p (Some (c :: l)) Hp) as Hw. rewrite El in Hw.
      simpl in Hw. assert (waiting (set_fx_handle s p (Some (c :: l))) ≡ₚ c :: waiting s) as ->.
      { apply (Permutation_app_inv_l l). rewrite Hw. solve_Permutation. }
      solve_Permutation.
    + intros q. simpl. destruct (decide (q = p)) as [->|];
        [rewrite fn_lookup_insert|by rewrite fn_lookup_insert_ne by done].
      destruct (fx_mode s p) eqn:Em; [|done|by apply bool_decide_eq_false in Heqb].
      apply H1 in Em. congruence.
  - eapply (inv_set_handle acc _ s p CTDB_FREEZE_PENDING [c]); try done.
    + apply bool_decide_eq_false in Heqb. done.
    + simpl. rewrite H5. pose proof (waiting_insert s p (Some [c]) Hp) as Hw. rewrite El in Hw.
      simpl in Hw. rewrite Hw. solve_Permutation.
    + intros q. simpl. destruct (decide (q = p)) as [->|];
        [by rewrite !fn_lookup_insert|by rewrite !fn_lookup_insert_ne by done].
Qed.

(** [ctdb_blocking_freeze] returns with all priorities frozen, when nothing is being
    frozen already and the events are reports of lock children that got their locks. *)
Definition at_rest s (p : Z) : Prop := fx_mode s p = CTDB_FREEZE_FROZEN ∨ fx_mode s p = CTDB_FREEZE_NONE ∧ fx_handles s p = None.
Lemma start_wait_ok (event_loop_once : freeze_ctx T → freeze_ctx T) fuel p s :
  p ∈ priorities → at_rest s p → (∀ s, fx_mode s p = CTDB_FREEZE_PENDING → event_loop_once s = ctdb_freeze_lock_handler p true s) →
  ∃ s1 s2, ctdb_start_freeze p s = Some s1 ∧ wait_frozen event_loop_once (S (S fuel)) p s1 = Some s2
    ∧ fx_mode s2 p = CTDB_FREEZE_FROZEN ∧ ∀ q, q ≠ p → fx_mode s2 q = fx_mode s q ∧ fx_handles s2 q = fx_handles s q.
Proof.
  intros Hp Hr Hev. assert ((p <? 1) || (NUM_DB_PRIORITIES <? p) = false) as Hrange.
  { unfold priorities in Hp. rewrite !elem_of_cons, elem_of_nil in Hp. by destruct Hp as [->|[->|[->|[]]]]. }
  unfold ctdb_start_freeze. rewrite Hrange. unfold frozen. destruct Hr as [Hm|[Hm Hh]].
  - rewrite bool_decide_true by done. exists s, s. cbn [wait_frozen]. by rewrite bool_decide_false by congruence.
  - rewrite bool_decide_false by congruence. rewrite Hh. set (s1 := set_fx_mode _ _ _).
    assert (fx_mode s1 p = CTDB_FREEZE_PENDING) as H1 by apply fn_lookup_insert.
    exists s1, (ctdb_freeze_lock_handler p true s1). split; [done|]. cbn [wait_frozen]. rewrite bool_decide_true, Hev by done.
    unfold ctdb_freeze_lock_handler, frozen. rewrite (bool_decide_false (fx_mode s1 p = _)) by congruence. cbn [negb]. set (s2 := add_fx_replies _ _ _).
    assert (fx_mode s2 p = CTDB_FREEZE_FROZEN) as H2 by apply fn_lookup_insert. split; [by rewrite bool_decide_false by congruence|]. split; [done|].
    intros q Hq. cbn. by rewrite !fn_lookup_insert_ne by done.
Qed.
Lemma blocking_freeze_ok (event_loop_once : freeze_ctx T → freeze_ctx T) fuel s :
  (∀ s p, p ∈ priorities → fx_mode s p = CTDB_FREEZE_PENDING → event_loop_once s = ctdb_freeze_lock_handler p true s) →
  (∀ p, p ∈ priorities → at_rest s p) → ∃ s', ctdb_blocking_freeze event_loop_once (S (S fuel)) s = Some (true, s') ∧ all_frozen s' = true.
Proof.
  intros Hev Hr. assert (1 ∈ priorities ∧ 2 ∈ priorities ∧ 3 ∈ priorities) as (P1 & P2 & P3) by (unfold priorities; rewrite !elem_of_cons; auto 6).
  unfold ctdb_blocking_freeze, priorities. cbn [blocking_loop].
  destruct (start_wait_ok event_loop_once fuel 1 s) as (s1 & s2 & -> & E2 & H1 & O1); [done|by apply Hr|intros s0; by apply Hev|].
  cbn [mbind option_bind]. rewrite E2. cbn [mbind option_bind].
  destruct (start_wait_ok event_loop_once fuel 2 s2) as (s3 & s4 & -> & E4 & H2 & O2); [done| |intros s0; by apply Hev|].
  { destruct (O1 2) as [Em Eh]; [done|]. unfold at_rest. rewrite Em, Eh. by apply Hr. }
  cbn [mbind option_bind]. rewrite E4. cbn [mbind option_bind].
  destruct (start_wait_ok event_loop_once fuel 3 s4) as (s5 & s6 & -> & E6 & H3 & O3); [done| |intros s0; by apply Hev|].
  { destruct (O2 3) as [Em Eh]; [done|]. destruct (O1 3) as [Em1 Eh1]; [done|]. unfold at_rest. rewrite Em, Eh, Em1, Eh1. by apply Hr. }
  cbn [mbind option_bind]. rewrite E6. cbn [mbind option_bind]. exists s6. split; [done|]. unfold all_frozen, priorities, frozen. cbn [forallb].
  rewrite !bool_decide_true; [done|done|by rewrite (proj1 (O3 2 ltac:(done)))|]. rewrite (proj1 (O3 1 ltac:(done))), (proj1 (O2 1 ltac:(done))). exact H1.
Qed.

Lemma inv_thaw_priority acc s p : freeze_inv acc s → freeze_inv acc (thaw_priority p s).
Proof.
  intros Hi. unfold thaw_priority.
  set (s1 := if fx_transaction_started s then _ else s).
  assert (freeze_inv acc (set_fx_transaction s1 false (fx_transaction_id s1))) as H1.
  { apply inv_stop. unfold s1. case_goal; [|done]. by eapply inv_same, Hi. }
  destruct (fx_handles _ p) eqn:El; [|done].
  eapply inv_same; [|apply inv_destructor; [exact H1|by rewrite El]].
  split_and!; try done. intros q. simpl.
  destruct (decide (q = p)) as [->|]; [by rewrite !fn_lookup_insert|].
  by rewrite !fn_lookup_insert_ne by done.
Qed.

Lemma inv_thaw acc ev p s status s' :
  freeze_inv acc s → ctdb_control_thaw ev p s = Some (status, s') → freeze_inv acc s'.
Proof.
  intros Hi. unfold ctdb_control_thaw. case_goal; [by intros [= <- <-]|].
  set (s1 := if p =? 0 then _ else _).
  assert (freeze_inv acc s1) as H1.
  { unfold s1. case_goal; [|by apply inv_thaw_priority]. unfold priorities. simpl.
    by apply inv_thaw_priority, inv_thaw_priority, inv_thaw_priority. }
  destruct (ctdb_call_resend_all _ _); [|done]. intros [= <- <-]. by eapply inv_same, H1.
Qed.

Lemma inv_transaction_start acc id s :
  freeze_inv acc s → freeze_inv acc (ctdb_control_transaction_start id s).2.
Proof.
  intros Hi. unfold ctdb_control_transaction_start. case_goal; [done|].
  destruct (start_dbs _ _) as [dbs ret]. case_goal; [by eapply inv_same, Hi|].
  destruct Hi as [H1 H2 H3 H4 H5]. zbool. by split.
Qed.

Lemma inv_step acc cs s s' : freeze_inv acc s → freeze_step cs s s' → freeze_inv (acc ++ cs) s'.
Proof.
  intros Hi Hs. destruct Hs; [by eapply inv_control| | | | | | | | ]; rewrite app_nil_r.
  - by apply inv_lock.
  - by eapply inv_thaw.
  - by apply inv_transaction_start.
  - apply inv_stop. by eapply inv_same, Hi.
  - unfold ctdb_control_transaction_commit. repeat (case_goal; [done|]).
    destruct (commit_dbs _ _) as [dbs ret].
    case_goal; apply inv_stop; by eapply inv_same, Hi.
  - unfold ctdb_control_wipe_database. repeat (case_goal; try done); by eapply inv_same, Hi.
  - unfold ctdb_control_setvnnmap. case_goal; [done|]. by eapply inv_same, Hi.
  - by eapply inv_same, Hi.
Qed.

Lemma inv_steps acc s0 s : freeze_initial s0 → freeze_steps acc s0 s → freeze_inv acc s.
Proof.
  intros (H1 & H2 & H3 & H4). induction 1 as [s|s acc s1 cs s2 _ IH Hs].
  - split.
    + intros p. by rewrite H1, H2.
    + intros p. rewrite H2. by intros [].
    + intros p. by rewrite H1.
    + by rewrite H3.
    + unfold waiting. simpl. by rewrite !H2, H4.
  - by eapply inv_step, Hs; auto.
Qed.

(** A step that answers with an error at most. *)
Definition refuses s s' : Prop :=
  ∃ cs, fx_replies s' = fx_replies s ++ ((λ c, (c, -1)) <$> cs).

Lemma refuses_trans s1 s2 s3 : refuses s1 s2 → refuses s2 s3 → refuses s1 s3.
Proof. intros [l E] [l' E']. exists (l ++ l'). by rewrite E', E, fmap_app, app_assoc. Qed.

Lemma refuses_refl s s' : fx_replies s' = fx_replies s → refuses s s'.
Proof. intros E. exists []. by rewrite app_nil_r. Qed.

Lemma refuses_destructor p s : refuses s (ctdb_freeze_handle_destructor p s).
Proof. unfold ctdb_freeze_handle_destructor. case_goal; by eexists. Qed.

Lemma refuses_thaw p s : refuses s (thaw_priority p s).
Proof.
  unfold thaw_priority. set (s1 := if fx_transaction_started s then _ else s).
  set (s2 := set_fx_transaction s1 _ _).
  assert (refuses s s2) as H2.
  { apply refuses_refl. unfold s2, s1. by case_goal. }
  destruct (fx_handles s2 p); [|done].
  eapply refuses_trans; [exact H2|]. apply refuses_destructor.
Qed.

Lemma refused_reply s s' c : refuses s s' → (c, 0) ∉ drop (length (fx_replies s)) (fx_replies s').
Proof.
  intros [l ->]. rewrite drop_app_length. intros Hin. by apply list_elem_of_fmap in Hin as (? & ? & _).
Qed.

Lemma refuses_step cs s s' :
  freeze_step cs s s' →
  refuses s s' ∨ ∃ p, is_Some (fx_handles s p) ∧ frozen s p = false
                      ∧ s' = ctdb_freeze_lock_handler p true s.
Proof.
  destruct 1 as [srvid c s status async s' E|p locked s Hp|ev p s status s' E|id s|s|health id s|id tid s|vm s|s ctdb].
  - left. apply refuses_refl. revert E. unfold ctdb_control_freeze, ctdb_start_freeze.
    repeat (case_goal; try done); simpl; repeat (case_goal; try done); by intros [= <- <- <-].
  - unfold ctdb_freeze_lock_handler. destruct (frozen s p) eqn:Ef;
      [left; apply refuses_destructor|].
    destruct locked; [right|left; apply refuses_destructor]. exists p. by rewrite Ef.
  - left. revert E. unfold ctdb_control_thaw. case_goal; [intros [= <- <-]; by apply refuses_refl|].
    set (s1 := if p =? 0 then _ else _).
    assert (refuses s s1) as H1.
    { unfold s1. case_goal; [|apply refuses_thaw]. unfold priorities. simpl.
      eapply refuses_trans; [|apply refuses_thaw]. eapply refuses_trans; apply refuses_thaw. }
    destruct (ctdb_call_resend_all _ _); [|done]. by intros [= <- <-].
  - left. apply refuses_refl. unfold ctdb_control_transaction_start. case_goal; [done|].
    destruct (start_dbs _ _). by case_goal.
  - left. by apply refuses_refl.
  - left. apply refuses_refl. unfold ctdb_control_transaction_commit. repeat (case_goal; [done|]).
    destruct (commit_dbs _ _). by case_goal.
  - left. apply refuses_refl. unfold ctdb_control_wipe_database. by repeat (case_goal; try done).
  - left. apply refuses_refl. unfold ctdb_control_setvnnmap. by case_goal.
  - left. by apply refuses_refl.
Qed.

(** A control is told that the databases are frozen when they are. *)
Lemma reply_frozen cs s s' c :
  freeze_step cs s s' → (c, 0) ∈ drop (length (fx_replies s)) (fx_replies s') →
  ∃ p l, fx_handles s p = Some l ∧ c ∈ l ∧ frozen s' p = true.
Proof.
  intros Hs Hin. destruct (refuses_step _ _ _ Hs) as [Hr|(p & [l El] & Hf & ->)].
  { by apply refused_reply with (c := c) in Hr. }
  unfold ctdb_freeze_lock_handler in *. rewrite Hf in *. simpl in *. rewrite El in Hin.
  exists p, l. split; [done|]. rewrite drop_app_length in Hin.
  apply list_elem_of_fmap in Hin as (c' & [= <-] & Hc). split; [done|].
  apply bool_decide_eq_true. simpl. by rewrite fn_lookup_insert.
Qed.

(** C26: through every sequence of freeze, thaw and transaction controls and
    reports of lock children, a priority has a handle exactly when its mode is
    not NONE, a transaction is only marked as started while all priorities are
    frozen, and every freeze control whose reply was postponed is either still
    waiting or has been answered, once; it is answered with success only in the
    step in which its databases become frozen. *)
Theorem freeze_invariant s0 acc s
    (Hinit : freeze_initial s0) (Hsteps : freeze_steps acc s0 s) :
  (∀ p, fx_handles s p = None ↔ fx_mode s p = CTDB_FREEZE_NONE)
  ∧ (fx_transaction_started s = true → all_frozen s = true)
  ∧ acc ≡ₚ waiting s ++ (fx_replies s).*1
  ∧ (∀ p, frozen s p = true → fx_handles s p = Some [])
  ∧ ∀ cs s' c, freeze_step cs s s' → (c, 0) ∈ drop (length (fx_replies s)) (fx_replies s') →
      ∃ p l, fx_handles s p = Some l ∧ c ∈ l ∧ frozen s' p = true.
Proof.
  destruct (inv_steps _ _ _ Hinit Hsteps) as [H1 H2 H3 H4 H5].
  split_and!; try done.
  - intros p Hp. apply H3. by apply bool_decide_eq_true in Hp.
  - intros cs s' c. apply reply_frozen.
Qed.

(** when the lock child of one priority dies during a recovery transaction,
    the transactions of the other priorities are not cancelled, and a thaw does
    not cancel them later: a database is thawed with its transaction open. *)
Theorem orphan_transaction s p q db
    (Hstart : fx_transaction_started s = true) (Hp : frozen s p = true)
    (Hq : is_Some (fx_handles s q)) (Hne : q ≠ p) (Hdb : db ∈ fx_dbs s)
    (Hprio : fx_priority s (db_id db) = q) (Htxn : tdb_in_transaction (db_ltdb db) = true) :
  let s' := thaw_priority q (ctdb_freeze_lock_handler p false s) in
  fx_mode s' q = CTDB_FREEZE_NONE ∧ db ∈ fx_dbs s' ∧ tdb_in_transaction (db_ltdb db) = true.
Proof.
  unfold ctdb_freeze_lock_handler. rewrite Hp. set (s1 := ctdb_freeze_handle_destructor p s).
  assert (fx_transaction_started s1 = false ∧ db ∈ fx_dbs s1 ∧ fx_handles s1 q = fx_handles s q)
    as (E1 & E2 & E3).
  { unfold s1, ctdb_freeze_handle_destructor. rewrite Hstart. split_and!; [done| |].
    - apply list_elem_of_fmap. exists db. split; [|done].
      by rewrite (proj2 (Z.eqb_neq _ _)) by congruence.
    - simpl. by rewrite fn_lookup_insert_ne by done. }
  clearbody s1. destruct Hq as [l El]. unfold thaw_priority. rewrite E1.
  change (fx_handles (set_fx_transaction _ _ _) q) with (fx_handles s1 q). rewrite E3, El.
  split_and!; [|done..]. simpl. by rewrite fn_lookup_insert.
Qed.

End freeze_steps.

(** ** Examples *)

Definition example_txdb (id : Z) (saved : option memtdb) : ctdb_db_context txtdb :=
  mk_db id false false false (mk_txtdb example_tdb saved) (mk_txtdb example_tdb None) []
    false true false [] ∅ ∅ 0 [] 0 0 [] [] [].

Definition example_fctdb (dbs : list (ctdb_db_context txtdb)) : ctdb_context txtdb :=
  mk_ctdb 0 example_vm [] 0 true dbs ∅ 0 [] 0 0 (λ _, 0) (λ _, 0) [] [] [] [] [].

Definition example_fx (mode : ctdb_freeze_mode) (h : option (list Z)) (started : bool)
    (dbs : list (ctdb_db_context txtdb)) : freeze_ctx txtdb :=
  mk_fx (example_fctdb dbs) (λ id, id)
    (λ p, if (1 <=? p) && (p <=? 3) then mode else CTDB_FREEZE_NONE)
    (λ p, if (1 <=? p) && (p <=? 3) then h else None) started 0 [].

Lemma freeze_invariant_witness :
  let s0 := example_fx CTDB_FREEZE_NONE None false [] in
  ∃ s, freeze_steps [7] s0 s
  ∧ (∀ p, fx_handles s p = None ↔ fx_mode s p = CTDB_FREEZE_NONE)
  ∧ (fx_transaction_started s = true → all_frozen s = true)
  ∧ [7] ≡ₚ waiting s ++ (fx_replies s).*1
  ∧ (∀ p, frozen s p = true → fx_handles s p = Some [])
  ∧ ∀ cs s' c, freeze_step cs s s' → (c, 0) ∈ drop (length (fx_replies s)) (fx_replies s') →
      ∃ p l, fx_handles s p = Some l ∧ c ∈ l ∧ frozen s' p = true.
Proof.
  intros s0.
  assert (∃ s, freeze_steps [7] s0 s) as [s Hs].
  { eexists. apply (freeze_steps_snoc s0 [] s0 [7] _); [constructor|].
    eapply (freeze_control 2 7 s0 0 true). reflexivity. }
  exists s. split; [exact Hs|]. apply (freeze_invariant s0 [7] s); [|exact Hs].
  split_and!; [| |reflexivity|reflexivity]; intros p; simpl; by destruct (_ && _).
Defined.

Lemma orphan_transaction_witness :
  let db := example_txdb 2 (Some example_tdb) in
  let s := example_fx CTDB_FREEZE_FROZEN (Some []) true [db] in
  let s' := thaw_priority 2 (ctdb_freeze_lock_handler 1 false s) in
  fx_mode s' 2 = CTDB_FREEZE_NONE ∧ db ∈ fx_dbs s' ∧ tdb_in_transaction (db_ltdb db) = true.
Proof.
  intros db s. apply (orphan_transaction s 1 2 db); try done.
  by apply list_elem_of_singleton.
Defined.
