(* ===== verification/Persist.v ===== *)
(** * Commits to persistent databases

    [server/ctdb_update_record.c] and the transaction part of
    [server/ctdb_persistent.c], with the parts of [server/ctdb_control.c] and
    [server/ctdb_daemon.c] they use: a client gives its daemon the records of a
    transaction, the daemon sends them to every active node, each of which writes
    them in a tdb transaction in a child process, and answers the client when all
    have done so.

    What one node keeps for this is [pnode].  The control state of each request
    (talloc child of the commit) is an entry of [pn_controls]; the child process of
    a write and its handle are one entry of [pn_writes].  The daemons are put
    together to a cluster at the end: packets are lost and overtake each other,
    timers fire and children die at any time, recoveries begin and end. *)
From S2P Require Import Prelude Protocol Marshal Ltdb Node Call Freeze.

Module Persist.

(** ** Writing the records ([ctdb_update_record.c]) *)

Definition UPDATE_FLAGS_REPLACE_ONLY : Z := 1.

Section store.
Context {T : Type} `{TdbOps T, !TdbTxn T}.
Implicit Types db : ctdb_db_context T.

(** The variable [oldheader] before it is written. *)
Definition header_unset : ctdb_ltdb_header := mk_header 0 0 0 0.

(** The loop: [false] is the jump to [failed]. *)
Fixpoint persistent_store_loop (lc : ltdb_ctx) (m : bytes) (flags : Z) (count : nat) (rec : option bytes) db : bool * ctdb_db_context T :=
  match count with
  | O => (true, db)
  | S count =>
      match ctdb_marshall_loop_next m rec true with
      | Some (rec, (_, Some header, key, data)) =>
          if (flags &? UPDATE_FLAGS_REPLACE_ONLY) && (dsize (tdb_fetch (db_ltdb db) key) =? 0) then
            persistent_store_loop lc m flags count (Some rec) db
          else
            let '(ret, oldheader, olddata, db) := ctdb_ltdb_fetch lc db key header_unset in
            if negb (ret =? 0) then (false, db)
            else if (rsn header <=? rsn oldheader) && (negb (dsize olddata =? dsize data) || negb (bool_decide (olddata = data))) then (false, db)
            else
              let '(ret, _, db) := ctdb_ltdb_store lc db key header data in
              if negb (ret =? 0) then (false, db) else persistent_store_loop lc m flags count (Some rec) db
      | _ => (false, db)
      end
  end.
Definition ctdb_persistent_store (lc : ltdb_ctx) (m : bytes) (flags : Z) db : Z * ctdb_db_context T :=
  let '(t, ret) := tdb_transaction_start (db_ltdb db) in
  let db := set_db_ltdb db t in
  if ret =? -1 then (-1, db)
  else
    let '(ok, db) := persistent_store_loop lc m flags (Z.to_nat (mb_count m)) None db in
    if ok then
      let '(t, ret) := tdb_transaction_commit (db_ltdb db) in
      let db := set_db_ltdb db t in
      if ret =? -1 then (-1, db) else (0, db)
    else (-1, set_db_ltdb db (tdb_transaction_cancel (db_ltdb db)).1).
End store.

(** ** The daemon *)

(** [struct ctdb_client] *)
Record ctdb_client := mk_client { cl_db_id : Z; cl_num_persistent_updates : Z }.
(** [struct ctdb_persistent_state]; [ps_timer] is whether its timer is set. *)
Record ctdb_persistent_state := mk_ps {
  ps_c : Z;
  ps_client : Z;
  ps_status : Z;
  ps_num_pending : Z;
  ps_num_failed : Z;
  ps_num_sent : Z;
  ps_timer : bool;
}.
(** [struct ctdb_persistent_write_state] with its [struct childwrite_handle]; the
    control to answer is its sender and request id.  [ws_result] is the byte that the
    child wrote into the pipe. *)
Record ctdb_persistent_write_state := mk_ws {
  ws_src : Z;
  ws_reqid : Z;
  ws_db : Z;
  ws_m : bytes;
  ws_flags : Z;
  ws_result : option Z;
}.
(** A request is for a node from another (or the same) one, and carries the buffer;
    a reply carries the status. *)
Inductive ppacket :=
| UpdateRecord (src dst reqid : Z) (m : bytes)
| ReplyControl (src dst reqid status : Z).

(** [pn_states] are the [persistent_state] pointers of the databases, [pn_controls]
    the database whose commit a request belongs to. *)
Record pnode (T : Type) := mk_pn {
  pn_ctdb : ctdb_context T;
  pn_unhealthy : list Z;
  pn_clients : gmap Z ctdb_client;
  pn_states : gmap Z ctdb_persistent_state;
  pn_controls : gmap Z Z;
  pn_next_reqid : Z;
  pn_writes : list ctdb_persistent_write_state;
  pn_out : list ppacket;
  pn_replies : list (Z * Z);
}.
Arguments mk_pn {T}.
Arguments pn_ctdb {T}.
Arguments pn_unhealthy {T}.
Arguments pn_clients {T}.
Arguments pn_states {T}.
Arguments pn_controls {T}.
Arguments pn_next_reqid {T}.
Arguments pn_writes {T}.
Arguments pn_out {T}.
Arguments pn_replies {T}.

Section daemon.
Context {T : Type} `{TdbOps T, !TdbTxn T}.
Implicit Types s : pnode T.

Definition set_ctdb s (v : ctdb_context T) : pnode T := mk_pn v (pn_unhealthy s) (pn_clients s) (pn_states s) (pn_controls s) (pn_next_reqid s) (pn_writes s) (pn_out s) (pn_replies s).
Definition set_clients s v : pnode T := mk_pn (pn_ctdb s) (pn_unhealthy s) v (pn_states s) (pn_controls s) (pn_next_reqid s) (pn_writes s) (pn_out s) (pn_replies s).
Definition set_states s v : pnode T := mk_pn (pn_ctdb s) (pn_unhealthy s) (pn_clients s) v (pn_controls s) (pn_next_reqid s) (pn_writes s) (pn_out s) (pn_replies s).
Definition set_controls s v n : pnode T := mk_pn (pn_ctdb s) (pn_unhealthy s) (pn_clients s) (pn_states s) v n (pn_writes s) (pn_out s) (pn_replies s).
Definition set_writes s v : pnode T := mk_pn (pn_ctdb s) (pn_unhealthy s) (pn_clients s) (pn_states s) (pn_controls s) (pn_next_reqid s) v (pn_out s) (pn_replies s).
Definition set_out s v : pnode T := mk_pn (pn_ctdb s) (pn_unhealthy s) (pn_clients s) (pn_states s) (pn_controls s) (pn_next_reqid s) (pn_writes s) v (pn_replies s).
Definition set_recovery_mode s (mode : Z) : pnode T := set_ctdb s (set_cx_recovery_mode (pn_ctdb s) mode).

Definition normal s : bool := cx_recovery_mode (pn_ctdb s) =? CTDB_RECOVERY_NORMAL.
Definition the_pnn s : Z := cx_pnn (pn_ctdb s).

(** [ctdb_request_control_reply] to a client of this node and to another daemon. *)
Definition reply_client (c status : Z) s : pnode T :=
  mk_pn (pn_ctdb s) (pn_unhealthy s) (pn_clients s) (pn_states s) (pn_controls s) (pn_next_reqid s) (pn_writes s) (pn_out s) (pn_replies s ++ [(c, status)]).
Definition reply_control (dst reqid status : Z) s : pnode T := set_out s (pn_out s ++ [ReplyControl (the_pnn s) dst reqid status]).

(** *** Receiving an update *)

Definition ctdb_persistent_write_callback (status : Z) (w : ctdb_persistent_write_state) s : pnode T := reply_control (ws_src w) (ws_reqid w) status s.
(** The write with its handle is gone, which also kills the child. *)
Definition drop_write (i : nat) s : pnode T := set_writes s (delete i (pn_writes s)).
Definition ctdb_persistent_lock_timeout (i : nat) s : pnode T :=
  match pn_writes s !! i with
  | None => s
  | Some w => drop_write i (reply_control (ws_src w) (ws_reqid w) (-1) s)
  end.
(** Called when the child has written its byte or closed the pipe. *)
Definition childwrite_handler (i : nat) s : pnode T :=
  match pn_writes s !! i with
  | None => s
  | Some w => drop_write i (ctdb_persistent_write_callback (default 1 (ws_result w)) w s)
  end.
(** The child of [ctdb_childwrite]: what it does to the database and the byte. *)
Definition child_lc s : ltdb_ctx := mk_ltdb_ctx (the_pnn s) (Some (cx_vnn_map (pn_ctdb s))) false false (0, 0).
Definition childwrite_child (i : nat) s : pnode T :=
  match pn_writes s !! i with
  | Some w =>
      match ws_result w, find_db (ws_db w) (cx_db_list (pn_ctdb s)) with
      | None, Some db =>
          let '(ret, db') := ctdb_persistent_store (child_lc s) (ws_m w) (ws_flags w) db in
          let c := if negb (ret =? 0) then 1 else 0 in
          let s := set_ctdb s (set_cx_db_list (pn_ctdb s) (put_db (set_db_ltdb db (db_ltdb db')) (cx_db_list (pn_ctdb s)))) in
          set_writes s (<[i := mk_ws (ws_src w) (ws_reqid w) (ws_db w) (ws_m w) (ws_flags w) (Some c)]> (pn_writes s))
      | _, _ => s
      end
  | None => s
  end.

(** [forked]: the pipe and the child could be made.  The result is the status and
    whether the reply is sent later. *)
Definition ctdb_control_update_record (forked : bool) (src reqid : Z) (recdata : bytes) s : Z * bool * pnode T :=
  if negb (normal s) then (-1, false, s)
  else match find_db (mb_db_id recdata) (cx_db_list (pn_ctdb s)) with
  | None => (-1, false, s)
  | Some db =>
      if bool_decide (db_id db ∈ pn_unhealthy s) then (-1, false, s)
      else if negb forked then (-1, false, s)
      else
        let flags := if negb (db_persistent db) then UPDATE_FLAGS_REPLACE_ONLY else 0 in
        (0, true, set_writes s (pn_writes s ++ [mk_ws src reqid (db_id db) recdata flags None]))
  end.
(** [ctdb_request_control] for this control. *)
Definition request_update (forked : bool) (src reqid : Z) (recdata : bytes) s : pnode T :=
  let '(status, async_reply, s) := ctdb_control_update_record forked src reqid recdata s in
  if async_reply then s else reply_control src reqid status s.

(** *** Committing *)

Definition ctdb_persistent_state_destructor (st : ctdb_persistent_state) s : pnode T :=
  set_clients s (alter (λ cl, mk_client 0 (cl_num_persistent_updates cl)) (ps_client st) (pn_clients s)).
(** [talloc_free] of the commit of a database: with it go its requests. *)
Definition free_state (db : Z) s : pnode T :=
  match pn_states s !! db with
  | None => s
  | Some st =>
      let s := ctdb_persistent_state_destructor st s in
      let s := set_states s (delete db (pn_states s)) in
      set_controls s (filter (λ e, e.2 ≠ db) (pn_controls s)) (pn_next_reqid s)
  end.

Definition ctdb_persistent_callback (db status : Z) s : pnode T :=
  match pn_states s !! db with
  | None => s
  | Some st =>
      if negb (normal s) then s
      else if negb (status =? 0) then
        let st := mk_ps (ps_c st) (ps_client st) status (ps_num_pending st) (u32 (ps_num_failed st + 1)) (ps_num_sent st) (ps_timer st) in
        set_recovery_mode (set_states s (<[db := st]> (pn_states s))) CTDB_RECOVERY_ACTIVE
      else
        let n := u32 (ps_num_pending st - 1) in
        let st := mk_ps (ps_c st) (ps_client st) (ps_status st) n (ps_num_failed st) (ps_num_sent st) (ps_timer st) in
        let s := set_states s (<[db := st]> (pn_states s)) in
        if negb (n =? 0) then s else free_state db (reply_client (ps_c st) 0 s)
  end.
(** The request is taken from its commit before the callback runs. *)
Definition control_done (reqid status : Z) s : pnode T :=
  match pn_controls s !! reqid with
  | None => s
  | Some db => ctdb_persistent_callback db status (set_controls s (delete reqid (pn_controls s)) (pn_next_reqid s))
  end.
Definition ctdb_reply_control (reqid status : Z) s : pnode T := control_done reqid status s.
Definition ctdb_control_timeout (reqid : Z) s : pnode T := control_done reqid (-1) s.

Definition ctdb_persistent_store_timeout (db : Z) s : pnode T :=
  match pn_states s !! db with
  | Some st =>
      if ps_timer st then
        let off := mk_ps (ps_c st) (ps_client st) (ps_status st) (ps_num_pending st) (ps_num_failed st) (ps_num_sent st) false in
        let s := set_states s (<[db := off]> (pn_states s)) in
        if negb (normal s) then s else free_state db (reply_client (ps_c st) 1 s)
      else s
  | None => s
  end.

Fixpoint finish_loop (dbs : list (ctdb_db_context T)) s : pnode T :=
  match dbs with
  | [] => s
  | db :: dbs =>
      match pn_states s !! db_id db with
      | None => finish_loop dbs s
      | Some st => finish_loop dbs (free_state (db_id db) (reply_client (ps_c st) 2 s))
      end
  end.
Definition ctdb_persistent_finish_trans3_commits s : pnode T :=
  if negb (normal s) then s else finish_loop (cx_db_list (pn_ctdb s)) s.

(** [ctdb_daemon_send_control] to a node that is connected; [None] when the
    transport is down. *)
Definition send_update (dst db : Z) (recdata : bytes) s : option (pnode T) :=
  if negb (cx_methods (pn_ctdb s)) then None
  else
    let reqid := pn_next_reqid s in
    let s := set_controls s (<[reqid := db]> (pn_controls s)) (reqid + 1) in
    Some (set_out s (pn_out s ++ [UpdateRecord (the_pnn s) dst reqid recdata])).
Definition count_sent (db : Z) s : pnode T :=
  set_states s (alter (λ st, mk_ps (ps_c st) (ps_client st) (ps_status st) (u32 (ps_num_pending st + 1)) (ps_num_failed st) (u32 (ps_num_sent st + 1)) (ps_timer st)) db (pn_states s)).
(** [map] holds the nodes to go through; [ctdb->nodes] is read past its end for a
    node that does not exist ([None]). *)
Fixpoint send_loop (map : list Z) (db : Z) (recdata : bytes) s : option (bool * pnode T) :=
  match map with
  | [] => Some (true, s)
  | pnn :: map =>
      node ← cx_nodes (pn_ctdb s) !! Z.to_nat pnn;
      if nd_flags node &? NODE_FLAGS_INACTIVE then send_loop map db recdata s
      else match send_update (nd_pnn node) db recdata s with
      | None => Some (false, s)
      | Some s => send_loop map db recdata (count_sent db s)
      end
  end.

Definition ctdb_control_trans3_commit (c client_id : Z) (recdata : bytes) s : option (Z * bool * pnode T) :=
  if negb (normal s) then Some (-1, false, s)
  else match pn_clients s !! client_id with
  | None => Some (-1, false, s)
  | Some client =>
      if negb (cl_db_id client =? 0) then Some (-1, false, s)
      else match find_db (mb_db_id recdata) (cx_db_list (pn_ctdb s)) with
      | None => Some (-1, false, s)
      | Some db =>
          let id := db_id db in
          match pn_states s !! id with
          | Some _ => Some (-1, false, s)
          | None =>
              let s := set_clients s (<[client_id := mk_client (mb_db_id recdata) (cl_num_persistent_updates client)]> (pn_clients s)) in
              let s := set_states s (<[id := mk_ps c client_id 0 0 0 0 false]> (pn_states s)) in
              '(sent, s) ← send_loop (vm_map (cx_vnn_map (pn_ctdb s))) id recdata s;
              if negb sent then Some (-1, false, free_state id s)
              else
                match pn_states s !! id with
                | None => Some (0, true, s)
                | Some st =>
                    if ps_num_pending st =? 0 then Some (0, false, free_state id s)
                    else
                      let st := mk_ps (ps_c st) (ps_client st) (ps_status st) (ps_num_pending st) (ps_num_failed st) (ps_num_sent st) true in
                      Some (0, true, set_states s (<[id := st]> (pn_states s)))
                end
          end
      end
  end.
(** [ctdb_request_control] for this control, from a client. *)
Definition request_commit (c client_id : Z) (recdata : bytes) s : option (pnode T) :=
  '(status, async_reply, s) ← ctdb_control_trans3_commit c client_id recdata s;
  Some (if async_reply : bool then s else reply_client c status s).

Definition ctdb_control_start_persistent_update (client_id : Z) s : Z * pnode T :=
  match pn_clients s !! client_id with
  | None => (-1, s)
  | Some client => (0, set_clients s (<[client_id := mk_client (cl_db_id client) (u32 (cl_num_persistent_updates client + 1))]> (pn_clients s)))
  end.
Definition ctdb_control_cancel_persistent_update (client_id : Z) s : Z * pnode T :=
  match pn_clients s !! client_id with
  | None => (-1, s)
  | Some client =>
      let n := cl_num_persistent_updates client in
      (0, if 0 <? n then set_clients s (<[client_id := mk_client (cl_db_id client) (n - 1)]> (pn_clients s)) else s)
  end.

(** A client connects, and goes away. *)
Definition accept_client (client_id : Z) s : pnode T := set_clients s (<[client_id := mk_client 0 0]> (pn_clients s)).
Definition ctdb_client_destructor (client_id : Z) s : pnode T :=
  match pn_clients s !! client_id with
  | None => s
  | Some client =>
      let s := if negb (cl_num_persistent_updates client =? 0) then set_recovery_mode s CTDB_RECOVERY_ACTIVE else s in
      let s := match find_db (cl_db_id client) (cx_db_list (pn_ctdb s)) with
               | Some db => free_state (db_id db) (set_recovery_mode s CTDB_RECOVERY_ACTIVE)
               | None => s
               end in
      set_clients s (delete client_id (pn_clients s))
  end.
End daemon.

(** ** The cluster *)

(** [sy_log] notes the commits that were sent out, with the nodes and request ids,
    and the writes that the children of nodes answered with 0, each with its buffer;
    no daemon reads it. *)
Inductive plog :=
| LCommit (c src : Z) (reqs : list (Z * Z)) (m : bytes)
| LStored (dst src reqid : Z) (m : bytes).
Record psys (T : Type) := mk_sys {
  sy_nodes : gmap Z (pnode T);
  sy_net : list ppacket;
  sy_next : Z;
  sy_log : list plog;
}.
Arguments mk_sys {T}.
Arguments sy_nodes {T}.
Arguments sy_net {T}.
Arguments sy_next {T}.
Arguments sy_log {T}.

Section cluster.
Context {T : Type} `{TdbOps T, !TdbTxn T}.
Implicit Types (s : pnode T) (S : psys T).

(** What a daemon does by itself. *)
Inductive local_step : pnode T → pnode T → Prop :=
| local_handler i s : local_step s (childwrite_handler i s)
| local_lock_timeout i s : local_step s (ctdb_persistent_lock_timeout i s)
| local_control_timeout reqid s : local_step s (ctdb_control_timeout reqid s)
| local_store_timeout db s : local_step s (ctdb_persistent_store_timeout db s)
| local_recovery_mode mode s : local_step s (set_recovery_mode s mode)
| local_end_recovery s : local_step s (ctdb_persistent_finish_trans3_commits s)
| local_start_update id s : local_step s (ctdb_control_start_persistent_update id s).2
| local_cancel_update id s : local_step s (ctdb_control_cancel_persistent_update id s).2
| local_accept id s : pn_clients s !! id = None → local_step s (accept_client id s)
| local_disconnect id s : local_step s (ctdb_client_destructor id s).

(** The node after a step; its packets are on the network. *)
Definition put_node (n : Z) s S : psys T := mk_sys (<[n := set_out s []]> (sy_nodes S)) (sy_net S ++ pn_out s) (sy_next S) (sy_log S).
Definition set_net S (net : list ppacket) : psys T := mk_sys (sy_nodes S) net (sy_next S) (sy_log S).
Definition add_log S (e : list plog) : psys T := mk_sys (sy_nodes S) (sy_net S) (sy_next S) (sy_log S ++ e).
Definition fresh S : psys T := mk_sys (sy_nodes S) (sy_net S) (sy_next S + 1) (sy_log S).

Definition requests_of (out : list ppacket) : list (Z * Z) := omap (λ p, match p with UpdateRecord _ dst reqid _ => Some (dst, reqid) | _ => None end) out.
(** The write that the child did, if its byte is 0. *)
Definition stored_of (n : Z) (i : nat) s s' : list plog :=
  match pn_writes s !! i, pn_writes s' !! i with
  | Some w, Some w' => if bool_decide (ws_result w = None ∧ ws_result w' = Some 0) then [LStored n (ws_src w) (ws_reqid w) (ws_m w)] else []
  | _, _ => []
  end.

Inductive pstep : psys T → psys T → Prop :=
| p_local n s s' S : sy_nodes S !! n = Some s → local_step s s' → pstep S (put_node n s' S)
| p_child n i s S : sy_nodes S !! n = Some s → pstep S (add_log (put_node n (childwrite_child i s) S) (stored_of n i s (childwrite_child i s)))
| p_request forked n src reqid m s S l1 l2 :
    sy_nodes S !! n = Some s → sy_net S = l1 ++ UpdateRecord src n reqid m :: l2 →
    pstep S (put_node n (request_update forked src reqid m s) (set_net S (l1 ++ l2)))
| p_reply n src reqid status s S l1 l2 :
    sy_nodes S !! n = Some s → sy_net S = l1 ++ ReplyControl src n reqid status :: l2 →
    pstep S (put_node n (ctdb_reply_control reqid status s) (set_net S (l1 ++ l2)))
| p_lose p S l1 l2 : sy_net S = l1 ++ p :: l2 → pstep S (set_net S (l1 ++ l2)).
(** A client commits [m]. *)
Inductive cstep (m : bytes) : psys T → psys T → Prop :=
| c_commit n client s s' S :
    sy_nodes S !! n = Some s → request_commit (sy_next S) client m s = Some s' →
    cstep m S (add_log (fresh (put_node n s' S)) [LCommit (sy_next S) n (requests_of (pn_out s')) m]).
Definition step S S' : Prop := pstep S S' ∨ ∃ m, cstep m S S'.
End cluster.
End Persist.
