(* ===== verification/PersistProps.v ===== *)
(** * Commits to persistent databases: properties

    A write of a node is all or nothing; a client is told that its commit succeeded
    only after every active node has written it; and when commits are made one after
    the other, all active nodes hold the same data. *)
From S2P Require Import Prelude Protocol Marshal Ltdb Node Call Freeze Persist.
Import Persist.

(** ** The tdb interface, continued *)

(** Starting and committing return 0 or -1; after a commit that failed no
    transaction is open, and either none or all of its changes are in the file. *)
Class TdbTxnStatus (T : Type) `{TdbOps T, !TdbTxn T} := {
  tdb_start_status t t' r : tdb_transaction_start t = (t', r) → r = 0 ∨ r = -1;
  tdb_commit_status t t' r : tdb_transaction_commit t = (t', r) → r = 0 ∨ r = -1;
  tdb_commit_fail t t' r :
    tdb_transaction_commit t = (t', r) → r ≠ 0 → tdb_in_transaction t = true →
    tdb_in_transaction t' = false ∧ ((∀ k, tdb_lookup t' k = tdb_saved t k) ∨ (∀ k, tdb_lookup t' k = tdb_lookup t k));
}.
#[global] Instance txtdb_status : TdbTxnStatus txtdb.
Proof.
  split.
  - intros [m [sv|]] t' r [= <- <-]; auto.
  - intros [m [sv|]] t' r [= <- <-]; auto.
  - intros [m [sv|]] t' r [= <- <-]; done.
Qed.

(** ** What a write does *)

(** The content of a database: the bytes of each record, none for a missing one. *)
Definition content : Type := bytes → bytes.
Definition mrecord : Type := Z * option ctdb_ltdb_header * bytes * bytes.
Definition apply_record (f : content) (r : mrecord) : content :=
  match r with
  | (_, Some h, key, data) => λ k, if decide (k = key) then header_bytes (clean h) ++ data else f k
  | _ => f
  end.
(** A record is newer than what is there, or is the same data. *)
Definition acceptable (old : bytes) (h : ctdb_ltdb_header) (data : bytes) : Prop :=
  let '(old_rsn, old_data) := if Nat.ltb (length old) sizeof_header then (0, []) else (rsn (header_of_bytes old), drop sizeof_header old) in
  old_rsn < rsn h ∨ old_data = data.
Fixpoint all_acceptable (f : content) (recs : list mrecord) : Prop :=
  match recs with
  | [] => True
  | (_, Some h, key, data) as r :: recs => acceptable (f key) h data ∧ all_acceptable (apply_record f r) recs
  | _ :: _ => False
  end.
Definition buffer_records (m : bytes) : option (list mrecord) := marshall_loop (Z.to_nat (mb_count m)) m None true.

Lemma foldl_apply_ext recs (f g : content) : (∀ k, f k = g k) → ∀ k, foldl apply_record f recs k = foldl apply_record g recs k.
Proof.
  revert f g. induction recs as [|[[[? [h|]] key] data] recs IH]; intros f g Hfg k; cbn [foldl]; [apply Hfg| |]; apply IH; [|done].
  intros k'. cbn [apply_record]. by destruct (decide (k' = key)).
Qed.

Section store.
Context {T : Type} `{TdbLaws T} `{!TdbTxn T} `{!TdbTxnLaws T} `{!TdbTxnStatus T}.
Implicit Types db : ctdb_db_context T.

(** What a store leaves as it is. *)
Definition same_file db db' : Prop :=
  db_id db' = db_id db ∧ db_persistent db' = db_persistent db ∧ db_server_store db' = db_server_store db
  ∧ tdb_in_transaction (db_ltdb db') = tdb_in_transaction (db_ltdb db)
  ∧ (tdb_in_transaction (db_ltdb db) = true → ∀ k, tdb_saved (db_ltdb db') k = tdb_saved (db_ltdb db) k).
Lemma same_file_trans db1 db2 db3 : same_file db1 db2 → same_file db2 db3 → same_file db1 db3.
Proof.
  intros (A1 & A2 & A3 & A4 & A5) (B1 & B2 & B3 & B4 & B5). split_and!; try congruence. intros E k. rewrite B5 by congruence. by apply A5.
Qed.
Lemma same_file_refl db : same_file db db.
Proof. by split_and!. Qed.

Lemma store_persistent lc vm db key h data ret h' db' :
  lc_vnn_map lc = Some vm → db_persistent db = true → db_server_store db = true →
  ctdb_ltdb_store lc db key h data = (ret, h', db') →
  same_file db db' ∧ h' = clean h
  ∧ (∀ k, k ≠ key → tdb_fetch (db_ltdb db') k = tdb_fetch (db_ltdb db) k)
  ∧ (ret = 0 → tdb_fetch (db_ltdb db') key = header_bytes (clean h) ++ data).
Proof.
  intros Hvm Hp Hss. unfold ctdb_ltdb_store. rewrite Hss. intros E. assert (h' = clean h) as -> by (by eapply store_server_clean).
  pose proof E as E2. apply (store_server_run _ vm) in E as (t & q & c & Et & -> & _); [|done]. rewrite persistent_keep in Et by done.
  apply (store_server_inv _ vm) in E2 as (F1 & _ & F3 & _); [|done]. rewrite persistent_keep in F1 by done. split; [|by split_and!].
  set (sup := seqnum_unmodified _ _ _) in *. apply tdb_store_txn in Et as [Ht1 Ht2]. unfold same_file. cbn. split_and!; try done.
  - destruct sup; rewrite ?(proj1 (tdb_set_flag_txn _ _)) in *; rewrite ?Ht1; by rewrite ?(proj1 (tdb_set_flag_txn _ _)).
  - intros Hin k. destruct sup.
    + rewrite (proj2 (tdb_set_flag_txn _ _)), Ht2 by (by rewrite (proj1 (tdb_set_flag_txn _ _))). by rewrite (proj2 (tdb_set_flag_txn _ _)).
    + by apply Ht2.
Qed.

Lemma fetch_persistent lc vm db key h0 ret h data db' :
  lc_vnn_map lc = Some vm → db_persistent db = true → db_server_store db = true →
  ctdb_ltdb_fetch lc db key h0 = (ret, h, data, db') →
  let old := tdb_fetch (db_ltdb db) key in
  ret = 0 ∧ same_file db db' ∧ (∀ k, k ≠ key → tdb_fetch (db_ltdb db') k = tdb_fetch (db_ltdb db) k)
  ∧ (rsn h, data) = if Nat.ltb (length old) sizeof_header then (0, []) else (rsn (header_of_bytes old), drop sizeof_header old).
Proof.
  intros Hvm Hp Hss. unfold ctdb_ltdb_fetch. rewrite Hvm. destruct (Nat.ltb_spec (length (tdb_fetch (db_ltdb db) key)) sizeof_header) as [Hl|Hl].
  - rewrite Hp. cbn [orb]. destruct (ctdb_ltdb_store _ _ _ _ _) as [[r h1] d] eqn:E. intros [= <- <- <- <-].
    apply (store_persistent lc vm) in E as (Hs & -> & Ho & _); [|done..]. by split_and!.
  - intros [= <- <- <- <-]. split_and!; [done|apply same_file_refl|done..].
Qed.

Lemma store_loop_spec lc vm m n rec db ok db' :
  lc_vnn_map lc = Some vm → db_persistent db = true → db_server_store db = true →
  persistent_store_loop lc m 0 n rec db = (ok, db') →
  same_file db db'
  ∧ (ok = true → ∃ recs, marshall_loop n m rec true = Some recs ∧ all_acceptable (tdb_fetch (db_ltdb db)) recs
       ∧ ∀ k, tdb_fetch (db_ltdb db') k = foldl apply_record (tdb_fetch (db_ltdb db)) recs k).
Proof.
  intros Hvm. revert rec db. induction n as [|n IH]; intros rec db Hp Hss; cbn [persistent_store_loop marshall_loop].
  { intros [= <- <-]. split; [apply same_file_refl|]. intros _. by exists []. }
  destruct (ctdb_marshall_loop_next m rec true) as [[rec' [[[rid oh] key] data]]|] eqn:Em; [|by intros [= <- <-]; split; [apply same_file_refl|]].
  destruct oh as [h|]; [|by intros [= <- <-]; split; [apply same_file_refl|]]. change (0 &? UPDATE_FLAGS_REPLACE_ONLY) with false. cbn [andb].
  destruct (ctdb_ltdb_fetch lc db key header_unset) as [[[ret1 oldheader] olddata] db1] eqn:Ef. apply (fetch_persistent lc vm) in Ef as (-> & Hs1 & Ho1 & Hold); [|done..]. cbn [Z.eqb negb].
  destruct (_ && _) eqn:Eg; [by intros [= <- <-]|].
  destruct (ctdb_ltdb_store lc db1 key h data) as [[ret2 h2] db2] eqn:Es.
  pose proof Hs1 as (_ & Hp1 & Hss1 & _). apply (store_persistent lc vm) in Es as (Hs2 & _ & Ho2 & Hk2); [|congruence..].
  assert (same_file db db2) as Hs12 by (by eapply same_file_trans). destruct (Z.eqb_spec ret2 0) as [->|Hne]; cbn [negb]; [|by intros [= <- <-]].
  intros Hl. pose proof Hs12 as (_ & Hp2 & Hss2 & _). destruct (IH (Some rec') db2 ltac:(congruence) ltac:(congruence) Hl) as [Hs3 Hok]. split; [by eapply same_file_trans|]. intros Ht.
  destruct (Hok Ht) as (recs & Hrecs & Hacc & Hfin). exists ((rid, Some h, key, data) :: recs).
  assert (∀ k, tdb_fetch (db_ltdb db2) k = apply_record (tdb_fetch (db_ltdb db)) (rid, Some h, key, data) k) as Hstep.
  { intros k. cbn [apply_record]. destruct (decide (k = key)) as [->|Hne]; [by apply Hk2|]. by rewrite Ho2, Ho1. }
  split; [cbn; by rewrite Hrecs|]. split.
  - cbn [all_acceptable]. split.
    + unfold acceptable. rewrite <- Hold. apply andb_false_iff in Eg as [Eg|Eg]; [left; by apply Z.leb_gt in Eg|]. right. apply orb_false_iff in Eg as [_ Eg]. by apply negb_false_iff, bool_decide_eq_true in Eg.
    + clear - Hacc Hstep. revert Hacc Hstep. generalize (apply_record (tdb_fetch (db_ltdb db)) (rid, Some h, key, data)) (tdb_fetch (db_ltdb db2)). clear.
      induction recs as [|[[[? [h|]] key] data] recs IH]; intros g f Hacc Hfg; cbn [all_acceptable] in *; [done| |done]. destruct Hacc as [Ha Hacc]. split; [by rewrite <- Hfg|].
      eapply IH; [exact Hacc|]. intros k. cbn [apply_record]. by destruct (decide (k = key)).
  - intros k. rewrite Hfin. cbn [foldl]. by apply foldl_apply_ext.
Qed.

Lemma all_acceptable_ext recs (f g : content) : (∀ k, f k = g k) → all_acceptable f recs → all_acceptable g recs.
Proof.
  revert f g. induction recs as [|[[[? [h|]] key] data] recs IH]; intros f g Hfg; cbn [all_acceptable]; [done| |done]. intros [Ha Hacc]. split; [by rewrite <- Hfg|].
  eapply IH; [|exact Hacc]. intros k. cbn [apply_record]. by destruct (decide (k = key)).
Qed.

(** Where no store fails the loop gets through acceptable records. *)
Lemma store_loop_total lc vm m n rec db recs :
  lc_vnn_map lc = Some vm → db_persistent db = true → db_server_store db = true → (∀ (t : T) k v, (tdb_store t k v).2 = 0) →
  marshall_loop n m rec true = Some recs → all_acceptable (tdb_fetch (db_ltdb db)) recs →
  (persistent_store_loop lc m 0 n rec db).1 = true.
Proof.
  intros Hvm Hp Hss Hst. revert rec db recs Hp Hss. induction n as [|n IH]; intros rec db recs Hp Hss; cbn [persistent_store_loop marshall_loop]; [done|].
  destruct (ctdb_marshall_loop_next m rec true) as [[rec' [[[rid oh] key] data]]|] eqn:Em; cbn; [|done]. destruct (marshall_loop n m (Some rec') true) as [recs'|] eqn:Er; cbn; [|done].
  intros [= <-]. destruct oh as [h|]; cbn [all_acceptable]; [|done]. intros [Ha Hacc]. change (0 &? UPDATE_FLAGS_REPLACE_ONLY) with false. cbn [andb].
  destruct (ctdb_ltdb_fetch lc db key header_unset) as [[[ret1 oldheader] olddata] db1] eqn:Ef. apply (fetch_persistent lc vm) in Ef as (-> & Hs1 & Ho1 & Hold); [|done..]. cbn [Z.eqb negb].
  unfold acceptable in Ha. rewrite <- Hold in Ha. destruct (_ && _) eqn:Eg.
  { exfalso. apply andb_true_iff in Eg as [Eg1 Eg2]. apply Z.leb_le in Eg1. destruct Ha as [Ha|Ha]; [lia|]. subst olddata. rewrite Z.eqb_refl, bool_decide_true in Eg2 by done. done. }
  pose proof Hs1 as (_ & Hp1 & Hss1 & _).
  destruct (ctdb_ltdb_store lc db1 key h data) as [[ret2 h2] db2] eqn:Es. assert (ret2 = 0) as ->.
  { revert Es. unfold ctdb_ltdb_store. rewrite Hss1, Hss. intros Es. apply (store_server_run _ vm) in Es as (t & q & c & Et & _); [|done]. rewrite persistent_keep in Et by congruence.
    specialize (Hst (if seqnum_unmodified db1 key (header_bytes h2 ++ data) then tdb_set_seqnum_flag (db_ltdb db1) false else db_ltdb db1) key (header_bytes h2 ++ data)). rewrite Et in Hst. done. }
  apply (store_persistent lc vm) in Es as (Hs2 & _ & Ho2 & Hk2); [|congruence..]. cbn [Z.eqb negb]. destruct Hs2 as (_ & Hp2 & Hss2 & _).
  apply (IH _ _ recs'); [congruence..|]. eapply all_acceptable_ext; [|exact Hacc]. intros k. cbn [apply_record]. destruct (decide (k = key)) as [->|Hne]; [by rewrite Hk2|]. by rewrite Ho2, Ho1.
Qed.

Lemma lookup_fetch (t t' : T) : (∀ k, tdb_lookup t k = tdb_lookup t' k) → ∀ k, tdb_fetch t k = tdb_fetch t' k.
Proof. intros E k. by rewrite !tdb_fetch_lookup, E. Qed.

(** All or nothing. *)
Definition applied (m : bytes) (f g : content) : Prop :=
  ∃ recs, buffer_records m = Some recs ∧ all_acceptable f recs ∧ ∀ k, g k = foldl apply_record f recs k.
Lemma applied_ext m (f f' g g' : content) : (∀ k, f k = f' k) → (∀ k, g k = g' k) → applied m f g → applied m f' g'.
Proof.
  intros Hf Hg (recs & Hr & Ha & Hk). exists recs. split; [done|]. split; [by eapply all_acceptable_ext|]. intros k. rewrite <- Hg, Hk. by apply foldl_apply_ext.
Qed.

Lemma persistent_store_spec lc vm m db ret db' :
  lc_vnn_map lc = Some vm → db_persistent db = true → db_server_store db = true → tdb_in_transaction (db_ltdb db) = false →
  ctdb_persistent_store lc m 0 db = (ret, db') →
  let f := tdb_fetch (db_ltdb db) in let g := tdb_fetch (db_ltdb db') in
  tdb_in_transaction (db_ltdb db') = false
  ∧ (ret = 0 ∧ applied m f g ∨ ret = -1 ∧ ((∀ k, g k = f k) ∨ applied m f g)).
Proof.
  intros Hvm Hp Hss Hn. unfold ctdb_persistent_store. destruct (tdb_transaction_start (db_ltdb db)) as [t1 r1] eqn:Est.
  destruct (tdb_start_status _ _ _ Est); subst r1; cbn [Z.eqb].
  2:{ intros [= <- <-]. apply tdb_start_fail in Est as ->; [|done]. cbn. split; [done|]. right. split; [done|]. by left. }
  apply tdb_start_ok in Est as (_ & Hin & Hlk & Hsv).
  destruct (persistent_store_loop _ _ _ _ _ _) as [ok db1] eqn:El. apply (store_loop_spec lc vm) in El as [(Hid & _ & _ & Ht & Hs) Hok]; [|done..]. cbn in Ht, Hs, Hok. specialize (Hs Hin). rewrite Hin in Ht.
  destruct ok.
  - destruct (Hok eq_refl) as (recs & Hr & Ha & Hk). clear Hok. assert (applied m (tdb_fetch (db_ltdb db)) (tdb_fetch (db_ltdb db1))) as Happ.
    { apply (applied_ext m (tdb_fetch t1) _ (tdb_fetch (db_ltdb db1))); [by apply lookup_fetch|done|]. by exists recs. }
    destruct (tdb_transaction_commit (db_ltdb db1)) as [t2 r2] eqn:Ec. destruct (tdb_commit_status _ _ _ Ec); subst r2; cbn [Z.eqb]; intros [= <- <-]; cbn.
    + apply tdb_commit_ok in Ec as (_ & Hout & Hlk2). split; [done|]. left. split; [done|]. eapply applied_ext; [done| |exact Happ]. apply lookup_fetch. by intros k; rewrite Hlk2.
    + apply tdb_commit_fail in Ec as [Hout Hc]; [|done..]. split; [done|]. right. split; [done|]. destruct Hc as [Hc|Hc].
      * left. apply lookup_fetch. intros k. by rewrite Hc, Hs, Hsv.
      * right. eapply applied_ext; [done| |exact Happ]. apply lookup_fetch. by intros k; rewrite Hc.
  - intros [= <- <-]. destruct (tdb_transaction_cancel (db_ltdb db1)) as [t2 r2] eqn:Ec. apply tdb_cancel_open in Ec as [Hout Hc]; [|done]. cbn. split; [done|]. right. split; [done|]. left.
    apply lookup_fetch. intros k. by rewrite Hc, Hs, Hsv.
Qed.

(** C25: a write of [ctdb_persistent_store] is all or nothing.  If it returns 0 the
    records of the buffer are in the database, each newer than what was there
    before or with the same data, and all other records are as before; otherwise it
    returns -1 and the content is as before, unless the commit of the tdb
    transaction failed after it had written.  Where the calls of tdb succeed it
    returns 0 for every readable buffer of such records. *)
Theorem persistent_store_correct lc vm m db ret db' :
  lc_vnn_map lc = Some vm → db_persistent db = true → db_server_store db = true → tdb_in_transaction (db_ltdb db) = false →
  ctdb_persistent_store lc m 0 db = (ret, db') →
  (ret = 0 → applied m (tdb_fetch (db_ltdb db)) (tdb_fetch (db_ltdb db')))
  ∧ (ret ≠ 0 → ret = -1 ∧ ((∀ k, tdb_fetch (db_ltdb db') k = tdb_fetch (db_ltdb db) k) ∨ applied m (tdb_fetch (db_ltdb db)) (tdb_fetch (db_ltdb db'))))
  ∧ tdb_in_transaction (db_ltdb db') = false
  ∧ ((∀ (t : T) k v, (tdb_store t k v).2 = 0) → (tdb_transaction_start (db_ltdb db)).2 = 0 → (∀ t : T, tdb_in_transaction t = true → (tdb_transaction_commit t).2 = 0) →
     ∀ recs, buffer_records m = Some recs → all_acceptable (tdb_fetch (db_ltdb db)) recs → ret = 0).
Proof.
  intros Hvm Hp Hss Hn E. pose proof E as E0. apply (persistent_store_spec lc vm) in E as [Hout Hr]; [|done..]. split; [intros ->; destruct Hr as [[_ Hr]|[? _]]; done|].
  split; [intros Hne; destruct Hr as [[? _]|Hr]; done|]. split; [done|]. intros Hst Hstart Hcommit recs Hrecs Hacc.
  revert E0. unfold ctdb_persistent_store. destruct (tdb_transaction_start (db_ltdb db)) as [t1 r1] eqn:Est. cbn in Hstart. subst r1. cbn [Z.eqb].
  apply tdb_start_ok in Est as (_ & Hin & Hlk & _).
  pose proof (store_loop_total lc vm m (Z.to_nat (mb_count m)) None (set_db_ltdb db t1) recs Hvm Hp Hss Hst Hrecs) as Hl.
  destruct (persistent_store_loop _ _ _ _ _ _) as [ok db1] eqn:El. apply (store_loop_spec lc vm) in El as [(_ & _ & _ & Ht & _) _]; [|done..]. cbn in Ht, Hl. rewrite Hl.
  2:{ eapply all_acceptable_ext; [|exact Hacc]. apply lookup_fetch. by intros k; rewrite Hlk. }
  specialize (Hcommit (db_ltdb db1) ltac:(congruence)). destruct (tdb_transaction_commit (db_ltdb db1)) as [t2 r2]. cbn in Hcommit. subst r2. by intros [= <- <-].
Qed.
End store.

(** ** The cluster *)

Section cluster.
Context {T : Type} `{TdbOps T, !TdbTxn T}.
Implicit Types (s : pnode T) (S : psys T) (log : list plog).

(** The nodes a commit is sent to. *)
Definition target_of s (pnn : Z) : option Z :=
  node ← cx_nodes (pn_ctdb s) !! Z.to_nat pnn; if nd_flags node &? NODE_FLAGS_INACTIVE then None else Some (nd_pnn node).
Definition targets s : list Z := omap (target_of s) (vm_map (cx_vnn_map (pn_ctdb s))).

(** A request or reply belongs to a commit; a reply 0 to a write that succeeded. *)
Definition packet_ok log (p : ppacket) : Prop :=
  match p with
  | UpdateRecord src dst reqid m => ∃ c reqs, LCommit c src reqs m ∈ log ∧ (dst, reqid) ∈ reqs
  | ReplyControl d n reqid status => ∃ c reqs m, LCommit c n reqs m ∈ log ∧ (d, reqid) ∈ reqs ∧ (status = 0 → LStored d n reqid m ∈ log)
  end.
(** A commit in progress: the requests that were not acknowledged are counted. *)
Definition state_ok log (n : Z) s (db : Z) (st : ctdb_persistent_state) : Prop :=
  ∃ reqs m unacked, LCommit (ps_c st) n reqs m ∈ log ∧ reqs.*1 = targets s
  ∧ ps_num_pending st = Z.of_nat (length unacked) ∧ Z.of_nat (length unacked) < 2 ^ 32 ∧ NoDup unacked ∧ unacked ⊆ reqs
  ∧ (∀ d reqid, (d, reqid) ∈ reqs → (d, reqid) ∈ unacked ∨ LStored d n reqid m ∈ log)
  ∧ (∀ reqid, pn_controls s !! reqid = Some db → ∃ d, (d, reqid) ∈ unacked).
Definition reply_ok log (n : Z) s (c status : Z) : Prop :=
  status = 0 → ∃ reqs m, LCommit c n reqs m ∈ log ∧ reqs.*1 = targets s ∧ ∀ d reqid, (d, reqid) ∈ reqs → LStored d n reqid m ∈ log.
Definition write_ok log (n : Z) (w : ctdb_persistent_write_state) : Prop :=
  ∃ c reqs, LCommit c (ws_src w) reqs (ws_m w) ∈ log ∧ (n, ws_reqid w) ∈ reqs ∧ (ws_result w = Some 0 → LStored n (ws_src w) (ws_reqid w) (ws_m w) ∈ log).
Record node_ok log (n : Z) s : Prop := {
  no_pnn : the_pnn s = n;
  no_size : Z.of_nat (length (vm_map (cx_vnn_map (pn_ctdb s)))) < 2 ^ 32;
  no_out : Forall (packet_ok log) (pn_out s);
  no_states db st : pn_states s !! db = Some st → state_ok log n s db st;
  no_controls reqid db : pn_controls s !! reqid = Some db → reqid < pn_next_reqid s ∧ is_Some (pn_states s !! db);
  no_replies : Forall (λ e, reply_ok log n s e.1 e.2) (pn_replies s);
  no_writes : Forall (write_ok log n) (pn_writes s);
}.
(** Request ids are used once, and so are the numbers of commits. *)
Definition log_ok log : Prop :=
  (∀ c1 c2 n r1 r2 m1 m2 d1 d2 reqid, LCommit c1 n r1 m1 ∈ log → LCommit c2 n r2 m2 ∈ log → (d1, reqid) ∈ r1 → (d2, reqid) ∈ r2 → c1 = c2 ∧ d1 = d2)
  ∧ (∀ c n1 n2 r1 r2 m1 m2, LCommit c n1 r1 m1 ∈ log → LCommit c n2 r2 m2 ∈ log → n1 = n2 ∧ r1 = r2 ∧ m1 = m2).
Record sys_ok S : Prop := {
  so_nodes n s : sy_nodes S !! n = Some s → node_ok (sy_log S) n s ∧ pn_out s = [];
  so_net : Forall (packet_ok (sy_log S)) (sy_net S);
  so_log : log_ok (sy_log S);
  so_fresh c n reqs m : LCommit c n reqs m ∈ sy_log S → c < sy_next S ∧ ∀ s d reqid, sy_nodes S !! n = Some s → (d, reqid) ∈ reqs → reqid < pn_next_reqid s;
}.

(** *** More entries of the log *)

Lemma log_sub log e : log ⊆ log ++ e.
Proof. intros x Hx. apply elem_of_app. by left. Qed.
Lemma log_new log (e : plog) : e ∈ log ++ [e].
Proof. apply elem_of_app. right. by left. Qed.
Lemma log_old log (e e' : plog) : e ∈ log ++ [e'] → e ∈ log ∨ e = e'.
Proof. intros Hx. apply elem_of_app in Hx as [?|Hx]; [by left|]. right. by apply list_elem_of_singleton. Qed.

Lemma packet_ok_mono log log' p : log ⊆ log' → packet_ok log p → packet_ok log' p.
Proof. intros Hs. destruct p; cbn; [intros (c & reqs & ? & ?); exists c, reqs; auto|]. intros (c & reqs & m & ? & ? & ?). exists c, reqs, m. split_and!; auto. Qed.
Lemma write_ok_mono log log' n w : log ⊆ log' → write_ok log n w → write_ok log' n w.
Proof. intros Hs (c & reqs & ? & ? & ?). exists c, reqs. split_and!; auto. Qed.
Lemma node_ok_mono log log' n s : log ⊆ log' → node_ok log n s → node_ok log' n s.
Proof.
  intros Hs [H1 H2 H3 H4 H5 H6 H7]. split; [done|done| | |done| |].
  - eapply Forall_impl; [exact H3|]. intros p. by apply packet_ok_mono.
  - intros db st E. destruct (H4 db st E) as (reqs & m & un & ? & ? & ? & ? & ? & ? & Hst & ?). exists reqs, m, un. split_and!; auto.
    intros d reqid Hin. destruct (Hst d reqid Hin); auto.
  - eapply Forall_impl; [exact H6|]. intros [c st] Hr E. destruct (Hr E) as (reqs & m & ? & ? & ?). exists reqs, m. split_and!; eauto.
  - eapply Forall_impl; [exact H7|]. intros w. by apply write_ok_mono.
Qed.

(** *** The steps of a daemon *)

Lemma free_state_ok log n db s : node_ok log n s → node_ok log n (free_state db s).
Proof.
  intros Hok. unfold free_state. destruct (pn_states s !! db) as [st|] eqn:E; [|done]. destruct Hok as [H1 H2 H3 H4 H5 H6 H7]. split; cbn; try done.
  - intros db' st'. rewrite lookup_delete_Some. intros [Hne E']. destruct (H4 db' st' E') as (reqs & m & un & ? & ? & ? & ? & ? & ? & ? & Hc). exists reqs, m, un. split_and!; try done.
    cbn. intros reqid Hr. apply map_lookup_filter_Some in Hr as [Hr _]. by apply Hc.
  - intros reqid db'. rewrite map_lookup_filter_Some. cbn. intros [E' Hne]. destruct (H5 reqid db' E') as [? [st' Hst]]. split; [done|]. rewrite lookup_delete_ne by done. by exists st'.
Qed.
Lemma reply_client_ok log n c status s : node_ok log n s → reply_ok log n s c status → node_ok log n (reply_client c status s).
Proof.
  intros [H1 H2 H3 H4 H5 H6 H7] Hr. split; cbn; try done. apply Forall_app. split; [done|]. by apply Forall_cons.
Qed.
Lemma reply_control_ok log n dst reqid status s : node_ok log n s → packet_ok log (ReplyControl n dst reqid status) → node_ok log n (reply_control dst reqid status s).
Proof.
  intros [H1 H2 H3 H4 H5 H6 H7] Hr. split; cbn; try done. apply Forall_app. split; [done|]. apply Forall_cons. split; [by rewrite H1|done].
Qed.
Lemma recovery_mode_ok log n mode s : node_ok log n s → node_ok log n (set_recovery_mode s mode).
Proof. by intros [H1 H2 H3 H4 H5 H6 H7]; split. Qed.
Lemma set_clients_ok log n v s : node_ok log n s → node_ok log n (set_clients s v).
Proof. by intros [H1 H2 H3 H4 H5 H6 H7]; split. Qed.
Lemma set_state_ok log n db st' s : node_ok log n s → state_ok log n s db st' → node_ok log n (set_states s (<[db := st']> (pn_states s))).
Proof.
  intros [H1 H2 H3 H4 H5 H6 H7] Hst. split; cbn; try done.
  - intros db' st. rewrite lookup_insert_Some. intros [[<- <-]|[Hne E]]; [exact Hst|]. exact (H4 db' st E).
  - intros reqid db' E. destruct (H5 reqid db' E) as [? [st Hs]]. split; [done|]. destruct (decide (db' = db)) as [->|Hne]; [rewrite lookup_insert_eq; by eexists|]. rewrite lookup_insert_ne by done. by exists st.
Qed.
Lemma drop_write_ok log n i s : node_ok log n s → node_ok log n (drop_write i s).
Proof. intros [H1 H2 H3 H4 H5 H6 H7]; split; cbn; try done. apply Forall_forall. intros w Hw. rewrite Forall_forall in H7. apply H7. eapply elem_of_submseteq; [exact Hw|]. apply sublist_submseteq, sublist_delete. Qed.

(** The reply that a write is answered with. *)
Lemma write_reply log n w status : write_ok log n w → (status = 0 → ws_result w = Some 0) → packet_ok log (ReplyControl n (ws_src w) (ws_reqid w) status).
Proof. intros (c & reqs & Hc & Hr & Hs) Hst. exists c, reqs, (ws_m w). split_and!; auto. Qed.
Lemma childwrite_handler_ok log n i s : node_ok log n s → node_ok log n (childwrite_handler i s).
Proof.
  intros Hok. unfold childwrite_handler. destruct (pn_writes s !! i) as [w|] eqn:E; [|done]. apply drop_write_ok, reply_control_ok; [done|]. apply write_reply.
  - apply (Forall_lookup_1 _ _ _ _ (no_writes _ _ _ Hok) E).
  - destruct (ws_result w); cbn; [by intros ->|done].
Qed.
Lemma lock_timeout_ok log n i s : node_ok log n s → node_ok log n (ctdb_persistent_lock_timeout i s).
Proof.
  intros Hok. unfold ctdb_persistent_lock_timeout. destruct (pn_writes s !! i) as [w|] eqn:E; [|done]. apply drop_write_ok, reply_control_ok; [done|]. apply write_reply; [|done].
  apply (Forall_lookup_1 _ _ _ _ (no_writes _ _ _ Hok) E).
Qed.
Lemma request_update_ok log n forked src reqid m s : node_ok log n s → packet_ok log (UpdateRecord src n reqid m) → node_ok log n (request_update forked src reqid m s).
Proof.
  intros Hok (c & reqs & Hc & Hr). unfold request_update, ctdb_control_update_record.
  assert (node_ok log n (reply_control src reqid (-1) s)) as Hrej by (apply reply_control_ok; [done|]; by exists c, reqs, m).
  destruct (negb (normal s)); [done|]. destruct (find_db _ _) as [db|]; [|done]. destruct (bool_decide _); [done|]. destruct forked; [|done]. cbn [negb].
  destruct Hok as [H1 H2 H3 H4 H5 H6 H7]. split; cbn; try done. apply Forall_app. split; [done|]. apply Forall_cons. split; [|done]. by exists c, reqs.
Qed.

(** An answered request, with any status. *)
Lemma control_done_ok log n reqid status s :
  log_ok log → node_ok log n s →
  (status = 0 → ∃ c d reqs m, LCommit c n reqs m ∈ log ∧ (d, reqid) ∈ reqs ∧ LStored d n reqid m ∈ log) →
  node_ok log n (control_done reqid status s).
Proof.
  intros [Hlog Hun] Hok Hst. unfold control_done. destruct (pn_controls s !! reqid) as [db|] eqn:Ec; [|done].
  set (s1 := set_controls s (delete reqid (pn_controls s)) (pn_next_reqid s)).
  destruct (no_controls _ _ _ Hok reqid db Ec) as [_ [st Est]]. destruct (no_states _ _ _ Hok db st Est) as (reqs & m & un & Hc & Htg & Hpend & Hlen & Hnd & Hsub & Hall & Hctl).
  destruct (Hctl reqid Ec) as [d Hd].
  assert (node_ok log n s1) as Hok1.
  { destruct Hok as [H1 H2 H3 H4 H5 H6 H7]. split; cbn; try done.
    - intros db' st' E'. destruct (H4 db' st' E') as (reqs' & m' & un' & ? & ? & ? & ? & ? & ? & ? & Hc'). exists reqs', m', un'. split_and!; try done. cbn. intros r Hr. apply lookup_delete_Some in Hr as [_ Hr]. by apply Hc'.
    - intros r db' Hr. apply lookup_delete_Some in Hr as [_ Hr]. by apply H5. }
  unfold ctdb_persistent_callback. change (pn_states s1) with (pn_states s). rewrite Est. destruct (negb (normal s1)); [done|]. destruct (Z.eqb_spec status 0) as [->|Hne]; cbn [negb].
  - destruct (Hst eq_refl) as (c' & d' & reqs' & m' & Hc' & Hd' & Hstored). destruct (Hlog _ _ _ _ _ _ _ _ _ _ Hc' Hc Hd' (Hsub _ Hd)) as [-> ->]. destruct (Hun _ _ _ _ _ _ _ Hc' Hc) as (_ & _ & ->).
    apply list_elem_of_split in Hd as (u1 & u2 & ->). assert (0 < Z.of_nat (length (u1 ++ (d, reqid) :: u2))) as Hpos by (rewrite length_app; cbn; lia).
    assert (Z.of_nat (length (u1 ++ (d, reqid) :: u2)) - 1 = Z.of_nat (length (u1 ++ u2))) as Hl1 by (rewrite !length_app; cbn; lia).
    assert (∀ d0 r0, (d0, r0) ∈ reqs → (d0, r0) ∈ u1 ++ u2 ∨ LStored d0 n r0 m ∈ log) as Hall'.
    { intros d0 r0 Hin. destruct (Hall d0 r0 Hin) as [Hu|]; [|by right]. apply elem_of_app in Hu as [Hu|Hu]; [left; apply elem_of_app; by left|].
      apply elem_of_cons in Hu as [[= -> ->]|Hu]; [by right|]. left. apply elem_of_app. by right. }
    rewrite Hpend, (u32_id (Z.of_nat _ - 1)) by (unfold is_u32; lia). rewrite Hl1. cbn [ps_c].
    set (st' := mk_ps _ _ _ _ _ _ _). assert (state_ok log n s1 db st') as Hst'.
    { exists reqs, m, (u1 ++ u2). split_and!; try done; [lia|..].
      - rewrite <- Permutation_middle in Hnd. by apply NoDup_cons in Hnd as [_ Hnd].
      - intros e He. apply Hsub. apply elem_of_app in He as [?|?]; apply elem_of_app; [by left|right; by right].
      - cbn. intros r Hr. apply lookup_delete_Some in Hr as [Hne Hr]. destruct (Hctl r Hr) as [d1 Hd1]. exists d1. apply elem_of_app in Hd1 as [?|Hd1]; [apply elem_of_app; by left|].
        apply elem_of_cons in Hd1 as [[= -> ->]|?]; [done|]. apply elem_of_app. by right. }
    pose proof (set_state_ok log n db st' s1 Hok1 Hst') as Hok2. destruct (Z.eqb_spec (Z.of_nat (length (u1 ++ u2))) 0) as [Hz|]; [|done]. cbn [negb].
    apply free_state_ok, reply_client_ok; [done|]. intros _. exists reqs, m. split_and!; try done. intros d0 r0 Hin. destruct (Hall' d0 r0 Hin) as [Hu|]; [|done].
    destruct (u1 ++ u2); [by apply elem_of_nil in Hu|cbn in Hz; lia].
  - apply recovery_mode_ok. apply (set_state_ok log n db _ s1); [done|]. exists reqs, m, un. split_and!; try done. cbn. intros r Hr. apply lookup_delete_Some in Hr as [_ Hr]. by apply Hctl.
Qed.

Lemma store_timeout_ok log n db s : node_ok log n s → node_ok log n (ctdb_persistent_store_timeout db s).
Proof.
  intros Hok. unfold ctdb_persistent_store_timeout. destruct (pn_states s !! db) as [st|] eqn:E; [|done]. destruct (ps_timer st); [|done].
  set (st' := mk_ps _ _ _ _ _ _ _). assert (node_ok log n (set_states s (<[db := st']> (pn_states s)))) as Hok' by (apply set_state_ok; [done|]; exact (no_states _ _ _ Hok db st E)).
  destruct (negb (normal _)); [done|]. by apply free_state_ok, reply_client_ok.
Qed.
Lemma finish_ok log n s : node_ok log n s → node_ok log n (ctdb_persistent_finish_trans3_commits s).
Proof.
  intros Hok. unfold ctdb_persistent_finish_trans3_commits. destruct (negb (normal s)); [done|]. generalize (cx_db_list (pn_ctdb s)). intros dbs. revert s Hok.
  induction dbs as [|db dbs IH]; intros s Hok; cbn [finish_loop]; [done|]. destruct (pn_states s !! db_id db) as [st|]; [|by apply IH]. by apply IH, free_state_ok, reply_client_ok.
Qed.
Lemma disconnect_ok log n id s : node_ok log n s → node_ok log n (ctdb_client_destructor id s).
Proof.
  intros Hok. unfold ctdb_client_destructor. destruct (pn_clients s !! id) as [cl|]; [|done]. apply set_clients_ok. set (s1 := if negb _ then _ else _).
  assert (node_ok log n s1) as Hok1 by (unfold s1; destruct (negb _); [by apply recovery_mode_ok|done]). destruct (find_db _ _); [|done]. by apply free_state_ok, recovery_mode_ok.
Qed.
Lemma local_step_ok log n s s' : log_ok log → node_ok log n s → local_step s s' → node_ok log n s'.
Proof.
  intros Hlog Hok Hs. destruct Hs.
  - by apply childwrite_handler_ok.
  - by apply lock_timeout_ok.
  - by apply control_done_ok.
  - by apply store_timeout_ok.
  - by apply recovery_mode_ok.
  - by apply finish_ok.
  - unfold ctdb_control_start_persistent_update. destruct (pn_clients s !! id); [by apply set_clients_ok|done].
  - unfold ctdb_control_cancel_persistent_update. destruct (pn_clients s !! id) as [cl|]; [|done]. cbn. destruct (0 <? _); [by apply set_clients_ok|done].
  - by apply set_clients_ok.
  - by apply disconnect_ok.
Qed.

(** *** Sending a commit *)

(** The requests with their ids. *)
Fixpoint numbered (next : Z) (ts : list Z) : list (Z * Z) :=
  match ts with
  | [] => []
  | t :: ts => (t, next) :: numbered (next + 1) ts
  end.
Lemma numbered_fst next ts : (numbered next ts).*1 = ts.
Proof. revert next. induction ts as [|t ts IH]; intros next; cbn; [done|]. by rewrite IH. Qed.
Lemma numbered_length next ts : length (numbered next ts) = length ts.
Proof. by rewrite <- (length_fmap fst), numbered_fst. Qed.
Lemma numbered_range next ts d reqid : (d, reqid) ∈ numbered next ts → next <= reqid < next + Z.of_nat (length ts).
Proof.
  revert next. induction ts as [|t ts IH]; intros next; cbn [numbered length]; [intros Hin; by apply elem_of_nil in Hin|].
  intros Hin. apply elem_of_cons in Hin as [[= -> ->]|Hin]; [lia|]. apply IH in Hin. lia.
Qed.
Lemma numbered_unique next ts d1 d2 reqid : (d1, reqid) ∈ numbered next ts → (d2, reqid) ∈ numbered next ts → d1 = d2.
Proof.
  revert next. induction ts as [|t ts IH]; intros next; cbn [numbered]; [intros Hin; by apply elem_of_nil in Hin|].
  intros H1 H2. apply elem_of_cons in H1 as [[= -> ->]|H1]; apply elem_of_cons in H2 as [E2|H2].
  - by injection E2.
  - apply numbered_range in H2. lia.
  - injection E2 as -> ->. apply numbered_range in H1. lia.
  - by apply (IH (next + 1)).
Qed.
Lemma numbered_nodup next ts : NoDup (numbered next ts).
Proof.
  revert next. induction ts as [|t ts IH]; intros next; cbn [numbered]; [constructor|]. constructor; [|apply IH]. intros Hin. apply numbered_range in Hin. lia.
Qed.

Definition same_rest s s' : Prop :=
  pn_ctdb s' = pn_ctdb s ∧ pn_clients s' = pn_clients s ∧ pn_writes s' = pn_writes s ∧ pn_replies s' = pn_replies s ∧ pn_unhealthy s' = pn_unhealthy s.
Lemma send_loop_spec map db m s sent s' st :
  send_loop map db m s = Some (sent, s') → pn_states s !! db = Some st → is_u32 (ps_num_pending st) →
  let reqs := numbered (pn_next_reqid s) (omap (target_of s) map) in
  same_rest s s'
  ∧ (sent = false ∧ s' = s
     ∨ sent = true ∧ pn_next_reqid s' = pn_next_reqid s + Z.of_nat (length reqs)
       ∧ pn_out s' = pn_out s ++ ((λ r, UpdateRecord (the_pnn s) r.1 r.2 m) <$> reqs)
       ∧ (∃ st', pn_states s' = <[db := st']> (pn_states s) ∧ ps_c st' = ps_c st ∧ ps_num_pending st' = u32 (ps_num_pending st + Z.of_nat (length reqs)))
       ∧ (∀ reqid db', pn_controls s' !! reqid = Some db' → pn_controls s !! reqid = Some db' ∨ db' = db ∧ ∃ d, (d, reqid) ∈ reqs)).
Proof.
  revert s st. induction map as [|pnn map IH]; intros s st; cbn [send_loop].
  { intros [= <- <-] Est Hu. cbn. split; [done|]. right. rewrite Z.add_0_r, app_nil_r. split_and!; try done; [|by left]. exists st. rewrite insert_id by done. split_and!; try done. by rewrite Z.add_0_r, u32_id. }
  change (omap (target_of s) (pnn :: map)) with (match target_of s pnn with Some t => t :: omap (target_of s) map | None => omap (target_of s) map end).
  assert (target_of s pnn = (node ← cx_nodes (pn_ctdb s) !! Z.to_nat pnn; if nd_flags node &? NODE_FLAGS_INACTIVE then None else Some (nd_pnn node))) as -> by done.
  destruct (cx_nodes (pn_ctdb s) !! Z.to_nat pnn) as [node|]; cbn [mbind option_bind]; [|done]. destruct (nd_flags node &? NODE_FLAGS_INACTIVE); [by apply IH|].
  unfold send_update. destruct (cx_methods (pn_ctdb s)) eqn:Em; cbn [negb].
  2:{ intros [= <- <-] Est Hu. split; [done|]. by left. }
  set (s1 := count_sent db _). intros Hl Est Hu. cbn [numbered].
  set (st1 := mk_ps (ps_c st) (ps_client st) (ps_status st) (u32 (ps_num_pending st + 1)) (ps_num_failed st) (u32 (ps_num_sent st + 1)) (ps_timer st)).
  assert (pn_states s1 !! db = Some st1) as E1 by (cbn; by rewrite lookup_alter_eq, Est).
  destruct (IH s1 st1 Hl E1 (u32_range _)) as (Hrest & Hres). change (omap (target_of s1) map) with (omap (target_of s) map) in Hres. change (pn_next_reqid s1) with (pn_next_reqid s + 1) in Hres.
  set (reqs := numbered (pn_next_reqid s + 1) _) in *. split; [done|]. destruct Hres as [[-> ->]|(-> & Hn & Ho & (st' & Hst & Hc & Hp) & Hctl)].
  - exfalso. clear - Hl Em. assert (∀ map s2 s3, cx_methods (pn_ctdb s2) = true → send_loop map db m s2 = Some (false, s3) → False) as Hno.
    { clear. intros map. induction map as [|p map IH]; intros s2 s3 Em; cbn [send_loop]; [done|]. destruct (cx_nodes _ !! _) as [nd|]; cbn; [|done]. destruct (_ &? _); [by apply IH|].
      unfold send_update. rewrite Em. cbn [negb]. by apply IH. }
    by eapply Hno; [|exact Hl].
  - right. split; [done|]. cbn [length fmap list_fmap]. split; [rewrite Hn; lia|]. split; [rewrite Ho; cbn; by rewrite <- app_assoc|]. split.
    + exists st'. split_and!; [|done|].
      * rewrite Hst. cbn. apply map_eq. intros i. destruct (decide (i = db)) as [->|Hne]; [by rewrite !lookup_insert_eq|]. rewrite !lookup_insert_ne by done. by rewrite lookup_alter_ne.
      * rewrite Hp. cbn. unfold u32. rewrite Zplus_mod_idemp_l. f_equal. lia.
    + intros reqid db' E. destruct (Hctl reqid db' E) as [E'|[-> [d Hd]]]; [|right; split; [done|]; exists d; by right].
      cbn in E'. apply lookup_insert_Some in E' as [[<- <-]|[_ E']]; [|by left]. right. split; [done|]. eexists. left.
Qed.

Lemma requests_of_numbered n m reqs : requests_of ((λ r, UpdateRecord n r.1 r.2 m) <$> reqs) = reqs.
Proof. induction reqs as [|[d r] reqs IH]; [done|]. cbn. by f_equal. Qed.
Lemma targets_length s : Z.of_nat (length (targets s)) <= Z.of_nat (length (vm_map (cx_vnn_map (pn_ctdb s)))).
Proof.
  apply inj_le. unfold targets. induction (vm_map (cx_vnn_map (pn_ctdb s))) as [|p l IH]; [done|].
  change (omap (target_of s) (p :: l)) with (match target_of s p with Some t => t :: omap (target_of s) l | None => omap (target_of s) l end). destruct (target_of s p); cbn [length]; lia.
Qed.

(** The new commit of a database, before it is sent. *)
Definition begin_commit (c client id db : Z) (cl : ctdb_client) s : pnode T :=
  set_states (set_clients s (<[client := mk_client id (cl_num_persistent_updates cl)]> (pn_clients s))) (<[db := mk_ps c client 0 0 0 0 false]> (pn_states s)).
Lemma free_new_ok log n c client id db cl s : node_ok log n s → node_ok log n (free_state db (begin_commit c client id db cl s)).
Proof.
  intros [H1 H2 H3 H4 H5 H6 H7]. unfold free_state, begin_commit. cbn. rewrite lookup_insert_eq. split; cbn; try done.
  - intros db' st. rewrite lookup_delete_Some, lookup_insert_Some. intros [Hne [[-> _]|[_ E]]]; [done|]. destruct (H4 db' st E) as (reqs & m & un & ? & ? & ? & ? & ? & ? & ? & Hc). exists reqs, m, un. split_and!; try done.
    cbn. intros reqid Hr. apply map_lookup_filter_Some in Hr as [Hr _]. by apply Hc.
  - intros reqid db'. rewrite map_lookup_filter_Some. cbn. intros [E' Hne]. destruct (H5 reqid db' E') as [? [st' Hst]]. split; [done|]. rewrite lookup_delete_ne, lookup_insert_ne by done. by exists st'.
Qed.

Lemma sent_ok log n c client id db cl m s s2 :
  send_loop (vm_map (cx_vnn_map (pn_ctdb s))) db m (begin_commit c client id db cl s) = Some (true, s2) →
  node_ok log n s → pn_out s = [] → pn_states s !! db = None →
  let reqs := numbered (pn_next_reqid s) (targets s) in
  requests_of (pn_out s2) = reqs ∧ pn_next_reqid s2 = pn_next_reqid s + Z.of_nat (length reqs) ∧ node_ok (log ++ [LCommit c n reqs m]) n s2
  ∧ ∃ st, pn_states s2 !! db = Some st ∧ ps_c st = c ∧ ps_num_pending st = Z.of_nat (length reqs).
Proof.
  intros Hl Hok Hout Hnone. set (s1 := begin_commit c client id db cl s) in *.
  assert (pn_states s1 !! db = Some (mk_ps c client 0 0 0 0 false)) as E1 by (cbn; by rewrite lookup_insert_eq).
  apply (send_loop_spec _ _ _ _ _ _ _ Hl) in E1 as ((Hctdb & _ & Hwr & Hrep & _) & Hres); [|done]. destruct Hres as [[? _]|(_ & Hn & Ho & (st & Hst & Hc & Hp) & Hctl)]; [done|].
  change (omap (target_of s1) _) with (targets s) in Hn, Ho, Hp, Hctl. change (pn_next_reqid s1) with (pn_next_reqid s) in *. set (reqs := numbered (pn_next_reqid s) (targets s)) in *.
  change (pn_out s1) with (pn_out s) in Ho. rewrite Hout in Ho. cbn [app] in Ho. cbn [ps_c ps_num_pending] in Hc, Hp. intros reqs'.
  pose proof (targets_length s) as Htl. assert (length reqs = length (targets s)) as Hrl by apply numbered_length. pose proof (no_size _ _ _ Hok) as Hsz.
  rewrite Z.add_0_l, u32_id in Hp by (unfold is_u32; lia). split; [by rewrite Ho, requests_of_numbered|]. split; [done|]. split; [|exists st; by rewrite Hst, lookup_insert_eq].
  apply (node_ok_mono _ _ _ _ (log_sub log [LCommit c n reqs m])) in Hok. destruct Hok as [H1 _ H3 H4 H5 H6 H7].
  assert (targets s2 = targets s) as Htg by (unfold targets, target_of; by rewrite Hctdb).
  split.
  - unfold the_pnn. rewrite Hctdb. exact H1.
  - rewrite Hctdb. exact Hsz.
  - rewrite Ho. apply Forall_fmap, Forall_forall. intros [d r] Hin. cbn. change (the_pnn s1) with (the_pnn s). rewrite H1. exists c, reqs. split; [apply log_new|done].
  - intros db' st'. rewrite Hst, lookup_insert_Some. intros [[<- <-]|[Hne E]].
    + exists reqs, m, reqs. rewrite Hc, Htg. split_and!; try done; [apply log_new|apply numbered_fst|lia|apply numbered_nodup|intros; by left|].
      intros reqid Hr. destruct (Hctl reqid db Hr) as [Hr'|[_ Hd]]; [|done]. cbn in Hr'. destruct (H5 reqid db Hr') as [_ [? Hx]]. congruence.
    + change (pn_states s1) with (<[db := mk_ps c client 0 0 0 0 false]> (pn_states s)) in E. rewrite lookup_insert_ne in E by done. destruct (H4 db' st' E) as (reqs0 & m0 & un & ? & ? & ? & ? & ? & ? & ? & Hc').
      exists reqs0, m0, un. rewrite Htg. split_and!; try done. intros reqid Hr. destruct (Hctl reqid db' Hr) as [Hr'|[? _]]; [by apply Hc'|done].
  - intros reqid db' Hr. destruct (Hctl reqid db' Hr) as [Hr'|[-> [d Hd]]].
    + destruct (H5 reqid db' Hr') as [? [st' E']]. split; [rewrite Hn; lia|]. rewrite Hst. destruct (decide (db' = db)) as [->|Hne]; [rewrite lookup_insert_eq; by eexists|]. cbn. rewrite !lookup_insert_ne by done. by exists st'.
    + apply numbered_range in Hd. split; [rewrite Hn; lia|]. rewrite Hst, lookup_insert_eq. by eexists.
  - rewrite Hrep. change (pn_replies s1) with (pn_replies s). eapply Forall_impl; [exact H6|]. intros [c0 st0] Hr Hz. rewrite Htg. by apply Hr.
  - rewrite Hwr. exact H7.
Qed.

Definition new_requests s s' (reqs : list (Z * Z)) : Prop :=
  pn_next_reqid s <= pn_next_reqid s' ∧ (∀ d r, (d, r) ∈ reqs → pn_next_reqid s <= r < pn_next_reqid s') ∧ (∀ d1 d2 r, (d1, r) ∈ reqs → (d2, r) ∈ reqs → d1 = d2).
Lemma new_requests_nil s s' : pn_next_reqid s' = pn_next_reqid s → new_requests s s' [].
Proof. intros E. split_and!; [lia|intros d r Hin; by apply elem_of_nil in Hin|intros d1 d2 r Hin; by apply elem_of_nil in Hin]. Qed.
Lemma free_state_next db s : pn_next_reqid (free_state db s) = pn_next_reqid s.
Proof. unfold free_state. by destruct (pn_states s !! db). Qed.
Lemma free_state_out db s : pn_out (free_state db s) = pn_out s.
Proof. unfold free_state. by destruct (pn_states s !! db). Qed.
Lemma free_state_targets db s : targets (free_state db s) = targets s.
Proof. unfold free_state. by destruct (pn_states s !! db). Qed.

Lemma trans3_commit_ok log n c client m s s' :
  request_commit c client m s = Some s' → node_ok log n s → pn_out s = [] →
  let reqs := requests_of (pn_out s') in
  node_ok (log ++ [LCommit c n reqs m]) n s' ∧ new_requests s s' reqs.
Proof.
  intros Hreq Hok Hout. assert (∀ e s0, node_ok log n s0 → pn_out s0 = [] → pn_next_reqid s0 = pn_next_reqid s → reply_client c (-1) s0 = s' →
    let reqs := requests_of (pn_out s') in node_ok (log ++ [e]) n s' ∧ new_requests s s' reqs) as Hrej.
  { intros e s0 Hok0 Ho Hn <-. cbn. rewrite Ho. split; [|by apply new_requests_nil]. apply reply_client_ok; [|done]. eapply node_ok_mono; [apply log_sub|done]. }
  revert Hreq. unfold request_commit, ctdb_control_trans3_commit.
  destruct (negb (normal s)); [intros [= E]; by apply (Hrej _ s)|]. destruct (pn_clients s !! client) as [cl|]; [|intros [= E]; by apply (Hrej _ s)].
  destruct (negb (cl_db_id cl =? 0)); [intros [= E]; by apply (Hrej _ s)|]. destruct (find_db _ _) as [db|]; [|intros [= E]; by apply (Hrej _ s)].
  destruct (pn_states s !! db_id db) as [st0|] eqn:Est0; [intros [= E]; by apply (Hrej _ s)|].
  set (s1 := set_states (set_clients s (<[client := _]> _)) _). assert (s1 = begin_commit c client (mb_db_id m) (db_id db) cl s) as Hs1 by done. clearbody s1. subst s1. set (s1 := begin_commit _ _ _ _ _ _).
  change (cx_vnn_map (pn_ctdb s1)) with (cx_vnn_map (pn_ctdb s)). destruct (send_loop _ _ _ s1) as [[sent s2]|] eqn:El; cbn [mbind option_bind]; [|done]. destruct sent; cbn [negb].
  - destruct (sent_ok log _ _ _ _ _ _ _ _ _ El Hok Hout Est0) as (Hr & Hn & Hok2 & st & Est & Hc & Hp). set (reqs := numbered _ _) in *. rewrite Est.
    assert (new_requests s s2 reqs) as Hnew.
    { split_and!; [lia| |apply numbered_unique]. intros d r Hin. apply numbered_range in Hin. unfold reqs in Hn. rewrite numbered_length in Hn. lia. }
    destruct (Z.eqb_spec (ps_num_pending st) 0) as [Hz|Hz]; intros [= <-].
    + cbn zeta. change (pn_out (reply_client c 0 (free_state (db_id db) s2))) with (pn_out (free_state (db_id db) s2)). rewrite free_state_out, Hr. rewrite Hp in Hz. assert (reqs = []) as Hnil by (destruct reqs; [done|cbn in Hz; lia]). split.
      * apply reply_client_ok; [by apply free_state_ok|]. intros _. exists reqs, m. split; [apply log_new|]. rewrite free_state_targets. split; [|rewrite Hnil; intros d r Hin; by apply elem_of_nil in Hin].
        destruct (no_states _ _ _ Hok2 _ _ Est) as (reqs' & m' & _ & _ & Htg & _). rewrite Hnil. destruct (send_loop_spec _ _ _ _ _ _ _ El (lookup_insert_eq _ _ _) ltac:(done)) as ((Hctdb & _) & _).
        unfold targets, target_of. rewrite Hctdb. change (pn_ctdb s1) with (pn_ctdb s). symmetry. unfold reqs in Hnil. apply (f_equal (fmap fst)) in Hnil. by rewrite numbered_fst in Hnil.
      * destruct Hnew as (N1 & N2 & N3). split_and!; cbn; rewrite ?free_state_next; done.
    + cbn zeta. change (pn_out (set_states s2 _)) with (pn_out s2). rewrite Hr. split; [|exact Hnew]. apply set_state_ok; [done|]. exact (no_states _ _ _ Hok2 _ _ Est).
  - assert (s2 = s1) as ->. { destruct (send_loop_spec _ _ _ _ _ _ _ El (lookup_insert_eq _ _ _) ltac:(done)) as (_ & [[_ ?]|[? _]]); done. }
    intros [= E]. apply (Hrej _ (free_state (db_id db) s1)); [by apply free_new_ok|by rewrite free_state_out|by rewrite free_state_next|done].
Qed.

(** *** The child of a write *)

Lemma child_ok log n i s : node_ok log n s → let s' := childwrite_child i s in node_ok (log ++ stored_of n i s s') n s' ∧ pn_next_reqid s' = pn_next_reqid s.
Proof.
  intros Hok. unfold childwrite_child. destruct (pn_writes s !! i) as [w|] eqn:E; [|unfold stored_of; rewrite E, app_nil_r; by split].
  assert (node_ok (log ++ stored_of n i s s) n s ∧ pn_next_reqid s = pn_next_reqid s) as Hsame.
  { unfold stored_of. rewrite E. rewrite bool_decide_false by (by intros [-> ?]). by rewrite app_nil_r. }
  destruct (ws_result w) eqn:Ew; [done|]. destruct (find_db _ _) as [db|]; [|done]. destruct (ctdb_persistent_store _ _ _ _) as [ret db'] eqn:Es.
  set (b := if negb (ret =? 0) then 1 else 0). set (w' := mk_ws _ _ _ _ _ _). set (s1 := set_ctdb s _). cbn zeta. change (pn_writes s1) with (pn_writes s).
  set (s' := set_writes s1 (<[i := w']> (pn_writes s))). split; [|done].
  apply (node_ok_mono _ _ _ _ (log_sub log (stored_of n i s s'))) in Hok as Hok'. destruct Hok' as [H1 H2 H3 H4 H5 H6 H7]. split; cbn; try done.
  apply Forall_insert; [done|]. destruct (Forall_lookup_1 _ _ _ _ (no_writes _ _ _ Hok) E) as (c & reqs & Hc & Hr & _). exists c, reqs. cbn. split; [by apply log_sub|]. split; [done|].
  intros [= Hb]. apply elem_of_app. right. unfold stored_of. rewrite E. cbn. rewrite list_lookup_insert_eq by (by eapply lookup_lt_Some). rewrite bool_decide_true by (cbn; by rewrite Hb). by left.
Qed.

(** *** The system *)

Lemma finish_loop_next dbs s : pn_next_reqid (finish_loop dbs s) = pn_next_reqid s.
Proof. revert s. induction dbs as [|db dbs IH]; intros s; cbn [finish_loop]; [done|]. destruct (pn_states s !! db_id db); rewrite IH; [by rewrite free_state_next|done]. Qed.
Lemma control_done_next reqid status s : pn_next_reqid (control_done reqid status s) = pn_next_reqid s.
Proof.
  unfold control_done, ctdb_persistent_callback. destruct (pn_controls s !! reqid) as [db|]; [|done]. cbn. destruct (pn_states s !! db); [|done]. destruct (negb _); [done|].
  destruct (negb (status =? 0)); [done|]. destruct (negb _); [done|]. by rewrite free_state_next.
Qed.
Lemma local_step_next s s' : local_step s s' → pn_next_reqid s' = pn_next_reqid s.
Proof.
  destruct 1.
  - unfold childwrite_handler. by destruct (pn_writes s !! i).
  - unfold ctdb_persistent_lock_timeout. by destruct (pn_writes s !! i).
  - apply control_done_next.
  - unfold ctdb_persistent_store_timeout. destruct (pn_states s !! db) as [st|]; [|done]. destruct (ps_timer st); [|done]. destruct (negb _); [done|]. by rewrite free_state_next.
  - done.
  - unfold ctdb_persistent_finish_trans3_commits. destruct (negb _); [done|]. apply finish_loop_next.
  - unfold ctdb_control_start_persistent_update. by destruct (pn_clients s !! id).
  - unfold ctdb_control_cancel_persistent_update. destruct (pn_clients s !! id); [|done]. cbn. by destruct (0 <? _).
  - done.
  - unfold ctdb_client_destructor. destruct (pn_clients s !! id) as [cl|]; [|done]. cbn. destruct (find_db _ _); [rewrite free_state_next|]; by destruct (negb _).
Qed.

Lemma sys_put S n s s' net e next :
  sys_ok S → sy_nodes S !! n = Some s → Forall (packet_ok (sy_log S)) net → node_ok (sy_log S ++ e) n s' → log_ok (sy_log S ++ e) → sy_next S <= next →
  (∀ c n' reqs m, LCommit c n' reqs m ∈ e → c < next ∧ n' = n ∧ ∀ d r, (d, r) ∈ reqs → r < pn_next_reqid s') → pn_next_reqid s <= pn_next_reqid s' →
  sys_ok (mk_sys (<[n := set_out s' []]> (sy_nodes S)) (net ++ pn_out s') next (sy_log S ++ e)).
Proof.
  intros [H1 H2 H3 H4] Hn Hnet Hok Hlog Hnext He Hrid. split; cbn; [| |done|].
  - intros n' s0. rewrite lookup_insert_Some. intros [[<- <-]|[Hne E]].
    + split; [|done]. by destruct Hok; split.
    + destruct (H1 n' s0 E) as [Ho Hout]. split; [|done]. eapply node_ok_mono; [apply log_sub|done].
  - apply Forall_app. split; [|apply Hok]. eapply Forall_impl; [exact Hnet|]. intros p. apply packet_ok_mono, log_sub.
  - intros c n' reqs m Hc. apply elem_of_app in Hc as [Hc|Hc].
    + destruct (H4 c n' reqs m Hc) as [Hlt Hr]. split; [lia|]. intros s0 d r. rewrite lookup_insert_Some. intros [[<- <-]|[Hne E]] Hin; [|by eapply Hr]. cbn. specialize (Hr s d r Hn Hin). lia.
    + destruct (He c n' reqs m Hc) as (Hlt & -> & Hr). split; [done|]. intros s0 d r. rewrite lookup_insert_eq. intros [= <-]. apply Hr.
Qed.
Lemma log_ok_other log e : log_ok log → (∀ c n reqs m, LCommit c n reqs m ∉ e) → log_ok (log ++ e).
Proof.
  intros [H1 H2] He. assert (∀ c n reqs m, LCommit c n reqs m ∈ log ++ e → LCommit c n reqs m ∈ log) as Hold by (intros c n reqs m Hin; apply elem_of_app in Hin as [?|?]; [done|by destruct (He c n reqs m)]).
  split; eauto.
Qed.
Lemma stored_of_no_commit n i s s' c n' reqs m : LCommit c n' reqs m ∉ stored_of n i s s'.
Proof.
  unfold stored_of. intros Hin. destruct (pn_writes s !! i); [|by apply elem_of_nil in Hin]. destruct (pn_writes s' !! i); [|by apply elem_of_nil in Hin].
  case_bool_decide; [|by apply elem_of_nil in Hin]. by apply list_elem_of_singleton in Hin.
Qed.
Lemma net_without log l1 l2 p : Forall (packet_ok log) (l1 ++ p :: l2) → packet_ok log p ∧ Forall (packet_ok log) (l1 ++ l2).
Proof. rewrite !Forall_app, Forall_cons. tauto. Qed.

Lemma pstep_ok S S' : sys_ok S → pstep S S' → sys_ok S'.
Proof.
  intros HS Hs. destruct Hs as [n s s' S Hn Hl|n i s S Hn|forked n src reqid m s S l1 l2 Hn Hnet|n src reqid status s S l1 l2 Hn Hnet|p S l1 l2 Hnet]; pose proof HS as [H1 H2 H3 H4].
  - destruct (H1 n s Hn) as [Hok _]. pose proof (local_step_next _ _ Hl) as Hnext. unfold put_node. rewrite <- (app_nil_r (sy_log S)). apply (sys_put S n s); rewrite ?app_nil_r; try done; [by eapply local_step_ok|intros ? ? ? ? Hin; by apply elem_of_nil in Hin|lia].
  - destruct (H1 n s Hn) as [Hok _]. destruct (child_ok (sy_log S) n i s Hok) as [Hok' Hnext].
    apply (sys_put S n s (childwrite_child i s) (sy_net S) (stored_of n i s (childwrite_child i s)) (sy_next S)); try done.
    + apply log_ok_other; [done|]. intros. apply stored_of_no_commit.
    + intros ? ? ? ? Hin. by apply stored_of_no_commit in Hin.
    + lia.
  - destruct (H1 n s Hn) as [Hok _]. rewrite Hnet in H2. apply net_without in H2 as [Hp Hrest]. unfold put_node, set_net. cbn. rewrite <- (app_nil_r (sy_log S)).
    apply (sys_put S n s); rewrite ?app_nil_r; try done; [by apply request_update_ok|intros ? ? ? ? Hin; by apply elem_of_nil in Hin|].
    unfold request_update, ctdb_control_update_record. destruct (negb _); [done|]. destruct (find_db _ _); [|done]. destruct (bool_decide _); [done|]. by destruct forked.
  - destruct (H1 n s Hn) as [Hok _]. rewrite Hnet in H2. apply net_without in H2 as [Hp Hrest]. unfold put_node, set_net. cbn. rewrite <- (app_nil_r (sy_log S)).
    apply (sys_put S n s); rewrite ?app_nil_r; try done; [|intros ? ? ? ? Hin; by apply elem_of_nil in Hin|unfold ctdb_reply_control; rewrite control_done_next; lia].
    apply control_done_ok; [done|done|]. intros ->. destruct Hp as (c & reqs & m & Hc & Hin & Hst). exists c, src, reqs, m. auto.
  - rewrite Hnet in H2. apply net_without in H2 as [_ Hrest]. by split.
Qed.

Lemma cstep_ok m S S' : sys_ok S → cstep m S S' → sys_ok S'.
Proof.
  intros HS Hs. destruct Hs as [n client s s' S Hn Hc]. pose proof HS as [H1 H2 H3 H4]. destruct (H1 n s Hn) as [Hok Hout]. destruct (trans3_commit_ok _ _ _ _ _ _ _ Hc Hok Hout) as [Hok' (N1 & N2 & N3)].
  apply (sys_put S n s s' (sy_net S) [LCommit (sy_next S) n (requests_of (pn_out s')) m] (sy_next S + 1)); try done; [|lia|].
  - destruct H3 as [L1 L2]. split.
    + intros c1 c2 n0 r1 r2 m1 m2 d1 d2 reqid Hc1 Hc2 Hd1 Hd2. apply log_old in Hc1 as [Hc1|[= -> -> -> ->]]; apply log_old in Hc2 as [Hc2|Hc2].
      * by eapply L1.
      * injection Hc2 as -> -> -> ->. destruct (H4 _ _ _ _ Hc1) as [_ Hr]. specialize (Hr s d1 reqid Hn Hd1). specialize (N2 d2 reqid Hd2). lia.
      * destruct (H4 _ _ _ _ Hc2) as [_ Hr]. specialize (Hr s d2 reqid Hn Hd2). specialize (N2 d1 reqid Hd1). lia.
      * injection Hc2 as -> -> ->. split; [done|]. by eapply N3.
    + intros c n1 n2 r1 r2 m1 m2 Hc1 Hc2. apply log_old in Hc1 as [Hc1|[= -> -> -> ->]]; apply log_old in Hc2 as [Hc2|Hc2].
      * by eapply L2.
      * injection Hc2 as -> -> -> ->. destruct (H4 _ _ _ _ Hc1). lia.
      * destruct (H4 _ _ _ _ Hc2). lia.
      * by injection Hc2 as -> -> ->.
  - intros c n' reqs m0 Hin. apply list_elem_of_singleton in Hin as [= -> -> -> ->]. split; [lia|]. split; [done|]. intros d r Hd. apply N2 in Hd. lia.
Qed.

Definition initial S : Prop :=
  sy_net S = [] ∧ sy_log S = []
  ∧ ∀ n s, sy_nodes S !! n = Some s → the_pnn s = n ∧ Z.of_nat (length (vm_map (cx_vnn_map (pn_ctdb s)))) < 2 ^ 32
      ∧ pn_states s = ∅ ∧ pn_controls s = ∅ ∧ pn_writes s = [] ∧ pn_out s = [] ∧ pn_replies s = [].
Lemma initial_ok S : initial S → sys_ok S.
Proof.
  intros (Hnet & Hlog & Hn). split; rewrite ?Hnet, ?Hlog.
  - intros n s E. destruct (Hn n s E) as (H1 & H2 & H3 & H4 & H5 & H6 & H7). split; [|done]. split; rewrite ?H3, ?H4, ?H5, ?H6, ?H7; try done.
  - constructor.
  - split; intros; by match goal with H : _ ∈ [] |- _ => apply elem_of_nil in H end.
  - intros c n reqs m Hin. by apply elem_of_nil in Hin.
Qed.
Lemma steps_sys_ok S0 S : initial S0 → rtc step S0 S → sys_ok S.
Proof.
  intros H0 Hs. apply initial_ok in H0. induction Hs as [|S1 S2 S3 [Hp|[m Hc]] _ IH]; [done|apply IH; by eapply pstep_ok|apply IH; by eapply cstep_ok].
Qed.

(** What a commit sends and leaves alone. *)
Definition sends s (m : bytes) s' : Prop :=
  cx_db_list (pn_ctdb s') = cx_db_list (pn_ctdb s) ∧ cx_vnn_map (pn_ctdb s') = cx_vnn_map (pn_ctdb s) ∧ cx_nodes (pn_ctdb s') = cx_nodes (pn_ctdb s) ∧ pn_writes s' = pn_writes s
  ∧ ∃ ts, (ts = [] ∨ ts = targets s) ∧ pn_out s' = (λ r, UpdateRecord (the_pnn s) r.1 r.2 m) <$> numbered (pn_next_reqid s) ts.
Lemma commit_sends c client m s s' : request_commit c client m s = Some s' → pn_out s = [] → sends s m s'.
Proof.
  intros Hreq Hout. assert (∀ s0, pn_ctdb s0 = pn_ctdb s → pn_writes s0 = pn_writes s → pn_out s0 = [] → sends s m s0) as Hnil.
  { intros s0 E1 E2 E3. unfold sends. rewrite E1, E2, E3. split_and!; try done. exists []. by split; [left|]. }
  revert Hreq. unfold request_commit, ctdb_control_trans3_commit.
  destruct (negb (normal s)); [intros [= <-]; by apply Hnil|]. destruct (pn_clients s !! client) as [cl|]; [|intros [= <-]; by apply Hnil].
  destruct (negb (cl_db_id cl =? 0)); [intros [= <-]; by apply Hnil|]. destruct (find_db _ _) as [db|]; [|intros [= <-]; by apply Hnil].
  destruct (pn_states s !! db_id db) as [st0|] eqn:Est0; [intros [= <-]; by apply Hnil|].
  set (s1 := set_states (set_clients s (<[client := _]> _)) _). assert (s1 = begin_commit c client (mb_db_id m) (db_id db) cl s) as Hs1 by done. clearbody s1. subst s1. set (s1 := begin_commit _ _ _ _ _ _).
  change (cx_vnn_map (pn_ctdb s1)) with (cx_vnn_map (pn_ctdb s)). destruct (send_loop _ _ _ s1) as [[sent s2]|] eqn:El; cbn [mbind option_bind]; [|done].
  destruct (send_loop_spec _ _ _ _ _ _ _ El (lookup_insert_eq _ _ _) ltac:(done)) as ((Hctdb & _ & Hwr & _) & Hres). change (pn_ctdb s1) with (pn_ctdb s) in Hctdb. change (pn_writes s1) with (pn_writes s) in Hwr.
  assert (∀ s3, pn_ctdb s3 = pn_ctdb s2 → pn_writes s3 = pn_writes s2 → pn_out s3 = pn_out s2 → sends s m s3) as Hs3.
  { intros s3 E1 E2 E3. destruct Hres as [[_ ->]|(_ & _ & Ho & _)]; [apply Hnil; by rewrite ?E1, ?E2, ?E3|]. unfold sends. rewrite E1, E2, Hctdb, Hwr. split_and!; try done.
    exists (targets s). split; [by right|]. rewrite E3, Ho. change (pn_out s1) with (pn_out s). by rewrite Hout. }
  assert (∀ x, pn_ctdb (free_state x s2) = pn_ctdb s2 ∧ pn_writes (free_state x s2) = pn_writes s2 ∧ pn_out (free_state x s2) = pn_out s2) as Hfree by (intros x; unfold free_state; by destruct (pn_states s2 !! x)).
  destruct (Hfree (db_id db)) as (F1 & F2 & F3). destruct sent; cbn [negb]; [|intros [= <-]; by apply Hs3].
  destruct (pn_states s2 !! db_id db) as [st|]; [|intros [= <-]; by apply Hs3]. destruct (ps_num_pending st =? 0); intros [= <-]; by apply Hs3.
Qed.

End cluster.

(** ** Commits one after the other *)

Section serial.
Context {T : Type} `{TdbLaws T} `{!TdbTxn T} `{!TdbTxnLaws T} `{!TdbTxnStatus T}.
Implicit Types (s : pnode T) (S : psys T) (log : list plog).

(** A commit: its node, its requests and its buffer. *)
Abbreviation commit := (Z * list (Z * Z) * bytes)%type.
Definition commit_of (e : plog) : option commit :=
  match e with
  | LCommit _ src reqs m => if bool_decide (reqs = []) then None else Some (src, reqs, m)
  | LStored _ _ _ _ => None
  end.
Definition commits log : list commit := omap commit_of log.
(** The content of database [id] after commits. *)
Definition apply_commit (id : Z) (f : content) (cm : commit) : content :=
  if mb_db_id cm.2 =? id then foldl apply_record f (default [] (buffer_records cm.2)) else f.
Definition answered S (c : Z) : Prop := ∃ n s, sy_nodes S !! n = Some s ∧ (c, 0) ∈ pn_replies s.

(** A client commits only when the commits that were sent before were answered with
    0. *)
Definition serial_step S S' : Prop :=
  pstep S S' ∨ (∃ m, cstep m S S') ∧ ∀ c n reqs m, LCommit c n reqs m ∈ sy_log S → reqs = [] ∨ answered S c.

(** The requests that a node may still have to execute. *)
Definition net_tokens (n : Z) (net : list ppacket) : list (Z * Z) :=
  omap (λ p, match p with UpdateRecord src dst reqid _ => if bool_decide (dst = n) then Some (src, reqid) else None | _ => None end) net.
Definition write_tokens (ws : list ctdb_persistent_write_state) : list (Z * Z) :=
  omap (λ w, match ws_result w with None => Some (ws_src w, ws_reqid w) | Some _ => None end) ws.
Definition tokens S n s : list (Z * Z) := net_tokens n (sy_net S) ++ write_tokens (pn_writes s).

Variables (act : list Z) (id : Z) (f0 : content).
Hypothesis act_nodup : NoDup act.

(** A node has the first [k] commits, all but the last one at least. *)
Record replica S n s (k : nat) : Prop := {
  re_count : (k ≤ length (commits (sy_log S)) ≤ k + 1)%nat;
  re_db : ∃ db, find_db id (cx_db_list (pn_ctdb s)) = Some db ∧ db_persistent db = true ∧ db_server_store db = true ∧ tdb_in_transaction (db_ltdb db) = false
    ∧ ∀ key, tdb_fetch (db_ltdb db) key = foldl (apply_commit id) f0 (take k (commits (sy_log S))) key;
  re_done j src reqs m reqid : commits (sy_log S) !! j = Some (src, reqs, m) → (j < k)%nat → (n, reqid) ∈ reqs → (src, reqid) ∉ tokens S n s;
  re_stored j src reqs m reqid : commits (sy_log S) !! j = Some (src, reqs, m) → (n, reqid) ∈ reqs → LStored n src reqid m ∈ sy_log S → (j < k)%nat;
  re_nodup : NoDup (tokens S n s);
  re_writes w : w ∈ pn_writes s → ws_db w = mb_db_id (ws_m w) ∧ (ws_db w = id → ws_flags w = 0);
}.
Record serial_ok S : Prop := {
  se_sys : sys_ok S;
  se_targets n s : sy_nodes S !! n = Some s → targets s = act;
  se_reqs c n reqs m : LCommit c n reqs m ∈ sy_log S → reqs = [] ∨ reqs.*1 = act;
  se_stored d src reqid m : LStored d src reqid m ∈ sy_log S → ∃ c reqs, LCommit c src reqs m ∈ sy_log S ∧ (d, reqid) ∈ reqs;
  se_before j src reqs m : commits (sy_log S) !! j = Some (src, reqs, m) → (j + 1 < length (commits (sy_log S)))%nat → ∀ d reqid, (d, reqid) ∈ reqs → LStored d src reqid m ∈ sy_log S;
  se_replica n s : n ∈ act → sy_nodes S !! n = Some s → ∃ k, replica S n s k;
}.

(** *** Steps that execute nothing *)

Definition no_requests (ps : list ppacket) : Prop := ∀ n, net_tokens n ps = [].
Definition frame s s' : Prop :=
  cx_db_list (pn_ctdb s') = cx_db_list (pn_ctdb s) ∧ cx_vnn_map (pn_ctdb s') = cx_vnn_map (pn_ctdb s) ∧ cx_nodes (pn_ctdb s') = cx_nodes (pn_ctdb s)
  ∧ sublist (pn_writes s') (pn_writes s) ∧ ∃ ps, pn_out s' = pn_out s ++ ps ∧ no_requests ps.
Lemma frame_quiet s s' : pn_ctdb s' = pn_ctdb s → pn_writes s' = pn_writes s → pn_out s' = pn_out s → frame s s'.
Proof. intros E1 E2 E3. unfold frame. rewrite E1, E2, E3. split_and!; try done. exists []. by rewrite app_nil_r. Qed.
Lemma frame_trans s1 s2 s3 : frame s1 s2 → frame s2 s3 → frame s1 s3.
Proof.
  intros (A1 & A2 & A3 & A4 & ps & A5 & A6) (B1 & B2 & B3 & B4 & qs & B5 & B6). unfold frame. rewrite B1, B2, B3. split_and!; try done; [by etrans|].
  exists (ps ++ qs). rewrite B5, A5, app_assoc. split; [done|]. intros n. unfold net_tokens. rewrite omap_app. unfold no_requests, net_tokens in *. by rewrite A6, B6.
Qed.
Lemma frame_free db s : frame s (free_state db s).
Proof. unfold free_state. destruct (pn_states s !! db); by apply frame_quiet. Qed.
Lemma frame_client c status s : frame s (reply_client c status s).
Proof. by apply frame_quiet. Qed.
Lemma frame_mode mode s : frame s (set_recovery_mode s mode).
Proof. split_and!; try done. exists []. by rewrite app_nil_r. Qed.
Lemma frame_reply dst reqid status s : frame s (reply_control dst reqid status s).
Proof. split_and!; try done. by exists [ReplyControl (the_pnn s) dst reqid status]. Qed.
Lemma frame_drop i s : frame s (drop_write i s).
Proof. split_and!; try done; [cbn; apply sublist_delete|]. exists []. by rewrite app_nil_r. Qed.
Lemma frame_control_done reqid status s : frame s (control_done reqid status s).
Proof.
  unfold control_done. destruct (pn_controls s !! reqid) as [db|]; [|by apply frame_quiet]. set (s1 := set_controls _ _ _). apply (frame_trans _ s1); [by apply frame_quiet|].
  unfold ctdb_persistent_callback. destruct (pn_states s1 !! db) as [st|]; [|by apply frame_quiet]. destruct (negb (normal s1)); [by apply frame_quiet|].
  destruct (negb (status =? 0)); [eapply frame_trans; [|apply frame_mode]; by apply frame_quiet|]. set (s2 := set_states _ _). apply (frame_trans _ s2); [by apply frame_quiet|].
  destruct (negb _); [by apply frame_quiet|]. eapply frame_trans; [apply frame_client|apply frame_free].
Qed.
Lemma frame_finish dbs s : frame s (finish_loop dbs s).
Proof.
  revert s. induction dbs as [|db dbs IH]; intros s; cbn [finish_loop]; [by apply frame_quiet|]. destruct (pn_states s !! db_id db); [|apply IH].
  eapply frame_trans; [|apply IH]. eapply frame_trans; [apply frame_client|apply frame_free].
Qed.
Lemma local_step_frame s s' : local_step s s' → frame s s'.
Proof.
  destruct 1.
  - unfold childwrite_handler. destruct (pn_writes s !! i); [|by apply frame_quiet]. eapply frame_trans; [apply frame_reply|apply frame_drop].
  - unfold ctdb_persistent_lock_timeout. destruct (pn_writes s !! i); [|by apply frame_quiet]. eapply frame_trans; [apply frame_reply|apply frame_drop].
  - apply frame_control_done.
  - unfold ctdb_persistent_store_timeout. destruct (pn_states s !! db) as [st|]; [|by apply frame_quiet]. destruct (ps_timer st); [|by apply frame_quiet]. set (s2 := set_states _ _).
    apply (frame_trans _ s2); [by apply frame_quiet|]. destruct (negb _); [by apply frame_quiet|]. eapply frame_trans; [apply frame_client|apply frame_free].
  - apply frame_mode.
  - unfold ctdb_persistent_finish_trans3_commits. destruct (negb _); [by apply frame_quiet|]. apply frame_finish.
  - unfold ctdb_control_start_persistent_update. by destruct (pn_clients s !! id0); apply frame_quiet.
  - unfold ctdb_control_cancel_persistent_update. destruct (pn_clients s !! id0); [|by apply frame_quiet]. cbn. by destruct (0 <? _); apply frame_quiet.
  - by apply frame_quiet.
  - unfold ctdb_client_destructor. destruct (pn_clients s !! id0) as [cl|]; [|by apply frame_quiet]. set (s1 := if negb _ then _ else _). set (s2 := match _ with Some _ => _ | None => _ end).
    apply (frame_trans _ s2); [|by apply frame_quiet]. apply (frame_trans _ s1); [unfold s1; destruct (negb _); [apply frame_mode|by apply frame_quiet]|].
    unfold s2. destruct (find_db _ _); [|by apply frame_quiet]. eapply frame_trans; [apply frame_mode|apply frame_free].
Qed.
Lemma targets_eq s s' : cx_vnn_map (pn_ctdb s') = cx_vnn_map (pn_ctdb s) → cx_nodes (pn_ctdb s') = cx_nodes (pn_ctdb s) → targets s' = targets s.
Proof. intros E1 E2. unfold targets, target_of. by rewrite E1, E2. Qed.

Lemma submseteq_nodup {A} (l k : list A) : l ⊆+ k → NoDup k → NoDup l.
Proof. intros Hs Hk. apply submseteq_Permutation in Hs as [x Hx]. rewrite Hx in Hk. by apply NoDup_app in Hk as [? _]. Qed.
Lemma replica_frame S S' n s s' k :
  commits (sy_log S') = commits (sy_log S) → (∀ src reqid m, LStored n src reqid m ∈ sy_log S' → LStored n src reqid m ∈ sy_log S) →
  cx_db_list (pn_ctdb s') = cx_db_list (pn_ctdb s) → tokens S' n s' ⊆+ tokens S n s →
  (∀ w, w ∈ pn_writes s' → w ∈ pn_writes s ∨ ws_db w = mb_db_id (ws_m w) ∧ (ws_db w = id → ws_flags w = 0)) →
  replica S n s k → replica S' n s' k.
Proof.
  intros Hc Hst Hdb Htok Hw [R1 R2 R3 R4 R5 R6]. split; rewrite ?Hc, ?Hdb; try done.
  - intros j src reqs m reqid Hj Hlt Hin Ht. eapply R3; [done..|]. by eapply elem_of_submseteq.
  - intros j src reqs m reqid Hj Hin Ht. eapply R4; eauto.
  - by eapply submseteq_nodup.
  - intros w Hin. destruct (Hw w Hin) as [?|?]; auto.
Qed.
Lemma net_tokens_app n l1 l2 : net_tokens n (l1 ++ l2) = net_tokens n l1 ++ net_tokens n l2.
Proof. apply omap_app. Qed.
Lemma write_tokens_sublist ws ws' : sublist ws' ws → sublist (write_tokens ws') (write_tokens ws).
Proof. intros Hs. induction Hs as [|w l k _ IH|w l k _ IH]; [done| |]; unfold write_tokens in *; cbn; destruct (ws_result w); try done; by constructor. Qed.

(** A step of one node that executes nothing and sends no requests. *)
Lemma serial_put S n0 s0 s0' net next :
  serial_ok S → sy_nodes S !! n0 = Some s0 → let S' := mk_sys (<[n0 := set_out s0' []]> (sy_nodes S)) (net ++ pn_out s0') next (sy_log S) in sys_ok S' →
  cx_db_list (pn_ctdb s0') = cx_db_list (pn_ctdb s0) → targets s0' = targets s0 → no_requests (pn_out s0') →
  (∀ n, net_tokens n net ⊆+ net_tokens n (sy_net S)) → net_tokens n0 net ++ write_tokens (pn_writes s0') ⊆+ tokens S n0 s0 →
  (n0 ∈ act → ∀ w, w ∈ pn_writes s0' → w ∈ pn_writes s0 ∨ ws_db w = mb_db_id (ws_m w) ∧ (ws_db w = id → ws_flags w = 0)) → serial_ok S'.
Proof.
  intros [H1 H2 H3 H4 H5 H6] Hn0 S' HS' Hdb Htg Hno Hnet Htok Hw. split; try done.
  - intros n s. cbn. rewrite lookup_insert_Some. intros [[<- <-]|[_ E]]; [|by apply (H2 n)]. change (targets (set_out s0' [])) with (targets s0'). rewrite Htg. by apply (H2 n0).
  - intros n s Hact. cbn. rewrite lookup_insert_Some. intros [[<- <-]|[Hne E]].
    + destruct (H6 n0 s0 Hact Hn0) as [k Hk]. exists k. apply (replica_frame S S' n0 s0); try done; [|by apply Hw]. unfold tokens, S'. cbn [sy_net pn_writes set_out]. rewrite net_tokens_app, Hno, app_nil_r. done.
    + destruct (H6 n s Hact E) as [k Hk]. exists k. apply (replica_frame S S' n s); try done; [|by left]. unfold tokens, S'. cbn [sy_net]. rewrite net_tokens_app, Hno, app_nil_r. apply submseteq_app; [apply Hnet|done].
Qed.
Lemma net_tokens_without n l1 p l2 : net_tokens n (l1 ++ l2) ⊆+ net_tokens n (l1 ++ p :: l2).
Proof.
  rewrite !net_tokens_app. apply submseteq_app; [done|]. change (net_tokens n (p :: l2)) with (net_tokens n ([p] ++ l2)). rewrite net_tokens_app. by apply submseteq_inserts_l.
Qed.
Lemma no_requests_out s0 s' : frame s0 s' → pn_out s0 = [] → no_requests (pn_out s').
Proof. intros (_ & _ & _ & _ & ps & -> & Hno) ->. done. Qed.
Lemma sublist_in {A} (l k : list A) x : sublist l k → x ∈ l → x ∈ k.
Proof. intros Hs Hx. eapply elem_of_submseteq; [exact Hx|]. by apply sublist_submseteq. Qed.

Lemma serial_local S n s s' : serial_ok S → sy_nodes S !! n = Some s → local_step s s' → serial_ok (put_node n s' S).
Proof.
  intros HS Hn Hl. pose proof (so_nodes _ (se_sys _ HS) n s Hn) as [Hok Hout]. pose proof (local_step_frame _ _ Hl) as Hf. pose proof Hf as (F1 & F2 & F3 & F4 & _).
  apply (serial_put S n s s' (sy_net S) (sy_next S)); try done.
  - eapply (pstep_ok S); [apply HS|]. by eapply p_local.
  - by apply targets_eq.
  - by eapply no_requests_out.
  - unfold tokens. apply submseteq_app; [done|]. by apply sublist_submseteq, write_tokens_sublist.
  - intros _ w Hw. left. by eapply sublist_in.
Qed.
Lemma serial_reply S n src reqid status s l1 l2 :
  serial_ok S → sy_nodes S !! n = Some s → sy_net S = l1 ++ ReplyControl src n reqid status :: l2 →
  serial_ok (put_node n (ctdb_reply_control reqid status s) (set_net S (l1 ++ l2))).
Proof.
  intros HS Hn Hnet. pose proof (so_nodes _ (se_sys _ HS) n s Hn) as [Hok Hout]. pose proof (frame_control_done reqid status s) as Hf. pose proof Hf as (F1 & F2 & F3 & F4 & _).
  apply (serial_put S n s (ctdb_reply_control reqid status s) (l1 ++ l2) (sy_next S)); try done.
  - eapply (pstep_ok S); [apply HS|]. by eapply p_reply.
  - by apply targets_eq.
  - by eapply no_requests_out.
  - intros n0. rewrite Hnet. apply net_tokens_without.
  - unfold tokens. rewrite Hnet. apply submseteq_app; [apply net_tokens_without|]. by apply sublist_submseteq, write_tokens_sublist.
  - intros _ w Hw. left. by eapply sublist_in.
Qed.
Lemma serial_lose S p l1 l2 : serial_ok S → sy_net S = l1 ++ p :: l2 → serial_ok (set_net S (l1 ++ l2)).
Proof.
  intros HS Hnet. pose proof HS as [H1 H2 H3 H4 H5 H6]. split; try done.
  - eapply (pstep_ok S); [done|]. by eapply p_lose.
  - intros n s Hact Hn. destruct (H6 n s Hact Hn) as [k Hk]. exists k. apply (replica_frame S _ n s); try done; [|by left]. unfold tokens. cbn. rewrite Hnet. apply submseteq_app; [apply net_tokens_without|done].
Qed.
Lemma write_tokens_app ws1 ws2 : write_tokens (ws1 ++ ws2) = write_tokens ws1 ++ write_tokens ws2.
Proof. apply omap_app. Qed.
Lemma serial_request S forked n src reqid m s l1 l2 :
  serial_ok S → sy_nodes S !! n = Some s → sy_net S = l1 ++ UpdateRecord src n reqid m :: l2 →
  serial_ok (put_node n (request_update forked src reqid m s) (set_net S (l1 ++ l2))).
Proof.
  intros HS Hn Hnet. pose proof (so_nodes _ (se_sys _ HS) n s Hn) as [Hok Hout].
  assert (sys_ok (put_node n (request_update forked src reqid m s) (set_net S (l1 ++ l2)))) as HS' by (eapply (pstep_ok S); [apply HS|]; by eapply p_request).
  assert (∀ n0, net_tokens n0 (l1 ++ l2) ⊆+ net_tokens n0 (sy_net S)) as Hsub by (intros n0; rewrite Hnet; apply net_tokens_without).
  assert (frame s (request_update forked src reqid m s) → serial_ok (put_node n (request_update forked src reqid m s) (set_net S (l1 ++ l2)))) as Hquiet.
  { intros Hf. pose proof Hf as (F1 & F2 & F3 & F4 & _). apply (serial_put S n s _ (l1 ++ l2) (sy_next S)); try done; [by apply targets_eq|by eapply no_requests_out|..].
    - unfold tokens. apply submseteq_app; [done|]. by apply sublist_submseteq, write_tokens_sublist.
    - intros _ w Hw. left. by eapply sublist_in. }
  revert Hquiet HS'. unfold request_update, ctdb_control_update_record. destruct (negb (normal s)); [intros Hq _; apply Hq, frame_reply|]. destruct (find_db _ _) as [db|] eqn:Edb; [|intros Hq _; apply Hq, frame_reply].
  destruct (bool_decide _); [intros Hq _; apply Hq, frame_reply|]. destruct forked; cbn [negb]; [|intros Hq _; apply Hq, frame_reply]. intros _ HS'.
  apply (serial_put S n s _ (l1 ++ l2) (sy_next S)); try done.
  - cbn. rewrite Hout. done.
  - unfold tokens. cbn. rewrite Hnet, write_tokens_app, !net_tokens_app. cbn. rewrite bool_decide_true by done. rewrite (Permutation_app_comm (write_tokens _)). cbn. by rewrite <- !Permutation_middle.
  - cbn. intros Hact w Hw. apply elem_of_app in Hw as [Hw|Hw]; [by left|]. right. apply list_elem_of_singleton in Hw as ->. cbn. pose proof (find_db_id _ _ _ Edb) as Hid. split; [done|]. intros Hd.
    destruct (se_replica _ HS n s Hact Hn) as [k [_ (db' & Edb' & Hp & _) _ _ _ _]]. rewrite <- Hid in Edb. rewrite Hd in Edb. rewrite Edb in Edb'. injection Edb' as <-. by rewrite Hp.
Qed.

(** *** A child writes *)

Lemma commits_in log c src reqs m : LCommit c src reqs m ∈ log → reqs ≠ [] → ∃ j, commits log !! j = Some (src, reqs, m).
Proof.
  intros Hin Hne. apply list_elem_of_lookup. unfold commits. apply list_elem_of_omap. eexists. split; [exact Hin|]. cbn. by rewrite bool_decide_false.
Qed.
Lemma commits_out log j src reqs m : commits log !! j = Some (src, reqs, m) → reqs ≠ [] ∧ ∃ c, LCommit c src reqs m ∈ log.
Proof.
  intros Hj. apply list_elem_of_lookup_2 in Hj. apply list_elem_of_omap in Hj as ([c src' reqs' m'|] & Hin & E); [|done]. cbn in E. case_bool_decide; [done|]. injection E as <- <- <-. split; [done|]. by exists c.
Qed.
Lemma reqs_functional (reqs : list (Z * Z)) n r1 r2 : NoDup reqs.*1 → (n, r1) ∈ reqs → (n, r2) ∈ reqs → r1 = r2.
Proof.
  intros Hnd H1 H2. apply list_elem_of_lookup in H1 as [i Hi]. apply list_elem_of_lookup in H2 as [j Hj]. assert (i = j) as ->; [|congruence].
  apply (NoDup_lookup _ _ _ n Hnd); rewrite list_lookup_fmap; [by rewrite Hi|by rewrite Hj].
Qed.
Lemma commit_targets S j src reqs m : serial_ok S → commits (sy_log S) !! j = Some (src, reqs, m) → reqs.*1 = act.
Proof. intros HS Hj. apply commits_out in Hj as [Hne [c Hc]]. destruct (se_reqs _ HS c src reqs m Hc); done. Qed.

(** It is the last commit that is executed, on a node that does not have it. *)
Lemma executes_last S n s k w :
  serial_ok S → sy_nodes S !! n = Some s → replica S n s k → w ∈ pn_writes s → ws_result w = None →
  ∃ reqs, commits (sy_log S) !! k = Some (ws_src w, reqs, ws_m w) ∧ length (commits (sy_log S)) = (k + 1)%nat ∧ (n, ws_reqid w) ∈ reqs.
Proof.
  intros HS Hn Hk Hw Hres. destruct (so_nodes _ (se_sys _ HS) n s Hn) as [Hok _]. destruct (proj1 (Forall_forall _ _) (no_writes _ _ _ Hok) w Hw) as (c & reqs & Hc & Hin & _).
  destruct (commits_in _ _ _ _ _ Hc) as [j Hj]; [by intros ->; apply elem_of_nil in Hin|]. pose proof (re_count _ _ _ _ Hk) as Hcount. pose proof (lookup_lt_Some _ _ _ Hj) as Hlt.
  assert (¬ (j < k)%nat) as Hge.
  { intros Hjk. apply (re_done _ _ _ _ Hk j _ _ _ _ Hj Hjk Hin). unfold tokens. apply elem_of_app. right. unfold write_tokens. apply list_elem_of_omap. exists w. split; [done|]. by rewrite Hres. }
  assert (j = k) as -> by lia. exists reqs. split; [done|]. split; [lia|done].
Qed.

Lemma write_tokens_insert (ws : list ctdb_persistent_write_state) i w w' r :
  ws !! i = Some w → ws_result w = None → ws_result w' = Some r → write_tokens ws ≡ₚ (ws_src w, ws_reqid w) :: write_tokens (<[i := w']> ws).
Proof.
  intros Hi Hw Hw'. rewrite <- (take_drop_middle ws i w Hi) at 1. rewrite insert_take_drop by (by eapply lookup_lt_Some). rewrite !write_tokens_app. unfold write_tokens at 2 4. cbn. rewrite Hw, Hw'. by rewrite <- Permutation_middle.
Qed.

Definition content_is s (f : content) : Prop :=
  ∃ db, find_db id (cx_db_list (pn_ctdb s)) = Some db ∧ db_persistent db = true ∧ db_server_store db = true ∧ tdb_in_transaction (db_ltdb db) = false ∧ ∀ key, tdb_fetch (db_ltdb db) key = f key.

(** What a child does to the content: nothing, or the whole commit. *)
Lemma child_content S n s k w db ret db' reqs :
  replica S n s k → w ∈ pn_writes s → find_db (ws_db w) (cx_db_list (pn_ctdb s)) = Some db → ctdb_persistent_store (child_lc s) (ws_m w) (ws_flags w) db = (ret, db') →
  let f := foldl (apply_commit id) f0 (take k (commits (sy_log S))) in
  let s' := set_ctdb s (set_cx_db_list (pn_ctdb s) (put_db (set_db_ltdb db (db_ltdb db')) (cx_db_list (pn_ctdb s)))) in
  content_is s' (apply_commit id f (ws_src w, reqs, ws_m w)) ∨ ret ≠ 0 ∧ content_is s' f.
Proof.
  intros Hk Hw Edb Es f s'. destruct (re_db _ _ _ _ Hk) as (db0 & E0 & Hp & Hss & Htx & Hf). destruct (re_writes _ _ _ _ Hk w Hw) as [Hwd Hfl]. pose proof (find_db_id _ _ _ Edb) as Hid.
  set (db1 := set_db_ltdb db (db_ltdb db')) in *. assert (db_id db1 = ws_db w) as Hid1 by done. unfold apply_commit at 1. cbn [snd]. rewrite <- Hwd. destruct (Z.eqb_spec (ws_db w) id) as [Heq|Hne].
  - rewrite Heq in Edb. rewrite Edb in E0. injection E0 as <-. rewrite (Hfl Heq) in Es.
    assert (find_db id (cx_db_list (pn_ctdb s')) = Some db1) as Efind by (cbn; rewrite <- Heq, <- Hid1; apply (find_put _ _ db); by rewrite Hid1, Heq).
    apply (persistent_store_spec _ (cx_vnn_map (pn_ctdb s))) in Es as [Htx' Hres]; [|done..].
    assert (applied (ws_m w) (tdb_fetch (db_ltdb db)) (tdb_fetch (db_ltdb db')) → content_is s' (foldl apply_record f (default [] (buffer_records (ws_m w))))) as Happ.
    { intros (recs & Hr & _ & Hfin). exists db1. split_and!; try done. intros key. cbn. rewrite Hfin, Hr. cbn. by apply foldl_apply_ext. }
    destruct Hres as [[_ Ha]|[-> [Hsame|Ha]]]; [left; auto| |left; auto]. right. split; [done|]. exists db1. split_and!; try done. intros key. cbn. by rewrite Hsame.
  - left. exists db0. split_and!; try done. cbn. rewrite find_put_other; [done|]. by rewrite Hid1.
Qed.

(** The replica after the write: one commit more, or a write that failed. *)
Lemma replica_written S S' n s s' k k' i w r reqs :
  NoDup reqs.*1 → replica S n s k → pn_writes s !! i = Some w → ws_result w = None →
  commits (sy_log S) !! k = Some (ws_src w, reqs, ws_m w) → length (commits (sy_log S)) = (k + 1)%nat → (n, ws_reqid w) ∈ reqs →
  commits (sy_log S') = commits (sy_log S) → sy_net S' = sy_net S →
  pn_writes s' = <[i := mk_ws (ws_src w) (ws_reqid w) (ws_db w) (ws_m w) (ws_flags w) (Some r)]> (pn_writes s) →
  (∀ src reqid m, LStored n src reqid m ∈ sy_log S' → LStored n src reqid m ∈ sy_log S ∨ k' = (k + 1)%nat) →
  (k ≤ k' ≤ k + 1)%nat → content_is s' (foldl (apply_commit id) f0 (take k' (commits (sy_log S)))) → replica S' n s' k'.
Proof.
  intros Hnd Hk Hi Hw Hlast Hlen Hin Hc Hnet Hws Hst Hk' Hcont. set (w' := mk_ws _ _ _ _ _ _) in Hws.
  assert (tokens S n s ≡ₚ (ws_src w, ws_reqid w) :: tokens S' n s') as Htok.
  { unfold tokens. rewrite Hnet, Hws. rewrite (write_tokens_insert _ i w w' r Hi Hw eq_refl). by rewrite <- Permutation_middle. }
  pose proof (re_nodup _ _ _ _ Hk) as Hndt. rewrite Htok in Hndt. apply NoDup_cons in Hndt as [Hnot Hndt]. split; rewrite ?Hc; try done.
  - lia.
  - intros j src reqs' m reqid Hj Hlt Hr Ht. destruct (decide (j = k)) as [->|Hne].
    + rewrite Hj in Hlast. injection Hlast as -> -> ->. by rewrite (reqs_functional reqs n reqid (ws_reqid w) Hnd Hr Hin) in Ht.
    + apply (re_done _ _ _ _ Hk j src reqs' m reqid Hj ltac:(lia) Hr). rewrite Htok. by right.
  - intros j src reqs' m reqid Hj Hr Hs. destruct (Hst src reqid m Hs) as [Hs'| ->].
    + pose proof (re_stored _ _ _ _ Hk j src reqs' m reqid Hj Hr Hs'). lia.
    + apply lookup_lt_Some in Hj. lia.
  - rewrite Hws. intros w1 Hw1. apply list_elem_of_lookup in Hw1 as [i1 Hi1]. apply list_lookup_insert_Some in Hi1 as [(-> & <- & _)|[_ Hi1]]; [|apply (re_writes _ _ _ _ Hk); by eapply list_elem_of_lookup_2].
    cbn. apply (re_writes _ _ _ _ Hk). by eapply list_elem_of_lookup_2.
Qed.

Lemma stored_of_same n i s : stored_of n i s s = [].
Proof. unfold stored_of. destruct (pn_writes s !! i) as [w|]; [|done]. rewrite bool_decide_false; [done|]. by intros [-> ?]. Qed.
Lemma child_cases i s :
  childwrite_child i s = s
  ∨ ∃ w db ret db', pn_writes s !! i = Some w ∧ ws_result w = None ∧ find_db (ws_db w) (cx_db_list (pn_ctdb s)) = Some db
    ∧ ctdb_persistent_store (child_lc s) (ws_m w) (ws_flags w) db = (ret, db')
    ∧ childwrite_child i s = set_writes (set_ctdb s (set_cx_db_list (pn_ctdb s) (put_db (set_db_ltdb db (db_ltdb db')) (cx_db_list (pn_ctdb s)))))
        (<[i := mk_ws (ws_src w) (ws_reqid w) (ws_db w) (ws_m w) (ws_flags w) (Some (if negb (ret =? 0) then 1 else 0))]> (pn_writes s)).
Proof.
  unfold childwrite_child. destruct (pn_writes s !! i) as [w|] eqn:Ei; [|by left]. destruct (ws_result w) eqn:Ew; [by left|]. destruct (find_db _ _) as [db|] eqn:Edb; [|by left].
  right. destruct (ctdb_persistent_store _ _ _ _) as [ret db'] eqn:Es. exists w, db, ret, db'. by split_and!.
Qed.
Lemma commits_app log e : commits (log ++ e) = commits log ++ commits e.
Proof. apply omap_app. Qed.

Lemma serial_child S n i s :
  serial_ok S → sy_nodes S !! n = Some s → serial_ok (add_log (put_node n (childwrite_child i s) S) (stored_of n i s (childwrite_child i s))).
Proof.
  intros HS Hn. pose proof (so_nodes _ (se_sys _ HS) n s Hn) as [Hok Hout].
  assert (sys_ok (add_log (put_node n (childwrite_child i s) S) (stored_of n i s (childwrite_child i s)))) as HS' by (eapply (pstep_ok S); [apply HS|by apply p_child]).
  destruct (child_cases i s) as [E|(w & db & ret & db' & Hi & Hw & Edb & Es & E)].
  { revert HS'. rewrite E, stored_of_same. unfold add_log, put_node. cbn. rewrite app_nil_r. intros HS'. apply (serial_put S n s s (sy_net S) (sy_next S)); try done; [by rewrite Hout|by left]. }
  revert HS'. rewrite E. set (b := if negb (ret =? 0) then 1 else 0). set (s' := set_writes _ _). intros HS'.
  assert (w ∈ pn_writes s) as Hwin by (by eapply list_elem_of_lookup_2).
  assert (n ∈ act) as Hact.
  { destruct (proj1 (Forall_forall _ _) (no_writes _ _ _ Hok) w Hwin) as (c & reqs & Hc & Hin & _). destruct (se_reqs _ HS _ _ _ _ Hc) as [->|<-]; [by apply elem_of_nil in Hin|].
    by apply (list_elem_of_fmap_2 fst) in Hin. }
  destruct (se_replica _ HS n s Hact Hn) as [k Hk]. destruct (executes_last S n s k w HS Hn Hk Hwin Hw) as (reqs & Hlast & Hlen & Hin).
  assert (stored_of n i s s' = if bool_decide (b = 0) then [LStored n (ws_src w) (ws_reqid w) (ws_m w)] else []) as Hso.
  { unfold stored_of. rewrite Hi. cbn. rewrite list_lookup_insert_eq by (by eapply lookup_lt_Some). apply (f_equal (λ b : bool, if b then _ else _)). apply bool_decide_ext. cbn. split; [by intros [_ [= ->]]|by intros ->]. }
  set (S' := add_log _ _) in *. assert (sy_log S' = sy_log S ++ stored_of n i s s') as Hlog by done. assert (commits (sy_log S') = commits (sy_log S)) as Hcs.
  { rewrite Hlog, commits_app, Hso. destruct (bool_decide _); cbn; by rewrite app_nil_r. }
  assert (sy_net S' = sy_net S) as Hnet by (cbn; by rewrite Hout, app_nil_r).
  assert (∀ d src reqid m, LStored d src reqid m ∈ sy_log S' → LStored d src reqid m ∈ sy_log S ∨ d = n ∧ src = ws_src w ∧ reqid = ws_reqid w ∧ m = ws_m w ∧ b = 0) as Hst.
  { intros d src reqid m. rewrite Hlog, Hso. intros Hd. apply elem_of_app in Hd as [Hd|Hd]; [by left|]. right. case_bool_decide; [|by apply elem_of_nil in Hd]. apply list_elem_of_singleton in Hd as [= -> -> -> ->]. done. }
  pose proof HS as [_ H2 H3 H4 H5 H6]. split; [done| | | | |].
  - intros n' s1. cbn. rewrite lookup_insert_Some. intros [[<- <-]|[_ E1]]; [|by apply (H2 n')]. exact (H2 n s Hn).
  - intros c n' reqs' m'. rewrite Hlog. intros Hc. apply elem_of_app in Hc as [Hc|Hc]; [by eapply H3|]. by apply stored_of_no_commit in Hc.
  - intros d src reqid m Hd. destruct (Hst _ _ _ _ Hd) as [Hd'|(-> & -> & -> & -> & _)].
    + destruct (H4 _ _ _ _ Hd') as (c & reqs' & Hc & Hr). exists c, reqs'. split; [rewrite Hlog; by apply log_sub|done].
    + apply commits_out in Hlast as [_ [c Hc]]. exists c, reqs. split; [rewrite Hlog; by apply log_sub|done].
  - rewrite Hcs. intros j src reqs' m' Hj Hlt d reqid Hd. rewrite Hlog. apply log_sub. by eapply H5.
  - intros n' s1 Hact'. cbn. rewrite lookup_insert_Some. intros [[<- <-]|[Hne E1]].
    + pose proof (commit_targets _ _ _ _ _ HS Hlast) as Htg. assert (NoDup reqs.*1) as Hnd by (by rewrite Htg).
      destruct (child_content S n s k w db ret db' reqs Hk Hwin Edb Es) as [Hcont|[Hret Hcont]].
      * exists (k + 1)%nat. apply (replica_written S S' n s (set_out s' []) k _ i w b reqs); try done; [by right|lia|].
        assert (take (k + 1) (commits (sy_log S)) = take k (commits (sy_log S)) ++ [((ws_src w, reqs, ws_m w) : commit)]) as Htk by (rewrite Nat.add_1_r; by apply take_S_r). rewrite Htk, foldl_app. exact Hcont.
      * exists k. apply (replica_written S S' n s (set_out s' []) k _ i w b reqs); try done; [|lia]. intros src reqid m Hd. left. destruct (Hst _ _ _ _ Hd) as [?|(_ & _ & _ & _ & Hb)]; [done|].
        exfalso. unfold b in Hb. rewrite (proj2 (Z.eqb_neq _ _) Hret) in Hb. done.
    + destruct (H6 n' s1 Hact' E1) as [k1 Hk1]. exists k1. apply (replica_frame S S' n' s1); try done; [| |by left].
      * intros src reqid m Hd. destruct (Hst _ _ _ _ Hd) as [?|[-> _]]; done.
      * unfold tokens. by rewrite Hnet.
Qed.

(** *** A client commits *)

Lemma net_tokens_sent n n0 m next ts :
  NoDup (net_tokens n ((λ r, UpdateRecord n0 r.1 r.2 m) <$> numbered next ts))
  ∧ ∀ src r, (src, r) ∈ net_tokens n ((λ r, UpdateRecord n0 r.1 r.2 m) <$> numbered next ts) → src = n0 ∧ (n, r) ∈ numbered next ts.
Proof.
  revert next. induction ts as [|t ts IH]; intros next; cbn [numbered].
  { split; [constructor|]. intros src r Hin. by apply elem_of_nil in Hin. }
  destruct (IH (next + 1)) as [Hnd Hin]. rewrite fmap_cons. cbn [fst snd]. unfold net_tokens in *. cbn. case_bool_decide as Ht.
  - subst t. split.
    + constructor; [|done]. intros Hx. apply Hin in Hx as [_ Hx]. apply numbered_range in Hx. lia.
    + intros src r Hx. apply elem_of_cons in Hx as [[= -> ->]|Hx]; [split; [done|by left]|]. apply Hin in Hx as [-> Hx]. split; [done|by right].
  - split; [done|]. intros src r Hx. apply Hin in Hx as [-> Hx]. split; [done|by right].
Qed.

(** Every commit that was sent before is on all nodes. *)
Lemma answered_stored S :
  serial_ok S → (∀ c n reqs m, LCommit c n reqs m ∈ sy_log S → reqs = [] ∨ answered S c) →
  (∀ j src reqs m, commits (sy_log S) !! j = Some (src, reqs, m) → ∀ d reqid, (d, reqid) ∈ reqs → LStored d src reqid m ∈ sy_log S)
  ∧ ∀ n s k, n ∈ act → sy_nodes S !! n = Some s → replica S n s k → k = length (commits (sy_log S)).
Proof.
  intros HS Hg. assert (∀ j src reqs m, commits (sy_log S) !! j = Some (src, reqs, m) → ∀ d reqid, (d, reqid) ∈ reqs → LStored d src reqid m ∈ sy_log S) as Hall.
  { intros j src reqs m Hj d reqid Hd. apply commits_out in Hj as [Hne [c Hc]]. destruct (Hg _ _ _ _ Hc) as [->|(n1 & s1 & Hn1 & Hr)]; [done|].
    destruct (so_nodes _ (se_sys _ HS) n1 s1 Hn1) as [Hok _]. destruct (proj1 (Forall_forall _ _) (no_replies _ _ _ Hok) _ Hr eq_refl) as (reqs1 & m1 & Hc1 & _ & Hst). cbn in Hc1.
    destruct (so_log _ (se_sys _ HS)) as [_ Hun]. destruct (Hun _ _ _ _ _ _ _ Hc Hc1) as (-> & -> & ->). by apply Hst. }
  split; [done|]. intros n s k Hact Hn Hk. pose proof (re_count _ _ _ _ Hk) as Hcount. destruct (decide (length (commits (sy_log S)) = 0)%nat) as [Hz|Hz]; [lia|].
  destruct (lookup_lt_is_Some_2 (commits (sy_log S)) (length (commits (sy_log S)) - 1)) as [[[src reqs] m] Hj]; [lia|]. pose proof (commit_targets _ _ _ _ _ HS Hj) as Htg.
  rewrite <- Htg in Hact. apply list_elem_of_fmap in Hact as ([n' reqid] & -> & Hin). pose proof (re_stored _ _ _ _ Hk _ _ _ _ _ Hj Hin (Hall _ _ _ _ Hj _ _ Hin)). cbn in *. lia.
Qed.

(** Tokens belong to commits. *)
Lemma token_old S n s src r : serial_ok S → sy_nodes S !! n = Some s → (src, r) ∈ tokens S n s → ∃ c reqs m, LCommit c src reqs m ∈ sy_log S ∧ (n, r) ∈ reqs.
Proof.
  intros HS Hn Hin. unfold tokens in Hin. apply elem_of_app in Hin as [Hin|Hin]; apply list_elem_of_omap in Hin as (x & Hx & E).
  - destruct x as [src' dst reqid m|]; [|done]. case_bool_decide; [|done]. injection E as <- <-. subst dst. destruct (proj1 (Forall_forall _ _) (so_net _ (se_sys _ HS)) _ Hx) as (c & reqs & Hc & Hr). by exists c, reqs, m.
  - destruct (ws_result x); [done|]. injection E as <- <-. destruct (so_nodes _ (se_sys _ HS) n s Hn) as [Hok _]. destruct (proj1 (Forall_forall _ _) (no_writes _ _ _ Hok) _ Hx) as (c & reqs & Hc & Hr & _). by exists c, reqs, (ws_m x).
Qed.

(** A replica sees a new commit coming. *)
Lemma replica_committed S S' n n0 s s' s0 next ts m c :
  serial_ok S → sy_nodes S !! n = Some s → sy_nodes S !! n0 = Some s0 → next = pn_next_reqid s0 →
  replica S n s (length (commits (sy_log S))) →
  let reqs := numbered next ts in
  sy_log S' = sy_log S ++ [LCommit c n0 reqs m] → sy_net S' = sy_net S ++ ((λ r, UpdateRecord n0 r.1 r.2 m) <$> reqs) →
  cx_db_list (pn_ctdb s') = cx_db_list (pn_ctdb s) → pn_writes s' = pn_writes s → replica S' n s' (length (commits (sy_log S))).
Proof.
  intros HS Hn Hn0 Hnext Hk reqs Hlog Hnet Hdb Hws. destruct (net_tokens_sent n n0 m next ts) as [Hnd Hnew]. fold reqs in Hnd, Hnew.
  assert (∀ r c' reqs' m', (n, r) ∈ reqs → LCommit c' n0 reqs' m' ∈ sy_log S → (n, r) ∈ reqs' → False) as Hfresh.
  { intros r c' reqs' m' Hr Hc Hr'. destruct (so_fresh _ (se_sys _ HS) _ _ _ _ Hc) as [_ Hlt]. specialize (Hlt s0 n r Hn0 Hr'). apply numbered_range in Hr. lia. }
  assert (tokens S' n s' ≡ₚ net_tokens n ((λ r, UpdateRecord n0 r.1 r.2 m) <$> reqs) ++ tokens S n s) as Htok.
  { unfold tokens. rewrite Hnet, Hws, net_tokens_app. rewrite (Permutation_app_comm (net_tokens n (sy_net S))). by rewrite app_assoc. }
  set (L := commits (sy_log S)) in *. assert (∃ x, commits (sy_log S') = L ++ x ∧ (length x ≤ 1)%nat ∧ ∀ cm, cm ∈ x → cm = (n0, reqs, m)) as (x & Hcs & Hx & Hxin).
  { rewrite Hlog, commits_app. exists (commits [LCommit c n0 reqs m]). split; [done|]. unfold commits. cbn. case_bool_decide; cbn; (split; [lia|]).
    - intros cm Hin. by apply elem_of_nil in Hin.
    - intros cm Hin. by apply list_elem_of_singleton in Hin. }
  split; rewrite ?Hcs.
  - rewrite length_app. lia.
  - rewrite Hdb. rewrite take_app_le by lia. exact (re_db _ _ _ _ Hk).
  - intros j src reqs' m' reqid Hj Hlt Hr. rewrite lookup_app_l in Hj by done. rewrite Htok. intros Ht. apply elem_of_app in Ht as [Ht|Ht].
    + apply Hnew in Ht as [-> Ht]. apply commits_out in Hj as [_ [c' Hc']]. by eapply Hfresh.
    + by eapply (re_done _ _ _ _ Hk).
  - intros j src reqs' m' reqid Hj Hr Hst. rewrite Hlog in Hst. apply log_old in Hst as [Hst|]; [|done]. apply lookup_app_Some in Hj as [Hj|[Hge Hj]]; [by eapply lookup_lt_Some|]. exfalso.
    apply list_elem_of_lookup_2, Hxin in Hj as [= -> -> ->]. destruct (se_stored _ HS _ _ _ _ Hst) as (c' & reqs' & Hc' & Hr'). by eapply Hfresh.
  - rewrite Htok. apply NoDup_app. split; [done|]. split; [|apply (re_nodup _ _ _ _ Hk)]. intros [src r] Ht Ht'. apply Hnew in Ht as [-> Ht]. destruct (token_old _ _ _ _ _ HS Hn Ht') as (c' & reqs' & m' & Hc' & Hr'). by eapply Hfresh.
  - rewrite Hws. exact (re_writes _ _ _ _ Hk).
Qed.

Lemma serial_commit m S S' : serial_ok S → cstep m S S' → (∀ c n reqs m, LCommit c n reqs m ∈ sy_log S → reqs = [] ∨ answered S c) → serial_ok S'.
Proof.
  intros HS Hc Hg. pose proof (cstep_ok _ _ _ (se_sys _ HS) Hc) as HS'. destruct (answered_stored S HS Hg) as [Hall Hlen]. destruct Hc as [n0 client s0 s0' S Hn0 Hreq].
  destruct (so_nodes _ (se_sys _ HS) n0 s0 Hn0) as [Hok0 Hout0]. destruct (commit_sends _ _ _ _ _ Hreq Hout0) as (F1 & F2 & F3 & F4 & ts & Hts & Hout).
  rewrite (no_pnn _ _ _ Hok0) in Hout. set (reqs := requests_of (pn_out s0')) in *. assert (reqs = numbered (pn_next_reqid s0) ts) as Hreqs by (unfold reqs; by rewrite Hout, requests_of_numbered).
  set (e := LCommit (sy_next S) n0 reqs m) in *. set (S' := add_log _ _) in *. assert (sy_log S' = sy_log S ++ [e]) as Hlog by done. pose proof HS as [_ H2 H3 H4 H5 H6].
  assert (sy_net S' = sy_net S ++ ((λ r, UpdateRecord n0 r.1 r.2 m) <$> numbered (pn_next_reqid s0) ts)) as Hnet by (cbn; by rewrite Hout).
  assert (∃ x, commits (sy_log S') = commits (sy_log S) ++ x ∧ (length x ≤ 1)%nat) as (x & Hcs & Hx).
  { rewrite Hlog, commits_app. exists (commits [e]). split; [done|]. unfold commits. cbn. case_bool_decide; cbn; lia. }
  split; [done| | | | |].
  - intros n s. cbn. rewrite lookup_insert_Some. intros [[<- <-]|[_ E]]; [|by apply (H2 n)]. change (targets (set_out s0' [])) with (targets s0'). rewrite (targets_eq s0 s0' F2 F3). by apply (H2 n0).
  - rewrite Hlog. intros c n reqs' m' Hc. apply log_old in Hc as [Hc|[= -> -> -> ->]]; [by eapply H3|]. rewrite Hreqs. destruct Hts; subst ts; [by left|]. right. rewrite numbered_fst. by apply (H2 n0).
  - rewrite Hlog. intros d src reqid m1 Hd. apply log_old in Hd as [Hd|]; [|done]. destruct (H4 _ _ _ _ Hd) as (c & reqs' & Hc & Hr). exists c, reqs'. split; [by apply log_sub|done].
  - rewrite Hcs, length_app. intros j src reqs' m' Hj Hlt d reqid Hd. rewrite lookup_app_l in Hj by lia. rewrite Hlog. apply log_sub. by eapply Hall.
  - intros n s Hact. cbn. rewrite lookup_insert_Some. intros [[<- <-]|[Hne E]].
    + destruct (H6 n0 s0 Hact Hn0) as [k Hk]. rewrite (Hlen n0 s0 k Hact Hn0 Hk) in Hk. eexists. eapply (replica_committed S S' n0 n0 s0 _ s0); try done; by rewrite Hlog, <- Hreqs.
    + destruct (H6 n s Hact E) as [k Hk]. rewrite (Hlen n s k Hact E Hk) in Hk. eexists. eapply (replica_committed S S' n n0 s _ s0); try done; by rewrite Hlog, <- Hreqs.
Qed.

Lemma serial_step_ok S S' : serial_ok S → serial_step S S' → serial_ok S'.
Proof.
  intros HS [Hp|[[m Hc] Hg]]; [|by eapply serial_commit]. destruct Hp.
  - by eapply serial_local.
  - by apply serial_child.
  - by apply serial_request.
  - by eapply serial_reply.
  - by eapply serial_lose.
Qed.

(** At the start the active nodes hold the same data. *)
Definition serial_initial S : Prop :=
  initial S ∧ (∀ n s, sy_nodes S !! n = Some s → targets s = act) ∧ ∀ n s, n ∈ act → sy_nodes S !! n = Some s → content_is s f0.
Lemma serial_initial_ok S : serial_initial S → serial_ok S.
Proof.
  intros (Hini & Ht & Hc). pose proof (initial_ok _ Hini) as HS. destruct Hini as (Hnet & Hlog & Hn). split; rewrite ?Hlog; try done.
  - intros c n reqs m Hin. by apply elem_of_nil in Hin.
  - intros d src reqid m Hin. by apply elem_of_nil in Hin.
  - intros n s Hact E. exists 0%nat. destruct (Hn n s E) as (_ & _ & _ & _ & Hw & _). split; unfold tokens; rewrite ?Hlog, ?Hnet, ?Hw; try done.
    + cbn. lia.
    + by apply (Hc n).
    + constructor.
    + intros w Hin. by apply elem_of_nil in Hin.
Qed.

(** C18: commits replicate.  When clients, on any nodes, commit one after the other,
    each when the commits before it were answered with 0, then all active nodes hold
    the database with all commits applied in order, except perhaps the last one; and
    when that is answered too, they all hold the same data, whatever packets were
    lost, children died and timers fired. *)
Theorem trans3_commits_replicate S0 S n s :
  serial_initial S0 → rtc serial_step S0 S → n ∈ act → sy_nodes S !! n = Some s →
  let cms := commits (sy_log S) in
  (∃ k, (k ≤ length cms ≤ k + 1)%nat ∧ content_is s (foldl (apply_commit id) f0 (take k cms)))
  ∧ ((∀ c n reqs m, LCommit c n reqs m ∈ sy_log S → reqs = [] ∨ answered S c) → content_is s (foldl (apply_commit id) f0 cms)).
Proof.
  intros Hini Hs Hact Hn cms. assert (serial_ok S) as HS.
  { apply serial_initial_ok in Hini. clear Hn. induction Hs as [|S1 S2 S3 Hs _ IH]; [done|]. apply IH. by eapply serial_step_ok. }
  destruct (se_replica _ HS n s Hact Hn) as [k Hk]. split; [exists k; split; [apply Hk|apply Hk]|]. intros Hg. destruct (answered_stored S HS Hg) as [_ Hlen]. rewrite (Hlen n s k Hact Hn Hk) in Hk.
  pose proof (re_db _ _ _ _ Hk) as Hdb. by rewrite firstn_all in Hdb.
Qed.
End serial.

(** ** What a client is told *)

Section answer.
Context {T : Type} `{TdbLaws T} `{!TdbTxn T} `{!TdbTxnLaws T} `{!TdbTxnStatus T}.
Implicit Types (s : pnode T) (S : psys T).
Variable id : Z.

(** Database [id], where a node has it, is persistent and in no transaction. *)
Definition persistent_db s : Prop :=
  ∀ db, find_db id (cx_db_list (pn_ctdb s)) = Some db → db_persistent db = true ∧ db_server_store db = true ∧ tdb_in_transaction (db_ltdb db) = false.
(** The writes of a node store every record of their buffer. *)
Definition full_writes s : Prop := ∀ w, w ∈ pn_writes s → ws_db w = mb_db_id (ws_m w) ∧ (ws_db w = id → ws_flags w = 0).
Definition full S : Prop := ∀ n s, sy_nodes S !! n = Some s → persistent_db s ∧ full_writes s.

Lemma full_frame s s' : cx_db_list (pn_ctdb s') = cx_db_list (pn_ctdb s) → sublist (pn_writes s') (pn_writes s) → persistent_db s ∧ full_writes s → persistent_db s' ∧ full_writes s'.
Proof. intros Hdb Hw [Hp Hf]. unfold persistent_db. rewrite Hdb. split; [done|]. intros w Hin. apply Hf. by eapply sublist_in. Qed.
Lemma full_put S n s net log next : full S → persistent_db s ∧ full_writes s → full (mk_sys (<[n := set_out s []]> (sy_nodes S)) net next log).
Proof. intros HS Hs n' s'. cbn. rewrite lookup_insert_Some. intros [[<- <-]|[_ E]]; [exact Hs|by eapply HS]. Qed.

Lemma request_full forked src reqid m s : persistent_db s ∧ full_writes s → persistent_db (request_update forked src reqid m s) ∧ full_writes (request_update forked src reqid m s).
Proof.
  intros [Hp Hf]. unfold request_update, ctdb_control_update_record. destruct (negb (normal s)); [done|]. destruct (find_db _ _) as [db|] eqn:Edb; [|done].
  destruct (bool_decide _); [done|]. destruct forked; [|done]. cbn [negb]. split; [done|]. intros w Hw. cbn in Hw. apply elem_of_app in Hw as [Hw|Hw]; [by apply Hf|].
  apply list_elem_of_singleton in Hw as ->. cbn. pose proof (find_db_id _ _ _ Edb) as Hid. split; [done|]. intros Hd. rewrite <- Hid, Hd in Edb. by destruct (Hp db Edb) as [-> _].
Qed.
Lemma child_full i s : persistent_db s ∧ full_writes s → persistent_db (childwrite_child i s) ∧ full_writes (childwrite_child i s).
Proof.
  intros [Hp Hf]. destruct (child_cases i s) as [->|(w & db & ret & db' & Hi & Hw & Edb & Es & ->)]; [done|]. assert (w ∈ pn_writes s) as Hin by (by eapply list_elem_of_lookup_2).
  split.
  - unfold persistent_db. cbn. set (db1 := set_db_ltdb db (db_ltdb db')). pose proof (find_db_id _ _ _ Edb) as Hid. destruct (decide (ws_db w = id)) as [Heq|Hne].
    + rewrite Heq in Edb, Hid. destruct (Hp db Edb) as (P1 & P2 & P3). rewrite (proj2 (Hf w Hin) Heq) in Es. apply (persistent_store_spec _ (cx_vnn_map (pn_ctdb s))) in Es as [Htx _]; [|done..].
      intros db0. rewrite <- Hid. change (db_id db) with (db_id db1). rewrite (find_put _ _ db) by (by rewrite <- Hid in Edb). by intros [= <-].
    + intros db0. rewrite find_put_other by (cbn; congruence). apply Hp.
  - intros w1 Hw1. cbn in Hw1. apply list_elem_of_lookup in Hw1 as [j Hj]. apply list_lookup_insert_Some in Hj as [(-> & <- & _)|[_ Hj]]; [by apply (Hf w)|]. apply Hf. by eapply list_elem_of_lookup_2.
Qed.
Lemma step_full S S' : sys_ok S → full S → step S S' → full S'.
Proof.
  intros HS Hf [Hp|[m Hc]].
  - destruct Hp as [n s s' S Hn Hl|n i s S Hn|forked n src reqid m s S l1 l2 Hn _|n src reqid status s S l1 l2 Hn _|p S l1 l2 _]; [..|exact Hf]; apply full_put; try done.
    + destruct (local_step_frame _ _ Hl) as (F1 & _ & _ & F4 & _). eapply full_frame; [done|done|by eapply Hf].
    + apply child_full. by eapply Hf.
    + apply request_full. by eapply Hf.
    + destruct (frame_control_done reqid status s) as (F1 & _ & _ & F4 & _). eapply full_frame; [done|done|by eapply Hf].
  - destruct Hc as [n client s s' S Hn Hreq]. destruct (so_nodes _ HS n s Hn) as [_ Hout]. destruct (commit_sends _ _ _ _ _ Hreq Hout) as (F1 & _ & _ & F4 & _).
    apply full_put; [done|]. eapply full_frame; [done|by rewrite F4|by eapply Hf].
Qed.
Lemma steps_full S0 S : initial S0 → (∀ n s, sy_nodes S0 !! n = Some s → persistent_db s) → rtc step S0 S → full S.
Proof.
  intros Hini Hp Hs. assert (full S0) as Hf. { intros n s Hn. split; [by eapply Hp|]. destruct Hini as (_ & _ & Hi). destruct (Hi n s Hn) as (_ & _ & _ & _ & Hw & _). intros w. rewrite Hw. intros Hin. by apply elem_of_nil in Hin. }
  apply initial_ok in Hini. clear Hp. induction Hs as [|S1 S2 S3 Hs _ IH]; [done|]. apply IH; [destruct Hs as [Hs|[m Hs]]; [by eapply pstep_ok|by eapply cstep_ok]|by eapply step_full].
Qed.

(** The step that has put an entry into the log. *)
Lemma stored_when S0 S d src reqid m :
  sy_log S0 = [] → rtc step S0 S → LStored d src reqid m ∈ sy_log S →
  ∃ S1 i s1, rtc step S0 S1 ∧ sy_nodes S1 !! d = Some s1 ∧ LStored d src reqid m ∈ stored_of d i s1 (childwrite_child i s1)
    ∧ rtc step (add_log (put_node d (childwrite_child i s1) S1) (stored_of d i s1 (childwrite_child i s1))) S.
Proof.
  intros Hini Hs. pattern S. revert S Hs. apply rtc_ind_r; cbn beta; [rewrite Hini; intros Hin; by apply elem_of_nil in Hin|]. intros S1 S2 H01 H12 IH.
  assert (LStored d src reqid m ∈ sy_log S1 → ∃ S1 i s1, rtc step S0 S1 ∧ sy_nodes S1 !! d = Some s1 ∧ LStored d src reqid m ∈ stored_of d i s1 (childwrite_child i s1)
    ∧ rtc step (add_log (put_node d (childwrite_child i s1) S1) (stored_of d i s1 (childwrite_child i s1))) S2) as Hold.
  { intros Hin. destruct (IH Hin) as (S3 & i & s3 & ? & ? & ? & ?). exists S3, i, s3. split_and!; try done. by eapply rtc_r. }
  pose proof H12 as [Hp|[m0 Hc]]; [destruct Hp as [| n i s S1 Hn| | |]|destruct Hc]; cbn [sy_log add_log put_node set_net fresh] in *; try exact Hold.
  - intros Hin. apply elem_of_app in Hin as [Hin|Hin]; [by apply Hold|]. assert (n = d) as ->.
    { unfold stored_of in Hin. destruct (pn_writes s !! i); [|by apply elem_of_nil in Hin]. destruct (pn_writes _ !! i); [|by apply elem_of_nil in Hin].
      case_bool_decide; [|by apply elem_of_nil in Hin]. by apply list_elem_of_singleton in Hin as [= <- _ _ _]. }
    exists S1, i, s. by split_and!.
  - intros Hin. apply log_old in Hin as [Hin|?]; [by apply Hold|done].
Qed.

(** What the child did that was answered with 0. *)
Lemma stored_applied d i s src reqid m :
  persistent_db s ∧ full_writes s → LStored d src reqid m ∈ stored_of d i s (childwrite_child i s) → mb_db_id m = id →
  ∃ f g, content_is id s f ∧ content_is id (childwrite_child i s) g ∧ applied m f g.
Proof.
  intros [Hp Hf] Hin Hid. destruct (child_cases i s) as [E|(w & db & ret & db' & Hi & Hw & Edb & Es & E)]; [rewrite E, stored_of_same in Hin; by apply elem_of_nil in Hin|].
  unfold stored_of in Hin. rewrite E, Hi in Hin. cbn in Hin. rewrite list_lookup_insert_eq in Hin by (by eapply lookup_lt_Some). case_bool_decide as Hb; [|by apply elem_of_nil in Hin].
  apply list_elem_of_singleton in Hin as [= -> -> ->]. destruct Hb as [_ Hb]. cbn in Hb. destruct (Z.eqb_spec ret 0) as [->|]; [|done].
  destruct (Hf w) as [Hwd Hfl]; [by eapply list_elem_of_lookup_2|]. rewrite Hid in Hwd. rewrite Hwd in Edb. destruct (Hp db Edb) as (P1 & P2 & P3). rewrite (Hfl Hwd) in Es.
  pose proof (find_db_id _ _ _ Edb) as Hdb. apply (persistent_store_spec _ (cx_vnn_map (pn_ctdb s))) in Es as [Htx [[_ Ha]|[? _]]]; [|done..].
  exists (tdb_fetch (db_ltdb db)), (tdb_fetch (db_ltdb db')). split; [by exists db|]. split; [|done]. exists (set_db_ltdb db (db_ltdb db')). rewrite E. cbn. split_and!; try done.
  rewrite <- Hdb at 1. change (db_id db) with (db_id (set_db_ltdb db (db_ltdb db'))). apply (find_put _ _ db). cbn. by rewrite Hdb.
Qed.

(** C19: a client is told that its commit to a persistent database succeeded only
    after every active node has stored it: however commits, recoveries, timeouts,
    disconnecting clients, dying children and lost packets interleave, when a commit
    was answered with 0 it was sent to all nodes of the map that are not inactive,
    and each of them has gone through a step in which all records of its buffer were
    put into the database, each newer than what was there or with the same data, and
    nothing else changed.  Database [id] is persistent on every node (a volatile one
    takes only the records that it has), and request ids are not reused. *)
Theorem trans3_commit_safe S0 S n s c :
  initial S0 → (∀ n s, sy_nodes S0 !! n = Some s → persistent_db s) → rtc step S0 S → sy_nodes S !! n = Some s → (c, 0) ∈ pn_replies s →
  ∃ reqs m, LCommit c n reqs m ∈ sy_log S ∧ reqs.*1 = targets s
  ∧ (mb_db_id m = id → ∀ d, d ∈ targets s →
     ∃ S1 S2 s1 s2 f g, rtc step S0 S1 ∧ step S1 S2 ∧ rtc step S2 S
       ∧ sy_nodes S1 !! d = Some s1 ∧ sy_nodes S2 !! d = Some s2 ∧ content_is id s1 f ∧ content_is id s2 g ∧ applied m f g).
Proof.
  intros Hini Hp Hs Hn Hin. destruct (so_nodes _ (steps_sys_ok _ _ Hini Hs) n s Hn) as [Hok _].
  destruct (proj1 (Forall_forall _ _) (no_replies _ _ _ Hok) _ Hin eq_refl) as (reqs & m & Hc & Htg & Hst). exists reqs, m. split; [done|]. split; [done|].
  intros Hid d Hd. rewrite <- Htg in Hd. apply list_elem_of_fmap in Hd as ([d' reqid] & -> & Hr). cbn [fst].
  destruct (stored_when S0 S d' n reqid m) as (S1 & i & s1 & H01 & Hn1 & Hlog & H2); [apply Hini|done|by apply Hst|].
  pose proof (steps_full _ _ Hini Hp H01 d' s1 Hn1) as Hf. destruct (stored_applied _ _ _ _ _ _ Hf Hlog Hid) as (f & g & Hcf & Hcg & Ha).
  eexists S1, _, s1, _, f, g. split; [done|]. split; [left; by apply (p_child d' i s1)|]. split; [exact H2|]. split; [done|]. split; [apply lookup_insert_eq|]. by split_and!.
Qed.
End answer.

(** ** Examples *)

(** Two nodes with an empty persistent database and a client on the first one. *)
Definition example_m : bytes := Eval vm_compute in default [] (marshall_all None 5 [(0, Some (mk_header 1 0 0 0), [1; 2; 3], [9; 8])]).
Definition example_pdb : ctdb_db_context txtdb := mk_db 5 true false false (mk_txtdb example_tdb None) (mk_txtdb example_tdb None) [] false true false [] ∅ ∅ 0 [] 0 0 [] [] [].
Definition example_pctdb (pnn : Z) : ctdb_context txtdb :=
  mk_ctdb pnn (mk_vnn_map 1 2 [0; 1]) [mk_node 0 0 0 0 0; mk_node 1 0 0 0 0] 2 true [example_pdb] ∅ 0 [] 0 0 (λ _, 0) (λ _, 0) [] [] [] [] [].
Definition example_pnode (pnn : Z) : pnode txtdb := mk_pn (example_pctdb pnn) [] (if pnn =? 0 then {[7 := mk_client 0 0]} else ∅) ∅ ∅ 1 [] [] [].
Definition example_sys : psys txtdb := mk_sys {[0 := example_pnode 0; 1 := example_pnode 1]} [] 3 [].

Lemma example_nodes n s : sy_nodes example_sys !! n = Some s → s = example_pnode n ∧ (n = 0 ∨ n = 1).
Proof.
  cbn. rewrite lookup_insert_Some, lookup_singleton_Some. intros [[<- <-]|[_ [<- <-]]]; auto.
Qed.
Lemma example_initial : initial example_sys.
Proof. split; [done|]. split; [done|]. intros n s Hn. apply example_nodes in Hn as [-> [->| ->]]; by split_and!. Qed.
Lemma example_serial : serial_initial [0; 1] 5 (λ _, []) example_sys.
Proof.
  split; [apply example_initial|]. split; intros n s.
  - intros Hn. by apply example_nodes in Hn as [-> [->| ->]].
  - intros _ Hn. apply example_nodes in Hn as [-> _]. exists example_pdb. by split_and!.
Qed.
(** The client commits, both nodes write, and both replies come back. *)
Lemma example_commit_run : ∃ S s0 s1, rtc serial_step example_sys S ∧ sy_nodes S !! 0 = Some s0 ∧ sy_nodes S !! 1 = Some s1 ∧ pn_replies s0 = [(3, 0)] ∧ sy_net S = []
  ∧ omap (λ e, match e with LCommit c n reqs m => Some (c, n, reqs, m) | _ => None end) (sy_log S) = [(3, 0, [(0, 1); (1, 2)], example_m)].
Proof.
  eexists _, _, _. split.
  - eapply rtc_l; [right; split; [exists example_m; eapply (c_commit _ 0 7); [reflexivity|vm_compute; reflexivity]|intros c n reqs m Hin; by apply elem_of_nil in Hin]|].
    eapply rtc_l; [left; eapply (p_request true 0 0 1 example_m _ _ []); [reflexivity|vm_compute; reflexivity]|].
    eapply rtc_l; [left; eapply (p_request true 1 0 2 example_m _ _ []); [reflexivity|vm_compute; reflexivity]|].
    eapply rtc_l; [left; eapply (p_child 1 0); reflexivity|].
    eapply rtc_l; [left; eapply (p_child 0 0); reflexivity|].
    eapply rtc_l; [left; eapply (p_local 0); [reflexivity|apply (local_handler 0)]|].
    eapply rtc_l; [left; eapply (p_local 1); [reflexivity|apply (local_handler 0)]|].
    eapply rtc_l; [left; eapply (p_reply 0 0 1 0 _ _ []); [reflexivity|vm_compute; reflexivity]|].
    eapply rtc_l; [left; eapply (p_reply 0 1 2 0 _ _ []); [reflexivity|vm_compute; reflexivity]|]. apply rtc_refl.
  - vm_compute. by split_and!.
Qed.
Lemma serial_steps_steps (S S' : psys txtdb) : rtc serial_step S S' → rtc step S S'.
Proof. induction 1 as [|S1 S2 S3 [Hp|[Hc _]] _ IH]; [done| |]; (eapply rtc_l; [|exact IH]); [by left|by right]. Qed.

Lemma trans3_commit_safe_witness :
  ∃ S s, rtc step example_sys S ∧ sy_nodes S !! 0 = Some s ∧ pn_replies s = [(3, 0)]
  ∧ ∃ reqs m, LCommit 3 0 reqs m ∈ sy_log S ∧ reqs.*1 = targets s
    ∧ (mb_db_id m = 5 → ∀ d, d ∈ targets s →
       ∃ S1 S2 s1 s2 f g, rtc step example_sys S1 ∧ step S1 S2 ∧ rtc step S2 S
         ∧ sy_nodes S1 !! d = Some s1 ∧ sy_nodes S2 !! d = Some s2 ∧ content_is 5 s1 f ∧ content_is 5 s2 g ∧ applied m f g).
Proof.
  destruct example_commit_run as (S & s0 & s1 & Hrun & H0 & _ & Hr & _). exists S, s0. apply serial_steps_steps in Hrun. split; [exact Hrun|]. split; [exact H0|]. split; [exact Hr|].
  apply (trans3_commit_safe 5 example_sys S 0 s0 3); [apply example_initial| |exact Hrun|exact H0|rewrite Hr; left].
  intros n s Hn. apply example_nodes in Hn as [-> _]. intros db [= <-]. by split_and!.
Defined.
Lemma trans3_commits_replicate_witness :
  ∃ S s, rtc serial_step example_sys S ∧ sy_nodes S !! 1 = Some s
  ∧ ((∀ c n reqs m, LCommit c n reqs m ∈ sy_log S → reqs = [] ∨ answered S c) → content_is 5 s (foldl (apply_commit 5) (λ _, []) (commits (sy_log S))))
  ∧ ∀ c n reqs m, LCommit c n reqs m ∈ sy_log S → reqs = [] ∨ answered S c.
Proof.
  destruct example_commit_run as (S & s0 & s1 & Hrun & H0 & H1 & Hr & _ & Hlog). exists S, s1. split; [exact Hrun|]. split; [exact H1|]. split.
  - apply (trans3_commits_replicate [0; 1] 5 (λ _, []) ltac:(apply (bool_decide_unpack _); vm_compute; exact I) example_sys S 1 s1); [apply example_serial|exact Hrun|right; left|exact H1].
  - intros c n reqs m Hin. right. exists 0, s0. split; [exact H0|]. rewrite Hr. assert ((c, n, reqs, m) ∈ [(3, 0, [(0, 1); (1, 2)], example_m)]) as Hc.
    { rewrite <- Hlog. apply list_elem_of_omap. eexists. split; [exact Hin|done]. }
    apply list_elem_of_singleton in Hc as [= -> _ _ _]. left.
Defined.
Lemma persistent_store_correct_witness :
  let lc := child_lc (example_pnode 0) in
  ∃ db', ctdb_persistent_store lc example_m 0 example_pdb = (0, db') ∧ applied example_m (tdb_fetch (db_ltdb example_pdb)) (tdb_fetch (db_ltdb db')).
Proof.
  intros lc. eexists. split; [vm_compute; reflexivity|]. eapply (persistent_store_correct lc (mk_vnn_map 1 2 [0; 1]) example_m example_pdb 0); [reflexivity..|vm_compute; reflexivity|reflexivity].
Defined.
