(* ===== verification/Recovery.v ===== *)
(** * Recovery

    The recovery of databases: the pull and push controls of
    [server/ctdb_recover.c] on every node, and the part of
    [server/ctdb_recoverd.c] that runs them on the recovery master, from the
    merge of the copies of all active nodes to the new vnn map; the sequence
    numbers of persistent databases ([server/ctdb_persistent.c]); and the
    election of the recovery master.

    Requests and replies of controls may be lost, and replies arrive in any
    order: both are arguments ([rec_env]).  Event scripts, the recovery lock and
    the update of node flags between the modelled steps are not part of this
    state. *)
From S2P Require Import Prelude Protocol Queue Marshal Ltdb Node Call Freeze.

(** ** Data *)

(** A call of a control by the recovery daemon, with its argument. *)
Inductive control :=
  | CTDB_CONTROL_PULL_DB (db_id : Z)
  | CTDB_CONTROL_GET_DB_SEQNUM (db_id : Z)
  | CTDB_CONTROL_WIPE_DATABASE (db_id transaction_id : Z)
  | CTDB_CONTROL_PUSH_DB (blob : bytes)
  | CTDB_CONTROL_TRANSACTION_START (id : Z)
  | CTDB_CONTROL_TRANSACTION_CANCEL
  | CTDB_CONTROL_TRANSACTION_COMMIT (id : Z)
  | CTDB_CONTROL_SETVNNMAP (map : ctdb_vnn_map).

(** What becomes of a control. *)
Inductive fate := Answered | RequestLost | ReplyLost.

(** [re_fate]: the fate of a control to a node; [re_arrive]: the order in which
    the answers to a broadcast control come in; [re_mark]: whether a node can
    mark its databases as locked; [re_health]: whether it can update the health
    of a database; [re_recdb]: whether the temporary database can be created. *)
Record rec_env := mk_rec_env {
  re_fate : control → Z → fate;
  re_arrive : list Z → list Z;
  re_mark : Z → bool;
  re_health : Z → Z → bool;
  re_recdb : bool;
}.

(** The tunables involved: [pulldb_preallocation_size], [recover_pdb_by_seqnum],
    [recovery_grace_period], [recovery_ban_period]. *)
Record tunables := mk_tunables {
  tun_pulldb_preallocation_size : Z;
  tun_recover_pdb_by_seqnum : Z;
  tun_recovery_grace_period : Z;
  tun_recovery_ban_period : Z;
}.

(** [struct ctdb_banning_state], times in seconds. *)
Record ctdb_banning_state := mk_ban {
  bs_count : Z;
  bs_last_reported_time : Z;
}.

(** [struct ctdb_node_and_flags] of a [struct ctdb_node_map]. *)
Record ctdb_node_and_flags := mk_naf {
  nf_pnn : Z;
  nf_flags : Z;
}.

(** The recovery daemon: the parts of [struct ctdb_recoverd] and of its
    [struct ctdb_context] that are used.  [rd_ban] is the [ban_state] of each
    node. *)
Record ctdb_recoverd := mk_recd {
  rd_pnn : Z;
  rd_recovery_master : Z;
  rd_node_flags : Z;
  rd_capabilities : Z;
  rd_priority_time : Z;
  rd_last_culprit_node : Z;
  rd_ban : list (option ctdb_banning_state);
}.

Definition set_rd_culprit (rec : ctdb_recoverd) (culprit : Z) ban : ctdb_recoverd :=
  mk_recd (rd_pnn rec) (rd_recovery_master rec) (rd_node_flags rec) (rd_capabilities rec)
    (rd_priority_time rec) culprit ban.
Definition set_rd_node_flags (rec : ctdb_recoverd) (v : Z) : ctdb_recoverd :=
  mk_recd (rd_pnn rec) (rd_recovery_master rec) v (rd_capabilities rec)
    (rd_priority_time rec) (rd_last_culprit_node rec) (rd_ban rec).

(** ** Culprits *)

(** [None]: an access outside of the array of nodes. *)
Definition ctdb_set_culprit_count (tun : tunables) (now : Z) (culprit count : Z)
    (rec : ctdb_recoverd) : option ctdb_recoverd :=
  if Z.of_nat (length (rd_ban rec)) <? culprit then Some rec
  else if rd_node_flags rec &? NODE_FLAGS_INACTIVE then Some rec
  else
    node ← rd_ban rec !! Z.to_nat culprit;
    let ban_state := default (mk_ban 0 0) node in
    let old := if tun_recovery_grace_period tun <? now - bs_last_reported_time ban_state
               then 0 else bs_count ban_state in
    let ban_state := mk_ban (u32 (old + count)) now in
    Some (set_rd_culprit rec culprit (<[Z.to_nat culprit := Some ban_state]> (rd_ban rec))).

(** The loop over the nodes: the new ban states and the nodes that
    [ctdb_ban_node] is called for ([i] is the pnn of the first). *)
Fixpoint ban_loop (num_nodes i : Z) (bans : list (option ctdb_banning_state))
    : list (option ctdb_banning_state) * list Z :=
  match bans with
  | [] => ([], [])
  | ban :: bans =>
      let '(rest, banned) := ban_loop num_nodes (i + 1) bans in
      match ban with
      | None => (None :: rest, banned)
      | Some b =>
          if bs_count b <? 2 * num_nodes then (Some b :: rest, banned)
          else (Some (mk_ban 0 (bs_last_reported_time b)) :: rest, i :: banned)
      end
  end.

(** (the daemon, the nodes banned, whether this node is one of them) *)
Definition ban_misbehaving_nodes (rec : ctdb_recoverd) : ctdb_recoverd * list Z * bool :=
  let '(bans, banned) := ban_loop (Z.of_nat (length (rd_ban rec))) 0 (rd_ban rec) in
  (set_rd_culprit rec (rd_last_culprit_node rec) bans, banned,
   existsb (λ pnn, pnn =? rd_pnn rec) banned).

(** ** Lists of nodes *)

Definition list_of_nodes (nodemap : list ctdb_node_and_flags) (mask exclude_pnn : Z) : list Z :=
  nf_pnn <$> filter (λ n, (nf_flags n &? mask) = false ∧ nf_pnn n ≠ u32 exclude_pnn) nodemap.

Definition list_of_active_nodes (pnn : Z) nodemap (include_self : bool) : list Z :=
  list_of_nodes nodemap NODE_FLAGS_INACTIVE (if include_self then -1 else pnn).

(** ** Controls on a node *)

(** What the callback of a traversal says: go on, stop, or abort the process. *)
Inductive visit (S : Type) := Continue (s : S) | Halt (s : S) | Abort.
Arguments Continue {S}.
Arguments Halt {S}.
Arguments Abort {S}.

(** [None]: the process was aborted. *)
Fixpoint traverse {S} (fn : bytes → bytes → S → visit S) (l : list (bytes * bytes)) (s : S)
    : option S :=
  match l with
  | [] => Some s
  | (key, data) :: l =>
      match fn key data s with
      | Continue s => traverse fn l s
      | Halt s => Some s
      | Abort => None
      end
  end.

(** [struct pulldb_data] and [struct recdb_data]: the blob (its length is
    [len]), [allocated_len] and [failed]. *)
Record pulldb_data := mk_pull {
  pd_data : bytes;
  pd_allocated_len : Z;
  pd_failed : bool;
}.

(** The blob grows; [None] when the allocation fails. *)
Definition pull_append (tun : tunables) (rec : bytes) (params : pulldb_data)
    : option pulldb_data :=
  let len := dsize (pd_data params) in
  let grow := pd_allocated_len params <=? u32 (len + dsize rec) in
  let allocated_len := if grow then u32 (dsize rec + len + tun_pulldb_preallocation_size tun)
                       else pd_allocated_len params in
  if grow && (MAX_TALLOC_SIZE <=? allocated_len) then None
  else Some (mk_pull (set_mb_count (pd_data params ++ rec) (u32 (mb_count (pd_data params) + 1)))
               allocated_len (pd_failed params)).

Definition set_pd_failed (params : pulldb_data) : pulldb_data :=
  mk_pull (pd_data params) (pd_allocated_len params) true.

Definition traverse_pulldb (tun : tunables) (key data : bytes) (params : pulldb_data)
    : visit pulldb_data :=
  match ctdb_marshall_record 0 key None data with
  | None => Halt (set_pd_failed params)
  | Some rec =>
      match pull_append tun rec params with
      | None => Abort
      | Some params => Continue params
      end
  end.

(** The answer to a control; or the daemon dies. *)
Inductive control_result (T : Type) :=
  | Reply (status : Z) (outdata : bytes) (s : freeze_ctx T)
  | Died.
Arguments Reply {T}.
Arguments Died {T}.

Section controls.
Context {T : Type} `{!TdbOps T, !TdbTxn T}.
Implicit Types (s : freeze_ctx T) (db : ctdb_db_context T).

Definition new_blob (db_id : Z) : pulldb_data :=
  mk_pull (mb_empty db_id) (Z.of_nat offsetof_marshall_data) false.

Definition ctdb_control_pull_db (tun : tunables) (mark : bool) (id : Z) s : control_result T :=
  match find_db id (fx_dbs s) with
  | None => Reply (-1) [] s
  | Some db =>
      if negb (frozen s (fx_priority s (db_id db))) then Reply (-1) [] s
      else if negb mark then Reply (-1) [] s
      else match tdb_traverse_read (db_ltdb db) with
      | None => Reply (-1) [] s
      | Some records =>
          match traverse (traverse_pulldb tun) records (new_blob id) with
          | None => Died
          | Some params => Reply 0 (pd_data params) s
          end
      end
  end.

(** The loop of [ctdb_control_push_db]. *)
Fixpoint push_records (lc : ltdb_ctx) (recs : list (bytes * bytes)) db
    : Z * ctdb_db_context T :=
  match recs with
  | [] => (0, db)
  | (key, data) :: recs =>
      if Nat.ltb (length data) sizeof_header then (-1, db)
      else
        let hdr := header_of_bytes data in
        let hdr := set_flags hdr (flags hdr &~ CTDB_REC_RO_FLAGS) in
        let '(ret, _, db) := ctdb_ltdb_store lc db key hdr (drop sizeof_header data) in
        if negb (ret =? 0) then (-1, db) else push_records lc recs db
  end.

Definition set_db_readonly db (v : bool) : ctdb_db_context T :=
  mk_db (db_id db) (db_persistent db) v (db_sticky db) (db_ltdb db)
    (db_rottdb db) (db_calls db) (db_seqnum_update db) (db_server_store db)
    (db_persistent_state db) (db_revokechild_active db) (db_delete_queue db)
    (db_sticky_records db) (db_num_hot_keys db) (db_hot_keys db) (db_ro_delegations db)
    (db_ro_revokes db) (db_hop_count_bucket db) (db_chainlocks db) (db_ctrl_sent db).

(** The end of a push on a database with read-only delegations: the tracking
    database is wiped and all revokes end; their deferred calls are requeued. *)
Definition push_readonly db : ctdb_db_context T * list ctdb_req_call :=
  if db_readonly db then
    let '(t, ret) := tdb_wipe_all (db_rottdb db) in
    let db := set_db_rottdb db t in
    let db := if negb (ret =? 0) then set_db_readonly db false else db in
    (set_db_revokechild_active db [], concat (rv_deferred <$> db_revokechild_active db))
  else (db, []).

Definition ctdb_control_push_db (mark : bool) (indata : bytes) s : Z * freeze_ctx T :=
  if Nat.ltb (length indata) offsetof_marshall_data then (-1, s)
  else match find_db (mb_db_id indata) (fx_dbs s) with
  | None => (-1, s)
  | Some db =>
      if negb (frozen s (fx_priority s (db_id db))) then (-1, s)
      else if negb mark then (-1, s)
      else
        let '(ret, db) := push_records (daemon_lc (fx_ctdb s)) (mb_records indata) db in
        if negb (ret =? 0) then (-1, set_fx_dbs s (put_db db (fx_dbs s)))
        else
          let '(db, deferred) := push_readonly db in
          let s := set_fx_dbs s (put_db db (fx_dbs s)) in
          (0, set_fx_ctdb s (set_cx_timers (fx_ctdb s) (cx_timers (fx_ctdb s) ++ deferred)))
  end.

(** The key of the sequence number of a persistent database, with the
    terminating zero. *)
Definition CTDB_DB_SEQNUM_KEY : bytes :=
  [95; 95; 100; 98; 95; 115; 101; 113; 117; 101; 110; 99; 101; 95;
   110; 117; 109; 98; 101; 114; 95; 95; 0].

(** (return value, seqnum, state) *)
Definition ctdb_get_db_seqnum (id : Z) s : Z * Z * freeze_ctx T :=
  match find_db id (fx_dbs s) with
  | None => (-1, 0, s)
  | Some db =>
      let '(ret, _, data, db) :=
        ctdb_ltdb_fetch (daemon_lc (fx_ctdb s)) db CTDB_DB_SEQNUM_KEY zero_header in
      let s := set_fx_dbs s (put_db db (fx_dbs s)) in
      if negb (ret =? 0) then (ret, 0, s)
      else if negb (dsize data =? 8) then (ret, 0, s)
      else (ret, le_val data, s)
  end.

(** [*(outdata->dptr) = seqnum] stores one byte: [dptr] points to bytes. *)
Definition ctdb_control_get_db_seqnum (id : Z) s : control_result T :=
  let '(ret, seqnum, s) := ctdb_get_db_seqnum id s in
  if negb (ret =? 0) then Reply ret [] s
  else Reply ret (le_bytes 1 seqnum ++ replicate 7 0) s.

(** [ctdb_control_dispatch] for these controls. *)
Definition dispatch (tun : tunables) (env : rec_env) (c : control) s : control_result T :=
  let pnn := cx_pnn (fx_ctdb s) in
  let reply (r : Z * freeze_ctx T) := Reply r.1 [] r.2 in
  match c with
  | CTDB_CONTROL_PULL_DB id => ctdb_control_pull_db tun (re_mark env pnn) id s
  | CTDB_CONTROL_GET_DB_SEQNUM id => ctdb_control_get_db_seqnum id s
  | CTDB_CONTROL_WIPE_DATABASE id tid => reply (ctdb_control_wipe_database id tid s)
  | CTDB_CONTROL_PUSH_DB blob => reply (ctdb_control_push_db (re_mark env pnn) blob s)
  | CTDB_CONTROL_TRANSACTION_START id => reply (ctdb_control_transaction_start id s)
  | CTDB_CONTROL_TRANSACTION_CANCEL => reply (ctdb_control_transaction_cancel s)
  | CTDB_CONTROL_TRANSACTION_COMMIT id =>
      reply (ctdb_control_transaction_commit (re_health env pnn) id s)
  | CTDB_CONTROL_SETVNNMAP map => reply (ctdb_control_setvnnmap map s)
  end.

End controls.

(** ** The recovery master *)

(** [struct pull_seqnum_cbdata] *)
Record pull_seqnum_cbdata := mk_seqnum_cb {
  sc_failed : bool;
  sc_pnn : Z;
  sc_seqnum : Z;
}.

Definition pull_seqnum_cb (node_pnn res : Z) (outdata : bytes) (cb : pull_seqnum_cbdata)
    : pull_seqnum_cbdata :=
  if sc_failed cb then cb
  else if negb (res =? 0) then mk_seqnum_cb true (sc_pnn cb) (sc_seqnum cb)
  else if negb (dsize outdata =? 8) then mk_seqnum_cb true (sc_pnn cb) (sc_seqnum cb)
  else
    let seqnum := le_val outdata in
    if sc_seqnum cb <? seqnum then mk_seqnum_cb false node_pnn seqnum else cb.

Definition pull_seqnum_fail_cb (cb : pull_seqnum_cbdata) : pull_seqnum_cbdata :=
  mk_seqnum_cb true (sc_pnn cb) (sc_seqnum cb).

(** Whether a record of another node replaces the one at hand. *)
Definition supersedes (recovery_master : Z) (header hdr : ctdb_ltdb_header) : bool :=
  (rsn header <? rsn hdr)
  || (negb (dmaster header =? recovery_master) && (rsn header =? rsn hdr)).

(** A record of the recovered database as it is sent out: this node becomes its
    dmaster. *)
Definition recdb_record (pnn : Z) (persistent : bool) (data : bytes) : bytes :=
  if persistent then data
  else set32 16 (get32 16 data |+ CTDB_REC_FLAG_MIGRATED_WITH_DATA) (set32 8 pnn data).

Definition traverse_recdb (tun : tunables) (pnn : Z) (persistent : bool) (key data : bytes)
    (params : pulldb_data) : visit pulldb_data :=
  if negb persistent && Nat.leb (length data) sizeof_header then Continue params
  else match ctdb_marshall_record 0 key None (recdb_record pnn persistent data) with
  | None => Halt (set_pd_failed params)
  | Some rec =>
      match pull_append tun rec params with
      | None => Halt (set_pd_failed params)
      | Some params => Continue params
      end
  end.

Definition CTDB_CAP_RECMASTER : Z := 1.
Definition CTDB_CAP_LMASTER : Z := 2.

(** The new vnn map: the active nodes that can be lmaster, or this node when
    there is none.  [caps] are the capabilities of the nodes. *)
Definition new_vnnmap (generation pnn : Z) (caps : list Z)
    (nodemap : list ctdb_node_and_flags) : ctdb_vnn_map :=
  let map := omap (λ '(i, n),
    if nf_flags n &? NODE_FLAGS_INACTIVE then None
    else if nth i caps 0 &? CTDB_CAP_LMASTER then Some (nf_pnn n) else None)
    (zip (seq 0 (length nodemap)) nodemap) in
  let map := if bool_decide (map = []) then [pnn] else map in
  mk_vnn_map generation (Z.of_nat (length map)) map.

Section recovery.
Context {T : Type} `{!TdbOps T, !TdbTxn T}.
Variables (tun : tunables) (env : rec_env).
Abbreviation cluster_nodes := (gmap Z (freeze_ctx T)).
Implicit Types (nodes : cluster_nodes) (recdb : T) (rec : ctdb_recoverd).

(** A control is sent to a node: the nodes, and the answer unless it is lost. *)
Definition send_control (c : control) (pnn : Z) nodes : cluster_nodes * option (Z * bytes) :=
  match nodes !! pnn with
  | None => (nodes, None)
  | Some s =>
      match re_fate env c pnn with
      | RequestLost => (nodes, None)
      | f =>
          match dispatch tun env c s with
          | Died => (delete pnn nodes, None)
          | Reply status outdata s =>
              (<[pnn := s]> nodes,
               match f with Answered => Some (status, outdata) | _ => None end)
          end
      end
  end.

(** [async_callback] for the answers in the order of their arrival: (nodes,
    fail_count, callback data). *)
Fixpoint async_loop {A} (c : control) (callback : Z → Z → bytes → A → A)
    (fail_callback : Z → A → A) (pnns : list Z) nodes (a : A) : cluster_nodes * Z * A :=
  match pnns with
  | [] => (nodes, 0, a)
  | pnn :: pnns =>
      let '(nodes, answer) := send_control c pnn nodes in
      let '(fails, a) :=
        match answer with
        | None => (1, fail_callback pnn a)
        | Some (res, outdata) =>
            let '(fails, a) := if negb (res =? 0) then (1, fail_callback pnn a) else (0, a) in
            (fails, callback pnn res outdata a)
        end in
      let '(nodes, fails', a) := async_loop c callback fail_callback pnns nodes a in
      (nodes, fails + fails', a)
  end.

Definition ctdb_client_async_control {A} (c : control) (callback : Z → Z → bytes → A → A)
    (fail_callback : Z → A → A) (pnns : list Z) nodes (a : A) : cluster_nodes * Z * A :=
  let '(nodes, fail_count, a) := async_loop c callback fail_callback (re_arrive env pnns) nodes a in
  (nodes, if negb (fail_count =? 0) then -1 else 0, a).

(** Without callbacks. *)
Definition async_control (c : control) (pnns : list Z) nodes : cluster_nodes * Z :=
  let '(nodes, ret, _) :=
    ctdb_client_async_control c (λ _ _ _ a, a) (λ _ a, a) pnns nodes () in
  (nodes, ret).

(** *** Pulling *)

(** The loop of [pull_one_remote_database] over the records of the reply. *)
Fixpoint merge_records (recovery_master : Z) (recs : list (bytes * bytes)) recdb : T * Z :=
  match recs with
  | [] => (recdb, 0)
  | (key, data) :: recs =>
      if Nat.ltb (length data) sizeof_header then (recdb, -1)
      else
        let store :=
          let '(recdb, ret) := tdb_store recdb key data in
          if negb (ret =? 0) then (recdb, -1) else merge_records recovery_master recs recdb in
        match tdb_lookup recdb key with
        | None => store
        | Some existing =>
            if Nat.ltb (length existing) sizeof_header then (recdb, -1)
            else if negb (supersedes recovery_master (header_of_bytes existing) (header_of_bytes data))
            then merge_records recovery_master recs recdb
            else store
        end
  end.

Definition pull_one_remote_database rec (srcnode dbid : Z) nodes recdb
    : cluster_nodes * T * Z :=
  let '(nodes, answer) := send_control (CTDB_CONTROL_PULL_DB dbid) srcnode nodes in
  match answer with
  | None => (nodes, recdb, -1)
  | Some (status, outdata) =>
      if negb (status =? 0) then (nodes, recdb, -1)
      else if Nat.ltb (length outdata) offsetof_marshall_data then (nodes, recdb, -1)
      else
        let '(recdb, ret) := merge_records (rd_recovery_master rec) (mb_records outdata) recdb in
        (nodes, recdb, ret)
  end.

Definition pull_highest_seqnum_pdb rec (nodemap : list ctdb_node_and_flags) (dbid : Z) nodes recdb
    : cluster_nodes * T * Z :=
  let pnns := list_of_active_nodes (rd_pnn rec) nodemap true in
  let '(nodes, ret, cb) := ctdb_client_async_control (CTDB_CONTROL_GET_DB_SEQNUM dbid)
    pull_seqnum_cb (λ _, pull_seqnum_fail_cb) pnns nodes (mk_seqnum_cb false (2 ^ 32 - 1) 0) in
  if negb (ret =? 0) then (nodes, recdb, -1)
  else if sc_failed cb then (nodes, recdb, -1)
  else if (sc_seqnum cb =? 0) || (sc_pnn cb =? 2 ^ 32 - 1) then (nodes, recdb, -1)
  else
    let '(nodes, recdb, ret) := pull_one_remote_database rec (sc_pnn cb) dbid nodes recdb in
    (nodes, recdb, if negb (ret =? 0) then -1 else 0).

(** The loop over the nodes; the node that failed, if any. *)
Fixpoint pull_nodes rec (nodemap : list ctdb_node_and_flags) (dbid : Z) nodes recdb
    : cluster_nodes * T * option Z :=
  match nodemap with
  | [] => (nodes, recdb, None)
  | n :: nodemap =>
      if nf_flags n &? NODE_FLAGS_INACTIVE then pull_nodes rec nodemap dbid nodes recdb
      else
        let '(nodes, recdb, ret) := pull_one_remote_database rec (nf_pnn n) dbid nodes recdb in
        if negb (ret =? 0) then (nodes, recdb, Some (nf_pnn n))
        else pull_nodes rec nodemap dbid nodes recdb
  end.

(** [now] is the time; a node that failed becomes a culprit ([None]: an access
    outside of the array of nodes). *)
Definition pull_remote_database (now : Z) rec (nodemap : list ctdb_node_and_flags) (dbid : Z)
    (persistent : bool) nodes recdb : option (cluster_nodes * T * ctdb_recoverd * Z) :=
  let '(nodes, recdb, ret) :=
    if persistent && negb (tun_recover_pdb_by_seqnum tun =? 0)
    then pull_highest_seqnum_pdb rec nodemap dbid nodes recdb else (nodes, recdb, -1) in
  if ret =? 0 then Some (nodes, recdb, rec, 0)
  else
    let '(nodes, recdb, failed) := pull_nodes rec nodemap dbid nodes recdb in
    match failed with
    | None => Some (nodes, recdb, rec, 0)
    | Some pnn =>
        rec ← ctdb_set_culprit_count tun now pnn (Z.of_nat (length nodemap)) rec;
        Some (nodes, recdb, rec, -1)
    end.

(** *** Pushing *)

(** The blob of the recovered database, [None] when the traversal failed. *)
Definition recdb_blob rec (dbid : Z) (persistent : bool) recdb : option bytes :=
  records ← tdb_traverse_read recdb;
  params ← traverse (traverse_recdb tun (rd_pnn rec) persistent) records (new_blob dbid);
  if pd_failed params then None else Some (pd_data params).

Definition push_recdb_database rec (dbid : Z) (persistent : bool) recdb
    (nodemap : list ctdb_node_and_flags) nodes : cluster_nodes * Z :=
  match recdb_blob rec dbid persistent recdb with
  | None => (nodes, -1)
  | Some outdata =>
      let pnns := list_of_active_nodes (rd_pnn rec) nodemap true in
      let '(nodes, ret) := async_control (CTDB_CONTROL_PUSH_DB outdata) pnns nodes in
      (nodes, if negb (ret =? 0) then -1 else 0)
  end.

(** A full recovery of one database. *)
Definition recover_database (now : Z) rec (dbid : Z) (persistent : bool)
    (nodemap : list ctdb_node_and_flags) (transaction_id : Z) nodes
    : option (cluster_nodes * ctdb_recoverd * Z) :=
  if negb (re_recdb env) then Some (nodes, rec, -1)
  else
    '(nodes, recdb, rec, ret) ←
      pull_remote_database now rec nodemap dbid persistent nodes tdb_create;
    if negb (ret =? 0) then Some (nodes, rec, -1)
    else
      let pnns := list_of_active_nodes (rd_pnn rec) nodemap true in
      let '(nodes, ret) :=
        async_control (CTDB_CONTROL_WIPE_DATABASE dbid transaction_id) pnns nodes in
      if negb (ret =? 0) then Some (nodes, rec, -1)
      else
        let '(nodes, ret) := push_recdb_database rec dbid persistent recdb nodemap nodes in
        Some (nodes, rec, if negb (ret =? 0) then -1 else 0).

(** The databases of the map, until one fails. *)
Fixpoint recover_databases (now : Z) rec (dbmap : list (Z * bool))
    (nodemap : list ctdb_node_and_flags) (transaction_id : Z) nodes
    : option (cluster_nodes * ctdb_recoverd * Z) :=
  match dbmap with
  | [] => Some (nodes, rec, 0)
  | (dbid, persistent) :: dbmap =>
      '(nodes, rec, ret) ← recover_database now rec dbid persistent nodemap transaction_id nodes;
      if negb (ret =? 0) then Some (nodes, rec, -1)
      else recover_databases now rec dbmap nodemap transaction_id nodes
  end.

(** Whether the map was set. *)
Definition ctdb_ctrl_setvnnmap (pnn : Z) (map : ctdb_vnn_map) nodes : cluster_nodes * bool :=
  let '(nodes, answer) := send_control (CTDB_CONTROL_SETVNNMAP map) pnn nodes in
  (nodes, match answer with Some (status, _) => status =? 0 | None => false end).

Fixpoint update_vnnmap_on_all_nodes (map : ctdb_vnn_map) (nodemap : list ctdb_node_and_flags) nodes
    : cluster_nodes * Z :=
  match nodemap with
  | [] => (nodes, 0)
  | n :: nodemap =>
      if nf_flags n &? NODE_FLAGS_INACTIVE then update_vnnmap_on_all_nodes map nodemap nodes
      else
        let '(nodes, ok) := ctdb_ctrl_setvnnmap (nf_pnn n) map nodes in
        if negb ok then (nodes, -1) else update_vnnmap_on_all_nodes map nodemap nodes
  end.

(** [num] is the number of nodes of the node map. *)
Definition transaction_start_fail_callback (now num node_pnn : Z) (rec : option ctdb_recoverd)
    : option ctdb_recoverd :=
  r ← rec; ctdb_set_culprit_count tun now node_pnn num r.

(** [do_recovery] from the first new generation to the new vnn map:
    [generation] and [generation'] are the two values of [new_generation], and
    [caps] the capabilities that [update_capabilities] reads between the commit
    and the new map, if it can. *)
Definition do_recovery_databases (now : Z) rec (vnnmap : ctdb_vnn_map)
    (generation generation' : Z) (caps : option (list Z))
    (dbmap : list (Z * bool)) (nodemap : list ctdb_node_and_flags) nodes
    : option (cluster_nodes * ctdb_recoverd * Z) :=
  let vnnmap := mk_vnn_map generation (vm_size vnnmap) (vm_map vnnmap) in
  let '(nodes, ok) := ctdb_ctrl_setvnnmap (rd_pnn rec) vnnmap nodes in
  if negb ok then Some (nodes, rec, -1) else
  let pnns := list_of_active_nodes (rd_pnn rec) nodemap true in
  let '(nodes, ret, rec') := ctdb_client_async_control (CTDB_CONTROL_TRANSACTION_START generation)
    (λ _ _ _ a, a) (transaction_start_fail_callback now (Z.of_nat (length nodemap)))
    pnns nodes (Some rec) in
  rec ← rec';
  if negb (ret =? 0) then
    let '(nodes, _) := async_control CTDB_CONTROL_TRANSACTION_CANCEL pnns nodes in
    Some (nodes, rec, -1)
  else
    '(nodes, rec, ret) ← recover_databases now rec dbmap nodemap generation nodes;
    if negb (ret =? 0) then Some (nodes, rec, -1)
    else
      let '(nodes, ret) := async_control (CTDB_CONTROL_TRANSACTION_COMMIT generation) pnns nodes in
      if negb (ret =? 0) then Some (nodes, rec, -1)
      else
        match caps with
        | None => Some (nodes, rec, -1)
        | Some caps =>
            let '(nodes, ret) := update_vnnmap_on_all_nodes
              (new_vnnmap generation' (rd_pnn rec) caps nodemap) nodemap nodes in
            Some (nodes, rec, if negb (ret =? 0) then -1 else 0)
        end.

End recovery.
