(* ===== verification/RecoveryMerge.v ===== *)
(** * The pieces of a recovery

    Blobs of records, the choice between the copies of the nodes, the controls that
    pull, and the records that are pushed. *)
From S2P Require Import Prelude Protocol Queue Marshal Ltdb Node Call Freeze Recovery.

(** ** Blobs *)

Definition kv_marshalled (kv : bytes * bytes) (r : bytes) : Prop :=
  ctdb_marshall_record 0 kv.1 None kv.2 = Some r.

(** A record that fits into an allocation. *)
Definition fits (kv : bytes * bytes) : Prop :=
  Z.of_nat offsetof_rec_data + dsize kv.1 + dsize kv.2 < MAX_TALLOC_SIZE.

Lemma kv_at kv r rest :
  kv_marshalled kv r →
  record_at 0 kv.1 kv.2 rest (r ++ rest)
  ∧ dsize r = Z.of_nat offsetof_rec_data + dsize kv.1 + dsize kv.2.
Proof. intros H. apply (marshall_record_at 0 kv.1 None kv.2 r rest); [unfold is_u32; lia|done]. Qed.

Lemma kv_fits kv : fits kv → ∃ r, kv_marshalled kv r.
Proof.
  unfold fits, kv_marshalled, ctdb_marshall_record. intros Hf.
  rewrite (proj2 (Z.leb_gt _ _)) by lia. by eexists.
Qed.

Lemma kv_marshalled_fits kv r : kv_marshalled kv r → fits kv.
Proof.
  intros H. apply (kv_at _ _ []) in H as [(_ & H & _) _]. exact H.
Qed.

Lemma records_from_spec kvs rs rest :
  Forall2 kv_marshalled kvs rs → records_from (length rs) (concat rs ++ rest) = kvs.
Proof.
  induction 1 as [|[k v] r kvs rs Hr _ IH]; [done|]. simpl. rewrite <- app_assoc.
  destruct (kv_at _ _ (concat rs ++ rest) Hr) as [Hat _].
  destruct (record_at_read _ _ _ _ _ Hat) as (_ & _ & _ & E1 & E2 & E3).
  by rewrite E1, E2, E3, IH.
Qed.

Lemma mb_records_spec id kvs rs m :
  Forall2 kv_marshalled kvs rs → buffer_of id rs m → mb_records m = kvs.
Proof.
  intros Hrs Hb. destruct (buffer_read _ _ _ Hb) as (_ & E2 & E3). unfold mb_records.
  rewrite E2, E3, Nat2Z.id, <- (app_nil_r (concat rs)). by apply records_from_spec.
Qed.

(** The blob under construction: it fits into what is allocated. *)
Definition pull_ok (id : Z) (rs : list bytes) (params : pulldb_data) : Prop :=
  buffer_of id rs (pd_data params) ∧ pd_allocated_len params < MAX_TALLOC_SIZE
  ∧ pd_failed params = false.

Definition prealloc_ok (tun : tunables) : Prop :=
  0 <= tun_pulldb_preallocation_size tun < 2 ^ 31.

Lemma pull_append_ok tun id rs params kv r params' :
  prealloc_ok tun → pull_ok id rs params → kv_marshalled kv r →
  pull_append tun r params = Some params' → pull_ok id (rs ++ [r]) params'.
Proof.
  intros Ht (Hb & Ha & Hf) Hr. pose proof (kv_marshalled_fits _ _ Hr) as Hfit.
  destruct (kv_at _ _ [] Hr) as [_ El].
  assert (dsize (pd_data params) < MAX_TALLOC_SIZE) as Hm by apply Hb.
  unfold pull_append, fits, prealloc_ok, MAX_TALLOC_SIZE, offsetof_rec_data in *.
  rewrite !u32_id by (unfold is_u32, dsize in *; lia).
  set (grow := pd_allocated_len params <=? _). set (alloc := if grow then _ else _).
  destruct (grow && (268435456 <=? alloc)) eqn:Eg; [done|]. intros E. apply (inj Some) in E.
  assert (alloc < 268435456 ∧ dsize (pd_data params) + dsize r < 268435456) as [Halloc Hsum].
  { unfold alloc, grow in *. destruct (Z.leb_spec (pd_allocated_len params)
      (dsize (pd_data params) + dsize r)); simpl in *; zbool; lia. }
  subst params'. split; [|done]. simpl. eapply buffer_append; [exact Hb| |].
  { unfold offsetof_rec_data. pose proof (Nat2Z.is_nonneg (length kv.1)).
    pose proof (Nat2Z.is_nonneg (length kv.2)). unfold dsize in *. lia. }
  unfold mb_append, MAX_TALLOC_SIZE. by rewrite (proj2 (Z.leb_gt _ _)) by lia.
Qed.

Lemma new_blob_ok id : is_u32 id → pull_ok id [] (new_blob id).
Proof. intros. split; [by apply buffer_empty|]. by split. Qed.

(** A traversal that puts some of the records, after a change, into the blob. *)
Lemma traverse_blob tun fn (pick : bytes → bytes → option bytes) id l params rs params' :
  prealloc_ok tun → pull_ok id rs params →
  (∀ k v ps, (k, v) ∈ l →
     match pick k v with
     | None => fn k v ps = Continue ps
     | Some v' =>
         fn k v ps = Abort ∨ (∃ ps', fn k v ps = Halt ps' ∧ pd_failed ps' = true)
         ∨ ∃ r ps', kv_marshalled (k, v') r ∧ pull_append tun r ps = Some ps'
                    ∧ fn k v ps = Continue ps'
     end) →
  traverse fn l params = Some params' → pd_failed params' = false →
  ∃ kvs rs', kvs = omap (λ kv, pick kv.1 kv.2 ≫= λ v, Some (kv.1, v)) l
    ∧ Forall2 kv_marshalled kvs rs' ∧ pull_ok id (rs ++ rs') params'.
Proof.
  intros Ht. revert rs params. induction l as [|[k v] l IH]; intros rs params Hp Hfn; simpl.
  { intros [= <-] _. exists [], []. rewrite app_nil_r. split_and!; try done. }
  pose proof (Hfn k v params (list_elem_of_here _ _)) as Hkv.
  assert (∀ k v ps, (k, v) ∈ l → _) as Hfn' by (intros k' v' ps Hin; apply (Hfn k' v' ps); by right).
  destruct (pick k v) as [v'|]; simpl.
  - destruct Hkv as [Ha|[(ps' & Ha & Hfail)|(r & ps' & Hr & Ha & Hc)]].
    + by rewrite Ha.
    + rewrite Ha. intros [= <-]. congruence.
    + rewrite Hc. intros Et Hf.
      destruct (IH (rs ++ [r]) ps' ltac:(by eapply pull_append_ok) Hfn' Et Hf) as (kvs & rs' & -> & H2 & H3).
      exists ((k, v') :: omap (λ kv, pick kv.1 kv.2 ≫= λ v, Some (kv.1, v)) l), (r :: rs').
      split; [done|]. split; [by constructor|]. by rewrite <- app_assoc in H3.
  - rewrite Hkv. intros Et Hf. apply (IH rs params Hp Hfn' Et Hf).
Qed.

Lemma traverse_pulldb_failed tun l params params' :
  Forall fits l → traverse (traverse_pulldb tun) l params = Some params' →
  pd_failed params' = pd_failed params.
Proof.
  intros Hl. revert params. induction Hl as [|[k v] l Hf _ IH]; intros params; simpl;
    [by intros [= <-]|].
  destruct (kv_fits _ Hf) as [r Hr]. unfold kv_marshalled in Hr. simpl in Hr.
  unfold traverse_pulldb at 1. rewrite Hr.
  destruct (pull_append tun r params) as [ps|] eqn:Ep; [|done].
  intros Et. rewrite (IH _ Et). revert Ep. unfold pull_append. case_goal; [done|].
  intros E. apply (inj Some) in E. by subst ps.
Qed.

Lemma omap_id {A} (f : A → option A) (l : list A) : (∀ x, f x = Some x) → omap f l = l.
Proof. intros Hf. induction l as [|x l IH]; [done|]. simpl. rewrite Hf. by f_equal. Qed.

Lemma pull_blob tun l id params :
  prealloc_ok tun → is_u32 id → Forall fits l →
  traverse (traverse_pulldb tun) l (new_blob id) = Some params →
  mb_records (pd_data params) = l ∧ (offsetof_marshall_data <= length (pd_data params))%nat.
Proof.
  intros Ht Hid Hl Et.
  destruct (traverse_blob tun (traverse_pulldb tun) (λ _ v, Some v) id l (new_blob id) [] params)
    as (kvs & rs & Ek & Hrs & Hb & _); [done|by apply new_blob_ok| |done| |].
  - intros k v ps Hin. rewrite Forall_forall in Hl. destruct (kv_fits _ (Hl _ Hin)) as [r Hr].
    unfold traverse_pulldb. pose proof Hr as Hr'. unfold kv_marshalled in Hr'. simpl in Hr'.
    rewrite Hr'. destruct (pull_append tun r ps) as [ps'|] eqn:Ep; [|by left]. right. right.
    by exists r, ps'.
  - by rewrite (traverse_pulldb_failed _ _ _ _ Hl Et).
  - assert (kvs = l) as ->.
    { rewrite Ek. apply omap_id. by intros []. }
    simpl in Hb. split; [by eapply mb_records_spec|].
    destruct Hb as (_ & _ & _ & ->). rewrite !length_app, !length_le_bytes.
    unfold offsetof_marshall_data. lia.
Qed.

(** ** Merging copies *)

(** The choice between what has been collected and the copy of one more node. *)
Definition merge1 (rm : Z) (old new : option bytes) : option bytes :=
  match new, old with
  | None, _ => old
  | Some d, None => Some d
  | Some d, Some e =>
      if supersedes rm (header_of_bytes e) (header_of_bytes d) then Some d else Some e
  end.

(** The copy that recovery keeps, out of those of the active nodes in order. *)
Definition best (rm : Z) (copies : list (option bytes)) : option bytes :=
  foldl (merge1 rm) None copies.

Section merge.
Context {T : Type} `{TdbLaws T, !TdbTxn T, !TdbTxnLaws T}.
Implicit Types (recdb : T) (s : freeze_ctx T).

Lemma merge_records_spec rm recs recdb recdb' :
  NoDup recs.*1 → merge_records rm recs recdb = (recdb', 0) →
  Forall (λ kv, (sizeof_header <= length kv.2)%nat) recs
  ∧ ∀ k, tdb_lookup recdb' k
         = merge1 rm (tdb_lookup recdb k) ((list_to_map recs : gmap bytes bytes) !! k).
Proof.
  revert recdb. induction recs as [|[key data] recs IH]; intros recdb Hnd; simpl.
  { intros [= <-]. split; [constructor|]. intros k. by rewrite lookup_empty. }
  apply NoDup_cons in Hnd as [Hk Hnd].
  assert ((list_to_map recs : gmap bytes bytes) !! key = None) as Hnone
    by by apply not_elem_of_list_to_map.
  destruct (Nat.ltb_spec (length data) sizeof_header) as [|Hlen]; [done|].
  assert (∀ t, merge_records rm recs t = (recdb', 0) →
    tdb_lookup t key = merge1 rm (tdb_lookup recdb key) (Some data) →
    (∀ k, k ≠ key → tdb_lookup t k = tdb_lookup recdb k) →
    Forall (λ kv, (sizeof_header <= length kv.2)%nat) ((key, data) :: recs)
    ∧ ∀ k, tdb_lookup recdb' k = merge1 rm (tdb_lookup recdb k)
        (<[key := data]> (list_to_map recs : gmap bytes bytes) !! k)) as Hgo.
  { intros t Et Hkey Hother. destruct (IH t Hnd Et) as [H1 H2]. split; [by constructor|].
    intros k. rewrite H2. destruct (decide (k = key)) as [->|Hne].
    - by rewrite Hnone, lookup_insert_eq.
    - by rewrite lookup_insert_ne, Hother by done. }
  destruct (tdb_store recdb key data) as [t r] eqn:Es.
  assert ((if negb (r =? 0) then (t, -1) else merge_records rm recs t) = (recdb', 0) →
    merge1 rm (tdb_lookup recdb key) (Some data) = Some data →
    Forall (λ kv, (sizeof_header <= length kv.2)%nat) ((key, data) :: recs)
    ∧ ∀ k, tdb_lookup recdb' k = merge1 rm (tdb_lookup recdb k)
        (<[key := data]> (list_to_map recs : gmap bytes bytes) !! k)) as Hstore.
  { case_goal; [done|]. zbool. subst r. intros Et Hm. apply (Hgo t Et).
    - by rewrite Hm, (tdb_lookup_store _ _ _ _ Es).
    - intros k Hne. by eapply tdb_lookup_store_other. }
  destruct (tdb_lookup recdb key) as [e|] eqn:Ee; [|intros Et; by apply Hstore].
  destruct (Nat.ltb_spec (length e) sizeof_header); [done|].
  destruct (supersedes _ _ _) eqn:Esup; simpl; intros Et.
  - apply Hstore; [done|]. simpl. by rewrite Esup.
  - apply (Hgo recdb Et); [|done]. rewrite Ee. simpl. by rewrite Esup.
Qed.

Lemma traverse_lookup (t : T) l k :
  tdb_traverse_read t = Some l → (list_to_map l : gmap bytes bytes) !! k = tdb_lookup t k.
Proof.
  intros Hl. apply option_eq. intros v.
  rewrite <- (elem_of_list_to_map l) by by eapply tdb_traverse_nodup.
  by apply tdb_traverse_spec.
Qed.

End merge.

(** ** Controls *)

(** The active nodes of a node map. *)
Definition active (nodemap : list ctdb_node_and_flags) : list Z :=
  nf_pnn <$> filter (λ n, (nf_flags n &? NODE_FLAGS_INACTIVE) = false) nodemap.

Lemma active_list pnn nodemap :
  Forall (λ n, 0 <= nf_pnn n < 2 ^ 32 - 1) nodemap → list_of_active_nodes pnn nodemap true = active nodemap.
Proof.
  intros Hn. unfold list_of_active_nodes, list_of_nodes, active. f_equal.
  induction Hn as [|n l Hp _ IH]; [done|]. rewrite !filter_cons, IH.
  destruct (decide (_ = false)) as [Hf|Hf]; destruct (decide (_ ∧ _)) as [Hb|Hb]; try done.
  - destruct Hb. split; [done|]. change (u32 (-1)) with (2 ^ 32 - 1). lia.
  - by destruct Hb.
Qed.

Section controls.
Context {T : Type} `{TdbLaws T, !TdbTxn T, !TdbTxnLaws T}.
Variables (tun : tunables) (env : rec_env).
Hypothesis Htun : prealloc_ok tun.
Hypothesis Harrive : ∀ l, re_arrive env l ≡ₚ l.
Implicit Types (nodes : gmap Z (freeze_ctx T)) (recdb : T) (s : freeze_ctx T).

Lemma send_control_ok c pnn nodes nodes' out :
  send_control tun env c pnn nodes = (nodes', Some (0, out)) →
  ∃ s s', nodes !! pnn = Some s ∧ dispatch tun env c s = Reply 0 out s'
          ∧ nodes' = <[pnn := s']> nodes.
Proof.
  unfold send_control. destruct (nodes !! pnn) as [s|] eqn:Es; [|done].
  destruct (re_fate env c pnn); [|done|destruct (dispatch tun env c s); done].
  destruct (dispatch tun env c s) as [status outdata s'|] eqn:Ed; [|done].
  intros [= <- -> ->]. by exists s, s'.
Qed.

Lemma async_loop_ok {A} c (cb : Z → Z → bytes → A → A) fcb pnns nodes a nodes' fails a' :
  async_loop tun env c cb fcb pnns nodes a = (nodes', fails, a') →
  0 <= fails ∧ (fails = 0 → NoDup pnns →
    (∀ n, n ∈ pnns → ∃ s out s', nodes !! n = Some s ∧ dispatch tun env c s = Reply 0 out s'
                                 ∧ nodes' !! n = Some s')
    ∧ (∀ n, n ∉ pnns → nodes' !! n = nodes !! n)).
Proof.
  revert nodes a fails. induction pnns as [|p pnns IH]; intros nodes a fails; simpl.
  { intros [= <- <- <-]. split; [lia|]. intros _ _. split; [set_solver|done]. }
  destruct (send_control tun env c p nodes) as [nodes1 answer] eqn:Es.
  set (fa := match answer with None => _ | Some _ => _ end). destruct fa as [f1 a1] eqn:Ef.
  destruct (async_loop _ _ _ _ _ _ _ _) as [[nodes2 f2] a2] eqn:El. intros [= <- <- <-].
  destruct (IH _ _ _ El) as [Hf2 Hok].
  assert (0 <= f1 ∧ (f1 = 0 → ∃ out, answer = Some (0, out))) as [Hf1 Hans].
  { unfold fa in Ef. destruct answer as [[res out]|]; [|simplify_eq; split; lia].
    destruct (Z.eqb_spec res 0) as [->|]; simpl in Ef; simplify_eq; split; try lia. by eexists. }
  split; [lia|]. intros Hsum Hnd. apply NoDup_cons in Hnd as [Hp Hnd].
  assert (f1 = 0 ∧ f2 = 0) as [-> ->] by lia. destruct (Hans eq_refl) as [out ->].
  apply send_control_ok in Es as (s & s' & E1 & E2 & ->).
  destruct (Hok eq_refl Hnd) as [H1 H2]. split.
  - intros n [->|Hn]%elem_of_cons.
    + exists s, out, s'. rewrite H2 by done. by rewrite lookup_insert_eq.
    + destruct (H1 n Hn) as (s1 & o1 & s1' & E3 & E4 & E5). exists s1, o1, s1'. split_and!; try done.
      rewrite lookup_insert_ne in E3; [done|]. by intros ->.
  - intros n [Hne Hn]%not_elem_of_cons. by rewrite H2, lookup_insert_ne by done.
Qed.

(** Without failures the failure callback is not called. *)
Lemma async_loop_no_failure {A} c (fcb : Z → A → A) pnns nodes (a : A) :
  let '(nodes', n, a') := async_loop tun env c (λ _ _ _ a, a) fcb pnns nodes a in
  0 <= n ∧ (n = 0 → a' = a)
  ∧ async_loop tun env c (λ _ _ _ a, a) (λ _ a, a) pnns nodes () = (nodes', n, ()).
Proof.
  revert nodes a. induction pnns as [|pnn pnns IH]; intros nodes a; [by split_and!|]. cbn [async_loop].
  destruct (send_control _ _ _ _ _) as [nodes1 answer].
  assert (∃ n1 a1, 0 <= n1 ∧ (n1 = 0 → a1 = a) ∧
    (match answer with
     | None => (1, fcb pnn a)
     | Some (res, outdata) =>
         let '(fails, a) := if negb (res =? 0) then (1, fcb pnn a) else (0, a) in (fails, a)
     end = (n1, a1)) ∧
    (match answer with
     | None => (1, ())
     | Some (res, outdata) =>
         let '(fails, a) := if negb (res =? 0) then (1, ()) else (0, ()) in (fails, a)
     end = (n1, ()))) as (n1 & a1 & Hn1 & Ha1 & -> & ->).
  { destruct answer as [[res out]|]; [destruct (res =? 0)|]; cbn [negb]; eexists _, _;
      (split_and!; [| |reflexivity..]); by try lia. }
  specialize (IH nodes1 a1). destruct (async_loop _ _ _ _ fcb _ _ _) as [[nodes' n] a'].
  destruct IH as (Hn & Ha & ->). split_and!; [lia| |done]. intros ?. rewrite Ha by lia. apply Ha1. lia.
Qed.

Lemma async_no_failure {A} c (fcb : Z → A → A) pnns nodes nodes' (a a' : A) :
  ctdb_client_async_control tun env c (λ _ _ _ a, a) fcb pnns nodes a = (nodes', 0, a') →
  a' = a ∧ async_control tun env c pnns nodes = (nodes', 0).
Proof.
  unfold async_control, ctdb_client_async_control.
  pose proof (async_loop_no_failure c fcb (re_arrive env pnns) nodes a) as Hl.
  destruct (async_loop _ _ _ _ fcb _ _ _) as [[nodes1 n] a1]. destruct Hl as (_ & Ha & ->).
  destruct (Z.eqb_spec n 0) as [->|]; [|done]. cbn [negb]. intros [= <- <-]. auto.
Qed.

Lemma async_control_ok c pnns nodes nodes' :
  NoDup pnns → async_control tun env c pnns nodes = (nodes', 0) →
  (∀ n, n ∈ pnns → ∃ s out s', nodes !! n = Some s ∧ dispatch tun env c s = Reply 0 out s'
                               ∧ nodes' !! n = Some s')
  ∧ (∀ n, n ∉ pnns → nodes' !! n = nodes !! n).
Proof.
  intros Hnd. unfold async_control, ctdb_client_async_control.
  destruct (async_loop _ _ _ _ _ _ _ _) as [[nodes1 f] a] eqn:El.
  apply async_loop_ok in El as [Hf Hok]. destruct (Z.eqb_spec f 0) as [->|]; [|done].
  simpl. intros [= <-]. destruct (Hok eq_refl) as [H1 H2]; [by rewrite Harrive|].
  split; intros n; rewrite <- (Harrive pnns); auto.
Qed.

(** *** Pulling *)

(** The copy of a record on a node. *)
Definition copy (id : Z) (k : bytes) nodes (n : Z) : option bytes :=
  s ← nodes !! n; db ← find_db id (fx_dbs s); tdb_lookup (db_ltdb db) k.

(** The records of a database fit into allocations. *)
Definition records_fit (id : Z) nodes : Prop :=
  ∀ n k v, copy id k nodes n = Some v → fits (k, v).

(** A node that has the database, each record with a header. *)
Definition has_db (id : Z) nodes (n : Z) : Prop :=
  ∃ s db, nodes !! n = Some s ∧ find_db id (fx_dbs s) = Some db
  ∧ ∀ k v, tdb_lookup (db_ltdb db) k = Some v → (sizeof_header <= length v)%nat.

Lemma pull_one_ok rec n id nodes recdb nodes' recdb' :
  is_u32 id → records_fit id nodes →
  pull_one_remote_database tun env rec n id nodes recdb = (nodes', recdb', 0) →
  nodes' = nodes ∧ has_db id nodes n
  ∧ ∀ k, tdb_lookup recdb' k
         = merge1 (rd_recovery_master rec) (tdb_lookup recdb k) (copy id k nodes n).
Proof.
  intros Hid Hfit. unfold pull_one_remote_database.
  destruct (send_control _ _ _ _ _) as [nodes1 answer] eqn:Es. destruct answer as [[st out]|]; [|done].
  destruct (Z.eqb_spec st 0) as [->|]; [|done]. simpl.
  apply send_control_ok in Es as (s & s' & E1 & E2 & ->). simpl in E2.
  unfold ctdb_control_pull_db in E2.
  destruct (find_db id (fx_dbs s)) as [db|] eqn:Ed; [|done].
  case_hyp E2; [done|]. case_hyp E2; [done|].
  destruct (tdb_traverse_read (db_ltdb db)) as [l|] eqn:El; [|done].
  destruct (traverse _ l _) as [params|] eqn:Et; [|done]. injection E2 as <- <-.
  assert (∀ k, copy id k nodes n = tdb_lookup (db_ltdb db) k) as Hcopy.
  { intros k. unfold copy. rewrite E1. simpl. by rewrite Ed. }
  apply pull_blob in Et as [Er Hlen]; [|done|done|].
  2:{ apply Forall_forall. intros [k v] Hin. apply (Hfit n). rewrite Hcopy.
      by apply (tdb_traverse_spec _ _ _ _ El). }
  rewrite (proj2 (Nat.ltb_ge _ _)) by done. rewrite Er.
  destruct (merge_records _ _ _) as [t ret] eqn:Em. intros [= <- <- ->].
  apply merge_records_spec in Em as [Hh Hm]; [|by eapply tdb_traverse_nodup].
  split; [by apply insert_id|]. split.
  - exists s, db. split_and!; try done. intros k v Hkv. rewrite Forall_forall in Hh.
    apply (Hh (k, v)). by apply (tdb_traverse_spec _ _ _ _ El).
  - intros k. by rewrite Hm, Hcopy, (traverse_lookup (db_ltdb db)).
Qed.

Lemma pull_nodes_ok rec nodemap id nodes recdb nodes' recdb' :
  is_u32 id → records_fit id nodes →
  pull_nodes tun env rec nodemap id nodes recdb = (nodes', recdb', None) →
  nodes' = nodes ∧ Forall (has_db id nodes) (active nodemap)
  ∧ ∀ k, tdb_lookup recdb' k = foldl (merge1 (rd_recovery_master rec)) (tdb_lookup recdb k)
                                 (copy id k nodes <$> active nodemap).
Proof.
  intros Hid Hfit. revert recdb. induction nodemap as [|n nodemap IH]; intros recdb; simpl.
  { intros [= <- <-]. by split_and!. }
  unfold active. rewrite filter_cons.
  destruct (nf_flags n &? NODE_FLAGS_INACTIVE) eqn:Ef; [apply IH|].
  destruct (pull_one_remote_database _ _ _ _ _ _ _) as [[nodes1 t] ret] eqn:Ep.
  destruct (Z.eqb_spec ret 0) as [->|]; [|done]. simpl.
  apply pull_one_ok in Ep as (-> & Hh & Hm); [|done|done]. intros E.
  destruct (IH _ E) as (-> & Hhs & Hms). split_and!; [done|by constructor|].
  intros k. by rewrite Hms, Hm.
Qed.

End controls.

(** ** Pushing *)

(** What goes out of the recovered database: not the empty records of a volatile
    one. *)
Definition pushed (pnn : Z) (persistent : bool) (v : bytes) : option bytes :=
  if negb persistent && Nat.leb (length v) sizeof_header then None
  else Some (recdb_record pnn persistent v).

Lemma recdb_traverse tun pnn persistent id l params :
  prealloc_ok tun → is_u32 id →
  traverse (traverse_recdb tun pnn persistent) l (new_blob id) = Some params →
  pd_failed params = false →
  mb_records (pd_data params)
    = omap (λ kv, pushed pnn persistent kv.2 ≫= λ v, Some (kv.1, v)) l
  ∧ mb_db_id (pd_data params) = id ∧ (offsetof_marshall_data <= length (pd_data params))%nat.
Proof.
  intros Ht Hid Et Hf.
  destruct (traverse_blob tun (traverse_recdb tun pnn persistent) (λ _ v, pushed pnn persistent v)
    id l (new_blob id) [] params) as (kvs & rs & Ek & Hrs & Hb & _);
    [done|by apply new_blob_ok| |done|done|].
  - intros k v ps _. unfold pushed, traverse_recdb. case_goal; [done|].
    destruct (ctdb_marshall_record _ _ _ _) as [r|] eqn:Er; [|right; left; by eexists].
    destruct (pull_append tun r ps) as [ps'|] eqn:Ep; [|right; left; by eexists].
    right. right. by exists r, ps'.
  - simpl in Hb. rewrite <- Ek. split; [by eapply mb_records_spec|].
    destruct (buffer_read _ _ _ Hb) as (E1 & _ & _). split; [done|].
    destruct Hb as (_ & _ & _ & ->). rewrite !length_app, !length_le_bytes.
    unfold offsetof_marshall_data. lia.
Qed.

(** Picking records by their content keeps the keys apart. *)
Lemma omap_keys (f : bytes → option bytes) (l : list (bytes * bytes)) :
  NoDup l.*1 →
  NoDup (omap (λ kv, f kv.2 ≫= λ v, Some (kv.1, v)) l).*1
  ∧ ∀ k, (list_to_map (omap (λ kv, f kv.2 ≫= λ v, Some (kv.1, v)) l) : gmap bytes bytes) !! k
         = (list_to_map l : gmap bytes bytes) !! k ≫= f.
Proof.
  induction l as [|[k v] l IH]; simpl; intros Hnd.
  { split; [constructor|]. intros k. by rewrite !lookup_empty. }
  apply NoDup_cons in Hnd as [Hk Hnd]. destruct (IH Hnd) as [H1 H2].
  assert ((list_to_map l : gmap bytes bytes) !! k = None) as Hnone
    by by apply not_elem_of_list_to_map.
  destruct (f v) as [w|] eqn:Ef; simpl.
  - split.
    + apply NoDup_cons. split; [|done].
      intros Hin. apply list_elem_of_fmap in Hin as ([k' w'] & -> & Hin).
      apply list_elem_of_omap in Hin as ([k'' v''] & Hin & E). simpl in E.
      destruct (f v''); simplify_eq/=. apply Hk. apply list_elem_of_fmap. eexists (_, v''). split; [|done]. done.
    + intros k'. destruct (decide (k' = k)) as [->|];
        [by rewrite !lookup_insert_eq|by rewrite !lookup_insert_ne by done].
  - split; [done|]. intros k'. rewrite H2. destruct (decide (k' = k)) as [->|];
      [by rewrite lookup_insert_eq, Hnone|by rewrite lookup_insert_ne by done].
Qed.

(** A record of a volatile database as it goes out. *)
Lemma recdb_record_spec pnn v :
  is_u32 pnn → Forall is_u8 v → (sizeof_header <= length v)%nat →
  let d := recdb_record pnn false v in
  length d = length v ∧ drop sizeof_header d = drop sizeof_header v ∧ Forall is_u8 d
  ∧ dmaster (header_of_bytes d) = pnn ∧ rsn (header_of_bytes d) = rsn (header_of_bytes v).
Proof.
  intros Hp Hv Hl. unfold recdb_record. set (v1 := set32 8 pnn v).
  assert (length v1 = length v) as El by (apply length_set32; unfold sizeof_header in Hl; lia).
  pose proof (header_of_bytes_ok v Hv Hl) as (_ & _ & _ & Hfl).
  assert (is_u32 (get32 16 v |+ CTDB_REC_FLAG_MIGRATED_WITH_DATA)) as Hf.
  { apply (lor_range 32); [lia|exact Hfl|]. unfold CTDB_REC_FLAG_MIGRATED_WITH_DATA. lia. }
  cbv zeta. rewrite header_set_flags by (try done; lia). unfold v1. rewrite header_set_dmaster by done.
  unfold sizeof_header in *. split_and!.
  - by rewrite length_set32 by (fold v1; lia).
  - by rewrite !drop_set32 by (fold v1; lia).
  - by apply set32_u8, set32_u8.
  - done.
  - done.
Qed.

Section push.
Context {T : Type} `{TdbLaws T, !TdbTxn T, !TdbTxnLaws T}.
Implicit Types (db : ctdb_db_context T) (s : freeze_ctx T).

(** What a push leaves of a record [d] of the blob. *)
Definition stored_record (lc : ltdb_ctx) db db' (k d : bytes) : Prop :=
  (sizeof_header <= length d)%nat ∧
  ∃ h, tdb_fetch (db_ltdb db') k = header_bytes h ++ drop sizeof_header d ∧ header_ok h
  ∧ dmaster h = dmaster (header_of_bytes d)
  ∧ (flags h &? CTDB_REC_RO_FLAGS) = false
  ∧ (drop sizeof_header d ≠ [] →
     rsn h = if negb (db_persistent db) && (lc_pnn lc =? dmaster (header_of_bytes d))
             then u64 (rsn (header_of_bytes d) + 1) else rsn (header_of_bytes d)).

(** Only the record store of a database changes. *)
Definition same_db db db' : Prop := ∃ t q c, db' = ltdb_write db t q c.

Lemma same_db_trans db1 db2 db3 : same_db db1 db2 → same_db db2 db3 → same_db db1 db3.
Proof. intros (t & q & c & ->) (t' & q' & c' & ->). by exists t', q', c'. Qed.

Lemma ro_cleared f m m' : (((f &~ CTDB_REC_RO_FLAGS) &~ m) &~ m' &? CTDB_REC_RO_FLAGS) = false.
Proof.
  apply has_flag_false. apply Z.bits_inj'. intros i Hi.
  rewrite Z.land_spec, !Z.ldiff_spec, Z.bits_0.
  by destruct (Z.testbit f i), (Z.testbit CTDB_REC_RO_FLAGS i), (Z.testbit m i), (Z.testbit m' i).
Qed.

Lemma store_keep_kept lc db vm k h data :
  data ≠ [] ∨ db_persistent db = true → (store_keep lc db vm k h data).1 = true.
Proof.
  intros [Hne|Hne]; [by rewrite store_keep_data|].
  unfold store_keep. rewrite Hne. by repeat case_goal.
Qed.

Lemma push_store lc vm db k d ret h db' :
  lc_vnn_map lc = Some vm → db_server_store db = true →
  Forall is_u8 d → (sizeof_header <= length d)%nat →
  drop sizeof_header d ≠ [] ∨ db_persistent db = true →
  ctdb_ltdb_store lc db k
    (set_flags (header_of_bytes d) (flags (header_of_bytes d) &~ CTDB_REC_RO_FLAGS))
    (drop sizeof_header d) = (ret, h, db') →
  same_db db db' ∧ (∀ k', k' ≠ k → tdb_fetch (db_ltdb db') k' = tdb_fetch (db_ltdb db) k')
  ∧ (ret = 0 → stored_record lc db db' k d).
Proof.
  intros Hvm Hs Hu8 Hl Hne. unfold ctdb_ltdb_store. rewrite Hs. intros E. pose proof E as E0.
  apply (store_server_inv _ vm) in E as (E1 & _ & E3 & Hd & Hf & Hok & Hw); [|done].
  split_and!; [exact Hw|exact E3|]. intros ->. specialize (E1 eq_refl).
  pose proof (header_of_bytes_ok d Hu8 Hl) as Hhd.
  rewrite store_keep_kept in E1 by done.
  split; [done|]. exists h. split_and!; [done|by apply Hok, set_flags_ok|done| |].
  - rewrite Hf. apply ro_cleared.
  - intros Hdata. apply (store_server_tdb _ vm) in E0 as (t & _ & _ & ->); [|done..].
    unfold store_bump. simpl. rewrite has_flag_ldiff_self, andb_true_r. by case_goal.
Qed.

Lemma push_records_ok lc vm recs db db' :
  lc_vnn_map lc = Some vm → db_server_store db = true → NoDup recs.*1 →
  Forall (λ kv, Forall is_u8 kv.2 ∧ (drop sizeof_header kv.2 ≠ [] ∨ db_persistent db = true)) recs →
  push_records lc recs db = (0, db') →
  same_db db db' ∧ ∀ k,
    match (list_to_map recs : gmap bytes bytes) !! k with
    | None => tdb_fetch (db_ltdb db') k = tdb_fetch (db_ltdb db) k
    | Some d => stored_record lc db db' k d
    end.
Proof.
  intros Hvm. revert db. induction recs as [|[k d] recs IH]; intros db Hs Hnd Hrecs; simpl.
  { intros [= <-]. split; [|by intros k; rewrite lookup_empty].
    eexists _, _, _. symmetry. apply ltdb_write_id. }
  apply NoDup_cons in Hnd as [Hk Hnd]. apply Forall_cons in Hrecs as [[Hu8 Hne] Hrecs].
  destruct (Nat.ltb_spec (length d) sizeof_header) as [|Hl]; [done|].
  destruct (ctdb_ltdb_store _ _ _ _ _) as [[ret h] db1] eqn:Est.
  destruct (push_store lc vm db k d ret h db1) as (Hsame & Hother & Hst); try done.
  destruct (Z.eqb_spec ret 0) as [->|]; [|done]. simpl. intros Ep.
  destruct Hsame as (t & q & c & ->).
  destruct (IH (ltdb_write db t q c)) as [Hsame' Hrec]; [done..|].
  split; [eapply same_db_trans; [by eexists _, _, _|exact Hsame']|].
  intros k'. destruct (decide (k' = k)) as [->|Hk'].
  - rewrite lookup_insert_eq. specialize (Hrec k).
    rewrite (proj1 (not_elem_of_list_to_map _ _) Hk) in Hrec.
    destruct (Hst eq_refl) as (Hlen & h' & E1 & E2). split; [done|]. exists h'. by rewrite Hrec.
  - rewrite lookup_insert_ne by done. specialize (Hrec k').
    destruct (list_to_map recs !! k'); [exact Hrec|]. by rewrite Hrec, Hother.
Qed.

End push.

(** ** A database after recovery *)

Lemma merge1_max rm old new v :
  merge1 rm old new = Some v →
  (old = Some v ∨ new = Some v)
  ∧ ∀ w, old = Some w ∨ new = Some w → rsn (header_of_bytes w) <= rsn (header_of_bytes v).
Proof.
  unfold merge1. destruct new as [d|], old as [e|]; 
    [|intros [= <-]; split; [auto|]; intros w [Hw|Hw]; [done|]; injection Hw as <-; lia
    |intros [= <-]; split; [auto|]; intros w [Hw|Hw]; [|done]; injection Hw as <-; lia|done].
  unfold supersedes. destruct (Z.ltb_spec (rsn (header_of_bytes e)) (rsn (header_of_bytes d)));
    [|destruct (Z.eqb_spec (rsn (header_of_bytes e)) (rsn (header_of_bytes d)));
      [destruct (negb _)|rewrite andb_false_r]]; cbn [orb andb];
    intros [= <-]; split; auto; intros w [Hw|Hw]; injection Hw as <-; lia.
Qed.

Lemma best_max rm copies v :
  best rm copies = Some v →
  Some v ∈ copies ∧ ∀ w, Some w ∈ copies → rsn (header_of_bytes w) <= rsn (header_of_bytes v).
Proof.
  unfold best.
  assert (∀ acc, foldl (merge1 rm) acc copies = Some v →
    (acc = Some v ∨ Some v ∈ copies)
    ∧ ∀ w, acc = Some w ∨ Some w ∈ copies → rsn (header_of_bytes w) <= rsn (header_of_bytes v))
    as Hgo.
  { induction copies as [|c copies IH]; intros acc; simpl.
    - intros ->. split; [by left|]. intros w [[= <-]|Hw]; [done|by apply elem_of_nil in Hw].
    - intros E. destruct (IH _ E) as [H1 H2]. split.
      + destruct H1 as [H1|H1]; [|right; by right].
        apply merge1_max in H1 as [[?|Hc] _]; [by left|right].
        rewrite Hc. apply list_elem_of_here.
      + intros w Hw. destruct (decide (Some w ∈ copies)) as [Hin|Hin]; [by apply H2; right|].
        assert (acc = Some w ∨ c = Some w) as Hw'.
        { destruct Hw as [?|Hw]; [by left|]. apply elem_of_cons in Hw as [?|?]; [by right|done]. }
        destruct (merge1 rm acc c) as [u|] eqn:Eu.
        * apply merge1_max in Eu as [_ Hu]. etrans; [exact (Hu w Hw')|].
          exact (H2 u (or_introl eq_refl)).
        * exfalso. destruct acc, c; simpl in Eu; try done; [by destruct (supersedes _ _ _)|].
          by destruct Hw'. }
  intros E. destruct (Hgo None E) as [H1 H2]. split; [by destruct H1|]. intros w Hw. apply H2. by right.
Qed.

Lemma best_none rm copies : best rm copies = None ↔ ∀ c, c ∈ copies → c = None.
Proof.
  unfold best.
  assert (∀ acc, foldl (merge1 rm) acc copies = None ↔ acc = None ∧ ∀ c, c ∈ copies → c = None) as Hgo.
  { induction copies as [|c copies IH]; intros acc; simpl.
    - split; [intros ->; split; [done|intros c Hc; by apply elem_of_nil in Hc]|by intros [? _]].
    - rewrite IH. split.
      + intros [Hm Hc]. destruct acc, c; simpl in Hm; try done; [by destruct (supersedes _ _ _)|].
        split; [done|]. intros c [->|Hin]%elem_of_cons; auto.
      + intros [-> Hc]. rewrite (Hc c) by by left. split; [done|]. intros c' Hin. apply Hc. by right. }
  rewrite Hgo. split; [by intros []|by split].
Qed.

Section nodes.
Context {T : Type} `{TdbLaws T, !TdbTxn T, !TdbTxnLaws T}.
Implicit Types (db : ctdb_db_context T) (s : freeze_ctx T) (nodes : gmap Z (freeze_ctx T)).

(** What a control on a database keeps: everything about the other databases. *)
Definition same_node (id : Z) s s' : Prop :=
  cx_pnn (fx_ctdb s') = cx_pnn (fx_ctdb s)
  ∧ ∀ id', id' ≠ id → find_db id' (fx_dbs s') = find_db id' (fx_dbs s).

Lemma same_node_trans id s1 s2 s3 : same_node id s1 s2 → same_node id s2 s3 → same_node id s1 s3.
Proof. intros [A1 A2] [B1 B2]. split; [congruence|]. intros id' Hne. by rewrite B2, A2. Qed.

(** The nodes that take part: their records are byte strings that fit into
    allocations, and their stores are those of the daemon. *)
Record participants (id : Z) (persistent : bool) nodes : Prop := mk_parts {
  pt_fit : records_fit id nodes;
  pt_pnn n s : nodes !! n = Some s → cx_pnn (fx_ctdb s) = n;
  pt_db n s db : nodes !! n = Some s → find_db id (fx_dbs s) = Some db →
    db_ok db ∧ db_server_store db = true ∧ db_persistent db = persistent;
}.
(** The record that recovery keeps of the copies on the active nodes. *)
Definition kept (rm id : Z) nodes (nodemap : list ctdb_node_and_flags) (k : bytes) : option bytes :=
  best rm (copy id k nodes <$> active nodemap).

(** The records of the temporary database come from the nodes. *)
Lemma copy_ok id persistent nodes n k v :
  participants id persistent nodes → has_db id nodes n → copy id k nodes n = Some v →
  Forall is_u8 v ∧ (sizeof_header <= length v)%nat.
Proof.
  intros Hpart (s & db & E1 & E2 & Hlen) Hc. unfold copy in Hc. rewrite E1 in Hc.
  cbn [mbind option_bind] in Hc. rewrite E2 in Hc. cbn [mbind option_bind] in Hc.
  destruct (pt_db _ _ _ Hpart n s db E1 E2) as (Hok & _). split; [|by apply (Hlen k)].
  specialize (Hok k). by rewrite tdb_fetch_lookup, Hc in Hok.
Qed.
End nodes.
