(* ===== verification/RecoverySeqnum.v ===== *)
(** * Choosing a persistent database by its sequence number

    With the tunable [RecoverPDBBySeqNum] (which is set by default) a persistent
    database is taken as a whole from the node that reports the highest sequence
    number; record by record, like a volatile one, only when that fails or no node
    reports a number.  Asking for the number may leave an empty record under the key
    of the sequence number. *)
From S2P Require Import Prelude Protocol Queue Marshal Ltdb Node Call Freeze Recovery RecoveryMerge.

(** RSN and data of a copy; a missing record or one without a header has none. *)
Definition copy_view (c : option bytes) : Z * bytes :=
  match c with
  | Some v => if Nat.ltb (length v) sizeof_header then (0, []) else (rsn (header_of_bytes v), drop sizeof_header v)
  | None => (0, [])
  end.
Definition has_header (c : option bytes) : Prop := ∃ v, c = Some v ∧ (sizeof_header <= length v)%nat.
(** The number a node reports for a record under [CTDB_DB_SEQNUM_KEY]: the lowest
    byte. *)
Definition reported_seqnum (c : option bytes) : Z :=
  let data := (copy_view c).2 in if dsize data =? 8 then le_val data mod 256 else 0.

Section seqnum.
Context {T : Type} `{TdbLaws T, !TdbTxn T, !TdbTxnLaws T}.
Variables (tun : tunables) (env : rec_env).
Implicit Types (db : ctdb_db_context T) (s : freeze_ctx T) (nodes : gmap Z (freeze_ctx T)) (recdb : T).
Local Abbreviation KEY := CTDB_DB_SEQNUM_KEY.

(** ** One node *)

Record db_touched db db' : Prop := {
  dt_id : db_id db' = db_id db;
  dt_persistent : db_persistent db' = db_persistent db;
  dt_store : db_server_store db' = db_server_store db;
  dt_other k : k ≠ KEY → tdb_lookup (db_ltdb db') k = tdb_lookup (db_ltdb db) k;
  dt_view : copy_view (tdb_lookup (db_ltdb db') KEY) = copy_view (tdb_lookup (db_ltdb db) KEY);
  dt_small : tdb_lookup (db_ltdb db') KEY = tdb_lookup (db_ltdb db) KEY
    ∨ ∀ v, tdb_lookup (db_ltdb db') KEY = Some v → length v = sizeof_header ∧ Forall is_u8 v;
  dt_same : has_header (tdb_lookup (db_ltdb db) KEY) → db' = db;
}.

Lemma touched_refl db : db_touched db db.
Proof. split; try done. by left. Qed.

Lemma short_view (c : option bytes) : (length (default [] c) < sizeof_header)%nat → copy_view c = (0, []).
Proof. destruct c as [v|]; [|done]. cbn [default copy_view]. intros Hl. by rewrite (proj2 (Nat.ltb_lt _ _)). Qed.
Lemma short_no_header (c : option bytes) : (length (default [] c) < sizeof_header)%nat → ¬ has_header c.
Proof. intros Hl (v & -> & Hv). cbn in Hl. lia. Qed.
Lemma initial_view vm key : copy_view (Some (header_bytes (clean (ltdb_initial_header vm key)) ++ [])) = (0, []).
Proof.
  cbn [copy_view]. rewrite app_nil_r, length_header_bytes. rewrite (proj2 (Nat.ltb_ge _ _)) by lia. rewrite drop_ge by (by rewrite length_header_bytes). by f_equal.
Qed.

(** The fetch of the number. *)
Lemma fetch_seqnum lc vm db h0 ret h data db' :
  lc_vnn_map lc = Some vm → db_persistent db = true → db_server_store db = true → Forall is_u8 (tdb_fetch (db_ltdb db) KEY) →
  ctdb_ltdb_fetch lc db KEY h0 = (ret, h, data, db') →
  ret = 0 ∧ data = (copy_view (tdb_lookup (db_ltdb db) KEY)).2 ∧ db_touched db db'.
Proof.
  intros Hvm Hp Hss Hu. unfold ctdb_ltdb_fetch. rewrite Hvm.
  assert (tdb_fetch (db_ltdb db) KEY = default [] (tdb_lookup (db_ltdb db) KEY)) as Ef by apply tdb_fetch_lookup.
  destruct (Nat.ltb_spec (length (tdb_fetch (db_ltdb db) KEY)) sizeof_header) as [Hl|Hl].
  - rewrite Hp. cbn [orb]. destruct (ctdb_ltdb_store _ _ _ _ _) as [[r h1] d] eqn:E. intros [= <- <- <- <-]. rewrite Ef in Hl.
    split; [done|]. split; [by rewrite short_view|]. unfold ctdb_ltdb_store in E. rewrite Hss in E. pose proof (store_server_clean _ _ _ _ _ _ _ _ _ Hvm Hp E) as ->.
    apply (store_server_run _ vm) in E as (t & q & c & Et & -> & _); [|done]. rewrite persistent_keep in Et by done.
    set (sup := seqnum_unmodified _ _ _) in *. set (t0 := if sup then _ else _) in Et.
    assert (∀ k, tdb_lookup t0 k = tdb_lookup (db_ltdb db) k) as Hl0 by (intros k; unfold t0; destruct sup; [apply tdb_lookup_set_flag|done]).
    set (t1 := if sup then tdb_set_seqnum_flag t true else t). assert (∀ k, tdb_lookup t1 k = tdb_lookup t k) as Hl1 by (intros k; unfold t1; destruct sup; [apply tdb_lookup_set_flag|done]).
    assert (tdb_lookup t1 KEY = tdb_lookup (db_ltdb db) KEY ∨ tdb_lookup t1 KEY = None ∨ tdb_lookup t1 KEY = Some (header_bytes (clean (ltdb_initial_header vm KEY)) ++ [])) as Hkey.
    { rewrite Hl1. destruct (decide (r = 0)) as [->|Hr]; [right; right; by eapply tdb_lookup_store|]. rewrite <- Hl0. destruct (tdb_lookup_store_fail _ _ _ _ _ Et Hr); auto. }
    split; try done; cbn.
    + intros k Hne. rewrite Hl1, <- Hl0. by eapply tdb_lookup_store_other.
    + rewrite (short_view (tdb_lookup (db_ltdb db) KEY)) by done. destruct Hkey as [-> |[-> | ->]]; [by apply short_view|done|apply initial_view].
    + destruct Hkey as [-> |[-> | ->]]; [by left|by right|]. right. intros v Ev. apply (inj Some) in Ev as <-. rewrite length_app, length_header_bytes. split; [apply Nat.add_0_r|]. apply Forall_app. split; [apply header_bytes_u8|constructor].
    + intros Hh. by apply short_no_header in Hh.
  - intros [= <- <- <- <-]. split; [done|]. split; [|apply touched_refl]. rewrite Ef in *. destruct (tdb_lookup (db_ltdb db) KEY) as [v|]; [|cbn in Hl; unfold sizeof_header in Hl; lia].
    cbn [default copy_view] in *. by rewrite (proj2 (Nat.ltb_ge (length v) sizeof_header) Hl).
Qed.

Definition node_touched (id : Z) s s' : Prop :=
  same_node id s s' ∧
  match find_db id (fx_dbs s), find_db id (fx_dbs s') with
  | Some db, Some db' => db_touched db db' ∧ (has_header (tdb_lookup (db_ltdb db) KEY) → s' = s)
  | None, None => s' = s
  | _, _ => False
  end.
Lemma node_touched_refl id s : node_touched id s s.
Proof. split; [done|]. destruct (find_db id (fx_dbs s)); [|done]. split; [apply touched_refl|done]. Qed.

Lemma put_same db (l : list (ctdb_db_context T)) : find_db (db_id db) l = Some db → put_db db l = l.
Proof.
  induction l as [|d l IH]; simpl; [done|]. destruct (Z.eqb_spec (db_id d) (db_id db)) as [E|E]; [by intros [= ->]|]. intros Hf. by rewrite IH.
Qed.

Lemma get_seqnum_ok id s :
  (∀ db, find_db id (fx_dbs s) = Some db → db_ok db ∧ db_server_store db = true ∧ db_persistent db = true) →
  ∃ status out s', dispatch tun env (CTDB_CONTROL_GET_DB_SEQNUM id) s = Reply status out s' ∧ node_touched id s s'
  ∧ match find_db id (fx_dbs s) with
    | None => status = -1
    | Some db => status = 0 ∧ dsize out = 8 ∧ le_val out = reported_seqnum (tdb_lookup (db_ltdb db) KEY)
    end.
Proof.
  intros Hdb. cbn [dispatch]. unfold ctdb_control_get_db_seqnum, ctdb_get_db_seqnum. destruct (find_db id (fx_dbs s)) as [db|] eqn:Ed.
  2:{ eexists _, _, _. split; [reflexivity|]. split; [apply node_touched_refl|done]. }
  destruct (Hdb db eq_refl) as (Hok & Hss & Hp). destruct (ctdb_ltdb_fetch _ _ _ _) as [[[ret h] data] db'] eqn:Ef.
  apply (fetch_seqnum _ (cx_vnn_map (fx_ctdb s))) in Ef as (-> & Hdata & Ht); [|done..|apply Hok]. cbn [negb Z.eqb].
  set (s' := set_fx_dbs s (put_db db' (fx_dbs s))). pose proof (find_db_id _ _ _ Ed) as Hid.
  assert (node_touched id s s') as Hnode.
  { split; [split; [done|]; intros id' Hne; apply find_put_other; rewrite (dt_id _ _ Ht); congruence|]. rewrite Ed.
    assert (find_db id (fx_dbs s') = Some db') as ->.
    { change (fx_dbs s') with (put_db db' (fx_dbs s)). rewrite <- Hid, <- (dt_id _ _ Ht). eapply find_put. by rewrite (dt_id _ _ Ht), Hid. }
    split; [done|]. intros Hh. unfold s'. rewrite (dt_same _ _ Ht Hh), put_same by (by rewrite Hid). by destruct s as [[] ? ? ? ? ? ?]. }
  unfold reported_seqnum. rewrite <- Hdata. destruct (dsize data =? 8); cbn [negb]; eexists _, _, s'; (split; [reflexivity|]; split; [done|]; split; [done|]; split; [done|]); [cbn; ring|done].
Qed.
(** ** The nodes *)

Definition nodes_touched (id : Z) nodes nodes' : Prop := ∀ n,
  match nodes !! n, nodes' !! n with
  | None, None => True
  | Some s, Some s' => node_touched id s s'
  | _, _ => False
  end.

Lemma touched_trans db1 db2 db3 : db_touched db1 db2 → db_touched db2 db3 → db_touched db1 db3.
Proof.
  intros [A1 A2 A3 A4 A5 A6 A7] [B1 B2 B3 B4 B5 B6 B7]. split; [congruence..| | | |].
  - intros k Hne. by rewrite B4, A4.
  - congruence.
  - destruct B6 as [->|?]; auto.
  - intros Hh. pose proof (A7 Hh) as ->. by apply B7.
Qed.
Lemma node_touched_trans id s1 s2 s3 : node_touched id s1 s2 → node_touched id s2 s3 → node_touched id s1 s3.
Proof.
  intros [[A1 A2] A3] [[B1 B2] B3]. split; [split; [congruence|]; intros id' Hne; by rewrite B2, A2|].
  destruct (find_db id (fx_dbs s1)) as [db1|], (find_db id (fx_dbs s2)) as [db2|], (find_db id (fx_dbs s3)) as [db3|]; try done; [|congruence].
  destruct A3 as [At As], B3 as [Bt Bs]. split; [by eapply touched_trans|]. intros Hh.
  rewrite Bs; [by apply As|]. by rewrite (dt_same _ _ At Hh).
Qed.
Lemma nodes_touched_refl id nodes : nodes_touched id nodes nodes.
Proof. intros n. destruct (nodes !! n); [apply node_touched_refl|done]. Qed.
Lemma nodes_touched_trans id n1 n2 n3 : nodes_touched id n1 n2 → nodes_touched id n2 n3 → nodes_touched id n1 n3.
Proof.
  intros A B n. specialize (A n). specialize (B n).
  destruct (n1 !! n), (n2 !! n), (n3 !! n); try done. by eapply node_touched_trans.
Qed.
Lemma nodes_touched_insert id nodes n s s' :
  nodes !! n = Some s → node_touched id s s' → nodes_touched id nodes (<[n := s']> nodes).
Proof.
  intros E Ht m. destruct (decide (m = n)) as [->|Hne].
  - by rewrite E, lookup_insert_eq.
  - rewrite lookup_insert_ne by done. apply nodes_touched_refl.
Qed.

(** The copies after the question: only the empty record is new. *)
Lemma touched_copy id nodes nodes' k n :
  nodes_touched id nodes nodes' → k ≠ KEY → copy id k nodes' n = copy id k nodes n.
Proof.
  intros Ht Hk. specialize (Ht n). unfold copy. destruct (nodes !! n) as [s|], (nodes' !! n) as [s'|]; try done.
  destruct Ht as [_ Ht]. cbn [mbind option_bind].
  destruct (find_db id (fx_dbs s)) as [db|], (find_db id (fx_dbs s')) as [db'|]; try done. by apply Ht.
Qed.
Lemma touched_view id nodes nodes' k n :
  nodes_touched id nodes nodes' → copy_view (copy id k nodes' n) = copy_view (copy id k nodes n).
Proof.
  intros Ht. destruct (decide (k = KEY)) as [->|Hk]; [|by rewrite (touched_copy _ nodes)].
  specialize (Ht n). unfold copy. destruct (nodes !! n) as [s|], (nodes' !! n) as [s'|]; try done.
  destruct Ht as [_ Ht]. cbn [mbind option_bind].
  destruct (find_db id (fx_dbs s)) as [db|], (find_db id (fx_dbs s')) as [db'|]; try done. by apply Ht.
Qed.
Lemma touched_header id nodes nodes' n :
  nodes_touched id nodes nodes' → has_header (copy id KEY nodes n) → nodes' !! n = nodes !! n.
Proof.
  intros Ht Hh. specialize (Ht n). unfold copy in Hh. destruct (nodes !! n) as [s|], (nodes' !! n) as [s'|]; try done.
  destruct Ht as [_ Ht]. cbn [mbind option_bind] in Hh.
  destruct (find_db id (fx_dbs s)) as [db|]; [|by destruct Hh as (? & ? & _)]. destruct (find_db id (fx_dbs s')); [|done].
  f_equal. by apply Ht.
Qed.

Lemma touched_parts id persistent nodes nodes' :
  nodes_touched id nodes nodes' → participants id persistent nodes → participants id persistent nodes'.
Proof.
  intros Ht [P1 P2 P3]. split.
  - intros n k v E. destruct (decide (k = KEY)) as [->|Hk]; [|apply (P1 n); by rewrite <- (touched_copy id nodes nodes')].
    specialize (Ht n). unfold copy in E. destruct (nodes !! n) as [s|] eqn:En, (nodes' !! n) as [s'|]; try done.
    destruct Ht as [_ Ht]. cbn [mbind option_bind] in E.
    destruct (find_db id (fx_dbs s)) as [db|] eqn:Ed, (find_db id (fx_dbs s')) as [db'|]; try done. cbn [mbind option_bind] in E.
    destruct Ht as [Ht _]. destruct (dt_small _ _ Ht) as [Eq|Hs].
    + apply (P1 n). unfold copy. rewrite En. cbn [mbind option_bind]. rewrite Ed. cbn [mbind option_bind]. congruence.
    + destruct (Hs _ E) as [Hl _]. unfold fits, dsize, MAX_TALLOC_SIZE, offsetof_rec_data. unfold sizeof_header in Hl. cbn [fst snd]. change (length KEY) with 23%nat. lia.
  - intros n s' E. specialize (Ht n). rewrite E in Ht. destruct (nodes !! n) as [s|] eqn:En; [|done].
    destruct Ht as [[-> _] _]. by apply P2.
  - intros n s' db' E Ed'. specialize (Ht n). rewrite E in Ht. destruct (nodes !! n) as [s|] eqn:En; [|done].
    destruct Ht as [_ Ht]. rewrite Ed' in Ht. destruct (find_db id (fx_dbs s)) as [db|] eqn:Ed; [|done].
    destruct (P3 n s db En Ed) as (Hok & Hss & Hp). destruct Ht as [Ht _].
    rewrite (dt_store _ _ Ht), (dt_persistent _ _ Ht). split; [|done]. intros k. rewrite tdb_fetch_lookup.
    destruct (decide (k = KEY)) as [->|Hk]; [|rewrite (dt_other _ _ Ht) by done; rewrite <- tdb_fetch_lookup; apply Hok].
    destruct (dt_small _ _ Ht) as [->|Hs]; [rewrite <- tdb_fetch_lookup; apply Hok|].
    destruct (tdb_lookup (db_ltdb db') KEY) as [v|]; [by apply Hs|constructor].
Qed.
(** ** Asking the nodes *)

(** The number that a node reports. *)
Definition node_seqnum (id : Z) nodes (n : Z) : Z := reported_seqnum (copy id KEY nodes n).
Definition has_table (id : Z) nodes (n : Z) : Prop :=
  ∃ s db, nodes !! n = Some s ∧ find_db id (fx_dbs s) = Some db.

Lemma touched_seqnum id nodes nodes' n :
  nodes_touched id nodes nodes' → node_seqnum id nodes' n = node_seqnum id nodes n.
Proof. intros Ht. unfold node_seqnum, reported_seqnum. by rewrite (touched_view id nodes). Qed.
Lemma touched_table id nodes nodes' n :
  nodes_touched id nodes nodes' → has_table id nodes' n ↔ has_table id nodes n.
Proof.
  intros Ht. specialize (Ht n). split; intros (s & db & E & Ed); rewrite E in Ht.
  - destruct (nodes !! n) as [s0|] eqn:E0; [|done]. destruct Ht as [_ Ht]. rewrite Ed in Ht.
    destruct (find_db id (fx_dbs s0)) as [db0|] eqn:Ed0; [|done]. by exists s0, db0.
  - destruct (nodes' !! n) as [s0|] eqn:E0; [|done]. destruct Ht as [_ Ht]. rewrite Ed in Ht.
    destruct (find_db id (fx_dbs s0)) as [db0|] eqn:Ed0; [|done]. by exists s0, db0.
Qed.

Lemma send_seqnum_ok id p nodes nodes' answer :
  participants id true nodes → send_control tun env (CTDB_CONTROL_GET_DB_SEQNUM id) p nodes = (nodes', answer) →
  nodes_touched id nodes nodes' ∧
  match answer with
  | Some (status, out) => (status = 0 ∧ has_table id nodes p ∧ dsize out = 8 ∧ le_val out = node_seqnum id nodes p)
                          ∨ (status ≠ 0 ∧ ¬ has_table id nodes p)
  | None => re_fate env (CTDB_CONTROL_GET_DB_SEQNUM id) p ≠ Answered ∨ ¬ has_table id nodes p
  end.
Proof.
  intros Hpart. unfold send_control. destruct (nodes !! p) as [s|] eqn:Es.
  2:{ intros [= <- <-]. split; [apply nodes_touched_refl|]. right. intros (s & db & E & _). congruence. }
  destruct (get_seqnum_ok id s) as (status & out & s' & Ed & Ht & Hres); [intros db Edb; by eapply pt_db|].
  rewrite Ed. assert (nodes_touched id nodes (<[p := s']> nodes)) as Hn by (by eapply nodes_touched_insert).
  destruct (re_fate _ _ _) eqn:Ef; intros [= <- <-]; (split; [try done; apply nodes_touched_refl|]); [|by left..].
  unfold node_seqnum, has_table, copy. rewrite Es. cbn [mbind option_bind].
  destruct (find_db id (fx_dbs s)) as [db|] eqn:Edb.
  - left. destruct Hres as (-> & H1 & H2). split_and!; try done. by exists s, db.
  - right. rewrite Hres. split; [done|]. intros (s1 & db & [= <-] & ?). congruence.
Qed.

Definition seqnum_lost (id : Z) nodes (n : Z) : Prop :=
  re_fate env (CTDB_CONTROL_GET_DB_SEQNUM id) n ≠ Answered ∨ ¬ has_table id nodes n.

Local Abbreviation ask id :=
  (async_loop (T := T) tun env (CTDB_CONTROL_GET_DB_SEQNUM id) pull_seqnum_cb (λ _, pull_seqnum_fail_cb)).

Lemma send_control_other c p nodes nodes' answer n :
  send_control tun env c p nodes = (nodes', answer) → n ≠ p → nodes' !! n = nodes !! n.
Proof.
  intros E Hne. unfold send_control in E.
  repeat case_match; simplify_eq; rewrite ?lookup_insert_ne, ?lookup_delete_ne by done; done.
Qed.

Lemma seqnum_loop_nodes id pnns nodes cb nodes' fails cb' :
  participants id true nodes → ask id pnns nodes cb = (nodes', fails, cb') →
  nodes_touched id nodes nodes' ∧ (∀ n, n ∉ pnns → nodes' !! n = nodes !! n) ∧ 0 <= fails.
Proof.
  revert nodes cb fails. induction pnns as [|p pnns IH]; intros nodes cb fails Hpart; cbn [async_loop].
  { intros [= <- <- <-]. split_and!; [apply nodes_touched_refl|done|done]. }
  destruct (send_control _ _ _ _ _) as [nodes1 answer] eqn:Es.
  pose proof (λ n, send_control_other _ _ _ _ _ n Es) as Hout1. apply send_seqnum_ok in Es as [Ht Hans]; [|done].
  set (fa := match answer with None => _ | Some _ => _ end). destruct fa as [f1 a1] eqn:Ef.
  assert (0 <= f1) as Hf1 by (unfold fa in Ef; repeat case_match; simplify_eq; lia).
  destruct (async_loop _ _ _ _ _ _ _ _) as [[nodes2 f2] a2] eqn:El. intros [= <- <- <-].
  apply IH in El as (Ht2 & Hout2 & Hf2); [|by eapply touched_parts]. split_and!; [by eapply nodes_touched_trans| |lia].
  intros n [Hne Hn]%not_elem_of_cons. by rewrite Hout2, Hout1.
Qed.

(** The node with the highest number, unless an answer is missing. *)
Definition highest_node (id : Z) (pnns : list Z) nodes (cb cb' : pull_seqnum_cbdata) : Prop :=
  sc_failed cb' = false
  ∧ (cb' = cb ∨ sc_pnn cb' ∈ pnns ∧ sc_seqnum cb' = node_seqnum id nodes (sc_pnn cb'))
  ∧ sc_seqnum cb <= sc_seqnum cb' ∧ ∀ n, n ∈ pnns → node_seqnum id nodes n <= sc_seqnum cb'.

Lemma seqnum_loop_ok id pnns nodes cb nodes' fails cb' :
  participants id true nodes → sc_failed cb = false → ask id pnns nodes cb = (nodes', fails, cb') →
  if decide (fails = 0) then highest_node id pnns nodes cb cb' ∧ Forall (has_table id nodes) pnns
  else Exists (seqnum_lost id nodes) pnns.
Proof.
  revert nodes cb fails. induction pnns as [|p pnns IH]; intros nodes cb fails Hpart Hcb; cbn [async_loop].
  { intros [= <- <- <-]. rewrite decide_True by done. split; [|constructor]. split_and!; auto; [lia|by intros n Hn%elem_of_nil]. }
  destruct (send_control _ _ _ _ _) as [nodes1 answer] eqn:Es. apply send_seqnum_ok in Es as [Ht Hans]; [|done].
  pose proof (touched_parts _ _ _ _ Ht Hpart) as Hpart1.
  destruct answer as [[status out]|].
  2:{ destruct (async_loop _ _ _ _ _ _ _ _) as [[nodes2 f2] a2] eqn:El. intros [= <- <- <-].
      apply seqnum_loop_nodes in El as (_ & _ & Hf2); [|done]. rewrite decide_False by lia. by constructor. }
  destruct Hans as [(-> & Htab & Hout & Hnum)|[Hst Htab]].
  2:{ rewrite (proj2 (Z.eqb_neq _ _)) by done. cbn [negb].
      destruct (async_loop _ _ _ _ _ _ _ _) as [[nodes2 f2] a2] eqn:El. intros [= <- <- <-].
      apply seqnum_loop_nodes in El as (_ & _ & Hf2); [|done]. rewrite decide_False by lia. constructor. by right. }
  cbn [Z.eqb negb]. set (cb1 := pull_seqnum_cb p 0 out cb).
  assert (sc_failed cb1 = false ∧ (cb1 = cb ∨ sc_pnn cb1 = p ∧ sc_seqnum cb1 = node_seqnum id nodes p)
    ∧ sc_seqnum cb <= sc_seqnum cb1 ∧ node_seqnum id nodes p <= sc_seqnum cb1) as (Hcb1 & Hwho & Hle & Hp).
  { unfold cb1, pull_seqnum_cb. rewrite Hcb, Hout, Hnum. cbn [Z.eqb negb].
    destruct (Z.ltb_spec (sc_seqnum cb) (node_seqnum id nodes p)); cbn; split_and!; auto; lia. }
  destruct (async_loop _ _ _ _ _ _ _ _) as [[nodes2 f2] cb2] eqn:El. intros [= <- <- <-].
  apply IH in El; [|done..]. change (0 + f2) with f2. destruct (decide (f2 = 0)).
  - destruct El as [(H1 & H2 & H3 & H4) Htabs]. split.
    + split_and!; [done| |lia|].
      * destruct H2 as [->|[Hin ->]]; [|right; split; [by right|]; by rewrite (touched_seqnum id nodes)].
        destruct Hwho as [->|[Hpn ->]]; [by left|right]. rewrite Hpn. split; [by left|done].
      * intros n [->|Hn]%elem_of_cons; [lia|]. rewrite <- (touched_seqnum id nodes nodes1) by done. by apply H4.
    + constructor; [done|]. eapply Forall_impl; [exact Htabs|]. intros n. by rewrite (touched_table id nodes nodes1).
  - right. eapply Exists_impl; [exact El|]. intros m [?|Hn]; [by left|right]. by rewrite <- (touched_table id nodes nodes1).
Qed.
(** ** Pulling *)

Hypothesis Htun : prealloc_ok tun.

Definition store_fails : Prop := ∃ (t : T) k v t' r, tdb_store t k v = (t', r) ∧ r ≠ 0.
Definition all_headers recdb : Prop := ∀ k v, tdb_lookup recdb k = Some v → (sizeof_header <= length v)%nat.

(** A merge that stops halfway has only stored records that it was given. *)
Lemma merge_partial rm recs recdb recdb' r :
  merge_records rm recs recdb = (recdb', r) →
  ∀ k v, tdb_lookup recdb' k = Some v → tdb_lookup recdb k = Some v ∨ (k, v) ∈ recs.
Proof.
  revert recdb. induction recs as [|[key data] recs IH]; intros recdb; simpl; [by intros [= <- <-]; left|].
  destruct (Nat.ltb _ _); [by intros [= <- <-]; left|].
  assert (∀ t r1, tdb_store recdb key data = (t, r1) → ∀ k v, tdb_lookup t k = Some v → tdb_lookup recdb k = Some v ∨ (k, v) ∈ (key, data) :: recs) as Hst.
  { intros t r1 Es k v. destruct (decide (k = key)) as [->|Hne]; [|rewrite (tdb_lookup_store_other _ _ _ _ _ _ Es Hne); by left].
    destruct (decide (r1 = 0)) as [->|Hr].
    - rewrite (tdb_lookup_store _ _ _ _ Es). intros [= <-]. right. by left.
    - destruct (tdb_lookup_store_fail _ _ _ _ _ Es Hr) as [->| ->]; [by left|done]. }
  destruct (tdb_store recdb key data) as [t r1]. specialize (Hst t r1 eq_refl).
  assert ((if negb (r1 =? 0) then (t, -1) else merge_records rm recs t) = (recdb', r) →
    ∀ k v, tdb_lookup recdb' k = Some v → tdb_lookup recdb k = Some v ∨ (k, v) ∈ (key, data) :: recs) as Hgo.
  { destruct (negb _); [intros [= <- <-]; apply Hst|]. intros E k v Hv.
    destruct (IH _ E k v Hv) as [?|?]; [by apply Hst|right; by right]. }
  destruct (tdb_lookup recdb key) as [e|]; [|done]. destruct (Nat.ltb _ _); [by intros [= <- <-]; left|].
  destruct (supersedes _ _ _); cbn [negb]; [done|]. intros E k v Hv. destruct (IH _ E k v Hv) as [?|?]; [by left|right; by right].
Qed.

Lemma merge_fails rm recs recdb recdb' r :
  Forall (λ kv, (sizeof_header <= length kv.2)%nat) recs → all_headers recdb →
  merge_records rm recs recdb = (recdb', r) → r ≠ 0 → store_fails.
Proof.
  intros Hrecs. revert recdb. induction Hrecs as [|[key data] recs Hd Hrecs IH]; intros recdb Hh; simpl; [by intros [= <- <-]|].
  cbn [snd] in Hd. rewrite (proj2 (Nat.ltb_ge _ _)) by done.
  destruct (tdb_store recdb key data) as [t r1] eqn:Es.
  assert (((if negb (r1 =? 0) then (t, -1) else merge_records rm recs t) = (recdb', r)) → r ≠ 0 → store_fails) as Hgo.
  { destruct (Z.eqb_spec r1 0) as [->|Hr1]; cbn [negb]; [|by exists recdb, key, data, t, r1]. apply IH.
    intros k v Hv. destruct (decide (k = key)) as [->|Hne].
    - rewrite (tdb_lookup_store _ _ _ _ Es) in Hv. by injection Hv as <-.
    - rewrite (tdb_lookup_store_other _ _ _ _ _ _ Es Hne) in Hv. by apply (Hh k). }
  destruct (tdb_lookup recdb key) as [e|] eqn:Ee; [|done]. rewrite (proj2 (Nat.ltb_ge _ _)) by (by apply (Hh key)).
  destruct (supersedes _ _ _); cbn [negb]; [done|by apply IH].
Qed.

(** What PULL_DB answers. *)
Lemma pull_sent id p nodes nodes' answer :
  is_u32 id → records_fit id nodes → send_control tun env (CTDB_CONTROL_PULL_DB id) p nodes = (nodes', answer) →
  (nodes' = nodes ∨ nodes' = delete p nodes)
  ∧ ∀ out, answer = Some (0, out) → nodes' = nodes ∧ (offsetof_marshall_data <= length out)%nat
    ∧ ∀ k v, (k, v) ∈ mb_records out ↔ copy id k nodes p = Some v.
Proof.
  intros Hid Hfit. unfold send_control. destruct (nodes !! p) as [s|] eqn:Es; [|intros [= <- <-]; by split; [left|]].
  assert (∀ k db, find_db id (fx_dbs s) = Some db → copy id k nodes p = tdb_lookup (db_ltdb db) k) as Hcopy.
  { intros k db Ed. unfold copy. rewrite Es. cbn [mbind option_bind]. by rewrite Ed. }
  assert (dispatch tun env (CTDB_CONTROL_PULL_DB id) s = Died ∨ ∃ st out, dispatch tun env (CTDB_CONTROL_PULL_DB id) s = Reply st out s
    ∧ (st = 0 → (offsetof_marshall_data <= length out)%nat ∧ ∀ k v, (k, v) ∈ mb_records out ↔ copy id k nodes p = Some v)) as Hd.
  { cbn [dispatch]. unfold ctdb_control_pull_db. destruct (find_db id (fx_dbs s)) as [db|] eqn:Ed; [|right; by eexists _, _].
    destruct (negb _); [right; by eexists _, _|]. destruct (negb _); [right; by eexists _, _|].
    destruct (tdb_traverse_read (db_ltdb db)) as [l|] eqn:El; [|right; by eexists _, _].
    destruct (traverse _ l _) as [params|] eqn:Et; [|by left]. right. eexists _, _. split; [done|]. intros _.
    apply pull_blob in Et as [-> Hlen]; [|done|done|].
    - split; [done|]. intros k v. rewrite (Hcopy k db) by done. by apply (tdb_traverse_spec _ _ _ _ El).
    - apply Forall_forall. intros [k v] Hin. apply (Hfit p). rewrite (Hcopy k db) by done. by apply (tdb_traverse_spec _ _ _ _ El). }
  destruct Hd as [->|(st & out & -> & Hok)].
  - destruct (re_fate _ _ _); intros [= <- <-]; (split; [auto|done]).
  - rewrite (insert_id nodes p s) by done. destruct (re_fate _ _ _); intros [= <- <-]; (split; [by left|]); try done.
    intros out' [= -> ->]. split; [done|]. by apply Hok.
Qed.

Lemma pull_one_partial rec p id nodes recdb nodes' recdb' r :
  is_u32 id → records_fit id nodes → pull_one_remote_database tun env rec p id nodes recdb = (nodes', recdb', r) →
  (nodes' = nodes ∨ nodes' = delete p nodes)
  ∧ ∀ k v, tdb_lookup recdb' k = Some v → tdb_lookup recdb k = Some v ∨ copy id k nodes p = Some v.
Proof.
  intros Hid Hfit. unfold pull_one_remote_database. destruct (send_control _ _ _ _ _) as [nodes1 answer] eqn:Es.
  apply pull_sent in Es as [Hn Hans]; [|done..].
  destruct answer as [[st out]|]; [|intros [= <- <- <-]; split; [done|by left]].
  destruct (Z.eqb_spec st 0) as [->|]; cbn [negb]; [|intros [= <- <- <-]; split; [done|by left]].
  destruct (Hans out eq_refl) as (-> & _ & Hrecs).
  destruct (Nat.ltb _ _); [intros [= <- <- <-]; split; [done|by left]|].
  destruct (merge_records _ _ _) as [t ret] eqn:Em. intros [= <- <- <-]. split; [done|]. intros k v Hv.
  destruct (merge_partial _ _ _ _ _ Em k v Hv) as [?|Hin]; [by left|right]. by apply Hrecs.
Qed.

(** A node that can be pulled into one database can be pulled into another, unless a
    store fails. *)
Lemma pull_again rec p id nodes t1 t1' t0 nodes' t0' r :
  is_u32 id → records_fit id nodes → pull_one_remote_database tun env rec p id nodes t1 = (nodes, t1', 0) →
  all_headers t0 → pull_one_remote_database tun env rec p id nodes t0 = (nodes', t0', r) → r ≠ 0 → store_fails.
Proof.
  intros Hid Hfit E1 Hh E0 Hr. pose proof (pull_one_ok _ _ Htun _ _ _ _ _ _ _ Hid Hfit E1) as (_ & (s & db & Es & Ed & Hlen) & _).
  unfold pull_one_remote_database in *. destruct (send_control _ _ _ _ _) as [nodes1 answer] eqn:Esend.
  apply pull_sent in Esend as [_ Hans]; [|done..].
  destruct answer as [[st out]|]; [|done]. destruct (Z.eqb_spec st 0) as [->|]; cbn [negb] in *; [|done].
  destruct (Hans out eq_refl) as (-> & Hol & Hrecs). rewrite (proj2 (Nat.ltb_ge _ _)) in E0 by done.
  destruct (merge_records _ (mb_records out) t0) as [t ret] eqn:Em. simplify_eq.
  eapply merge_fails; [|exact Hh|exact Em|done]. apply Forall_forall. intros [k v] Hin. apply Hrecs in Hin.
  unfold copy in Hin. rewrite Es in Hin. cbn [mbind option_bind] in Hin. rewrite Ed in Hin. by apply (Hlen k).
Qed.

Lemma pull_nodes_each rec nodemap id nodes recdb nodes' recdb' p :
  is_u32 id → records_fit id nodes → pull_nodes tun env rec nodemap id nodes recdb = (nodes', recdb', None) →
  p ∈ active nodemap → ∃ t t', pull_one_remote_database tun env rec p id nodes t = (nodes, t', 0).
Proof.
  intros Hid Hfit. revert recdb. unfold active. induction nodemap as [|n nodemap IH]; intros recdb; simpl; [by intros _ ?%elem_of_nil|].
  rewrite filter_cons. destruct (nf_flags n &? NODE_FLAGS_INACTIVE) eqn:Ef; [rewrite decide_False by done; apply IH|].
  rewrite decide_True by done. destruct (pull_one_remote_database _ _ _ _ _ _ _) as [[nodes1 t] ret] eqn:Ep.
  destruct (Z.eqb_spec ret 0) as [->|]; [|done]. cbn [negb]. pose proof Ep as Ep'. apply pull_one_ok in Ep as (-> & _); [|done..].
  intros E [->|Hp]%elem_of_cons; [by eexists _, _|by eapply IH].
Qed.
(** ** What is chosen *)

Hypothesis Harrive : ∀ l, re_arrive env l ≡ₚ l.

Definition by_seqnum (persistent : bool) : bool := persistent && negb (tun_recover_pdb_by_seqnum tun =? 0).

(** [b] is a copy of the record with the highest RSN among the active nodes (nothing
    when they have none but empty ones). *)
Definition highest_copy (id : Z) nodes (nodemap : list ctdb_node_and_flags) (k : bytes) (b : option bytes) : Prop :=
  (b = None ∧ ∀ n, n ∈ active nodemap → copy_view (copy id k nodes n) = (0, []))
  ∨ (∃ n, n ∈ active nodemap ∧ copy_view b = copy_view (copy id k nodes n)
     ∧ ∀ m, m ∈ active nodemap → (copy_view (copy id k nodes m)).1 <= (copy_view b).1).

(** Why no number may be available. *)
Definition no_seqnum (id : Z) nodes (nodemap : list ctdb_node_and_flags) : Prop :=
  (∀ n, n ∈ active nodemap → node_seqnum id nodes n = 0)
  ∨ (∃ n, n ∈ active nodemap ∧ re_fate env (CTDB_CONTROL_GET_DB_SEQNUM id) n ≠ Answered)
  ∨ store_fails.

(** The records [B] that a recovery takes of a database. *)
Definition chosen (rm id : Z) (persistent : bool) nodes (nodemap : list ctdb_node_and_flags)
    (B : bytes → option bytes) : Prop :=
  if by_seqnum persistent then
    (∃ p, p ∈ active nodemap ∧ 0 < node_seqnum id nodes p
      ∧ (∀ n, n ∈ active nodemap → node_seqnum id nodes n <= node_seqnum id nodes p)
      ∧ ∀ k, B k = copy id k nodes p)
    ∨ (no_seqnum id nodes nodemap ∧ ∀ k, highest_copy id nodes nodemap k (B k))
  else ∀ k, B k = kept rm id nodes nodemap k.

Lemma reported_range (c : option bytes) : 0 <= reported_seqnum c < 256.
Proof. unfold reported_seqnum. destruct (dsize _ =? 8); [apply Z.mod_pos_bound|]; lia. Qed.
Lemma reported_header (c : option bytes) : 0 < reported_seqnum c → has_header c.
Proof.
  unfold reported_seqnum, copy_view. destruct c as [v|]; [|done].
  destruct (Nat.ltb_spec (length v) sizeof_header) as [|Hl]; [done|]. intros _. by exists v.
Qed.
Lemma header_copy_view v : (sizeof_header <= length v)%nat → copy_view (Some v) = (rsn (header_of_bytes v), drop sizeof_header v).
Proof. intros Hl. cbn [copy_view]. by rewrite (proj2 (Nat.ltb_ge _ _)). Qed.

(** Asking and pulling from one node. *)
Lemma pull_highest_ok rec nodemap id nodes nodes' recdb r :
  is_u32 id → Forall (λ n, 0 <= nf_pnn n < 2 ^ 32 - 1) nodemap → participants id true nodes →
  pull_highest_seqnum_pdb tun env rec nodemap id nodes tdb_create = (nodes', recdb, r) →
  ∃ nodes1, nodes_touched id nodes nodes1 ∧ (∀ n, n ∉ active nodemap → nodes1 !! n = nodes !! n) ∧
  ((nodes' = nodes1 ∧ recdb = tdb_create ∧ r ≠ 0
    ∧ ((∀ n, n ∈ active nodemap → node_seqnum id nodes n = 0) ∨ ∃ n, n ∈ active nodemap ∧ seqnum_lost id nodes n))
   ∨ ∃ p r1, p ∈ active nodemap ∧ 0 < node_seqnum id nodes p ∧ (∀ n, n ∈ active nodemap → node_seqnum id nodes n <= node_seqnum id nodes p)
     ∧ pull_one_remote_database tun env rec p id nodes1 tdb_create = (nodes', recdb, r1) ∧ (r = 0 ↔ r1 = 0)
     ∧ Forall (has_table id nodes) (active nodemap)).
Proof.
  intros Hid Hrange Hpart. unfold pull_highest_seqnum_pdb, ctdb_client_async_control. rewrite active_list by done.
  destruct (async_loop _ _ _ _ _ _ _ _) as [[nodes1 fails] cb] eqn:El.
  pose proof (seqnum_loop_nodes _ _ _ _ _ _ _ Hpart El) as (Ht & Hout & Hf0).
  apply seqnum_loop_ok in El; [|done|done]. intros E. exists nodes1. split; [done|].
  split; [intros n Hn; apply Hout; by rewrite Harrive|].
  destruct (decide (fails = 0)) as [->|Hf].
  2:{ rewrite (proj2 (Z.eqb_neq fails 0) Hf) in E. cbn in E. injection E as <- <- <-. left. split_and!; try done. right.
      apply Exists_exists in El as (n & Hn & Hl). exists n. by rewrite <- (Harrive (active nodemap)). }
  destruct El as [(Hcb & Hwho & _ & Hmax) Htab]. cbn [Z.eqb negb] in E. rewrite Hcb in E.
  assert (∀ n, n ∈ active nodemap → node_seqnum id nodes n <= sc_seqnum cb) as Hmax' by (intros n Hn; apply Hmax; by rewrite Harrive).
  assert (∀ n, 0 <= node_seqnum id nodes n) as Hpos by (intros n; apply reported_range).
  destruct (Z.eqb_spec (sc_seqnum cb) 0) as [E0|E0].
  { cbn [orb] in E. injection E as <- <- <-. left. split_and!; try done. left. intros n Hn. specialize (Hmax' n Hn). specialize (Hpos n). lia. }
  destruct Hwho as [->|[Hin Hnum]]; [done|]. rewrite Harrive in Hin, Htab.
  assert (0 <= sc_pnn cb < 2 ^ 32 - 1) as Hp.
  { apply list_elem_of_fmap in Hin as (x & -> & Hx). apply list_elem_of_filter in Hx as [_ Hx]. rewrite Forall_forall in Hrange. by apply Hrange. }
  rewrite (proj2 (Z.eqb_neq (sc_pnn cb) _)) in E by lia. cbn [orb] in E.
  destruct (pull_one_remote_database _ _ _ _ _ _ _) as [[nodes2 t] r1] eqn:Ep. injection E as <- <- <-. right.
  exists (sc_pnn cb), r1. rewrite <- Hnum. pose proof (Hpos (sc_pnn cb)). split_and!; try done; [lia|].
  by destruct (Z.eqb_spec r1 0) as [->|].
Qed.
Lemma foldl_best rm (acc : option bytes) copies : foldl (merge1 rm) acc copies = best rm (acc :: copies).
Proof. unfold best. cbn. by destruct acc. Qed.

(** The highest copy when the nodes were only touched, and what was merged before
    comes from them. *)
Lemma fallback_highest rm id nodes nodes1 nodemap k acc b :
  nodes_touched id nodes nodes1 → participants id true nodes1 → Forall (has_db id nodes1) (active nodemap) →
  (∀ v, acc = Some v → ∃ n, n ∈ active nodemap ∧ copy id k nodes1 n = Some v) →
  b = foldl (merge1 rm) acc (copy id k nodes1 <$> active nodemap) →
  highest_copy id nodes nodemap k b ∧ ∀ v, b = Some v → ∃ n, n ∈ active nodemap ∧ copy id k nodes1 n = Some v.
Proof.
  intros Ht Hpart Hhas Hacc. rewrite foldl_best. intros ->. rewrite Forall_forall in Hhas.
  assert (∀ v, Some v ∈ acc :: (copy id k nodes1 <$> active nodemap) → ∃ n, n ∈ active nodemap ∧ copy id k nodes1 n = Some v) as Hfrom.
  { intros v [Hv|Hv]%elem_of_cons; [by apply Hacc|]. apply list_elem_of_fmap in Hv as (n & -> & Hn). by exists n. }
  destruct (best rm _) as [v|] eqn:E.
  - apply best_max in E as [Hin Hmax]. destruct (Hfrom v Hin) as (n & Hn & Ec).
    destruct (copy_ok _ _ _ _ _ _ Hpart (Hhas n Hn) Ec) as [Hu Hl]. split; [|intros ? [= <-]; by exists n].
    right. exists n. split; [done|]. rewrite <- (touched_view id nodes nodes1), Ec by done. split; [done|].
    intros m Hm. rewrite <- (touched_view id nodes nodes1) by done. rewrite (header_copy_view v) by done. cbn [fst].
    destruct (copy id k nodes1 m) as [w|] eqn:Ew; [|cbn; by apply header_of_bytes_ok].
    destruct (copy_ok _ _ _ _ _ _ Hpart (Hhas m Hm) Ew) as [_ Hlw]. rewrite header_copy_view by done. cbn [fst].
    apply Hmax. right. apply list_elem_of_fmap. by exists m.
  - split; [|done]. left. split; [done|]. intros n Hn. rewrite <- (touched_view id nodes nodes1) by done.
    rewrite (proj1 (best_none _ _) E (copy id k nodes1 n)); [done|]. right. apply list_elem_of_fmap. by exists n.
Qed.

Definition pulled rm id persistent nodemap nodes nodes' recdb : Prop :=
  nodes_touched id nodes nodes' ∧ (∀ n, n ∉ active nodemap → nodes' !! n = nodes !! n)
  ∧ chosen rm id persistent nodes nodemap (tdb_lookup recdb)
  ∧ ∀ k v, tdb_lookup recdb k = Some v →
      ∃ n, n ∈ active nodemap ∧ has_db id nodes' n ∧ copy id k nodes' n = Some v.

Lemma pull_seqnum_ok rec id nodemap nodes nodes' recdb :
  is_u32 id → Forall (λ n, 0 <= nf_pnn n < 2 ^ 32 - 1) nodemap → participants id true nodes → by_seqnum true = true →
  pull_highest_seqnum_pdb tun env rec nodemap id nodes tdb_create = (nodes', recdb, 0) →
  pulled (rd_recovery_master rec) id true nodemap nodes nodes' recdb.
Proof.
  intros Hid Hrange Hpart Hby E. apply pull_highest_ok in E as (nodes1 & Ht & Hout & Hcase); [|done..].
  destruct Hcase as [(_ & _ & ? & _)|(p & r1 & Hp & Hpos & Hmax & E1 & Hr & _)]; [done|].
  pose proof (touched_parts _ _ _ _ Ht Hpart) as Hpart1. rewrite (proj1 Hr eq_refl) in E1.
  apply pull_one_ok in E1 as (-> & Hhas & Hm); [|done|done|apply Hpart1].
  assert (nodes1 !! p = nodes !! p) as Ep by (by apply (touched_header id), reported_header).
  assert (∀ k, tdb_lookup recdb k = copy id k nodes1 p) as Hk.
  { intros k. rewrite Hm, tdb_lookup_create. by destruct (copy id k nodes1 p). }
  split; [done|]. split; [done|]. split.
  - unfold chosen. rewrite Hby. left. exists p. split_and!; try done. intros k. rewrite Hk. unfold copy. by rewrite Ep.
  - intros k v Hv. rewrite Hk in Hv. by exists p.
Qed.

Lemma fit_delete id p nodes : records_fit id nodes → records_fit id (delete p nodes).
Proof.
  intros Hfit n k v E. apply (Hfit n). unfold copy in *. destruct (decide (n = p)) as [->|Hne];
    [by rewrite lookup_delete_eq in E|by rewrite lookup_delete_ne in E].
Qed.

(** When the other way then works, a number was missing or a store failed. *)
Lemma fallback_reason rec id nodemap nodes nodes1 recdb1 r nodes' recdb :
  is_u32 id → Forall (λ n, 0 <= nf_pnn n < 2 ^ 32 - 1) nodemap → participants id true nodes →
  pull_highest_seqnum_pdb tun env rec nodemap id nodes tdb_create = (nodes1, recdb1, r) → r ≠ 0 →
  pull_nodes tun env rec nodemap id nodes1 recdb1 = (nodes', recdb, None) →
  nodes_touched id nodes nodes1 ∧ (∀ n, n ∉ active nodemap → nodes1 !! n = nodes !! n) ∧ no_seqnum id nodes nodemap
  ∧ ∀ k v, tdb_lookup recdb1 k = Some v → ∃ n, n ∈ active nodemap ∧ copy id k nodes1 n = Some v.
Proof.
  intros Hid Hrange Hpart E Hr En. apply pull_highest_ok in E as (nodes0 & Ht & Hout & Hcase); [|done..].
  pose proof (touched_parts _ _ _ _ Ht Hpart) as Hpart0.
  assert (∀ k v, tdb_lookup tdb_create k = Some v → False) as Hcreate by (intros k v; by rewrite tdb_lookup_create).
  destruct Hcase as [(-> & -> & _ & Hwhy)|(p & r1 & Hp & Hpos & Hmax & E1 & Hr1 & _)].
  - split; [done|]. split; [done|]. split; [|intros k v Hv; by apply Hcreate in Hv].
    destruct Hwhy as [?|(n & Hn & [Hf|Htab])]; [by left|right; left; by exists n|].
    apply pull_nodes_ok in En as (_ & Hhas & _); [|done|done|apply Hpart0]. rewrite Forall_forall in Hhas.
    destruct (Hhas n Hn) as (s & db & Es & Ed & _). destruct Htab. apply (touched_table id nodes nodes0); [done|]. by exists s, db.
  - pose proof E1 as E1'. apply pull_one_partial in E1 as [[->| ->] Hpartial]; [| |done|apply Hpart0].
    + split; [done|]. split; [done|]. split.
      * right. right. destruct (pull_nodes_each _ _ _ _ _ _ _ p Hid (pt_fit _ _ _ Hpart0) En Hp) as (t & t' & Eagain).
        eapply pull_again; [done|apply Hpart0|exact Eagain| |exact E1'|by intros ->%Hr1]. intros k v Hv. by apply Hcreate in Hv.
      * intros k v Hv. destruct (Hpartial k v Hv) as [Hc|Hc]; [by apply Hcreate in Hc|by exists p].
    + apply pull_nodes_ok in En as (_ & Hhas & _); [|done|done|apply fit_delete, Hpart0]. rewrite Forall_forall in Hhas.
      destruct (Hhas p Hp) as (s & db & Es & _). by rewrite lookup_delete_eq in Es.
Qed.

Lemma pull_fallback_ok rec id nodemap nodes nodes1 recdb1 r nodes' recdb :
  is_u32 id → Forall (λ n, 0 <= nf_pnn n < 2 ^ 32 - 1) nodemap → participants id true nodes → by_seqnum true = true →
  pull_highest_seqnum_pdb tun env rec nodemap id nodes tdb_create = (nodes1, recdb1, r) → r ≠ 0 →
  pull_nodes tun env rec nodemap id nodes1 recdb1 = (nodes', recdb, None) →
  pulled (rd_recovery_master rec) id true nodemap nodes nodes' recdb.
Proof.
  intros Hid Hrange Hpart Hby E Hr En.
  destruct (fallback_reason _ _ _ _ _ _ _ _ _ Hid Hrange Hpart E Hr En) as (Ht & Hout & Hno & Hacc).
  pose proof (touched_parts _ _ _ _ Ht Hpart) as Hpart0.
  apply pull_nodes_ok in En as (-> & Hhas & Hk); [|done|done|apply Hpart0].
  assert (∀ k, highest_copy id nodes nodemap k (tdb_lookup recdb k)
    ∧ ∀ v, tdb_lookup recdb k = Some v → ∃ n, n ∈ active nodemap ∧ copy id k nodes1 n = Some v) as Hh.
  { intros k. eapply fallback_highest; [done|done|done|apply Hacc|apply Hk]. }
  split; [done|]. split; [done|]. split.
  - unfold chosen. rewrite Hby. right. split; [done|]. intros k. apply Hh.
  - intros k v Hv. apply Hh in Hv as (n & Hn & Hv). rewrite Forall_forall in Hhas. exists n. auto.
Qed.

(** The temporary database when the pull succeeds. *)
Lemma pull_remote_ok now rec id persistent nodemap nodes nodes' recdb rec' :
  is_u32 id → Forall (λ n, 0 <= nf_pnn n < 2 ^ 32 - 1) nodemap → participants id persistent nodes →
  pull_remote_database tun env now rec nodemap id persistent nodes tdb_create = Some (nodes', recdb, rec', 0) →
  rec' = rec ∧ pulled (rd_recovery_master rec) id persistent nodemap nodes nodes' recdb.
Proof.
  intros Hid Hrange Hpart. unfold pull_remote_database. fold (by_seqnum persistent).
  destruct (by_seqnum persistent) eqn:Hby.
  - assert (persistent = true) as -> by (by destruct persistent).
    destruct (pull_highest_seqnum_pdb _ _ _ _ _ _ _) as [[nodes1 t] ret] eqn:Eh. destruct (Z.eqb_spec ret 0) as [->|Hr].
    { intros [= <- <- <-]. split; [done|]. by eapply pull_seqnum_ok. }
    destruct (pull_nodes _ _ _ _ _ _ _) as [[nodes2 t2] failed] eqn:Ep.
    destruct failed as [p|]; [destruct (ctdb_set_culprit_count _ _ _ _ _); done|].
    intros [= <- <- <-]. split; [done|]. by eapply pull_fallback_ok.
  - change (-1 =? 0) with false. cbv iota beta.
    destruct (pull_nodes _ _ _ _ _ _ _) as [[nodes1 t] failed] eqn:Ep.
    destruct failed as [p|]; [destruct (ctdb_set_culprit_count _ _ _ _ _); done|].
    intros [= <- <- <-]. apply pull_nodes_ok in Ep as (-> & Hhas & Hk); [|done|done|apply Hpart].
    assert (∀ k, tdb_lookup t k = kept (rd_recovery_master rec) id nodes nodemap k) as Hk' by (intros k; by rewrite Hk, tdb_lookup_create).
    split; [done|]. split; [apply nodes_touched_refl|]. split; [done|]. split.
    + unfold chosen. by rewrite Hby.
    + intros k v. rewrite Hk'. intros Hv. apply best_max in Hv as [(n & Ec & Hn)%list_elem_of_fmap _].
      rewrite Forall_forall in Hhas. exists n. auto.
Qed.

Lemma pulled_records rm id persistent nodemap nodes nodes' recdb k v :
  participants id persistent nodes → pulled rm id persistent nodemap nodes nodes' recdb →
  tdb_lookup recdb k = Some v → Forall is_u8 v ∧ (sizeof_header <= length v)%nat.
Proof.
  intros Hpart (Ht & _ & _ & Hrec) Hv. destruct (Hrec k v Hv) as (n & _ & Hhas & Hc).
  eapply copy_ok; [by eapply touched_parts|done..].
Qed.

(** Only the copies matter. *)
Lemma chosen_same rm id persistent nodes nodes' nodemap B :
  (∀ k n, copy id k nodes' n = copy id k nodes n) →
  chosen rm id persistent nodes' nodemap B → chosen rm id persistent nodes nodemap B.
Proof.
  intros Hc. assert (∀ n, node_seqnum id nodes' n = node_seqnum id nodes n) as Hn by (intros n; unfold node_seqnum; by rewrite Hc).
  unfold chosen. destruct (by_seqnum persistent).
  - intros [(p & Hp & H1 & H2 & H3)|[Hno Hk]]; [left; exists p|right].
    + rewrite <- Hn. split_and!; try done; [intros n; rewrite <- Hn; apply H2|]. intros k. by rewrite <- Hc.
    + split.
      * destruct Hno as [H1|H1]; [left; intros n; rewrite <- Hn; apply H1|by right].
      * intros k. destruct (Hk k) as [[E H1]|(n & H1 & H2 & H3)]; [left|right].
        { split; [done|]. intros n. rewrite <- Hc. apply H1. }
        exists n. rewrite <- Hc. split_and!; try done. intros m. rewrite <- Hc. apply H3.
  - intros H1 k. rewrite H1. unfold kept. f_equal. apply list_fmap_ext. intros i n _. apply Hc.
Qed.
End seqnum.
