(* ===== verification/RecoveryProps.v ===== *)
(** * Properties of recovery

    A recovery that completes, one that is given up, and where the controls of a
    recovery fall short. *)
From S2P Require Import Prelude Protocol Queue Marshal Ltdb Node Call Freeze Recovery RecoveryMerge RecoverySeqnum.

Section recovered.
Context {T : Type} `{TdbLaws T, !TdbTxn T, !TdbTxnLaws T}.
Variables (tun : tunables) (env : rec_env).
Implicit Types (db : ctdb_db_context T) (s : freeze_ctx T) (nodes : gmap Z (freeze_ctx T)).

Lemma wipe_ok id tid s out s' :
  dispatch tun env (CTDB_CONTROL_WIPE_DATABASE id tid) s = Reply 0 out s' →
  same_node id s s' ∧ ∃ db db', find_db id (fx_dbs s) = Some db ∧ find_db id (fx_dbs s') = Some db'
  ∧ db_persistent db' = db_persistent db ∧ db_server_store db' = db_server_store db
  ∧ ∀ k, tdb_fetch (db_ltdb db') k = [].
Proof.
  simpl. unfold ctdb_control_wipe_database.
  destruct (find_db id (fx_dbs s)) as [db|] eqn:Ed; [|done].
  destruct (negb _); [done|]. destruct (negb _); [done|]. destruct (negb _); [done|].
  destruct (tdb_wipe_all (db_ltdb db)) as [t ret] eqn:Ew.
  destruct (Z.eqb_spec ret 0) as [->|]; [|done]. simpl. intros [= <- <-].
  set (db' := if negb (db_persistent db) then _ else _).
  assert (db_id db' = db_id db ∧ db_ltdb db' = t ∧ db_persistent db' = db_persistent db
          ∧ db_server_store db' = db_server_store db) as (Ei & Et & Ep & Es)
    by (unfold db'; by case_goal).
  pose proof (find_db_id _ _ _ Ed) as Hid.
  split; [split; [done|]; intros id' Hne; apply find_put_other; congruence|].
  exists db, db'. split_and!; try done.
  - rewrite <- Hid, <- Ei.
    change (fx_dbs (set_fx_dbs s ?l)) with l. eapply find_put. by rewrite Ei, Hid.
  - intros k. rewrite Et, tdb_fetch_lookup. by erewrite tdb_lookup_wipe.
Qed.

Lemma push_readonly_db db :
  db_id (push_readonly db).1 = db_id db ∧ db_ltdb (push_readonly db).1 = db_ltdb db.
Proof.
  unfold push_readonly. destruct (db_readonly db); [|done].
  destruct (tdb_wipe_all _) as [t ret]. by destruct (negb _).
Qed.

Lemma push_ok blob s out s' :
  dispatch tun env (CTDB_CONTROL_PUSH_DB blob) s = Reply 0 out s' →
  ∃ db db1 db', find_db (mb_db_id blob) (fx_dbs s) = Some db
  ∧ push_records (daemon_lc (fx_ctdb s)) (mb_records blob) db = (0, db1)
  ∧ (db_id db1 = db_id db →
     find_db (mb_db_id blob) (fx_dbs s') = Some db' ∧ db_ltdb db' = db_ltdb db1
     ∧ same_node (mb_db_id blob) s s').
Proof.
  simpl. unfold ctdb_control_push_db. destruct (Nat.ltb _ _); [done|].
  destruct (find_db _ (fx_dbs s)) as [db|] eqn:Ed; [|done].
  destruct (negb _); [done|]. destruct (negb _); [done|].
  destruct (push_records _ _ _) as [ret db1] eqn:Ep.
  destruct (Z.eqb_spec ret 0) as [->|]; [|done]. simpl.
  pose proof (push_readonly_db db1) as [Ei El].
  destruct (push_readonly db1) as [db' deferred]. simpl in Ei, El. intros [= <- <-].
  exists db, db1, db'. split_and!; try done. intros Hid.
  pose proof (find_db_id _ _ _ Ed) as Hid'. split_and!; [|done|split; [done|]].
  - rewrite <- Hid', <- Hid, <- Ei.
    change (fx_dbs _) with (put_db db' (fx_dbs s)). eapply find_put. by rewrite Ei, Hid, Hid'.
  - intros id' Hne. transitivity (find_db id' (put_db db' (fx_dbs s))); [done|].
    apply find_put_other. congruence.
Qed.

Hypothesis Htun : prealloc_ok tun.
Hypothesis Harrive : ∀ l, re_arrive env l ≡ₚ l.

(** The record [b] as it is on node [n] after a recovery by node [pnn]. *)
Definition recovered_record (pnn n : Z) (persistent : bool) db (k : bytes) (b : option bytes) : Prop :=
  match b with
  | Some v =>
      if negb persistent && Nat.leb (length v) sizeof_header then tdb_fetch (db_ltdb db) k = []
      else ∃ h, tdb_fetch (db_ltdb db) k = header_bytes h ++ drop sizeof_header v ∧ header_ok h
        ∧ dmaster h = (if persistent then dmaster (header_of_bytes v) else pnn)
        ∧ (flags h &? CTDB_REC_RO_FLAGS) = false
        ∧ (persistent = false → rsn h = if n =? pnn then u64 (rsn (header_of_bytes v) + 1)
                                        else rsn (header_of_bytes v))
  | None => tdb_fetch (db_ltdb db) k = []
  end.

Lemma pushed_ok pnn persistent v :
  is_u32 pnn → Forall is_u8 v → (sizeof_header <= length v)%nat →
  match pushed pnn persistent v with
  | None => persistent = false ∧ (length v <= sizeof_header)%nat
  | Some d => Forall is_u8 d ∧ (drop sizeof_header d ≠ [] ∨ persistent = true)
      ∧ (negb persistent && Nat.leb (length v) sizeof_header) = false
      ∧ drop sizeof_header d = drop sizeof_header v
      ∧ dmaster (header_of_bytes d) = (if persistent then dmaster (header_of_bytes v) else pnn)
      ∧ rsn (header_of_bytes d) = rsn (header_of_bytes v)
  end.
Proof.
  intros Hp Hv Hl. unfold pushed. destruct persistent; cbn [negb andb].
  { split_and!; try done. by right. }
  destruct (Nat.leb_spec (length v) sizeof_header) as [|Hlt]; [done|].
  destruct (recdb_record_spec pnn v Hp Hv Hl) as (E1 & E2 & E3 & E4 & E5).
  split_and!; try done. left. rewrite E2. intros E. apply (f_equal length) in E.
  rewrite length_drop in E. simpl in E. lia.
Qed.

(** Pushing the records kept to a node with an empty database. *)
Lemma push_node lc vm pnn (persistent : bool) recdb db db1 l k :
  is_u32 pnn → lc_vnn_map lc = Some vm → db_server_store db = true →
  db_persistent db = persistent → (∀ k, tdb_fetch (db_ltdb db) k = []) →
  (∀ k v, tdb_lookup recdb k = Some v → Forall is_u8 v ∧ (sizeof_header <= length v)%nat) →
  tdb_traverse_read recdb = Some l →
  push_records lc (omap (λ kv, pushed pnn persistent kv.2 ≫= λ v, Some (kv.1, v)) l) db = (0, db1) →
  same_db db db1 ∧ recovered_record pnn (lc_pnn lc) persistent db1 k (tdb_lookup recdb k).
Proof.
  intros Hpnn Hvm Hs Hp He Hrec Hl Epush.
  destruct (omap_keys (pushed pnn persistent) l) as [Hnd Hlk]; [by eapply tdb_traverse_nodup|].
  assert (∀ k' v, (k', v) ∈ l → Forall is_u8 v ∧ (sizeof_header <= length v)%nat) as Hl'.
  { intros k' v Hin. apply (Hrec k'). by apply (tdb_traverse_spec _ _ _ _ Hl). }
  apply (push_records_ok lc vm) in Epush as [Hsame Hst]; [|done|done|done|].
  2:{ apply Forall_forall. intros [k' d] Hin. apply list_elem_of_omap in Hin as ([k'' v] & Hin & E).
      destruct (Hl' _ _ Hin) as [Hu Hle]. pose proof (pushed_ok pnn persistent v Hpnn Hu Hle) as Hd.
      cbn [fst snd] in E. destruct (pushed pnn persistent v) as [d'|]; [|done].
      cbn [mbind option_bind] in E. injection E as <- <-. cbn [snd]. rewrite Hp.
      by destruct Hd as (? & ? & _). }
  split; [exact Hsame|]. specialize (Hst k). rewrite Hlk, (traverse_lookup recdb l k Hl) in Hst.
  destruct (tdb_lookup recdb k) as [v|] eqn:Ev; cbn [mbind option_bind] in Hst;
    unfold recovered_record; [|by rewrite Hst, He].
  destruct (Hrec _ _ Ev) as [Hu Hle]. pose proof (pushed_ok pnn persistent v Hpnn Hu Hle) as Hd.
  destruct (pushed pnn persistent v) as [d|].
  - destruct Hd as (_ & Hne & -> & Edrop & Edm & Ersn). destruct Hst as (_ & h & H1 & H2 & H3 & H4 & H5).
    exists h. rewrite <- Edrop, <- Edm, <- Ersn. split_and!; try done. intros ->.
    destruct Hne as [Hne|Hne]; [|done]. rewrite (H5 Hne), Hp. cbn [negb andb]. by rewrite Edm.
  - destruct Hd as [-> Hle']. cbn [negb andb]. rewrite (proj2 (Nat.leb_le _ _)) by done.
    by rewrite Hst, He.
Qed.

Lemma recdb_blob_ok rec id persistent recdb blob :
  is_u32 id → recdb_blob tun rec id persistent recdb = Some blob →
  ∃ l, tdb_traverse_read recdb = Some l ∧ mb_db_id blob = id
  ∧ mb_records blob = omap (λ kv, pushed (rd_pnn rec) persistent kv.2 ≫= λ v, Some (kv.1, v)) l.
Proof.
  intros Hid. unfold recdb_blob.
  destruct (tdb_traverse_read recdb) as [l|]; [|done]. cbn [mbind option_bind].
  destruct (traverse _ l _) as [params|] eqn:Et; [|done]. cbn [mbind option_bind].
  destruct (pd_failed params) eqn:Ef; [done|]. intros [= <-].
  apply recdb_traverse in Et as (E1 & E2 & _); [|done..]. by exists l.
Qed.

(** One node is wiped and gets the records of the temporary database. *)
Lemma recover_node rec id persistent tid nodes n recdb l blob s0 o1 s1 o2 s2 :
  is_u32 (rd_pnn rec) → participants id persistent nodes → nodes !! n = Some s0 →
  (∀ k v, tdb_lookup recdb k = Some v → Forall is_u8 v ∧ (sizeof_header <= length v)%nat) →
  tdb_traverse_read recdb = Some l → mb_db_id blob = id →
  mb_records blob = omap (λ kv, pushed (rd_pnn rec) persistent kv.2 ≫= λ v, Some (kv.1, v)) l →
  dispatch tun env (CTDB_CONTROL_WIPE_DATABASE id tid) s0 = Reply 0 o1 s1 →
  dispatch tun env (CTDB_CONTROL_PUSH_DB blob) s1 = Reply 0 o2 s2 →
  same_node id s0 s2 ∧ ∃ db, find_db id (fx_dbs s2) = Some db
  ∧ ∀ k, recovered_record (rd_pnn rec) n persistent db k (tdb_lookup recdb k).
Proof.
  intros Hpnn Hpart E0 Hrec Hl Eid Erecs Ed1 Ed2.
  apply wipe_ok in Ed1 as ((Epnn & Hsame1) & db & dbw & Edb & Edbw & Ep1 & Es1 & Hempty).
  apply push_ok in Ed2 as (dbw' & db1 & db2 & Edbw' & Erun & Hres).
  rewrite Eid in *. rewrite Edbw in Edbw'. injection Edbw' as <-.
  destruct (pt_db _ _ _ Hpart n s0 db E0 Edb) as (_ & Hss & Hpers). rewrite Erecs in Erun.
  assert (∀ k, same_db dbw db1
    ∧ recovered_record (rd_pnn rec) n persistent db1 k (tdb_lookup recdb k)) as Hnode.
  { intros k. rewrite <- (pt_pnn _ _ _ Hpart n s0 E0), <- Epnn.
    eapply (push_node (daemon_lc (fx_ctdb s1)));
      [done|reflexivity|congruence|congruence|done|done|done|exact Erun]. }
  destruct (Hnode []) as [(t & q & c & Edb1) _].
  destruct Hres as (Hf & Hltdb & Epnn2 & Hsame2); [by rewrite Edb1|].
  split; [split; [congruence|]; intros id' Hne; by rewrite Hsame2, Hsame1|].
  exists db2. split; [done|]. intros k. destruct (Hnode k) as [_ Hr].
  unfold recovered_record in *. by rewrite Hltdb.
Qed.

Lemma recover_database_ok now rec id persistent nodemap tid nodes nodes' rec' :
  is_u32 (rd_pnn rec) → is_u32 id → NoDup (active nodemap) →
  Forall (λ n, 0 <= nf_pnn n < 2 ^ 32 - 1) nodemap →
  participants id persistent nodes →
  recover_database tun env now rec id persistent nodemap tid nodes = Some (nodes', rec', 0) →
  rec' = rec ∧ (∀ n, n ∉ active nodemap → nodes' !! n = nodes !! n)
  ∧ ∃ B, chosen tun env (rd_recovery_master rec) id persistent nodes nodemap B
  ∧ ∀ n, n ∈ active nodemap → ∃ s0 s db, nodes !! n = Some s0 ∧ nodes' !! n = Some s
      ∧ same_node id s0 s ∧ find_db id (fx_dbs s) = Some db
      ∧ ∀ k, recovered_record (rd_pnn rec) n persistent db k (B k).
Proof.
  intros Hpnn Hid Hnd Hrange Hpart. unfold recover_database.
  destruct (re_recdb env); [|done]. cbn [negb].
  destruct (pull_remote_database _ _ _ _ _ _ _ _ _) as [[[[nodes1 recdb] rec1] ret1]|] eqn:Ep; [|done].
  cbn [mbind option_bind]. destruct (Z.eqb_spec ret1 0) as [->|]; [|done]. cbn [negb].
  apply pull_remote_ok in Ep as (-> & Hpull); [|done..].
  pose proof Hpull as (Ht & Hout & Hch & _).
  rewrite active_list by done.
  destruct (async_control _ _ _ _ _) as [nodes2 ret2] eqn:Ew.
  destruct (Z.eqb_spec ret2 0) as [->|]; [|done]. cbn [negb].
  apply async_control_ok in Ew as [Hw Hw']; [|done..].
  unfold push_recdb_database. destruct (recdb_blob _ _ _ _ _) as [blob|] eqn:Eb; [|done].
  apply recdb_blob_ok in Eb as (l & Hl & Eid & Erecs); [|done]. rewrite active_list by done.
  destruct (async_control _ _ _ _ _) as [nodes3 ret3] eqn:Epush.
  destruct (Z.eqb_spec ret3 0) as [->|]; [|done]. cbn [negb]. intros [= <- <-].
  apply async_control_ok in Epush as [Hp Hp']; [|done..].
  split; [done|]. split; [intros n Hn; by rewrite Hp', Hw', Hout|].
  exists (tdb_lookup recdb). split; [done|].
  intros n Hn. destruct (Hw n Hn) as (s0 & o1 & s1 & E0 & Ed1 & E1).
  destruct (Hp n Hn) as (s1' & o2 & s2 & E1' & Ed2 & E2). rewrite E1 in E1'. injection E1' as <-.
  pose proof (Ht n) as Hn0. rewrite E0 in Hn0. destruct (nodes !! n) as [s|] eqn:Es; [|done].
  eapply recover_node in Ed2 as (Hsame & db & Edb & Hdb);
    [|done|by eapply touched_parts|done|by intros k v; eapply pulled_records|done..].
  exists s, s2, db. split_and!; try done. by eapply same_node_trans; [apply Hn0|].
Qed.

(** What a node sees of a recovered record. *)
Lemma recovered_views pnn n persistent db k b :
  recovered_record pnn n persistent db k b →
  view_data db k = default [] (drop sizeof_header <$> b)
  ∧ (persistent = false → ∀ vm,
       view_dmaster vm db k = if decide (view_data db k = []) then ctdb_lmaster vm k else pnn)
  ∧ (persistent = false → ∀ v, b = Some v → view_data db k ≠ [] →
       view_rsn db k = if n =? pnn then u64 (rsn (header_of_bytes v) + 1)
                       else rsn (header_of_bytes v)).
Proof.
  unfold recovered_record. destruct b as [v|]; cbn [fmap option_fmap option_map default].
  - destruct (negb persistent && _) eqn:Eb.
    + intros E. assert (drop sizeof_header v = []) as Hv.
      { apply andb_prop in Eb as [_ Eb%Nat.leb_le]. by apply drop_ge. }
      split_and!.
      * destruct (view_empty (mk_vnn_map 0 0 []) db k E) as (_ & -> & _). by rewrite Hv.
      * intros _ vm. destruct (view_empty vm db k E) as (-> & -> & _). by rewrite decide_True.
      * intros _ v' _ Hne. destruct (view_empty (mk_vnn_map 0 0 []) db k E) as (_ & E' & _). done.
    + intros (h & E & Hok & Hd & _ & Hr). split_and!.
      * by destruct (view_stored (mk_vnn_map 0 0 []) db k h _ Hok E) as (_ & -> & _).
      * intros -> vm. destruct (view_stored vm db k h _ Hok E) as (-> & -> & _).
        cbn [negb andb] in Eb. apply Nat.leb_gt in Eb. rewrite decide_False; [done|].
        intros Ed. apply (f_equal length) in Ed. rewrite length_drop in Ed. simpl in Ed. lia.
      * intros -> v' [= <-] _. destruct (view_stored (mk_vnn_map 0 0 []) db k h _ Hok E) as (_ & _ & ->).
        by apply Hr.
  - intros E. split_and!; [by destruct (view_empty (mk_vnn_map 0 0 []) db k E) as (_ & -> & _)| |done].
    intros _ vm. destruct (view_empty vm db k E) as (-> & -> & _). by rewrite decide_True.
Qed.

(** ** All databases *)

(** Two states of a node in which a database has the same content. *)
Definition same_view (id : Z) s s' : Prop :=
  cx_pnn (fx_ctdb s') = cx_pnn (fx_ctdb s) ∧
  match find_db id (fx_dbs s), find_db id (fx_dbs s') with
  | None, None => True
  | Some db, Some db' =>
      (∀ k, tdb_lookup (db_ltdb db') k = tdb_lookup (db_ltdb db) k)
      ∧ db_server_store db' = db_server_store db ∧ db_persistent db' = db_persistent db
  | _, _ => False
  end.

Definition same_table (id : Z) nodes nodes' : Prop := ∀ n,
  match nodes !! n, nodes' !! n with
  | None, None => True
  | Some s, Some s' => same_view id s s'
  | _, _ => False
  end.

Lemma same_view_refl id s : same_view id s s.
Proof. split; [done|]. by destruct (find_db id (fx_dbs s)). Qed.

Lemma same_view_trans id s1 s2 s3 : same_view id s1 s2 → same_view id s2 s3 → same_view id s1 s3.
Proof.
  intros [E1 H1] [E2 H2]. split; [congruence|].
  destruct (find_db id (fx_dbs s1)), (find_db id (fx_dbs s2)), (find_db id (fx_dbs s3)); try done.
  destruct H1 as (A1 & A2 & A3), H2 as (B1 & B2 & B3).
  split_and!; [intros k; by rewrite B1|congruence..].
Qed.

Lemma same_table_refl id nodes : same_table id nodes nodes.
Proof. intros n. destruct (nodes !! n); [apply same_view_refl|done]. Qed.

Lemma same_table_trans id n1 n2 n3 : same_table id n1 n2 → same_table id n2 n3 → same_table id n1 n3.
Proof.
  intros H1 H2 n. specialize (H1 n). specialize (H2 n).
  destruct (n1 !! n), (n2 !! n), (n3 !! n); try done. by eapply same_view_trans.
Qed.

(** A control that keeps the database on the nodes it reaches. *)
Lemma same_table_step id (pnns : list Z) nodes nodes' :
  (∀ n, n ∈ pnns → ∃ s s', nodes !! n = Some s ∧ nodes' !! n = Some s' ∧ same_view id s s') →
  (∀ n, n ∉ pnns → nodes' !! n = nodes !! n) → same_table id nodes nodes'.
Proof.
  intros H1 H2 n. destruct (decide (n ∈ pnns)) as [Hn|Hn].
  - destruct (H1 n Hn) as (s & s' & -> & -> & Hs). done.
  - rewrite (H2 n Hn). destruct (nodes !! n); [apply same_view_refl|done].
Qed.

Lemma same_table_copy id nodes nodes' k n :
  same_table id nodes nodes' → copy id k nodes' n = copy id k nodes n.
Proof.
  intros Hs. specialize (Hs n). unfold copy.
  destruct (nodes !! n) as [s|], (nodes' !! n) as [s'|]; try done. destruct Hs as [_ Hs].
  cbn [mbind option_bind].
  destruct (find_db id (fx_dbs s)), (find_db id (fx_dbs s')); try done. apply Hs.
Qed.

Lemma same_table_parts id persistent nodes nodes' :
  same_table id nodes nodes' → participants id persistent nodes →
  participants id persistent nodes'.
Proof.
  intros Hs [P1 P2 P3]. split.
  - intros n k v. rewrite (same_table_copy _ _ _ _ _ Hs). apply P1.
  - intros n s' E. specialize (Hs n). rewrite E in Hs. destruct (nodes !! n) as [s|] eqn:E0; [|done].
    destruct Hs as [-> _]. by apply P2.
  - intros n s' db' E Edb. specialize (Hs n). rewrite E in Hs.
    destruct (nodes !! n) as [s|] eqn:E0; [|done]. destruct Hs as [_ Hs]. rewrite Edb in Hs.
    destruct (find_db id (fx_dbs s)) as [db|] eqn:Edb0; [|done]. destruct Hs as (Hk & -> & ->).
    destruct (P3 n s db E0 Edb0) as (Hok & Hrest). split; [|done].
    intros k. rewrite tdb_fetch_lookup, Hk, <- tdb_fetch_lookup. apply Hok.
Qed.

(** The database is recovered on node [n]. *)
Definition recovered_on (B : bytes → option bytes) pnn id persistent nodes' (n : Z) : Prop :=
  ∃ s db, nodes' !! n = Some s ∧ find_db id (fx_dbs s) = Some db
  ∧ ∀ k, recovered_record pnn n persistent db k (B k).

Lemma recovered_on_same B pnn id persistent nodes1 nodes2 n :
  same_table id nodes1 nodes2 → recovered_on B pnn id persistent nodes1 n →
  recovered_on B pnn id persistent nodes2 n.
Proof.
  intros Hs (s & db & E & Edb & Hr). specialize (Hs n). rewrite E in Hs.
  destruct (nodes2 !! n) as [s'|] eqn:E2; [|done]. destruct Hs as [_ Hs]. rewrite Edb in Hs.
  destruct (find_db id (fx_dbs s')) as [db'|] eqn:Edb'; [|done]. destruct Hs as (Hk & _).
  exists s', db'. split_and!; try done. intros k. specialize (Hr k). unfold recovered_record in *.
  rewrite (tdb_fetch_lookup (db_ltdb db')), Hk, <- tdb_fetch_lookup. exact Hr.
Qed.

Lemma same_node_view id id' s s' : same_node id s s' → id' ≠ id → same_view id' s s'.
Proof.
  intros [E Hs] Hne. split; [done|]. rewrite Hs by done. by destruct (find_db id' (fx_dbs s)).
Qed.

Lemma recover_databases_ok now rec dbmap nodemap tid nodes nodes' rec' :
  is_u32 (rd_pnn rec) → NoDup (active nodemap) →
  Forall (λ n, 0 <= nf_pnn n < 2 ^ 32 - 1) nodemap → NoDup dbmap.*1 →
  Forall (λ '(id, persistent), is_u32 id ∧ participants id persistent nodes) dbmap →
  recover_databases tun env now rec dbmap nodemap tid nodes = Some (nodes', rec', 0) →
  rec' = rec ∧ (∀ id, id ∉ dbmap.*1 → same_table id nodes nodes')
  ∧ Forall (λ '(id, persistent), ∃ B, chosen tun env (rd_recovery_master rec) id persistent nodes nodemap B
              ∧ Forall (recovered_on B (rd_pnn rec) id persistent nodes') (active nodemap)) dbmap.
Proof.
  intros Hpnn Hnd Hrange. revert nodes.
  induction dbmap as [|[id persistent] dbmap IH]; intros nodes Hids Hdbs; simpl.
  { intros [= <- <-]. split_and!; [done| |done]. intros id _. apply same_table_refl. }
  apply NoDup_cons in Hids as [Hid Hids]. apply Forall_cons in Hdbs as [(Hid32 & Hpart) Hdbs].
  destruct (recover_database _ _ _ _ _ _ _ _ _) as [[[nodes1 rec1] ret]|] eqn:Er; [|done].
  cbn [mbind option_bind]. destruct (Z.eqb_spec ret 0) as [->|]; [|done]. cbn [negb].
  apply recover_database_ok in Er as (-> & Hout & B & Hch & Hin); [|done..].
  assert (∀ id', id' ≠ id → same_table id' nodes nodes1) as Hother.
  { intros id' Hne. apply (same_table_step id' (active nodemap)); [|done].
    intros n Hn. destruct (Hin n Hn) as (s0 & s & db & E0 & E1 & Hs & _). exists s0, s.
    split_and!; try done. by eapply same_node_view. }
  intros E. destruct (IH nodes1 Hids) as (-> & Hsame & Hrec); [|done|].
  { rewrite Forall_forall in *. intros [id' p'] Hin'. destruct (Hdbs _ Hin') as (H1 & H2).
    split; [done|]. eapply same_table_parts, H2. apply Hother.
    intros ->. apply Hid. apply list_elem_of_fmap. by exists (id, p'). }
  split; [done|]. split.
  - intros id' [Hne Hid']%not_elem_of_cons. eapply same_table_trans; [by apply Hother|by apply Hsame].
  - apply Forall_cons. split.
    + exists B. split; [done|]. apply Forall_forall. intros n Hn.
      destruct (Hin n Hn) as (s0 & s & db & _ & E1 & _ & Edb & Hdb).
      eapply recovered_on_same; [by apply Hsame|]. by exists s, db.
    + rewrite Forall_forall in *. intros [id' p'] Hin'. destruct (Hrec _ Hin') as (B' & Hch' & Hon').
      exists B'. split; [|done]. eapply chosen_same, Hch'. intros k n. apply same_table_copy, Hother.
      intros ->. apply Hid. apply list_elem_of_fmap. by exists (id, p').
Qed.

(** A change of the databases that keeps their content. *)
Definition same_content db db' : Prop :=
  db_id db' = db_id db ∧ (∀ k, tdb_lookup (db_ltdb db') k = tdb_lookup (db_ltdb db) k)
  ∧ db_server_store db' = db_server_store db ∧ db_persistent db' = db_persistent db.

Lemma same_content_view id s s' :
  cx_pnn (fx_ctdb s') = cx_pnn (fx_ctdb s) → Forall2 same_content (fx_dbs s) (fx_dbs s') →
  same_view id s s'.
Proof.
  intros E Hdbs. split; [done|]. induction Hdbs as [|db db' dbs dbs' (Ei & Hrest) _ IH]; simpl; [done|].
  rewrite Ei. by destruct (db_id db =? id).
Qed.

Lemma start_dbs_ok dbs dbs' :
  start_dbs false dbs = (dbs', 0) → Forall2 same_content dbs dbs'.
Proof.
  revert dbs'. induction dbs as [|db dbs IH]; intros dbs'; simpl; [by intros [= <-]|].
  destruct (tdb_transaction_start (db_ltdb db)) as [t ret] eqn:Et.
  destruct (Z.eqb_spec ret 0) as [->|]; [|done]. cbn [negb].
  destruct (start_dbs false dbs) as [dbs1 ret1]. intros [= <- ->].
  apply tdb_start_ok in Et as (_ & _ & Hk & _). constructor; [|by apply IH]. by split_and!.
Qed.

Lemma commit_dbs_ok health dbs dbs' :
  commit_dbs health dbs = (dbs', 0) → Forall2 same_content dbs dbs'.
Proof.
  revert dbs'. induction dbs as [|db dbs IH]; intros dbs'; simpl; [by intros [= <-]|].
  destruct (tdb_transaction_commit (db_ltdb db)) as [t ret] eqn:Et.
  destruct (Z.eqb_spec ret 0) as [->|]; [|done]. cbn [negb].
  destruct (health _); [|done]. cbn [negb].
  destruct (commit_dbs health dbs) as [dbs1 ret1]. intros [= <- ->].
  apply tdb_commit_ok in Et as (_ & _ & Hk). constructor; [|by apply IH]. by split_and!.
Qed.

Lemma start_ok id g s out s' :
  fx_transaction_started s = false →
  dispatch tun env (CTDB_CONTROL_TRANSACTION_START g) s = Reply 0 out s' → same_view id s s'.
Proof.
  intros Hs. simpl. unfold ctdb_control_transaction_start. destruct (negb _); [done|].
  rewrite Hs. destruct (start_dbs _ _) as [dbs ret] eqn:E.
  destruct (Z.eqb_spec ret 0) as [->|]; [|done]. simpl. intros [= <- <-].
  apply same_content_view; [done|]. by apply start_dbs_ok.
Qed.

Lemma commit_ok g s out s' :
  dispatch tun env (CTDB_CONTROL_TRANSACTION_COMMIT g) s = Reply 0 out s' →
  (∀ id, same_view id s s') ∧ fx_transaction_started s' = false.
Proof.
  simpl. unfold ctdb_control_transaction_commit. destruct (negb _); [done|].
  destruct (negb _); [done|]. destruct (negb _); [done|].
  destruct (commit_dbs _ _) as [dbs ret] eqn:E.
  destruct (Z.eqb_spec ret 0) as [->|]; [|done]. simpl. intros [= <- <-].
  split; [|done]. intros id. apply same_content_view; [done|]. by eapply commit_dbs_ok.
Qed.

Lemma setvnnmap_ok map s out s' :
  dispatch tun env (CTDB_CONTROL_SETVNNMAP map) s = Reply 0 out s' →
  (∀ id, same_view id s s') ∧ fx_transaction_started s' = fx_transaction_started s
  ∧ (vm_size map = Z.of_nat (length (vm_map map)) → cx_vnn_map (fx_ctdb s') = map).
Proof.
  simpl. unfold ctdb_control_setvnnmap. destruct (negb _); [done|]. simpl. intros [= <- <-].
  split_and!; [intros id; apply (same_view_refl id s)|done|].
  intros Hm. simpl. destruct map as [g size l]. simpl in *. subst size. by rewrite Nat2Z.id, firstn_all.
Qed.

Lemma update_vnnmap_ok map nodemap nodes nodes' :
  NoDup (active nodemap) → update_vnnmap_on_all_nodes tun env map nodemap nodes = (nodes', 0) →
  (∀ id, same_table id nodes nodes')
  ∧ (∀ n, n ∉ active nodemap → nodes' !! n = nodes !! n)
  ∧ ∀ n, n ∈ active nodemap → ∃ s s', nodes !! n = Some s ∧ nodes' !! n = Some s'
      ∧ fx_transaction_started s' = fx_transaction_started s
      ∧ (vm_size map = Z.of_nat (length (vm_map map)) → cx_vnn_map (fx_ctdb s') = map).
Proof.
  unfold active. revert nodes. induction nodemap as [|n nodemap IH]; intros nodes; simpl.
  { intros _ [= <-]. split_and!; [intros; apply same_table_refl|done|].
    intros n Hn. by apply elem_of_nil in Hn. }
  rewrite filter_cons. destruct (nf_flags n &? NODE_FLAGS_INACTIVE) eqn:Ef;
    [rewrite decide_False by done; apply IH|].
  rewrite decide_True by done. simpl. intros [Hn Hnd]%NoDup_cons.
  unfold ctdb_ctrl_setvnnmap. destruct (send_control _ _ _ _ _) as [nodes1 answer] eqn:Es.
  destruct answer as [[status out]|]; [|done]. destruct (Z.eqb_spec status 0) as [->|]; [|done].
  cbn [negb]. intros E. apply send_control_ok in Es as (s & s1 & E0 & Ed & ->).
  apply setvnnmap_ok in Ed as (Hv & Ht & Hm). destruct (IH _ Hnd E) as (H1 & H2 & H3).
  assert (nodes' !! nf_pnn n = Some s1) as En by (rewrite H2 by done; apply lookup_insert_eq).
  split_and!.
  - intros id. eapply same_table_trans; [|apply H1]. apply (same_table_step id [nf_pnn n]).
    + intros m ->%list_elem_of_singleton. exists s, s1. by rewrite lookup_insert_eq.
    + intros m Hne. apply lookup_insert_ne. intros <-. apply Hne. by left.
  - intros m [Hne Hm']%not_elem_of_cons. by rewrite H2, lookup_insert_ne by done.
  - intros m [->|Hm']%elem_of_cons; [by exists s, s1|].
    destruct (H3 m Hm') as (s2 & s3 & E2 & E3 & E4). exists s2, s3.
    rewrite lookup_insert_ne in E2; [done|]. by intros <-.
Qed.

(** *** The whole recovery *)

Lemma set_own_vnnmap pnn map nodes nodes' :
  ctdb_ctrl_setvnnmap tun env pnn map nodes = (nodes', true) →
  (∀ id, same_table id nodes nodes')
  ∧ ∀ n s', nodes' !! n = Some s' →
      ∃ s, nodes !! n = Some s ∧ fx_transaction_started s' = fx_transaction_started s.
Proof.
  unfold ctdb_ctrl_setvnnmap. destruct (send_control _ _ _ _ _) as [nodes1 answer] eqn:Es.
  destruct answer as [[status out]|]; [|done]. destruct (Z.eqb_spec status 0) as [->|]; [|done].
  intros [= <-]. apply send_control_ok in Es as (s & s1 & E0 & Ed & ->).
  apply setvnnmap_ok in Ed as (Hv & Ht & _). split.
  - intros id. apply (same_table_step id [pnn]).
    + intros m ->%list_elem_of_singleton. exists s, s1. by rewrite lookup_insert_eq.
    + intros m Hne. apply lookup_insert_ne. intros <-. apply Hne. by left.
  - intros n s' En. destruct (decide (n = pnn)) as [->|Hne].
    + rewrite lookup_insert_eq in En. injection En as <-. by exists s.
    + rewrite lookup_insert_ne in En by done. by exists s'.
Qed.

Lemma start_all id g pnns nodes nodes' :
  NoDup pnns → (∀ n s, nodes !! n = Some s → fx_transaction_started s = false) →
  async_control tun env (CTDB_CONTROL_TRANSACTION_START g) pnns nodes = (nodes', 0) →
  same_table id nodes nodes'.
Proof.
  intros Hnd Hs E. apply async_control_ok in E as [H1 H2]; [|done..].
  apply (same_table_step id pnns); [|done]. intros n Hn.
  destruct (H1 n Hn) as (s & out & s' & E1 & Ed & E2). exists s, s'. split_and!; try done.
  eapply start_ok, Ed. by apply (Hs n).
Qed.

Lemma commit_all g pnns nodes nodes' :
  NoDup pnns → async_control tun env (CTDB_CONTROL_TRANSACTION_COMMIT g) pnns nodes = (nodes', 0) →
  (∀ id, same_table id nodes nodes')
  ∧ ∀ n, n ∈ pnns → ∃ s, nodes' !! n = Some s ∧ fx_transaction_started s = false.
Proof.
  intros Hnd E. apply async_control_ok in E as [H1 H2]; [|done..]. split.
  - intros id. apply (same_table_step id pnns); [|done]. intros n Hn.
    destruct (H1 n Hn) as (s & out & s' & E1 & Ed & E2). exists s, s'. split_and!; try done.
    by apply commit_ok in Ed as [? _].
  - intros n Hn. destruct (H1 n Hn) as (s & out & s' & E1 & Ed & E2). exists s'.
    by apply commit_ok in Ed as [_ ?].
Qed.

(** The databases as the recovery daemon lists them. *)
Definition dbmap_ok (dbmap : list (Z * bool)) nodes : Prop :=
  NoDup dbmap.*1
  ∧ Forall (λ '(id, persistent), is_u32 id ∧ participants id persistent nodes) dbmap.

Lemma dbmap_same dbmap nodes nodes' :
  (∀ id, same_table id nodes nodes') → dbmap_ok dbmap nodes → dbmap_ok dbmap nodes'.
Proof.
  intros Hs [H1 H2]. split; [done|]. eapply Forall_impl; [exact H2|].
  intros [id p] (A & B). split; [done|]. by eapply same_table_parts.
Qed.

Lemma new_vnnmap_ok g pnn caps nodemap :
  is_u32 pnn → Forall (λ n, 0 <= nf_pnn n < 2 ^ 32 - 1) nodemap →
  vnn_map_ok (new_vnnmap g pnn caps nodemap)
  ∧ ∀ n, n ∈ vm_map (new_vnnmap g pnn caps nodemap) → n ∈ active nodemap ∨ n = pnn.
Proof.
  intros Hp Hn. unfold new_vnnmap. set (map := omap _ _). cbv zeta.
  assert (∀ n, n ∈ map → n ∈ active nodemap ∧ is_u32 n) as Hmap.
  { intros n Hin. apply list_elem_of_omap in Hin as ([i x] & Hin & E).
    apply list_elem_of_lookup in Hin as [j Hj]. apply lookup_zip_with_Some in Hj as (a & b & [= <- <-] & _ & Hx).
    destruct (nf_flags x &? NODE_FLAGS_INACTIVE) eqn:Ef; [done|]. case_hyp E; [|done]. injection E as <-.
    apply list_elem_of_lookup_2 in Hx. rewrite Forall_forall in Hn. specialize (Hn x Hx). split.
    - apply list_elem_of_fmap. exists x. split; [done|]. by apply list_elem_of_filter.
    - unfold is_u32. lia. }
  destruct (bool_decide_reflect (map = [])) as [E|E]; split; simpl.
  - unfold vnn_map_ok. simpl. split_and!; [done|lia|]. by apply Forall_singleton.
  - intros n ->%list_elem_of_singleton. by right.
  - unfold vnn_map_ok. simpl. split_and!; [done| |apply Forall_forall; intros n Hin; by apply Hmap].
    destruct map; [done|]. simpl. lia.
  - intros n Hin. left. by apply Hmap.
Qed.

(** What a completed recovery leaves on the active nodes: of each database the
    records [B] that were chosen. *)
Definition recovery_done rm pnn map (dbmap : list (Z * bool)) nodemap nodes nodes' : Prop :=
  (∀ n, n ∈ active nodemap → ∃ s, nodes' !! n = Some s
    ∧ fx_transaction_started s = false ∧ cx_vnn_map (fx_ctdb s) = map)
  ∧ ∀ id persistent, (id, persistent) ∈ dbmap →
    ∃ B, chosen tun env rm id persistent nodes nodemap B
    ∧ ∀ n, n ∈ active nodemap → ∃ s db, nodes' !! n = Some s ∧ find_db id (fx_dbs s) = Some db ∧ ∀ k,
        view_data db k = default [] (drop sizeof_header <$> B k)
        ∧ (persistent = false →
           view_dmaster map db k = if decide (view_data db k = []) then ctdb_lmaster map k else pnn)
        ∧ (persistent = false → ∀ v, B k = Some v → view_data db k ≠ [] →
           view_rsn db k = if n =? pnn then u64 (rsn (header_of_bytes v) + 1)
                           else rsn (header_of_bytes v)).

Lemma recovery_ok now rec vnnmap g g' caps dbmap nodemap nodes nodes' rec' :
  is_u32 (rd_pnn rec) → NoDup (active nodemap) →
  Forall (λ n, 0 <= nf_pnn n < 2 ^ 32 - 1) nodemap → dbmap_ok dbmap nodes →
  (∀ n s, nodes !! n = Some s → fx_transaction_started s = false) →
  do_recovery_databases tun env now rec vnnmap g g' (Some caps) dbmap nodemap nodes
    = Some (nodes', rec', 0) →
  recovery_done (rd_recovery_master rec) (rd_pnn rec) (new_vnnmap g' (rd_pnn rec) caps nodemap)
    dbmap nodemap nodes nodes'.
Proof.
  intros Hpnn Hnd Hrange Hdbs Hstart. unfold do_recovery_databases.
  destruct (ctdb_ctrl_setvnnmap _ _ _ _ _) as [nodes1 ok] eqn:E1. destruct ok; [|done]. cbn [negb].
  apply set_own_vnnmap in E1 as [Hs1 Ht1]. rewrite active_list by done.
  destruct (ctdb_client_async_control _ _ _ _ _ _ nodes1 _) as [[nodes2 ret] rec2] eqn:E2.
  destruct (Z.eqb_spec ret 0) as [->|]; cbn [negb];
    [|destruct rec2; [|done]; cbn [mbind option_bind]; destruct (async_control _ _ _ _ nodes2); intros [=]].
  apply async_no_failure in E2 as [-> E2]. cbn [mbind option_bind].
  assert (∀ id, same_table id nodes nodes2) as Hs2.
  { intros id. eapply same_table_trans; [apply Hs1|]. eapply start_all, E2; [done|].
    intros n s En. destruct (Ht1 n s En) as (s0 & E0 & ->). by eapply Hstart. }
  destruct (dbmap_same _ _ _ Hs2 Hdbs) as [Hids Hparts].
  destruct (recover_databases _ _ _ _ _ _ _ _) as [[[nodes3 rec3] ret]|] eqn:E3; [|done].
  cbn [mbind option_bind]. destruct (Z.eqb_spec ret 0) as [->|]; [|done]. cbn [negb].
  apply recover_databases_ok in E3 as (-> & _ & Hrec); [|done..].
  destruct (async_control _ _ _ _ nodes3) as [nodes4 ret] eqn:E4.
  destruct (Z.eqb_spec ret 0) as [->|]; [|done]. cbn [negb].
  apply commit_all in E4 as [Hs4 Ht4]; [|done].
  destruct (update_vnnmap_on_all_nodes _ _ _ _ _) as [nodes5 ret] eqn:E5.
  destruct (Z.eqb_spec ret 0) as [->|]; [|done]. intros [= <- <-].
  apply update_vnnmap_ok in E5 as (Hs5 & _ & Hv5); [|done].
  split.
  { intros n Hn. destruct (Hv5 n Hn) as (s4 & s5 & E & E' & Ht5 & Hm).
    destruct (Ht4 n Hn) as (s4' & Es4 & Hf). rewrite E in Es4. injection Es4 as <-.
    exists s5. split_and!; [done|congruence|by apply Hm]. }
  intros id persistent Hin. rewrite Forall_forall in Hrec. destruct (Hrec _ Hin) as (B & Hch & Hon).
  exists B. split; [eapply chosen_same, Hch; intros k n; by apply same_table_copy|].
  rewrite Forall_forall in Hon. intros n Hn.
  apply Hon, (recovered_on_same _ _ _ _ _ nodes4), (recovered_on_same _ _ _ _ _ nodes5) in Hn
    as (s & db & Es & Edb & Hk); [|done..].
  exists s, db. split_and!; [done..|]. intros k.
  destruct (recovered_views _ _ _ _ _ _ (Hk k)) as (V1 & V2 & V3). split_and!; auto.
Qed.

End recovered.

Section recovery_theorem.
Context {T : Type} `{TdbLaws T, !TdbTxn T, !TdbTxnLaws T}.
Implicit Types (nodes : gmap Z (freeze_ctx T)).


End recovery_theorem.

(** ** A recovery that is given up *)

Section abandoned.
Context {T : Type} `{TdbLaws T, !TdbTxn T, !TdbTxnLaws T}.
Implicit Types (db : ctdb_db_context T) (s : freeze_ctx T) (t : T).

(** A change inside of an open transaction. *)
Definition within t t' : Prop :=
  tdb_in_transaction t = true →
  tdb_in_transaction t' = true ∧ ∀ k, tdb_saved t' k = tdb_saved t k.

Lemma within_refl t : within t t.
Proof. by intros. Qed.

Lemma within_trans t1 t2 t3 : within t1 t2 → within t2 t3 → within t1 t3.
Proof.
  intros H1 H2 Ht. destruct (H1 Ht) as [Ht2 E1]. destruct (H2 Ht2) as [Ht3 E2].
  split; [done|]. intros k. by rewrite E2.
Qed.

Lemma within_flag t b : within t (tdb_set_seqnum_flag t b).
Proof. intros Ht. destruct (tdb_set_flag_txn t b) as [-> E]. done. Qed.

Lemma within_op t key rec (keep : bool) t' r :
  (if keep then tdb_store t key rec else tdb_delete t key) = (t', r) → within t t'.
Proof.
  destruct keep; intros E Ht;
    [destruct (tdb_store_txn _ _ _ _ _ E) as [-> Hs]|destruct (tdb_delete_txn _ _ _ _ E) as [-> Hs]]; auto.
Qed.

Lemma within_suppressed (sup : bool) t key rec keep t' r :
  (let t0 := if sup then tdb_set_seqnum_flag t false else t in
   if keep : bool then tdb_store t0 key rec else tdb_delete t0 key) = (t', r) →
  within t (if sup then tdb_set_seqnum_flag t' true else t').
Proof.
  intros E. apply within_op in E. destruct sup; [|done].
  eapply within_trans; [apply within_flag|]. eapply within_trans; [exact E|apply within_flag].
Qed.

Lemma store_within lc db key h data ret h' db' :
  ctdb_ltdb_store lc db key h data = (ret, h', db') →
  db_id db' = db_id db ∧ within (db_ltdb db) (db_ltdb db').
Proof.
  unfold ctdb_ltdb_store. destruct (db_server_store db).
  - unfold ctdb_ltdb_store_server.
    set (choice := match lc_vnn_map lc with None => _ | Some _ => _ end).
    destruct choice as [[[keep h1] sched] rem]. set (h2 := set_flags (set_flags h1 _) _).
    set (sup := seqnum_unmodified db key (header_bytes h2 ++ data)).
    destruct (if keep then _ else _) as [t r] eqn:Et. apply within_suppressed in Et.
    set (t1 := if sup then tdb_set_seqnum_flag t true else t) in *.
    set (sr := if negb (r =? 0) then _ else _). destruct sr as [s' r'].
    destruct (schedule_writes lc (set_db_ltdb db t1) h2 key) as (q & c & Hs).
    set (dbs := if s' then _ else _).
    assert (db_id dbs = db_id db ∧ db_ltdb dbs = t1) as [Ei El]
      by (unfold dbs; destruct s'; [by rewrite Hs|done]).
    destruct (remove_writes lc dbs key) as (q2 & Hr). intros [= <- <- <-].
    destruct r'; [rewrite Hr; simpl|]; by rewrite El, Ei.
  - unfold ltdb_store_plain. set (sup := seqnum_unmodified db key _).
    destruct (tdb_store _ _ _) as [t r] eqn:Et. intros [= <- <- <-]. split; [done|].
    by apply (within_suppressed sup _ _ _ true) in Et.
Qed.

Lemma fetch_within lc db key h0 ret h data db' :
  ctdb_ltdb_fetch lc db key h0 = (ret, h, data, db') →
  db_id db' = db_id db ∧ within (db_ltdb db) (db_ltdb db').
Proof.
  unfold ctdb_ltdb_fetch. destruct (Nat.ltb _ _); [|intros [= <- <- <- <-]; split; [done|apply within_refl]].
  destruct (lc_vnn_map lc) as [vm|]; [|intros [= <- <- <- <-]; split; [done|apply within_refl]].
  destruct (_ || _); [|intros [= <- <- <- <-]; split; [done|apply within_refl]].
  destruct (ctdb_ltdb_store _ _ _ _ _) as [[r h'] d] eqn:E. intros [= <- <- <- <-].
  by apply store_within in E.
Qed.

Lemma push_within lc recs db ret db' :
  push_records lc recs db = (ret, db') → db_id db' = db_id db ∧ within (db_ltdb db) (db_ltdb db').
Proof.
  revert db. induction recs as [|[k d] recs IH]; intros db; simpl.
  { intros [= <- <-]. split; [done|apply within_refl]. }
  destruct (Nat.ltb _ _); [intros [= <- <-]; split; [done|apply within_refl]|].
  destruct (ctdb_ltdb_store _ _ _ _ _) as [[r h] db1] eqn:Es. apply store_within in Es as [Ei Hw].
  destruct (negb _); [by intros [= <- <-]|]. intros E. destruct (IH _ E) as [Ei' Hw'].
  split; [congruence|]. by eapply within_trans.
Qed.

(** All databases of a node change inside of their transactions. *)
Definition dbs_within s s' : Prop :=
  fx_transaction_started s' = fx_transaction_started s
  ∧ Forall2 (λ db db', db_id db' = db_id db ∧ within (db_ltdb db) (db_ltdb db')) (fx_dbs s) (fx_dbs s').

Lemma dbs_within_refl s : dbs_within s s.
Proof.
  split; [done|]. apply Forall_Forall2_diag. apply Forall_true. intros db. split; [done|apply within_refl].
Qed.

Lemma dbs_within_trans s1 s2 s3 : dbs_within s1 s2 → dbs_within s2 s3 → dbs_within s1 s3.
Proof.
  intros [E1 H1] [E2 H2]. split; [congruence|]. revert H2. generalize (fx_dbs s3).
  induction H1 as [|a b l1 l2 [Ei Hw] _ IH]; intros l3 H2; inversion H2 as [|? c ? l3' [Ei' Hw'] H3];
    subst; constructor; [|by apply IH].
  split; [congruence|]. by eapply within_trans.
Qed.

Lemma put_within db db' l :
  find_db (db_id db) l = Some db → db_id db' = db_id db → within (db_ltdb db) (db_ltdb db') →
  Forall2 (λ db db', db_id db' = db_id db ∧ within (db_ltdb db) (db_ltdb db')) l (put_db db' l).
Proof.
  intros Hf Hi Hw. induction l as [|d l IH]; simpl in *; [done|].
  assert (∀ l : list (ctdb_db_context T), Forall2 (λ db db', db_id db' = db_id db
    ∧ within (db_ltdb db) (db_ltdb db')) l l) as Hrefl.
  { intros l'. apply Forall_Forall2_diag. apply Forall_true. intros d'. split; [done|apply within_refl]. }
  rewrite Hi. destruct (Z.eqb_spec (db_id d) (db_id db)) as [E|E].
  - injection Hf as ->. constructor; [by rewrite Hi|apply Hrefl].
  - constructor; [split; [done|apply within_refl]|by apply IH].
Qed.

(** A control that a recovery sends between the start of the transaction and
    its end. *)
Definition recovery_control (c : control) : bool :=
  match c with
  | CTDB_CONTROL_PULL_DB _ | CTDB_CONTROL_GET_DB_SEQNUM _ | CTDB_CONTROL_WIPE_DATABASE _ _
  | CTDB_CONTROL_PUSH_DB _ | CTDB_CONTROL_SETVNNMAP _ => true
  | _ => false
  end.

Lemma wipe_within id tid s : dbs_within s (ctdb_control_wipe_database id tid s).2.
Proof.
  unfold ctdb_control_wipe_database. destruct (find_db id (fx_dbs s)) as [db|] eqn:Ed;
    [|apply dbs_within_refl].
  do 3 (case_goal; [apply dbs_within_refl|]).
  destruct (tdb_wipe_all (db_ltdb db)) as [t ret] eqn:Ew.
  assert (within (db_ltdb db) t) as Hw by (intros Ht; destruct (tdb_wipe_txn _ _ _ Ew) as [-> ?]; auto).
  pose proof (find_db_id _ _ _ Ed) as Hid. rewrite <- Hid in Ed.
  case_goal; [|set (db' := if negb (db_persistent _) then _ else _);
    assert (db_id db' = db_id db ∧ db_ltdb db' = t) as [? El] by (unfold db'; by case_goal)];
    (split; [done|]); by apply (put_within db); rewrite ?El.
Qed.

Lemma push_db_within mark blob s : dbs_within s (ctdb_control_push_db mark blob s).2.
Proof.
  unfold ctdb_control_push_db. case_goal; [apply dbs_within_refl|].
  destruct (find_db _ (fx_dbs s)) as [db|] eqn:Ed; [|apply dbs_within_refl].
  do 2 (case_goal; [apply dbs_within_refl|]).
  destruct (push_records _ _ _) as [ret db1] eqn:Ep. apply push_within in Ep as [Ei Hw].
  pose proof (find_db_id _ _ _ Ed) as Hid. rewrite <- Hid in Ed.
  case_goal; [split; [done|]; by apply (put_within db)|].
  pose proof (push_readonly_db db1) as [Ei' El]. destruct (push_readonly db1) as [db2 l]. simpl in Ei', El.
  split; [done|]. simpl. apply (put_within db); [done|congruence|by rewrite El].
Qed.

Lemma dispatch_within tun env c s status out s' :
  recovery_control c = true → dispatch tun env c s = Reply status out s' → dbs_within s s'.
Proof.
  destruct c as [id|id|id tid|blob|g| |g|map]; try done; intros _; simpl.
  - unfold ctdb_control_pull_db. destruct (find_db id _); [|intros [= <- <- <-]; apply dbs_within_refl].
    do 2 (case_goal; [intros [= <- <- <-]; apply dbs_within_refl|]).
    case_goal; [|intros [= <- <- <-]; apply dbs_within_refl].
    case_goal; [|done]. intros [= <- <- <-]; apply dbs_within_refl.
  - unfold ctdb_control_get_db_seqnum, ctdb_get_db_seqnum.
    destruct (find_db id (fx_dbs s)) as [db|] eqn:Ed; [|intros [= <- <- <-]; apply dbs_within_refl].
    destruct (ctdb_ltdb_fetch _ _ _ _) as [[[r h] data] db'] eqn:Ef. apply fetch_within in Ef as [Ei Hw].
    pose proof (find_db_id _ _ _ Ed) as Hid. rewrite <- Hid in Ed.
    assert (dbs_within s (set_fx_dbs s (put_db db' (fx_dbs s)))) as Hd
      by (split; [done|]; by apply (put_within db)).
    repeat case_goal; by intros [= <- <- <-].
  - intros [= <- <- <-]. apply wipe_within.
  - intros [= <- <- <-]. apply push_db_within.
  - intros [= <- <- <-]. unfold ctdb_control_setvnnmap. case_goal; apply (dbs_within_refl s).
Qed.

(** The controls of a recovery on one node, whatever they answer. *)
Inductive session (tun : tunables) (env : rec_env) : freeze_ctx T → freeze_ctx T → Prop :=
  | session_nil s : session tun env s s
  | session_cons s c status out s1 s2 :
      recovery_control c = true → dispatch tun env c s = Reply status out s1 →
      session tun env s1 s2 → session tun env s s2.

Lemma session_within tun env s s' : session tun env s s' → dbs_within s s'.
Proof.
  induction 1 as [s|s c st out s1 s2 Hc Hd _ IH]; [apply dbs_within_refl|].
  eapply dbs_within_trans; [by eapply dispatch_within|done].
Qed.

(** The content a database had is back, and no transaction is open. *)
Definition restored db0 db : Prop :=
  db_id db = db_id db0 ∧ tdb_in_transaction (db_ltdb db) = false
  ∧ ∀ k, tdb_lookup (db_ltdb db) k = tdb_lookup (db_ltdb db0) k.

(** The content is kept behind an open transaction. *)
Definition kept_safe db0 db : Prop :=
  db_id db = db_id db0 ∧ tdb_in_transaction (db_ltdb db) = true
  ∧ ∀ k, tdb_saved (db_ltdb db) k = tdb_lookup (db_ltdb db0) k.

Lemma start_dbs_safe dbs dbs' : start_dbs false dbs = (dbs', 0) → Forall2 kept_safe dbs dbs'.
Proof.
  revert dbs'. induction dbs as [|db dbs IH]; intros dbs'; simpl; [by intros [= <-]|].
  destruct (tdb_transaction_start (db_ltdb db)) as [t ret] eqn:Et.
  destruct (Z.eqb_spec ret 0) as [->|]; [|done]. cbn [negb].
  destruct (start_dbs false dbs) as [dbs1 ret1]. intros [= <- ->].
  apply tdb_start_ok in Et as (_ & Ht & _ & Hk). constructor; [|by apply IH]. by split_and!.
Qed.

Lemma safe_within dbs0 dbs dbs' :
  Forall2 kept_safe dbs0 dbs →
  Forall2 (λ db db', db_id db' = db_id db ∧ within (db_ltdb db) (db_ltdb db')) dbs dbs' →
  Forall2 kept_safe dbs0 dbs'.
Proof.
  intros H1. revert dbs'. induction H1 as [|a b l1 l2 (Ei & Ht & Hk) _ IH]; intros l3 H2;
    inversion H2 as [|? c ? l3' [Ei' Hw] H3]; subst; constructor; [|by apply IH].
  destruct (Hw Ht) as [Ht' Hk']. split_and!; [congruence|done|]. intros k. by rewrite Hk'.
Qed.

Lemma safe_cancel dbs0 dbs : Forall2 kept_safe dbs0 dbs → Forall2 restored dbs0 (cancel_db <$> dbs).
Proof.
  induction 1 as [|db0 db dbs0 dbs (Ei & Ht & Hk) _ IH]; simpl; constructor; [|done].
  unfold restored, cancel_db. simpl.
  destruct (tdb_transaction_cancel (db_ltdb db)) as [t r] eqn:Et.
  destruct (tdb_cancel_open _ _ _ Et Ht) as [Hf Hk']. split_and!; [done|done|].
  intros k. simpl. by rewrite Hk', Hk.
Qed.

(** C27: a recovery that is given up costs nothing: after the recovery
    transaction was started on a node, whatever pull, sequence number, wipe and
    push controls follow and however they end, cancelling the transaction or
    thawing a priority brings back the content that every database had before,
    with no transaction left open. *)
Theorem abandoned_recovery_restores tun env g s0 out s1 s2 p
    (Hs : fx_transaction_started s0 = false)
    (Hstart : dispatch tun env (CTDB_CONTROL_TRANSACTION_START g) s0 = Reply 0 out s1)
    (Hsess : session tun env s1 s2) :
  Forall2 restored (fx_dbs s0) (fx_dbs (ctdb_control_transaction_cancel s2).2)
  ∧ Forall2 restored (fx_dbs s0) (fx_dbs (thaw_priority p s2)).
Proof.
  revert Hstart. simpl. unfold ctdb_control_transaction_start. destruct (negb _); [done|]. rewrite Hs.
  destruct (start_dbs false (fx_dbs s0)) as [dbs ret] eqn:E.
  destruct (Z.eqb_spec ret 0) as [->|]; [|done]. simpl. intros [= _ <-].
  apply start_dbs_safe in E. apply session_within in Hsess as [Hst Hw]. simpl in Hst.
  pose proof (safe_cancel _ _ (safe_within _ _ _ E Hw)) as Hr. split; [exact Hr|].
  unfold thaw_priority. rewrite Hst. unfold ctdb_freeze_handle_destructor. by case_goal.
Qed.

End abandoned.

(** ** Where the code falls short *)

Section shortcomings.
Context {T : Type} `{TdbLaws T, !TdbTxn T, !TdbTxnLaws T}.
Implicit Types (db : ctdb_db_context T) (s : freeze_ctx T).

Lemma traverse_app {S} (fn : bytes → bytes → S → visit S) l1 l2 x y :
  (∀ k v a, (k, v) ∈ l1 → ∀ b, fn k v a ≠ Halt b) →
  traverse fn l1 x = Some y → traverse fn (l1 ++ l2) x = traverse fn l2 y.
Proof.
  revert x. induction l1 as [|[k v] l1 IH]; intros x Hn; simpl; [by intros [= ->]|].
  destruct (fn k v x) as [x'|x'|] eqn:E; [|by destruct (Hn k v x (list_elem_of_here _ _) x')|done].
  apply IH. intros k' v' s' Hin. apply Hn. by right.
Qed.

(** [ctdb_control_pull_db] does not look at the failure its traversal
    reports: at a record that does not fit into one allocation the traversal
    stops, and the reply is a success with the records before it only. *)
Theorem pull_db_drops_records tun id s db l1 k v l2 params
    (Htun : prealloc_ok tun) (Hid : is_u32 id)
    (Hdb : find_db id (fx_dbs s) = Some db) (Hfz : frozen s (fx_priority s (db_id db)) = true)
    (Hl : tdb_traverse_read (db_ltdb db) = Some (l1 ++ (k, v) :: l2))
    (Hl1 : Forall fits l1) (Hv : ¬ fits (k, v))
    (Hsize : traverse (traverse_pulldb tun) l1 (new_blob id) = Some params) :
  ∃ out, ctdb_control_pull_db tun true id s = Reply 0 out s ∧ mb_records out = l1.
Proof.
  unfold ctdb_control_pull_db. rewrite Hdb, Hfz, Hl. cbn [negb].
  rewrite (traverse_app _ _ _ _ params); [| |done].
  - simpl. unfold traverse_pulldb at 1, ctdb_marshall_record.
    unfold fits in Hv. simpl in Hv.
    rewrite (proj2 (Z.leb_le _ _)) by lia. eexists. split; [reflexivity|]. simpl.
    by apply (pull_blob tun l1 id params) in Hsize as [? _].
  - intros k' v' ps Hin ps'. rewrite Forall_forall in Hl1. destruct (kv_fits _ (Hl1 _ Hin)) as [r Hr].
    unfold kv_marshalled in Hr. simpl in Hr. unfold traverse_pulldb. rewrite Hr. by case_goal.
Qed.

(** the reply of [ctdb_control_get_db_seqnum] carries the lowest byte of the
    sequence number only, so that the node with the highest sequence number of
    a persistent database is not found: of two nodes the one with the older
    database is chosen when its number is higher modulo 256. *)
Theorem seqnum_truncated id s db h N
    (Hdb : find_db id (fx_dbs s) = Some db) (HN : is_u64 N)
    (Hrec : tdb_fetch (db_ltdb db) CTDB_DB_SEQNUM_KEY = header_bytes h ++ le_bytes 8 N) :
  ∃ out s', ctdb_control_get_db_seqnum id s = Reply 0 out s' ∧ le_val out = N mod 256
  ∧ ∀ n n' out' N', n ≠ n' → dsize out' = 8 → le_val out' = N' mod 256 →
      N mod 256 < N' mod 256 →
      let cb0 := mk_seqnum_cb false (2 ^ 32 - 1) 0 in
      sc_pnn (pull_seqnum_cb n 0 out (pull_seqnum_cb n' 0 out' cb0)) = n'
      ∧ sc_pnn (pull_seqnum_cb n' 0 out' (pull_seqnum_cb n 0 out cb0)) = n'.
Proof.
  unfold ctdb_control_get_db_seqnum, ctdb_get_db_seqnum. rewrite Hdb.
  unfold ctdb_ltdb_fetch. rewrite Hrec, length_app, length_header_bytes, length_le_bytes.
  rewrite (proj2 (Nat.ltb_ge _ _)) by lia. rewrite drop_header_bytes.
  change (negb (0 =? 0)) with false. cbv iota. unfold dsize at 1. rewrite length_le_bytes.
  change (negb (Z.of_nat 8 =? 8)) with false. cbv iota.
  assert (le_val (le_bytes 1 (le_val (le_bytes 8 N)) ++ replicate 7 0) = N mod 256) as Ev.
  { rewrite le_val_bytes_small by exact HN. cbn. lia. }
  eexists _, _. split; [reflexivity|]. split; [exact Ev|].
  intros n n' out' N' Hne Hd' Hv' Hlt. cbv zeta. pose proof (Z.mod_pos_bound N 256 ltac:(lia)).
  set (out := le_bytes 1 _ ++ _) in *. assert (dsize out = 8) as Hd by done. clearbody out.
  unfold pull_seqnum_cb. rewrite Hd, Hd', Ev, Hv'. cbn [sc_failed sc_seqnum sc_pnn negb Z.eqb].
  rewrite !Pos.eqb_refl. cbn [negb]. rewrite (proj2 (Z.ltb_lt 0 (N' mod 256))) by lia.
  cbn [sc_failed sc_seqnum sc_pnn]. rewrite (proj2 (Z.ltb_ge (N' mod 256) _)) by lia.
  split; [done|]. destruct (0 <? N mod 256); cbn [sc_failed sc_seqnum sc_pnn].
  - by rewrite (proj2 (Z.ltb_lt _ _)).
  - by rewrite (proj2 (Z.ltb_lt _ _)) by lia.
Qed.

End shortcomings.

(** ** Examples *)

Definition example_recdb (rsn' : Z) (data : bytes) : ctdb_db_context txtdb :=
  mk_db 5 false false false
    (mk_txtdb (mk_memtdb {[ [1] := header_bytes (mk_header rsn' 7 0 0) ++ data ]} false 0) None)
    (mk_txtdb example_tdb None) [] false true false [] ∅ ∅ 0 [] 0 0 [] [] [].

Definition example_rnode (pnn : Z) (db : ctdb_db_context txtdb) : freeze_ctx txtdb :=
  mk_fx (mk_ctdb pnn example_vm [] 0 true [db] ∅ 0 [] 0 0 (λ _, 0) (λ _, 0) [] [] [] [] [])
    (λ _, 1) (λ _, CTDB_FREEZE_FROZEN) (λ _, Some []) false 0 [].

(** A persistent database with its sequence number. *)
Definition example_pdb (seqnum : Z) : ctdb_db_context txtdb :=
  mk_db 6 true false false
    (mk_txtdb (mk_memtdb {[ CTDB_DB_SEQNUM_KEY := header_bytes zero_header ++ le_bytes 8 seqnum ]} false 0) None)
    (mk_txtdb example_tdb None) [] false true false [] ∅ ∅ 0 [] 0 0 [] [] [].

Definition example_rnode2 (pnn : Z) (db pdb : ctdb_db_context txtdb) : freeze_ctx txtdb :=
  set_fx_dbs (example_rnode pnn db) [db; pdb].

Definition example_nodes : gmap Z (freeze_ctx txtdb) :=
  {[ 0 := example_rnode2 0 (example_recdb 3 [9]) (example_pdb 7);
     1 := example_rnode2 1 (example_recdb 5 [8; 8]) (example_pdb 4) ]}.
Definition example_dbmap : list (Z * bool) := [(5, false); (6, true)].

Definition example_rec_env : rec_env :=
  mk_rec_env (λ _ _, Answered) (λ l, l) (λ _, true) (λ _ _, true) true.
Definition example_tun : tunables := mk_tunables 10485760 1 120 300.
Definition example_recd : ctdb_recoverd := mk_recd 0 0 0 3 0 0 [None; None].
Definition example_nodemap : list ctdb_node_and_flags := [mk_naf 0 0; mk_naf 1 0].

Definition example_recovery := do_recovery_databases example_tun example_rec_env 0 example_recd
  example_vm 11 12 (Some [3; 3]) example_dbmap example_nodemap example_nodes.
Definition example_recovered : gmap Z (freeze_ctx txtdb) :=
  match example_recovery with Some (nodes, _, _) => nodes | None => ∅ end.

Lemma example_recovery_ok : ∃ rec, example_recovery = Some (example_recovered, rec, 0).
Proof.
  assert (match example_recovery with Some (_, _, ret) => ret | None => -1 end = 0) as E
    by (vm_compute; reflexivity).
  unfold example_recovered. destruct example_recovery as [[[nodes rec] ret]|]; [|done].
  exists rec. by rewrite E.
Qed.

Lemma example_nodes_lookup n s :
  example_nodes !! n = Some s →
  n = 0 ∧ s = example_rnode2 0 (example_recdb 3 [9]) (example_pdb 7)
  ∨ n = 1 ∧ s = example_rnode2 1 (example_recdb 5 [8; 8]) (example_pdb 4).
Proof.
  unfold example_nodes. rewrite lookup_insert_Some, lookup_singleton_Some.
  intros [[<- <-]|[_ [<- <-]]]; auto.
Qed.

Lemma example_recdb_lookup r data k v :
  tdb_lookup (db_ltdb (example_recdb r data)) k = Some v →
  k = [1] ∧ v = header_bytes (mk_header r 7 0 0) ++ data.
Proof. simpl. rewrite lookup_singleton_Some. by intros [<- <-]. Qed.

Lemma example_pdb_lookup q k v :
  tdb_lookup (db_ltdb (example_pdb q)) k = Some v →
  k = CTDB_DB_SEQNUM_KEY ∧ v = header_bytes zero_header ++ le_bytes 8 q.
Proof. unfold example_pdb. cbn [db_ltdb]. simpl. rewrite lookup_singleton_Some. by intros [<- <-]. Qed.

Lemma example_recdb_ok r data : Forall is_u8 data → db_ok (example_recdb r data).
Proof.
  intros Hd k. rewrite tdb_fetch_lookup.
  destruct (tdb_lookup _ k) as [v|] eqn:E; simpl; [|constructor].
  apply example_recdb_lookup in E as [-> ->]. apply Forall_app. split; [apply header_bytes_u8|done].
Qed.

Lemma example_pdb_ok q : db_ok (example_pdb q).
Proof.
  intros k. rewrite tdb_fetch_lookup.
  destruct (tdb_lookup _ k) as [v|] eqn:E; simpl; [|constructor].
  apply example_pdb_lookup in E as [-> ->]. apply Forall_app. split; [apply header_bytes_u8|apply le_bytes_u8].
Qed.

Lemma example_participants : participants 5 false example_nodes.
Proof.
  split.
  - intros n k v. unfold copy. destruct (example_nodes !! n) as [s|] eqn:E; [|done].
    apply example_nodes_lookup in E as [[-> ->]|[-> ->]]; cbn [mbind option_bind];
      intros Hv; apply example_recdb_lookup in Hv as [-> ->]; vm_compute; reflexivity.
  - intros n s E. by apply example_nodes_lookup in E as [[-> ->]|[-> ->]].
  - intros n s db E. apply example_nodes_lookup in E as [[-> ->]|[-> ->]];
      intros [= <-]; (split; [apply example_recdb_ok|done]);
      repeat constructor; unfold is_u8; lia.
Qed.

Lemma example_participants_pdb : participants 6 true example_nodes.
Proof.
  split.
  - intros n k v. unfold copy. destruct (example_nodes !! n) as [s|] eqn:E; [|done].
    apply example_nodes_lookup in E as [[-> ->]|[-> ->]]; cbn [mbind option_bind];
      intros Hv; apply example_pdb_lookup in Hv as [-> ->]; vm_compute; reflexivity.
  - intros n s E. by apply example_nodes_lookup in E as [[-> ->]|[-> ->]].
  - intros n s db E. apply example_nodes_lookup in E as [[-> ->]|[-> ->]];
      intros [= <-]; (split; [apply example_pdb_ok|done]).
Qed.

Lemma example_dbmap_ok : dbmap_ok example_dbmap example_nodes.
Proof.
  split; [apply (bool_decide_unpack _); vm_compute; exact I|].
  apply Forall_cons. split; [split; [unfold is_u32; lia|apply example_participants]|].
  apply Forall_singleton. split; [unfold is_u32; lia|apply example_participants_pdb].
Qed.


Lemma abandoned_recovery_restores_witness :
  let s0 := example_rnode 0 (example_recdb 3 [9]) in
  ∃ s1 s2, dispatch example_tun example_rec_env (CTDB_CONTROL_TRANSACTION_START 11) s0 = Reply 0 [] s1
  ∧ dispatch example_tun example_rec_env (CTDB_CONTROL_WIPE_DATABASE 5 11) s1 = Reply 0 [] s2
  ∧ Forall2 restored (fx_dbs s0) (fx_dbs (ctdb_control_transaction_cancel s2).2)
  ∧ Forall2 restored (fx_dbs s0) (fx_dbs (thaw_priority 1 s2)).
Proof.
  intros s0. eexists _, _. split; [reflexivity|]. split; [reflexivity|].
  eapply (abandoned_recovery_restores example_tun example_rec_env 11 s0); [reflexivity|reflexivity|].
  eapply (session_cons _ _ _ (CTDB_CONTROL_WIPE_DATABASE 5 11)); [reflexivity|reflexivity|constructor].
Defined.

Lemma huge_record : ∃ v : bytes, ¬ fits ([2], v).
Proof.
  exists (replicate (Z.to_nat MAX_TALLOC_SIZE) 0). unfold fits. cbn [fst snd].
  unfold dsize at 2. rewrite length_replicate, Z2Nat.id by done. unfold dsize, offsetof_rec_data. simpl. lia.
Qed.

Definition example_hugedb (v : bytes) : ctdb_db_context txtdb :=
  mk_db 5 false false false (mk_txtdb (mk_memtdb {[ [2] := v ]} false 0) None)
    (mk_txtdb example_tdb None) [] false true false [] ∅ ∅ 0 [] 0 0 [] [] [].

Lemma pull_db_drops_records_witness :
  ∃ v out, ¬ fits ([2], v) ∧
    ctdb_control_pull_db example_tun true 5 (example_rnode 0 (example_hugedb v))
    = Reply 0 out (example_rnode 0 (example_hugedb v)) ∧ mb_records out = [].
Proof.
  destruct huge_record as [v Hv]. exists v.
  destruct (pull_db_drops_records example_tun 5 (example_rnode 0 (example_hugedb v)) (example_hugedb v)
    [] [2] v [] (new_blob 5)) as (out & E1 & E2).
  - unfold prealloc_ok. simpl. lia.
  - unfold is_u32. lia.
  - reflexivity.
  - reflexivity.
  - simpl. by rewrite map_to_list_singleton.
  - constructor.
  - exact Hv.
  - reflexivity.
  - exists out. split; [exact Hv|]. split; [exact E1|exact E2].
Defined.

Definition example_seqdb (N : Z) : ctdb_db_context txtdb :=
  mk_db 5 true false false
    (mk_txtdb (mk_memtdb {[ CTDB_DB_SEQNUM_KEY := header_bytes zero_header ++ le_bytes 8 N ]} false 0) None)
    (mk_txtdb example_tdb None) [] false true false [] ∅ ∅ 0 [] 0 0 [] [] [].

Lemma seqnum_truncated_witness :
  ∃ out s', ctdb_control_get_db_seqnum 5 (example_rnode 0 (example_seqdb 300)) = Reply 0 out s'
  ∧ le_val out = 300 mod 256
  ∧ ∀ n n' out' N', n ≠ n' → dsize out' = 8 → le_val out' = N' mod 256 →
      300 mod 256 < N' mod 256 →
      let cb0 := mk_seqnum_cb false (2 ^ 32 - 1) 0 in
      sc_pnn (pull_seqnum_cb n 0 out (pull_seqnum_cb n' 0 out' cb0)) = n'
      ∧ sc_pnn (pull_seqnum_cb n' 0 out' (pull_seqnum_cb n 0 out cb0)) = n'.
Proof.
  apply (seqnum_truncated 5 (example_rnode 0 (example_seqdb 300)) (example_seqdb 300) zero_header 300).
  - reflexivity.
  - unfold is_u64. lia.
  - reflexivity.
Defined.
