(* ===== verification/RecoveryLive.v ===== *)
(** * Recovery completes

    When every control is answered and the tdb files can be written, a recovery
    of frozen databases whose records fit into the blobs that are sent around
    reaches its end. *)
From S2P Require Import Prelude Protocol Queue Marshal Ltdb Node Call Freeze Recovery RecoveryMerge RecoverySeqnum RecoveryProps.

(** A tdb file system with enough space. *)
Class TdbReliable (T : Type) `{TdbOps T, !TdbTxn T} : Prop := {
  rl_store (t : T) k v : ∃ t', tdb_store t k v = (t', 0);
  rl_traverse (t : T) : is_Some (tdb_traverse_read t);
  rl_wipe (t : T) : ∃ t', tdb_wipe_all t = (t', 0);
  rl_start (t : T) : tdb_in_transaction t = false → ∃ t', tdb_transaction_start t = (t', 0);
  rl_commit (t : T) : tdb_in_transaction t = true → ∃ t', tdb_transaction_commit t = (t', 0);
}.

#[global] Instance txtdb_reliable : TdbReliable txtdb.
Proof.
  split; simpl; intros.
  - by eexists.
  - by eexists.
  - by eexists.
  - destruct (tx_saved t); [done|]. by eexists.
  - destruct (tx_saved t); [|done]. by eexists.
Qed.

(** An environment in which nothing is lost. *)
Record env_reliable (env : rec_env) : Prop := {
  er_fate c n : re_fate env c n = Answered;
  er_arrive l : re_arrive env l ≡ₚ l;
  er_mark n : re_mark env n = true;
  er_health n id : re_health env n id = true;
  er_recdb : re_recdb env = true;
}.

(** ** Blobs that fit *)

(** [kv] marshalled takes at most [M] bytes. *)
Definition record_within (M : Z) (kv : bytes * bytes) : Prop :=
  Z.of_nat offsetof_rec_data + dsize kv.1 + dsize kv.2 <= M.

(** [N] records of at most [M] bytes and the preallocation. *)
Definition blob_fits (tun : tunables) (N : nat) (M : Z) : Prop :=
  Z.of_nat offsetof_marshall_data + Z.of_nat N * M + tun_pulldb_preallocation_size tun < MAX_TALLOC_SIZE.

Lemma pull_append_live tun r params :
  prealloc_ok tun → dsize (pd_data params) + dsize r + tun_pulldb_preallocation_size tun < MAX_TALLOC_SIZE →
  (8 <= length (pd_data params))%nat →
  ∃ params', pull_append tun r params = Some params' ∧ pd_failed params' = pd_failed params
  ∧ dsize (pd_data params') = dsize (pd_data params) + dsize r.
Proof.
  intros Ht Hlt H8. unfold pull_append, prealloc_ok, MAX_TALLOC_SIZE in *.
  rewrite !u32_id by (unfold is_u32, dsize in *; lia).
  set (grow := _ <=? _). set (alloc := if grow then _ else _).
  assert (grow && (268435456 <=? alloc) = false) as ->.
  { unfold alloc. destruct grow; [|done]. apply Z.leb_gt. lia. }
  eexists. split; [done|]. split; [done|]. cbn [pd_data]. unfold dsize, set_mb_count.
  rewrite length_set32 by (rewrite length_app; lia). rewrite length_app. lia.
Qed.

(** A traversal that appends records of limited size reaches the end. *)
Lemma traverse_live tun fn (l : list (bytes * bytes)) M params :
  prealloc_ok tun → 0 <= M →
  (∀ k v, (k, v) ∈ l → (∀ ps, fn k v ps = Continue ps)
     ∨ ∃ r, dsize r <= M ∧ ∀ ps ps', pull_append tun r ps = Some ps' → fn k v ps = Continue ps') →
  (8 <= length (pd_data params))%nat →
  dsize (pd_data params) + Z.of_nat (length l) * M + tun_pulldb_preallocation_size tun < MAX_TALLOC_SIZE →
  ∃ params', traverse fn l params = Some params' ∧ pd_failed params' = pd_failed params.
Proof.
  intros Ht HM. revert params. induction l as [|[k v] l IH]; intros params Hfn H8 Hlt; [by eexists|].
  cbn [traverse]. cbn [length] in Hlt. rewrite Nat2Z.inj_succ, Z.mul_succ_l in Hlt.
  assert (∀ k v, (k, v) ∈ l → _) as Hfn' by (intros k' v' Hin; apply (Hfn k' v'); by right).
  destruct (Hfn k v (list_elem_of_here _ _)) as [E|(r & Hr & E)].
  - rewrite E. apply IH; [done..|]. lia.
  - destruct (pull_append_live tun r params) as (ps & Ep & Ef & El); [done| |done|].
    { pose proof (Zle_0_nat (length l)). nia. }
    rewrite (E _ _ Ep), <- Ef. apply IH; [done| |lia]. unfold dsize in *. lia.
Qed.

Lemma marshall_live k v M :
  record_within M (k, v) → M < MAX_TALLOC_SIZE →
  ∃ r, ctdb_marshall_record 0 k None v = Some r ∧ dsize r <= M.
Proof.
  intros Hw HM. destruct (kv_fits (k, v)) as [r Hr]; [unfold fits, record_within in *; lia|].
  exists r. split; [exact Hr|]. destruct (kv_at _ _ [] Hr) as [_ ->]. exact Hw.
Qed.

(** Distinct keys out of [keys] and records of limited size. *)
Definition table_within (keys : list bytes) (M : Z) (l : list (bytes * bytes)) : Prop :=
  Forall (λ kv, kv.1 ∈ keys ∧ record_within M kv) l.

Lemma table_length keys M l : NoDup l.*1 → table_within keys M l → (length l <= length keys)%nat.
Proof.
  intros Hnd Hl. rewrite <- (length_fmap fst l). apply submseteq_length, NoDup_submseteq; [done|].
  intros k (kv & -> & Hin)%list_elem_of_fmap. unfold table_within in Hl. rewrite Forall_forall in Hl.
  by apply Hl.
Qed.

Lemma blob_room tun keys M l :
  blob_fits tun (length keys) M → 0 <= M → NoDup l.*1 → table_within keys M l →
  Z.of_nat offsetof_marshall_data + Z.of_nat (length l) * M + tun_pulldb_preallocation_size tun
  < MAX_TALLOC_SIZE.
Proof. intros Hb HM Hnd Hl. pose proof (table_length _ _ _ Hnd Hl). unfold blob_fits in Hb. nia. Qed.

Lemma new_blob_size id : dsize (pd_data (new_blob id)) = Z.of_nat offsetof_marshall_data.
Proof. done. Qed.

Lemma pull_live tun keys M l id :
  prealloc_ok tun → 0 <= M < MAX_TALLOC_SIZE → blob_fits tun (length keys) M →
  NoDup l.*1 → table_within keys M l →
  is_Some (traverse (traverse_pulldb tun) l (new_blob id)).
Proof.
  intros Ht HM Hb Hnd Hl.
  destruct (traverse_live tun (traverse_pulldb tun) l M (new_blob id)) as (ps & E & _);
    [done|lia| | |rewrite new_blob_size; by apply (blob_room tun keys); try lia|by eexists].
  - intros k v Hin. right. unfold table_within in Hl. rewrite Forall_forall in Hl.
    destruct (Hl _ Hin) as [_ Hw]. destruct (marshall_live k v M Hw) as (r & Er & Hr); [lia|].
    exists r. split; [done|]. intros ps ps' Ep. unfold traverse_pulldb. by rewrite Er, Ep.
  - simpl. lia.
Qed.

Lemma recdb_live tun keys M l id pnn persistent :
  prealloc_ok tun → 0 <= M < MAX_TALLOC_SIZE → blob_fits tun (length keys) M →
  NoDup l.*1 → table_within keys M l →
  Forall (λ kv, (sizeof_header <= length kv.2)%nat) l →
  ∃ ps, traverse (traverse_recdb tun pnn persistent) l (new_blob id) = Some ps ∧ pd_failed ps = false.
Proof.
  intros Ht HM Hb Hnd Hl Hh.
  apply (traverse_live tun _ l M (new_blob id)); [done|lia| | |rewrite new_blob_size; by apply (blob_room tun keys); try lia].
  - intros k v Hin. unfold table_within in Hl. rewrite Forall_forall in Hl, Hh.
    destruct (Hl _ Hin) as [_ Hw]. specialize (Hh _ Hin). simpl in Hh.
    unfold traverse_recdb. destruct (negb persistent && _); [by left|right].
    assert (length (recdb_record pnn persistent v) = length v) as El.
    { unfold recdb_record. destruct persistent; [done|]. unfold sizeof_header in Hh.
      rewrite !length_set32; rewrite ?length_set32; lia. }
    destruct (marshall_live k (recdb_record pnn persistent v) M) as (r & Er & Hr).
    { unfold record_within, dsize in *. simpl in *. by rewrite El. }
    { lia. }
    exists r. split; [done|]. intros ps ps' Ep. by rewrite Er, Ep.
  - simpl. lia.
Qed.

(** ** Controls that succeed *)

Section live.
Context {T : Type} `{TdbLaws T, !TdbTxn T, !TdbTxnLaws T, !TdbReliable T}.
Variables (tun : tunables) (env : rec_env).
Hypothesis Htun : prealloc_ok tun.
Hypothesis Henv : env_reliable env.
Implicit Types (s : freeze_ctx T) (db : ctdb_db_context T) (nodes : gmap Z (freeze_ctx T)) (recdb : T).

(** A frozen node outside of a transaction ([None]) or in the transaction [g]. *)
Record phase (g : option Z) s : Prop := mk_phase {
  ph_frozen : all_frozen s = true;
  ph_priority id : fx_priority s id ∈ priorities;
  ph_started : fx_transaction_started s = bool_decide (is_Some g);
  ph_id g' : g = Some g' → fx_transaction_id s = g';
  ph_dbs : Forall (λ db, tdb_in_transaction (db_ltdb db) = bool_decide (is_Some g)) (fx_dbs s);
}.

Lemma phase_priority g s id : phase g s → frozen s (fx_priority s id) = true.
Proof.
  intros Hp. pose proof (ph_frozen _ _ Hp) as Hf. unfold all_frozen in Hf. rewrite forallb_forall in Hf.
  apply Hf. apply list_elem_of_In. apply Hp.
Qed.

(** What pull, wipe and push leave alone. *)
Lemma dispatch_frame c s status out s' :
  recovery_control c = true → dispatch tun env c s = Reply status out s' →
  fx_mode s' = fx_mode s ∧ fx_priority s' = fx_priority s ∧ fx_transaction_id s' = fx_transaction_id s.
Proof.
  destruct c as [id|id|id tid|blob|g| |g|map]; try done; intros _; simpl.
  - unfold ctdb_control_pull_db. repeat case_goal; intros [=]; by subst.
  - unfold ctdb_control_get_db_seqnum, ctdb_get_db_seqnum.
    destruct (find_db id (fx_dbs s)) as [db|]; [|by intros [= <- <- <-]].
    destruct (ctdb_ltdb_fetch _ _ _ _) as [[[r h] data] db'].
    repeat case_goal; by intros [= <- <- <-].
  - intros [= <- <- <-]. unfold ctdb_control_wipe_database. by repeat case_goal.
  - intros [= <- <- <-]. unfold ctdb_control_push_db. by repeat case_goal.
  - intros [= <- <- <-]. unfold ctdb_control_setvnnmap. by repeat case_goal.
Qed.

Lemma phase_within g c s status out s' :
  recovery_control c = true → dispatch tun env c s = Reply status out s' →
  phase (Some g) s → phase (Some g) s'.
Proof.
  intros Hc Hd [H1 H2 H3 H4 H5].
  destruct (dispatch_frame _ _ _ _ _ Hc Hd) as (E1 & E2 & E3).
  destruct (dispatch_within _ _ _ _ _ _ _ Hc Hd) as [E4 Hw].
  split; unfold all_frozen, frozen in *; rewrite ?E1, ?E2, ?E3, ?E4; try done.
  clear -H5 Hw. induction Hw as [|db db' l l' [_ Hdb] _ IH]; [done|].
  apply Forall_cons in H5 as [Hd H5]. constructor; [|by apply IH]. by apply Hdb.
Qed.

Lemma setvnnmap_live map s :
  phase None s → ∃ s', dispatch tun env (CTDB_CONTROL_SETVNNMAP map) s = Reply 0 [] s' ∧ phase None s'.
Proof.
  intros Hp. simpl. unfold ctdb_control_setvnnmap. rewrite (ph_frozen _ _ Hp). cbn [negb fst snd].
  eexists. split; [done|]. destruct Hp as [H1 H2 H3 H4 H5]. by split.
Qed.

Lemma start_dbs_live dbs :
  Forall (λ db, tdb_in_transaction (db_ltdb db) = false) dbs →
  ∃ dbs', start_dbs false dbs = (dbs', 0) ∧ Forall (λ db, tdb_in_transaction (db_ltdb db) = true) dbs'.
Proof.
  induction 1 as [|db dbs Hdb _ (dbs' & IH & Hf)]; [by eexists|]. simpl.
  destruct (rl_start (db_ltdb db) Hdb) as [t Et]. rewrite Et, IH. eexists. split; [done|].
  constructor; [|done]. by apply tdb_start_ok in Et as (_ & ? & _).
Qed.

Lemma start_live g s :
  phase None s →
  ∃ s', dispatch tun env (CTDB_CONTROL_TRANSACTION_START g) s = Reply 0 [] s' ∧ phase (Some g) s'.
Proof.
  intros [H1 H2 H3 H4 H5]. simpl. unfold ctdb_control_transaction_start. rewrite H1, H3. cbn [negb].
  destruct (start_dbs_live (fx_dbs s) H5) as (dbs' & E & Hf).
  change (bool_decide (is_Some None)) with false. rewrite E. cbn [negb fst snd Z.eqb].
  eexists. split; [done|]. split; try done. by intros g' [= <-].
Qed.

Lemma commit_dbs_live n dbs :
  Forall (λ db, tdb_in_transaction (db_ltdb db) = true) dbs →
  ∃ dbs', commit_dbs (re_health env n) dbs = (dbs', 0)
  ∧ Forall (λ db, tdb_in_transaction (db_ltdb db) = false) dbs'.
Proof.
  induction 1 as [|db dbs Hdb _ (dbs' & IH & Hf)]; [by eexists|]. simpl.
  destruct (rl_commit (db_ltdb db) Hdb) as [t Et]. rewrite Et, IH. simpl.
  rewrite (er_health _ Henv). simpl. eexists. split; [done|].
  constructor; [|done]. by apply tdb_commit_ok in Et as (_ & ? & _).
Qed.

Lemma commit_live g s :
  phase (Some g) s →
  ∃ s', dispatch tun env (CTDB_CONTROL_TRANSACTION_COMMIT g) s = Reply 0 [] s' ∧ phase None s'.
Proof.
  intros [H1 H2 H3 H4 H5]. simpl. unfold ctdb_control_transaction_commit. rewrite H1, H3.
  rewrite (H4 g eq_refl), Z.eqb_refl. cbn [negb].
  destruct (commit_dbs_live (cx_pnn (fx_ctdb s)) (fx_dbs s) H5) as (dbs' & E & Hf).
  change (bool_decide (is_Some (Some g))) with true. cbn [negb]. rewrite E. cbn [negb fst snd Z.eqb].
  eexists. split; [done|]. by split.
Qed.

Lemma wipe_live g id s db :
  phase (Some g) s → find_db id (fx_dbs s) = Some db →
  ∃ s', dispatch tun env (CTDB_CONTROL_WIPE_DATABASE id g) s = Reply 0 [] s' ∧ phase (Some g) s'.
Proof.
  intros Hp Hf. assert (∃ s', dispatch tun env (CTDB_CONTROL_WIPE_DATABASE id g) s = Reply 0 [] s') as [s' E].
  { simpl. unfold ctdb_control_wipe_database. rewrite Hf, (phase_priority _ _ _ Hp), (ph_started _ _ Hp).
    change (bool_decide (is_Some (Some g))) with true.
    rewrite (ph_id _ _ Hp g eq_refl), Z.eqb_refl. cbn [negb]. destruct (rl_wipe (db_ltdb db)) as [t ->].
    by eexists. }
  exists s'. split; [exact E|]. by apply (phase_within g (CTDB_CONTROL_WIPE_DATABASE id g) s 0 [] s').
Qed.

(** A store of data by the daemon. *)
Lemma store_live lc vm db k h data :
  lc_vnn_map lc = Some vm → db_server_store db = true →
  data ≠ [] ∨ db_persistent db = true →
  ∃ h' db', ctdb_ltdb_store lc db k h data = (0, h', db') ∧ same_db db db'.
Proof.
  intros Hvm Hs Hne. destruct (ctdb_ltdb_store lc db k h data) as [[ret h'] db'] eqn:E.
  assert (ret = 0) as ->.
  { revert E. unfold ctdb_ltdb_store, ctdb_ltdb_store_server. rewrite Hs, Hvm.
    pose proof (store_keep_kept lc db vm k h data Hne) as Hk.
    destruct (store_keep lc db vm k h data) as [keep sched]. simpl in Hk. subst keep.
    destruct (store_bump lc db h data sched) as [[h1 s1] r1].
    match goal with |- context [tdb_store ?t k ?v] => destruct (rl_store t k v) as [t' ->] end.
    by intros [= <- _ _]. }
  exists h', db'. split; [done|]. unfold ctdb_ltdb_store in E. rewrite Hs in E.
  by apply (store_server_inv _ vm) in E as (_ & _ & _ & _ & _ & _ & Hw).
Qed.

Lemma push_records_live lc vm recs db :
  lc_vnn_map lc = Some vm → db_server_store db = true →
  Forall (λ kv, (sizeof_header <= length kv.2)%nat
                ∧ (drop sizeof_header kv.2 ≠ [] ∨ db_persistent db = true)) recs →
  ∃ db', push_records lc recs db = (0, db').
Proof.
  intros Hvm. revert db. induction recs as [|[k d] recs IH]; intros db Hs Hr; [by eexists|].
  apply Forall_cons in Hr as [[Hl Hne] Hr]. cbn [push_records]. rewrite (proj2 (Nat.ltb_ge _ _)) by done.
  edestruct (store_live lc vm db k) as (h' & db' & -> & (t & q & c & ->)); [done..|]. cbn [negb Z.eqb].
  by apply IH.
Qed.

Lemma push_live g blob s db :
  phase (Some g) s → find_db (mb_db_id blob) (fx_dbs s) = Some db →
  (offsetof_marshall_data <= length blob)%nat → db_server_store db = true →
  Forall (λ kv, (sizeof_header <= length kv.2)%nat
                ∧ (drop sizeof_header kv.2 ≠ [] ∨ db_persistent db = true)) (mb_records blob) →
  ∃ s', dispatch tun env (CTDB_CONTROL_PUSH_DB blob) s = Reply 0 [] s' ∧ phase (Some g) s'.
Proof.
  intros Hp Hf Hl Hs Hr.
  assert (∃ s', dispatch tun env (CTDB_CONTROL_PUSH_DB blob) s = Reply 0 [] s') as [s' E].
  { simpl. unfold ctdb_control_push_db. rewrite (proj2 (Nat.ltb_ge _ _)) by done.
    rewrite Hf, (phase_priority _ _ _ Hp), (er_mark _ Henv). cbn [negb].
    edestruct (push_records_live (daemon_lc (fx_ctdb s))) as [db' ->]; [done|done|exact Hr|].
    cbn [negb Z.eqb]. destruct (push_readonly db'). by eexists. }
  exists s'. split; [exact E|]. by apply (phase_within g (CTDB_CONTROL_PUSH_DB blob) s 0 [] s').
Qed.

Lemma pull_db_live g id keys M s db l :
  phase (Some g) s → find_db id (fx_dbs s) = Some db →
  0 <= M < MAX_TALLOC_SIZE → blob_fits tun (length keys) M → is_u32 id →
  tdb_traverse_read (db_ltdb db) = Some l → table_within keys M l →
  ∃ out, dispatch tun env (CTDB_CONTROL_PULL_DB id) s = Reply 0 out s
  ∧ mb_records out = l ∧ (offsetof_marshall_data <= length out)%nat.
Proof.
  intros Hp Hf HM Hb Hid El Hl. simpl. unfold ctdb_control_pull_db.
  rewrite Hf, (phase_priority _ _ _ Hp), (er_mark _ Henv), El. cbn [negb].
  destruct (pull_live tun keys M l id) as [ps Eps]; [done..|by eapply tdb_traverse_nodup|done|].
  rewrite Eps. exists (pd_data ps). split; [done|]. apply pull_blob in Eps; [done..|].
  eapply Forall_impl; [exact Hl|]. intros kv [_ Hw]. unfold fits, record_within in *. lia.
Qed.

(** ** Controls on all nodes *)

Lemma async_loop_live {A} c (cb : Z → Z → bytes → A → A) fcb pnns nodes a :
  NoDup pnns →
  (∀ n, n ∈ pnns → ∃ s out s', nodes !! n = Some s ∧ dispatch tun env c s = Reply 0 out s') →
  ∃ nodes' a', async_loop tun env c cb fcb pnns nodes a = (nodes', 0, a').
Proof.
  revert nodes a. induction pnns as [|p pnns IH]; intros nodes a Hnd Hall; [by eexists _, _|].
  apply NoDup_cons in Hnd as [Hp Hnd]. cbn [async_loop]. unfold send_control.
  destruct (Hall p) as (s & out & s' & -> & ->); [by left|]. rewrite (er_fate _ Henv). cbn [negb Z.eqb].
  edestruct (IH (<[p := s']> nodes)) as (nodes' & a' & ->); [done| |by eexists _, _].
  intros n Hn. destruct (Hall n) as (s1 & o1 & s1' & E1 & E2); [by right|].
  exists s1, o1, s1'. rewrite lookup_insert_ne; [done|]. by intros ->.
Qed.

Definition all_phase (g : option Z) nodes (pnns : list Z) : Prop :=
  ∀ n, n ∈ pnns → ∃ s, nodes !! n = Some s ∧ phase g s.

Lemma async_live {A} c (fcb : Z → A → A) pnns nodes a g :
  NoDup pnns →
  (∀ n, n ∈ pnns → ∃ s s', nodes !! n = Some s ∧ dispatch tun env c s = Reply 0 [] s' ∧ phase g s') →
  ∃ nodes', ctdb_client_async_control tun env c (λ _ _ _ a, a) fcb pnns nodes a = (nodes', 0, a)
  ∧ async_control tun env c pnns nodes = (nodes', 0) ∧ all_phase g nodes' pnns.
Proof.
  intros Hnd Hall.
  destruct (async_loop_live c (λ _ _ _ a, a) fcb (re_arrive env pnns) nodes a) as (nodes' & a' & E).
  { by rewrite (er_arrive _ Henv). }
  { intros n Hn. rewrite (er_arrive _ Henv) in Hn. destruct (Hall n Hn) as (s & s' & E1 & E2 & _).
    by exists s, [], s'. }
  assert (ctdb_client_async_control tun env c (λ _ _ _ a, a) fcb pnns nodes a = (nodes', 0, a')) as Ec
    by (unfold ctdb_client_async_control; by rewrite E).
  pose proof Ec as Ec'. apply async_no_failure in Ec' as [-> Ea]. exists nodes'. split_and!; [done..|].
  intros n Hn. apply async_control_ok in Ea as [H1 _]; [|first [done|apply Henv]..].
  destruct (H1 n Hn) as (s & out & s' & E1 & E2 & E3). exists s'. split; [done|].
  destruct (Hall n Hn) as (s0 & s0' & E1' & E2' & Hph). rewrite E1 in E1'. injection E1' as <-.
  rewrite E2 in E2'. by injection E2' as -> ->.
Qed.

(** ** One database *)

Definition headers_ok recdb : Prop :=
  ∀ k v, tdb_lookup recdb k = Some v → (sizeof_header <= length v)%nat.

Lemma merge_live rm recs recdb :
  headers_ok recdb → Forall (λ kv, (sizeof_header <= length kv.2)%nat) recs →
  ∃ recdb', merge_records rm recs recdb = (recdb', 0) ∧ headers_ok recdb'.
Proof.
  revert recdb. induction recs as [|[k d] recs IH]; intros recdb Hh Hr; [by eexists|].
  apply Forall_cons in Hr as [Hl Hr]. cbn [merge_records]. rewrite (proj2 (Nat.ltb_ge _ _)) by done.
  destruct (rl_store recdb k d) as [t Et]. rewrite Et. cbn [negb Z.eqb].
  assert (headers_ok t) as Ht.
  { intros k' v Hv. destruct (decide (k' = k)) as [->|Hne].
    - rewrite (tdb_lookup_store _ _ _ _ Et) in Hv. by injection Hv as <-.
    - rewrite (tdb_lookup_store_other _ _ _ _ _ _ Et) in Hv by done. by eapply Hh. }
  destruct (tdb_lookup recdb k) as [e|] eqn:Ee; [|by apply IH].
  rewrite (proj2 (Nat.ltb_ge _ _)) by by eapply Hh. case_goal; by apply IH.
Qed.

(** A database that can be recovered: its records, on whichever node, have a
    header, a key out of [keys] and a limited size. *)
Record db_ready (keys : list bytes) (M id : Z) (persistent : bool) (pnns : list Z) nodes : Prop := {
  dr_parts : participants id persistent nodes;
  dr_has : Forall (has_db id nodes) pnns;
  dr_within n k v : copy id k nodes n = Some v → k ∈ keys ∧ record_within M (k, v);
}.

(** The question for the sequence number may leave an empty record. *)
Definition seqnum_room (keys : list bytes) (M : Z) : Prop :=
  CTDB_DB_SEQNUM_KEY ∈ keys ∧ Z.of_nat (offsetof_rec_data + length CTDB_DB_SEQNUM_KEY + sizeof_header) <= M.

Section database.
Variables (keys : list bytes) (M g : Z).
Hypothesis HM : 0 <= M < MAX_TALLOC_SIZE.
Hypothesis Hroom : blob_fits tun (length keys) M.
Hypothesis Hseq : seqnum_room keys M.

Lemma pull_one_live rec n id persistent pnns nodes recdb :
  is_u32 id → db_ready keys M id persistent pnns nodes → all_phase (Some g) nodes pnns → n ∈ pnns →
  headers_ok recdb →
  ∃ recdb', pull_one_remote_database tun env rec n id nodes recdb = (nodes, recdb', 0) ∧ headers_ok recdb'.
Proof.
  intros Hid [Hp Hhas Hw] Hph Hn Hh. destruct (Hph n Hn) as (s & Es & Hs).
  rewrite Forall_forall in Hhas. destruct (Hhas n Hn) as (s' & db & Es' & Edb & Hlen).
  rewrite Es in Es'. injection Es' as <-. destruct (rl_traverse (db_ltdb db)) as [l El].
  destruct (pull_db_live g id keys M s db l) as (out & Ed & Er & Hlo); [done..| |].
  { apply Forall_forall. intros [k v] Hin. apply (Hw n). unfold copy. rewrite Es.
    cbn [mbind option_bind]. rewrite Edb. by apply (tdb_traverse_spec _ _ _ _ El). }
  unfold pull_one_remote_database, send_control. rewrite Es, (er_fate _ Henv), Ed. cbn [negb Z.eqb].
  rewrite (proj2 (Nat.ltb_ge _ _)) by done. rewrite Er, (insert_id _ _ _ Es).
  edestruct (merge_live (rd_recovery_master rec) l recdb Hh) as (recdb' & -> & Hh'); [|by eexists].
  apply Forall_forall. intros [k v] Hin. apply (Hlen k). by apply (tdb_traverse_spec _ _ _ _ El).
Qed.

Lemma pull_nodes_live rec nodemap id persistent pnns nodes recdb :
  is_u32 id → db_ready keys M id persistent pnns nodes → all_phase (Some g) nodes pnns →
  (∀ n, n ∈ RecoveryMerge.active nodemap → n ∈ pnns) → headers_ok recdb →
  ∃ recdb', pull_nodes tun env rec nodemap id nodes recdb = (nodes, recdb', None).
Proof.
  intros Hid Hr Hph. revert recdb. induction nodemap as [|x nodemap IH]; intros recdb Hin Hh; [by eexists|].
  cbn [pull_nodes]. unfold active in Hin. rewrite filter_cons in Hin.
  destruct (nf_flags x &? NODE_FLAGS_INACTIVE) eqn:Ef; [by apply IH|].
  destruct (pull_one_live rec (nf_pnn x) id persistent pnns nodes recdb) as (t & -> & Ht);
    [done..|apply Hin; by left|done|]. cbn [negb Z.eqb]. apply IH; [|done]. intros n Hn. apply Hin. by right.
Qed.

Lemma db_ready_touched id persistent pnns nodes nodes' :
  nodes_touched id nodes nodes' → db_ready keys M id persistent pnns nodes → db_ready keys M id persistent pnns nodes'.
Proof.
  intros Ht [Hp Hhas Hw].
  assert (∀ n k v, copy id k nodes' n = Some v → copy id k nodes n = Some v ∨ k = CTDB_DB_SEQNUM_KEY ∧ length v = sizeof_header) as Hc.
  { intros n k v E. destruct (decide (k = CTDB_DB_SEQNUM_KEY)) as [->|Hk]; [|left; by rewrite <- (touched_copy id nodes nodes')].
    specialize (Ht n). unfold copy in *. destruct (nodes !! n) as [s|], (nodes' !! n) as [s'|]; try done.
    destruct Ht as [_ Ht]. cbn [mbind option_bind] in *.
    destruct (find_db id (fx_dbs s)) as [db|], (find_db id (fx_dbs s')) as [db'|]; try done. cbn [mbind option_bind] in *.
    destruct Ht as [Ht _]. destruct (dt_small _ _ Ht) as [Eq|Hs]; [left; congruence|right]. split; [done|]. by apply Hs. }
  split.
  - by eapply touched_parts.
  - eapply Forall_impl; [exact Hhas|]. intros n (s & db & Es & Edb & Hlen).
    destruct (proj2 (touched_table id nodes nodes' n Ht)) as (s' & db' & Es' & Edb'); [by exists s, db|].
    exists s', db'. split_and!; [done..|]. intros k v Hv. destruct (Hc n k v) as [E|[_ ->]]; [| |done].
    + unfold copy. rewrite Es'. cbn [mbind option_bind]. by rewrite Edb'.
    + unfold copy in E. rewrite Es in E. cbn [mbind option_bind] in E. rewrite Edb in E. by apply (Hlen k).
  - intros n k v E. destruct (Hc n k v E) as [E'|[-> Hl]]; [by apply (Hw n)|].
    destruct Hseq as [Hk HMk]. split; [done|]. unfold record_within, dsize. cbn [fst snd]. rewrite Hl. lia.
Qed.

(** All nodes tell their number. *)
Lemma ask_live id nodemap nodes cb :
  NoDup (active nodemap) → db_ready keys M id true (active nodemap) nodes → all_phase (Some g) nodes (active nodemap) →
  ∃ nodes' cb', ctdb_client_async_control tun env (CTDB_CONTROL_GET_DB_SEQNUM id) pull_seqnum_cb (λ _, pull_seqnum_fail_cb)
    (active nodemap) nodes cb = (nodes', 0, cb')
  ∧ async_loop tun env (CTDB_CONTROL_GET_DB_SEQNUM id) pull_seqnum_cb (λ _, pull_seqnum_fail_cb)
    (re_arrive env (active nodemap)) nodes cb = (nodes', 0, cb')
  ∧ all_phase (Some g) nodes' (active nodemap).
Proof.
  intros Hnd [Hp Hhas _] Hph. rewrite Forall_forall in Hhas.
  destruct (async_loop_live (CTDB_CONTROL_GET_DB_SEQNUM id) pull_seqnum_cb (λ _, pull_seqnum_fail_cb)
    (re_arrive env (active nodemap)) nodes cb) as (nodes' & cb' & E).
  { by rewrite (er_arrive _ Henv). }
  { intros n Hn. rewrite (er_arrive _ Henv) in Hn. destruct (Hhas n Hn) as (s & db & Es & Edb & _).
    destruct (get_seqnum_ok tun env id s) as (st & out & s' & Ed & _ & Hst); [intros db' Edb'; by eapply pt_db|].
    rewrite Edb in Hst. destruct Hst as [-> _]. by exists s, out, s'. }
  exists nodes', cb'. split; [unfold ctdb_client_async_control; by rewrite E|]. split; [done|].
  intros n Hn. destruct (Hph n Hn) as (s & Es & Hs).
  apply async_loop_ok in E as [_ Hok]; [|first [done|apply Henv]..]. destruct (Hok eq_refl) as [H1 _]; [by rewrite (er_arrive _ Henv)|].
  destruct (H1 n) as (s1 & out & s' & Es1 & Ed & Es'); [by rewrite (er_arrive _ Henv)|].
  rewrite Es in Es1. injection Es1 as <-. exists s'. split; [done|].
  by apply (phase_within g (CTDB_CONTROL_GET_DB_SEQNUM id) s 0 out s').
Qed.

Lemma pull_highest_live rec id nodemap nodes :
  is_u32 id → NoDup (active nodemap) → Forall (λ n, 0 <= nf_pnn n < 2 ^ 32 - 1) nodemap →
  db_ready keys M id true (active nodemap) nodes → all_phase (Some g) nodes (active nodemap) →
  ∃ nodes' recdb r, pull_highest_seqnum_pdb tun env rec nodemap id nodes tdb_create = (nodes', recdb, r)
  ∧ headers_ok recdb ∧ db_ready keys M id true (active nodemap) nodes' ∧ all_phase (Some g) nodes' (active nodemap).
Proof.
  intros Hid Hnd Hrange Hr Hph. destruct (ask_live id nodemap nodes (mk_seqnum_cb false (2 ^ 32 - 1) 0))
    as (nodes1 & cb & Ea & El & Hph1); [done..|].
  pose proof (seqnum_loop_nodes _ _ _ _ _ _ _ _ _ (dr_parts _ _ _ _ _ _ Hr) El) as (Ht & _).
  pose proof (db_ready_touched _ _ _ _ _ Ht Hr) as Hr1.
  apply seqnum_loop_ok in El; [|apply Hr|done]. rewrite decide_True in El by done.
  destruct El as [(_ & Hwho & _) _].
  assert (headers_ok tdb_create) as Hc by (intros k v; by rewrite tdb_lookup_create).
  unfold pull_highest_seqnum_pdb. rewrite active_list, Ea by done. cbn [negb Z.eqb].
  destruct (sc_failed cb); [by eexists _, _, _|].
  destruct (Z.eqb_spec (sc_seqnum cb) 0) as [E0|E0]; cbn [orb]; [by eexists _, _, _|].
  destruct (sc_pnn cb =? 2 ^ 32 - 1); [by eexists _, _, _|].
  destruct Hwho as [->|[Hin _]]; [done|]. rewrite (er_arrive _ Henv) in Hin.
  destruct (pull_one_live rec (sc_pnn cb) id true (active nodemap) nodes1 tdb_create) as (t & -> & Hh); [done..|].
  by eexists _, _, _.
Qed.

Lemma pull_remote_live now rec id persistent nodemap nodes :
  is_u32 id → NoDup (active nodemap) → Forall (λ n, 0 <= nf_pnn n < 2 ^ 32 - 1) nodemap →
  db_ready keys M id persistent (active nodemap) nodes → all_phase (Some g) nodes (active nodemap) →
  ∃ nodes' recdb, pull_remote_database tun env now rec nodemap id persistent nodes tdb_create = Some (nodes', recdb, rec, 0)
  ∧ db_ready keys M id persistent (active nodemap) nodes' ∧ all_phase (Some g) nodes' (active nodemap).
Proof.
  intros Hid Hnd Hrange Hr Hph. unfold pull_remote_database.
  assert (headers_ok tdb_create) as Hc by (intros k v; by rewrite tdb_lookup_create).
  destruct (persistent && _) eqn:Hby.
  - assert (persistent = true) as -> by (by destruct persistent).
    destruct (pull_highest_live rec id nodemap nodes) as (nodes1 & t & r & -> & Hh & Hr1 & Hph1); [done..|].
    destruct (r =? 0); [by eexists _, _|].
    destruct (pull_nodes_live rec nodemap id true (active nodemap) nodes1 t) as [recdb ->]; [done..|]. by eexists _, _.
  - change (-1 =? 0) with false. cbv iota beta.
    destruct (pull_nodes_live rec nodemap id persistent (active nodemap) nodes tdb_create) as [recdb ->]; [done..|].
    by eexists _, _.
Qed.

(** The temporary database holds copies from the nodes, so that its blob fits. *)
Lemma recdb_blob_live rec id persistent nodemap nodes recdb :
  is_u32 id → is_u32 (rd_pnn rec) → db_ready keys M id persistent (active nodemap) nodes →
  (∀ k v, tdb_lookup recdb k = Some v → ∃ n, n ∈ active nodemap ∧ has_db id nodes n ∧ copy id k nodes n = Some v) →
  ∃ blob, recdb_blob tun rec id persistent recdb = Some blob
  ∧ mb_db_id blob = id ∧ (offsetof_marshall_data <= length blob)%nat
  ∧ Forall (λ kv, (sizeof_header <= length kv.2)%nat
                  ∧ (drop sizeof_header kv.2 ≠ [] ∨ persistent = true)) (mb_records blob).
Proof.
  intros Hid Hpnn [Hp Hhas Hw] Hk. destruct (rl_traverse recdb) as [l El].
  assert (∀ k v, (k, v) ∈ l → (Forall is_u8 v ∧ (sizeof_header <= length v)%nat)
    ∧ k ∈ keys ∧ record_within M (k, v)) as Hl.
  { intros k v Hin. apply (tdb_traverse_spec _ _ _ _ El) in Hin. apply Hk in Hin as (n & Hn & Hdb & Hc).
    split; [by eapply copy_ok|]. by apply (Hw n). }
  destruct (recdb_live tun keys M l id (rd_pnn rec) persistent) as (ps & Et & Ef);
    [done..|by eapply tdb_traverse_nodup| | |].
  { apply Forall_forall. intros [k v] Hin. by apply Hl. }
  { apply Forall_forall. intros [k v] Hin. by apply (Hl k v). }
  exists (pd_data ps). unfold recdb_blob. rewrite El. cbn [mbind option_bind]. rewrite Et.
  cbn [mbind option_bind]. rewrite Ef. split; [done|].
  apply recdb_traverse in Et as (Er & Ei & Hlen); [|done..]. split; [done|]. split; [done|].
  rewrite Er. apply Forall_forall. intros [k d] Hin. apply list_elem_of_omap in Hin as ([k' v] & Hin & E).
  cbn [fst snd] in E. destruct (Hl _ _ Hin) as [[Hu Hle] _].
  pose proof (pushed_ok (rd_pnn rec) persistent v Hpnn Hu Hle) as Hd.
  destruct (pushed (rd_pnn rec) persistent v) as [d'|] eqn:Epd; [|done].
  cbn [mbind option_bind] in E. injection E as <- <-. cbn [snd]. destruct Hd as (_ & Hne & _).
  split; [|done]. unfold pushed in Epd. case_hyp Epd; [done|]. injection Epd as <-.
  unfold recdb_record. destruct persistent; [done|].
  unfold sizeof_header in *. rewrite !length_set32; rewrite ?length_set32; lia.
Qed.

Lemma wipe_all_live id pnns nodes :
  NoDup pnns → Forall (has_db id nodes) pnns → all_phase (Some g) nodes pnns →
  ∃ nodes', async_control tun env (CTDB_CONTROL_WIPE_DATABASE id g) pnns nodes = (nodes', 0)
  ∧ all_phase (Some g) nodes' pnns.
Proof.
  intros Hnd Hhas Hph.
  destruct (async_live (CTDB_CONTROL_WIPE_DATABASE id g) (λ _ a, a) pnns nodes () (Some g))
    as (nodes' & _ & Ea & Hp); [done| |by exists nodes'].
  intros n Hn. destruct (Hph n Hn) as (s & Es & Hs). rewrite Forall_forall in Hhas.
  destruct (Hhas n Hn) as (s1 & db & Es1 & Edb & _). rewrite Es in Es1. injection Es1 as <-.
  destruct (wipe_live g id s db Hs Edb) as (s' & Ed & Hs'). by exists s, s'.
Qed.

Lemma push_all_live id persistent pnns nodes nodes1 blob :
  NoDup pnns → participants id persistent nodes →
  async_control tun env (CTDB_CONTROL_WIPE_DATABASE id g) pnns nodes = (nodes1, 0) →
  all_phase (Some g) nodes1 pnns → mb_db_id blob = id → (offsetof_marshall_data <= length blob)%nat →
  Forall (λ kv, (sizeof_header <= length kv.2)%nat
                ∧ (drop sizeof_header kv.2 ≠ [] ∨ persistent = true)) (mb_records blob) →
  ∃ nodes', async_control tun env (CTDB_CONTROL_PUSH_DB blob) pnns nodes1 = (nodes', 0)
  ∧ all_phase (Some g) nodes' pnns.
Proof.
  intros Hnd Hp Ew Hph Ei Hl Hr. apply async_control_ok in Ew as [Hw _]; [|first [done|apply Henv]..].
  destruct (async_live (CTDB_CONTROL_PUSH_DB blob) (λ _ a, a) pnns nodes1 () (Some g))
    as (nodes' & _ & Ea & Hp'); [done| |by exists nodes'].
  intros n Hn. destruct (Hph n Hn) as (s1 & Es1 & Hs1).
  destruct (Hw n Hn) as (s & out & s1' & Es & Ed & Es1'). rewrite Es1 in Es1'. injection Es1' as <-.
  apply wipe_ok in Ed as (_ & db & db' & Edb & Edb' & Ep & Ess & _).
  destruct (pt_db _ _ _ Hp n s db Es Edb) as (_ & Hss & Hpers).
  destruct (push_live g blob s1 db') as (s' & Ed & Hs'); [done|by rewrite Ei|done|congruence| |by exists s1, s'].
  by rewrite Ep, Hpers.
Qed.

Lemma recover_database_live now rec id persistent nodemap nodes :
  is_u32 id → is_u32 (rd_pnn rec) → NoDup (active nodemap) →
  Forall (λ n, 0 <= nf_pnn n < 2 ^ 32 - 1) nodemap →
  db_ready keys M id persistent (active nodemap) nodes → all_phase (Some g) nodes (active nodemap) →
  ∃ nodes', recover_database tun env now rec id persistent nodemap g nodes = Some (nodes', rec, 0)
  ∧ all_phase (Some g) nodes' (active nodemap).
Proof.
  intros Hid Hpnn Hnd Hrange Hr Hph. unfold recover_database. rewrite (er_recdb _ Henv). cbn [negb].
  destruct (pull_remote_live now rec id persistent nodemap nodes) as (nodes0 & recdb & Ep & Hr0 & Hph0); [done..|].
  rewrite Ep. cbn [mbind option_bind negb Z.eqb]. rewrite active_list by done.
  apply pull_remote_ok in Ep as (_ & _ & _ & _ & Hk); [|try done; try apply Henv; try apply Hr..].
  destruct (recdb_blob_live rec id persistent nodemap nodes0 recdb) as (blob & Eb & Ei & Hl & Hrecs); [done..|].
  destruct (wipe_all_live id (active nodemap) nodes0) as (nodes1 & Ew & Hph1); [done|apply Hr0|done|].
  destruct (push_all_live id persistent (active nodemap) nodes0 nodes1 blob) as (nodes2 & Epush & Hph2);
    [done|apply Hr0|done..|].
  rewrite Ew. cbn [negb Z.eqb]. unfold push_recdb_database. rewrite Eb, active_list, Epush by done.
  by exists nodes2.
Qed.

(** A database that has not been recovered yet is left alone. *)
Lemma db_ready_other id id' persistent pnns nodes nodes' :
  id' ≠ id → (∀ n, n ∉ pnns → nodes' !! n = nodes !! n) →
  (∀ n, n ∈ pnns → ∃ s s', nodes !! n = Some s ∧ nodes' !! n = Some s' ∧ same_node id s s') →
  db_ready keys M id' persistent pnns nodes → db_ready keys M id' persistent pnns nodes'.
Proof.
  intros Hne Hout Hin [Hp Hhas Hw].
  assert (∀ n s', nodes' !! n = Some s' → ∃ s, nodes !! n = Some s
    ∧ cx_pnn (fx_ctdb s') = cx_pnn (fx_ctdb s) ∧ find_db id' (fx_dbs s') = find_db id' (fx_dbs s)) as Hback.
  { intros n s' Es'. destruct (decide (n ∈ pnns)) as [Hn|Hn].
    - destruct (Hin n Hn) as (s & s1 & Es & Es1 & Hpnn & Hdb). rewrite Es' in Es1. injection Es1 as <-.
      exists s. auto.
    - rewrite Hout in Es' by done. by exists s'. }
  assert (∀ n k v, copy id' k nodes' n = Some v → copy id' k nodes n = Some v) as Hcopy.
  { intros n k v. unfold copy. destruct (nodes' !! n) as [s'|] eqn:Es'; [|done]. cbn [mbind option_bind].
    destruct (Hback n s' Es') as (s & -> & _ & ->). done. }
  split.
  - destruct Hp as [H1 H2 H3]. split.
    + intros n k v Hc. apply (H1 n). by apply Hcopy.
    + intros n s' Es'. destruct (Hback n s' Es') as (s & Es & -> & _). by apply H2.
    + intros n s' db Es' Edb. destruct (Hback n s' Es') as (s & Es & _ & E). rewrite E in Edb. by apply (H3 n s).
  - apply Forall_forall. intros n Hn. rewrite Forall_forall in Hhas.
    destruct (Hhas n Hn) as (s & db & Es & Edb & Hl), (Hin n Hn) as (s1 & s' & Es1 & Es' & _ & Hdb).
    rewrite Es in Es1. injection Es1 as <-. exists s', db. rewrite Hdb by done. done.
  - intros n k v Hc. apply (Hw n). by apply Hcopy.
Qed.

Lemma recover_databases_live now rec dbmap nodemap nodes :
  is_u32 (rd_pnn rec) → NoDup (active nodemap) →
  Forall (λ n, 0 <= nf_pnn n < 2 ^ 32 - 1) nodemap → NoDup dbmap.*1 →
  Forall (λ '(id, persistent), is_u32 id ∧ db_ready keys M id persistent (active nodemap) nodes) dbmap →
  all_phase (Some g) nodes (active nodemap) →
  ∃ nodes', recover_databases tun env now rec dbmap nodemap g nodes = Some (nodes', rec, 0)
  ∧ all_phase (Some g) nodes' (active nodemap).
Proof.
  intros Hpnn Hnd Hrange. revert nodes.
  induction dbmap as [|[id persistent] dbmap IH]; intros nodes Hids Hdbs Hph; [by eexists|].
  cbn [fmap list_fmap fst] in Hids. apply NoDup_cons in Hids as [Hnot Hids].
  apply Forall_cons in Hdbs as [(Hid & Hr) Hdbs]. cbn [recover_databases].
  destruct (recover_database_live now rec id persistent nodemap nodes) as (nodes1 & E & Hph1); [done..|].
  rewrite E. cbn [mbind option_bind negb Z.eqb]. apply IH; [done| |done].
  apply recover_database_ok in E as (_ & Hout & B & _ & Hin); [|try done; try apply Henv; try apply Hr..].
  apply Forall_forall. intros [id' p'] Hin'. rewrite Forall_forall in Hdbs.
  destruct (Hdbs _ Hin') as (A & C). split; [done|].
  apply (db_ready_other id id' p' _ nodes nodes1); [|done| |done].
  - intros ->. apply Hnot. apply list_elem_of_fmap. by exists (id, p').
  - intros n Hn. destruct (Hin n Hn) as (s0 & s & db & E0 & E1 & Hs & _). by exists s0, s.
Qed.

Lemma db_ready_same id persistent pnns nodes nodes' :
  same_table id nodes nodes' →
  db_ready keys M id persistent pnns nodes → db_ready keys M id persistent pnns nodes'.
Proof.
  intros Hs [Hp Hhas Hw]. split.
  - by eapply same_table_parts.
  - apply Forall_forall. intros n Hn. rewrite Forall_forall in Hhas.
    destruct (Hhas n Hn) as (s & db & Es & Edb & Hl). specialize (Hs n). rewrite Es in Hs.
    destruct (nodes' !! n) as [s'|] eqn:Es'; [|done]. destruct Hs as [_ Hs]. rewrite Edb in Hs.
    destruct (find_db id (fx_dbs s')) as [db'|] eqn:Edb'; [|done]. exists s', db'. split_and!; [done..|].
    intros k v. destruct Hs as (-> & _). apply Hl.
  - intros n k v. rewrite (same_table_copy _ _ _ _ _ Hs). apply Hw.
Qed.
End database.

Lemma setvnnmap_all_live map n pnns nodes :
  n ∈ pnns → all_phase None nodes pnns →
  ∃ nodes', ctdb_ctrl_setvnnmap tun env n map nodes = (nodes', true) ∧ all_phase None nodes' pnns.
Proof.
  intros Hn Hph. destruct (Hph n Hn) as (s & Es & Hs). destruct (setvnnmap_live map s Hs) as (s' & Ed & Hs').
  unfold ctdb_ctrl_setvnnmap, send_control. rewrite Es, (er_fate _ Henv), Ed. cbn [Z.eqb].
  eexists. split; [done|]. intros m Hm. destruct (decide (m = n)) as [->|Hne].
  - exists s'. by rewrite lookup_insert_eq.
  - rewrite lookup_insert_ne by done. by apply Hph.
Qed.

Lemma update_vnnmap_live map nodemap pnns nodes :
  (∀ n, n ∈ active nodemap → n ∈ pnns) → all_phase None nodes pnns →
  ∃ nodes', update_vnnmap_on_all_nodes tun env map nodemap nodes = (nodes', 0).
Proof.
  revert nodes. induction nodemap as [|x nodemap IH]; intros nodes Hin Hph; [by eexists|].
  unfold active in Hin. rewrite filter_cons in Hin. cbn [update_vnnmap_on_all_nodes].
  destruct (nf_flags x &? NODE_FLAGS_INACTIVE) eqn:Ef; [by apply IH|].
  destruct (setvnnmap_all_live map (nf_pnn x) pnns nodes) as (nodes1 & -> & Hph1); [apply Hin; by left|done|].
  cbn [negb]. apply IH; [|done]. intros n Hn. apply Hin. by right.
Qed.

(** C3: recovery completes: when every control is answered and the tdb files
    can be written, a recovery run by an active node, with all active nodes
    frozen and outside of a transaction and every database of the map present on
    them with records that have a header, returns success.  [keys] and [M] bound
    the keys of the records, that of the sequence number included, and their
    marshalled size: as many records of that size have to fit into one blob.
    Persistent databases are recovered by their sequence number or record by
    record, as the tunable says. *)
Theorem recovery_completes now rec vnnmap g g' caps dbmap nodemap nodes keys M
    (HM : 0 <= M < MAX_TALLOC_SIZE) (Hroom : blob_fits tun (length keys) M) (Hseq : seqnum_room keys M)
    (Hpnn : is_u32 (rd_pnn rec)) (Hself : rd_pnn rec ∈ active nodemap) (Hnd : NoDup (active nodemap))
    (Hrange : Forall (λ n, 0 <= nf_pnn n < 2 ^ 32 - 1) nodemap)
    (Hids : NoDup dbmap.*1)
    (Hdbs : Forall (λ '(id, persistent), is_u32 id
              ∧ db_ready keys M id persistent (active nodemap) nodes) dbmap)
    (Hidle : ∀ n s, nodes !! n = Some s → fx_transaction_started s = false)
    (Hstart : all_phase None nodes (active nodemap)) :
  ∃ nodes', do_recovery_databases tun env now rec vnnmap g g' (Some caps) dbmap nodemap nodes
            = Some (nodes', rec, 0).
Proof.
  unfold do_recovery_databases.
  destruct (setvnnmap_all_live (mk_vnn_map g (vm_size vnnmap) (vm_map vnnmap)) (rd_pnn rec)
    (active nodemap) nodes Hself Hstart) as (nodes1 & E1 & Hph1).
  rewrite E1. cbn [negb]. apply set_own_vnnmap in E1 as [Hs1 Ht1]. rewrite active_list by done.
  destruct (async_live (CTDB_CONTROL_TRANSACTION_START g)
    (transaction_start_fail_callback tun now (Z.of_nat (length nodemap))) (active nodemap) nodes1 (Some rec)
    (Some g)) as (nodes2 & -> & E2 & Hph2); [done| |].
  { intros n Hn. destruct (Hph1 n Hn) as (s & Es & Hs). destruct (start_live g s Hs) as (s' & Ed & Hs').
    by exists s, s'. }
  cbn [mbind option_bind negb Z.eqb].
  destruct (recover_databases_live keys M g HM Hroom Hseq now rec dbmap nodemap nodes2) as (nodes3 & -> & Hph3);
    [done..| |done|].
  { eapply Forall_impl; [exact Hdbs|]. intros [id p] (A & C). split; [done|].
    eapply db_ready_same; [|exact C]. eapply same_table_trans; [apply Hs1|].
    eapply start_all, E2; try done; try apply Henv.
    intros n s En. destruct (Ht1 n s En) as (s0 & E0 & ->). by eapply Hidle. }
  cbn [mbind option_bind negb Z.eqb].
  destruct (async_live (CTDB_CONTROL_TRANSACTION_COMMIT g) (λ _ a, a) (active nodemap) nodes3 () None)
    as (nodes4 & _ & -> & Hph4); [done| |].
  { intros n Hn. destruct (Hph3 n Hn) as (s & Es & Hs). destruct (commit_live g s Hs) as (s' & Ed & Hs').
    by exists s, s'. }
  cbn [negb Z.eqb].
  destruct (update_vnnmap_live (new_vnnmap g' (rd_pnn rec) caps nodemap) nodemap (active nodemap) nodes4)
    as (nodes5 & ->); [done..|]. by exists nodes5.
Qed.
End live.

(** ** Example *)

Lemma example_record_within r data :
  (length data <= 2)%nat → record_within 100 ([1], header_bytes (mk_header r 7 0 0) ++ data).
Proof.
  intros Hl. unfold record_within, dsize, offsetof_rec_data. cbn [fst snd].
  rewrite length_app, length_header_bytes. unfold sizeof_header. simpl (length [1]). lia.
Qed.

Definition example_keys : list bytes := [[1]; CTDB_DB_SEQNUM_KEY].

Lemma example_nodes_ready : db_ready example_keys 100 5 false (active example_nodemap) example_nodes.
Proof.
  split.
  - apply example_participants.
  - repeat constructor; eexists _, _; (split; [reflexivity|]; split; [reflexivity|]);
      intros k v [-> ->]%example_recdb_lookup; rewrite length_app, length_header_bytes; lia.
  - intros n k v. unfold copy. destruct (example_nodes !! n) as [s|] eqn:Es; [|done].
    apply example_nodes_lookup in Es as [[-> ->]|[-> ->]]; cbn [mbind option_bind];
      intros [-> ->]%example_recdb_lookup; (split; [by left|]); apply example_record_within; simpl; lia.
Qed.

Lemma example_pdb_ready : db_ready example_keys 100 6 true (active example_nodemap) example_nodes.
Proof.
  split.
  - apply example_participants_pdb.
  - repeat constructor; eexists _, _; (split; [reflexivity|]; split; [reflexivity|]);
      intros k v [-> ->]%example_pdb_lookup; rewrite length_app, length_header_bytes; lia.
  - intros n k v. unfold copy. destruct (example_nodes !! n) as [s|] eqn:Es; [|done].
    apply example_nodes_lookup in Es as [[-> ->]|[-> ->]]; cbn [mbind option_bind];
      intros [-> ->]%example_pdb_lookup; (split; [right; by left|]); by vm_compute.
Qed.

Lemma recovery_completes_witness :
  ∃ nodes', do_recovery_databases example_tun example_rec_env 0 example_recd example_vm 11 12
              (Some [3; 3]) example_dbmap example_nodemap example_nodes = Some (nodes', example_recd, 0).
Proof.
  apply (recovery_completes example_tun example_rec_env) with (keys := example_keys) (M := 100).
  - unfold prealloc_ok. simpl. lia.
  - by split.
  - unfold MAX_TALLOC_SIZE. lia.
  - unfold blob_fits, MAX_TALLOC_SIZE, offsetof_marshall_data. simpl. lia.
  - split; [right; by left|by vm_compute].
  - unfold is_u32. simpl. lia.
  - by left.
  - apply (bool_decide_unpack _). vm_compute. exact I.
  - repeat constructor; simpl; lia.
  - apply example_dbmap_ok.
  - apply Forall_cons. split; [split; [unfold is_u32; lia|apply example_nodes_ready]|].
    apply Forall_singleton. split; [unfold is_u32; lia|apply example_pdb_ready].
  - intros n s Es. by apply example_nodes_lookup in Es as [[-> ->]|[-> ->]].
  - intros n Hn. unfold active in Hn. simpl in Hn.
    apply elem_of_cons in Hn as [->|[->|[]%elem_of_nil]%elem_of_cons]; eexists;
      (split; [reflexivity|split; [done|by left|done|done|by repeat constructor]]).
Defined.
