(* ===== verification/Election.v ===== *)
(** * Elections of the recovery master

    [server/ctdb_recoverd.c]: what a node says of itself in an election, how two
    such claims compare, the handlers that exchange them between the recovery
    daemons, and the checks of the main loop that all nodes agree
    ([verify_recmaster], [verify_recmode]).  Proved: the comparison has one
    winner, and an election in which messages are faster than the timers ends,
    with every node taking that winner as its recovery master. *)
From S2P Require Import Prelude Protocol Node Freeze Recovery.

(** ** Comparing claims *)

(** [struct election_message]; times are counted in microseconds. *)
Record election_message := mk_em {
  em_num_connected : Z;
  em_priority_time : Z;
  em_pnn : Z;
  em_node_flags : Z;
}.

Definition timeval_compare (tv1 tv2 : Z) : Z :=
  if tv2 <? tv1 then 1 else if tv1 <? tv2 then -1 else 0.

(** [nodemap] is [None] when it could not be read; [now] is the current time.
    The array is read at the pnn of the node. *)
Definition ctdb_election_data (now : Z) (nodemap : option (list ctdb_node_and_flags))
    (rec : ctdb_recoverd) : ctdb_recoverd * election_message :=
  match nodemap with
  | None => (rec, mk_em 0 (rd_priority_time rec) (rd_pnn rec) 0)
  | Some nodemap =>
      let node_flags := nf_flags (nth (Z.to_nat (rd_pnn rec)) nodemap (mk_naf 0 0)) in
      let rec := set_rd_node_flags rec node_flags in
      let num_connected := Z.of_nat (length
        (filter (λ n, (nf_flags n &? NODE_FLAGS_DISCONNECTED) = false) nodemap)) in
      if negb (rd_capabilities rec &? CTDB_CAP_RECMASTER)
      then (rec, mk_em 0 now (rd_pnn rec) node_flags)
      else (rec, mk_em num_connected (rd_priority_time rec) (rd_pnn rec) node_flags)
  end.

(** See if the given election data wins. *)
Definition ctdb_election_win (now : Z) (nodemap : option (list ctdb_node_and_flags))
    (rec : ctdb_recoverd) (em : election_message) : ctdb_recoverd * bool :=
  let '(rec, myem) := ctdb_election_data now nodemap rec in
  (rec,
   if negb (rd_capabilities rec &? CTDB_CAP_RECMASTER) then false
   else if rd_node_flags rec &? NODE_FLAGS_BANNED then false
   else if rd_node_flags rec &? NODE_FLAGS_STOPPED then false
   else if em_node_flags em &? NODE_FLAGS_BANNED then true
   else if em_node_flags em &? NODE_FLAGS_STOPPED then true
   else
     let cmp := s32 (s32 (em_num_connected myem) - s32 (em_num_connected em)) in
     let cmp := if cmp =? 0 then timeval_compare (em_priority_time em) (em_priority_time myem)
                else cmp in
     let cmp := if cmp =? 0 then s32 (s32 (em_pnn myem) - s32 (em_pnn em)) else cmp in
     0 <? cmp).

(** ** The handlers *)

(** The recovery daemon of a node, the node map and the recovery master of its
    main daemon ([en_nodemap] is [None] when the map can not be read), the two
    timers, and whether the recovery lock is held. *)
Record election_node := mk_en {
  en_rec : ctdb_recoverd;
  en_nodemap : option (list ctdb_node_and_flags);
  en_recovery_master : Z;
  en_send_election_te : bool;
  en_election_timeout : bool;
  en_recovery_lock_fd : bool;
}.

Definition ctdb_election_timeout (n : election_node) : election_node :=
  mk_en (en_rec n) (en_nodemap n) (en_recovery_master n) (en_send_election_te n) false
    (en_recovery_lock_fd n).

(** [set] says whether [ctdb_ctrl_setrecmaster] succeeds.  The result is what is
    broadcast, [None] on failure. *)
Definition send_election_request (now : Z) (set : bool) (pnn : Z) (n : election_node)
    : election_node * option election_message :=
  let '(rec, emsg) := ctdb_election_data now (en_nodemap n) (en_rec n) in
  if set
  then (mk_en rec (en_nodemap n) pnn (en_send_election_te n) (en_election_timeout n)
          (en_recovery_lock_fd n), Some emsg)
  else (mk_en rec (en_nodemap n) (en_recovery_master n) (en_send_election_te n)
          (en_election_timeout n) (en_recovery_lock_fd n), None).

(** The nodes that are told to clear their banned flag. *)
Definition unban_all_nodes (nodemap : option (list ctdb_node_and_flags)) : list Z :=
  nf_pnn <$> filter (λ n, (nf_flags n &? NODE_FLAGS_DISCONNECTED) = false
                          ∧ (nf_flags n &? NODE_FLAGS_BANNED) = true) (default [] nodemap).

(** The timer: the request is sent, successful or not the timer is gone. *)
Definition election_send_request (now : Z) (set : bool) (n : election_node)
    : election_node * option election_message :=
  let '(n, em) := send_election_request now set (rd_pnn (en_rec n)) n in
  (mk_en (en_rec n) (en_nodemap n) (en_recovery_master n) false (en_election_timeout n)
     (en_recovery_lock_fd n), em).

(** The second component is the list of the nodes to unban. *)
Definition election_handler (verify_recovery_lock : Z) (now : Z) (set : bool)
    (em : election_message) (n : election_node) : election_node * list Z :=
  let '(rec, win) := ctdb_election_win now (en_nodemap n) (en_rec n) em in
  if win then
    (mk_en rec (en_nodemap n) (en_recovery_master n) true true (en_recovery_lock_fd n), [])
  else
    let release := negb (verify_recovery_lock =? 0) && negb (em_pnn em =? rd_pnn rec)
                   && en_recovery_lock_fd n in
    (mk_en rec (en_nodemap n) (if set then em_pnn em else en_recovery_master n) false true
       (if release then false else en_recovery_lock_fd n),
     if release then unban_all_nodes (en_nodemap n) else []).

(** [frozen] is the success of [set_recovery_mode]. *)
Definition force_election (now : Z) (frozen set : bool) (n : election_node)
    : election_node * option election_message :=
  if negb frozen then (n, None)
  else
    send_election_request now set (rd_pnn (en_rec n))
      (mk_en (en_rec n) (en_nodemap n) (en_recovery_master n) (en_send_election_te n) true
         (en_recovery_lock_fd n)).

(** ** The checks of the main loop *)

Inductive monitor_result :=
  MONITOR_OK | MONITOR_RECOVERY_NEEDED | MONITOR_ELECTION_NEEDED | MONITOR_FAILED.
#[global] Instance monitor_result_eq : EqDecision monitor_result.
Proof. solve_decision. Defined.

(** [None] is a control that is not [CTDB_CONTROL_DONE]. *)
Definition verify_recmode_normal_callback (answer : option Z) (status : monitor_result)
    : monitor_result :=
  match answer with
  | None => if decide (status = MONITOR_OK) then MONITOR_FAILED else status
  | Some recmode =>
      if negb (recmode =? CTDB_RECOVERY_NORMAL) then MONITOR_RECOVERY_NEEDED else status
  end.

Definition verify_recmaster_callback (tun : tunables) (now pnn : Z) (answer : Z * option Z)
    (st : option (ctdb_recoverd * monitor_result)) : option (ctdb_recoverd * monitor_result) :=
  '(rec, status) ← st;
  match answer.2 with
  | None => Some (rec, if decide (status = MONITOR_OK) then MONITOR_FAILED else status)
  | Some recmaster =>
      if negb (recmaster =? pnn) then
        rec ← ctdb_set_culprit_count tun now answer.1 1 rec;
        Some (rec, MONITOR_ELECTION_NEEDED)
      else Some (rec, status)
  end.

(** The controls go to the active nodes in the order of the map; [send] says
    whether a control can be sent, [arrive] is the order of the answers and
    [ask] what a node answers. *)
Definition verify_recmode (send : Z → bool) (arrive : list Z → list Z) (ask : Z → option Z)
    (nodemap : list ctdb_node_and_flags) : monitor_result :=
  let pnns := nf_pnn <$> filter (λ n, (nf_flags n &? NODE_FLAGS_INACTIVE) = false) nodemap in
  if forallb send pnns
  then foldl (λ st pnn, verify_recmode_normal_callback (ask pnn) st) MONITOR_OK (arrive pnns)
  else MONITOR_FAILED.

Definition verify_recmaster (tun : tunables) (now : Z) (send : Z → bool)
    (arrive : list Z → list Z) (ask : Z → option Z) (nodemap : list ctdb_node_and_flags)
    (pnn : Z) (rec : ctdb_recoverd) : option (ctdb_recoverd * monitor_result) :=
  let pnns := nf_pnn <$> filter (λ n, (nf_flags n &? NODE_FLAGS_INACTIVE) = false) nodemap in
  if forallb send pnns
  then foldl (λ st n, verify_recmaster_callback tun now pnn (n, ask n) st)
         (Some (rec, MONITOR_OK)) (arrive pnns)
  else Some (rec, MONITOR_FAILED).

(** ** The order of the claims *)

Lemma s32_small z : - 2 ^ 31 <= z < 2 ^ 31 → s32 z = z.
Proof.
  intros Hz. destruct (Z.lt_ge_cases z 0) as [Hn|Hn]; [|apply s32_id; lia].
  unfold s32. assert (u32 z = z + 2 ^ 32) as ->.
  { unfold u32. rewrite <- (Z_mod_plus_full z 1), Z.mul_1_l. apply Z.mod_small. lia. }
  rewrite (proj2 (Z.ltb_ge _ _)) by lia. lia.
Qed.

(** A recovery daemon and the node map it reads. *)
Definition voter : Type := ctdb_recoverd * list ctdb_node_and_flags.

(** Pnns and node maps are of a sane size, and a node is connected to itself. *)
Definition voter_ok (x : voter) : Prop :=
  0 <= rd_pnn x.1 < 2 ^ 31 ∧ Z.of_nat (length x.2) < 2 ^ 31
  ∧ Exists (λ n, (nf_flags n &? NODE_FLAGS_DISCONNECTED) = false) x.2.

#[local] Arguments has_flag : simpl never.

(** What a node says of itself at some time, and whether a node decides that it
    beats such a claim. *)
Definition claim (now : Z) (x : voter) : election_message := (ctdb_election_data now (Some x.2) x.1).2.
Definition wins (now now' : Z) (x y : voter) : bool :=
  (ctdb_election_win now (Some x.2) x.1 (claim now' y)).2.

(** A node that may become recovery master: it has the capability and is
    neither banned nor stopped. *)
Definition eligible (x : voter) : Prop :=
  (rd_capabilities x.1 &? CTDB_CAP_RECMASTER) = true
  ∧ (em_node_flags (claim 0 x) &? NODE_FLAGS_BANNED) = false
  ∧ (em_node_flags (claim 0 x) &? NODE_FLAGS_STOPPED) = false.

#[global] Instance eligible_dec x : Decision (eligible x).
Proof. unfold eligible. apply _. Defined.

(** The order of the eligible: more connections, longer running, higher pnn. *)
Definition beats (a b : election_message) : Prop :=
  em_num_connected b < em_num_connected a
  ∨ em_num_connected a = em_num_connected b
    ∧ (em_priority_time a < em_priority_time b
       ∨ em_priority_time a = em_priority_time b ∧ em_pnn b < em_pnn a).

#[global] Instance beats_dec a b : Decision (beats a b).
Proof. unfold beats. apply _. Defined.

(** The nodes that are not eligible are below all others. *)
Definition above (x y : voter) : Prop :=
  eligible x ∧ (eligible y → beats (claim 0 x) (claim 0 y)).

#[global] Instance above_dec x y : Decision (above x y).
Proof. unfold above. apply _. Defined.

Lemma claim_eligible now x : eligible x → claim now x = claim 0 x.
Proof.
  intros (Hc & _). unfold claim, ctdb_election_data. case_goal; [|done].
  apply negb_true_iff in Heqb. cbn [rd_capabilities set_rd_node_flags] in Heqb. congruence.
Qed.

Lemma claim_pnn now x : em_pnn (claim now x) = rd_pnn x.1.
Proof. unfold claim, ctdb_election_data. case_goal; done. Qed.

Lemma claim_flags now now' x : em_node_flags (claim now x) = em_node_flags (claim now' x).
Proof. unfold claim, ctdb_election_data. case_goal; done. Qed.

Lemma claim_connected now x : 0 <= em_num_connected (claim now x) <= Z.of_nat (length x.2).
Proof.
  unfold claim, ctdb_election_data. case_goal; simpl; [lia|]. split; [lia|].
  apply inj_le. apply length_filter.
Qed.

Lemma wins_unfold now now' x y :
  wins now now' x y =
    (let myem := claim now x in let em := claim now' y in
     if negb (rd_capabilities x.1 &? CTDB_CAP_RECMASTER) then false
     else if em_node_flags myem &? NODE_FLAGS_BANNED then false
     else if em_node_flags myem &? NODE_FLAGS_STOPPED then false
     else if em_node_flags em &? NODE_FLAGS_BANNED then true
     else if em_node_flags em &? NODE_FLAGS_STOPPED then true
     else
       let cmp := s32 (s32 (em_num_connected myem) - s32 (em_num_connected em)) in
       let cmp := if cmp =? 0 then timeval_compare (em_priority_time em) (em_priority_time myem)
                  else cmp in
       let cmp := if cmp =? 0 then s32 (s32 (em_pnn myem) - s32 (em_pnn em)) else cmp in
       0 <? cmp).
Proof.
  unfold wins, ctdb_election_win. generalize (claim now' y). intros em.
  unfold claim, ctdb_election_data. cbn [rd_capabilities set_rd_node_flags].
  destruct (rd_capabilities x.1 &? CTDB_CAP_RECMASTER) eqn:Hc; cbn; by rewrite ?Hc.
Qed.

Lemma wins_eligible now now' x y : wins now now' x y = true → eligible x.
Proof.
  rewrite wins_unfold. cbv zeta. rewrite (claim_flags now 0 x).
  destruct (rd_capabilities x.1 &? CTDB_CAP_RECMASTER) eqn:Hc; [|done]. cbn [negb].
  case_goal; [done|]. case_goal; [done|]. done.
Qed.

Lemma beats_compare now now' x y :
  voter_ok x → voter_ok y →
  (let a := claim now x in let b := claim now' y in
   let cmp := s32 (s32 (em_num_connected a) - s32 (em_num_connected b)) in
   let cmp := if cmp =? 0 then timeval_compare (em_priority_time b) (em_priority_time a) else cmp in
   let cmp := if cmp =? 0 then s32 (s32 (em_pnn a) - s32 (em_pnn b)) else cmp in
   (0 <? cmp) = true) ↔ beats (claim now x) (claim now' y).
Proof.
  intros (Hpx & Hlx & _) (Hpy & Hly & _).
  pose proof (claim_connected now x). pose proof (claim_connected now' y).
  rewrite <- (claim_pnn now) in Hpx. rewrite <- (claim_pnn now') in Hpy. cbv zeta.
  rewrite (s32_id (em_num_connected (claim now x))), (s32_id (em_num_connected (claim now' y))),
    (s32_id (em_pnn (claim now x))), (s32_id (em_pnn (claim now' y))), !s32_small by lia.
  unfold beats, timeval_compare.
  destruct (claim now x) as [nx tx px fx], (claim now' y) as [ny ty py fy].
  cbn [em_num_connected em_priority_time em_pnn] in *.
  destruct (Z.eqb_spec (nx - ny) 0); [|rewrite (proj2 (Z.eqb_neq _ _)) by done; rewrite Z.ltb_lt; lia].
  destruct (Z.ltb_spec tx ty); [cbn; lia|]. destruct (Z.ltb_spec ty tx); [cbn; lia|].
  cbn [Z.eqb]. rewrite Z.ltb_lt. lia.
Qed.

Lemma eligible_connected now x : eligible x → voter_ok x → 0 < em_num_connected (claim now x).
Proof.
  intros He (_ & _ & Hx). rewrite claim_eligible by done. destruct He as (Hc & _).
  unfold claim, ctdb_election_data. case_goal;
    [apply negb_true_iff in Heqb; cbn [rd_capabilities set_rd_node_flags] in Heqb; congruence|].
  simpl. apply Exists_exists in Hx as (n & Hin & Hn).
  destruct (filter _ x.2) as [|m l] eqn:E; [|simpl; lia].
  assert (n ∈ filter (λ n, (nf_flags n &? NODE_FLAGS_DISCONNECTED) = false) x.2) as Hf
    by by apply list_elem_of_filter. rewrite E in Hf. by apply elem_of_nil in Hf.
Qed.

(** The code compares by this order, whenever the claims were made. *)
Lemma wins_above now now' x y :
  voter_ok x → voter_ok y → wins now now' x y = bool_decide (above x y).
Proof.
  intros Hx Hy. symmetry. destruct (decide (eligible x)) as [Hex|Hex]; cycle 1.
  { rewrite bool_decide_eq_false_2 by (by intros []). destruct (wins now now' x y) eqn:E; [|done].
    by apply wins_eligible in E. }
  enough (wins now now' x y = true ↔ (eligible y → beats (claim now x) (claim now' y))) as Hw.
  { apply Bool.eq_iff_eq_true. rewrite bool_decide_eq_true, Hw. unfold above. split; [intros [_ H] Hy'|intros H; split; [done|intros Hy']];
      specialize (H Hy'); by rewrite ?(claim_eligible now), ?(claim_eligible now') in *. }
  rewrite wins_unfold. cbv zeta. pose proof (beats_compare now now' x y Hx Hy) as Hb.
  cbv zeta in Hb. pose proof (eligible_connected now x Hex Hx) as Hcx.
  destruct Hex as (Hc & Hbx & Hsx). rewrite Hc, (claim_flags now 0 x), Hbx, Hsx. cbn [negb].
  destruct (em_node_flags (claim now' y) &? NODE_FLAGS_BANNED) eqn:E1.
  { split; [|done]. intros _ (_ & E & _). rewrite (claim_flags 0 now' y) in E. congruence. }
  destruct (em_node_flags (claim now' y) &? NODE_FLAGS_STOPPED) eqn:E2.
  { split; [|done]. intros _ (_ & _ & E). rewrite (claim_flags 0 now' y) in E. congruence. }
  rewrite Hb. split; [done|]. intros Hcl.
  destruct (rd_capabilities y.1 &? CTDB_CAP_RECMASTER) eqn:Ey.
  - apply Hcl. unfold eligible. by rewrite Ey, !(claim_flags 0 now' y).
  - left. assert (em_num_connected (claim now' y) = 0) as ->; [|done].
    unfold claim, ctdb_election_data. case_goal; [done|].
    apply negb_false_iff in Heqb. cbn [rd_capabilities set_rd_node_flags] in Heqb. congruence.
Qed.

Lemma above_irrefl x : ¬ above x x.
Proof. intros [He Hb]. specialize (Hb He). unfold beats in Hb. lia. Qed.

Lemma above_trans x y z : above x y → above y z → above x z.
Proof.
  intros [Hx Hxy] [Hy Hyz]. split; [done|]. intros Hz. specialize (Hxy Hy). specialize (Hyz Hz).
  unfold beats in *. lia.
Qed.

Lemma above_total x y : eligible x → rd_pnn x.1 ≠ rd_pnn y.1 → above x y ∨ above y x.
Proof.
  intros Hx Hp. destruct (decide (eligible y)) as [Hy|Hy]; [|by left].
  rewrite <- (claim_pnn 0 x), <- (claim_pnn 0 y) in Hp. unfold above, beats.
  destruct (Z.lt_trichotomy (em_num_connected (claim 0 x)) (em_num_connected (claim 0 y))) as [|[|]];
    [right; split; [done|lia]| |left; split; [done|lia]].
  destruct (Z.lt_trichotomy (em_priority_time (claim 0 x)) (em_priority_time (claim 0 y))) as [|[|]];
    [left; split; [done|lia]| |right; split; [done|lia]].
  destruct (Z.lt_ge_cases (em_pnn (claim 0 x)) (em_pnn (claim 0 y)));
    [right|left]; (split; [done|lia]).
Qed.

(** ** Runs of the protocol *)

(** The destinations of a broadcast to all nodes. *)
Definition broadcast_pnns (nodemap : list ctdb_node_and_flags) : list Z :=
  nf_pnn <$> filter (λ n, (nf_flags n &? NODE_FLAGS_DELETED) = false) nodemap.

(** The connected nodes and the messages on their way. *)
Record election_world := mk_ew {
  ew_nodes : gmap Z election_node;
  ew_net : list (Z * election_message);
}.

Definition broadcast (n : election_node) (em : option election_message) : list (Z * election_message) :=
  match em with
  | None => []
  | Some em => (λ d, (d, em)) <$> broadcast_pnns (default [] (en_nodemap n))
  end.

(** Messages arrive in any order, and one for a node that is not there is lost;
    a timer runs for half a second, so that messages sent before have arrived
    when it fires.  The flags of the nodes do not change meanwhile: nobody is
    unbanned. *)
Inductive election_step (verify : Z) : election_world → election_world → Prop :=
  | es_deliver nodes l1 l2 d em now n n' :
      nodes !! d = Some n → election_handler verify now true em n = (n', []) →
      election_step verify (mk_ew nodes (l1 ++ (d, em) :: l2)) (mk_ew (<[d := n']> nodes) (l1 ++ l2))
  | es_lost nodes l1 l2 d em :
      nodes !! d = None →
      election_step verify (mk_ew nodes (l1 ++ (d, em) :: l2)) (mk_ew nodes (l1 ++ l2))
  | es_timer nodes d now n n' em :
      nodes !! d = Some n → en_send_election_te n = true →
      election_send_request now true n = (n', em) →
      election_step verify (mk_ew nodes []) (mk_ew (<[d := n']> nodes) (broadcast n' em)).

(** A node forces an election while no other is running. *)
Definition start_election (now : Z) (d : Z) (n : election_node) (nodes : gmap Z election_node)
    : election_world :=
  let '(n', em) := force_election now true true n in
  mk_ew (<[d := n']> nodes) (broadcast n' em).

(** A node as a voter: its flags are those of its map. *)
Definition vt (n : election_node) : voter :=
  (set_rd_node_flags (en_rec n) 0, default [] (en_nodemap n)).

Definition quiet (verify : Z) (n : election_node) : Prop :=
  verify = 0 ∨ en_recovery_lock_fd n = false ∨ unban_all_nodes (en_nodemap n) = [].

Lemma claim_vt now n m :
  en_nodemap n = Some m → (ctdb_election_data now (Some m) (en_rec n)).2 = claim now (vt n).
Proof. intros E. unfold claim, vt. rewrite E. simpl. unfold ctdb_election_data. simpl. by repeat case_goal. Qed.

Lemma data_rec now n m :
  set_rd_node_flags (ctdb_election_data now (Some m) (en_rec n)).1 0 = set_rd_node_flags (en_rec n) 0.
Proof. unfold ctdb_election_data. simpl. by case_goal. Qed.

Lemma win_vt now now' n y m :
  en_nodemap n = Some m →
  (ctdb_election_win now (Some m) (en_rec n) (claim now' y)).2 = wins now now' (vt n) y.
Proof.
  intros E. unfold wins, vt. rewrite E. unfold ctdb_election_win. cbn [default from_option snd fst id].
  unfold ctdb_election_data. cbn [rd_capabilities set_rd_node_flags rd_pnn rd_priority_time rd_node_flags].
  by case_goal.
Qed.

Lemma vt_mk n rec a b c d :
  set_rd_node_flags rec 0 = set_rd_node_flags (en_rec n) 0 →
  vt (mk_en rec (en_nodemap n) a b c d) = vt n.
Proof. intros E. unfold vt. simpl. by rewrite E. Qed.

Lemma filter_length_lt {A} (P Q : A → Prop) `{∀ x, Decision (P x), ∀ x, Decision (Q x)} (l : list A) x :
  x ∈ l → (∀ y, P y → Q y) → Q x → ¬ P x → (length (filter P l) < length (filter Q l))%nat.
Proof.
  intros Hx Hpq HQ HP. apply list_elem_of_split in Hx as (l1 & l2 & ->).
  assert (∀ l, (length (filter P l) <= length (filter Q l))%nat) as Hle.
  { intros l. apply sublist_length. induction l as [|y l IHl]; [done|]. rewrite !filter_cons.
    destruct (decide (P y)), (decide (Q y)); naive_solver eauto using sublist_skip, sublist_cons. }
  rewrite !filter_app, !filter_cons, !length_app. rewrite decide_False, decide_True by done. simpl.
  pose proof (Hle l1). pose proof (Hle l2). lia.
Qed.

Section protocol.
Variable verify : Z.

(** What the protocol needs of a node. *)
Definition node_ready (n : election_node) : Prop :=
  is_Some (en_nodemap n) ∧ voter_ok (vt n) ∧ quiet verify n.

(** A node that has seen the message of [y]: it waits to answer if it is above
    [y] and follows [y] otherwise. *)
Definition settled (y : voter) (n : election_node) : Prop :=
  en_send_election_te n = bool_decide (above (vt n) y)
  ∧ (¬ above (vt n) y → en_recovery_master n = rd_pnn y.1).

Lemma handler_spec now now' y n :
  node_ready n → voter_ok y →
  ∃ n', election_handler verify now true (claim now' y) n = (n', [])
  ∧ vt n' = vt n ∧ node_ready n' ∧ settled y n'.
Proof.
  intros ([m Hm] & Hok & Hq) Hy. unfold election_handler.
  destruct (ctdb_election_win _ _ _ _) as [rec win] eqn:E. rewrite Hm in E.
  assert (win = bool_decide (above (vt n) y)) as ->.
  { rewrite <- (wins_above now now'), <- (win_vt now now' n y m) by done. by rewrite E. }
  assert (set_rd_node_flags rec 0 = set_rd_node_flags (en_rec n) 0) as Hr.
  { rewrite <- (data_rec now n m). unfold ctdb_election_win in E.
    destruct (ctdb_election_data _ _ _). by injection E as <- _. }
  rewrite claim_pnn. case_bool_decide as Ha.
  - eexists. split; [reflexivity|].
    unfold node_ready, settled, quiet. rewrite !(vt_mk n) by done. simpl. rewrite bool_decide_eq_true_2 by done.
    by split_and!.
  - set (release := _ && _). eexists. split.
    { f_equal. unfold release. destruct Hq as [->|[->| ->]]; [done|by rewrite andb_false_r|by case_goal]. }
    unfold node_ready, settled, quiet. rewrite !(vt_mk n) by done. simpl. rewrite bool_decide_eq_false_2 by done.
    split_and!; try done. destruct Hq as [?|[->|?]]; auto. right. left. by destruct release.
Qed.

Lemma send_spec now n :
  node_ready n →
  ∃ n', send_election_request now true (rd_pnn (en_rec n)) n = (n', Some (claim now (vt n)))
  ∧ vt n' = vt n ∧ node_ready n'.
Proof.
  intros ([m Hm] & Hok & Hq). unfold send_election_request. rewrite Hm.
  pose proof (claim_vt now n m Hm) as Hc. pose proof (data_rec now n m) as Hr.
  destruct (ctdb_election_data _ _ _) as [rec em]. simpl in Hc, Hr. subst em.
  eexists. split; [reflexivity|].
  rewrite <- Hm. unfold node_ready, quiet. rewrite (vt_mk n) by done. simpl.
  split; [done|]. by split_and!.
Qed.
(** While the message of [y] is on its way, the others have either still to get
    it or are settled. *)
Record round (vts : gmap Z voter) (y : voter) (w : election_world) : Prop := {
  rn_vts : vt <$> ew_nodes w = vts;
  rn_ready : map_Forall (λ _ n, node_ready n) (ew_nodes w);
  rn_sender : vts !! rd_pnn y.1 = Some y;
  rn_msgs : Forall (λ m, ∃ now, m.2 = claim now y) (ew_net w);
  rn_nodes : ∀ k n, ew_nodes w !! k = Some n → k ∈ (ew_net w).*1 ∨ settled y n;
}.

Lemma round_ok vts y w : round vts y w → voter_ok y.
Proof.
  intros []. rewrite <- rn_vts0 in rn_sender0.
  apply lookup_fmap_Some in rn_sender0 as (n & <- & E). by destruct (rn_ready0 _ _ E) as (_ & ? & _).
Qed.

Section run.
Variable vts : gmap Z voter.
Hypothesis vts_pnn : map_Forall (λ k v, rd_pnn v.1 = k) vts.
Hypothesis vts_all : ∀ k v k', vts !! k = Some v → is_Some (vts !! k') →
  k' ∈ broadcast_pnns v.2.

(** A node that sends opens a new round. *)
Lemma round_start nodes d n n' now :
  vt <$> nodes = vts → map_Forall (λ _ n, node_ready n) nodes →
  nodes !! d = Some n → vt n' = vt n → node_ready n' →
  round vts (vt n) (mk_ew (<[d := n']> nodes) (broadcast n' (Some (claim now (vt n))))).
Proof.
  intros Hvts Hr Ed Hvt Hr'.
  assert (vts !! d = Some (vt n)) as Hd by by rewrite <- Hvts, lookup_fmap, Ed.
  split; cbn [ew_nodes ew_net broadcast].
  - rewrite fmap_insert, Hvt, Hvts. by apply insert_id.
  - by apply map_Forall_insert_2.
  - by rewrite (vts_pnn _ _ Hd).
  - apply Forall_forall. intros m (k & -> & _)%list_elem_of_fmap. by exists now.
  - intros k x Hx. left. rewrite <- list_fmap_compose. apply list_elem_of_fmap. exists k. split; [done|].
    change (default [] (en_nodemap n')) with (vt n').2. rewrite Hvt. apply (vts_all d _ k Hd).
    rewrite <- Hvts, lookup_fmap. destruct (decide (k = d)) as [->|Hne]; [by rewrite Ed; eexists|].
    rewrite lookup_insert_ne in Hx by done. rewrite Hx. by eexists.
Qed.

(** A delivery goes on with the round, a timer opens one of a node above. *)
Lemma round_step y w w' :
  round vts y w → election_step verify w w' →
  (round vts y w' ∧ length (ew_net w) = S (length (ew_net w')))
  ∨ ∃ y' k, round vts y' w' ∧ vts !! k = Some y' ∧ above y' y
      ∧ (length (ew_net w') <= length y'.2)%nat.
Proof.
  intros Hrd Hs. pose proof (round_ok _ _ _ Hrd) as Hy. destruct Hrd as [Hvts Hr Hsd Hm Hn].
  destruct Hs as [nodes l1 l2 d em now n n' Ed Eh|nodes l1 l2 d em Ed|nodes d now n n' em Ed Ht Es];
    simpl in *.
  - left. split; [|rewrite !length_app; simpl; lia].
    assert (∃ now', em = claim now' y) as [now' ->].
    { rewrite Forall_app, Forall_cons in Hm. tauto. }
    destruct (handler_spec now now' y n (Hr _ _ Ed) Hy) as (n1 & E & Hvt & Hr1 & Hset).
    rewrite E in Eh. injection Eh as ->. split; simpl.
    + rewrite fmap_insert, Hvt, Hvts. apply insert_id. by rewrite <- Hvts, lookup_fmap, Ed.
    + by apply map_Forall_insert_2.
    + done.
    + rewrite Forall_app, Forall_cons in Hm. apply Forall_app. tauto.
    + intros k x Hx. destruct (decide (k = d)) as [->|Hne].
      * rewrite lookup_insert_eq in Hx. injection Hx as <-. by right.
      * rewrite lookup_insert_ne in Hx by done. destruct (Hn k x Hx) as [Hin|]; [left|by right].
        rewrite fmap_app in Hin |- *. apply elem_of_app in Hin as [|[|]%elem_of_cons]; apply elem_of_app; auto.
        done.
  - left. split; [|rewrite !length_app; simpl; lia]. split; simpl; try done.
    + rewrite Forall_app, Forall_cons in Hm. apply Forall_app. tauto.
    + intros k x Hx. destruct (Hn k x Hx) as [Hin|]; [left|by right].
      rewrite fmap_app in Hin |- *. apply elem_of_app in Hin as [|[->|]%elem_of_cons]; apply elem_of_app; auto.
      simpl in Hx. congruence.
  - right. exists (vt n), d. destruct (send_spec now n (Hr _ _ Ed)) as (n1 & E & Hvt & Hr1).
    unfold election_send_request in Es. rewrite E in Es. injection Es as <- <-.
    destruct (Hn d n Ed) as [[]%elem_of_nil|[Hte _]]. split_and!.
    + by apply round_start.
    + by rewrite <- Hvts, lookup_fmap, Ed.
    + rewrite Ht in Hte. symmetry in Hte. by apply bool_decide_eq_true in Hte.
    + unfold broadcast. rewrite length_fmap. unfold broadcast_pnns. rewrite length_fmap.
      change (default _ _) with (vt n1).2. rewrite Hvt. apply length_filter.
Qed.
(** The voters above a sender get fewer from round to round. *)
Definition rank (y : voter) : nat := length (filter (λ v, above v y) (map_to_list vts).*2).

Lemma rank_lt k y y' : vts !! k = Some y' → above y' y → (rank y' < rank y)%nat.
Proof.
  intros Ek Ha. unfold rank. eapply (filter_length_lt _ _ _ y').
  - apply list_elem_of_fmap. exists (k, y'). split; [done|]. by apply elem_of_map_to_list.
  - intros v Hv. by apply above_trans with y'.
  - done.
  - apply above_irrefl.
Qed.

Variable B : nat.
Hypothesis vts_size : map_Forall (λ _ v, (length v.2 <= B)%nat) vts.

Definition potential (y : voter) (w : election_world) : nat := rank y * S B + length (ew_net w).

Lemma run_bound i y w w' :
  nsteps (election_step verify) i w w' → round vts y w →
  ∃ y', round vts y' w' ∧ (i + potential y' w' <= potential y w)%nat.
Proof.
  revert y w. induction i as [|i IH]; intros y w Hs Hr; inversion Hs as [|? ? w1 ? H1 H2]; subst.
  { exists y. by split. }
  assert (∃ y1, round vts y1 w1 ∧ (potential y1 w1 < potential y w)%nat) as (y1 & Hr1 & Hlt).
  { destruct (round_step y w w1 Hr H1) as [[Hr1 Hl]|(y1 & k & Hr1 & Ek & Ha & Hl)].
    - exists y. split; [done|]. unfold potential. lia.
    - exists y1. split; [done|]. unfold potential. pose proof (rank_lt _ _ _ Ek Ha).
      pose proof (vts_size _ _ Ek) as Hb. simpl in Hb. nia. }
  destruct (IH y1 w1 H2 Hr1) as (y' & Hr' & Hle). exists y'. split; [done|]. lia.
Qed.

(** Nothing more happens when the messages are gone and no timer is set. *)
Lemma round_end y w :
  round vts y w → (∀ w', ¬ election_step verify w w') →
  ew_net w = [] ∧ (∀ k v, vts !! k = Some v → ¬ above v y)
  ∧ ∀ k n, ew_nodes w !! k = Some n → en_recovery_master n = rd_pnn y.1 ∧ en_send_election_te n = false.
Proof.
  intros Hrd Hstuck. pose proof (round_ok _ _ _ Hrd) as Hy. destruct Hrd as [Hvts Hr Hsd Hm Hn].
  destruct w as [nodes net]. simpl in *.
  assert (net = []) as ->.
  { destruct net as [|[d em] net]; [done|]. exfalso. apply Forall_cons in Hm as [[now' E] _].
    simpl in E. subst em. destruct (nodes !! d) as [n|] eqn:Ed.
    - destruct (handler_spec 0 now' y n (Hr _ _ Ed) Hy) as (n' & Eh & _).
      eapply Hstuck, (es_deliver verify nodes [] net d); eauto.
    - eapply Hstuck, (es_lost verify nodes [] net d); eauto. }
  assert (∀ k n, nodes !! k = Some n → ¬ above (vt n) y ∧ settled y n) as Hno.
  { intros k n Ek. destruct (Hn k n Ek) as [[]%elem_of_nil|Hset]. split; [|done]. intros Ha.
    destruct Hset as [Hte _]. rewrite bool_decide_eq_true_2 in Hte by done.
    destruct (election_send_request 0 true n) as [n' em] eqn:E.
    eapply Hstuck, (es_timer verify nodes k); eauto. }
  split_and!; [done| |].
  - intros k v Ek. rewrite <- Hvts in Ek. apply lookup_fmap_Some in Ek as (n & <- & Ek). by eapply Hno.
  - intros k n Ek. destruct (Hno k n Ek) as [Ha [Hte Hm']]. split; [by apply Hm'|].
    rewrite Hte. by apply bool_decide_eq_false.
Qed.
End run.
End protocol.

(** One voter is above all others. *)
Lemma above_max (vts : gmap Z voter) :
  map_Forall (λ k v, rd_pnn v.1 = k) vts → (∃ k v, vts !! k = Some v ∧ eligible v) →
  ∃ k v, vts !! k = Some v ∧ eligible v ∧ ∀ k' v', vts !! k' = Some v' → k' ≠ k → above v v'.
Proof.
  induction vts as [|k x m Hk IH] using map_ind.
  { intros _ (k & v & E & _). by rewrite lookup_empty in E. }
  intros Hp Hel. pose proof (map_Forall_insert_1_1 _ _ _ _ Hp) as Hx. simpl in Hx.
  apply map_Forall_insert_1_2 in Hp; [|done].
  destruct (decide (map_Exists (λ _ v, eligible v) m)) as [(k1 & v1 & E1 & He1)|Hno].
  - destruct IH as (k2 & v2 & E2 & He2 & Hmax); [done|by exists k1, v1|].
    assert (k ≠ k2) as Hne by (intros ->; congruence).
    destruct (above_total v2 x He2) as [Ha|Ha].
    { rewrite (Hp _ _ E2), Hx. done. }
    + exists k2, v2. rewrite lookup_insert_ne by done. split_and!; [done..|]. intros k' v' E' Hk'.
      apply lookup_insert_Some in E' as [[<- <-]|[_ E']]; [done|by apply (Hmax k')].
    + exists k, x. rewrite lookup_insert_eq. split_and!; [done|apply Ha|]. intros k' v' E' Hk'.
      rewrite lookup_insert_ne in E' by done. destruct (decide (k' = k2)) as [->|]; [congruence|].
      eapply above_trans; [exact Ha|by apply (Hmax k')].
  - exists k, x. rewrite lookup_insert_eq. destruct Hel as (k1 & v1 & E1 & He1).
    apply lookup_insert_Some in E1 as [[<- <-]|[_ E1]]; [|destruct Hno; by exists k1, v1].
    split_and!; [done..|]. intros k' v' E' Hk'. rewrite lookup_insert_ne in E' by done.
    split; [done|]. intros He. destruct Hno. by exists k', v'.
Qed.

Lemma rank_le vts y : (rank vts y <= size vts)%nat.
Proof.
  unfold rank. etransitivity; [apply length_filter|]. by rewrite length_fmap, length_map_to_list.
Qed.

Lemma start_round verify (vts : gmap Z voter) :
  map_Forall (λ k v, rd_pnn v.1 = k) vts →
  (∀ k v k', vts !! k = Some v → is_Some (vts !! k') → k' ∈ broadcast_pnns v.2) →
  ∀ nodes d x now, vt <$> nodes = vts → map_Forall (λ _ n, node_ready verify n) nodes →
  nodes !! d = Some x →
  round verify vts (vt x) (start_election now d x nodes)
  ∧ (length (ew_net (start_election now d x nodes)) <= length (vt x).2)%nat.
Proof.
  intros Hp Hall nodes d x now Hvts Hr Hd. unfold start_election, force_election. cbn [negb].
  set (x1 := mk_en _ _ _ _ true _).
  destruct (send_spec verify now x1) as (x' & E & Hvt & Hr').
  { destruct (Hr _ _ Hd) as (? & ? & ?). by split_and!. }
  change (rd_pnn (en_rec x)) with (rd_pnn (en_rec x1)). rewrite E. change (vt x1) with (vt x) in *.
  split; [by apply round_start|]. simpl. rewrite length_fmap. unfold broadcast_pnns.
  rewrite length_fmap. change (default [] (en_nodemap x')) with (vt x').2. rewrite Hvt. apply length_filter.
Qed.

(** ** Convergence *)

(** C6: elections converge.  Take connected nodes, each with a readable node
    map and known to each other, of which at least one is eligible (it has the
    recmaster capability and is neither banned nor stopped).  One node beats
    every other whenever they compare themselves.  When any node forces an
    election, messages arrive in any order but before the half-second timers
    fire, and no flags change, then the election ends after a bounded number of
    steps, and when nothing is left to do every node has that winner as its
    recovery master. *)
Theorem election_converges verify B (nodes : gmap Z election_node) d x now
    (Hpnn : map_Forall (λ k n, rd_pnn (en_rec n) = k) nodes)
    (Hready : map_Forall (λ _ n, node_ready verify n ∧ (length (vt n).2 <= B)%nat) nodes)
    (Hknown : ∀ k n k', nodes !! k = Some n → is_Some (nodes !! k') →
                k' ∈ broadcast_pnns (vt n).2)
    (Hel : map_Exists (λ _ n, eligible (vt n)) nodes)
    (Hd : nodes !! d = Some x) :
  ∃ k w, nodes !! k = Some w
  ∧ (∀ k' n, nodes !! k' = Some n → k' ≠ k →
       ∀ t t', wins t t' (vt w) (vt n) = true ∧ wins t t' (vt n) (vt w) = false)
  ∧ ∀ i w', nsteps (election_step verify) i (start_election now d x nodes) w' →
      (i <= size nodes * S B + B)%nat
      ∧ ((∀ w'', ¬ election_step verify w' w'') →
         dom (ew_nodes w') = dom nodes ∧ ew_net w' = []
         ∧ map_Forall (λ _ n, en_recovery_master n = k ∧ en_send_election_te n = false) (ew_nodes w')).
Proof.
  set (vts := vt <$> nodes).
  assert (map_Forall (λ k v, rd_pnn v.1 = k) vts) as Hp.
  { intros k v (n & <- & En)%lookup_fmap_Some. by apply (Hpnn _ _ En). }
  assert (∀ k v k', vts !! k = Some v → is_Some (vts !! k') → k' ∈ broadcast_pnns v.2) as Hall.
  { intros k v k' (n & <- & En)%lookup_fmap_Some [v' Hv]. eapply Hknown; [done|].
    apply lookup_fmap_Some in Hv as (n' & _ & En'). by exists n'. }
  assert (map_Forall (λ _ v, (length v.2 <= B)%nat) vts) as HB.
  { intros k v (n & <- & En)%lookup_fmap_Some. by apply (Hready _ _ En). }
  destruct (above_max vts Hp) as (k & v & Ev & He & Hmax).
  { destruct Hel as (k & n & En & He). exists k, (vt n). split; [|done]. unfold vts. by rewrite lookup_fmap, En. }
  apply lookup_fmap_Some in Ev as (w & <- & Ew). exists k, w. split; [done|]. split.
  { intros k' n En Hne t t'. destruct (Hready _ _ En) as [(_ & Hn & _) _], (Hready _ _ Ew) as [(_ & Hw & _) _].
    assert (above (vt w) (vt n)) as Ha by (eapply Hmax; [|exact Hne]; unfold vts; by rewrite lookup_fmap, En).
    rewrite !wins_above by done. split; [by apply bool_decide_eq_true|].
    apply bool_decide_eq_false. intros Ha'. eapply above_irrefl, above_trans; eauto. }
  intros i w' Hsteps. destruct (start_round verify vts Hp Hall nodes d x now) as [Hr Hl];
    [done|intros ? ? E; apply (Hready _ _ E)|done|].
  destruct (run_bound verify vts Hp Hall B HB i _ _ _ Hsteps Hr) as (y & Hy & Hle). split.
  - unfold potential in Hle. pose proof (rank_le vts (vt x)) as Hrank. unfold vts in Hrank at 2.
    rewrite map_size_fmap in Hrank. destruct (Hready _ _ Hd) as [_ Hbx].
    assert (rank vts (vt x) * S B <= size nodes * S B)%nat by by apply Nat.mul_le_mono_r. lia.
  - intros Hstuck. destruct (round_end verify vts y w' Hy Hstuck) as (Hnet & Hno & Hm).
    assert (rd_pnn y.1 = k) as Hk.
    { destruct (decide (rd_pnn y.1 = k)) as [|Hne]; [done|]. exfalso.
      apply (Hno k (vt w)); [unfold vts; by rewrite lookup_fmap, Ew|].
      eapply Hmax; [apply (rn_sender _ _ _ _ Hy)|done]. }
    split_and!; [|done|intros k' n En; rewrite <- Hk; by apply (Hm k')].
    rewrite <- (dom_fmap_L vt), (rn_vts _ _ _ _ Hy). apply dom_fmap_L.
Qed.

(** ** The checks of the main loop *)

(** What a list of answers amounts to, whatever its order: a node that differs
    counts more than one that does not answer. *)
Definition differs (good : Z) (a : option Z) : bool :=
  match a with Some v => negb (v =? good) | None => false end.

Definition verdict (good : Z) (bad st : monitor_result) (answers : list (option Z)) : monitor_result :=
  if existsb (differs good) answers then bad
  else if decide (st = MONITOR_OK ∧ None ∈ answers) then MONITOR_FAILED else st.

Lemma verdict_cons good bad st a answers :
  bad ≠ MONITOR_OK →
  verdict good bad st (a :: answers)
  = verdict good bad (if differs good a then bad
                      else if decide (a = None ∧ st = MONITOR_OK) then MONITOR_FAILED else st) answers.
Proof.
  intros Hbad. unfold verdict. cbn [existsb]. destruct (differs good a) eqn:Ed; cbn [orb].
  - case_goal; [done|]. by rewrite decide_False by (by intros []).
  - case_goal; [done|]. destruct a as [v|].
    + rewrite (decide_False (P := Some v = None ∧ _)) by (by intros []).
      destruct (decide (st = MONITOR_OK ∧ None ∈ answers)) as [[-> ?]|Hn].
      * rewrite decide_True; [done|]. split; [done|by right].
      * rewrite decide_False; [done|]. intros [-> [|]%elem_of_cons]; [done|]. by destruct Hn.
    + destruct (decide (st = MONITOR_OK)) as [->|Hst].
      * rewrite (decide_True (P := _ ∧ None ∈ _)) by (split; [done|apply list_elem_of_here]).
        rewrite (decide_True (P := None = None ∧ _)) by done. by rewrite decide_False by (by intros []).
      * rewrite (decide_False (P := None = None ∧ _)) by (by intros []).
        by rewrite !decide_False by (by intros []).
Qed.

Lemma verdict_perm good bad st l l' : l ≡ₚ l' → verdict good bad st l = verdict good bad st l'.
Proof.
  intros Hp. unfold verdict. assert (existsb (differs good) l = existsb (differs good) l') as ->.
  { apply Bool.eq_iff_eq_true. rewrite !existsb_exists. setoid_rewrite <- list_elem_of_In.
    by setoid_rewrite Hp. }
  by rewrite (decide_ext _ (st = MONITOR_OK ∧ None ∈ l')) by by rewrite Hp.
Qed.

Lemma recmode_fold (ask : Z → option Z) pnns st :
  foldl (λ st pnn, verify_recmode_normal_callback (ask pnn) st) st pnns
  = verdict CTDB_RECOVERY_NORMAL MONITOR_RECOVERY_NEEDED st (ask <$> pnns).
Proof.
  revert st. induction pnns as [|n pnns IH]; intros st.
  { unfold verdict. simpl. rewrite decide_False; [done|]. by intros [_ []%elem_of_nil]. }
  cbn [foldl]. rewrite IH, fmap_cons, verdict_cons by done. f_equal.
  unfold verify_recmode_normal_callback. destruct (ask n) as [v|]; simpl; [by case_goal|].
  destruct (decide (st = MONITOR_OK)); [by rewrite decide_True|by rewrite decide_False by (by intros [])].
Qed.

Lemma set_culprit_in_range tun now n c rec :
  0 <= n < Z.of_nat (length (rd_ban rec)) →
  ∃ rec', ctdb_set_culprit_count tun now n c rec = Some rec' ∧ length (rd_ban rec') = length (rd_ban rec).
Proof.
  intros Hn. unfold ctdb_set_culprit_count. rewrite (proj2 (Z.ltb_ge _ _)) by lia.
  case_goal; [by exists rec|]. destruct (lookup_lt_is_Some_2 (rd_ban rec) (Z.to_nat n)) as [b Hb]; [lia|].
  rewrite Hb. simpl. eexists. split; [done|]. simpl. by rewrite length_insert.
Qed.

Lemma recmaster_fold tun now pnn (ask : Z → option Z) pnns rec st :
  Forall (λ n, 0 <= n < Z.of_nat (length (rd_ban rec))) pnns →
  ∃ rec', foldl (λ st n, verify_recmaster_callback tun now pnn (n, ask n) st) (Some (rec, st)) pnns
          = Some (rec', verdict pnn MONITOR_ELECTION_NEEDED st (ask <$> pnns)).
Proof.
  revert rec st. induction pnns as [|n pnns IH]; intros rec st Hp.
  { exists rec. unfold verdict. simpl. rewrite decide_False; [done|]. by intros [_ []%elem_of_nil]. }
  apply Forall_cons in Hp as [Hn Hp]. cbn [foldl]. rewrite fmap_cons, verdict_cons by done.
  unfold verify_recmaster_callback at 2. cbn [mbind option_bind fst snd].
  destruct (ask n) as [v|]; cbn [differs].
  - destruct (v =? pnn); cbn [negb].
    + rewrite (decide_False (P := Some v = None ∧ _)) by (by intros []). by apply IH.
    + destruct (set_culprit_in_range tun now n 1 rec Hn) as (rec1 & -> & El). simpl.
      apply IH. by rewrite El.
  - destruct (decide (st = MONITOR_OK)); [rewrite decide_True by done|rewrite decide_False by (by intros [])];
      by apply IH.
Qed.

Lemma verdict_spec good bad (P : Z → Prop) (ask : Z → option Z) pnns :
  bad ≠ MONITOR_OK → bad ≠ MONITOR_FAILED → (∀ n, n ∈ pnns ↔ P n) →
  let st := verdict good bad MONITOR_OK (ask <$> pnns) in
  (st = MONITOR_OK ↔ ∀ n, P n → ask n = Some good)
  ∧ (st = bad ↔ ∃ n v, P n ∧ ask n = Some v ∧ v ≠ good)
  ∧ (st = MONITOR_OK ∨ st = MONITOR_FAILED ∨ st = bad).
Proof.
  intros Hb1 Hb2 HP st.
  assert (existsb (differs good) (ask <$> pnns) = true ↔ ∃ n v, P n ∧ ask n = Some v ∧ v ≠ good) as Hd.
  { rewrite existsb_exists. setoid_rewrite <- list_elem_of_In. split.
    - intros (a & (n & -> & Hn)%list_elem_of_fmap & Ha). exists n. destruct (ask n) as [v|]; [|done].
      exists v. simpl in Ha. apply negb_true_iff, Z.eqb_neq in Ha. by rewrite <- HP.
    - intros (n & v & Hn & E & Hv). exists (Some v). split; [|by apply negb_true_iff, Z.eqb_neq].
      apply list_elem_of_fmap. exists n. by rewrite HP. }
  assert (None ∈ ask <$> pnns ↔ ∃ n, P n ∧ ask n = None) as Hnone.
  { rewrite list_elem_of_fmap. setoid_rewrite HP. split; intros (n & ? & ?); by exists n. }
  unfold st, verdict. destruct (existsb _ _).
  - destruct Hd as [Hd _]. destruct (Hd eq_refl) as (n & v & Hn & E & Hv). 
    split_and!; [|split; [intros _; by exists n, v|done]|by auto].
    split; [done|]. intros Hall. rewrite (Hall n Hn) in E. congruence.
  - assert (¬ ∃ n v, P n ∧ ask n = Some v ∧ v ≠ good) as Hno by (intros Hex; by apply Hd in Hex).
    case_decide as Hc.
    + destruct Hc as [_ (n & Hn & E)%Hnone]. split_and!; [|split; [by intros <-|done]|by auto].
      split; [done|]. intros Hall. by rewrite (Hall n Hn) in E.
    + split_and!; [|split; [by intros <-|done]|by auto]. split; [|done]. intros _ n Hn.
      destruct (ask n) as [v|] eqn:E; [|destruct Hc; split; [done|]; apply Hnone; by exists n].
      destruct (decide (v = good)) as [->|]; [done|]. destruct Hno. by exists n, v.
Qed.

(** the recovery master finds out whether it is accepted: when its controls
    can be sent, whatever the order of the answers, [verify_recmaster] says OK
    exactly when every active node answers with its pnn, and calls for an
    election exactly when one answers with another, even if others do not
    answer; in the same way [verify_recmode] calls for a recovery exactly when
    an active node is not in normal mode. *)
Theorem main_loop_checks tun now send arrive (ask : Z → option Z) nodemap pnn rec
    (Harrive : ∀ l, arrive l ≡ₚ l) (Hsend : ∀ n, send n = true)
    (Hrange : Forall (λ n, 0 <= nf_pnn n < Z.of_nat (length (rd_ban rec))) nodemap) :
  let active n := ∃ x, x ∈ nodemap ∧ nf_pnn x = n ∧ (nf_flags x &? NODE_FLAGS_INACTIVE) = false in
  (∃ rec' st, verify_recmaster tun now send arrive ask nodemap pnn rec = Some (rec', st)
   ∧ (st = MONITOR_OK ↔ ∀ n, active n → ask n = Some pnn)
   ∧ (st = MONITOR_ELECTION_NEEDED ↔ ∃ n v, active n ∧ ask n = Some v ∧ v ≠ pnn)
   ∧ st ≠ MONITOR_RECOVERY_NEEDED)
  ∧ let st := verify_recmode send arrive ask nodemap in
    (st = MONITOR_OK ↔ ∀ n, active n → ask n = Some CTDB_RECOVERY_NORMAL)
    ∧ (st = MONITOR_RECOVERY_NEEDED ↔ ∃ n v, active n ∧ ask n = Some v ∧ v ≠ CTDB_RECOVERY_NORMAL)
    ∧ st ≠ MONITOR_ELECTION_NEEDED.
Proof.
  intros active.
  set (pnns := nf_pnn <$> filter (λ n, (nf_flags n &? NODE_FLAGS_INACTIVE) = false) nodemap).
  assert (∀ n, n ∈ pnns ↔ active n) as Hact.
  { intros n. unfold pnns. rewrite list_elem_of_fmap. setoid_rewrite list_elem_of_filter. split.
    - intros (x & -> & ? & ?). by exists x.
    - intros (x & ? & <- & ?). by exists x. }
  assert (forallb send pnns = true) as Hf by by apply forallb_forall.
  split; [unfold verify_recmaster|unfold verify_recmode]; fold pnns; rewrite Hf.
  - destruct (recmaster_fold tun now pnn ask (arrive pnns) rec MONITOR_OK) as (rec' & ->).
    { rewrite Harrive. apply Forall_forall. intros n (x & Hx & <- & _)%Hact.
      rewrite Forall_forall in Hrange. by apply Hrange. }
    rewrite (verdict_perm _ _ _ _ (ask <$> pnns)) by by rewrite Harrive. eexists _, _. split; [done|].
    destruct (verdict_spec pnn MONITOR_ELECTION_NEEDED active ask pnns) as (H1 & H2 & H3); [done..|].
    split_and!; [done|done|]. by destruct H3 as [->|[->| ->]].
  - cbv zeta. rewrite recmode_fold, (verdict_perm _ _ _ _ (ask <$> pnns)) by by rewrite Harrive.
    destruct (verdict_spec CTDB_RECOVERY_NORMAL MONITOR_RECOVERY_NEEDED active ask pnns)
      as (H1 & H2 & H3); [done..|]. split_and!; [done|done|]. by destruct H3 as [->|[->| ->]].
Qed.

(** ** Examples *)

(** Three nodes with the same map; node 2 has run longest, node 1 can not become
    recovery master. *)
Definition example_map : list ctdb_node_and_flags := [mk_naf 0 0; mk_naf 1 0; mk_naf 2 0].
Definition example_voter (pnn caps time : Z) : election_node :=
  mk_en (mk_recd pnn 0 0 caps time 0 [None; None; None]) (Some example_map) (2 ^ 32 - 1) false false false.
Definition example_voters : gmap Z election_node :=
  {[ 0 := example_voter 0 3 50; 1 := example_voter 1 2 10; 2 := example_voter 2 3 20 ]}.

Lemma example_voters_lookup k n :
  example_voters !! k = Some n →
  k = 0 ∧ n = example_voter 0 3 50 ∨ k = 1 ∧ n = example_voter 1 2 10 ∨ k = 2 ∧ n = example_voter 2 3 20.
Proof.
  unfold example_voters. rewrite !lookup_insert_Some, lookup_singleton_Some.
  intros [[<- <-]|[_ [[<- <-]|[_ [<- <-]]]]]; auto.
Qed.

Lemma example_voter_ready pnn caps time :
  0 <= pnn < 3 → node_ready 1 (example_voter pnn caps time) ∧ (length (vt (example_voter pnn caps time)).2 <= 3)%nat.
Proof.
  intros Hp. split; [|simpl; lia]. split_and!; [by eexists| |by right; left].
  split_and!; simpl; [lia|lia|lia|by left].
Qed.

Lemma election_converges_witness :
  ∃ k w, example_voters !! k = Some w
  ∧ (∀ k' n, example_voters !! k' = Some n → k' ≠ k →
       ∀ t t', wins t t' (vt w) (vt n) = true ∧ wins t t' (vt n) (vt w) = false)
  ∧ ∀ i w', nsteps (election_step 1) i (start_election 100 1 (example_voter 1 2 10) example_voters) w' →
      (i <= size example_voters * S 3 + 3)%nat
      ∧ ((∀ w'', ¬ election_step 1 w' w'') →
         dom (ew_nodes w') = dom example_voters ∧ ew_net w' = []
         ∧ map_Forall (λ _ n, en_recovery_master n = k ∧ en_send_election_te n = false) (ew_nodes w')).
Proof.
  apply (election_converges 1 3 example_voters 1 (example_voter 1 2 10) 100).
  - by intros k n [[-> ->]|[[-> ->]|[-> ->]]]%example_voters_lookup.
  - intros k n [[-> ->]|[[-> ->]|[-> ->]]]%example_voters_lookup; apply example_voter_ready; lia.
  - intros k n k' [[-> ->]|[[-> ->]|[-> ->]]]%example_voters_lookup
      [n' [[-> _]|[[-> _]|[-> _]]]%example_voters_lookup];
      apply list_elem_of_In; vm_compute; auto.
  - exists 0, (example_voter 0 3 50). by split_and!.
  - reflexivity.
Defined.

Lemma main_loop_checks_witness :
  let active n := ∃ x, x ∈ example_map ∧ nf_pnn x = n ∧ (nf_flags x &? NODE_FLAGS_INACTIVE) = false in
  ∃ rec' st,
    verify_recmaster (mk_tunables 10485760 0 120 300) 0 (λ _, true) (λ l, l) (λ _, Some 0) example_map 0
      (en_rec (example_voter 0 3 50)) = Some (rec', st)
    ∧ (st = MONITOR_OK ↔ ∀ n, active n → Some 0 = Some 0)
    ∧ (st = MONITOR_ELECTION_NEEDED ↔ ∃ n v, active n ∧ Some 0 = Some v ∧ v ≠ 0)
    ∧ st ≠ MONITOR_RECOVERY_NEEDED.
Proof.
  apply (main_loop_checks (mk_tunables 10485760 0 120 300) 0 (λ _, true) (λ l, l) (λ _, Some 0)).
  - done.
  - done.
  - repeat constructor; simpl; lia.
Defined.

(** Two elections at once can end in disagreement, which [verify_recmaster] then
    finds: node 1 gets the message of the winner first, and the winner's own
    message cancels its answer to the other. *)
Example concurrent_elections_disagree :
  let em0 := claim 100 (vt (example_voter 0 3 50)) in
  let em2 := claim 100 (vt (example_voter 2 3 20)) in
  let step em n := (election_handler 1 100 true em n).1 in
  let n1 := step em0 (step em2 (example_voter 1 2 10)) in
  let n2 := step em2 (step em0 (force_election 100 true true (example_voter 2 3 20)).1) in
  en_recovery_master n1 = 0 ∧ en_recovery_master n2 = 2
  ∧ en_send_election_te n1 = false ∧ en_send_election_te n2 = false.
Proof. vm_compute. auto. Qed.
