(* ===== verification/Vacuum.v ===== *)
(** * Vacuuming of records

    [server/ctdb_vacuum.c] and the vacuuming controls of [server/ctdb_recover.c]:
    what is done to single records.  A child process of the daemon collects the
    empty records the node is dmaster of; those it is also lmaster of are first
    overwritten and then deleted on all other nodes with the RECEIVE_RECORDS and
    TRY_DELETE_RECORDS controls and then deleted locally; the others are sent to
    their lmaster.

    Every function that touches the tdb does so under the chainlock of the
    record; whether a lock is obtained is an argument.  The counters that are
    only logged are left out. *)
From S2P Require Import Prelude Protocol Queue Marshal Ltdb Node.

(** ** The controls *)

Section controls.
Context {T : Type} `{!TdbOps T}.
Implicit Types (db : ctdb_db_context T) (key data : bytes).

(** [chain] and [freelist]: the non-blocking locks on the chain of the record
    and on the free list.  The record is [key] and [data] (a record header). *)
Definition delete_tdb_record (pnn : Z) (vm : ctdb_vnn_map) (chain freelist : bool) key data db
    : Z * ctdb_db_context T :=
  if ctdb_lmaster vm key =? pnn then (-1, db)
  else if negb (Nat.eqb (length data) sizeof_header) then (-1, db)
  else if negb chain then (-1, db)
  else
    let hdr := header_of_bytes data in
    let data2 := tdb_fetch (db_ltdb db) key in
    if negb (tdb_exists (db_ltdb db) key) then (0, db)
    else if Nat.ltb (length data2) sizeof_header then
      (0, if freelist then set_db_ltdb db (tdb_delete (db_ltdb db) key).1 else db)
    else
      let hdr2 := header_of_bytes data2 in
      if rsn hdr <? rsn hdr2 then (-1, db)
      else if flags hdr &? CTDB_REC_RO_FLAGS then (-1, db)
      else if flags hdr2 &? CTDB_REC_RO_FLAGS then (-1, db)
      else if dmaster hdr2 =? pnn then (-1, db)
      else if negb freelist then (-1, db)
      else
        let '(t, ret) := tdb_delete (db_ltdb db) key in
        (if negb (ret =? 0) then -1 else 0, set_db_ltdb db t).

Definition store_tdb_record (pnn : Z) (vm : ctdb_vnn_map) (chain : bool) key data db
    : Z * ctdb_db_context T :=
  if ctdb_lmaster vm key =? pnn then (-1, db)
  else if negb (Nat.eqb (length data) sizeof_header) then (-1, db)
  else if negb chain then (-1, db)
  else
    let hdr := header_of_bytes data in
    let data2 := tdb_fetch (db_ltdb db) key in
    if negb (tdb_exists (db_ltdb db) key) || Nat.ltb (length data2) sizeof_header then
      (0, set_db_ltdb db (tdb_store (db_ltdb db) key data).1)
    else
      let hdr2 := header_of_bytes data2 in
      if rsn hdr <? rsn hdr2 then (-1, db)
      else if flags hdr &? CTDB_REC_RO_FLAGS then (-1, db)
      else if flags hdr2 &? CTDB_REC_RO_FLAGS then (-1, db)
      else if dmaster hdr2 =? pnn then (-1, db)
      else
        let '(t, ret) := tdb_store (db_ltdb db) key data in
        (if negb (ret =? 0) then -1 else 0, set_db_ltdb db t).

(** The loop of both controls over [n] records from [rec] on; [records] is the
    reply, [None] an error. *)
Fixpoint vacuum_loop (op : bytes → bytes → ctdb_db_context T → Z * ctdb_db_context T)
    (n : nat) (rec records : bytes) db : option bytes * ctdb_db_context T :=
  match n with
  | O => (Some records, db)
  | S n =>
      if Nat.ltb (length (rec_data rec)) sizeof_header then (None, db)
      else
        let '(ret, db) := op (rec_key rec) (rec_data rec) db in
        if negb (ret =? 0) then
          match mb_append records (take (Z.to_nat (rec_length rec)) rec) with
          | None => (None, db)
          | Some records => vacuum_loop op n (rec_next rec) records db
          end
        else vacuum_loop op n (rec_next rec) records db
  end.

(** (status, reply, daemon) *)
Definition vacuum_control (op : Z → ctdb_vnn_map → bytes → bytes →
      ctdb_db_context T → Z * ctdb_db_context T)
    (indata : bytes) (s : ctdb_context T) : Z * bytes * ctdb_context T :=
  if Nat.ltb (length indata) offsetof_marshall_data then (-1, [], s)
  else match find_db (mb_db_id indata) (cx_db_list s) with
  | None => (-1, [], s)
  | Some db =>
      let '(records, db') := vacuum_loop (op (cx_pnn s) (cx_vnn_map s))
        (Z.to_nat (mb_count indata)) (mb_data indata) (mb_empty (db_id db)) db in
      let s := set_cx_db_list s (put_db db' (cx_db_list s)) in
      match records with
      | None => (-1, [], s)
      | Some records => (0, records, s)
      end
  end.

(** [locks]: which chains can be locked, and whether the free list can. *)
Definition ctdb_control_try_delete_records (locks : bytes → bool * bool) :=
  vacuum_control (λ pnn vm key, delete_tdb_record pnn vm (locks key).1 (locks key).2 key).
Definition ctdb_control_receive_records (locks : bytes → bool * bool) :=
  vacuum_control (λ pnn vm key, store_tdb_record pnn vm (locks key).1 key).

End controls.

(** ** The child process *)

(** The part of [struct vacuum_data] that matters: the tree of records to
    delete, [delete_count], [delete_left], the vacuum fetch lists by node and
    [traverse_error]. *)
Record vacuum_data := mk_vdata {
  vd_delete_list : gmap Z delete_record_data;
  vd_delete_count : Z;
  vd_delete_left : Z;
  vd_fetch_list : list bytes;
  vd_traverse_error : bool;
}.

Definition set_vd_delete_list vd l : vacuum_data :=
  mk_vdata l (vd_delete_count vd) (vd_delete_left vd) (vd_fetch_list vd) (vd_traverse_error vd).
Definition set_vd_delete_left vd n : vacuum_data :=
  mk_vdata (vd_delete_list vd) (vd_delete_count vd) n (vd_fetch_list vd) (vd_traverse_error vd).
Definition set_vd_fetch_list vd l : vacuum_data :=
  mk_vdata (vd_delete_list vd) (vd_delete_count vd) (vd_delete_left vd) l (vd_traverse_error vd).
Definition set_vd_traverse_error vd : vacuum_data :=
  mk_vdata (vd_delete_list vd) (vd_delete_count vd) (vd_delete_left vd) (vd_fetch_list vd) true.

(** Collisions of the hash are skipped. *)
Definition add_record_to_delete_list (key : bytes) (hdr : ctdb_ltdb_header) (vd : vacuum_data)
    : vacuum_data :=
  match vd_delete_list vd !! ctdb_hash key with
  | Some _ => vd
  | None =>
      mk_vdata (insert_delete_record_data_into_tree (vd_delete_list vd) hdr key)
        (vd_delete_count vd + 1) (vd_delete_left vd) (vd_fetch_list vd) (vd_traverse_error vd)
  end.

(** (return value, data); [None]: an access outside of the array of lists. *)
Definition add_record_to_vacuum_fetch_list (pnn : Z) (vm : ctdb_vnn_map) (key : bytes)
    (vd : vacuum_data) : option (Z * vacuum_data) :=
  let lmaster := ctdb_lmaster vm key in
  vfl ← vd_fetch_list vd !! Z.to_nat lmaster;
  Some match r ← ctdb_marshall_record pnn key None []; mb_append vfl r with
       | None => (-1, set_vd_traverse_error vd)
       | Some vfl => (0, set_vd_fetch_list vd (<[Z.to_nat lmaster := vfl]> (vd_fetch_list vd)))
       end.

(** [talloc_free(dd)] removes the entry from the tree. *)
Definition drop_entry (dd : delete_record_data) (vd : vacuum_data) : vacuum_data :=
  set_vd_delete_list vd (delete (ctdb_hash (dd_key dd)) (vd_delete_list vd)).

Section child.
Context {T : Type} `{!TdbOps T}.
Implicit Types (db : ctdb_db_context T) (lc : ltdb_ctx).

(** The conditions under which an entry of the delete list is processed: the
    record is still empty, has no read-only flags, the node is its dmaster and
    lmaster and its RSN is [expected]. *)
Definition still_deletable (pnn : Z) (vm : ctdb_vnn_map) (expected : Z) (key : bytes) db : bool :=
  let tdb_data := tdb_fetch (db_ltdb db) key in
  Nat.eqb (length tdb_data) sizeof_header
  && (let header := header_of_bytes tdb_data in
      negb (flags header &? CTDB_REC_RO_FLAGS) && (dmaster header =? pnn)
      && (rsn header =? expected) && (ctdb_lmaster vm key =? pnn)).

(** Marshalling an entry into the blob; [None] for the blob is the NULL pointer
    left by a failed [talloc_realloc], [None] for the result a crash on it. *)
Definition delete_marshall_traverse (dd : delete_record_data) (records : option bytes)
    : option (option bytes) :=
  records ← records;
  Some match ctdb_marshall_record (mb_db_id records) (dd_key dd) (Some (dd_hdr dd)) [] with
       | None => Some records
       | Some rec => mb_append records rec
       end.

(** The first round bumps the RSN of the record: (database, data, blob). *)
Definition delete_marshall_traverse_first lc (vm : ctdb_vnn_map) (chain : bool)
    (dd : delete_record_data) db (vd : vacuum_data) (records : option bytes)
    : option (ctdb_db_context T * vacuum_data * option bytes) :=
  let key := dd_key dd in
  if negb chain then Some (db, drop_entry dd vd, records)
  else if negb (still_deletable (lc_pnn lc) vm (rsn (dd_hdr dd)) key db)
  then Some (db, drop_entry dd vd, records)
  else
    let header := header_of_bytes (tdb_fetch (db_ltdb db) key) in
    let '(res, _, db) := ctdb_ltdb_store lc db key header [] in
    if negb (res =? 0) then Some (db, drop_entry dd vd, records)
    else
      records ← delete_marshall_traverse dd records;
      Some (db, vd, records).

(** One entry of the delete queue. *)
Definition delete_queue_traverse (pnn : Z) (vm : ctdb_vnn_map) (chain : bool)
    (dd : delete_record_data) db (vd : vacuum_data) : option (ctdb_db_context T * vacuum_data) :=
  let key := dd_key dd in
  if negb chain then Some (db, vd)
  else
    let tdb_data := tdb_fetch (db_ltdb db) key in
    let header := header_of_bytes tdb_data in
    if negb (Nat.eqb (length tdb_data) sizeof_header) then Some (db, vd)
    else if negb (dmaster header =? pnn) then Some (db, vd)
    else if negb (rsn header =? rsn (dd_hdr dd)) then Some (db, vd)
    else if negb (ctdb_lmaster vm key =? pnn) then
      '(_, vd) ← add_record_to_vacuum_fetch_list pnn vm key vd;
      Some (db, vd)
    else if flags (dd_hdr dd) &? CTDB_REC_FLAG_MIGRATED_WITH_DATA then
      Some (db, add_record_to_delete_list key (dd_hdr dd) vd)
    else Some (set_db_ltdb db (tdb_delete (db_ltdb db) key).1, vd).

(** The local deletion of an entry that all other nodes have deleted. *)
Definition delete_record_traverse (pnn : Z) (vm : ctdb_vnn_map) (chain : bool)
    (dd : delete_record_data) db (vd : vacuum_data) : ctdb_db_context T * vacuum_data :=
  let key := dd_key dd in
  if negb chain then (db, vd)
  else if negb (still_deletable pnn vm (u64 (rsn (dd_hdr dd) + 1)) key db) then (db, vd)
  else
    let '(t, res) := tdb_delete (db_ltdb db) key in
    let db := set_db_ltdb db t in
    if negb (res =? 0) then (db, vd)
    else (db, set_vd_delete_left (drop_entry dd vd) (u32 (vd_delete_left vd - 1))).

End child.
