(* ===== verification/Owner.v ===== *)
(** * Ownership of a record on one node

    The data master role of a record behaves like a token: it is held by a
    node whose copy of the record names the node itself, or it travels in a
    CTDB_REQ_DMASTER or CTDB_REPLY_DMASTER packet.  This file shows that every
    handler of [Call] conserves the token together with the data that travels
    with it: the roles a node holds and emits are a sub-multiset of those it
    held and received.  The argument is for one database and one key, on a
    database without read-only delegations. *)
From S2P Require Import Prelude Protocol Ltdb Node Call.

(** ** The local tdb layer once more *)

(** Outside of the read-only protocol. *)
Definition rofree (h : ctdb_ltdb_header) : Prop := (flags h &? CTDB_REC_RO_FLAGS) = false.

(** A registered call that reads the record but does not change it: all the
    calls every database supports. *)
Definition fn_pure (fn : ctdb_fn) : Prop := ∀ c,
  ci_header (fn c).2 = ci_header c ∧ ci_record_data (fn c).2 = ci_record_data c
  ∧ ci_new_data (fn c).2 = ci_new_data c.

Lemma standard_calls_pure :
  fn_pure ctdb_null_func ∧ fn_pure ctdb_fetch_func ∧ fn_pure ctdb_fetch_with_header_func.
Proof. by repeat split. Qed.

Section ltdb_good.
Context {T : Type} `{TdbLaws T}.
Implicit Types (db : ctdb_db_context T) (key data : bytes).

Definition db_rofree db : Prop := ∀ key,
  (sizeof_header <= length (tdb_fetch (db_ltdb db) key))%nat →
  rofree (header_of_bytes (tdb_fetch (db_ltdb db) key)).

(** What the argument needs of the database. *)
Record db_good db : Prop := mk_good {
  dg_ok : db_ok db;
  dg_readonly : db_readonly db = false;
  dg_server : db_server_store db = true;
  dg_calls : Forall (λ f, fn_pure f.2) (db_calls db);
  dg_rofree : db_rofree db;
}.

Lemma rofree_clear h m m' : rofree h → rofree (set_flags h ((flags h &~ m) &~ m')).
Proof.
  unfold rofree. rewrite !has_flag_false. simpl. intros Hf.
  apply Z.bits_inj'. intros i Hi. rewrite Z.land_spec, !Z.ldiff_spec, Z.bits_0.
  assert (Z.testbit (Z.land (flags h) CTDB_REC_RO_FLAGS) i = false) as Hb
    by (by rewrite Hf, Z.bits_0).
  rewrite Z.land_spec in Hb.
  by destruct (Z.testbit (flags h) i), (Z.testbit CTDB_REC_RO_FLAGS i),
    (Z.testbit m i), (Z.testbit m' i).
Qed.

Lemma rofree_part h m :
  rofree h → Z.ldiff m CTDB_REC_RO_FLAGS = 0 → (flags h &? m) = false.
Proof.
  unfold rofree. rewrite !has_flag_false. intros Hf Hm.
  apply Z.bits_inj'. intros i Hi. rewrite Z.land_spec, Z.bits_0.
  assert (Z.testbit (Z.land (flags h) CTDB_REC_RO_FLAGS) i = false) as Hb
    by (by rewrite Hf, Z.bits_0).
  assert (Z.testbit (Z.ldiff m CTDB_REC_RO_FLAGS) i = false) as Hc
    by (by rewrite Hm, Z.bits_0).
  rewrite Z.land_spec in Hb. rewrite Z.ldiff_spec in Hc.
  by destruct (Z.testbit (flags h) i), (Z.testbit CTDB_REC_RO_FLAGS i), (Z.testbit m i).
Qed.

(** A store on a good database. *)
Lemma store_good lc vm db key h data ret h' db' :
  lc_vnn_map lc = Some vm → db_good db → header_ok h → rofree h → Forall is_u8 data →
  ctdb_ltdb_store lc db key h data = (ret, h', db') →
  db_good db' ∧ db_id db' = db_id db ∧ header_ok h' ∧ rofree h' ∧ dmaster h' = dmaster h
  ∧ (ret = 0 → (view_dmaster vm db' key = lc_pnn lc ↔ dmaster h = lc_pnn lc)
               ∧ view_data db' key = data)
  ∧ (ret ≠ 0 → tdb_fetch (db_ltdb db') key = tdb_fetch (db_ltdb db) key
               ∨ tdb_fetch (db_ltdb db') key = [] ∧ store_may_fail T)
  ∧ (∀ k, k ≠ key → tdb_fetch (db_ltdb db') k = tdb_fetch (db_ltdb db) k).
Proof.
  intros Hvm [Hdb Hro Hsrv Hcalls Hrf] Hok Hf Hdata. unfold ctdb_ltdb_store. rewrite Hsrv.
  intros E. pose proof E as Eok. apply (store_server_ok _ vm) in Eok; [|done..].
  pose proof E as Einv.
  apply (store_server_inv _ vm) in Einv as (E1 & E2 & E3 & Hd & Hfl & Hok' & t & q & c & Hw);
    [|done]. specialize (Hok' Hok).
  assert (rofree h') as Hf'.
  { unfold rofree. rewrite Hfl.
    by apply (rofree_clear h CTDB_REC_FLAG_VACUUM_MIGRATED CTDB_REC_FLAG_AUTOMATIC). }
  assert (db_rofree db') as Hrf'.
  { intros k. destruct (decide (k = key)) as [->|Hne]; [|rewrite E3 by done; apply Hrf].
    destruct (decide (ret = 0)) as [Hr|Hr].
    - rewrite E1 by done. case_match; [by rewrite header_of_bytes_app|].
      simpl. unfold sizeof_header. lia.
    - destruct (E2 Hr) as [-> | [-> _]]; [apply Hrf|]. simpl. unfold sizeof_header. lia. }
  split_and!; try done; [by subst db'|by subst db'|..].
  intros ->. by eapply store_server_view in E.
Qed.

(** A fetch on a good database. *)
Lemma fetch_good lc vm db key h0 ret h data db' :
  lc_vnn_map lc = Some vm → vnn_map_ok vm → db_good db →
  ctdb_ltdb_fetch lc db key h0 = (ret, h, data, db') →
  db_good db' ∧ db_id db' = db_id db ∧ header_ok h ∧ rofree h ∧ Forall is_u8 data ∧ ret = 0
  ∧ dmaster h = view_dmaster vm db key ∧ data = view_data db key
  ∧ (∀ k, view_dmaster vm db' k = view_dmaster vm db k)
  ∧ (∀ k, view_data db' k = view_data db k).
Proof.
  intros Hvm Hmap Hgood E. pose proof Hgood as [Hdb Hro Hsrv Hcalls Hrf].
  pose proof E as Ei.
  apply (fetch_inv _ vm) in Ei as (-> & Hd & Hdata & Hok & V1 & V2 & Hdb' & t & q & c & Hw);
    [|done..].
  assert (Forall is_u8 data) as Hu8.
  { rewrite Hdata. unfold view_data. case_match; [constructor|]. apply Forall_drop, Hdb. }
  assert (rofree h ∧ db_rofree db') as [Hrh Hrf'].
  { revert E. unfold ctdb_ltdb_fetch. rewrite Hvm.
    destruct (Nat.ltb_spec (length (tdb_fetch (db_ltdb db) key)) sizeof_header).
    - assert (rofree (ltdb_initial_header vm key)) by done.
      case_match; [|by intros [= <- _ <-]].
      destruct (ctdb_ltdb_store _ _ _ _ _) as [[r h1] d] eqn:Es. intros [= <- _ <-].
      apply (store_good _ vm) in Es as (Hg & _ & _ & Hr & _); try done;
        [split; [done|by destruct Hg]|by apply initial_header_ok, Hmap].
    - intros [= <- _ <-]. split; [by apply Hrf|done]. }
  subst db'. by split_and!.
Qed.

End ltdb_good.

(** ** The token *)

(** A node number, as opposed to a broadcast address. *)
Definition is_pnn (z : Z) : Prop := 0 <= z < CTDB_CURRENT_NODE.

Section token.
Variables (D : Z) (K : bytes).

(** The record data in a packet that carries the dmaster role of record [K] of
    database [D]. *)
Definition token (p : packet) : option bytes :=
  match p with
  | CTDB_REQ_DMASTER c =>
      if (rd_db_id c =? D) && bool_decide (blob_key (rd_keylen c) (rd_data c) = K)
      then Some (blob_data (rd_keylen c) (rd_datalen c) (rd_data c)) else None
  | CTDB_REPLY_DMASTER c =>
      if (ry_db_id c =? D) && bool_decide (blob_key (ry_keylen c) (ry_data c) = K)
      then Some (blob_data (ry_keylen c) (ry_datalen c) (ry_data c)) else None
  | _ => None
  end.

Definition tokens (ps : list packet) : list bytes := omap token ps.

(** The flags of a migrating record stay out of the read-only protocol, and
    everything fits its C type. *)
Definition flags_good (fl : Z) : Prop := is_u32 fl ∧ (fl &? CTDB_REC_RO_FLAGS) = false.

Definition packet_good (p : packet) : Prop :=
  match p with
  | CTDB_REQ_DMASTER c => rd_db_id c = D →
      is_u64 (rd_rsn c) ∧ is_pnn (rd_dmaster c)
      ∧ Forall is_u8 (blob_data (rd_keylen c) (rd_datalen c) (rd_data c))
      ∧ flags_good (blob_flags offsetof_req_dmaster_data (hdr_length (rd_hdr c))
                      (rd_keylen c) (rd_datalen c) (rd_data c))
  | CTDB_REPLY_DMASTER c => ry_db_id c = D →
      is_u64 (ry_rsn c)
      ∧ Forall is_u8 (blob_data (ry_keylen c) (ry_datalen c) (ry_data c))
      ∧ flags_good (blob_flags offsetof_reply_dmaster_data (hdr_length (ry_hdr c))
                      (ry_keylen c) (ry_datalen c) (ry_data c))
  | _ => True
  end.

Lemma token_set_dest p d : token (packet_set_dest p d) = token p.
Proof. by destruct p as [[]|[]|[]|[]|[]| | | | |]. Qed.

Lemma packet_good_set_dest p d : packet_good p → packet_good (packet_set_dest p d).
Proof. by destruct p as [[]|[]|[]|[]|[]| | | | |]. Qed.

Lemma tokens_app ps qs : tokens (ps ++ qs) = tokens ps ++ tokens qs.
Proof. apply omap_app. Qed.

End token.

(** ** Conservation *)

Create HintDb quiet.
Create HintDb mild.

Section owner.
Context {T : Type} `{TdbLaws T} {V : Type}.
Variables (D : Z) (K : bytes) (vm : ctdb_vnn_map) (n : Z) (val : bytes → V) (B : list V).
Variable ev : node_env.
Implicit Types (s : ctdb_context T) (db : ctdb_db_context T) (X : list V).

(** The packets a node has sent, or holds for itself. *)
Definition in_transit s : list packet :=
  cx_net_out s ++ cx_deferred s ++ (lf_hdr <$> cx_lock_queue s).

(** The role as this node holds it ... *)
Definition own s : list V :=
  match find_db D (cx_db_list s) with
  | Some db => if view_dmaster vm db K =? n then [val (view_data db K)] else []
  | None => []
  end.

(** ... and as it travels. *)
Definition flight s : list V := val <$> tokens D K (in_transit s).

Definition good s : Prop :=
  cx_vnn_map s = vm ∧ cx_pnn s = n
  ∧ (∀ db, find_db D (cx_db_list s) = Some db → db_good db)
  ∧ Forall (packet_good D) (in_transit s).

(** The budget: roles held, travelling, or in the hands of a handler ([X]). *)
Definition Inv X s : Prop := good s ∧ own s ++ flight s ++ X ⊆+ B.
(** The same while the record itself is being rewritten. *)
Definition Rest X s : Prop := good s ∧ flight s ++ X ⊆+ B.

(** What an aborted handler leaves behind: the packets already sent. *)
Definition Aborted s : Prop :=
  Forall (packet_good D) (cx_net_out s) ∧ val <$> tokens D K (cx_net_out s) ⊆+ B.

Definition wp {A} (m : M T A) (Q : A → ctdb_context T → Prop) s : Prop :=
  match m s with
  | Ret a s' => Q a s'
  | Stop _ s' => Aborted s'
  end.

Lemma wp_bind {A C} (m : M T A) (f : A → M T C) Q s :
  wp m (λ a s', wp (f a) Q s') s → wp (m ≫= f) Q s.
Proof. unfold wp, mbind, M_bind. by destruct (m s). Qed.

Lemma wp_mono {A} (m : M T A) (P Q : A → ctdb_context T → Prop) s :
  wp m P s → (∀ a s', P a s' → Q a s') → wp m Q s.
Proof. unfold wp. destruct (m s); auto. Qed.

Lemma wp_ret {A} (a : A) (Q : A → ctdb_context T → Prop) s : Q a s → wp (mret a) Q s.
Proof. done. Qed.

Lemma wp_gets {A} (f : ctdb_context T → A) (Q : A → ctdb_context T → Prop) s :
  Q (f s) s → wp (gets f) Q s.
Proof. done. Qed.

Lemma Inv_rest X s : Inv X s → Rest X s.
Proof.
  intros [Hg Hb]. split; [done|]. etrans; [|exact Hb]. apply submseteq_inserts_l. done.
Qed.

Lemma Rest_drop X Y s : Rest (X ++ Y) s → Rest Y s.
Proof.
  intros [Hg Hb]. split; [done|]. etrans; [|exact Hb]. apply submseteq_skips_l.
  by apply submseteq_inserts_l.
Qed.

Lemma Inv_drop X Y s : Inv (X ++ Y) s → Inv Y s.
Proof.
  intros [Hg Hb]. split; [done|]. etrans; [|exact Hb].
  do 2 apply submseteq_skips_l. by apply submseteq_inserts_l.
Qed.

Lemma Rest_aborted X s : Rest X s → Aborted s.
Proof.
  intros [(_ & _ & _ & Hp) Hb]. unfold in_transit in Hp. split.
  - by apply Forall_app in Hp as [Hp _].
  - etrans; [|exact Hb]. unfold flight, in_transit. rewrite tokens_app, fmap_app.
    rewrite <- app_assoc. by apply submseteq_inserts_r.
Qed.

Lemma Inv_aborted X s : Inv X s → Aborted s.
Proof. intros. by eapply Rest_aborted, Inv_rest. Qed.

Lemma wp_fatal {A} X msg (Q : A → ctdb_context T → Prop) s :
  Rest X s → wp (ctdb_fatal msg) Q s.
Proof. apply Rest_aborted. Qed.

(** *** Operations that leave the record and the packets alone *)

Definition same_core db db' : Prop :=
  db_ltdb db' = db_ltdb db ∧ db_readonly db' = db_readonly db
  ∧ db_server_store db' = db_server_store db ∧ db_calls db' = db_calls db.

Definition db_core db : T * bool * bool * list (Z * ctdb_fn) :=
  (db_ltdb db, db_readonly db, db_server_store db, db_calls db).

Definition frame s s' : Prop :=
  cx_vnn_map s' = cx_vnn_map s ∧ cx_pnn s' = cx_pnn s ∧ cx_net_out s' = cx_net_out s
  ∧ cx_deferred s' = cx_deferred s ∧ cx_lock_queue s' = cx_lock_queue s
  ∧ db_core <$> find_db D (cx_db_list s') = db_core <$> find_db D (cx_db_list s).

#[local] Instance frame_preorder : PreOrder frame.
Proof.
  split; [by intros s; unfold frame|].
  intros s1 s2 s3 (? & ? & ? & ? & ? & ?) (? & ? & ? & ? & ? & ?).
  unfold frame. split_and!; congruence.
Qed.

Lemma core_good db db' : db_core db' = db_core db → db_good db → db_good db'.
Proof.
  unfold db_core. intros [= H1 H2 H3 H4] [Hok Hro Hs Hc Hf].
  split; unfold db_ok, db_rofree in *; by rewrite ?H1, ?H2, ?H3, ?H4.
Qed.

Lemma frame_good s s' : frame s s' → good s → good s'.
Proof.
  intros (H1 & H2 & H3 & H4 & H5 & H6) (Hv & Hn & Hdb & Hp).
  split_and!; [congruence..| |unfold in_transit in *; by rewrite H3, H4, H5].
  intros db' E'. rewrite E' in H6.
  destruct (find_db D (cx_db_list s)) as [db|]; [|done]. injection H6 as H6.
  apply (core_good db); [unfold db_core; congruence|by apply Hdb].
Qed.

Lemma frame_own s s' : frame s s' → own s' = own s.
Proof.
  intros (_ & _ & _ & _ & _ & H6). unfold own.
  destruct (find_db D (cx_db_list s)), (find_db D (cx_db_list s')); try done.
  injection H6 as H6 _ _ _. unfold view_dmaster, view_data. by rewrite H6.
Qed.

Lemma frame_flight s s' : frame s s' → flight s' = flight s.
Proof.
  intros (_ & _ & H3 & H4 & H5 & _). unfold flight, in_transit. by rewrite H3, H4, H5.
Qed.

Lemma frame_Inv X s s' : frame s s' → Inv X s → Inv X s'.
Proof.
  intros Hf [Hg Hb]. split; [by eapply frame_good|].
  by rewrite (frame_own _ _ Hf), (frame_flight _ _ Hf).
Qed.

Lemma frame_Rest X s s' : frame s s' → Rest X s → Rest X s'.
Proof. intros Hf [Hg Hb]. split; [by eapply frame_good|]. by rewrite (frame_flight _ _ Hf). Qed.

Definition out_state {A} (o : outcome T A) : ctdb_context T :=
  match o with Ret _ s | Stop _ s => s end.

Definition framed {A} s (m : M T A) : Prop := frame s (out_state (m s)).
Definition quiet {A} (m : M T A) : Prop := ∀ s, framed s m.

Lemma framed_bind {A C} s (m : M T A) (k : A → M T C) :
  framed s m → (∀ a s', m s = Ret a s' → framed s' (k a)) → framed s (m ≫= k).
Proof.
  unfold framed, mbind, M_bind. intros Hm Hk. destruct (m s) as [a s'|w s'] eqn:E; [|done].
  simpl in Hm. etrans; [exact Hm|]. by apply Hk.
Qed.

Lemma framed_quiet {A C} s (m : M T A) (k : A → M T C) :
  quiet m → (∀ a s', framed s' (k a)) → framed s (m ≫= k).
Proof. intros Hm Hk. apply framed_bind; [apply Hm|auto]. Qed.

Lemma framed_the_db {A} s id (k : ctdb_db_context T → M T A) :
  (∀ db, find_db id (cx_db_list s) = Some db → db_id db = id → framed s (k db)) →
  framed s (the_db id ≫= k).
Proof.
  intros Hk. unfold framed, the_db, find_ctdb_db, gets, mbind, M_bind, mret, M_ret.
  destruct (find_db id (cx_db_list s)) as [db|] eqn:E; [|simpl; reflexivity].
  apply Hk; [done|by eapply find_db_id].
Qed.

Lemma framed_put s db db0 :
  find_db (db_id db) (cx_db_list s) = Some db0 → same_core db0 db →
  framed s (put_ctdb_db db).
Proof.
  intros E (H1 & H2 & H3 & H4). unfold framed, frame. simpl. split_and!; try done.
  destruct (decide (db_id db = D)) as [<-|Hne].
  - rewrite (find_put _ _ db0), E by done. simpl. unfold db_core. congruence.
  - by rewrite find_put_other.
Qed.

Lemma framed_put_other s db : db_id db ≠ D → framed s (put_ctdb_db db).
Proof.
  intros Hne. unfold framed, frame. simpl. split_and!; try done. by rewrite find_put_other.
Qed.

Lemma quiet_ret {A} (a : A) : quiet (mret a).
Proof. intros s. unfold framed. simpl. reflexivity. Qed.
Lemma quiet_gets {A} (f : ctdb_context T → A) : quiet (gets f).
Proof. intros s. unfold framed. simpl. reflexivity. Qed.
Lemma quiet_fatal {A} msg : quiet (ctdb_fatal (A := A) msg).
Proof. intros s. unfold framed. simpl. reflexivity. Qed.
Lemma quiet_spin {A} : quiet (spin (A := A)).
Proof. intros s. unfold framed. simpl. reflexivity. Qed.
Lemma quiet_modify f : (∀ s, frame s (f s)) → quiet (modify f).
Proof. intros Hf s. apply Hf. Qed.

Ltac quiet_step :=
  match goal with
  | |- framed _ (the_db _ ≫= _) => apply framed_the_db; intros ? ? ?
  | |- framed _ (put_ctdb_db _ ≫= _) =>
      apply framed_bind; [eapply framed_put; [simpl; subst; eassumption|done]|intros _ ? _]
  | |- framed _ (put_ctdb_db _) => eapply framed_put; [simpl; subst; eassumption|done]
  | |- framed _ (_ ≫= _) => apply framed_quiet; [solve [auto with quiet]|intros ? ?]
  | |- framed _ (match ?x with _ => _ end) => destruct x eqn:?
  | |- framed _ (let '(_, _) := ?x in _) => destruct x eqn:?
  | |- framed ?s ?m => assert (quiet m) as Hq by auto with quiet; apply Hq
  end.
Ltac solve_quiet := intros ?; repeat quiet_step.

Hint Resolve quiet_ret quiet_gets quiet_fatal quiet_spin : quiet.

Lemma quiet_incr k : quiet (CTDB_INCREMENT_STAT k).
Proof. by apply quiet_modify. Qed.
Lemma quiet_update k v : quiet (CTDB_UPDATE_STAT k v).
Proof. by apply quiet_modify. Qed.
Lemma quiet_find_db id : quiet (find_ctdb_db id).
Proof. apply quiet_gets. Qed.
Lemma quiet_reqid_find r : quiet (ctdb_reqid_find r).
Proof. apply quiet_gets. Qed.
Lemma quiet_reqid_set r e : quiet (reqid_set r e).
Proof. by apply quiet_modify. Qed.
Lemma quiet_reqid_remove r : quiet (ctdb_reqid_remove r).
Proof. by apply quiet_modify. Qed.
Lemma quiet_upd_node pnn f : quiet (upd_node pnn f).
Proof. by apply quiet_modify. Qed.
Lemma quiet_release ps : quiet (release_pinned ps).
Proof. by apply quiet_modify. Qed.
Lemma quiet_set_lastid id : quiet (modify (λ s, set_cx_lastid s id)).
Proof. by apply quiet_modify. Qed.
Lemma quiet_set_pending f : quiet (modify (λ s, set_cx_pending_calls s (f s))).
Proof. by apply quiet_modify. Qed.
Lemma quiet_set_done f : quiet (modify (λ s, set_cx_done s (f s))).
Proof. by apply quiet_modify. Qed.
Lemma quiet_set_timers f : quiet (modify (λ s, set_cx_timers s (f s))).
Proof. by apply quiet_modify. Qed.
Lemma quiet_set_recmode m : quiet (modify (λ s, set_cx_recovery_mode s m)).
Proof. by apply quiet_modify. Qed.
Hint Resolve quiet_incr quiet_update quiet_find_db quiet_reqid_find quiet_reqid_set
  quiet_reqid_remove quiet_upd_node quiet_release quiet_set_lastid quiet_set_pending
  quiet_set_done quiet_set_timers quiet_set_recmode : quiet.

Lemma quiet_the_db id : quiet (the_db id).
Proof. unfold the_db. solve_quiet. Qed.
Hint Resolve quiet_the_db : quiet.
Lemma quiet_reqid_new : quiet ctdb_reqid_new.
Proof. unfold ctdb_reqid_new. solve_quiet. Qed.
Lemma quiet_allocate l sl : quiet (ctdb_transport_allocate l sl).
Proof. unfold ctdb_transport_allocate. solve_quiet. Qed.
Lemma quiet_complete r cs : quiet (complete_call r cs).
Proof. unfold complete_call, when. solve_quiet. Qed.
Lemma quiet_unlock id key : quiet (db_unlock id key).
Proof.
  intros s. unfold db_unlock. quiet_step. unfold ctdb_ltdb_unlock.
  destruct (list_find _ _) as [[i ?]|]; repeat quiet_step.
Qed.
Hint Resolve quiet_reqid_new quiet_allocate quiet_complete quiet_unlock : quiet.

Lemma quiet_upd_db id f :
  (∀ db, same_core db (f db) ∧ db_id (f db) = db_id db) → quiet (upd_db id f).
Proof.
  intros Hf s. unfold upd_db. quiet_step. destruct (Hf db) as [Hc Hi].
  eapply framed_put; [|exact Hc]. by rewrite Hi, H2.
Qed.

Lemma quiet_set_pindown id key : quiet (ctdb_set_sticky_pindown id key).
Proof. unfold ctdb_set_sticky_pindown. solve_quiet. Qed.
Lemma quiet_pindown_timeout id k : quiet (ctdb_sticky_pindown_timeout id k).
Proof. unfold ctdb_sticky_pindown_timeout. solve_quiet. Qed.
Lemma quiet_sticky_timeout id k : quiet (ctdb_sticky_record_timeout id k).
Proof. unfold ctdb_sticky_record_timeout. solve_quiet. Qed.
Lemma quiet_make_sticky id key : quiet (ctdb_make_record_sticky id key).
Proof. unfold ctdb_make_record_sticky. solve_quiet. Qed.
Lemma quiet_defer_pinned id key c : quiet (ctdb_defer_pinned_down_request id key c).
Proof. unfold ctdb_defer_pinned_down_request. solve_quiet. Qed.
Lemma quiet_start_revoke id key h d : quiet (ctdb_start_revoke_ro_record ev id key h d).
Proof. unfold ctdb_start_revoke_ro_record. solve_quiet. Qed.
Lemma quiet_add_revoke id key c : quiet (ctdb_add_revoke_deferred_call id key c).
Proof. unfold ctdb_add_revoke_deferred_call. solve_quiet. Qed.
Lemma quiet_revokechild id i : quiet (revokechild_handler id i).
Proof. unfold revokechild_handler. solve_quiet. Qed.
Hint Resolve quiet_set_pindown quiet_pindown_timeout quiet_sticky_timeout quiet_make_sticky
  quiet_defer_pinned quiet_start_revoke quiet_add_revoke quiet_revokechild : quiet.

Lemma quiet_hot_keys id key h :
  quiet (upd_db id (λ db, ctdb_update_db_stat_hot_keys db key h)).
Proof.
  apply quiet_upd_db. intros db. unfold ctdb_update_db_stat_hot_keys.
  by destruct (update_hot_keys _ _ _ _).
Qed.
Lemma quiet_bucket id f : quiet (upd_db id (λ db, set_db_hop_count_bucket db (f db))).
Proof. by apply quiet_upd_db. Qed.
Lemma quiet_ro_revokes id f : quiet (upd_db id (λ db, set_db_ro_revokes db (f db))).
Proof. by apply quiet_upd_db. Qed.
Lemma quiet_ro_delegations id f : quiet (upd_db id (λ db, set_db_ro_delegations db (f db))).
Proof. by apply quiet_upd_db. Qed.
Lemma quiet_rottdb id f : quiet (upd_db id (λ db, set_db_rottdb db (f db))).
Proof. by apply quiet_upd_db. Qed.
Lemma quiet_chainlocks id f : quiet (upd_db id (λ db, set_db_chainlocks db (f db))).
Proof. by apply quiet_upd_db. Qed.
Hint Resolve quiet_hot_keys quiet_bucket quiet_ro_revokes quiet_ro_delegations quiet_rottdb
  quiet_chainlocks : quiet.

Lemma quiet_call_statistics id key c : quiet (call_statistics id key c).
Proof. unfold call_statistics. solve_quiet. Qed.
Hint Resolve quiet_call_statistics : quiet.

(** Nothing about the record of [D] happens in a store to another database. *)
Lemma store_db_id s db key h d ret h' db' :
  ctdb_ltdb_store (daemon_lc s) db key h d = (ret, h', db') → db_id db' = db_id db.
Proof.
  unfold ctdb_ltdb_store. destruct (db_server_store db); intros E.
  - by apply (store_server_inv _ (cx_vnn_map s)) in E as (_ & _ & _ & _ & _ & _ & ? & ? & ? & ->).
  - destruct (ltdb_store_plain _ _ _ _) eqn:Ep.
    apply store_plain_inv in Ep as (_ & _ & _ & t & ->). by simplify_eq.
Qed.

Lemma fetch_db_id s db key h0 ret h d db' :
  ctdb_ltdb_fetch (daemon_lc s) db key h0 = (ret, h, d, db') → db_id db' = db_id db.
Proof.
  unfold ctdb_ltdb_fetch. simpl. case_match; [|by intros; simplify_eq].
  case_match; [|by intros; simplify_eq].
  destruct (ctdb_ltdb_store _ _ _ _ _) as [[? ?] ?] eqn:E. intros [= _ _ _ <-].
  by eapply store_db_id.
Qed.

Lemma quiet_store_other id key h d : id ≠ D → quiet (db_store id key h d).
Proof.
  intros Hne s. unfold db_store. quiet_step. apply framed_bind; [apply quiet_gets|].
  intros lc s' [= <- <-]. destruct (ctdb_ltdb_store _ _ _ _ _) as [[? ?] ?] eqn:E.
  apply framed_bind; [|intros; apply quiet_ret].
  apply framed_put_other. apply store_db_id in E. congruence.
Qed.

Lemma quiet_fetch_other id key : id ≠ D → quiet (db_fetch id key).
Proof.
  intros Hne s. unfold db_fetch. quiet_step. apply framed_bind; [apply quiet_gets|].
  intros lc s' [= <- <-]. destruct (ctdb_ltdb_fetch _ _ _ _) as [[[? ?] ?] ?] eqn:E.
  apply framed_bind; [|intros; apply quiet_ret].
  apply framed_put_other. apply fetch_db_id in E. congruence.
Qed.
Hint Resolve quiet_store_other quiet_fetch_other : quiet.

(** *** Programs that conserve the role *)

Lemma wp_quiet {A} X (m : M T A) (Q : A → ctdb_context T → Prop) s :
  quiet m → Inv X s → (∀ a s', frame s s' → Inv X s' → Q a s') → wp m Q s.
Proof.
  intros Hm HI HQ. specialize (Hm s). unfold framed in Hm. unfold wp.
  destruct (m s) as [a s'|w s']; simpl in Hm.
  - apply HQ; [done|by eapply frame_Inv].
  - by eapply Inv_aborted, frame_Inv.
Qed.

Definition mild {A} (m : M T A) : Prop := ∀ X s, Inv X s → wp m (λ _, Inv X) s.

Lemma wp_mild {A} X (m : M T A) s : mild m → Inv X s → wp m (λ _, Inv X) s.
Proof. intros Hm HI. by apply Hm. Qed.

Lemma mild_quiet {A} (m : M T A) : quiet m → mild m.
Proof. intros Hm X s HI. by eapply wp_quiet. Qed.

Lemma mild_bind {A C} (m : M T A) (k : A → M T C) :
  mild m → (∀ a, mild (k a)) → mild (m ≫= k).
Proof.
  intros Hm Hk X s HI. apply wp_bind. eapply wp_mono; [by apply Hm|].
  intros a s' HI'. by apply Hk.
Qed.

Lemma mild_mfor {A} (l : list A) (f : A → M T ()) :
  (∀ a, mild (f a)) → mild (mfor l f).
Proof.
  intros Hf. induction l as [|a l IH]; simpl; [apply mild_quiet, quiet_ret|].
  by apply mild_bind.
Qed.

(** *** Sending a packet *)

Definition tok (p : packet) : list V := val <$> tokens D K [p].

Lemma flight_deferred s p :
  flight (set_cx_deferred s (cx_deferred s ++ [p])) ≡ₚ tok p ++ flight s.
Proof.
  unfold flight, in_transit, tok. simpl. rewrite <- fmap_app. apply fmap_Permutation.
  rewrite !tokens_app. solve_Permutation.
Qed.

Lemma flight_net_out s p :
  flight (set_cx_net_out s (cx_net_out s ++ [p])) ≡ₚ tok p ++ flight s.
Proof.
  unfold flight, in_transit, tok. simpl. rewrite <- fmap_app. apply fmap_Permutation.
  rewrite !tokens_app. solve_Permutation.
Qed.

Lemma flight_lock_queue s lf :
  flight (set_cx_lock_queue s (cx_lock_queue s ++ [lf])) ≡ₚ tok (lf_hdr lf) ++ flight s.
Proof.
  unfold flight, in_transit, tok. simpl. rewrite <- fmap_app. apply fmap_Permutation.
  rewrite fmap_app, !tokens_app. solve_Permutation.
Qed.

Lemma in_transit_good s s' p :
  in_transit s' ≡ₚ p :: in_transit s → packet_good D p →
  cx_vnn_map s' = cx_vnn_map s → cx_pnn s' = cx_pnn s → cx_db_list s' = cx_db_list s →
  good s → good s'.
Proof.
  intros Hp Hg E1 E2 E3 (Hv & Hn & Hdb & Hps). split_and!; [congruence..|by rewrite E3|].
  rewrite Hp. by constructor.
Qed.

(** A packet that joins those in transit takes its role out of the hands of the
    handler. *)
Lemma Inv_send X s s' p :
  Inv (tok p ++ X) s → packet_good D p →
  in_transit s' ≡ₚ p :: in_transit s → flight s' ≡ₚ tok p ++ flight s →
  cx_vnn_map s' = cx_vnn_map s → cx_pnn s' = cx_pnn s → cx_db_list s' = cx_db_list s →
  Inv X s'.
Proof.
  intros [Hg Hb] Hp Ht Hf E1 E2 E3. split; [by eapply in_transit_good|].
  assert (own s' = own s) as -> by (unfold own; by rewrite E3).
  rewrite Hf. etrans; [|exact Hb].
  apply Permutation_submseteq. solve_Permutation.
Qed.

Lemma wp_unicast X p s :
  Inv (tok p ++ X) s → packet_good D p → wp (queue_unicast ev p) (λ _, Inv X) s.
Proof.
  intros HI Hp. unfold queue_unicast. apply wp_bind.
  eapply wp_quiet; [apply quiet_incr|exact HI|]. intros _ s1 _ HI1.
  apply wp_bind, wp_gets. simpl.
  repeat case_match; try (by apply Inv_drop in HI1).
  - eapply Inv_send; [exact HI1|done|..]; try done; [|apply flight_deferred].
    unfold in_transit. simpl. solve_Permutation.
  - unfold wp, mbind, M_bind. simpl. eapply Inv_aborted.
    eapply (frame_Inv _ s1); [done|exact HI1].
  - unfold wp, mbind, M_bind. simpl.
    eapply (frame_Inv _ (set_cx_net_out s1 (cx_net_out s1 ++ [p]))); [done|].
    eapply Inv_send; [exact HI1|done|..]; try done; [|apply flight_net_out].
    unfold in_transit. simpl. solve_Permutation.
Qed.

Lemma tok_set_dest p d : tok (packet_set_dest p d) = tok p.
Proof. unfold tok, tokens. simpl. by rewrite token_set_dest. Qed.

(** A packet without the role may go anywhere. *)
Lemma mild_unicast p : tok p = [] → packet_good D p → mild (queue_unicast ev p).
Proof. intros Ht Hp X s HI. apply wp_unicast; [by rewrite Ht|done]. Qed.

Lemma mild_send p : tok p = [] → packet_good D p → mild (ctdb_queue_packet ev p).
Proof.
  intros Ht Hp. assert (∀ d, mild (queue_unicast ev (packet_set_dest p d))) as Hd.
  { intros d. apply mild_unicast; [by rewrite tok_set_dest|by apply packet_good_set_dest]. }
  unfold ctdb_queue_packet, ctdb_broadcast_packet_all, ctdb_broadcast_packet_vnnmap,
    ctdb_broadcast_packet_connected.
  repeat case_match; try (by apply mild_unicast);
    apply mild_bind; try (apply mild_quiet, quiet_gets); intros ?; apply mild_mfor;
    intros ?; repeat case_match; try done; apply mild_quiet, quiet_ret.
Qed.

(** A packet with the role goes to a single node. *)
Lemma wp_send X p s :
  is_pnn (hdr_destnode (packet_hdr p)) → Inv (tok p ++ X) s → packet_good D p →
  wp (ctdb_queue_packet ev p) (λ _, Inv X) s.
Proof.
  unfold is_pnn, CTDB_CURRENT_NODE. intros Hd HI Hp. unfold ctdb_queue_packet.
  unfold CTDB_BROADCAST_ALL, CTDB_BROADCAST_VNNMAP, CTDB_BROADCAST_CONNECTED.
  rewrite !(proj2 (Z.eqb_neq _ _)) by lia. by apply wp_unicast.
Qed.

(** Waiting for a lock. *)
Lemma wp_lock_requeue X id key p ig s :
  Inv (tok p ++ X) s → packet_good D p →
  wp (ctdb_ltdb_lock_requeue ev id key p ig)
     (λ ret s', (ret = 0 ∨ ret = -1) ∧ Inv (tok p ++ X) s' ∨ ret = -2 ∧ Inv X s') s.
Proof.
  intros HI Hp. unfold ctdb_ltdb_lock_requeue. destruct (ev_lock ev).
  - apply wp_bind. eapply wp_quiet; [apply quiet_chainlocks|exact HI|].
    intros _ s' _ HI'. left. auto.
  - unfold wp, mbind, M_bind. simpl. right. split; [done|].
    eapply Inv_send; [exact HI|done|..]; try done.
    + unfold in_transit. simpl. rewrite fmap_app. simpl. solve_Permutation.
    + apply flight_lock_queue.
  - left. auto.
  - left. auto.
Qed.

(** *** Reading and writing the record *)

(** What a handler knows after fetching a record of database [D]. *)
Definition fetched id key h data s : Prop :=
  id = D → header_ok h ∧ rofree h ∧ Forall is_u8 data
  ∧ (key = K → own s = if dmaster h =? n then [val data] else []).

Lemma fetched_frame id key h data s s' :
  frame s s' → fetched id key h data s → fetched id key h data s'.
Proof. unfold fetched. intros Hf. by rewrite (frame_own _ _ Hf). Qed.

Hypothesis Hmap : vnn_map_ok vm.

Lemma own_put s db db0 :
  find_db D (cx_db_list s) = Some db0 → db_id db = D →
  own (set_cx_db_list s (put_db db (cx_db_list s)))
  = if view_dmaster vm db K =? n then [val (view_data db K)] else [].
Proof.
  intros E Hid. unfold own. simpl.
  assert (find_db D (put_db db (cx_db_list s)) = Some db) as ->; [|done].
  rewrite <- Hid. apply (find_put _ _ db0). by rewrite Hid.
Qed.

Lemma good_put s db db0 :
  find_db D (cx_db_list s) = Some db0 → db_id db = D → db_good db → good s →
  good (set_cx_db_list s (put_db db (cx_db_list s))).
Proof.
  intros E Hid Hdb (Hv & Hn & _ & Hp). split_and!; try done. simpl.
  intros db1. rewrite <- Hid. rewrite (find_put _ _ db0) by by rewrite Hid.
  by intros [= <-].
Qed.

Lemma wp_db_fetch X id key s :
  Inv X s →
  wp (db_fetch id key)
     (λ '(ret, h, data) s', Inv X s' ∧ fetched id key h data s' ∧ (id = D → ret = 0)) s.
Proof.
  intros HI. destruct (decide (id = D)) as [->|Hne].
  2:{ eapply wp_quiet; [by apply quiet_fetch_other|exact HI|].
      intros [[ret h] data] s' _ HI'. split; [done|]. by split; intros ->. }
  pose proof HI as [Hgood Hb]. pose proof Hgood as (Hv & Hn & Hdb & Hp).
  unfold db_fetch, wp, the_db, find_ctdb_db, gets, mbind, M_bind, mret, M_ret.
  destruct (find_db D (cx_db_list s)) as [db|] eqn:E; [|by eapply Inv_aborted].
  destruct (ctdb_ltdb_fetch _ _ _ _) as [[[ret h] data] db'] eqn:Ef.
  apply (fetch_good _ vm) in Ef as (Hg & Hid & Hok & Hro & Hu8 & -> & Hd & Hdat & V1 & V2);
    [|by rewrite <- Hv|done|by apply Hdb].
  rewrite (find_db_id _ _ _ E) in Hid.
  assert (own (set_cx_db_list s (put_db db' (cx_db_list s))) = own s) as Hown.
  { rewrite (own_put _ _ db) by done. rewrite V1, V2. unfold own. by rewrite E. }
  split; [|split; [|done]].
  - split; [by apply (good_put _ _ db)|]. by rewrite Hown.
  - intros _. split_and!; [done..|]. intros ->. simpl. rewrite Hown. unfold own.
    by rewrite E, Hd, Hdat.
Qed.

(** The postcondition of a store on [D]. *)
Definition stored key h data X s (ret : Z) (h' : ctdb_ltdb_header) s' : Prop :=
  Rest X s' ∧ flight s' = flight s ∧ header_ok h' ∧ rofree h' ∧ dmaster h' = dmaster h
  ∧ (key ≠ K → own s' = own s)
  ∧ (key = K → ret = 0 → own s' = if dmaster h =? n then [val data] else [])
  ∧ (key = K → ret ≠ 0 →
       own s' = own s ∨ own s' = [] ∨ own s' = [val []] ∧ store_may_fail T).

Lemma wp_db_store X key h data s :
  Rest X s → header_ok h → rofree h → Forall is_u8 data →
  wp (db_store D key h data) (λ '(ret, h') s', stored key h data X s ret h' s') s.
Proof.
  intros HI Hok Hro Hu8. pose proof HI as [Hgood Hb]. pose proof Hgood as (Hv & Hn & Hdb & Hp).
  unfold db_store, wp, the_db, find_ctdb_db, gets, mbind, M_bind, mret, M_ret.
  destruct (find_db D (cx_db_list s)) as [db|] eqn:E; [|by eapply Rest_aborted].
  destruct (ctdb_ltdb_store _ _ _ _ _) as [[ret h'] db'] eqn:Es.
  apply (store_good _ vm) in Es as (Hg & Hid & Hok' & Hro' & Hd & Hz & Hnz & Ho);
    [|by rewrite <- Hv|by apply Hdb|done..].
  rewrite (find_db_id _ _ _ E) in Hid. simpl in Hz. rewrite Hn in Hz.
  assert (own s = if view_dmaster vm db K =? n then [val (view_data db K)] else []) as Hown.
  { unfold own. by rewrite E. }
  pose proof (own_put _ db' db E Hid) as Hown'.
  unfold stored. split_and!; try done.
  - split; [by apply (good_put _ _ db)|done].
  - intros Hk. simpl. rewrite Hown, Hown'.
    by rewrite (view_dmaster_eq vm db db'), (view_data_eq db db') by by apply Ho.
  - intros -> Hr. simpl. rewrite Hown'. destruct (Hz Hr) as [Hz1 ->].
    destruct (Z.eqb_spec (view_dmaster vm db' K) n), (Z.eqb_spec (dmaster h) n); tauto.
  - intros -> Hr. simpl. rewrite Hown, Hown'. destruct (Hnz Hr) as [Hf|[Hf Hfail]].
    + left. by rewrite (view_dmaster_eq vm db db'), (view_data_eq db db').
    + right. apply (view_empty vm) in Hf as (-> & -> & _). case_goal; auto.
Qed.

Hypothesis Hpnns : Forall is_pnn (vm_map vm).
Hypothesis Hn : is_pnn n.
(** If stores may fail, the values are not told apart. *)
Hypothesis Hval : store_may_fail T → ∀ d d', val d = val d'.

Lemma lmaster_is_pnn key : is_pnn (ctdb_lmaster vm key).
Proof.
  unfold ctdb_lmaster. destruct (nth_in_or_default
    (Z.to_nat (ctdb_hash key mod vm_size vm)) (vm_map vm) 0) as [Hin| ->].
  - eapply Forall_forall in Hpnns; [exact Hpnns|by apply list_elem_of_In].
  - unfold is_pnn, CTDB_CURRENT_NODE. lia.
Qed.

Lemma is_pnn_u32 z : is_pnn z → is_u32 z.
Proof. unfold is_pnn, is_u32, CTDB_CURRENT_NODE. lia. Qed.

(** *** The packets that carry the role *)

Lemma tok_reply_dmaster hdr r key data fl :
  tok (CTDB_REPLY_DMASTER (mk_reply_dmaster hdr D r (length key) (length data)
         (dmaster_blob key data fl)))
  = if decide (key = K) then [val data] else [].
Proof.
  unfold tok, tokens. simpl. rewrite Z.eqb_refl, blob_key_app, blob_data_app. simpl.
  by case_bool_decide; destruct (decide _).
Qed.

Lemma tok_req_dmaster hdr r dm key data fl :
  tok (CTDB_REQ_DMASTER (mk_req_dmaster hdr D r dm (length key) (length data)
         (dmaster_blob key data fl)))
  = if decide (key = K) then [val data] else [].
Proof.
  unfold tok, tokens. simpl. rewrite Z.eqb_refl, blob_key_app, blob_data_app. simpl.
  by case_bool_decide; destruct (decide _).
Qed.

Lemma good_reply_dmaster hdr r key data fl :
  is_u64 r → Forall is_u8 data → flags_good fl →
  offsetof_reply_dmaster_data + dsize key + dsize data + 4 <= hdr_length hdr →
  packet_good D (CTDB_REPLY_DMASTER (mk_reply_dmaster hdr D r (length key) (length data)
    (dmaster_blob key data fl))).
Proof.
  intros Hr Hd [Hf1 Hf2] Hl _. simpl. rewrite blob_data_app.
  split_and!; [done..|]. by rewrite blob_flags_app.
Qed.

Lemma good_req_dmaster hdr r dm key data fl :
  is_u64 r → is_pnn dm → Forall is_u8 data → flags_good fl →
  offsetof_req_dmaster_data + dsize key + dsize data + 4 <= hdr_length hdr →
  packet_good D (CTDB_REQ_DMASTER (mk_req_dmaster hdr D r dm (length key) (length data)
    (dmaster_blob key data fl))).
Proof.
  intros Hr Hdm Hd [Hf1 Hf2] Hl _. simpl. rewrite blob_data_app.
  split_and!; [done..|]. by rewrite blob_flags_app.
Qed.

Lemma header_flags_good h : header_ok h → rofree h → flags_good (flags h).
Proof. intros (_ & _ & _ & ?) ?. done. Qed.

(** *** Handlers *)

Ltac wp_case :=
  match goal with
  | |- wp (if ?b then _ else _) _ _ => destruct b eqn:?
  | |- wp (match ?x with _ => _ end) _ _ => destruct x eqn:?
  end.

Lemma wp_allocate X len slen (Q : ctdb_req_header → ctdb_context T → Prop) s :
  Rest X s → (∀ h, len <= hdr_length h → Q h s) → wp (ctdb_transport_allocate len slen) Q s.
Proof.
  intros HR HQ. unfold ctdb_transport_allocate, wp, gets, mbind, M_bind.
  destruct (cx_methods s); simpl; [|by eapply Rest_aborted]. apply HQ. simpl. lia.
Qed.

Lemma wp_the_db X id (Q : ctdb_db_context T → ctdb_context T → Prop) s :
  Rest X s → (∀ db, find_db id (cx_db_list s) = Some db → db_id db = id → Q db s) →
  wp (the_db id) Q s.
Proof.
  intros HR HQ. unfold the_db, wp, find_ctdb_db, gets, mbind, M_bind, mret, M_ret.
  destruct (find_db id (cx_db_list s)) eqn:E; [|by eapply Rest_aborted].
  apply HQ; [done|by eapply find_db_id].
Qed.

Lemma set_dmaster_ok h d : header_ok h → is_pnn d → header_ok (set_dmaster h d).
Proof. intros (? & ? & ? & ?) ?%is_pnn_u32. done. Qed.

Lemma Inv_of_own X s o :
  Rest X s → own s = o → o ++ flight s ++ X ⊆+ B → Inv X s.
Proof. intros [Hg _] Ho Hb. split; [done|]. by rewrite Ho. Qed.

(** Handing the role on: the record is rewritten first, then the packet that
    carries the role is sent. *)
Lemma wp_send_dmaster_reply X h key data new reqid s :
  Inv X s → header_ok h → rofree h → Forall is_u8 data → is_pnn new → new ≠ n →
  (key = K → [val data] ++ flight s ++ X ⊆+ B) →
  wp (ctdb_send_dmaster_reply ev D h key data new reqid) (λ _, Inv X) s.
Proof.
  intros HI Hok Hro Hu8 Hnew Hne HK. unfold ctdb_send_dmaster_reply.
  apply wp_bind, wp_gets. wp_case; [done|].
  apply wp_bind. eapply wp_mono.
  { apply (wp_db_store X); [by apply Inv_rest|by apply set_dmaster_ok|done|done]. }
  intros [ret h'] s' (HR & Hf & Hok' & Hro' & Hd & Ho1 & Ho2 & _).
  wp_case; [by eapply wp_fatal|]. zbool. subst ret.
  apply wp_bind, wp_gets. wp_case; [by eapply wp_fatal|].
  apply wp_bind. eapply wp_allocate; [done|]. intros hdr Hl.
  apply wp_bind. eapply wp_the_db; [done|]. intros db _ ->.
  apply wp_send; [done| |].
  - rewrite tok_reply_dmaster. split; [apply HR|]. rewrite Hf.
    destruct (decide (key = K)) as [->|Hk].
    + rewrite Ho2 by done. simpl. rewrite (proj2 (Z.eqb_neq new n)) by done.
      etrans; [|by apply HK]. apply Permutation_submseteq. solve_Permutation.
    + rewrite Ho1 by done. apply HI.
  - apply good_reply_dmaster; [apply Hok'|done|by apply header_flags_good|done].
Qed.

Lemma migrated_ok h data :
  header_ok h → rofree h →
  let h' := if negb (dsize data =? 0)
            then set_flags h (flags h |+ CTDB_REC_FLAG_MIGRATED_WITH_DATA) else h in
  header_ok h' ∧ rofree h' ∧ dmaster h' = dmaster h.
Proof.
  intros Hok Hro h'. subst h'. case_goal; [|done]. split_and!; [|unfold rofree|done].
  - destruct Hok as (? & ? & ? & ?). split_and!; try done. simpl.
    apply (lor_range 32); [lia|done|]. unfold CTDB_REC_FLAG_MIGRATED_WITH_DATA. lia.
  - simpl. rewrite has_flag_lor. by rewrite Hro.
Qed.

Lemma wp_call_send_dmaster X c h key data s :
  Inv X s → fetched D key h data s → dmaster h = n → rc_db_id c = D →
  is_pnn (hdr_srcnode (rc_hdr c)) → hdr_srcnode (rc_hdr c) ≠ n →
  wp (ctdb_call_send_dmaster ev D c h key data) (λ _, Inv X) s.
Proof.
  intros HI Hfe Hd Hc Hsrc Hne. destruct (Hfe eq_refl) as (Hok & Hro & Hu8 & Hown).
  pose proof HI as [(Hv & Hnn & _) Hb].
  assert (key = K → [val data] ++ flight s ++ X ⊆+ B) as HK.
  { intros Hk. specialize (Hown Hk). rewrite Hd, Z.eqb_refl in Hown. by rewrite Hown in Hb. }
  unfold ctdb_call_send_dmaster. apply wp_bind, wp_gets.
  wp_case; [by eapply wp_fatal, Inv_rest|].
  destruct (migrated_ok h data Hok Hro) as (Hok1 & Hro1 & Hd1).
  set (h1 := if negb _ then _ else _) in *. cbv zeta. clearbody h1.
  wp_case; [by apply wp_send_dmaster_reply|].
  apply wp_bind. eapply wp_allocate; [by apply Inv_rest|]. intros hdr Hl.
  apply wp_bind. eapply wp_mono.
  { apply (wp_db_store X); [by apply Inv_rest|by apply set_dmaster_ok|done|done]. }
  intros [ret h'] s' (HR & Hf & Hok' & Hro' & Hd' & Ho1 & Ho2 & _).
  wp_case; [by eapply wp_fatal|]. zbool. subst ret. rewrite Hc.
  apply wp_send; [rewrite Hv; apply lmaster_is_pnn| |].
  - rewrite tok_req_dmaster. split; [apply HR|]. rewrite Hf.
    destruct (decide (key = K)) as [->|Hk].
    + rewrite Ho2 by done. simpl. rewrite (proj2 (Z.eqb_neq _ n)) by done.
      etrans; [|by apply HK]. apply Permutation_submseteq. solve_Permutation.
    + rewrite Ho1 by done. apply HI.
  - apply good_req_dmaster; [apply Hok1|done|done|by apply header_flags_good|done].
Qed.

(** Running a call at the dmaster rewrites the record unchanged. *)
Lemma wp_call_local X call h data s :
  Inv X s → fetched D (cl_key call) h data s → dmaster h = n →
  wp (ctdb_call_local D call h data true)
     (λ '(_, call', _) s', Inv X s' ∧ cl_key call' = cl_key call) s.
Proof.
  intros HI Hfe Hd. destruct (Hfe eq_refl) as (Hok & Hro & Hu8 & Hown).
  pose proof HI as [(_ & _ & Hdb & _) Hb].
  unfold ctdb_call_local. apply wp_bind. eapply wp_the_db; [by apply Inv_rest|].
  intros db Edb _. specialize (Hdb _ Edb) as Hg.
  wp_case; [|done]. destruct p as [i [id fn]]. 
  apply list_find_Some in Heqo as (Hi & _ & _). apply list_elem_of_lookup_2 in Hi.
  pose proof (dg_calls _ Hg) as Hc. eapply Forall_forall in Hc; [|exact Hi]. simpl in Hc.
  destruct (Hc (mk_call_info (cl_key call) h data None (cl_call_data call) None 0))
    as (Hc1 & Hc2 & Hc3).
  destruct (fn _) as [r ci]. simpl in Hc1, Hc2, Hc3.
  wp_case; [done|]. rewrite Hc1, Hc2, Hc3. simpl.
  apply wp_bind. eapply wp_mono.
  { by apply (wp_db_store X); [apply Inv_rest|..]. }
  intros [ret h'] s' (HR & Hf & Hok' & Hro' & Hd' & Ho1 & Ho2 & Ho3).
  assert (Inv X s') as HI'.
  { split; [apply HR|]. rewrite Hf. destruct (decide (cl_key call = K)) as [Hk|Hk];
      [|by rewrite Ho1 by done]. specialize (Hown Hk). rewrite Hd, Z.eqb_refl in *.
    rewrite Hown in *. destruct (decide (ret = 0)) as [Hr|Hr]; [by rewrite Ho2|].
    destruct (Ho3 Hk Hr) as [-> | [-> | [-> Hfail]]]; [done| |by rewrite (Hval Hfail [] data)].
    etrans; [|exact Hb]. by apply submseteq_cons. }
  wp_case; done.
Qed.

(** *** The same on another database *)

Ltac mild_step :=
  match goal with
  | |- mild (mfor _ _) => apply mild_mfor; intros ?
  | |- mild _ => solve [apply mild_quiet; auto with quiet]
  | |- mild _ => solve [auto with mild]
  | |- mild (_ ≫= _) => apply mild_bind; [|intros ?]
  | |- mild (if ?b then _ else _) => destruct b eqn:?
  | |- mild (match ?x with _ => _ end) => destruct x eqn:?
  end.
Ltac solve_mild := repeat mild_step.

Lemma quiet_track id key pnn : quiet (track_delegation id key pnn).
Proof. unfold track_delegation. solve_quiet. Qed.
Hint Resolve quiet_track : quiet.

Lemma tok_req_call c : tok (CTDB_REQ_CALL c) = [].
Proof. done. Qed.
Lemma tok_reply_call c : tok (CTDB_REPLY_CALL c) = [].
Proof. done. Qed.
Lemma good_req_call c : packet_good D (CTDB_REQ_CALL c).
Proof. done. Qed.
Lemma good_reply_call c : packet_good D (CTDB_REPLY_CALL c).
Proof. done. Qed.
Hint Resolve tok_req_call tok_reply_call good_req_call good_reply_call : mild.

Lemma mild_send_error hdr st msg : mild (ctdb_send_error ev hdr st msg).
Proof. unfold ctdb_send_error. solve_mild. by apply mild_send. Qed.

Lemma mild_redirect key c h : mild (ctdb_call_send_redirect ev key c h).
Proof. unfold ctdb_call_send_redirect. mild_step; [mild_step|]. by apply mild_send. Qed.

Lemma mild_lock_requeue id key p ig :
  tok p = [] → packet_good D p → mild (ctdb_ltdb_lock_requeue ev id key p ig).
Proof.
  intros Ht Hp X s HI. eapply wp_mono; [apply (wp_lock_requeue X); [by rewrite Ht|done]|].
  intros ret s' [[_ HI']|[_ HI']]; [by rewrite Ht in HI'|done].
Qed.
Hint Resolve mild_send_error mild_redirect mild_lock_requeue mild_send : mild.

Lemma mild_send_dmaster_reply id h key data new reqid :
  id ≠ D → mild (ctdb_send_dmaster_reply ev id h key data new reqid).
Proof.
  intros Hne. unfold ctdb_send_dmaster_reply.
  do 3 (mild_step; [mild_step|]). destruct a0 as [ret h'].
  do 4 (mild_step; [mild_step|]).
  intros X s HI. apply wp_bind. eapply wp_the_db; [by apply Inv_rest|]. intros db _ ->.
  apply mild_send; [|by intros Heq|done].
  unfold tok, tokens. simpl. by rewrite (proj2 (Z.eqb_neq id D)).
Qed.

Lemma tok_req_dmaster_other hdr id r dm kl dl data :
  id ≠ D → tok (CTDB_REQ_DMASTER (mk_req_dmaster hdr id r dm kl dl data)) = [].
Proof. intros Hne. unfold tok, tokens. simpl. by rewrite (proj2 (Z.eqb_neq id D)). Qed.

Lemma mild_call_send_dmaster id c h key data :
  id ≠ D → rc_db_id c = id → mild (ctdb_call_send_dmaster ev id c h key data).
Proof.
  intros Hne Hc. unfold ctdb_call_send_dmaster. mild_step; [mild_step|].
  do 2 (mild_step; [first [mild_step|by apply mild_send_dmaster_reply]|]).
  solve_mild. apply mild_send; [rewrite Hc; by apply tok_req_dmaster_other|].
  intros Heq. simpl in Heq. congruence.
Qed.

Lemma mild_call_local id call h data up : id ≠ D → mild (ctdb_call_local id call h data up).
Proof.
  intros Hne. unfold ctdb_call_local. solve_mild.
Qed.
Hint Resolve mild_send_dmaster_reply mild_call_send_dmaster mild_call_local : mild.

Lemma mild_become_dmaster id hdr key data r fl :
  id ≠ D → mild (ctdb_become_dmaster id hdr key data r fl).
Proof. intros Hne. unfold ctdb_become_dmaster. solve_mild. Qed.
Hint Resolve mild_become_dmaster : mild.

(** *** Becoming dmaster and the requests *)

Lemma header_new_ok r fl : is_u64 r → is_u32 fl → header_ok (mk_header r n 0 fl).
Proof. intros ? ?. split_and!; simpl; [done|by apply is_pnn_u32|unfold is_u32; lia|done]. Qed.

Lemma vacuum_ok h :
  header_ok h → rofree h →
  header_ok (set_flags h (flags h |+ CTDB_REC_FLAG_VACUUM_MIGRATED))
  ∧ rofree (set_flags h (flags h |+ CTDB_REC_FLAG_VACUUM_MIGRATED)).
Proof.
  intros Hok Hro. split; [|unfold rofree].
  - destruct Hok as (? & ? & ? & ?). split_and!; try done. simpl.
    apply (lor_range 32); [lia|done|]. unfold CTDB_REC_FLAG_VACUUM_MIGRATED. lia.
  - simpl. rewrite has_flag_lor. by rewrite Hro.
Qed.

(** The role arrives: it is in the hands of the handler. *)
Lemma wp_become_dmaster X hdr key data r fl s :
  Inv ((if decide (key = K) then [val data] else []) ++ X) s →
  is_u64 r → flags_good fl → Forall is_u8 data →
  wp (ctdb_become_dmaster D hdr key data r fl) (λ _, Inv X) s.
Proof.
  intros HI Hr [Hfl Hfro] Hu8. unfold ctdb_become_dmaster. apply wp_bind, wp_gets.
  assert (cx_pnn s = n) as -> by apply HI.
  apply wp_bind, wp_gets. set (state := match _ with Some _ => _ | None => _ end).
  set (h := match state with Some _ => _ | None => _ end).
  assert (header_ok h ∧ rofree h ∧ dmaster h = n) as (Hok & Hro & Hd).
  { assert (header_ok (mk_header r n 0 fl)) by by apply header_new_ok.
    assert (rofree (mk_header r n 0 fl)) by done.
    subst h. destruct state; [|done]. case_goal; [|done].
    by destruct (vacuum_ok (mk_header r n 0 fl)). }
  clearbody h. apply wp_bind. eapply wp_mono.
  { apply (wp_db_store X); [by eapply Rest_drop, Inv_rest|done..]. }
  intros [ret h'] s' (HR & Hf & Hok' & Hro' & Hd' & Ho1 & Ho2 & _).
  wp_case; [by eapply wp_fatal|]. zbool. subst ret.
  assert (Inv X s' ∧ fetched D key h' data s') as [HI' Hfe].
  { destruct HI as [_ Hb]. split.
    - split; [apply HR|]. rewrite Hf. destruct (decide (key = K)) as [Hk|Hk].
      + rewrite Ho2, Hd, Z.eqb_refl by done. etrans; [|exact Hb].
        etrans; [|by apply submseteq_inserts_l].
        apply Permutation_submseteq. solve_Permutation.
      + by rewrite Ho1 by done.
    - intros _. split_and!; [done..|]. intros Hk. rewrite Hd'. by apply Ho2. }
  apply wp_bind. eapply wp_the_db; [done|]. intros db _ _.
  apply wp_bind. eapply wp_quiet; [|exact HI'|].
  { destruct (db_sticky db); auto with quiet. solve_quiet. }
  intros _ s2 Hfr HI2. apply (fetched_frame _ _ _ _ _ _ Hfr) in Hfe.
  wp_case; [|by apply wp_mild; [apply mild_quiet; solve_quiet|]].
  wp_case; [by apply wp_mild; [apply mild_quiet; solve_quiet|]|].
  wp_case; [by apply wp_mild; [apply mild_quiet; solve_quiet|]|]. zbool.
  subst key.
  apply wp_bind. eapply wp_mono; [apply (wp_call_local X); [done..|by rewrite Hd']|].
  intros [[r1 call] h1] s3 [HI3 Hk]. by apply wp_mild; [apply mild_quiet; solve_quiet|].
Qed.

Lemma wp_lock_fetch X key p ig s :
  Inv (tok p ++ X) s → packet_good D p →
  wp (ctdb_ltdb_lock_fetch_requeue ev D key p ig)
     (λ '(ret, h, data) s',
        ret = -2 ∧ Inv X s' ∨ ret = -1 ∧ Inv (tok p ++ X) s'
        ∨ ret = 0 ∧ Inv (tok p ++ X) s' ∧ fetched D key h data s') s.
Proof.
  intros HI Hp. unfold ctdb_ltdb_lock_fetch_requeue. apply wp_bind.
  eapply wp_mono; [by apply wp_lock_requeue|].
  intros ret s1 [[[-> | ->] HI1]|[-> HI1]]; simpl; [|by right; left|by left].
  apply wp_bind. eapply wp_mono; [by apply wp_db_fetch|].
  intros [[ret h] data] s2 (HI2 & Hfe & Hr). rewrite (Hr eq_refl). simpl. by right; right.
Qed.

Lemma mild_lock_fetch id key p ig :
  id ≠ D → tok p = [] → packet_good D p →
  mild (ctdb_ltdb_lock_fetch_requeue ev id key p ig).
Proof. intros. unfold ctdb_ltdb_lock_fetch_requeue. solve_mild. Qed.
Hint Resolve mild_lock_fetch : mild.

Lemma tok_req_dmaster_eq c :
  rd_db_id c = D →
  tok (CTDB_REQ_DMASTER c)
  = if decide (blob_key (rd_keylen c) (rd_data c) = K)
    then [val (blob_data (rd_keylen c) (rd_datalen c) (rd_data c))] else [].
Proof.
  intros Hd. unfold tok, tokens. simpl. rewrite Hd, Z.eqb_refl. simpl.
  by case_bool_decide; destruct (decide _).
Qed.

Lemma tok_reply_dmaster_eq c :
  ry_db_id c = D →
  tok (CTDB_REPLY_DMASTER c)
  = if decide (blob_key (ry_keylen c) (ry_data c) = K)
    then [val (blob_data (ry_keylen c) (ry_datalen c) (ry_data c))] else [].
Proof.
  intros Hd. unfold tok, tokens. simpl. rewrite Hd, Z.eqb_refl. simpl.
  by case_bool_decide; destruct (decide _).
Qed.

Lemma wp_find_db id (Q : option (ctdb_db_context T) → ctdb_context T → Prop) s :
  Q None s → (∀ db, db_id db = id → Q (Some db) s) → wp (find_ctdb_db id) Q s.
Proof.
  intros H1 H2. unfold wp, find_ctdb_db, gets.
  destruct (find_db id (cx_db_list s)) eqn:E; [|done]. apply H2. by eapply find_db_id.
Qed.

Lemma wp_request_dmaster c s :
  Inv (tok (CTDB_REQ_DMASTER c)) s → packet_good D (CTDB_REQ_DMASTER c) →
  wp (ctdb_request_dmaster ev c) (λ _, Inv []) s.
Proof.
  intros HI Hp. rewrite <- (app_nil_r (tok _)) in HI.
  unfold ctdb_request_dmaster. apply wp_bind. apply wp_find_db.
  { apply mild_send_error. by apply Inv_drop in HI. }
  intros db ->. destruct (decide (rd_db_id c = D)) as [Hid|Hid].
  2:{ assert (tok (CTDB_REQ_DMASTER c) = []) as Ht.
      { destruct c. by apply tok_req_dmaster_other. }
      rewrite Ht in HI. apply wp_mild; [|done]. solve_mild. }
  rewrite Hid. destruct (Hp Hid) as (Hr & Hdm & Hu8 & Hfl).
  rewrite (tok_req_dmaster_eq _ Hid) in *.
  set (key := blob_key _ _) in *. set (data := blob_data _ _ _) in *.
  apply wp_bind. eapply wp_mono; [apply wp_lock_fetch; [|exact Hp]|].
  { rewrite (tok_req_dmaster_eq _ Hid). exact HI. }
  intros [[ret h] data2] s1 Hpost. rewrite (tok_req_dmaster_eq _ Hid) in Hpost.
  fold key data in Hpost.
  destruct Hpost as [[-> HI1]|[[-> HI1]|(-> & HI1 & Hfe)]]; cbn [Z.eqb]; simpl.
  { done. }
  { by eapply wp_fatal, Inv_rest. }
  apply wp_bind, wp_gets. wp_case; [by eapply wp_fatal, Inv_rest|].
  wp_case.
  { apply wp_mild; [apply mild_quiet; solve_quiet|]. by apply Inv_drop in HI1. }
  wp_case; [by apply wp_become_dmaster|]. zbool.
  destruct (Hfe eq_refl) as (Hok & Hro & _).
  apply wp_bind. eapply wp_mono; [apply (wp_send_dmaster_reply []); try done|].
  - by apply Inv_drop in HI1.
  - destruct Hok as (? & ? & ? & ?), Hfl. done.
  - by destruct Hfl.
  - destruct HI1 as [(_ & <- & _) _]. done.
  - intros Hk. destruct HI1 as [_ Hb]. rewrite Hk in Hb. rewrite decide_True in Hb by done.
    etrans; [|exact Hb]. etrans; [|by apply submseteq_inserts_l].
    apply Permutation_submseteq. solve_Permutation.
  - intros ? s2 HI2. by apply wp_mild; [apply mild_quiet; solve_quiet|].
Qed.

(** *** Calls *)

Lemma mild_send_reply_call c : mild (ctdb_queue_packet ev (CTDB_REPLY_CALL c)).
Proof. by apply mild_send. Qed.
Lemma mild_send_req_call c : mild (ctdb_queue_packet ev (CTDB_REQ_CALL c)).
Proof. by apply mild_send. Qed.
Lemma mild_send_alive h : mild (ctdb_queue_packet ev (CTDB_REQ_KEEPALIVE h)).
Proof. by apply mild_send. Qed.
Hint Resolve mild_send_reply_call mild_send_req_call mild_send_alive : mild.

Lemma mild_clear_revoke id key h data : id ≠ D → mild (clear_revoke_complete id key h data).
Proof. intros Hne. unfold clear_revoke_complete. solve_mild. Qed.
Lemma mild_start_revoke id key c h data : id ≠ D → mild (start_revoke ev id key c h data).
Proof. intros Hne. unfold start_revoke. solve_mild. Qed.
Lemma mild_first_delegation id key c h data : id ≠ D → mild (first_delegation id key c h data).
Proof. intros Hne. unfold first_delegation. solve_mild. Qed.
Lemma mild_delegate id key c h data : mild (delegate ev id key c h data).
Proof. unfold delegate. solve_mild. Qed.
Lemma mild_answer_local id call hdr h data : id ≠ D → mild (answer_local ev id call hdr h data).
Proof. intros Hne. unfold answer_local. solve_mild. Qed.
Hint Resolve mild_clear_revoke mild_start_revoke mild_first_delegation mild_delegate
  mild_answer_local : mild.

Lemma mild_request_call_locked id key c h data :
  id ≠ D → rc_db_id c = id → mild (request_call_locked ev id key c h data).
Proof.
  intros Hne Hc. unfold request_call_locked. do 2 (mild_step; [mild_step|]).
  set (c' := if (rc_flags c &? _) && _ then _ else _).
  assert (rc_db_id c' = id) by (subst c'; by case_goal). clearbody c'.
  solve_mild.
Qed.
Hint Resolve mild_request_call_locked : mild.

Lemma wp_answer_local X call hdr h data s :
  Inv X s → fetched D (cl_key call) h data s → dmaster h = n →
  wp (answer_local ev D call hdr h data) (λ _, Inv X) s.
Proof.
  intros HI Hfe Hd. unfold answer_local. apply wp_bind.
  eapply wp_mono; [by apply (wp_call_local X)|]. intros [[ret call'] h'] s' [HI' _].
  apply wp_mild; [|done]. solve_mild.
Qed.

Lemma wp_request_call_locked X key c h data s :
  Inv X s → fetched D key h data s → rc_db_id c = D → is_pnn (hdr_srcnode (rc_hdr c)) →
  wp (request_call_locked ev D key c h data) (λ _, Inv X) s.
Proof.
  intros HI Hfe Hc Hsrc. destruct (Hfe eq_refl) as (Hok & Hro & Hu8 & Hown).
  unfold request_call_locked. apply wp_bind. eapply wp_the_db; [by apply Inv_rest|].
  intros db Edb _. apply wp_bind, wp_gets.
  assert (cx_pnn s = n) as -> by apply HI.
  assert (db_readonly db = false) as -> by (apply dg_readonly, HI; done).
  set (c' := if (rc_flags c &? _) && _ then _ else _).
  assert (rc_hdr c' = rc_hdr c ∧ rc_db_id c' = D ∧ (rc_flags c' &? CTDB_WANT_READONLY) = false)
    as (Ehdr & Eid & Ero).
  { subst c'. destruct (rc_flags c &? CTDB_WANT_READONLY) eqn:E; simpl; [|done].
    split_and!; try done. apply has_flag_ldiff_self. }
  clearbody c'. unfold clear_revoke_complete, first_delegation. rewrite Ero.
  rewrite (rofree_part h CTDB_REC_RO_REVOKE_COMPLETE) by done.
  apply wp_bind, wp_ret. rewrite !(rofree_part h) by done. simpl. rewrite andb_true_r.
  wp_case; [apply wp_mild; [solve_mild|done]|]. zbool.
  apply wp_bind, wp_ret. apply wp_bind. eapply wp_quiet; [apply quiet_call_statistics|exact HI|].
  intros _ s1 Hfr HI1. apply (fetched_frame _ _ _ _ _ _ Hfr) in Hfe. rewrite Ehdr.
  wp_case; zbool.
  - apply wp_bind. eapply wp_the_db; [by apply Inv_rest|]. intros db1 _ _.
    wp_case; [done|]. apply wp_bind.
    eapply wp_mono; [apply (wp_call_send_dmaster X); first [done|by rewrite Ehdr]|].
    intros ? s2 HI2. apply wp_mild; [solve_mild|done].
  - by apply wp_answer_local.
Qed.

Lemma mild_request_call c :
  is_pnn (hdr_srcnode (rc_hdr c)) → mild (ctdb_request_call ev c).
Proof.
  intros Hsrc X s HI. unfold ctdb_request_call. apply wp_bind, wp_gets.
  wp_case; [done|]. apply wp_bind, wp_find_db; [by apply mild_send_error|].
  intros db ->. apply wp_bind. eapply wp_quiet; [|exact HI|].
  { destruct (db_sticky db); solve_quiet. }
  intros pinned s1 _ HI1. wp_case; [done|].
  destruct (decide (rc_db_id c = D)) as [Hid|Hid].
  2:{ apply wp_mild; [|done]. solve_mild. }
  rewrite Hid. apply wp_bind.
  eapply wp_mono; [by apply (wp_lock_fetch X)|]. intros [[ret h] data] s2.
  intros [[-> HI2]|[[-> HI2]|(-> & HI2 & Hfe)]]; simpl.
  - done.
  - by apply mild_send_error.
  - by apply wp_request_call_locked.
Qed.
Hint Resolve mild_request_call : mild.

(** *** Replies and the rest *)

Lemma wp_reply_dmaster c s :
  Inv (tok (CTDB_REPLY_DMASTER c)) s → packet_good D (CTDB_REPLY_DMASTER c) →
  wp (ctdb_reply_dmaster ev c) (λ _, Inv []) s.
Proof.
  intros HI Hp. rewrite <- (app_nil_r (tok _)) in HI.
  unfold ctdb_reply_dmaster. apply wp_bind. apply wp_find_db; [by apply Inv_drop in HI|].
  intros db ->. destruct (decide (ry_db_id c = D)) as [Hid|Hid].
  2:{ assert (tok (CTDB_REPLY_DMASTER c) = []) as Ht.
      { destruct c. unfold tok, tokens. simpl. by rewrite (proj2 (Z.eqb_neq _ D)). }
      rewrite Ht in HI. apply wp_mild; [|done]. solve_mild. }
  rewrite Hid. destruct (Hp Hid) as (Hr & Hu8 & Hfl).
  apply wp_bind. eapply wp_mono; [by apply (wp_lock_requeue [])|].
  intros ret s1 [[[-> | ->] HI1]|[-> HI1]]; simpl; [|by apply Inv_drop in HI1|done].
  rewrite (tok_reply_dmaster_eq _ Hid) in HI1. by apply wp_become_dmaster.
Qed.

(** A reply that carries a read-only copy of a record of database [D]. *)
Definition ro_reply s (p : packet) : bool :=
  match p with
  | CTDB_REPLY_CALL c =>
      match cx_idr s !! (hdr_reqid (rp_hdr c) mod 2 ^ 31) with
      | Some (IdrCall cs) =>
          (cs_db_id cs =? D) && (rc_callid (cs_c cs) =? CTDB_FETCH_WITH_HEADER_FUNC)
          && (flags (header_of_bytes (rp_data c)) &? CTDB_REC_RO_HAVE_READONLY)
      | _ => false
      end
  | _ => false
  end.

Lemma wp_reply_call X c s :
  Inv X s → ro_reply s (CTDB_REPLY_CALL c) = false →
  wp (ctdb_reply_call ev c) (λ _, Inv X) s.
Proof.
  intros HI Hro. unfold ctdb_reply_call. apply wp_bind, wp_gets. unfold ro_reply in Hro.
  destruct (cx_idr s !! _) as [[cs|]|] eqn:E; try done.
  wp_case; [done|]. apply wp_mild; [|done].
  apply mild_bind; [|intros ?; solve_mild]. unfold reply_call_ro.
  destruct (Z.eqb_spec (cs_db_id cs) D) as [Hid|Hid]; cbn [andb] in Hro.
  - destruct (rc_callid (cs_c cs) =? CTDB_FETCH_WITH_HEADER_FUNC); [|solve_mild].
    cbn [andb] in Hro. rewrite Hro. solve_mild.
  - solve_mild.
Qed.

Lemma mild_reply_error c : mild (ctdb_reply_error c).
Proof. unfold ctdb_reply_error. solve_mild. Qed.

Lemma mild_send_remote id call h : mild (ctdb_daemon_call_send_remote ev id call h).
Proof. unfold ctdb_daemon_call_send_remote. solve_mild. Qed.

Lemma mild_resend r : mild (ctdb_call_resend ev r).
Proof. unfold ctdb_call_resend. solve_mild. Qed.
Hint Resolve mild_resend mild_reply_error mild_send_remote : mild.

Lemma mild_resend_all : mild (ctdb_call_resend_all ev).
Proof. unfold ctdb_call_resend_all. solve_mild. Qed.

Lemma mild_keepalive d : mild (ctdb_send_keepalive ev d).
Proof. unfold ctdb_send_keepalive. solve_mild. Qed.

Lemma quiet_node_dead pnn : quiet (ctdb_node_dead pnn).
Proof.
  unfold ctdb_node_dead. intros s. quiet_step. case_goal; [|apply quiet_ret].
  case_goal; [apply quiet_ret|]. apply framed_quiet; [by apply quiet_modify|].
  intros ? ?. apply quiet_upd_node.
Qed.

Lemma quiet_node_connected pnn : quiet (ctdb_node_connected pnn).
Proof.
  unfold ctdb_node_connected. intros s. quiet_step. case_goal; [|apply quiet_ret].
  case_goal; [apply quiet_ret|]. apply framed_quiet; [by apply quiet_modify|].
  intros ? ?. apply quiet_upd_node.
Qed.

(** *** Dispatch *)

Variables h_message h_control h_reply : packet → M T ().
Hypothesis Hothers : ∀ p, mild (h_message p) ∧ mild (h_control p) ∧ mild (h_reply p).

Lemma wp_input_pkt p s :
  Inv (tok p) s → packet_good D p → is_pnn (hdr_srcnode (packet_hdr p)) →
  ro_reply s p = false →
  wp (ctdb_input_pkt ev h_message h_control h_reply p) (λ _, Inv []) s.
Proof.
  intros HI Hp Hsrc Hro. assert (Inv [] s) as HI0.
  { rewrite <- (app_nil_r (tok p)) in HI. by apply Inv_drop in HI. }
  unfold ctdb_input_pkt. apply wp_bind, wp_gets. wp_case; [done|].
  assert (∀ k (m : M T ()), (∀ s', frame s s' → cx_idr s' = cx_idr s → Inv (tok p) s' →
    wp m (λ _, Inv []) s') → wp (CTDB_INCREMENT_STAT k ;; m) (λ _, Inv []) s) as Hstat.
  { intros k m Hm. unfold wp, mbind, M_bind. simpl. apply Hm; [done..|].
    by eapply frame_Inv; [|exact HI]. }
  destruct (Hothers p) as (Hm & Hc & Hr).
  destruct p; try (apply Hstat; intros s' Hf Hidr HI'); try done.
  - by apply mild_request_call.
  - apply wp_reply_call; [done|]. unfold ro_reply in *. by rewrite Hidr.
  - by apply wp_request_dmaster.
  - by apply wp_reply_dmaster.
  - by apply mild_reply_error.
  - by apply Hm.
  - by apply Hc.
  - by apply Hr.
Qed.

(** Nothing a node does on its own creates the role; receiving a packet adds
    at most the role that packet carries. *)
Lemma wp_recv_pkt p s :
  Inv (tok p) s → packet_good D p → is_pnn (hdr_srcnode (packet_hdr p)) →
  ro_reply s p = false →
  wp (ctdb_recv_pkt ev h_message h_control h_reply p) (λ _, Inv []) s.
Proof.
  intros HI Hp Hsrc Hro. unfold ctdb_recv_pkt. apply wp_bind. unfold wp at 1. simpl.
  set (s1 := set_cx_statistics_current _ _).
  assert (frame s s1 ∧ cx_idr s1 = cx_idr s) as [Hf1 Hi1] by done. clearbody s1.
  apply wp_bind, wp_gets, wp_bind.
  assert (∀ s2, frame s s2 → cx_idr s2 = cx_idr s →
    wp (ctdb_input_pkt ev h_message h_control h_reply p) (λ _, Inv []) s2) as Hin.
  { intros s2 Hf2 Hi2. apply wp_input_pkt; [by eapply frame_Inv|done|done|].
    unfold ro_reply in *. by rewrite Hi2. }
  wp_case; [|by apply Hin]. unfold wp at 1. simpl. apply Hin; [by etrans|done].
Qed.

Lemma wp_lock_callback lf s :
  Inv (tok (lf_hdr lf)) s → packet_good D (lf_hdr lf) →
  is_pnn (hdr_srcnode (packet_hdr (lf_hdr lf))) → ro_reply s (lf_hdr lf) = false →
  wp (lock_fetch_callback ev h_message h_control h_reply lf) (λ _, Inv []) s.
Proof.
  intros HI Hp Hsrc Hro. unfold lock_fetch_callback. apply wp_bind, wp_gets.
  wp_case; [|by apply wp_input_pkt].
  rewrite <- (app_nil_r (tok _)) in HI. by apply Inv_drop in HI.
Qed.

(** A call of a local client, at the dmaster and under the chainlock. *)
Lemma mild_call_here id call :
  mild ('(_, header, data) ← db_fetch id (cl_key call);
        pnn ← gets cx_pnn;
        if negb (dmaster header =? pnn) then mret ()
        else ctdb_call_local_send id call header data ;; mret ()).
Proof.
  intros X s HI. apply wp_bind. eapply wp_mono; [by apply (wp_db_fetch X)|].
  intros [[ret h] data] s1 (HI1 & Hfe & _). apply wp_bind, wp_gets.
  wp_case; [done|]. zbool. assert (cx_pnn s1 = n) as Hpn by apply HI1.
  destruct (decide (id = D)) as [->|Hid].
  - apply wp_bind. unfold ctdb_call_local_send. apply wp_bind.
    eapply wp_mono; [apply (wp_call_local X); [done|done|congruence]|].
    by intros [[r call'] h'] s2 [HI2 _].
  - apply wp_mild; [|done]. unfold ctdb_call_local_send. solve_mild.
Qed.

End owner.
