(* ===== verification/VacuumProps.v ===== *)
(** * Vacuuming and the data master role

    Whatever vacuuming does to a record under its chainlock, on the node that
    vacuums or through the controls on another one, leaves the role of data
    master and the data that goes with it where they are. *)
From S2P Require Import Prelude Protocol Queue Marshal Ltdb Node Call Owner Vacuum.

Section vacuum.
Context {T : Type} `{TdbLaws T}.
Implicit Types (db : ctdb_db_context T) (key data : bytes).

(** One record is processed on node [n].  A record that the store control
    brings names another node, its lmaster, as dmaster and is outside of the
    read-only protocol; the child process has the vnn map of the daemon. *)
Inductive vacuum_op (n : Z) (vm : ctdb_vnn_map) : ctdb_db_context T → ctdb_db_context T → Prop :=
  | vo_try_delete chain freelist key data db :
      vacuum_op n vm db (delete_tdb_record n vm chain freelist key data db).2
  | vo_receive chain key data db :
      Forall is_u8 data → dmaster (header_of_bytes data) ≠ n → rofree (header_of_bytes data) →
      vacuum_op n vm db (store_tdb_record n vm chain key data db).2
  | vo_first lc chain dd db vd records db' vd' records' :
      lc_pnn lc = n → lc_vnn_map lc = Some vm →
      delete_marshall_traverse_first lc vm chain dd db vd records = Some (db', vd', records') →
      vacuum_op n vm db db'
  | vo_queue chain dd db vd db' vd' :
      delete_queue_traverse n vm chain dd db vd = Some (db', vd') → vacuum_op n vm db db'
  | vo_last chain dd db vd : vacuum_op n vm db (delete_record_traverse n vm chain dd db vd).1.

(** The role and its data stay. *)
Definition keeps_role (n : Z) (vm : ctdb_vnn_map) db db' : Prop :=
  db_good db' ∧ db_id db' = db_id db
  ∧ ∀ k, (view_dmaster vm db' k = n ↔ view_dmaster vm db k = n)
         ∧ (view_dmaster vm db k = n → view_data db' k = view_data db k).

Lemma keeps_refl n vm db : db_good db → keeps_role n vm db db.
Proof. by intros. Qed.

(** Only one record changes. *)
Lemma keeps_one n vm db db' key :
  db_good db → db_id db' = db_id db →
  db_readonly db' = db_readonly db → db_server_store db' = db_server_store db →
  db_calls db' = db_calls db →
  (∀ k, k ≠ key → tdb_fetch (db_ltdb db') k = tdb_fetch (db_ltdb db) k) →
  Forall is_u8 (tdb_fetch (db_ltdb db') key) →
  ((sizeof_header <= length (tdb_fetch (db_ltdb db') key))%nat →
   rofree (header_of_bytes (tdb_fetch (db_ltdb db') key))) →
  (view_dmaster vm db' key = n ↔ view_dmaster vm db key = n) →
  (view_dmaster vm db key = n → view_data db' key = view_data db key) →
  keeps_role n vm db db'.
Proof.
  intros [H1 H2 H3 H4 H5] Hid Hro Hs Hc Hother Hu Hf Hd Hv. split_and!; [split|done|]; try congruence.
  - intros k. destruct (decide (k = key)) as [->|Hne]; [done|]. rewrite Hother by done. apply H1.
  - intros k. destruct (decide (k = key)) as [->|Hne]; [done|]. rewrite Hother by done. apply H5.
  - intros k. destruct (decide (k = key)) as [->|Hne]; [done|].
    by rewrite (view_dmaster_eq vm db db'), (view_data_eq db db') by by apply Hother.
Qed.

(** Deleting a record the node is dmaster of only as its lmaster with no data,
    or not at all. *)
Lemma keeps_delete n vm db key t ret :
  db_good db → tdb_delete (db_ltdb db) key = (t, ret) →
  (view_dmaster vm db key = n ↔ ctdb_lmaster vm key = n) →
  (view_dmaster vm db key = n → view_data db key = []) →
  keeps_role n vm db (set_db_ltdb db t).
Proof.
  intros Hg E Hl Hd. assert (∀ k, k ≠ key → tdb_fetch t k = tdb_fetch (db_ltdb db) k) as Ho
    by (intros; by eapply tdb_delete_other).
  assert (tdb_fetch t key = tdb_fetch (db_ltdb db) key ∨ tdb_fetch t key = []) as [Ef|Ef].
  { destruct (decide (ret = 0)) as [->|Hr]; [right; by eapply tdb_delete_ok|by eapply tdb_delete_fail]. }
  2:{ destruct (view_empty vm (set_db_ltdb db t) key Ef) as (Ed & Ev & _).
    apply (keeps_one n vm db _ key); try done; cbn [db_ltdb set_db_ltdb]; rewrite ?Ef.
    + constructor.
    + simpl. unfold sizeof_header. lia.
    + by rewrite Ed, Hl.
    + intros Hn. rewrite Ev. symmetry. by apply Hd. }
  apply (keeps_one n vm db _ key); try done; cbn [db_ltdb set_db_ltdb]; rewrite ?Ef.
  - apply Hg.
  - apply (dg_rofree _ Hg).
  - by rewrite (view_dmaster_eq vm db (set_db_ltdb db t)).
  - intros _. by apply view_data_eq.
Qed.

Lemma view_present vm db key :
  (sizeof_header <= length (tdb_fetch (db_ltdb db) key))%nat →
  view_dmaster vm db key = dmaster (header_of_bytes (tdb_fetch (db_ltdb db) key))
  ∧ view_data db key = drop sizeof_header (tdb_fetch (db_ltdb db) key).
Proof. intros Hl. unfold view_dmaster, view_data. by rewrite (proj2 (Nat.ltb_ge _ _)). Qed.

Lemma delete_tdb_record_keeps n vm chain freelist key data db :
  db_good db → keeps_role n vm db (delete_tdb_record n vm chain freelist key data db).2.
Proof.
  intros Hg. unfold delete_tdb_record. destruct (Z.eqb_spec (ctdb_lmaster vm key) n) as [|Hl]; [by apply keeps_refl|].
  do 2 (case_goal; [by apply keeps_refl|]).
  destruct (tdb_exists _ _); cbn [negb]; [|by apply keeps_refl].
  destruct (Nat.ltb_spec (length (tdb_fetch (db_ltdb db) key)) sizeof_header) as [Hs|Hs].
  - destruct freelist; [|by apply keeps_refl]. destruct (tdb_delete _ _) as [t r] eqn:E. cbn [fst snd].
    destruct (view_missing vm db key Hs) as (Ed & Ev & _).
    eapply keeps_delete; [done..|by rewrite Ed|by rewrite Ev].
  - do 3 (case_goal; [by apply keeps_refl|]).
    destruct (Z.eqb_spec (dmaster (header_of_bytes (tdb_fetch (db_ltdb db) key))) n) as [|Hd]; [by apply keeps_refl|].
    case_goal; [by apply keeps_refl|]. destruct (tdb_delete _ _) as [t r] eqn:E. cbn [snd].
    destruct (view_present vm db key Hs) as [Ed _]. eapply keeps_delete; [done..| |]; rewrite Ed; tauto.
Qed.

Lemma store_tdb_record_keeps n vm chain key data db :
  db_good db → Forall is_u8 data → dmaster (header_of_bytes data) ≠ n →
  rofree (header_of_bytes data) → keeps_role n vm db (store_tdb_record n vm chain key data db).2.
Proof.
  intros Hg Hu Hdm Hrf. unfold store_tdb_record.
  destruct (Z.eqb_spec (ctdb_lmaster vm key) n) as [|Hl]; [by apply keeps_refl|].
  destruct (Nat.eqb_spec (length data) sizeof_header) as [Hlen|]; [|by apply keeps_refl].
  cbn [negb]. case_goal; [by apply keeps_refl|].
  assert (view_dmaster vm db key ≠ n → keeps_role n vm db
            (set_db_ltdb db (tdb_store (db_ltdb db) key data).1)) as Hstore.
  { intros Hv. destruct (tdb_store _ _ _) as [t r] eqn:E. cbn [fst].
    assert (tdb_fetch t key = data ∨ tdb_fetch t key = tdb_fetch (db_ltdb db) key
            ∨ tdb_fetch t key = []) as Hf.
    { destruct (decide (r = 0)) as [->|Hr]; [left; by eapply tdb_store_ok|right].
      by eapply tdb_store_fail. }
    apply (keeps_one n vm db _ key); try done; cbn [db_ltdb set_db_ltdb].
    - intros k Hk. by eapply tdb_store_other.
    - destruct Hf as [->|[->| ->]]; [done|apply Hg|constructor].
    - destruct Hf as [->|[->| ->]]; [done|apply (dg_rofree _ Hg)|simpl; unfold sizeof_header; lia].
    - split; [|done]. intros Hn. exfalso. destruct Hf as [Hf|[Hf|Hf]].
      + destruct (view_present vm (set_db_ltdb db t) key) as [Ev _]; cbn [db_ltdb set_db_ltdb] in *;
          rewrite Hf in *; [lia|congruence].
      + by rewrite (view_dmaster_eq vm db (set_db_ltdb db t)) in Hn.
      + destruct (view_empty vm (set_db_ltdb db t) key Hf) as (Ed & _). congruence. }
  destruct (negb (tdb_exists (db_ltdb db) key) || _) eqn:Eo; cbn [snd].
  - apply Hstore. destruct (view_missing vm db key) as (-> & _); [|done].
    apply orb_true_iff in Eo as [Eo|Eo]; [|by apply Nat.ltb_lt].
    rewrite tdb_exists_fetch by (by apply negb_true_iff). simpl. unfold sizeof_header. lia.
  - apply orb_false_iff in Eo as [_ Hs%Nat.ltb_ge].
    do 3 (case_goal; [by apply keeps_refl|]).
    destruct (Z.eqb_spec (dmaster (header_of_bytes (tdb_fetch (db_ltdb db) key))) n) as [|Hd];
      [by apply keeps_refl|].
    destruct (tdb_store _ _ _) as [t r]. apply Hstore. by destruct (view_present vm db key Hs) as [-> _].
Qed.

Lemma still_deletable_spec n vm e key db :
  still_deletable n vm e key db = true →
  let data := tdb_fetch (db_ltdb db) key in
  length data = sizeof_header ∧ flags (header_of_bytes data) &? CTDB_REC_RO_FLAGS = false
  ∧ dmaster (header_of_bytes data) = n ∧ rsn (header_of_bytes data) = e
  ∧ ctdb_lmaster vm key = n ∧ view_dmaster vm db key = n ∧ view_data db key = [].
Proof.
  unfold still_deletable. rewrite !andb_true_iff, !Z.eqb_eq, Nat.eqb_eq, negb_true_iff.
  intros (Hl & ((Hf & Hd) & Hr) & Hm). destruct (view_present vm db key) as [-> ->]; [lia|].
  split_and!; try done. by rewrite drop_ge by lia.
Qed.

Lemma traverse_first_keeps lc vm chain dd db vd records db' vd' records' :
  lc_vnn_map lc = Some vm → db_good db →
  delete_marshall_traverse_first lc vm chain dd db vd records = Some (db', vd', records') →
  keeps_role (lc_pnn lc) vm db db'.
Proof.
  intros Hvm Hg. unfold delete_marshall_traverse_first.
  case_goal; [intros [= <- <- <-]; by apply keeps_refl|].
  destruct (still_deletable _ _ _ _ _) eqn:Es; cbn [negb];
    [|intros [= <- <- <-]; by apply keeps_refl].
  apply still_deletable_spec in Es as (Hl & Hf & Hd & _ & Hlm & Hv & Hdata).
  destruct (ctdb_ltdb_store _ _ _ _ _) as [[r h'] d] eqn:E.
  assert (keeps_role (lc_pnn lc) vm db d) as Hk.
  { apply (store_good _ vm) in E as (Hg' & Hid & _ & _ & _ & Hz & Hnz & Ho);
      [|done..|apply header_of_bytes_ok; [apply Hg|lia]|done|constructor].
    split_and!; [done..|]. intros k. destruct (decide (k = dd_key dd)) as [->|Hne].
    - destruct (decide (r = 0)) as [Hr|Hr].
      + destruct (Hz Hr) as [Hz1 ->]. rewrite Hz1, Hdata. tauto.
      + destruct (Hnz Hr) as [Ef|[Ef _]].
        * by rewrite (view_dmaster_eq vm db d), (view_data_eq db d).
        * destruct (view_empty vm d _ Ef) as (-> & -> & _). rewrite Hv. done.
    - by rewrite (view_dmaster_eq vm db d), (view_data_eq db d) by by apply Ho. }
  case_goal; [by intros [= <- <- <-]|].
  destruct (delete_marshall_traverse _ _); cbn [mbind option_bind]; [|done]. by intros [= <- <- <-].
Qed.

Lemma queue_traverse_keeps n vm chain dd db vd db' vd' :
  db_good db → delete_queue_traverse n vm chain dd db vd = Some (db', vd') →
  keeps_role n vm db db'.
Proof.
  intros Hg. unfold delete_queue_traverse. case_goal; [intros [= <- <-]; by apply keeps_refl|].
  destruct (Nat.eqb_spec (length (tdb_fetch (db_ltdb db) (dd_key dd))) sizeof_header) as [Hl|];
    cbn [negb]; [|intros [= <- <-]; by apply keeps_refl].
  destruct (Z.eqb_spec (dmaster (header_of_bytes (tdb_fetch (db_ltdb db) (dd_key dd)))) n) as [Hd|];
    cbn [negb]; [|intros [= <- <-]; by apply keeps_refl].
  case_goal; [intros [= <- <-]; by apply keeps_refl|].
  destruct (Z.eqb_spec (ctdb_lmaster vm (dd_key dd)) n) as [Hm|]; cbn [negb].
  - case_goal; intros [= <- <-]; [by apply keeps_refl|]. destruct (tdb_delete _ _) as [t r] eqn:E.
    destruct (view_present vm db (dd_key dd)) as [Ev Ed]; [lia|]. cbn [fst].
    eapply keeps_delete; [done..| |]; rewrite Ev; [tauto|]. intros _. by rewrite Ed, drop_ge by lia.
  - destruct (add_record_to_vacuum_fetch_list _ _ _ _) as [[r v]|]; cbn [mbind option_bind]; [|done].
    intros [= <- <-]. by apply keeps_refl.
Qed.

Lemma record_traverse_keeps n vm chain dd db vd :
  db_good db → keeps_role n vm db (delete_record_traverse n vm chain dd db vd).1.
Proof.
  intros Hg. unfold delete_record_traverse. case_goal; [by apply keeps_refl|].
  destruct (still_deletable _ _ _ _ _) eqn:Es; cbn [negb]; [|by apply keeps_refl].
  apply still_deletable_spec in Es as (Hl & Hf & Hd & _ & Hlm & Hv & Hdata).
  destruct (tdb_delete _ _) as [t r] eqn:E.
  assert (keeps_role n vm db (set_db_ltdb db t)) by (eapply keeps_delete; [done..|by rewrite Hv|done]).
  by case_goal.
Qed.

Lemma vacuum_op_id n vm db db' : vacuum_op n vm db db' → db_id db' = db_id db.
Proof.
  intros Hop. destruct Hop as [| |lc chain dd db vd records db' vd' records' Hn Hvm E|? ? ? ? ? ? E|].
  - unfold delete_tdb_record. by repeat case_goal.
  - unfold store_tdb_record. by repeat case_goal.
  - unfold delete_marshall_traverse_first in E. do 2 (case_match; [by simplify_eq|]).
    destruct (ctdb_ltdb_store _ _ _ _ _) as [[r h] d] eqn:Es. assert (db_id d = db_id db) as Hd.
    { unfold ctdb_ltdb_store in Es. destruct (db_server_store db).
      - apply (store_server_inv _ vm) in Es as (_ & _ & _ & _ & _ & _ & t & q & c & ->); done.
      - destruct (ltdb_store_plain _ _ _ _) eqn:Ep. simplify_eq.
        by apply store_plain_inv in Ep as (_ & _ & _ & t & ->). }
    case_match; [by simplify_eq|]. by destruct (delete_marshall_traverse _ _); simplify_eq/=.
  - unfold delete_queue_traverse in E. do 4 (case_match; [by simplify_eq|]).
    case_match; [|by case_match; simplify_eq]. by destruct (add_record_to_vacuum_fetch_list _ _ _ _) as [[]|]; simplify_eq/=.
  - unfold delete_record_traverse. by repeat case_goal.
Qed.

Lemma vacuum_op_keeps n vm db db' : db_good db → vacuum_op n vm db db' → keeps_role n vm db db'.
Proof.
  intros Hg Hop. destruct Hop as [| |? ? ? ? ? ? ? ? ? <-| |].
  - by apply delete_tdb_record_keeps.
  - by apply store_tdb_record_keeps.
  - by eapply traverse_first_keeps.
  - by eapply queue_traverse_keeps.
  - by apply record_traverse_keeps.
Qed.
End vacuum.
