(* ===== verification/VacuumRun.v ===== *)
(** * A vacuuming run

    [server/ctdb_vacuum.c] above the level of single records: the child process
    that vacuums a database with the help of the other nodes and repacks it,
    and the timer that starts it.

    The run is modelled without other activity on the records; that each of its
    operations on a record is safe between any other steps of the cluster is
    part of the cluster model.  Callbacks that free entries of a red-black tree
    while it is traversed may make the traversal skip or repeat entries: the
    entries visited are then arguments. *)
From stdpp Require Import sorting.
From S2P Require Import Prelude Protocol Queue Marshal Ltdb Node Call Freeze Recovery Vacuum.

(** ** The run *)

(** [ve_vnn_map], [ve_pnn] and [ve_nodemap]: the answers of the local daemon;
    [ve_queue_chain], [ve_first_chain] and [ve_last_chain]: which chains can be
    locked in the traversal of the delete queue, in the first and in the last
    round; [ve_first_visits] and [ve_last_visits]: the entries (by hash) these
    two visit; [ve_receive_fate] and [ve_delete_fate]: what becomes of a control
    to a node; [ve_receive_locks] and [ve_delete_locks]: the locks obtained
    there; [ve_sent]: whether a message can be sent. *)
Record vacuum_env := mk_venv {
  ve_vnn_map : option ctdb_vnn_map;
  ve_pnn : Z;
  ve_nodemap : option (list ctdb_node_and_flags);
  ve_queue_chain : bytes → bool;
  ve_first_chain : bytes → bool;
  ve_last_chain : bytes → bool;
  ve_first_visits : list Z;
  ve_last_visits : list Z;
  ve_receive_fate : Z → fate;
  ve_delete_fate : Z → fate;
  ve_receive_locks : Z → bytes → bool * bool;
  ve_delete_locks : Z → bytes → bool * bool;
  ve_sent : Z → bool;
}.

(** The traversal of a tree whose entries stay: in the order of the hashes. *)
Definition by_hash (a b : Z * delete_record_data) : Prop := a.1 <= b.1.
#[global] Instance by_hash_dec a b : Decision (by_hash a b) := Z_le_dec _ _.
Definition tree_entries (tree : gmap Z delete_record_data) : list delete_record_data :=
  (merge_sort by_hash (map_to_list tree)).*2.

(** The callback of the traversal that gathers the records of a full run. *)
Definition vacuum_traverse (pnn : Z) (vm : ctdb_vnn_map) (num_nodes : Z) (key data : bytes)
    (vd : vacuum_data) : visit vacuum_data :=
  let lmaster := ctdb_lmaster vm key in
  if num_nodes <=? lmaster then Halt vd
  else if negb (Nat.eqb (length data) sizeof_header) then Continue vd
  else
    let hdr := header_of_bytes data in
    if negb (dmaster hdr =? pnn) then Continue vd
    else if lmaster =? pnn then Continue (add_record_to_delete_list key hdr vd)
    else match add_record_to_vacuum_fetch_list pnn vm key vd with
         | None => Abort
         | Some (res, vd) => if negb (res =? 0) then Halt vd else Continue vd
         end.

(** The loop over the records a node could not process: all but the last one of
    the reply are looked at.  (return value, data) *)
Fixpoint drop_failed (n : nat) (rec : bytes) (vd : vacuum_data) : Z * vacuum_data :=
  match n with
  | O => (0, vd)
  | S n =>
      if Nat.ltb (length (rec_data rec)) sizeof_header then (-1, vd)
      else
        let vd :=
          match vd_delete_list vd !! ctdb_hash (rec_key rec) with
          | None => vd
          | Some dd => set_vd_delete_left (drop_entry dd vd) (u32 (vd_delete_left vd - 1))
          end in
        drop_failed n (rec_next rec) vd
  end.
Definition process_reply (records : bytes) (vd : vacuum_data) : Z * vacuum_data :=
  drop_failed (Z.to_nat (mb_count records - 1)) (mb_data records) vd.

(** [ctdb_process_vacuum_fetch_lists]: (return value, messages sent to the nodes). *)
Fixpoint ctdb_process_vacuum_fetch_lists (pnn : Z) (sent : Z → bool) (nodes : list Z)
    (lists : list bytes) : Z * list (Z * bytes) :=
  match nodes, lists with
  | n :: nodes, vfl :: lists =>
      if (n =? pnn) || (mb_count vfl =? 0) then ctdb_process_vacuum_fetch_lists pnn sent nodes lists
      else if negb (sent n) then (-1, [])
      else
        let '(ret, msgs) := ctdb_process_vacuum_fetch_lists pnn sent nodes lists in
        (ret, (n, vfl) :: msgs)
  | _, _ => (0, [])
  end.

(** [ctdb_vacuum_init_vacuum_data] on the zeroed structure with an empty tree. *)
Definition ctdb_vacuum_init_vacuum_data (db_id : Z) (num_nodes : nat) : vacuum_data :=
  mk_vdata ∅ 0 0 (replicate num_nodes (mb_empty db_id)) false.

Section run.
Context {T : Type} `{!TdbOps T}.
Variable env : vacuum_env.
Abbreviation cluster_nodes := (gmap Z (ctdb_context T)).
Implicit Types (db : ctdb_db_context T) (nodes : cluster_nodes) (vd : vacuum_data).

(** A control is sent to a node. *)
Definition send_vacuum (ctl : bytes → ctdb_context T → Z * bytes * ctdb_context T) (f : fate)
    (pnn : Z) (indata : bytes) nodes : cluster_nodes * option (Z * bytes) :=
  match nodes !! pnn, f with
  | None, _ | _, RequestLost => (nodes, None)
  | Some s, _ =>
      let '(res, outdata, s) := ctl indata s in
      (<[pnn := s]> nodes, match f with Answered => Some (res, outdata) | _ => None end)
  end.

(** One of the loops over the active nodes: (return value, data, nodes). *)
Fixpoint control_loop (ctl : Z → bytes → ctdb_context T → Z * bytes * ctdb_context T)
    (f : Z → fate) (indata : bytes) (active : list Z) vd nodes
    : Z * vacuum_data * cluster_nodes :=
  match active with
  | [] => (0, vd, nodes)
  | n :: active =>
      let '(nodes, answer) := send_vacuum (ctl n) (f n) n indata nodes in
      match answer with
      | None => (-1, vd, nodes)
      | Some (res, outdata) =>
          if negb (res =? 0) then (-1, vd, nodes)
          else
            let '(ret, vd) := process_reply outdata vd in
            if negb (ret =? 0) then (-1, vd, nodes)
            else control_loop ctl f indata active vd nodes
      end
  end.

(** Traversals of the tree; [None] is a crash. *)
Fixpoint traverse_first (lc : ltdb_ctx) (vm : ctdb_vnn_map) (visits : list Z) db vd
    (records : option bytes) : option (ctdb_db_context T * vacuum_data * option bytes) :=
  match visits with
  | [] => Some (db, vd, records)
  | h :: visits =>
      match vd_delete_list vd !! h with
      | None => traverse_first lc vm visits db vd records
      | Some dd =>
          '(db, vd, records) ← delete_marshall_traverse_first lc vm
            (ve_first_chain env (dd_key dd)) dd db vd records;
          traverse_first lc vm visits db vd records
      end
  end.

Fixpoint traverse_marshall (entries : list delete_record_data) (records : option bytes)
    : option (option bytes) :=
  match entries with
  | [] => Some records
  | dd :: entries => records ← delete_marshall_traverse dd records; traverse_marshall entries records
  end.

Fixpoint traverse_last (pnn : Z) (vm : ctdb_vnn_map) (visits : list Z) db vd
    : ctdb_db_context T * vacuum_data :=
  match visits with
  | [] => (db, vd)
  | h :: visits =>
      match vd_delete_list vd !! h with
      | None => traverse_last pnn vm visits db vd
      | Some dd =>
          let '(db, vd) := delete_record_traverse pnn vm (ve_last_chain env (dd_key dd)) dd db vd in
          traverse_last pnn vm visits db vd
      end
  end.

(** The blob of a round; [talloc_get_size(NULL)] is 0. *)
Definition blob_of (records : option bytes) : bytes := default [] records.

(** (return value, database, data, nodes); [None] is a crash.  The store of the
    first round runs in the child, which is not the main daemon. *)
Definition ctdb_process_delete_list (lc : ltdb_ctx) (vm : ctdb_vnn_map) db vd nodes
    : option (Z * ctdb_db_context T * vacuum_data * cluster_nodes) :=
  if vd_delete_count vd =? 0 then Some (0, db, vd, nodes)
  else
    let vd := set_vd_delete_left vd (vd_delete_count vd) in
    match ve_nodemap env with
    | None => Some (-1, db, vd, nodes)
    | Some nodemap =>
        let active := list_of_active_nodes (lc_pnn lc) nodemap false in
        '(db, vd, records) ← traverse_first lc vm (ve_first_visits env) db vd
                               (Some (mb_empty (db_id db)));
        let '(ret, vd, nodes) :=
          control_loop (λ n, ctdb_control_receive_records (ve_receive_locks env n))
            (ve_receive_fate env) (blob_of records) active vd nodes in
        if negb (ret =? 0) then Some (-1, db, vd, nodes)
        else if vd_delete_left vd =? 0 then Some (0, db, vd, nodes)
        else
          records ← traverse_marshall (tree_entries (vd_delete_list vd))
                      (Some (mb_empty (db_id db)));
          let '(ret, vd, nodes) :=
            control_loop (λ n, ctdb_control_try_delete_records (ve_delete_locks env n))
              (ve_delete_fate env) (blob_of records) active vd nodes in
          if negb (ret =? 0) then Some (-1, db, vd, nodes)
          else if vd_delete_left vd =? 0 then Some (0, db, vd, nodes)
          else
            let '(db, vd) := traverse_last (lc_pnn lc) vm (ve_last_visits env) db vd in
            Some (0, db, vd, nodes)
    end.

(** The traversal of the delete queue. *)
Fixpoint queue_loop (pnn : Z) (vm : ctdb_vnn_map) (entries : list delete_record_data) db vd
    : option (ctdb_db_context T * vacuum_data) :=
  match entries with
  | [] => Some (db, vd)
  | dd :: entries =>
      '(db, vd) ← delete_queue_traverse pnn vm (ve_queue_chain env (dd_key dd)) dd db vd;
      queue_loop pnn vm entries db vd
  end.
Definition ctdb_vacuum_db_fast (pnn : Z) (vm : ctdb_vnn_map) db vd
    : option (ctdb_db_context T * vacuum_data) :=
  queue_loop pnn vm (tree_entries (db_delete_queue db)) db vd.

Context `{!TdbTxn T}.

(** (return value, data); [None] is a crash. *)
Definition ctdb_vacuum_db_full (pnn : Z) (vm : ctdb_vnn_map) (num_nodes : Z) (full_vacuum_run : bool)
    db vd : option (Z * vacuum_data) :=
  if negb full_vacuum_run then Some (0, vd)
  else match tdb_traverse_read (db_ltdb db) with
  | None => Some (-1, vd)
  | Some records =>
      vd ← traverse (vacuum_traverse pnn vm num_nodes) records vd;
      Some (if vd_traverse_error vd then -1 else 0, vd)
  end.

(** [ctdb_vacuum_db]: (return value, database, data, nodes, messages sent). *)
Definition ctdb_vacuum_db (pnns : list Z) (full_vacuum_run : bool) (ctrl_result : Z * Z) db vd nodes
    : option (Z * ctdb_db_context T * vacuum_data * cluster_nodes * list (Z * bytes)) :=
  match ve_vnn_map env with
  | None => Some (-1, db, vd, nodes, [])
  | Some vm =>
      let pnn := ve_pnn env in
      if pnn =? -1 then Some (-1, db, vd, nodes, [])
      else
        let num_nodes := length pnns in
        let vd := ctdb_vacuum_init_vacuum_data (db_id db) num_nodes in
        '(db, vd) ← ctdb_vacuum_db_fast pnn vm db vd;
        '(ret, vd) ← ctdb_vacuum_db_full pnn vm (Z.of_nat num_nodes) full_vacuum_run db vd;
        if negb (ret =? 0) then Some (ret, db, vd, nodes, [])
        else
          let '(ret, msgs) := ctdb_process_vacuum_fetch_lists pnn (ve_sent env) pnns
                                (vd_fetch_list vd) in
          if negb (ret =? 0) then Some (ret, db, vd, nodes, msgs)
          else
            '(ret, db, vd, nodes) ← ctdb_process_delete_list
              (mk_ltdb_ctx pnn (Some vm) false true ctrl_result) vm db vd nodes;
            Some (ret, db, vd, nodes, msgs)
  end.

(** ** Repacking *)

(** [tdb_store] with TDB_INSERT does not overwrite. *)
Definition tdb_insert (t : T) (key data : bytes) : T * Z :=
  if tdb_exists t key then (t, -1) else tdb_store t key data.

(** The record is still the one in the delete list. *)
Definition vacuumable (pnn : Z) (vm : ctdb_vnn_map) vd (key data : bytes) : bool :=
  match vd_delete_list vd !! ctdb_hash key with
  | None => false
  | Some kd =>
      bool_decide (dd_key kd = key)
      && Nat.eqb (length data) sizeof_header
      && (dmaster (header_of_bytes data) =? pnn) && (ctdb_lmaster vm (dd_key kd) =? pnn)
      && (rsn (dd_hdr kd) =? rsn (header_of_bytes data))
  end.

(** The state: the destination and [traverse_error]. *)
Definition repack_traverse (pnn : Z) (vm : ctdb_vnn_map) vd (vacuum : bool) (key data : bytes)
    (st : T * bool) : visit (T * bool) :=
  if vacuum && vacuumable pnn vm vd key data then Continue st
  else
    let '(t, ret) := tdb_insert st.1 key data in
    if negb (ret =? 0) then Halt (t, true) else Continue (t, st.2).

(** Copy all records of [src] into [dest]: [None] when it fails. *)
Definition repack_copy (pnn : Z) (vm : ctdb_vnn_map) vd (vacuum : bool) (src dest : T)
    : T * bool :=
  match tdb_traverse_read src with
  | None => (dest, false)
  | Some records =>
      match traverse (repack_traverse pnn vm vd vacuum) records (dest, false) with
      | None => (dest, false)
      | Some (t, error) => (t, negb error)
      end
  end.

(** [tmp]: whether the temporary database can be created. *)
Definition ctdb_repack_tdb (pnn : Z) (vm : ctdb_vnn_map) vd (tmp : bool) (tdb : T) : T * Z :=
  let '(tdb, ret) := tdb_transaction_start tdb in
  if negb (ret =? 0) then (tdb, -1)
  else if negb tmp then ((tdb_transaction_cancel tdb).1, -1)
  else
    let '(tmp_db, ok) := repack_copy pnn vm vd true tdb tdb_create in
    if negb ok then ((tdb_transaction_cancel tdb).1, -1)
    else
      let '(tdb, ret) := tdb_wipe_all tdb in
      if negb (ret =? 0) then ((tdb_transaction_cancel tdb).1, -1)
      else
        let '(tdb, ok) := repack_copy pnn vm vd false tmp_db tdb in
        if negb ok then ((tdb_transaction_cancel tdb).1, -1)
        else
          let '(tdb, ret) := tdb_transaction_commit tdb in
          (tdb, if negb (ret =? 0) then -1 else 0).

(** [freelist_size] is the answer of [tdb_freelist_size]; [pnn0] and [vm0] are
    what the child inherits from the daemon. *)
Definition ctdb_vacuum_and_repack_db (pnn0 : Z) (vm0 : ctdb_vnn_map) (pnns : list Z)
    (full_vacuum_run : bool) (ctrl_result : Z * Z)
    (freelist_size repack_limit vacuum_limit : Z) (tmp : bool) db nodes
    : option (Z * ctdb_db_context T * cluster_nodes * list (Z * bytes)) :=
  if freelist_size =? -1 then Some (-1, db, nodes, [])
  else
    '(_, db, vd, nodes, msgs) ← ctdb_vacuum_db pnns full_vacuum_run ctrl_result db
                                  (mk_vdata ∅ 0 0 [] false) nodes;
    if (u32 freelist_size <? repack_limit) && (vd_delete_left vd <? vacuum_limit)
    then Some (0, db, nodes, msgs)
    else
      let pnn := if bool_decide (ve_vnn_map env = None) || (ve_pnn env =? -1) then pnn0
                 else ve_pnn env in
      let '(t, ret) := ctdb_repack_tdb pnn (default vm0 (ve_vnn_map env)) vd tmp (db_ltdb db) in
      Some (if negb (ret =? 0) then -1 else 0, set_db_ltdb db t, nodes, msgs).
End run.

(** ** Starting the runs *)

(** [struct ctdb_vacuum_handle] of one database: [fast_path_count], the number
    of pending timers for [ctdb_vacuum_event], and the running children (by pid,
    [-1] once finished). *)
Record ctdb_vacuum_handle := mk_vh {
  vh_fast_path_count : Z;
  vh_timers : nat;
  vh_children : list Z;
}.

(** [ctdb_vacuum_init] *)
Definition ctdb_vacuum_init (persistent : bool) : option ctdb_vacuum_handle :=
  if persistent then None else Some (mk_vh 0 1 []).

(** The timer fired.  [busy]: in recovery or frozen; [pipe] and [fork]: the
    results of the system calls.  (new state, type of the run started). *)
Definition ctdb_vacuum_event (busy pipe : bool) (fork : option Z) (vacuum_fast_path_count : Z)
    (vh : ctdb_vacuum_handle) : ctdb_vacuum_handle * option bool :=
  let vh := mk_vh (vh_fast_path_count vh) (vh_timers vh - 1) (vh_children vh) in
  let again vh := mk_vh (vh_fast_path_count vh) (vh_timers vh + 1) (vh_children vh) in
  if busy then (again vh, None)
  else if negb pipe then (again vh, None)
  else
    let vh := mk_vh (if vacuum_fast_path_count <? vh_fast_path_count vh then 0
                     else vh_fast_path_count vh) (vh_timers vh) (vh_children vh) in
    match fork with
    | None => (again vh, None)
    | Some pid =>
        let full_vacuum_run := (0 <? vacuum_fast_path_count) && (vh_fast_path_count vh =? 0) in
        (mk_vh (vh_fast_path_count vh) (vh_timers vh) (pid :: vh_children vh), Some full_vacuum_run)
    end.

(** The destructor of a child's context, which is taken from the list. *)
Definition vacuum_child_destructor (pid : Z) (rest : list Z) (vh : ctdb_vacuum_handle)
    : ctdb_vacuum_handle :=
  mk_vh (if negb (pid =? -1) then vh_fast_path_count vh else u32 (vh_fast_path_count vh + 1))
    (vh_timers vh + 1) rest.

(** What happens to a handle: the timer fires, a child finishes or times out,
    vacuuming is stopped ([ctdb_stop_vacuuming]). *)
Inductive vacuum_event :=
  | EvTimer (busy pipe : bool) (fork : option Z)
  | EvChildDone
  | EvChildTimeout
  | EvStop.

(** [None]: the event cannot happen. *)
Definition vacuum_next (vacuum_fast_path_count : Z) (e : vacuum_event) (vh : ctdb_vacuum_handle)
    : option (ctdb_vacuum_handle * option bool) :=
  match e with
  | EvTimer busy pipe fork =>
      if Nat.eqb (vh_timers vh) 0 then None
      else Some (ctdb_vacuum_event busy pipe fork vacuum_fast_path_count vh)
  | EvChildDone =>
      match vh_children vh with
      | [] => None
      | pid :: rest => Some (vacuum_child_destructor (-1) rest vh, None)
      end
  | EvChildTimeout =>
      match vh_children vh with
      | [] => None
      | pid :: rest => Some (vacuum_child_destructor pid rest vh, None)
      end
  | EvStop =>
      Some (foldr (λ pid vh, vacuum_child_destructor pid [] vh) vh (vh_children vh), None)
  end.

(** A sequence of events and the runs it starts. *)
Fixpoint vacuum_events (vacuum_fast_path_count : Z) (es : list vacuum_event)
    (vh : ctdb_vacuum_handle) : option (ctdb_vacuum_handle * list bool) :=
  match es with
  | [] => Some (vh, [])
  | e :: es =>
      '(vh, run) ← vacuum_next vacuum_fast_path_count e vh;
      '(vh, runs) ← vacuum_events vacuum_fast_path_count es vh;
      Some (vh, match run with Some b => b :: runs | None => runs end)
  end.
