(* ===== verification/VacuumRunProps.v ===== *)
(** * What a vacuuming run achieves

    A record that a run removes from the local database is gone from every
    active node, unless that node reported it last in its reply; repacking
    keeps the content of the database; and vacuuming is started again and again,
    one run at a time. *)
From stdpp Require Import sorting.
From S2P Require Import Prelude Protocol Queue Marshal Ltdb Node Call Freeze Recovery RecoveryMerge RecoverySeqnum RecoveryProps RecoveryLive Vacuum VacuumRun.

(** ** Blobs of records *)

(** [r] is the record [kd] on the wire. *)
Definition wire (kd : bytes * bytes) (r : bytes) : Prop :=
  ∃ reqid, ∀ rest, record_at reqid kd.1 kd.2 rest (r ++ rest).

Lemma wire_read kd r rest :
  wire kd r →
  rec_key (r ++ rest) = kd.1 ∧ rec_data (r ++ rest) = kd.2 ∧ rec_next (r ++ rest) = rest
  ∧ take (Z.to_nat (rec_length (r ++ rest))) (r ++ rest) = r ∧ Z.of_nat offsetof_rec_data <= dsize r.
Proof.
  intros [reqid Hw]. pose proof (record_at_read _ _ _ _ _ (Hw rest)) as (_ & _ & _ & -> & -> & En).
  split_and!; [done..| |].
  - unfold rec_next in En. pose proof (take_drop (Z.to_nat (rec_length (r ++ rest))) (r ++ rest)) as E.
    rewrite En in E. by apply app_inv_tail in E.
  - destruct (Hw []) as (_ & _ & E). rewrite !app_nil_r in E. rewrite E. unfold dsize.
    rewrite !length_app, !length_le_bytes. unfold offsetof_rec_data. lia.
Qed.

Section ops.
Context {T : Type} `{TdbLaws T}.
Implicit Types (db : ctdb_db_context T).

(** An operation on all records of a blob: those that failed. *)
Fixpoint run_ops (op : bytes → bytes → ctdb_db_context T → Z * ctdb_db_context T)
    (kds : list (bytes * bytes)) db : list (bytes * bytes) * ctdb_db_context T :=
  match kds with
  | [] => ([], db)
  | kd :: kds =>
      let '(ret, db) := op kd.1 kd.2 db in
      let '(failed, db) := run_ops op kds db in
      (if ret =? 0 then failed else kd :: failed, db)
  end.

Lemma vacuum_loop_run op id kds rs rest acc records db reply db' :
  Forall2 wire kds rs → buffer_of id acc records →
  vacuum_loop op (length rs) (concat rs ++ rest) records db = (Some reply, db') →
  ∃ failed rsf, run_ops op kds db = (failed, db') ∧ Forall2 wire failed rsf
    ∧ buffer_of id (acc ++ rsf) reply.
Proof.
  intros Hw. revert acc records db. induction Hw as [|kd r kds rs Hr _ IH]; intros acc records db Hb; simpl.
  - intros [= <- <-]. exists [], []. by rewrite app_nil_r.
  - rewrite <- app_assoc. destruct (wire_read kd r (concat rs ++ rest) Hr) as (-> & -> & -> & -> & Hs).
    case_goal; [done|]. destruct (op kd.1 kd.2 db) as [ret d]. destruct (Z.eqb_spec ret 0) as [->|Hret]; cbn [negb].
    + intros E. apply (IH _ _ _ Hb) in E as (failed & rsf & -> & ? & ?). by eexists _, _.
    + destruct (mb_append records r) as [m|] eqn:Ea; [|done]. intros E.
      apply (IH (acc ++ [r])) in E as (failed & rsf & -> & ? & Hb'); [|by eapply buffer_append].
      eexists _, (r :: rsf). split; [done|]. split; [by constructor|]. by rewrite <- app_assoc in Hb'.
Qed.

(** Operations that touch only their own record. *)
Lemma run_ops_other op kds db failed db' k :
  (∀ key data db, db_id (op key data db).2 = db_id db
     ∧ ∀ k, k ≠ key → tdb_fetch (db_ltdb (op key data db).2) k = tdb_fetch (db_ltdb db) k) →
  run_ops op kds db = (failed, db') →
  db_id db' = db_id db
  ∧ (k ∉ kds.*1 → tdb_fetch (db_ltdb db') k = tdb_fetch (db_ltdb db) k).
Proof.
  intros Hop. revert db failed. induction kds as [|kd kds IH]; intros db failed; simpl; [by intros [= _ <-]|].
  destruct (op kd.1 kd.2 db) as [ret d] eqn:E. destruct (run_ops op kds d) as [f d'] eqn:E'.
  intros [= _ <-]. destruct (Hop kd.1 kd.2 db) as [Hid Ho]. rewrite E in Hid, Ho. simpl in Hid, Ho.
  destruct (IH _ _ E') as [IH1 IH2]. split; [congruence|]. intros Hk.
  apply not_elem_of_cons in Hk as [Hk1 Hk2]. by rewrite IH2, Ho.
Qed.

(** A record deleted on another node has no copy there. *)
Lemma delete_tdb_record_own pnn vm chain freelist key data db :
  let '(ret, db') := delete_tdb_record pnn vm chain freelist key data db in
  db_id db' = db_id db
  ∧ (∀ k, k ≠ key → tdb_fetch (db_ltdb db') k = tdb_fetch (db_ltdb db) k)
  ∧ (ret = 0 → (length (tdb_fetch (db_ltdb db') key) < sizeof_header)%nat).
Proof.
  unfold delete_tdb_record. do 3 (case_goal; [done|]).
  destruct (tdb_exists _ _) eqn:Ee; cbn [negb].
  2: { split_and!; [done..|]. intros _. rewrite tdb_exists_fetch by done. simpl. unfold sizeof_header. lia. }
  destruct (tdb_delete _ _) as [t r] eqn:E. assert (r = 0 → tdb_fetch t key = []) as Hz
    by (intros ->; by eapply tdb_delete_ok).
  destruct (Nat.ltb_spec (length (tdb_fetch (db_ltdb db) key)) sizeof_header) as [Hs|Hs].
  - destruct freelist; [|done]. split_and!; [done|intros; by eapply tdb_delete_other|]. intros _. simpl.
    destruct (decide (r = 0)) as [->|Hr].
    + rewrite Hz by done. simpl. unfold sizeof_header. lia.
    + destruct (tdb_delete_fail _ _ _ _ E Hr) as [-> | ->]; [done|]. simpl. unfold sizeof_header. lia.
  - do 5 (case_goal; [done|]). split_and!; [done|intros; by eapply tdb_delete_other|].
    destruct (Z.eqb_spec r 0) as [Hr|]; [|done]. intros _. simpl. rewrite Hz by done.
    simpl. unfold sizeof_header. lia.
Qed.

Lemma delete_op_other (locks : bytes → bool * bool) pnn vm key data db :
  let op key := delete_tdb_record pnn vm (locks key).1 (locks key).2 key in
  db_id (op key data db).2 = db_id db
  ∧ ∀ k, k ≠ key → tdb_fetch (db_ltdb (op key data db).2) k = tdb_fetch (db_ltdb db) k.
Proof.
  simpl. pose proof (delete_tdb_record_own pnn vm (locks key).1 (locks key).2 key data db) as Ho.
  destruct (delete_tdb_record _ _ _ _ _ _ _). by destruct Ho as (? & ? & _).
Qed.

Lemma run_deletes locks pnn vm kds db failed db' k data :
  NoDup kds.*1 → (k, data) ∈ kds →
  run_ops (λ key, delete_tdb_record pnn vm (locks key).1 (locks key).2 key) kds db = (failed, db') →
  (k, data) ∈ failed ∨ (length (tdb_fetch (db_ltdb db') k) < sizeof_header)%nat.
Proof.
  revert db failed. induction kds as [|kd kds IH]; intros db failed Hnd Hin; [by apply not_elem_of_nil in Hin|].
  rewrite fmap_cons in Hnd. apply NoDup_cons in Hnd as [Hn Hnd]. simpl.
  pose proof (delete_tdb_record_own pnn vm (locks kd.1).1 (locks kd.1).2 kd.1 kd.2 db) as Hown.
  destruct (delete_tdb_record _ _ _ _ _ _ _) as [ret d]. destruct Hown as (_ & _ & Hz).
  destruct (run_ops _ kds d) as [f d'] eqn:E. intros [= <- <-].
  apply elem_of_cons in Hin as [<-|Hin].
  - destruct (Z.eqb_spec ret 0) as [Hr|]; [|left; apply elem_of_cons; by left]. right.
    destruct (run_ops_other _ _ _ _ _ k (delete_op_other locks pnn vm) E) as [_ ->]; [by apply Hz|done].
  - destruct (IH _ _ Hnd Hin E) as [Hf|Hf]; [left|by right]. case_goal; [done|].
    apply elem_of_cons. by right.
Qed.
End ops.

(** ** Replies *)

Definition tree_ok (vd : vacuum_data) : Prop :=
  map_Forall (λ h dd, h = ctdb_hash (dd_key dd)) (vd_delete_list vd).

Lemma tree_ok_sub vd vd' :
  vd_delete_list vd' ⊆ vd_delete_list vd → tree_ok vd → tree_ok vd'.
Proof. intros Hs Hok h dd E. apply Hok. by eapply lookup_weaken. Qed.

Lemma drop_entry_sub dd vd : vd_delete_list (drop_entry dd vd) ⊆ vd_delete_list vd.
Proof. apply delete_subseteq. Qed.

Lemma drop_failed_sub n rec vd : vd_delete_list (drop_failed n rec vd).2 ⊆ vd_delete_list vd.
Proof.
  revert rec vd. induction n as [|n IH]; intros rec vd; simpl; [done|]. case_goal; [done|].
  etrans; [apply IH|]. destruct (vd_delete_list vd !! ctdb_hash (rec_key rec)); [|done]. apply drop_entry_sub.
Qed.

(** Records that are looked at leave the list. *)
Lemma drop_failed_spec kds rs rest vd :
  Forall2 wire kds rs → Forall (λ kd, (sizeof_header <= length kd.2)%nat) kds → tree_ok vd →
  let '(ret, vd') := drop_failed (length rs) (concat rs ++ rest) vd in
  ret = 0 ∧ ∀ k, k ∈ kds.*1 → vd_delete_list vd' !! ctdb_hash k = None.
Proof.
  intros Hw. revert vd. induction Hw as [|kd r kds rs Hr _ IH]; intros vd Hl Hok; simpl.
  - split; [done|]. by intros k Hk%not_elem_of_nil.
  - apply Forall_cons in Hl as [Hl1 Hl2]. rewrite <- app_assoc.
    destruct (wire_read kd r (concat rs ++ rest) Hr) as (-> & -> & -> & _).
    rewrite (proj2 (Nat.ltb_ge _ _)) by done. set (vd1 := match _ with Some _ => _ | None => _ end).
    assert (vd_delete_list vd1 ⊆ vd_delete_list vd ∧ vd_delete_list vd1 !! ctdb_hash kd.1 = None) as [Hs Hn].
    { subst vd1. destruct (vd_delete_list vd !! ctdb_hash kd.1) as [dd|] eqn:E; [|done].
      split; [apply drop_entry_sub|]. cbn. rewrite <- (Hok _ _ E). apply lookup_delete_eq. }
    specialize (IH vd1 Hl2 (tree_ok_sub _ _ Hs Hok)).
    pose proof (drop_failed_sub (length rs) (concat rs ++ rest) vd1) as Hsub.
    destruct (drop_failed _ _ vd1) as [ret vd2]. destruct IH as [-> IH]. split; [done|].
    intros k [->|Hk]%elem_of_cons; [|by apply IH].
    destruct (vd_delete_list vd2 !! _) eqn:E; [|done]. eapply lookup_weaken in E; [|exact Hsub]. congruence.
Qed.

Lemma records_from_wire kds rs rest :
  Forall2 wire kds rs → records_from (length rs) (concat rs ++ rest) = kds.
Proof.
  induction 1 as [|kd r kds rs Hr _ IH]; simpl; [done|]. rewrite <- app_assoc.
  destruct (wire_read kd r (concat rs ++ rest) Hr) as (-> & -> & -> & _). rewrite IH. by destruct kd.
Qed.

(** [m] is a blob of the records [kds]. *)
Definition blob_has (id : Z) (kds : list (bytes * bytes)) (m : bytes) : Prop :=
  ∃ rs, buffer_of id rs m ∧ Forall2 wire kds rs.

Lemma blob_records id kds m : blob_has id kds m → mb_records m = kds ∧ mb_db_id m = id.
Proof.
  intros (rs & Hb & Hw). destruct (buffer_read _ _ _ Hb) as (E1 & E2 & E3). split; [|done].
  unfold mb_records. rewrite E2, E3, Nat2Z.id, <- (app_nil_r (concat rs)). by apply records_from_wire.
Qed.

Lemma process_reply_spec id kds m vd :
  blob_has id kds m → Forall (λ kd, (sizeof_header <= length kd.2)%nat) kds → tree_ok vd →
  let '(ret, vd') := process_reply m vd in
  ret = 0 ∧ ∀ k, k ∈ kds.*1 → last kds.*1 = Some k ∨ vd_delete_list vd' !! ctdb_hash k = None.
Proof.
  intros (rs & Hb & Hw) Hl Hok. destruct (buffer_read _ _ _ Hb) as (_ & E2 & E3).
  unfold process_reply. rewrite E2, E3. destruct kds as [|kd kds _] using rev_ind.
  - apply Forall2_nil_inv_l in Hw as ->. split; [done|]. by intros k Hk%not_elem_of_nil.
  - apply Forall2_app_inv_l in Hw as (rs1 & rs2 & Hw1 & Hw2 & ->). apply Forall_app in Hl as [Hl _].
    pose proof (Forall2_length _ _ _ Hw2) as Hlen. simpl in Hlen.
    replace (Z.to_nat (Z.of_nat (length (rs1 ++ rs2)) - 1)) with (length rs1) by (rewrite length_app; lia).
    rewrite concat_app. pose proof (drop_failed_spec kds rs1 (concat rs2) vd Hw1 Hl Hok) as Hd.
    destruct (drop_failed _ _ _) as [ret vd']. destruct Hd as [-> Hd]. split; [done|].
    rewrite fmap_app. simpl. rewrite last_snoc.
    intros k [Hk|Hk%list_elem_of_singleton]%elem_of_app; [right; by apply Hd|left; by rewrite Hk].
Qed.

(** A record that is not among those looked at stays. *)
Lemma drop_failed_other kds rs rest vd h :
  Forall2 wire kds rs → tree_ok vd → (∀ k, k ∈ kds.*1 → ctdb_hash k ≠ h) →
  vd_delete_list (drop_failed (length rs) (concat rs ++ rest) vd).2 !! h = vd_delete_list vd !! h.
Proof.
  intros Hw. revert vd. induction Hw as [|kd r kds rs Hr _ IH]; intros vd Hok Hh; simpl; [done|].
  rewrite <- app_assoc. destruct (wire_read kd r (concat rs ++ rest) Hr) as (-> & -> & -> & _).
  case_goal; [done|]. set (vd1 := match _ with Some _ => _ | None => _ end).
  assert (vd_delete_list vd1 ⊆ vd_delete_list vd ∧ vd_delete_list vd1 !! h = vd_delete_list vd !! h) as [Hs Hn].
  { subst vd1. destruct (vd_delete_list vd !! ctdb_hash kd.1) as [dd|] eqn:E; [|done].
    split; [apply drop_entry_sub|]. cbn. rewrite <- (Hok _ _ E). apply lookup_delete_ne.
    apply Hh. rewrite fmap_cons. apply list_elem_of_here. }
  rewrite IH, Hn; [done|by eapply tree_ok_sub|]. intros k Hk. apply Hh. rewrite fmap_cons. by right.
Qed.

Lemma process_reply_last id kds kd m vd :
  blob_has id (kds ++ [kd]) m → Forall (λ kd, (sizeof_header <= length kd.2)%nat) kds → tree_ok vd →
  (∀ k, k ∈ kds.*1 → ctdb_hash k ≠ ctdb_hash kd.1) →
  let '(ret, vd') := process_reply m vd in
  ret = 0 ∧ vd_delete_list vd' !! ctdb_hash kd.1 = vd_delete_list vd !! ctdb_hash kd.1.
Proof.
  intros (rs & Hb & Hw) Hl Hok Hh. destruct (buffer_read _ _ _ Hb) as (_ & E2 & E3).
  unfold process_reply. rewrite E2, E3. apply Forall2_app_inv_l in Hw as (rs1 & rs2 & Hw1 & Hw2 & ->).
  pose proof (Forall2_length _ _ _ Hw2) as Hlen. simpl in Hlen.
  replace (Z.to_nat (Z.of_nat (length (rs1 ++ rs2)) - 1)) with (length rs1) by (rewrite length_app; lia).
  rewrite concat_app. pose proof (drop_failed_spec kds rs1 (concat rs2) vd Hw1 Hl Hok) as Hd.
  pose proof (drop_failed_other kds rs1 (concat rs2) vd (ctdb_hash kd.1) Hw1 Hok Hh) as Ho.
  destruct (drop_failed _ _ _) as [ret vd']. by destruct Hd as [-> _].
Qed.

(** ** The rounds *)

Section rounds.
Context {T : Type} `{TdbLaws T}.
Implicit Types (db : ctdb_db_context T) (nodes : gmap Z (ctdb_context T)) (vd : vacuum_data).

(** A record with a header. *)
Definition has_record db (k : bytes) : Prop :=
  (sizeof_header <= length (tdb_fetch (db_ltdb db) k))%nat.

(** What TRY_DELETE_RECORDS does on a node. *)
Lemma try_delete_spec locks id kds blob (s : ctdb_context T) reply s' :
  blob_has id kds blob → NoDup kds.*1 →
  ctdb_control_try_delete_records locks blob s = (0, reply, s') →
  ∃ failed db', blob_has id failed reply ∧ failed ⊆ kds ∧ find_db id (cx_db_list s') = Some db'
    ∧ ∀ k, k ∈ kds.*1 → k ∈ failed.*1 ∨ ¬ has_record db' k.
Proof.
  intros (rs & Hb & Hw) Hnd. destruct (buffer_read _ _ _ Hb) as (E1 & E2 & E3).
  unfold ctdb_control_try_delete_records, vacuum_control. rewrite E1, E2, E3, Nat2Z.id.
  case_goal; [done|]. destruct (find_db id (cx_db_list s)) as [db|] eqn:Ef; [|done].
  pose proof (find_db_id _ _ _ Ef) as Hid. rewrite Hid, <- (app_nil_r (concat rs)).
  destruct (vacuum_loop _ _ _ _ _) as [[records|] db'] eqn:El; [|done]. intros [= <- <-].
  eapply vacuum_loop_run in El as (failed & rsf & Er & Hw' & Hb'); [|done|apply buffer_empty, Hb].
  exists failed, db'. split; [by exists rsf|].
  destruct (run_ops_other _ _ _ _ _ [] (delete_op_other locks _ _) Er) as [Hid' _].
  rewrite Hid in Hid'. split_and!.
  - clear -Er. revert db failed Er. induction kds as [|kd kds IH]; intros db failed; simpl; [by intros [= <- _]|].
    destruct (delete_tdb_record _ _ _ _ _ _ _) as [ret d]. destruct (run_ops _ kds d) as [f d'] eqn:E.
    intros [= <- <-]. apply IH in E. case_goal; [by apply list_subseteq_cons|by apply list_subseteq_skip].
  - simpl. rewrite <- Hid'. eapply find_put. by rewrite Hid'.
  - intros k ([k' data] & -> & Hin)%list_elem_of_fmap. destruct (run_deletes _ _ _ _ _ _ _ _ _ Hnd Hin Er) as [Hf|Hf].
    + left. apply list_elem_of_fmap. by eexists.
    + right. unfold has_record. simpl in *. lia.
Qed.

Lemma process_reply_sub m vd : vd_delete_list (process_reply m vd).2 ⊆ vd_delete_list vd.
Proof. apply drop_failed_sub. Qed.

Lemma send_vacuum_other ctl f n indata nodes nodes' a m :
  send_vacuum ctl f n indata nodes = (nodes', a) → m ≠ n → nodes' !! m = nodes !! m.
Proof.
  unfold send_vacuum. intros E Hm.
  destruct (nodes !! n) as [s|]; [|by simplify_eq]. destruct f; [|by simplify_eq|];
    destruct (ctl indata s) as [[res out] s']; simplify_eq; by rewrite lookup_insert_ne.
Qed.

Lemma control_loop_sub ctl f indata active vd nodes :
  vd_delete_list (control_loop ctl f indata active vd nodes).1.2 ⊆ vd_delete_list vd.
Proof.
  revert vd nodes. induction active as [|n active IH]; intros vd nodes; simpl; [done|].
  destruct (send_vacuum _ _ _ _ _) as [nodes1 [[res out]|]]; [|done]. case_goal; [done|].
  pose proof (process_reply_sub out vd) as Hs. destruct (process_reply out vd) as [ret vd1].
  case_goal; [done|]. by etrans; [apply IH|].
Qed.

Lemma control_loop_other ctl f indata active vd nodes m :
  m ∉ active → (control_loop ctl f indata active vd nodes).2 !! m = nodes !! m.
Proof.
  revert vd nodes. induction active as [|n active IH]; intros vd nodes Hm; simpl; [done|].
  apply not_elem_of_cons in Hm as [Hm1 Hm2].
  destruct (send_vacuum _ _ _ _ _) as [nodes1 a] eqn:E. eapply send_vacuum_other in E; [|exact Hm1].
  destruct a as [[res out]|]; [|done]. case_goal; [done|].
  destruct (process_reply out vd) as [ret vd1]. case_goal; [done|]. by rewrite IH.
Qed.

(** The second round deletes the records on every active node or drops them
    from the list, except for the last one a node reports. *)
Lemma delete_round locks f id kds blob active vd nodes vd' nodes' :
  blob_has id kds blob → NoDup kds.*1 → Forall (λ kd, (sizeof_header <= length kd.2)%nat) kds →
  NoDup active → tree_ok vd →
  control_loop (λ n, ctdb_control_try_delete_records (locks n)) f blob active vd nodes
    = (0, vd', nodes') →
  ∀ n k, n ∈ active → k ∈ kds.*1 → is_Some (vd_delete_list vd' !! ctdb_hash k) →
  ∃ s reply s' db', nodes !! n = Some s
    ∧ ctdb_control_try_delete_records (locks n) blob s = (0, reply, s')
    ∧ nodes' !! n = Some s' ∧ find_db id (cx_db_list s') = Some db'
    ∧ (¬ has_record db' k ∨ last (mb_records reply).*1 = Some k).
Proof.
  intros Hblob Hnd Hl Hna. revert vd nodes. induction Hna as [|n active Hn Hna IH]; intros vd nodes Hok;
    [intros _ n k Hin; by apply not_elem_of_nil in Hin|]. simpl.
  destruct (send_vacuum _ _ _ _ _) as [nodes1 a] eqn:Es. destruct a as [[res out]|]; [|done].
  destruct (Z.eqb_spec res 0) as [->|]; [|done]. cbn [negb].
  pose proof (process_reply_sub out vd) as Hsub. destruct (process_reply out vd) as [ret vd1] eqn:Ep.
  destruct (Z.eqb_spec ret 0) as [->|]; [|done]. cbn [negb snd] in *. intros El m k Hm Hk Hin.
  assert (∀ j, j ≠ n → nodes1 !! j = nodes !! j) as Ho by (intros; by eapply send_vacuum_other).
  apply elem_of_cons in Hm as [->|Hm].
  2: { destruct (IH vd1 nodes1 (tree_ok_sub _ _ Hsub Hok) El m k Hm Hk Hin) as (s & reply & s' & db' & E & ?).
       rewrite Ho in E by congruence. by eexists s, reply, s', db'. }
  unfold send_vacuum in Es. destruct (nodes !! n) as [s|] eqn:E; [|done].
  destruct (f n); [|done|]; destruct (ctdb_control_try_delete_records (locks n) blob s) as [[res out'] s'] eqn:Ec;
    simplify_eq.
  destruct (try_delete_spec _ _ _ _ _ _ _ Hblob Hnd Ec) as (failed & db' & Hf & Hfs & Hdb & Hdel).
  exists s, out, s', db'. destruct (blob_records _ _ _ Hf) as [-> _].
  pose proof (control_loop_other (λ n, ctdb_control_try_delete_records (locks n)) f blob active vd1
    (<[n := s']> nodes) n Hn) as Hn'. rewrite El in Hn'. simpl in Hn'. rewrite lookup_insert_eq in Hn'.
  split_and!; [done..|]. destruct (Hdel k Hk) as [Hkf|]; [|by left].
  pose proof (process_reply_spec id failed out vd Hf) as Hp. rewrite Ep in Hp.
  destruct Hp as [_ Hp]; [|done|].
  - apply Forall_forall. intros kd Hkd. rewrite Forall_forall in Hl. apply Hl, Hfs, Hkd.
  - destruct (Hp k Hkf) as [|Hnone]; [by right|]. exfalso. destruct Hin as [dd Hin].
    pose proof (control_loop_sub (λ n, ctdb_control_try_delete_records (locks n)) f blob active vd1
      (<[n := s']> nodes)) as Hs2. rewrite El in Hs2. simpl in Hs2.
    eapply lookup_weaken in Hin; [|exact Hs2]. congruence.
Qed.

(** The blob of the second round. *)
Definition entry_record (dd : delete_record_data) : bytes * bytes :=
  (dd_key dd, header_bytes (dd_hdr dd)).
Definition entry_size (dd : delete_record_data) : Z :=
  Z.of_nat offsetof_rec_data + dsize (dd_key dd) + Z.of_nat sizeof_header.
Definition entries_size (l : list delete_record_data) : Z := foldr (λ dd n, entry_size dd + n) 0 l.

Lemma entry_size_pos dd : 0 <= entry_size dd.
Proof. unfold entry_size, dsize. lia. Qed.

Lemma entries_size_pos l : 0 <= entries_size l.
Proof. induction l as [|dd l IH]; simpl; [done|]. pose proof (entry_size_pos dd). lia. Qed.

Lemma entries_size_sub l l' : l ⊆+ l' → entries_size l <= entries_size l'.
Proof.
  induction 1 as [| | |dd|]; simpl; try lia. pose proof (entry_size_pos dd). lia.
Qed.

Lemma traverse_marshall_spec id entries kds m :
  blob_has id kds m → dsize m + entries_size entries < MAX_TALLOC_SIZE →
  ∃ m', traverse_marshall entries (Some m) = Some (Some m')
    ∧ blob_has id (kds ++ (entry_record <$> entries)) m'.
Proof.
  revert kds m. induction entries as [|dd entries IH]; intros kds m Hm Hs; simpl in *.
  - exists m. by rewrite app_nil_r.
  - pose proof (entries_size_pos entries). destruct (blob_records _ _ _ Hm) as [_ Hid].
    pose proof Hm as (rs & Hb & Hw). unfold delete_marshall_traverse. cbn [mbind option_bind].
    rewrite Hid. destruct (ctdb_marshall_record id (dd_key dd) (Some (dd_hdr dd)) []) as [r|] eqn:Er.
    2: { unfold ctdb_marshall_record in Er. exfalso. unfold entry_size, dsize in *. simpl in Er.
         case_match; [|done]. zbool. lia. }
    assert (∀ rest, record_at id (dd_key dd) (header_bytes (dd_hdr dd)) rest (r ++ rest)
              ∧ dsize r = entry_size dd) as Hr.
    { intros rest. destruct (marshall_record_at _ _ _ _ _ rest (proj1 Hb) Er) as [Ha Hd].
      cbn [opt_header] in Ha, Hd. rewrite app_nil_r in Ha, Hd. split; [done|]. rewrite Hd.
      unfold entry_size, dsize. by rewrite length_header_bytes. }
    assert (wire (entry_record dd) r) as Hwr by (exists id; intros; apply Hr).
    destruct (Hr []) as [_ Hsz]. destruct (mb_append m r) as [m1|] eqn:Ea.
    2: { unfold mb_append in Ea. exfalso. case_match; [|done]. zbool. lia. }
    destruct (IH (kds ++ [entry_record dd]) m1) as (m' & -> & Hm').
    + exists (rs ++ [r]). split; [|by apply Forall2_app; [|constructor]].
      eapply buffer_append; [done| |done]. apply (wire_read _ _ []) in Hwr. tauto.
    + unfold mb_append in Ea. case_match; [done|]. zbool. apply (inj Some) in Ea. subst m1.
      assert (dsize (set_mb_count (m ++ r) (u32 (mb_count m + 1))) = dsize m + dsize r) as ->; [|lia].
      unfold set_mb_count, dsize. rewrite length_set32, length_app; [lia|].
      destruct Hb as (_ & _ & _ & ->). rewrite !length_app, !length_le_bytes. lia.
    + exists m'. split; [done|]. by rewrite <- app_assoc in Hm'.
Qed.

Lemma tree_entries_spec tree dd : dd ∈ tree_entries tree ↔ ∃ h, tree !! h = Some dd.
Proof.
  unfold tree_entries. rewrite list_elem_of_fmap. setoid_rewrite merge_sort_Permutation. split.
  - intros ([h d] & -> & Hin). apply elem_of_map_to_list in Hin. by exists h.
  - intros [h Hh]. exists (h, dd). split; [done|]. by apply elem_of_map_to_list.
Qed.

Lemma tree_entries_keys vd : tree_ok vd → NoDup (dd_key <$> tree_entries (vd_delete_list vd)).
Proof.
  intros Hok. unfold tree_entries. rewrite merge_sort_Permutation.
  pose proof (NoDup_fst_map_to_list (vd_delete_list vd)) as Hnd.
  assert (Forall (λ p, p.1 = ctdb_hash (dd_key p.2)) (map_to_list (vd_delete_list vd))) as Hf.
  { apply Forall_forall. intros [h dd] Hin%elem_of_map_to_list. by apply Hok. }
  induction Hf as [|[h dd] l Hh Hf IH]; [constructor|]. rewrite !fmap_cons in *. simpl in *.
  apply NoDup_cons in Hnd as [Hn Hnd]. constructor; [|by apply IH].
  intros (d & Ed & ([h' d'] & -> & Hin)%list_elem_of_fmap)%list_elem_of_fmap. apply Hn.
  rewrite Forall_forall in Hf. pose proof (Hf _ Hin) as E. simpl in *. rewrite Hh, Ed, <- E.
  apply list_elem_of_fmap. by exists (h', d').
Qed.

Lemma tree_entries_sub t t' : t ⊆ t' → tree_entries t ⊆+ tree_entries t'.
Proof.
  intros Hs. unfold tree_entries. rewrite !merge_sort_Permutation.
  by apply fmap_submseteq, map_to_list_submseteq.
Qed.

(** The stored records are bytes and their flag VACUUM_MIGRATED is clear, as
    every store by a daemon leaves it. *)
Definition settled db : Prop :=
  db_ok db ∧ ∀ k, has_record db k →
    flags (header_of_bytes (tdb_fetch (db_ltdb db) k)) &? CTDB_REC_FLAG_VACUUM_MIGRATED = false.

Definition keeps_records db db' : Prop :=
  db_id db' = db_id db ∧ settled db' ∧ ∀ k, has_record db k → has_record db' k.

Lemma keeps_records_one db db' key h :
  settled db → db_id db' = db_id db → header_ok h →
  flags h &? CTDB_REC_FLAG_VACUUM_MIGRATED = false →
  (∀ k, k ≠ key → tdb_fetch (db_ltdb db') k = tdb_fetch (db_ltdb db) k) →
  tdb_fetch (db_ltdb db') key = tdb_fetch (db_ltdb db) key
  ∨ tdb_fetch (db_ltdb db') key = header_bytes h ++ [] →
  keeps_records db db'.
Proof.
  intros [Hok Hs] Hid Hh Hf Ho Hk. unfold keeps_records, settled, has_record in *.
  split_and!; [done|..]; intros k; (destruct (decide (k = key)) as [->|Hne]; [|rewrite Ho by done; auto]).
  - destruct Hk as [->| ->]; [apply Hok|]. rewrite app_nil_r. apply header_bytes_u8.
  - destruct Hk as [->| ->]; [apply Hs|]. by rewrite header_of_bytes_app.
  - destruct Hk as [->| ->]; [done|]. intros _. rewrite app_nil_r, length_header_bytes. done.
Qed.

(** A store by the lmaster keeps the record. *)
Lemma store_keeps_records lc vm db key h ret h' db' :
  ¬ store_may_fail T → lc_vnn_map lc = Some vm → ctdb_lmaster vm key = lc_pnn lc →
  settled db → header_ok h → flags h &? CTDB_REC_FLAG_VACUUM_MIGRATED = false →
  ctdb_ltdb_store lc db key h [] = (ret, h', db') → keeps_records db db'.
Proof.
  intros Hfail Hvm Hl Hs Hh Hf E. unfold ctdb_ltdb_store in E. destruct (db_server_store db).
  - apply (store_server_inv _ vm) in E as (E1 & E2 & E3 & _ & E4 & E5 & t & q & c & Hw); [|done].
    apply (keeps_records_one _ _ key h'); [done|by rewrite Hw|by apply E5|..|done|].
    + rewrite E4. apply has_flag_false. unfold has_flag in Hf. apply Z.bits_inj'. intros i Hi.
      rewrite Z.land_spec, !Z.ldiff_spec, Z.bits_0. by destruct (Z.testbit CTDB_REC_FLAG_VACUUM_MIGRATED i);
        rewrite ?andb_false_r.
    + destruct (decide (ret = 0)) as [Hr|Hr]; [|left; by destruct (E2 Hr) as [?|[_ ?]]].
      right. rewrite (E1 Hr). assert ((store_keep lc db vm key h []).1 = true) as ->; [|done].
      unfold store_keep. rewrite Hl, (Z.eqb_refl (lc_pnn lc)), Hf. cbn [negb]. by repeat case_goal.
  - destruct (ltdb_store_plain _ _ _ _) as [r d] eqn:Ep. simplify_eq.
    apply store_plain_inv in Ep as (E1 & E2 & E3 & t & Hw).
    apply (keeps_records_one _ _ key h'); [done|by rewrite Hw|done..|].
    destruct (decide (ret = 0)) as [Hr|Hr]; [right; auto|left]. by destruct (E2 Hr) as [?|[_ ?]].
Qed.

Lemma first_keeps_records lc vm chain dd db vd records db' vd' records' :
  ¬ store_may_fail T → lc_vnn_map lc = Some vm → settled db →
  delete_marshall_traverse_first lc vm chain dd db vd records = Some (db', vd', records') →
  keeps_records db db' ∧ vd_delete_list vd' ⊆ vd_delete_list vd.
Proof.
  intros Hfail Hvm Hs. assert (keeps_records db db) as Hrefl by done.
  unfold delete_marshall_traverse_first.
  case_goal; [intros [= <- <- <-]; split; [done|apply drop_entry_sub]|].
  destruct (still_deletable _ _ _ _ _) eqn:Es; cbn [negb];
    [|intros [= <- <- <-]; split; [done|apply drop_entry_sub]].
  destruct (ctdb_ltdb_store _ _ _ _ _) as [[r h'] d] eqn:E.
  unfold still_deletable in Es. rewrite !andb_true_iff, !Z.eqb_eq, Nat.eqb_eq in Es.
  destruct Es as (Hlen & _ & Hl).
  assert (keeps_records db d) as Hd.
  { eapply store_keeps_records in E; [done..| |].
    - apply header_of_bytes_ok; [apply Hs|lia].
    - apply Hs. unfold has_record. lia. }
  case_goal; [intros [= <- <- <-]; split; [done|apply drop_entry_sub]|].
  destruct (delete_marshall_traverse _ _); cbn [mbind option_bind]; [|done]. by intros [= <- <- <-].
Qed.

(** The first round loses no record. *)
Lemma traverse_first_keeps_records env lc vm visits db vd records db' vd' records' :
  ¬ store_may_fail T → lc_vnn_map lc = Some vm → settled db →
  traverse_first env lc vm visits db vd records = Some (db', vd', records') →
  keeps_records db db' ∧ vd_delete_list vd' ⊆ vd_delete_list vd.
Proof.
  intros Hfail Hvm. revert db vd records. induction visits as [|h visits IH]; intros db vd records Hs; simpl.
  - by intros [= <- <- <-].
  - destruct (vd_delete_list vd !! h) as [dd|]; [|by apply IH].
    destruct (delete_marshall_traverse_first _ _ _ _ _ _ _) as [[[d v] r]|] eqn:E;
      cbn [mbind option_bind]; [|done].
    eapply first_keeps_records in E as ((E1 & E2 & E3) & E4); [|done..].
    intros ((F1 & F2 & F3) & F4)%IH; [|done]. split; [split_and!; [congruence|done|eauto]|by etrans].
Qed.

(** Node [n] answers and returns the record [kd] last. *)
Definition refuses_last (ctl : Z → bytes → ctdb_context T → Z * bytes * ctdb_context T) (f : Z → fate)
    (id : Z) (kd : bytes * bytes) (blob : bytes) nodes (n : Z) : Prop :=
  f n = Answered ∧ ∃ s kds reply s', nodes !! n = Some s ∧ ctl n blob s = (0, reply, s')
  ∧ blob_has id (kds ++ [kd]) reply ∧ Forall (λ kd, (sizeof_header <= length kd.2)%nat) kds
  ∧ ∀ k, k ∈ kds.*1 → ctdb_hash k ≠ ctdb_hash kd.1.

Lemma control_loop_refused ctl f id kd blob active vd nodes :
  NoDup active → tree_ok vd → (∀ n, n ∈ active → refuses_last ctl f id kd blob nodes n) →
  let '(ret, vd', nodes') := control_loop ctl f blob active vd nodes in
  ret = 0 ∧ vd_delete_list vd' !! ctdb_hash kd.1 = vd_delete_list vd !! ctdb_hash kd.1
  ∧ ∀ n s, n ∈ active → nodes !! n = Some s → nodes' !! n = Some (ctl n blob s).2.
Proof.
  intros Hnd. revert vd nodes. induction Hnd as [|n active Hn Hnd IH]; intros vd nodes Hok Hall; simpl.
  { split_and!; [done..|]. by intros n s Hin%not_elem_of_nil. }
  destruct (Hall n (list_elem_of_here _ _)) as (Hf & s & kds & reply & s' & Es & Ec & Hb & Hl & Hh).
  unfold send_vacuum. rewrite Es, Hf, Ec. cbn [negb Z.eqb].
  pose proof (process_reply_last id kds kd reply vd Hb Hl Hok Hh) as Hp. pose proof (process_reply_sub reply vd) as Hsub.
  destruct (process_reply reply vd) as [ret vd1]. destruct Hp as [-> Hp]. cbn [negb Z.eqb].
  specialize (IH vd1 (<[n := s']> nodes) (tree_ok_sub _ _ Hsub Hok)).
  pose proof (control_loop_other ctl f blob active vd1 (<[n := s']> nodes) n Hn) as Ho.
  destruct (control_loop _ _ _ _ _ _) as [[ret vd2] nodes2]. destruct IH as (-> & IH1 & IH2).
  { intros m Hm. destruct (Hall m (list_elem_of_further _ _ _ Hm)) as (Hfm & sm & Hrest). split; [done|]. exists sm.
    destruct Hrest as (kds' & reply' & sm' & Em & Hrest). exists kds', reply', sm'. split; [|done].
    rewrite lookup_insert_ne; [done|]. by intros <-. }
  split_and!; [done|by rewrite IH1|]. intros m sm [->|Hm]%elem_of_cons Em.
  - simplify_eq. cbn [snd] in Ho. by rewrite Ho, lookup_insert_eq, Ec.
  - apply IH2; [done|]. rewrite lookup_insert_ne; [done|]. by intros <-.
Qed.

(** The last round only deletes records of the list. *)
Lemma traverse_last_spec env pnn vm visits db vd k :
  tree_ok vd → has_record db k → ¬ has_record (traverse_last env pnn vm visits db vd).1 k →
  ∃ dd, vd_delete_list vd !! ctdb_hash k = Some dd ∧ dd_key dd = k.
Proof.
  revert db vd. induction visits as [|h visits IH]; intros db vd Hok Hk; simpl; [done|].
  destruct (vd_delete_list vd !! h) as [dd|] eqn:E; [|by apply IH].
  destruct (decide (k = dd_key dd)) as [->|Hne]; [intros _; exists dd; by rewrite <- (Hok _ _ E)|].
  assert (vd_delete_list (delete_record_traverse pnn vm (ve_last_chain env (dd_key dd)) dd db vd).2 ⊆ vd_delete_list vd
    ∧ has_record (delete_record_traverse pnn vm (ve_last_chain env (dd_key dd)) dd db vd).1 k) as [Hs Hr].
  { unfold delete_record_traverse. do 2 (case_goal; [done|]). destruct (tdb_delete _ _) as [t r] eqn:Ed.
    assert (has_record (set_db_ltdb db t) k).
    { unfold has_record. simpl. by rewrite (tdb_delete_other _ _ _ _ _ Ed Hne). }
    case_goal; [done|]. split; [apply drop_entry_sub|done]. }
  destruct (delete_record_traverse _ _ _ _ _ _) as [d v]. intros Hn.
  destruct (IH d v (tree_ok_sub _ _ Hs Hok) Hr Hn) as (dd' & E' & <-). exists dd'.
  split; [|done]. by eapply lookup_weaken.
Qed.
End rounds.

(** ** A run deletes everywhere *)

Section deletes.
Context {T : Type} `{TdbLaws T}.
Implicit Types (db : ctdb_db_context T) (nodes : gmap Z (ctdb_context T)) (vd : vacuum_data).

(** The blob of the whole list can be built. *)
Definition list_fits vd : Prop :=
  Z.of_nat offsetof_marshall_data + entries_size (tree_entries (vd_delete_list vd)) < MAX_TALLOC_SIZE.

(** The blob of the second round. *)
Lemma second_blob vd vd' id :
  vd_delete_list vd' ⊆ vd_delete_list vd → list_fits vd → is_u32 id → tree_ok vd' →
  ∃ m, traverse_marshall (tree_entries (vd_delete_list vd')) (Some (mb_empty id)) = Some (Some m)
    ∧ let kds := entry_record <$> tree_entries (vd_delete_list vd') in
      blob_has id kds m ∧ NoDup kds.*1 ∧ Forall (λ kd, (sizeof_header <= length kd.2)%nat) kds
      ∧ ∀ dd, vd_delete_list vd' !! ctdb_hash (dd_key dd) = Some dd → dd_key dd ∈ kds.*1.
Proof.
  intros Hsub Hfit Hid Hok.
  destruct (traverse_marshall_spec id (tree_entries (vd_delete_list vd')) [] (mb_empty id)) as (m & -> & Hm).
  - exists []. split; [by apply buffer_empty|constructor].
  - unfold list_fits in Hfit. pose proof (entries_size_sub _ _ (tree_entries_sub _ _ Hsub)).
    change (dsize (mb_empty id)) with (Z.of_nat offsetof_marshall_data). lia.
  - exists m. split; [done|]. assert ((entry_record <$> tree_entries (vd_delete_list vd')).*1
      = dd_key <$> tree_entries (vd_delete_list vd')) as Ek by by rewrite <- list_fmap_compose.
    cbv zeta. rewrite Ek. split_and!; [done|by apply tree_entries_keys|..].
    + apply Forall_fmap, Forall_forall. intros dd _. cbn [entry_record snd compose].
      by rewrite length_header_bytes.
    + intros dd E. apply list_elem_of_fmap. exists dd. split; [done|]. apply tree_entries_spec. eauto.
Qed.

Lemma active_nodup pnn nodemap self : NoDup (nf_pnn <$> nodemap) → NoDup (list_of_active_nodes pnn nodemap self).
Proof.
  intros Hnd. unfold list_of_active_nodes, list_of_nodes. eapply sublist_NoDup; [done|].
  apply fmap_sublist, sublist_filter.
Qed.

(** The blob and the nodes with which the second round of a run starts: the
    records are still on the list after the first round, in which all active
    nodes answered RECEIVE_RECORDS. *)
Definition second_round env lc vm db vd nodes (active : list Z) (m : bytes) nodes1 : Prop :=
  ∃ db1 vd1 records vd2,
    traverse_first env lc vm (ve_first_visits env) db (set_vd_delete_left vd (vd_delete_count vd))
      (Some (mb_empty (db_id db))) = Some (db1, vd1, records)
    ∧ control_loop (λ n, ctdb_control_receive_records (ve_receive_locks env n))
        (ve_receive_fate env) (blob_of records) active vd1 nodes = (0, vd2, nodes1)
    ∧ traverse_marshall (tree_entries (vd_delete_list vd2)) (Some (mb_empty (db_id db))) = Some (Some m).

(** C33: When [ctdb_process_delete_list] removes a record from the local
    database, it succeeded; TRY_DELETE_RECORDS was sent with one and the same
    blob, which has the record, to every active node in the state the first round
    left it in; every node answered, and the state of the node after its answer is
    the one at the end of the run, in which it has no copy of the record unless
    it returned it as the last record in the list of those it could not delete.
    (No store or delete of a record with content fails; the records are byte
    strings without the flag VACUUM_MIGRATED; the blob of the whole list can be
    allocated; the list is indexed by the hashes.) *)
Theorem vacuum_deletes_everywhere env lc vm db vd nodes nodemap ret db' vd' nodes' k
  (Hfail : ¬ store_may_fail T) (Hvm : lc_vnn_map lc = Some vm) (Hs : settled db)
  (Hid : is_u32 (db_id db)) (Hok : tree_ok vd) (Hfit : list_fits vd)
  (Hmap : ve_nodemap env = Some nodemap) (Hnd : NoDup (nf_pnn <$> nodemap))
  (Hrun : ctdb_process_delete_list env lc vm db vd nodes = Some (ret, db', vd', nodes'))
  (Hk : has_record db k) (Hgone : ¬ has_record db' k) :
  let active := list_of_active_nodes (lc_pnn lc) nodemap false in
  ret = 0 ∧ ∃ m nodes1, second_round env lc vm db vd nodes active m nodes1
  ∧ k ∈ (mb_records m).*1
  ∧ ∀ n, n ∈ active → ∃ s reply s' dbn, nodes1 !! n = Some s
      ∧ ctdb_control_try_delete_records (ve_delete_locks env n) m s = (0, reply, s')
      ∧ nodes' !! n = Some s' ∧ find_db (db_id db) (cx_db_list s') = Some dbn
      ∧ (¬ has_record dbn k ∨ last (mb_records reply).*1 = Some k).
Proof.
  cbv zeta. unfold ctdb_process_delete_list in Hrun. case_match; [by simplify_eq|]. rewrite Hmap in Hrun.
  destruct (traverse_first _ _ _ _ _ _ _) as [[[db1 vd1] records]|] eqn:E1; cbn [mbind option_bind] in Hrun; [|done].
  pose proof E1 as E1'. apply traverse_first_keeps_records in E1 as ((Eid & _ & Hkeep) & Hsub1); [|done..].
  apply Hkeep in Hk. change (vd_delete_list vd1 ⊆ vd_delete_list vd) in Hsub1.
  pose proof (control_loop_sub (λ n, ctdb_control_receive_records (ve_receive_locks env n))
    (ve_receive_fate env) (blob_of records) (list_of_active_nodes (lc_pnn lc) nodemap false) vd1 nodes) as Hsub2.
  destruct (control_loop _ _ _ _ vd1 nodes) as [[ret1 vd2] nodes1] eqn:Er. cbn [fst snd] in Hsub2.
  destruct (Z.eqb_spec ret1 0) as [->|]; cbn [negb] in Hrun; [|by simplify_eq]. case_match; [by simplify_eq|].
  assert (tree_ok vd2) as Hok2 by (eapply tree_ok_sub; [|exact Hok]; by etrans).
  rewrite Eid in Hrun. destruct (second_blob vd vd2 (db_id db)) as (m & Em & Hm & Hm1 & Hm2 & Hm3);
    [by etrans|done..|].
  rewrite Em in Hrun. cbn [mbind option_bind] in Hrun.
  change (blob_of (Some m)) with m in Hrun.
  destruct (control_loop _ _ _ _ vd2 nodes1) as [[ret2 vd3] nodes2] eqn:E2.
  pose proof (control_loop_sub (λ n, ctdb_control_try_delete_records (ve_delete_locks env n))
    (ve_delete_fate env) m (list_of_active_nodes (lc_pnn lc) nodemap false) vd2 nodes1) as Hsub3.
  rewrite E2 in Hsub3. cbn [fst snd] in Hsub3. destruct (Z.eqb_spec ret2 0) as [->|]; cbn [negb] in Hrun;
    [|by simplify_eq]. case_match; [by simplify_eq|].
  pose proof (traverse_last_spec env (lc_pnn lc) vm (ve_last_visits env) db1 vd3 k) as Hlast.
  destruct (traverse_last _ _ _ _ _ _) as [db2 vd4]. simplify_eq.
  destruct Hlast as (dd & Edd & <-); [by eapply tree_ok_sub|done..|]. split; [done|].
  assert (dd_key dd ∈ (entry_record <$> tree_entries (vd_delete_list vd2)).*1) as Hin
    by (apply Hm3; by eapply lookup_weaken).
  exists m, nodes1. split; [by exists db1, vd1, records, vd2|].
  split; [by destruct (blob_records _ _ _ Hm) as [-> _]|]. intros n Hn.
  by destruct (delete_round _ _ _ _ _ _ _ _ _ _ Hm Hm1 Hm2 (active_nodup _ _ _ Hnd) Hok2 E2 n (dd_key dd))
    as (s & reply & s' & dbn & ? & ? & ? & ? & ?); [done..|by rewrite Edd|exists s, reply, s', dbn].
Qed.

End deletes.

(** ** Examples *)

(** Node 0 is the lmaster of all keys; an empty record on it, and a copy on node
    1 with sequence number [r]. *)
Definition example_vacuum_vm : ctdb_vnn_map := mk_vnn_map 5 1 [0].
Definition example_vacuum_key : bytes := [107; 49].
Definition example_vacuum_header (r : Z) : ctdb_ltdb_header :=
  mk_header r 0 0 CTDB_REC_FLAG_MIGRATED_WITH_DATA.
Definition example_vacuum_db (r : Z) (data : bytes) : ctdb_db_context memtdb :=
  mk_db 7 false false false
    (mk_memtdb (<[example_vacuum_key := header_bytes (example_vacuum_header r) ++ data]> ∅) true 0)
    example_tdb [] false true false [] ∅ ∅ 0 [] 0 0 [] [] [].
Definition example_vacuum_node (r : Z) : ctdb_context memtdb :=
  mk_ctdb 1 example_vacuum_vm [] 0 true [example_vacuum_db r [88; 89]] ∅ 0 [] 0 0
    (λ _, 0) (λ _, 0) [] [] [] [] [].
Definition example_vacuum_data : vacuum_data :=
  add_record_to_delete_list example_vacuum_key (example_vacuum_header 5)
    (ctdb_vacuum_init_vacuum_data 7 2).
Definition example_vacuum_env : vacuum_env :=
  mk_venv (Some example_vacuum_vm) 0 (Some [mk_naf 0 0; mk_naf 1 0]) (λ _, true) (λ _, true) (λ _, true)
    [ctdb_hash example_vacuum_key] [ctdb_hash example_vacuum_key] (λ _, Answered) (λ _, Answered)
    (λ _ _, (true, true)) (λ _ _, (true, true)) (λ _, true).
Definition example_vacuum_lc : ltdb_ctx := mk_ltdb_ctx 0 (Some example_vacuum_vm) false true (0, 0).
Definition example_vacuum_run (r : Z) :=
  ctdb_process_delete_list example_vacuum_env example_vacuum_lc example_vacuum_vm
    (example_vacuum_db 5 []) example_vacuum_data {[ 1 := example_vacuum_node r ]}.

Lemma example_vacuum_fetch r data k :
  tdb_fetch (db_ltdb (example_vacuum_db r data)) k
  = if decide (k = example_vacuum_key) then header_bytes (example_vacuum_header r) ++ data else [].
Proof.
  change (tdb_fetch (db_ltdb (example_vacuum_db r data)) k) with (default []
    ((<[example_vacuum_key := header_bytes (example_vacuum_header r) ++ data]> ∅ : gmap bytes bytes) !! k)).
  case_decide as Hk; [by rewrite Hk, lookup_insert_eq|by rewrite lookup_insert_ne].
Qed.

Lemma example_vacuum_settled : settled (example_vacuum_db 5 []).
Proof.
  split; intros k; unfold has_record; rewrite example_vacuum_fetch; case_decide.
  - apply Forall_app. split; [apply header_bytes_u8|constructor].
  - constructor.
  - done.
  - unfold sizeof_header. simpl. lia.
Qed.

Lemma example_vacuum_list :
  vd_delete_list example_vacuum_data
  = <[ctdb_hash example_vacuum_key := mk_dd (example_vacuum_header 5) example_vacuum_key]> ∅.
Proof. done. Qed.

Lemma example_vacuum_tree : tree_ok example_vacuum_data.
Proof.
  unfold tree_ok. rewrite example_vacuum_list. apply map_Forall_insert_2; [done|apply map_Forall_empty].
Qed.

(** The run has removed the local record. *)
Definition example_vacuum_gone (o : option (Z * ctdb_db_context memtdb * vacuum_data
    * gmap Z (ctdb_context memtdb))) : Prop :=
  match o with
  | Some (ret, db', _, _) => ret = 0 ∧ tdb_fetch (db_ltdb db') example_vacuum_key = []
  | None => False
  end.

Lemma vacuum_deletes_everywhere_witness :
  ∃ ret db' vd' nodes', example_vacuum_run 3 = Some (ret, db', vd', nodes') ∧ ret = 0
  ∧ ∃ m nodes1, second_round example_vacuum_env example_vacuum_lc example_vacuum_vm (example_vacuum_db 5 [])
      example_vacuum_data {[ 1 := example_vacuum_node 3 ]}
      (list_of_active_nodes 0 [mk_naf 0 0; mk_naf 1 0] false) m nodes1
  ∧ example_vacuum_key ∈ (mb_records m).*1
  ∧ ∀ n, n ∈ list_of_active_nodes 0 [mk_naf 0 0; mk_naf 1 0] false →
    ∃ s reply s' dbn, nodes1 !! n = Some s
      ∧ ctdb_control_try_delete_records (ve_delete_locks example_vacuum_env n) m s = (0, reply, s')
      ∧ nodes' !! n = Some s' ∧ find_db 7 (cx_db_list s') = Some dbn
      ∧ (¬ has_record dbn example_vacuum_key ∨ last (mb_records reply).*1 = Some example_vacuum_key).
Proof.
  assert (example_vacuum_gone (example_vacuum_run 3)) as Hg by (vm_compute; by split).
  unfold example_vacuum_gone in Hg.
  destruct (example_vacuum_run 3) as [[[[ret db'] vd'] nodes']|] eqn:E; [|destruct Hg].
  destruct Hg as [_ Hg]. exists ret, db', vd', nodes'. split; [reflexivity|].
  apply (vacuum_deletes_everywhere example_vacuum_env example_vacuum_lc example_vacuum_vm
    (example_vacuum_db 5 []) example_vacuum_data {[ 1 := example_vacuum_node 3 ]}
    [mk_naf 0 0; mk_naf 1 0] ret db' vd' nodes' example_vacuum_key).
  - apply memtdb_no_failure.
  - reflexivity.
  - apply example_vacuum_settled.
  - unfold is_u32. simpl. lia.
  - apply example_vacuum_tree.
  - vm_compute. reflexivity.
  - reflexivity.
  - apply (bool_decide_unpack _). vm_compute. exact I.
  - exact E.
  - unfold has_record. rewrite example_vacuum_fetch. apply Nat.leb_le. vm_compute. reflexivity.
  - unfold has_record. rewrite Hg. simpl. unfold sizeof_header. lia.
Defined.

(** Node 1 has a newer copy of the record and refuses to delete it. *)
Definition example_vacuum_entry : delete_record_data := mk_dd (example_vacuum_header 5) example_vacuum_key.
Definition example_vacuum_blob : bytes :=
  blob_of (default None (traverse_marshall [example_vacuum_entry] (Some (mb_empty 7)))).

Lemma example_vacuum_blob_has : blob_has 7 [entry_record example_vacuum_entry] example_vacuum_blob.
Proof.
  destruct (traverse_marshall_spec 7 [example_vacuum_entry] [] (mb_empty 7)) as (m & E & Hm).
  - exists []. split; [apply buffer_empty; unfold is_u32; lia|constructor].
  - vm_compute. reflexivity.
  - unfold example_vacuum_blob. rewrite E. exact Hm.
Qed.

Lemma example_vacuum_refuses : ∃ s', ctdb_control_try_delete_records (λ _, (true, true)) example_vacuum_blob
  (example_vacuum_node 9) = (0, example_vacuum_blob, s').
Proof. eexists. vm_compute. reflexivity. Qed.


(** ** Repacking *)

Section repack.
Context {T : Type} `{TdbLaws T, !TdbTxn T, !TdbTxnLaws T}.
Implicit Types (t : T) (vd : vacuum_data).

(** The copy has the records of the source without those that are vacuumed. *)
Definition kept (pnn : Z) (vm : ctdb_vnn_map) vd (vacuum : bool) (k : bytes) (v : bytes) : Prop :=
  vacuum && vacuumable pnn vm vd k v = false.

Lemma repack_loop pnn vm vd vacuum records dest t :
  NoDup records.*1 → (∀ k, k ∈ records.*1 → tdb_lookup dest k = None) →
  traverse (repack_traverse pnn vm vd vacuum) records (dest, false) = Some (t, false) →
  (∀ k v, tdb_lookup t k = Some v ↔
     tdb_lookup dest k = Some v ∨ (k, v) ∈ records ∧ kept pnn vm vd vacuum k v)
  ∧ tdb_in_transaction t = tdb_in_transaction dest
  ∧ (tdb_in_transaction dest = true → ∀ k, tdb_saved t k = tdb_saved dest k).
Proof.
  revert dest. induction records as [|[k v] records IH]; intros dest Hnd Hnew; simpl.
  - intros [= <-]. split_and!; try done. intros k v. split; [by left|].
    intros [?|[Hin%not_elem_of_nil _]]; done.
  - rewrite fmap_cons in Hnd. apply NoDup_cons in Hnd as [Hn Hnd]. simpl in Hn.
    unfold repack_traverse at 1. destruct (vacuum && vacuumable pnn vm vd k v) eqn:Ev.
    + intros Et. apply IH in Et as (E1 & E2 & E3); [|done|].
      2: { intros k' Hk'. apply Hnew. rewrite fmap_cons. by apply elem_of_cons; right. }
      split_and!; [|done..]. intros k' v'. rewrite E1, elem_of_cons. unfold kept.
      split; [tauto|]. intros [?|[[[= -> ->]|?] ?]]; [by left|congruence|by right].
    + cbn [fst snd]. unfold tdb_insert. rewrite tdb_exists_lookup, Hnew by apply list_elem_of_here.
      rewrite bool_decide_false by (by intros []).
      destruct (tdb_store dest k v) as [d r] eqn:Es. destruct (Z.eqb_spec r 0) as [->|]; cbn [negb]; [|done].
      intros Et. apply IH in Et as (E1 & E2 & E3); [|done|].
      2: { intros k' Hk'. rewrite (tdb_lookup_store_other _ _ _ _ _ _ Es) by (by intros ->).
           apply Hnew. rewrite fmap_cons. by apply elem_of_cons; right. }
      destruct (tdb_store_txn _ _ _ _ _ Es) as [F1 F2]. split_and!.
      * intros k' v'. rewrite E1, elem_of_cons. destruct (decide (k' = k)) as [->|Hne].
        -- rewrite (tdb_lookup_store _ _ _ _ Es), Hnew by apply list_elem_of_here. split.
           ++ intros [[= <-]|[Hin _]]; [right; split; [by left|done]|].
              exfalso. apply Hn, list_elem_of_fmap. by exists (k, v').
           ++ intros [?|[[[= <-]|Hin] _]]; [done|by left|].
              exfalso. apply Hn, list_elem_of_fmap. by exists (k, v').
        -- rewrite (tdb_lookup_store_other _ _ _ _ _ _ Es Hne).
           split; [tauto|]. intros [?|[[[= -> ->]|?] ?]]; [by left|done|by right].
      * congruence.
      * intros Ht k'. rewrite E3, F2 by congruence. done.
Qed.

Lemma repack_copy_spec pnn vm vd vacuum src dest t :
  (∀ k, tdb_lookup dest k = None) → repack_copy pnn vm vd vacuum src dest = (t, true) →
  (∀ k v, tdb_lookup t k = Some v ↔ tdb_lookup src k = Some v ∧ kept pnn vm vd vacuum k v)
  ∧ tdb_in_transaction t = tdb_in_transaction dest
  ∧ (tdb_in_transaction dest = true → ∀ k, tdb_saved t k = tdb_saved dest k).
Proof.
  intros Hd. unfold repack_copy. destruct (tdb_traverse_read src) as [records|] eqn:Er; [|done].
  destruct (traverse _ _ _) as [[t1 []]|] eqn:Et; [done| |done]. intros [= ->].
  apply repack_loop in Et as (E1 & E2 & E3); [|by eapply tdb_traverse_nodup|by intros].
  split_and!; [|done..]. intros k v. rewrite E1, Hd, (tdb_traverse_spec _ _ _ _ Er). clear.
  split; [by intros [|]|auto].
Qed.

(** A copy that fails leaves the transaction of the destination alone. *)
Lemma repack_copy_txn pnn vm vd vacuum src dest t ok :
  repack_copy pnn vm vd vacuum src dest = (t, ok) →
  tdb_in_transaction t = tdb_in_transaction dest
  ∧ (tdb_in_transaction dest = true → ∀ k, tdb_saved t k = tdb_saved dest k).
Proof.
  unfold repack_copy. destruct (tdb_traverse_read src) as [records|]; [|by intros [= <- <-]].
  destruct (traverse _ _ _) as [[t1 e]|] eqn:Et; [|by intros [= <- <-]]. intros [= <- _].
  assert (∀ e0 d, traverse (repack_traverse pnn vm vd vacuum) records (d, e0) = Some (t1, e) →
    tdb_in_transaction t1 = tdb_in_transaction d
    ∧ (tdb_in_transaction d = true → ∀ k, tdb_saved t1 k = tdb_saved d k)) as Hgen; [|by eapply Hgen].
  clear Et. induction records as [|[k v] records IH]; intros e0 d; simpl; [by intros [= <- _]|].
  unfold repack_traverse at 1. case_goal; [apply IH|]. cbn [fst snd]. unfold tdb_insert.
  destruct (tdb_exists d k); [by intros [= <- _]|].
  destruct (tdb_store d k v) as [d1 r] eqn:Es. destruct (tdb_store_txn _ _ _ _ _ Es) as [F1 F2].
  case_goal; [by intros [= <- _]|]. intros [E1 E2]%IH. split; [congruence|].
  intros Ht k'. rewrite E2, F2 by congruence. done.
Qed.

Lemma repack_copy_live pnn vm vd vacuum src dest `{!TdbReliable T} :
  (∀ k, tdb_lookup dest k = None) → (repack_copy pnn vm vd vacuum src dest).2 = true.
Proof.
  intros Hd. unfold repack_copy. destruct (rl_traverse src) as [records Er]. rewrite Er.
  assert (∃ t, traverse (repack_traverse pnn vm vd vacuum) records (dest, false) = Some (t, false)) as [t ->];
    [|done].
  apply tdb_traverse_nodup in Er. assert (∀ k, k ∈ records.*1 → tdb_lookup dest k = None) as Hnew by auto.
  clear Hd. revert dest Er Hnew. induction records as [|[k v] records IH]; intros dest Hnd Hnew; simpl; [by eexists|].
  rewrite fmap_cons in Hnd, Hnew. apply NoDup_cons in Hnd as [Hn Hnd].
  unfold repack_traverse at 1. case_goal; [apply IH; [done|]; intros k' Hk'; apply Hnew; by apply elem_of_cons; right|].
  cbn [fst snd]. unfold tdb_insert. rewrite tdb_exists_lookup, Hnew by apply list_elem_of_here.
  rewrite bool_decide_false by (by intros []). destruct (rl_store dest k v) as [d Es]. rewrite Es.
  apply IH; [done|]. intros k' Hk'. rewrite (tdb_lookup_store_other _ _ _ _ _ _ Es) by (by intros ->).
  apply Hnew. by apply elem_of_cons; right.
Qed.

Lemma repack_succeeds pnn vm vd t `{!TdbReliable T} :
  tdb_in_transaction t = false → (ctdb_repack_tdb pnn vm vd true t).2 = 0.
Proof.
  intros Hin. unfold ctdb_repack_tdb. destruct (rl_start t Hin) as [t0 E0]. rewrite E0. cbn [negb Z.eqb].
  destruct (tdb_start_ok _ _ E0) as (_ & S1 & _).
  pose proof (repack_copy_live pnn vm vd true t0 tdb_create (λ k, tdb_lookup_create k)) as L1.
  destruct (repack_copy _ _ _ _ _ _) as [tmp_db ok1]. simpl in L1. subst ok1. cbn [negb].
  destruct (rl_wipe t0) as [t1 E1]. rewrite E1. cbn [negb Z.eqb]. destruct (tdb_wipe_txn _ _ _ E1) as [W1 _].
  pose proof (repack_copy_live pnn vm vd false tmp_db t1 (λ k, tdb_lookup_wipe _ _ k E1)) as L2.
  destruct (repack_copy _ _ _ _ _ _) as [t2 ok2] eqn:E2. simpl in L2. subst ok2. cbn [negb].
  destruct (repack_copy_txn _ _ _ _ _ _ _ _ E2) as [R1 _].
  destruct (rl_commit t2) as [t3 E3]; [congruence|]. by rewrite E3.
Qed.

(** [ctdb_repack_tdb], when it succeeds, leaves exactly the records of the
    database that are not an unchanged empty record of the delete list, and no
    transaction open; when it fails before the commit, the database is as
    before; and it succeeds when the temporary database can be created and no
    tdb operation fails. *)
Theorem repack_correct pnn vm vd tmp t t' ret
  (Hin : tdb_in_transaction t = false) (E : ctdb_repack_tdb pnn vm vd tmp t = (t', ret)) :
  (TdbReliable T → tmp = true → ret = 0)
  ∧ (ret = 0 → tdb_in_transaction t' = false
     ∧ ∀ k, tdb_lookup t' k = v ← tdb_lookup t k; if vacuumable pnn vm vd k v then None else Some v)
  ∧ (ret ≠ 0 →
       (tdb_in_transaction t' = false ∧ ∀ k, tdb_lookup t' k = tdb_lookup t k)
       ∨ ∃ t1 r, tdb_transaction_commit t1 = (t', r) ∧ r ≠ 0 ∧ tdb_in_transaction t1 = true
           ∧ ∀ k, tdb_saved t1 k = tdb_lookup t k).
Proof.
  split.
  { intros Hrel ->. pose proof (repack_succeeds pnn vm vd t Hin) as Hs. by rewrite E in Hs. }
  assert (∀ t1, tdb_in_transaction t1 = true → (∀ k, tdb_saved t1 k = tdb_lookup t k) →
    tdb_in_transaction (tdb_transaction_cancel t1).1 = false
    ∧ ∀ k, tdb_lookup (tdb_transaction_cancel t1).1 k = tdb_lookup t k) as Hcancel.
  { intros t1 H1 H2'. destruct (tdb_transaction_cancel t1) as [t2 r] eqn:Ec.
    destruct (tdb_cancel_open _ _ _ Ec H1) as [C1 C2]. split; [done|]. intros k. by rewrite C2. }
  revert E. unfold ctdb_repack_tdb. destruct (tdb_transaction_start t) as [t0 r0] eqn:E0.
  destruct (Z.eqb_spec r0 0) as [->|Hr0]; cbn [negb].
  2: { intros [= <- <-]. split; [done|]. intros _. left. by rewrite (tdb_start_fail _ _ _ E0 Hr0). }
  destruct (tdb_start_ok _ _ E0) as (_ & S1 & S2 & S3).
  destruct tmp; cbn [negb]; [|intros [= <- <-]; split; [done|]; intros _; left; by apply Hcancel].
  destruct (repack_copy pnn vm vd true t0 tdb_create) as [tmp_db ok1] eqn:E1.
  destruct ok1; cbn [negb]; [|intros [= <- <-]; split; [done|]; intros _; left; by apply Hcancel].
  apply repack_copy_spec in E1 as (Hc1 & _); [|by intros; apply tdb_lookup_create].
  destruct (tdb_wipe_all t0) as [t1 r1] eqn:E1. destruct (tdb_wipe_txn _ _ _ E1) as [W1 W2].
  rewrite S1 in W1. assert (∀ k, tdb_saved t1 k = tdb_lookup t k) as W3 by (intros; by rewrite W2, S3).
  destruct (Z.eqb_spec r1 0) as [->|]; cbn [negb];
    [|intros [= <- <-]; split; [done|]; intros _; left; by apply Hcancel].
  destruct (repack_copy pnn vm vd false tmp_db t1) as [t2 ok2] eqn:E2.
  destruct (repack_copy_txn _ _ _ _ _ _ _ _ E2) as [R1 R2]. rewrite W1 in R1.
  assert (∀ k, tdb_saved t2 k = tdb_lookup t k) as R3 by (intros; by rewrite R2).
  destruct ok2; cbn [negb]; [|intros [= <- <-]; split; [done|]; intros _; left; by apply Hcancel].
  apply repack_copy_spec in E2 as (Hc2 & _); [|by intros; eapply tdb_lookup_wipe].
  destruct (tdb_transaction_commit t2) as [t3 r3] eqn:E3.
  destruct (Z.eqb_spec r3 0) as [->|Hr3]; cbn [negb]; intros [= <- <-]; split; try done.
  - intros _. destruct (tdb_commit_ok _ _ E3) as (_ & C1 & C2). split; [done|]. intros k. rewrite C2.
    apply option_eq. intros v. rewrite Hc2, Hc1, S2. unfold kept. simpl.
    destruct (tdb_lookup t k) as [v0|]; simpl; [|split; [by intros [[? _] _]|done]].
    destruct (vacuumable pnn vm vd k v0) eqn:Ev.
    + split; [intros [[[= <-] Hv] _]; congruence|done].
    + split; [by intros [[[= <-] _] _]|by intros [= <-]].
  - intros _. right. by exists t2, r3.
Qed.
End repack.

Definition example_repack_tdb : txtdb :=
  mk_txtdb (mk_memtdb (<[example_vacuum_key := header_bytes (example_vacuum_header 5)]>
    (<[[65] := header_bytes (example_vacuum_header 2) ++ [66]]> ∅)) true 0) None.

Lemma repack_correct_witness :
  let t' := (ctdb_repack_tdb 0 example_vacuum_vm example_vacuum_data true example_repack_tdb).1 in
  tdb_lookup t' example_vacuum_key = None
  ∧ tdb_lookup t' [65] = Some (header_bytes (example_vacuum_header 2) ++ [66]).
Proof.
  destruct (ctdb_repack_tdb 0 example_vacuum_vm example_vacuum_data true example_repack_tdb) as [t' ret] eqn:E.
  assert (tdb_in_transaction example_repack_tdb = false) as Hin by reflexivity.
  destruct (repack_correct 0 example_vacuum_vm example_vacuum_data true example_repack_tdb t' ret Hin E)
    as (Hlive & Hz & _).
  assert (ret = 0) as Hr by (apply Hlive; [apply txtdb_reliable|reflexivity]).
  destruct (Hz Hr) as [_ Hk]. cbn [fst]. rewrite !Hk. split; vm_compute; reflexivity.
Defined.

(** A run that could not get the node map, on the database above. *)
Definition example_repack_db (t : txtdb) : ctdb_db_context txtdb :=
  mk_db 7 false false false t example_repack_tdb [] false true false [] ∅ ∅ 0 [] 0 0 [] [] [].
Definition example_repack_env : vacuum_env :=
  mk_venv (Some example_vacuum_vm) 0 None (λ _, true) (λ _, true) (λ _, true)
    [] [] (λ _, Answered) (λ _, Answered) (λ _ _, (true, true)) (λ _ _, (true, true)) (λ _, true).
Definition example_repack_run :=
  ctdb_vacuum_and_repack_db example_repack_env 0 example_vacuum_vm [0; 1] true (0, 0) 20000 10000 5000 true
    (example_repack_db example_repack_tdb)
    {[ 1 := mk_ctdb 1 example_vacuum_vm [] 0 true
         [example_repack_db (mk_txtdb (db_ltdb (example_vacuum_db 3 [88; 89])) None)] ∅ 0 [] 0 0
         (λ _, 0) (λ _, 0) [] [] [] [] [] ]}.

(** Repacking after a failed run deletes the records of the list that were
    never deleted on the other nodes: locally the record is gone, while node 1
    still has its old copy with data. *)
Example repack_skips_remote_deletion :
  ('(ret, db', nodes', _) ← example_repack_run;
   s ← nodes' !! 1;
   dbn ← find_db 7 (cx_db_list s);
   Some (ret, tdb_lookup (db_ltdb db') example_vacuum_key, tdb_lookup (db_ltdb dbn) example_vacuum_key))
  = Some (0, None, Some (header_bytes (example_vacuum_header 3) ++ [88; 89])).
Proof. vm_compute. reflexivity. Qed.

(** ** The timer *)

(** Exactly one timer or child at any time. *)
Definition vacuum_handle_ok (vh : ctdb_vacuum_handle) : Prop :=
  (vh_timers vh + length (vh_children vh) = 1)%nat ∧ is_u32 (vh_fast_path_count vh).

Lemma vacuum_next_ok N e vh vh' run :
  vacuum_handle_ok vh → vacuum_next N e vh = Some (vh', run) →
  vacuum_handle_ok vh'
  ∧ (is_Some run → vh_children vh = [] ∧ length (vh_children vh') = 1%nat)
  ∧ (e = EvStop → vh_children vh' = []).
Proof.
  intros [Hone Hu]. pose proof (u32_range (vh_fast_path_count vh + 1)) as Hr.
  destruct e as [busy pipe fork| | |]; simpl.
  - destruct (Nat.eqb_spec (vh_timers vh) 0) as [|Ht]; [done|]. intros [= E]. revert E.
    unfold ctdb_vacuum_event. assert (vh_children vh = []) as Hc by (destruct (vh_children vh); [done|simpl in *; lia]).
    rewrite Hc in *. simpl in Hone.
    destruct busy; [intros [= <- <-]; split_and!; [split; simpl; [lia|done]|by intros []|done]|].
    destruct pipe; cbn [negb]; [|intros [= <- <-]; split_and!; [split; simpl; [lia|done]|by intros []|done]].
    assert (is_u32 (if N <? vh_fast_path_count vh then 0 else vh_fast_path_count vh)) as Hu'
      by (case_goal; [unfold is_u32; lia|done]).
    destruct fork; intros [= <- <-]; (split_and!; [split; simpl; [lia|done]| |done]); [done|by intros []].
  - destruct (vh_children vh) as [|pid rest]; [done|]. intros [= <- <-]. simpl in Hone.
    split_and!; [split; simpl; [lia|done]|by intros []|done].
  - destruct (vh_children vh) as [|pid rest]; [done|]. intros [= <- <-]. simpl in Hone.
    split_and!; [split; simpl; [lia|]|by intros []|done]. by case_goal.
  - intros [= <- <-]. destruct (vh_children vh) as [|pid [|]] eqn:Hc; simpl in *; [| |lia].
    + split_and!; [split; [rewrite Hc; simpl; lia|done]|by intros []|done].
    + split_and!; [split; simpl; [lia|by case_goal]|by intros []|done].
Qed.

Lemma vacuum_events_ok N es vh vh' runs :
  vacuum_handle_ok vh → vacuum_events N es vh = Some (vh', runs) → vacuum_handle_ok vh'.
Proof.
  revert vh runs. induction es as [|e es IH]; intros vh runs Hok; cbn [vacuum_events]; [by intros [= <- <-]|].
  destruct (vacuum_next N e vh) as [[vh1 run]|] eqn:E; cbn [mbind option_bind]; [|done].
  apply vacuum_next_ok in E as (Hok1 & _); [|done].
  destruct (vacuum_events N es vh1) as [[vh2 runs2]|] eqn:E2; cbn [mbind option_bind]; [|done].
  intros [= <- <-]. by eapply IH.
Qed.

(** Whatever happens, a volatile database has either its vacuum timer
    pending or exactly one vacuuming child running: a run starts only when none
    is running, vacuuming can always go on, and [ctdb_stop_vacuuming] leaves no
    child. *)
Theorem vacuum_one_at_a_time N es vh vh' runs
  (Hinit : ctdb_vacuum_init false = Some vh) (E : vacuum_events N es vh = Some (vh', runs)) :
  (vh_timers vh' = 1%nat ∧ vh_children vh' = [] ∨ vh_timers vh' = 0%nat ∧ length (vh_children vh') = 1%nat)
  ∧ (∀ e vh'', vacuum_next N e vh' = Some (vh'', Some true) ∨ vacuum_next N e vh' = Some (vh'', Some false) →
       vh_children vh' = [])
  ∧ (∃ e, is_Some (vacuum_next N e vh') ∧ e ≠ EvStop)
  ∧ ∀ vh'' run, vacuum_next N EvStop vh' = Some (vh'', run) → vh_children vh'' = [] ∧ vh_timers vh'' = 1%nat.
Proof.
  simpl in Hinit. injection Hinit as <-.
  assert (vacuum_handle_ok vh') as Hok.
  { apply vacuum_events_ok in E; [done|]. split; [done|]. unfold is_u32. simpl. lia. }
  pose proof Hok as [Hone _]. split_and!.
  - destruct (vh_children vh') as [|? [|]] eqn:Ec; simpl in *; [left; split; [lia|done]|right; split; [lia|done]|lia].
  - intros e vh'' [En|En]; apply vacuum_next_ok in En as (_ & Hs & _); try done; by apply Hs.
  - destruct (vh_timers vh') as [|n] eqn:Et.
    + exists EvChildDone. destruct (vh_children vh') eqn:Ec; [simpl in Hone; lia|]. simpl. by rewrite Ec.
    + exists (EvTimer true true None). simpl. by rewrite Et.
  - intros vh'' run En. apply vacuum_next_ok in En as ([Hone' _] & _ & Hs); [|done].
    specialize (Hs eq_refl). rewrite Hs in *. simpl in Hone'. split; [done|lia].
Qed.

Lemma vacuum_one_at_a_time_witness :
  ∃ vh runs, vacuum_events 3 [EvTimer true true None; EvTimer false true (Some 12)] (mk_vh 0 1 [])
    = Some (vh, runs) ∧ runs = [true]
  ∧ (vh_timers vh = 1%nat ∧ vh_children vh = [] ∨ vh_timers vh = 0%nat ∧ length (vh_children vh) = 1%nat).
Proof.
  eexists _, _. split; [vm_compute; reflexivity|]. split; [reflexivity|].
  apply (vacuum_one_at_a_time 3 [EvTimer true true None; EvTimer false true (Some 12)] (mk_vh 0 1 []) _ [true]);
    vm_compute; reflexivity.
Defined.

(** [n] rounds in which the child finishes. *)
Definition vacuum_rounds (pids : list Z) : list vacuum_event :=
  concat ((λ pid, [EvTimer false true (Some pid); EvChildDone]) <$> pids).

Lemma mod_step i m : 0 < m → (i + 1) mod m = if i mod m + 1 =? m then 0 else i mod m + 1.
Proof.
  intros Hm. pose proof (Z.mod_pos_bound i m Hm). rewrite <- (Z.add_mod_idemp_l i 1) by lia.
  case_goal; zbool; [|by rewrite Z.mod_small by lia]. rewrite Heqb. apply Z.mod_same. lia.
Qed.

Lemma vacuum_rounds_from N pids i c :
  0 < N < 2 ^ 32 - 1 → 0 <= i → 0 <= c <= N + 1 → (if N <? c then 0 else c) = i mod (N + 1) →
  ∃ c', vacuum_events N (vacuum_rounds pids) (mk_vh c 1 [])
    = Some (mk_vh c' 1 [], (λ j, j mod (N + 1) =? 0) <$> seqZ i (Z.of_nat (length pids))).
Proof.
  intros HN. revert i c. induction pids as [|pid pids IH]; intros i c Hi Hc E; [by eexists|].
  change (vacuum_rounds (pid :: pids)) with (EvTimer false true (Some pid) :: EvChildDone :: vacuum_rounds pids).
  cbn [vacuum_events vacuum_next vh_timers Nat.eqb].
  unfold ctdb_vacuum_event. cbn [negb vh_fast_path_count vh_timers vh_children mbind option_bind].
  cbn [vacuum_next vh_children mbind option_bind]. unfold vacuum_child_destructor.
  cbn [vh_fast_path_count vh_timers negb Z.eqb]. rewrite E, (proj2 (Z.ltb_lt 0 N)) by lia. cbn [andb].
  pose proof (Z.mod_pos_bound i (N + 1) ltac:(lia)).
  rewrite u32_id by (unfold is_u32; lia).
  destruct (IH (i + 1) (i mod (N + 1) + 1)) as [c' Hc']; [lia..| |].
  - rewrite mod_step by lia. destruct (Z.ltb_spec N (i mod (N + 1) + 1)), (Z.eqb_spec (i mod (N + 1) + 1) (N + 1)); lia.
  - exists c'. change (negb (1 =? 1)%positive) with false. cbn iota.
    change (0 + 1)%nat with 1%nat. simpl Nat.sub. simpl Nat.add. rewrite Hc'. cbn [mbind option_bind].
    rewrite (seqZ_cons i) by (simpl; lia). rewrite fmap_cons. unfold Z.succ.
    by replace (Z.pred (Z.of_nat (length (pid :: pids)))) with (Z.of_nat (length pids)) by (simpl; lia).
Qed.

(** With VacuumFastPathCount = N > 0, when every child finishes, the first
    run and then every (N+1)-th run is a full one. *)
Theorem full_vacuum_period N pids (HN : 0 < N < 2 ^ 32 - 1) :
  ∃ vh, vacuum_events N (vacuum_rounds pids) (mk_vh 0 1 [])
    = Some (vh, (λ i, i mod (N + 1) =? 0) <$> seqZ 0 (Z.of_nat (length pids))).
Proof.
  destruct (vacuum_rounds_from N pids 0 0) as [c' E]; [done|lia|lia| |by eexists].
  rewrite (proj2 (Z.ltb_ge N 0)) by lia. by rewrite Z.mod_0_l by lia.
Qed.

Lemma full_vacuum_period_witness :
  ∃ vh, vacuum_events 2 (vacuum_rounds [11; 12; 13; 14]) (mk_vh 0 1 [])
    = Some (vh, [true; false; false; true]).
Proof. apply (full_vacuum_period 2 [11; 12; 13; 14]). lia. Defined.
