(* ===== verification/VacuumLive.v ===== *)
(** * A vacuuming run completes

    When all controls are answered, all locks obtained and no other node holds
    anything newer, one run of the three rounds removes every record of the
    delete list from the other active nodes, and those that the last traversal
    reaches from this one. *)
From stdpp Require Import sorting.
From S2P Require Import Prelude Protocol Queue Marshal Ltdb Node Call Freeze Recovery Vacuum VacuumRun VacuumRunProps.

Lemma header_of_header_bytes h : header_ok h → header_of_bytes (header_bytes h) = h.
Proof. intros Hh. rewrite <- (app_nil_r (header_bytes h)). by apply header_of_bytes_app. Qed.

Lemma marshalled_size id kds m dd m1 :
  blob_has id kds m → delete_marshall_traverse dd (Some m) = Some (Some m1) →
  dsize m1 <= dsize m + entry_size dd.
Proof.
  intros (rs & Hb & _) E. unfold delete_marshall_traverse in E. cbn [mbind option_bind] in E.
  apply (inj Some) in E. pose proof (entry_size_pos dd).
  destruct (ctdb_marshall_record _ _ _ _) as [r|] eqn:Er; [|apply (inj Some) in E; subst; lia].
  destruct (buffer_read _ _ _ Hb) as (Eid & _). rewrite Eid in Er.
  destruct (marshall_record_at _ _ _ _ _ [] (proj1 Hb) Er) as [_ Hd]. cbn [opt_header] in Hd.
  rewrite app_nil_r in Hd. unfold mb_append in E. case_match; [done|]. apply (inj Some) in E. subst m1.
  assert (dsize r = entry_size dd) as <-.
  { rewrite Hd. unfold entry_size, dsize. by rewrite length_header_bytes. }
  unfold set_mb_count, dsize. rewrite length_set32, length_app; [lia|].
  destruct Hb as (_ & _ & _ & ->). rewrite !length_app, !length_le_bytes. lia.
Qed.

Section live.
Context {T : Type} `{TdbLaws T}.
Hypothesis Hstore : ∀ (t : T) k v, (tdb_store t k v).2 = 0.
Hypothesis Hdelete : ∀ (t : T) k, tdb_exists t k = true → (tdb_delete t k).2 = 0.
Implicit Types (db : ctdb_db_context T) (nodes : gmap Z (ctdb_context T)) (vd : vacuum_data).

(** ** The operations on other nodes *)

Definition cell db (k : bytes) : bool * bytes := (tdb_exists (db_ltdb db) k, tdb_fetch (db_ltdb db) k).

(** An operation that succeeds on records in state [P] and leaves them in [Q]. *)
Definition op_clean (op : bytes → bytes → ctdb_db_context T → Z * ctdb_db_context T)
    (P Q : bytes * bytes → bool * bytes → Prop) : Prop :=
  ∀ kd db, P kd (cell db kd.1) →
    let '(ret, db') := op kd.1 kd.2 db in
    ret = 0 ∧ db_id db' = db_id db ∧ Q kd (cell db' kd.1)
    ∧ ∀ k, k ≠ kd.1 → cell db' k = cell db k.

Lemma run_ops_clean op P Q kds db :
  op_clean op P Q → NoDup kds.*1 → (∀ kd, kd ∈ kds → P kd (cell db kd.1)) →
  ∃ db', run_ops op kds db = ([], db') ∧ db_id db' = db_id db
    ∧ (∀ kd, kd ∈ kds → Q kd (cell db' kd.1)) ∧ ∀ k, k ∉ kds.*1 → cell db' k = cell db k.
Proof.
  intros Hop. revert db. induction kds as [|kd kds IH]; intros db Hnd HP; simpl.
  - exists db. split_and!; try done. by intros kd Hkd%not_elem_of_nil.
  - rewrite fmap_cons in Hnd. apply NoDup_cons in Hnd as [Hn Hnd].
    specialize (Hop kd db (HP kd (list_elem_of_here _ _))) as Hkd.
    destruct (op kd.1 kd.2 db) as [ret d]. destruct Hkd as (-> & Hid & HQ & Ho).
    destruct (IH d Hnd) as (db' & -> & Hid' & HQ' & Ho').
    + intros kd' Hin. rewrite Ho; [apply HP; by apply elem_of_cons; right|].
      intros E. apply Hn. rewrite <- E. apply list_elem_of_fmap. by exists kd'.
    + exists db'. split_and!; [done|congruence|..].
      * intros kd' [->|Hin]%elem_of_cons; [|by apply HQ']. by rewrite Ho'.
      * intros k [Hk1 Hk2]%not_elem_of_cons. by rewrite Ho', Ho.
Qed.

Lemma vacuum_loop_clean op kds rs rest records db db' :
  Forall2 wire kds rs → Forall (λ kd, (sizeof_header <= length kd.2)%nat) kds →
  run_ops op kds db = ([], db') →
  vacuum_loop op (length rs) (concat rs ++ rest) records db = (Some records, db').
Proof.
  intros Hw. revert db. induction Hw as [|kd r kds rs Hr _ IH]; intros db Hl; simpl; [by intros [= ->]|].
  apply Forall_cons in Hl as [Hl1 Hl2]. rewrite <- app_assoc.
  destruct (wire_read kd r (concat rs ++ rest) Hr) as (-> & -> & -> & _).
  rewrite (proj2 (Nat.ltb_ge _ _)) by done. destruct (op kd.1 kd.2 db) as [ret d].
  destruct (run_ops op kds d) as [f d'] eqn:E. destruct (ret =? 0); [|done]. intros [= -> ->].
  by apply IH.
Qed.

(** A control that succeeds for all records. *)
Lemma vacuum_control_clean op P Q id kds blob (s : ctdb_context T) db :
  op_clean (op (cx_pnn s) (cx_vnn_map s)) P Q → blob_has id kds blob → NoDup kds.*1 →
  Forall (λ kd, (sizeof_header <= length kd.2)%nat) kds →
  find_db id (cx_db_list s) = Some db → (∀ kd, kd ∈ kds → P kd (cell db kd.1)) →
  ∃ db', vacuum_control op blob s = (0, mb_empty id, set_cx_db_list s (put_db db' (cx_db_list s)))
    ∧ db_id db' = id ∧ ∀ kd, kd ∈ kds → Q kd (cell db' kd.1).
Proof.
  intros Hop (rs & Hb & Hw) Hnd Hl Hf HP. destruct (buffer_read _ _ _ Hb) as (E1 & E2 & E3).
  pose proof (find_db_id _ _ _ Hf) as Hid.
  destruct (run_ops_clean _ _ _ _ _ Hop Hnd HP) as (db' & Er & Hid' & HQ & _). exists db'.
  unfold vacuum_control. rewrite E1, E2, E3, Nat2Z.id, Hf, Hid, <- (app_nil_r (concat rs)).
  rewrite (vacuum_loop_clean _ _ _ _ _ _ _ Hw Hl Er). split; [|split; [congruence|done]].
  rewrite (proj2 (Nat.ltb_ge _ _)); [done|]. destruct Hb as (_ & _ & _ & ->).
  rewrite !length_app, !length_le_bytes. unfold offsetof_marshall_data. lia.
Qed.

(** The copy of a record on node [n] is no obstacle to its deletion. *)
Definition outdated (n : Z) (h : ctdb_ltdb_header) (c : bool * bytes) : Prop :=
  c.1 = false ∨ (length c.2 < sizeof_header)%nat
  ∨ rsn (header_of_bytes c.2) <= rsn h ∧ flags (header_of_bytes c.2) &? CTDB_REC_RO_FLAGS = false
    ∧ dmaster (header_of_bytes c.2) ≠ n.

(** The record [kd] is the one of an entry for lmaster [pnn]. *)
Definition entry_for (pnn : Z) (vm : ctdb_vnn_map) (kd : bytes * bytes) : Prop :=
  ∃ h, kd.2 = header_bytes h ∧ header_ok h ∧ flags h &? CTDB_REC_RO_FLAGS = false ∧ dmaster h = pnn
    ∧ ctdb_lmaster vm kd.1 = pnn.

Definition received (kd : bytes * bytes) (c : bool * bytes) : Prop := c = (true, kd.2).

Lemma receive_clean n pnn vm (locks : bytes → bool * bool) :
  n ≠ pnn → (∀ k, locks k = (true, true)) →
  op_clean (λ key, store_tdb_record n vm (locks key).1 key)
    (λ kd c, entry_for pnn vm kd ∧ outdated n (header_of_bytes kd.2) c) received.
Proof.
  intros Hn Hlocks [k d] db [(h & Ed & Hh & Hro & Hdm & Hlm) Hout]. cbn [fst snd] in *. subst d.
  rewrite header_of_header_bytes in Hout by done.
  unfold store_tdb_record. rewrite Hlm, (proj2 (Z.eqb_neq pnn n)), length_header_bytes, Hlocks by done.
  cbn [fst negb Nat.eqb sizeof_header].
  rewrite header_of_header_bytes by done.
  destruct (tdb_store (db_ltdb db) k (header_bytes h)) as [t r] eqn:E.
  assert (r = 0) as -> by (specialize (Hstore (db_ltdb db) k (header_bytes h)); by rewrite E in Hstore).
  assert (0 = 0 ∧ db_id (set_db_ltdb db t) = db_id db
    ∧ received (k, header_bytes h) (cell (set_db_ltdb db t) k)
    ∧ ∀ k', k' ≠ k → cell (set_db_ltdb db t) k' = cell db k') as Hgoal.
  { split_and!; [done..| |].
    - unfold received, cell. cbn [db_ltdb set_db_ltdb snd].
      by rewrite (tdb_store_ok _ _ _ _ E), (tdb_store_exists _ _ _ _ E).
    - intros k' Hk. unfold cell. cbn [db_ltdb set_db_ltdb].
      by rewrite (tdb_store_other _ _ _ _ _ _ E Hk), (tdb_store_exists_other _ _ _ _ _ _ E Hk). }
  unfold outdated, cell in Hout. cbn [fst snd] in Hout.
  destruct (tdb_exists (db_ltdb db) k) eqn:Ee; cbn [negb orb]; [|done].
  destruct (Nat.ltb_spec (length (tdb_fetch (db_ltdb db) k)) sizeof_header) as [|Hl]; [done|].
  destruct Hout as [?|[?|(H1 & H2 & H3)]]; [done|lia|].
  by rewrite (proj2 (Z.ltb_ge _ _)), Hro, H2, (proj2 (Z.eqb_neq _ _)) by done.
Qed.

Lemma try_delete_clean n pnn vm (locks : bytes → bool * bool) :
  n ≠ pnn → (∀ k, locks k = (true, true)) →
  op_clean (λ key, delete_tdb_record n vm (locks key).1 (locks key).2 key)
    (λ kd c, entry_for pnn vm kd ∧ received kd c) (λ _ c, c.1 = false).
Proof.
  intros Hn Hlocks [k d] db [(h & Ed & Hh & Hro & Hdm & Hlm) Hrec]. cbn [fst snd] in *. subst d.
  unfold received, cell in Hrec. cbn [snd] in Hrec. apply pair_equal_spec in Hrec as [Ee Ef].
  unfold delete_tdb_record. rewrite Hlm, (proj2 (Z.eqb_neq pnn n)), length_header_bytes, Hlocks, Ee, Ef by done.
  rewrite length_header_bytes. cbn [fst snd negb]. rewrite Nat.eqb_refl, Nat.ltb_irrefl. cbn [negb].
  rewrite header_of_header_bytes by done.
  rewrite Z.ltb_irrefl, Hro, Hdm, (proj2 (Z.eqb_neq pnn n)) by done.
  destruct (tdb_delete (db_ltdb db) k) as [t r] eqn:E.
  assert (r = 0) as -> by (specialize (Hdelete (db_ltdb db) k Ee); by rewrite E in Hdelete).
  split_and!; [done..| |].
  - unfold cell. cbn [db_ltdb set_db_ltdb fst]. by eapply tdb_delete_exists.
  - intros k' Hk. unfold cell. cbn [db_ltdb set_db_ltdb].
    by rewrite (tdb_delete_other _ _ _ _ _ E Hk), (tdb_delete_exists_other _ _ _ _ _ E Hk).
Qed.

(** ** The rounds *)

Lemma process_empty id vd : is_u32 id → process_reply (mb_empty id) vd = (0, vd).
Proof.
  intros Hid. unfold process_reply. by destruct (buffer_read _ _ _ (buffer_empty id Hid)) as (_ & -> & _).
Qed.

Lemma control_loop_clean ctl f id blob active vd nodes :
  is_u32 id → NoDup active →
  (∀ n, n ∈ active → f n = Answered
     ∧ ∃ s s', nodes !! n = Some s ∧ ctl n blob s = (0, mb_empty id, s')) →
  ∃ nodes', control_loop ctl f blob active vd nodes = (0, vd, nodes')
    ∧ ∀ n s, n ∈ active → nodes !! n = Some s → nodes' !! n = Some (ctl n blob s).2.
Proof.
  intros Hid. revert nodes. induction active as [|n active IH]; intros nodes Hnd Hall; simpl.
  - exists nodes. split; [done|]. by intros n s Hn%not_elem_of_nil.
  - apply NoDup_cons in Hnd as [Hn Hnd].
    destruct (Hall n (list_elem_of_here _ _)) as (Hf & s & s' & Es & Ec).
    unfold send_vacuum. rewrite Es, Hf, Ec. cbn [negb Z.eqb]. rewrite process_empty by done. cbn [negb Z.eqb].
    destruct (IH (<[n := s']> nodes) Hnd) as (nodes' & El & Hres).
    + intros m Hm. destruct (Hall m) as (Hfm & sm & sm' & Em & Ecm); [by apply elem_of_cons; right|].
      split; [done|]. exists sm, sm'. split; [|done]. rewrite lookup_insert_ne; [done|]. by intros <-.
    + exists nodes'. split; [done|]. intros m sm [->|Hm]%elem_of_cons Em.
      * simplify_eq. pose proof (control_loop_other ctl f blob active vd (<[n := s']> nodes) n Hn) as Ho.
        rewrite El in Ho. simpl in Ho. by rewrite Ho, lookup_insert_eq, Ec.
      * apply Hres; [done|]. rewrite lookup_insert_ne; [done|]. by intros <-.
Qed.

(** The store of the first round bumps the RSN and changes nothing else. *)
Lemma first_store lc vm db key r :
  lc_vnn_map lc = Some vm → db_server_store db = true → db_persistent db = false → settled db →
  still_deletable (lc_pnn lc) vm r key db = true →
  ∃ h' db', ctdb_ltdb_store lc db key (header_of_bytes (tdb_fetch (db_ltdb db) key)) [] = (0, h', db')
    ∧ db_server_store db' = true ∧ db_persistent db' = false
    ∧ still_deletable (lc_pnn lc) vm (u64 (r + 1)) key db' = true
    ∧ (∀ k, k ≠ key → tdb_fetch (db_ltdb db') k = tdb_fetch (db_ltdb db) k).
Proof.
  intros Hvm Hsrv Hpers [Hok Hset] Hsd. set (h := header_of_bytes _).
  unfold still_deletable in Hsd. rewrite !andb_true_iff, !Z.eqb_eq, Nat.eqb_eq, negb_true_iff in Hsd.
  destruct Hsd as (Hlen & ((Hro & Hd) & Hr) & Hl). fold h in Hro, Hd, Hr.
  assert (header_ok h) as Hh by (apply header_of_bytes_ok; [apply Hok|lia]).
  assert (flags h &? CTDB_REC_FLAG_VACUUM_MIGRATED = false) as Hvf by (apply Hset; unfold has_record; lia).
  assert ((store_keep lc db vm key h []).1 = true) as Hkeep.
  { unfold store_keep. rewrite Hl, (Z.eqb_refl (lc_pnn lc)), Hvf. cbn [negb]. by repeat case_goal. }
  unfold ctdb_ltdb_store. rewrite Hsrv.
  destruct (ctdb_ltdb_store_server lc db key h []) as [[ret h'] db'] eqn:E.
  assert (ret = 0 ∧ rsn h' = u64 (rsn h + 1)) as [-> Hr'].
  { unfold ctdb_ltdb_store_server in E. rewrite Hvm in E.
    destruct (store_keep lc db vm key h []) as [keep sched]. simpl in Hkeep. subst keep.
    unfold store_bump in E. rewrite Hpers, Hd, Z.eqb_refl, Hro in E. cbn [negb andb] in E.
    destruct (tdb_store _ _ _) as [t r0] eqn:Et.
    set (sr := if negb (r0 =? 0) then _ else _) in E. destruct sr as [s' r']. injection E as <- <- _.
    split; [|done]. match goal with H : tdb_store ?t0 ?k0 ?v0 = _ |- _ =>
      specialize (Hstore t0 k0 v0); by rewrite H in Hstore end. }
  pose proof (store_server_inv _ _ _ _ _ _ _ _ _ Hvm E) as (E1 & _ & E3 & E4 & E5 & E6 & t & q & c & Hw).
  exists h', db'. rewrite Hkeep in E1. specialize (E1 eq_refl). rewrite app_nil_r in E1.
  split_and!; [done|by rewrite Hw|by rewrite Hw| |done].
  unfold still_deletable. rewrite E1, length_header_bytes, Nat.eqb_refl, (header_of_header_bytes h') by auto.
  rewrite E4, Hd, Hl, Hr', Hr, !Z.eqb_refl, E5. cbn [andb].
  by rewrite !has_flag_ldiff_disj, Hro by done.
Qed.

Lemma no_failures : ¬ store_may_fail T.
Proof.
  intros [(t & k & v & Hr)|(t & k & Hr & Hne)]; [by apply Hr, Hstore|].
  destruct (tdb_exists t k) eqn:Ee; [by apply Hr, Hdelete|]. apply tdb_exists_fetch in Ee as Ef.
  destruct (tdb_delete t k) as [t' r] eqn:E. destruct (tdb_delete_fail _ _ _ _ E Hr) as [?|?]; simpl in Hne; congruence.
Qed.

(** The first round on entries that are all still deletable. *)
Lemma traverse_first_live env lc vm dds db vd id kds m :
  lc_vnn_map lc = Some vm → (∀ k, ve_first_chain env k = true) →
  db_server_store db = true → db_persistent db = false → settled db →
  NoDup (dd_key <$> dds) →
  (∀ dd, dd ∈ dds → vd_delete_list vd !! ctdb_hash (dd_key dd) = Some dd
     ∧ still_deletable (lc_pnn lc) vm (rsn (dd_hdr dd)) (dd_key dd) db = true) →
  blob_has id kds m → dsize m + entries_size dds < MAX_TALLOC_SIZE →
  ∃ db' m', traverse_first env lc vm ((λ dd, ctdb_hash (dd_key dd)) <$> dds) db vd (Some m)
              = Some (db', vd, Some m')
    ∧ db_id db' = db_id db ∧ blob_has id (kds ++ (entry_record <$> dds)) m'
    ∧ (∀ dd, dd ∈ dds → still_deletable (lc_pnn lc) vm (u64 (rsn (dd_hdr dd) + 1)) (dd_key dd) db' = true)
    ∧ ∀ k, k ∉ dd_key <$> dds → tdb_fetch (db_ltdb db') k = tdb_fetch (db_ltdb db) k.
Proof.
  intros Hvm Hchain. revert db kds m. induction dds as [|dd dds IH]; intros db kds m Hsrv Hpers Hset Hnd Hall Hm Hsz.
  - exists db, m. rewrite app_nil_r. split_and!; try done. by intros dd Hdd%not_elem_of_nil.
  - rewrite fmap_cons in Hnd. apply NoDup_cons in Hnd as [Hn Hnd].
    destruct (Hall dd (list_elem_of_here _ _)) as [Hin Hsd].
    destruct (first_store lc vm db (dd_key dd) (rsn (dd_hdr dd))) as (h' & db1 & E & Hsrv1 & Hpers1 & Hsd1 & Ho1);
      [done..|].
    pose proof Hsd as Hl. unfold still_deletable in Hl. rewrite !andb_true_iff, Nat.eqb_eq, !Z.eqb_eq in Hl.
    destruct Hl as (Hlen & _ & Hl).
    destruct (store_keeps_records lc vm db (dd_key dd) (header_of_bytes (tdb_fetch (db_ltdb db) (dd_key dd)))
      0 h' db1 no_failures Hvm Hl Hset) as (Hid1 & Hset1 & _);
      [apply header_of_bytes_ok; [apply Hset|lia]|apply Hset; unfold has_record; lia|done|].
    destruct (traverse_marshall_spec id [dd] kds m Hm) as (m1 & Em1 & Hm1).
    { simpl in Hsz |- *. pose proof (entries_size_pos dds). lia. }
    cbn [traverse_marshall] in Em1. destruct (delete_marshall_traverse dd (Some m)) as [om|] eqn:Ed; [|done].
    cbn [mbind option_bind] in Em1. simplify_eq.
    destruct (IH db1 (kds ++ [entry_record dd]) m1) as (db' & m' & Et & Hid' & Hm' & Hsd' & Ho'); try done.
    + intros dd' Hdd'. destruct (Hall dd') as [Hin' Hs']; [by apply elem_of_cons; right|]. split; [done|].
      unfold still_deletable in Hs' |- *. rewrite Ho1; [done|]. intros E1. apply Hn.
      rewrite <- E1. apply list_elem_of_fmap. by exists dd'.
    + pose proof (marshalled_size _ _ _ _ _ Hm Ed). simpl in Hsz. lia.
    + exists db', m'. rewrite fmap_cons. cbn [traverse_first]. rewrite Hin.
      unfold delete_marshall_traverse_first. rewrite Hchain, Hsd. cbn [negb]. rewrite E. cbn [negb Z.eqb].
      rewrite Ed. cbn [mbind option_bind]. split_and!; [done|congruence| |..].
      * by rewrite <- app_assoc in Hm'.
      * intros dd' [->|Hdd']%elem_of_cons; [|by apply Hsd']. unfold still_deletable in Hsd1 |- *. by rewrite Ho'.
      * intros k [Hk1 Hk2]%not_elem_of_cons. by rewrite Ho', Ho1.
Qed.

(** The last round deletes exactly the entries it visits. *)
Lemma traverse_last_live env pnn vm visits db vd :
  (∀ k, ve_last_chain env k = true) → tree_ok vd →
  (∀ h dd, vd_delete_list vd !! h = Some dd →
     still_deletable pnn vm (u64 (rsn (dd_hdr dd) + 1)) (dd_key dd) db = true) →
  let '(db', vd') := traverse_last env pnn vm visits db vd in
  (∀ h dd, vd_delete_list vd !! h = Some dd → h ∈ visits → ¬ has_record db' (dd_key dd))
  ∧ (∀ k, ¬ has_record db k → ¬ has_record db' k)
  ∧ (∀ h dd, vd_delete_list vd !! h = Some dd → h ∉ visits →
       tdb_fetch (db_ltdb db') (dd_key dd) = tdb_fetch (db_ltdb db) (dd_key dd))
  ∧ ∀ h, vd_delete_list vd' !! h = if decide (h ∈ visits) then None else vd_delete_list vd !! h.
Proof.
  intros Hchain. revert db vd. induction visits as [|h visits IH]; intros db vd Hok Hall; cbn [traverse_last].
  - split; [by intros h dd _ Hh%not_elem_of_nil|]. split_and!; [done..|]. intros h.
    rewrite decide_False; [done|apply not_elem_of_nil].
  - destruct (vd_delete_list vd !! h) as [dd|] eqn:E.
    2: { specialize (IH db vd Hok Hall). destruct (traverse_last _ _ _ _ _ _) as [db' vd'].
         destruct IH as (IH1 & IH2 & IH3 & IH4). split_and!; [|done| |].
         - intros h' dd' E' [->|Hh]%elem_of_cons; [congruence|eauto].
         - intros h' dd' E' [_ Hh]%not_elem_of_cons. eauto.
         - intros h'. rewrite IH4. destruct (decide (h' = h)) as [->|Hne].
           + rewrite E. by repeat case_decide.
           + by rewrite (decide_ext (h' ∈ h :: visits) (h' ∈ visits)) by (rewrite elem_of_cons; tauto). }
    unfold delete_record_traverse. rewrite Hchain, (Hall _ _ E). cbn [negb].
    pose proof (Hall _ _ E) as Hsd. unfold still_deletable in Hsd. rewrite !andb_true_iff, Nat.eqb_eq in Hsd.
    destruct Hsd as (Hlen & _). destruct (tdb_delete (db_ltdb db) (dd_key dd)) as [t r] eqn:Ed.
    assert (r = 0) as ->.
    { destruct (tdb_exists (db_ltdb db) (dd_key dd)) eqn:Ee.
      - specialize (Hdelete _ _ Ee). by rewrite Ed in Hdelete.
      - rewrite tdb_exists_fetch in Hlen by done. done. }
    cbn [negb Z.eqb]. set (vd1 := set_vd_delete_left _ _).
    assert (vd_delete_list vd1 = delete h (vd_delete_list vd)) as Evd by (by rewrite (Hok _ _ E)).
    assert (∀ k, k ≠ dd_key dd → tdb_fetch t k = tdb_fetch (db_ltdb db) k) as Ho
      by (intros; by eapply tdb_delete_other).
    assert (¬ has_record (set_db_ltdb db t) (dd_key dd)) as Hgone.
    { unfold has_record. simpl. rewrite (tdb_delete_ok _ _ _ Ed). simpl. unfold sizeof_header. lia. }
    specialize (IH (set_db_ltdb db t) vd1). destruct (traverse_last _ _ _ _ _ _) as [db' vd'].
    destruct IH as (IH1 & IH2 & IH3 & IH4).
    + intros h' dd' E'. rewrite Evd in E'. by apply lookup_delete_Some in E' as [_ E'%Hok].
    + intros h' dd' E'. rewrite Evd in E'. apply lookup_delete_Some in E' as [Hne E'].
      pose proof (Hall _ _ E') as Hsd. unfold still_deletable in Hsd |- *. cbn [db_ltdb set_db_ltdb].
      rewrite Ho; [done|]. intros Ek. apply Hne. by rewrite (Hok _ _ E), (Hok _ _ E'), Ek.
    + assert (∀ k, ¬ has_record db k → ¬ has_record db' k) as Hmono.
      { intros k Hk. apply IH2. destruct (decide (k = dd_key dd)) as [->|Hne]; [done|].
        unfold has_record. simpl. by rewrite Ho. }
      split_and!; [|done| |].
      * intros h' dd' E' [->|Hh]%elem_of_cons; [simplify_eq; by apply IH2|].
        destruct (decide (h' = h)) as [->|Hne]; [simplify_eq; by apply IH2|].
        apply (IH1 h'); [|done]. rewrite Evd. by rewrite lookup_delete_ne.
      * intros h' dd' E' [Hne Hh]%not_elem_of_cons. rewrite (IH3 h' dd'); [|by rewrite Evd, lookup_delete_ne|done].
        apply Ho. intros Ek. apply Hne. by rewrite (Hok _ _ E), (Hok _ _ E'), Ek.
      * intros h'. rewrite IH4, Evd. destruct (decide (h' = h)) as [->|Hne].
        { rewrite lookup_delete_eq, (decide_True (P := h ∈ h :: visits)) by apply list_elem_of_here. by case_decide. }
        rewrite lookup_delete_ne by done.
        by rewrite (decide_ext (h' ∈ h :: visits) (h' ∈ visits)) by (rewrite elem_of_cons; tauto).
Qed.

(** ** The run *)

(** Everything the child asks for is granted. *)
Record willing (env : vacuum_env) : Prop := mk_willing {
  wl_first k : ve_first_chain env k = true;
  wl_last k : ve_last_chain env k = true;
  wl_receive n : ve_receive_fate env n = Answered;
  wl_delete n : ve_delete_fate env n = Answered;
  wl_receive_locks n k : ve_receive_locks env n k = (true, true);
  wl_delete_locks n k : ve_delete_locks env n k = (true, true);
}.

(** An entry that the node can delete. *)
Definition entry_ready (lc : ltdb_ctx) (vm : ctdb_vnn_map) db (dd : delete_record_data) : Prop :=
  header_ok (dd_hdr dd) ∧ flags (dd_hdr dd) &? CTDB_REC_RO_FLAGS = false
  ∧ dmaster (dd_hdr dd) = lc_pnn lc
  ∧ still_deletable (lc_pnn lc) vm (rsn (dd_hdr dd)) (dd_key dd) db = true.

(** Node [n] has the database, and the records [kds] are in state [P] there. *)
Definition node_has (vm : ctdb_vnn_map) (id : Z) (kds : list (bytes * bytes))
    (P : bytes * bytes → bool * bytes → Prop) (n : Z) nodes : Prop :=
  ∃ s dbn, nodes !! n = Some s ∧ cx_pnn s = n ∧ cx_vnn_map s = vm
    ∧ find_db id (cx_db_list s) = Some dbn ∧ ∀ kd, kd ∈ kds → P kd (cell dbn kd.1).

(** A round of controls that all succeed. *)
Lemma control_round op f vm id kds blob active vd nodes P Q :
  is_u32 id → NoDup active → blob_has id kds blob → NoDup kds.*1 →
  Forall (λ kd, (sizeof_header <= length kd.2)%nat) kds →
  (∀ n, f n = Answered) → (∀ n, n ∈ active → op_clean (op n n vm) (P n) (Q n)) →
  (∀ n, n ∈ active → node_has vm id kds (P n) n nodes) →
  ∃ nodes', control_loop (λ n, vacuum_control (op n)) f blob active vd nodes = (0, vd, nodes')
    ∧ ∀ n, n ∈ active → node_has vm id kds (Q n) n nodes'.
Proof.
  intros Hid Hnd Hb Hk Hl Hf Hop HP.
  assert (∀ n, n ∈ active → ∃ s s', nodes !! n = Some s ∧ vacuum_control (op n) blob s = (0, mb_empty id, s')
    ∧ node_has vm id kds (Q n) n (<[n := s']> ∅)) as Hctl.
  { intros n Hn. destruct (HP n Hn) as (s & dbn & Es & Ep & Ev & Ef & Ho).
    destruct (vacuum_control_clean (op n) (P n) (Q n) id kds blob s dbn) as (db' & E & Hid' & HQ); try done.
    - rewrite Ep, Ev. by apply Hop.
    - eexists s, _. split_and!; [done|exact E|]. eexists _, db'. split_and!; [apply lookup_insert_eq|done|done| |done].
      simpl. rewrite <- Hid'. eapply find_put. by rewrite Hid'. }
  destruct (control_loop_clean (λ n, vacuum_control (op n)) f id blob active vd nodes) as (nodes' & E & Hn'); [done..| |].
  { intros n Hn. split; [done|]. destruct (Hctl n Hn) as (s & s' & ? & ? & _). by exists s, s'. }
  exists nodes'. split; [done|]. intros n Hn. destruct (Hctl n Hn) as (s & s' & Es & Ec & s0 & dbn & E0 & Hs).
  rewrite lookup_insert_eq in E0. simplify_eq. exists s0, dbn. split; [|done].
  rewrite (Hn' n s Hn Es). by rewrite Ec.
Qed.

(** Both rounds of controls. *)
Lemma control_rounds env lc vm id vd nodes nodemap kds blob blob' :
  willing env → is_u32 id → is_u32 (lc_pnn lc) → NoDup (nf_pnn <$> nodemap) →
  blob_has id kds blob → blob_has id kds blob' → NoDup kds.*1 → Forall (λ kd, (sizeof_header <= length kd.2)%nat) kds →
  (∀ kd, kd ∈ kds → entry_for (lc_pnn lc) vm kd) →
  let active := list_of_active_nodes (lc_pnn lc) nodemap false in
  (∀ n, n ∈ active → node_has vm id kds (λ kd, outdated n (header_of_bytes kd.2)) n nodes) →
  ∃ nodes1 nodes2,
    control_loop (λ n, ctdb_control_receive_records (ve_receive_locks env n)) (ve_receive_fate env)
      blob active vd nodes = (0, vd, nodes1)
    ∧ control_loop (λ n, ctdb_control_try_delete_records (ve_delete_locks env n)) (ve_delete_fate env)
        blob' active vd nodes1 = (0, vd, nodes2)
    ∧ ∀ n, n ∈ active → node_has vm id kds (λ _ c, c.1 = false) n nodes2.
Proof.
  intros Hw Hid Hpnn Hnd Hb Hb' Hk Hl Hent active Hall.
  assert (∀ n, n ∈ active → n ≠ lc_pnn lc) as Hself.
  { intros n. unfold active, list_of_active_nodes, list_of_nodes.
    intros (nf & -> & [[_ Hne] _]%list_elem_of_filter)%list_elem_of_fmap. by rewrite u32_id in Hne. }
  destruct (control_round (λ n pnn vm key, store_tdb_record pnn vm (ve_receive_locks env n key).1 key)
    (ve_receive_fate env) vm id kds blob active vd nodes
    (λ n kd c, entry_for (lc_pnn lc) vm kd ∧ outdated n (header_of_bytes kd.2) c) (λ _, received))
    as (nodes1 & E1 & H1); [done|by apply active_nodup|done..|apply (wl_receive _ Hw)| | |].
  { intros n Hn. apply receive_clean; [by apply Hself|apply (wl_receive_locks _ Hw)]. }
  { intros n Hn. destruct (Hall n Hn) as (s & dbn & ? & ? & ? & ? & Ho). exists s, dbn. split_and!; try done.
    intros kd Hkd. split; [by apply Hent|by apply Ho]. }
  destruct (control_round (λ n pnn vm key, delete_tdb_record pnn vm (ve_delete_locks env n key).1
      (ve_delete_locks env n key).2 key)
    (ve_delete_fate env) vm id kds blob' active vd nodes1
    (λ n kd c, entry_for (lc_pnn lc) vm kd ∧ received kd c) (λ _ _ c, c.1 = false))
    as (nodes2 & E2 & H2); [done|by apply active_nodup|done..|apply (wl_delete _ Hw)| | |].
  { intros n Hn. apply try_delete_clean; [by apply Hself|apply (wl_delete_locks _ Hw)]. }
  { intros n Hn. destruct (H1 n Hn) as (s & dbn & ? & ? & ? & ? & Ho). exists s, dbn. split_and!; try done.
    intros kd Hkd. split; [by apply Hent|by apply Ho]. }
  by exists nodes1, nodes2.
Qed.

(** C34: When all locks are obtained, all controls answered and no tdb operation
    fails, a run of [ctdb_process_delete_list] on records that are still empty,
    with the node as dmaster and lmaster, of which the other active nodes have
    no copy or an older one they are not dmaster of, succeeds and leaves none of
    the records of the delete list on any other active node.  On this node it
    removes exactly those that the traversal of the last round visits, from the
    database and from the list: that traversal frees entries of the tree it walks,
    so that it may miss some; these keep their record, still empty and with the
    RSN of the first round, for a later run.  (The blob of the whole list can be
    allocated; in the first round no entry is dropped, so that it visits all.) *)
Theorem vacuum_completes env lc vm db vd nodes nodemap
  (Hw : willing env) (Hvm : lc_vnn_map lc = Some vm) (Hpnn : is_u32 (lc_pnn lc))
  (Hsrv : db_server_store db = true) (Hpers : db_persistent db = false) (Hset : settled db)
  (Hid : is_u32 (db_id db)) (Hok : tree_ok vd) (Hfit : list_fits vd) (Hcount : vd_delete_count vd ≠ 0)
  (Hmap : ve_nodemap env = Some nodemap) (Hnd : NoDup (nf_pnn <$> nodemap))
  (Hfirst : ve_first_visits env = (λ dd, ctdb_hash (dd_key dd)) <$> tree_entries (vd_delete_list vd))
  (Hready : ∀ h dd, vd_delete_list vd !! h = Some dd → entry_ready lc vm db dd)
  (Hnodes : ∀ n, n ∈ list_of_active_nodes (lc_pnn lc) nodemap false →
     node_has vm (db_id db) (entry_record <$> tree_entries (vd_delete_list vd))
       (λ kd, outdated n (header_of_bytes kd.2)) n nodes) :
  ∃ db' vd' nodes', ctdb_process_delete_list env lc vm db vd nodes = Some (0, db', vd', nodes')
    ∧ ∀ h dd, vd_delete_list vd !! h = Some dd →
        (if decide (h ∈ ve_last_visits env) then ¬ has_record db' (dd_key dd) ∧ vd_delete_list vd' !! h = None
         else still_deletable (lc_pnn lc) vm (u64 (rsn (dd_hdr dd) + 1)) (dd_key dd) db' = true
              ∧ vd_delete_list vd' !! h = Some dd)
        ∧ ∀ n, n ∈ list_of_active_nodes (lc_pnn lc) nodemap false →
            ∃ s dbn, nodes' !! n = Some s ∧ find_db (db_id db) (cx_db_list s) = Some dbn
              ∧ tdb_exists (db_ltdb dbn) (dd_key dd) = false.
Proof.
  assert (∀ dd, dd ∈ tree_entries (vd_delete_list vd) →
    vd_delete_list vd !! ctdb_hash (dd_key dd) = Some dd ∧ entry_ready lc vm db dd) as Hent.
  { intros dd [h E]%tree_entries_spec. rewrite <- (Hok _ _ E). eauto. }
  set (vd1 := set_vd_delete_left vd (vd_delete_count vd)).
  destruct (second_blob vd vd1 (db_id db)) as (m2 & Em2 & Hm2 & Hk & Hl & Hin); [done..|].
  change (vd_delete_list vd1) with (vd_delete_list vd) in *.
  destruct (traverse_first_live env lc vm (tree_entries (vd_delete_list vd)) db vd1 (db_id db) []
    (mb_empty (db_id db))) as (db1 & m1 & E1 & Hid1 & Hm1 & Hsd & _); try done.
  { apply (wl_first _ Hw). }
  { by apply tree_entries_keys. }
  { intros dd Hdd. destruct (Hent dd Hdd) as [? (_ & _ & _ & ?)]. done. }
  { exists []. split; [by apply buffer_empty|constructor]. }
  simpl app in Hm1.
  destruct (control_rounds env lc vm (db_id db) vd1 nodes nodemap
    (entry_record <$> tree_entries (vd_delete_list vd)) m1 m2) as (nodes1 & nodes2 & C1 & C2 & Hgone); try done.
  { intros kd (dd & -> & Hdd)%list_elem_of_fmap. destruct (Hent dd Hdd) as [_ (? & ? & ? & Hs)].
    exists (dd_hdr dd). unfold still_deletable in Hs. rewrite !andb_true_iff, !Z.eqb_eq in Hs.
    split_and!; tauto. }
  pose proof (traverse_last_live env (lc_pnn lc) vm (ve_last_visits env) db1 vd1 (wl_last _ Hw) Hok) as Hl3.
  destruct (traverse_last env (lc_pnn lc) vm (ve_last_visits env) db1 vd1) as [db2 vd2] eqn:E3.
  destruct Hl3 as (Hl3 & _ & Hl4 & Hl5).
  { intros h dd E. apply Hsd, tree_entries_spec. by exists h. }
  exists db2, vd2, nodes2. split.
  - unfold ctdb_process_delete_list. rewrite (proj2 (Z.eqb_neq _ _)) by done. fold vd1.
    rewrite Hmap, Hfirst, E1. cbn [mbind option_bind]. change (blob_of (Some m1)) with m1.
    rewrite C1. cbn [negb Z.eqb]. change (vd_delete_left vd1) with (vd_delete_count vd).
    rewrite (proj2 (Z.eqb_neq _ _)) by done. change (vd_delete_list vd1) with (vd_delete_list vd).
    rewrite Hid1, Em2. cbn [mbind option_bind]. change (blob_of (Some m2)) with m2. rewrite C2. cbn [negb Z.eqb].
    change (vd_delete_left vd1) with (vd_delete_count vd). rewrite (proj2 (Z.eqb_neq _ _)) by done. by rewrite E3.
  - intros h dd E. split.
    { specialize (Hl5 h). case_decide as Hv; [split; [by apply (Hl3 h)|done]|]. split; [|by rewrite Hl5].
      unfold still_deletable. rewrite (Hl4 h dd) by done. apply Hsd, tree_entries_spec. by exists h. }
    intros n Hn.
    destruct (Hgone n Hn) as (s & dbn & Es & _ & _ & Ef & Hc). exists s, dbn. split_and!; [done..|].
    apply (Hc (entry_record dd)). apply list_elem_of_fmap. exists dd. split; [done|]. apply tree_entries_spec.
    by exists h.
Qed.
End live.

(** ** Example *)

Lemma example_vacuum_entries :
  tree_entries (vd_delete_list example_vacuum_data) = [mk_dd (example_vacuum_header 5) example_vacuum_key].
Proof. vm_compute. reflexivity. Qed.

Lemma example_vacuum_lookup h dd :
  vd_delete_list example_vacuum_data !! h = Some dd →
  h = ctdb_hash example_vacuum_key ∧ dd = mk_dd (example_vacuum_header 5) example_vacuum_key.
Proof.
  rewrite example_vacuum_list. intros [[-> <-]|[_ ?]]%lookup_insert_Some; [done|].
  by rewrite lookup_empty in *.
Qed.

Lemma vacuum_completes_witness :
  ∃ db' vd' nodes', example_vacuum_run 3 = Some (0, db', vd', nodes')
    ∧ ¬ has_record db' example_vacuum_key
    ∧ ∀ n, n ∈ list_of_active_nodes 0 [mk_naf 0 0; mk_naf 1 0] false →
        ∃ s dbn, nodes' !! n = Some s ∧ find_db 7 (cx_db_list s) = Some dbn
          ∧ tdb_exists (db_ltdb dbn) example_vacuum_key = false.
Proof.
  assert (∀ (t : memtdb) k v, (tdb_store t k v).2 = 0) as Hstore by reflexivity.
  assert (∀ (t : memtdb) k, tdb_exists t k = true → (tdb_delete t k).2 = 0) as Hdelete.
  { intros t k. simpl. by destruct (mt_map t !! k). }
  destruct (vacuum_completes Hstore Hdelete example_vacuum_env
    example_vacuum_lc example_vacuum_vm
    (example_vacuum_db 5 []) example_vacuum_data {[ 1 := example_vacuum_node 3 ]} [mk_naf 0 0; mk_naf 1 0])
    as (db' & vd' & nodes' & E & Hres).
  - split; reflexivity.
  - reflexivity.
  - unfold is_u32. simpl. lia.
  - reflexivity.
  - reflexivity.
  - apply example_vacuum_settled.
  - unfold is_u32. simpl. lia.
  - apply example_vacuum_tree.
  - vm_compute. reflexivity.
  - vm_compute. discriminate.
  - reflexivity.
  - apply (bool_decide_unpack _). vm_compute. exact I.
  - rewrite example_vacuum_entries. reflexivity.
  - intros h dd [_ ->]%example_vacuum_lookup. split_and!; [|reflexivity..|vm_compute; reflexivity].
    unfold header_ok, is_u64, is_u32. simpl. unfold CTDB_REC_FLAG_MIGRATED_WITH_DATA. lia.
  - intros n Hn. change (n ∈ [1]) in Hn. apply list_elem_of_singleton in Hn as ->.
    eexists (example_vacuum_node 3), (example_vacuum_db 3 [88; 89]). split_and!; [reflexivity..|].
    rewrite example_vacuum_entries. intros kd Hkd. apply list_elem_of_singleton in Hkd as ->.
    right. right. vm_compute. split_and!; [discriminate|reflexivity|discriminate].
  - exists db', vd', nodes'. split; [exact E|].
    destruct (Hres (ctdb_hash example_vacuum_key) (mk_dd (example_vacuum_header 5) example_vacuum_key))
      as [Hlocal Hothers]; [rewrite example_vacuum_list; apply lookup_insert_eq|].
    rewrite decide_True in Hlocal by apply list_elem_of_here. split; [apply Hlocal|exact Hothers].
Defined.
