(* ===== verification/Cluster.v ===== *)
(** * The cluster

    Daemons exchanging packets over a network that delivers, reorders and
    loses them, with local clients that write records under the chainlock and
    vacuuming that deletes them.
    The headline results: at any time at most one node is the data master of a
    record, and a node that is data master holds the data last written. *)
From S2P Require Import Prelude Protocol Ltdb Node Call Owner Vacuum VacuumProps.

(** ** Local clients *)

Section client.
Context {T : Type} `{!TdbOps T}.
Implicit Types (db : ctdb_db_context T) (key data : bytes).

(** A client process attached to node [pnn]: it has no vnn map and no store
    function, and shares the tdb with the daemon. *)
Definition client_lc (pnn : Z) : ltdb_ctx := mk_ltdb_ctx pnn None false true (0, 0).

Definition set_db_server_store db (v : bool) : ctdb_db_context T :=
  mk_db (db_id db) (db_persistent db) (db_readonly db) (db_sticky db) (db_ltdb db)
    (db_rottdb db) (db_calls db) (db_seqnum_update db) v
    (db_persistent_state db) (db_revokechild_active db) (db_delete_queue db)
    (db_sticky_records db) (db_num_hot_keys db) (db_hot_keys db) (db_ro_delegations db)
    (db_ro_revokes db) (db_hop_count_bucket db) (db_chainlocks db) (db_ctrl_sent db).

(** One round of [ctdb_fetch_lock] under the chainlock: the record's header and
    data, or [None] when the node is not dmaster and the record has to be
    migrated first. *)
Definition ctdb_fetch_lock (pnn : Z) db key : option (ctdb_ltdb_header * bytes) :=
  let '(ret, header, data, _) := ctdb_ltdb_fetch (client_lc pnn)
                                   (set_db_server_store db false) key zero_header in
  if negb (ret =? 0) || negb (dmaster header =? pnn) then None else Some (header, data).

(** [ctdb_record_store] *)
Definition ctdb_record_store (pnn : Z) db key (header : ctdb_ltdb_header) data
    : Z * ctdb_db_context T :=
  if db_persistent db then (-1, db)
  else
    let '(ret, _, db') := ctdb_ltdb_store (client_lc pnn) (set_db_server_store db false)
                            key header data in
    (ret, set_db_server_store db' (db_server_store db)).

(** Fetch under the lock, store, unlock. *)
Definition client_write (pnn : Z) db key data : option (Z * ctdb_db_context T) :=
  '(header, _) ← ctdb_fetch_lock pnn db key;
  Some (ctdb_record_store pnn db key header data).

End client.

(** ** Steps *)

Section cluster.
Context {T : Type} `{TdbLaws T}.
Implicit Types (s : ctdb_context T).

Record cluster := mk_cluster {
  cl_nodes : gmap Z (ctdb_context T);
  cl_net : list packet;
}.

(** Messages and controls are outside of this model. *)
Definition ignore (_ : packet) : M T () := mret ().

Definition input ev (p : packet) : M T () := ctdb_input_pkt ev ignore ignore ignore p.

(** A packet that may be processed: it names a node as its source and is not a
    read-only copy of a record of database [D]. *)
Definition admissible (D : Z) s (p : packet) : Prop :=
  is_pnn (hdr_srcnode (packet_hdr p)) ∧ ro_reply D s p = false.

(** What a node does on its own: the event loop's pending work, a call of a
    local client, timeouts, resending after a reconfiguration, keepalives, and
    nodes coming and going. *)
Inductive node_prog (D : Z) (ev : node_env) s : M T () → Prop :=
  | prog_self p l1 l2 :
      cx_deferred s = l1 ++ p :: l2 → admissible D s p →
      node_prog D ev s (modify (λ s, set_cx_deferred s (l1 ++ l2)) ;; input ev p)
  | prog_lock lf l1 l2 :
      cx_lock_queue s = l1 ++ lf :: l2 → admissible D s (lf_hdr lf) →
      node_prog D ev s (modify (λ s, set_cx_lock_queue s (l1 ++ l2)) ;;
                        lock_fetch_callback ev ignore ignore ignore lf)
  | prog_timer c l1 l2 :
      cx_timers s = l1 ++ c :: l2 → is_pnn (hdr_srcnode (rc_hdr c)) →
      node_prog D ev s (modify (λ s, set_cx_timers s (l1 ++ l2)) ;; input ev (CTDB_REQ_CALL c))
  | prog_call_remote id call header :
      node_prog D ev s (ctdb_daemon_call_send_remote ev id call header ;; mret ())
  | prog_call_here id call :
      node_prog D ev s
        ('(_, header, data) ← db_fetch id (cl_key call);
         pnn ← gets cx_pnn;
         if negb (dmaster header =? pnn) then mret ()
         else ctdb_call_local_send id call header data ;; mret ())
  | prog_pindown id key : node_prog D ev s (ctdb_sticky_pindown_timeout id key)
  | prog_sticky id key : node_prog D ev s (ctdb_sticky_record_timeout id key)
  | prog_revoke id i : node_prog D ev s (revokechild_handler id i)
  | prog_resend : node_prog D ev s (ctdb_call_resend_all ev)
  | prog_keepalive d : node_prog D ev s (ctdb_send_keepalive ev d)
  | prog_dead pnn : node_prog D ev s (ctdb_node_dead pnn)
  | prog_connected pnn : node_prog D ev s (ctdb_node_connected pnn).

(** The outcome of a handler on node [n]: what it queued is on the network; a
    daemon that aborted is gone. *)
Definition settle (c : cluster) (n : Z) (o : outcome T ()) : cluster :=
  match o with
  | Ret _ s => mk_cluster (<[n := set_cx_net_out s []]> (cl_nodes c)) (cl_net c ++ cx_net_out s)
  | Stop _ s => mk_cluster (delete n (cl_nodes c)) (cl_net c ++ cx_net_out s)
  end.

Inductive label :=
  | Tau
  | Write (id : Z) (key data : bytes).

Inductive step (D : Z) : label → cluster → cluster → Prop :=
  | step_node c n s ev m :
      cl_nodes c !! n = Some s → node_prog D ev s m →
      step D Tau c (settle c n (m s))
  | step_deliver c n s ev p l1 l2 :
      cl_nodes c !! n = Some s → cl_net c = l1 ++ p :: l2 →
      hdr_destnode (packet_hdr p) = n → admissible D s p →
      step D Tau c (settle (mk_cluster (cl_nodes c) (l1 ++ l2)) n
                      (ctdb_recv_pkt ev ignore ignore ignore p s))
  | step_lose c p l1 l2 :
      cl_net c = l1 ++ p :: l2 → step D Tau c (mk_cluster (cl_nodes c) (l1 ++ l2))
  | step_crash c n :
      step D Tau c (mk_cluster (delete n (cl_nodes c)) (cl_net c))
  | step_write c n s id key data db ret db' :
      cl_nodes c !! n = Some s → find_db id (cx_db_list s) = Some db →
      Forall is_u8 data → client_write n db key data = Some (ret, db') →
      step D (if ret =? 0 then Write id key data else Tau) c
        (mk_cluster (<[n := set_cx_db_list s (put_db db' (cx_db_list s))]> (cl_nodes c)) (cl_net c))
  | step_vacuum c n s id db db' :
      cl_nodes c !! n = Some s → find_db id (cx_db_list s) = Some db →
      vacuum_op n (cx_vnn_map s) db db' →
      step D Tau c
        (mk_cluster (<[n := set_cx_db_list s (put_db db' (cx_db_list s))]> (cl_nodes c)) (cl_net c)).

Inductive steps (D : Z) : list label → cluster → cluster → Prop :=
  | steps_nil c : steps D [] c c
  | steps_cons l ls c1 c2 c3 : step D l c1 c2 → steps D ls c2 c3 → steps D (l :: ls) c1 c3.

(** The abstract register: the data last written. *)
Fixpoint last_write (D : Z) (K d0 : bytes) (ls : list label) : bytes :=
  match ls with
  | [] => d0
  | Write id key data :: ls =>
      last_write D K (if (id =? D) && bool_decide (key = K) then data else d0) ls
  | Tau :: ls => last_write D K d0 ls
  end.

(** A node that acts as dmaster of a record. *)
Definition is_dmaster (vm : ctdb_vnn_map) (D : Z) (K : bytes) (c : cluster) (n : Z)
    (db : ctdb_db_context T) : Prop :=
  ∃ s, cl_nodes c !! n = Some s ∧ find_db D (cx_db_list s) = Some db
       ∧ view_dmaster vm db K = n.

End cluster.

Arguments cluster : clear implicits.

(** ** A client's write *)

Section client_lemmas.
Context {T : Type} `{TdbLaws T}.
Implicit Types (db : ctdb_db_context T) (key data : bytes).

Lemma fetch_lock_spec n db key h d :
  ctdb_fetch_lock n db key = Some (h, d) →
  (sizeof_header <= length (tdb_fetch (db_ltdb db) key))%nat
  ∧ h = header_of_bytes (tdb_fetch (db_ltdb db) key) ∧ dmaster h = n ∧ d = view_data db key.
Proof.
  unfold ctdb_fetch_lock, ctdb_ltdb_fetch. cbn [lc_vnn_map client_lc].
  change (db_ltdb (set_db_server_store db false)) with (db_ltdb db).
  destruct (Nat.ltb_spec (length (tdb_fetch (db_ltdb db) key)) sizeof_header) as [Hl|Hl]; [done|].
  change (negb (0 =? 0)) with false. cbn [orb]. case_goal; [done|].
  intros [= <- <-]. zbool. split_and!; try done. unfold view_data.
  by rewrite (proj2 (Nat.ltb_ge _ _)).
Qed.

(** The client only writes a record its node is dmaster of, and leaves the
    node dmaster. *)
Lemma client_write_spec vm n db key data ret db' :
  db_good db → Forall is_u8 data → client_write n db key data = Some (ret, db') →
  db_good db' ∧ db_id db' = db_id db ∧ view_dmaster vm db key = n
  ∧ (ret = 0 → view_dmaster vm db' key = n ∧ view_data db' key = data)
  ∧ (ret ≠ 0 → tdb_fetch (db_ltdb db') key = tdb_fetch (db_ltdb db) key
               ∨ tdb_fetch (db_ltdb db') key = [] ∧ store_may_fail T)
  ∧ (∀ k, k ≠ key → tdb_fetch (db_ltdb db') k = tdb_fetch (db_ltdb db) k).
Proof.
  intros Hg Hu8. unfold client_write.
  destruct (ctdb_fetch_lock n db key) as [[h d0]|] eqn:Ef; [|done]. simpl.
  apply fetch_lock_spec in Ef as (Hl & Eh & Hd & _).
  assert (header_ok h) as Hok by (subst h; apply header_of_bytes_ok; [apply Hg|done]).
  assert (rofree h) as Hro by (subst h; by apply (dg_rofree _ Hg)).
  assert (view_dmaster vm db key = n) as Hview.
  { unfold view_dmaster. rewrite (proj2 (Nat.ltb_ge _ _)) by done. congruence. }
  clear Eh.
  unfold ctdb_record_store, ctdb_ltdb_store. simpl.
  destruct (db_persistent db); [intros [= <- <-]; split_and!; auto; done|].
  destruct (ltdb_store_plain _ _ _ _) as [r d] eqn:E. intros [= <- <-].
  apply store_plain_inv in E as (E1 & E2 & E3 & t & ->).
  cbn [db_ltdb set_db_ltdb set_db_server_store] in E1, E2, E3.
  set (db1 := set_db_server_store _ _).
  assert (∀ k, tdb_fetch (db_ltdb db1) k = tdb_fetch t k) as Ht by done.
  split_and!; try done.
  - destruct Hg as [Hdb Hr Hs Hc Hf]. split; try done.
    + intros k. rewrite Ht. destruct (decide (k = key)) as [->|Hne];
        [|rewrite E3 by done; apply Hdb].
      destruct (decide (r = 0)) as [Hz|Hz].
      * rewrite E1 by done. apply Forall_app. split; [apply header_bytes_u8|done].
      * destruct (E2 Hz) as [-> | [-> _]]; [apply Hdb|constructor].
    + intros k. rewrite Ht. destruct (decide (k = key)) as [->|Hne];
        [|rewrite E3 by done; apply Hf].
      destruct (decide (r = 0)) as [Hz|Hz]; [by rewrite E1, header_of_bytes_app by done|].
      destruct (E2 Hz) as [-> | [-> _]]; [apply Hf|]. simpl. unfold sizeof_header. lia.
  - intros Hz. destruct (view_stored vm db1 key h data) as (-> & -> & _);
      [done|by rewrite Ht, E1|done].
Qed.

End client_lemmas.

(** ** Conservation in the cluster *)

Section conserve.
Context {T : Type} `{TdbLaws T} {V : Type}.
Variables (vm : ctdb_vnn_map) (D : Z) (K : bytes) (val : bytes → V).
Hypothesis Hmap : vnn_map_ok vm.
Hypothesis Hpnns : Forall is_pnn (vm_map vm).
Hypothesis Hval : store_may_fail T → ∀ d d', val d = val d'.
Implicit Types (c : cluster T) (s : ctdb_context T).

(** Well-formed clusters. *)
Definition cluster_ok c : Prop :=
  map_Forall (λ n s, is_pnn n ∧ good D vm n s ∧ cx_net_out s = []) (cl_nodes c)
  ∧ Forall (packet_good D) (cl_net c).

(** The roles one node holds, all nodes hold, and all there are. *)
Definition node_roles (n : Z) s : list V := own D K vm n val s ++ flight D K val s.
Definition held (nodes : gmap Z (ctdb_context T)) : list V :=
  concat ((λ '(n, s), node_roles n s) <$> map_to_list nodes).
Definition roles c : list V := held (cl_nodes c) ++ (val <$> tokens D K (cl_net c)).

Lemma held_lookup nodes n s :
  nodes !! n = Some s → held nodes ≡ₚ node_roles n s ++ held (delete n nodes).
Proof.
  intros E. unfold held. rewrite <- (map_to_list_delete nodes n s) by done. done.
Qed.

Lemma held_insert nodes n s :
  held (<[n := s]> nodes) ≡ₚ node_roles n s ++ held (delete n nodes).
Proof.
  rewrite (held_lookup _ n s) by apply lookup_insert_eq. by rewrite delete_insert_eq.
Qed.

Lemma held_delete nodes n : held (delete n nodes) ⊆+ held nodes.
Proof.
  destruct (nodes !! n) as [s|] eqn:E; [|by rewrite delete_id].
  rewrite (held_lookup _ _ _ E). by apply submseteq_inserts_l.
Qed.

Lemma ignore_mild n B p :
  mild D K vm n val B (ignore (T := T) p) ∧ mild D K vm n val B (ignore (T := T) p)
  ∧ mild D K vm n val B (ignore (T := T) p).
Proof. split_and!; apply mild_quiet, quiet_ret. Qed.

(** A packet taken from the node's own queues is in the hands of the handler. *)
Lemma Inv_take n s s' p :
  good D vm n s → in_transit s ≡ₚ p :: in_transit s' →
  cx_vnn_map s' = cx_vnn_map s → cx_pnn s' = cx_pnn s → cx_db_list s' = cx_db_list s →
  packet_good D p ∧ Inv D K vm n val (node_roles n s) (tok D K val p) s'.
Proof.
  intros (Hv & Hn & Hdb & Hp) Ht E1 E2 E3. rewrite Ht in Hp.
  apply Forall_cons in Hp as [Hp1 Hp2]. split; [done|]. split.
  - split_and!; [congruence..|by rewrite E3|done].
  - unfold node_roles. assert (own D K vm n val s' = own D K vm n val s) as ->
      by (unfold own; by rewrite E3).
    apply submseteq_skips_l. apply Permutation_submseteq. unfold flight, tok, tokens.
    rewrite <- fmap_app. apply fmap_Permutation. rewrite <- omap_app. apply omap_Permutation. rewrite Ht. solve_Permutation.
Qed.

Lemma Inv_start n s : good D vm n s → Inv D K vm n val (node_roles n s) [] s.
Proof. intros Hg. split; [done|]. unfold node_roles. by rewrite app_nil_r. Qed.

Lemma node_prog_conserves n s ev m :
  is_pnn n → good D vm n s → node_prog D ev s m →
  wp D K val (node_roles n s) m (λ _, Inv D K vm n val (node_roles n s) []) s.
Proof.
  intros Hn Hg Hprog. pose proof (Inv_start n s Hg) as HI.
  destruct Hprog as [p l1 l2 E [Ha Hr]|lf l1 l2 E [Ha Hr]|c l1 l2 E Ha| | | | | | | | |].
  - destruct (Inv_take n s (set_cx_deferred s (l1 ++ l2)) p Hg) as [Hp HI'];
      [unfold in_transit; simpl; rewrite E; solve_Permutation|done..|].
    apply wp_bind. by apply wp_input_pkt; [..|apply ignore_mild|done|done|done|done].
  - destruct (Inv_take n s (set_cx_lock_queue s (l1 ++ l2)) (lf_hdr lf) Hg) as [Hp HI'];
      [unfold in_transit; simpl; rewrite E, !fmap_app; simpl; solve_Permutation|done..|].
    apply wp_bind. by apply wp_lock_callback; [..|apply ignore_mild|done|done|done|done].
  - apply wp_bind. apply wp_input_pkt; [done..|apply ignore_mild| |done|done|done].
    by eapply frame_Inv; [|exact HI].
  - apply wp_mild; [|done]. apply mild_bind; [by apply mild_send_remote|].
    intros ?. apply mild_quiet, quiet_ret.
  - apply wp_mild; [|done]. by apply mild_call_here.
  - apply wp_mild; [|done]. apply mild_quiet, quiet_pindown_timeout.
  - apply wp_mild; [|done]. apply mild_quiet, quiet_sticky_timeout.
  - apply wp_mild; [|done]. apply mild_quiet, quiet_revokechild.
  - apply wp_mild; [|done]. apply mild_resend_all.
  - apply wp_mild; [|done]. apply mild_keepalive.
  - apply wp_mild; [|done]. apply mild_quiet, quiet_node_dead.
  - apply wp_mild; [|done]. apply mild_quiet, quiet_node_connected.
Qed.

Lemma tokens_sub l1 p l2 : tokens D K (l1 ++ l2) ⊆+ tokens D K (l1 ++ p :: l2).
Proof.
  unfold tokens. rewrite !omap_app. apply submseteq_skips_l. simpl.
  case_match; [by apply submseteq_cons|done].
Qed.

(** Running a handler within a budget [B] of roles. *)
Lemma settle_conserves c n B m s :
  is_pnn n → cluster_ok c → wp D K val B m (λ _, Inv D K vm n val B []) s →
  cluster_ok (settle c n (m s))
  ∧ roles (settle c n (m s)) ⊆+ B ++ held (delete n (cl_nodes c)) ++ (val <$> tokens D K (cl_net c)).
Proof.
  intros Hn [Hnodes Hnet] Hwp. unfold wp in Hwp. destruct (m s) as [a s'|w s']; simpl.
  - destruct Hwp as [(Hv & Hpn & Hdb & Hp) Hb]. rewrite app_nil_r in Hb.
    unfold in_transit in Hp. apply Forall_app in Hp as [Hp1 Hp2].
    split; [split; simpl|].
    + apply map_Forall_insert_2; [|done]. split_and!; done.
    + by apply Forall_app.
    + unfold roles. simpl. rewrite held_insert, tokens_app, fmap_app.
      etrans; [|apply (submseteq_skips_r _ _ _ Hb)]. apply Permutation_submseteq.
      unfold node_roles, flight, in_transit. simpl. rewrite !tokens_app, !fmap_app.
      change (own D K vm n val (set_cx_net_out s' [])) with (own D K vm n val s').
      solve_Permutation.
  - destruct Hwp as [Hp Hb]. split; [split; simpl|].
    + by apply map_Forall_delete.
    + by apply Forall_app.
    + unfold roles. simpl. rewrite tokens_app, fmap_app.
      etrans; [|apply (submseteq_skips_r _ _ _ Hb)]. apply Permutation_submseteq.
      solve_Permutation.
Qed.

(** A write replaces the data that goes with the role; a failed write may at
    most drop the role or, where stores fail, the data. *)
Lemma write_conserves n s db key data ret db' :
  good D vm n s → cx_net_out s = [] → find_db D (cx_db_list s) = Some db →
  Forall is_u8 data → client_write n db key data = Some (ret, db') →
  let s' := set_cx_db_list s (put_db db' (cx_db_list s)) in
  good D vm n s'
  ∧ (if (ret =? 0) && bool_decide (key = K)
     then node_roles n s = val (view_data db K) :: flight D K val s
          ∧ node_roles n s' = val data :: flight D K val s
     else node_roles n s' ⊆+ node_roles n s).
Proof.
  intros Hg Hno E Hu8 Hw s'. destruct Hg as (Hv & Hpn & Hdb & Hp) eqn:Eg. clear Eg.
  apply (client_write_spec vm) in Hw as (Hg' & Hid & Hd & Hz & Hnz & Ho); [|by apply Hdb|done].
  rewrite (find_db_id _ _ _ E) in Hid.
  split; [by apply (good_put D vm n _ _ db)|].
  unfold node_roles. subst s'. rewrite (own_put D K vm n val _ _ db) by done.
  change (flight D K val (set_cx_db_list s (put_db db' (cx_db_list s)))) with (flight D K val s).
  unfold own. rewrite E. destruct (decide (key = K)) as [->|Hk].
  - rewrite Hd, Z.eqb_refl, bool_decide_true by done.
    destruct (Z.eqb_spec ret 0) as [Hr|Hr]; simpl.
    + destruct (Hz Hr) as [-> ->]. by rewrite Z.eqb_refl.
    + destruct (Hnz Hr) as [Hf|[Hf Hfail]].
      * rewrite (view_dmaster_eq vm db db'), (view_data_eq db db'), Hd, Z.eqb_refl by done. done.
      * rewrite (Hval Hfail (view_data db' K) (view_data db K)).
        case_goal; [done|]. by apply submseteq_cons.
  - rewrite bool_decide_false, andb_false_r by done.
    by rewrite (view_dmaster_eq vm db db'), (view_data_eq db db') by by apply Ho.
Qed.

(** The effect of one step on the roles of record [K]. *)
Definition writes (l : label) : option bytes :=
  match l with
  | Write id key data => if (id =? D) && bool_decide (key = K) then Some data else None
  | Tau => None
  end.

Definition role_step (l : label) c c' : Prop :=
  match writes l with
  | Some data => ∃ old rest, roles c ≡ₚ val old :: rest ∧ roles c' ≡ₚ val data :: rest
  | None => roles c' ⊆+ roles c
  end.

Lemma roles_lookup c n s :
  cl_nodes c !! n = Some s →
  roles c ≡ₚ node_roles n s ++ held (delete n (cl_nodes c)) ++ (val <$> tokens D K (cl_net c)).
Proof. intros E. unfold roles. rewrite (held_lookup _ _ _ E). by rewrite <- app_assoc. Qed.

Lemma update_node c n s s' :
  cluster_ok c → cl_nodes c !! n = Some s → good D vm n s' → cx_net_out s' = [] →
  let c' := mk_cluster (<[n := s']> (cl_nodes c)) (cl_net c) in
  cluster_ok c'
  ∧ roles c' ≡ₚ node_roles n s' ++ held (delete n (cl_nodes c)) ++ (val <$> tokens D K (cl_net c)).
Proof.
  intros [Hnodes Hnet] E Hg Hno. destruct (Hnodes _ _ E) as (Hn & _ & _).
  split; [split; [apply map_Forall_insert_2; done|done]|].
  unfold roles. simpl. rewrite held_insert. by rewrite <- app_assoc.
Qed.

(** Changes to other databases. *)
Lemma other_db_step c n s db' :
  cluster_ok c → cl_nodes c !! n = Some s → db_id db' ≠ D →
  let c' := mk_cluster (<[n := set_cx_db_list s (put_db db' (cx_db_list s))]> (cl_nodes c))
              (cl_net c) in
  cluster_ok c' ∧ roles c' ≡ₚ roles c.
Proof.
  intros Hok E Hid c'. pose proof Hok as [Hnodes _]. destruct (Hnodes _ _ E) as (Hn & Hg & Hno).
  pose proof (framed_put_other D s db' Hid) as Hf. unfold framed in Hf. simpl in Hf.
  destruct (update_node c n s _ Hok E (frame_good _ _ _ _ _ Hf Hg) Hno) as [Hok' Hr'].
  split; [done|]. fold c' in Hr'. rewrite Hr', (roles_lookup c n s E). unfold node_roles.
  by rewrite (frame_own _ _ _ _ _ _ _ Hf), (frame_flight _ _ _ _ _ Hf).
Qed.

Lemma write_step c n s id key data db ret db' :
  cluster_ok c → cl_nodes c !! n = Some s → find_db id (cx_db_list s) = Some db →
  Forall is_u8 data → client_write n db key data = Some (ret, db') →
  let c' := mk_cluster (<[n := set_cx_db_list s (put_db db' (cx_db_list s))]> (cl_nodes c))
              (cl_net c) in
  cluster_ok c' ∧ role_step (if ret =? 0 then Write id key data else Tau) c c'.
Proof.
  intros Hok E Edb Hu8 Hw c'. pose proof Hok as [Hnodes _].
  destruct (Hnodes _ _ E) as (Hn & Hg & Hno). pose proof (roles_lookup c n s E) as Hr.
  destruct (decide (id = D)) as [->|Hid].
  - destruct (write_conserves n s db key data ret db' Hg Hno Edb Hu8 Hw) as [Hg' Hb].
    destruct (update_node c n s _ Hok E Hg' Hno) as [Hok' Hr']. split; [done|].
    fold c' in Hr'. unfold role_step, writes.
    destruct (ret =? 0); simpl in *; [rewrite Z.eqb_refl; simpl|].
    + case_bool_decide.
      * destruct Hb as [Hb1 Hb2]. rewrite Hb1 in Hr. rewrite Hb2 in Hr'. by eexists _, _.
      * rewrite Hr, Hr'. by apply submseteq_skips_r.
    + rewrite Hr, Hr'. by apply submseteq_skips_r.
  - assert (db_id db' ≠ D) as Hid'.
    { unfold client_write in Hw. destruct (ctdb_fetch_lock n db key) as [[h d]|]; [|done].
      unfold ctdb_record_store, ctdb_ltdb_store in Hw. simpl in Hw.
      apply find_db_id in Edb. destruct (db_persistent db); [by simplify_eq|].
      destruct (ltdb_store_plain _ _ _ _) eqn:Ep.
      apply store_plain_inv in Ep as (_ & _ & _ & t & ->). simplify_eq. by simpl. }
    destruct (other_db_step c n s db' Hok E Hid') as [Hok' Hr']. split; [done|].
    assert (writes (if ret =? 0 then Write id key data else Tau) = None) as Hnone.
    { unfold writes. destruct (ret =? 0); [|done]. by rewrite (proj2 (Z.eqb_neq id D)). }
    unfold role_step. rewrite Hnone. by apply Permutation_submseteq.
Qed.

Lemma vacuum_step c n s id db db' :
  cluster_ok c → cl_nodes c !! n = Some s → find_db id (cx_db_list s) = Some db →
  vacuum_op n (cx_vnn_map s) db db' →
  let c' := mk_cluster (<[n := set_cx_db_list s (put_db db' (cx_db_list s))]> (cl_nodes c))
              (cl_net c) in
  cluster_ok c' ∧ roles c' ≡ₚ roles c.
Proof.
  intros Hok E Edb Hop c'. pose proof (vacuum_op_id _ _ _ _ Hop) as Hid.
  rewrite (find_db_id _ _ _ Edb) in Hid. destruct (decide (id = D)) as [->|Hne];
    [|apply other_db_step; [done..|congruence]].
  pose proof Hok as [Hnodes _]. destruct (Hnodes _ _ E) as (Hn & Hg & Hno).
  pose proof Hg as (Hv & Hpn & Hdb & Hp). rewrite Hv in Hop.
  apply vacuum_op_keeps in Hop as (Hg' & _ & Hk); [|by apply Hdb].
  destruct (update_node c n s (set_cx_db_list s (put_db db' (cx_db_list s)))) as [Hok' Hr'];
    [done..|by apply (good_put D vm n _ _ db)|done|]. split; [done|].
  fold c' in Hr'. rewrite Hr', (roles_lookup c n s E). unfold node_roles.
  rewrite (own_put D K vm n val _ _ db) by done.
  change (flight D K val (set_cx_db_list s (put_db db' (cx_db_list s)))) with (flight D K val s).
  unfold own. rewrite Edb. destruct (Hk K) as [Hk1 Hk2].
  destruct (Z.eqb_spec (view_dmaster vm db' K) n), (Z.eqb_spec (view_dmaster vm db K) n);
    [by rewrite Hk2|tauto..|done].
Qed.

Lemma step_conserves l c c' :
  cluster_ok c → step D l c c' → cluster_ok c' ∧ role_step l c c'.
Proof.
  intros Hok Hstep. pose proof Hok as [Hnodes Hnet].
  destruct Hstep as [c n s ev m E Hprog|c n s ev p l1 l2 E Enet Hdest [Hsrc Hro]
    |c p l1 l2 Enet|c n|c n s id key data db ret db' E Edb Hu8 Hw|c n s id db db' E Edb Hop].
  - destruct (Hnodes _ _ E) as (Hn & Hg & Hno). unfold role_step. simpl.
    rewrite (roles_lookup c n s E). apply settle_conserves; [done..|].
    by apply (node_prog_conserves n s ev m).
  - destruct (Hnodes _ _ E) as (Hn & Hg & Hno). unfold role_step. simpl.
    rewrite Enet in Hnet. apply Forall_app in Hnet as [Hn1 [Hp Hn2]%Forall_cons].
    destruct (settle_conserves (mk_cluster (cl_nodes c) (l1 ++ l2)) n
      (node_roles n s ++ tok D K val p) (ctdb_recv_pkt ev ignore ignore ignore p) s)
      as [Hok' Hr]; [done| |..].
    + split; [done|]. by apply Forall_app.
    + apply wp_recv_pkt; [done..|apply ignore_mild| |done|done|done].
      split; [done|]. unfold node_roles. by rewrite <- app_assoc.
    + split; [done|]. etrans; [exact Hr|]. rewrite (roles_lookup c n s E), Enet. simpl.
      apply Permutation_submseteq. unfold tok, tokens.
      rewrite (omap_app _ l1 (p :: l2)), omap_app. rewrite !fmap_app.
      simpl. case_match; simpl; solve_Permutation.
  - unfold role_step. simpl. rewrite Enet in Hnet.
    apply Forall_app in Hnet as [Hn1 [Hp Hn2]%Forall_cons].
    split; [split; [done|by apply Forall_app]|]. unfold roles. simpl. rewrite Enet.
    apply submseteq_skips_l, fmap_submseteq, tokens_sub.
  - unfold role_step. simpl. split; [split; [by apply map_Forall_delete|done]|].
    unfold roles. simpl. apply submseteq_skips_r, held_delete.
  - by apply (write_step c n s id key data db ret db').
  - destruct (vacuum_step c n s id db db') as [Hok' Hr]; [done..|]. split; [done|].
    unfold role_step. simpl. by apply Permutation_submseteq.
Qed.

(** The roles of a record stay at most one, worth the data last written. *)
Lemma steps_register ls c c' d0 :
  cluster_ok c → steps D ls c c' → roles c ⊆+ [val d0] →
  cluster_ok c' ∧ roles c' ⊆+ [val (last_write D K d0 ls)].
Proof.
  intros Hok Hs. revert d0 Hok. induction Hs as [c|l ls c1 c2 c3 Hstep Hs IH];
    intros d0 Hok Hr; [done|].
  destruct (step_conserves _ _ _ Hok Hstep) as [Hok2 Hrs]. unfold role_step, writes in Hrs.
  destruct l as [|id key data]; simpl; [apply IH; [done|by etrans]|].
  destruct ((id =? D) && bool_decide (key = K)); [|apply IH; [done|by etrans]].
  destruct Hrs as (old & rest & H1 & H2). apply IH; [done|].
  rewrite H1 in Hr. apply submseteq_length in Hr. destruct rest; [|simpl in Hr; lia].
  by rewrite H2.
Qed.

Lemma dmaster_roles c n db :
  is_dmaster vm D K c n db →
  ∃ s, cl_nodes c !! n = Some s ∧ node_roles n s = val (view_data db K) :: flight D K val s.
Proof.
  intros (s & E & Edb & Hd). exists s. split; [done|].
  unfold node_roles, own. by rewrite Edb, Hd, Z.eqb_refl.
Qed.

Lemma dmaster_alone c n db v :
  is_dmaster vm D K c n db → roles c ⊆+ [v] →
  v = val (view_data db K) ∧ held (delete n (cl_nodes c)) = [] ∧ tokens D K (cl_net c) = [].
Proof.
  intros Hd Hr. destruct (dmaster_roles _ _ _ Hd) as (s & E & Hn).
  rewrite (roles_lookup c n s E), Hn in Hr. pose proof (submseteq_length _ _ Hr) as Hl.
  rewrite !length_app, length_fmap in Hl. simpl in Hl.
  destruct (held (delete n (cl_nodes c))); [|simpl in Hl; lia].
  destruct (tokens D K (cl_net c)); [|simpl in Hl; lia].
  destruct (flight D K val s); [|simpl in Hl; lia]. simpl in Hr.
  apply submseteq_length_Permutation in Hr; [|simpl; lia].
  by apply Permutation_singleton_inj in Hr.
Qed.

Lemma dmaster_unique c n1 n2 db1 db2 v :
  is_dmaster vm D K c n1 db1 → is_dmaster vm D K c n2 db2 → roles c ⊆+ [v] → n1 = n2.
Proof.
  intros H1 H2 Hr. destruct (dmaster_alone _ _ _ _ H1 Hr) as (_ & Hheld & _).
  destruct (decide (n1 = n2)) as [|Hne]; [done|].
  destruct (dmaster_roles _ _ _ H2) as (s & E & Hn).
  assert (delete n1 (cl_nodes c) !! n2 = Some s) as E' by by rewrite lookup_delete_ne.
  pose proof (held_lookup _ _ _ E') as Hp. rewrite Hheld, Hn in Hp.
  by apply Permutation_nil_cons in Hp.
Qed.

(** *** A fresh cluster *)

Definition fresh n s : Prop :=
  is_pnn n ∧ cx_pnn s = n ∧ cx_vnn_map s = vm ∧ in_transit s = []
  ∧ (∀ db, find_db D (cx_db_list s) = Some db →
       db_good db ∧ ∀ key, tdb_fetch (db_ltdb db) key = []).

Lemma held_nil nodes : map_Forall (λ n s, node_roles n s = []) nodes → held nodes = [].
Proof.
  intros Hn. unfold held. apply concat_nil_Forall, Forall_fmap, Forall_forall.
  intros [n s] Hin. apply elem_of_map_to_list in Hin. by apply (Hn n s).
Qed.

Lemma fresh_node_roles n s :
  fresh n s → node_roles n s = [] ∨ n = ctdb_lmaster vm K ∧ node_roles n s = [val []].
Proof.
  intros (_ & _ & _ & Ht & Hdb). unfold node_roles, flight. rewrite Ht. simpl.
  rewrite app_nil_r. unfold own. destruct (find_db _ _) as [db|]; [|by left].
  destruct (Hdb db eq_refl) as [_ Hf]. destruct (view_empty vm db K (Hf K)) as (-> & -> & _).
  destruct (Z.eqb_spec (ctdb_lmaster vm K) n); [right; by subst|by left].
Qed.

Lemma fresh_roles nodes :
  map_Forall fresh nodes → roles (mk_cluster nodes []) ⊆+ [val []].
Proof.
  intros Hf. unfold roles. simpl. rewrite app_nil_r.
  assert (∀ m, map_Forall fresh m → m !! ctdb_lmaster vm K = None → held m = []) as Hnil.
  { intros m Hm Hnone. apply held_nil. intros n s E.
    destruct (fresh_node_roles n s (Hm n s E)) as [|[-> _]]; [done|by simplify_eq]. }
  destruct (nodes !! ctdb_lmaster vm K) as [s|] eqn:E.
  - rewrite (held_lookup _ _ _ E), Hnil, app_nil_r;
      [|by apply map_Forall_delete|apply lookup_delete_eq].
    destruct (fresh_node_roles _ s (Hf _ s E)) as [-> | [_ ->]]; [|done].
    apply submseteq_nil_l.
  - rewrite Hnil by done. apply submseteq_nil_l.
Qed.

Lemma fresh_ok nodes : map_Forall fresh nodes → cluster_ok (mk_cluster nodes []).
Proof.
  intros Hf. split; [|constructor]. intros n s E.
  destruct (Hf n s E) as (Hn & Hp & Hv & Ht & Hdb). split_and!; [done| |].
  - split_and!; [done|done| |by rewrite Ht]. intros db Edb. by destruct (Hdb db Edb).
  - unfold in_transit in Ht. by apply app_eq_nil in Ht as [? _].
Qed.

End conserve.

(** ** Properties *)

(** C1: in every state a fresh cluster can reach, by any interleaving of
    deliveries, losses, crashes, lock waits, timeouts, calls and writes, at
    most one node acts as data master of a record; while one does, no packet on
    the network carries the role. *)
Theorem unique_dmaster {T : Type} `{TdbLaws T} vm D K nodes ls (c : cluster T) n1 n2 db1 db2
    (Hmap : vnn_map_ok vm) (Hpnns : Forall is_pnn (vm_map vm))
    (Hfresh : map_Forall (fresh (T := T) vm D) nodes)
    (Hs : steps D ls (mk_cluster nodes []) c)
    (H1 : is_dmaster vm D K c n1 db1) (H2 : is_dmaster vm D K c n2 db2) :
  n1 = n2 ∧ tokens D K (cl_net c) = [].
Proof.
  pose proof (fresh_ok vm D nodes Hfresh) as Hok.
  destruct (steps_register vm D K (λ _, ()) Hmap Hpnns ltac:(done) ls _ c [] Hok Hs)
    as [_ Hr]; [by apply fresh_roles|].
  split; [by eapply dmaster_unique|]. by eapply dmaster_alone in Hr as (_ & _ & ?).
Qed.

(** C9: on a tdb whose stores do not fail, a client that gets the lock on a
    record of its node reads the data last written by any client of the
    cluster, however the record has travelled in between. *)
Theorem fetch_lock_reads_last_write {T : Type} `{TdbLaws T} vm D K nodes ls (c : cluster T)
    n s db h d
    (Hmap : vnn_map_ok vm) (Hpnns : Forall is_pnn (vm_map vm))
    (Hstore : ¬ store_may_fail T)
    (Hfresh : map_Forall (fresh (T := T) vm D) nodes)
    (Hs : steps D ls (mk_cluster nodes []) c)
    (Hn : cl_nodes c !! n = Some s) (Hdb : find_db D (cx_db_list s) = Some db)
    (Hf : ctdb_fetch_lock n db K = Some (h, d)) :
  d = last_write D K [] ls.
Proof.
  pose proof (fresh_ok vm D nodes Hfresh) as Hok.
  destruct (steps_register vm D K id Hmap Hpnns ltac:(done) ls _ c [] Hok Hs)
    as [_ Hr]; [by apply fresh_roles|].
  apply fetch_lock_spec in Hf as (Hl & -> & Hd & ->).
  assert (is_dmaster vm D K c n db) as Hdm.
  { exists s. split_and!; [done..|]. unfold view_dmaster.
    by rewrite (proj2 (Nat.ltb_ge _ _)). }
  by eapply dmaster_alone in Hr as (Hw & _).
Qed.

(** *** A run: a record migrates and is written *)

Definition run_vm : ctdb_vnn_map := mk_vnn_map 5 2 [0; 1].
Definition run_db : ctdb_db_context memtdb :=
  mk_db 1 false false false (mk_memtdb ∅ false 0) (mk_memtdb ∅ false 0)
    [(CTDB_NULL_FUNC, ctdb_null_func); (CTDB_FETCH_FUNC, ctdb_fetch_func);
     (CTDB_FETCH_WITH_HEADER_FUNC, ctdb_fetch_with_header_func)]
    false true false [] ∅ ∅ 0 (replicate 10 (mk_hot_key 0 [])) 0 0 (replicate 16 0) [] [].
Definition run_ctx (n : Z) : ctdb_context memtdb :=
  mk_ctdb n run_vm [mk_node 0 0 0 0 0; mk_node 1 0 0 0 0] 2 true [run_db] ∅ 0 [] 0 50
    (λ _, 0) (λ _, 0) [] [] [] [] [].
Definition run_nodes : gmap Z (ctdb_context memtdb) := <[0 := run_ctx 0]> {[1 := run_ctx 1]}.
Definition run_key : bytes := [9].
Definition run_ev : node_env := mk_env LockFree (λ _, true) true.
Definition node_of (c : cluster memtdb) (n : Z) : ctdb_context memtdb :=
  default (run_ctx n) (cl_nodes c !! n).

Definition run_call : M memtdb () :=
  ctdb_daemon_call_send_remote run_ev 1
    (mk_call CTDB_NULL_FUNC run_key [] [] 0 CTDB_IMMEDIATE_MIGRATION)
    (ltdb_initial_header run_vm run_key) ;; mret ().

(** Deliver the first packet of the network to node [n]. *)
Definition deliver (c : cluster memtdb) (n : Z) : cluster memtdb :=
  match cl_net c with
  | [] => c
  | p :: l => settle (mk_cluster (cl_nodes c) l) n
                (ctdb_recv_pkt run_ev ignore ignore ignore p (node_of c n))
  end.

(** Node 1 asks for the record, its lmaster 0 hands it over, a client of node 1
    writes it; then node 0 wants it back: it sends itself the call, redirects it
    to node 1, which returns the role through the lmaster. *)
Definition run0 : cluster memtdb := mk_cluster run_nodes [].
Definition run1 := settle run0 1 (run_call (node_of run0 1)).
Definition run2 := deliver run1 0.
Definition run3 := deliver run2 1.
Definition run4_db := default run_db (find_db 1 (cx_db_list (node_of run3 1))).
Definition run4_write := default (-1, run_db) (client_write 1 run4_db run_key [42]).
Definition run4 := mk_cluster
  (<[1 := set_cx_db_list (node_of run3 1)
            (put_db run4_write.2 (cx_db_list (node_of run3 1)))]> (cl_nodes run3)) (cl_net run3).
Definition run5 := settle run4 0 (run_call (node_of run4 0)).
Definition run6 :=
  match cx_deferred (node_of run5 0) with
  | [] => run5
  | p :: l => settle run5 0 ((modify (λ s, set_cx_deferred s ([] ++ l)) ;; input run_ev p)
                               (node_of run5 0))
  end.
Definition run7 := deliver run6 1.
Definition run8 := deliver run7 0.

Lemma deliver_step D c n p l :
  cl_net c = p :: l → cl_nodes c !! n = Some (node_of c n) →
  hdr_destnode (packet_hdr p) = n → admissible D (node_of c n) p →
  step D Tau c (deliver c n).
Proof.
  intros E En Hd Ha. unfold deliver. rewrite E.
  by apply (step_deliver D c n (node_of c n) run_ev p [] l).
Qed.

Lemma is_some_default {A} (o : option A) (d : A) :
  (if o is Some _ then true else false) = true → o = Some (default d o).
Proof. by destruct o. Qed.

Ltac run_some := apply is_some_default; vm_compute; reflexivity.
Ltac run_deliver c n :=
  apply (steps_cons 1 Tau _ c (deliver c n)); [
    eapply deliver_step; [vm_compute; reflexivity|run_some|reflexivity|
      split; [unfold is_pnn; vm_compute; split; congruence|vm_compute; reflexivity]]|].

Lemma run_steps : steps 1 [Tau; Tau; Tau; Write 1 run_key [42]; Tau; Tau; Tau; Tau] run0 run8.
Proof.
  apply (steps_cons 1 Tau _ run0 run1).
  { unfold run1. apply (step_node 1 run0 1 (node_of run0 1) run_ev run_call); [run_some|].
    apply prog_call_remote. }
  run_deliver run1 0. change (deliver run1 0) with run2.
  run_deliver run2 1. change (deliver run2 1) with run3.
  apply (steps_cons 1 (Write 1 run_key [42]) _ run3 run4).
  { assert (run4_write.1 = 0) as Hret by (vm_compute; reflexivity).
    pose proof (step_write 1 run3 1 (node_of run3 1) 1 run_key [42] run4_db
      run4_write.1 run4_write.2) as Hw. rewrite Hret in Hw. apply Hw.
    - run_some.
    - run_some.
    - repeat constructor; done.
    - rewrite <- Hret, <- surjective_pairing. run_some. }
  apply (steps_cons 1 Tau _ run4 run5).
  { unfold run5. apply (step_node 1 run4 0 (node_of run4 0) run_ev run_call); [run_some|].
    apply prog_call_remote. }
  apply (steps_cons 1 Tau _ run5 run6).
  { unfold run6. destruct (cx_deferred (node_of run5 0)) as [|p l] eqn:E; [by vm_compute in E|].
    apply (step_node 1 run5 0 (node_of run5 0) run_ev); [run_some|].
    apply (prog_self 1 run_ev (node_of run5 0) p []); [done|].
    vm_compute in E. injection E as <- <-.
    split; [unfold is_pnn; vm_compute; split; congruence|reflexivity]. }
  run_deliver run6 1. change (deliver run6 1) with run7.
  run_deliver run7 0. apply steps_nil.
Qed.

Lemma run_vm_ok : vnn_map_ok run_vm.
Proof. split_and!; [done..|]. repeat constructor; unfold is_u32; lia. Qed.

Lemma run_pnns : Forall is_pnn (vm_map run_vm).
Proof. repeat constructor; done. Qed.

Lemma run_db_good : db_good run_db.
Proof.
  split; try done.
  - intros k. simpl. rewrite lookup_empty. constructor.
  - repeat constructor; by destruct c.
Qed.

Lemma run_fresh : map_Forall (fresh run_vm 1) run_nodes.
Proof.
  assert (∀ n, is_pnn n → fresh run_vm 1 n (run_ctx n)) as Hf.
  { intros n Hn. split_and!; try done. simpl. intros db [= <-].
    split; [apply run_db_good|]. intros k. simpl. by rewrite lookup_empty. }
  apply map_Forall_insert_2; [by apply Hf|]. by apply map_Forall_singleton, Hf.
Qed.

(** Node 0 is dmaster again at the end of the run. *)
Definition run8_db := default run_db (find_db 1 (cx_db_list (node_of run8 0))).

Lemma run8_dmaster : is_dmaster run_vm 1 run_key run8 0 run8_db.
Proof. exists (node_of run8 0). split_and!; [run_some|run_some|by vm_compute]. Qed.

Lemma unique_dmaster_witness : tokens 1 run_key (cl_net run8) = [].
Proof.
  apply (unique_dmaster run_vm 1 run_key run_nodes _ run8 0 0 run8_db run8_db
    run_vm_ok run_pnns run_fresh run_steps run8_dmaster run8_dmaster).
Defined.

Lemma fetch_lock_reads_last_write_witness :
  ∃ h d, ctdb_fetch_lock 0 run8_db run_key = Some (h, d) ∧ d = [42].
Proof.
  assert (ctdb_fetch_lock 0 run8_db run_key
    = Some (mk_header 5 0 0 65536, [42])) as Hf by (vm_compute; reflexivity).
  assert (cl_nodes run8 !! 0 = Some (node_of run8 0)) as Hn by run_some.
  assert (find_db 1 (cx_db_list (node_of run8 0)) = Some run8_db) as Hdb by run_some.
  eexists _, _. split; [exact Hf|].
  apply (fetch_lock_reads_last_write run_vm 1 run_key run_nodes _ run8 0 (node_of run8 0)
    run8_db _ _ run_vm_ok run_pnns memtdb_no_failure run_fresh run_steps Hn Hdb Hf).
Defined.
