(* ===== verification/CallProps.v ===== *)
(** * Properties of the call handlers

    The chainlock discipline of [server/ctdb_call.c] (a handler that took the
    lock of a record releases it), the dispatch rules, the statistics the
    handlers keep (hot keys, hop count buckets), and the revoke child. *)
From S2P Require Import Prelude Protocol Ltdb Node Call Owner Cluster.

(** ** Chainlocks *)

Create HintDb neutral.

Section locks.
Context {T : Type} `{TdbLaws T}.
Variable ev : node_env.
Implicit Types (s : ctdb_context T) (db : ctdb_db_context T) (id : Z) (key : bytes).

(** The chainlocks this process holds on a database, innermost first. *)
Definition locks s id : option (list bytes) := db_chainlocks <$> find_db id (cx_db_list s).

(** A program that leaves every lock as it is when it returns. *)
Definition neutral {A} (m : M T A) : Prop :=
  ∀ s a s', m s = Ret a s' → ∀ id, locks s' id = locks s id.

(** A program that runs with the lock of [key] and releases it. *)
Definition releases {A} id key (m : M T A) : Prop :=
  ∀ s a s' L, m s = Ret a s' → locks s id = Some (key :: L) →
  locks s' id = Some L ∧ ∀ id', id' ≠ id → locks s' id' = locks s id'.

Lemma neutral_bind {A B} (m : M T A) (k : A → M T B) :
  neutral m → (∀ a, neutral (k a)) → neutral (m ≫= k).
Proof.
  intros Hm Hk s b s2. unfold mbind, M_bind. destruct (m s) as [a s1|] eqn:E; [|done].
  intros E2 id. rewrite (Hk _ _ _ _ E2), (Hm _ _ _ E). done.
Qed.

Lemma neutral_releases {A B} id key (m : M T A) (k : A → M T B) :
  neutral m → (∀ a, releases id key (k a)) → releases id key (m ≫= k).
Proof.
  intros Hm Hk s b s2 L. unfold mbind, M_bind. destruct (m s) as [a s1|] eqn:E; [|done].
  intros E2 HL. destruct (Hk a s1 b s2 L E2) as [H1 H2]; [by rewrite (Hm _ _ _ E)|].
  split; [done|]. intros id' Hne. by rewrite H2, (Hm _ _ _ E).
Qed.

Lemma releases_bind {A B} id key (m : M T A) (k : A → M T B) :
  releases id key m → (∀ a, neutral (k a)) → releases id key (m ≫= k).
Proof.
  intros Hm Hk s b s2 L. unfold mbind, M_bind. destruct (m s) as [a s1|] eqn:E; [|done].
  intros E2 HL. destruct (Hm _ _ _ _ E HL) as [H1 H2].
  split; [by rewrite (Hk _ _ _ _ E2)|]. intros id' Hne. by rewrite (Hk _ _ _ _ E2), H2.
Qed.

Lemma neutral_ret {A} (a : A) : neutral (mret a).
Proof. by intros s b s' [= _ ->]. Qed.
Lemma neutral_gets {A} (f : ctdb_context T → A) : neutral (gets f).
Proof. by intros s b s' [= _ ->]. Qed.
Lemma neutral_fatal {A} msg : neutral (ctdb_fatal (A := A) msg).
Proof. by intros s b s'. Qed.
Lemma releases_fatal {A} id key msg : releases id key (ctdb_fatal (A := A) msg).
Proof. by intros s b s'. Qed.
Lemma neutral_spin {A} : neutral (spin (A := A)).
Proof. by intros s b s'. Qed.
Lemma neutral_modify f : (∀ s, cx_db_list (f s) = cx_db_list s) → neutral (modify f).
Proof. intros Hf s b s' [= _ <-] id. unfold locks. by rewrite Hf. Qed.

Lemma locks_put s db db0 id :
  find_db (db_id db) (cx_db_list s) = Some db0 → db_chainlocks db = db_chainlocks db0 →
  locks (set_cx_db_list s (put_db db (cx_db_list s))) id = locks s id.
Proof.
  intros E Hc. unfold locks. simpl. destruct (decide (db_id db = id)) as [<-|Hne].
  - rewrite (find_put _ _ db0), E by done. simpl. by rewrite Hc.
  - by rewrite find_put_other.
Qed.

Lemma neutral_the_db id : neutral (the_db id).
Proof.
  unfold the_db. apply neutral_bind; [apply neutral_gets|].
  intros []; [apply neutral_ret|apply neutral_fatal].
Qed.

Lemma neutral_upd_db id f :
  (∀ db, db_id (f db) = db_id db ∧ db_chainlocks (f db) = db_chainlocks db) →
  neutral (upd_db id f).
Proof.
  intros Hf s a s'. unfold upd_db, the_db, find_ctdb_db, gets, mbind, M_bind, mret, M_ret.
  destruct (find_db id (cx_db_list s)) as [db|] eqn:E; [|done].
  intros [= _ <-] id'. destruct (Hf db) as [Hid Hc].
  apply (locks_put _ _ db); [|done]. by rewrite Hid, (find_db_id _ _ _ E).
Qed.

(** The same from one state. *)
Definition neutral_at {A} s (m : M T A) : Prop :=
  ∀ a s', m s = Ret a s' → ∀ id, locks s' id = locks s id.

Lemma neutral_intro {A} (m : M T A) : (∀ s, neutral_at s m) → neutral m.
Proof. intros Hm s. apply Hm. Qed.

Lemma neutral_at_bind {A B} s (m : M T A) (k : A → M T B) :
  neutral m → (∀ a s', neutral_at s' (k a)) → neutral_at s (m ≫= k).
Proof.
  intros Hm Hk b s2. unfold mbind, M_bind. destruct (m s) as [a s1|] eqn:E; [|done].
  intros E2 id. rewrite (Hk _ _ _ _ E2), (Hm _ _ _ E). done.
Qed.

Lemma neutral_at_the_db {A} s id (k : ctdb_db_context T → M T A) :
  (∀ db, find_db id (cx_db_list s) = Some db → db_id db = id → neutral_at s (k db)) →
  neutral_at s (the_db id ≫= k).
Proof.
  intros Hk b s2. unfold the_db, find_ctdb_db, gets, mbind, M_bind, mret, M_ret.
  destruct (find_db id (cx_db_list s)) as [db|] eqn:E; [|done].
  apply Hk; [done|by eapply find_db_id].
Qed.

Lemma neutral_at_put {A} s db db0 (k : () → M T A) :
  find_db (db_id db) (cx_db_list s) = Some db0 → db_chainlocks db = db_chainlocks db0 →
  (∀ s', neutral_at s' (k ())) → neutral_at s (put_ctdb_db db ≫= k).
Proof.
  intros E Hc Hk b s2 E2 id. unfold mbind, M_bind, put_ctdb_db, modify in E2. simpl in E2.
  rewrite (Hk _ _ _ E2). by apply (locks_put _ _ db0).
Qed.

Lemma neutral_at_put_last s db db0 :
  find_db (db_id db) (cx_db_list s) = Some db0 → db_chainlocks db = db_chainlocks db0 →
  neutral_at s (put_ctdb_db db).
Proof. intros E Hc b s2 [= _ <-] id. by apply (locks_put _ _ db0). Qed.

Ltac neutral_step :=
  match goal with
  | |- neutral_at _ (the_db _ ≫= _) => apply neutral_at_the_db; intros ? ? ?
  | |- neutral_at _ (put_ctdb_db _ ≫= _) =>
      eapply neutral_at_put; [simpl; subst; eassumption|done|intros ?]
  | |- neutral_at _ (put_ctdb_db _) =>
      eapply neutral_at_put_last; [simpl; subst; eassumption|done]
  | |- neutral_at _ (_ ≫= _) => apply neutral_at_bind;
      [solve [auto with neutral|repeat case_goal; auto with neutral]|intros ? ?]
  | |- neutral_at _ (if ?b then _ else _) => destruct b eqn:?
  | |- neutral_at _ (match ?x with _ => _ end) => destruct x eqn:?
  | |- neutral_at ?s ?m => assert (neutral m) as Hq by auto with neutral; exact (Hq s)
  end.
Ltac solve_neutral := apply neutral_intro; intros ?; repeat neutral_step.

Hint Resolve neutral_ret neutral_gets neutral_fatal neutral_spin neutral_the_db : neutral.

Lemma neutral_incr k : neutral (CTDB_INCREMENT_STAT k).
Proof. by apply neutral_modify. Qed.
Lemma neutral_update k v : neutral (CTDB_UPDATE_STAT k v).
Proof. by apply neutral_modify. Qed.
Lemma neutral_find_db id : neutral (find_ctdb_db id).
Proof. apply neutral_gets. Qed.
Lemma neutral_reqid_find r : neutral (ctdb_reqid_find r).
Proof. apply neutral_gets. Qed.
Lemma neutral_reqid_set r e : neutral (reqid_set r e).
Proof. by apply neutral_modify. Qed.
Lemma neutral_set_done f : neutral (modify (λ s, set_cx_done s (f s))).
Proof. by apply neutral_modify. Qed.
Lemma neutral_set_recmode m : neutral (modify (λ s, set_cx_recovery_mode s m)).
Proof. by apply neutral_modify. Qed.
Lemma neutral_defer p : neutral (ctdb_defer_packet p).
Proof. by apply neutral_modify. Qed.
Lemma neutral_set_nodes f : neutral (modify (λ s, set_cx_nodes s (f s))).
Proof. by apply neutral_modify. Qed.
Lemma neutral_set_net f : neutral (modify (λ s, set_cx_net_out s (f s))).
Proof. by apply neutral_modify. Qed.
Hint Resolve neutral_incr neutral_update neutral_find_db neutral_reqid_find neutral_reqid_set
  neutral_set_done neutral_set_recmode neutral_defer neutral_set_nodes neutral_set_net : neutral.

Lemma neutral_allocate l sl : neutral (ctdb_transport_allocate l sl).
Proof. unfold ctdb_transport_allocate. solve_neutral.
Qed.
Lemma neutral_unicast p : neutral (queue_unicast ev p).
Proof. unfold queue_unicast. solve_neutral. Qed.
Hint Resolve neutral_allocate neutral_unicast : neutral.

Lemma neutral_mfor {A} (l : list A) (f : A → M T ()) :
  (∀ a, neutral (f a)) → neutral (mfor l f).
Proof.
  intros Hf. induction l; simpl; [apply neutral_ret|]. by apply neutral_bind.
Qed.

Lemma neutral_queue_packet p : neutral (ctdb_queue_packet ev p).
Proof.
  unfold ctdb_queue_packet, ctdb_broadcast_packet_all,
    ctdb_broadcast_packet_vnnmap, ctdb_broadcast_packet_connected.
  repeat case_goal; auto with neutral; (apply neutral_bind; [apply neutral_gets|]);
    intros ?; apply neutral_mfor; intros ?; repeat case_goal; auto with neutral.
Qed.
Hint Resolve neutral_queue_packet : neutral.

Lemma store_locks s db key h d ret h' db' :
  ctdb_ltdb_store (daemon_lc s) db key h d = (ret, h', db') →
  db_id db' = db_id db ∧ db_chainlocks db' = db_chainlocks db.
Proof.
  unfold ctdb_ltdb_store. destruct (db_server_store db); intros E.
  - by apply (store_server_inv _ (cx_vnn_map s)) in E as (_ & _ & _ & _ & _ & _ & ? & ? & ? & ->).
  - destruct (ltdb_store_plain _ _ _ _) eqn:Ep.
    apply store_plain_inv in Ep as (_ & _ & _ & t & ->). by simplify_eq.
Qed.

Lemma fetch_locks s db key h0 ret h d db' :
  ctdb_ltdb_fetch (daemon_lc s) db key h0 = (ret, h, d, db') →
  db_id db' = db_id db ∧ db_chainlocks db' = db_chainlocks db.
Proof.
  unfold ctdb_ltdb_fetch. simpl. case_match; [|by intros; simplify_eq].
  case_match; [|by intros; simplify_eq].
  destruct (ctdb_ltdb_store _ _ _ _ _) as [[? ?] ?] eqn:E. intros [= _ _ _ <-].
  by eapply store_locks.
Qed.

Lemma neutral_store id key h d : neutral (db_store id key h d).
Proof.
  apply neutral_intro. intros s. unfold db_store. neutral_step.
  intros a s'. unfold gets, mbind, M_bind.
  destruct (ctdb_ltdb_store _ _ _ _ _) as [[? ?] ?] eqn:E. intros [= _ <-].
  apply store_locks in E as [E1 E2]. intros id'. apply (locks_put _ _ db); [congruence|done].
Qed.

Lemma neutral_fetch id key : neutral (db_fetch id key).
Proof.
  apply neutral_intro. intros s. unfold db_fetch. neutral_step.
  intros a s'. unfold gets, mbind, M_bind.
  destruct (ctdb_ltdb_fetch _ _ _ _) as [[[? ?] ?] ?] eqn:E. intros [= _ <-].
  apply fetch_locks in E as [E1 E2]. intros id'. apply (locks_put _ _ db); [congruence|done].
Qed.

Lemma releases_unlock id key : releases id key (db_unlock id key).
Proof.
  intros s a s' L. unfold db_unlock, the_db, find_ctdb_db, gets, mbind, M_bind, mret, M_ret.
  unfold locks at 1. destruct (find_db id (cx_db_list s)) as [db|] eqn:E; [|done].
  intros E2 [= HL]. unfold ctdb_ltdb_unlock in E2. rewrite HL in E2. simpl in E2.
  rewrite decide_True in E2 by done. simpl in E2. injection E2 as _ <-.
  pose proof (find_db_id _ _ _ E) as Hid. set (db' := set_db_chainlocks db L).
  assert (db_id db' = id) as Hid' by done. unfold locks. simpl. split.
  - rewrite <- Hid'. rewrite (find_put _ _ db); [done|by rewrite Hid'].
  - intros id' Hne. by rewrite find_put_other by by rewrite Hid'.
Qed.
Hint Resolve neutral_store neutral_fetch : neutral.

Lemma neutral_call_local id call h d up : neutral (ctdb_call_local id call h d up).
Proof. unfold ctdb_call_local. solve_neutral. Qed.
Lemma neutral_send_error hdr st msg : neutral (ctdb_send_error ev hdr st msg).
Proof. unfold ctdb_send_error. solve_neutral. Qed.
Lemma neutral_redirect key c h : neutral (ctdb_call_send_redirect ev key c h).
Proof. unfold ctdb_call_send_redirect. solve_neutral. Qed.
Lemma neutral_dmaster_reply id h key d new r :
  neutral (ctdb_send_dmaster_reply ev id h key d new r).
Proof. unfold ctdb_send_dmaster_reply. solve_neutral. Qed.
Hint Resolve neutral_call_local neutral_send_error neutral_redirect neutral_dmaster_reply : neutral.
Lemma neutral_send_dmaster id c h key d : neutral (ctdb_call_send_dmaster ev id c h key d).
Proof. unfold ctdb_call_send_dmaster. solve_neutral. Qed.
Lemma neutral_set_pindown id key : neutral (ctdb_set_sticky_pindown id key).
Proof. unfold ctdb_set_sticky_pindown. solve_neutral. Qed.
Lemma neutral_make_sticky id key : neutral (ctdb_make_record_sticky id key).
Proof. unfold ctdb_make_record_sticky. solve_neutral. Qed.
Lemma neutral_defer_pinned id key c : neutral (ctdb_defer_pinned_down_request id key c).
Proof. unfold ctdb_defer_pinned_down_request. solve_neutral. Qed.
Lemma neutral_start_revoke_child id key h d : neutral (ctdb_start_revoke_ro_record ev id key h d).
Proof. unfold ctdb_start_revoke_ro_record. solve_neutral. Qed.
Lemma neutral_add_revoke id key c : neutral (ctdb_add_revoke_deferred_call id key c).
Proof. unfold ctdb_add_revoke_deferred_call. solve_neutral. Qed.
Lemma neutral_track id key pnn : neutral (track_delegation id key pnn).
Proof. unfold track_delegation. solve_neutral. Qed.
Lemma neutral_complete r cs : neutral (complete_call r cs).
Proof. unfold complete_call, when. solve_neutral. Qed.
Hint Resolve neutral_send_dmaster neutral_set_pindown neutral_make_sticky neutral_defer_pinned
  neutral_start_revoke_child neutral_add_revoke neutral_track neutral_complete : neutral.

Ltac releases_step :=
  match goal with
  | |- releases _ _ (ctdb_call_local _ _ _ _ _ ≫= _) => fail 1
  | |- releases _ _ (db_unlock _ _ ≫= _) => apply releases_bind; [apply releases_unlock|intros ?]
  | |- releases _ _ (_ ≫= _) => apply neutral_releases;
      [solve [auto with neutral|repeat case_goal; auto with neutral]|intros ?]
  | |- releases _ _ (if ?b then _ else _) => destruct b eqn:?
  | |- releases _ _ (match ?x with _ => _ end) => destruct x eqn:?
  | |- releases _ _ (ctdb_fatal _) => apply releases_fatal
  | |- neutral _ => solve [auto with neutral|solve_neutral]
  end.

Lemma neutral_sticky (b : bool) id key :
  neutral (if b then ctdb_set_sticky_pindown id key ;; mret () else mret ()).
Proof. destruct b; [solve_neutral|auto with neutral]. Qed.
Hint Resolve neutral_sticky : neutral.

(** Running a call returns the call with the key it was given. *)
Lemma call_local_key id call h d up s r call' h' s' :
  ctdb_call_local id call h d up s = Ret (r, call', h') s' → cl_key call' = cl_key call.
Proof.
  unfold ctdb_call_local, mbind, M_bind. destruct (the_db id s) as [db s1|]; [|done].
  destruct (list_find _ _) as [[i [i' fn]]|]; [|intros [= _ <- _ _]; done].
  destruct (fn _) as [r0 ci]. destruct (negb (r0 =? 0)); [intros [= _ <- _ _]; done|].
  destruct up; [|by intros [= _ <- _ _]].
  destruct (db_store _ _ _ _ s1) as [[r1 h1] s2|]; [|done].
  destruct (negb (r1 =? 0)); intros [= _ <- _ _]; done.
Qed.

Lemma releases_run_call {B} id key call h d (k : Z * ctdb_call * ctdb_ltdb_header → M T B) :
  (∀ r call' h', cl_key call' = cl_key call → releases id key (k (r, call', h'))) →
  releases id key (ctdb_call_local id call h d true ≫= k).
Proof.
  intros Hk s b s2 L. unfold mbind, M_bind.
  destruct (ctdb_call_local id call h d true s) as [[[r call'] h'] s1|] eqn:E; [|done].
  pose proof (neutral_call_local _ _ _ _ _ _ _ _ E) as Hn.
  apply call_local_key in E. intros E2 HL.
  destruct (Hk r call' h' E s1 b s2 L E2) as [H1 H2]; [by rewrite Hn|].
  split; [done|]. intros id' Hne. by rewrite H2, Hn.
Qed.

Lemma releases_become_dmaster id hdr key d r fl :
  releases id key (ctdb_become_dmaster id hdr key d r fl).
Proof.
  unfold ctdb_become_dmaster. repeat releases_step.
  zbool. subst key. apply releases_run_call. intros r' call' h' Hk. rewrite Hk.
  repeat releases_step.
Qed.

(** Taking the lock. *)
Lemma lock_requeue_locks id key p ig s ret s' :
  ctdb_ltdb_lock_requeue ev id key p ig s = Ret ret s' →
  (ret = 0 → ∃ L, locks s id = Some L ∧ locks s' id = Some (key :: L)
                  ∧ ∀ id', id' ≠ id → locks s' id' = locks s id')
  ∧ (ret ≠ 0 → (ret = -1 ∨ ret = -2) ∧ ∀ id', locks s' id' = locks s id').
Proof.
  unfold ctdb_ltdb_lock_requeue. destruct (ev_lock ev);
    [|intros [= <- <-]; split; [done|by auto]..].
  unfold upd_db, the_db, find_ctdb_db, gets, mbind, M_bind, mret, M_ret.
  destruct (find_db id (cx_db_list s)) as [db|] eqn:E; [|done].
  intros [= <- <-]. split; [|done]. intros _. exists (db_chainlocks db).
  set (db' := set_db_chainlocks db (key :: db_chainlocks db)).
  assert (db_id db' = id) as Hid' by by apply (find_db_id _ _ _ E).
  unfold locks. simpl. rewrite E. split_and!; [done|..].
  - rewrite <- Hid'. rewrite (find_put _ _ db); [done|by rewrite Hid'].
  - intros id' Hne. by rewrite find_put_other by by rewrite Hid'.
Qed.

(** A handler that locks, and releases on the way out, is neutral. *)
Lemma lock_then_release {B} id key p ig (k : Z → M T B) :
  releases id key (k 0) → (∀ ret, ret = -1 ∨ ret = -2 → neutral (k ret)) →
  neutral (ctdb_ltdb_lock_requeue ev id key p ig ≫= k).
Proof.
  intros Hr Hn s b s2. unfold mbind, M_bind.
  destruct (ctdb_ltdb_lock_requeue _ _ _ _ _ s) as [ret s1|] eqn:E; [|done].
  apply lock_requeue_locks in E as [E0 E1]. intros E2 id'.
  destruct (decide (ret = 0)) as [->|Hne].
  - destruct (E0 eq_refl) as (L & HL & HL' & Ho). destruct (Hr _ _ _ _ E2 HL') as [H1 H2].
    destruct (decide (id' = id)) as [->|Hid]; [congruence|]. by rewrite H2, Ho.
  - destruct (E1 Hne) as [Hret Ho]. by rewrite (Hn ret Hret _ _ _ E2), Ho.
Qed.

Lemma neutral_assoc {A B C} (m : M T A) (f : A → M T B) (k : B → M T C) :
  neutral (m ≫= λ x, f x ≫= k) → neutral ((m ≫= f) ≫= k).
Proof.
  intros Hn s b s' E. apply (Hn s b s'). revert E. unfold mbind, M_bind.
  by destruct (m s).
Qed.

Lemma releases_assoc {A B C} id key (m : M T A) (f : A → M T B) (k : B → M T C) :
  releases id key (m ≫= λ x, f x ≫= k) → releases id key ((m ≫= f) ≫= k).
Proof.
  intros Hn s b s' L E. apply (Hn s b s' L). revert E. unfold mbind, M_bind.
  by destruct (m s).
Qed.

(** The daemon has a vnn map: its fetches succeed. *)
Lemma fetch_ret id key s a s' : db_fetch id key s = Ret a s' → a.1.1 = 0.
Proof.
  unfold db_fetch, gets, mbind, M_bind. destruct (the_db id s) as [db s1|]; [|done].
  destruct (ctdb_ltdb_fetch _ _ _ _) as [[[ret h] d] db'] eqn:E. intros [= <- _]. simpl.
  revert E. unfold ctdb_ltdb_fetch. simpl. repeat case_match; intros; by simplify_eq.
Qed.

Lemma lock_fetch_then {B} id key p ig (k : Z * ctdb_ltdb_header * bytes → M T B) :
  (∀ h d, releases id key (k (0, h, d))) →
  (∀ ret h d, ret = -1 ∨ ret = -2 → neutral (k (ret, h, d))) →
  neutral (ctdb_ltdb_lock_fetch_requeue ev id key p ig ≫= k).
Proof.
  intros Hr Hn. unfold ctdb_ltdb_lock_fetch_requeue. apply neutral_assoc, lock_then_release.
  - simpl. apply releases_assoc. intros s b s2 L. unfold mbind, M_bind.
    destruct (db_fetch id key s) as [[[ret h] d] s1|] eqn:E; [|done].
    pose proof (fetch_ret _ _ _ _ _ E) as Hret. simpl in Hret. subst ret. simpl.
    intros E2 HL. pose proof (neutral_fetch _ _ _ _ _ E) as Hf.
    destruct (Hr h d s1 b s2 L E2) as [H1 H2]; [by rewrite Hf|].
    split; [done|]. intros id' Hne. by rewrite H2, Hf.
  - intros ret Hret. assert ((ret =? 0) = false) as -> by (destruct Hret; by subst).
    intros s b s' E. by apply (Hn ret zero_header [] Hret s b s').
Qed.

Lemma neutral_request_dmaster c : neutral (ctdb_request_dmaster ev c).
Proof.
  unfold ctdb_request_dmaster. apply neutral_bind; [auto with neutral|].
  intros [db|]; [|auto with neutral]. apply lock_fetch_then.
  - intros h d. simpl. repeat releases_step. apply releases_become_dmaster.
  - intros ret h d [-> | ->]; simpl; auto with neutral.
Qed.

Lemma neutral_reply_dmaster c : neutral (ctdb_reply_dmaster ev c).
Proof.
  unfold ctdb_reply_dmaster. apply neutral_bind; [auto with neutral|].
  intros [db|]; [|auto with neutral]. apply lock_then_release.
  - apply releases_become_dmaster.
  - intros ret [-> | ->]; simpl; auto with neutral.
Qed.

Lemma neutral_reply_call_ro cs c : neutral (reply_call_ro ev cs c).
Proof.
  unfold reply_call_ro. do 2 (case_goal; [|auto with neutral]); [auto with neutral|].
  apply lock_then_release; [simpl|intros ret [-> | ->]; simpl; auto with neutral].
  repeat releases_step.
Qed.

Lemma neutral_reply_call c : neutral (ctdb_reply_call ev c).
Proof.
  unfold ctdb_reply_call. apply neutral_bind; [auto with neutral|].
  intros [cs|]; [|auto with neutral]. case_goal; [auto with neutral|].
  apply neutral_bind; [apply neutral_reply_call_ro|]. intros [d|]; auto with neutral.
Qed.

Lemma neutral_reply_error c : neutral (ctdb_reply_error c).
Proof. unfold ctdb_reply_error. solve_neutral. Qed.

(** No transaction is active on the database. *)
Definition no_transaction id s : Prop :=
  ∀ db, find_db id (cx_db_list s) = Some db → db_persistent_state db = false.

(** Releases the lock unless a transaction is active. *)
Definition releases_nt {A} id key (m : M T A) : Prop :=
  ∀ s a s' L, m s = Ret a s' → no_transaction id s' → locks s id = Some (key :: L) →
  locks s' id = Some L ∧ ∀ id', id' ≠ id → locks s' id' = locks s id'.

Lemma releases_nt_of {A} id key (m : M T A) : releases id key m → releases_nt id key m.
Proof. intros Hm s a s' L E _ HL. by apply (Hm s a s' L). Qed.

Lemma neutral_releases_nt {A B} id key (m : M T A) (k : A → M T B) :
  neutral m → (∀ a, releases_nt id key (k a)) → releases_nt id key (m ≫= k).
Proof.
  intros Hm Hk s b s2 L. unfold mbind, M_bind. destruct (m s) as [a s1|] eqn:E; [|done].
  intros E2 Hnt HL. destruct (Hk a s1 b s2 L E2 Hnt) as [H1 H2]; [by rewrite (Hm _ _ _ E)|].
  split; [done|]. intros id' Hne. by rewrite H2, (Hm _ _ _ E).
Qed.

Lemma releases_nt_transaction id key (m : M T ()) :
  releases id key m →
  releases_nt id key (db ← the_db id; if db_persistent_state db then mret () else m).
Proof.
  intros Hm s a s' L. unfold the_db, find_ctdb_db, gets, mbind, M_bind, mret, M_ret.
  destruct (find_db id (cx_db_list s)) as [db|] eqn:E; [|done].
  destruct (db_persistent_state db) eqn:Ep; [|intros E2 _ HL; by apply (Hm s a s' L)].
  intros [= _ <-] Hnt. by rewrite (Hnt db E) in Ep.
Qed.

Lemma neutral_upd_hot id key h :
  neutral (upd_db id (λ db, ctdb_update_db_stat_hot_keys db key h)).
Proof.
  apply neutral_upd_db. intros db. unfold ctdb_update_db_stat_hot_keys.
  by destruct (update_hot_keys _ _ _ _).
Qed.
Hint Resolve neutral_upd_hot : neutral.

Lemma neutral_call_statistics id key c : neutral (call_statistics id key c).
Proof.
  unfold call_statistics. apply neutral_bind; [auto with neutral|]. intros _.
  case_goal; [|auto with neutral]. apply neutral_bind; [auto with neutral|]. intros _.
  apply neutral_bind; [by apply neutral_upd_db|]. intros _. solve_neutral.
Qed.

Lemma neutral_clear_revoke id key h d : neutral (clear_revoke_complete id key h d).
Proof.
  unfold clear_revoke_complete. case_goal; [|auto with neutral].
  apply neutral_bind; [auto with neutral|]. intros _.
  apply neutral_bind; [by apply neutral_upd_db|]. intros _.
  apply neutral_bind; [auto with neutral|]. intros [ret h1].
  case_goal; [auto with neutral|]. apply neutral_bind; [by apply neutral_upd_db|auto with neutral].
Qed.

Lemma neutral_first_delegation id key c h d : neutral (first_delegation id key c h d).
Proof. unfold first_delegation. solve_neutral. Qed.
Hint Resolve neutral_call_statistics neutral_clear_revoke neutral_first_delegation : neutral.

Lemma releases_start_revoke id key c h d : releases id key (start_revoke ev id key c h d).
Proof. unfold start_revoke. repeat releases_step. Qed.

Lemma releases_delegate id key c h d : releases id key (delegate ev id key c h d).
Proof.
  unfold delegate. repeat releases_step. apply neutral_bind; [auto with neutral|]. intros hd.
  apply neutral_bind; [auto with neutral|]. intros _.
  apply neutral_bind; [auto with neutral|]. intros _. by apply neutral_upd_db.
Qed.

Lemma releases_answer_local id call hdr h d :
  releases id (cl_key call) (answer_local ev id call hdr h d).
Proof.
  unfold answer_local. apply releases_run_call. intros r call' h' Hk.
  set (call2 := if negb (r =? 0) then _ else _).
  assert (cl_key call2 = cl_key call) as <- by (subst call2; by case_goal).
  repeat releases_step.
Qed.

Ltac nt_case :=
  match goal with |- releases_nt _ _ (if ?b then _ else _) => destruct b end.

Lemma releases_request_call_locked id key c h d :
  releases_nt id key (request_call_locked ev id key c h d).
Proof.
  unfold request_call_locked. do 2 (apply neutral_releases_nt; [auto with neutral|]; intros ?).
  set (c' := if (rc_flags c &? _) && _ then _ else _). cbv zeta. clearbody c'.
  apply neutral_releases_nt; [auto with neutral|]. intros h0.
  nt_case; [apply releases_nt_of; repeat releases_step|].
  nt_case; [apply releases_nt_of; repeat releases_step|].
  nt_case; [apply releases_nt_of, releases_start_revoke|].
  apply neutral_releases_nt; [auto with neutral|]. intros h1.
  nt_case; [apply releases_nt_of, releases_delegate|].
  apply neutral_releases_nt; [auto with neutral|]. intros _.
  nt_case; [apply releases_nt_transaction; repeat releases_step|].
  apply releases_nt_of. set (call := mk_call _ _ _ _ _ _).
  change key with (cl_key call). apply releases_answer_local.
Qed.

Lemma releases_nt_neutral {B} id key p ig (k : Z * ctdb_ltdb_header * bytes → M T B) s b s' :
  (∀ h d, releases_nt id key (k (0, h, d))) →
  (∀ ret h d, ret = -1 ∨ ret = -2 → neutral (k (ret, h, d))) →
  (ctdb_ltdb_lock_fetch_requeue ev id key p ig ≫= k) s = Ret b s' → no_transaction id s' →
  ∀ id', locks s' id' = locks s id'.
Proof.
  intros Hr Hn E Hnt.
  revert E. unfold ctdb_ltdb_lock_fetch_requeue, mbind, M_bind.
  destruct (ctdb_ltdb_lock_requeue _ _ _ _ _ s) as [ret s1|] eqn:E; [|done].
  apply lock_requeue_locks in E as [E0 E1]. destruct (Z.eqb_spec ret 0) as [->|Hne].
  - destruct (db_fetch id key s1) as [[[ret h] d] s2|] eqn:Ef; [|done].
    pose proof (fetch_ret _ _ _ _ _ Ef) as Hret. simpl in Hret. subst ret. simpl.
    pose proof (neutral_fetch _ _ _ _ _ Ef) as Hf. intros E2.
    destruct (E0 eq_refl) as (L & HL & HL' & Ho).
    destruct (Hr h d s2 b s' L E2 Hnt) as [H1 H2]; [by rewrite Hf|].
    intros id'. destruct (decide (id' = id)) as [->|Hid]; [congruence|].
    by rewrite H2, Hf, Ho.
  - destruct (E1 Hne) as [Hret Ho]. intros E2 id'. by rewrite (Hn ret _ _ Hret _ _ _ E2), Ho.
Qed.

Lemma request_call_locks c s s' :
  ctdb_request_call ev c s = Ret () s' → no_transaction (rc_db_id c) s' →
  ∀ id, locks s' id = locks s id.
Proof.
  intros E Hnt. revert E. unfold ctdb_request_call. unfold gets, mbind at 1, M_bind at 1.
  case_goal; [by intros [= <-]|]. unfold find_ctdb_db, gets, mbind at 1, M_bind at 1.
  destruct (find_db (rc_db_id c) (cx_db_list s)) as [db|] eqn:Edb;
    [|intros E id; by apply neutral_send_error in E].
  rewrite (find_db_id _ _ _ Edb). unfold mbind at 1, M_bind at 1.
  set (pin := if db_sticky db then _ else _).
  assert (neutral pin) as Hpin by (subst pin; case_goal; [solve_neutral|auto with neutral]).
  destruct (pin s) as [pinned s1|] eqn:Ep; [|done]. specialize (Hpin _ _ _ Ep).
  case_goal; [intros [= <-]; done|]. intros E id. rewrite <- (Hpin id). revert id.
  eapply releases_nt_neutral; [| |exact E|done].
  - intros h d. simpl. apply releases_request_call_locked.
  - intros ret h d [-> | ->]; simpl; auto with neutral.
Qed.

Lemma neutral_stat st : neutral (CTDB_INCREMENT_STAT st).
Proof. by apply neutral_modify. Qed.

(** C16: whichever packet of the call protocol is dispatched, when the handler
    returns the process holds exactly the chainlocks it held before, provided no
    transaction is active on the databases: no branch of the handlers, errors
    included, leaks or drops a lock. *)
Theorem input_pkt_releases_locks req_message req_control reply_control p s s'
    (Hp : call_packet p = true)
    (E : ctdb_input_pkt ev req_message req_control reply_control p s = Ret () s')
    (Hnt : ∀ id, no_transaction id s') :
  ∀ id, locks s' id = locks s id.
Proof.
  revert E. unfold ctdb_input_pkt, gets. unfold mbind at 1, M_bind at 1. case_goal; [by intros [= <-]|].
  destruct p as [c|c|c|c| | | | | |]; try done; unfold mbind, M_bind;
    destruct (CTDB_INCREMENT_STAT _ s) as [[] s1|] eqn:E1; try done; intros E2 id;
    rewrite <- (neutral_stat _ _ _ _ E1 id).
  - by eapply request_call_locks.
  - by apply (neutral_reply_call c _ _ _ E2).
  - by apply (neutral_request_dmaster c _ _ _ E2).
  - by apply (neutral_reply_dmaster c _ _ _ E2).
Qed.

(** Whether a transaction is active is not changed by the statistics. *)
Definition in_transaction s id : option bool :=
  db_persistent_state <$> find_db id (cx_db_list s).

Definition keeps_transaction {A} (m : M T A) : Prop :=
  ∀ s a s', m s = Ret a s' → ∀ id, in_transaction s' id = in_transaction s id.

Lemma keeps_bind {A B} (m : M T A) (k : A → M T B) :
  keeps_transaction m → (∀ a, keeps_transaction (k a)) → keeps_transaction (m ≫= k).
Proof.
  intros Hm Hk s b s2. unfold mbind, M_bind. destruct (m s) as [a s1|] eqn:E; [|done].
  intros E2 id. by rewrite (Hk _ _ _ _ E2), (Hm _ _ _ E).
Qed.

Lemma put_transaction s db db0 id :
  find_db (db_id db) (cx_db_list s) = Some db0 →
  db_persistent_state db = db_persistent_state db0 →
  in_transaction (set_cx_db_list s (put_db db (cx_db_list s))) id = in_transaction s id.
Proof.
  intros E Hc. unfold in_transaction. simpl. destruct (decide (db_id db = id)) as [<-|Hne].
  - rewrite (find_put _ _ db0), E by done. simpl. by rewrite Hc.
  - by rewrite find_put_other.
Qed.

Lemma keeps_the_db id : keeps_transaction (the_db id).
Proof.
  intros s a s'. unfold the_db, find_ctdb_db, gets, mbind, M_bind, mret, M_ret.
  case_goal; [by intros [= _ <-]|done].
Qed.

Lemma keeps_upd_db id0 f :
  (∀ db, db_id (f db) = db_id db ∧ db_persistent_state (f db) = db_persistent_state db) →
  keeps_transaction (upd_db id0 f).
Proof.
  intros Hf s a s'. unfold upd_db, the_db, find_ctdb_db, gets, mbind, M_bind, mret, M_ret.
  destruct (find_db id0 (cx_db_list s)) as [db|] eqn:E; [|done].
  intros [= _ <-] id. destruct (Hf db) as [Hid Hc].
  apply (put_transaction _ _ db); [|done]. by rewrite Hid, (find_db_id _ _ _ E).
Qed.

Lemma keeps_make_sticky id key : keeps_transaction (ctdb_make_record_sticky id key).
Proof.
  intros s a s'. unfold ctdb_make_record_sticky, the_db, find_ctdb_db, gets, mbind, M_bind, mret, M_ret.
  destruct (find_db id (cx_db_list s)) as [db|] eqn:E; [|done].
  case_goal; [by intros [= _ <-]|]. intros [= _ <-] i.
  apply (put_transaction _ _ db); [|done]. simpl. by rewrite (find_db_id _ _ _ E).
Qed.

Lemma keeps_call_statistics id key c : keeps_transaction (call_statistics id key c).
Proof.
  unfold call_statistics. apply keeps_bind; [by intros s a s' [= _ <-]|]. intros _.
  case_goal; [|done]. apply keeps_bind; [by intros s a s' [= _ <-]|]. intros _.
  apply keeps_bind; [by apply keeps_upd_db|]. intros _. apply keeps_bind; [|intros _].
  { apply keeps_upd_db. intros db. unfold ctdb_update_db_stat_hot_keys.
    by destruct (update_hot_keys _ _ _ _). }
  apply keeps_bind; [apply keeps_the_db|]. intros db.
  apply keeps_bind; [by intros s a s' [= _ <-]|]. intros m. case_goal; [|by intros s a s' [= _ <-]].
  apply keeps_bind; [apply keeps_make_sticky|]. by intros _ s a s' [= _ <-].
Qed.

Lemma has_flag_0 f : (0 &? f) = false.
Proof. by unfold has_flag. Qed.

Lemma bind_the_db {A} id (k : ctdb_db_context T → M T A) s db :
  find_db id (cx_db_list s) = Some db → (the_db id ≫= k) s = k db s.
Proof.
  intros E. unfold the_db, find_ctdb_db, gets, mbind, M_bind, mret, M_ret. by rewrite E.
Qed.

Lemma bind_gets {A B} (f : ctdb_context T → A) (k : A → M T B) s :
  (gets f ≫= k) s = k (f s) s.
Proof. done. Qed.

Lemma bind_ret {A B} (a : A) (k : A → M T B) s : (mret a ≫= k) s = k a s.
Proof. done. Qed.

Lemma refused_run id key c h d s db :
  find_db id (cx_db_list s) = Some db → db_readonly db = false →
  dmaster h = cx_pnn s → flags h = 0 → hdr_srcnode (rc_hdr c) ≠ cx_pnn s →
  ∃ c', request_call_locked ev id key c h d s
  = (call_statistics id key c' ;;
     db ← the_db id;
     if db_persistent_state db then mret ()
     else ctdb_call_send_dmaster ev id c' h key d ;; db_unlock id key ;; mret ()) s.
Proof.
  intros Hdb Hro Hm Hfl Hsrc. unfold request_call_locked.
  rewrite (bind_the_db _ _ _ _ Hdb), bind_gets, Hro. cbn [negb]. rewrite andb_true_r. cbv zeta.
  set (c' := if rc_flags c &? _ then _ else c).
  assert ((rc_flags c' &? CTDB_WANT_READONLY) = false) as Hw.
  { subst c'. destruct (rc_flags c &? CTDB_WANT_READONLY) eqn:E; [|done].
    apply has_flag_ldiff_self. }
  assert (rc_hdr c' = rc_hdr c) as Hh by (subst c'; by case_goal).
  clearbody c'. exists c'. unfold clear_revoke_complete, first_delegation.
  rewrite Hfl, !has_flag_0. cbn [negb]. rewrite bind_ret, Hfl, !has_flag_0, Hm, Z.eqb_refl, Hw.
  cbn [negb andb]. rewrite bind_ret, Hh. by rewrite (proj2 (Z.eqb_neq _ _) Hsrc).
Qed.

(** C39: a call from another node for a record this node is dmaster of, while a
    transaction is active on the database, is dropped with the chainlock still
    held and without any packet being queued: neither an error reply nor the
    migration is sent. *)
Theorem refused_migration_keeps_lock id key c h d s db s'
    (Hdb : find_db id (cx_db_list s) = Some db)
    (Htr : db_persistent_state db = true) (Hro : db_readonly db = false)
    (Hm : dmaster h = cx_pnn s) (Hfl : flags h = 0)
    (Hsrc : hdr_srcnode (rc_hdr c) ≠ cx_pnn s)
    (E : request_call_locked ev id key c h d s = Ret () s') :
  locks s' id = locks s id ∧ cx_net_out s' = cx_net_out s
  ∧ cx_deferred s' = cx_deferred s ∧ cx_lock_queue s' = cx_lock_queue s.
Proof.
  destruct (refused_run id key c h d s db) as [c' Hr]; [done..|]. rewrite Hr in E.
  revert E. unfold mbind at 1, M_bind at 1.
  pose proof (quiet_call_statistics id id key c' s) as Hq. unfold framed in Hq.
  destruct (call_statistics id key c' s) as [[] s1|] eqn:E1; [|done].
  pose proof (keeps_call_statistics _ _ _ _ _ _ E1 id) as Ht.
  pose proof (neutral_call_statistics _ _ _ _ _ _ E1 id) as Hl.
  unfold in_transaction in Ht. rewrite Hdb in Ht. simpl in Ht. rewrite Htr in Ht.
  unfold the_db, find_ctdb_db, gets, mbind, M_bind, mret, M_ret.
  destruct (find_db id (cx_db_list s1)) as [db1|]; [|done]. injection Ht as ->.
  intros [= <-]. by destruct Hq as (_ & _ & ? & ? & ? & _).
Qed.

End locks.

(** *** The lock properties at a run *)

(** The call of node 1 that the lmaster 0 receives, and the state after it. *)
Definition lock_pkt : packet :=
  match cl_net run1 with p :: _ => p | [] => CTDB_UNKNOWN_OPERATION (mk_hdr 0 0 0 0 0) end.
Definition lock_state : ctdb_context memtdb :=
  out_state (input run_ev lock_pkt (run_ctx 0)).

Lemma ret_out_state {T} (o : outcome T ()) :
  (if o is Ret _ _ then true else false) = true → o = Ret () (out_state o).
Proof. by destruct o as [[]|]. Qed.

Lemma no_transaction_all s :
  forallb (λ db : ctdb_db_context memtdb, negb (db_persistent_state db)) (cx_db_list s) = true →
  ∀ id, no_transaction id s.
Proof.
  intros Hs id db. induction (cx_db_list s) as [|d l IH]; simpl in *; [done|].
  apply andb_true_iff in Hs as [Hd Hl]. case_goal; [|by apply IH].
  intros [= <-]. by apply negb_true_iff.
Qed.

Lemma lock_run : input run_ev lock_pkt (run_ctx 0) = Ret () lock_state.
Proof. unfold lock_state. apply ret_out_state. vm_compute. reflexivity. Qed.

Lemma input_pkt_releases_locks_witness : locks lock_state 1 = locks (run_ctx 0) 1.
Proof.
  assert (call_packet lock_pkt = true) as Hp by (vm_compute; reflexivity).
  assert (∀ id, no_transaction id lock_state) as Hnt
    by (apply no_transaction_all; vm_compute; reflexivity).
  pose proof (input_pkt_releases_locks run_ev ignore ignore ignore lock_pkt (run_ctx 0)
    lock_state) as Hw.
  specialize (Hw Hp). specialize (Hw lock_run). exact (Hw Hnt 1).
Defined.

(** The same node while a transaction is active. *)
Definition transaction_db : ctdb_db_context memtdb :=
  mk_db 1 false false false (mk_memtdb ∅ false 0) (mk_memtdb ∅ false 0) (db_calls run_db)
    false true true [] ∅ ∅ 0 (replicate 10 (mk_hot_key 0 [])) 0 0 (replicate 16 0) [run_key] [].
Definition transaction_ctx : ctdb_context memtdb :=
  set_cx_db_list (run_ctx 0) [transaction_db].
Definition transaction_call : ctdb_req_call :=
  mk_req_call (mk_hdr 0 5 0 1 1) 0 1 CTDB_NULL_FUNC 0 1 0 run_key.
Definition transaction_state : ctdb_context memtdb :=
  out_state (request_call_locked run_ev 1 run_key transaction_call (mk_header 0 0 0 0) []
    transaction_ctx).

Lemma transaction_ret :
  request_call_locked run_ev 1 run_key transaction_call (mk_header 0 0 0 0) [] transaction_ctx
  = Ret () transaction_state.
Proof. unfold transaction_state. apply ret_out_state. vm_compute. reflexivity. Qed.

Lemma refused_migration_keeps_lock_witness :
  locks transaction_state 1 = locks transaction_ctx 1.
Proof.
  pose proof (refused_migration_keeps_lock run_ev 1 run_key transaction_call (mk_header 0 0 0 0)
    [] transaction_ctx transaction_db transaction_state
    eq_refl eq_refl eq_refl eq_refl eq_refl) as Hw.
  specialize (Hw ltac:(done) transaction_ret). apply Hw.
Defined.

(** ** Statistics *)

(** *** Hop count buckets *)

Lemma hop_loop_spec n z b fuel :
  (n ≤ fuel)%nat → 0 <= z < 4 ^ Z.of_nat n → (n = 0%nat ∨ 4 ^ (Z.of_nat n - 1) <= z) →
  hop_loop fuel z b = Some (b + n)%nat.
Proof.
  revert z b fuel. induction n as [|n IH]; intros z b fuel Hf Hz Hlo.
  - assert (z = 0) as -> by (change (4 ^ Z.of_nat 0) with 1 in Hz; lia).
    rewrite Nat.add_0_r. by destruct fuel.
  - destruct fuel as [|fuel]; [lia|]. destruct Hlo as [?|Hlo]; [done|].
    replace (Z.of_nat (S n) - 1) with (Z.of_nat n) in Hlo by lia.
    assert (0 < 4 ^ Z.of_nat n) by (apply Z.pow_pos_nonneg; lia).
    simpl. destruct (Z.eqb_spec z 0) as [->|Hne]; [lia|].
    rewrite Z.shiftr_div_pow2 by lia. change (2 ^ 2) with 4.
    rewrite Nat2Z.inj_succ, Z.pow_succ_r in Hz by lia.
    rewrite (IH (z / 4) (S b) fuel); [f_equal; lia|lia| |].
    + split; [apply Z.div_pos; lia|apply Z.div_lt_upper_bound; lia].
    + destruct n as [|n]; [by left|right]. apply Z.div_le_lower_bound; [lia|].
      replace (4 * 4 ^ (Z.of_nat (S n) - 1)) with (4 ^ Z.of_nat (S n)); [done|].
      rewrite Nat2Z.inj_succ, Z.pow_succ_r by lia. f_equal. f_equal. lia.
Qed.

Lemma base4_digits z N :
  0 <= z < 4 ^ Z.of_nat N →
  ∃ n, (n ≤ N)%nat ∧ z < 4 ^ Z.of_nat n ∧ (n = 0%nat ∨ 4 ^ (Z.of_nat n - 1) <= z).
Proof.
  induction N as [|N IH]; intros Hz; [exists 0%nat; split_and!; [lia|apply Hz|by left]|].
  destruct (Z.lt_ge_cases z (4 ^ Z.of_nat N)) as [Hlt|Hge].
  - destruct IH as (n & ? & ? & ?); [lia|]. exists n. split_and!; [lia|done..].
  - exists (S N). split_and!; [lia|apply Hz|right]. by replace (Z.of_nat (S N) - 1) with (Z.of_nat N) by lia.
Qed.

(** the hop count bucket of a call is the number of base-4 digits of the hop
    count, capped at the last bucket: bucket 0 is for hop count 0 and bucket
    [n] for hop counts from 4^(n-1) to 4^n - 1.  In particular the index is
    within the array and sixteen iterations of the loop are enough. *)
Theorem hop_bucket_spec h (Hh : 0 <= h < 2 ^ 31) :
  ∃ n, hop_bucket h = Some n ∧ (n < MAX_COUNT_BUCKETS)%nat
  ∧ (n = 0%nat ∨ 4 ^ (Z.of_nat n - 1) <= h)
  ∧ ((n < MAX_COUNT_BUCKETS - 1)%nat → h < 4 ^ Z.of_nat n).
Proof.
  destruct (base4_digits h 16) as (n & Hn & Hlt & Hlo); [change (4 ^ Z.of_nat 16) with (2 ^ 32); lia|].
  unfold hop_bucket. rewrite s32_id by lia.
  rewrite (hop_loop_spec n h 0 16) by (done || lia). cbn [mbind option_bind Nat.add].
  destruct (Nat.leb_spec MAX_COUNT_BUCKETS n) as [Hm|Hm].
  - exists (MAX_COUNT_BUCKETS - 1)%nat. unfold MAX_COUNT_BUCKETS in *.
    assert (n = 16%nat) as -> by lia. split_and!; [done|lia| |lia].
    right. destruct Hlo as [?|Hlo]; [lia|]. change (4 ^ (Z.of_nat 16 - 1)) with (4 * 4 ^ 14) in Hlo.
    change (4 ^ (Z.of_nat (16 - 1) - 1)) with (4 ^ 14). lia.
  - exists n. by split_and!.
Qed.

Lemma hop_bucket_spec_witness : hop_bucket 17 = Some 3%nat ∧ 4 ^ (Z.of_nat 3 - 1) <= 17.
Proof.
  destruct (hop_bucket_spec 17) as (n & E & _ & H1 & _); [lia|].
  vm_compute in E. injection E as <-. split; [reflexivity|]. by destruct H1.
Defined.

(** a packet with a hop count of 2^31 or more is negative once it is an
    [int]; the shift that computes its bucket never reaches zero, so the daemon
    that receives it does not leave the loop. *)
Theorem hop_bucket_diverges h fuel b (Hh : 2 ^ 31 <= h < 2 ^ 32) :
  hop_loop fuel (s32 h) b = None.
Proof.
  assert (s32 h < 0) as Hneg by (rewrite s32_neg by done; lia).
  revert Hneg b. generalize (s32 h). induction fuel as [|fuel IH]; intros z Hz b; simpl.
  - by rewrite (proj2 (Z.eqb_neq z 0)) by lia.
  - rewrite (proj2 (Z.eqb_neq z 0)) by lia. apply IH. by apply Z.shiftr_neg.
Qed.

Lemma hop_bucket_diverges_witness : hop_loop 100 (s32 (2 ^ 31)) 0 = None.
Proof. apply (hop_bucket_diverges (2 ^ 31) 100 0). lia. Defined.

(** *** Hot keys *)

Implicit Types (l : list hot_key).

Definition hot_used_keys l : list bytes := hk_key <$> filter (λ hk, 0 < hk_count hk) l.

(** The table: the used slots come first, their keys are distinct, and slot 0
    holds the smallest count, the next victim. *)
Record hot_ok (num : nat) l : Prop := {
  hot_length : length l = MAX_HOT_KEYS;
  hot_num : (num ≤ MAX_HOT_KEYS)%nat;
  hot_used i : (i < num)%nat → 0 < hk_count (hot_key_at l i);
  hot_unused i : (num ≤ i)%nat → hot_key_at l i = mk_hot_key 0 [];
  hot_min i : (i < num)%nat → hk_count (hot_key_at l 0) <= hk_count (hot_key_at l i);
  hot_keys_nodup : NoDup (hot_used_keys l);
}.

Lemma hot_at_lookup l i hk : l !! i = Some hk → hot_key_at l i = hk.
Proof. apply nth_lookup_Some. Qed.

Lemma hot_at_insert l i hk : (i < length l)%nat → hot_key_at (<[i := hk]> l) i = hk.
Proof. intros Hi. apply hot_at_lookup. by rewrite list_lookup_insert_eq. Qed.

Lemma hot_at_insert_ne l i j hk : i ≠ j → hot_key_at (<[i := hk]> l) j = hot_key_at l j.
Proof. intros Hi. unfold hot_key_at. by rewrite !nth_lookup, list_lookup_insert_ne. Qed.

Lemma swap_perm (l : list hot_key) i :
  (0 < i < length l)%nat →
  <[0%nat := hot_key_at l i]> (<[i := hot_key_at l 0]> l) ≡ₚ l.
Proof.
  destruct l as [|x t]; [simpl; lia|]. destruct i as [|i]; [lia|]. intros Hi. simpl in Hi.
  destruct (lookup_lt_is_Some_2 t i) as [y Hy]; [lia|].
  assert (hot_key_at (x :: t) (S i) = y) as -> by (by apply hot_at_lookup).
  apply list_elem_of_split_length in Hy as (t1 & t2 & -> & ->). simpl.
  replace (length t1) with (length t1 + 0)%nat by lia. rewrite insert_app_r. simpl.
  solve_Permutation.
Qed.

(** What the loop has established when it has passed the slots below [k]. *)
Record sorted_upto (num : nat) l (k : nat) l' : Prop := {
  su_perm : l' ≡ₚ l;
  su_used i : (i < num)%nat → 0 < hk_count (hot_key_at l' i);
  su_unused i : (num ≤ i)%nat → hot_key_at l' i = mk_hot_key 0 [];
  su_min i : (i < num)%nat → (i < k)%nat →
    hk_count (hot_key_at l' 0) <= hk_count (hot_key_at l' i);
}.

Lemma sort_step_upto num l k l' :
  length l = MAX_HOT_KEYS → (0 < k < MAX_HOT_KEYS)%nat →
  sorted_upto num l k l' → sorted_upto num l (S k) (sort_step l' k).
Proof.
  intros Hl Hk [Hp Hu Hun Hm]. pose proof (Permutation_length Hp) as Hlen.
  unfold sort_step. destruct (Nat.lt_ge_cases k num) as [Hkn|Hkn].
  2:{ rewrite (Hun k Hkn). simpl. split; [done..|]. intros i Hi Hik. apply Hm; lia. }
  pose proof (Hu k Hkn). rewrite (proj2 (Z.eqb_neq _ _)) by lia.
  destruct (Z.ltb_spec (hk_count (hot_key_at l' k)) (hk_count (hot_key_at l' 0))) as [Hlt|Hge].
  2:{ split; [done..|]. intros i Hi Hik. destruct (decide (i = k)) as [->|]; [done|apply Hm; lia]. }
  set (x := hot_key_at l' k) in *. set (y := hot_key_at l' 0) in *.
  assert (∀ i, hot_key_at (<[0%nat := x]> (<[k := y]> l')) i
    = if decide (i = 0)%nat then x else if decide (i = k) then y else hot_key_at l' i) as Hat.
  { intros i. destruct (decide (i = 0)%nat) as [->|Hi0].
    - apply hot_at_insert. rewrite length_insert. lia.
    - rewrite hot_at_insert_ne by lia. destruct (decide (i = k)) as [->|Hik].
      + apply hot_at_insert. lia.
      + apply hot_at_insert_ne. lia. }
  split.
  - etrans; [|exact Hp]. apply swap_perm. lia.
  - intros i Hi. rewrite Hat. repeat case_decide; subst; auto with lia.
  - intros i Hi. rewrite Hat. repeat case_decide; subst; [lia..|by apply Hun].
  - intros i Hi Hik. rewrite !Hat. simpl. repeat case_decide; subst; [lia..|].
    pose proof (Hm i Hi ltac:(lia)). lia.
Qed.

Lemma sort_keys_upto num l :
  length l = MAX_HOT_KEYS → sorted_upto num l 1 l → sorted_upto num l MAX_HOT_KEYS (sort_keys l).
Proof.
  intros Hl Hs. unfold sort_keys.
  enough (∀ n k l', (0 < k)%nat → (k + n = MAX_HOT_KEYS)%nat → sorted_upto num l k l' →
    sorted_upto num l MAX_HOT_KEYS (fold_left sort_step (seq k n) l')) as Hgo
    by (apply (Hgo (MAX_HOT_KEYS - 1)%nat 1%nat); [lia|reflexivity|done]).
  induction n as [|n IH]; intros k l' Hk Hn Hu; simpl.
  - by replace MAX_HOT_KEYS with k by lia.
  - apply IH; [lia..|]. apply sort_step_upto; [done|lia|done].
Qed.

#[local] Instance hot_used_keys_proper : Proper ((≡ₚ) ==> (≡ₚ)) hot_used_keys.
Proof. intros l l' Hl. unfold hot_used_keys. by rewrite Hl. Qed.

Lemma used_keys_split l1 hk l2 :
  hot_used_keys (l1 ++ hk :: l2)
  ≡ₚ (if decide (0 < hk_count hk) then [hk_key hk] else []) ++ hot_used_keys (l1 ++ l2).
Proof.
  unfold hot_used_keys. rewrite !filter_app, filter_cons, !fmap_app.
  case_decide; simpl; solve_Permutation.
Qed.

(** The list with slot [i] overwritten by a used entry, before it is sorted. *)
Lemma insert_sorted num l i key h :
  hot_ok num l → (i < MAX_HOT_KEYS)%nat → (i ≤ num)%nat → 0 < h →
  NoDup (hot_used_keys (<[i := mk_hot_key h key]> l)) →
  hot_ok (Nat.max num (S i)) (sort_keys (<[i := mk_hot_key h key]> l))
  ∧ sort_keys (<[i := mk_hot_key h key]> l) ≡ₚ <[i := mk_hot_key h key]> l.
Proof.
  intros Hok Hi Hin Hh Hnd. set (l1 := <[i := mk_hot_key h key]> l).
  assert (length l1 = MAX_HOT_KEYS) as Hlen
    by (subst l1; rewrite length_insert; apply Hok).
  assert (∀ j, hot_key_at l1 j = if decide (j = i) then mk_hot_key h key else hot_key_at l j) as Hat.
  { intros j. subst l1. case_decide as Hj; [subst j; apply hot_at_insert; by rewrite (hot_length _ _ Hok)|].
    by apply hot_at_insert_ne. }
  destruct (sort_keys_upto (Nat.max num (S i)) l1) as [Hp Hu Hun Hm]; [done| |].
  { split; [done|..].
    - intros j Hj. rewrite Hat. case_decide; [done|]. apply (hot_used _ _ Hok). lia.
    - intros j Hj. rewrite Hat. case_decide; [lia|]. apply (hot_unused _ _ Hok). lia.
    - intros j _ Hj. assert (j = 0%nat) as -> by lia. done. }
  split; [|done]. split; [|pose proof (hot_num _ _ Hok); lia|done..| |].
  - by rewrite Hp.
  - intros j Hj. apply Hm; [done|]. pose proof (hot_num _ _ Hok). lia.
  - by rewrite Hp.
Qed.

Lemma insert_nodup l i hk key h :
  l !! i = Some hk → 0 < h → NoDup (hot_used_keys l) →
  (hk_key hk = key ∧ 0 < hk_count hk ∨ ∀ x, x ∈ l → hk_key x ≠ key) →
  NoDup (hot_used_keys (<[i := mk_hot_key h key]> l)).
Proof.
  intros Hi Hh Hnd Hkey. apply list_elem_of_split_length in Hi as (l1 & l2 & -> & ->).
  replace (length l1) with (length l1 + 0)%nat by lia. rewrite insert_app_r. simpl.
  rewrite used_keys_split in Hnd |- *. simpl. rewrite decide_True by done. simpl.
  destruct Hkey as [[<- Hc]|Hnew]; [by rewrite decide_True in Hnd by done|].
  apply NoDup_cons. split; [|by apply NoDup_app in Hnd as (_ & _ & ?)].
  unfold hot_used_keys. rewrite list_elem_of_fmap. intros (x & -> & Hx).
  apply list_elem_of_filter in Hx as [_ Hx]. apply (Hnew x); [|done].
  apply elem_of_app in Hx as [Hx|Hx]; apply elem_of_app; [by left|right; by constructor].
Qed.

Lemma hot_slot_used num l i hk :
  hot_ok num l → l !! i = Some hk → hk_key hk ≠ [] → (i < num)%nat ∧ 0 < hk_count hk.
Proof.
  intros Hok Hi Hk. destruct (Nat.lt_ge_cases i num) as [Hlt|Hge].
  - split; [done|]. rewrite <- (hot_at_lookup _ _ _ Hi). by apply (hot_used _ _ Hok).
  - pose proof (hot_unused _ _ Hok i Hge) as E. rewrite (hot_at_lookup _ _ _ Hi) in E. by subst.
Qed.

Lemma hot_first_nonneg num l : hot_ok num l → 0 <= hk_count (hot_key_at l 0).
Proof.
  intros Hok. destruct (Nat.lt_ge_cases 0 num) as [Hlt|Hge].
  - pose proof (hot_used _ _ Hok 0%nat Hlt). lia.
  - by rewrite (hot_unused _ _ Hok 0%nat Hge).
Qed.

(** The slot a call for [key] is recorded in: the one of the key, else the first
    free one, else the one with the smallest count. *)
Definition hot_slot (num : nat) l (key : bytes) : nat :=
  match list_find (λ hk, hk_key hk = key) l with
  | Some (i, _) => i
  | None => if Nat.ltb num MAX_HOT_KEYS then num else 0%nat
  end.

(** What was recorded for [key] before. *)
Definition hot_count l (key : bytes) : Z :=
  match list_find (λ hk, hk_key hk = key) l with Some (_, hk) => hk_count hk | None => 0 end.

(** [ctdb_update_db_stat_hot_keys] keeps the table of hot keys well formed
    (used slots first, distinct keys, the smallest count in slot 0).  A call
    whose hop count does not exceed that smallest count changes nothing; any
    other call is recorded in the slot of its key, in the first free slot, or
    over the smallest entry, with the larger of its hop count and the count of
    the key so far; all other entries stay. *)
Theorem update_hot_keys_correct num l key h num' l'
    (Hok : hot_ok num l) (Hkey : key ≠ [])
    (E : update_hot_keys num l key h = (num', l')) :
  hot_ok num' l' ∧
  (if h <=? hk_count (hot_key_at l 0) then num' = num ∧ l' = l
   else num' = Nat.max num (S (hot_slot num l key))
     ∧ l' ≡ₚ <[hot_slot num l key := mk_hot_key (Z.max h (hot_count l key)) key]> l).
Proof.
  revert E. unfold update_hot_keys, hot_slot, hot_count.
  destruct (Z.leb_spec h (hk_count (hot_key_at l 0))) as [Hle|Hgt]; [by intros [= <- <-]|].
  pose proof (hot_first_nonneg _ _ Hok) as H0. pose proof (hot_num _ _ Hok) as Hnum.
  pose proof (hot_length _ _ Hok) as Hlen.
  destruct (list_find (λ hk, hk_key hk = key) l) as [[i hk]|] eqn:Ef.
  - apply list_find_Some in Ef as (Hi & Hk & _).
    destruct (hot_slot_used _ _ _ _ Hok Hi) as [Hin Hc]; [by rewrite Hk|].
    rewrite Nat.max_l by lia. destruct (Z.leb_spec h (hk_count hk)) as [Hhk|Hhk].
    + intros [= <- <-]. split_and!; [done..|]. rewrite Z.max_r by lia.
      rewrite list_insert_id; [done|]. rewrite Hi. f_equal. destruct hk; by simpl in *; subst.
    + intros [= <- <-]. rewrite Z.max_l, Hk by lia.
      destruct (insert_sorted num l i key h) as [Ho Hp]; [done|lia..| |].
      { eapply insert_nodup; [done|lia|apply Hok|by left]. }
      rewrite Nat.max_l in Ho by lia. done.
  - apply list_find_None in Ef. rewrite Z.max_l by lia.
    set (i := if Nat.ltb num MAX_HOT_KEYS then num else 0%nat).
    assert ((i < MAX_HOT_KEYS)%nat ∧ (i ≤ num)%nat) as [Hi Hin].
    { subst i. unfold MAX_HOT_KEYS in *. destruct (Nat.ltb_spec num 10); lia. }
    destruct (lookup_lt_is_Some_2 l i) as [hk Hhk]; [by rewrite Hlen|].
    destruct (insert_sorted num l i key h) as [Ho Hp]; [done..|lia| |].
    { eapply insert_nodup; [done|lia|apply Hok|right]. exact (proj1 (Forall_forall _ _) Ef). }
    replace (if Nat.ltb num MAX_HOT_KEYS then (num, S num) else (0%nat, num))
      with (i, Nat.max num (S i)) by
      (subst i; unfold MAX_HOT_KEYS in *; destruct (Nat.ltb_spec num 10); f_equal; lia).
    intros [= <- <-]. done.
Qed.

Lemma hot_ok_fresh : hot_ok 0 (replicate MAX_HOT_KEYS (mk_hot_key 0 [])).
Proof.
  split; [done|lia|lia| |lia|by constructor].
  intros i _. do 10 (destruct i as [|i]; [done|]). by destruct i.
Qed.

Lemma update_hot_keys_correct_witness :
  hot_ok 1 (<[0%nat := mk_hot_key 3 run_key]> (replicate MAX_HOT_KEYS (mk_hot_key 0 []))).
Proof.
  destruct (update_hot_keys_correct 0 (replicate MAX_HOT_KEYS (mk_hot_key 0 [])) run_key 3 1
    (<[0%nat := mk_hot_key 3 run_key]> (replicate MAX_HOT_KEYS (mk_hot_key 0 [])))
    hot_ok_fresh ltac:(done) ltac:(vm_compute; reflexivity)) as [Hok _].
  exact Hok.
Defined.

(** ** The revoke child *)

Lemma revoke_wait_failed evs st st' :
  revoke_wait evs st = Some st' → rs_status st = -1 → rs_status st' = -1.
Proof.
  revert st. induction evs as [|e evs IH]; intros st; simpl; case_goal; try by intros [= <-].
  intros E Hst. apply IH in E; [done|].
  destruct e as [ret res|]; simpl; [by case_goal|done].
Qed.

Lemma revoke_wait_ok evs st st' :
  rs_finished st = false → 0 < rs_count st →
  revoke_wait evs st = Some st' → rs_status st' = 0 →
  rs_status st = 0
  ∧ take (Z.to_nat (rs_count st)) evs = replicate (Z.to_nat (rs_count st)) (RevokeReply 0 0).
Proof.
  revert st. induction evs as [|e evs IH]; intros st Hf Hc; simpl; rewrite Hf; [done|].
  intros E Hs.
  assert (rs_status (revoke_event_cb e st) ≠ -1) as Hne.
  { intros Hbad. apply revoke_wait_failed in E; [|done]. congruence. }
  destruct e as [ret res|]; [|done]. simpl in Hne.
  destruct (Z.eqb_spec ret 0) as [->|]; [|done]. destruct (Z.eqb_spec res 0) as [->|]; [|done].
  assert (Z.to_nat (rs_count st) = S (Z.to_nat (rs_count st - 1))) as -> by lia. simpl.
  destruct (Z.leb_spec (rs_count st - 1) 0) as [Hlast|Hmore].
  - assert (rs_count st - 1 = 0) as Hz by lia. simpl in E.
    unfold update_record_cb in E. rewrite (proj2 (Z.leb_le _ _) Hlast) in E.
    destruct evs; simpl in E; injection E as <-; simpl in Hs; by rewrite Hz.
  - destruct (IH (update_record_cb 0 0 st)) as [H1 H2]; [..|done|done|].
    + simpl. rewrite (proj2 (Z.leb_gt _ _)); [done|lia].
    + simpl. lia.
    + simpl in H1, H2. by rewrite H2.
Qed.

Lemma revoke_sends (send_ok : Z → bool) pnns st :
  let st' := foldl (λ st pnn, revoke_send_cb (send_ok pnn) st) st pnns in
  rs_finished st' = rs_finished st ∧ (rs_status st = 0 ∨ rs_status st = -1 →
                                      rs_status st' = 0 ∨ rs_status st' = -1)
  ∧ (rs_status st' = 0 → rs_status st = 0 ∧ (∀ p, p ∈ pnns → send_ok p = true)
     ∧ rs_count st' = rs_count st + Z.of_nat (length pnns)).
Proof.
  revert st. induction pnns as [|p pnns IH]; intros st; simpl.
  - split_and!; [done..|]. intros Hs. split_and!; [done| |lia]. by intros p ?%elem_of_nil.
  - destruct (IH (revoke_send_cb (send_ok p) st)) as (H1 & H2 & H3).
    unfold revoke_send_cb in H1, H2, H3 |- *. destruct (send_ok p) eqn:Ep; simpl in *.
    + split_and!; [done..|]. intros Hs. destruct (H3 Hs) as (H4 & H5 & H6).
      split_and!; [done| |lia]. by intros q [->|Hq]%elem_of_cons; [|apply H5].
    + split_and!; [done|by auto|]. intros Hs. by destruct (H3 Hs).
Qed.

(** The revoke child stores the record in spite of the read-only flags. *)
Lemma store_revoked {T} `{TdbLaws T} lc vm (db : ctdb_db_context T) key h data h' db' :
  lc_vnn_map lc = Some vm → (flags h &? CTDB_REC_RO_REVOKE_COMPLETE) = true →
  ctdb_ltdb_store lc db key h data = (0, h', db') →
  tdb_fetch (db_ltdb db') key = header_bytes h' ++ data
  ∧ (flags h' &? CTDB_REC_RO_REVOKE_COMPLETE) = true.
Proof.
  intros Hvm Hf. unfold ctdb_ltdb_store. destruct (db_server_store db).
  - intros E. apply (store_server_inv _ vm) in E as (E1 & _ & _ & _ & Hfl & _); [|done].
    rewrite (E1 eq_refl), Hfl. split.
    + unfold store_keep. destruct (negb (dsize data =? 0)); [done|].
      by rewrite (has_flag_sup _ CTDB_REC_RO_REVOKE_COMPLETE).
    + rewrite !has_flag_ldiff_disj by done. done.
  - destruct (ltdb_store_plain db key h data) as [ret db1] eqn:E. intros [= -> <- <-].
    apply store_plain_inv in E as (E1 & _). split; [by apply E1|done].
Qed.

(** C17: when [ctdb_revoke_all_delegations] returns success, the update-record
    control was sent to every node the tracking record names, the first events
    delivered were that many successful replies, and the record on disk has the
    REVOKE_COMPLETE flag, which it had not unless it was being revoked. *)
Theorem revoke_needs_all_replies {T} `{TdbLaws T} lc vm send_ok lock_ok evs
    (db : ctdb_db_context T) tdata key header db'
    (Hvm : lc_vnn_map lc = Some vm)
    (Hne : ctdb_trackingdb_traverse tdata ≠ [])
    (E : ctdb_revoke_all_delegations lc send_ok lock_ok evs db tdata key header = Some (0, db')) :
  let pnns := ctdb_trackingdb_traverse tdata in
  (∀ p, p ∈ pnns → send_ok p = true)
  ∧ take (length pnns) evs = replicate (length pnns) (RevokeReply 0 0)
  ∧ lock_ok = true
  ∧ ∃ h d, tdb_fetch (db_ltdb db') key = header_bytes h ++ d
      ∧ (flags h &? CTDB_REC_RO_REVOKE_COMPLETE) = true.
Proof.
  revert E. unfold ctdb_revoke_all_delegations.
  set (pnns := ctdb_trackingdb_traverse tdata) in *. set (st := foldl _ _ _).
  destruct (revoke_sends send_ok pnns (mk_rs 0 0 false)) as (Hf & Hc & Hs). fold st in Hf, Hc, Hs.
  destruct (revoke_wait evs st) as [st'|] eqn:Ew; simpl; [|done].
  destruct (Z.eqb_spec (rs_status st') 0) as [Hz|Hz]; simpl; [|intros [= ?]; congruence].
  destruct lock_ok; simpl; [|done].
  destruct (ctdb_ltdb_fetch _ _ _ _) as [[[ret h1] d1] db1]. case_goal; [done|]. case_goal; [done|].
  case_goal; [done|]. destruct (ctdb_ltdb_store _ _ _ _ _) as [[ret2 h2] db2] eqn:Es.
  destruct (Z.eqb_spec ret2 0) as [->|]; simpl; [|done]. intros [= <-].
  assert (rs_status st = 0) as Hst.
  { destruct Hc as [?|Hc]; [by left|done|]. by rewrite (revoke_wait_failed _ _ _ Ew Hc) in Hz. }
  destruct (Hs Hst) as (_ & Hsent & Hcount). cbn [rs_count] in Hcount. rewrite Z.add_0_l in Hcount.
  assert (0 < rs_count st) as Hpos by (destruct pnns; [done|rewrite Hcount; simpl; lia]).
  destruct (revoke_wait_ok _ _ _ Hf Hpos Ew Hz) as [_ Htake].
  rewrite Hcount, Nat2Z.id in Htake. split_and!; [done..|]. exists h2, d1.
  eapply store_revoked in Es; [done..|]. by apply has_flag_lor_self.
Qed.

(** One node has a copy; its reply arrives and the record is marked. *)
Definition revoke_db : ctdb_db_context memtdb :=
  set_db_ltdb run_db (mk_memtdb {[run_key := header_bytes (mk_header 4 0 0 RO_REVOKE_MASK) ++ [7]]}
    false 0).
Definition revoke_run : option (Z * ctdb_db_context memtdb) :=
  ctdb_revoke_all_delegations (daemon_lc (run_ctx 0)) (λ _, true) true [RevokeReply 0 0]
    revoke_db (ctdb_trackingdb_add_pnn [] 1) run_key (mk_header 4 0 0 RO_REVOKE_MASK).
Definition revoke_db' : ctdb_db_context memtdb := default run_db (snd <$> revoke_run).

Lemma result_split {A} (o : option (Z * A)) r d :
  fst <$> o = Some r → o = Some (r, default d (snd <$> o)).
Proof. destruct o as [[]|]; [|done]. by intros [= ->]. Qed.

Lemma revoke_needs_all_replies_witness :
  ∃ h d, tdb_fetch (db_ltdb revoke_db') run_key = header_bytes h ++ d
    ∧ (flags h &? CTDB_REC_RO_REVOKE_COMPLETE) = true.
Proof.
  pose proof (revoke_needs_all_replies (daemon_lc (run_ctx 0)) run_vm (λ _, true) true
    [RevokeReply 0 0] revoke_db (ctdb_trackingdb_add_pnn [] 1) run_key
    (mk_header 4 0 0 RO_REVOKE_MASK) revoke_db' eq_refl) as Hw.
  destruct Hw as (_ & _ & _ & Hw); [vm_compute; discriminate| |exact Hw].
  apply (result_split revoke_run 0 run_db). vm_compute. reflexivity.
Defined.

(** ** Migration for vacuuming *)

(** The lmaster 0, which knows node 1 as the dmaster, asked for an empty record
    to vacuum it. *)
Definition vacuum_db : ctdb_db_context memtdb :=
  set_db_ltdb run_db (mk_memtdb {[run_key := header_bytes (mk_header 2 1 0 0)]} false 0).
Definition vacuum_call : ctdb_call :=
  mk_call CTDB_NULL_FUNC run_key [] [] 0 CTDB_CALL_FLAG_VACUUM_MIGRATION.
Definition vacuum_ctx : ctdb_context memtdb :=
  set_cx_idr
    (set_cx_db_list (run_ctx 0) [set_db_chainlocks vacuum_db [run_key]])
    {[7 := IdrCall (mk_cs CTDB_CALL_WAIT 7 transaction_call 1 EmptyString vacuum_call 5 false)]}.
Definition vacuum_done : outcome memtdb () :=
  ctdb_become_dmaster 1 (mk_hdr 0 5 0 1 7) run_key [] 3 0 vacuum_ctx.
Definition vacuum_rec (o : outcome memtdb ()) : bytes :=
  match find_db 1 (cx_db_list (out_state o)) with
  | Some db => tdb_fetch (db_ltdb db) run_key
  | None => []
  end.

(** a record migrated to its lmaster for vacuuming is not gone when
    [ctdb_become_dmaster] returns: its store does delete the record, but also
    drops the VACUUM_MIGRATED flag from the header, and the call that follows
    writes the empty record again with a higher RSN. *)
Theorem vacuum_migration_rewrites_record :
  store_keep (daemon_lc vacuum_ctx) vacuum_db run_vm run_key
    (mk_header 3 0 0 CTDB_REC_FLAG_VACUUM_MIGRATED) [] = (false, false)
  ∧ vacuum_rec vacuum_done = header_bytes (mk_header 4 0 0 0).
Proof. split; vm_compute; reflexivity. Qed.
