(* ===== verification/Takeover.v ===== *)
(** * Allocation of public IP addresses

    The calculation part of [server/ctdb_takeover.c]: which node hosts which
    public address ([ctdb_takeover_run_core] and everything it calls), the flags
    that say which nodes may host or take over addresses
    ([set_ipflags_internal]), and the comparison of addresses of
    [common/ctdb_util.c].

    The linked list [all_ips] is a list; an entry is identified by its position,
    as the code identifies it by its pointer.  [pnn] members are 32-bit unsigned
    numbers, [NOPNN] is the value the code writes as -1.  Sums of squared
    distances wrap around as they do in the code. *)
From stdpp Require Import sorting.
From S2P Require Import Prelude Protocol RbTree.

(** ** Addresses *)

(** [ctdb_sock_addr] without the port: the bytes of the address. *)
Inductive ctdb_sock_addr :=
  | AF_INET (s_addr : bytes)
  | AF_INET6 (s6_addr : bytes)
  | AF_OTHER (sa_family : Z).

#[global] Instance ctdb_sock_addr_eq_dec : EqDecision ctdb_sock_addr.
Proof. solve_decision. Defined.

(** An IPv4 address that is mapped into IPv6 is treated as the IPv4 one. *)
Definition ctdb_canonicalize_ip (ip : ctdb_sock_addr) : ctdb_sock_addr :=
  match ip with
  | AF_INET6 b =>
      if bool_decide (take 12 b = [0; 0; 0; 0; 0; 0; 0; 0; 0; 0; 255; 255])
      then AF_INET (take 4 (drop 12 b)) else ip
  | _ => ip
  end.

Definition ctdb_same_ip (tip1 tip2 : ctdb_sock_addr) : bool :=
  match ctdb_canonicalize_ip tip1, ctdb_canonicalize_ip tip2 with
  | AF_INET a, AF_INET b => bool_decide (a = b)
  | AF_INET6 a, AF_INET6 b => bool_decide (a = b)
  | _, _ => false
  end.

(** ** Data *)

(** The value of a [pnn] member that is -1. *)
Definition NOPNN : Z := 2 ^ 32 - 1.

(** [struct ctdb_public_ip], and the entries of [struct ctdb_public_ip_list]. *)
Record ctdb_public_ip := mk_ip {
  ip_pnn : Z;
  ip_addr : ctdb_sock_addr;
}.

Definition set_ip_pnn (ip : ctdb_public_ip) (pnn : Z) : ctdb_public_ip :=
  mk_ip pnn (ip_addr ip).

(** [struct ctdb_ipflags] *)
Record ctdb_ipflags := mk_ipflags {
  noiptakeover : bool;
  noiphost : bool;
}.

(** The members of [struct ctdb_node] that the allocation reads; a list is
    [None] when the pointer is NULL. *)
Record takeover_node := mk_tnode {
  tn_pnn : Z;
  tn_flags : Z;
  known_public_ips : option (list ctdb_public_ip);
  available_public_ips : option (list ctdb_public_ip);
}.

(** [enum ctdb_runstate] *)
Inductive ctdb_runstate :=
  | CTDB_RUNSTATE_UNKNOWN
  | CTDB_RUNSTATE_INIT
  | CTDB_RUNSTATE_SETUP
  | CTDB_RUNSTATE_FIRST_RECOVERY
  | CTDB_RUNSTATE_STARTUP
  | CTDB_RUNSTATE_RUNNING
  | CTDB_RUNSTATE_SHUTDOWN.

#[global] Instance ctdb_runstate_eq_dec : EqDecision ctdb_runstate.
Proof. solve_decision. Defined.

(** ** IP flags *)

(** [nodemap] is the list of the flags of the nodes. *)
Definition all_nodes_are_disabled (nodemap : list Z) : bool :=
  (length (filter (λ f, (f &? (NODE_FLAGS_INACTIVE |+ NODE_FLAGS_DISABLED)) = false) nodemap)
   =? 0)%nat.

(** The first loop, for one node. *)
Definition ipflags_of (flags : Z) (tval_noiptakeover : Z) (runstate : ctdb_runstate)
    : ctdb_ipflags :=
  let takeover := negb (tval_noiptakeover =? 0) in
  if negb (bool_decide (runstate = CTDB_RUNSTATE_RUNNING)) then mk_ipflags takeover true
  else mk_ipflags takeover (flags &? NODE_FLAGS_INACTIVE).

Definition set_ipflags_internal (nodemap : list Z) (tval_noiptakeover : list Z)
    (tval_noiphostonalldisabled : list Z) (runstate : list ctdb_runstate)
    : list ctdb_ipflags :=
  let ipflags := imap (λ i flags,
    ipflags_of flags (nth i tval_noiptakeover 0) (nth i runstate CTDB_RUNSTATE_UNKNOWN)) nodemap in
  if all_nodes_are_disabled nodemap then
    imap (λ i f, if negb (nth i tval_noiphostonalldisabled 0 =? 0)
                 then mk_ipflags (noiptakeover f) true else f) ipflags
  else
    imap (λ i f, if nth i nodemap 0 &? NODE_FLAGS_DISABLED
                 then mk_ipflags (noiptakeover f) true else f) ipflags.

(** ** The basic allocation *)

Section allocation.
Variable nodes : list takeover_node.
Variable ipflags : list ctdb_ipflags.
Implicit Types (ip : ctdb_public_ip) (all_ips ips : list ctdb_public_ip) (pnn : Z) (i j : nat).

(** [talloc_array_length(ipflags)] *)
Definition numnodes : nat := length ipflags.

Definition node_ip_coverage pnn ips : Z :=
  Z.of_nat (length (filter (λ ip, ip_pnn ip = pnn) ips)).

(** [ctdb->nodes[pnn]] beyond the end of the array is excluded by [in_bounds]
    below. *)
Definition can_node_host_ip pnn (flags : ctdb_ipflags) ip : bool :=
  if noiphost flags then false
  else match nodes !! Z.to_nat pnn with
  | None => false
  | Some node =>
      match available_public_ips node with
      | None => false
      | Some public_ips => existsb (λ p, ctdb_same_ip (ip_addr ip) (ip_addr p)) public_ips
      end
  end.

Definition can_node_takeover_ip pnn (flags : ctdb_ipflags) ip : bool :=
  if noiptakeover flags then false else can_node_host_ip pnn flags ip.

(** [ipflags[pnn]]: the default stands for a read past the end, which
    [in_bounds] excludes below. *)
Definition flags_at pnn : ctdb_ipflags :=
  default (mk_ipflags true true) (ipflags !! Z.to_nat pnn).

Definition can_host pnn ip : bool := can_node_host_ip pnn (flags_at pnn) ip.
Definition can_takeover pnn ip : bool := can_node_takeover_ip pnn (flags_at pnn) ip.

(** The node numbers the loops run over. *)
Definition node_ids : list Z := Z.of_nat <$> seq 0 numnodes.

(** The loop of [find_takeover_node]: (pnn, min). *)
Definition takeover_step ip all_ips (best : Z * Z) (i : Z) : Z * Z :=
  let '(pnn, min) := best in
  if negb (can_takeover i ip) then best
  else
    let num := node_ip_coverage i all_ips in
    if pnn =? -1 then (i, num)
    else if num <? min then (i, num) else best.

(** (return value, the entry). *)
Definition find_takeover_node ip all_ips : Z * ctdb_public_ip :=
  let '(pnn, _) := fold_left (takeover_step ip all_ips) node_ids (-1, 0) in
  if pnn =? -1 then (-1, ip) else (0, set_ip_pnn ip pnn).

(** The entry at position [j] is given to [find_takeover_node]. *)
Definition takeover_entry all_ips j : list ctdb_public_ip :=
  match all_ips !! j with
  | None => all_ips
  | Some ip => <[j := (find_takeover_node ip all_ips).2]> all_ips
  end.

Definition basic_allocate_unassigned all_ips : list ctdb_public_ip :=
  fold_left (λ all_ips j,
    match all_ips !! j with
    | Some ip => if ip_pnn ip =? NOPNN then takeover_entry all_ips j else all_ips
    | None => all_ips
    end) (seq 0 (length all_ips)) all_ips.

(** The inner loop of [basic_failback]: (maxnode, maxnum, minnode, minnum). *)
Definition spread_step ip all_ips (acc : Z * Z * Z * Z) (i : Z) : Z * Z * Z * Z :=
  let '(maxnode, maxnum, minnode, minnum) := acc in
  if negb (can_takeover i ip) then acc
  else
    let num := node_ip_coverage i all_ips in
    let '(maxnode, maxnum) :=
      if maxnode =? -1 then (i, num)
      else if maxnum <? num then (i, num) else (maxnode, maxnum) in
    let '(minnode, minnum) :=
      if minnode =? -1 then (i, num)
      else if num <? minnum then (i, num) else (minnode, minnum) in
    (maxnode, maxnum, minnode, minnum).

Definition spread ip all_ips : Z * Z * Z * Z :=
  fold_left (spread_step ip all_ips) node_ids (-1, 0, -1, 0).

(** The node to take an address from on behalf of [ip], if the coverage is out
    of balance. *)
Definition overloaded ip all_ips : option Z :=
  if ip_pnn ip =? NOPNN then None
  else
    let '(maxnode, maxnum, minnode, minnum) := spread ip all_ips in
    if maxnode =? -1 then None
    else if minnum + 1 <? maxnum then Some maxnode else None.

(** The position of the first entry on a node. *)
Definition first_on all_ips pnn : option nat :=
  fst <$> list_find (λ ip, ip_pnn ip = pnn) all_ips.

(** The loop over the addresses up to [goto try_again]: the address to move. *)
Fixpoint failback_move all_ips ips : option nat :=
  match ips with
  | [] => None
  | ip :: ips =>
      match overloaded ip all_ips ≫= first_on all_ips with
      | Some j => Some j
      | None => failback_move all_ips ips
      end
  end.

(** [fuel] bounds the number of [try_again]; at most [num_ips + 5] happen. *)
Fixpoint failback_loop (fuel : nat) (num_ips retries : Z) all_ips : option (list ctdb_public_ip) :=
  let move := if retries <? num_ips + 5 then failback_move all_ips all_ips else None in
  match move with
  | None => Some all_ips
  | Some j =>
      match fuel with
      | O => None
      | S fuel => failback_loop fuel num_ips (retries + 1) (takeover_entry all_ips j)
      end
  end.

Definition basic_failback all_ips (num_ips : Z) : option (list ctdb_public_ip) :=
  failback_loop (Z.to_nat (num_ips + 5)) num_ips 0 all_ips.

Definition unassign_unsuitable_ips all_ips : list ctdb_public_ip :=
  (λ ip, if ip_pnn ip =? NOPNN then ip
         else if negb (can_host (ip_pnn ip) ip) then set_ip_pnn ip NOPNN else ip) <$> all_ips.

Definition ip_alloc_deterministic_ips all_ips : list ctdb_public_ip :=
  let all_ips := imap (λ i ip, set_ip_pnn ip (Z.of_nat (i mod numnodes))) all_ips in
  basic_allocate_unassigned (unassign_unsuitable_ips all_ips).

Definition ip_alloc_nondeterministic_ips (no_ip_failback : Z) all_ips
    : option (list ctdb_public_ip) :=
  let num_ips := Z.of_nat (length all_ips) in
  let all_ips := basic_allocate_unassigned (unassign_unsuitable_ips all_ips) in
  if no_ip_failback =? 1 then Some all_ips
  else basic_failback all_ips num_ips.

(** ** The LCP2 allocation *)

(** *** Distances *)

(** Four bytes in network order as a number ([htonl] of the word they are). *)
Definition be_word (b : bytes) : Z :=
  nth 0 b 0 * 2 ^ 24 + nth 1 b 0 * 2 ^ 16 + nth 2 b 0 * 2 ^ 8 + nth 3 b 0.

Definition IP_KEYLEN : nat := 4.

Definition ip_key (ip : ctdb_sock_addr) : list Z :=
  match ip with
  | AF_INET b => [0; 0; 0; be_word b]
  | AF_INET6 b =>
      [be_word b; be_word (drop 4 b); be_word (drop 8 b); be_word (drop 12 b)]
  | AF_OTHER _ => [0; 0; 0; 0]
  end.

(** [while ((x & (1 << 31)) == 0) { x <<= 1; distance += 1; }]; 31 iterations
    bring the highest bit of a non-zero word to the top. *)
Fixpoint leading_zeros (fuel : nat) (x distance : Z) : Z :=
  if Z.testbit x 31 then distance
  else match fuel with
  | O => distance
  | S fuel => leading_zeros fuel (u32 (Z.shiftl x 1)) (u32 (distance + 1))
  end.

Definition distance_step (distance : Z) (w : Z * Z) : Z :=
  let x := Z.lxor w.1 w.2 in
  if x =? 0 then u32 (distance + 32) else leading_zeros 31 x distance.

Definition ip_distance (ip1 ip2 : ctdb_sock_addr) : Z :=
  fold_left distance_step (zip (ip_key ip1) (ip_key ip2)) 0.

(** [self] is the position of the entry whose address [addr] is, when it is in
    the list. *)
Definition ip_distance_2_sum (addr : ctdb_sock_addr) (self : option nat) ips pnn : Z :=
  fold_left (λ sum '(i, t),
    if negb (ip_pnn t =? pnn) then sum
    else if bool_decide (self = Some i) then sum
    else let d := ip_distance addr (ip_addr t) in u32 (sum + u32 (d * d)))
    (imap pair ips) 0.

Fixpoint imbalance_from (imbalance : Z) all_ips pnn : Z :=
  match all_ips with
  | [] => imbalance
  | t :: ips =>
      if negb (ip_pnn t =? pnn) then imbalance_from imbalance ips pnn
      else imbalance_from (u32 (imbalance + ip_distance_2_sum (ip_addr t) None ips pnn)) ips pnn
  end.
Definition lcp2_imbalance all_ips pnn : Z := imbalance_from 0 all_ips pnn.

(** *** State: the imbalances and the rebalance candidates of the nodes *)

Definition lcp2_init all_ips (force_rebalance_nodes : option (list Z)) : list Z * list bool :=
  let lcp2_imbalances := lcp2_imbalance all_ips <$> node_ids in
  let candidates := replicate numnodes true in
  let candidates := fold_left (λ c ip,
    if negb (ip_pnn ip =? NOPNN) then <[Z.to_nat (ip_pnn ip) := false]> c else c)
    all_ips candidates in
  let candidates := fold_left (λ c pnn,
    if Z.of_nat numnodes <=? pnn then c else <[Z.to_nat pnn := true]> c)
    (default [] force_rebalance_nodes) candidates in
  (lcp2_imbalances, candidates).

Definition imbalance_at (lcp2_imbalances : list Z) pnn : Z :=
  nth (Z.to_nat pnn) lcp2_imbalances 0.

(** *** Unassigned addresses *)

(** The best move so far: (minnode, minimbl, mindsum, position of minip). *)
Definition alloc_step all_ips (imbl : list Z) j ip (best : option (Z * Z * Z * nat)) (dstnode : Z)
    : option (Z * Z * Z * nat) :=
  if negb (can_takeover dstnode ip) then best
  else
    let dstdsum := ip_distance_2_sum (ip_addr ip) (Some j) all_ips dstnode in
    let dstimbl := u32 (imbalance_at imbl dstnode + dstdsum) in
    match best with
    | None => Some (dstnode, dstimbl, dstdsum, j)
    | Some (_, _, mindsum, _) =>
        if dstdsum <? mindsum then Some (dstnode, dstimbl, dstdsum, j) else best
    end.

Definition alloc_best all_ips (imbl : list Z) : option (Z * Z * Z * nat) :=
  fold_left (λ best '(j, ip),
    if negb (ip_pnn ip =? NOPNN) then best
    else fold_left (alloc_step all_ips imbl j ip) node_ids best)
    (imap pair all_ips) None.

Definition have_unassigned all_ips : bool := existsb (λ ip, ip_pnn ip =? NOPNN) all_ips.

(** Give the entry at position [j] to a node. *)
Definition assign all_ips j pnn : list ctdb_public_ip := alter (λ ip, set_ip_pnn ip pnn) j all_ips.

(** One round per address that is assigned, and a last one. *)
Fixpoint alloc_loop (fuel : nat) all_ips (imbl : list Z) : option (list ctdb_public_ip * list Z) :=
  match alloc_best all_ips imbl with
  | None => Some (all_ips, imbl)
  | Some (minnode, minimbl, _, j) =>
      let all_ips := assign all_ips j minnode in
      let imbl := <[Z.to_nat minnode := minimbl]> imbl in
      if have_unassigned all_ips then
        match fuel with
        | O => None
        | S fuel => alloc_loop fuel all_ips imbl
        end
      else Some (all_ips, imbl)
  end.

Definition lcp2_allocate_unassigned all_ips (imbl : list Z) : option (list ctdb_public_ip * list Z) :=
  alloc_loop (length all_ips) all_ips imbl.

(** *** Rebalancing *)

(** The loops of [lcp2_failback_candidate]: the value of [srcimbl] left by the
    last address considered, and the best move (position of minip, minsrcimbl,
    mindstnode, mindstimbl). *)
Definition candidate_step all_ips (imbl : list Z) (candidates : list bool) (candimbl : Z)
    j ip (srcdsum srcimbl : Z) (best : option (nat * Z * Z * Z)) (dstnode : Z)
    : option (nat * Z * Z * Z) :=
  if negb (nth (Z.to_nat dstnode) candidates false) then best
  else if negb (can_takeover dstnode ip) then best
  else
    let dstdsum := ip_distance_2_sum (ip_addr ip) (Some j) all_ips dstnode in
    let dstimbl := u32 (imbalance_at imbl dstnode + dstdsum) in
    if (dstimbl <? candimbl) && (dstdsum <? srcdsum)
       && match best with
          | None => true
          | Some (_, minsrcimbl, _, mindstimbl) =>
              u32 (srcimbl + dstimbl) <? u32 (minsrcimbl + mindstimbl)
          end
    then Some (j, srcimbl, dstnode, dstimbl) else best.

Definition candidate_search all_ips (imbl : list Z) (candidates : list bool)
    (srcnode candimbl : Z) : Z * option (nat * Z * Z * Z) :=
  fold_left (λ '(srcimbl, best) '(j, ip),
    if negb (ip_pnn ip =? srcnode) then (srcimbl, best)
    else
      let srcdsum := ip_distance_2_sum (ip_addr ip) (Some j) all_ips srcnode in
      let srcimbl := u32 (candimbl - srcdsum) in
      (srcimbl, fold_left (candidate_step all_ips imbl candidates candimbl j ip srcdsum srcimbl)
                  node_ids best))
    (imap pair all_ips) (0, None).

(** [None] when no move makes things better. *)
Definition lcp2_failback_candidate all_ips (srcnode candimbl : Z) (imbl : list Z)
    (candidates : list bool) : option (list ctdb_public_ip * list Z) :=
  match candidate_search all_ips imbl candidates srcnode candimbl with
  | (_, None) => None
  | (srcimbl, Some (j, _, mindstnode, mindstimbl)) =>
      let imbl := <[Z.to_nat srcnode := srcimbl]> imbl in
      let imbl := <[Z.to_nat mindstnode := mindstimbl]> imbl in
      Some (assign all_ips j mindstnode, imbl)
  end.

(** [lcp2_cmp_imbalance_pnn] on (imbalance, pnn): negative when the first has
    the greater imbalance. *)
Definition lcp2_cmp_imbalance_pnn (lipa lipb : Z * Z) : Z :=
  if lipb.1 <? lipa.1 then -1 else if lipa.1 =? lipb.1 then 0 else 1.

(** The C library's [qsort] on such pairs; the order of equal ones is its own. *)
Variable qsort : list (Z * Z) → list (Z * Z).

(** The loop over the sorted nodes: the first move found. *)
Fixpoint failback_sources all_ips (imbl : list Z) (candidates : list bool) (lips : list (Z * Z))
    : option (list ctdb_public_ip * list Z) :=
  match lips with
  | [] => None
  | (imbalance, pnn) :: lips =>
      if imbalance =? 0 then None
      else match lcp2_failback_candidate all_ips pnn imbalance imbl candidates with
      | Some r => Some r
      | None => failback_sources all_ips imbl candidates lips
      end
  end.

(** [fuel] bounds the number of [try_again]. *)
Fixpoint lcp2_failback (fuel : nat) all_ips (imbl : list Z) (candidates : list bool)
    : option (list ctdb_public_ip * list Z) :=
  if negb (existsb id candidates) then Some (all_ips, imbl)
  else
    let lips := qsort ((λ pnn, (imbalance_at imbl pnn, pnn)) <$> node_ids) in
    match failback_sources all_ips imbl candidates lips with
    | None => Some (all_ips, imbl)
    | Some (all_ips, imbl) =>
        match fuel with
        | O => None
        | S fuel => lcp2_failback fuel all_ips imbl candidates
        end
    end.

Definition ip_alloc_lcp2 (fuel : nat) (no_ip_failback : Z) (force_rebalance_nodes : option (list Z))
    all_ips : option (list ctdb_public_ip) :=
  let all_ips := unassign_unsuitable_ips all_ips in
  let '(imbl, candidates) := lcp2_init all_ips force_rebalance_nodes in
  '(all_ips, imbl) ← lcp2_allocate_unassigned all_ips imbl;
  if no_ip_failback =? 1 then Some all_ips
  else fst <$> lcp2_failback fuel all_ips imbl candidates.

(** ** The run *)

(** *** Merging the lists of the nodes *)

Definition add_ip_callback (this_ip : ctdb_public_ip) (prev_ip : option ctdb_public_ip)
    : option ctdb_public_ip :=
  match prev_ip with
  | None => Some this_ip
  | Some prev_ip =>
      Some (if ip_pnn this_ip =? NOPNN then set_ip_pnn this_ip (ip_pnn prev_ip) else this_ip)
  end.

(** Prepends to the list. *)
Definition getips_count_callback (ip_list : list ctdb_public_ip) (new_ip : ctdb_public_ip)
    : list ctdb_public_ip * Z :=
  (new_ip :: ip_list, 0).

(** The entry of an address a node knows: only the node itself is believed when
    it says that it hosts the address. *)
Definition merged_entry (node : takeover_node) ip : ctdb_public_ip :=
  mk_ip (if ip_pnn ip =? tn_pnn node then ip_pnn ip else NOPNN) (ip_addr ip).

Definition merge_insert (tree : option (trbt_array IP_KEYLEN ctdb_public_ip)) ip
    : option (trbt_array IP_KEYLEN ctdb_public_ip) :=
  tree ← tree;
  trbt_insertarray32_callback (IP_KEYLEN - 1) tree (ip_key (ip_addr ip)) (add_ip_callback ip).

(** The entries in the order in which they are inserted. *)
Definition merge_entries : list ctdb_public_ip :=
  node ← nodes;
  if tn_flags node &? NODE_FLAGS_DELETED then []
  else merged_entry node <$> default [] (known_public_ips node).

Definition create_merged_ip_list : option (list ctdb_public_ip) :=
  tree ← fold_left merge_insert merge_entries (Some (NULL : trbt_array IP_KEYLEN ctdb_public_ip));
  Some (trbt_traversearray32 IP_KEYLEN getips_count_callback [] tree).1.

(** The tunables the calculation reads. *)
Record takeover_tunables := mk_tunables {
  lcp2_public_ip_assignment : Z;
  deterministic_public_ips : Z;
  no_ip_failback : Z;
}.

(** The loops and [unassign_unsuitable_ips] read [ipflags] and [ctdb->nodes] at
    the numbers of the nodes and at those of the entries [ips]: whether these are
    within the arrays. *)
Definition in_bounds ips : bool :=
  Nat.leb numnodes (length nodes)
  && forallb (λ ip, (ip_pnn ip =? NOPNN) || (0 <=? ip_pnn ip) && (ip_pnn ip <? Z.of_nat numnodes)) ips.

(** [None]: out of fuel, or a read past the end of an array.  (The deterministic
    allocation overwrites the numbers of the entries before they are used.) *)
Definition ctdb_takeover_run_core (fuel : nat) (tunable : takeover_tunables)
    (force_rebalance_nodes : option (list Z)) : option (list ctdb_public_ip) :=
  all_ips ← create_merged_ip_list;
  if lcp2_public_ip_assignment tunable =? 1 then
    if negb (in_bounds all_ips) then None
    else ip_alloc_lcp2 fuel (no_ip_failback tunable) force_rebalance_nodes all_ips
  else if deterministic_public_ips tunable =? 1 then
    if negb (in_bounds []) then None else Some (ip_alloc_deterministic_ips all_ips)
  else
    if negb (in_bounds all_ips) then None
    else ip_alloc_nondeterministic_ips (no_ip_failback tunable) all_ips.

End allocation.
