(* ===== verification/TakeoverProps.v ===== *)
(** * Properties of the IP allocation

    Every address ends up on a node that may host it, or on no node when none
    may take it over; the allocation terminates; what the LCP2 bookkeeping says
    about the imbalance of the nodes. *)
From stdpp Require Import sorting.
From S2P Require Import Prelude Protocol RbTree Takeover.

Section allocation.
Variable nodes : list takeover_node.
Variable ipflags : list ctdb_ipflags.
Implicit Types (ip : ctdb_public_ip) (l all_ips ips : list ctdb_public_ip) (pnn : Z) (j : nat).

Local Abbreviation can_host := (can_host nodes ipflags).
Local Abbreviation can_takeover := (can_takeover nodes ipflags).
Local Abbreviation node_ids := (node_ids ipflags).
Local Abbreviation numnodes := (numnodes ipflags).

(** There are fewer nodes than node numbers. *)
Hypothesis numnodes_max : Z.of_nat numnodes < NOPNN.

(** ** Moves *)

Definition unassigned ip : Prop := ip_pnn ip = NOPNN.

(** No node can take the address over. *)
Definition hopeless ip : Prop := ∀ pnn, pnn ∈ node_ids → can_takeover pnn ip = false.

Definition hosted ip : Prop :=
  unassigned ip ∨ ip_pnn ip ∈ node_ids ∧ can_host (ip_pnn ip) ip = true.

Lemma elem_node_ids pnn : pnn ∈ node_ids ↔ 0 <= pnn < Z.of_nat numnodes.
Proof.
  unfold Takeover.node_ids. rewrite list_elem_of_fmap. split.
  - intros (n & -> & Hn%elem_of_seq). lia.
  - intros Hp. exists (Z.to_nat pnn). rewrite elem_of_seq. lia.
Qed.

Lemma takeover_host pnn ip : can_takeover pnn ip = true → can_host pnn ip = true.
Proof.
  unfold Takeover.can_takeover, can_node_takeover_ip, Takeover.can_host. by destruct (noiptakeover _).
Qed.

(** A node that can host an address has flags. *)
Lemma host_node pnn ip : 0 <= pnn → can_host pnn ip = true → pnn ∈ node_ids.
Proof.
  intros Hp. rewrite elem_node_ids. unfold Takeover.can_host, can_node_host_ip, flags_at.
  destruct (ipflags !! Z.to_nat pnn) eqn:E; [|done]. apply lookup_lt_Some in E.
  unfold Takeover.numnodes. lia.
Qed.

(** The list changes by giving addresses that satisfy [P] to nodes that can take
    them over. *)
Inductive moves (P : ctdb_public_ip → Prop) : list ctdb_public_ip → list ctdb_public_ip → Prop :=
  | moves_refl l : moves P l l
  | moves_step l j ip pnn l' :
      l !! j = Some ip → P ip → pnn ∈ node_ids → can_takeover pnn ip = true →
      moves P (<[j := set_ip_pnn ip pnn]> l) l' → moves P l l'.

Lemma moves_trans P l1 l2 l3 : moves P l1 l2 → moves P l2 l3 → moves P l1 l3.
Proof. induction 1; [done|]. intros. econstructor; eauto. Qed.

Lemma moves_weaken (P Q : ctdb_public_ip → Prop) l l' :
  (∀ ip, P ip → Q ip) → moves P l l' → moves Q l l'.
Proof. intros HPQ. induction 1; [constructor|]. econstructor; eauto. Qed.

Lemma moves_addr P l l' : moves P l l' → ip_addr <$> l' = ip_addr <$> l.
Proof.
  induction 1 as [|l j ip pnn l' Hj _ _ _ _ IH]; [done|]. rewrite IH, list_fmap_insert. simpl.
  apply list_insert_id. by rewrite list_lookup_fmap, Hj.
Qed.

Lemma moves_hosted P l l' : moves P l l' → Forall hosted l → Forall hosted l'.
Proof.
  induction 1 as [|l j ip pnn l' Hj _ Hn Ht _ IH]; [done|]. intros Hl. apply IH.
  apply Forall_insert; [done|]. right. split; [done|]. by apply takeover_host.
Qed.

(** An address that is moved is assigned. *)
Lemma moves_unassigned P l l' j ip :
  moves P l l' → l' !! j = Some ip → unassigned ip → l !! j = Some ip.
Proof.
  induction 1 as [|l j' ip' pnn l' Hj _ Hn _ _ IH]; [done|]. intros Hl' Hu.
  specialize (IH Hl' Hu). destruct (decide (j = j')) as [->|Hne].
  - rewrite list_lookup_insert_eq in IH by (by eapply lookup_lt_Some). injection IH as <-.
    exfalso. apply elem_node_ids in Hn. unfold unassigned in Hu. simpl in Hu. lia.
  - by rewrite list_lookup_insert_ne in IH.
Qed.

Lemma moves_hopeless P l l' :
  moves P l l' → (∀ ip, ip ∈ l → unassigned ip → hopeless ip) →
  ∀ ip, ip ∈ l' → unassigned ip → hopeless ip.
Proof.
  intros Hm Hl ip (j & Hj)%list_elem_of_lookup Hu.
  apply Hl; [|done]. apply list_elem_of_lookup. exists j. by eapply moves_unassigned.
Qed.

(** When only unassigned addresses move, the others stay where they are. *)
Lemma moves_keep l l' j ip :
  moves unassigned l l' → l !! j = Some ip → ¬ unassigned ip → l' !! j = Some ip.
Proof.
  induction 1 as [|l j' ip' pnn l' Hj Hu Hn _ _ IH]; [done|]. intros Hl Hna. apply IH; [|done].
  rewrite list_lookup_insert_ne; [done|]. intros ->. congruence.
Qed.

(** ** [find_takeover_node] *)

(** The search over the nodes [l]: the best so far. *)
Definition best_node ip all_ips (l : list Z) (r : Z * Z) : Prop :=
  (r.1 = -1 ∧ ∀ i, i ∈ l → can_takeover i ip = false)
  ∨ (r.1 ∈ l ∧ 0 <= r.1 ∧ can_takeover r.1 ip = true ∧ r.2 = node_ip_coverage r.1 all_ips
     ∧ ∀ i, i ∈ l → can_takeover i ip = true → r.2 <= node_ip_coverage i all_ips).

Lemma takeover_step_best ip all_ips (l : list Z) r (i : Z) :
  0 <= i → best_node ip all_ips l r →
  best_node ip all_ips (l ++ [i]) (takeover_step nodes ipflags ip all_ips r i).
Proof.
  destruct r as [pnn min]. intros Hi Hr. unfold takeover_step.
  destruct (can_takeover i ip) eqn:Ec; simpl.
  - destruct Hr as [[Hp Hno]|(Hin & Hp & Hc & Hm & Hmin)]; simpl in *.
    + subst pnn. simpl. right. simpl. split_and!; [set_solver|done..|].
      intros i' [?| ->%list_elem_of_singleton]%elem_of_app Hc; [|done]. by rewrite Hno in Hc.
    + rewrite (proj2 (Z.eqb_neq pnn (-1))) by lia.
      destruct (Z.ltb_spec (node_ip_coverage i all_ips) min) as [Hlt|Hge].
      * right. simpl. split_and!; [set_solver|done..|].
        intros i' [Hi'| ->%list_elem_of_singleton]%elem_of_app Hc'; [|done].
        specialize (Hmin i' Hi' Hc'). lia.
      * right. simpl. split_and!; [set_solver|done..|].
        intros i' [Hi'| ->%list_elem_of_singleton]%elem_of_app Hc'; [by apply Hmin|lia].
  - destruct Hr as [[Hp Hno]|(Hin & Hp & Hc & Hm & Hmin)]; simpl in *.
    + left. split; [done|]. intros i' [?| ->%list_elem_of_singleton]%elem_of_app; auto.
    + right. simpl. split_and!; [set_solver|done..|].
      intros i' [Hi'| ->%list_elem_of_singleton]%elem_of_app Hc'; [by apply Hmin|congruence].
Qed.

Lemma takeover_fold_best ip all_ips (l2 l1 : list Z) r :
  (∀ i, i ∈ l2 → 0 <= i) → best_node ip all_ips l1 r →
  best_node ip all_ips (l1 ++ l2) (fold_left (takeover_step nodes ipflags ip all_ips) l2 r).
Proof.
  revert l1 r. induction l2 as [|i l2 IH]; intros l1 r Hpos Hr; simpl; [by rewrite app_nil_r|].
  rewrite cons_middle, app_assoc. apply IH; [set_solver|].
  apply takeover_step_best; [|done]. set_solver.
Qed.

(** It finds a node that can take the address over and serves the least number
    of addresses among those, if there is one. *)
Lemma find_takeover_node_spec ip all_ips ret ip' :
  find_takeover_node nodes ipflags ip all_ips = (ret, ip') →
  (ret = -1 ∧ ip' = ip ∧ hopeless ip)
  ∨ (ret = 0 ∧ ∃ pnn, ip' = set_ip_pnn ip pnn ∧ pnn ∈ node_ids ∧ can_takeover pnn ip = true
     ∧ ∀ i, i ∈ node_ids → can_takeover i ip = true →
         node_ip_coverage pnn all_ips <= node_ip_coverage i all_ips).
Proof.
  unfold find_takeover_node. pose proof (takeover_fold_best ip all_ips node_ids [] (-1, 0)) as Hb.
  destruct (fold_left _ _ _) as [pnn min].
  destruct Hb as [[Hp Hno]|(Hin & Hp & Hc & Hm & Hmin)]; simpl in *.
  - intros i. rewrite elem_node_ids. lia.
  - left. split; [done|]. set_solver.
  - subst pnn. intros [= <- <-]. by left.
  - rewrite (proj2 (Z.eqb_neq pnn (-1))) by lia. intros [= <- <-]. right. split; [done|].
    exists pnn. rewrite <- Hm. by split_and!.
Qed.

(** Giving an entry to [find_takeover_node] is a move or changes nothing. *)
Lemma takeover_entry_moves (P : ctdb_public_ip → Prop) l j ip :
  l !! j = Some ip → P ip → moves P l (takeover_entry nodes ipflags l j).
Proof.
  intros Hj HP. unfold takeover_entry. rewrite Hj.
  destruct (find_takeover_node nodes ipflags ip l) as [ret ip'] eqn:E. simpl.
  apply find_takeover_node_spec in E as [(_ & -> & _)|(_ & pnn & -> & Hn & Ht & _)].
  - rewrite list_insert_id by done. constructor.
  - econstructor; [done..|constructor].
Qed.

Lemma takeover_entry_hopeless l j ip :
  l !! j = Some ip → ∃ ip', takeover_entry nodes ipflags l j !! j = Some ip'
  ∧ (unassigned ip' → hopeless ip').
Proof.
  intros Hj. unfold takeover_entry. rewrite Hj.
  destruct (find_takeover_node nodes ipflags ip l) as [ret ip'] eqn:E. simpl. exists ip'.
  rewrite list_lookup_insert_eq by (by eapply lookup_lt_Some). split; [done|].
  apply find_takeover_node_spec in E as [(_ & -> & Hh)|(_ & pnn & -> & Hn & Ht & _)]; [done|].
  apply elem_node_ids in Hn. unfold unassigned. simpl. lia.
Qed.

(** ** The basic algorithms *)

Lemma unassign_spec l :
  Forall (λ ip, 0 <= ip_pnn ip) l →
  let l' := unassign_unsuitable_ips nodes ipflags l in
  Forall hosted l' ∧ ip_addr <$> l' = ip_addr <$> l
  ∧ ∀ j ip, l !! j = Some ip → can_host (ip_pnn ip) ip = true → l' !! j = Some ip.
Proof.
  intros Hpos. unfold unassign_unsuitable_ips. split_and!.
  - apply Forall_fmap. eapply Forall_impl; [exact Hpos|]. intros ip Hip. simpl.
    destruct (Z.eqb_spec (ip_pnn ip) NOPNN) as [E|E]; [by left|].
    destruct (can_host (ip_pnn ip) ip) eqn:Ec; simpl; [|by left].
    right. split; [by apply (host_node _ ip)|done].
  - rewrite <- list_fmap_compose. apply list_fmap_ext. intros j ip _. simpl.
    by repeat case_goal.
  - intros j ip Hj Hc. rewrite list_lookup_fmap, Hj. simpl. rewrite Hc. by destruct (_ =? _).
Qed.

(** One round of [basic_allocate_unassigned]. *)
Lemma allocate_spec k n l :
  (k + n)%nat = length l →
  (∀ j ip, (j < k)%nat → l !! j = Some ip → unassigned ip → hopeless ip) →
  let l' := fold_left (λ all_ips j,
    match all_ips !! j with
    | Some ip => if ip_pnn ip =? NOPNN then takeover_entry nodes ipflags all_ips j else all_ips
    | None => all_ips
    end) (seq k n) l in
  moves unassigned l l' ∧ ∀ ip, ip ∈ l' → unassigned ip → hopeless ip.
Proof.
  revert k l. induction n as [|n IH]; intros k l Hlen Hdone; simpl.
  - split; [constructor|]. intros ip (j & Hj)%list_elem_of_lookup. apply (Hdone j); [|done].
    apply lookup_lt_Some in Hj. lia.
  - destruct (lookup_lt_is_Some_2 l k) as [ip Hk]; [lia|]. rewrite Hk.
    set (l1 := if ip_pnn ip =? NOPNN then _ else l).
    assert (moves unassigned l l1 ∧ ∃ ip', l1 !! k = Some ip' ∧ (unassigned ip' → hopeless ip'))
      as [Hm (ip' & Hk' & Hh)].
    { subst l1. destruct (Z.eqb_spec (ip_pnn ip) NOPNN) as [E|E].
      - split; [by apply (takeover_entry_moves _ _ _ ip)|by apply (takeover_entry_hopeless _ _ ip)].
      - split; [constructor|by exists ip]. }
    pose proof (moves_addr _ _ _ Hm) as Ha. apply (f_equal length) in Ha. rewrite !length_fmap in Ha.
    destruct (IH (S k) l1) as [Hm' Hh']; [lia| |].
    + intros j ip1 Hj Hl1 Hu. destruct (decide (j = k)) as [->|Hne].
      { rewrite Hk' in Hl1. injection Hl1 as <-. by apply Hh. }
      apply (Hdone j); [lia| |done]. by eapply moves_unassigned.
    + split; [by eapply moves_trans|done].
Qed.

Lemma basic_allocate_spec l :
  let l' := basic_allocate_unassigned nodes ipflags l in
  moves unassigned l l' ∧ ∀ ip, ip ∈ l' → unassigned ip → hopeless ip.
Proof. apply (allocate_spec 0); [done|]. lia. Qed.

Lemma failback_move_lookup all_ips ips j :
  failback_move nodes ipflags all_ips ips = Some j → ∃ ip, all_ips !! j = Some ip.
Proof.
  induction ips as [|ip ips IH]; simpl; [done|].
  destruct (overloaded nodes ipflags ip all_ips) as [pnn|]; simpl; [|done].
  unfold first_on. destruct (list_find _ all_ips) as [[i ip']|] eqn:E; simpl; [|done].
  intros [= <-]. apply list_find_Some in E as (Hi & _). by eexists.
Qed.

(** The retries are bounded: the loop ends. *)
Lemma failback_loop_spec fuel num_ips : ∀ retries l,
  num_ips + 5 <= retries + Z.of_nat fuel →
  ∃ l', failback_loop nodes ipflags fuel num_ips retries l = Some l' ∧ moves (λ _, True) l l'.
Proof.
  induction fuel as [|fuel IH]; intros retries l Hf; simpl.
  - rewrite (proj2 (Z.ltb_ge retries (num_ips + 5))) by lia.
    exists l. split; [done|constructor].
  - destruct (if retries <? num_ips + 5 then _ else _) as [j|] eqn:Em;
      [|exists l; split; [done|constructor]].
    destruct (retries <? num_ips + 5); [|done].
    destruct (failback_move_lookup _ _ _ Em) as [ip Hj].
    destruct (IH (retries + 1) (takeover_entry nodes ipflags l j)) as (l' & E & Hm); [lia|].
    exists l'. split; [done|]. eapply moves_trans; [|done]. by apply (takeover_entry_moves _ _ _ ip).
Qed.

(** With fewer retries than allowed the loop ends because nothing is left to
    move. *)
Lemma failback_loop_done fuel num_ips : ∀ retries l l',
  retries + Z.of_nat fuel < num_ips + 5 →
  failback_loop nodes ipflags fuel num_ips retries l = Some l' →
  failback_move nodes ipflags l' l' = None
  ∧ ∀ n, failback_loop nodes ipflags (fuel + n) num_ips retries l = Some l'.
Proof.
  induction fuel as [|fuel IH]; intros retries l l' Hf; simpl;
    rewrite (proj2 (Z.ltb_lt retries (num_ips + 5))) by lia;
    destruct (failback_move nodes ipflags l l) as [j|] eqn:Em; try done.
  - intros [= <-]. split; [done|]. intros n. destruct n; simpl;
      rewrite (proj2 (Z.ltb_lt retries (num_ips + 5))), Em by lia; done.
  - intros E. apply IH; [lia|done].
  - by intros [= <-].
Qed.

(** *** Balance *)

(** What the loop over the nodes [l] knows. *)
Definition spread_ok ip all_ips (l : list Z) (r : Z * Z * Z * Z) : Prop :=
  let '(maxnode, maxnum, minnode, minnum) := r in
  ((maxnode = -1 ∧ minnode = -1 ∧ ∀ i, i ∈ l → can_takeover i ip = false)
   ∨ 0 <= maxnode ∧ 0 <= minnode ∧ 0 <= minnum ∧ maxnum = node_ip_coverage maxnode all_ips)
  ∧ ∀ i, i ∈ l → can_takeover i ip = true →
      minnum <= node_ip_coverage i all_ips <= maxnum.

Lemma coverage_nonneg pnn all_ips : 0 <= node_ip_coverage pnn all_ips.
Proof. unfold node_ip_coverage. lia. Qed.

Lemma spread_step_ok ip all_ips (l : list Z) r (i : Z) :
  0 <= i → spread_ok ip all_ips l r →
  spread_ok ip all_ips (l ++ [i]) (spread_step nodes ipflags ip all_ips r i).
Proof.
  destruct r as [[[maxnode maxnum] minnode] minnum]. intros Hi [Hr Hb]. unfold spread_step.
  pose proof (coverage_nonneg i all_ips) as Hc0.
  destruct (can_takeover i ip) eqn:Ec; simpl.
  - destruct Hr as [(-> & -> & Hno)|(Hmax & Hmin & Hm0 & Hm)].
    + simpl. split; [right; lia|].
      intros i' [Hi'| ->%list_elem_of_singleton]%elem_of_app Hc; [|lia]. by rewrite Hno in Hc.
    + rewrite (proj2 (Z.eqb_neq maxnode (-1))), (proj2 (Z.eqb_neq minnode (-1))) by lia.
      destruct (Z.ltb_spec maxnum (node_ip_coverage i all_ips)),
        (Z.ltb_spec (node_ip_coverage i all_ips) minnum);
        (split; [right; lia|]);
        intros i' [Hi'| ->%list_elem_of_singleton]%elem_of_app Hc;
        try specialize (Hb i' Hi' Hc); lia.
  - split.
    + destruct Hr as [(-> & -> & Hno)|Hr]; [left|by right]. split_and!; [done..|].
      intros i' [Hi'| ->%list_elem_of_singleton]%elem_of_app; auto.
    + intros i' [Hi'| ->%list_elem_of_singleton]%elem_of_app Hc; [by apply Hb|congruence].
Qed.

Lemma spread_fold_ok ip all_ips (l2 l1 : list Z) r :
  (∀ i, i ∈ l2 → 0 <= i) → spread_ok ip all_ips l1 r →
  spread_ok ip all_ips (l1 ++ l2) (fold_left (spread_step nodes ipflags ip all_ips) l2 r).
Proof.
  revert l1 r. induction l2 as [|i l2 IH]; intros l1 r Hpos Hr; simpl; [by rewrite app_nil_r|].
  rewrite cons_middle, app_assoc. apply IH; [set_solver|].
  apply spread_step_ok; [|done]. set_solver.
Qed.

(** The nodes that can take the address over serve the same number of addresses
    up to one. *)
Definition balanced all_ips ip : Prop :=
  ∀ a b, a ∈ node_ids → b ∈ node_ids → can_takeover a ip = true → can_takeover b ip = true →
  node_ip_coverage a all_ips <= node_ip_coverage b all_ips + 1.

Lemma coverage_first all_ips pnn :
  0 < node_ip_coverage pnn all_ips → is_Some (first_on all_ips pnn).
Proof.
  unfold node_ip_coverage, first_on. intros Hc.
  destruct (filter _ all_ips) as [|ip l] eqn:E; [simpl in Hc; lia|].
  assert (ip ∈ filter (λ ip, ip_pnn ip = pnn) all_ips) as Hin by (rewrite E; constructor).
  apply list_elem_of_filter in Hin as [Hp Hin].
  destruct (list_find_elem_of (λ ip, ip_pnn ip = pnn) all_ips ip Hin Hp) as [[i x] Hx].
  rewrite Hx. by eexists.
Qed.

Lemma overloaded_none ip all_ips :
  ip_pnn ip ≠ NOPNN → overloaded nodes ipflags ip all_ips ≫= first_on all_ips = None →
  balanced all_ips ip.
Proof.
  intros Hp. unfold overloaded. rewrite (proj2 (Z.eqb_neq _ _) Hp).
  unfold spread. pose proof (spread_fold_ok ip all_ips node_ids [] (-1, 0, -1, 0)) as Hs.
  destruct (fold_left _ _ _) as [[[maxnode maxnum] minnode] minnum].
  destruct Hs as [Hs Hb].
  { intros i. rewrite elem_node_ids. lia. }
  { split; [left|]; set_solver. }
  simpl in Hs, Hb. intros E a b Ha Hb' Hca Hcb.
  destruct Hs as [(_ & _ & Hno)|(Hmax & _ & Hm0 & Hm)]; [by rewrite Hno in Hca|].
  rewrite (proj2 (Z.eqb_neq maxnode (-1))) in E by lia.
  pose proof (Hb a Ha Hca). pose proof (Hb b Hb' Hcb).
  destruct (Z.ltb_spec (minnum + 1) maxnum); [|lia]. simpl in E.
  destruct (coverage_first all_ips maxnode) as [j Hj]; [|congruence].
  lia.
Qed.

Lemma failback_move_none all_ips ips :
  failback_move nodes ipflags all_ips ips = None →
  ∀ ip, ip ∈ ips → ip_pnn ip ≠ NOPNN → balanced all_ips ip.
Proof.
  induction ips as [|ip ips IH]; simpl; [by intros _ ip ?%elem_of_nil|].
  destruct (overloaded nodes ipflags ip all_ips ≫= first_on all_ips) eqn:E; [done|].
  intros Hn ip' [->|Hin]%elem_of_cons Hp; [by apply overloaded_none|by apply IH].
Qed.

Lemma basic_failback_spec l num_ips :
  0 <= num_ips →
  ∃ l', basic_failback nodes ipflags l num_ips = Some l' ∧ moves (λ _, True) l l'.
Proof. intros Hn. apply failback_loop_spec. lia. Qed.

End allocation.

(** ** Distances *)

Lemma leading_zeros_bound fuel : ∀ x d,
  0 <= d → d + Z.of_nat fuel < 2 ^ 32 → d <= leading_zeros fuel x d <= d + Z.of_nat fuel.
Proof.
  induction fuel as [|fuel IH]; intros x d Hd Hf; simpl; case_goal; try lia.
  rewrite (u32_id (d + 1)) by (unfold is_u32; lia). specialize (IH (u32 (Z.shiftl x 1)) (d + 1)). lia.
Qed.

Lemma distance_step_bound d w : 0 <= d < 2 ^ 31 → d <= distance_step d w <= d + 32.
Proof.
  intros Hd. unfold distance_step. case_goal; [rewrite u32_id by (unfold is_u32; lia); lia|].
  pose proof (leading_zeros_bound 31 (Z.lxor w.1 w.2) d). lia.
Qed.

Lemma ip_key_length a : length (ip_key a) = 4%nat.
Proof. by destruct a. Qed.

Lemma ip_distance_bound a b : 0 <= ip_distance a b <= 128.
Proof.
  unfold ip_distance. assert (length (zip (ip_key a) (ip_key b)) = 4%nat) as Hl
    by (rewrite length_zip, !ip_key_length; done).
  enough (∀ l d, 0 <= d → d + 32 * Z.of_nat (length l) <= 128 →
    d <= fold_left distance_step l d <= d + 32 * Z.of_nat (length l)) as Hgo.
  { specialize (Hgo (zip (ip_key a) (ip_key b)) 0). rewrite Hl in Hgo. lia. }
  clear. induction l as [|w l IH]; intros d Hd Hb; simpl length in *; simpl fold_left; [lia|].
  pose proof (distance_step_bound d w). specialize (IH (distance_step d w)). lia.
Qed.

Lemma ip_distance_sym a b : ip_distance a b = ip_distance b a.
Proof.
  unfold ip_distance. generalize (ip_key a) (ip_key b) 0.
  induction l as [|x l IH]; intros [|y l'] d; simpl; [done..|].
  rewrite <- IH. f_equal. unfold distance_step. cbn [fst snd]. by rewrite Z.lxor_comm.
Qed.

(** The squared distance, and its sum over the entries of a node. *)
Definition dist2 (a b : ctdb_sock_addr) : Z := ip_distance a b * ip_distance a b.

Lemma dist2_bound a b : 0 <= dist2 a b <= 128 * 128.
Proof. unfold dist2. pose proof (ip_distance_bound a b). nia. Qed.

Lemma dist2_sym a b : dist2 a b = dist2 b a.
Proof. unfold dist2. by rewrite ip_distance_sym. Qed.

Fixpoint dsum (a : ctdb_sock_addr) (l : list ctdb_public_ip) (pnn : Z) : Z :=
  match l with
  | [] => 0
  | t :: l => (if ip_pnn t =? pnn then dist2 a (ip_addr t) else 0) + dsum a l pnn
  end.

Lemma dsum_app a l1 l2 pnn : dsum a (l1 ++ l2) pnn = dsum a l1 pnn + dsum a l2 pnn.
Proof. induction l1 as [|t l1 IH]; simpl; [done|]. rewrite IH. lia. Qed.

Lemma dsum_bound a l pnn : 0 <= dsum a l pnn <= 16384 * Z.of_nat (length l).
Proof.
  induction l as [|t l IH]; simpl; [lia|]. pose proof (dist2_bound a (ip_addr t)).
  case_goal; lia.
Qed.

(** The loop of [ip_distance_2_sum] over the positions from [k] on. *)
Definition sum_from (a : ctdb_sock_addr) (self : option nat) (pnn : Z) (k : nat)
    (l : list ctdb_public_ip) (sum : Z) : Z :=
  fold_left (λ sum '(i, t),
    if negb (ip_pnn t =? pnn) then sum
    else if bool_decide (self = Some i) then sum
    else let d := ip_distance a (ip_addr t) in u32 (sum + u32 (d * d)))
    (imap (λ i t, ((k + i)%nat, t)) l) sum.

Lemma sum_from_cons a self pnn k t l sum :
  sum_from a self pnn k (t :: l) sum
  = sum_from a self pnn (S k) l
      (if negb (ip_pnn t =? pnn) then sum
       else if bool_decide (self = Some k) then sum
       else u32 (sum + u32 (ip_distance a (ip_addr t) * ip_distance a (ip_addr t)))).
Proof.
  unfold sum_from. simpl. rewrite Nat.add_0_r. f_equal. apply imap_ext. intros i x _. simpl.
  f_equal. lia.
Qed.

Lemma u32_add z d : u32 (u32 z + d) = u32 (z + d).
Proof. unfold u32. apply Zplus_mod_idemp_l. Qed.

Lemma sum_from_other a self pnn l : ∀ k sum,
  (∀ i, self = Some i → ¬ (k ≤ i < k + length l)%nat) →
  sum_from a self pnn k l (u32 sum) = u32 (sum + dsum a l pnn).
Proof.
  induction l as [|t l IH]; intros k sum Hself.
  - unfold sum_from. simpl. by rewrite Z.add_0_r.
  - rewrite sum_from_cons. simpl dsum. rewrite bool_decide_eq_false_2
      by (intros E; apply (Hself k E); simpl; lia).
    assert (∀ i, self = Some i → ¬ (S k ≤ i < S k + length l)%nat) as Hself'
      by (intros i E Hi; apply (Hself i E); simpl; lia).
    destruct (ip_pnn t =? pnn); simpl; [|by apply IH].
    fold (dist2 a (ip_addr t)). pose proof (dist2_bound a (ip_addr t)).
    rewrite (u32_id (dist2 _ _)) by (unfold is_u32; lia).
    rewrite u32_add, IH by done. f_equal. lia.
Qed.

Lemma sum_none a l pnn : ip_distance_2_sum a None l pnn = u32 (dsum a l pnn).
Proof.
  change (ip_distance_2_sum a None l pnn) with (sum_from a None pnn 0 l (u32 0)).
  by rewrite sum_from_other.
Qed.

(** The entry itself does not count. *)
Lemma sum_self l1 t l2 pnn :
  ip_distance_2_sum (ip_addr t) (Some (length l1)) (l1 ++ t :: l2) pnn
  = u32 (dsum (ip_addr t) (l1 ++ l2) pnn).
Proof.
  set (a := ip_addr t).
  change (ip_distance_2_sum a (Some (length l1)) (l1 ++ t :: l2) pnn)
    with (sum_from a (Some (length l1)) pnn 0 (l1 ++ t :: l2) (u32 0)).
  assert (∀ l k sum, sum_from a (Some (k + length l)%nat) pnn k (l ++ t :: l2) (u32 sum)
    = u32 (sum + dsum a (l ++ l2) pnn)) as Hgo; [|exact (Hgo l1 0%nat 0)].
  induction l as [|x l IH]; intros k sum.
  - simpl. rewrite Nat.add_0_r, sum_from_cons, bool_decide_eq_true_2 by done.
    assert (∀ b : bool, (if b then u32 sum else u32 sum) = u32 sum) as -> by (by intros []).
    apply sum_from_other. intros i [= <-]. lia.
  - simpl app. rewrite sum_from_cons, bool_decide_eq_false_2
      by (intros [= E]; simpl in E; lia).
    replace (k + length (x :: l))%nat with (S k + length l)%nat by (simpl; lia). simpl dsum.
    destruct (ip_pnn x =? pnn); simpl negb; cbv iota; [|by rewrite IH].
    fold (dist2 a (ip_addr x)). pose proof (dist2_bound a (ip_addr x)).
    rewrite (u32_id (dist2 _ _)) by (unfold is_u32; lia).
    rewrite u32_add, IH. f_equal. lia.
Qed.

(** The imbalance of a node, and the sum over all nodes, without wrap-around:
    the squared distances of the pairs of entries on a node. *)
Fixpoint imb (l : list ctdb_public_ip) (pnn : Z) : Z :=
  match l with
  | [] => 0
  | t :: l => (if ip_pnn t =? pnn then dsum (ip_addr t) l pnn else 0) + imb l pnn
  end.

Fixpoint total (l : list ctdb_public_ip) : Z :=
  match l with [] => 0 | t :: l => dsum (ip_addr t) l (ip_pnn t) + total l end.

Lemma lcp2_imbalance_imb l pnn : lcp2_imbalance l pnn = u32 (imb l pnn).
Proof.
  unfold lcp2_imbalance. change 0 with (u32 0) at 1.
  assert (∀ z, imbalance_from (u32 z) l pnn = u32 (z + imb l pnn)) as ->; [|done].
  induction l as [|t l IH]; intros z; simpl; [by rewrite Z.add_0_r|].
  destruct (ip_pnn t =? pnn); simpl; [|apply IH].
  rewrite sum_none, u32_add, (Z.add_comm z), u32_add, IH. f_equal. lia.
Qed.

Lemma imb_split l1 t l2 pnn :
  imb (l1 ++ t :: l2) pnn
  = imb (l1 ++ l2) pnn + if ip_pnn t =? pnn then dsum (ip_addr t) (l1 ++ l2) pnn else 0.
Proof.
  induction l1 as [|x l1 IH]; simpl; [lia|].
  rewrite IH, !dsum_app. simpl. rewrite (dist2_sym (ip_addr x)).
  destruct (ip_pnn t =? pnn), (ip_pnn x =? pnn); rewrite ?dsum_app; lia.
Qed.

Lemma total_split l1 t l2 :
  total (l1 ++ t :: l2) = total (l1 ++ l2) + dsum (ip_addr t) (l1 ++ l2) (ip_pnn t).
Proof.
  induction l1 as [|x l1 IH]; simpl; [lia|].
  rewrite IH, !dsum_app. simpl. rewrite (dist2_sym (ip_addr x)), (Z.eqb_sym (ip_pnn t)).
  destruct (ip_pnn x =? ip_pnn t); rewrite ?dsum_app; lia.
Qed.

Lemma total_nonneg l : 0 <= total l.
Proof. induction l as [|t l IH]; simpl; [lia|]. pose proof (dsum_bound (ip_addr t) l (ip_pnn t)). lia. Qed.

Lemma total_bound l : total l <= 16384 * Z.of_nat (length l) * Z.of_nat (length l).
Proof.
  induction l as [|t l IH]; simpl length; simpl total; [lia|].
  pose proof (dsum_bound (ip_addr t) l (ip_pnn t)). nia.
Qed.

Lemma assign_insert l j pnn t : l !! j = Some t → assign l j pnn = <[j := set_ip_pnn t pnn]> l.
Proof.
  intros Hj. unfold assign. apply list_eq. intros i. destruct (decide (j = i)) as [->|Hne].
  - rewrite list_lookup_alter_eq, Hj, list_lookup_insert_eq; [done|by eapply lookup_lt_Some].
  - by rewrite list_lookup_alter_ne, list_lookup_insert_ne.
Qed.

Lemma assign_split l j pnn t :
  l !! j = Some t →
  ∃ l1 l2, l = l1 ++ t :: l2 ∧ j = length l1 ∧ assign l j pnn = l1 ++ set_ip_pnn t pnn :: l2.
Proof.
  intros Hj. rewrite (assign_insert _ _ _ t) by done.
  apply list_elem_of_split_length in Hj as (l1 & l2 & -> & ->).
  exists l1, l2. split_and!; [done..|]. replace (length l1) with (length l1 + 0)%nat by lia.
  by rewrite insert_app_r.
Qed.

(** ** LCP2 *)

Section lcp2.
Variable nodes : list takeover_node.
Variable ipflags : list ctdb_ipflags.
Implicit Types (ip : ctdb_public_ip) (l all_ips ips : list ctdb_public_ip) (pnn : Z) (j : nat)
  (imbl : list Z).

Local Abbreviation can_takeover := (can_takeover nodes ipflags).
Local Abbreviation node_ids := (node_ids ipflags).
Local Abbreviation numnodes := (numnodes ipflags).
Local Abbreviation hopeless := (hopeless nodes ipflags).
Local Abbreviation moves := (moves nodes ipflags).

Hypothesis numnodes_max : Z.of_nat numnodes < NOPNN.

Lemma elem_imap_pair l j ip : (j, ip) ∈ imap pair l → l !! j = Some ip.
Proof. intros (i & x & [= -> ->] & Hx)%elem_of_lookup_imap. done. Qed.

(** *** Unassigned addresses *)

Definition alloc_good all_ips imbl (r : Z * Z * Z * nat) : Prop :=
  let '(pnn, im, _, j) := r in
  ∃ ip, all_ips !! j = Some ip ∧ unassigned ip ∧ pnn ∈ node_ids ∧ can_takeover pnn ip = true
  ∧ im = u32 (imbalance_at imbl pnn + ip_distance_2_sum (ip_addr ip) (Some j) all_ips pnn).

Lemma alloc_inner all_ips imbl j ip (ids : list Z) : ∀ best,
  all_ips !! j = Some ip → unassigned ip → (∀ i, i ∈ ids → i ∈ node_ids) →
  (∀ r, best = Some r → alloc_good all_ips imbl r) →
  let best' := fold_left (alloc_step nodes ipflags all_ips imbl j ip) ids best in
  (∀ r, best' = Some r → alloc_good all_ips imbl r)
  ∧ (best' = None → best = None ∧ ∀ i, i ∈ ids → can_takeover i ip = false).
Proof.
  induction ids as [|i ids IH]; intros best Hj Hu Hids Hb; simpl.
  - split; [done|]. intros ->. split; [done|]. by intros i ?%elem_of_nil.
  - destruct (IH (alloc_step nodes ipflags all_ips imbl j ip best i)) as [H1 H2];
      [done..|intros i' Hi'; apply Hids; by constructor| |].
    + intros r. unfold alloc_step. destruct (can_takeover i ip) eqn:Ec; simpl; [|apply Hb].
      assert (alloc_good all_ips imbl
        (i, u32 (imbalance_at imbl i + ip_distance_2_sum (ip_addr ip) (Some j) all_ips i),
         ip_distance_2_sum (ip_addr ip) (Some j) all_ips i, j)) as Hg
        by (exists ip; split_and!; try done; apply Hids; constructor).
      destruct best as [[[[n im] ds] j']|]; [|by intros [= <-]].
      case_goal; [by intros [= <-]|apply Hb].
    + split; [done|]. intros E. destruct (H2 E) as [Hs Hno]. unfold alloc_step in Hs.
      destruct (can_takeover i ip) eqn:Ec; simpl in Hs.
      * destruct best as [[[[n im] ds] j']|]; [|done]. by destruct (_ <? _).
      * split; [done|]. intros i' [->|Hi]%elem_of_cons; [done|by apply Hno].
Qed.

Lemma alloc_outer all_ips imbl (js : list (nat * ctdb_public_ip)) : ∀ best,
  (∀ j ip, (j, ip) ∈ js → all_ips !! j = Some ip) →
  (∀ r, best = Some r → alloc_good all_ips imbl r) →
  let best' := fold_left (λ best '(j, ip),
    if negb (ip_pnn ip =? NOPNN) then best
    else fold_left (alloc_step nodes ipflags all_ips imbl j ip) node_ids best) js best in
  (∀ r, best' = Some r → alloc_good all_ips imbl r)
  ∧ (best' = None → best = None ∧ ∀ j ip, (j, ip) ∈ js → unassigned ip → hopeless ip).
Proof.
  induction js as [|[j ip] js IH]; intros best Hjs Hb; simpl.
  - split; [done|]. intros ->. split; [done|]. by intros j ip ?%elem_of_nil.
  - destruct (Z.eqb_spec (ip_pnn ip) NOPNN) as [Eu|Eu]; simpl.
    + destruct (alloc_inner all_ips imbl j ip node_ids best) as [H1 H2];
        [apply Hjs; constructor|done..|]. simpl in H1, H2.
      destruct (IH (fold_left (alloc_step nodes ipflags all_ips imbl j ip) node_ids best))
        as [H3 H4]; [intros j' ip' Hin; apply Hjs; by constructor|done|].
      split; [done|]. intros E. destruct (H4 E) as [E' Hno]. destruct (H2 E') as [-> Hno'].
      split; [done|]. intros j' ip' [[= -> ->]|Hin]%elem_of_cons Hu; [done|by eapply Hno].
    + destruct (IH best) as [H3 H4]; [intros j' ip' Hin; apply Hjs; by constructor|done|]. split; [done|].
      intros E. destruct (H4 E) as [-> Hno]. split; [done|].
      intros j' ip' [[= -> ->]|Hin]%elem_of_cons Hu; [done|by eapply Hno].
Qed.

Lemma alloc_best_spec all_ips imbl :
  match alloc_best nodes ipflags all_ips imbl with
  | Some r => alloc_good all_ips imbl r
  | None => ∀ ip, ip ∈ all_ips → unassigned ip → hopeless ip
  end.
Proof.
  destruct (alloc_outer all_ips imbl (imap pair all_ips) None) as [H1 H2]; [|done|].
  - intros j ip. apply elem_imap_pair.
  - unfold alloc_best. destruct (fold_left _ _ _) as [r|]; [by apply H1|].
    destruct (H2 eq_refl) as [_ Hno]. intros ip (j & Hj)%list_elem_of_lookup Hu.
    apply (Hno j); [|done]. apply elem_of_lookup_imap. by exists j, ip.
Qed.

(** The imbalances the code keeps are those of the nodes. *)
Definition exact all_ips imbl : Prop :=
  length imbl = numnodes ∧
  ∀ pnn, pnn ∈ node_ids → imbalance_at imbl pnn = lcp2_imbalance all_ips pnn.

Definition count_unassigned all_ips : nat := length (filter unassigned all_ips).

Lemma imbalance_at_insert imbl (p q : Z) v :
  0 <= p < Z.of_nat (length imbl) → 0 <= q →
  imbalance_at (<[Z.to_nat p := v]> imbl) q = if q =? p then v else imbalance_at imbl q.
Proof.
  intros Hp Hq. unfold imbalance_at. rewrite !nth_lookup. destruct (Z.eqb_spec q p) as [->|Hne].
  - rewrite list_lookup_insert_eq; [done|lia].
  - rewrite list_lookup_insert_ne; [done|lia].
Qed.

(** Assigning an unassigned address keeps the imbalances exact. *)
Lemma exact_assign all_ips imbl pnn im ds j :
  exact all_ips imbl → alloc_good all_ips imbl (pnn, im, ds, j) →
  exact (assign all_ips j pnn) (<[Z.to_nat pnn := im]> imbl).
Proof.
  intros [Hlen Hex] (ip & Hj & Hu & Hn & _ & ->). split; [by rewrite length_insert|].
  intros q Hq. pose proof (proj1 (elem_node_ids _ _) Hn). pose proof (proj1 (elem_node_ids _ _) Hq).
  rewrite imbalance_at_insert by lia. unfold unassigned in Hu.
  destruct (assign_split all_ips j pnn ip Hj) as (l1 & l2 & -> & -> & ->).
  rewrite !lcp2_imbalance_imb, imb_split. simpl. destruct (Z.eqb_spec q pnn) as [->|Hne].
  - rewrite Hex, lcp2_imbalance_imb, sum_self, imb_split by done.
    rewrite (proj2 (Z.eqb_neq (ip_pnn ip) pnn)), Z.eqb_refl by lia.
    by rewrite u32_add, Z.add_comm, u32_add, Z.add_0_r, Z.add_comm.
  - rewrite Hex, lcp2_imbalance_imb, imb_split by done.
    by rewrite (proj2 (Z.eqb_neq (ip_pnn ip) q)), (proj2 (Z.eqb_neq pnn q)) by lia.
Qed.

Lemma count_assign all_ips j pnn ip :
  all_ips !! j = Some ip → unassigned ip → pnn ∈ node_ids →
  count_unassigned all_ips = S (count_unassigned (assign all_ips j pnn)).
Proof.
  intros Hj Hu Hn%elem_node_ids. unfold count_unassigned.
  destruct (assign_split all_ips j pnn ip Hj) as (l1 & l2 & -> & -> & ->).
  rewrite !filter_app, !filter_cons, !length_app. rewrite decide_True by done.
  rewrite decide_False by (unfold unassigned; simpl; lia). simpl. lia.
Qed.

Lemma have_unassigned_false all_ips :
  have_unassigned all_ips = false → ∀ ip, ip ∈ all_ips → ¬ unassigned ip.
Proof.
  unfold have_unassigned. induction all_ips as [|x l IH]; simpl; [by intros _ ip ?%elem_of_nil|].
  intros [Hx%Z.eqb_neq Hl]%orb_false_elim ip [->|Hin]%elem_of_cons; [done|by apply IH].
Qed.

Lemma count_zero all_ips : count_unassigned all_ips = 0%nat → have_unassigned all_ips = false.
Proof.
  unfold count_unassigned, have_unassigned. induction all_ips as [|x l IH]; simpl; [done|].
  rewrite filter_cons. case_decide as Hx; [done|]. intros Hl. rewrite IH by done.
  rewrite orb_false_r. by apply Z.eqb_neq.
Qed.

Lemma alloc_moves all_ips imbl r l' :
  alloc_good all_ips imbl r → moves unassigned (assign all_ips r.2 r.1.1.1) l' →
  moves unassigned all_ips l'.
Proof.
  destruct r as [[[pnn im] ds] j]. intros (ip & Hj & Hu & Hn & Ht & _). simpl.
  rewrite (assign_insert _ _ _ ip) by done. by econstructor.
Qed.

(** Each round assigns one address; with one round for each unassigned one the
    loop ends, and leaves only addresses no node can take. *)
Lemma alloc_loop_spec fuel : ∀ all_ips imbl,
  (count_unassigned all_ips ≤ S fuel)%nat → exact all_ips imbl →
  ∃ l' imbl', alloc_loop nodes ipflags fuel all_ips imbl = Some (l', imbl')
  ∧ moves unassigned all_ips l' ∧ exact l' imbl'
  ∧ ∀ ip, ip ∈ l' → unassigned ip → hopeless ip.
Proof.
  induction fuel as [|fuel IH]; intros all_ips imbl Hc Hex; simpl;
    pose proof (alloc_best_spec all_ips imbl) as Hb;
    destruct (alloc_best nodes ipflags all_ips imbl) as [[[[pnn im] ds] j]|] eqn:E;
    try (exists all_ips, imbl; split_and!; [done|constructor|done..|done]);
    pose proof (exact_assign _ _ _ _ _ _ Hex Hb) as Hex';
    pose proof (λ l', alloc_moves _ _ _ l' Hb) as Hm; simpl in Hm;
    destruct Hb as (ip & Hj & Hu & Hn & _); pose proof (count_assign _ _ _ _ Hj Hu Hn) as Hcnt.
  - rewrite count_zero by lia. eexists _, _. split_and!; [done|apply Hm; constructor|done..|].
    intros ip' Hin Hu'. exfalso. eapply have_unassigned_false; [|done..]. apply count_zero. lia.
  - destruct (have_unassigned (assign all_ips j pnn)) eqn:Eh.
    + destruct (IH (assign all_ips j pnn) (<[Z.to_nat pnn := im]> imbl))
        as (l' & imbl' & E' & Hm' & Hex'' & Hh); [lia|done|].
      exists l', imbl'. split_and!; [done|by apply Hm|done..|done].
    + eexists _, _. split_and!; [done|apply Hm; constructor|done..|].
      intros ip' Hin Hu'. exfalso. by eapply have_unassigned_false.
Qed.

Lemma count_le all_ips : (count_unassigned all_ips ≤ length all_ips)%nat.
Proof. apply length_filter. Qed.

Lemma init_exact all_ips force : exact all_ips (lcp2_init ipflags all_ips force).1.
Proof.
  split; simpl; [unfold Takeover.node_ids; by rewrite !length_fmap, length_seq|].
  intros pnn Hp. apply elem_node_ids in Hp as Hp'. unfold imbalance_at.
  rewrite nth_lookup, list_lookup_fmap. unfold Takeover.node_ids.
  rewrite list_lookup_fmap, lookup_seq_lt by lia. simpl. by rewrite Z2Nat.id by lia.
Qed.

Lemma lcp2_allocate_spec all_ips imbl :
  exact all_ips imbl →
  ∃ l' imbl', lcp2_allocate_unassigned nodes ipflags all_ips imbl = Some (l', imbl')
  ∧ moves unassigned all_ips l' ∧ exact l' imbl'
  ∧ ∀ ip, ip ∈ l' → unassigned ip → hopeless ip.
Proof. intros Hex. apply alloc_loop_spec; [|done]. pose proof (count_le all_ips). lia. Qed.

(** *** Rebalancing *)

(** A move the search accepts: the address is on the source node, and costs less
    on the destination. *)
Definition move_good all_ips (srcnode : Z) j (dst : Z) : Prop :=
  ∃ ip, all_ips !! j = Some ip ∧ ip_pnn ip = srcnode ∧ dst ∈ node_ids ∧ can_takeover dst ip = true
  ∧ ip_distance_2_sum (ip_addr ip) (Some j) all_ips dst
    < ip_distance_2_sum (ip_addr ip) (Some j) all_ips srcnode.

Definition best_good all_ips (srcnode : Z) (best : option (nat * Z * Z * Z)) : Prop :=
  match best with Some (j, _, dst, _) => move_good all_ips srcnode j dst | None => True end.

Lemma candidate_inner all_ips imbl cands (src candimbl srcimbl : Z) j ip (ids : list Z) : ∀ best,
  all_ips !! j = Some ip → ip_pnn ip = src → (∀ i, i ∈ ids → i ∈ node_ids) →
  best_good all_ips src best →
  best_good all_ips src
    (fold_left (candidate_step nodes ipflags all_ips imbl cands candimbl j ip
       (ip_distance_2_sum (ip_addr ip) (Some j) all_ips src) srcimbl) ids best).
Proof.
  induction ids as [|i ids IH]; intros best Hj Hp Hids Hb; simpl; [done|].
  apply IH; [done..|set_solver|]. unfold candidate_step.
  destruct (nth (Z.to_nat i) cands false); simpl; [|done].
  destruct (can_takeover i ip) eqn:Ec; simpl; [|done].
  destruct (_ && _) eqn:E; [|done]. zbool.
  exists ip. split_and!; [done..|set_solver|done|done].
Qed.

Lemma candidate_outer all_ips imbl cands (src candimbl : Z) (js : list (nat * ctdb_public_ip)) :
  ∀ acc, (∀ j ip, (j, ip) ∈ js → all_ips !! j = Some ip) → best_good all_ips src acc.2 →
  best_good all_ips src (fold_left (λ '(srcimbl, best) '(j, ip),
    if negb (ip_pnn ip =? src) then (srcimbl, best)
    else
      let srcdsum := ip_distance_2_sum (ip_addr ip) (Some j) all_ips src in
      let srcimbl := u32 (candimbl - srcdsum) in
      (srcimbl, fold_left (candidate_step nodes ipflags all_ips imbl cands candimbl j ip srcdsum srcimbl)
                  node_ids best)) js acc).2.
Proof.
  induction js as [|[j ip] js IH]; intros [srcimbl best] Hjs Hb; simpl; [done|].
  apply IH; [set_solver|]. destruct (Z.eqb_spec (ip_pnn ip) src) as [Hp|]; simpl; [|done].
  apply candidate_inner; [|done..]. apply Hjs. constructor.
Qed.

Lemma failback_candidate_spec all_ips (src candimbl : Z) imbl cands l' imbl' :
  lcp2_failback_candidate nodes ipflags all_ips src candimbl imbl cands = Some (l', imbl') →
  ∃ j dst, move_good all_ips src j dst ∧ l' = assign all_ips j dst.
Proof.
  unfold lcp2_failback_candidate, candidate_search.
  pose proof (candidate_outer all_ips imbl cands src candimbl (imap pair all_ips) (0, None)) as Hg.
  destruct (fold_left _ _ _) as [srcimbl [[[[j ms] dst] md]|]]; [|done].
  intros [= <- <-]. exists j, dst. split; [|done]. apply Hg; [apply elem_imap_pair|done].
Qed.

Lemma failback_sources_spec all_ips imbl cands lips l' imbl' :
  failback_sources nodes ipflags all_ips imbl cands lips = Some (l', imbl') →
  ∃ src j dst, move_good all_ips src j dst ∧ l' = assign all_ips j dst.
Proof.
  induction lips as [|[im pnn] lips IH]; simpl; [done|]. case_goal; [done|].
  destruct (lcp2_failback_candidate _ _ _ _ _ _ _) as [[l1 imbl1]|] eqn:E; [|done].
  intros [= <- <-]. apply failback_candidate_spec in E as (j & dst & Hm & ->). by eauto.
Qed.

(** No overflow: fewer than 2^18 addresses. *)
Definition few all_ips : Prop := Z.of_nat (length all_ips) <= 2 ^ 18.

(** The total imbalance goes down with every move. *)
Lemma move_decreases all_ips (src : Z) j dst :
  few all_ips → move_good all_ips src j dst → total (assign all_ips j dst) < total all_ips.
Proof.
  intros Hfew (ip & Hj & <- & _ & _ & Hlt).
  destruct (assign_split all_ips j dst ip Hj) as (l1 & l2 & -> & -> & ->).
  rewrite !total_split. simpl. rewrite !sum_self in Hlt. unfold few in Hfew.
  assert (∀ p, 0 <= dsum (ip_addr ip) (l1 ++ l2) p < 2 ^ 32) as Hb.
  { intros p. pose proof (dsum_bound (ip_addr ip) (l1 ++ l2) p) as Hd.
    rewrite length_app in Hfew, Hd. simpl in Hfew. lia. }
  rewrite !u32_id in Hlt by (unfold is_u32; apply Hb). lia.
Qed.

Lemma move_moves all_ips (src : Z) j dst :
  move_good all_ips src j dst → moves (λ _, True) all_ips (assign all_ips j dst).
Proof.
  intros (ip & Hj & _ & Hn & Ht & _). rewrite (assign_insert _ _ _ ip) by done.
  econstructor; [done..|constructor].
Qed.

Variable qsort : list (Z * Z) → list (Z * Z).

(** As many rounds as the total imbalance are enough. *)
Lemma lcp2_failback_spec fuel : ∀ all_ips imbl cands,
  few all_ips → (Z.to_nat (total all_ips) ≤ fuel)%nat →
  ∃ l' imbl', lcp2_failback nodes ipflags qsort fuel all_ips imbl cands = Some (l', imbl')
  ∧ moves (λ _, True) all_ips l' ∧ total l' <= total all_ips.
Proof.
  induction fuel as [|fuel IH]; intros all_ips imbl cands Hfew Hf; simpl;
    (case_goal; [exists all_ips, imbl; split_and!; [done|constructor|done]|]);
    (destruct (failback_sources _ _ _ _ _ _) as [[l1 imbl1]|] eqn:E;
      [|exists all_ips, imbl; split_and!; [done|constructor|done]]);
    apply failback_sources_spec in E as (src & j & dst & Hg & ->);
    pose proof (move_decreases _ _ _ _ Hfew Hg) as Hlt;
    pose proof (total_nonneg (assign all_ips j dst)).
  - lia.
  - destruct (IH (assign all_ips j dst) imbl1 cands) as (l' & imbl' & E' & Hm & Ht); [|lia|].
    + unfold few, assign in *. by rewrite length_alter.
    + exists l', imbl'. split_and!; [done| |lia].
      eapply moves_trans; [by eapply move_moves|done].
Qed.

End lcp2.

(** ** The merged list *)

Section merge.
Variable nodes : list takeover_node.
Implicit Types (ip e : ctdb_public_ip) (l : list ctdb_public_ip) (k : list Z).

Definition key_of ip : list Z := ip_key (ip_addr ip).

(** The entry for a key after inserting a list of entries. *)
Definition merge_step k (o : option ctdb_public_ip) e : option ctdb_public_ip :=
  if decide (key_of e = k) then add_ip_callback e o else o.

Lemma add_ip_callback_total e o : ∃ ip, add_ip_callback e o = Some ip.
Proof. destruct o; simpl; by eexists. Qed.

Lemma merge_fold l : ∀ tree : trbt_array IP_KEYLEN ctdb_public_ip,
  array_root_ok 3 tree →
  ∃ tree', fold_left merge_insert l (Some tree) = Some tree' ∧ array_root_ok 3 tree'
  ∧ ∀ k, length k = 4%nat →
      trbt_lookuparray32 4 k tree' = fold_left (merge_step k) l (trbt_lookuparray32 4 k tree).
Proof.
  induction l as [|e l IH]; intros tree Hok; [by exists tree|].
  destruct (add_ip_callback_total e (trbt_lookuparray32 4 (key_of e) tree)) as [new Hnew].
  destruct (insertarray_ok 3 tree (key_of e) (add_ip_callback e) new) as (t1 & E1 & Hok1 & Hk1);
    [done|apply ip_key_length|done|].
  destruct (IH t1 Hok1) as (t2 & E2 & Hok2 & Hk2). exists t2. split_and!; [|done|].
  - cbn [fold_left]. unfold merge_insert at 2. simpl mbind.
    change (ip_key (ip_addr e)) with (key_of e). change (IP_KEYLEN - 1)%nat with 3%nat.
    by rewrite E1.
  - intros k Hk. rewrite Hk2, Hk1 by done. cbn [fold_left]. f_equal. unfold merge_step.
    destruct (decide (key_of e = k)) as [<-|Hne].
    + by rewrite bool_decide_eq_true_2.
    + by rewrite bool_decide_eq_false_2 by congruence.
Qed.

(** What the entry for a key says. *)
Definition merged l k (o : option ctdb_public_ip) : Prop :=
  match o with
  | None => ∀ e, e ∈ l → key_of e ≠ k
  | Some ip =>
      key_of ip = k
      ∧ (∃ e, e ∈ l ∧ ip_addr e = ip_addr ip)
      ∧ (ip_pnn ip ≠ NOPNN → ∃ e, e ∈ l ∧ key_of e = k ∧ ip_pnn e = ip_pnn ip)
      ∧ (∀ e, e ∈ l → key_of e = k → ip_pnn e ≠ NOPNN → ip_pnn ip ≠ NOPNN)
  end.

Ltac snoc_in := apply elem_of_app; first [by left | right; constructor].

Lemma merged_snoc l k o e : merged l k o → merged (l ++ [e]) k (merge_step k o e).
Proof.
  unfold merge_step. intros Ho. destruct (decide (key_of e = k)) as [<-|Hne].
  - destruct o as [ip|]; simpl in *.
    + destruct Ho as (Hk & _ & H2 & H3).
      destruct (Z.eqb_spec (ip_pnn e) NOPNN) as [En|En]; simpl; split_and!; try done.
      * exists e. split; [snoc_in|done].
      * intros Hp. destruct (H2 Hp) as (x & Hx & ? & ?). exists x. split; [snoc_in|done].
      * intros x [Hx| ->%list_elem_of_singleton]%elem_of_app Hkx Hp; [by apply (H3 x)|done].
      * exists e. split; [snoc_in|done].
      * intros _. exists e. split; [snoc_in|done].
    + split_and!; [done|exists e; split; [snoc_in|done]|exists e; split; [snoc_in|done]|].
      intros x [Hx| ->%list_elem_of_singleton]%elem_of_app Hkx Hp; [by apply Ho in Hx|done].
  - destruct o as [ip|]; simpl in *.
    + destruct Ho as (Hk & (x & Hx & Ha) & H2 & H3). split_and!; [done| | |].
      * exists x. split; [snoc_in|done].
      * intros Hp. destruct (H2 Hp) as (y & Hy & ?). exists y. split; [snoc_in|done].
      * intros y [Hy| ->%list_elem_of_singleton]%elem_of_app Hky; [by apply H3|done].
    + intros x [Hx| ->%list_elem_of_singleton]%elem_of_app; [by apply Ho|done].
Qed.

Lemma merged_fold l2 : ∀ l1 k o,
  merged l1 k o → merged (l1 ++ l2) k (fold_left (merge_step k) l2 o).
Proof.
  induction l2 as [|e l2 IH]; intros l1 k o Ho; simpl; [by rewrite app_nil_r|].
  rewrite cons_middle, app_assoc. by apply IH, merged_snoc.
Qed.

Lemma lex_lt_irrefl k : ¬ lex_lt k k.
Proof. induction k as [|x k IH]; simpl; [tauto|]. intros [?|[_ ?]]; [lia|done]. Qed.

Lemma visit_prepend (l : list ctdb_public_ip) : ∀ acc,
  visit getips_count_callback acc l = (reverse l ++ acc, 0).
Proof.
  induction l as [|x l IH]; intros acc; simpl; [done|].
  by rewrite IH, reverse_cons, <- app_assoc.
Qed.

Lemma lex_sorted_nodup (l : list (list Z)) : StronglySorted lex_lt l → NoDup l.
Proof.
  induction 1 as [|k l _ IH Hk]; constructor; [|done]. intros Hin.
  rewrite Forall_forall in Hk. by apply (lex_lt_irrefl k), Hk.
Qed.

(** The merged list holds one entry for each key. *)
Lemma merged_list_spec :
  ∃ all_ips, create_merged_ip_list nodes = Some all_ips
  ∧ NoDup (key_of <$> all_ips)
  ∧ ∀ k, length k = 4%nat → ∃ o, merged (merge_entries nodes) k o
      ∧ ∀ ip, ip ∈ all_ips ∧ key_of ip = k ↔ o = Some ip.
Proof.
  unfold create_merged_ip_list.
  destruct (merge_fold (merge_entries nodes) NULL (nil_root_ok 3)) as (tree & E & Hok & Hk).
  rewrite E. simpl mbind. set (L := array_elements 4 tree). exists (reverse L.*2).
  assert (trbt_traversearray32 4 getips_count_callback [] tree = (reverse L.*2, 0)) as Et.
  { rewrite (traverse_visit getips_count_callback 4 [] tree), visit_prepend. by rewrite app_nil_r. }
  split; [exact (f_equal (λ r, Some r.1) Et)|].
  assert (∀ k, length k = 4%nat → merged (merge_entries nodes) k (trbt_lookuparray32 4 k tree)) as Hm.
  { intros k Hl. rewrite Hk by done. apply (merged_fold _ [] k None).
    by intros e ?%elem_of_nil. }
  assert (∀ k ip, (k, ip) ∈ L → length k = 4%nat ∧ k = key_of ip) as Hkey.
  { intros k ip Hin. pose proof (array_elements_length 4 tree _ Hin) as Hl. split; [done|].
    apply (root_elem 3 tree k ip Hok Hl) in Hin. specialize (Hm k Hl). rewrite Hin in Hm.
    by destruct Hm. }
  split.
  - assert (key_of <$> L.*2 = L.*1) as Hkeys.
    { rewrite <- list_fmap_compose. apply list_fmap_ext. intros i [k ip] Hi. simpl. symmetry.
      apply Hkey. by eapply list_elem_of_lookup_2. }
    rewrite reverse_Permutation, Hkeys.
    pose proof (root_sorted 3 tree Hok) as Hs. fold L in Hs.
    by apply lex_sorted_nodup.
  - intros k Hl. exists (trbt_lookuparray32 4 k tree). split; [by apply Hm|]. intros ip.
    rewrite <- (root_elem 3 tree k ip) by done. fold L. rewrite elem_of_reverse. split.
    + intros [((k' & ip') & -> & Hin)%list_elem_of_fmap <-]. simpl.
      destruct (Hkey k' ip' Hin) as [_ <-]. done.
    + intros Hin. split; [|symmetry; by apply Hkey].
      apply list_elem_of_fmap. by exists (k, ip).
Qed.

End merge.

(** ** The run *)

Section run.
Variable nodes : list takeover_node.
Variable ipflags : list ctdb_ipflags.
Variable qsort : list (Z * Z) → list (Z * Z).
Implicit Types (ip : ctdb_public_ip) (l all_ips : list ctdb_public_ip) (pnn : Z) (j : nat).

Hypothesis numnodes_max : Z.of_nat (numnodes ipflags) < NOPNN.
Hypothesis pnn_nonneg : ∀ node, node ∈ nodes → 0 <= tn_pnn node.

Local Abbreviation hopeless := (hopeless nodes ipflags).
Local Abbreviation hosted := (hosted nodes ipflags).
Local Abbreviation moves := (moves nodes ipflags).

Lemma merge_entries_pnn e : e ∈ merge_entries nodes → 0 <= ip_pnn e.
Proof.
  unfold merge_entries. intros (node & Hin & Hnode)%list_elem_of_bind.
  specialize (pnn_nonneg node Hnode). destruct (tn_flags node &? NODE_FLAGS_DELETED);
    [by apply elem_of_nil in Hin|].
  apply list_elem_of_fmap in Hin as (ip & -> & _). unfold merged_entry. simpl.
  destruct (Z.eqb_spec (ip_pnn ip) (tn_pnn node)); [lia|done].
Qed.

(** The merged list has no more entries than the nodes know, and sensible node
    numbers. *)
Lemma merged_list_bounds all_ips :
  create_merged_ip_list nodes = Some all_ips →
  (length all_ips ≤ length (merge_entries nodes))%nat ∧ Forall (λ ip, 0 <= ip_pnn ip) all_ips.
Proof.
  intros E. destruct (merged_list_spec nodes) as (l & E' & Hnd & Hk).
  rewrite E in E'. injection E' as <-.
  assert (∀ ip, ip ∈ all_ips → merged (merge_entries nodes) (key_of ip) (Some ip)) as Hm.
  { intros ip Hin. destruct (Hk (key_of ip)) as (o & Ho & Hiff); [apply ip_key_length|].
    by rewrite (proj1 (Hiff ip)) in Ho. }
  split.
  - rewrite <- (length_fmap key_of all_ips), <- (length_fmap key_of (merge_entries nodes)).
    apply submseteq_length, NoDup_submseteq; [done|].
    intros k (ip & -> & Hin)%list_elem_of_fmap. apply Hm in Hin as (_ & (e & He & Ha) & _).
    apply list_elem_of_fmap. exists e. split; [|done]. unfold key_of. by rewrite Ha.
  - apply Forall_forall. intros ip Hin. apply Hm in Hin as (_ & _ & Hp & _).
    destruct (decide (ip_pnn ip = NOPNN)) as [->|Hne]; [done|].
    destruct (Hp Hne) as (e & He & _ & <-). by apply merge_entries_pnn.
Qed.

(** What an allocation of the list [l] has to give. *)
Definition allocated l (o : option (list ctdb_public_ip)) : Prop :=
  ∃ all_ips, o = Some all_ips ∧ Forall hosted all_ips
  ∧ (∀ ip, ip ∈ all_ips → unassigned ip → hopeless ip)
  ∧ ip_addr <$> all_ips = ip_addr <$> l.

Lemma allocated_moves P l0 l l' :
  moves P l l' → Forall hosted l → ip_addr <$> l = ip_addr <$> l0 →
  (∀ ip, ip ∈ l' → unassigned ip → hopeless ip) → allocated l0 (Some l').
Proof.
  intros Hm Hh Ha Hu. exists l'. split_and!; [done|by eapply moves_hosted|done|].
  by rewrite (moves_addr _ _ _ _ _ Hm).
Qed.

Lemma deterministic_allocated l : allocated l (Some (ip_alloc_deterministic_ips nodes ipflags l)).
Proof.
  unfold ip_alloc_deterministic_ips.
  set (l1 := imap _ l). assert (Forall (λ ip, 0 <= ip_pnn ip) l1) as Hpos.
  { apply Forall_forall. intros ip (i & x & -> & _)%elem_of_lookup_imap. simpl. lia. }
  destruct (unassign_spec nodes ipflags l1 Hpos) as (Hh & Ha & _).
  destruct (basic_allocate_spec nodes ipflags numnodes_max (unassign_unsuitable_ips nodes ipflags l1))
    as [Hm Hu].
  eapply allocated_moves; [exact Hm|done| |done]. rewrite Ha. subst l1.
  rewrite fmap_imap. apply list_eq. intros i. rewrite list_lookup_imap, list_lookup_fmap.
  by destruct (l !! i).
Qed.

Lemma nondeterministic_allocated (nofb : Z) l :
  Forall (λ ip, 0 <= ip_pnn ip) l →
  allocated l (ip_alloc_nondeterministic_ips nodes ipflags nofb l).
Proof.
  intros Hpos. unfold ip_alloc_nondeterministic_ips.
  destruct (unassign_spec nodes ipflags l Hpos) as (Hh & Ha & _).
  set (l1 := unassign_unsuitable_ips nodes ipflags l) in *.
  destruct (basic_allocate_spec nodes ipflags numnodes_max l1) as [Hm Hu].
  destruct (nofb =? 1); [by eapply allocated_moves|].
  destruct (basic_failback_spec nodes ipflags numnodes_max
    (basic_allocate_unassigned nodes ipflags l1) (Z.of_nat (length l))) as (l' & E & Hm'); [lia|].
  rewrite E. eapply allocated_moves; [|exact Hh|exact Ha|].
  - eapply moves_trans; [|exact Hm']. by eapply moves_weaken; [|exact Hm].
  - by eapply moves_hopeless.
Qed.

Lemma lcp2_allocated fuel (nofb : Z) force l :
  Forall (λ ip, 0 <= ip_pnn ip) l → few l →
  16384 * Z.of_nat (length l) * Z.of_nat (length l) <= Z.of_nat fuel →
  allocated l (ip_alloc_lcp2 nodes ipflags qsort fuel nofb force l).
Proof.
  intros Hpos Hfew Hfuel. unfold ip_alloc_lcp2.
  destruct (unassign_spec nodes ipflags l Hpos) as (Hh & Ha & _).
  set (l1 := unassign_unsuitable_ips nodes ipflags l) in *.
  pose proof (init_exact ipflags l1 force) as Hex.
  destruct (lcp2_init ipflags l1 force) as [imbl cands]. simpl in Hex.
  destruct (lcp2_allocate_spec nodes ipflags numnodes_max l1 imbl Hex) as (l2 & imbl2 & E & Hm & _ & Hu).
  rewrite E. simpl mbind. cbv iota beta. destruct (nofb =? 1); [by eapply allocated_moves|].
  assert (length l2 = length l) as Hlen.
  { rewrite <- (length_fmap ip_addr l2), (moves_addr _ _ _ _ _ Hm), Ha. apply length_fmap. }
  destruct (lcp2_failback_spec nodes ipflags numnodes_max qsort fuel l2 imbl2 cands)
    as (l3 & imbl3 & E3 & Hm3 & _).
  - unfold few. by rewrite Hlen.
  - pose proof (total_bound l2) as Ht. rewrite Hlen in Ht. lia.
  - rewrite E3. simpl. eapply allocated_moves; [|exact Hh|exact Ha|].
    + eapply moves_trans; [|exact Hm3]. by eapply moves_weaken; [|exact Hm].
    + by eapply moves_hopeless.
Qed.

(** The numbers of the nodes are their positions. *)
Definition numbered : Prop := ∀ i node, nodes !! i = Some node → tn_pnn node = Z.of_nat i.

Lemma merged_in_bounds all_ips :
  length nodes = numnodes ipflags → numbered → create_merged_ip_list nodes = Some all_ips →
  in_bounds nodes ipflags all_ips = true.
Proof.
  intros Hsize Hnum E. destruct (merged_list_spec nodes) as (l & E' & _ & Hk).
  rewrite E in E'. injection E' as <-. unfold in_bounds. rewrite Hsize, Nat.leb_refl. cbn [andb].
  apply forallb_forall. intros ip Hin%list_elem_of_In.
  destruct (Z.eqb_spec (ip_pnn ip) NOPNN) as [|Hne]; [done|]. cbn [orb].
  destruct (Hk (key_of ip)) as (o & Ho & Hiff); [apply ip_key_length|].
  rewrite (proj1 (Hiff ip)) in Ho by done. destruct Ho as (_ & _ & Hp & _).
  destruct (Hp Hne) as (e & He & _ & Ep). unfold merge_entries in He.
  apply list_elem_of_bind in He as (node & Hin' & Hnode).
  destruct (tn_flags node &? NODE_FLAGS_DELETED); [by apply elem_of_nil in Hin'|].
  apply list_elem_of_fmap in Hin' as (x & -> & _). unfold merged_entry in Ep. simpl in Ep.
  destruct (Z.eqb_spec (ip_pnn x) (tn_pnn node)) as [Ex|]; [|congruence].
  apply list_elem_of_lookup in Hnode as [i Hi]. apply Hnum in Hi as Hn. apply lookup_lt_Some in Hi.
  apply andb_true_intro. split; [apply Z.leb_le|apply Z.ltb_lt]; lia.
Qed.

Lemma run_allocated fuel tunable force :
  length nodes = numnodes ipflags → numbered → Z.of_nat (length (merge_entries nodes)) <= 2 ^ 18 →
  16384 * Z.of_nat (length (merge_entries nodes)) * Z.of_nat (length (merge_entries nodes))
    <= Z.of_nat fuel →
  ∃ merged_ips, create_merged_ip_list nodes = Some merged_ips
  ∧ allocated merged_ips (ctdb_takeover_run_core nodes ipflags qsort fuel tunable force).
Proof.
  intros Hsize Hnum Hfew Hfuel. destruct (merged_list_spec nodes) as (l & E & _).
  exists l. split; [done|]. unfold ctdb_takeover_run_core. rewrite E. simpl mbind.
  destruct (merged_list_bounds l E) as [Hlen Hpos]. rewrite (merged_in_bounds l) by done.
  assert (in_bounds nodes ipflags [] = true) as -> by (unfold in_bounds; by rewrite Hsize, Nat.leb_refl).
  cbn [negb].
  destruct (lcp2_public_ip_assignment tunable =? 1).
  - apply lcp2_allocated; [done|unfold few; lia|nia].
  - destruct (deterministic_public_ips tunable =? 1).
    + apply deterministic_allocated.
    + by apply nondeterministic_allocated.
Qed.

End run.

(** ** The properties *)

(** the merged list has one entry for each distinct address key known to a
    node that is not deleted and no other; its node number is one that some node
    claims for the address, and it is unassigned only if no node claims it. *)
Theorem create_merged_ip_list_correct nodes :
  ∃ all_ips, create_merged_ip_list nodes = Some all_ips
  ∧ NoDup (key_of <$> all_ips)
  ∧ (∀ e, e ∈ merge_entries nodes → ∃ ip, ip ∈ all_ips ∧ key_of ip = key_of e
       ∧ (ip_pnn e ≠ NOPNN → ip_pnn ip ≠ NOPNN))
  ∧ (∀ ip, ip ∈ all_ips →
       (∃ e, e ∈ merge_entries nodes ∧ ip_addr e = ip_addr ip)
       ∧ (ip_pnn ip ≠ NOPNN →
            ∃ e, e ∈ merge_entries nodes ∧ key_of e = key_of ip ∧ ip_pnn e = ip_pnn ip)).
Proof.
  destruct (merged_list_spec nodes) as (l & E & Hnd & Hk). exists l. split_and!; [done..| |].
  - intros e He. destruct (Hk (key_of e)) as (o & Ho & Hiff); [apply ip_key_length|].
    destruct o as [ip|]; [|by apply Ho in He]. destruct Ho as (_ & _ & _ & Hp).
    destruct (proj2 (Hiff ip) eq_refl) as [Hin Hkey]. exists ip. split_and!; [done..|by apply Hp].
  - intros ip Hin. destruct (Hk (key_of ip)) as (o & Ho & Hiff); [apply ip_key_length|].
    rewrite (proj1 (Hiff ip) (conj Hin eq_refl)) in Ho. by destruct Ho as (_ & ? & ? & _).
Qed.

(** [addr] is a public address that a node which is not deleted knows. *)
Definition known_address (nodes : list takeover_node) (addr : ctdb_sock_addr) : Prop :=
  ∃ node ips ip, node ∈ nodes ∧ (tn_flags node &? NODE_FLAGS_DELETED) = false
  ∧ known_public_ips node = Some ips ∧ ip ∈ ips ∧ ip_addr ip = addr.

Lemma known_entries nodes addr :
  known_address nodes addr ↔ ∃ e, e ∈ merge_entries nodes ∧ ip_addr e = addr.
Proof.
  unfold known_address, merge_entries. setoid_rewrite list_elem_of_bind. split.
  - intros (node & ips & ip & Hn & Hf & Hk & Hin & <-). exists (merged_entry node ip). split; [|done].
    exists node. split; [|done]. rewrite Hf, Hk. apply list_elem_of_fmap. by exists ip.
  - intros (e & (node & Hin & Hn) & <-). destruct (tn_flags node &? NODE_FLAGS_DELETED) eqn:Ef;
      [by apply elem_of_nil in Hin|]. apply list_elem_of_fmap in Hin as (ip & -> & Hin).
    destruct (known_public_ips node) as [ips|] eqn:Ek; [|by apply elem_of_nil in Hin].
    by exists node, ips, ip.
Qed.

(** C10: a takeover run always ends, with each of the three algorithms the
    tunables select, and allocates the public addresses known to the nodes that
    are not deleted: exactly one entry for every key of such an address, and the
    entry for each address itself when no other known address has its key
    ([ip_key] gives an IPv4 address the key of the IPv6 address with the same low
    word and zeros above).  Each entry is on a node that may host it, or on no
    node, and in that case no node can take it over.  (The nodes are numbered by
    their positions and each has its flags, so that no array is read past its
    end; there are at most 2^18 entries in the lists of the nodes, so that the
    sums of squared distances do not overflow, and the rounds of the LCP2
    rebalancing are bounded by such a sum.) *)
Theorem takeover_run_correct nodes ipflags qsort fuel tunable force
    (Hmax : Z.of_nat (numnodes ipflags) < NOPNN)
    (Hsize : length nodes = numnodes ipflags) (Hnum : numbered nodes)
    (Hfew : Z.of_nat (length (merge_entries nodes)) <= 2 ^ 18)
    (Hfuel : 16384 * Z.of_nat (length (merge_entries nodes))
               * Z.of_nat (length (merge_entries nodes)) <= Z.of_nat fuel) :
  ∃ all_ips,
    ctdb_takeover_run_core nodes ipflags qsort fuel tunable force = Some all_ips
    ∧ NoDup (key_of <$> all_ips)
    ∧ (∀ addr, known_address nodes addr → ∃ ip, ip ∈ all_ips ∧ key_of ip = ip_key addr
         ∧ ((∀ addr', known_address nodes addr' → ip_key addr' = ip_key addr → addr' = addr) →
            ip_addr ip = addr))
    ∧ ∀ ip, ip ∈ all_ips → known_address nodes (ip_addr ip)
        ∧ (ip_pnn ip ≠ NOPNN → can_host nodes ipflags (ip_pnn ip) ip = true)
        ∧ (ip_pnn ip = NOPNN → ∀ pnn, 0 <= pnn < Z.of_nat (numnodes ipflags) →
             can_takeover nodes ipflags pnn ip = false).
Proof.
  assert (∀ node, node ∈ nodes → 0 <= tn_pnn node) as Hpnn.
  { intros node [i Hi]%list_elem_of_lookup. rewrite (Hnum _ _ Hi). lia. }
  destruct (run_allocated nodes ipflags qsort Hmax Hpnn fuel tunable force Hsize Hnum Hfew Hfuel)
    as (m & Em & l & El & Hh & Hu & Ha).
  destruct (create_merged_ip_list_correct nodes) as (m' & Em' & Hnd & Hkeys & Hfrom).
  rewrite Em in Em'. injection Em' as <-.
  assert (key_of <$> l = key_of <$> m) as Hk.
  { unfold key_of. rewrite !(list_fmap_compose ip_addr ip_key). by rewrite Ha. }
  assert (∀ ip, ip ∈ l → known_address nodes (ip_addr ip)) as Hknown.
  { intros ip Hin. apply (list_elem_of_fmap_2 ip_addr) in Hin. rewrite Ha in Hin.
    apply list_elem_of_fmap in Hin as (x & -> & Hx). apply known_entries. by apply Hfrom. }
  exists l. split; [done|]. split; [by rewrite Hk|]. split.
  - intros addr (e & He & <-)%known_entries. destruct (Hkeys e He) as (x & Hx & Ex & _).
    apply (list_elem_of_fmap_2 key_of) in Hx. rewrite <- Hk in Hx. apply list_elem_of_fmap in Hx as (ip & Ei & Hin).
    exists ip. assert (key_of ip = ip_key (ip_addr e)) as Eip by (rewrite <- Ei; exact Ex).
    split_and!; [done..|]. intros Hu'. apply Hu'; [by apply Hknown|done].
  - intros ip Hin. split; [by apply Hknown|]. split.
    + intros Hne. rewrite Forall_forall in Hh. destruct (Hh ip Hin) as [?|[_ ?]]; done.
    + intros E pnn Hp. by apply (Hu ip Hin E), elem_node_ids.
Qed.

Lemma ipflags_lookup nodemap noiptakeover noiphost runstate i f :
  set_ipflags_internal nodemap noiptakeover noiphost runstate !! i = Some f →
  ∃ flags, nodemap !! i = Some flags
  ∧ f = (let f0 := ipflags_of flags (nth i noiptakeover 0) (nth i runstate CTDB_RUNSTATE_UNKNOWN) in
         if (if all_nodes_are_disabled nodemap then negb (nth i noiphost 0 =? 0)
             else flags &? NODE_FLAGS_DISABLED)
         then mk_ipflags (Takeover.noiptakeover f0) true else f0).
Proof.
  unfold set_ipflags_internal. destruct (all_nodes_are_disabled nodemap);
    rewrite !list_lookup_imap; destruct (nodemap !! i) as [flags|] eqn:E; try done; simpl;
    intros [= <-]; exists flags; (split; [done|]); [done|].
  by rewrite nth_lookup, E.
Qed.

(** with the flags [set_ipflags_internal] computes, a node that may host an
    address is in state RUNNING and is not disconnected, banned, stopped or
    deleted; unless all nodes are disabled it is not disabled either, and when
    all are, its NoIPHostOnAllDisabled tunable is 0.  A node with NoIPTakeover
    set takes no address over. *)
Theorem ipflags_host_nodes nodes nodemap tval_noiptakeover tval_noiphost runstate pnn ip
    (Hpnn : 0 <= pnn) :
  let ipflags := set_ipflags_internal nodemap tval_noiptakeover tval_noiphost runstate in
  (can_host nodes ipflags pnn ip = true →
   ∃ flags, nodemap !! Z.to_nat pnn = Some flags
   ∧ nth (Z.to_nat pnn) runstate CTDB_RUNSTATE_UNKNOWN = CTDB_RUNSTATE_RUNNING
   ∧ (flags &? NODE_FLAGS_INACTIVE) = false
   ∧ (if all_nodes_are_disabled nodemap then nth (Z.to_nat pnn) tval_noiphost 0 = 0
      else (flags &? NODE_FLAGS_DISABLED) = false))
  ∧ (can_takeover nodes ipflags pnn ip = true → nth (Z.to_nat pnn) tval_noiptakeover 0 = 0).
Proof.
  intros ipflags. unfold can_takeover, can_host, can_node_takeover_ip, can_node_host_ip, flags_at.
  destruct (ipflags !! Z.to_nat pnn) as [f|] eqn:E; [|by split]. simpl.
  apply ipflags_lookup in E as (flags & Hfl & ->). unfold ipflags_of.
  set (dis := if all_nodes_are_disabled nodemap then _ else _).
  assert (dis = false → if all_nodes_are_disabled nodemap then nth (Z.to_nat pnn) tval_noiphost 0 = 0
     else (flags &? NODE_FLAGS_DISABLED) = false) as Hdis.
  { subst dis. destruct (all_nodes_are_disabled nodemap); [|done].
    intros ?%negb_false_iff. by apply Z.eqb_eq. }
  clearbody dis. split.
  - destruct (bool_decide_reflect (nth (Z.to_nat pnn) runstate CTDB_RUNSTATE_UNKNOWN
      = CTDB_RUNSTATE_RUNNING)), dis; simpl; try done.
    destruct (flags &? NODE_FLAGS_INACTIVE) eqn:Ei; [done|]. intros _. exists flags.
    split_and!; [done..|by apply Hdis].
  - destruct (Z.eqb_spec (nth (Z.to_nat pnn) tval_noiptakeover 0) 0) as [|Hne]; [done|].
    by destruct (negb (bool_decide _)), dis.
Qed.

(** when addresses are not to fail back (and the allocation is not the
    deterministic one), an address that is on a node that may host it stays
    there: only unassigned addresses are given to nodes. *)
Theorem no_failback_keeps nodes ipflags qsort fuel tunable force merged_ips all_ips j ip
    (Hnum : Z.of_nat (numnodes ipflags) < NOPNN)
    (Hpnn : ∀ node, node ∈ nodes → 0 <= tn_pnn node)
    (Hnofb : no_ip_failback tunable = 1)
    (Hdet : lcp2_public_ip_assignment tunable = 1 ∨ deterministic_public_ips tunable ≠ 1)
    (Em : create_merged_ip_list nodes = Some merged_ips)
    (E : ctdb_takeover_run_core nodes ipflags qsort fuel tunable force = Some all_ips)
    (Hj : merged_ips !! j = Some ip) (Hne : ip_pnn ip ≠ NOPNN)
    (Hhost : can_host nodes ipflags (ip_pnn ip) ip = true) :
  all_ips !! j = Some ip.
Proof.
  destruct (merged_list_bounds nodes ipflags Hpnn merged_ips Em) as [_ Hpos].
  destruct (unassign_spec nodes ipflags merged_ips Hpos) as (_ & _ & Hkeep).
  specialize (Hkeep j ip Hj Hhost). revert E. unfold ctdb_takeover_run_core. rewrite Em. simpl mbind.
  destruct (Z.eqb_spec (lcp2_public_ip_assignment tunable) 1) as [_|Hl].
  - destruct (in_bounds _ _ _); [|done]. cbn [negb]. unfold ip_alloc_lcp2. set (l1 := unassign_unsuitable_ips nodes ipflags merged_ips) in *.
    pose proof (init_exact ipflags l1 force) as Hex.
    destruct (lcp2_init ipflags l1 force) as [imbl cands]. simpl in Hex.
    destruct (lcp2_allocate_spec nodes ipflags Hnum l1 imbl Hex) as (l2 & imbl2 & E & Hm & _).
    rewrite E, Hnofb. intros [= <-]. by eapply moves_keep.
  - destruct Hdet as [?|Hdet]; [done|]. rewrite (proj2 (Z.eqb_neq _ _) Hdet).
    destruct (in_bounds _ _ _); [|done]. cbn [negb].
    unfold ip_alloc_nondeterministic_ips. rewrite Hnofb. intros [= <-].
    destruct (basic_allocate_spec nodes ipflags Hnum (unassign_unsuitable_ips nodes ipflags merged_ips))
      as [Hm _]. by eapply moves_keep.
Qed.

(** with deterministic addresses, the address at position [j] is on node
    [j] modulo the number of nodes whenever that node may host it, wherever it
    was before. *)
Theorem deterministic_home nodes ipflags l j ip
    (Hnum : Z.of_nat (numnodes ipflags) < NOPNN) (Hj : l !! j = Some ip)
    (Hhost : can_host nodes ipflags (Z.of_nat (j mod numnodes ipflags)) ip = true) :
  ip_alloc_deterministic_ips nodes ipflags l !! j
  = Some (set_ip_pnn ip (Z.of_nat (j mod numnodes ipflags))).
Proof.
  unfold ip_alloc_deterministic_ips. set (l1 := imap _ l).
  assert (Forall (λ ip, 0 <= ip_pnn ip) l1) as Hpos.
  { apply Forall_forall. intros x (i & y & -> & _)%elem_of_lookup_imap. simpl. lia. }
  destruct (unassign_spec nodes ipflags l1 Hpos) as (_ & _ & Hkeep).
  destruct (basic_allocate_spec nodes ipflags Hnum (unassign_unsuitable_ips nodes ipflags l1))
    as [Hm _].
  eapply moves_keep; [exact Hm| |].
  - apply Hkeep; [|done]. subst l1. by rewrite list_lookup_imap, Hj.
  - apply host_node in Hhost; [|lia]. apply elem_node_ids in Hhost. unfold unassigned. simpl. lia.
Qed.

(** [basic_failback] always ends; if it needs fewer than [num_ips + 5] moves
    it leaves the coverage balanced: the nodes that can take over an assigned
    address serve the same number of addresses up to one. *)
Theorem basic_failback_balanced nodes ipflags l num_ips
    (Hnum : Z.of_nat (numnodes ipflags) < NOPNN) (Hips : 0 <= num_ips) :
  ∃ l', basic_failback nodes ipflags l num_ips = Some l'
  ∧ ip_addr <$> l' = ip_addr <$> l
  ∧ (is_Some (failback_loop nodes ipflags (Z.to_nat (num_ips + 4)) num_ips 0 l) →
     ∀ ip, ip ∈ l' → ip_pnn ip ≠ NOPNN → balanced nodes ipflags l' ip).
Proof.
  destruct (basic_failback_spec nodes ipflags Hnum l num_ips Hips) as (l' & E & Hm).
  exists l'. split_and!; [done|by eapply moves_addr|]. intros [l2 E2].
  destruct (failback_loop_done nodes ipflags (Z.to_nat (num_ips + 4)) num_ips 0 l l2)
    as [Hdone Hmore]; [lia|done|].
  specialize (Hmore 1%nat). replace (Z.to_nat (num_ips + 4) + 1)%nat with (Z.to_nat (num_ips + 5)) in Hmore
    by lia.
  unfold basic_failback in E. rewrite E in Hmore. injection Hmore as <-.
  by apply failback_move_none.
Qed.

(** the incremental bookkeeping of the LCP2 allocation is exact: after the
    unassigned addresses have been allocated, the imbalance recorded for each
    node is the one a recomputation from the list gives. *)
Theorem lcp2_allocate_exact nodes ipflags l force
    (Hnum : Z.of_nat (numnodes ipflags) < NOPNN) :
  ∃ l' imbl', lcp2_allocate_unassigned nodes ipflags l (lcp2_init ipflags l force).1 = Some (l', imbl')
  ∧ ∀ pnn, 0 <= pnn < Z.of_nat (numnodes ipflags) →
      imbalance_at imbl' pnn = lcp2_imbalance l' pnn.
Proof.
  destruct (lcp2_allocate_spec nodes ipflags Hnum l _ (init_exact ipflags l force))
    as (l' & imbl' & E & _ & [_ Hex] & _).
  exists l', imbl'. split; [done|]. intros pnn Hp. by apply Hex, elem_node_ids.
Qed.

(** C31: the LCP2 rebalancing terminates, whatever the recorded imbalances say
    and however equal ones are sorted: every move lowers the sum over the nodes
    of the squared distances, and that many rounds are enough. *)
Theorem lcp2_failback_terminates nodes ipflags qsort fuel l imbl candidates
    (Hnum : Z.of_nat (numnodes ipflags) < NOPNN)
    (Hfew : Z.of_nat (length l) <= 2 ^ 18) (Hfuel : (Z.to_nat (total l) ≤ fuel)%nat) :
  ∃ l' imbl', lcp2_failback nodes ipflags qsort fuel l imbl candidates = Some (l', imbl')
  ∧ ip_addr <$> l' = ip_addr <$> l ∧ total l' <= total l.
Proof.
  destruct (lcp2_failback_spec nodes ipflags Hnum qsort fuel l imbl candidates Hfew Hfuel)
    as (l' & imbl' & E & Hm & Ht).
  exists l', imbl'. split_and!; [done|by eapply moves_addr|done].
Qed.

(** *** Distances as common prefixes *)

Lemma top_bit x : 0 <= x < 2 ^ 32 → Z.testbit x 31 = (2 ^ 31 <=? x).
Proof.
  intros Hx. destruct (Z.leb_spec (2 ^ 31) x) as [H|H].
  - apply Z.testbit_true; [lia|]. by rewrite <- (Z.div_unique x (2 ^ 31) 1 (x - 2 ^ 31)) by lia.
  - apply Z.testbit_false; [lia|]. by rewrite Z.div_small by lia.
Qed.

Lemma leading_zeros_spec n : ∀ fuel x d,
  (n ≤ fuel)%nat → (n ≤ 31)%nat → 2 ^ (31 - Z.of_nat n) <= x < 2 ^ (32 - Z.of_nat n) →
  0 <= d → d + Z.of_nat n < 2 ^ 32 →
  leading_zeros fuel x d = d + Z.of_nat n.
Proof.
  induction n as [|n IH]; intros fuel x d Hf Hn Hx Hd Hb.
  - assert (Z.testbit x 31 = true) as Ht by (rewrite top_bit; [apply Z.leb_le|]; simpl in Hx; lia).
    destruct fuel; cbn [leading_zeros]; rewrite Ht; lia.
  - replace (32 - Z.of_nat (S n)) with (31 - Z.of_nat n) in Hx by lia.
    assert (2 ^ (31 - Z.of_nat n) <= 2 ^ 31) by (apply Z.pow_le_mono_r; lia).
    assert (0 < 2 ^ (31 - Z.of_nat (S n))) by (apply Z.pow_pos_nonneg; lia).
    destruct fuel as [|fuel]; [lia|]. cbn [leading_zeros]. rewrite top_bit by lia.
    rewrite (proj2 (Z.leb_gt _ _)) by lia.
    rewrite (u32_id (d + 1)) by (unfold is_u32; lia).
    rewrite Z.shiftl_mul_pow2 by lia. change (2 ^ 1) with 2.
    rewrite u32_id by (unfold is_u32; lia).
    rewrite IH; [lia|lia|lia| |lia|lia]. split.
    + replace (31 - Z.of_nat n) with (Z.succ (31 - Z.of_nat (S n))) by lia.
      rewrite Z.pow_succ_r by lia. lia.
    + replace (32 - Z.of_nat n) with (Z.succ (31 - Z.of_nat n)) by lia.
      rewrite Z.pow_succ_r by lia. lia.
Qed.

(** The number of leading bits two words have in common. *)
Definition common_bits (x y : Z) : Z :=
  if x =? y then 32 else 31 - Z.log2 (Z.lxor x y).

Lemma lxor_range n x y : 0 <= n → 0 <= x < 2 ^ n → 0 <= y < 2 ^ n → 0 <= Z.lxor x y < 2 ^ n.
Proof.
  intros Hn Hx Hy. split; [by apply Z.lxor_nonneg; split; lia|].
  destruct (Z.eq_dec (Z.lxor x y) 0) as [->|Hne]; [apply Z.pow_pos_nonneg; lia|].
  assert (0 <= Z.lxor x y) by (apply Z.lxor_nonneg; split; lia).
  apply Z.log2_lt_pow2; [lia|]. pose proof (Z.log2_lxor x y ltac:(lia) ltac:(lia)).
  assert (∀ z, 0 <= z < 2 ^ n → Z.log2 z < n ∨ z = 0 ∧ Z.log2 z = 0) as Hlog.
  { intros z Hz. destruct (Z.eq_dec z 0) as [->|]; [by right|left]. apply Z.log2_lt_pow2; lia. }
  destruct (Hlog x Hx) as [?|[-> ?]], (Hlog y Hy) as [?|[-> ?]]; try lia.
  all: by rewrite ?Z.lxor_0_l, ?Z.lxor_0_r in *.
Qed.

Lemma distance_step_spec d x y :
  0 <= d <= 128 → is_u32 x → is_u32 y → distance_step d (x, y) = d + common_bits x y.
Proof.
  intros Hd Hx Hy. unfold distance_step, common_bits. cbn [fst snd].
  destruct (Z.eqb_spec x y) as [->|Hne].
  - rewrite Z.lxor_nilpotent. simpl. rewrite u32_id by (unfold is_u32; lia). done.
  - pose proof (lxor_range 32 x y ltac:(lia) Hx Hy) as Hr.
    assert (Z.lxor x y ≠ 0) as Hn by (intros E; by apply Z.lxor_eq in E).
    rewrite (proj2 (Z.eqb_neq _ _) Hn). set (z := Z.lxor x y) in *.
    pose proof (Z.log2_nonneg z). assert (Z.log2 z < 32) by (apply Z.log2_lt_pow2; lia).
    pose proof (Z.log2_spec z ltac:(lia)) as Hlog.
    rewrite (leading_zeros_spec (Z.to_nat (31 - Z.log2 z))); try lia.
    replace (31 - Z.of_nat (Z.to_nat (31 - Z.log2 z))) with (Z.log2 z) by lia.
    replace (32 - Z.of_nat (Z.to_nat (31 - Z.log2 z))) with (Z.succ (Z.log2 z)) by lia. done.
Qed.

Lemma be_word_u32 b : Forall is_u8 b → is_u32 (be_word b).
Proof.
  intros Hb. unfold be_word. assert (∀ i, 0 <= nth i b 0 < 2 ^ 8) as Hn.
  { intros i. rewrite nth_lookup. destruct (b !! i) as [x|] eqn:E; simpl; [|lia].
    rewrite Forall_forall in Hb. apply Hb. by eapply list_elem_of_lookup_2. }
  pose proof (Hn 0%nat). pose proof (Hn 1%nat). pose proof (Hn 2%nat). pose proof (Hn 3%nat).
  unfold is_u32. lia.
Qed.

(** the distance of two IPv4 addresses is the length of their longest common
    prefix as 128-bit addresses: 96 zero bits and the leading bits they share. *)
Theorem ip_distance_ipv4 a b (Ha : Forall is_u8 a) (Hb : Forall is_u8 b) :
  ip_distance (AF_INET a) (AF_INET b) = 96 + common_bits (be_word a) (be_word b).
Proof.
  change (ip_distance (AF_INET a) (AF_INET b)) with (distance_step 96 (be_word a, be_word b)).
  apply distance_step_spec; [lia|by apply be_word_u32..].
Qed.

Lemma ip_distance_ipv4_witness :
  ip_distance (AF_INET [10; 0; 0; 1]) (AF_INET [10; 0; 0; 2]) = 96 + 30.
Proof.
  rewrite (ip_distance_ipv4 [10; 0; 0; 1] [10; 0; 0; 2]) by (repeat constructor; done).
  reflexivity.
Defined.

(** for IPv6 the sum of the leading zeros of each word is not the common
    prefix the comment describes: 1::1 and 2::1 share their first 14 bits only,
    but count as close as addresses that share 110. *)
Theorem ip_distance_not_prefix :
  let a := AF_INET6 [0; 1; 0; 0; 0; 0; 0; 0; 0; 0; 0; 0; 0; 0; 0; 1] in
  let b := AF_INET6 [0; 2; 0; 0; 0; 0; 0; 0; 0; 0; 0; 0; 0; 0; 0; 1] in
  common_bits (nth 0 (ip_key a) 0) (nth 0 (ip_key b) 0) = 14 ∧ ip_distance a b = 110.
Proof. split; vm_compute; reflexivity. Qed.

(** *** Two nodes and three addresses *)

(** An insertion sort with the comparison of the code. *)
Fixpoint qsort_insert (x : Z * Z) (l : list (Z * Z)) : list (Z * Z) :=
  match l with
  | [] => [x]
  | y :: l => if lcp2_cmp_imbalance_pnn x y <=? 0 then x :: y :: l else y :: qsort_insert x l
  end.
Definition insertion_sort (l : list (Z * Z)) : list (Z * Z) := foldr qsort_insert [] l.

Definition addr1 : ctdb_sock_addr := AF_INET [10; 0; 0; 1].
Definition addr2 : ctdb_sock_addr := AF_INET [10; 0; 0; 2].
Definition addr3 : ctdb_sock_addr := AF_INET [192; 168; 0; 1].

(** Both nodes know the addresses; node 0 hosts them. *)
Definition two_nodes : list takeover_node :=
  let known := [mk_ip 0 addr1; mk_ip 0 addr2; mk_ip 0 addr3] in
  [mk_tnode 0 0 (Some known) (Some known); mk_tnode 1 0 (Some known) (Some known)].
Definition two_flags : list ctdb_ipflags := [mk_ipflags false false; mk_ipflags false false].
Definition three_ips : list ctdb_public_ip := [mk_ip 0 addr1; mk_ip 0 addr2; mk_ip 0 addr3].
Definition lcp2_tunables : takeover_tunables := mk_tunables 1 0 0.
Definition nofb_tunables : takeover_tunables := mk_tunables 1 0 1.

Lemma two_flags_max : Z.of_nat (numnodes two_flags) < NOPNN.
Proof. done. Qed.

Lemma two_nodes_pnn node : node ∈ two_nodes → 0 <= tn_pnn node.
Proof.
  unfold two_nodes. rewrite !elem_of_cons, elem_of_nil. by intros [->|[->|[]]].
Qed.

Lemma two_nodes_numbered : numbered two_nodes.
Proof. intros [|[|[|i]]] node; simpl; [by intros [= <-]..|done|done]. Qed.

Lemma takeover_run_correct_witness :
  ∃ all_ips, ctdb_takeover_run_core two_nodes two_flags insertion_sort (Z.to_nat 600000)
               lcp2_tunables None = Some all_ips
  ∧ ∃ ip, ip ∈ all_ips ∧ ip_addr ip = addr1
  ∧ (ip_pnn ip ≠ NOPNN → can_host two_nodes two_flags (ip_pnn ip) ip = true).
Proof.
  destruct (takeover_run_correct two_nodes two_flags insertion_sort (Z.to_nat 600000)
    lcp2_tunables None two_flags_max eq_refl two_nodes_numbered) as (l & E & _ & Hk & Hl).
  - vm_compute; discriminate.
  - rewrite Z2Nat.id by lia. vm_compute; discriminate.
  - exists l. split; [exact E|]. destruct (Hk addr1) as (ip & Hin & _ & Ha).
    + eexists _, _, (mk_ip 0 addr1). split; [apply list_elem_of_here|]. split; [reflexivity|].
      split; [reflexivity|]. split; [apply list_elem_of_here|reflexivity].
    + exists ip. split; [exact Hin|]. split; [|by apply (Hl ip Hin)]. apply Ha. clear.
      intros addr' (node & ips & ip & Hn & _ & Hk & Hin & <-) Hkey. unfold two_nodes in Hn.
      apply elem_of_cons in Hn as [->|Hn]; [|apply list_elem_of_singleton in Hn as ->];
        injection Hk as <-; apply elem_of_cons in Hin as [->|[->|[->|[]%elem_of_nil]%elem_of_cons]%elem_of_cons];
        first [reflexivity|discriminate Hkey].
Defined.

Lemma ipflags_host_nodes_witness :
  nth 1 [CTDB_RUNSTATE_RUNNING; CTDB_RUNSTATE_RUNNING] CTDB_RUNSTATE_UNKNOWN = CTDB_RUNSTATE_RUNNING.
Proof.
  destruct (ipflags_host_nodes two_nodes [0; 0] [0; 0] [0; 0]
    [CTDB_RUNSTATE_RUNNING; CTDB_RUNSTATE_RUNNING] 1 (mk_ip 0 addr1)) as [Hh _]; [lia|].
  destruct Hh as (flags & _ & Hr & _); [reflexivity|exact Hr].
Defined.

Lemma no_failback_keeps_witness :
  ∃ all_ips, ctdb_takeover_run_core two_nodes two_flags insertion_sort 0 nofb_tunables None
    = Some all_ips ∧ all_ips !! 0%nat = Some (mk_ip 0 addr3).
Proof.
  eexists. split; [vm_compute; reflexivity|].
  eapply (no_failback_keeps two_nodes two_flags insertion_sort 0 nofb_tunables None _ _ 0 (mk_ip 0 addr3)
    two_flags_max two_nodes_pnn);
    [reflexivity|by left|vm_compute; reflexivity|vm_compute; reflexivity|reflexivity|done|reflexivity].
Defined.

Lemma deterministic_home_witness :
  ip_alloc_deterministic_ips two_nodes two_flags three_ips !! 1%nat = Some (mk_ip 1 addr2).
Proof.
  apply (deterministic_home two_nodes two_flags three_ips 1 (mk_ip 0 addr2) two_flags_max);
    reflexivity.
Defined.

Lemma basic_failback_balanced_witness :
  ∃ l', basic_failback two_nodes two_flags three_ips 3 = Some l'
  ∧ ∀ ip, ip ∈ l' → ip_pnn ip ≠ NOPNN → balanced two_nodes two_flags l' ip.
Proof.
  destruct (basic_failback_balanced two_nodes two_flags three_ips 3 two_flags_max)
    as (l' & E & _ & Hb); [lia|].
  exists l'. split; [exact E|]. apply Hb. eexists. vm_compute. reflexivity.
Defined.

Lemma lcp2_allocate_exact_witness :
  ∃ l' imbl', lcp2_allocate_unassigned two_nodes two_flags
    [mk_ip NOPNN addr1; mk_ip 0 addr2] (lcp2_init two_flags [mk_ip NOPNN addr1; mk_ip 0 addr2] None).1
    = Some (l', imbl') ∧ imbalance_at imbl' 0 = lcp2_imbalance l' 0.
Proof.
  destruct (lcp2_allocate_exact two_nodes two_flags [mk_ip NOPNN addr1; mk_ip 0 addr2] None
    two_flags_max) as (l' & imbl' & E & Hex).
  exists l', imbl'. split; [exact E|]. apply Hex. by split.
Defined.

Lemma lcp2_failback_terminates_witness :
  ∃ l' imbl', lcp2_failback two_nodes two_flags insertion_sort (Z.to_nat 600000) three_ips
    (lcp2_imbalance three_ips <$> [0; 1]) [false; true] = Some (l', imbl')
  ∧ ip_addr <$> l' = [addr1; addr2; addr3].
Proof.
  destruct (lcp2_failback_terminates two_nodes two_flags insertion_sort (Z.to_nat 600000) three_ips
    (lcp2_imbalance three_ips <$> [0; 1]) [false; true] two_flags_max) as (l' & imbl' & E & Ha & _).
  - vm_compute; discriminate.
  - apply Z2Nat.inj_le; [vm_compute; discriminate|lia|vm_compute; discriminate].
  - exists l', imbl'. split; [exact E|exact Ha].
Defined.

(** [lcp2_failback_candidate] records for the source node the imbalance that
    removing the last address considered would leave, not the one that moved:
    here the first address leaves node 0, and the imbalance kept
    for node 0 is not the one of the addresses that stay. *)
Theorem failback_candidate_stale :
  ∃ l' imbl',
    lcp2_failback_candidate two_nodes two_flags three_ips 0 (lcp2_imbalance three_ips 0)
      (lcp2_imbalance three_ips <$> [0; 1]) [false; true] = Some (l', imbl')
    ∧ imbalance_at imbl' 0 ≠ lcp2_imbalance l' 0
    ∧ imbalance_at imbl' 1 = lcp2_imbalance l' 1.
Proof.
  eexists _, _. split; [vm_compute; reflexivity|]. split; [vm_compute; discriminate|reflexivity].
Qed.
